(* ===== verification/_CoqProject ===== *)
-Q . S2P
Prelude.v
Bytes.v
Kstring.v
Lexer.v
Parser.v
Jobs.v
Exec.v
Builtins.v
Reveal.v
Snoop.v
Spy.v
Peek.v
Hop.v
Shell.v
Main.v
Sched.v
Pipe.v
Bio.v
Log.v
Txn.v
Fs.v
FsBlocks.v
FsContent.v
FsTrunc.v
Inode.v
Dir.v
Kalloc.v
Vm.v
PageTable.v
UserMem.v
Uvm.v
UvmFree.v
UvmCopy.v
File.v
SysFile.v
Kexec.v
Account.v
FileInv.v
SysInv.v
Ulib.v
Printf.v
Console.v
Printk.v
Grep.v
Ush.v
UshParse.v
UshRun.v
Umalloc.v
Spinlock.v
Sleeplock.v
Virtio.v
VirtioInv.v
Mkfs.v
MkfsInv.v
MkfsTree.v
Trampoline.v
Trap.v
Sysproc.v
Uprogs.v
Helpers.v
