(* ===== verification/Prelude.v ===== *)
(** * Verification of the [c-shell] command interpreter and of xv6

    The repository holds two programs: a command interpreter for Linux
    ([c-shell/]) and the teaching operating system xv6 extended with three
    process schedulers ([xv6/]).  This development models the code of both as
    executable definitions, one file per component, and proves what makes
    each component correct.

    ** The programs and their parts

    The shell reads a line ([main.c]), cuts it into tokens ([lexer.c]), checks
    it against a grammar ([parser.c]) and runs it: [execute_command_line] of
    [jobs.c] separates commands at [;] and [&], [execute.c] separates the
    stages of a pipeline, opens files, creates processes and connects them.
    Processes that run in the background or were stopped live in the table of
    [jobs.c], which the SIGCHLD handler updates.  The commands [hop] (change
    the directory, with a history of visited directories), [peek] (print
    files), [reveal] (list a directory), [locate] (find programs), [resume] and
    [ping] (continue and signal jobs), [snoop] (count system calls) and [spy]
    (list the files of a process) run inside the shell.

    The kernel: a trap enters through [trampoline.S] and [trap.c], which call
    the handlers of [syscall.c], [sysproc.c] and [sysfile.c] or those of the devices
    ([console.c], [uart.c], [virtio_disk.c], [plic.c]).  [proc.c] holds the
    process table and the schedulers (round robin, FIFO, MLFQ), [vm.c] and
    [kalloc.c] the memory, [exec.c] starts programs.  Files ([file.c],
    [pipe.c]) rest on inodes and directories ([fs.c]), these on the log
    ([log.c]), the log on the buffer cache ([bio.c]), the cache on the disk.
    [spinlock.c] and [sleeplock.c] protect all of it; [mkfs.c] makes the disk
    image.  In user space run the library ([ulib.c], [printf.c], [umalloc.c]),
    the xv6 shell ([sh.c]), [grep] and small programs.

    ** Files

    Foundations:
    - [Prelude]: outcomes of C code (normal return, undefined behaviour,
      [exit], [panic], a model loop out of fuel) with their sequencing
      [let*] and the predicates [safe] and [wp]; machine integers, C strings
      and buffers, [atoi], [%d] and [fgets]; shared tactics and the hint
      database [cver].  [Bytes]: little-endian words in lists of bytes.
      [Kstring] ([kernel/string.c]).

    The command interpreter:
    - [Lexer], [Parser], [Jobs], [Exec], [Helpers] (the processes that copy for
      several redirections), [Builtins] ([resume.c], [ping.c], [locate.c]), [Reveal], [Snoop], [Spy], [Peek], [Hop], [Shell] (the
      commands together, as the executor calls them) and [Main] (the loop as a step
      on input events).  Linux is reached through classes of operations with
      their laws: [ProcOS] (processes and signals) and [AlarmOS] (the alarm), [ExecOS] and [FdLaws] (descriptors),
      [RevealOS], [TraceOS], [SpyOS], [DirOS] and [DirLaws] (directories).

    The kernel:
    - [Sched] ([proc.c], the timer part of [trap.c]): the record [kernel], one
      function per kernel function, the transition relation [kstep].
      [Spinlock], [Sleeplock]: the locks, cut at their atomic accesses, over
      all interleavings.  [Pipe]: the ring buffer.
    - [Bio], [Log], [Txn]: the buffer cache, the log over it, and transactions
      with crashes at every write.  [Fs], [FsBlocks], [FsContent], [FsTrunc]:
      blocks, inodes and their contents.  [Inode], [Dir]: the inode table,
      directories and paths.
    - [Kalloc], [Vm], [PageTable], [UserMem], [Uvm], [UvmFree], [UvmCopy]: pages,
      page tables, copies between kernel and user, address spaces.
    - [File], [SysFile], [Kexec]: open files, the system calls on them, [exec];
      [Account], [FileInv], [SysInv]: the counting of references over all of these.
    - [Trampoline] (control registers, the assembly as lists of instructions), [Trap]
      ([trap.c], [syscall.c], [plic.c]), [Sysproc] ([sysproc.c]).
    - [Console] ([console.c], [uart.c]), [Printk], [Virtio] and [VirtioInv]
      ([virtio_disk.c]).  [Mkfs], [MkfsInv], [MkfsTree] ([mkfs.c]).

    User space: [Ulib], [Printf], [Umalloc], [Grep], [Ush], [UshParse],
    [UshRun] ([sh.c]) and [Uprogs] (wc, cat, echo, ls, kill, ln, mkdir, rm).

    Layers are connected by classes: [BlockCache]/[CacheLaws] between the log
    and the cache, [TxStore]/[TxLaws] between the file system and the log,
    [PageStore]/[PageLaws] between page tables and pages,
    [Transfers]/[TransferLaws] between files and user memory,
    [ReadOS]/[ReadLaws] and [SbrkOS]/[SbrkLaws] between user programs and the
    kernel, [TrapOS]/[TrapLaws] between the trap code and the rest.  The upper layer is proved
    against the class and the lower one is an instance of it.

    ** What is proved

    - The lexer stops on every line, stays inside its arrays and computes the
      abstract lexer; lexing inverts printing.  The parser decides its grammar
      on every token list.  What the parser accepts, the executor can run.
    - The job table keeps its bounds and distinct job numbers under every
      interleaving of its operations with the signal handler, and when a
      command line with any built-in commands returns; resuming with a timeout
      returns because the alarm was armed.
    - What a stage of an accepted line runs with are exactly its words and
      redirections; every stage of a pipeline gets exactly its two pipe ends and
      no path of the executor leaks a descriptor (but for a failing [pipe] call).
    - [peek] reads backwards in chunks correctly for every chunk size, [hop]
      finds the best entry of its history, [reveal] prints the sorted tree
      whatever order [readdir] uses.
    - Every reachable kernel state has each running process on exactly one CPU,
      live parents, distinct process numbers and valid MLFQ levels; each
      scheduler picks what its policy says.  Locks have one owner and nobody
      sleeps on a free lock.
    - The pointers of the buffer cache form one circle of all buffers in both
      directions.  A transaction is atomic under crashes at any write.  Reading a file gives
      what was written; paths resolve to what the directories say; descriptors,
      files, inodes and pages are counted exactly by every system call.  The
      image that [mkfs] builds satisfies what these theorems ask of a disk.
    - Copies to and from user memory agree with the page table and are inverse; [fork]
      copies an address space, [sbrk] moves its end, and freeing one returns
      all its pages.
    - A trap is transparent: registers saved by the assembly are those that the
      C code and the return find, and the kernel is prepared for the next one.
    - Every interleaving of requests, interrupts and the disk refines a disk
      with atomic requests; the console ring refines a line discipline; a pipe
      is a first-in first-out queue.
    - The xv6 shell parses its language and runs what it parsed; the allocator
      of user space never hands out a byte twice and loses none; [grep] prints the matching lines,
      [wc] counts, and [printf] stays inside its buffer.
    - Some theorems show weaknesses of the code: an array of redirections
      that overflows, leaked pipes, a feeder process that never ends, a log that overflows and panics, an unfair
      MLFQ queue, redirected built-in commands that crash the shell, long lines
      that [grep] skips.

    ** Fuel and bounds

    Loops over positions of a line carry as fuel the number of positions plus
    one (the lexer, [read_lines], the history file, the command loop), the
    parser two calls per token plus three, a walk along the list of buffers
    [NBUF] + 1 rounds, the parser of [sh.c] four calls per
    token plus four; the theorems state that the result is a normal return, so
    the fuel suffices.  Loops over arrays are structural.  [jobs_resume_fg]
    polls until a signal or the end of its processes: its theorem gives the
    number of polls from the armed alarm.  [reveal] recurses at most as deep as the
    tree, [snoop] makes one round per stop of the traced process.  [readi],
    [writei] and [loadseg] make at most [MAXFILE] + 2 rounds, [filewrite] n + 1, copies to user memory one
    per page and two more, [freewalk] descends three levels, [malloc] and
    [free] two rounds per header and four more, [free_chain] one per descriptor
    and one more, [printint] 65 digits, [iappend] a round per byte at most, the
    loops on a descriptor ([grep], [wc], [cat], the helpers of redirections) a
    round per byte and one more.
    A transaction writes at most [TXCAP] = 27 blocks, itrunc frees within one
    bitmap block (the image has one), a page fault needs up to three free
    pages.  Integers whose width matters are wrapped at it ([wrap32], [u32],
    [u64]) or lead to [Undef] where C leaves signed overflow undefined.

    ** What is not modelled

    In the shell, memory allocation failure is modelled in the lexer only and
    [free] has no counterpart; text that [perror] writes is left out; the SIGCHLD
    handler runs between the operations on the job table and in the pauses of
    the loop of [jobs_resume_fg], not inside its passes; [hop] reads the clock
    once per lookup.  In the kernel,
    steps are atomic where the code holds the lock that protects the data (the
    locks themselves are modelled with a sequentially consistent memory), and
    the boot code ([entry.S], [start.c], the order of calls in [main.c]), the
    page table of the kernel ([kvmmake]) and the set-up of the UART are left out.
    A call of [bget] that would sleep on a locked buffer does not return
    ([NoFuel]); [fork] is one step; [sched] is the switch without the checks
    before it; system calls on pipes use laws of the transfers ([Transfers])
    while [Pipe] has the ring itself.  [mkfs] is modelled on a disk whose seeks
    and writes succeed.  Of user space, the test programs
    ([usertests.c], [grind.c] and others), [init], and a failing [malloc] or [fork]
    in [sh.c] are not modelled. *)

From Stdlib Require Export Ascii.
From stdpp Require Export base numbers strings gmap sets pretty option list sorting relations.

(** The files of the development open this scope for the C-level notations
    (sequencing of C statements that can leave the normal path). *)
Declare Scope c_scope.
Delimit Scope c_scope with c.

(** ** Outcomes of C code

    A C function returns normally, reaches undefined behaviour, leaves the
    process with [exit], stops the kernel with [panic], or (only in a model)
    exhausts the fuel of a loop. *)
Inductive outcome (A : Type) : Type :=
| Ret (a : A)
| Undef
| NoFuel
| Exit (code : Z)
| Panic (msg : string).
Arguments Ret {A} a.
Arguments Undef {A}.
Arguments NoFuel {A}.
Arguments Exit {A} code.
Arguments Panic {A} msg.

Definition obind {A B} (m : outcome A) (k : A -> outcome B) : outcome B :=
  match m with
  | Ret a => k a
  | Undef => Undef
  | NoFuel => NoFuel
  | Exit c => Exit c
  | Panic s => Panic s
  end.

Notation "'let*' x ':=' m 'in' k" := (obind m (fun x => k))
  (at level 10, x name, m at level 200, k at level 200) : c_scope.
Notation "'let*' ' p ':=' m 'in' k" := (obind m (fun x => let 'p := x in k))
  (at level 10, p pattern, m at level 200, k at level 200) : c_scope.
Open Scope c_scope.

(** [safe m]: the code neither reaches undefined behaviour nor runs out of
    the fuel its model gives to its loops. *)
Definition safe {A} (m : outcome A) : Prop := m <> Undef /\ m <> NoFuel.

Lemma obind_ret {A B} (a : A) (k : A -> outcome B) : obind (Ret a) k = k a.
Proof. done. Qed.

Lemma obind_inv {A B} (m : outcome A) (k : A -> outcome B) b :
  obind m k = Ret b -> exists a, m = Ret a /\ k a = Ret b.
Proof. destruct m; naive_solver. Qed.

Lemma safe_ret {A} (a : A) : safe (Ret a).
Proof. split; congruence. Qed.

Lemma safe_bind {A B} (m : outcome A) (k : A -> outcome B) :
  safe m -> (forall a, m = Ret a -> safe (k a)) -> safe (obind m k).
Proof. unfold safe; destruct m; naive_solver. Qed.

(** Weakest precondition of an outcome: a normal return satisfies [Q], an
    [exit(c)] satisfies [E], and nothing else happens (no undefined behaviour,
    no panic, no loop out of fuel). *)
Definition wp {A} (E : Z -> Prop) (m : outcome A) (Q : A -> Prop) : Prop :=
  match m with
  | Ret a => Q a
  | Exit c => E c
  | _ => False
  end.

Lemma wp_bind {A B} E (m : outcome A) (k : A -> outcome B) Q :
  wp E m (fun a => wp E (k a) Q) -> wp E (obind m k) Q.
Proof. by destruct m. Qed.

Lemma wp_mono {A} E (m : outcome A) (Q Q' : A -> Prop) :
  wp E m Q -> (forall a, Q a -> Q' a) -> wp E m Q'.
Proof. destruct m; simpl; auto. Qed.

Lemma wp_safe {A} E (m : outcome A) Q : wp E m Q -> safe m.
Proof. destruct m; simpl; intros; by split. Qed.

Lemma wp_total {A} E (m : outcome A) Q :
  wp E m Q -> (forall c, ~ E c) -> exists a, m = Ret a /\ Q a.
Proof. destruct m; simpl; naive_solver. Qed.

Definition from_option {A} (o : option A) : outcome A :=
  match o with Some a => Ret a | None => Undef end.

(** ** Machine integers *)
Definition INT_MAX : Z := 2147483647.

(** Two's complement wrap-around at 32 bits, and unsigned reduction at 32
    and 64 bits. *)
Definition wrap32 (z : Z) : Z := ((z + 2147483648) `mod` 4294967296 - 2147483648)%Z.
Definition u32 (z : Z) : Z := (z `mod` 4294967296)%Z.
Definition u64 (z : Z) : Z := (z `mod` 18446744073709551616)%Z.

Lemma wrap32_small z : (-2147483648 <= z <= INT_MAX)%Z -> wrap32 z = z.
Proof. unfold wrap32, INT_MAX. intros. rewrite Z.mod_small; lia. Qed.

Lemma u32_small z : (0 <= z < 4294967296)%Z -> u32 z = z.
Proof. apply Z.mod_small. Qed.

Lemma u32_range z : (0 <= u32 z < 4294967296)%Z.
Proof. unfold u32. apply Z.mod_pos_bound. lia. Qed.

Lemma u64_small z : (0 <= z < 18446744073709551616)%Z -> u64 z = z.
Proof. apply Z.mod_small. Qed.

(** ** C strings

    A C string is the list of its characters, without the terminating NUL.
    A [char] array that may hold anything is a [buf]: a list of bytes, [None]
    where the byte was never written. *)
Abbreviation cstr := (list ascii).
Definition c_str (s : string) : cstr := String.list_ascii_of_string s.

Definition NUL : ascii := ascii_of_nat 0.
Definition NEWLINE : ascii := ascii_of_nat 10.
Definition TAB : ascii := ascii_of_nat 9.
Definition CR : ascii := ascii_of_nat 13.
Definition DQUOTE : ascii := ascii_of_nat 34.
Definition SQUOTE : ascii := ascii_of_nat 39.
Definition BACKSLASH : ascii := ascii_of_nat 92.
Definition SPACE : ascii := ascii_of_nat 32.

#[global] Instance ascii_eq_decision : EqDecision ascii := ascii_dec.

Abbreviation buf := (list (option ascii)).

(** [malloc]/[realloc] of a [char] array: the old bytes, then unwritten ones. *)
Definition buf_alloc (n : nat) : buf := replicate n None.
Definition buf_realloc (n : nat) (b : buf) : buf := take n b ++ replicate (n - length b) None.

(** A store outside the array is undefined behaviour. *)
Definition buf_store (b : buf) (i : nat) (c : ascii) : outcome buf :=
  if decide (i < length b) then Ret (<[i := Some c]> b) else Undef.

(** Reading the array as a C string stops at the first NUL; an unwritten byte
    or the end of the array before a NUL is undefined behaviour. *)
Fixpoint buf_cstr (b : buf) : outcome cstr :=
  match b with
  | Some c :: b' =>
      if decide (c = NUL) then Ret [] else let* s := buf_cstr b' in Ret (c :: s)
  | _ => Undef
  end.

(** The part of a list of characters before its first NUL, and [strlen]. *)
Fixpoint cstr_prefix (l : list ascii) : cstr :=
  match l with
  | [] => []
  | c :: l' => if decide (c = NUL) then [] else c :: cstr_prefix l'
  end.

Definition strlen (l : list ascii) : nat := length (cstr_prefix l).

Definition no_nul (l : list ascii) : Prop := NUL ∉ l.

#[global] Instance no_nul_dec l : Decision (no_nul l).
Proof. unfold no_nul. apply _. Defined.

Lemma no_nul_cons c l : no_nul (c :: l) <-> c <> NUL /\ no_nul l.
Proof. unfold no_nul. set_solver. Qed.

Lemma no_nul_app l1 l2 : no_nul (l1 ++ l2) <-> no_nul l1 /\ no_nul l2.
Proof. unfold no_nul. set_solver. Qed.

Lemma cstr_prefix_no_nul l : no_nul l -> cstr_prefix l = l.
Proof.
  induction l as [|c l IH]; intros H; [done|].
  apply no_nul_cons in H as [? ?]. simpl. rewrite decide_False; [|done]. by rewrite IH.
Qed.

Lemma cstr_prefix_stop s r : no_nul s -> cstr_prefix (s ++ NUL :: r) = s.
Proof.
  induction s as [|c s IH]; intros Hs; [done|]. apply no_nul_cons in Hs as [Hc Hs].
  simpl. rewrite decide_False by done. by rewrite IH.
Qed.

Lemma no_nul_drop n l : no_nul l -> no_nul (drop n l).
Proof. unfold no_nul. rewrite <-(take_drop n l) at 1. set_solver. Qed.

Lemma no_nul_cstr_prefix l : no_nul (cstr_prefix l).
Proof.
  induction l as [|c l IH]; simpl; [unfold no_nul; set_solver|].
  case_decide; [unfold no_nul; set_solver|]. by apply no_nul_cons.
Qed.

Lemma strlen_no_nul l : no_nul l -> strlen l = length l.
Proof. intros. unfold strlen. by rewrite cstr_prefix_no_nul. Qed.

(** [strncpy(dst, src, size - 1); dst[size - 1] = '\0'] keeps the first
    [size - 1] characters. *)
Definition strncpy_buf (size : nat) (s : cstr) : cstr := take (size - 1) s.

(** [strcmp(a, b) == 0] *)
Definition streq (a b : cstr) : bool := bool_decide (a = b).

(** [strcmp] as a comparison of unsigned characters. *)
Fixpoint strcmp (a b : cstr) : Z :=
  match a, b with
  | [], [] => 0
  | [], _ => -1
  | _, [] => 1
  | x :: a', y :: b' =>
      if decide (x = y) then strcmp a' b'
      else Z.of_nat (nat_of_ascii x) - Z.of_nat (nat_of_ascii y)
  end%Z.

(** [qsort] with a comparison function; where the comparison tells all
    elements apart, every sorting algorithm gives this result. *)
Fixpoint qsort_insert {A} (cmp : A -> A -> Z) (a : A) (l : list A) : list A :=
  match l with
  | [] => [a]
  | b :: l' => if (cmp a b <=? 0)%Z then a :: l else b :: qsort_insert cmp a l'
  end.
Fixpoint qsort {A} (cmp : A -> A -> Z) (l : list A) : list A :=
  match l with
  | [] => []
  | a :: l => qsort_insert cmp a (qsort cmp l)
  end.

Lemma qsort_insert_perm {A} (cmp : A -> A -> Z) a l : qsort_insert cmp a l ≡ₚ a :: l.
Proof.
  induction l as [|b l IH]; simpl; [done|]. case_match; [done|].
  rewrite IH. apply Permutation_swap.
Qed.

Lemma qsort_perm {A} (cmp : A -> A -> Z) l : qsort cmp l ≡ₚ l.
Proof. induction l as [|a l IH]; simpl; [done|]. by rewrite qsort_insert_perm, IH. Qed.

(** The laws of a comparison function on the elements to sort. *)
Section sorting.
Context {A : Type} (cmp : A -> A -> Z) (P : A -> Prop).
Hypothesis cmp_total : forall a b, P a -> P b -> (0 < cmp a b -> cmp b a <= 0)%Z.
Hypothesis cmp_trans : forall a b c, P a -> P b -> P c ->
  (cmp a b <= 0 -> cmp b c <= 0 -> cmp a c <= 0)%Z.

Lemma qsort_insert_ordered a l : P a -> Forall P l ->
  StronglySorted (fun a b => cmp a b <= 0)%Z l ->
  StronglySorted (fun a b => cmp a b <= 0)%Z (qsort_insert cmp a l).
Proof.
  intros Ha Hl Hs. induction Hs as [|b l Hs IH Hb]; simpl; [repeat constructor|].
  apply Forall_cons in Hl as [Pb Hl]. destruct (Z.leb_spec (cmp a b) 0) as [Hab|Hab].
  - constructor; [by constructor|]. constructor; [done|].
    rewrite Forall_forall in Hl, Hb |- *. intros c Hc. apply cmp_trans with b; auto.
  - constructor; [by apply IH|]. rewrite qsort_insert_perm. constructor; [|done]. auto.
Qed.

Lemma qsort_ordered l : Forall P l -> StronglySorted (fun a b => cmp a b <= 0)%Z (qsort cmp l).
Proof.
  induction 1 as [|a l Ha Hl IH]; simpl; [constructor|].
  apply qsort_insert_ordered; [done| |done]. by rewrite qsort_perm.
Qed.
End sorting.

(** The elements of a list in the order in which they first occur. *)
Section distinct.
Context {A : Type} `{EqDecision A}.

Definition see (acc : list A) (a : A) : list A := if decide (a ∈ acc) then acc else acc ++ [a].
Definition distinct (l : list A) : list A := foldl see [] l.

Lemma distinct_snoc l a : distinct (l ++ [a]) = see (distinct l) a.
Proof. unfold distinct. by rewrite foldl_app. Qed.

Lemma distinct_NoDup l : NoDup (distinct l).
Proof.
  induction l as [|a l IH] using rev_ind; [constructor|]. rewrite distinct_snoc. unfold see.
  case_decide; [done|]. apply NoDup_app. split; [done|]. split; [|apply NoDup_singleton]. set_solver.
Qed.

Lemma distinct_elem l a : a ∈ distinct l <-> a ∈ l.
Proof.
  induction l as [|b l IH] using rev_ind; [done|]. rewrite distinct_snoc. unfold see.
  case_decide; set_solver.
Qed.
End distinct.

Lemma filter_all {A} (P : A -> Prop) `{!forall x, Decision (P x)} (l : list A) :
  (forall x, x ∈ l -> P x) -> filter P l = l.
Proof.
  induction l as [|a l IH]; intros Hl; [done|]. rewrite filter_cons, decide_True by set_solver.
  f_equal. apply IH. set_solver.
Qed.

Lemma sorted_impl {A} (R R' : A -> A -> Prop) l :
  (forall a b, R a b -> R' a b) -> StronglySorted R l -> StronglySorted R' l.
Proof. intros HR. induction 1; constructor; [done|]. eauto using Forall_impl. Qed.

Lemma sorted_filter {A} (R : A -> A -> Prop) (P : A -> Prop) `{!forall x, Decision (P x)} l :
  StronglySorted R l -> StronglySorted R (filter P l).
Proof.
  induction 1 as [|a l Hs IH Ha]; [constructor|]. rewrite filter_cons. case_decide; [|done].
  constructor; [done|]. rewrite Forall_forall in Ha |- *. intros b Hb.
  apply Ha. by apply list_elem_of_filter in Hb as [_ ?].
Qed.

Lemma ascii_ne_nat x y : x <> y -> nat_of_ascii x <> nat_of_ascii y.
Proof. intros Hne E. apply Hne. by rewrite <-(ascii_nat_embedding x), <-(ascii_nat_embedding y), E. Qed.

Lemma strcmp_opp a : forall b, strcmp b a = (- strcmp a b)%Z.
Proof.
  induction a as [|x a IH]; intros [|y b]; simpl; try done.
  destruct (decide (x = y)) as [->|]; [by rewrite decide_True|].
  rewrite decide_False by congruence. lia.
Qed.

Lemma strcmp_eq a : forall b, strcmp a b = 0%Z -> a = b.
Proof.
  induction a as [|x a IH]; intros [|y b]; simpl; try done.
  case_decide as E; [intros; f_equal; auto|]. apply ascii_ne_nat in E. lia.
Qed.

Lemma strcmp_le_trans a : forall b c, (strcmp a b <= 0 -> strcmp b c <= 0 -> strcmp a c <= 0)%Z.
Proof.
  induction a as [|x a IH]; intros [|y b] [|z c]; simpl; try lia.
  repeat case_decide; subst; try lia; eauto;
    repeat match goal with H : _ <> _ |- _ => apply ascii_ne_nat in H end; lia.
Qed.

Lemma strcmp_antisym a b : (strcmp a b <= 0 -> strcmp b a <= 0 -> a = b)%Z.
Proof. intros H1 H2. apply strcmp_eq. rewrite strcmp_opp in H2. lia. Qed.

(** Sorting strings: the result is the only sorted arrangement. *)
Lemma qsort_strcmp l l' :
  StronglySorted (fun a b => strcmp a b <= 0)%Z l' -> l ≡ₚ l' -> qsort strcmp l = l'.
Proof.
  intros Hs Hp. eapply (StronglySorted_unique_strong (fun a b => strcmp a b <= 0)%Z).
  - intros a b _ _. apply strcmp_antisym.
  - apply (qsort_ordered strcmp (fun _ => True)).
    + intros a b _ _ Hab. rewrite strcmp_opp. lia.
    + intros a b c _ _ _. apply strcmp_le_trans.
    + by apply Forall_true.
  - done.
  - by rewrite qsort_perm.
Qed.

(** [strstr(hay, needle) != NULL] *)
Fixpoint is_prefix (p l : cstr) : bool :=
  match p, l with
  | [], _ => true
  | x :: p', y :: l' => bool_decide (x = y) && is_prefix p' l'
  | _ :: _, [] => false
  end.

Fixpoint strstr (hay needle : cstr) : bool :=
  is_prefix needle hay ||
  match hay with
  | [] => false
  | _ :: hay' => strstr hay' needle
  end.

Lemma is_prefix_spec p l : is_prefix p l = true <-> p `prefix_of` l.
Proof.
  revert l; induction p as [|x p IH]; intros l; simpl.
  { split; [intros _; apply prefix_nil | done]. }
  destruct l as [|y l]; simpl.
  { split; [done|]. intros H. by apply prefix_nil_not in H. }
  rewrite andb_true_iff, bool_decide_eq_true, IH. split.
  - intros [-> ?]. by apply prefix_cons.
  - intros H. split; [by eapply prefix_cons_inv_1 | by eapply prefix_cons_inv_2].
Qed.

Lemma strstr_spec hay needle :
  strstr hay needle = true <-> exists a b, hay = a ++ needle ++ b.
Proof.
  induction hay as [|c hay IH]; simpl; rewrite orb_true_iff, is_prefix_spec.
  - split.
    + intros [[b H]|]; [|done]. by exists [], b.
    + intros (a & b & H). left. exists b. destruct a; [done|]. discriminate.
  - rewrite IH. split.
    + intros [[b H]|(a & b & H)]; [by exists [], b|]. exists (c :: a), b. by rewrite H.
    + intros (a & b & H). destruct a as [|x a]; [left; by exists b|].
      right. exists a, b. by inversion H.
Qed.

(** ** Decimal numbers *)
Definition isdigit (c : ascii) : bool :=
  let n := nat_of_ascii c in (48 <=? n)%nat && (n <=? 57)%nat.

Definition digit_val (c : ascii) : Z := Z.of_nat (nat_of_ascii c) - 48.

(** The value of a string of digits. *)
Definition digits_val (s : cstr) : Z :=
  foldl (fun acc c => 10 * acc + digit_val c)%Z 0%Z s.

(** [atoi] on a string that starts with a digit: the value of the longest
    prefix of digits ([strtol] then a conversion to [int]: the value saturates
    at [LONG_MAX] and the low 32 bits are kept). *)
Fixpoint digit_prefix (s : cstr) : cstr :=
  match s with
  | c :: s' => if isdigit c then c :: digit_prefix s' else []
  | [] => []
  end.

Definition LONG_MAX : Z := 9223372036854775807.

Definition atoi (s : cstr) : Z :=
  wrap32 (Z.min LONG_MAX (digits_val (digit_prefix s))).

(** [%d] *)
Definition fmt_d (z : Z) : cstr := c_str (pretty z).

(** [fgets(buf, n, fp)]: at most [n - 1] characters, up to and including the
    next newline, and the rest of the stream; [None] at its end. *)
Fixpoint fgets_take (n : nat) (data : cstr) : cstr * cstr :=
  match n, data with
  | S n, c :: data =>
      if decide (c = NEWLINE) then ([c], data)
      else let '(line, rest) := fgets_take n data in (c :: line, rest)
  | _, _ => ([], data)
  end.

Definition fgets (n : nat) (data : cstr) : option (cstr * cstr) :=
  match data with
  | [] => None
  | _ => Some (fgets_take (n - 1) data)
  end.

Lemma fgets_take_line n l data :
  length l < n -> NEWLINE ∉ l -> fgets_take n (l ++ NEWLINE :: data) = (l ++ [NEWLINE], data).
Proof.
  revert n. induction l as [|c l IH]; intros [|n] Hn Hl; simpl in *; try lia; [done|].
  rewrite decide_False by set_solver. by rewrite IH by (lia || set_solver).
Qed.

Lemma fgets_take_length n data line rest :
  fgets_take n data = (line, rest) -> data = line ++ rest /\ (n <> 0 -> data <> [] -> line <> []).
Proof.
  revert data line rest. induction n as [|n IH]; intros [|c data] line rest; simpl; intros E; simplify_eq; auto.
  case_decide; simplify_eq; [done|].
  destruct (fgets_take n data) as [l r] eqn:Ef. simplify_eq. apply IH in Ef as [-> _]. done.
Qed.

(** The decimal text of a number is a string of digits with its value. *)
Lemma pretty_N_char_digit d : (d < 10)%N ->
  isdigit (pretty_N_char d) = true /\ digit_val (pretty_N_char d) = Z.of_N d.
Proof.
  intros Hd. assert (exists n, d = N.of_nat n /\ n < 10) as (n & -> & Hn).
  { exists (N.to_nat d). lia. }
  do 10 (destruct n as [|n]; [done|]). lia.
Qed.

Lemma pretty_N_go_digits x s :
  forallb isdigit (c_str (pretty_N_go x s)) = forallb isdigit (c_str s) /\
  digits_val (c_str (pretty_N_go x s)) =
    foldl (fun acc c => 10 * acc + digit_val c)%Z (Z.of_N x) (c_str s).
Proof.
  revert s. induction (N.lt_wf_0 x) as [x _ IH]. intros s.
  destruct (decide (x = 0%N)) as [->|Hx]; [by rewrite pretty_N_go_0|].
  rewrite pretty_N_go_step by lia.
  destruct (IH (x `div` 10)%N) with (s := String (pretty_N_char (x `mod` 10)) s) as [-> ->].
  { apply N.div_lt; lia. }
  destruct (pretty_N_char_digit (x `mod` 10)) as [Hd Hv]; [by apply N.mod_lt|].
  unfold c_str. simpl. rewrite Hd, Hv. split; [done|]. f_equal.
  rewrite N2Z.inj_mod, N2Z.inj_div. pose proof (Z.div_mod (Z.of_N x) 10). lia.
Qed.

Lemma fmt_d_digits z : (0 <= z)%Z ->
  forallb isdigit (fmt_d z) = true /\ digits_val (fmt_d z) = z /\ fmt_d z <> [].
Proof.
  intros Hz. unfold fmt_d. destruct z as [|p|p]; [done| |lia].
  change (pretty (Z.pos p)) with (pretty (N.pos p)). unfold pretty, pretty_N.
  rewrite decide_False by done. destruct (pretty_N_go_digits (N.pos p) "") as [-> ->].
  split; [done|]. split; [done|].
  intros E. pose proof (proj2 (pretty_N_go_digits (N.pos p) "")) as Hv. rewrite E in Hv. done.
Qed.

Lemma pretty_N_go_length k : forall x s, (x < 10 ^ N.of_nat k)%N ->
  length (c_str (pretty_N_go x s)) <= k + length (c_str s).
Proof.
  induction k as [|k IH]; intros x s Hx.
  { assert (x = 0%N) as -> by (simpl in Hx; lia). by rewrite pretty_N_go_0. }
  destruct (decide (x = 0%N)) as [->|Hne]; [rewrite pretty_N_go_0; lia|].
  rewrite pretty_N_go_step by lia. etrans; [apply IH|].
  - rewrite Nat2N.inj_succ, N.pow_succ_r' in Hx. apply N.Div0.div_lt_upper_bound. lia.
  - unfold c_str. simpl. lia.
Qed.

Lemma fmt_d_length k z : (0 <= z < 10 ^ Z.of_nat (S k))%Z -> length (fmt_d z) <= S k.
Proof.
  intros [Hz Hk]. unfold fmt_d. destruct z as [|p|p]; [simpl; lia| |lia].
  change (pretty (Z.pos p)) with (pretty (N.pos p)). unfold pretty, pretty_N.
  rewrite decide_False by done. etrans; [apply (pretty_N_go_length (S k))|simpl; lia].
  apply N2Z.inj_lt. rewrite N2Z.inj_pow, nat_N_Z. done.
Qed.

Lemma fmt_d_neg z : (z < 0)%Z -> fmt_d z = "-"%char :: fmt_d (- z).
Proof. intros Hz. destruct z as [|p|p]; [lia|lia|]. done. Qed.

Lemma digit_prefix_all s : forallb isdigit s = true -> digit_prefix s = s.
Proof.
  induction s as [|c s IH]; simpl; [done|].
  rewrite andb_true_iff. intros [-> ?]. by rewrite IH.
Qed.

(** ** Lists *)
Lemma sublist_elem {A} (l1 l2 : list A) x : l1 `sublist_of` l2 -> x ∈ l1 -> x ∈ l2.
Proof. induction 1; set_solver. Qed.

Lemma sublist_Forall {A} (P : A -> Prop) l1 l2 :
  l1 `sublist_of` l2 -> Forall P l2 -> Forall P l1.
Proof. induction 1; intros HF; inversion HF; subst; auto. Qed.

(** ** Automation

    The hint database of the development, and the tactics the component files
    share. *)
Create HintDb cver.
#[export] Hint Resolve safe_ret safe_bind : cver.
#[export] Hint Resolve cstr_prefix_no_nul no_nul_cstr_prefix : cver.

(** Split one boolean test, [decide] or [match] of the goal, keeping the
    equation. *)
Ltac case_test :=
  match goal with
  | |- context [decide ?P] => destruct (decide P)
  | |- context [if ?b then _ else _] => destruct b eqn:?
  | |- context [match ?x with _ => _ end] => destruct x eqn:?
  end.

(** Turn boolean comparisons of the context into propositions. *)
Ltac reflect :=
  repeat match goal with
  | H : andb _ _ = true |- _ => apply andb_true_iff in H as [? ?]
  | H : orb _ _ = false |- _ => apply orb_false_iff in H as [? ?]
  | H : negb _ = true |- _ => apply negb_true_iff in H
  | H : negb _ = false |- _ => apply negb_false_iff in H
  | H : bool_decide _ = true |- _ => apply bool_decide_eq_true in H
  | H : bool_decide _ = false |- _ => apply bool_decide_eq_false in H
  | H : (_ =? _)%nat = true |- _ => apply Nat.eqb_eq in H
  | H : (_ =? _)%nat = false |- _ => apply Nat.eqb_neq in H
  | H : (_ <? _)%nat = true |- _ => apply Nat.ltb_lt in H
  | H : (_ <? _)%nat = false |- _ => apply Nat.ltb_ge in H
  | H : (_ <=? _)%nat = true |- _ => apply Nat.leb_le in H
  | H : (_ <=? _)%nat = false |- _ => apply Nat.leb_gt in H
  | H : (_ =? _)%Z = true |- _ => apply Z.eqb_eq in H
  | H : (_ =? _)%Z = false |- _ => apply Z.eqb_neq in H
  | H : (_ <? _)%Z = true |- _ => apply Z.ltb_lt in H
  | H : (_ <? _)%Z = false |- _ => apply Z.ltb_ge in H
  | H : (_ <=? _)%Z = true |- _ => apply Z.leb_le in H
  | H : (_ <=? _)%Z = false |- _ => apply Z.leb_gt in H
  end.

(** Invert a chain of C statements that returned normally. *)
Ltac inv_bind :=
  repeat match goal with
  | H : obind _ _ = Ret _ |- _ => apply obind_inv in H as (? & ? & ?)
  end.

(** ** Families indexed by numbers: of locks, CPUs, processes, buffers *)
Definition updf {A} (f : nat -> A) (i : nat) (a : A) : nat -> A := fun j => if decide (j = i) then a else f j.

Lemma updf_eq {A} (f : nat -> A) i a : updf f i a i = a.
Proof. unfold updf. by rewrite decide_True. Qed.

Lemma updf_ne {A} (f : nat -> A) i a j : j <> i -> updf f i a j = f j.
Proof. intros. unfold updf. by rewrite decide_False. Qed.

Ltac updf_cases :=
  repeat match goal with
  | H : context [updf _ ?i _ ?j] |- _ => destruct (decide (j = i)) as [->|]; [rewrite ?updf_eq in *|rewrite ?updf_ne in * by done]
  | |- context [updf _ ?i _ ?j] => destruct (decide (j = i)) as [->|]; [rewrite ?updf_eq in *|rewrite ?updf_ne in * by done]
  end.
