(* ===== verification/Bytes.v ===== *)
(** * Byte arrays of the kernel

    Memory and disk blocks are lists of bytes (numbers below 256).  Here are
    the access to a range of an array ([slice], [splice]), stores with their
    bound check, and little-endian integers inside an array, as the kernel
    reads and writes them when it casts a block to a C structure. *)

From S2P Require Import Prelude.

Abbreviation bytes := (list Z).

(** ** Ranges of an array *)
Section ranges.
Context {A : Type}.
Implicit Types (l x : list A) (off n : nat).

Definition slice off n l : list A := take n (drop off l).
Definition splice off x l : list A := take off l ++ x ++ drop (off + length x) l.

Lemma length_slice off n l : off + n <= length l -> length (slice off n l) = n.
Proof. intros. unfold slice. rewrite length_take, length_drop. lia. Qed.

Lemma length_splice off x l : off + length x <= length l -> length (splice off x l) = length l.
Proof. intros. unfold splice. rewrite !length_app, length_take, length_drop. lia. Qed.

Lemma lookup_slice off n l i : i < n -> slice off n l !! i = l !! (off + i).
Proof. intros. unfold slice. by rewrite lookup_take_lt, lookup_drop. Qed.

Lemma lookup_splice_in off x l i : off + length x <= length l -> i < length x ->
  splice off x l !! (off + i) = x !! i.
Proof.
  intros. unfold splice. rewrite lookup_app_r; rewrite length_take_le by lia; [|lia].
  replace (off + i - off) with i by lia. by rewrite lookup_app_l.
Qed.

Lemma lookup_splice_out off x l i : off + length x <= length l ->
  i < off \/ off + length x <= i -> splice off x l !! i = l !! i.
Proof.
  intros Hl [Hi|Hi]; unfold splice.
  - rewrite lookup_app_l by (rewrite length_take_le; lia). by rewrite lookup_take_lt.
  - rewrite lookup_app_r; rewrite length_take_le by lia; [|lia].
    rewrite lookup_app_r by lia. rewrite lookup_drop. f_equal. lia.
Qed.

Lemma slice_all l : slice 0 (length l) l = l.
Proof. unfold slice. rewrite drop_0. by apply take_ge. Qed.

Lemma slice_splice_same off x l : off + length x <= length l ->
  slice off (length x) (splice off x l) = x.
Proof.
  intros. unfold slice, splice. rewrite drop_app_length' by (rewrite length_take_le; lia).
  by rewrite take_app_length.
Qed.

Lemma slice_splice_disjoint off x l o n : off + length x <= length l ->
  o + n <= off \/ off + length x <= o -> slice o n (splice off x l) = slice o n l.
Proof.
  intros Hl Ho. apply list_eq. intros i. unfold slice.
  destruct (Nat.lt_ge_cases i n).
  - rewrite !lookup_take_lt, !lookup_drop by done. apply lookup_splice_out; lia.
  - by rewrite !lookup_take_ge.
Qed.

Lemma splice_slice off n l : off + n <= length l -> splice off (slice off n l) l = l.
Proof.
  intros. unfold splice. rewrite length_slice by done. unfold slice.
  by rewrite <-drop_drop, take_drop, take_drop.
Qed.

Lemma splice_app off x y l : off + length x + length y <= length l ->
  splice off (x ++ y) l = splice (off + length x) y (splice off x l).
Proof.
  intros Hl. assert (length (splice off x l) = length l) as Hs by (apply length_splice; lia).
  assert (length (x ++ y) = length x + length y) as Hxy by apply length_app.
  apply list_eq. intros i. destruct (decide (off <= i < off + length (x ++ y))) as [Hi|Hi].
  - replace i with (off + (i - off)) by lia. rewrite lookup_splice_in by lia.
    destruct (decide (i - off < length x)) as [Hx|Hx].
    + rewrite lookup_app_l by done. rewrite lookup_splice_out by lia. by rewrite lookup_splice_in by lia.
    + rewrite lookup_app_r by lia. replace (off + (i - off)) with (off + length x + (i - off - length x)) by lia.
      rewrite lookup_splice_in by lia. done.
  - rewrite !lookup_splice_out by lia. done.
Qed.

Lemma splice_nil off l : splice off [] l = l.
Proof. unfold splice. simpl. rewrite Nat.add_0_r. apply take_drop. Qed.

(** A splice is built one element at a time, from either end. *)
Lemma splice_cons off a x l : off + S (length x) <= length l ->
  splice off (a :: x) l = splice (S off) x (<[off := a]> l).
Proof.
  intros. apply list_eq. intros i.
  assert (length (<[off:=a]> l) = length l) as Hlen by apply length_insert.
  destruct (decide (i = off)) as [->|].
  - rewrite (lookup_splice_out (S off)) by lia. rewrite list_lookup_insert_eq by lia.
    pose proof (lookup_splice_in off (a :: x) l 0) as Hin. rewrite Nat.add_0_r in Hin.
    apply Hin; simpl; lia.
  - destruct (decide (off < i < off + S (length x))).
    + replace i with (off + S (i - S off)) at 1 by lia. rewrite lookup_splice_in by (simpl; lia).
      replace i with (S off + (i - S off)) at 2 by lia. rewrite lookup_splice_in by lia. done.
    + rewrite lookup_splice_out by (simpl; lia). rewrite lookup_splice_out by lia.
      by rewrite list_lookup_insert_ne.
Qed.

Lemma splice_snoc off a x l : off + S (length x) <= length l ->
  splice off (x ++ [a]) l = splice off x (<[off + length x := a]> l).
Proof.
  intros. apply list_eq. intros i.
  assert (length (<[off + length x:=a]> l) = length l) as Hlen by apply length_insert.
  assert (length (x ++ [a]) = S (length x)) as Hx by (rewrite length_app; simpl; lia).
  destruct (decide (i = off + length x)) as [->|].
  - rewrite (lookup_splice_out off x) by lia. rewrite list_lookup_insert_eq by lia.
    rewrite lookup_splice_in by lia. rewrite lookup_app_r by lia. by rewrite Nat.sub_diag.
  - destruct (decide (off <= i < off + length x)).
    + replace i with (off + (i - off)) by lia. rewrite !lookup_splice_in by lia.
      by rewrite lookup_app_l by lia.
    + rewrite !lookup_splice_out by lia. by rewrite list_lookup_insert_ne.
Qed.
End ranges.

(** A slice taken one element at a time, and away from an update. *)
Lemma slice_0 {A} (m : list A) s : slice s 0 m = [].
Proof. done. Qed.

Lemma slice_S {A} (m : list A) s n a : m !! s = Some a -> slice s (S n) m = a :: slice (S s) n m.
Proof. intros Ha. unfold slice. by rewrite (drop_S _ _ _ Ha). Qed.

Lemma slice_S_end {A} (m : list A) s n a : m !! (s + n) = Some a ->
  slice s (S n) m = slice s n m ++ [a].
Proof.
  intros Ha. unfold slice. apply take_S_r. by rewrite lookup_drop.
Qed.

Lemma slice_insert_out {A} (m : list A) s n i a : i < s \/ s + n <= i ->
  slice s n (<[i := a]> m) = slice s n m.
Proof.
  intros Hi. apply list_eq. intros k. unfold slice. destruct (Nat.lt_ge_cases k n).
  - rewrite !lookup_take_lt, !lookup_drop by done. apply list_lookup_insert_ne. lia.
  - by rewrite !lookup_take_ge.
Qed.

(** [a[i]] and [a[i] = v]: outside the array is undefined. *)
Definition load {A} (l : list A) (i : nat) : outcome A := from_option (l !! i).
Definition store {A} (l : list A) (i : nat) (v : A) : outcome (list A) :=
  if i <? length l then Ret (<[i := v]> l) else Undef.

Lemma load_ret {A} (l : list A) i a : l !! i = Some a -> load l i = Ret a.
Proof. unfold load. by intros ->. Qed.

Lemma store_ret {A} (l : list A) i v : i < length l -> store l i v = Ret (<[i := v]> l).
Proof. intros. unfold store. by rewrite (proj2 (Nat.ltb_lt _ _)). Qed.

(** ** Little-endian integers *)
Fixpoint le_decode (l : bytes) : Z :=
  match l with
  | [] => 0
  | b :: l => b + 256 * le_decode l
  end%Z.

Fixpoint le_encode (n : nat) (v : Z) : bytes :=
  match n with
  | O => []
  | S n => (v `mod` 256 :: le_encode n (v `div` 256))%Z
  end.

Definition get_le (n : nat) (l : bytes) (off : nat) : Z := le_decode (slice off n l).
Definition put_le (n : nat) (l : bytes) (off : nat) (v : Z) : bytes := splice off (le_encode n v) l.

Lemma length_le_encode n v : length (le_encode n v) = n.
Proof. revert v. induction n as [|n IH]; intros v; simpl; [done|]. by rewrite IH. Qed.

Lemma le_decode_encode n v : (0 <= v < 256 ^ Z.of_nat n)%Z -> le_decode (le_encode n v) = v.
Proof.
  revert v. induction n as [|n IH]; intros v Hv; simpl; [simpl in Hv; lia|].
  rewrite Nat2Z.inj_succ, Z.pow_succ_r in Hv by lia.
  rewrite IH; [pose proof (Z.div_mod v 256); lia|].
  split; [apply Z.div_pos; lia|apply Z.div_lt_upper_bound; lia].
Qed.

Definition is_byte (b : Z) : Prop := (0 <= b < 256)%Z.

Lemma le_encode_bytes n v : Forall is_byte (le_encode n v).
Proof.
  revert v. induction n as [|n IH]; intros v; simpl; constructor; [|done].
  apply Z.mod_pos_bound. lia.
Qed.

Lemma le_decode_bound l : Forall is_byte l -> (0 <= le_decode l < 256 ^ Z.of_nat (length l))%Z.
Proof.
  induction 1 as [|b l Hb _ IH]; [simpl; lia|]. cbn [le_decode length].
  rewrite Nat2Z.inj_succ, Z.pow_succ_r by lia. unfold is_byte in Hb. lia.
Qed.

Lemma le_encode_decode l : Forall is_byte l -> le_encode (length l) (le_decode l) = l.
Proof.
  induction 1 as [|b l Hb _ IH]; [done|]. cbn [le_decode length le_encode]. unfold is_byte in Hb.
  rewrite Z.add_comm, (Z.mul_comm 256).
  rewrite Z.add_mod, Z.mod_mul, Z.add_0_l, Z.mod_mod, Z.mod_small by lia.
  rewrite Z.div_add_l, (Z.div_small b), Z.add_0_r by lia. by rewrite IH.
Qed.

Section le.
Implicit Types (l : bytes) (n off o m : nat) (v : Z).

Lemma length_put_le n l off v : off + n <= length l -> length (put_le n l off v) = length l.
Proof. intros. unfold put_le. by rewrite length_splice; rewrite ?length_le_encode. Qed.

Lemma get_put_le n l off v : off + n <= length l -> (0 <= v < 256 ^ Z.of_nat n)%Z ->
  get_le n (put_le n l off v) off = v.
Proof.
  intros Hl Hv. unfold get_le, put_le. rewrite <-(length_le_encode n v) at 1.
  rewrite slice_splice_same by (by rewrite length_le_encode). by apply le_decode_encode.
Qed.

Lemma get_put_le_ne n l off v m o : off + n <= length l -> o + m <= off \/ off + n <= o ->
  get_le m (put_le n l off v) o = get_le m l o.
Proof.
  intros Hl Ho. unfold get_le, put_le. rewrite slice_splice_disjoint; [done|..];
    by rewrite length_le_encode.
Qed.

Lemma put_get_le n l off : off + n <= length l -> Forall is_byte l -> put_le n l off (get_le n l off) = l.
Proof.
  intros Hl Hb. unfold put_le, get_le. rewrite <-(length_slice off n l) at 1 by done.
  rewrite le_encode_decode; [by apply splice_slice|]. by apply Forall_take, Forall_drop.
Qed.

Lemma put_le_bytes n l off v : Forall is_byte l -> Forall is_byte (put_le n l off v).
Proof.
  intros Hl. unfold put_le, splice. rewrite !Forall_app.
  split; [by apply Forall_take|]. split; [apply le_encode_bytes|by apply Forall_drop].
Qed.

Lemma get_le_bound n l off : off + n <= length l -> Forall is_byte l ->
  (0 <= get_le n l off < 256 ^ Z.of_nat n)%Z.
Proof.
  intros Hl Hb. unfold get_le.
  pose proof (le_decode_bound (slice off n l)) as Hd. rewrite length_slice in Hd by done.
  by apply Hd, Forall_take, Forall_drop.
Qed.
End le.

(** The signed 16-bit value of two bytes. *)
Definition s16 (z : Z) : Z := ((z + 32768) `mod` 65536 - 32768)%Z.
Definition u16 (z : Z) : Z := (z `mod` 65536)%Z.

Lemma s16_u16 z : (-32768 <= z < 32768)%Z -> s16 (u16 z) = z.
Proof.
  intros. unfold s16, u16. destruct (Z.leb_spec 0 z).
  - rewrite (Z.mod_small z), (Z.mod_small (z + 32768)) by lia. lia.
  - replace (z `mod` 65536)%Z with (z + 65536)%Z.
    + replace (z + 65536 + 32768)%Z with (z + 32768 + 1 * 65536)%Z by lia.
      rewrite Z.mod_add, Z.mod_small by lia. lia.
    + rewrite <-(Z.mod_add z 1 65536) by lia. rewrite Z.mod_small; lia.
Qed.

Create Rewrite HintDb bytes.
#[export] Hint Rewrite @length_slice @length_splice length_put_le length_le_encode using lia : bytes.
