(* ===== verification/Kstring.v ===== *)
(** * The kernel's string functions (xv6/kernel/string.c)

    Each function is translated with its loops.  [memset] and [memmove] work
    inside one memory, so that source and destination may overlap; the string
    functions take their arguments as arrays, and reading or writing outside an
    array is undefined. *)

From S2P Require Import Prelude.
From S2P Require Import Bytes.

(** ** Memory *)

(** [for (i = 0; i < n; i++) cdst[i] = c] *)
Fixpoint memset_loop (m : bytes) (p : nat) (c : Z) (n : nat) : outcome bytes :=
  match n with
  | O => Ret m
  | S n => let* m := store m p (c `mod` 256)%Z in memset_loop m (S p) c n
  end.
Definition memset (m : bytes) (dst : nat) (c : Z) (n : nat) : outcome bytes := memset_loop m dst c n.

(** The first difference of [n] bytes. *)
Fixpoint memcmp (v1 v2 : bytes) (n : nat) : outcome Z :=
  match n with
  | O => Ret 0%Z
  | S n =>
      let* c1 := load v1 0 in
      let* c2 := load v2 0 in
      if negb (c1 =? c2)%Z then Ret (c1 - c2)%Z else memcmp (tail v1) (tail v2) n
  end.

(** The ascending copy. *)
Fixpoint move_up (m : bytes) (d s n : nat) : outcome bytes :=
  match n with
  | O => Ret m
  | S n =>
      let* c := load m s in
      let* m := store m d c in move_up m (S d) (S s) n
  end.

(** The descending copy; [d] and [s] are one past the last byte. *)
Fixpoint move_down (m : bytes) (d s n : nat) : outcome bytes :=
  match n with
  | O => Ret m
  | S n =>
      let* c := load m (s - 1) in
      let* m := store m (d - 1) c in move_down m (d - 1) (s - 1) n
  end.

Definition memmove (m : bytes) (dst src n : nat) : outcome bytes :=
  if n =? 0 then Ret m
  else if (src <? dst) && (dst <? src + n) then move_down m (dst + n) (src + n) n
  else move_up m dst src n.

(** ** Strings *)
Fixpoint strncmp (p q : bytes) (n : nat) : outcome Z :=
  match n with
  | O => Ret 0%Z
  | S n =>
      let* a := load p 0 in
      if (a =? 0)%Z then let* b := load q 0 in Ret (a - b)%Z
      else
        let* b := load q 0 in
        if (a =? b)%Z then strncmp (tail p) (tail q) n else Ret (a - b)%Z
  end.

(** The rest of the field becomes zero. *)
Fixpoint zero_fill (s : bytes) (i n : nat) : outcome bytes :=
  match n with
  | O => Ret s
  | S n => let* s := store s i 0%Z in zero_fill s (S i) n
  end.

(** The loop that copies up to the NUL, then the fill. *)
Fixpoint strncpy_loop (s t : bytes) (i n : nat) : outcome bytes :=
  match n with
  | O => Ret s
  | S n =>
      let* c := load t i in
      let* s := store s i c in
      if (c =? 0)%Z then zero_fill s (S i) n else strncpy_loop s t (S i) n
  end.
Definition strncpy (s t : bytes) (n : nat) : outcome bytes := strncpy_loop s t 0 n.

(** The loop that copies at most [n - 1] bytes; the final store comes behind
    what was copied, so a copied NUL is followed by a second one. *)
Fixpoint safestrcpy_loop (s t : bytes) (i n : nat) : outcome bytes :=
  match n with
  | O => store s i 0%Z
  | S n =>
      let* c := load t i in
      let* s := store s i c in
      if (c =? 0)%Z then store s (S i) 0%Z else safestrcpy_loop s t (S i) n
  end.
Definition safestrcpy (s t : bytes) (n : nat) : outcome bytes :=
  match n with
  | O => Ret s
  | S n => safestrcpy_loop s t 0 n
  end.

Fixpoint strlen_loop (s : bytes) (n fuel : nat) : outcome nat :=
  match fuel with
  | O => NoFuel
  | S fuel => let* c := load s n in if (c =? 0)%Z then Ret n else strlen_loop s (S n) fuel
  end.
Definition strlen (s : bytes) : outcome nat := strlen_loop s 0 (S (length s)).

(** ** Proofs *)
Lemma memset_spec m p c n : p + n <= length m ->
  memset m p c n = Ret (splice p (replicate n (c `mod` 256)%Z) m).
Proof.
  unfold memset. revert m p. induction n as [|n IH]; intros m p Hl; [simpl; by rewrite splice_nil|].
  simpl. rewrite store_ret by lia. cbn [obind]. rewrite IH by (rewrite length_insert; lia).
  rewrite splice_cons by (rewrite length_replicate; lia). done.
Qed.

(** Going up is right when the destination is not inside the source behind
    its start. *)
Lemma move_up_spec n : forall m d s, d + n <= length m -> s + n <= length m ->
  d <= s \/ s + n <= d -> move_up m d s n = Ret (splice d (slice s n m) m).
Proof.
  induction n as [|n IH]; intros m d s Hd Hs Ho; [by rewrite slice_0, splice_nil|].
  destruct (lookup_lt_is_Some_2 m s) as [a Ha]; [lia|].
  cbn [move_up]. rewrite (load_ret _ _ _ Ha). cbn [obind]. rewrite store_ret by lia. cbn [obind].
  rewrite IH by (rewrite ?length_insert; lia).
  rewrite (slice_S m s n a) by done. rewrite splice_cons by (rewrite length_slice; lia).
  by rewrite slice_insert_out by lia.
Qed.

Lemma move_down_spec n : forall m d s, d + n <= length m -> s + n <= length m -> s <= d ->
  move_down m (d + n) (s + n) n = Ret (splice d (slice s n m) m).
Proof.
  induction n as [|n IH]; intros m d s Hd Hs Ho; [by rewrite slice_0, splice_nil|].
  destruct (lookup_lt_is_Some_2 m (s + n)) as [a Ha]; [lia|].
  cbn [move_down]. replace (s + S n - 1) with (s + n) by lia. replace (d + S n - 1) with (d + n) by lia.
  rewrite (load_ret _ _ _ Ha). cbn [obind]. rewrite store_ret by lia. cbn [obind].
  rewrite IH by (rewrite ?length_insert; lia).
  rewrite (slice_S_end m s n a) by done. rewrite splice_snoc by (rewrite length_slice; lia).
  rewrite length_slice by lia. by rewrite slice_insert_out by lia.
Qed.

(** [memmove] copies correctly however the two ranges overlap: the
    destination range receives the bytes that the source range had before,
    and no other byte changes. *)
Theorem memmove_correct (m : bytes) (dst src n : nat)
    (Hd : dst + n <= length m) (Hs : src + n <= length m) :
  memmove m dst src n = Ret (splice dst (slice src n m) m).
Proof.
  unfold memmove. destruct (Nat.eqb_spec n 0) as [->|]; [by rewrite slice_0, splice_nil|].
  destruct (Nat.ltb_spec src dst), (Nat.ltb_spec dst (src + n)); simpl.
  - apply move_down_spec; lia.
  - apply move_up_spec; lia.
  - apply move_up_spec; lia.
  - apply move_up_spec; lia.
Qed.

Lemma memmove_correct_witness :
  memmove [1; 2; 3; 4; 5]%Z 1 0 3 = Ret [1; 1; 2; 3; 5]%Z.
Proof. apply (memmove_correct [1; 2; 3; 4; 5]%Z 1 0 3); simpl; lia. Defined.

Lemma zero_fill_spec n : forall s i, i + n <= length s ->
  zero_fill s i n = Ret (splice i (replicate n 0%Z) s).
Proof.
  induction n as [|n IH]; intros s i Hl; [simpl; by rewrite splice_nil|].
  simpl. rewrite store_ret by lia. cbn [obind]. rewrite IH by (rewrite length_insert; lia).
  rewrite splice_cons by (rewrite length_replicate; lia). done.
Qed.

(** What [strncpy] leaves in the destination: the string, cut at [n] bytes or
    filled up with zeros. *)
Definition name_field (n : nat) (str : bytes) : bytes := take n (str ++ replicate n 0%Z).

Lemma length_name_field n str : length (name_field n str) = n.
Proof. unfold name_field. rewrite length_take, length_app, length_replicate. lia. Qed.

Lemma name_field_cons n c str : name_field (S n) (c :: str) = c :: name_field n str.
Proof.
  unfold name_field. cbn [app take]. f_equal. rewrite !take_app. f_equal.
  rewrite !take_replicate. f_equal. lia.
Qed.

Lemma strncpy_loop_spec n : forall str s t i, i + n <= length s ->
  Forall (fun c => c <> 0%Z) str ->
  (exists r, drop i t = str ++ 0%Z :: r) \/ (n <= length str /\ exists r, drop i t = str ++ r) ->
  strncpy_loop s t i n = Ret (splice i (name_field n str) s).
Proof.
  induction n as [|n IH]; intros str s t i Hl Hz Ht'.
  { change (name_field 0 str) with (@nil Z). by rewrite splice_nil. }
  destruct str as [|c str].
  - destruct Ht' as [[r Hr]|[? _]]; [|simpl in *; lia].
    assert (t !! i = Some 0%Z) as Hc.
    { rewrite <-(Nat.add_0_r i), <-lookup_drop, Hr. done. }
    cbn [strncpy_loop]. rewrite (load_ret _ _ _ Hc). cbn [obind]. rewrite store_ret by lia. cbn [obind].
    rewrite zero_fill_spec by (rewrite length_insert; lia).
    unfold name_field. simpl. rewrite take_ge by (rewrite length_replicate; lia).
    rewrite splice_cons by (rewrite length_replicate; lia). done.
  - apply Forall_cons in Hz as [Hc0 Hz].
    assert (t !! i = Some c) as Hc.
    { rewrite <-(Nat.add_0_r i), <-lookup_drop. by destruct Ht' as [[r ->]|[_ [r ->]]]. }
    cbn [strncpy_loop]. rewrite (load_ret _ _ _ Hc). cbn [obind]. rewrite store_ret by lia. cbn [obind].
    rewrite (proj2 (Z.eqb_neq _ _)) by done.
    assert (drop (S i) t = tail (drop i t)) as Hdr.
    { rewrite (drop_S t c i Hc). done. }
    rewrite (IH str); [|rewrite length_insert; lia|done|].
    2: { rewrite Hdr. destruct Ht' as [[r ->]|[Hn [r ->]]]; [left; by exists r|right].
         split; [simpl in Hn; lia|by exists r]. }
    rewrite name_field_cons, splice_cons by (rewrite length_name_field; lia). done.
Qed.

(** [strncpy] of a string with its NUL. *)
Lemma strncpy_spec s str r n : n <= length s -> Forall (fun c => c <> 0%Z) str ->
  strncpy s (str ++ 0%Z :: r) n = Ret (splice 0 (name_field n str) s).
Proof.
  intros Hn Hz. apply strncpy_loop_spec; [done|done|]. left. exists r. by rewrite drop_0.
Qed.

(** [strncmp] of a string with a field that [strncpy] filled. *)
Lemma strncmp_field n : forall a b r, Forall (fun c => c <> 0%Z) a -> Forall (fun c => c <> 0%Z) b ->
  exists z, strncmp (a ++ 0%Z :: r) (name_field n b) n = Ret z /\
    (z = 0%Z <-> take n a = take n b).
Proof.
  induction n as [|n IH]; intros a b r Ha Hb; [by exists 0%Z|].
  destruct a as [|x a]; [|apply Forall_cons in Ha as [Hx Ha]].
  - simpl strncmp. destruct b as [|y b]; [by exists 0%Z|]. apply Forall_cons in Hb as [Hy Hb].
    rewrite name_field_cons. simpl. eexists. split; [done|]. split; [lia|done].
  - simpl strncmp. rewrite (proj2 (Z.eqb_neq _ _)) by done. destruct b as [|y b].
    + simpl. rewrite (proj2 (Z.eqb_neq _ _)) by done. eexists. split; [done|]. split; [lia|done].
    + apply Forall_cons in Hb as [Hy Hb]. rewrite name_field_cons. simpl. destruct (Z.eqb_spec x y) as [->|].
      * destruct (IH a b r Ha Hb) as (z & Hz & Hiff). exists z. split; [done|]. rewrite Hiff. cbn [take]. split; [by intros ->|by intros [= ?]].
      * eexists. split; [done|]. split; [lia|]. cbn [take]. by intros [= ?].
Qed.

(** What [safestrcpy] leaves in front of the destination: the string cut at
    [n - 1] bytes and a NUL (two, when the NUL of the source was copied). *)
Definition safe_field (n : nat) (str : bytes) : bytes :=
  if decide (length str < n) then str ++ [0%Z; 0%Z] else take n str ++ [0%Z].

Lemma safe_field_cons n c str : safe_field (S n) (c :: str) = c :: safe_field n str.
Proof. unfold safe_field. simpl. repeat case_decide; (done || lia). Qed.

Lemma length_safe_field n str : length (safe_field n str) <= S n.
Proof. unfold safe_field. case_decide; rewrite length_app, ?length_take; simpl; lia. Qed.

Lemma safestrcpy_loop_spec r n : forall str s t i, i + S n <= length s ->
  Forall (fun c => c <> 0%Z) str -> drop i t = str ++ 0%Z :: r ->
  safestrcpy_loop s t i n = Ret (splice i (safe_field n str) s).
Proof.
  induction n as [|n IH]; intros str s t i Hl Hz Ht; cbn [safestrcpy_loop].
  { unfold safe_field. rewrite decide_False by lia. rewrite store_ret by lia. simpl.
    rewrite splice_cons by (simpl; lia). by rewrite splice_nil. }
  assert (forall c, head (drop i t) = Some c -> t !! i = Some c) as Hhd.
  { intros c Hc. rewrite <-(Nat.add_0_r i), <-lookup_drop. by destruct (drop i t). }
  destruct str as [|c str].
  - rewrite (load_ret t i 0%Z) by (by apply Hhd; rewrite Ht). cbn [obind].
    rewrite store_ret by lia. cbn [obind]. simpl. rewrite store_ret by (rewrite length_insert; lia).
    unfold safe_field. rewrite decide_True by (simpl; lia). simpl.
    rewrite !splice_cons by (rewrite ?length_insert; simpl; lia). by rewrite splice_nil.
  - apply Forall_cons in Hz as [Hc Hz]. assert (t !! i = Some c) as Hti by (apply Hhd; by rewrite Ht).
    rewrite (load_ret _ _ _ Hti). cbn [obind]. rewrite store_ret by lia. cbn [obind].
    rewrite (proj2 (Z.eqb_neq _ _)) by done.
    rewrite (IH str); [|rewrite length_insert; lia|done|].
    + rewrite safe_field_cons, splice_cons; [done|]. pose proof (length_safe_field n str). lia.
    + rewrite (drop_S _ _ _ Hti) in Ht. by injection Ht.
Qed.

(** The string functions behave as their callers assume: [safestrcpy]
    always leaves a terminated string, the source cut at [n - 1] bytes, and
    touches at most [n] bytes; a name stored in a directory entry with
    [strncpy] (cut at [n] bytes, no NUL when it is that long) compares equal
    under [strncmp] with exactly the names that agree in their first [n]
    bytes. *)
Theorem kernel_strings (s a b r : bytes) (n : nat) (Hn : S n <= length s)
    (Ha : Forall (fun c => c <> 0%Z) a) (Hb : Forall (fun c => c <> 0%Z) b) :
  (exists s', safestrcpy s (a ++ 0%Z :: r) (S n) = Ret s' /\ length s' = length s /\
     take (S (length (take n a))) s' = take n a ++ [0%Z] /\ drop (S n) s' = drop (S n) s) /\
  (exists s' z, strncpy s (b ++ 0%Z :: r) n = Ret s' /\ drop n s' = drop n s /\
     strncmp (a ++ 0%Z :: r) (take n s') n = Ret z /\ (z = 0%Z <-> take n a = take n b)).
Proof.
  split.
  - unfold safestrcpy. rewrite (safestrcpy_loop_spec r n a) by (done || by rewrite drop_0).
    pose proof (length_safe_field n a) as Hf. eexists. split; [done|].
    split; [apply length_splice; lia|]. unfold splice. simpl. split.
    + rewrite take_app_le.
      * unfold safe_field. case_decide; [|by rewrite take_ge by (rewrite length_app; simpl; lia)].
        rewrite (take_ge a) by lia. rewrite take_app. rewrite take_ge by lia.
        by replace (S (length a) - length a) with 1 by lia.
      * unfold safe_field. rewrite length_take. case_decide; rewrite length_app, ?length_take; simpl; lia.
    + rewrite drop_app, drop_ge by done. simpl. rewrite drop_drop. f_equal. lia.
  - rewrite strncpy_spec by (done || lia). destruct (strncmp_field n a b r Ha Hb) as (z & Hz & Hiff).
    eexists _, z. split; [done|]. unfold splice. simpl. rewrite length_name_field.
    rewrite drop_app_length', take_app_length' by (by rewrite length_name_field). done.
Qed.

Lemma kernel_strings_witness :
  let s := replicate 16 7%Z in let a := [97; 98]%Z in
  (exists s', safestrcpy s (a ++ [0%Z]) 15 = Ret s' /\ length s' = length s /\
     take 3 s' = a ++ [0%Z] /\ drop 15 s' = drop 15 s) /\
  (exists s' z, strncpy s (a ++ [0%Z]) 14 = Ret s' /\ drop 14 s' = drop 14 s /\
     strncmp (a ++ [0%Z]) (take 14 s') 14 = Ret z /\ (z = 0%Z <-> take 14 a = take 14 a)).
Proof.
  intros s a. apply (kernel_strings s a a [] 14).
  - unfold s. simpl. lia.
  - repeat constructor; discriminate.
  - repeat constructor; discriminate.
Defined.
