(* ===== verification/Lexer.v ===== *)
(** * The lexer of the shell ([c-shell/src/lexer.c], [c-shell/include/lexer.h])

    [lex_line] turns one input line into a list of tokens.  The model keeps
    the two growable arrays of the code (the token vector and the word buffer)
    as arrays with a capacity, where a store past the end is undefined
    behaviour, and the character loops as loops over a position with fuel.
    The abstract lexer [lex_spec] recurses on the characters; [lex_line] is
    proved to compute it, never leaving the arrays. *)

From S2P Require Import Prelude.

(** ** Tokens *)
Inductive token_category : Type :=
| OP_PIPE | OP_AMP | OP_SEMI | OP_LT | OP_GT | OP_GTGT | OP_WORD.

#[global] Instance token_category_eq_dec : EqDecision token_category.
Proof. solve_decision. Defined.

(** [tok_text] is [None] for a NULL pointer. *)
Record token_t : Type := mk_token { tok_type : token_category; tok_text : option cstr }.

#[global] Instance token_t_eq_dec : EqDecision token_t.
Proof. solve_decision. Defined.

(** A [token_list_t] is the list of its [count] tokens. *)
Abbreviation token_list_t := (list token_t).

Definition op_tok (ty : token_category) : token_t := mk_token ty None.
Definition word_tok (w : cstr) : token_t := mk_token OP_WORD (Some w).

(** ** Character classes *)
Definition is_special (c : ascii) : bool :=
  bool_decide (c = "<"%char) || bool_decide (c = ">"%char) || bool_decide (c = ";"%char)
  || bool_decide (c = "|"%char) || bool_decide (c = "&"%char).

Definition is_space_char (c : ascii) : bool :=
  bool_decide (c = SPACE) || bool_decide (c = TAB) || bool_decide (c = NEWLINE).

Definition INITIAL_WORD_CAP : Z := 32.
Definition INITIAL_TOKEN_CAP : nat := 8.
Definition sizeof_token_t : Z := 16.

Section lexer.

(** [malloc_ok n]: a request for [n] bytes succeeds. *)
Variable malloc_ok : Z -> bool.

(** ** The token vector *)
Record token_vec_t : Type :=
  mk_vec { v_items : list (option token_t); v_count : nat; v_cap : nat }.

Definition tv_init : outcome token_vec_t :=
  if malloc_ok (sizeof_token_t * Z.of_nat INITIAL_TOKEN_CAP) then
    Ret (mk_vec (replicate INITIAL_TOKEN_CAP None) 0 INITIAL_TOKEN_CAP)
  else Exit 1.

Definition tv_grow (v : token_vec_t) : outcome token_vec_t :=
  if v_count v =? v_cap v then
    let cap := v_cap v * 2 in
    if malloc_ok (sizeof_token_t * Z.of_nat cap) then
      Ret (mk_vec (v_items v ++ replicate (cap - length (v_items v)) None) (v_count v) cap)
    else Exit 1
  else Ret v.

Definition tv_push (v : token_vec_t) (ty : token_category) (tx : option cstr)
    : outcome token_vec_t :=
  let* v := tv_grow v in
  if decide (v_count v < length (v_items v)) then
    Ret (mk_vec (<[v_count v := Some (mk_token ty tx)]> (v_items v)) (S (v_count v)) (v_cap v))
  else Undef.

(** The [token_list_t] made of the vector: reading a slot that was never
    written is undefined behaviour. *)
Definition tv_to_list (v : token_vec_t) : outcome token_list_t :=
  from_option (mapM id (take (v_count v) (v_items v))).

(** ** The word buffer: [len] and [cap] are [int]s *)
Record word_t : Type := mk_word { w_data : buf; w_len : Z; w_cap : Z }.

Definition word_init : outcome word_t :=
  if malloc_ok INITIAL_WORD_CAP then
    let* data := buf_store (buf_alloc (Z.to_nat INITIAL_WORD_CAP)) 0 NUL in
    Ret (mk_word data 0 INITIAL_WORD_CAP)
  else Exit 1.

Definition word_grow (b : word_t) : outcome word_t :=
  if (w_cap b <? w_len b + 2)%Z then
    let cap := (w_cap b * 2)%Z in
    if (INT_MAX <? cap)%Z then Undef
    else if malloc_ok cap then
      Ret (mk_word (buf_realloc (Z.to_nat cap) (w_data b)) (w_len b) cap)
    else Exit 1
  else Ret b.

Definition word_push (b : word_t) (c : ascii) : outcome word_t :=
  let* b := word_grow b in
  let* data := buf_store (w_data b) (Z.to_nat (w_len b)) c in
  let len := (w_len b + 1)%Z in
  let* data := buf_store data (Z.to_nat len) NUL in
  Ret (mk_word data len (w_cap b)).

(** ** One word

    The loops return the new position and buffer, or [None] for [*error = 1]
    with a NULL result. *)
Definition char_at (line : cstr) (pos : nat) : outcome ascii := from_option (line !! pos).

Fixpoint lex_dquote (fuel : nat) (line : cstr) (len pos : nat) (w : word_t)
    : outcome (option (word_t * nat)) :=
  match fuel with
  | O => NoFuel
  | S fuel =>
      if pos <? len then
        let* dc := char_at line pos in
        if decide (dc = DQUOTE) then Ret (Some (w, pos + 1))
        else if decide (dc = BACKSLASH) then
          if len <=? pos + 1 then Ret None
          else
            let* nc := char_at line (pos + 1) in
            if decide (nc = DQUOTE \/ nc = BACKSLASH) then
              let* w := word_push w nc in
              lex_dquote fuel line len (pos + 2) w
            else
              let* w := word_push w BACKSLASH in
              let* w := word_push w nc in
              lex_dquote fuel line len (pos + 2) w
        else
          let* w := word_push w dc in
          lex_dquote fuel line len (pos + 1) w
      else Ret None
  end.

Fixpoint lex_squote (fuel : nat) (line : cstr) (len pos : nat) (w : word_t)
    : outcome (option (word_t * nat)) :=
  match fuel with
  | O => NoFuel
  | S fuel =>
      if pos <? len then
        let* sc := char_at line pos in
        if decide (sc = SQUOTE) then Ret (Some (w, pos + 1))
        else
          let* w := word_push w sc in
          lex_squote fuel line len (pos + 1) w
      else Ret None
  end.

Fixpoint lex_word_loop (fuel : nat) (line : cstr) (len pos : nat) (w : word_t)
    : outcome (option (word_t * nat)) :=
  match fuel with
  | O => NoFuel
  | S fuel =>
      if pos <? len then
        let* c := char_at line pos in
        if is_space_char c || is_special c then Ret (Some (w, pos))
        else if decide (c = BACKSLASH) then
          if len <=? pos + 1 then Ret None
          else
            let* nc := char_at line (pos + 1) in
            let* w := word_push w nc in
            lex_word_loop fuel line len (pos + 2) w
        else if decide (c = DQUOTE) then
          let* r := lex_dquote (S len) line len (pos + 1) w in
          match r with
          | None => Ret None
          | Some (w, pos) => lex_word_loop fuel line len pos w
          end
        else if decide (c = SQUOTE) then
          let* r := lex_squote (S len) line len (pos + 1) w in
          match r with
          | None => Ret None
          | Some (w, pos) => lex_word_loop fuel line len pos w
          end
        else
          let* w := word_push w c in
          lex_word_loop fuel line len (pos + 1) w
      else Ret (Some (w, pos))
  end.

Definition lex_word (line : cstr) (len pos : nat) : outcome (option (cstr * nat)) :=
  let* word := word_init in
  let* r := lex_word_loop (S len) line len pos word in
  match r with
  | None => Ret None
  | Some (w, pos) => let* s := buf_cstr (w_data w) in Ret (Some (s, pos))
  end.

(** ** One line: [None] for [*error = 1] and a NULL list *)
Fixpoint lex_line_loop (fuel : nat) (line : cstr) (len pos : nat) (vec : token_vec_t)
    : outcome (option token_list_t) :=
  match fuel with
  | O => NoFuel
  | S fuel =>
      let push_op ty n :=
        let* vec := tv_push vec ty None in lex_line_loop fuel line len (pos + n) vec in
      if pos <? len then
        let* c := char_at line pos in
        if is_space_char c then lex_line_loop fuel line len (pos + 1) vec
        else if decide (c = "|"%char) then push_op OP_PIPE 1
        else if decide (c = "&"%char) then push_op OP_AMP 1
        else if decide (c = ";"%char) then push_op OP_SEMI 1
        else if decide (c = "<"%char) then push_op OP_LT 1
        else if decide (c = ">"%char) then
          if (pos + 1 <? len) && bool_decide (line !! (pos + 1) = Some ">"%char)
          then push_op OP_GTGT 2
          else push_op OP_GT 1
        else
          let* r := lex_word line len pos in
          match r with
          | None => Ret None
          | Some (text, pos) =>
              let* vec := tv_push vec OP_WORD (Some text) in
              lex_line_loop fuel line len pos vec
          end
      else
        let* toks := tv_to_list vec in
        if malloc_ok 16 then Ret (Some toks) else Exit 1
  end.

Definition lex_line (line : cstr) : outcome (option token_list_t) :=
  let* vec := tv_init in
  let len := length line in
  lex_line_loop (S len) line len 0 vec.

End lexer.

(** ** The abstract lexer

    [word_spec m l acc] reads a word from [l] in quoting mode [m], [acc] being
    the characters read so far: [None] for an unterminated quote or escape,
    otherwise the word and the rest of the line. *)
Inductive quote_mode : Type := Plain | InDouble | InSingle.

Fixpoint word_spec (m : quote_mode) (l acc : cstr) : option (cstr * cstr) :=
  match m, l with
  | Plain, [] => Some (acc, [])
  | _, [] => None
  | Plain, c :: l' =>
      if is_space_char c || is_special c then Some (acc, l)
      else if decide (c = BACKSLASH) then
        match l' with [] => None | d :: l'' => word_spec Plain l'' (acc ++ [d]) end
      else if decide (c = DQUOTE) then word_spec InDouble l' acc
      else if decide (c = SQUOTE) then word_spec InSingle l' acc
      else word_spec Plain l' (acc ++ [c])
  | InDouble, c :: l' =>
      if decide (c = DQUOTE) then word_spec Plain l' acc
      else if decide (c = BACKSLASH) then
        match l' with
        | [] => None
        | d :: l'' =>
            word_spec InDouble l''
              (if decide (d = DQUOTE \/ d = BACKSLASH) then acc ++ [d] else acc ++ [BACKSLASH; d])
        end
      else word_spec InDouble l' (acc ++ [c])
  | InSingle, c :: l' =>
      if decide (c = SQUOTE) then word_spec Plain l' acc
      else word_spec InSingle l' (acc ++ [c])
  end.

(** The operator at the head of a line, by maximal munch. *)
Definition operator_at (l : cstr) : option (token_category * cstr) :=
  match l with
  | [] => None
  | c :: l' =>
      if decide (c = "|"%char) then Some (OP_PIPE, l')
      else if decide (c = "&"%char) then Some (OP_AMP, l')
      else if decide (c = ";"%char) then Some (OP_SEMI, l')
      else if decide (c = "<"%char) then Some (OP_LT, l')
      else if decide (c = ">"%char) then
        match l' with
        | d :: l'' => if decide (d = ">"%char) then Some (OP_GTGT, l'') else Some (OP_GT, l')
        | [] => Some (OP_GT, l')
        end
      else None
  end.

(** [lexes l toks]: the line [l] is read as the tokens [toks], [None] for a
    lexical error. *)
Inductive lexes : cstr -> option token_list_t -> Prop :=
| lexes_nil : lexes [] (Some [])
| lexes_space c l r :
    is_space_char c = true -> lexes l r -> lexes (c :: l) r
| lexes_op c l ty l' r :
    is_space_char c = false -> operator_at (c :: l) = Some (ty, l') ->
    lexes l' r -> lexes (c :: l) (cons (op_tok ty) <$> r)
| lexes_word c l w l' r :
    is_space_char c = false -> is_special c = false ->
    word_spec Plain (c :: l) [] = Some (w, l') ->
    lexes l' r -> lexes (c :: l) (cons (word_tok w) <$> r)
| lexes_error c l :
    is_space_char c = false -> is_special c = false ->
    word_spec Plain (c :: l) [] = None ->
    lexes (c :: l) None.

(** ** Proofs: the abstract lexer *)
Lemma word_spec_length m l acc w r :
  word_spec m l acc = Some (w, r) -> length r <= length l.
Proof.
  remember (length l) as n eqn:Hn. assert (length l <= n) as Hle by lia. clear Hn.
  revert m l acc Hle. induction n as [|n IH]; intros m [|c l] acc Hle; simpl in *; try lia;
    intros H; repeat case_match; simplify_eq/=; try lia;
    match goal with H : word_spec _ _ _ = _ |- _ => apply IH in H; simpl in *; lia end.
Qed.

Lemma word_spec_shorter c l acc w r :
  word_spec Plain (c :: l) acc = Some (w, r) -> is_space_char c || is_special c = false ->
  length r < length (c :: l).
Proof.
  simpl. intros H Hs. rewrite Hs in H. repeat case_match; simplify_eq;
    match goal with H : word_spec _ _ _ = _ |- _ => apply word_spec_length in H; simpl in *; lia end.
Qed.

(** ** Proofs: the arrays *)
Section proofs.
Variable malloc_ok : Z -> bool.

(** The only way out is [exit(1)], and only if some allocation failed. *)
Definition oom (c : Z) : Prop := c = 1%Z /\ exists n, malloc_ok n = false.

(** The vector holds [toks]. *)
Definition vec_rep (v : token_vec_t) (toks : token_list_t) : Prop :=
  v_count v = length toks /\ 0 < v_cap v /\
  exists k, v_items v = (Some <$> toks) ++ replicate k None /\ v_cap v = length toks + k.

(** The buffer holds the C string [s]. *)
Definition word_rep (w : word_t) (s : cstr) : Prop :=
  no_nul s /\ w_len w = Z.of_nat (length s) /\ w_cap w = Z.of_nat (length (w_data w)) /\
  exists tail, w_data w = (Some <$> s) ++ Some NUL :: tail.

Lemma oom_intro n : malloc_ok n = false -> oom 1.
Proof. intros. split; eauto. Qed.

Lemma tv_init_wp : wp oom (tv_init malloc_ok) (fun v => vec_rep v []).
Proof.
  unfold tv_init. destruct (malloc_ok _) eqn:E; simpl; [|by eapply oom_intro].
  split_and!; simpl; [done|unfold INITIAL_TOKEN_CAP; lia|]. by exists INITIAL_TOKEN_CAP.
Qed.

Lemma tv_grow_wp v toks :
  vec_rep v toks ->
  wp oom (tv_grow malloc_ok v) (fun v' => vec_rep v' toks /\ v_count v' < v_cap v').
Proof.
  intros (Hc & Hpos & k & Hi & Hk). unfold tv_grow. case_test; reflect.
  - destruct (malloc_ok _) eqn:E; simpl; [|by eapply oom_intro].
    assert (k = 0) as -> by lia. split; [|lia]. split_and!; simpl; [done|lia|].
    exists (v_cap v * 2 - length (v_items v)). rewrite Hi, app_nil_r, length_fmap. split; [done|lia].
  - simpl. split; [|lia]. split_and!; eauto.
Qed.

Lemma tv_push_wp v toks ty tx :
  vec_rep v toks ->
  wp oom (tv_push malloc_ok v ty tx) (fun v' => vec_rep v' (toks ++ [mk_token ty tx])).
Proof.
  intros H. unfold tv_push. apply wp_bind. eapply wp_mono; [by apply tv_grow_wp|].
  intros v' ((Hc & Hpos & k & Hi & Hk) & Hlt).
  destruct k as [|k]; [lia|].
  rewrite decide_True; simpl.
  2:{ rewrite Hi, length_app, length_fmap, length_replicate. lia. }
  split_and!; simpl; [rewrite length_app; simpl; lia|lia|].
  exists k. rewrite length_app; simpl. split; [|lia].
  rewrite Hc, Hi, insert_app_r_alt; rewrite length_fmap; [|lia].
  rewrite Nat.sub_diag, fmap_app. simpl. by rewrite <- app_assoc.
Qed.

Lemma tv_to_list_rep v toks : vec_rep v toks -> tv_to_list v = Ret toks.
Proof.
  intros (Hc & Hpos & k & Hi & Hk). unfold tv_to_list.
  rewrite Hi, Hc, take_app_le by (rewrite length_fmap; lia).
  rewrite take_ge by (rewrite length_fmap; lia).
  assert (mapM id (Some <$> toks) = Some toks) as ->; [|done].
  apply mapM_Some, Forall2_fmap_l, Forall_Forall2_diag, Forall_true. done.
Qed.

Lemma word_init_wp : wp oom (word_init malloc_ok) (fun w => word_rep w []).
Proof.
  unfold word_init. destruct (malloc_ok _) eqn:E; simpl; [|by eapply oom_intro].
  split_and!; try done; [unfold no_nul; set_solver|]. by eexists.
Qed.

(** There is room for one more character and the NUL after [word_grow]. *)
Lemma word_grow_wp w s :
  word_rep w s -> (2 * (Z.of_nat (length s) + 1) <= INT_MAX)%Z ->
  wp oom (word_grow malloc_ok w) (fun w' => word_rep w' s /\ (w_len w' + 2 <= w_cap w')%Z).
Proof.
  intros (Hn & Hl & Hc & tail & Hd) Hmax. unfold word_grow.
  assert (length (w_data w) = length s + S (length tail)) as Hlen
    by (rewrite Hd, length_app, length_fmap; done).
  destruct (Z.ltb_spec (w_cap w) (w_len w + 2)).
  - destruct (Z.ltb_spec INT_MAX (w_cap w * 2)); [lia|].
    destruct (malloc_ok _) eqn:E; simpl; [|by eapply oom_intro].
    unfold buf_realloc. rewrite take_ge by lia.
    split; [|lia]. split_and!; simpl; try done.
    + rewrite length_app, length_replicate. lia.
    + exists (tail ++ replicate (Z.to_nat (w_cap w * 2) - length (w_data w)) None).
      by rewrite Hd, <- app_assoc.
  - simpl. split; [|lia]. split_and!; eauto.
Qed.

Lemma word_push_wp w s c :
  word_rep w s -> c <> NUL -> (2 * (Z.of_nat (length s) + 1) <= INT_MAX)%Z ->
  wp oom (word_push malloc_ok w c) (fun w' => word_rep w' (s ++ [c])).
Proof.
  intros Hw Hnul Hmax. unfold word_push. apply wp_bind.
  eapply wp_mono; [by apply word_grow_wp|]. intros w' ((Hn & Hl & Hc & tail & Hd) & Hroom).
  assert (length (w_data w') = length s + S (length tail)) as Hlen
    by (rewrite Hd, length_app, length_fmap; done).
  destruct tail as [|x tail]; simpl in *; [lia|].
  unfold buf_store. rewrite Hl, Nat2Z.id, decide_True by lia. simpl.
  rewrite length_insert, decide_True by lia. simpl.
  split_and!; simpl.
  - apply no_nul_app; split; [done|]. unfold no_nul; set_solver.
  - rewrite length_app; simpl. lia.
  - by rewrite !length_insert.
  - exists tail. rewrite Hd.
    rewrite !insert_app_r_alt by (rewrite length_fmap; lia). rewrite length_fmap.
    rewrite Nat.sub_diag, fmap_app, <- app_assoc. simpl.
    by replace (Z.to_nat (Z.of_nat (length s) + 1) - length s) with 1 by lia.
Qed.

Lemma buf_cstr_app s tail :
  no_nul s -> buf_cstr ((Some <$> s) ++ Some NUL :: tail) = Ret s.
Proof.
  induction s as [|c s IH]; intros Hn; [done|].
  apply no_nul_cons in Hn as [? ?]. rewrite fmap_cons. cbn [app buf_cstr].
  rewrite decide_False by done. by rewrite IH.
Qed.

Lemma word_rep_cstr w s : word_rep w s -> buf_cstr (w_data w) = Ret s.
Proof. intros (Hn & _ & _ & tail & ->). by apply buf_cstr_app. Qed.

(** ** Proofs: the character loops

    [loop_ok] is the contract of the three loops: from position [pos] with the
    characters [s] read so far they either report the error that [word_spec]
    reports, or stop at a later position with a buffer from which [word_spec]
    continues to the same result. *)
Section loops.
Variable line : cstr.
Hypothesis line_no_nul : no_nul line.
Hypothesis line_short : (2 * (Z.of_nat (length line) + 1) <= INT_MAX)%Z.

Definition loop_post (m m' : quote_mode) (pos : nat) (s : cstr) (r : option (word_t * nat)) : Prop :=
  match r with
  | None => word_spec m (drop pos line) s = None
  | Some (w', pos') =>
      exists s', word_rep w' s' /\ length s' <= pos' /\ pos <= pos' <= length line /\
        word_spec m (drop pos line) s = word_spec m' (drop pos' line) s'
  end.

Lemma char_at_ok pos : pos < length line ->
  exists c, char_at line pos = Ret c /\ c <> NUL /\ drop pos line = c :: drop (pos + 1) line.
Proof.
  intros Hlt. destruct (lookup_lt_is_Some_2 line pos Hlt) as [c Hc].
  exists c. unfold char_at. rewrite Hc. split_and!; [done| |].
  - intros ->. apply line_no_nul. by eapply list_elem_of_lookup_2.
  - rewrite Nat.add_1_r. by apply drop_S in Hc.
Qed.

Lemma loop_post_weaken m m' pos pos1 s s1 r :
  loop_post m m' pos1 s1 r -> pos <= pos1 ->
  word_spec m (drop pos line) s = word_spec m (drop pos1 line) s1 ->
  loop_post m m' pos s r.
Proof.
  destruct r as [[w' pos']|]; simpl; [|congruence].
  intros (s' & ? & ? & ? & ?) ? ->. exists s'. split_and!; [done..|lia|lia|done].
Qed.

Lemma lex_squote_wp fuel pos w s :
  word_rep w s -> length s <= pos <= length line -> length line - pos < fuel ->
  wp oom (lex_squote malloc_ok fuel line (length line) pos w)
    (loop_post InSingle Plain pos s).
Proof.
  revert pos w s. induction fuel as [|fuel IH]; intros pos w s Hw Hpos Hfuel; [lia|].
  cbn [lex_squote]. destruct (Nat.ltb_spec pos (length line)) as [Hlt|Hge].
  2:{ simpl. by rewrite drop_ge by lia. }
  destruct (char_at_ok pos Hlt) as (c & -> & Hnul & Hd). cbn [obind].
  case_test; subst.
  - simpl. exists s. rewrite Hd. split_and!; [done|lia..|]. done.
  - apply wp_bind. eapply wp_mono; [apply word_push_wp; [eassumption|done|lia]|].
    intros w' Hw'; cbn beta in Hw'. eapply wp_mono; [apply IH; [eassumption|rewrite length_app; simpl; lia|lia]|].
    intros r Hr. eapply loop_post_weaken; [done|lia|]. rewrite Hd. simpl. by rewrite decide_False.
Qed.

(** One step of a loop that pushes characters and goes on. *)
Ltac push_step IH :=
  apply wp_bind; eapply wp_mono;
  [apply word_push_wp; [eassumption|done|rewrite ?length_app; simpl; lia]|];
  cbn beta; intros ? ?;
  try (eapply wp_mono; [apply IH; [eassumption|rewrite ?length_app; simpl; lia|lia]|];
       intros ? ?; eapply loop_post_weaken; [eassumption|lia|]).

Lemma lex_dquote_wp fuel pos w s :
  word_rep w s -> length s <= pos <= length line -> length line - pos < fuel ->
  wp oom (lex_dquote malloc_ok fuel line (length line) pos w)
    (loop_post InDouble Plain pos s).
Proof.
  revert pos w s. induction fuel as [|fuel IH]; intros pos w s Hw Hpos Hfuel; [lia|].
  cbn [lex_dquote]. destruct (Nat.ltb_spec pos (length line)) as [Hlt|Hge].
  2:{ simpl. by rewrite drop_ge by lia. }
  destruct (char_at_ok pos Hlt) as (c & -> & Hnul & Hd). cbn [obind].
  case_decide as Hc; subst.
  { simpl. exists s. rewrite Hd. split_and!; [done|lia..|]. done. }
  case_decide as Hc2; subst.
  2:{ push_step IH. rewrite Hd. simpl. by rewrite !decide_False. }
  destruct (Nat.leb_spec (length line) (pos + 1)) as [Hend|Hmore].
  { simpl. rewrite Hd. rewrite drop_ge by lia. done. }
  destruct (char_at_ok (pos + 1) Hmore) as (d & -> & Hnuld & Hdd). cbn [obind].
  replace (pos + 1 + 1) with (pos + 2) in Hdd by lia.
  case_decide as Hdq.
  - push_step IH. rewrite Hd, Hdd. simpl. by rewrite (decide_True _ _ Hdq).
  - push_step IH. push_step IH. rewrite Hd, Hdd. simpl. rewrite (decide_False _ _ Hdq).
    by rewrite <- app_assoc.
Qed.

Lemma lex_word_loop_wp fuel pos w s :
  word_rep w s -> length s <= pos <= length line -> length line - pos < fuel ->
  wp oom (lex_word_loop malloc_ok fuel line (length line) pos w)
    (fun r => match r with
              | None => word_spec Plain (drop pos line) s = None
              | Some (w', pos') =>
                  exists s', word_rep w' s' /\ pos <= pos' <= length line /\
                    word_spec Plain (drop pos line) s = Some (s', drop pos' line)
              end).
Proof.
  revert pos w s. induction fuel as [|fuel IH]; intros pos w s Hw Hpos Hfuel; [lia|].
  assert (forall (r : option (word_t * nat)) pos1 s1, pos <= pos1 ->
    word_spec Plain (drop pos line) s = word_spec Plain (drop pos1 line) s1 ->
    match r with
    | None => word_spec Plain (drop pos1 line) s1 = None
    | Some (w', pos') => exists s', word_rep w' s' /\ pos1 <= pos' <= length line /\
        word_spec Plain (drop pos1 line) s1 = Some (s', drop pos' line)
    end ->
    match r with
    | None => word_spec Plain (drop pos line) s = None
    | Some (w', pos') => exists s', word_rep w' s' /\ pos <= pos' <= length line /\
        word_spec Plain (drop pos line) s = Some (s', drop pos' line)
    end) as Hnext.
  { intros [[w' p']|] pos1 s1 Hle Heq; rewrite Heq; [|done].
    intros (s' & ? & ? & ?). exists s'. split_and!; [done|lia..|done]. }
  cbn [lex_word_loop]. destruct (Nat.ltb_spec pos (length line)) as [Hlt|Hge].
  2:{ simpl. exists s. rewrite drop_ge by lia. split_and!; [done|lia..|done]. }
  destruct (char_at_ok pos Hlt) as (c & -> & Hnul & Hd). cbn [obind].
  destruct (is_space_char c || is_special c) eqn:Hsep.
  { simpl. exists s. rewrite Hd. simpl. rewrite Hsep. split_and!; [done|lia..|done]. }
  case_decide as Hbs; subst.
  { destruct (Nat.leb_spec (length line) (pos + 1)) as [Hend|Hmore].
    { simpl. rewrite Hd, drop_ge by lia. done. }
    destruct (char_at_ok (pos + 1) Hmore) as (d & -> & Hnuld & Hdd). cbn [obind].
    apply wp_bind. eapply wp_mono; [apply word_push_wp; [eassumption|done|lia]|].
    intros w' Hw'; cbn beta in Hw'. eapply wp_mono; [apply IH; [eassumption|rewrite length_app; simpl; lia|lia]|].
    intros r. apply Hnext; [lia|]. rewrite Hd, Hdd. by replace (pos + 1 + 1) with (pos + 2) by lia. }
  case_decide as Hdq; subst.
  { apply wp_bind. eapply wp_mono; [apply lex_dquote_wp; [eassumption|lia..]|].
    intros [[w' pos']|]; simpl; [|by rewrite Hd].
    intros (s' & ? & ? & ? & Heq). eapply wp_mono; [apply IH; [eassumption|lia..]|].
    intros r. apply Hnext; [lia|]. by rewrite <- Heq, Hd. }
  case_decide as Hsq; subst.
  { apply wp_bind. eapply wp_mono; [apply lex_squote_wp; [eassumption|lia..]|].
    intros [[w' pos']|]; simpl; [|by rewrite Hd].
    intros (s' & ? & ? & ? & Heq). eapply wp_mono; [apply IH; [eassumption|lia..]|].
    intros r. apply Hnext; [lia|]. by rewrite <- Heq, Hd. }
  apply wp_bind. eapply wp_mono; [apply word_push_wp; [eassumption|done|lia]|].
  intros w' Hw'; cbn beta in Hw'. eapply wp_mono; [apply IH; [eassumption|rewrite length_app; simpl; lia|lia]|].
  intros r. apply Hnext; [lia|]. rewrite Hd. simpl. by rewrite Hsep, !decide_False.
Qed.

Lemma lex_word_wp pos :
  pos <= length line ->
  wp oom (lex_word malloc_ok line (length line) pos)
    (fun r => match r with
              | None => word_spec Plain (drop pos line) [] = None
              | Some (s, pos') =>
                  pos <= pos' <= length line /\
                  word_spec Plain (drop pos line) [] = Some (s, drop pos' line)
              end).
Proof.
  intros Hpos. unfold lex_word. apply wp_bind. eapply wp_mono; [apply word_init_wp|].
  intros w Hw. apply wp_bind.
  eapply wp_mono; [apply (lex_word_loop_wp _ pos w []); [done|simpl; lia|lia]|].
  intros [[w' pos']|]; simpl; [|done]. intros (s' & Hw' & ? & ?).
  by rewrite (word_rep_cstr _ _ Hw').
Qed.

(** The two-character operator: [>>] is taken whenever it is there. *)
Lemma operator_at_gt pos :
  operator_at (">"%char :: drop (pos + 1) line) =
  if (pos + 1 <? length line) && bool_decide (line !! (pos + 1) = Some ">"%char)
  then Some (OP_GTGT, drop (pos + 2) line) else Some (OP_GT, drop (pos + 1) line).
Proof.
  destruct (line !! (pos + 1)) as [d|] eqn:Hl.
  - pose proof (lookup_lt_Some _ _ _ Hl) as Hlt. apply Nat.ltb_lt in Hlt. rewrite Hlt. simpl.
    apply drop_S in Hl. replace (S (pos + 1)) with (pos + 2) in Hl by lia. rewrite Hl.
    destruct (decide (d = ">"%char)) as [->|]; [by rewrite bool_decide_true|].
    rewrite bool_decide_false by congruence. done.
  - apply lookup_ge_None in Hl. rewrite drop_ge by lia. by rewrite andb_false_r.
Qed.

Lemma lex_line_loop_wp fuel pos v toks :
  vec_rep v toks -> pos <= length line -> length line - pos < fuel ->
  wp oom (lex_line_loop malloc_ok fuel line (length line) pos v)
    (fun r => exists r', lexes (drop pos line) r' /\ r = app toks <$> r').
Proof.
  revert pos v toks. induction fuel as [|fuel IH]; intros pos v toks Hv Hpos Hfuel; [lia|].
  cbn [lex_line_loop]. destruct (Nat.ltb_spec pos (length line)) as [Hlt|Hge].
  2:{ rewrite (tv_to_list_rep _ _ Hv). cbn [obind].
      destruct (malloc_ok 16) eqn:E; simpl; [|by eapply oom_intro].
      exists (Some []). rewrite drop_ge by lia. split; [constructor|]. simpl. by rewrite app_nil_r. }
  destruct (char_at_ok pos Hlt) as (c & -> & Hnul & Hd). cbn [obind].
  assert (Hop : forall ty n, 0 < n -> pos + n <= length line -> is_space_char c = false ->
    operator_at (drop pos line) = Some (ty, drop (pos + n) line) ->
    wp oom (let* vec := tv_push malloc_ok v ty None in
            lex_line_loop malloc_ok fuel line (length line) (pos + n) vec)
      (fun r => exists r', lexes (drop pos line) r' /\ r = app toks <$> r')).
  { intros ty n Hn Hle Hsp Hat. apply wp_bind. eapply wp_mono; [by apply tv_push_wp|].
    intros v' Hv'; cbn beta in Hv'. eapply wp_mono; [apply IH; [eassumption|lia..]|].
    intros r (r' & Hl & ->). exists (cons (op_tok ty) <$> r'). split.
    - rewrite Hd in Hat |- *. by econstructor.
    - destruct r'; simpl; [|done]. by rewrite <- app_assoc. }
  destruct (is_space_char c) eqn:Hsp.
  { eapply wp_mono; [apply IH; [eassumption|lia..]|]. intros r (r' & Hl & ->).
    exists r'. split; [|done]. rewrite Hd. by constructor. }
  case_decide; [subst; apply Hop; [lia..|done|by rewrite Hd]|].
  case_decide; [subst; apply Hop; [lia..|done|by rewrite Hd]|].
  case_decide; [subst; apply Hop; [lia..|done|by rewrite Hd]|].
  case_decide; [subst; apply Hop; [lia..|done|by rewrite Hd]|].
  case_decide; [subst|].
  { pose proof (operator_at_gt pos) as Hgt. rewrite <- Hd in Hgt.
    destruct (_ && _) eqn:Hb; reflect; apply Hop; try done; lia. }
  assert (is_special c = false) as Hns.
  { unfold is_special. by rewrite !bool_decide_false. }
  apply wp_bind. eapply wp_mono; [apply lex_word_wp; lia|].
  intros [[s pos']|]; cbn beta iota.
  - intros (Hp & Hw). rewrite Hd in Hw.
    assert (pos < pos').
    { destruct (decide (pos = pos')) as [<-|]; [|lia].
      apply word_spec_shorter in Hw; [|by rewrite Hsp, Hns]. rewrite Hd in Hw. simpl in Hw. lia. }
    apply wp_bind. eapply wp_mono; [by apply tv_push_wp|].
    intros v' Hv'; cbn beta in Hv'. eapply wp_mono; [apply IH; [eassumption|lia..]|].
    intros r (r' & Hl & ->). exists (cons (word_tok s) <$> r'). split.
    + rewrite Hd. by econstructor.
    + destruct r'; simpl; [|done]. by rewrite <- app_assoc.
  - intros Hw. simpl. exists None. split; [|done]. rewrite Hd in *. by constructor.
Qed.

End loops.
End proofs.

(** ** The abstract lexer is a total function *)
Lemma operator_at_special c l ty l' :
  operator_at (c :: l) = Some (ty, l') -> is_special c = true /\ length l' < length (c :: l).
Proof.
  simpl. intros H. repeat case_match; simplify_eq/=; (split; [done|lia]).
Qed.

Lemma operator_at_none c l : is_special c = false -> operator_at (c :: l) = None.
Proof.
  unfold is_special. intros H. reflect. simpl. by rewrite !decide_False.
Qed.

Lemma special_operator c l :
  is_special c = true -> exists ty l', operator_at (c :: l) = Some (ty, l').
Proof.
  unfold is_special. intros H. simpl. repeat case_match; eauto; subst; simplify_eq.
  by rewrite !bool_decide_false in H.
Qed.

Lemma lexes_fun l r1 r2 : lexes l r1 -> lexes l r2 -> r1 = r2.
Proof.
  intros H; revert r2; induction H; intros r2 Hr2; inversion Hr2; subst; simplify_eq;
    try congruence; try (by auto); try (f_equal; by auto);
    try match goal with
    | Ho : operator_at _ = Some _, Hs : is_special _ = false |- _ =>
        rewrite (operator_at_none _ _ Hs) in Ho; discriminate
    end.
Qed.

Lemma lexes_total l : exists r, lexes l r.
Proof.
  remember (length l) as n eqn:Hn. assert (length l <= n) as Hle by lia. clear Hn.
  revert l Hle. induction n as [|n IH]; intros [|c l] Hle; simpl in *; try lia;
    [eexists; constructor..|].
  destruct (is_space_char c) eqn:Hsp.
  { destruct (IH l) as [r ?]; [lia|]. exists r. by constructor. }
  destruct (is_special c) eqn:Hs.
  - destruct (special_operator c l Hs) as (ty & l' & Ho).
    pose proof (operator_at_special _ _ _ _ Ho) as [_ Hlen]. simpl in Hlen.
    destruct (IH l') as [r ?]; [lia|]. eexists. by econstructor.
  - destruct (word_spec Plain (c :: l) []) as [[w l']|] eqn:Hw.
    + pose proof (word_spec_shorter _ _ _ _ _ Hw) as Hlen. rewrite Hsp, Hs in Hlen.
      specialize (Hlen eq_refl). simpl in Hlen.
      destruct (IH l') as [r ?]; [lia|]. eexists. by econstructor.
    + eexists. by constructor.
Qed.

(** ** Printing tokens back

    A word is printed as an empty single-quoted string followed by its
    characters, each behind a backslash. *)
Definition escape (w : cstr) : cstr := w ≫= (fun c => [BACKSLASH; c]).

Definition print_token (t : token_t) : cstr :=
  match tok_type t with
  | OP_PIPE => c_str "|"
  | OP_AMP => c_str "&"
  | OP_SEMI => c_str ";"
  | OP_LT => c_str "<"
  | OP_GT => c_str ">"
  | OP_GTGT => c_str ">>"
  | OP_WORD => [SQUOTE; SQUOTE] ++ escape (default [] (tok_text t))
  end.

Definition print_tokens (toks : token_list_t) : cstr :=
  toks ≫= (fun t => print_token t ++ [SPACE]).

(** The shape of every token the lexer makes: a word has a text without NUL,
    an operator has none. *)
Definition token_wf (t : token_t) : Prop :=
  match tok_type t with
  | OP_WORD => exists w, tok_text t = Some w /\ no_nul w
  | _ => tok_text t = None
  end.

Lemma word_spec_escape w acc rest :
  word_spec Plain (escape w ++ SPACE :: rest) acc = Some (acc ++ w, SPACE :: rest).
Proof.
  revert acc. induction w as [|c w IH]; intros acc; simpl.
  - by rewrite app_nil_r.
  - fold (escape w). rewrite IH. by rewrite <- app_assoc.
Qed.

Lemma lexes_print toks : Forall token_wf toks -> lexes (print_tokens toks) (Some toks).
Proof.
  induction 1 as [|[ty tx] toks Hwf _ IH]; [constructor|].
  assert (lexes (SPACE :: print_tokens toks) (Some toks)) as IH' by by constructor.
  change (print_tokens _) with ((print_token (mk_token ty tx) ++ [SPACE]) ++ print_tokens toks).
  rewrite <- app_assoc. simpl (([SPACE] ++ _)).
  destruct ty; unfold token_wf in Hwf; simpl in Hwf |- *;
    try (subst tx; eapply (lexes_op _ _ _ _ (Some toks)); [reflexivity|reflexivity|exact IH']).
  destruct Hwf as (w & -> & Hw). simpl.
  eapply (lexes_word _ _ w _ (Some toks)); [done|done| |exact IH'].
  simpl. apply (word_spec_escape w []).
Qed.

(** Every word the abstract lexer reads is made of characters of the line. *)
Lemma word_spec_no_nul m l acc w r :
  word_spec m l acc = Some (w, r) -> no_nul l -> no_nul acc -> no_nul w /\ no_nul r.
Proof.
  remember (length l) as n eqn:Hn. assert (length l <= n) as Hle by lia. clear Hn.
  revert m l acc Hle. induction n as [|n IH]; intros m [|c l] acc Hle; simpl in *; try lia;
    intros H Hl Hacc; repeat case_match; simplify_eq/=; rewrite ?no_nul_cons in *;
    try done;
    (eapply IH; [|eassumption|..]; [simpl in *; lia|naive_solver|];
     repeat case_decide; rewrite ?no_nul_app, ?no_nul_cons; unfold no_nul; naive_solver set_solver).
Qed.

Lemma lexes_wf l r : lexes l (Some r) -> no_nul l -> Forall token_wf r.
Proof.
  intros H. remember (Some r) as o eqn:Ho. revert r Ho.
  induction H as [|c l r _ H IH|c l ty l' r _ Hop H IH|c l w l' r _ _ Hw H IH|]; intros ts Ho Hn;
    simplify_eq.
  - constructor.
  - apply no_nul_cons in Hn as [_ ?]. eauto.
  - destruct r as [r|]; simplify_eq/=. constructor.
    + destruct ty; try done. by repeat case_match; simplify_eq.
    + apply IH; [done|]. assert (l' `suffix_of` c :: l) as [k Hk].
      { repeat case_match; simplify_eq; 
          first [by eexists [_]|by eexists [_; _]]. }
      rewrite Hk in Hn. by apply no_nul_app in Hn as [_ ?].
  - apply word_spec_no_nul in Hw as [? ?]; [|done|unfold no_nul; set_solver].
    destruct r as [r|]; simplify_eq/=.
    constructor; [by eexists|eauto].
Qed.

Lemma print_tokens_no_nul toks : Forall token_wf toks -> no_nul (print_tokens toks).
Proof.
  induction 1 as [|[ty tx] toks Hwf _ IH]; [unfold no_nul; set_solver|].
  change (print_tokens _) with ((print_token (mk_token ty tx) ++ [SPACE]) ++ print_tokens toks).
  rewrite !no_nul_app. split; [split|done]; [|by vm_compute; set_solver].
  destruct ty; try by vm_compute; set_solver.
  destruct Hwf as (w & Ht & Hw). simpl in Ht. subst tx.
  unfold print_token. simpl. apply no_nul_cons; split; [done|].
  apply no_nul_cons; split; [done|]. induction w as [|c w IHw]; [unfold no_nul; set_solver|].
  apply no_nul_cons in Hw as [? ?]. simpl. fold (escape w). apply no_nul_cons; split; [done|].
  apply no_nul_cons; eauto.
Qed.

Lemma lex_line_wp malloc_ok line :
  no_nul line -> (2 * (Z.of_nat (length line) + 1) <= INT_MAX)%Z ->
  wp (oom malloc_ok) (lex_line malloc_ok line) (fun r => lexes line r).
Proof.
  intros Hn Hlen. unfold lex_line. apply wp_bind. eapply wp_mono; [apply tv_init_wp|].
  intros v Hv. eapply wp_mono; [eapply lex_line_loop_wp; [done|done|exact Hv|lia|lia]|].
  intros r (r' & Hl & ->). destruct r'; exact Hl.
Qed.

(** With allocations that succeed, lexing returns and follows the abstract
    lexer. *)
Lemma lex_line_wp_total line :
  no_nul line -> (2 * (Z.of_nat (length line) + 1) <= INT_MAX)%Z ->
  exists r, lex_line (fun _ => true) line = Ret r /\ lexes line r.
Proof.
  intros Hn Hlen. apply (wp_total (oom (fun _ => true))); [|by intros c [_ [n ?]]].
  by apply lex_line_wp.
Qed.

#[export] Hint Resolve lexes_print lexes_wf lexes_fun : cver.

(** C1.  On every line without NUL that the [int]-sized word buffer can hold
    (the shell reads at most 1024 characters), [lex_line] computes the abstract
    lexer: the loops stop, no store leaves the word buffer or the token
    vector, and the result (tokens or lexical error) is the one of [lexes];
    the only other outcome is the [exit(1)] of a failed allocation. *)
Theorem lex_line_refines (malloc_ok : Z -> bool) (line : cstr)
    (Hn : no_nul line) (Hlen : (2 * (Z.of_nat (length line) + 1) <= INT_MAX)%Z) :
  wp (oom malloc_ok) (lex_line malloc_ok line) (fun r => lexes line r).
Proof.
  by apply lex_line_wp.
Qed.

Lemma lex_line_refines_witness :
  wp (oom (fun _ => true)) (lex_line (fun _ => true) (c_str "ls -l | wc >> out"))
    (fun r => lexes (c_str "ls -l | wc >> out") r).
Proof.
  apply lex_line_refines; [vm_compute; set_solver|vm_compute; discriminate].
Defined.

(** C2.  Printing a list of tokens and lexing the text gives the tokens back:
    for every list of well-formed tokens (whatever characters the words hold,
    quotes, separators and operators included) [lex_line] of the printed text
    returns exactly that list. *)
Theorem lex_print_roundtrip (toks : token_list_t)
    (Hwf : Forall token_wf toks)
    (Hlen : (2 * (Z.of_nat (length (print_tokens toks)) + 1) <= INT_MAX)%Z) :
  lex_line (fun _ => true) (print_tokens toks) = Ret (Some toks).
Proof.
  assert (no_nul (print_tokens toks)) as Hn by by apply print_tokens_no_nul.
  pose proof (lex_line_wp_total (print_tokens toks) Hn Hlen) as (r & -> & Hr).
  f_equal. eauto with cver.
Qed.

Lemma lex_print_roundtrip_witness :
  let toks := [word_tok (c_str "a |'b"); op_tok OP_GTGT; word_tok []] in
  lex_line (fun _ => true) (print_tokens toks) = Ret (Some toks).
Proof.
  apply lex_print_roundtrip; [|vm_compute; discriminate].
  repeat constructor; eexists; (split; [reflexivity|vm_compute; set_solver]).
Defined.
