(* ===== verification/Parser.v ===== *)
(** * The parser of the shell ([c-shell/src/parser.c])

    A recursive-descent recogniser over the tokens of a line.  The functions
    [LINE], [ARG], [CMD], [TGT] and [BG] are modelled with the parser state
    ([toks], [pos], [n]) they share; the grammar of the file's comment is the
    mutual inductive [g_line] and friends, and [parse_tokens] is proved to
    decide it. *)

From S2P Require Import Prelude Lexer.

Record parser_t : Type := mk_parser { p_toks : token_list_t; p_pos : nat; p_n : nat }.

Definition at_end (p : parser_t) : bool := p_n p <=? p_pos p.

Definition token_type_parser (p : parser_t) : outcome token_category :=
  from_option (tok_type <$> p_toks p !! p_pos p).

(** [p->pos++] *)
Definition advance (p : parser_t) : parser_t := mk_parser (p_toks p) (S (p_pos p)) (p_n p).

(** The functions return the [int] result and the state they leave. *)
Fixpoint ARG (fuel : nat) (p : parser_t) : outcome (Z * parser_t) :=
  match fuel with
  | O => NoFuel
  | S fuel =>
      if at_end p then Ret (1%Z, p)
      else
        let* ty := token_type_parser p in
        match ty with
        | OP_WORD => ARG fuel (advance p)
        | OP_LT => TGT fuel (advance p)
        | OP_GT => TGT fuel (advance p)
        | OP_GTGT => TGT fuel (advance p)
        | OP_PIPE => CMD fuel (advance p)
        | OP_SEMI => CMD fuel (advance p)
        | OP_AMP => BG fuel (advance p)
        end
  end
with CMD (fuel : nat) (p : parser_t) : outcome (Z * parser_t) :=
  match fuel with
  | O => NoFuel
  | S fuel =>
      if at_end p then Ret (0%Z, p)
      else
        let* ty := token_type_parser p in
        if decide (ty = OP_WORD) then ARG fuel (advance p) else Ret (0%Z, p)
  end
with TGT (fuel : nat) (p : parser_t) : outcome (Z * parser_t) :=
  match fuel with
  | O => NoFuel
  | S fuel =>
      if at_end p then Ret (0%Z, p)
      else
        let* ty := token_type_parser p in
        if decide (ty = OP_WORD) then ARG fuel (advance p) else Ret (0%Z, p)
  end
with BG (fuel : nat) (p : parser_t) : outcome (Z * parser_t) :=
  match fuel with
  | O => NoFuel
  | S fuel => if at_end p then Ret (1%Z, p) else CMD fuel p
  end.

(** Two calls per token (an operator and the function behind it), and the
    last call at the end of the tokens. *)
Definition parse_fuel (n : nat) : nat := 2 * n + 3.

Definition LINE (p : parser_t) : outcome (Z * parser_t) :=
  if at_end p then Ret (1%Z, p)
  else
    let* ty := token_type_parser p in
    if decide (ty = OP_WORD) then ARG (parse_fuel (p_n p)) (advance p) else Ret (0%Z, p).

Definition parse_tokens (list : token_list_t) : outcome Z :=
  let* '(r, _) := LINE (mk_parser list 0 (length list)) in Ret r.

(** ** The grammar

    LINE -> eps | WORD ARG;  ARG -> eps | WORD ARG | (LT|GT|GTGT) TGT |
    PIPE CMD | SEMI CMD | AMP BG;  CMD -> WORD ARG;  TGT -> WORD ARG;
    BG -> eps | WORD ARG. *)
Definition is_redir (ty : token_category) : bool :=
  match ty with OP_LT | OP_GT | OP_GTGT => true | _ => false end.
Definition is_connector (ty : token_category) : bool :=
  match ty with OP_PIPE | OP_SEMI => true | _ => false end.

Inductive g_arg : list token_category -> Prop :=
| arg_eps : g_arg []
| arg_word l : g_arg l -> g_arg (OP_WORD :: l)
| arg_redir ty l : is_redir ty = true -> g_tgt l -> g_arg (ty :: l)
| arg_connector ty l : is_connector ty = true -> g_cmd l -> g_arg (ty :: l)
| arg_amp l : g_bg l -> g_arg (OP_AMP :: l)
with g_cmd : list token_category -> Prop :=
| cmd_word l : g_arg l -> g_cmd (OP_WORD :: l)
with g_tgt : list token_category -> Prop :=
| tgt_word l : g_arg l -> g_tgt (OP_WORD :: l)
with g_bg : list token_category -> Prop :=
| bg_eps : g_bg []
| bg_word l : g_arg l -> g_bg (OP_WORD :: l).

Inductive g_line : list token_category -> Prop :=
| line_eps : g_line []
| line_word l : g_arg l -> g_line (OP_WORD :: l).

Scheme g_arg_ind' := Induction for g_arg Sort Prop
with g_cmd_ind' := Induction for g_cmd Sort Prop
with g_tgt_ind' := Induction for g_tgt Sort Prop
with g_bg_ind' := Induction for g_bg Sort Prop.
Combined Scheme grammar_ind from g_arg_ind', g_cmd_ind', g_tgt_ind', g_bg_ind'.

#[export] Hint Constructors g_arg g_cmd g_tgt g_bg g_line : cver.

(** ** Proofs *)
Section parsing.
Variable toks : token_list_t.
Abbreviation state pos := (mk_parser toks pos (length toks)).
Abbreviation types_from pos := (tok_type <$> drop pos toks).

(** [decides m G pos]: running [m] from [pos] returns [1] exactly when the
    remaining token types are in [G], and [0] otherwise. *)
Definition decides (m : outcome (Z * parser_t)) (G : list token_category -> Prop) (pos : nat) : Prop :=
  exists p', (m = Ret (1%Z, p') /\ G (types_from pos)) \/ (m = Ret (0%Z, p') /\ ~ G (types_from pos)).

Lemma decides_iff m (G G' : list token_category -> Prop) pos pos' :
  decides m G pos -> (G (types_from pos) <-> G' (types_from pos')) -> decides m G' pos'.
Proof. intros [p' H] Hi. exists p'. naive_solver. Qed.

Lemma at_end_spec pos :
  (at_end (state pos) = true /\ types_from pos = []) \/
  (at_end (state pos) = false /\ pos < length toks /\
   exists ty, token_type_parser (state pos) = Ret ty /\ types_from pos = ty :: types_from (S pos)).
Proof.
  unfold at_end; simpl. destruct (Nat.leb_spec (length toks) pos).
  - left. by rewrite drop_ge.
  - right. destruct (lookup_lt_is_Some_2 toks pos) as [t Ht]; [done|].
    split_and!; [done..|]. exists (tok_type t). unfold token_type_parser. simpl. rewrite Ht.
    split; [done|]. apply drop_S in Ht. by rewrite Ht.
Qed.

Lemma not_arg_ops ty l : g_arg (ty :: l) <->
  match ty with
  | OP_WORD => g_arg l
  | OP_LT | OP_GT | OP_GTGT => g_tgt l
  | OP_PIPE | OP_SEMI => g_cmd l
  | OP_AMP => g_bg l
  end.
Proof.
  split.
  - inversion 1; subst; try done; by destruct ty.
  - destruct ty; intros; eauto with cver; (by apply arg_redir) || (by apply arg_connector).
Qed.

Lemma parse_decides fuel : forall pos, pos <= length toks ->
  (2 * (length toks - pos) < fuel -> decides (ARG fuel (state pos)) g_arg pos) /\
  (2 * (length toks - pos) < fuel -> decides (CMD fuel (state pos)) g_cmd pos) /\
  (2 * (length toks - pos) < fuel -> decides (TGT fuel (state pos)) g_tgt pos) /\
  (2 * (length toks - pos) + 1 < fuel -> decides (BG fuel (state pos)) g_bg pos).
Proof.
  induction fuel as [|fuel IH]; intros pos Hpos; [split_and!; lia|].
  destruct (at_end_spec pos) as [[He Ht]|(He & Hlt & ty & Hty & Ht)].
  - split_and!; intros _; simpl; rewrite He; eexists; rewrite Ht;
      (left; split; [done|constructor]) || (right; split; [done|by inversion 1]).
  - destruct (IH (S pos)) as (HA & HC & HT & HB); [lia|].
    destruct (IH pos) as (_ & HCp & _); [lia|].
    split_and!; intros Hf; cbn [ARG CMD TGT BG]; rewrite He, ?Hty; cbn [obind].
    + destruct ty; (eapply decides_iff; [apply HA || apply HC || apply HT || apply HB; lia|]);
        rewrite Ht, not_arg_ops; done.
    + case_decide; subst.
      * eapply decides_iff; [apply HA; lia|]. rewrite Ht. split; [constructor; done|by inversion 1].
      * eexists. right. rewrite Ht. split; [done|]. inversion 1; congruence.
    + case_decide; subst.
      * eapply decides_iff; [apply HA; lia|]. rewrite Ht. split; [constructor; done|by inversion 1].
      * eexists. right. rewrite Ht. split; [done|]. inversion 1; congruence.
    + eapply decides_iff; [apply HCp; lia|]. rewrite Ht.
      split; inversion 1; subst; by constructor.
Qed.

Lemma LINE_decides : decides (LINE (state 0)) g_line 0.
Proof.
  unfold LINE, parse_fuel. destruct (at_end_spec 0) as [[-> Ht]|(-> & Hlt & ty & -> & Ht)].
  - eexists. left. rewrite Ht. split; [done|constructor].
  - cbn [obind]. case_decide; subst.
    + eapply decides_iff; [apply (parse_decides _ 1); simpl; lia|]. rewrite Ht.
      split; [constructor; done|by inversion 1].
    + eexists. right. rewrite Ht. split; [done|]. inversion 1; congruence.
Qed.
End parsing.

Lemma parse_tokens_line toks :
  (parse_tokens toks = Ret 1%Z /\ g_line (tok_type <$> toks)) \/
  (parse_tokens toks = Ret 0%Z /\ ~ g_line (tok_type <$> toks)).
Proof.
  destruct (LINE_decides toks) as [p' H]. unfold parse_tokens. rewrite drop_0 in H.
  destruct H as [[-> HG]|[-> HG]]; cbn [obind]; auto.
Qed.

(** C3.  The recursive-descent parser decides its grammar: on every token
    list it returns (no call runs past the tokens, none loops), with [1]
    exactly on the token sequences that [LINE] derives and [0] on all
    others. *)
Theorem parse_tokens_decides (toks : token_list_t) :
  (parse_tokens toks = Ret 1%Z <-> g_line (tok_type <$> toks)) /\
  (parse_tokens toks = Ret 0%Z <-> ~ g_line (tok_type <$> toks)).
Proof.
  destruct (parse_tokens_line toks) as [[-> ?]|[-> ?]]; split; split; intros; try done; congruence.
Qed.
