(* ===== verification/Jobs.v ===== *)
(** * The job table of the shell ([c-shell/src/jobs.c], [c-shell/include/jobs.h])

    A fixed table of 256 background or stopped jobs, each with the processes
    of its pipeline.  The table changes through [jobs_add_pipeline],
    [jobs_add_stopped], the SIGCHLD handler, [jobs_refresh_states] (which
    polls [waitpid] and [/proc/<pid>/stat]), [jobs_check_completed] and the
    [resume] operations.  The operating system is the class [ProcOS]: an
    arbitrary state with the calls the file makes. *)

From S2P Require Import Prelude Lexer.

(** ** The operating system *)

(** The result of [waitpid]: its return value, the status word it stores, and
    [errno]. *)
Record wait_res : Type := mk_wait { wr_res : Z; wr_status : Z; wr_errno : Z }.

(** [fopen(path, "r")] followed by one [fgets]. *)
Inductive file_line : Type :=
| FL_noopen
| FL_noline
| FL_line (line : cstr).

Class ProcOS (W : Type) := {
  os_waitpid : W -> Z -> Z -> W * wait_res;
  os_kill : W -> Z -> Z -> W;
  os_first_line : W -> cstr -> nat -> file_line;
  os_isatty : W -> bool;
  os_getpgrp : W -> Z;
  os_tcsetpgrp : W -> Z -> W;
  os_alarm : W -> Z -> W;
  (** has SIGALRM been delivered since the last look? *)
  os_alarm_fired : W -> W * bool;
  os_nanosleep : W -> W;
  (** is SIGCHLD delivered before the sleep is over? *)
  os_sigchld : W -> W * bool
}.

Definition WNOHANG : Z := 1.
Definition WUNTRACED : Z := 2.
Definition WCONTINUED : Z := 8.
Definition ECHILD : Z := 10.
Definition EINTR : Z := 4.
Definition SIGHUP : Z := 1.
Definition SIGTERM : Z := 15.
Definition SIGCONT : Z := 18.

(** The status macros of [sys/wait.h]. *)
Definition WTERMSIG (st : Z) : Z := Z.land st 127.
Definition WIFEXITED (st : Z) : bool := (WTERMSIG st =? 0)%Z.
Definition WIFSIGNALED (st : Z) : bool := (0 <? WTERMSIG st)%Z && (WTERMSIG st <? 127)%Z.
Definition WIFSTOPPED (st : Z) : bool := (Z.land st 255 =? 127)%Z.
Definition WIFCONTINUED (st : Z) : bool := (st =? 65535)%Z.

(** ** The table *)
Inductive proc_state_t : Type := PROC_RUNNING | PROC_STOPPED | PROC_EXITED.

#[global] Instance proc_state_eq_dec : EqDecision proc_state_t.
Proof. solve_decision. Defined.

Record proc_info_t : Type :=
  mk_proc { pi_pid : Z; pi_cmd_name : cstr; pi_state : proc_state_t }.

(** [j_procs] holds the first [num_procs] entries of the array. *)
Record job_entry_t : Type := mk_job {
  j_id : Z;
  j_pgid : Z;
  j_procs : list proc_info_t;
  j_active : bool;
  j_finished : bool;
  j_reported : bool;
  j_stopped : bool;
  j_full_cmd : cstr;
  j_exit_status : Z;
  j_signaled : bool
}.

Definition MAX_BG_JOBS : nat := 256.
Definition MAX_PIDS_PER_JOB : nat := 64.
Definition CMD_NAME_SIZE : nat := 256.
Definition FULL_CMD_SIZE : nat := 512.

Definition empty_job : job_entry_t := mk_job 0 0 [] false false false false [] 0 false.

Definition set_state (p : proc_info_t) (st : proc_state_t) : proc_info_t :=
  mk_proc (pi_pid p) (pi_cmd_name p) st.
Definition set_procs (j : job_entry_t) (ps : list proc_info_t) : job_entry_t :=
  mk_job (j_id j) (j_pgid j) ps (j_active j) (j_finished j) (j_reported j) (j_stopped j)
    (j_full_cmd j) (j_exit_status j) (j_signaled j).
Definition set_active (j : job_entry_t) (b : bool) : job_entry_t :=
  mk_job (j_id j) (j_pgid j) (j_procs j) b (j_finished j) (j_reported j) (j_stopped j)
    (j_full_cmd j) (j_exit_status j) (j_signaled j).
Definition set_stopped (j : job_entry_t) (b : bool) : job_entry_t :=
  mk_job (j_id j) (j_pgid j) (j_procs j) (j_active j) (j_finished j) (j_reported j) b
    (j_full_cmd j) (j_exit_status j) (j_signaled j).
Definition set_reported (j : job_entry_t) (b : bool) : job_entry_t :=
  mk_job (j_id j) (j_pgid j) (j_procs j) (j_active j) (j_finished j) b (j_stopped j)
    (j_full_cmd j) (j_exit_status j) (j_signaled j).
Definition set_finished (j : job_entry_t) (b : bool) : job_entry_t :=
  mk_job (j_id j) (j_pgid j) (j_procs j) (j_active j) b (j_reported j) (j_stopped j)
    (j_full_cmd j) (j_exit_status j) (j_signaled j).
(** [finished = 1; exit_status = status; is_signaled = WIFSIGNALED(status)] *)
Definition set_exit (j : job_entry_t) (st : Z) : job_entry_t :=
  mk_job (j_id j) (j_pgid j) (j_procs j) (j_active j) true (j_reported j) (j_stopped j)
    (j_full_cmd j) st (WIFSIGNALED st).
(** [procs[k].state = st] *)
Definition set_proc_state (j : job_entry_t) (k : nat) (st : proc_state_t) : job_entry_t :=
  set_procs j (alter (fun p => set_state p st) k (j_procs j)).

Definition alive (p : proc_info_t) : bool := negb (bool_decide (pi_state p = PROC_EXITED)).
Definition has_alive (j : job_entry_t) : bool := existsb alive (j_procs j).

(** ** The state of the shell's job control: the static variables of the
    file, what was printed, and the operating system *)
Record jstate (W : Type) : Type := mk_js {
  js_jobs : list job_entry_t;
  js_next : Z;
  js_fg : bool;
  js_out : list cstr;
  js_os : W
}.
Arguments mk_js {W} _ _ _ _ _.
Arguments js_jobs {W} _.
Arguments js_next {W} _.
Arguments js_fg {W} _.
Arguments js_out {W} _.
Arguments js_os {W} _.

Definition js_init {W} (w : W) : jstate W :=
  mk_js (replicate MAX_BG_JOBS empty_job) 1 false [] w.

Section jobs.
Context {W : Type} `{ProcOS W}.

Abbreviation jstate := (jstate W).

Definition with_jobs (s : jstate) (l : list job_entry_t) : jstate :=
  mk_js l (js_next s) (js_fg s) (js_out s) (js_os s).
Definition with_os (s : jstate) (w : W) : jstate :=
  mk_js (js_jobs s) (js_next s) (js_fg s) (js_out s) w.
Definition printf (s : jstate) (t : cstr) : jstate :=
  mk_js (js_jobs s) (js_next s) (js_fg s) (js_out s ++ [t]) (js_os s).

Definition jobs_alloc_id (s : jstate) : jstate * Z :=
  (mk_js (js_jobs s) (wrap32 (js_next s + 1)) (js_fg s) (js_out s) (js_os s), js_next s).

Definition jobs_set_fg_active (s : jstate) (active : bool) : jstate :=
  mk_js (js_jobs s) (js_next s) active (js_out s) (js_os s).

(** ** The SIGCHLD handler

    [sigchld_proc] is the body of the inner loop for process [k]. *)
Definition sigchld_proc (w : W) (j : job_entry_t) (k : nat) : W * job_entry_t :=
  match j_procs j !! k with
  | None => (w, j)
  | Some p =>
      let pid := pi_pid p in
      let '(w, r) := os_waitpid w pid (WNOHANG + WUNTRACED + WCONTINUED) in
      let status := wr_status r in
      if (wr_res r =? pid)%Z then
        if WIFEXITED status || WIFSIGNALED status then
          let j := set_proc_state j k PROC_EXITED in
          (w, if (pid =? j_pgid j)%Z then set_exit j status else j)
        else if WIFSTOPPED status then
          (w, set_stopped (set_proc_state j k PROC_STOPPED) true)
        else if WIFCONTINUED status then
          (w, set_stopped (set_proc_state j k PROC_RUNNING) false)
        else (w, j)
      else (w, j)
  end.

Fixpoint sigchld_procs (w : W) (j : job_entry_t) (k n : nat) : W * job_entry_t :=
  match n with
  | O => (w, j)
  | S n => let '(w, j) := sigchld_proc w j k in sigchld_procs w j (S k) n
  end.

Definition sigchld_job (w : W) (j : job_entry_t) : W * job_entry_t :=
  if j_active j && negb (j_finished j) then sigchld_procs w j 0 (length (j_procs j))
  else (w, j).

(** A [for] loop over a table that threads the operating system. *)
Fixpoint map_os {A} (f : W -> A -> W * A) (w : W) (l : list A) : W * list A :=
  match l with
  | [] => (w, [])
  | a :: l =>
      let '(w, a) := f w a in
      let '(w, l) := map_os f w l in
      (w, a :: l)
  end.

Definition sigchld_handler (s : jstate) : jstate :=
  let '(w, l) := map_os sigchld_job (js_os s) (js_jobs s) in
  mk_js l (js_next s) (js_fg s) (js_out s) w.

(** ** Refreshing the states *)

(** The state character of [/proc/<pid>/stat]: two characters after the last
    [')'], if the next one is a space. *)
Fixpoint strrchr_tail (c : ascii) (l : cstr) : option cstr :=
  match l with
  | [] => None
  | x :: l' =>
      match strrchr_tail c l' with
      | Some t => Some t
      | None => if decide (x = c) then Some (x :: l') else None
      end
  end.

Definition stat_state_char (line : cstr) : option ascii :=
  match strrchr_tail ")"%char line with
  | Some (_ :: sp :: rest) => if decide (sp = SPACE) then Some (default NUL (rest !! 0)) else None
  | _ => None
  end.

Definition stat_path (pid : Z) : cstr :=
  take 63 (c_str "/proc/" ++ fmt_d pid ++ c_str "/stat").

(** The state character of [/proc] overrides the state [st] found by
    [waitpid]; a process without a [stat] file is gone. *)
Definition stat_override (fl : file_line) (st : proc_state_t) : proc_state_t :=
  match fl with
  | FL_noopen => PROC_EXITED
  | FL_noline => st
  | FL_line line =>
      match stat_state_char line with
      | Some c =>
          if decide (c = "T"%char \/ c = "t"%char) then PROC_STOPPED
          else if decide (c = "Z"%char) then PROC_EXITED
          else st
      | None => st
      end
  end.

(** The new state of a process that has not exited, and the status word if
    [waitpid] reaped it. *)
Definition refresh_state (w : W) (p : proc_info_t) : W * proc_state_t * option Z :=
  let pid := pi_pid p in
  let '(w, r) := os_waitpid w pid (WNOHANG + WUNTRACED + WCONTINUED) in
  let status := wr_status r in
  if (wr_res r =? pid)%Z then
    if WIFEXITED status || WIFSIGNALED status then (w, PROC_EXITED, Some status)
    else
      let st :=
        if WIFSTOPPED status then PROC_STOPPED
        else if WIFCONTINUED status then PROC_RUNNING
        else pi_state p in
      (w, stat_override (os_first_line w (stat_path pid) 256) st, None)
  else if (wr_res r <? 0)%Z && (wr_errno r =? ECHILD)%Z then (w, PROC_EXITED, None)
  else (w, stat_override (os_first_line w (stat_path pid) 256) (pi_state p), None).

(** The loop body of [jobs_refresh_states] for process [k]; the two flags are
    [any_alive] and [any_stopped]. *)
Definition refresh_proc (w : W) (j : job_entry_t) (any_alive any_stopped : bool) (k : nat)
    : W * job_entry_t * bool * bool :=
  match j_procs j !! k with
  | None => (w, j, any_alive, any_stopped)
  | Some p =>
      if decide (pi_state p = PROC_EXITED) then (w, j, any_alive, any_stopped)
      else
        let '(w, st, reaped) := refresh_state w p in
        let j := set_proc_state j k st in
        let j :=
          match reaped with
          | Some status => if (pi_pid p =? j_pgid j)%Z then set_exit j status else j
          | None => j
          end in
        (w, j,
         any_alive || negb (bool_decide (st = PROC_EXITED)),
         any_stopped || bool_decide (st = PROC_STOPPED))
  end.

Fixpoint refresh_procs (w : W) (j : job_entry_t) (any_alive any_stopped : bool) (k n : nat)
    : W * job_entry_t * bool * bool :=
  match n with
  | O => (w, j, any_alive, any_stopped)
  | S n =>
      let '(w, j, a, s) := refresh_proc w j any_alive any_stopped k in
      refresh_procs w j a s (S k) n
  end.

Definition refresh_job (w : W) (j : job_entry_t) : W * job_entry_t :=
  if j_active j then
    let '(w, j, any_alive, any_stopped) := refresh_procs w j false false 0 (length (j_procs j)) in
    let j := set_stopped j any_stopped in
    (w, if negb any_alive && (j_reported j || j_stopped j) then set_active j false else j)
  else (w, j).

Definition jobs_refresh_states (s : jstate) : jstate :=
  let '(w, l) := map_os refresh_job (js_os s) (js_jobs s) in
  mk_js l (js_next s) (js_fg s) (js_out s) w.

(** ** Adding jobs *)
Definition new_procs (pids : list Z) (names : list cstr) : list proc_info_t :=
  zip_with (fun pid name => mk_proc pid (strncpy_buf CMD_NAME_SIZE name) PROC_RUNNING)
    (take MAX_PIDS_PER_JOB pids) names.

Definition new_job (job_id pgid : Z) (pids : list Z) (names : list cstr) (full_cmd : option cstr)
    : job_entry_t :=
  mk_job job_id pgid (new_procs pids names) true false false false
    (match full_cmd with Some c => strncpy_buf FULL_CMD_SIZE c | None => [] end) 0 false.

(** The first slot that is free. *)
Definition free_slot (l : list job_entry_t) : option nat :=
  fst <$> list_find (fun j => j_active j = false) l.

Definition jobs_add_pipeline (s : jstate) (job_id pgid : Z) (pids : list Z) (names : list cstr)
    (full_cmd : option cstr) : jstate :=
  match free_slot (js_jobs s) with
  | Some i => with_jobs s (<[i := new_job job_id pgid pids names full_cmd]> (js_jobs s))
  | None => s
  end.

Definition jobs_add (s : jstate) (job_id pid : Z) (name : cstr) (full_cmd : option cstr) : jstate :=
  jobs_add_pipeline s job_id pid [pid] [name] full_cmd.

Definition job_slot (l : list job_entry_t) (job_id : Z) : option nat :=
  fst <$> list_find (fun j => j_active j = true /\ j_id j = job_id) l.

Definition stop_all (j : job_entry_t) : job_entry_t :=
  set_procs (set_stopped j true) ((fun p => set_state p PROC_STOPPED) <$> j_procs j).

Definition jobs_add_stopped (s : jstate) (job_id pgid : Z) (pids : list Z) (names : list cstr)
    (full_cmd : option cstr) : jstate :=
  let s := jobs_add_pipeline s job_id pgid pids names full_cmd in
  match job_slot (js_jobs s) job_id with
  | Some i => with_jobs s (alter stop_all i (js_jobs s))
  | None => s
  end.

(** ** Queries *)
Definition jobs_has_stopped (s : jstate) : jstate * bool :=
  let s := jobs_refresh_states s in
  (s, existsb (fun j => j_active j && j_stopped j) (js_jobs s)).

Definition jobs_get_by_id (s : jstate) (job_id : Z) : jstate * option nat :=
  let s := jobs_refresh_states s in
  (s, fst <$> list_find (fun j => j_active j = true /\ j_id j = job_id /\ has_alive j = true)
        (js_jobs s)).

Definition jobs_pid_is_tracked (s : jstate) (pid : Z) : jstate * bool :=
  let s := jobs_refresh_states s in
  (s, existsb (fun j => j_active j && existsb (fun p => (pi_pid p =? pid)%Z && alive p) (j_procs j))
        (js_jobs s)).

(** ** Reporting finished jobs *)
Definition to_report (j : job_entry_t) : bool :=
  j_active j && j_finished j && negb (j_reported j) && negb (j_stopped j).

Definition completion_line (j : job_entry_t) : cstr :=
  default [] (pi_cmd_name <$> j_procs j !! 0) ++ c_str " with pid " ++ fmt_d (j_pgid j) ++
  c_str " exited " ++ (if j_signaled j then c_str "abnormally" else c_str "normally").

Fixpoint report_jobs (out : list cstr) (l : list job_entry_t) : list cstr * list job_entry_t :=
  match l with
  | [] => (out, [])
  | j :: l =>
      let '(out, j) :=
        if to_report j then (out ++ [completion_line j], set_active (set_reported j true) false)
        else (out, j) in
      let '(out, l) := report_jobs out l in
      (out, j :: l)
  end.

Definition jobs_check_completed (s : jstate) : jstate :=
  let s := jobs_refresh_states s in
  let '(out, l) := report_jobs (js_out s) (js_jobs s) in
  mk_js l (js_next s) (js_fg s) out (js_os s).

(** ** Signals *)
Definition sighup_job (w : W) (j : job_entry_t) : W * job_entry_t :=
  (if j_active j && (1 <? j_pgid j)%Z then os_kill w (- j_pgid j) SIGHUP else w, j).

Definition jobs_send_sighup_all (s : jstate) : jstate :=
  with_os s (fst (map_os sighup_job (js_os s) (js_jobs s))).

Definition jobs_send_signal_to_job (s : jstate) (job_id sig : Z) : jstate * bool :=
  let '(s, r) := jobs_get_by_id s job_id in
  match r ≫= (js_jobs s !!.) with
  | None => (s, false)
  | Some j => (with_os s (os_kill (js_os s) (- j_pgid j) sig), true)
  end.

Definition jobs_send_signal_to_pid (s : jstate) (pid sig : Z) : jstate * bool :=
  let '(s, tracked) := jobs_pid_is_tracked s pid in
  if tracked then (with_os s (os_kill (js_os s) pid sig), true) else (s, false).

(** ** Listing the activities *)

Definition compare_job_ptrs (a b : job_entry_t) : Z := wrap32 (j_id a - j_id b).

Definition listed_jobs (l : list job_entry_t) : list job_entry_t :=
  filter (fun j => j_active j = true /\ has_alive j = true) l.

Definition process_line (p : proc_info_t) : cstr :=
  c_str "  " ++ fmt_d (pi_pid p) ++ c_str " " ++ pi_cmd_name p ++ c_str " " ++
  (if decide (pi_state p = PROC_STOPPED) then c_str "Stopped" else c_str "Running").

Definition job_lines (j : job_entry_t) : list cstr :=
  (c_str "[" ++ fmt_d (j_id j) ++ c_str "] pgid " ++ fmt_d (j_pgid j)) ::
  (process_line <$> filter (fun p => alive p = true) (j_procs j)).

Definition jobs_refresh_and_print_activities (s : jstate) : jstate :=
  let s := jobs_refresh_states s in
  let active_jobs := qsort compare_job_ptrs (listed_jobs (js_jobs s)) in
  mk_js (js_jobs s) (js_next s) (js_fg s) (js_out s ++ (active_jobs ≫= job_lines)) (js_os s).

(** ** Resuming *)
Definition continue_proc (p : proc_info_t) : proc_info_t :=
  if decide (pi_state p = PROC_STOPPED) then set_state p PROC_RUNNING else p.

Definition continue_job (j : job_entry_t) : job_entry_t :=
  set_procs (set_stopped j false) (continue_proc <$> j_procs j).

Definition running_line (j : job_entry_t) : cstr :=
  c_str "[" ++ fmt_d (j_id j) ++ c_str "] + Running " ++ j_full_cmd j.

Definition stopped_line (j : job_entry_t) : cstr :=
  c_str "[" ++ fmt_d (j_id j) ++ c_str "] + Stopped " ++ j_full_cmd j.

Definition jobs_resume_bg (s : jstate) (job_id : Z) : jstate * bool :=
  let '(s, r) := jobs_get_by_id s job_id in
  match r with
  | None => (printf s (c_str "resume: no such job"), false)
  | Some i =>
      match js_jobs s !! i with
      | None => (s, false)
      | Some j =>
          let s := with_os s (os_kill (js_os s) (- j_pgid j) SIGCONT) in
          let j := continue_job j in
          (printf (with_jobs s (<[i := j]> (js_jobs s))) (running_line j), true)
      end
  end.

(** One pass of the polling loop over process [k]: the counters are
    [alive_count] and [any_stopped]. *)
Definition poll_proc (w : W) (j : job_entry_t) (alive_count : nat) (any_stopped : bool) (k : nat)
    : W * job_entry_t * nat * bool :=
  match j_procs j !! k with
  | None => (w, j, alive_count, any_stopped)
  | Some p =>
      if decide (pi_state p = PROC_EXITED) then (w, j, alive_count, any_stopped)
      else
        let '(w, r) := os_waitpid w (pi_pid p) (WUNTRACED + WNOHANG) in
        let status := wr_status r in
        if (wr_res r =? pi_pid p)%Z then
          if WIFEXITED status || WIFSIGNALED status then
            (w, set_proc_state j k PROC_EXITED, alive_count, any_stopped)
          else if WIFSTOPPED status then
            (w, set_proc_state j k PROC_STOPPED, alive_count, true)
          else (w, j, alive_count, any_stopped)
        else if (wr_res r <? 0)%Z && (wr_errno r =? ECHILD)%Z then
          (w, set_proc_state j k PROC_EXITED, alive_count, any_stopped)
        else
          (w, j, S alive_count,
           if decide (pi_state p = PROC_STOPPED) then true else any_stopped)
  end.

Fixpoint poll_procs (w : W) (j : job_entry_t) (alive_count : nat) (any_stopped : bool) (k n : nat)
    : W * job_entry_t * nat * bool :=
  match n with
  | O => (w, j, alive_count, any_stopped)
  | S n =>
      let '(w, j, c, s) := poll_proc w j alive_count any_stopped k in
      poll_procs w j c s (S k) n
  end.

(** How the loop ends. *)
Inductive resume_end : Type := TimedOut | AnyStopped | AllDone.

(** The 10 ms pause of the loop: the SIGCHLD handler runs when the signal
    arrives during it. *)
Definition resume_pause (s : jstate) : jstate :=
  let '(w, chld) := os_sigchld (os_nanosleep (js_os s)) in
  if (chld : bool) then sigchld_handler (with_os s w) else with_os s w.

(** The polling loop on entry [i] of the table ([job] points into it);
    [NoFuel] when the job outlives the fuel. *)
Fixpoint resume_loop (fuel : nat) (s : jstate) (i : nat) : outcome (jstate * resume_end) :=
  match fuel with
  | O => NoFuel
  | S fuel =>
      let '(w, resume_timed_out) := os_alarm_fired (js_os s) in
      if (resume_timed_out : bool) then Ret (with_os s w, TimedOut)
      else
        match js_jobs s !! i with
        | None => Undef
        | Some j =>
            let '(w, j, alive_count, any_stopped) := poll_procs w j 0 false 0 (length (j_procs j)) in
            let s := with_os (with_jobs s (<[i := j]> (js_jobs s))) w in
            if any_stopped : bool then Ret (s, AnyStopped)
            else if (alive_count =? 0) then Ret (s, AllDone)
            else resume_loop fuel (resume_pause s) i
        end
  end.

(** What is left after the loop: the flag [resume_timed_out] is looked at once
    more, so that an alarm that arrived after the last look of the loop still
    ends the job. *)
Definition resume_finish (s : jstate) (i : nat) (how : resume_end) : outcome (jstate * bool) :=
  let '(w, late) := os_alarm_fired (js_os s) in
  let how := if (late : bool) then TimedOut else how in
  match js_jobs s !! i with
  | None => Undef
  | Some j =>
      match how with
      | TimedOut =>
          let w := os_kill w (- j_pgid j) SIGTERM in
          let j := set_finished (set_active j false) true in
          Ret (with_jobs (printf (with_os s w) (c_str "resume: job timed out"))
                 (<[i := j]> (js_jobs s)), true)
      | AnyStopped =>
          let j := set_stopped j true in
          Ret (printf (with_os (with_jobs s (<[i := j]> (js_jobs s))) w) (stopped_line j), false)
      | AllDone =>
          let j := set_finished (set_active j false) true in
          Ret (with_os (with_jobs s (<[i := j]> (js_jobs s))) w, true)
      end
  end.

Definition jobs_resume_fg (fuel : nat) (s : jstate) (job_id timeout_seconds : Z)
    : outcome (jstate * bool) :=
  let '(s, r) := jobs_get_by_id s job_id in
  match r with
  | None => Ret (printf s (c_str "resume: no such job"), false)
  | Some i =>
      match js_jobs s !! i with
      | None => Undef
      | Some j =>
          let s := printf s (j_full_cmd j) in
          let w := js_os s in
          let w := if os_isatty w then os_tcsetpgrp w (j_pgid j) else w in
          let w := os_kill w (- j_pgid j) SIGCONT in
          let s := with_jobs s (<[i := continue_job j]> (js_jobs s)) in
          let w := if (0 <? timeout_seconds)%Z then os_alarm w timeout_seconds else w in
          let s := jobs_set_fg_active (with_os s w) true in
          let* '(s, how) := resume_loop fuel s i in
          let w := js_os s in
          let w := if (0 <? timeout_seconds)%Z then os_alarm w 0 else w in
          let w := if os_isatty w then os_tcsetpgrp w (os_getpgrp w) else w in
          resume_finish (jobs_set_fg_active (with_os s w) false) i how
      end
  end.

End jobs.

(** ** The command string of a job

    [recon_text] is the text of one token; operators [;] and [&] have none. *)
Definition recon_text (t : token_t) : cstr :=
  match tok_type t with
  | OP_WORD => default [] (tok_text t)
  | OP_PIPE => c_str "|"
  | OP_LT => c_str "<"
  | OP_GT => c_str ">"
  | OP_GTGT => c_str ">>"
  | _ => []
  end.

(** One iteration: [out] is the string so far, [cur] its length. *)
Definition recon_step (out_len : nat) (out : cstr) (t : token_t) : cstr :=
  let text := recon_text t in
  match text with
  | [] => out
  | _ :: _ =>
      let out :=
        if (0 <? length out) && (length out + 1 <? out_len) then out ++ [SPACE] else out in
      if (length out + length text <? out_len) then out ++ text else out
  end.

Definition reconstruct_cmd_str (list : token_list_t) (out_len : nat) : cstr :=
  foldl (recon_step out_len) [] list.

(** ** Proofs: what the polling operations may change *)

Definition proc_frame (p p' : proc_info_t) : Prop :=
  pi_pid p' = pi_pid p /\ pi_cmd_name p' = pi_cmd_name p.

(** Nothing but process states, [finished] and the exit data, [stopped], and
    a cleared [active]. *)
Definition job_frame (j j' : job_entry_t) : Prop :=
  j_id j' = j_id j /\ j_pgid j' = j_pgid j /\ j_full_cmd j' = j_full_cmd j /\
  j_reported j' = j_reported j /\ (j_active j' = true -> j_active j = true) /\
  (j_finished j = true -> j_finished j' = true) /\
  Forall2 proc_frame (j_procs j) (j_procs j').

Lemma proc_frame_refl p : proc_frame p p.
Proof. by split. Qed.

Lemma procs_frame_refl l : Forall2 proc_frame l l.
Proof. induction l; constructor; auto using proc_frame_refl. Qed.

Lemma procs_frame_trans l1 l2 l3 :
  Forall2 proc_frame l1 l2 -> Forall2 proc_frame l2 l3 -> Forall2 proc_frame l1 l3.
Proof.
  intros H1. revert l3. induction H1 as [|p1 p2 l1 l2 [? ?] _ IH]; intros l3 H2; inversion H2; subst;
    constructor; [|by apply IH]. unfold proc_frame in *. naive_solver congruence.
Qed.

Lemma procs_frame_length l l' : Forall2 proc_frame l l' -> length l' = length l.
Proof. intros H. by apply Forall2_length in H. Qed.

#[global] Instance job_frame_refl : Reflexive job_frame.
Proof. intros j. split_and!; auto using procs_frame_refl. Qed.

#[global] Instance job_frame_trans : Transitive job_frame.
Proof.
  intros j1 j2 j3 (?&?&?&?&?&?&?) (?&?&?&?&?&?&?).
  split_and!; try congruence; eauto using procs_frame_trans.
Qed.

Lemma job_frame_set_state j k st : job_frame j (set_proc_state j k st).
Proof.
  split_and!; try done. simpl. revert k.
  induction (j_procs j) as [|p ps IH]; intros k; [constructor|].
  destruct k; simpl; (constructor; [by split|]); [apply procs_frame_refl|apply IH].
Qed.

Lemma job_frame_stopped j b : job_frame j (set_stopped j b).
Proof. split_and!; auto using procs_frame_refl. Qed.

Lemma job_frame_exit j st : job_frame j (set_exit j st).
Proof. split_and!; auto using procs_frame_refl. Qed.

Lemma job_frame_inactive j : job_frame j (set_active j false).
Proof. split_and!; auto using procs_frame_refl. done. Qed.

#[export] Hint Resolve job_frame_refl job_frame_set_state job_frame_stopped job_frame_exit
  job_frame_inactive : cver.

Section polling.
Context {W : Type} `{ProcOS W}.

Lemma map_os_Forall2 {A} (R : A -> A -> Prop) (f : W -> A -> W * A) w l :
  (forall w a, R a (f w a).2) -> Forall2 R l (map_os f w l).2.
Proof.
  intros Hf. revert w. induction l as [|a l IH]; intros w; simpl; [constructor|].
  destruct (f w a) as [w1 a1] eqn:E. specialize (IH w1).
  destruct (map_os f w1 l) as [w2 l2]. constructor; [|done].
  specialize (Hf w a). by rewrite E in Hf.
Qed.

Lemma sigchld_proc_frame w j k : job_frame j (sigchld_proc w j k).2.
Proof.
  unfold sigchld_proc. destruct (j_procs j !! k) as [p|]; simpl; [|done].
  destruct (os_waitpid _ _ _) as [w1 r].
  repeat case_test; simpl; eauto using job_frame_trans with cver.
Qed.

Lemma sigchld_procs_frame w j k n : job_frame j (sigchld_procs w j k n).2.
Proof.
  revert w j k. induction n as [|n IH]; intros w j k; simpl; [done|].
  pose proof (sigchld_proc_frame w j k) as Hf.
  destruct (sigchld_proc w j k) as [w1 j1]. simpl in Hf. by rewrite Hf.
Qed.

Lemma sigchld_job_frame w j : job_frame j (sigchld_job w j).2.
Proof. unfold sigchld_job. case_test; [apply sigchld_procs_frame|done]. Qed.

Lemma refresh_proc_frame w j a s k : job_frame j (refresh_proc w j a s k).1.1.2.
Proof.
  unfold refresh_proc. destruct (j_procs j !! k) as [p|]; simpl; [|done].
  case_decide; [done|]. destruct (refresh_state w p) as [[w1 st] reaped].
  repeat case_test; simpl; eauto using job_frame_trans with cver.
Qed.

Lemma refresh_procs_frame w j a s k n : job_frame j (refresh_procs w j a s k n).1.1.2.
Proof.
  revert w j a s k. induction n as [|n IH]; intros w j a s k; simpl; [done|].
  pose proof (refresh_proc_frame w j a s k) as Hf.
  destruct (refresh_proc w j a s k) as [[[w1 j1] a1] s1]. simpl in Hf. by rewrite Hf.
Qed.

(** The inner loop leaves [active] alone. *)
Lemma refresh_procs_active w j a s k n :
  j_active (refresh_procs w j a s k n).1.1.2 = j_active j.
Proof.
  revert w j a s k. induction n as [|n IH]; intros w j a s k; simpl; [done|].
  assert (j_active (refresh_proc w j a s k).1.1.2 = j_active j) as Ha.
  { unfold refresh_proc. destruct (j_procs j !! k); [|done]. case_decide; [done|].
    destruct (refresh_state _ _) as [[w1 st] [status|]]; simpl; [case_match|]; done. }
  destruct (refresh_proc w j a s k) as [[[w1 j1] a1] s1]. simpl in Ha. by rewrite IH.
Qed.

Lemma refresh_job_frame w j : job_frame j (refresh_job w j).2.
Proof.
  unfold refresh_job. case_test; [|done].
  pose proof (refresh_procs_frame w j false false 0 (length (j_procs j))) as Hf.
  destruct (refresh_procs _ _ _ _ _ _) as [[[w1 j1] a1] s1]. simpl in Hf |- *.
  case_test; rewrite Hf; eauto using job_frame_trans with cver.
Qed.

Lemma jobs_refresh_frame (s : jstate W) :
  Forall2 job_frame (js_jobs s) (js_jobs (jobs_refresh_states s)) /\
  js_next (jobs_refresh_states s) = js_next s /\ js_out (jobs_refresh_states s) = js_out s.
Proof.
  unfold jobs_refresh_states.
  pose proof (map_os_Forall2 job_frame refresh_job (js_os s) (js_jobs s) refresh_job_frame) as Hf.
  destruct (map_os _ _ _) as [w l]. split_and!; done.
Qed.

Lemma sigchld_frame (s : jstate W) :
  Forall2 job_frame (js_jobs s) (js_jobs (sigchld_handler s)) /\
  js_next (sigchld_handler s) = js_next s /\ js_out (sigchld_handler s) = js_out s.
Proof.
  unfold sigchld_handler.
  pose proof (map_os_Forall2 job_frame sigchld_job (js_os s) (js_jobs s) sigchld_job_frame) as Hf.
  destruct (map_os _ _ _) as [w l]. split_and!; done.
Qed.

(** *** The flags of a refreshed job *)
Definition stopped_proc (p : proc_info_t) : bool := bool_decide (pi_state p = PROC_STOPPED).

Lemma set_proc_state_procs j k p st :
  j_procs j !! k = Some p -> j_procs (set_proc_state j k st) = <[k := set_state p st]> (j_procs j).
Proof.
  intros Hk. simpl. apply list_eq. intros i. destruct (decide (i = k)) as [->|].
  - rewrite list_lookup_alter_eq, Hk, list_lookup_insert_eq; [done|by eapply lookup_lt_Some].
  - by rewrite list_lookup_alter_ne, list_lookup_insert_ne.
Qed.

(** After process [k] was polled its state accounts for the two flags, and
    the other processes are as before. *)
Lemma refresh_proc_flags w j a s k p w' j' a' s' :
  j_procs j !! k = Some p ->
  refresh_proc w j a s k = (w', j', a', s') ->
  exists p', j_procs j' = <[k := p']> (j_procs j) /\
    (pi_state p = PROC_EXITED -> p' = p) /\
    a' = a || alive p' /\ s' = s || stopped_proc p'.
Proof.
  intros Hk. unfold refresh_proc. rewrite Hk. case_decide as Hex.
  - intros [= <- <- <- <-]. exists p. rewrite list_insert_id by done.
    unfold alive, stopped_proc. rewrite Hex. simpl. by rewrite !orb_false_r.
  - destruct (refresh_state w p) as [[w1 st] reaped]. intros [= <- <- <- <-].
    exists (set_state p st). split_and!; try done.
    destruct reaped; [case_match|]; simpl; by apply set_proc_state_procs.
Qed.

Lemma refresh_procs_flags n : forall w j a s k w' j' a' s',
  k + n = length (j_procs j) ->
  refresh_procs w j a s k n = (w', j', a', s') ->
  take k (j_procs j') = take k (j_procs j) /\
  a' = a || existsb alive (drop k (j_procs j')) /\
  s' = s || existsb stopped_proc (drop k (j_procs j')).
Proof.
  induction n as [|n IH]; intros w j a s k w' j' a' s' Hlen.
  - intros [= <- <- <- <-]. rewrite drop_ge by lia. simpl. by rewrite !orb_false_r.
  - simpl. destruct (refresh_proc w j a s k) as [[[w1 j1] a1] s1] eqn:E. intros Hr.
    destruct (lookup_lt_is_Some_2 (j_procs j) k) as [p Hp]; [lia|].
    destruct (refresh_proc_flags _ _ _ _ _ _ _ _ _ _ Hp E) as (p' & Hj1 & _ & -> & ->).
    assert (k < length (j_procs j1)) as Hk by (rewrite Hj1, length_insert; lia).
    destruct (IH _ _ _ _ (S k) _ _ _ _ ltac:(rewrite Hj1, length_insert; lia) Hr) as (Ht & -> & ->).
    assert (j_procs j' !! k = Some p') as Hk'.
    { rewrite <- (lookup_take_lt _ (S k)), Ht, lookup_take_lt, Hj1 by lia.
      apply list_lookup_insert_eq. lia. }
    rewrite (drop_S _ _ _ Hk'). simpl. rewrite !orb_assoc. split_and!; try done.
    replace k with (k `min` S k) at 1 2 by lia. rewrite <- !take_take, Ht, Hj1, !take_take.
    by rewrite take_insert_ge by lia.
Qed.

Lemma refresh_job_flags w j :
  j_active j = true ->
  j_stopped (refresh_job w j).2 = existsb stopped_proc (j_procs (refresh_job w j).2) /\
  j_active (refresh_job w j).2 = has_alive (refresh_job w j).2 || negb (j_reported j).
Proof.
  intros Ha. pose proof (refresh_job_frame w j) as Hf. revert Hf. unfold refresh_job. rewrite Ha.
  destruct (refresh_procs _ _ _ _ _ _) as [[[w1 j1] a1] s1] eqn:E.
  pose proof (refresh_procs_frame w j false false 0 (length (j_procs j))) as Hf1.
  pose proof (refresh_procs_active w j false false 0 (length (j_procs j))) as Ha1.
  rewrite E in Hf1, Ha1. simpl in Hf1, Ha1. destruct Hf1 as (_&_&_&Hrep&_).
  destruct (refresh_procs_flags _ _ _ _ _ _ _ _ _ _ (Nat.add_0_l _) E) as (_ & -> & ->).
  rewrite drop_0. simpl. unfold has_alive.
  assert (existsb stopped_proc (j_procs j1) = true -> existsb alive (j_procs j1) = true) as Hsa.
  { rewrite !existsb_exists. unfold stopped_proc, alive. intros (p & ? & Hp).
    exists p. split; [done|]. reflect. by rewrite Hp. }
  destruct (existsb alive (j_procs j1)) eqn:Eal; simpl; [|].
  - intros _. rewrite Eal. split; [done|simpl; congruence].
  - destruct (existsb stopped_proc (j_procs j1)) eqn:Est; [by specialize (Hsa eq_refl)|].
    rewrite orb_false_r. rewrite Hrep. intros _.
    destruct (j_reported j); simpl; rewrite ?Eal, ?Est; split; simpl; congruence.
Qed.

End polling.

(** ** Proofs: the invariant of the table *)

Definition job_wf (j : job_entry_t) : Prop :=
  length (j_procs j) <= MAX_PIDS_PER_JOB /\
  Forall (fun p => length (pi_cmd_name p) < CMD_NAME_SIZE) (j_procs j) /\
  length (j_full_cmd j) < FULL_CMD_SIZE.

Definition active_ids (l : list job_entry_t) : list Z :=
  j_id <$> filter (fun j => j_active j = true) l.

(** The table has its 256 entries, every entry fits its arrays, and the
    active entries have distinct numbers between [1] and the next number. *)
Definition table_ok {W} (s : jstate W) : Prop :=
  length (js_jobs s) = MAX_BG_JOBS /\
  Forall job_wf (js_jobs s) /\
  NoDup (active_ids (js_jobs s)) /\
  (1 <= js_next s <= INT_MAX)%Z /\
  Forall (fun id => 1 <= id < js_next s)%Z (active_ids (js_jobs s)).

(** A number that was handed out and is not in the table. *)
Definition fresh_id {W} (s : jstate W) (id : Z) : Prop :=
  (1 <= id < js_next s)%Z /\ id ∉ active_ids (js_jobs s).

(** What every operation but an addition may do to an entry. *)
Definition job_upd (j j' : job_entry_t) : Prop :=
  j_id j' = j_id j /\ j_full_cmd j' = j_full_cmd j /\
  (j_active j' = true -> j_active j = true) /\
  Forall2 proc_frame (j_procs j) (j_procs j').

Lemma job_frame_upd j j' : job_frame j j' -> job_upd j j'.
Proof. intros (?&?&?&?&?&?&?). by split_and!. Qed.

#[global] Instance job_upd_refl : Reflexive job_upd.
Proof. intros j. apply job_frame_upd, job_frame_refl. Qed.

#[global] Instance job_upd_trans : Transitive job_upd.
Proof.
  intros j1 j2 j3 (?&?&?&?) (?&?&?&?). split_and!; try congruence; eauto using procs_frame_trans.
Qed.

Definition table_upd {W} (s s' : jstate W) : Prop :=
  Forall2 job_upd (js_jobs s) (js_jobs s') /\ js_next s' = js_next s.

#[global] Instance table_upd_refl {W} : Reflexive (@table_upd W).
Proof. intros s. split; [|done]. induction (js_jobs s); constructor; done || reflexivity. Qed.

#[global] Instance table_upd_trans {W} : Transitive (@table_upd W).
Proof.
  intros s1 s2 s3 [Hl ?] [Hr ?]. split; [|congruence]. revert Hr.
  generalize (js_jobs s3). induction Hl; intros l3 Hr; inversion Hr; subst; constructor; eauto.
  by etrans.
Qed.

Lemma table_upd_frame {W} (s s' : jstate W) :
  Forall2 job_frame (js_jobs s) (js_jobs s') -> js_next s' = js_next s -> table_upd s s'.
Proof. intros Hf ?. split; [|done]. eapply Forall2_impl; [done|apply job_frame_upd]. Qed.

Lemma table_upd_insert {W} (s : jstate W) i j j' s' :
  js_jobs s !! i = Some j -> job_upd j j' ->
  js_jobs s' = <[i := j']> (js_jobs s) -> js_next s' = js_next s -> table_upd s s'.
Proof.
  intros Hi Hj Hs' ?. split; [|done]. rewrite Hs'.
  rewrite <- (list_insert_id (js_jobs s) i j) at 1 by done.
  apply Forall2_insert; [apply (table_upd_refl s)|done].
Qed.

Lemma job_wf_upd j j' : job_upd j j' -> job_wf j -> job_wf j'.
Proof.
  intros (_&Hc&_&Hp) (Hl&Hn&Hf). split_and!.
  - by rewrite (procs_frame_length _ _ Hp).
  - clear Hl. induction Hp as [|p p' ps ps' [_ Hpn] _ IH]; [done|].
    inversion Hn; subst. constructor; [by rewrite Hpn|]. by apply IH.
  - by rewrite Hc.
Qed.

Lemma active_ids_upd l l' : Forall2 job_upd l l' -> active_ids l' `sublist_of` active_ids l.
Proof.
  unfold active_ids. induction 1 as [|j j' l l' (Hid&_&Ha&_) _ IH]; [done|].
  rewrite !filter_cons. destruct (decide (j_active j' = true)) as [Hj'|Hj'].
  - rewrite (decide_True _ _ (Ha Hj')). simpl. rewrite Hid. by constructor.
  - case_decide; [|done]. simpl. by constructor.
Qed.

Lemma table_ok_upd {W} (s s' : jstate W) : table_upd s s' -> table_ok s -> table_ok s'.
Proof.
  intros [Hf Hn] (Hlen&Hwf&Hnd&Hnx&Hid). pose proof (active_ids_upd _ _ Hf) as Hsub.
  split_and!; rewrite ?Hn; try (by lia).
  - apply Forall2_length in Hf. congruence.
  - clear -Hf Hwf. induction Hf; inversion Hwf; subst; constructor; eauto using job_wf_upd.
  - by eapply sublist_NoDup.
  - by eapply sublist_Forall.
Qed.

Lemma fresh_id_upd {W} (s s' : jstate W) id : table_upd s s' -> fresh_id s id -> fresh_id s' id.
Proof.
  intros [Hf Hn] [Hr Hni]. split; [by rewrite Hn|]. intros Hin. apply Hni.
  eapply sublist_elem; [|done]. by apply active_ids_upd.
Qed.

Section operations.
Context {W : Type} `{ProcOS W}.
Implicit Types (s : jstate W).

Lemma refresh_upd s : table_upd s (jobs_refresh_states s).
Proof. destruct (jobs_refresh_frame s) as (?&?&?). by apply table_upd_frame. Qed.

Lemma sigchld_upd s : table_upd s (sigchld_handler s).
Proof. destruct (sigchld_frame s) as (?&?&?). by apply table_upd_frame. Qed.

Definition report_entry (j : job_entry_t) : job_entry_t :=
  if to_report j then set_active (set_reported j true) false else j.

Lemma report_jobs_eq out l :
  report_jobs out l =
  (out ++ (completion_line <$> filter (fun j => to_report j = true) l), report_entry <$> l).
Proof.
  revert out. induction l as [|j l IH]; intros out; [simpl; by rewrite app_nil_r|].
  cbn [report_jobs]. rewrite filter_cons, fmap_cons. unfold report_entry at 1.
  destruct (to_report j) eqn:E; rewrite IH.
  - rewrite decide_True by done. rewrite fmap_cons. by rewrite <- app_assoc.
  - by rewrite decide_False.
Qed.

Lemma report_entry_upd j : job_upd j (report_entry j).
Proof.
  unfold report_entry. case_match; [|done]. split_and!; simpl; try done. apply procs_frame_refl.
Qed.

Lemma check_completed_upd s : table_upd s (jobs_check_completed s).
Proof.
  etrans; [apply refresh_upd|]. unfold jobs_check_completed. rewrite report_jobs_eq.
  split; [simpl|done]. generalize (js_jobs (jobs_refresh_states s)). intros l.
  induction l; constructor; auto using report_entry_upd.
Qed.

Lemma continue_job_upd j : job_upd j (continue_job j).
Proof.
  split_and!; simpl; try done. induction (j_procs j) as [|p ps IH]; constructor; [|done].
  unfold continue_proc. case_decide; by split.
Qed.

Lemma resume_bg_upd s id : table_upd s (jobs_resume_bg s id).1.
Proof.
  unfold jobs_resume_bg, jobs_get_by_id. etrans; [apply refresh_upd|].
  destruct (fst <$> list_find _ _) as [i|]; simpl; [|apply (table_upd_refl (jobs_refresh_states s))].
  destruct (js_jobs _ !! i) as [j|] eqn:Hi; simpl; [|reflexivity].
  eapply table_upd_insert; [exact Hi|apply continue_job_upd|done|done].
Qed.

Lemma poll_proc_upd w j c st k : job_upd j (poll_proc w j c st k).1.1.2.
Proof.
  apply job_frame_upd. unfold poll_proc. destruct (j_procs j !! k) as [p|]; [|done].
  case_decide; [done|]. destruct (os_waitpid _ _ _) as [w1 r].
  repeat case_test; simpl; eauto with cver.
Qed.

Lemma poll_procs_upd n : forall w j c st k, job_upd j (poll_procs w j c st k n).1.1.2.
Proof.
  induction n as [|n IH]; intros w j c st k; simpl; [done|].
  pose proof (poll_proc_upd w j c st k) as Hf.
  destruct (poll_proc w j c st k) as [[[w1 j1] c1] st1]. simpl in Hf. by rewrite Hf.
Qed.

Lemma table_upd_os s w : table_upd s (with_os s w).
Proof. apply (table_upd_refl s). Qed.

Lemma table_upd_len s s' i : table_upd s s' -> is_Some (js_jobs s !! i) -> is_Some (js_jobs s' !! i).
Proof. intros [Hf _]. rewrite !lookup_lt_is_Some. by rewrite (Forall2_length _ _ _ Hf). Qed.

Lemma resume_pause_upd s : table_upd s (resume_pause s).
Proof.
  unfold resume_pause. destruct (os_sigchld _) as [w [|]]; [|apply table_upd_os].
  etrans; [apply (table_upd_os s w)|apply sigchld_upd].
Qed.

(** One pass over the processes of entry [i]. *)
Lemma resume_poll_upd s w i j w' j' c st :
  js_jobs s !! i = Some j ->
  poll_procs w j 0 false 0 (length (j_procs j)) = (w', j', c, st) ->
  table_upd s (with_os (with_jobs s (<[i := j']> (js_jobs s))) w').
Proof.
  intros Hi E. pose proof (poll_procs_upd (length (j_procs j)) w j 0 false 0) as Hf.
  rewrite E in Hf. by eapply table_upd_insert.
Qed.

Lemma resume_loop_upd fuel : forall s i s' how,
  resume_loop fuel s i = Ret (s', how) -> table_upd s s'.
Proof.
  induction fuel as [|fuel IH]; intros s i s' how; simpl; [done|].
  destruct (os_alarm_fired _) as [w1 fired].
  destruct fired; [intros [= <- <-]; apply table_upd_os|].
  destruct (js_jobs s !! i) as [j|] eqn:Hi; [|done].
  destruct (poll_procs _ _ _ _ _ _) as [[[w2 j2] c] st] eqn:E.
  pose proof (resume_poll_upd _ _ _ _ _ _ _ _ Hi E) as Hu.
  destruct st; [by intros [= <- <-]|]. destruct (c =? 0); [by intros [= <- <-]|].
  intros Hr. rewrite Hu. etrans; [apply resume_pause_upd|]. by eapply IH.
Qed.

Lemma job_upd_end j b f st :
  job_upd j (set_finished (set_active j false) f) /\ job_upd j (set_stopped j st) /\
  job_upd j (set_reported j b).
Proof. unfold job_upd. split_and!; simpl; try done; apply procs_frame_refl. Qed.

Lemma resume_finish_upd s i how s' b : resume_finish s i how = Ret (s', b) -> table_upd s s'.
Proof.
  unfold resume_finish. destruct (os_alarm_fired _) as [w late].
  destruct (js_jobs s !! i) as [j|] eqn:Hi; [|done].
  destruct (job_upd_end j false true true) as (Hu1 & Hu2 & _).
  destruct (if late then TimedOut else how); intros [= <- <-];
    (eapply table_upd_insert; [exact Hi| |done|done]); done.
Qed.

Lemma resume_fg_upd fuel s id t s' b :
  jobs_resume_fg fuel s id t = Ret (s', b) -> table_upd s s'.
Proof.
  unfold jobs_resume_fg, jobs_get_by_id. intros Hr. etrans; [apply refresh_upd|]. revert Hr.
  destruct (fst <$> list_find _ _) as [i|]; [|intros [= <- _]; apply (table_upd_refl (jobs_refresh_states s))].
  destruct (js_jobs _ !! i) as [j|] eqn:Hi; [|done].
  intros Hr. apply obind_inv in Hr as ([s2 how] & Hl & Hr).
  apply resume_loop_upd in Hl. apply resume_finish_upd in Hr.
  etrans; [|exact Hr]. change (table_upd (jobs_refresh_states s) s2). etrans; [|exact Hl].
  eapply table_upd_insert; [exact Hi|apply continue_job_upd|done|done].
Qed.

Lemma activities_upd s : table_upd s (jobs_refresh_and_print_activities s).
Proof. etrans; [apply refresh_upd|]. apply (table_upd_refl (jobs_refresh_states s)). Qed.

Lemma signal_job_upd s id sig : table_upd s (jobs_send_signal_to_job s id sig).1.
Proof.
  unfold jobs_send_signal_to_job, jobs_get_by_id. etrans; [apply refresh_upd|].
  destruct (_ ≫= _); apply (table_upd_refl (jobs_refresh_states s)).
Qed.

Lemma signal_pid_upd s pid sig : table_upd s (jobs_send_signal_to_pid s pid sig).1.
Proof.
  unfold jobs_send_signal_to_pid, jobs_pid_is_tracked. etrans; [apply refresh_upd|].
  destruct (existsb _ _); apply (table_upd_refl (jobs_refresh_states s)).
Qed.

(** *** Additions *)
Lemma alloc_ok s :
  table_ok s -> (js_next s < INT_MAX)%Z ->
  table_ok (jobs_alloc_id s).1 /\ fresh_id (jobs_alloc_id s).1 (jobs_alloc_id s).2.
Proof.
  intros (Hlen&Hwf&Hnd&Hnx&Hid) Hlt. unfold jobs_alloc_id; simpl.
  assert (wrap32 (js_next s + 1) = js_next s + 1)%Z as Hw by (apply wrap32_small; lia).
  split.
  - split_and!; simpl; try done; try lia. eapply Forall_impl; [exact Hid|]. simpl. lia.
  - split; simpl; [lia|]. intros Hin. eapply Forall_forall in Hid; [|done]. lia.
Qed.

Lemma free_slot_spec l i :
  free_slot l = Some i -> exists j, l !! i = Some j /\ j_active j = false.
Proof.
  unfold free_slot. destruct (list_find _ _) as [[i' j]|] eqn:E; simpl; [|done].
  intros [= ->]. apply list_find_Some in E as (?&?&_). eauto.
Qed.

Lemma new_job_wf id pgid pids names cmd : job_wf (new_job id pgid pids names cmd).
Proof.
  unfold new_job, new_procs, strncpy_buf. split_and!; simpl.
  - rewrite length_zip_with, length_take. lia.
  - revert names. induction (take MAX_PIDS_PER_JOB pids); intros [|name names]; simpl; constructor;
      [|done]. simpl. rewrite length_take. unfold CMD_NAME_SIZE. lia.
  - destruct cmd; simpl; [rewrite length_take|]; unfold FULL_CMD_SIZE; lia.
Qed.

Lemma active_ids_insert l i j new :
  l !! i = Some j -> j_active j = false -> j_active new = true ->
  active_ids (<[i := new]> l) ≡ₚ j_id new :: active_ids l.
Proof.
  intros Hi Hj Hn. unfold active_ids. rewrite insert_take_drop by (by eapply lookup_lt_Some).
  rewrite <- (take_drop_middle l i j Hi) at 3.
  rewrite !filter_app, !filter_cons, Hj, Hn, decide_True, decide_False by done.
  rewrite !fmap_app. simpl. by rewrite Permutation_middle.
Qed.

Lemma add_pipeline_ok s id pgid pids names cmd :
  table_ok s -> fresh_id s id -> table_ok (jobs_add_pipeline s id pgid pids names cmd).
Proof.
  intros Hok [Hr Hni]. unfold jobs_add_pipeline.
  destruct (free_slot (js_jobs s)) as [i|] eqn:E; [|done].
  destruct (free_slot_spec _ _ E) as (j & Hi & Hj). destruct Hok as (Hlen&Hwf&Hnd&Hnx&Hid).
  pose proof (active_ids_insert _ _ _ (new_job id pgid pids names cmd) Hi Hj eq_refl) as Hp.
  split_and!; simpl; try (by lia).
  - by rewrite length_insert.
  - by apply Forall_insert, new_job_wf.
  - rewrite Hp. by constructor.
  - rewrite Hp. by constructor.
Qed.

Lemma job_slot_spec l id i :
  job_slot l id = Some i -> exists j, l !! i = Some j /\ j_active j = true /\ j_id j = id.
Proof.
  unfold job_slot. destruct (list_find _ _) as [[i' j]|] eqn:E; simpl; [|done].
  intros [= ->]. apply list_find_Some in E as (?&[? ?]&_). eauto.
Qed.

Lemma stop_all_upd j : job_upd j (stop_all j).
Proof.
  split_and!; simpl; try done. induction (j_procs j) as [|p ps IH]; constructor; by split || done.
Qed.

Lemma add_pipeline_ids s id pgid pids names cmd x :
  x ∈ active_ids (js_jobs (jobs_add_pipeline s id pgid pids names cmd)) ->
  x = id \/ x ∈ active_ids (js_jobs s).
Proof.
  unfold jobs_add_pipeline. destruct (free_slot (js_jobs s)) as [i|] eqn:E; [|by right].
  destruct (free_slot_spec _ _ E) as (j & Hi & Hj). simpl.
  rewrite (active_ids_insert _ _ _ (new_job id pgid pids names cmd) Hi Hj eq_refl).
  by rewrite elem_of_cons.
Qed.

Lemma add_stopped_upd s id pgid pids names cmd :
  table_upd (jobs_add_pipeline s id pgid pids names cmd) (jobs_add_stopped s id pgid pids names cmd).
Proof.
  unfold jobs_add_stopped. set (s1 := jobs_add_pipeline s id pgid pids names cmd).
  destruct (job_slot _ id) as [i|] eqn:E; [|apply (table_upd_refl s1)].
  destruct (job_slot_spec _ _ _ E) as (j & Hi & _ & _).
  eapply (table_upd_insert _ i j (stop_all j)); [done|apply stop_all_upd| |done].
  simpl. apply list_eq. intros k. destruct (decide (k = i)) as [->|].
  - rewrite list_lookup_alter_eq, Hi, list_lookup_insert_eq; [done|by eapply lookup_lt_Some].
  - by rewrite list_lookup_alter_ne, list_lookup_insert_ne.
Qed.

Lemma add_stopped_ok s id pgid pids names cmd :
  table_ok s -> fresh_id s id -> table_ok (jobs_add_stopped s id pgid pids names cmd).
Proof.
  intros Hok Hf. eapply table_ok_upd; [apply add_stopped_upd|]. by apply add_pipeline_ok.
Qed.

(** *** Every operation of the file, as a step

    A step acts on the state of the file and on the numbers that
    [jobs_alloc_id] has handed out and that no addition has used yet
    ([execute_pipeline] and its callers take a number first and add the job,
    under that number, when its processes run).  The SIGCHLD handler may run
    between any two operations. *)
Inductive jstep : jstate W * list Z -> jstate W * list Z -> Prop :=
| st_sigchld s P : jstep (s, P) (sigchld_handler s, P)
| st_refresh s P : jstep (s, P) (jobs_refresh_states s, P)
| st_check s P : jstep (s, P) (jobs_check_completed s, P)
| st_alloc s P s' id :
    (js_next s < INT_MAX)%Z -> jobs_alloc_id s = (s', id) -> jstep (s, P) (s', id :: P)
| st_add s P1 P2 id pgid pids names cmd :
    jstep (s, P1 ++ id :: P2) (jobs_add_pipeline s id pgid pids names cmd, P1 ++ P2)
| st_add_stopped s P1 P2 id pgid pids names cmd :
    jstep (s, P1 ++ id :: P2) (jobs_add_stopped s id pgid pids names cmd, P1 ++ P2)
| st_resume_bg s P id : jstep (s, P) ((jobs_resume_bg s id).1, P)
| st_resume_fg fuel s P id t s' b :
    jobs_resume_fg fuel s id t = Ret (s', b) -> jstep (s, P) (s', P)
| st_activities s P : jstep (s, P) (jobs_refresh_and_print_activities s, P)
| st_signal_job s P id sig : jstep (s, P) ((jobs_send_signal_to_job s id sig).1, P)
| st_signal_pid s P pid sig : jstep (s, P) ((jobs_send_signal_to_pid s pid sig).1, P)
| st_sighup s P : jstep (s, P) (jobs_send_sighup_all s, P)
| st_fg s P b : jstep (s, P) (jobs_set_fg_active s b, P).

(** The numbers handed out and not used yet are distinct and not in the table. *)
Definition pending_ok (x : jstate W * list Z) : Prop :=
  table_ok x.1 /\ NoDup x.2 /\ Forall (fresh_id x.1) x.2.

Lemma pending_ok_upd s s' P : table_upd s s' -> pending_ok (s, P) -> pending_ok (s', P).
Proof.
  intros Hu (Hok & Hnd & Hf). split_and!; [by eapply table_ok_upd|done|].
  eapply Forall_impl; [exact Hf|]. intros id. by apply fresh_id_upd.
Qed.

Lemma pending_ok_alloc s P s' id :
  (js_next s < INT_MAX)%Z -> jobs_alloc_id s = (s', id) -> pending_ok (s, P) ->
  pending_ok (s', id :: P).
Proof.
  intros Hlt E (Hok & Hnd & Hf). destruct (alloc_ok s Hok Hlt) as [Hok' Hid].
  rewrite E in Hok', Hid. simpl in *. unfold jobs_alloc_id in E. simplify_eq.
  assert (wrap32 (js_next s + 1) = js_next s + 1)%Z as Hw.
  { destruct Hok as (_&_&_&Hnx&_). apply wrap32_small. lia. }
  split_and!; simpl; [done| |].
  - constructor; [|done]. intros Hin. eapply Forall_forall in Hf; [|done]. destruct Hf as [? _].
    simpl in *. lia.
  - constructor; [done|]. eapply Forall_impl; [exact Hf|]. intros x [Hx Hni]. split; [|done].
    simpl in *. lia.
Qed.

Lemma pending_ok_add s P1 P2 id pgid pids names cmd :
  pending_ok (s, P1 ++ id :: P2) ->
  pending_ok (jobs_add_pipeline s id pgid pids names cmd, P1 ++ P2).
Proof.
  intros (Hok & Hnd & Hf). simpl in *.
  apply NoDup_app in Hnd as (Hn1 & Hd & Hn2). apply NoDup_cons in Hn2 as [Hni Hn2].
  apply Forall_app in Hf as [Hf1 Hf2]. apply Forall_cons in Hf2 as [Hid Hf2].
  split_and!; simpl.
  - by apply add_pipeline_ok.
  - apply NoDup_app. split_and!; [done| |done]. set_solver.
  - assert (Forall (fresh_id s) (P1 ++ P2)) as Hf by by apply Forall_app.
    assert (id ∉ P1 ++ P2) as Hout by set_solver.
    apply Forall_forall. intros x Hx. eapply Forall_forall in Hf as [Hr Hn]; [|done]. split.
    + unfold jobs_add_pipeline. by case_match.
    + intros Hin. apply add_pipeline_ids in Hin as [->|]; done.
Qed.

Lemma jstep_ok x x' : jstep x x' -> pending_ok x -> pending_ok x'.
Proof.
  destruct 1; intros Hok;
    try (by eapply pending_ok_alloc); try (by apply pending_ok_add);
    try (eapply pending_ok_upd; [apply add_stopped_upd|]; by apply pending_ok_add);
    (eapply pending_ok_upd; [|exact Hok]);
    eauto using sigchld_upd, refresh_upd, check_completed_upd, resume_bg_upd, resume_fg_upd,
      activities_upd, signal_job_upd, signal_pid_upd;
    apply (table_upd_refl s).
Qed.

Lemma init_ok (w : W) : table_ok (js_init w).
Proof.
  split_and!; [done| | |done..].
  - apply Forall_replicate. split_and!; simpl; unfold FULL_CMD_SIZE; (lia || constructor).
  - apply (NoDup_nil_2 (A := Z)).
Qed.

(** *** Listing *)
Definition id_lt (a b : job_entry_t) : Prop := (j_id a < j_id b)%Z.

Lemma qsort_insert_sorted a l :
  (forall b, b ∈ a :: l -> 1 <= j_id b <= INT_MAX)%Z ->
  j_id a ∉ (j_id <$> l) -> StronglySorted id_lt l ->
  StronglySorted id_lt (qsort_insert compare_job_ptrs a l).
Proof.
  intros Hr Hni Hs. induction Hs as [|b l Hs IH Hall]; simpl; [repeat constructor|].
  assert (1 <= j_id a <= INT_MAX /\ 1 <= j_id b <= INT_MAX)%Z as [Ha Hb]
    by (split; apply Hr; set_solver).
  unfold compare_job_ptrs at 1. unfold INT_MAX in *. rewrite wrap32_small by (unfold INT_MAX; lia).
  assert (j_id a <> j_id b) by set_solver.
  destruct (Z.leb_spec (j_id a - j_id b) 0).
  - constructor; [by constructor|]. constructor; [unfold id_lt; lia|].
    eapply Forall_impl; [exact Hall|]. unfold id_lt. simpl. intros; lia.
  - constructor.
    + apply IH; [|set_solver]. intros c Hc. apply Hr. set_solver.
    + rewrite qsort_insert_perm. constructor; [unfold id_lt; lia|done].
Qed.

Lemma qsort_sorted l :
  (forall b, b ∈ l -> 1 <= j_id b <= INT_MAX)%Z -> NoDup (j_id <$> l) ->
  StronglySorted id_lt (qsort compare_job_ptrs l).
Proof.
  induction l as [|a l IH]; simpl; intros Hr Hnd; [constructor|].
  apply NoDup_cons in Hnd as [Hni Hnd]. apply qsort_insert_sorted.
  - intros b Hb. apply Hr. rewrite qsort_perm in Hb. set_solver.
  - by rewrite qsort_perm.
  - apply IH; [|done]. intros b Hb. apply Hr. set_solver.
Qed.

Lemma listed_ids l :
  (j_id <$> listed_jobs l) `sublist_of` active_ids l.
Proof.
  unfold listed_jobs, active_ids. induction l as [|j l IH]; [done|]. rewrite !filter_cons.
  case_decide as H1; case_decide as H2; simpl; [by constructor|naive_solver|by constructor|done].
Qed.

Lemma report_entry_none l :
  completion_line <$> filter (fun j => to_report j = true) (report_entry <$> l) = [].
Proof.
  induction l as [|j l IH]; [done|]. rewrite fmap_cons, filter_cons, decide_False; [done|].
  unfold report_entry. destruct (to_report j) eqn:E; [done|congruence].
Qed.

Lemma report_entry_idem (l : list job_entry_t) : report_entry <$> (report_entry <$> l) = report_entry <$> l.
Proof.
  rewrite <- list_fmap_compose. apply list_fmap_ext. intros i j _. simpl.
  unfold report_entry. destruct (to_report j) eqn:E; [done|by rewrite E].
Qed.

Lemma add_job_slot l i j id pgid pids names cmd :
  l !! i = Some j -> id ∉ active_ids l ->
  job_slot (<[i := new_job id pgid pids names cmd]> l) id = Some i.
Proof.
  intros Hi Hni. unfold job_slot.
  assert (list_find (fun j => j_active j = true /\ j_id j = id)
    (<[i := new_job id pgid pids names cmd]> l) = Some (i, new_job id pgid pids names cmd)) as ->; [|done].
  apply list_find_Some. split_and!; [|done..|].
  - apply list_lookup_insert_eq. by eapply lookup_lt_Some.
  - intros k y Hk Hlt [Hy1 Hy2]. rewrite list_lookup_insert_ne in Hk by lia. apply Hni.
    unfold active_ids. rewrite <- Hy2. apply list_elem_of_fmap_2, list_elem_of_filter.
    split; [done|]. by eapply list_elem_of_lookup_2.
Qed.

Lemma get_by_id_lookup s id s1 i :
  jobs_get_by_id s id = (s1, Some i) -> js_jobs s1 !! i = None -> False.
Proof.
  unfold jobs_get_by_id. intros [= <- Hf]. destruct (list_find _ _) as [[i' j]|] eqn:E; simplify_eq/=.
  apply list_find_Some in E as (Hi&_&_). intros. simplify_eq.
Qed.

(** *** Entries that are never reported *)

(** Active, every process gone, but the exit of the group leader never
    recorded. *)
Definition dead_slot (j : job_entry_t) : Prop :=
  j_active j = true /\ j_finished j = false /\ j_reported j = false /\
  Forall (fun p => pi_state p = PROC_EXITED) (j_procs j).

Lemma refresh_procs_dead n : forall w j a st k,
  Forall (fun p => pi_state p = PROC_EXITED) (j_procs j) ->
  refresh_procs w j a st k n = (w, j, a, st).
Proof.
  induction n as [|n IH]; intros w j a st k Hex; simpl; [done|].
  assert (refresh_proc w j a st k = (w, j, a, st)) as ->; [|by apply IH].
  unfold refresh_proc. destruct (j_procs j !! k) as [p|] eqn:Hp; [|done].
  rewrite decide_True; [done|]. by eapply Forall_lookup_1 in Hex.
Qed.

Lemma refresh_dead w j : dead_slot j -> refresh_job w j = (w, set_stopped j false).
Proof.
  intros (Ha&Hf&Hr&Hex). unfold refresh_job. rewrite Ha, refresh_procs_dead by done. simpl.
  by rewrite Hr.
Qed.

Lemma map_os_lookup {A} (f : W -> A -> W * A) w l i a :
  l !! i = Some a -> exists w', (map_os f w l).2 !! i = Some (f w' a).2.
Proof.
  revert w i. induction l as [|b l IH]; intros w i Hi; [done|]. simpl.
  destruct (f w b) as [w1 b1] eqn:E. destruct i as [|i]; simpl in *.
  - simplify_eq. exists w. rewrite E. by destruct (map_os f w1 l).
  - destruct (IH w1 i Hi) as [w' Hw']. exists w'. by destruct (map_os f w1 l).
Qed.

Lemma check_completed_dead s i j :
  js_jobs s !! i = Some j -> dead_slot j ->
  js_jobs (jobs_check_completed s) !! i = Some (set_stopped j false) /\
  dead_slot (set_stopped j false).
Proof.
  intros Hi Hd. split; [|by destruct Hd as (?&?&?&?)].
  unfold jobs_check_completed. rewrite report_jobs_eq. simpl. rewrite list_lookup_fmap.
  unfold jobs_refresh_states. destruct (map_os_lookup refresh_job (js_os s) _ _ _ Hi) as [w' Hw'].
  destruct (map_os _ _ _) as [w l]. simpl in *. rewrite Hw', refresh_dead by done. simpl.
  f_equal. unfold report_entry, to_report. destruct Hd as (Ha&Hf&Hr&Hex). simpl.
  by rewrite Hf, andb_false_r.
Qed.

End operations.

(** *** The polling loop of [resume ... fg] *)

(** What the loop relies on of [alarm]: once it is armed, SIGALRM arrives
    after finitely many looks ([alarm_left] bounds the looks left), and until
    then nothing the loop calls disarms it or pushes it back.  An alarm that
    was never armed promises nothing. *)
Class AlarmOS (W : Type) `{ProcOS W} := {
  armed : W -> Prop;
  alarm_left : W -> nat;
  alarm_arms : forall w t, (0 < t)%Z -> armed (os_alarm w t);
  alarm_counts : forall w, armed w ->
    (os_alarm_fired w).2 = true \/
    (armed (os_alarm_fired w).1 /\ alarm_left (os_alarm_fired w).1 < alarm_left w);
  alarm_waitpid : forall w pid fl, armed w ->
    armed (os_waitpid w pid fl).1 /\ alarm_left (os_waitpid w pid fl).1 <= alarm_left w;
  alarm_sleep : forall w, armed w ->
    armed (os_nanosleep w) /\ alarm_left (os_nanosleep w) <= alarm_left w;
  alarm_sigchld : forall w, armed w ->
    armed (os_sigchld w).1 /\ alarm_left (os_sigchld w).1 <= alarm_left w
}.

Section resume_termination.
Context {W : Type} `{AlarmOS W}.

(** The alarm is armed with at most [n] looks left. *)
Definition ticking (n : nat) (w : W) : Prop := armed w /\ alarm_left w <= n.

Lemma ticking_waitpid n w pid fl : ticking n w -> ticking n (os_waitpid w pid fl).1.
Proof. intros [Ha Hn]. destruct (alarm_waitpid w pid fl Ha). split; [done|lia]. Qed.

Lemma poll_procs_ticking m n : forall w j c st k,
  ticking m w -> ticking m (poll_procs w j c st k n).1.1.1.
Proof.
  induction n as [|n IH]; intros w j c st k Hw; simpl; [done|].
  assert (ticking m (poll_proc w j c st k).1.1.1) as Hp.
  { unfold poll_proc. destruct (j_procs j !! k) as [p|]; [|done]. case_decide; [done|].
    pose proof (ticking_waitpid m w (pi_pid p) (WUNTRACED + WNOHANG) Hw) as Hw'.
    destruct (os_waitpid _ _ _) as [w1 r]. by repeat case_match. }
  destruct (poll_proc w j c st k) as [[[w1 j1] c1] st1]. by apply IH.
Qed.

Lemma sigchld_procs_ticking m n : forall w j k,
  ticking m w -> ticking m (sigchld_procs w j k n).1.
Proof.
  induction n as [|n IH]; intros w j k Hw; simpl; [done|].
  assert (ticking m (sigchld_proc w j k).1) as Hp.
  { unfold sigchld_proc. destruct (j_procs j !! k) as [p|]; [|done].
    pose proof (ticking_waitpid m w (pi_pid p) (WNOHANG + WUNTRACED + WCONTINUED) Hw) as Hw'.
    destruct (os_waitpid _ _ _) as [w1 r]. by repeat case_match. }
  destruct (sigchld_proc w j k) as [w1 j1]. by apply IH.
Qed.

Lemma sigchld_ticking m s : ticking m (js_os s) -> ticking m (js_os (sigchld_handler s)).
Proof.
  unfold sigchld_handler. generalize (js_os s), (js_jobs s). intros w l Hw.
  assert (ticking m (map_os sigchld_job w l).1) as Hm; [|by destruct (map_os _ _ _)].
  revert w Hw. induction l as [|j l IH]; intros w Hw; simpl; [done|].
  assert (ticking m (sigchld_job w j).1) as Hj.
  { unfold sigchld_job. case_match; [by apply sigchld_procs_ticking|done]. }
  destruct (sigchld_job w j) as [w1 j1]. specialize (IH w1 Hj).
  by destruct (map_os sigchld_job w1 l).
Qed.

Lemma resume_pause_ticking m s : ticking m (js_os s) -> ticking m (js_os (resume_pause s)).
Proof.
  intros [Ha Hm]. unfold resume_pause. destruct (alarm_sleep _ Ha) as [Ha1 ?].
  destruct (alarm_sigchld _ Ha1) as [Ha2 ?]. destruct (os_sigchld _) as [w [|]]; simpl in *.
  - apply sigchld_ticking. simpl. split; [done|lia].
  - split; [done|lia].
Qed.

Lemma resume_loop_returns n : forall s i,
  ticking n (js_os s) -> is_Some (js_jobs s !! i) ->
  exists s' how, resume_loop (S n) s i = Ret (s', how).
Proof.
  induction n as [|n IH]; intros s i [Ha Hn] Hi.
  all: cbn [resume_loop]; destruct (alarm_counts _ Ha) as [Hf|[Ha1 Hl]];
    destruct (os_alarm_fired (js_os s)) as [w1 fired]; simpl in *; subst; try (by eexists _, _).
  { lia. }
  destruct fired; [by eexists _, _|]. destruct Hi as [j Hi]. rewrite Hi.
  pose proof (poll_procs_ticking n (length (j_procs j)) w1 j 0 false 0 ltac:(split; [done|lia])) as Hp.
  destruct (poll_procs _ _ _ _ _ _) as [[[w2 j2] c] st] eqn:E. simpl in Hp.
  destruct st; [by eexists _, _|]. destruct (c =? 0); [by eexists _, _|].
  apply IH; [by apply resume_pause_ticking|].
  eapply table_upd_len; [apply resume_pause_upd|].
  eapply table_upd_len; [by eapply resume_poll_upd|by exists j].
Qed.

End resume_termination.

(** ** Proofs: the command string *)
Lemma recon_step_bound out_len out t :
  length out < out_len -> length (recon_step out_len out t) < out_len.
Proof.
  intros Hlt. unfold recon_step. destruct (recon_text t) as [|c text]; [done|].
  repeat case_test; reflect; rewrite ?length_app in *; simpl in *; lia.
Qed.

Lemma foldl_recon_bound out_len toks out :
  length out < out_len -> length (foldl (recon_step out_len) out toks) < out_len.
Proof.
  revert out. induction toks as [|t toks IH]; intros out Hlt; simpl; [done|].
  by apply IH, recon_step_bound.
Qed.

(** The texts joined by single spaces. *)
Fixpoint join_texts (l : list cstr) : cstr :=
  match l with
  | [] => []
  | [x] => x
  | x :: l => x ++ SPACE :: join_texts l
  end.

Definition recon_texts (toks : token_list_t) : list cstr :=
  filter (fun x => x <> []) (recon_text <$> toks).

Lemma join_texts_cons x l :
  join_texts (x :: l) = x ++ match l with [] => [] | _ => SPACE :: join_texts l end.
Proof. destruct l; simpl; [by rewrite app_nil_r|done]. Qed.

(** The room the rest needs behind a non-empty string. *)
Definition room (l : list cstr) : nat := match l with [] => 0 | _ => S (length (join_texts l)) end.

Lemma foldl_recon_join out_len toks : forall out,
  length out + room (recon_texts toks) < out_len ->
  foldl (recon_step out_len) out toks =
  match recon_texts toks with
  | [] => out
  | _ => (if decide (out = []) then [] else out ++ [SPACE]) ++ join_texts (recon_texts toks)
  end.
Proof.
  induction toks as [|t toks IH]; intros out Hlen; [done|].
  unfold recon_texts in *. rewrite fmap_cons, filter_cons in *. simpl foldl.
  unfold recon_step at 2. destruct (recon_text t) as [|c text] eqn:Et.
  { rewrite decide_False in * by naive_solver. by apply IH. }
  rewrite decide_True in * by done. unfold room in Hlen. rewrite join_texts_cons in *.
  set (texts := filter (fun x => x <> []) (recon_text <$> toks)) in *.
  rewrite length_app in Hlen.
  assert (length (match texts with [] => [] | _ => SPACE :: join_texts texts end) = room texts)
    as Hm by by destruct texts.
  rewrite Hm in Hlen.
  set (out1 := if (0 <? length out) && (length out + 1 <? out_len) then out ++ [SPACE] else out).
  assert (out1 = if decide (out = []) then [] else out ++ [SPACE]) as Hout1.
  { subst out1. destruct out as [|o out]; simpl in *; [done|].
    destruct (_ <? out_len) eqn:El; [done|]. reflect. simpl in *. lia. }
  assert (length out1 <= S (length out))
    by (rewrite Hout1; case_decide; subst; rewrite ?length_app; simpl; lia).
  destruct (Nat.ltb_spec (length out1 + length (c :: text)) out_len); [|simpl in *; lia].
  rewrite IH; [|rewrite length_app; simpl in *; lia].
  rewrite <- Hout1. destruct texts as [|x rest] eqn:Etx; [by rewrite app_nil_r|].
  rewrite decide_False by (destruct out1; done). by rewrite <- !app_assoc.
Qed.

(** ** A concrete operating system

    The answers of [waitpid] are read from a tape (an exhausted tape answers
    that nothing changed), every process has a [stat] file that says it
    sleeps, and the alarm never fires. *)
Definition tape : Type := list wait_res.

#[global] Instance tape_os : ProcOS tape := {|
  os_waitpid w _ _ := match w with [] => ([], mk_wait 0 0 0) | r :: w => (w, r) end;
  os_kill w _ _ := w;
  os_first_line _ _ _ := FL_line (c_str "7 (cat) S 1");
  os_isatty _ := false;
  os_getpgrp _ := 1%Z;
  os_tcsetpgrp w _ := w;
  os_alarm w _ := w;
  os_alarm_fired w := (w, false);
  os_nanosleep w := w;
  os_sigchld w := (w, false)
|}.

(** An operating system with a clock: the processes keep running for ever,
    [alarm] sets or clears a countdown of looks, and a child of the shell
    changes at every pause. *)
Definition clock : Type := option nat.

#[global] Instance clock_os : ProcOS clock := {|
  os_waitpid w _ _ := (w, mk_wait 0 0 0);
  os_kill w _ _ := w;
  os_first_line _ _ _ := FL_noline;
  os_isatty _ := true;
  os_getpgrp _ := 1%Z;
  os_tcsetpgrp w _ := w;
  os_alarm _ t := if (0 <? t)%Z then Some (100 * Z.to_nat t) else None;
  os_alarm_fired w :=
    match w with Some O => (None, true) | Some (S n) => (Some n, false) | None => (None, false) end;
  os_nanosleep w := w;
  os_sigchld w := (w, true)
|}.

#[global] Instance clock_alarm : AlarmOS clock.
Proof.
  refine {| armed := fun w : clock => is_Some w;
            alarm_left := fun w : clock => default 0 w |}.
  - intros w t Ht. simpl. destruct (Z.ltb_spec 0 t); [by eexists|lia].
  - intros [[|n]|] Ha; simpl; [by left| |by destruct Ha]. right. split; [by eexists|lia].
  - by intros.
  - by intros.
  - by intros.
Defined.

(** Without a timeout the loop polls as long as the job runs. *)
Example resume_fg_no_timeout :
  let s := jobs_add (js_init (W := clock) None) 1 10 (c_str "ls") None in
  jobs_resume_fg 200 s 1 0 = NoFuel.
Proof. vm_compute. reflexivity. Qed.

(** A stopped pipeline of two processes is resumed in the foreground: the
    leader (pid 10) exits, the other process (pid 11) stops; it is resumed in
    the background and ends. *)
Definition stop_pipeline_run : outcome (jstate tape) :=
  let none := mk_wait 0 0 0 in
  let s := js_init
    [none; none; mk_wait 10 0 0; mk_wait 11 (127 + 20 * 256) 0;
     none; mk_wait 11 0 0] in
  let '(s, id) := jobs_alloc_id s in
  let s := jobs_add_stopped s id 10 [10; 11]%Z [c_str "cat"; c_str "wc"] (Some (c_str "cat | wc")) in
  let* '(s, _) := jobs_resume_fg 5 s id 0 in
  let '(s, _) := jobs_resume_bg s id in
  Ret (jobs_check_completed s).

(** ** Claims *)

(** C4.  In every state the job control can reach (any interleaving of
    allocations of numbers, additions under a number that was allocated, the
    SIGCHLD handler, refreshes, reports, listings, resumes and signals, with
    any answers of the operating system, as long as the 32-bit counter of job
    numbers has not run out) the table keeps its 256 entries, every command
    name and command line fits its array with its NUL, no job has more than 64
    processes, and the active jobs have pairwise distinct numbers, all handed
    out before; the numbers handed out and not used yet are distinct and differ
    from those of the active jobs. *)
Theorem job_table_invariant {W} `{ProcOS W} (w : W) (s : jstate W) (P : list Z) :
  rtc jstep (js_init w, []) (s, P) ->
  table_ok s /\ NoDup P /\ Forall (fresh_id s) P.
Proof.
  intros Hr. apply (rtc_ind_r (fun x => pending_ok x) (js_init w, [])) with (z := (s, P)) in Hr.
  - exact Hr.
  - split_and!; [apply init_ok|constructor|constructor].
  - intros x y _ Hs. by apply jstep_ok.
Qed.

(** Two numbers are taken, the jobs are added in the other order (the second
    as a stopped one), a third number stays unused. *)
Lemma job_table_invariant_witness :
  exists s : jstate tape,
    table_ok s /\ active_ids (js_jobs s) = [2; 1]%Z /\ fresh_id s 3.
Proof.
  set (s1 := (jobs_alloc_id (js_init (W := tape) [])).1).
  set (s2 := (jobs_alloc_id s1).1).
  set (s3 := jobs_add_stopped s2 2 20 [20; 21]%Z [c_str "cat"; c_str "wc"] (Some (c_str "cat | wc"))).
  set (s4 := jobs_add_pipeline s3 1 10 [10%Z] [c_str "ls"] None).
  set (s5 := (jobs_alloc_id s4).1).
  exists s5.
  destruct (job_table_invariant (W := tape) [] s5 [3%Z]) as (Hok & _ & Hf).
  - eapply rtc_l; [apply (st_alloc _ [] s1 1%Z); reflexivity|].
    eapply rtc_l; [apply (st_alloc s1 [1%Z] s2 2%Z); reflexivity|].
    eapply rtc_l; [apply (st_add_stopped s2 [] [1%Z] 2)|].
    eapply rtc_l; [apply (st_add s3 [] [] 1)|].
    eapply rtc_l; [apply (st_alloc s4 [] s5 3%Z); reflexivity|].
    apply rtc_refl.
  - split; [exact Hok|]. split; [vm_compute; reflexivity|]. by inversion Hf.
Defined.

(**  [jobs_add_pipeline] with a number not in use: if some entry is free
    the job lands in the first free one, where a lookup by number finds it,
    with all its processes running and every other entry unchanged; if the
    table is full nothing changes (the job is not recorded). *)
Theorem jobs_add_pipeline_spec {W} (s : jstate W) (id pgid : Z)
    (pids : list Z) (names : list cstr) (cmd : option cstr)
    (Hfresh : id ∉ active_ids (js_jobs s)) :
  let s' := jobs_add_pipeline s id pgid pids names cmd in
  (Forall (fun j => j_active j = true) (js_jobs s) /\ s' = s) \/
  exists i, free_slot (js_jobs s) = Some i /\
    js_jobs s' = <[i := new_job id pgid pids names cmd]> (js_jobs s) /\
    job_slot (js_jobs s') id = Some i /\ js_next s' = js_next s /\ js_out s' = js_out s.
Proof.
  intros s'. unfold s', jobs_add_pipeline. destruct (free_slot (js_jobs s)) as [i|] eqn:E.
  - right. exists i. destruct (free_slot_spec _ _ E) as (j & Hi & Hj). split_and!; try done.
    apply add_job_slot with j; done.
  - left. split; [|done]. unfold free_slot in E. apply fmap_None, list_find_None in E.
    eapply Forall_impl; [exact E|]. simpl. intros j Hj. by destruct (j_active j).
Qed.

Lemma jobs_add_pipeline_spec_witness :
  let s := js_init (W := tape) [] in
  (1%Z ∉ active_ids (js_jobs s)) /\
  let s' := jobs_add_pipeline s 1 10 [10%Z] [c_str "ls"] None in
  ((Forall (fun j => j_active j = true) (js_jobs s) /\ s' = s) \/
  exists i, free_slot (js_jobs s) = Some i /\
    js_jobs s' = <[i := new_job 1 10 [10%Z] [c_str "ls"] None]> (js_jobs s) /\
    job_slot (js_jobs s') 1 = Some i /\ js_next s' = js_next s /\ js_out s' = js_out s).
Proof.
  assert (1%Z ∉ active_ids (js_jobs (js_init (W := tape) []))) as Hf by (vm_compute; set_solver).
  split; [exact Hf|]. exact (jobs_add_pipeline_spec _ _ _ _ _ _ Hf).
Defined.

(** [jobs_check_completed] reports each finished job exactly once: it
    prints one line for every entry that is active, finished, not stopped and
    not yet reported after the refresh, in table order and nothing else; those
    entries become free and are marked reported, all others are left alone;
    and reporting again prints nothing. *)
Theorem check_completed_once {W} `{ProcOS W} (s : jstate W) :
  let r := jobs_refresh_states s in
  let s' := jobs_check_completed s in
  js_out s' = js_out s ++ (completion_line <$> filter (fun j => to_report j = true) (js_jobs r)) /\
  (forall i j, js_jobs r !! i = Some j ->
     js_jobs s' !! i = Some (if to_report j then set_active (set_reported j true) false else j)) /\
  report_jobs (js_out s') (js_jobs s') = (js_out s', js_jobs s').
Proof.
  intros r s'. destruct (jobs_refresh_frame s) as (_ & _ & Ho). fold r in Ho.
  unfold s', jobs_check_completed. fold r. rewrite report_jobs_eq, Ho. simpl. split_and!; [done| |].
  - intros i j Hi. by rewrite list_lookup_fmap, Hi.
  - by rewrite report_jobs_eq, report_entry_idem, report_entry_none, app_nil_r.
Qed.

(**  After [jobs_refresh_states] the flags of every entry that was active
    agree with its processes: [is_stopped] holds exactly when some process is
    stopped, and the entry stays active unless all its processes are gone and
    it was already reported.  Numbers, process group, process ids, names and
    the order of the table never change. *)
Theorem refresh_states_flags {W} `{ProcOS W} (s : jstate W) (i : nat) (j : job_entry_t)
    (Hi : js_jobs s !! i = Some j) (Ha : j_active j = true) :
  exists j', js_jobs (jobs_refresh_states s) !! i = Some j' /\
    j_stopped j' = existsb stopped_proc (j_procs j') /\
    j_active j' = has_alive j' || negb (j_reported j) /\ job_frame j j'.
Proof.
  unfold jobs_refresh_states. destruct (map_os_lookup refresh_job (js_os s) _ _ _ Hi) as [w' Hw'].
  destruct (map_os _ _ _) as [w l]. simpl in *. exists (refresh_job w' j).2.
  destruct (refresh_job_flags w' j Ha). split_and!; try done. apply refresh_job_frame.
Qed.

Lemma refresh_states_flags_witness :
  let s := jobs_add (js_init (W := tape) []) 1 10 (c_str "ls") None in
  let j := new_job 1 10 [10%Z] [c_str "ls"] None in
  js_jobs s !! 0 = Some j /\ j_active j = true /\
  exists j', js_jobs (jobs_refresh_states s) !! 0 = Some j' /\
    j_stopped j' = existsb stopped_proc (j_procs j') /\
    j_active j' = has_alive j' || negb (j_reported j) /\ job_frame j j'.
Proof.
  split; [reflexivity|]. split; [reflexivity|].
  apply refresh_states_flags; reflexivity.
Defined.

(**  [activities] lists exactly the jobs that are active and have a live
    process, each once, in increasing order of job number. *)
Theorem activities_sorted {W} `{ProcOS W} (s : jstate W) (Hok : table_ok s) :
  let r := jobs_refresh_states s in
  exists l, l ≡ₚ filter (fun j => j_active j = true /\ has_alive j = true) (js_jobs r) /\
    StronglySorted (fun a b => j_id a < j_id b)%Z l /\
    js_out (jobs_refresh_and_print_activities s) = js_out s ++ (l ≫= job_lines).
Proof.
  intros r. destruct (jobs_refresh_frame s) as (_ & _ & Ho). fold r in Ho.
  assert (table_ok r) as (_&_&Hnd&Hnx&Hid) by (eapply table_ok_upd; [apply refresh_upd|done]).
  exists (qsort compare_job_ptrs (listed_jobs (js_jobs r))). split_and!.
  - apply qsort_perm.
  - apply (qsort_sorted (listed_jobs (js_jobs r))).
    + intros b Hb. assert (j_id b ∈ active_ids (js_jobs r)) as Hb'
        by (eapply sublist_elem; [apply listed_ids|by apply list_elem_of_fmap_2]).
      eapply Forall_forall in Hid; [|exact Hb']. lia.
    + eapply sublist_NoDup; [done|apply listed_ids].
  - unfold jobs_refresh_and_print_activities. fold r. simpl. by rewrite Ho.
Qed.

Lemma activities_sorted_witness :
  let s := js_init (W := tape) [] in
  table_ok s /\
  let r := jobs_refresh_states s in
  exists l, l ≡ₚ filter (fun j => j_active j = true /\ has_alive j = true) (js_jobs r) /\
    StronglySorted (fun a b => j_id a < j_id b)%Z l /\
    js_out (jobs_refresh_and_print_activities s) = js_out s ++ (l ≫= job_lines).
Proof. split; [apply init_ok|]. apply activities_sorted. apply init_ok. Defined.

(** C24.  [resume ... fg --timeout] always comes back: with a positive timeout
    [jobs_resume_fg] arms the alarm, and the polling loop returns whatever the
    processes do, also when the SIGCHLD handler runs during the pauses of the
    loop.  If there is such a job the foreground flag is cleared on return;
    otherwise only a message is printed.  All that is used of the operating
    system is that an alarm, once armed, fires after finitely many looks. *)
Theorem resume_fg_returns {W} `{AlarmOS W} (s : jstate W) (id timeout : Z)
    (Htimeout : (0 < timeout)%Z) :
  exists fuel s' ok, jobs_resume_fg fuel s id timeout = Ret (s', ok) /\
    match (jobs_get_by_id s id).2 with
    | Some _ => js_fg s' = false
    | None => s' = printf (jobs_get_by_id s id).1 (c_str "resume: no such job") /\ ok = false
    end.
Proof.
  unfold jobs_resume_fg. destruct (jobs_get_by_id s id) as [s1 r] eqn:Eg.
  destruct r as [i|]; [|exists 0; by eexists _, _].
  destruct (js_jobs s1 !! i) as [j|] eqn:Hi; [|by eapply get_by_id_lookup in Eg].
  rewrite (proj2 (Z.ltb_lt _ _) Htimeout).
  set (w0 := os_kill _ _ _).
  set (s2 := jobs_set_fg_active _ true).
  destruct (resume_loop_returns (alarm_left (os_alarm w0 timeout)) s2 i) as (s3 & how & Hl).
  { split; [by apply alarm_arms|done]. }
  { simpl. apply lookup_lt_is_Some. rewrite length_insert. by eapply lookup_lt_Some. }
  exists (S (alarm_left (os_alarm w0 timeout))). rewrite Hl. simpl.
  assert (is_Some (js_jobs s3 !! i)) as [j3 Hj3].
  { eapply table_upd_len; [by eapply resume_loop_upd|]. simpl.
    apply lookup_lt_is_Some. rewrite length_insert. by eapply lookup_lt_Some. }
  unfold resume_finish. simpl. destruct (os_alarm_fired _) as [w late]. rewrite Hj3.
  destruct (if late then TimedOut else how); eexists _, _; done.
Qed.

Lemma resume_fg_returns_witness :
  let s := jobs_add (js_init (W := clock) None) 1 10 (c_str "ls") None in
  (0 < 2)%Z /\ exists fuel s' ok, jobs_resume_fg fuel s 1 2 = Ret (s', ok) /\ js_fg s' = false.
Proof.
  intros s. split; [lia|].
  destruct (resume_fg_returns s 1 2 ltac:(lia)) as (fuel & s' & ok & Hr & Hfg).
  exists fuel, s', ok. split; [exact Hr|]. vm_compute in Hfg. exact Hfg.
Defined.

(** An entry whose processes are all gone but whose leader's exit was
    not recorded by [waitpid] in the handler or in the refresh is never
    reported and never freed: any number of [jobs_check_completed] leaves it
    active.  The witness reaches such an entry: the leader of a stopped
    pipeline exits during [resume ... fg], the rest of it stops and ends
    later. *)
Theorem unreported_job_keeps_slot {W} `{ProcOS W} (s : jstate W) (i : nat) (j : job_entry_t)
    (Hi : js_jobs s !! i = Some j) (Hdead : dead_slot j) (n : nat) :
  exists j', js_jobs (Nat.iter n jobs_check_completed s) !! i = Some j' /\ dead_slot j'.
Proof.
  induction n as [|n (j' & Hj' & Hd')]; simpl; [by exists j|].
  destruct (check_completed_dead _ _ _ Hj' Hd') as [? ?]. eauto.
Qed.

Lemma unreported_job_keeps_slot_witness :
  exists s j, stop_pipeline_run = Ret s /\ js_jobs s !! 0 = Some j /\ dead_slot j /\
    forall n, exists j', js_jobs (Nat.iter n jobs_check_completed s) !! 0 = Some j' /\ dead_slot j'.
Proof.
  set (run := stop_pipeline_run). vm_compute in run. unfold run.
  eexists _, _. split; [reflexivity|]. split; [reflexivity|]. split.
  - split_and!; [reflexivity..|]. repeat constructor.
  - intros n. eapply unreported_job_keeps_slot; [reflexivity|].
    split_and!; [reflexivity..|]. repeat constructor.
Defined.

(**  The command line of a job is rebuilt within its buffer: the result
    with its NUL fits [out_len] bytes whatever the tokens are, and when the
    texts of the tokens fit with a separator to spare the result is those
    texts joined by single spaces. *)
Theorem reconstruct_cmd_str_fits (toks : token_list_t) (out_len : nat) (Hpos : 0 < out_len) :
  length (reconstruct_cmd_str toks out_len) < out_len /\
  (S (length (join_texts (recon_texts toks))) < out_len ->
   reconstruct_cmd_str toks out_len = join_texts (recon_texts toks)).
Proof.
  split; [by apply foldl_recon_bound|]. intros Hlen. unfold reconstruct_cmd_str.
  rewrite foldl_recon_join by (unfold room; simpl; case_match; lia).
  by destruct (recon_texts toks).
Qed.

Lemma reconstruct_cmd_str_fits_witness :
  0 < 512 /\
  length (reconstruct_cmd_str [word_tok (c_str "ls"); op_tok OP_PIPE; word_tok (c_str "wc")] 512) < 512.
Proof. split; [lia|]. apply reconstruct_cmd_str_fits. lia. Defined.
