(* ===== verification/Exec.v ===== *)
(** * Running commands and pipelines ([c-shell/src/execute.c], and
      [execute_command_line] of [c-shell/src/jobs.c])

    A command line is cut at [;] and [&] into commands, each command at [|]
    into stages; the words and redirections of a stage are collected, its
    program is looked up, its files are opened, and processes are created and
    connected with pipes.  The operating system is [ExecOS] on top of
    [ProcOS]; a created process is described by what it does before it becomes
    its program ([child_op], [child_end]).  The laws of descriptors
    ([FdLaws]) are those of POSIX. *)

From S2P Require Import Prelude Lexer Parser Jobs.

(** ** What a child process does *)
Inductive builtin : Type :=
| B_hop | B_reveal | B_peek | B_locate | B_activities | B_resume | B_ping | B_spy | B_snoop.

Definition builtin_of (name : cstr) : option builtin :=
  if streq name (c_str "hop") then Some B_hop
  else if streq name (c_str "reveal") then Some B_reveal
  else if streq name (c_str "peek") then Some B_peek
  else if streq name (c_str "locate") then Some B_locate
  else if streq name (c_str "activities") then Some B_activities
  else if streq name (c_str "resume") then Some B_resume
  else if streq name (c_str "ping") then Some B_ping
  else if streq name (c_str "spy") then Some B_spy
  else if streq name (c_str "snoop") then Some B_snoop
  else None.

(** Where the standard input comes from and the standard output goes to when
    [execv] is called: a [feeder] process concatenates several files, a
    [writer] process copies to several descriptors. *)
Inductive stdin_src : Type := In_inherit | In_file (path : cstr) | In_feeder (paths : list cstr).
Inductive stdout_dst : Type := Out_inherit | Out_fd (fd : Z) | Out_tee (fds : list Z).

(** How a child ends its own code. *)
Inductive child_end : Type :=
| Ch_exit (code : Z) (msg : option cstr)
| Ch_builtin (b : builtin) (args : token_list_t)
| Ch_exec (path : cstr) (argv : list cstr) (input : stdin_src) (output : stdout_dst).

(** What it does before. *)
Inductive child_op : Type :=
| C_setpgid (pgid : Z)
| C_sync_read (fd : Z)
| C_default_signals
| C_dup2 (fd target : Z)
| C_close (fd : Z)
| C_stage (stage : token_list_t)
| C_end (e : child_end).

Inductive open_mode : Type := O_RDONLY | O_TRUNC | O_APPEND.

Class ExecOS (W : Type) := {
  os_open : W -> cstr -> open_mode -> W * Z;
  os_close : W -> Z -> W;
  os_pipe : W -> W * option (Z * Z);
  os_fork : W -> list child_op -> W * Z;
  os_setpgid : W -> Z -> Z -> W;
  os_write1 : W -> Z -> W;
  os_access_x : W -> cstr -> bool;
  os_isdir : W -> cstr -> option bool;
  os_getcwd : W -> option cstr;
  os_getenv_path : W -> option cstr
}.

Abbreviation stage_list := (list token_list_t).

(** ** Collecting words and redirections *)
Record redirs : Type := mk_redirs {
  rd_argv : list cstr;
  rd_inputs : list cstr;
  rd_outputs : list (cstr * bool)
}.

Definition word_text (t : token_t) : cstr := default [] (tok_text t).

Definition is_word (t : token_t) : bool := bool_decide (tok_type t = OP_WORD).

Definition REDIR_CAP : nat := 256.

(** A store into [input_files] or [output_files]: the arrays have 256
    entries. *)
Definition push_input (r : redirs) (p : cstr) : outcome redirs :=
  if length (rd_inputs r) <? REDIR_CAP
  then Ret (mk_redirs (rd_argv r) (rd_inputs r ++ [p]) (rd_outputs r)) else Undef.
Definition push_output (r : redirs) (p : cstr) (is_append : bool) : outcome redirs :=
  if length (rd_outputs r) <? REDIR_CAP
  then Ret (mk_redirs (rd_argv r) (rd_inputs r) (rd_outputs r ++ [(p, is_append)])) else Undef.
Definition push_arg (r : redirs) (a : cstr) : redirs :=
  if length (rd_argv r) <? 255
  then mk_redirs (rd_argv r ++ [a]) (rd_inputs r) (rd_outputs r) else r.

(** The loop over the tokens; [None] for "invalid syntax". *)
Fixpoint gather (toks : token_list_t) (r : redirs) : outcome (option redirs) :=
  match toks with
  | [] => Ret (Some r)
  | t :: rest =>
      match tok_type t with
      | OP_LT =>
          match rest with
          | t' :: rest' =>
              if is_word t' then let* r := push_input r (word_text t') in gather rest' r
              else Ret None
          | [] => Ret None
          end
      | OP_GT =>
          match rest with
          | t' :: rest' =>
              if is_word t' then let* r := push_output r (word_text t') false in gather rest' r
              else Ret None
          | [] => Ret None
          end
      | OP_GTGT =>
          match rest with
          | t' :: rest' =>
              if is_word t' then let* r := push_output r (word_text t') true in gather rest' r
              else Ret None
          | [] => Ret None
          end
      | OP_WORD => gather rest (push_arg r (word_text t))
      | _ => gather rest r
      end
  end.

(** The tokens before the first [;] or [&]. *)
Definition ends_command (t : token_t) : bool :=
  match tok_type t with OP_SEMI | OP_AMP => true | _ => false end.

Fixpoint group (toks : token_list_t) : token_list_t :=
  match toks with
  | [] => []
  | t :: toks => if ends_command t then [] else t :: group toks
  end.

Definition no_redirs : redirs := mk_redirs [] [] [].

(** ** Finding the program *)

(** [strtok_r] on [':']: the non-empty fields. *)
Fixpoint split_colon (s acc : cstr) : list cstr :=
  match s with
  | [] => [acc]
  | c :: s => if decide (c = ":"%char) then acc :: split_colon s [] else split_colon s (acc ++ [c])
  end.
Definition strtok_colon (s : cstr) : list cstr := filter (fun d => d <> []) (split_colon s []).

Definition PATH_MAX : nat := 4096.

(** [snprintf(buf, PATH_MAX + 512, "%s/%s", dir, cmd)] *)
Definition join_path (dir cmd : cstr) : cstr :=
  take (PATH_MAX + 512 - 1) (dir ++ "/"%char :: cmd).

Section exec.
Context {W : Type} `{ProcOS W} `{ExecOS W}.

Definition execute_is_executable (w : W) (path : cstr) : bool :=
  os_access_x w path &&
  match os_isdir w path with
  | None => false
  | Some d => negb d
  end.

(** The loop over the directories of PATH. *)
Fixpoint search_path (w : W) (dirs : list cstr) (cmd_name : cstr) : option cstr :=
  match dirs with
  | [] => None
  | dir :: dirs =>
      let candidate :=
        if length dir =? 0 then
          match os_getcwd w with
          | Some cwd => join_path cwd cmd_name
          | None => take (PATH_MAX + 512 - 1) cmd_name
          end
        else join_path dir cmd_name in
      if execute_is_executable w candidate then Some candidate
      else search_path w dirs cmd_name
  end.

Definition search_env_path (w : W) (cmd_name : cstr) : option cstr :=
  match os_getenv_path w with
  | Some env_path =>
      if 0 <? length env_path then search_path w (strtok_colon env_path) cmd_name else None
  | None => None
  end.

(** A leading [%] asks not to look in the current directory. *)
Definition skip_percent (raw_cmd : cstr) : bool * cstr :=
  match raw_cmd with
  | c :: rest => if decide (c = "%"%char) then (true, rest) else (false, raw_cmd)
  | [] => (false, [])
  end.

Definition resolve_command (w : W) (skip_cwd : bool) (cmd_name : cstr) : option cstr :=
  if negb skip_cwd && bool_decide ("/"%char ∈ cmd_name) then
    if execute_is_executable w cmd_name then Some cmd_name else None
  else
    let in_cwd :=
      if skip_cwd then None
      else match os_getcwd w with
           | Some cwd =>
               let candidate := join_path cwd cmd_name in
               if execute_is_executable w candidate then Some candidate else None
           | None => None
           end in
    match in_cwd with
    | Some p => Some p
    | None => search_env_path w cmd_name
    end.

(** ** Opening the files *)

(** The check that every input file opens. *)
Fixpoint check_inputs (w : W) (files : list cstr) : W * bool :=
  match files with
  | [] => (w, true)
  | f :: files =>
      let '(w, fd) := os_open w f O_RDONLY in
      if (fd <? 0)%Z then (w, false) else check_inputs (os_close w fd) files
  end.

Fixpoint close_all (w : W) (fds : list Z) : W :=
  match fds with
  | [] => w
  | fd :: fds => close_all (os_close w fd) fds
  end.

(** The output descriptors; on a failure those already open are returned
    with the flag cleared. *)
Fixpoint open_outputs (w : W) (files : list (cstr * bool)) (out_fds : list Z) : W * list Z * bool :=
  match files with
  | [] => (w, out_fds, true)
  | (path, is_append) :: files =>
      let '(w, fd) := os_open w path (if is_append : bool then O_APPEND else O_TRUNC) in
      if (fd <? 0)%Z then (w, out_fds, false) else open_outputs w files (out_fds ++ [fd])
  end.

(** How the child redirects itself before [execv]. *)
Definition child_input (inputs : list cstr) : stdin_src :=
  match inputs with
  | [] => In_inherit
  | [f] => In_file f
  | _ => In_feeder inputs
  end.
Definition child_output (out_fds : list Z) : stdout_dst :=
  match out_fds with
  | [] => Out_inherit
  | [fd] => Out_fd fd
  | _ => Out_tee out_fds
  end.

Definition cmd_child (sync : option (Z * Z)) (path : cstr) (argv inputs : list cstr) (out_fds : list Z)
    : list child_op :=
  C_setpgid 0 ::
  (match sync with Some (r, wr) => [C_close wr; C_sync_read r; C_close r] | None => [] end) ++
  [C_default_signals; C_end (Ch_exec path argv (child_input inputs) (child_output out_fds))].

(** ** One command *)
Definition job_line (id pid : Z) : cstr :=
  c_str "[" ++ fmt_d id ++ c_str "] " ++ fmt_d pid.

(** The [full_cmd_str] to display, or a fallback. *)
Definition display_cmd (full_cmd_str : option cstr) (fallback : cstr) : cstr :=
  match full_cmd_str with
  | Some (c :: s) => c :: s
  | _ => fallback
  end.

Definition give_terminal (w : W) (pgid : Z) : W :=
  if os_isatty w then os_tcsetpgrp w pgid else w.
Definition take_terminal (w : W) : W :=
  if os_isatty w then os_tcsetpgrp w (os_getpgrp w) else w.

(** The parent after a successful [fork]. *)
Definition cmd_parent (s : jstate W) (pid : Z) (sync : option (Z * Z)) (out_fds : list Z)
    (job_id : Z) (bg_cmd_name cmd_name : cstr) (full_cmd_str : option cstr) : jstate W * bool :=
  let w := os_setpgid (js_os s) pid pid in
  let w := close_all w out_fds in
  match sync with
  | Some (r, wr) =>
      let w := os_close w r in
      let s := printf (with_os s w) (job_line job_id pid) in
      let w := os_write1 (js_os s) wr in
      let w := os_close w wr in
      (jobs_add (with_os s w) job_id pid bg_cmd_name full_cmd_str, true)
  | None =>
      let w := give_terminal w pid in
      let '(w, r) := os_waitpid w pid WUNTRACED in
      let w := take_terminal w in
      if WIFSTOPPED (wr_status r) then
        let '(s, s_id) := jobs_alloc_id (with_os s w) in
        let disp := display_cmd full_cmd_str cmd_name in
        let s := jobs_add_stopped s s_id pid [pid] [cmd_name] (Some disp) in
        (printf s (c_str "[" ++ fmt_d s_id ++ c_str "] + Stopped  " ++ disp), false)
      else (with_os s w, true)
  end.

(** Creating the process: the synchronisation pipe of a background command,
    [fork], and the two sides. *)
Definition cmd_spawn (s : jstate W) (is_bg : bool) (job_id : Z) (bg_cmd_name : cstr)
    (full_cmd_str : option cstr) (cmd_name path : cstr) (argv inputs : list cstr) (out_fds : list Z)
    : jstate W * bool :=
  let '(w, sync) := if is_bg then os_pipe (js_os s) else (js_os s, None) in
  if is_bg && negb (bool_decide (is_Some sync)) then (with_os s (close_all w out_fds), false)
  else
    let '(w, pid) := os_fork w (cmd_child sync path argv inputs out_fds) in
    if (0 <? pid)%Z then
      cmd_parent (with_os s w) pid sync out_fds job_id bg_cmd_name cmd_name full_cmd_str
    else
      let w := close_all w out_fds in
      let w := match sync with Some (r, wr) => os_close (os_close w r) wr | None => w end in
      (with_os s w, false).

Definition execute_cmd_internal (s : jstate W) (list : token_list_t) (is_bg : bool) (job_id : Z)
    (bg_cmd_name : cstr) (full_cmd_str : option cstr) : outcome (jstate W * bool) :=
  if length list =? 0 then Ret (s, true)
  else
    let* r := gather (group list) no_redirs in
    match r with
    | None => Ret (printf s (c_str "cshell: invalid syntax"), false)
    | Some (mk_redirs argv inputs outputs) =>
        match argv with
        | [] => Ret (s, true)
        | raw_cmd :: args =>
            let '(w, ok) := check_inputs (js_os s) inputs in
            if negb ok then
              Ret (printf (with_os s w) (c_str "cshell: no such file or directory"), false)
            else
              let '(w, out_fds, ok) := open_outputs w outputs [] in
              if negb ok then
                Ret (with_os (printf s (c_str "cshell: unable to create file for writing"))
                       (close_all w out_fds), false)
              else
                let '(skip_cwd, cmd_name) := skip_percent raw_cmd in
                match resolve_command w skip_cwd cmd_name with
                | None =>
                    Ret (with_os (printf s (c_str "cshell: command not found (" ++ cmd_name ++ c_str ")"))
                           (close_all w out_fds), false)
                | Some path =>
                    Ret (cmd_spawn (with_os s w) is_bg job_id bg_cmd_name full_cmd_str cmd_name path
                           (cmd_name :: args) inputs out_fds)
                end
        end
    end.

(** ** One stage of a pipeline, in its own process *)
Definition stage_builtin (list : token_list_t) : option builtin :=
  match list with
  | t :: _ => if is_word t then builtin_of (word_text t) else None
  | [] => None
  end.

(** The program of a stage that is not built in. *)
Definition stage_program (w : W) (r : redirs) : W * child_end :=
  match rd_argv r with
  | [] => (w, Ch_exit 0 None)
  | raw_cmd :: args =>
      let '(w, ok) := check_inputs w (rd_inputs r) in
      if negb ok then (w, Ch_exit 1 (Some (c_str "cshell: no such file or directory")))
      else
        let '(w, out_fds, ok) := open_outputs w (rd_outputs r) [] in
        if negb ok then (w, Ch_exit 1 (Some (c_str "cshell: unable to create file for writing")))
        else
          let '(skip_cwd, cmd_name) := skip_percent raw_cmd in
          match resolve_command w skip_cwd cmd_name with
          | None =>
              (w, Ch_exit 1 (Some (c_str "cshell: command not found (" ++ cmd_name ++ c_str ")")))
          | Some path =>
              (w, Ch_exec path (cmd_name :: args) (child_input (rd_inputs r)) (child_output out_fds))
          end
  end.

Definition execute_stage_child (w : W) (list : token_list_t) : outcome (W * child_end) :=
  match list with
  | [] => Ret (w, Ch_exit 0 None)
  | _ =>
      match stage_builtin list with
      | Some b => Ret (w, Ch_builtin b list)
      | None =>
          let* r := gather list no_redirs in
          match r with
          | None => Ret (w, Ch_exit 1 (Some (c_str "cshell: invalid syntax")))
          | Some r => Ret (stage_program w r)
          end
      end
  end.

(** ** Pipelines *)

(** The number of stages: the pipes before the first [;] or [&], plus one. *)
Definition is_pipe (t : token_t) : bool := bool_decide (tok_type t = OP_PIPE).
Definition num_stages (list : token_list_t) : nat :=
  S (length (filter (fun t => is_pipe t = true) (group list))).

Definition slice (l : token_list_t) (start n : nat) : token_list_t := take n (drop start l).

Definition MAX_STAGES : nat := 256.

Definition push_stage (stages : stage_list) (st : token_list_t) : stage_list :=
  if length stages <? MAX_STAGES then stages ++ [st] else stages.

(** The splitting loop: [i] is the index of the head of [rest] in [list]. *)
Fixpoint stage_loop (list rest : token_list_t) (i start_idx : nat) (stages : stage_list)
    : nat * stage_list :=
  match rest with
  | [] => (start_idx, stages)
  | t :: rest =>
      if ends_command t then
        (start_idx,
         if start_idx <? i then push_stage stages (slice list start_idx (i - start_idx)) else stages)
      else if is_pipe t then
        stage_loop list rest (S i) (S i) (push_stage stages (slice list start_idx (i - start_idx)))
      else stage_loop list rest (S i) start_idx stages
  end.

Definition split_stages (list : token_list_t) : stage_list :=
  let '(start_idx, stages) := stage_loop list list 0 0 [] in
  match list !! start_idx with
  | Some t => if ends_command t then stages else push_stage stages (drop start_idx list)
  | None => stages
  end.

(** The check before any process is made. *)
Definition stages_valid (list : token_list_t) (stages : stage_list) : bool :=
  (num_stages list <=? length stages) && forallb (fun st => negb (length st =? 0)) stages.

Fixpoint make_pipes (w : W) (n : nat) (pipes : list (Z * Z)) : W * list (Z * Z) * bool :=
  match n with
  | O => (w, pipes, true)
  | S n =>
      let '(w, p) := os_pipe w in
      match p with
      | None => (w, pipes, false)
      | Some p => make_pipes w n (pipes ++ [p])
      end
  end.

Fixpoint close_pipes (w : W) (pipes : list (Z * Z)) : W :=
  match pipes with
  | [] => w
  | (r, wr) :: pipes => close_pipes (os_close (os_close w r) wr) pipes
  end.

Definition has_input_redir (stage : token_list_t) : bool :=
  existsb (fun t => bool_decide (tok_type t = OP_LT)) stage.
Definition has_output_redir (stage : token_list_t) : bool :=
  existsb (fun t => bool_decide (tok_type t = OP_GT) || bool_decide (tok_type t = OP_GTGT)) stage.

(** What the child of stage [i] does; [sync] is the pipe that holds the
    children of a background pipeline until the parent is ready. *)
Definition stage_child (i stage_count : nat) (pid0 : Z) (pipes : list (Z * Z)) (sync : option (Z * Z))
    (stage : token_list_t) : list child_op :=
  (if i =? 0 then [C_setpgid 0] else [C_setpgid pid0]) ++
  (match sync with Some (r, wr) => [C_close wr; C_sync_read r; C_close r] | None => [] end) ++
  (if negb (has_input_redir stage) && (0 <? i) then
     match pipes !! (i - 1) with Some (r, _) => [C_dup2 r 0] | None => [] end
   else []) ++
  (if negb (has_output_redir stage) && (i <? stage_count - 1) then
     match pipes !! i with Some (_, wr) => [C_dup2 wr 1] | None => [] end
   else []) ++
  (pipes ≫= (fun '(r, wr) => [C_close r; C_close wr])) ++
  [C_stage stage].

Fixpoint spawn_stages (w : W) (i stage_count : nat) (stages : stage_list)
    (pipes : list (Z * Z)) (sync : option (Z * Z)) (pids : list Z) : W * list Z :=
  match stages with
  | [] => (w, pids)
  | stage :: stages =>
      let '(w, pid) :=
        os_fork w (stage_child i stage_count (default 0%Z (pids !! 0)) pipes sync stage) in
      let pids := pids ++ [pid] in
      let w := os_setpgid w pid (default 0%Z (pids !! 0)) in
      spawn_stages w (S i) stage_count stages pipes sync pids
  end.

(** The [waitpid] of every stage; the result says whether one stopped. *)
Fixpoint wait_stages (w : W) (pids : list Z) (any_stopped : bool) : W * bool :=
  match pids with
  | [] => (w, any_stopped)
  | pid :: pids =>
      let '(w, r) := os_waitpid w pid WUNTRACED in
      wait_stages w pids (any_stopped || WIFSTOPPED (wr_status r))
  end.

Definition stage_cmds (stages : stage_list) : list cstr :=
  (fun st : token_list_t => default [] (word_text <$> st !! 0)) <$> stages.

Definition first_cmd (stages : stage_list) : cstr := default [] (stage_cmds stages !! 0).

(** The foreground pipeline after its stages were checked. *)
Definition run_pipeline_fg (s : jstate W) (stages : stage_list) (full_cmd_str : option cstr)
    : jstate W * bool :=
  let n := length stages in
  let '(w, pipes, ok) := make_pipes (js_os s) (n - 1) [] in
  if negb ok then (with_os s w, false)
  else
    let '(w, pids) := spawn_stages w 0 n stages pipes None [] in
    let w := close_pipes w pipes in
    let pid0 := default 0%Z (pids !! 0) in
    let w := give_terminal w pid0 in
    let '(w, any_stopped) := wait_stages w pids false in
    let w := take_terminal w in
    if any_stopped then
      let '(s, s_id) := jobs_alloc_id (with_os s w) in
      let disp := display_cmd full_cmd_str (first_cmd stages) in
      let s := jobs_add_stopped s s_id pid0 pids (stage_cmds stages) (Some disp) in
      (printf s (c_str "[" ++ fmt_d s_id ++ c_str "] + Stopped    " ++ disp), false)
    else (with_os s w, true).

(** The background pipeline after its stages were checked. *)
Definition run_pipeline_bg (s : jstate W) (stages : stage_list) (job_id : Z)
    (full_cmd_str : option cstr) : jstate W * bool :=
  let n := length stages in
  let '(w, pipes, ok) := make_pipes (js_os s) (n - 1) [] in
  if negb ok then (with_os s w, false)
  else
    let '(w, sync) := os_pipe w in
    match sync with
    | None => (with_os s (close_pipes w pipes), false)
    | Some (sr, sw) =>
        let '(w, pids) := spawn_stages w 0 n stages pipes (Some (sr, sw)) [] in
        let w := close_pipes w pipes in
        let w := os_close w sr in
        let pid0 := default 0%Z (pids !! 0) in
        let s := printf (with_os s w) (job_line job_id pid0) in
        let w := os_close (os_write1 (js_os s) sw) sw in
        let disp := display_cmd full_cmd_str (first_cmd stages) in
        (jobs_add_pipeline (with_os s w) job_id pid0 pids (stage_cmds stages) (Some disp), true)
    end.

(** The built-in commands run in the shell's own process; their models are in
    the files of the commands. *)
Variable run_builtin : jstate W -> builtin -> token_list_t -> outcome (jstate W).

Definition invalid_syntax (s : jstate W) : jstate W * bool :=
  (printf s (c_str "cshell: invalid syntax"), false).

Definition execute_pipeline_fg (s : jstate W) (list : token_list_t) (full_cmd_str : option cstr)
    : outcome (jstate W * bool) :=
  if length list =? 0 then Ret (s, true)
  else if num_stages list =? 1 then
    match stage_builtin list with
    | Some b => let* s := run_builtin s b list in Ret (s, true)
    | None => execute_cmd_internal s list false 0 [] full_cmd_str
    end
  else
    let stages := split_stages list in
    if stages_valid list stages then Ret (run_pipeline_fg s stages full_cmd_str)
    else Ret (invalid_syntax s).

(** The name shown for a background command: the first word without [%] and
    without its directory. *)
Definition bg_name (list : token_list_t) : cstr :=
  let raw_cmd := default [] ((fun p => word_text p.2) <$> list_find (fun t => is_word t = true) list) in
  let raw_cmd := (skip_percent raw_cmd).2 in
  match strrchr_tail "/"%char raw_cmd with
  | Some (_ :: rest) => rest
  | _ => raw_cmd
  end.

(** A built-in command in the background runs in a child. *)
Definition bg_builtin (s : jstate W) (b : builtin) (list : token_list_t) (job_id : Z)
    (full_cmd_str : option cstr) : jstate W * bool :=
  let '(w, sync) := os_pipe (js_os s) in
  match sync with
  | None => (with_os s w, false)
  | Some (r, wr) =>
      let '(w, pid) :=
        os_fork w [C_close wr; C_setpgid 0; C_sync_read r; C_close r; C_default_signals;
                   C_end (Ch_builtin b list)] in
      if (pid <? 0)%Z then (with_os s (os_close (os_close w r) wr), false)
      else
        let w := os_close (os_setpgid w pid pid) r in
        let s := printf (with_os s w) (job_line job_id pid) in
        let w := os_close (os_write1 (js_os s) wr) wr in
        (jobs_add (with_os s w) job_id pid (bg_name list) full_cmd_str, true)
  end.

Definition execute_pipeline_bg (s : jstate W) (list : token_list_t) (job_id : Z)
    (full_cmd_str : option cstr) : outcome (jstate W * bool) :=
  if length list =? 0 then Ret (s, true)
  else if num_stages list =? 1 then
    match stage_builtin list with
    | Some b => Ret (bg_builtin s b list job_id full_cmd_str)
    | None => execute_cmd_internal s list true job_id (bg_name list) full_cmd_str
    end
  else
    let stages := split_stages list in
    if stages_valid list stages then Ret (run_pipeline_bg s stages job_id full_cmd_str)
    else Ret (invalid_syntax s).

(** ** The command line ([execute_command_line] of [jobs.c])

    The loop cuts the next command off the tokens and runs it; a failed
    foreground command ends the line. *)
Definition run_command (s : jstate W) (cmd : token_list_t) (is_bg : bool) : outcome (jstate W * bool) :=
  let full := Some (reconstruct_cmd_str cmd FULL_CMD_SIZE) in
  if is_bg then
    let '(s, job_id) := jobs_alloc_id s in
    let* '(s, _) := execute_pipeline_bg s cmd job_id full in Ret (s, true)
  else
    let s := jobs_set_fg_active s true in
    let* '(s, ok) := execute_pipeline_fg s cmd full in
    let s := jobs_check_completed (jobs_set_fg_active s false) in
    Ret (s, ok).

(** The next command, whether [&] ends it, and the rest of the tokens. *)
Definition next_command (toks : token_list_t) : token_list_t * bool * token_list_t :=
  let cmd := group toks in
  match drop (length cmd) toks with
  | [] => (cmd, false, [])
  | t :: rest => (cmd, bool_decide (tok_type t = OP_AMP), rest)
  end.

Fixpoint command_loop (fuel : nat) (s : jstate W) (toks : token_list_t) : outcome (jstate W) :=
  match fuel with
  | O => NoFuel
  | S fuel =>
      match toks with
      | [] => Ret s
      | _ =>
          let '(cmd, is_bg, rest) := next_command toks in
          if length cmd =? 0 then command_loop fuel s rest
          else
            let* '(s, ok) := run_command s cmd is_bg in
            if ok then command_loop fuel s rest else Ret s
      end
  end.

Definition execute_command_line (s : jstate W) (list : token_list_t) : outcome (jstate W) :=
  command_loop (S (length list)) s list.

End exec.

#[global] Arguments cmd_parent : simpl never.
#[global] Arguments cmd_spawn : simpl never.

(** ** The laws of descriptors

    [fds w] is the set of open descriptors of the shell.  A descriptor that is
    handed out was not open; everything but [open], [close] and [pipe] leaves
    the set alone (the descriptors of a child are its own). *)
Class FdLaws (W : Type) `{ProcOS W} `{ExecOS W} := {
  fds : W -> gset Z;
  fds_open : forall w p m,
    ((os_open w p m).2 < 0 /\ fds (os_open w p m).1 = fds w)%Z \/
    (0 <= (os_open w p m).2)%Z /\ ((os_open w p m).2 ∉ fds w) /\
      fds (os_open w p m).1 = {[ (os_open w p m).2 ]} ∪ fds w;
  fds_close : forall w fd, fds (os_close w fd) = fds w ∖ {[ fd ]};
  fds_pipe : forall w,
    match (os_pipe w).2 with
    | None => fds (os_pipe w).1 = fds w
    | Some (r, wr) => r <> wr /\ (r ∉ fds w) /\ (wr ∉ fds w) /\
        fds (os_pipe w).1 = {[ r; wr ]} ∪ fds w
    end;
  fds_fork : forall w ops, fds (os_fork w ops).1 = fds w;
  fds_setpgid : forall w a b, fds (os_setpgid w a b) = fds w;
  fds_write1 : forall w fd, fds (os_write1 w fd) = fds w;
  fds_waitpid : forall w pid fl, fds (os_waitpid w pid fl).1 = fds w;
  fds_tcsetpgrp : forall w pg, fds (os_tcsetpgrp w pg) = fds w
}.

Section descriptors.
Context {W : Type} `{FdLaws W}.
Implicit Types (w : W) (s : jstate W).

Lemma fds_close_all w l : fds (close_all w l) = fds w ∖ list_to_set l.
Proof.
  revert w. induction l as [|fd l IH]; intros w; simpl; [set_solver|].
  rewrite IH, fds_close. set_solver.
Qed.

Lemma fds_check_inputs w files : fds (check_inputs w files).1 = fds w.
Proof.
  revert w. induction files as [|f files IH]; intros w; simpl; [done|].
  pose proof (fds_open w f O_RDONLY) as Ho. destruct (os_open w f O_RDONLY) as [w1 fd]. simpl in Ho.
  destruct (Z.ltb_spec fd 0); simpl.
  - destruct Ho as [[_ ?]|[? _]]; [done|lia].
  - destruct Ho as [[? _]|(_ & Hni & Hf)]; [lia|]. rewrite IH, fds_close, Hf. set_solver.
Qed.

(** The descriptors of the outputs are new, and are what the set grew by. *)
Lemma fds_open_outputs files : forall w acc base,
  fds w = list_to_set acc ∪ base -> (forall fd, fd ∈ acc -> fd ∉ base) ->
  let '(w', out_fds, ok) := open_outputs w files acc in
  fds w' = list_to_set out_fds ∪ base /\ (forall fd, fd ∈ out_fds -> fd ∉ base).
Proof.
  induction files as [|[p a] files IH]; intros w acc base Hw Hacc; simpl; [done|].
  set (m := if a then O_APPEND else O_TRUNC).
  pose proof (fds_open w p m) as Ho. destruct (os_open w p m) as [w1 fd]. simpl in Ho.
  destruct (Z.ltb_spec fd 0); simpl.
  - destruct Ho as [[_ ->]|[? _]]; [done|lia].
  - destruct Ho as [[? _]|(_ & Hni & Hf)]; [lia|]. apply IH.
    + rewrite Hf, Hw, list_to_set_app_L. set_solver.
    + intros fd'. rewrite elem_of_app, list_elem_of_singleton. set_solver.
Qed.

Lemma fds_terminal w pg : fds (give_terminal w pg) = fds w /\ fds (take_terminal w) = fds w.
Proof. unfold give_terminal, take_terminal. by destruct (os_isatty w); rewrite ?fds_tcsetpgrp. Qed.

Lemma js_os_add s id pg pids names cmd :
  js_os (jobs_add_pipeline s id pg pids names cmd) = js_os s /\
  js_os (jobs_add_stopped s id pg pids names cmd) = js_os s.
Proof.
  unfold jobs_add_stopped, jobs_add_pipeline.
  destruct (free_slot _); simpl; split; try done; by destruct (job_slot _ _).
Qed.

(** After [fork] the parent closes the outputs and the synchronisation pipe. *)
Lemma fds_cmd_parent s pid sync out_fds id bg name full base :
  fds (js_os s) = list_to_set out_fds ∪
    match sync with Some (r, wr) => {[ r; wr ]} | None => ∅ end ∪ base ->
  (forall fd, fd ∈ out_fds -> fd ∉ base) ->
  (match sync with Some (r, wr) => (r ∉ base) /\ (wr ∉ base) | None => True end) ->
  fds (js_os (cmd_parent s pid sync out_fds id bg name full).1) = base.
Proof.
  intros Hw Ho Hs. unfold cmd_parent. destruct sync as [[r wr]|].
  - simpl. unfold jobs_add. rewrite (proj1 (js_os_add _ _ _ _ _ _)). simpl.
    rewrite !fds_close, fds_write1, !fds_close, fds_close_all, fds_setpgid, Hw.
    destruct Hs. set_solver.
  - set (w1 := close_all _ _).
    assert (fds w1 = base) as Hw1.
    { unfold w1. rewrite fds_close_all, fds_setpgid, Hw. set_solver. }
    pose proof (fds_waitpid (give_terminal w1 pid) pid WUNTRACED) as Hp.
    destruct (os_waitpid _ _ _) as [w2 r]. simpl in Hp.
    rewrite (proj1 (fds_terminal _ _)) in Hp.
    destruct (WIFSTOPPED _); simpl; [rewrite (proj2 (js_os_add _ _ _ _ _ _)); simpl|];
      rewrite (proj2 (fds_terminal w2 0)); congruence.
Qed.

Lemma fds_cmd_spawn s bg id bn full name path argv inputs out_fds base :
  fds (js_os s) = list_to_set out_fds ∪ base -> (forall fd, fd ∈ out_fds -> fd ∉ base) ->
  fds (js_os (cmd_spawn s bg id bn full name path argv inputs out_fds).1) = base.
Proof.
  intros Hw Ho. unfold cmd_spawn.
  destruct bg.
  - pose proof (fds_pipe (js_os s)) as Hp. destruct (os_pipe (js_os s)) as [w1 [[r wr]|]]; simpl in Hp |- *.
    + destruct Hp as (Hne & Hr & Hwr & Hf).
      set (ops := cmd_child _ _ _ _ _). pose proof (fds_fork w1 ops) as Hk.
      destruct (os_fork w1 ops) as [w2 pid]. simpl in Hk. destruct (0 <? pid)%Z; cbv iota.
      * apply fds_cmd_parent; simpl; [|done|set_solver]. rewrite Hk, Hf, Hw. set_solver.
      * simpl. rewrite !fds_close, fds_close_all, Hk, Hf, Hw. set_solver.
    + rewrite fds_close_all, Hp, Hw. set_solver.
  - simpl. set (ops := cmd_child _ _ _ _ _). pose proof (fds_fork (js_os s) ops) as Hk.
    destruct (os_fork (js_os s) ops) as [w2 pid]. simpl in Hk. destruct (0 <? pid)%Z; cbv iota.
    + apply fds_cmd_parent; simpl; [|done|done]. rewrite Hk, Hw. set_solver.
    + simpl. rewrite fds_close_all, Hk, Hw. set_solver.
Qed.

Lemma fds_execute_cmd s list bg id bn full s' ok :
  execute_cmd_internal s list bg id bn full = Ret (s', ok) -> fds (js_os s') = fds (js_os s).
Proof.
  unfold execute_cmd_internal. destruct (length list =? 0); [by intros [= <- _]|].
  intros Hr. apply obind_inv in Hr as (r & _ & Hr).
  destruct r as [[[|raw args] inputs outputs]|]; [by simplify_eq| |by simplify_eq].
  pose proof (fds_check_inputs (js_os s) inputs) as Hc.
  destruct (check_inputs (js_os s) inputs) as [w1 ok1]. simpl in Hc.
  destruct ok1; [|by simplify_eq/=].
  pose proof (fds_open_outputs outputs w1 [] (fds (js_os s))) as Ho.
  destruct (open_outputs w1 outputs []) as [[w2 out_fds] ok2].
  destruct Ho as [Hw2 Hd]; [set_solver|set_solver|]. simpl in Hr.
  assert (fds (close_all w2 out_fds) = fds (js_os s)) as Hcl by (rewrite fds_close_all; set_solver).
  destruct ok2; [|by simplify_eq/=]. simpl in Hr.
  destruct (skip_percent raw) as [skip name].
  destruct (resolve_command w2 skip name) as [path|]; [|by simplify_eq/=].
  injection Hr as Hr. apply (f_equal fst) in Hr. simpl in Hr. subst s'.
  by apply fds_cmd_spawn.
Qed.

(** *** Pipelines *)
Definition pipe_ends (pipes : list (Z * Z)) : list Z := pipes ≫= (fun '(r, wr) => [r; wr]).

Lemma pipe_ends_app p1 p2 : pipe_ends (p1 ++ p2) = pipe_ends p1 ++ pipe_ends p2.
Proof. apply bind_app. Qed.

Lemma fds_make_pipes n : forall w acc base,
  fds w = list_to_set (pipe_ends acc) ∪ base -> (forall fd, fd ∈ pipe_ends acc -> fd ∉ base) ->
  let '(w', pipes, ok) := make_pipes w n acc in
  fds w' = list_to_set (pipe_ends pipes) ∪ base /\ (forall fd, fd ∈ pipe_ends pipes -> fd ∉ base).
Proof.
  induction n as [|n IH]; intros w acc base Hw Hacc; simpl; [done|].
  pose proof (fds_pipe w) as Hp. destruct (os_pipe w) as [w1 [[r wr]|]]; simpl in Hp.
  - destruct Hp as (Hne & Hr & Hwr & Hf). apply IH; rewrite pipe_ends_app.
    + rewrite Hf, Hw, list_to_set_app_L. simpl. set_solver.
    + intros fd Hfd. apply elem_of_app in Hfd as [?|?]; [by apply Hacc|]. set_solver.
  - by rewrite Hp.
Qed.

Lemma fds_close_pipes pipes : forall w,
  fds (close_pipes w pipes) = fds w ∖ list_to_set (pipe_ends pipes).
Proof.
  induction pipes as [|[r wr] pipes IH]; intros w; simpl; [set_solver|].
  rewrite IH, !fds_close. unfold pipe_ends. simpl. set_solver.
Qed.

Lemma fds_spawn_stages stages : forall w i n pipes sync pids,
  fds (spawn_stages w i n stages pipes sync pids).1 = fds w.
Proof.
  induction stages as [|st stages IH]; intros w i n pipes sync pids; cbn [spawn_stages]; [done|].
  set (ops := stage_child _ _ _ _ _ _). pose proof (fds_fork w ops) as Hk.
  destruct (os_fork w ops) as [w1 pid]. simpl in Hk. by rewrite IH, fds_setpgid.
Qed.

Lemma fds_wait_stages pids : forall w b, fds (wait_stages w pids b).1 = fds w.
Proof.
  induction pids as [|pid pids IH]; intros w b; simpl; [done|].
  pose proof (fds_waitpid w pid WUNTRACED) as Hp. destruct (os_waitpid _ _ _) as [w1 r].
  simpl in Hp. by rewrite IH.
Qed.

Lemma fds_run_pipeline_fg s stages full :
  (make_pipes (js_os s) (length stages - 1) []).2 = true ->
  fds (js_os (run_pipeline_fg s stages full).1) = fds (js_os s).
Proof.
  unfold run_pipeline_fg. pose proof (fds_make_pipes (length stages - 1) (js_os s) [] (fds (js_os s))) as Hm.
  destruct (make_pipes _ _ _) as [[w1 pipes] ok]. simpl. intros ->.
  destruct Hm as [Hw1 Hd]; [set_solver|set_solver|]. simpl.
  pose proof (fds_spawn_stages stages w1 0 (length stages) pipes None []) as Hs.
  destruct (spawn_stages _ _ _ _ _ _ _) as [w2 pids]. simpl in Hs.
  set (w3 := give_terminal _ _).
  assert (fds w3 = fds (js_os s)) as Hw3.
  { unfold w3. rewrite (proj1 (fds_terminal _ _)), fds_close_pipes, Hs, Hw1. set_solver. }
  pose proof (fds_wait_stages pids w3 false) as Hws.
  destruct (wait_stages w3 pids false) as [w4 b]. simpl in Hws.
  destruct b; simpl; [rewrite (proj2 (js_os_add _ _ _ _ _ _)); simpl|];
    rewrite (proj2 (fds_terminal w4 0)); congruence.
Qed.

Lemma fds_run_pipeline_bg s stages id full :
  (make_pipes (js_os s) (length stages - 1) []).2 = true ->
  fds (js_os (run_pipeline_bg s stages id full).1) = fds (js_os s).
Proof.
  unfold run_pipeline_bg. pose proof (fds_make_pipes (length stages - 1) (js_os s) [] (fds (js_os s))) as Hm.
  destruct (make_pipes _ _ _) as [[w1 pipes] ok]. simpl. intros ->.
  destruct Hm as [Hw1 Hd]; [set_solver|set_solver|]. simpl.
  pose proof (fds_pipe w1) as Hp. destruct (os_pipe w1) as [w2 [[sr sw]|]]; simpl in Hp.
  - destruct Hp as (Hne & Hr & Hwr & Hf).
    pose proof (fds_spawn_stages stages w2 0 (length stages) pipes (Some (sr, sw)) []) as Hs.
    destruct (spawn_stages _ _ _ _ _ _ _) as [w3 pids]. simpl in Hs.
    simpl. rewrite (proj1 (js_os_add _ _ _ _ _ _)). simpl.
    rewrite !fds_close, fds_write1, fds_close, fds_close_pipes, Hs, Hf, Hw1. set_solver.
  - simpl. rewrite fds_close_pipes, Hp, Hw1. set_solver.
Qed.

End descriptors.

(** ** The descriptors of a child of a pipeline

    The table of a child says which of the parent's open files each of its
    descriptors refers to. *)
Definition run_op (tab : gmap Z Z) (op : child_op) : gmap Z Z :=
  match op with
  | C_dup2 fd target => match tab !! fd with Some f => <[target := f]> tab | None => tab end
  | C_close fd => delete fd tab
  | _ => tab
  end.

Definition run_ops (tab : gmap Z Z) (ops : list child_op) : gmap Z Z := foldl run_op tab ops.

Lemma run_ops_app tab o1 o2 : run_ops tab (o1 ++ o2) = run_ops (run_ops tab o1) o2.
Proof. apply foldl_app. Qed.

Lemma run_close_pipes pipes : forall tab fd,
  run_ops tab (pipes ≫= (fun '(r, wr) => [C_close r; C_close wr])) !! fd =
  if decide (fd ∈ pipe_ends pipes) then None else tab !! fd.
Proof.
  induction pipes as [|[r wr] pipes IH]; intros tab fd; [done|].
  rewrite bind_cons, run_ops_app, IH. unfold pipe_ends. rewrite bind_cons. fold (pipe_ends pipes).
  simpl (run_ops _ _). repeat case_decide; try done; try set_solver;
    rewrite ?lookup_delete_ne by set_solver; try done.
  assert (fd = r \/ fd = wr) as [->| ->] by set_solver;
    [destruct (decide (r = wr)) as [->|]; [by rewrite lookup_delete_eq|];
     rewrite lookup_delete_ne by done|]; by rewrite lookup_delete_eq.
Qed.

Lemma pipe_ends_lookup pipes k r wr :
  pipes !! k = Some (r, wr) -> r ∈ pipe_ends pipes /\ wr ∈ pipe_ends pipes.
Proof.
  intros Hk. apply list_elem_of_lookup_2 in Hk.
  split; apply list_elem_of_bind; exists (r, wr); (split; [set_solver|done]).
Qed.

(** The ends of the pipe that holds back the children of a background
    pipeline. *)
Definition sync_ends (sync : option (Z * Z)) : list Z :=
  match sync with Some (r, wr) => [r; wr] | None => [] end.

Lemma run_sync sync tab fd :
  run_ops tab (match sync with Some (r, wr) => [C_close wr; C_sync_read r; C_close r] | None => [] end) !! fd =
  if decide (fd ∈ sync_ends sync) then None else tab !! fd.
Proof.
  destruct sync as [[r wr]|]; [|rewrite decide_False; [done|apply not_elem_of_nil]].
  unfold sync_ends. cbn [run_ops foldl run_op]. case_decide as Hfd.
  - assert (fd = r \/ (fd <> r /\ fd = wr)) as [->|[? ->]]
      by (destruct (decide (fd = r)); set_solver); [by rewrite lookup_delete_eq|].
    by rewrite lookup_delete_ne, lookup_delete_eq.
  - by rewrite !lookup_delete_ne by set_solver.
Qed.

(** A [dup2] of an open descriptor, when it is made. *)
Lemma run_dup tab (o : option Z) target (b : bool) :
  (forall fd, b = true -> o = Some fd -> tab !! fd = Some fd) ->
  let tab' := run_ops tab (if b then match o with Some fd => [C_dup2 fd target] | None => [] end else []) in
  tab' !! target = (if b then match o with Some fd => Some fd | None => tab !! target end else tab !! target) /\
  forall fd, fd <> target -> tab' !! fd = tab !! fd.
Proof.
  intros Ho. destruct b, o as [fd|]; simpl; try done. rewrite (Ho fd) by done.
  split; [by rewrite lookup_insert_eq|]. intros fd' ?. by rewrite lookup_insert_ne.
Qed.

(** C16.  Every stage of a pipeline, in the foreground or in the background,
    starts its program with exactly the right ends: unless the stage redirects
    its own input, its standard input is the read end of the pipe before it
    (the shell's input for the first stage); unless it redirects its own
    output, its standard output is the write end of the pipe behind it (the
    shell's output for the last); a stream that the stage redirects is left as
    the shell has it until [execute_stage_child] opens the file; and it holds
    no other end of a pipe and none of the synchronisation pipe, so a reader
    sees the end of file when its writer is done. *)
Theorem stage_child_wiring (tab : gmap Z Z) (i n : nat) (pid0 : Z)
    (pipes : list (Z * Z)) (sync : option (Z * Z)) (stage : token_list_t)
    (Hlen : length pipes = n - 1) (Hi : i < n)
    (Htab : forall fd, fd ∈ pipe_ends pipes -> tab !! fd = Some fd)
    (Hstd : forall fd, (fd = 0 \/ fd = 1)%Z -> (fd ∉ pipe_ends pipes) /\ (fd ∉ sync_ends sync))
    (Hsync : forall fd, fd ∈ sync_ends sync -> fd ∉ pipe_ends pipes) :
  let tab' := run_ops tab (stage_child i n pid0 pipes sync stage) in
  tab' !! 0%Z = (if has_input_redir stage then tab !! 0%Z
                 else match i with O => tab !! 0%Z | S k => fst <$> pipes !! k end) /\
  tab' !! 1%Z = (if has_output_redir stage then tab !! 1%Z
                 else if i <? n - 1 then snd <$> pipes !! i else tab !! 1%Z) /\
  (forall fd, fd ∈ pipe_ends pipes -> tab' !! fd = None) /\
  (forall fd, fd ∈ sync_ends sync -> tab' !! fd = None).
Proof.
  intros tab'. destruct (Hstd 0%Z) as [P0 S0]; [auto|]. destruct (Hstd 1%Z) as [P1 S1]; [auto|].
  assert (tab' = run_ops (run_ops (run_ops (run_ops (run_ops tab (if i =? 0 then [C_setpgid 0] else [C_setpgid pid0]))
    (match sync with Some (r, wr) => [C_close wr; C_sync_read r; C_close r] | None => [] end))
    (if negb (has_input_redir stage) && (0 <? i) then
       match fst <$> pipes !! (i - 1) with Some r => [C_dup2 r 0] | None => [] end else []))
    (if negb (has_output_redir stage) && (i <? n - 1) then
       match snd <$> pipes !! i with Some wr => [C_dup2 wr 1] | None => [] end else []))
    (pipes ≫= (fun '(r, wr) => [C_close r; C_close wr]))) as ->.
  { unfold tab', stage_child. rewrite !run_ops_app. destruct (pipes !! (i - 1)) as [[]|], (pipes !! i) as [[]|]; done. }
  set (t0 := run_ops tab _). assert (t0 = tab) as -> by (unfold t0; by destruct (i =? 0)).
  set (t1 := run_ops tab _). set (t2 := run_ops t1 _). set (t3 := run_ops t2 _).
  assert (forall fd, t1 !! fd = if decide (fd ∈ sync_ends sync) then None else tab !! fd) as H1 by apply run_sync.
  assert (forall fd, fd ∈ pipe_ends pipes -> t1 !! fd = Some fd) as Hp1.
  { intros fd Hfd. rewrite H1, decide_False; [by apply Htab|]. intros Hs. by apply (Hsync fd). }
  destruct (run_dup t1 (fst <$> pipes !! (i - 1)) 0 (negb (has_input_redir stage) && (0 <? i))) as [H2 K2].
  { intros fd _ ([r wr] & Hp & ->)%fmap_Some. apply Hp1, (pipe_ends_lookup _ _ _ _ Hp). }
  destruct (run_dup t2 (snd <$> pipes !! i) 1 (negb (has_output_redir stage) && (i <? n - 1))) as [H3 K3].
  { intros fd _ ([r wr] & Hp & ->)%fmap_Some. pose proof (pipe_ends_lookup _ _ _ _ Hp) as [_ Hwr].
    simpl in *. unfold t2. rewrite K2 by (intros ->; done). by apply Hp1. }
  fold t2 in H2, K2. fold t3 in H3, K3.
  split_and!; [| |intros fd Hfd..]; rewrite run_close_pipes.
  - rewrite decide_False, K3, H2 by done. rewrite H1, decide_False by done.
    destruct (has_input_redir stage); [done|]. destruct i as [|k]; [done|]. simpl. rewrite Nat.sub_0_r.
    destruct (lookup_lt_is_Some_2 pipes k) as [[r wr] Hp]; [lia|]. by rewrite Hp.
  - rewrite decide_False, H3 by done. rewrite K2, H1, decide_False by done.
    destruct (has_output_redir stage); [done|]. simpl. destruct (Nat.ltb_spec i (n - 1)); [|done].
    destruct (lookup_lt_is_Some_2 pipes i) as [[r wr] Hp]; [lia|]. by rewrite Hp.
  - by rewrite decide_True.
  - rewrite decide_False by (by apply Hsync). rewrite K3, K2, H1, decide_True; [done..| |]; by intros ->.
Qed.

(** The middle stage of a background pipeline of three, which redirects its
    output. *)
Lemma stage_child_wiring_witness :
  let pipes := [(3, 4); (5, 6)]%Z in
  let tab : gmap Z Z := list_to_map [(0, 0); (1, 1); (3, 3); (4, 4); (5, 5); (6, 6); (7, 7); (8, 8)]%Z in
  let stage := [word_tok (c_str "sort"); mk_token OP_GT None; word_tok (c_str "out")] in
  let tab' := run_ops tab (stage_child 1 3 100 pipes (Some (7, 8)%Z) stage) in
  tab' !! 0%Z = Some 3%Z /\ tab' !! 1%Z = Some 1%Z /\
  (forall fd, fd ∈ pipe_ends pipes -> tab' !! fd = None) /\
  (forall fd, fd ∈ sync_ends (Some (7, 8)%Z) -> tab' !! fd = None).
Proof.
  intros pipes tab stage.
  assert (forall fd, fd ∈ pipe_ends pipes -> fd = 3 \/ fd = 4 \/ fd = 5 \/ fd = 6)%Z as Hp.
  { intros fd Hfd. change (fd ∈ [3; 4; 5; 6]%Z) in Hfd. set_solver. }
  apply (stage_child_wiring tab 1 3 100 pipes (Some (7, 8)%Z) stage).
  - reflexivity.
  - lia.
  - intros fd Hfd. destruct (Hp fd Hfd) as [->|[->|[->| ->]]]; reflexivity.
  - intros fd Hfd. split; [intros H%Hp; lia|]. simpl. rewrite !elem_of_cons, elem_of_nil. lia.
  - intros fd Hfd H%Hp. simpl in Hfd. rewrite !elem_of_cons, elem_of_nil in Hfd. lia.
Defined.

(** ** Proofs: finding the program *)
Section search.
Context {W : Type} `{ExecOS W}.

(** The places looked at, in order. *)
Definition search_order (w : W) (skip_cwd : bool) (cmd_name : cstr) : list cstr :=
  if negb skip_cwd && bool_decide ("/"%char ∈ cmd_name) then [cmd_name]
  else
    (if skip_cwd then [] else match os_getcwd w with
                              | Some cwd => [join_path cwd cmd_name]
                              | None => []
                              end) ++
    match os_getenv_path w with
    | Some env_path => (fun dir => join_path dir cmd_name) <$> strtok_colon env_path
    | None => []
    end.

(** The first place of a list that holds an executable. *)
Definition first_executable (w : W) (l : list cstr) : option cstr :=
  snd <$> list_find (fun p => execute_is_executable w p = true) l.

Lemma first_executable_cons w p l :
  first_executable w (p :: l) = if execute_is_executable w p then Some p else first_executable w l.
Proof.
  unfold first_executable. simpl. destruct (execute_is_executable w p) eqn:E.
  - by rewrite decide_True.
  - rewrite decide_False by done. by destruct (list_find _ l) as [[? ?]|].
Qed.

Lemma strtok_nonempty s d : d ∈ strtok_colon s -> d <> [].
Proof. unfold strtok_colon. intros Hd. by apply list_elem_of_filter in Hd as [? _]. Qed.

Lemma search_path_first w dirs cmd :
  (forall d, d ∈ dirs -> d <> []) ->
  search_path w dirs cmd = first_executable w ((fun dir => join_path dir cmd) <$> dirs).
Proof.
  induction dirs as [|d dirs IH]; intros Hne; [done|].
  rewrite fmap_cons, first_executable_cons. cbn [search_path].
  destruct d as [|c d]; [exfalso; by apply (Hne []); [set_solver|]|]. cbn [length Nat.eqb].
  case_match; [done|]. apply IH. set_solver.
Qed.

Lemma first_executable_app w l1 l2 :
  first_executable w (l1 ++ l2) =
  match first_executable w l1 with Some p => Some p | None => first_executable w l2 end.
Proof.
  induction l1 as [|p l1 IH]; [done|]. simpl app. rewrite !first_executable_cons.
  by destruct (execute_is_executable w p).
Qed.

Lemma search_env_first w cmd :
  search_env_path w cmd =
  first_executable w match os_getenv_path w with
                     | Some env_path => (fun dir => join_path dir cmd) <$> strtok_colon env_path
                     | None => []
                     end.
Proof.
  unfold search_env_path. destruct (os_getenv_path w) as [[|c p]|]; [done| |done].
  cbn [length Nat.ltb Nat.leb]. apply search_path_first, strtok_nonempty.
Qed.

Lemma resolve_command_eq w skip_cwd cmd_name :
  resolve_command w skip_cwd cmd_name = first_executable w (search_order w skip_cwd cmd_name).
Proof.
  unfold resolve_command, search_order. destruct (negb skip_cwd && _).
  { by rewrite first_executable_cons. }
  rewrite first_executable_app, search_env_first. destruct skip_cwd; [done|].
  destruct (os_getcwd w) as [cwd|]; [|done]. rewrite first_executable_cons.
  by destruct (execute_is_executable w (join_path cwd cmd_name)).
Qed.

(**  The program that is run is the first executable regular file of the
    search order: the name itself when it has a slash, otherwise the current
    directory and then the non-empty fields of PATH in their order; a leading
    [%] leaves the current directory (and the use of the name as a path) out.
    "Command not found" means that none of these places holds one. *)
Theorem resolve_command_first (w : W) (skip_cwd : bool) (cmd_name : cstr) :
  resolve_command w skip_cwd cmd_name =
    first_executable w (search_order w skip_cwd cmd_name) /\
  (resolve_command w skip_cwd cmd_name = None <->
   forall p, p ∈ search_order w skip_cwd cmd_name -> execute_is_executable w p = false).
Proof.
  pose proof (resolve_command_eq w skip_cwd cmd_name) as Heq.
  split; [done|]. rewrite Heq. generalize (search_order w skip_cwd cmd_name).
  induction l as [|p l IH]; [set_solver|]. rewrite first_executable_cons.
  destruct (execute_is_executable w p) eqn:E.
  - split; [done|]. intros Hall. rewrite Hall in E; set_solver.
  - rewrite IH. set_solver.
Qed.

End search.

(** ** Proofs: commands of an accepted line *)

(** The commands that the loop of [execute_command_line] runs. *)
Fixpoint commands_from (fuel : nat) (toks : token_list_t) : list (token_list_t * bool) :=
  match fuel, toks with
  | O, _ | _, [] => []
  | S fuel, _ =>
      let '(cmd, is_bg, rest) := next_command toks in
      if length cmd =? 0 then commands_from fuel rest else (cmd, is_bg) :: commands_from fuel rest
  end.

Definition commands (toks : token_list_t) : list (token_list_t * bool) :=
  commands_from (length toks) toks.

(** The stages of a command. *)
Fixpoint split_pipe (l : token_list_t) : stage_list :=
  match l with
  | [] => [[]]
  | t :: l =>
      if is_pipe t then [] :: split_pipe l
      else match split_pipe l with st :: rest => (t :: st) :: rest | [] => [[t]] end
  end.

Lemma group_prefix toks : group toks ++ drop (length (group toks)) toks = toks.
Proof.
  induction toks as [|t toks IH]; simpl; [done|]. destruct (ends_command t); simpl; [done|].
  by rewrite IH.
Qed.

Lemma next_command_rest toks cmd b rest :
  toks <> [] -> next_command toks = (cmd, b, rest) -> length rest < length toks.
Proof.
  unfold next_command. intros Hne Hn. pose proof (group_prefix toks) as Hg.
  apply (f_equal length) in Hg. rewrite length_app in Hg.
  destruct (drop _ toks) as [|t r] eqn:E; simplify_eq/=; [|lia].
  destruct toks; [done|simpl; lia].
Qed.

Lemma commands_fuel f1 f2 toks :
  length toks <= f1 -> length toks <= f2 -> commands_from f1 toks = commands_from f2 toks.
Proof.
  revert f2 toks. induction f1 as [|f1 IH]; intros f2 toks H1 H2.
  - destruct toks; [|simpl in *; lia]. by destruct f2.
  - destruct toks as [|t toks]; [by destruct f2|]. destruct f2 as [|f2]; [simpl in *; lia|].
    cbn [commands_from]. destruct (next_command (t :: toks)) as [[cmd b] rest] eqn:En.
    apply next_command_rest in En; [|done]. simpl in *. rewrite (IH f2) by lia. done.
Qed.

(** A stage the parser accepts: a word, then words and redirections with
    their targets. *)
Inductive tail_ok : list token_category -> Prop :=
| tail_nil : tail_ok []
| tail_word l : tail_ok l -> tail_ok (OP_WORD :: l)
| tail_redir ty l : is_redir ty = true -> tail_ok l -> tail_ok (ty :: OP_WORD :: l).

Definition stage_ok (st : token_list_t) : Prop :=
  exists l, tok_type <$> st = OP_WORD :: l /\ tail_ok l.

(** Extending the first stage of a split by a token. *)
Definition first_tail_ok (l : stage_list) : Prop :=
  match l with
  | [] => False
  | st :: rest => tail_ok (tok_type <$> st) /\ Forall stage_ok rest
  end.

Definition rest_ok (toks : token_list_t) : Prop :=
  match drop (length (group toks)) toks with
  | [] => True
  | t :: rest => g_line (tok_type <$> rest)
  end.

Lemma g_cmd_line l : g_cmd l -> g_line l.
Proof. inversion 1; by constructor. Qed.
Lemma g_bg_line l : g_bg l -> g_line l.
Proof. inversion 1; by constructor. Qed.
#[local] Hint Resolve g_cmd_line g_bg_line : cver.

(** The first stage of a split grows by the tokens put in front of it. *)
Lemma first_tail_cons ty tx l :
  (forall st, tail_ok st -> tail_ok (ty :: st)) -> is_pipe (mk_token ty tx) = false ->
  first_tail_ok (split_pipe l) -> first_tail_ok (split_pipe (mk_token ty tx :: l)).
Proof.
  intros Ht Hp. simpl. rewrite Hp. destruct (split_pipe l) as [|st rest]; [done|].
  intros [? ?]. split; [by apply Ht|done].
Qed.

(** A redirection operator or a pipe, and the word behind it. *)
Lemma first_tail_redir ty tx tx' l :
  is_redir ty = true -> first_tail_ok (split_pipe l) ->
  first_tail_ok (split_pipe (mk_token ty tx :: mk_token OP_WORD tx' :: l)).
Proof.
  intros Hr. simpl. destruct ty; try done; simpl; (destruct (split_pipe l) as [|st rest]; [done|]);
    intros [? ?]; (split; [by apply tail_redir|done]).
Qed.

Lemma first_tail_pipe tx tx' l :
  first_tail_ok (split_pipe l) ->
  first_tail_ok (split_pipe (mk_token OP_PIPE tx :: mk_token OP_WORD tx' :: l)).
Proof.
  simpl. destruct (split_pipe l) as [|st rest]; [done|]. intros [? ?].
  split; [constructor|]. constructor; [by eexists|done].
Qed.

Lemma g_tgt_word toks :
  g_tgt (tok_type <$> toks) \/ g_cmd (tok_type <$> toks) ->
  exists tx toks', toks = mk_token OP_WORD tx :: toks' /\ g_arg (tok_type <$> toks').
Proof.
  destruct toks as [|[ty tx] toks]; intros [Hg|Hg]; inversion Hg; subst; eauto.
Qed.

(** What the grammar says about the tokens behind the first word of a
    command: the stages up to the next [;] or [&], and the rest. *)
Lemma g_arg_stages toks :
  g_arg (tok_type <$> toks) -> first_tail_ok (split_pipe (group toks)) /\ rest_ok toks.
Proof.
  remember (length toks) as n eqn:Hn. assert (length toks <= n) as Hle by lia. clear Hn.
  revert toks Hle. induction n as [|n IH]; intros [|[ty tx] toks] Hle Hg; simpl in Hle; try lia;
    [split; [split; constructor|done]..|].
  rewrite fmap_cons in Hg. simpl in Hg. rewrite not_arg_ops in Hg.
  unfold rest_ok. cbn [group]. destruct (ends_command (mk_token ty tx)) eqn:Ee.
  { split; [split; constructor|]. destruct ty; try done; simpl; eauto with cver. }
  destruct (decide (ty = OP_WORD)) as [->|Hw].
  { destruct (IH toks) as [Hs Hr]; [lia|done|]. split; [|done].
    by apply first_tail_cons; [apply tail_word| |]. }
  destruct (g_tgt_word toks) as (tx' & toks' & -> & Hg'); [destruct ty; naive_solver|].
  destruct (IH toks') as [Hs Hr]; [simpl in Hle; lia|done|]. cbn [group ends_command tok_type].
  split; [|done]. destruct (is_redir ty) eqn:Er; [by apply first_tail_redir|].
  destruct ty; try done. by apply first_tail_pipe.
Qed.

(** *** The splitting loop computes the stages *)
Lemma split_pipe_nonempty l : exists st rest, split_pipe l = st :: rest.
Proof.
  induction l as [|t l (st & rest & IH)]; simpl; [eauto|]. rewrite IH. destruct (is_pipe t); eauto.
Qed.

Lemma split_pipe_length l :
  length (split_pipe l) = S (length (filter (fun t => is_pipe t = true) l)).
Proof.
  induction l as [|t l IH]; [done|]. rewrite filter_cons. cbn [split_pipe].
  destruct (split_pipe_nonempty l) as (st & rest & E). rewrite E in *.
  destruct (is_pipe t); simpl in *; lia.
Qed.

Lemma slice_snoc (l : token_list_t) start i t rest :
  start <= i -> drop i l = t :: rest -> slice l start (S i - start) = slice l start (i - start) ++ [t].
Proof.
  intros Hle Hd. unfold slice. rewrite Nat.sub_succ_l by done. apply take_S_r.
  rewrite lookup_drop. replace (start + (i - start)) with i by lia.
  rewrite <- (Nat.add_0_r i), <- lookup_drop, Hd. done.
Qed.

Lemma stage_loop_split (l : token_list_t) : forall rest i start stages,
  rest = drop i l -> start <= i -> Forall (fun t => ends_command t = false) rest ->
  length stages + length (split_pipe rest) <= MAX_STAGES ->
  exists st others, split_pipe rest = st :: others /\
    let '(start', stages') := stage_loop l rest i start stages in
    stages' ++ [drop start' l] = stages ++ (slice l start (i - start) ++ st) :: others.
Proof.
  induction rest as [|t rest IH]; intros i start stages Hr Hle Hno Hcap.
  { exists [], []. split; [done|]. cbn [stage_loop]. rewrite app_nil_r. do 2 f_equal.
    unfold slice. rewrite take_ge; [done|]. rewrite length_drop.
    apply (f_equal length) in Hr. rewrite length_drop in Hr. simpl in Hr. lia. }
  inversion Hno as [|? ? Ht Hno']; subst.
  assert (rest = drop (S i) l) as Hr'.
  { by rewrite <- Nat.add_1_r, <- drop_drop, <- Hr. }
  cbn [split_pipe stage_loop] in *. rewrite Ht. destruct (is_pipe t).
  - exists [], (split_pipe rest). split; [done|].
    simpl in Hcap. destruct (IH (S i) (S i) (push_stage stages (slice l start (i - start))))
      as (st & others & Hs & Hl); [done|lia|done| |].
    { unfold push_stage. case_match; rewrite ?length_app; simpl; lia. }
    destruct (stage_loop _ _ _ _ _) as [start' stages']. rewrite Hl, Hs. unfold push_stage.
    destruct (Nat.ltb_spec (length stages) MAX_STAGES).
    + rewrite Nat.sub_diag, app_nil_r, <- app_assoc. done.
    + destruct (split_pipe_nonempty rest) as (? & ? & E). rewrite E in Hcap. simpl in Hcap. lia.
  - destruct (split_pipe_nonempty rest) as (st0 & others0 & E). rewrite E in *.
    exists (t :: st0), others0. split; [done|].
    destruct (IH (S i) start stages) as (st & others & Hs & Hl); [done|lia|done|done|].
    simplify_eq. destruct (stage_loop _ _ _ _ _) as [start' stages']. rewrite Hl.
    by rewrite (slice_snoc l start i t (drop (S i) l)), <- app_assoc by done.
Qed.

Lemma split_stages_spec l :
  Forall (fun t => ends_command t = false) l -> Forall stage_ok (split_pipe l) ->
  length (split_pipe l) <= MAX_STAGES -> split_stages l = split_pipe l.
Proof.
  intros Hno Hok Hcap. unfold split_stages.
  destruct (stage_loop_split l l 0 0 []) as (st & others & Hs & Hl); [done|lia|done|simpl; lia|].
  destruct (stage_loop l l 0 0 []) as [start' stages']. simpl in Hl.
  unfold slice in Hl. simpl in Hl. rewrite <- Hs in Hl.
  assert (stage_ok (drop start' l)) as (tl & Htl & _).
  { rewrite Forall_forall in Hok. apply Hok. rewrite <- Hl. set_solver. }
  destruct (l !! start') as [t|] eqn:El.
  - rewrite (proj1 (Forall_lookup _ _) Hno _ _ El). rewrite <- Hl. unfold push_stage.
    apply (f_equal length) in Hl. rewrite length_app in Hl. simpl in Hl.
    destruct (Nat.ltb_spec (length stages') MAX_STAGES); [done|lia].
  - apply lookup_ge_None in El. rewrite drop_ge in Htl by done. done.
Qed.

Lemma group_no_end toks : Forall (fun t => ends_command t = false) (group toks).
Proof.
  induction toks as [|t toks IH]; simpl; [done|]. destruct (ends_command t) eqn:E; auto.
Qed.

Lemma group_id l : Forall (fun t => ends_command t = false) l -> group l = l.
Proof. induction 1 as [|t l Ht _ IH]; simpl; [done|]. by rewrite Ht, IH. Qed.

(** *** Collecting a stage *)
(** What a stage says: words, and files to read from or to write to. *)
Inductive item : Type :=
| I_word (w : cstr)
| I_in (path : cstr)
| I_out (path : cstr) (is_append : bool).

(** [reads st l]: the tokens of the stage say [l]. *)
Inductive reads : token_list_t -> list item -> Prop :=
| reads_nil : reads [] []
| reads_word t st l : tok_type t = OP_WORD -> reads st l -> reads (t :: st) (I_word (word_text t) :: l)
| reads_in t t' st l : tok_type t = OP_LT -> tok_type t' = OP_WORD -> reads st l ->
    reads (t :: t' :: st) (I_in (word_text t') :: l)
| reads_out t t' st l : tok_type t = OP_GT -> tok_type t' = OP_WORD -> reads st l ->
    reads (t :: t' :: st) (I_out (word_text t') false :: l)
| reads_append t t' st l : tok_type t = OP_GTGT -> tok_type t' = OP_WORD -> reads st l ->
    reads (t :: t' :: st) (I_out (word_text t') true :: l).

Definition item_words (l : list item) : list cstr := omap (fun x => match x with I_word w => Some w | _ => None end) l.
Definition item_inputs (l : list item) : list cstr := omap (fun x => match x with I_in p => Some p | _ => None end) l.
Definition item_outputs (l : list item) : list (cstr * bool) :=
  omap (fun x => match x with I_out p a => Some (p, a) | _ => None end) l.

(** What the stage should run with: its first 255 words, its input files, its
    output files with the way they are opened, all in their order. *)
Definition redirs_of (l : list item) : redirs :=
  mk_redirs (take 255 (item_words l)) (item_inputs l) (item_outputs l).

Lemma push_arg_eq r a : length (rd_argv r) <= 255 ->
  push_arg r a = mk_redirs (take 255 (rd_argv r ++ [a])) (rd_inputs r) (rd_outputs r).
Proof.
  intros Hr. unfold push_arg. destruct (Nat.ltb_spec (length (rd_argv r)) 255).
  - rewrite take_ge by (rewrite length_app; simpl; lia). done.
  - assert (length (rd_argv r) = 255) as Hl by lia.
    rewrite <-Hl, take_app_length. by destruct r.
Qed.

Lemma take_take_app {A} n (l k : list A) : take n (take n l ++ k) = take n (l ++ k).
Proof.
  destruct (Nat.le_gt_cases n (length l)).
  - rewrite (take_app_le l) by done. rewrite take_app_le by (rewrite length_take; lia). by rewrite take_take, Nat.min_id.
  - by rewrite (take_ge l) by lia.
Qed.

Lemma gather_reads l items : reads l items -> forall r,
  length (rd_argv r) <= 255 ->
  length (rd_inputs r) + length (item_inputs items) <= REDIR_CAP ->
  length (rd_outputs r) + length (item_outputs items) <= REDIR_CAP ->
  gather l r = Ret (Some (mk_redirs (take 255 (rd_argv r ++ item_words items))
    (rd_inputs r ++ item_inputs items) (rd_outputs r ++ item_outputs items))).
Proof.
  induction 1 as [|t st l Ht _ IH|t t' st l Ht Ht' _ IH|t t' st l Ht Ht' _ IH|t t' st l Ht Ht' _ IH]; intros r Hr Hi Ho;
    cbn [gather]; rewrite ?Ht.
  - simpl. rewrite !app_nil_r, take_ge by done. by destruct r.
  - rewrite push_arg_eq by done. rewrite IH; cbn [rd_argv rd_inputs rd_outputs];
      [|rewrite length_take; lia|done|done]. by rewrite take_take_app, <-(assoc_L app).
  - unfold is_word. rewrite bool_decide_true by done. unfold push_input. simpl in Hi, Ho.
    rewrite (proj2 (Nat.ltb_lt (length (rd_inputs r)) _)) by lia. cbn [obind].
    rewrite IH; cbn [rd_argv rd_inputs rd_outputs]; [|done|rewrite length_app; simpl; lia|done].
    by rewrite <-(assoc_L app).
  - unfold is_word. rewrite bool_decide_true by done. unfold push_output. simpl in Hi, Ho.
    rewrite (proj2 (Nat.ltb_lt (length (rd_outputs r)) _)) by lia. cbn [obind].
    rewrite IH; cbn [rd_argv rd_inputs rd_outputs]; [|done|done|rewrite length_app; simpl; lia].
    by rewrite <-(assoc_L app).
  - unfold is_word. rewrite bool_decide_true by done. unfold push_output. simpl in Hi, Ho.
    rewrite (proj2 (Nat.ltb_lt (length (rd_outputs r)) _)) by lia. cbn [obind].
    rewrite IH; cbn [rd_argv rd_inputs rd_outputs]; [|done|done|rewrite length_app; simpl; lia].
    by rewrite <-(assoc_L app).
Qed.

(** Few enough redirections for the arrays of [execute.c]. *)
Definition items_fit (l : list item) : Prop :=
  length (item_inputs l) <= REDIR_CAP /\ length (item_outputs l) <= REDIR_CAP.

Lemma tail_reads types : tail_ok types -> forall l, tok_type <$> l = types -> exists items, reads l items.
Proof.
  induction 1 as [|types _ IH|ty types Hr _ IH]; intros l Hl.
  - destruct l; [|done]. exists []. constructor.
  - destruct l as [|t l]; [done|]. rewrite fmap_cons in Hl. injection Hl as Ht Hl.
    destruct (IH l Hl) as [items Hi]. eexists. by apply reads_word.
  - destruct l as [|t [|t' l]]; try done. rewrite !fmap_cons in Hl. injection Hl as Ht Ht' Hl.
    destruct (IH l Hl) as [items Hi]. destruct ty; try done; eexists;
      [by apply reads_in|by apply reads_out|by apply reads_append].
Qed.

(** A stage the parser accepts says a program and what goes with it, and that
    is what is collected. *)
Lemma gather_stage st : stage_ok st ->
  exists c items, reads st (I_word c :: items) /\
    (items_fit items -> gather st no_redirs = Ret (Some (redirs_of (I_word c :: items)))).
Proof.
  intros (l & Hl & Htail). destruct st as [|t st]; [done|]. rewrite fmap_cons in Hl. injection Hl as Ht Hl.
  destruct (tail_reads l Htail st Hl) as [items Hi]. exists (word_text t), items.
  assert (reads (t :: st) (I_word (word_text t) :: items)) as Hr by (by apply reads_word).
  split; [done|]. intros [Hin Hout]. by rewrite (gather_reads _ _ Hr) by (simpl; (done || lia)).
Qed.

(** ** From the parser to the executor *)

(** A command that the splitting loop cuts at its pipes (when there are at most
    256 stages) and whose stages, cut there, are each a program name followed
    by words and redirections, which collecting them yields (when there are at
    most 256 inputs and 256 outputs). *)
Record cmd_wf (cmd : token_list_t) : Prop := {
  cmd_num_stages : num_stages cmd = length (split_pipe cmd);
  cmd_split : length (split_pipe cmd) <= MAX_STAGES ->
    split_stages cmd = split_pipe cmd /\ stages_valid cmd (split_stages cmd) = true;
  cmd_stages : Forall (fun st => exists c items, reads st (I_word c :: items) /\
    (items_fit items -> gather st no_redirs = Ret (Some (redirs_of (I_word c :: items))))) (split_pipe cmd)
}.

Lemma stages_ok_wf cmd :
  Forall (fun t => ends_command t = false) cmd -> Forall stage_ok (split_pipe cmd) -> cmd_wf cmd.
Proof.
  intros Hno Hok. assert (num_stages cmd = length (split_pipe cmd)) as Hn.
  { unfold num_stages. by rewrite group_id, split_pipe_length. }
  split; [done| |].
  - intros Hcap. rewrite (split_stages_spec cmd) by done. split; [done|].
    unfold stages_valid. rewrite Hn, Nat.leb_refl. simpl. apply forallb_forall.
    intros st Hst. apply list_elem_of_In in Hst. rewrite Forall_forall in Hok.
    destruct (Hok st Hst) as (l & Hl & _). by destruct st.
  - eapply Forall_impl; [exact Hok|]. apply gather_stage.
Qed.

Lemma g_line_commands fuel : forall toks, g_line (tok_type <$> toks) ->
  Forall (fun p => cmd_wf p.1) (commands_from fuel toks).
Proof.
  induction fuel as [|fuel IH]; intros [|[ty tx] toks] Hg; try constructor.
  rewrite fmap_cons in Hg. inversion Hg as [|l Hg']; subst. cbn [commands_from].
  destruct (g_arg_stages toks) as [Hs Hr]; [done|].
  destruct (next_command _) as [[cmd b] rest] eqn:En. unfold next_command in En.
  cbn [group ends_command tok_type length drop] in En. unfold rest_ok in Hr.
  assert (cmd = mk_token OP_WORD tx :: group toks /\ g_line (tok_type <$> rest)) as [-> Hrest].
  { destruct (drop (length (group toks)) toks) as [|t' rest'];
      injection En as <- <- <-; split; [done|constructor|done|done]. }
  constructor; [|by apply IH]. apply stages_ok_wf; simpl.
  { constructor; [done|apply group_no_end]. }
  destruct (split_pipe (group toks)) as [|st others]; [done|]. destruct Hs as [Ht Ho].
  constructor; [by eexists|done].
Qed.

Lemma split_pipe_single l : length (split_pipe l) = 1 -> split_pipe l = [l].
Proof.
  induction l as [|t l IH]; [done|]. cbn [split_pipe].
  destruct (split_pipe_nonempty l) as (st & rest & E). rewrite E in *.
  destruct (is_pipe t); [done|]. simpl. intros Hl. rewrite (nil_length_inv rest) in IH by lia.
  specialize (IH eq_refl). simplify_eq. by rewrite (nil_length_inv rest) by lia.
Qed.

(** No command contains a token that ends one. *)
Lemma commands_no_end toks : Forall (fun c => Forall (fun t => ends_command t = false) c.1) (commands toks).
Proof.
  unfold commands. generalize (length toks). intros n. revert toks.
  induction n as [|n IH]; intros toks; [constructor|]. cbn [commands_from].
  destruct toks as [|t toks]; [constructor|].
  destruct (next_command (t :: toks)) as [[c b] rest] eqn:En.
  destruct (length c =? 0); [apply IH|]. constructor; [|apply IH].
  unfold next_command in En. simpl fst. assert (c = group (t :: toks)) as -> by (case_match; congruence).
  apply group_no_end.
Qed.

Lemma accepted_commands toks : parse_tokens toks = Ret 1%Z ->
  Forall (fun '(cmd, _) => cmd_wf cmd) (commands toks).
Proof.
  intros Hp. assert (g_line (tok_type <$> toks)) as Hg.
  { destruct (parse_tokens_line toks) as [[_ ?]|[E _]]; [done|]. rewrite E in Hp. done. }
  eapply Forall_impl; [by apply g_line_commands|]. by intros [].
Qed.

(** C15.  What the parser accepts, the executor can run: every command of an
    accepted line, cut at its pipes, consists of stages that are a program name
    followed by words and redirections; the loop that cuts a pipeline yields
    exactly these stages and finds them valid, if there are at most 256; and
    collecting a stage succeeds, if it has at most 256 input and 256 output
    redirections, and yields exactly the words of the stage (the first 255 of
    them), its input files and its output files with truncation for [>] and
    appending for [>>], in their order.  So "invalid syntax" is only reported
    by the parser. *)
Theorem accepted_line_runs (toks : token_list_t) (Hp : parse_tokens toks = Ret 1%Z) :
  Forall (fun '(cmd, _) => cmd_wf cmd) (commands toks).
Proof. by apply accepted_commands. Qed.

Lemma accepted_line_runs_witness :
  let toks := [word_tok (c_str "cat"); mk_token OP_LT None; word_tok (c_str "a"); mk_token OP_PIPE None;
               word_tok (c_str "wc"); mk_token OP_GTGT None; word_tok (c_str "o"); word_tok (c_str "-l");
               mk_token OP_AMP None; word_tok (c_str "ls")] in
  parse_tokens toks = Ret 1%Z /\ length (commands toks) = 2 /\
  Forall (fun '(cmd, _) => cmd_wf cmd) (commands toks).
Proof.
  intros toks. split; [vm_compute; reflexivity|]. split; [vm_compute; reflexivity|].
  apply (accepted_line_runs toks). vm_compute. reflexivity.
Defined.

(** *** The order of the commands *)
Section sequence.
Context {W : Type} `{ProcOS W} `{ExecOS W}.
Variable run_builtin : jstate W -> builtin -> token_list_t -> outcome (jstate W).

(** Commands one after another, up to the first that fails. *)
Fixpoint run_commands (s : jstate W) (cmds : list (token_list_t * bool)) : outcome (jstate W) :=
  match cmds with
  | [] => Ret s
  | (cmd, is_bg) :: cmds =>
      let* '(s, ok) := run_command run_builtin s cmd is_bg in
      if ok then run_commands s cmds else Ret s
  end.

Lemma command_loop_commands fuel : forall s toks, length toks < fuel ->
  command_loop run_builtin fuel s toks = run_commands s (commands_from fuel toks).
Proof.
  induction fuel as [|fuel IH]; intros s toks Hf; [lia|].
  cbn [command_loop commands_from]. destruct toks as [|t toks]; [done|].
  destruct (next_command (t :: toks)) as [[cmd b] rest] eqn:En.
  apply next_command_rest in En; [|done]. destruct (length cmd =? 0); [apply IH; lia|].
  cbn [run_commands]. destruct (run_command _ s cmd b) as [[s' ok]| | | |]; try done.
  cbn [obind]. destruct ok; [apply IH; lia|done].
Qed.

Lemma command_line_commands s toks :
  execute_command_line run_builtin s toks = run_commands s (commands toks).
Proof.
  unfold execute_command_line. rewrite command_loop_commands by lia.
  by rewrite (commands_fuel _ (length toks)) by lia.
Qed.

(** A command line runs its non-empty commands in their order, each in
    the state its predecessor left, and stops behind the first one that
    reports a failure; the loop always ends, and a background command never
    stops the line. *)
Theorem execute_command_line_sequence (s : jstate W) (toks : token_list_t) :
  execute_command_line run_builtin s toks = run_commands s (commands toks) /\
  (forall s1 cmd s2 ok, run_command run_builtin s1 cmd true = Ret (s2, ok) -> ok = true) /\
  (forall cmd is_bg, (cmd, is_bg) ∈ commands toks -> cmd <> []).
Proof.
  split_and!.
  - apply command_line_commands.
  - intros s1 cmd s2 ok. unfold run_command. destruct (jobs_alloc_id s1) as [s' id].
    intros Hr. apply obind_inv in Hr as ([? ?] & _ & ?). by simplify_eq.
  - unfold commands. generalize (length toks). intros n. revert toks.
    induction n as [|n IH]; intros toks cmd b; [set_solver|]. cbn [commands_from].
    destruct toks as [|t toks]; [set_solver|].
    destruct (next_command (t :: toks)) as [[c b'] rest].
    destruct (Nat.eqb_spec (length c) 0); [apply IH|]. rewrite elem_of_cons.
    intros [[= -> ->]|Hin]; [by destruct c|by eapply IH].
Qed.
End sequence.

(** ** Claims about descriptors *)
Section keep.
Context {W : Type} `{FdLaws W}.
Implicit Types s : jstate W.

Lemma fds_bg_builtin s b list id full :
  fds (js_os (bg_builtin s b list id full).1) = fds (js_os s).
Proof.
  unfold bg_builtin. pose proof (fds_pipe (js_os s)) as Hp.
  destruct (os_pipe (js_os s)) as [w1 [[r wr]|]]; simpl in Hp; [|done].
  destruct Hp as (Hne & Hr & Hwr & Hf). set (ops := [C_close wr; _; _; _; _; _]).
  pose proof (fds_fork w1 ops) as Hk. destruct (os_fork w1 ops) as [w2 pid]. simpl in Hk.
  destruct (pid <? 0)%Z; simpl.
  - rewrite !fds_close, Hk, Hf. set_solver.
  - unfold jobs_add. rewrite (proj1 (js_os_add _ _ _ _ _ _)). simpl.
    rewrite fds_close, fds_write1, fds_close, fds_setpgid, Hk, Hf. set_solver.
Qed.

Lemma failed_pipes s (stages : stage_list) (id : Z) (full : option cstr) (w : W) (pipes : list (Z * Z)) :
  make_pipes (js_os s) (length stages - 1) [] = (w, pipes, false) ->
  (forall fd, fd ∈ pipe_ends pipes -> fd ∉ fds (js_os s)) /\
  fds w = list_to_set (pipe_ends pipes) ∪ fds (js_os s) /\
  run_pipeline_fg s stages full = (with_os s w, false) /\
  run_pipeline_bg s stages id full = (with_os s w, false).
Proof.
  intros Hf. pose proof (fds_make_pipes (length stages - 1) (js_os s) [] (fds (js_os s))) as Hm.
  rewrite Hf in Hm. destruct Hm as [Hw Hd]; [set_solver|set_solver|].
  unfold run_pipeline_fg, run_pipeline_bg. by rewrite Hf.
Qed.

(** When one of the pipes between the stages cannot be made, the
    pipeline fails and the pipes made before it stay open: the shell has lost
    their descriptors. *)
Theorem failed_pipe_leaks (s : jstate W) (stages : stage_list) (id : Z) (full : option cstr)
    (w : W) (pipes : list (Z * Z))
    (Hf : make_pipes (js_os s) (length stages - 1) [] = (w, pipes, false)) :
  (forall fd, fd ∈ pipe_ends pipes -> fd ∉ fds (js_os s)) /\
  fds (js_os (run_pipeline_fg s stages full).1) = list_to_set (pipe_ends pipes) ∪ fds (js_os s) /\
  fds (js_os (run_pipeline_bg s stages id full).1) = list_to_set (pipe_ends pipes) ∪ fds (js_os s).
Proof. destruct (failed_pipes s stages id full w pipes Hf) as (? & ? & -> & ->). done. Qed.

Variable run_builtin : jstate W -> builtin -> token_list_t -> outcome (jstate W).

(** The built-in commands that run in the shell's own process. *)
Definition fg_builtin (list : token_list_t) : Prop :=
  num_stages list = 1 /\ stage_builtin list <> None.

(** C17.  Running a command or a pipeline in the foreground or in the
    background, or a built-in in the background (everything but a built-in that
    runs in the shell's own process), whatever fails on the way (a missing
    input, an output that cannot be created, an unknown command, [fork], the
    synchronisation pipe), leaves the shell with exactly the descriptors it
    had; the one exception is a pipe between two stages that cannot be made:
    the shell then keeps the ends of the pipes made before it, and only these. *)
Theorem pipelines_keep_descriptors (s s' : jstate W) (list : token_list_t) (id : Z)
    (full : option cstr) (ok : bool)
    (Hr : (~ fg_builtin list /\ execute_pipeline_fg run_builtin s list full = Ret (s', ok)) \/
          execute_pipeline_bg s list id full = Ret (s', ok)) :
  fds (js_os s') = fds (js_os s) \/
  exists w pipes, make_pipes (js_os s) (length (split_stages list) - 1) [] = (w, pipes, false) /\
    ok = false /\ (forall fd, fd ∈ pipe_ends pipes -> fd ∉ fds (js_os s)) /\
    fds (js_os s') = list_to_set (pipe_ends pipes) ∪ fds (js_os s).
Proof.
  assert ((exists b, stage_builtin list = Some b /\ bg_builtin s b list id full = (s', ok)) \/
    (exists bg n bn, execute_cmd_internal s list bg n bn full = Ret (s', ok)) \/ fds (js_os s') = fds (js_os s) \/
    run_pipeline_fg s (split_stages list) full = (s', ok) \/
    run_pipeline_bg s (split_stages list) id full = (s', ok)) as [(b & _ & E)|[(bg & n & bn & E)|[E|E]]].
  { unfold execute_pipeline_fg, execute_pipeline_bg, fg_builtin in Hr.
    destruct (length list =? 0); [naive_solver|]. destruct (Nat.eqb_spec (num_stages list) 1).
    - destruct (stage_builtin list) as [b|]; [|naive_solver].
      destruct Hr as [[Hn _]|[= Hr]]; [by destruct Hn|left; eauto].
    - destruct (stages_valid list _); naive_solver. }
  - left. pose proof (fds_bg_builtin s b list id full) as Hb. by rewrite E in Hb.
  - left. by eapply fds_execute_cmd.
  - by left.
  - destruct (make_pipes (js_os s) (length (split_stages list) - 1) []) as [[w pipes] made] eqn:Em.
    pose proof (fds_run_pipeline_fg s (split_stages list) full) as Hf.
    pose proof (fds_run_pipeline_bg s (split_stages list) id full) as Hb. rewrite Em in Hf, Hb.
    destruct made; [left; destruct E as [E|E]; rewrite E in *; auto|right]. exists w, pipes.
    destruct (failed_pipes s (split_stages list) id full w pipes Em) as (Hd & Hw & Ef & Eb).
    assert (s' = with_os s w /\ ok = false) as [-> ->] by (destruct E; split; congruence). done.
Qed.

End keep.

(** *** A concrete operating system with descriptors

    The open descriptors, and how many calls of [pipe] still succeed.  A new
    descriptor is the successor of the largest one; every path is an
    executable file, every process exits at once. *)
Record fdworld : Type := mk_fdworld { fw_open : gset nat; fw_pipes : nat }.

Definition next_fd (l : gset nat) : nat := S (max_list (elements l)).

Lemma next_fd_fresh l : next_fd l ∉ l.
Proof.
  unfold next_fd. intros Hin. apply elem_of_elements, max_list_elem_of_le in Hin. lia.
Qed.

#[global] Instance fdworld_proc : ProcOS fdworld := {|
  os_waitpid w pid _ := (w, mk_wait pid 0 0);
  os_kill w _ _ := w;
  os_first_line _ _ _ := FL_noline;
  os_isatty _ := true;
  os_getpgrp _ := 1%Z;
  os_tcsetpgrp w _ := w;
  os_alarm w _ := w;
  os_alarm_fired w := (w, false);
  os_nanosleep w := w;
  os_sigchld w := (w, false)
|}.

#[global] Instance fdworld_exec : ExecOS fdworld := {|
  os_open w _ _ := (mk_fdworld ({[ next_fd (fw_open w) ]} ∪ fw_open w) (fw_pipes w),
                    Z.of_nat (next_fd (fw_open w)));
  os_close w fd :=
    mk_fdworld (if (0 <=? fd)%Z then fw_open w ∖ {[ Z.to_nat fd ]} else fw_open w) (fw_pipes w);
  os_pipe w :=
    match fw_pipes w with
    | O => (w, None)
    | S n =>
        let r := next_fd (fw_open w) in
        let wr := next_fd ({[ r ]} ∪ fw_open w) in
        (mk_fdworld ({[ r; wr ]} ∪ fw_open w) n, Some (Z.of_nat r, Z.of_nat wr))
    end;
  os_fork w _ := (w, 100%Z);
  os_setpgid w _ _ := w;
  os_write1 w _ := w;
  os_access_x _ _ := true;
  os_isdir _ _ := Some false;
  os_getcwd _ := Some (c_str "/home");
  os_getenv_path _ := Some (c_str "/bin:/usr/bin")
|}.

#[global] Program Instance fdworld_laws : FdLaws fdworld := {|
  fds w := set_map Z.of_nat (fw_open w)
|}.
Next Obligation.
  intros w p m. right. simpl. pose proof (next_fd_fresh (fw_open w)).
  split_and!; [lia| |set_solver]. rewrite elem_of_map. intros (n & ? & ?). naive_solver lia.
Qed.
Next Obligation.
  intros w fd. simpl. apply set_eq. intros z. rewrite elem_of_difference, !elem_of_map.
  destruct (Z.leb_spec 0 fd); set_unfold; naive_solver lia.
Qed.
Next Obligation.
  intros w. simpl. destruct (fw_pipes w) as [|n]; simpl; [done|].
  set (r := next_fd (fw_open w)). pose proof (next_fd_fresh (fw_open w)) as Hr. fold r in Hr.
  pose proof (next_fd_fresh ({[ r ]} ∪ fw_open w)) as Hw. set (wr := next_fd _) in *.
  split_and!; [intros Heq%Nat2Z.inj; apply Hw; rewrite <- Heq; set_solver| | |set_solver]; rewrite elem_of_map;
    intros (k & Hk & ?); apply Nat2Z.inj in Hk; set_solver.
Qed.
Solve Obligations with done.

Definition two_stages : token_list_t :=
  [word_tok (c_str "cat"); mk_token OP_LT None; word_tok (c_str "f"); mk_token OP_PIPE None;
   word_tok (c_str "wc"); mk_token OP_GT None; word_tok (c_str "o")].

Definition builtin_nop (s : jstate fdworld) (b : builtin) (l : token_list_t) : outcome (jstate fdworld) :=
  Ret s.

Lemma pipelines_keep_descriptors_witness :
  let s := js_init (mk_fdworld {[ 0; 1; 2 ]} 3) in
  match execute_pipeline_fg builtin_nop s two_stages None with
  | Ret (s', _) => fds (js_os s') = fds (js_os s)
  | _ => False
  end.
Proof.
  intros s. destruct (execute_pipeline_fg builtin_nop s two_stages None) as [[s' ok]| | | |] eqn:E;
    [|by vm_compute in E..].
  destruct (pipelines_keep_descriptors builtin_nop s s' two_stages 0 None ok) as [H|(w & pipes & H & _)].
  - left. split; [|exact E]. intros [H _]. vm_compute in H. discriminate H.
  - exact H.
  - vm_compute in H. discriminate H.
Defined.

Lemma failed_pipe_leaks_witness :
  let s := js_init (mk_fdworld {[ 0; 1; 2 ]} 1) in
  let stages := [[word_tok (c_str "a")]; [word_tok (c_str "b")]; [word_tok (c_str "c")]] in
  3%Z ∈ fds (js_os (run_pipeline_fg s stages None).1) /\ (3%Z ∉ fds (js_os s)).
Proof.
  intros s stages.
  destruct (make_pipes (js_os s) (length stages - 1) []) as [[w pipes] ok] eqn:E.
  assert (ok = false) as -> by (vm_compute in E; congruence).
  assert (3%Z ∈ pipe_ends pipes) as H3.
  { assert (pipes = [(3, 4)]%Z) as -> by (vm_compute in E; congruence). set_solver. }
  destruct (failed_pipe_leaks s stages 0 None w pipes E) as (Hn & -> & _).
  split; [set_solver|by apply Hn].
Defined.

(** *** The arrays of redirections *)
Definition many_inputs (n : nat) : token_list_t :=
  word_tok (c_str "a") :: mjoin (replicate n [op_tok OP_LT; word_tok (c_str "b")]).

(** The arrays of redirections have 256 entries and no bound is checked:
    a line of 772 characters (shorter than the 1024 the shell reads) with 257
    input redirections is lexed and accepted, and running it, alone or as a
    stage of a pipeline, stores outside [input_files]. *)
Theorem redirections_overflow {W : Type} `{ProcOS W} `{ExecOS W} (s : jstate W) (is_bg : bool) (id : Z)
    (name : cstr) (full : option cstr) :
  let line := c_str "a" ++ mjoin (replicate 257 (c_str " <b")) in
  let toks := many_inputs 257 in
  length line = 772 /\ lex_line (fun _ => true) line = Ret (Some toks) /\
  parse_tokens toks = Ret 1%Z /\
  execute_cmd_internal s toks is_bg id name full = Undef /\
  execute_stage_child (js_os s) toks = Undef.
Proof.
  intros line toks. split_and!; [vm_compute; reflexivity..| |].
  - unfold execute_cmd_internal.
    assert (gather (group toks) no_redirs = Undef) as -> by (vm_compute; reflexivity). done.
  - unfold execute_stage_child.
    assert (gather toks no_redirs = Undef) as -> by (vm_compute; reflexivity).
    assert (stage_builtin toks = None) as -> by (vm_compute; reflexivity). done.
Qed.
