(* ===== verification/Builtins.v ===== *)
(** * The commands [resume], [ping] and [locate] (c-shell/src/resume.c, ping.c, locate.c)

    The three commands read the tokens of the whole command, so a redirection
    operator among them appears as a token without a text; dereferencing such
    a text is undefined behaviour.  [resume] and [ping] act on the job table
    of [Jobs]; [locate] walks the search path of [Exec]. *)

From S2P Require Import Prelude.
From S2P Require Import Lexer.
From S2P Require Import Jobs.
From S2P Require Import Exec.

(** The pointer [list->tokens[i].text] of a token that exists; reading a token
    behind the end is undefined. *)
Definition text_at (toks : token_list_t) (i : nat) : outcome (option cstr) :=
  from_option (tok_text <$> toks !! i).

(** A string handed to a function that dereferences it. *)
Definition deref (t : option cstr) : outcome cstr := from_option t.

Definition is_all_digits (str : option cstr) : bool :=
  match str with
  | Some (c :: s) => forallb isdigit (c :: s)
  | _ => false
  end.

(** [target + 1] and [target[0]] *)
Definition starts_percent (t : cstr) : bool :=
  match t with c :: _ => bool_decide (c = "%"%char) | [] => false end.

Section commands.
Context {W : Type} `{ProcOS W} `{ExecOS W}.
Implicit Types s : jstate W.

(** ** [resume] *)
Definition resume_invalid s : jstate W := printf s (c_str "resume: invalid syntax").

Definition resume_fg_args s (fuel : nat) (job_id : Z) (toks : token_list_t) : outcome (jstate W) :=
  if length toks =? 3 then let* '(s, _) := jobs_resume_fg fuel s job_id 0 in Ret s
  else if length toks =? 5 then
    let* flag := text_at toks 3 in
    let* flag := deref flag in
    if negb (streq flag (c_str "--timeout")) then Ret (resume_invalid s)
    else
      let* to_str := text_at toks 4 in
      if negb (is_all_digits to_str) then Ret (resume_invalid s)
      else
        let* to_str := deref to_str in
        let timeout := atoi to_str in
        if (timeout <=? 0)%Z then Ret (resume_invalid s)
        else let* '(s, _) := jobs_resume_fg fuel s job_id timeout in Ret s
  else Ret (resume_invalid s).

Definition resume_cmd (fuel : nat) s (toks : token_list_t) : outcome (jstate W) :=
  if length toks <? 3 then Ret (resume_invalid s)
  else
    let* target := text_at toks 1 in
    match target with
    | Some (c :: digits) =>
        if negb (bool_decide (c = "%"%char)) || negb (is_all_digits (Some digits))
        then Ret (resume_invalid s)
        else
          let job_id := atoi digits in
          let* mode := text_at toks 2 in
          match mode with
          | None => Ret (resume_invalid s)
          | Some mode =>
              if streq mode (c_str "bg") then
                if negb (length toks =? 3) then Ret (resume_invalid s)
                else Ret (fst (jobs_resume_bg s job_id))
              else if streq mode (c_str "fg") then resume_fg_args s fuel job_id toks
              else Ret (resume_invalid s)
          end
    | _ => Ret (resume_invalid s)
    end.

(** ** [ping] *)
Definition ping_invalid s : jstate W := printf s (c_str "ping: invalid syntax").

Definition is_non_negative_integer (str : option cstr) : bool := is_all_digits str.

(** The end of both branches. *)
Definition ping_report (r : jstate W * bool) (raw_sig : Z) (target : cstr) : jstate W :=
  let '(s, found) := r in
  if found
  then printf s (c_str "Sent signal " ++ fmt_d raw_sig ++ c_str " to " ++ target)
  else printf s (c_str "ping: no such process found").

Definition ping_cmd s (toks : token_list_t) : outcome (jstate W) :=
  if negb (length toks =? 3) then Ret (ping_invalid s)
  else
    let* target := text_at toks 1 in
    let* sig_str := text_at toks 2 in
    if negb (is_non_negative_integer sig_str) then Ret (ping_invalid s)
    else
      let* sig_str := deref sig_str in
      let raw_sig := atoi sig_str in
      let actual_sig := Z.rem raw_sig 64 in
      let* target := deref target in
      if starts_percent target then
        if negb (is_non_negative_integer (Some (tail target))) then Ret (ping_invalid s)
        else Ret (ping_report (jobs_send_signal_to_job s (atoi (tail target)) actual_sig) raw_sig target)
      else
        if negb (is_non_negative_integer (Some target)) then Ret (ping_invalid s)
        else Ret (ping_report (jobs_send_signal_to_pid s (atoi target) actual_sig) raw_sig target).

(** ** [locate] *)
Definition locate_is_executable (w : W) (filepath : cstr) : bool :=
  os_access_x w filepath &&
  match os_isdir w filepath with
  | None => false
  | Some d => negb d
  end.

(** The file looked at for one field of PATH; [cwd] has no value when
    [getcwd] failed. *)
Definition locate_candidate (cwd : option cstr) (dir cmd : cstr) : outcome cstr :=
  match dir with
  | [] => let* cwd := deref cwd in Ret (join_path cwd cmd)
  | c :: _ =>
      if decide (c = "/"%char) then Ret (join_path dir cmd)
      else let* cwd := deref cwd in
           Ret (take (PATH_MAX + 512 - 1) (cwd ++ "/"%char :: dir ++ "/"%char :: cmd))
  end.

(** The loop over the fields, which prints every match. *)
Fixpoint locate_dirs s (cwd : option cstr) (dirs : list cstr) (cmd : cstr) (matches : nat)
    : outcome (jstate W * nat) :=
  match dirs with
  | [] => Ret (s, matches)
  | dir :: dirs =>
      let* candidate := locate_candidate cwd dir cmd in
      if locate_is_executable (js_os s) candidate
      then locate_dirs (printf s candidate) cwd dirs cmd (S matches)
      else locate_dirs s cwd dirs cmd matches
  end.

Definition locate_single s (cmd : cstr) : outcome (jstate W) :=
  let cwd := os_getcwd (js_os s) in
  let '(s, matches) :=
    match cwd with
    | Some d =>
        let cwd_candidate := join_path d cmd in
        if locate_is_executable (js_os s) cwd_candidate then (printf s cwd_candidate, 1) else (s, 0)
    | None => (s, 0)
    end in
  let* '(s, matches) :=
    match os_getenv_path (js_os s) with
    | Some env_path =>
        if 0 <? length env_path then locate_dirs s cwd (strtok_colon env_path) cmd matches
        else Ret (s, matches)
    | None => Ret (s, matches)
    end in
  Ret (if matches =? 0 then printf s (c_str "locate: command not found (" ++ cmd ++ c_str ")") else s).

Fixpoint locate_words s (toks : token_list_t) : outcome (jstate W) :=
  match toks with
  | [] => Ret s
  | t :: toks =>
      if is_word t then
        let* cmd := deref (tok_text t) in
        let* s := locate_single s cmd in locate_words s toks
      else locate_words s toks
  end.

Definition locate s (toks : token_list_t) : outcome (jstate W) :=
  if length (filter (fun t => is_word t = true) (tail toks)) =? 0
  then Ret (printf s (c_str "locate: invalid syntax"))
  else locate_words s (tail toks).

End commands.

(** ** Proofs: [locate] *)
Section locate_proofs.
Context {W : Type} `{ProcOS W} `{ExecOS W}.
Implicit Types s : jstate W.

Definition prints s (lines : list cstr) : jstate W :=
  mk_js (js_jobs s) (js_next s) (js_fg s) (js_out s ++ lines) (js_os s).

Lemma prints_nil s : prints s [] = s.
Proof. unfold prints. rewrite app_nil_r. by destruct s. Qed.

Lemma prints_prints s l1 l2 : prints (prints s l1) l2 = prints s (l1 ++ l2).
Proof. unfold prints. simpl. by rewrite app_assoc. Qed.

Lemma printf_prints s l : printf s l = prints s [l].
Proof. done. Qed.

(** The executables among some places. *)
Definition executables (w : W) (l : list cstr) : list cstr :=
  filter (fun p => execute_is_executable w p = true) l.

Lemma executables_cons w p l :
  executables w (p :: l) = (if execute_is_executable w p then [p] else []) ++ executables w l.
Proof.
  unfold executables. rewrite filter_cons. destruct (execute_is_executable w p).
  - by rewrite decide_True.
  - by rewrite decide_False.
Qed.

Lemma first_executable_head w l : first_executable w l = head (executables w l).
Proof.
  induction l as [|p l IH]; [done|]. rewrite first_executable_cons, executables_cons.
  by destruct (execute_is_executable w p).
Qed.

Definition absolute (dir : cstr) : Prop := head dir = Some "/"%char.

Lemma locate_dirs_eq cwd dirs cmd : Forall absolute dirs ->
  forall s n, locate_dirs s cwd dirs cmd n =
    let ms := executables (js_os s) ((fun dir => join_path dir cmd) <$> dirs) in
    Ret (prints s ms, n + length ms).
Proof.
  induction 1 as [|d dirs Hd Hds IH]; intros s n.
  { simpl. by rewrite prints_nil, Nat.add_0_r. }
  destruct d as [|c d]; [done|]. cbv [absolute head] in Hd. simplify_eq.
  rewrite fmap_cons, executables_cons. cbn [locate_dirs locate_candidate]. rewrite decide_True by done.
  rewrite obind_ret. change (locate_is_executable ?w ?p) with (execute_is_executable w p).
  set (p := join_path _ _). destruct (execute_is_executable (js_os s) p); rewrite IH; [|done].
  cbv zeta. rewrite printf_prints, prints_prints. simpl js_os. simpl length. by rewrite Nat.add_succ_r.
Qed.

Lemma search_order_plain w cwd cmd :
  os_getcwd w = Some cwd -> "/"%char ∉ cmd ->
  search_order w false cmd = join_path cwd cmd ::
    ((fun dir => join_path dir cmd) <$> strtok_colon (default [] (os_getenv_path w))).
Proof.
  intros Hc Hs. unfold search_order. rewrite Hc, bool_decide_eq_false_2 by done. simpl.
  by destruct (os_getenv_path w).
Qed.

Definition not_found (cmd : cstr) : cstr := c_str "locate: command not found (" ++ cmd ++ c_str ")".

Lemma locate_single_eq s cwd cmd :
  os_getcwd (js_os s) = Some cwd ->
  Forall absolute (strtok_colon (default [] (os_getenv_path (js_os s)))) ->
  locate_single s cmd =
    let ms := executables (js_os s) (join_path cwd cmd ::
      ((fun dir => join_path dir cmd) <$> strtok_colon (default [] (os_getenv_path (js_os s))))) in
    Ret (prints s (match ms with [] => [not_found cmd] | _ => ms end)).
Proof.
  intros Hc Ha. unfold locate_single. rewrite Hc. cbv zeta. rewrite executables_cons.
  change (locate_is_executable ?w ?p) with (execute_is_executable w p).
  set (p := join_path cwd cmd).
  set (r := if execute_is_executable (js_os s) p then _ else _).
  assert (r = let ms := if execute_is_executable (js_os s) p then [p] else [] in
              (prints s ms, length ms)) as ->.
  { unfold r. destruct (execute_is_executable _ _); simpl; [done|by rewrite prints_nil]. }
  set (ms := if execute_is_executable _ _ then _ else _). cbv zeta. simpl js_os.
  set (fs := strtok_colon _) in *.
  assert (forall s' n, js_os s' = js_os s ->
    match os_getenv_path (js_os s) with
    | Some env_path =>
        if 0 <? length env_path then locate_dirs s' (Some cwd) (strtok_colon env_path) cmd n
        else Ret (s', n)
    | None => Ret (s', n)
    end = locate_dirs s' (Some cwd) fs cmd n) as Hd.
  { intros s' n _. unfold fs. by destruct (os_getenv_path (js_os s)) as [[|c env]|]. }
  cbv beta iota. change (js_os (prints s ms)) with (js_os s).
  rewrite Hd by done. rewrite locate_dirs_eq by done. cbv zeta. rewrite obind_ret.
  rewrite prints_prints. simpl js_os. set (ms' := executables _ _).
  rewrite <-length_app. destruct (ms ++ ms') as [|m l] eqn:E; [|done].
  simpl Nat.eqb. cbv iota. rewrite printf_prints, prints_prints. done.
Qed.

Lemma is_all_digits_fmt z : (0 <= z)%Z -> is_all_digits (Some (fmt_d z)) = true.
Proof.
  intros Hz. destruct (fmt_d_digits z Hz) as (Hd & _ & Hne). unfold is_all_digits.
  by destruct (fmt_d z).
Qed.

Lemma atoi_fmt z : (0 <= z <= INT_MAX)%Z -> atoi (fmt_d z) = z.
Proof.
  intros Hz. destruct (fmt_d_digits z) as (Hd & Hv & _); [lia|].
  unfold atoi. rewrite digit_prefix_all, Hv by done.
  rewrite Z.min_r by (unfold INT_MAX, LONG_MAX in *; lia). apply wrap32_small. unfold INT_MAX in *. lia.
Qed.

Lemma fmt_d_percent z : (0 <= z)%Z -> starts_percent (fmt_d z) = false.
Proof.
  intros Hz. destruct (fmt_d_digits z Hz) as (Hd & _ & _). destruct (fmt_d z) as [|c l]; [done|].
  simpl in *. apply bool_decide_eq_false_2. intros ->. done.
Qed.

(** [locate] lists what the shell would run: for a name without a slash,
    with an absolute search path, it prints exactly the executables of the
    shell's search order, in that order, and the first line is the program
    that the shell runs for the name; it prints "command not found" exactly
    when the shell would say so.  It changes nothing else. *)
Theorem locate_first_is_run s (cwd cmd : cstr)
    (Hcwd : os_getcwd (js_os s) = Some cwd)
    (Habs : Forall absolute (strtok_colon (default [] (os_getenv_path (js_os s)))))
    (Hname : "/"%char ∉ cmd) :
  let ms := executables (js_os s) (search_order (js_os s) false cmd) in
  locate_single s cmd = Ret (prints s (match ms with [] => [not_found cmd] | _ => ms end)) /\
  resolve_command (js_os s) false cmd = head ms.
Proof.
  intros ms. split.
  - unfold ms. rewrite (search_order_plain _ cwd) by done. by apply locate_single_eq.
  - by rewrite resolve_command_eq, first_executable_head.
Qed.

(** [ping] and [resume] read the numbers they are given: for a job number
    and a signal number written in decimal, [ping %job n] sends signal
    [n mod 64] to the process group of the job (and reports the number as
    given), [ping pid n] sends it to the process when some job has it, and
    [resume %job fg --timeout t] resumes that job with that timeout, for every
    positive [t]. *)
Theorem job_commands_read_numbers s (fuel : nat) (c : token_t) (id n t : Z)
    (Hid : (0 <= id <= INT_MAX)%Z) (Hn : (0 <= n <= INT_MAX)%Z) (Ht : (0 < t <= INT_MAX)%Z) :
  let job := "%"%char :: fmt_d id in
  ping_cmd s [c; word_tok job; word_tok (fmt_d n)] =
    Ret (ping_report (jobs_send_signal_to_job s id (n `mod` 64)) n job) /\
  ping_cmd s [c; word_tok (fmt_d id); word_tok (fmt_d n)] =
    Ret (ping_report (jobs_send_signal_to_pid s id (n `mod` 64)) n (fmt_d id)) /\
  resume_cmd fuel s [c; word_tok job; word_tok (c_str "bg")] = Ret (jobs_resume_bg s id).1 /\
  resume_cmd fuel s [c; word_tok job; word_tok (c_str "fg"); word_tok (c_str "--timeout"); word_tok (fmt_d t)] =
    (let* '(s, _) := jobs_resume_fg fuel s id t in Ret s).
Proof.
  intros job. assert (Z.rem n 64 = n `mod` 64)%Z as Hrem by (apply Z.rem_mod_nonneg; lia).
  pose proof (is_all_digits_fmt id ltac:(lia)) as Di. pose proof (is_all_digits_fmt n ltac:(lia)) as Dn.
  pose proof (is_all_digits_fmt t ltac:(lia)) as Dt. pose proof (fmt_d_percent id ltac:(lia)) as Pi.
  pose proof (atoi_fmt id ltac:(lia)) as Ai. pose proof (atoi_fmt n ltac:(lia)) as An.
  pose proof (atoi_fmt t ltac:(lia)) as At.
  unfold ping_cmd, resume_cmd, resume_fg_args, is_non_negative_integer, text_at, job.
  split_and!; simpl lookup; simpl length; cbn -[fmt_d is_all_digits atoi starts_percent Z.rem];
    rewrite ?Dn, ?Di, ?Dt, ?Pi; cbn -[fmt_d is_all_digits atoi starts_percent Z.rem];
    rewrite ?Di, ?An, ?Ai, ?At, ?Hrem; try done.
  destruct (Z.leb_spec t 0); [lia|]. done.
Qed.

End locate_proofs.

(** Witnesses in a world whose programs are all found in [/home], [/bin] and
    [/usr/bin]. *)
Lemma locate_first_is_run_witness :
  let s := js_init (mk_fdworld ∅ 0) in
  let ms := executables (js_os s) (search_order (js_os s) false (c_str "ls")) in
  locate_single s (c_str "ls") =
    Ret (prints s (match ms with [] => [not_found (c_str "ls")] | _ => ms end)) /\
  resolve_command (js_os s) false (c_str "ls") = head ms.
Proof.
  apply (locate_first_is_run (js_init (mk_fdworld ∅ 0)) (c_str "/home")).
  - reflexivity.
  - repeat constructor.
  - vm_compute. set_solver.
Defined.

Lemma job_commands_read_numbers_witness :
  let s := js_init (W := tape) [] in
  ping_cmd s [word_tok (c_str "ping"); word_tok ("%"%char :: fmt_d 1); word_tok (fmt_d 73)] =
    Ret (ping_report (jobs_send_signal_to_job s 1 (73 `mod` 64)) 73 ("%"%char :: fmt_d 1)).
Proof.
  intros s.
  assert (0 <= 1 <= INT_MAX /\ 0 <= 73 <= INT_MAX /\ 0 < 5 <= INT_MAX)%Z as (H1 & H2 & H3)
    by (unfold INT_MAX; lia).
  exact (proj1 (job_commands_read_numbers s 0 (word_tok (c_str "ping")) 1 73 5 H1 H2 H3)).
Defined.
