(* ===== verification/Reveal.v ===== *)
(** * The command [reveal] (c-shell/src/reveal.c)

    [reveal] prints the names of a directory, or with [-t] the whole tree below
    it.  The directory tree is reached through the class [RevealOS] ([opendir]
    with its [readdir]s, [realpath], the variable OLDPWD) and through [stat]
    and [getcwd] of [Exec].  The specification describes what lies on the disk
    as a tree whose entries are in the order of their names, while [readdir]
    may return them in any order. *)

From S2P Require Import Prelude.
From S2P Require Import Lexer.
From S2P Require Import Jobs.
From S2P Require Import Exec.
From S2P Require Import Builtins.

Class RevealOS (W : Type) := {
  (** [opendir] and the names that [readdir] returns until NULL *)
  rv_readdir : W -> cstr -> option (list cstr);
  rv_realpath : W -> cstr -> option cstr;
  rv_oldpwd : W -> option cstr
}.

(** [strcmp] on the pointed-to names. *)
Definition cmp_names (a b : cstr) : Z := strcmp a b.

(** [snprintf(buf, PATH_MAX, "%s", path)] *)
Definition path_buf (path : cstr) : cstr := take (PATH_MAX - 1) path.

Definition reveal_init (home_dir : cstr) : cstr := strncpy_buf PATH_MAX home_dir.

Section reveal.
Context {W : Type} `{ProcOS W} `{ExecOS W} `{RevealOS W}.

(** [stat(path, &st) == 0 && S_ISDIR(st.st_mode)] *)
Definition is_directory (w : W) (path : cstr) : bool :=
  match os_isdir w path with Some d => d | None => false end.

Definition resolve_target (w : W) (home : cstr) (arg : option cstr) : option cstr :=
  match arg with
  | None => os_getcwd w
  | Some arg =>
      if streq arg (c_str ".") then os_getcwd w
      else if streq arg (c_str "~") then Some (path_buf home)
      else if streq arg (c_str "..") then
        match os_getcwd w with
        | None => None
        | Some cwd =>
            match rv_realpath w (take (PATH_MAX + 4 - 1) (cwd ++ c_str "/..")) with
            | None => None
            | Some rp => Some (path_buf rp)
            end
        end
      else if streq arg (c_str "-") then
        match rv_oldpwd w with
        | None => None
        | Some old => Some (path_buf old)
        end
      else
        match rv_realpath w arg with
        | None => None
        | Some rp => if is_directory w rp then Some (path_buf rp) else None
        end
  end.

(** The names kept by the loop over [readdir]. *)
Definition keep_name (flag_a : bool) (name : cstr) : bool :=
  if streq name (c_str ".") || streq name (c_str "..") then false
  else flag_a || negb (bool_decide (head name = Some "."%char)).

(** [snprintf(full, PATH_MAX, "%s/%s", dir_path, name)] *)
Definition full_path (dir_path name : cstr) : cstr := path_buf (dir_path ++ "/"%char :: name).

(** The loop over the sorted names; [rec] lists a subdirectory. *)
Fixpoint reveal_names (w : W) (rec : cstr -> cstr -> outcome (list cstr)) (dir_path prefix : cstr)
    (flag_t : bool) (names : list cstr) : outcome (list cstr) :=
  match names with
  | [] => Ret []
  | name :: names =>
      let full := full_path dir_path name in
      let is_dir := is_directory w full in
      let* lines :=
        if flag_t : bool then
          if is_dir then
            let* sub := rec full (path_buf (prefix ++ name ++ c_str "/")) in
            Ret ((prefix ++ name ++ c_str "/") :: sub)
          else Ret [prefix ++ name]
        else Ret [name] in
      let* rest := reveal_names w rec dir_path prefix flag_t names in
      Ret (lines ++ rest)
  end.

Fixpoint reveal_list_dir (fuel : nat) (w : W) (dir_path prefix : cstr) (flag_a flag_t : bool)
    : outcome (list cstr) :=
  match fuel with
  | O => NoFuel
  | S fuel =>
      match rv_readdir w dir_path with
      | None => Ret []
      | Some entries =>
          let names := qsort cmp_names (filter (fun n => keep_name flag_a n = true) entries) in
          reveal_names w (fun full new_prefix => reveal_list_dir fuel w full new_prefix flag_a flag_t)
            dir_path prefix flag_t names
      end
  end.

(** The letters of a flag argument. *)
Fixpoint reveal_letters (arg : cstr) (flag_a flag_t : bool) : option (bool * bool) :=
  match arg with
  | [] => Some (flag_a, flag_t)
  | c :: arg =>
      if decide (c = "a"%char) then reveal_letters arg true flag_t
      else if decide (c = "t"%char) then reveal_letters arg flag_a true
      else None
  end.

(** [arg[0] == '-' && arg[1] != '\0'] *)
Definition is_flag (arg : cstr) : bool :=
  match arg with c :: _ :: _ => bool_decide (c = "-"%char) | _ => false end.

(** The loop over the arguments; [None] for "invalid syntax". *)
Fixpoint reveal_args (toks : token_list_t) (flag_a flag_t : bool) (target : option cstr)
    : option (bool * bool * option cstr) :=
  match toks with
  | [] => Some (flag_a, flag_t, target)
  | t :: toks =>
      if negb (is_word t) then reveal_args toks flag_a flag_t target
      else
        let arg := word_text t in
        if is_flag arg then
          match reveal_letters (tail arg) flag_a flag_t with
          | Some (flag_a, flag_t) => reveal_args toks flag_a flag_t target
          | None => None
          end
        else match target with
             | Some _ => None
             | None => reveal_args toks flag_a flag_t (Some arg)
             end
  end.

Definition reveal (fuel : nat) (home : cstr) (s : jstate W) (toks : token_list_t) : outcome (jstate W) :=
  match reveal_args (tail toks) false false None with
  | None => Ret (printf s (c_str "reveal: invalid syntax"))
  | Some (flag_a, flag_t, target) =>
      match resolve_target (js_os s) home target with
      | None => Ret (printf s (c_str "reveal: no such directory"))
      | Some resolved =>
          if negb (is_directory (js_os s) resolved) then Ret (printf s (c_str "reveal: no such directory"))
          else
            let* lines := reveal_list_dir fuel (js_os s) resolved [] flag_a flag_t in
            Ret (prints s lines)
      end
  end.

End reveal.

(** ** What lies on the disk *)
#[warnings="-register-all"] Inductive node : Type := File | Dir (entries : list (cstr * node)).

Definition is_dir_node (n : node) : bool := match n with Dir _ => true | File => false end.

Fixpoint depth (n : node) : nat :=
  match n with
  | File => 0
  | Dir es => S (foldr (fun e m => Nat.max (depth e.2) m) 0 es)
  end.

(** A name that starts with a dot is hidden, unless all names are asked for. *)
Definition hidden (name : cstr) : bool :=
  match name with "."%char :: _ => true | _ => false end.

Definition visible (all : bool) (name : cstr) : bool := all || negb (hidden name).

(** The lines of the tree: every visible entry once, in the order of the
    names, a directory with a trailing slash and followed by what is in it. *)
Fixpoint tree_lines (all : bool) (prefix : cstr) (n : node) : list cstr :=
  match n with
  | File => []
  | Dir es =>
      foldr (fun e rest =>
        if visible all e.1 then
          (prefix ++ e.1 ++ (if is_dir_node e.2 then c_str "/" else [])) ::
          tree_lines all (prefix ++ e.1 ++ c_str "/") e.2 ++ rest
        else rest) [] es
  end.

(** What [reveal] should print for a directory. *)
Definition listing (all tree : bool) (es : list (cstr * node)) : list cstr :=
  if tree then tree_lines all [] (Dir es)
  else filter (fun n => visible all n = true) es.*1.

(** A flag word: a dash and some of the letters [a] and [t].  A word that names
    a target does not start with a dash, or is the dash alone. *)
Definition flag_word (w : cstr) : Prop :=
  exists letters, w = "-"%char :: letters /\ letters <> [] /\
    Forall (fun c => c = "a"%char \/ c = "t"%char) letters.

Definition target_word (w : cstr) : Prop := w = ["-"%char] \/ head w <> Some "-"%char.

(** A letter is given in one of the flag words. *)
Definition flag_given (c : ascii) (flags : list cstr) : bool := bool_decide (c ∈ mjoin flags).

(** The words among the arguments. *)
Definition arg_words (toks : token_list_t) : list cstr :=
  word_text <$> filter (fun t => is_word t = true) (tail toks).

Section tree.
Context {W : Type} `{ProcOS W} `{ExecOS W} `{RevealOS W}.

(** [n] is what lies at the path: the names are those of [readdir] in some
    order and with the two standard entries (which no other entry is called), all paths fit PATH_MAX, and the
    parts lie below. *)
Fixpoint on_disk (w : W) (path : cstr) (n : node) : Prop :=
  match n with
  | File => is_directory w path = false
  | Dir es =>
      is_directory w path = true /\
      (exists names, rv_readdir w path = Some names /\ names ≡ₚ c_str "." :: c_str ".." :: es.*1) /\
      StronglySorted (fun a b => strcmp a b <= 0)%Z es.*1 /\
      Forall (fun n => n <> c_str "." /\ n <> c_str "..") es.*1 /\
      foldr (fun e P => length (path ++ "/"%char :: e.1) < PATH_MAX /\
                        on_disk w (path ++ "/"%char :: e.1) e.2 /\ P) True es
  end.

Definition entries_on_disk (w : W) (path : cstr) (es : list (cstr * node)) : Prop :=
  foldr (fun e P => length (path ++ "/"%char :: e.1) < PATH_MAX /\
                    on_disk w (path ++ "/"%char :: e.1) e.2 /\ P) True es.

Lemma on_disk_dir w path n : on_disk w path n -> is_directory w path = is_dir_node n.
Proof. destruct n; simpl; [done|]. by intros (? & _). Qed.

Lemma path_buf_fits p : length p < PATH_MAX -> path_buf p = p.
Proof. intros Hp. apply take_ge. lia. Qed.

(** *** The arguments *)
Lemma reveal_letters_spec letters : forall fa ft,
  Forall (fun c => c = "a"%char \/ c = "t"%char) letters ->
  reveal_letters letters fa ft =
  Some (fa || bool_decide ("a"%char ∈ letters), ft || bool_decide ("t"%char ∈ letters)).
Proof.
  induction letters as [|c letters IH]; intros fa ft Hl; simpl; [by rewrite !orb_false_r|].
  assert (forall x : ascii, bool_decide (x ∈ c :: letters) = bool_decide (x = c) || bool_decide (x ∈ letters)) as Hc.
  { intros x. rewrite <-bool_decide_or. apply bool_decide_ext, elem_of_cons. }
  rewrite !Hc. apply Forall_cons in Hl as [[->| ->] Hl]; simpl; rewrite (IH _ _ Hl); simpl;
    by rewrite ?orb_true_r.
Qed.

Lemma flag_word_is_flag w : flag_word w -> is_flag w = true.
Proof. intros (letters & -> & Hne & _). by destruct letters. Qed.

Lemma target_word_not_flag w : target_word w -> is_flag w = false.
Proof.
  intros [->|Hh]; [done|]. destruct w as [|c [|c' w]]; try done. simpl.
  case_bool_decide; [subst; by destruct Hh|done].
Qed.

Lemma flag_given_cons c letters flags : c <> "-"%char ->
  flag_given c (("-"%char :: letters) :: flags) = bool_decide (c ∈ letters) || flag_given c flags.
Proof.
  intros Hc. unfold flag_given. simpl. rewrite (bool_decide_ext _ (c ∈ letters \/ c ∈ mjoin flags)).
  - repeat case_bool_decide; naive_solver.
  - rewrite elem_of_cons, elem_of_app. naive_solver.
Qed.

Lemma reveal_args_flags toks : forall fa ft target,
  Forall flag_word (word_text <$> filter (fun t => is_word t = true) toks) ->
  let flags := word_text <$> filter (fun t => is_word t = true) toks in
  reveal_args toks fa ft target =
  Some (fa || flag_given "a"%char flags, ft || flag_given "t"%char flags, target).
Proof.
  induction toks as [|t toks IH]; intros fa ft target; simpl.
  { intros _. unfold flag_given. simpl. by rewrite !orb_false_r. }
  rewrite filter_cons. destruct (is_word t) eqn:Ew; [|rewrite decide_False by done; apply IH].
  rewrite decide_True by done. cbn [negb]. rewrite fmap_cons. intros Hf.
  apply Forall_cons in Hf as [Hw Hf]. rewrite (flag_word_is_flag _ Hw).
  destruct Hw as (letters & -> & _ & Hl). simpl tail. rewrite (reveal_letters_spec _ _ _ Hl), (IH _ _ _ Hf).
  by rewrite !flag_given_cons, !orb_assoc by done.
Qed.

Lemma reveal_args_words toks : forall before target after fa ft,
  word_text <$> filter (fun t => is_word t = true) toks = before ++ target :: after ->
  Forall flag_word (before ++ after) -> target_word target ->
  reveal_args toks fa ft None =
  Some (fa || flag_given "a"%char (before ++ after), ft || flag_given "t"%char (before ++ after), Some target).
Proof.
  induction toks as [|t toks IH]; intros before target after fa ft; [by destruct before|].
  cbn [reveal_args]. rewrite filter_cons.
  destruct (is_word t) eqn:Ew; [|rewrite decide_False by done; cbn [negb]; apply IH].
  rewrite decide_True by done. cbn [negb]. rewrite fmap_cons. intros E Hf Ht.
  destruct before as [|w before]; simpl in E; injection E as Ew1 E.
  - rewrite Ew1, (target_word_not_flag _ Ht), reveal_args_flags; simpl; rewrite E; done.
  - cbn [app] in Hf |- *. apply Forall_cons in Hf as [Hw Hf]. rewrite Ew1, (flag_word_is_flag _ Hw).
    destruct Hw as (letters & -> & _ & Hl). simpl tail. rewrite (reveal_letters_spec _ _ _ Hl).
    rewrite (IH before target after _ _ E Hf Ht). by rewrite !flag_given_cons, !orb_assoc by done.
Qed.

Lemma reveal_args_spec toks before target after :
  arg_words toks = before ++ option_list target ++ after ->
  Forall flag_word (before ++ after) -> Forall target_word (option_list target) ->
  reveal_args (tail toks) false false None =
  Some (flag_given "a"%char (before ++ after), flag_given "t"%char (before ++ after), target).
Proof.
  intros E Hf Ht. destruct target as [w|]; cbn [option_list app] in *.
  - apply Forall_cons in Ht as [Ht _]. by rewrite (reveal_args_words _ before w after).
  - unfold arg_words in E. rewrite reveal_args_flags; rewrite E; done.
Qed.

(** *** The names *)
Lemma keep_visible flag_a n : n <> c_str "." -> n <> c_str ".." -> keep_name flag_a n = visible flag_a n.
Proof.
  intros Hdot Hdots. unfold keep_name, visible, streq. rewrite !(bool_decide_false (n = _)) by done. simpl. f_equal. f_equal.
  destruct n as [|c n]; [done|]. simpl. case_bool_decide as E; [by injection E as ->|].
  destruct c as [[] [] [] [] [] [] [] []]; done.
Qed.

Lemma filter_keep_visible flag_a es :
  Forall (fun n => n <> c_str "." /\ n <> c_str "..") es ->
  filter (fun n => keep_name flag_a n = true) es = filter (fun n => visible flag_a n = true) es.
Proof.
  induction es as [|n es IH]; intros Hn; [done|]. apply Forall_cons in Hn as [[Hdot Hdots] Hn].
  rewrite !filter_cons, (IH Hn). by rewrite keep_visible.
Qed.

(** The names kept are those of the tree, in its order. *)
Lemma sorted_names flag_a names es :
  names ≡ₚ c_str "." :: c_str ".." :: es -> StronglySorted (fun a b => strcmp a b <= 0)%Z es ->
  Forall (fun n => n <> c_str "." /\ n <> c_str "..") es ->
  qsort cmp_names (filter (fun n => keep_name flag_a n = true) names) =
  filter (fun n => visible flag_a n = true) es.
Proof.
  intros Hp Hs Hn. apply qsort_strcmp.
  - by apply sorted_filter.
  - rewrite Hp, !filter_cons. rewrite !decide_False by (by destruct flag_a).
    by rewrite filter_keep_visible.
Qed.

Lemma reveal_names_tree w rec dir prefix flag_a es :
  length prefix <= length dir -> entries_on_disk w dir es ->
  (forall n t, (n, t) ∈ es -> is_dir_node t = true ->
     rec (dir ++ "/"%char :: n) (prefix ++ n ++ c_str "/") =
     Ret (tree_lines flag_a (prefix ++ n ++ c_str "/") t)) ->
  reveal_names w rec dir prefix true (filter (fun n => visible flag_a n = true) es.*1) =
  Ret (tree_lines flag_a prefix (Dir es)).
Proof.
  intros Hl. induction es as [|[n t] es IH]; intros Hd Hrec; [done|].
  destruct Hd as (Hfit & Ht & Hd). simpl fst in *. simpl snd in *.
  assert (reveal_names w rec dir prefix true (filter (fun n => visible flag_a n = true) es.*1) =
    Ret (tree_lines flag_a prefix (Dir es))) as IH'.
  { apply IH; [done|]. intros n' t' Hin. apply Hrec. by apply list_elem_of_further. }
  rewrite fmap_cons, filter_cons. cbn [fst snd tree_lines foldr].
  destruct (visible flag_a n); [|by rewrite decide_False].
  rewrite decide_True by done. cbn [reveal_names]. rewrite IH'. unfold full_path.
  rewrite (path_buf_fits (dir ++ _)) by done. rewrite (on_disk_dir _ _ _ Ht).
  destruct t as [|es']; cbn [is_dir_node].
  - cbn [obind]. by rewrite !app_nil_r.
  - rewrite path_buf_fits.
    2: { rewrite !length_app in *. simpl in *. lia. }
    rewrite (Hrec n (Dir es')) by (done || apply list_elem_of_here). cbn [obind]. done.
Qed.

Lemma reveal_names_plain w rec dir prefix names :
  reveal_names w rec dir prefix false names = Ret names.
Proof. induction names as [|n names IH]; simpl; [done|]. by rewrite IH. Qed.

Lemma entries_on_disk_elem w dir es n t : entries_on_disk w dir es -> (n, t) ∈ es ->
  length (dir ++ "/"%char :: n) < PATH_MAX /\ on_disk w (dir ++ "/"%char :: n) t.
Proof.
  induction es as [|e es IH]; intros Hd Hin; [by apply elem_of_nil in Hin|].
  destruct Hd as (Hf & Ht & Hd). apply elem_of_cons in Hin as [<-|Hin]; [done|]. by apply IH.
Qed.

Lemma depth_elem es n t : (n, t) ∈ es -> depth t < depth (Dir es).
Proof.
  intros Hin. simpl. apply Nat.lt_succ_r.
  induction es as [|e es IH]; [by apply elem_of_nil in Hin|].
  apply elem_of_cons in Hin as [<-|Hin]; simpl; [lia|]. specialize (IH Hin). lia.
Qed.

Lemma reveal_list_tree w flag_a fuel : forall dir prefix es,
  length prefix <= length dir -> on_disk w dir (Dir es) -> depth (Dir es) <= fuel ->
  reveal_list_dir fuel w dir prefix flag_a true = Ret (tree_lines flag_a prefix (Dir es)).
Proof.
  induction fuel as [|fuel IH]; intros dir prefix es Hl Hd Hf; [simpl in Hf; lia|].
  cbn [on_disk] in Hd. destruct Hd as (_ & (names & Hr & Hp) & Hs & Hn & Hd).
  cbn [reveal_list_dir]. rewrite Hr, (sorted_names _ _ es.*1) by done.
  apply reveal_names_tree; [done..|]. intros n t Hin Hdir.
  destruct (entries_on_disk_elem _ _ _ _ _ Hd Hin) as [_ Ht]. destruct t as [|es']; [done|].
  apply IH; [|done|]; [rewrite !length_app; simpl; lia|].
  apply depth_elem in Hin. lia.
Qed.

Lemma reveal_list_plain w flag_a fuel dir prefix es :
  on_disk w dir (Dir es) ->
  reveal_list_dir (S fuel) w dir prefix flag_a false =
  Ret (filter (fun n => visible flag_a n = true) es.*1).
Proof.
  cbn [on_disk]. intros (_ & (names & Hr & Hp) & Hs & Hn & _).
  cbn [reveal_list_dir]. rewrite Hr, (sorted_names _ _ es.*1) by done. apply reveal_names_plain.
Qed.

(** C20.  [reveal] prints the directory it is asked for: when its words are
    flag words (a dash followed by letters [a] and [t]) and at most one target,
    in any order, and the target resolves to a directory that holds the tree
    [es], it returns and prints exactly the listing of the tree, sorted by name
    whatever the order of [readdir].  Names that start with a dot appear only
    when some flag word has an [a], the entries [.] and [..] never; when some
    flag word has a [t] each subdirectory is followed by its own listing.  The
    recursion needs no more levels than the tree is deep. *)
Theorem reveal_prints_tree (s : jstate W) (fuel : nat) (home dir : cstr) (toks : token_list_t)
    (before after : list cstr) (target : option cstr) (es : list (cstr * node))
    (Hargs : arg_words toks = before ++ option_list target ++ after)
    (Hflags : Forall flag_word (before ++ after)) (Htarget : Forall target_word (option_list target))
    (Hdir : resolve_target (js_os s) home target = Some dir)
    (Hdisk : on_disk (js_os s) dir (Dir es)) (Hfuel : depth (Dir es) <= fuel) :
  reveal fuel home s toks =
  Ret (prints s (listing (flag_given "a"%char (before ++ after)) (flag_given "t"%char (before ++ after)) es)).
Proof.
  unfold reveal, listing. rewrite (reveal_args_spec _ _ _ _ Hargs Hflags Htarget), Hdir.
  rewrite (on_disk_dir _ _ _ Hdisk). cbn [is_dir_node negb].
  destruct (flag_given "t"%char _).
  - rewrite (reveal_list_tree _ _ _ _ _ es) by (done || simpl; lia). done.
  - destruct fuel as [|fuel]; [simpl in Hfuel; lia|]. by rewrite (reveal_list_plain _ _ _ _ _ es).
Qed.

End tree.

(** ** A concrete disk

    The directory [/d] holds [.h], [a] and the directory [b] with the file
    [x]; [readdir] returns the names in another order. *)
Inductive disk : Type := the_disk.

#[global] Instance disk_exec : ExecOS disk := {|
  os_open w _ _ := (w, 3%Z);
  os_close w _ := w;
  os_pipe w := (w, None);
  os_fork w _ := (w, 100%Z);
  os_setpgid w _ _ := w;
  os_write1 w _ := w;
  os_access_x _ _ := false;
  os_isdir _ p := Some (bool_decide (p ∈ [c_str "/d"; c_str "/d/b"]));
  os_getcwd _ := Some (c_str "/d");
  os_getenv_path _ := None
|}.

#[global] Instance disk_reveal : RevealOS disk := {|
  rv_readdir _ p :=
    if streq p (c_str "/d") then Some (c_str <$> ["b"; "."; ".h"; ".."; "a"])
    else if streq p (c_str "/d/b") then Some (c_str <$> [".."; "x"; "."])
    else None;
  rv_realpath _ p := Some p;
  rv_oldpwd _ := None
|}.

Definition disk_entries : list (cstr * node) :=
  [(c_str ".h", File); (c_str "a", File); (c_str "b", Dir [(c_str "x", File)])].

Lemma disk_on_disk : on_disk the_disk (c_str "/d") (Dir disk_entries).
Proof.
  cbn [on_disk disk_entries foldr fst snd]. split_and!; try reflexivity.
  - eexists. split; [reflexivity|]. vm_compute. solve_Permutation.
  - repeat constructor; vm_compute; discriminate.
  - repeat constructor; discriminate.
  - apply Nat.ltb_lt. reflexivity.
  - apply Nat.ltb_lt. reflexivity.
  - apply Nat.ltb_lt. reflexivity.
  - eexists. split; [reflexivity|]. vm_compute. solve_Permutation.
  - repeat constructor.
  - repeat constructor; discriminate.
  - apply Nat.ltb_lt. reflexivity.
Qed.

(** [reveal -t . -a] *)
Lemma reveal_prints_tree_witness :
  let s := js_init the_disk in
  reveal 2 (c_str "/") s (word_tok <$> [c_str "reveal"; c_str "-t"; c_str "."; c_str "-a"]) =
    Ret (prints s (c_str <$> [".h"; "a"; "b/"; "b/x"])).
Proof.
  apply (reveal_prints_tree (js_init the_disk) 2 (c_str "/") (c_str "/d") _
           [c_str "-t"] [c_str "-a"] (Some (c_str ".")) disk_entries).
  - reflexivity.
  - constructor; [|constructor; [|constructor]].
    + exists (c_str "t"). split_and!; [reflexivity|discriminate|]. constructor; [right; reflexivity|constructor].
    + exists (c_str "a"). split_and!; [reflexivity|discriminate|]. constructor; [left; reflexivity|constructor].
  - constructor; [right; discriminate|constructor].
  - reflexivity.
  - exact disk_on_disk.
  - simpl. lia.
Defined.

(** Without [a] the hidden file is left out, without [t] the subdirectory is
    only named. *)
Example reveal_flags :
  let s := js_init the_disk in
  reveal 2 (c_str "/") s (word_tok <$> [c_str "reveal"; c_str "-t"]) =
    Ret (prints s (c_str <$> ["a"; "b/"; "b/x"])) /\
  reveal 2 (c_str "/") s (word_tok <$> [c_str "reveal"; c_str "-a"]) =
    Ret (prints s (c_str <$> [".h"; "a"; "b"])).
Proof. split; reflexivity. Qed.
