(* ===== verification/Snoop.v ===== *)
(** * The command [snoop] (c-shell/src/snoop.c)

    [snoop] runs a program, or attaches to a process, and counts its system
    calls.  The tracing loop alternates between the entry and the exit of a
    call; each completed call goes into the table [sys_stats], which is sorted
    and printed at the end.  [ptrace] and the clock are the class [TraceOS];
    durations are IEEE doubles of the standard library's [SpecFloat]. *)

From Stdlib Require Import Floats.SpecFloat.
From S2P Require Import Prelude.
From S2P Require Import Lexer.
From S2P Require Import Jobs.
From S2P Require Import Exec.
From S2P Require Import Builtins.

(** ** [double] *)
Abbreviation double := spec_float.
Definition dbl_add (a b : double) : double := SFadd 53 1024 a b.
Definition dbl_div (a b : double) : double := SFdiv 53 1024 a b.
(** The conversion of a [long]. *)
Definition dbl_of_long (z : Z) : double := binary_normalize 53 1024 z 0 false.

(** [%.3f]: the exact value is rounded to three decimals, ties to even. *)
Definition round_half_even (n d : Z) : Z :=
  let q := (n `div` d)%Z in
  let r := (2 * (n `mod` d))%Z in
  if (r <? d)%Z then q else if (d <? r)%Z then (q + 1)%Z else if Z.even q then q else (q + 1)%Z.

Definition pad3 (z : Z) : cstr :=
  let s := fmt_d z in replicate (3 - length s) "0"%char ++ s.

Definition fmt_3f (x : double) : cstr :=
  let sign (b : bool) := if b then c_str "-" else [] in
  match x with
  | S754_nan => c_str "nan"
  | S754_infinity b => sign b ++ c_str "inf"
  | S754_zero b => sign b ++ c_str "0.000"
  | S754_finite b m e =>
      let q := if (0 <=? e)%Z then (1000 * Z.pos m * 2 ^ e)%Z
               else round_half_even (1000 * Z.pos m) (2 ^ (- e)) in
      sign b ++ fmt_d (q `div` 1000) ++ "."%char :: pad3 (q `mod` 1000)
  end.

(** ** The table *)
Record sys_stat_t : Type := mk_stat {
  st_name : cstr;
  st_sys_num : Z;
  st_total_time : double;
  st_calls : Z;
  st_first_seen_order : Z
}.

Definition MAX_SYSCALLS : nat := 1024.

(** The first [num_syscalls_tracked] entries and [first_seen_counter]. *)
Record snoop_table : Type := mk_table { sn_stats : list sys_stat_t; sn_counter : Z }.

Definition syscall_names : list (Z * string) := [
  (0, "read"); (1, "write"); (2, "open"); (3, "close"); (4, "stat"); (5, "fstat"); (6, "lstat");
  (7, "poll"); (8, "lseek"); (9, "mmap"); (10, "mprotect"); (11, "munmap"); (12, "brk");
  (13, "rt_sigaction"); (14, "rt_sigprocmask"); (15, "rt_sigreturn"); (16, "ioctl");
  (17, "pread64"); (18, "pwrite64"); (19, "readv"); (20, "writev"); (21, "access"); (22, "pipe");
  (23, "select"); (24, "sched_yield"); (25, "mremap"); (28, "madvise"); (32, "dup"); (33, "dup2");
  (35, "nanosleep"); (39, "getpid"); (41, "socket"); (42, "connect"); (43, "accept");
  (56, "clone"); (57, "fork"); (58, "vfork"); (59, "execve"); (60, "exit"); (61, "wait4");
  (62, "kill"); (63, "uname"); (72, "fcntl"); (78, "getdents"); (79, "getcwd"); (80, "chdir");
  (87, "unlink"); (89, "readlink"); (102, "getuid"); (104, "getgid"); (107, "geteuid");
  (108, "getegid"); (110, "getppid"); (112, "setsid"); (137, "statfs"); (157, "prctl");
  (158, "arch_prctl"); (202, "futex"); (217, "getdents64"); (218, "set_tid_address");
  (228, "clock_gettime"); (230, "clock_nanosleep"); (231, "exit_group"); (257, "openat");
  (262, "newfstatat"); (273, "set_robust_list"); (293, "pipe2"); (302, "prlimit64");
  (318, "getrandom"); (332, "statx"); (334, "rseq"); (435, "clone3")]%Z%string.

Definition get_syscall_name (num : Z) : option cstr :=
  (fun p => c_str p.2.2) <$> list_find (fun p => p.1 = num) syscall_names.

(** [%ld] prints as [%d] does. *)
Definition stat_name (sys_num : Z) : cstr :=
  match get_syscall_name sys_num with
  | Some name => strncpy_buf 64 name
  | None => take 63 (c_str "syscall_" ++ fmt_d sys_num)
  end.

(** [calls++] overflows at INT_MAX. *)
Definition count_call (st : sys_stat_t) (duration : double) : outcome sys_stat_t :=
  if (st_calls st <? INT_MAX)%Z
  then Ret (mk_stat (st_name st) (st_sys_num st) (dbl_add (st_total_time st) duration)
              (st_calls st + 1) (st_first_seen_order st))
  else Undef.

Definition add_syscall_time (t : snoop_table) (sys_num : Z) (duration : double) : outcome snoop_table :=
  match list_find (fun st => st_sys_num st = sys_num) (sn_stats t) with
  | Some (i, st) =>
      let* st := count_call st duration in
      Ret (mk_table (<[i := st]> (sn_stats t)) (sn_counter t))
  | None =>
      if length (sn_stats t) <? MAX_SYSCALLS then
        Ret (mk_table (sn_stats t ++ [mk_stat (stat_name sys_num) sys_num duration 1 (sn_counter t)])
               (sn_counter t + 1))
      else Ret t
  end.

Definition compare_sys_stats (sa sb : sys_stat_t) : Z :=
  if negb (st_calls sb =? st_calls sa)%Z then (st_calls sb - st_calls sa)%Z
  else (st_first_seen_order sa - st_first_seen_order sb)%Z.

(** ** Tracing *)
Abbreviation timespec := (Z * Z)%type.

Class TraceOS (W : Type) := {
  (** [ptrace(PTRACE_SYSCALL, pid, 0, 0)]: did it succeed? *)
  pt_syscall : W -> Z -> W * bool;
  (** [ptrace(PTRACE_GETREGS, ...)]: the register [orig_rax] *)
  pt_getregs : W -> Z -> W * option Z;
  pt_clock : W -> W * timespec;
  pt_attach : W -> Z -> W * bool;
  pt_setoptions : W -> Z -> W;
  pt_detach : W -> Z -> W;
  (** [fork]; the child asks to be traced and calls [execv] *)
  pt_fork : W -> cstr -> list cstr -> W * Z;
  (** [access(path, F_OK) == 0] *)
  pt_exists : W -> cstr -> bool
}.

Definition SIGTRAP : Z := 5.
Definition WSTOPSIG (st : Z) : Z := Z.land (Z.shiftr st 8) 255.

(** [(end.tv_sec - start.tv_sec) + (end.tv_nsec - start.tv_nsec) / 1e9] *)
Definition elapsed (start_ts end_ts : timespec) : double :=
  dbl_add (dbl_of_long (end_ts.1 - start_ts.1))
    (dbl_div (dbl_of_long (end_ts.2 - start_ts.2)) (dbl_of_long 1000000000)).

(** The variables of the loop; [status] and [start_ts] start without a
    value. *)
Record trace_vars : Type := mk_tv {
  tv_status : option Z;
  tv_in_syscall : bool;
  tv_start_ts : option timespec;
  tv_current : Z;
  tv_table : snoop_table
}.

Section snoop.
Context {W : Type} `{ProcOS W} `{ExecOS W} `{TraceOS W}.

(** A stop with the trap signal whose registers could be read. *)
Definition trap_stop (w : W) (v : trace_vars) (orig_rax : Z) : outcome (W * trace_vars) :=
  if negb (tv_in_syscall v) then
    let '(w, now) := pt_clock w in
    Ret (w, mk_tv (tv_status v) true (Some now) orig_rax (tv_table v))
  else
    let '(w, end_ts) := pt_clock w in
    let* start_ts := from_option (tv_start_ts v) in
    let duration := elapsed start_ts end_ts in
    let* t := if (0 <=? tv_current v)%Z then add_syscall_time (tv_table v) (tv_current v) duration
              else Ret (tv_table v) in
    Ret (w, mk_tv (tv_status v) false (tv_start_ts v) (tv_current v) t).

Fixpoint trace_loop (fuel : nat) (w : W) (pid : Z) (v : trace_vars) : outcome (W * snoop_table) :=
  match fuel with
  | O => NoFuel
  | S fuel =>
      let '(w, ok) := pt_syscall w pid in
      if negb ok then Ret (w, tv_table v)
      else
        let '(w, r) := os_waitpid w pid 0 in
        let status := if (wr_res r <? 0)%Z then tv_status v else Some (wr_status r) in
        let v := mk_tv status (tv_in_syscall v) (tv_start_ts v) (tv_current v) (tv_table v) in
        let* st := from_option status in
        if WIFEXITED st || WIFSIGNALED st then Ret (w, tv_table v)
        else if WIFSTOPPED st then
          let sig := WSTOPSIG st in
          if (sig =? Z.lor SIGTRAP 128)%Z || (sig =? SIGTRAP)%Z then
            let '(w, regs) := pt_getregs w pid in
            match regs with
            | Some orig_rax => let* '(w, v) := trap_stop w v orig_rax in trace_loop fuel w pid v
            | None => trace_loop fuel w pid v
            end
          else trace_loop fuel w pid v
        else trace_loop fuel w pid v
  end.

(** ** The command *)

(** The program of [snoop]: the name itself or the first match in PATH, built
    in a buffer of 512 bytes. *)
Fixpoint snoop_search (w : W) (dirs : list cstr) (raw_cmd : cstr) : option cstr :=
  match dirs with
  | [] => None
  | dir :: dirs =>
      let candidate := take 511 (dir ++ "/"%char :: raw_cmd) in
      if execute_is_executable w candidate then Some candidate else snoop_search w dirs raw_cmd
  end.

Definition snoop_exec_path (w : W) (raw_cmd : cstr) : option cstr :=
  if bool_decide ("/"%char ∈ raw_cmd) then
    if execute_is_executable w raw_cmd then Some raw_cmd else None
  else
    match os_getenv_path w with
    | Some env_path => snoop_search w (strtok_colon env_path) raw_cmd
    | None => None
    end.

(** What [execv] sees of [argv]: the texts up to the first NULL. *)
Fixpoint argv_until_null (l : list (option cstr)) : list cstr :=
  match l with
  | Some a :: l => a :: argv_until_null l
  | _ => []
  end.

(** The part up to the first stop of the traced process: the process and
    whether it was attached to, or the lines printed before an early return
    (a failing [fork] is reported on the error stream). *)
Definition snoop_start (w : W) (toks : token_list_t) : outcome (W * (Z * bool + list cstr)) :=
  let* arg := text_at toks 1 in
  let* arg := deref arg in
  if streq arg (c_str "-p") then
    let pid_str := (toks !! 2) ≫= tok_text in
    if negb (length toks =? 3) || negb (is_all_digits pid_str) then
      Ret (w, inr [c_str "snoop: invalid syntax"])
    else
      let target_pid := atoi (default [] pid_str) in
      if negb (pt_exists w (c_str "/proc/" ++ fmt_d target_pid)) then
        Ret (w, inr [c_str "snoop: no such process"])
      else
        let '(w, ok) := pt_attach w target_pid in
        if negb ok then Ret (w, inr [c_str "snoop: no such process"])
        else Ret ((os_waitpid w target_pid 0).1, inl (target_pid, true))
  else
    match snoop_exec_path w arg with
    | None => Ret (w, inr [c_str "snoop: command not found"])
    | Some exec_path =>
        let argv := argv_until_null (take 255 (tok_text <$> tail toks)) in
        let '(w, target_pid) := pt_fork w exec_path argv in
        if (target_pid <? 0)%Z then Ret (w, inr [])
        else Ret ((os_waitpid w target_pid 0).1, inl (target_pid, false))
    end.

(** [%-20s], [%-7s] *)
Definition pad_right (n : nat) (s : cstr) : cstr := s ++ replicate (n - length s) SPACE.

Definition stat_line (st : sys_stat_t) : cstr :=
  pad_right 20 (st_name st) ++ [SPACE] ++ pad_right 7 (fmt_d (st_calls st)) ++ [SPACE] ++
  fmt_3f (st_total_time st) ++ c_str "s".

Definition header_line : cstr :=
  pad_right 20 (c_str "syscall") ++ [SPACE] ++ pad_right 7 (c_str "calls") ++ [SPACE] ++ c_str "time".

Definition empty_table : snoop_table := mk_table [] 0.

Definition snoop_cmd (fuel : nat) (s : jstate W) (toks : token_list_t) : outcome (jstate W) :=
  if length toks <? 2 then Ret (printf s (c_str "snoop: invalid syntax"))
  else
    let* '(w, r) := snoop_start (js_os s) toks in
    match r with
    | inr msgs => Ret (prints (with_os s w) msgs)
    | inl (target_pid, is_attach) =>
        let w := pt_setoptions w target_pid in
        let* '(w, t) := trace_loop fuel w target_pid (mk_tv None false None (-1) empty_table) in
        let w := if is_attach : bool then pt_detach w target_pid else w in
        let stats := qsort compare_sys_stats (sn_stats t) in
        Ret (prints (with_os s w) (header_line :: (stat_line <$> stats)))
    end.

End snoop.

(** ** The reference: the calls that a sequence of stops completes *)
Record stop : Type := mk_stop { sp_sig : Z; sp_rax : Z; sp_time : timespec }.

Definition is_trap (e : stop) : bool := (sp_sig e =? Z.lor SIGTRAP 128)%Z || (sp_sig e =? SIGTRAP)%Z.

(** Entries and exits in turn: the number at the entry, the time between. *)
Fixpoint calls_of (l : list stop) : list (Z * double) :=
  match l with
  | e :: x :: l => (sp_rax e, elapsed (sp_time e) (sp_time x)) :: calls_of l
  | _ => []
  end.

Definition completed (l : list stop) : list (Z * double) :=
  filter (fun c => (0 <= c.1)%Z) (calls_of (filter (fun e => is_trap e = true) l)).

Fixpoint record_calls (t : snoop_table) (l : list (Z * double)) : outcome snoop_table :=
  match l with
  | [] => Ret t
  | (n, d) :: l => let* t := add_syscall_time t n d in record_calls t l
  end.

(** The numbers in the order in which they first occur. *)
Definition first_seen (l : list (Z * double)) : list Z := distinct l.*1.

Definition durations (n : Z) (l : list (Z * double)) : list double :=
  (filter (fun c => c.1 = n) l).*2.

Definition total (ds : list double) : double :=
  match ds with [] => S754_zero false | d :: ds => foldl dbl_add d ds end.

(** The statistics of one number: how often it occurs, the sum of the times. *)
Definition stat_of (l : list (Z * double)) (i : nat) (n : Z) : sys_stat_t :=
  mk_stat (stat_name n) n (total (durations n l)) (Z.of_nat (length (durations n l))) (Z.of_nat i).

Definition stats_of (l : list (Z * double)) : list sys_stat_t := imap (stat_of l) (first_seen l).

(** ** Proofs: the table *)
Lemma first_seen_snoc l n d : first_seen (l ++ [(n, d)]) = see (first_seen l) n.
Proof. unfold first_seen. rewrite fmap_app. apply distinct_snoc. Qed.

Lemma durations_snoc l n d m :
  durations m (l ++ [(n, d)]) = durations m l ++ (if decide (n = m) then [d] else []).
Proof.
  unfold durations. rewrite filter_app, fmap_app. f_equal. rewrite filter_cons. simpl.
  case_decide; [done|]. by rewrite filter_nil.
Qed.

Lemma stats_of_snoc_seen l n d i :
  first_seen l !! i = Some n -> NoDup (first_seen l) -> durations n l <> [] ->
  stats_of (l ++ [(n, d)]) =
  <[i := mk_stat (stat_name n) n (dbl_add (total (durations n l)) d)
           (Z.of_nat (length (durations n l)) + 1) (Z.of_nat i)]> (stats_of l).
Proof.
  intros Hi Hnd Hne. unfold stats_of. rewrite first_seen_snoc. unfold see.
  rewrite decide_True by (by eapply list_elem_of_lookup_2).
  apply list_eq. intros k. rewrite list_lookup_imap. destruct (decide (k = i)) as [->|Hk].
  - rewrite Hi, list_lookup_insert_eq.
    2: { rewrite length_imap. by eapply lookup_lt_Some. }
    simpl. f_equal. unfold stat_of. rewrite durations_snoc, decide_True by done. f_equal.
    + unfold total. destruct (durations n l) as [|d0 ds]; [done|]. simpl. by rewrite foldl_app.
    + rewrite length_app. simpl. lia.
  - rewrite list_lookup_insert_ne by done. rewrite list_lookup_imap.
    destruct (first_seen l !! k) as [m|] eqn:Em; [|done]. simpl. f_equal. unfold stat_of.
    rewrite durations_snoc, decide_False; [by rewrite app_nil_r|].
    intros ->. apply Hk. by eapply NoDup_lookup.
Qed.

Lemma stats_of_snoc_new l n d : n ∉ first_seen l -> durations n l = [] ->
  stats_of (l ++ [(n, d)]) =
  stats_of l ++ [mk_stat (stat_name n) n d 1 (Z.of_nat (length (first_seen l)))].
Proof.
  intros Hn Hd. unfold stats_of. rewrite first_seen_snoc. unfold see. rewrite decide_False by done.
  rewrite imap_app. f_equal.
  - apply imap_ext. intros k m Hm. unfold stat_of. rewrite durations_snoc, decide_False.
    + by rewrite app_nil_r.
    + intros ->. apply Hn. by eapply list_elem_of_lookup_2.
  - simpl. unfold stat_of. rewrite durations_snoc, Hd, decide_True by done. simpl.
    by rewrite Nat.add_0_r.
Qed.

Lemma first_seen_NoDup l : NoDup (first_seen l).
Proof. apply distinct_NoDup. Qed.

Lemma first_seen_elem l n : n ∈ first_seen l <-> durations n l <> [].
Proof.
  induction l as [|[m d] l IH] using rev_ind; [set_solver|].
  rewrite first_seen_snoc, durations_snoc. unfold see.
  destruct (decide (m = n)) as [->|Hne].
  - split; [intros _ E; by apply app_eq_nil in E as [_ ?]|]. intros _. case_decide; set_solver.
  - rewrite app_nil_r, <-IH. case_decide; set_solver.
Qed.

Lemma length_first_seen_snoc l c : length (first_seen l) <= length (first_seen (l ++ [c])).
Proof.
  destruct c as [n d]. rewrite first_seen_snoc. unfold see. case_decide; [done|].
  rewrite length_app. lia.
Qed.

Lemma find_stat l n :
  list_find (fun st => st_sys_num st = n) (stats_of l) =
  (fun p => (p.1, stat_of l p.1 n)) <$> list_find (fun m => m = n) (first_seen l).
Proof.
  unfold stats_of. destruct (list_find (fun m => m = n) (first_seen l)) as [[i m]|] eqn:E; simpl.
  - apply list_find_Some in E as (Hi & -> & Hb). apply list_find_Some.
    rewrite list_lookup_imap, Hi. split_and!; [done|done|].
    intros j y Hj Hlt. rewrite list_lookup_imap in Hj. apply fmap_Some in Hj as (m & Hm & ->).
    simpl. by apply (Hb j).
  - apply list_find_None in E. apply list_find_None. apply Forall_lookup. intros j y Hj.
    rewrite list_lookup_imap in Hj. apply fmap_Some in Hj as (m & Hm & ->). simpl.
    by apply (Forall_lookup_1 _ _ _ _ E Hm).
Qed.

Definition table_of (l : list (Z * double)) : snoop_table :=
  mk_table (stats_of l) (Z.of_nat (length (first_seen l))).

Lemma length_durations n l : length (durations n l) <= length l.
Proof. unfold durations. rewrite length_fmap. apply length_filter. Qed.

(** One more call. *)
Lemma add_syscall_time_spec l n d :
  (Z.of_nat (length l) < INT_MAX)%Z -> length (first_seen (l ++ [(n, d)])) <= MAX_SYSCALLS ->
  add_syscall_time (table_of l) n d = Ret (table_of (l ++ [(n, d)])).
Proof.
  intros Hl Hm. unfold add_syscall_time, table_of. cbn [sn_stats sn_counter]. rewrite find_stat.
  rewrite first_seen_snoc in Hm |- *. unfold see in *.
  destruct (list_find (fun m => m = n) (first_seen l)) as [[i m]|] eqn:E; cbn [fmap option_fmap option_map fst snd].
  - apply list_find_Some in E as (Hi & -> & _).
    assert (n ∈ first_seen l) as Hin by (by eapply list_elem_of_lookup_2).
    rewrite decide_True by done. unfold count_call. cbn [stat_of st_calls].
    pose proof (length_durations n l). destruct (Z.ltb_spec (Z.of_nat (length (durations n l))) INT_MAX); [|lia].
    cbn [obind]. rewrite (stats_of_snoc_seen l n d i); [done|done|apply first_seen_NoDup|].
    by apply first_seen_elem.
  - apply list_find_None in E.
    assert (n ∉ first_seen l) as Hn.
    { intros Hin. rewrite Forall_forall in E. by apply (E n). }
    rewrite decide_False in Hm |- * by done. rewrite length_app in Hm. simpl in Hm.
    unfold stats_of at 1. rewrite length_imap.
    destruct (Nat.ltb_spec (length (first_seen l)) MAX_SYSCALLS); [|lia].
    rewrite stats_of_snoc_new; [|done|].
    + rewrite length_app. simpl. repeat f_equal. lia.
    + destruct (durations n l) eqn:Ed; [done|]. exfalso. apply Hn, first_seen_elem. by rewrite Ed.
Qed.

Lemma record_calls_app t l1 l2 :
  record_calls t (l1 ++ l2) = (let* t := record_calls t l1 in record_calls t l2).
Proof.
  revert t. induction l1 as [|[n d] l1 IH]; intros t; [done|]. simpl.
  destruct (add_syscall_time t n d); simpl; auto.
Qed.

Lemma record_calls_spec l :
  (Z.of_nat (length l) <= INT_MAX)%Z -> length (first_seen l) <= MAX_SYSCALLS ->
  record_calls empty_table l = Ret (table_of l).
Proof.
  induction l as [|[n d] l IH] using rev_ind; intros Hl Hm; [done|].
  rewrite length_app in Hl. simpl in Hl.
  rewrite record_calls_app, IH; [|lia|by etrans; [apply length_first_seen_snoc|]].
  cbn [obind record_calls]. rewrite add_syscall_time_spec by (done || lia). done.
Qed.

(** ** Proofs: the tracing loop *)
Section tracing.
Context {W : Type} `{ProcOS W} `{ExecOS W} `{TraceOS W}.

(** The process [pid] makes these stops, as the calls of the loop observe
    them, until it ends or can no longer be traced. *)
Inductive traced (pid : Z) : W -> list stop -> W -> Prop :=
| traced_gone w w' : pt_syscall w pid = (w', false) -> traced pid w [] w'
| traced_end w w1 w' r :
    pt_syscall w pid = (w1, true) -> os_waitpid w1 pid 0 = (w', r) -> (0 <= wr_res r)%Z ->
    WIFEXITED (wr_status r) || WIFSIGNALED (wr_status r) = true -> traced pid w [] w'
| traced_stop w w1 w2 w3 w' r e l :
    pt_syscall w pid = (w1, true) -> os_waitpid w1 pid 0 = (w2, r) -> (0 <= wr_res r)%Z ->
    WIFEXITED (wr_status r) || WIFSIGNALED (wr_status r) = false ->
    WIFSTOPPED (wr_status r) = true -> WSTOPSIG (wr_status r) = sp_sig e ->
    (if is_trap e
     then exists w', pt_getregs w2 pid = (w', Some (sp_rax e)) /\ pt_clock w' = (w3, sp_time e)
     else w3 = w2) ->
    traced pid w3 l w' -> traced pid w (e :: l) w'.

(** The entry that still waits for its exit. *)
Definition pending (v : trace_vars) (p : list stop) : Prop :=
  if tv_in_syscall v
  then exists ts, tv_start_ts v = Some ts /\ p = [mk_stop SIGTRAP (tv_current v) ts]
  else p = [].

Lemma completed_signal p e l : is_trap e = false -> completed (p ++ e :: l) = completed (p ++ l).
Proof.
  intros He. unfold completed. rewrite !filter_app, filter_cons, decide_False by (by rewrite He). done.
Qed.

Lemma completed_pair p e l : is_trap p = true -> is_trap e = true ->
  completed (p :: e :: l) =
  (if decide (0 <= sp_rax p)%Z then [(sp_rax p, elapsed (sp_time p) (sp_time e))] else []) ++ completed l.
Proof.
  intros Hp He. unfold completed. rewrite !(filter_cons _ _ (_ :: _)), filter_cons, !decide_True by done.
  cbn [calls_of]. rewrite filter_cons. simpl fst. by case_decide.
Qed.

Lemma trace_loop_spec pid w l w' : traced pid w l w' ->
  forall fuel v p, length l < fuel -> pending v p ->
  trace_loop fuel w pid v =
  (let* t := record_calls (tv_table v) (completed (p ++ l)) in Ret (w', t)).
Proof.
  assert (forall v p, pending v p -> completed p = []) as Hnil.
  { intros v p. unfold pending. destruct (tv_in_syscall v); [intros (ts & _ & ->)|intros ->]; done. }
  induction 1 as [w w' E|w w1 w' r E1 E2 Hr He|w w1 w2 w3 w' r e l E1 E2 Hr He Hst Hsig Htr Ht IH];
    intros [|fuel] v p Hf Hp; try (simpl in Hf; lia); cbn [trace_loop].
  - rewrite E. cbn [negb]. by rewrite app_nil_r, (Hnil _ _ Hp).
  - rewrite E1. cbn [negb]. rewrite E2. destruct (Z.ltb_spec (wr_res r) 0); [lia|].
    cbn [from_option obind tv_table]. rewrite He. by rewrite app_nil_r, (Hnil _ _ Hp).
  - rewrite E1. cbn [negb]. rewrite E2. destruct (Z.ltb_spec (wr_res r) 0); [lia|].
    cbn [from_option obind tv_table tv_in_syscall tv_start_ts tv_current]. rewrite He, Hst, Hsig.
    fold (is_trap e). simpl length in Hf. destruct (is_trap e) eqn:Et.
    2: { subst w3. rewrite completed_signal by done. rewrite (IH fuel _ p); [done|lia|exact Hp]. }
    destruct Htr as (w2' & Eg & Ec). rewrite Eg. unfold trap_stop.
    unfold pending in Hp. destruct (tv_in_syscall v) eqn:Ein; cbn [negb tv_in_syscall]; rewrite Ec.
    + destruct Hp as (ts & Hts & ->). cbn [tv_start_ts tv_current tv_table]. rewrite Hts.
      cbn [from_option obind app]. rewrite completed_pair by done. cbn [sp_rax sp_time].
      rewrite record_calls_app.
      destruct (Z.leb_spec 0 (tv_current v)) as [Hc|Hc]; [rewrite decide_True by done|rewrite decide_False by lia].
      * cbn [record_calls]. destruct (add_syscall_time _ _ _) as [t| | | |]; cbn [obind]; try done.
        rewrite (IH fuel _ []); [done|lia|done].
      * cbn [record_calls obind]. rewrite (IH fuel _ []); [done|lia|done].
    + subst p. cbn [obind app tv_status tv_table]. 
      rewrite (IH fuel _ [mk_stop SIGTRAP (sp_rax e) (sp_time e)]); [|lia|by exists (sp_time e)].
      cbn [tv_table]. f_equal. f_equal. unfold completed. cbn [app].
      rewrite !filter_cons, !decide_True by done.
      by destruct (filter _ l) as [|x l'].
Qed.

(** ** Claims *)

(** More calls first, ties by the order of first use. *)
Definition before (a b : sys_stat_t) : Prop :=
  (st_calls b < st_calls a)%Z \/
  (st_calls a = st_calls b /\ st_first_seen_order a <= st_first_seen_order b)%Z.

Lemma compare_before a b : (compare_sys_stats a b <= 0)%Z <-> before a b.
Proof.
  unfold compare_sys_stats, before.
  destruct (Z.eqb_spec (st_calls b) (st_calls a)); cbn [negb]; lia.
Qed.

Lemma stats_sorted l : StronglySorted before (qsort compare_sys_stats l).
Proof.
  eapply sorted_impl; [intros a b; apply compare_before|].
  apply (qsort_ordered _ (fun _ => True)).
  - intros a b _ _ Hab. apply compare_before. unfold before.
    assert (~ before a b) as Hn by (rewrite <-compare_before; lia). unfold before in Hn. lia.
  - intros a b c _ _ _. rewrite !compare_before. unfold before. lia.
  - by apply Forall_true.
Qed.
(** [snoop] reports the system calls of the traced program: when the
    process makes the stops [l] and ends, the command returns after the header
    with one line per system call that was completed, with its name, the number
    of its completed calls and the sum of their times; the lines are sorted by
    the number of calls, ties by the first use.  (The table holds 1024
    different calls.) *)
Theorem snoop_report (s : jstate W) (fuel : nat) (toks : token_list_t) (w1 w2 : W) (pid : Z)
    (is_attach : bool) (l : list stop)
    (Htoks : 2 <= length toks)
    (Hstart : snoop_start (js_os s) toks = Ret (w1, inl (pid, is_attach)))
    (Htraced : traced pid (pt_setoptions w1 pid) l w2) (Hfuel : length l < fuel)
    (Hcalls : (Z.of_nat (length (completed l)) <= INT_MAX)%Z)
    (Hdiff : length (first_seen (completed l)) <= MAX_SYSCALLS) :
  exists rows, rows ≡ₚ stats_of (completed l) /\ StronglySorted before rows /\
    snoop_cmd fuel s toks =
      Ret (prints (with_os s (if is_attach then pt_detach w2 pid else w2))
             (header_line :: (stat_line <$> rows))).
Proof.
  exists (qsort compare_sys_stats (stats_of (completed l))).
  split; [apply qsort_perm|]. split; [apply stats_sorted|].
  unfold snoop_cmd. destruct (Nat.ltb_spec (length toks) 2); [lia|]. rewrite Hstart. cbn [obind].
  rewrite (trace_loop_spec _ _ _ _ Htraced fuel _ []) by done. cbn [app tv_table].
  rewrite record_calls_spec by done. done.
Qed.

(** The stops of some calls, given by number, time of entry, time of exit. *)
Definition call_stops (cs : list (Z * timespec * timespec)) : list stop :=
  cs ≫= fun c => [mk_stop (Z.lor SIGTRAP 128) c.1.1 c.1.2; mk_stop (Z.lor SIGTRAP 128) c.1.1 c.2].

(** The gaps between calls: from the exit of one to the entry of the next. *)
Fixpoint gaps (n : Z) (from : timespec) (cs : list (Z * timespec * timespec)) : list (Z * double) :=
  match cs with
  | [] => []
  | (m, enter, leave) :: cs => (n, elapsed from enter) :: gaps m leave cs
  end.

Lemma filter_call_stops cs :
  filter (fun e => is_trap e = true) (call_stops cs) = call_stops cs.
Proof.
  induction cs as [|[[n a] b] cs IH]; [done|]. unfold call_stops in *. cbn [mbind list_bind].
  rewrite filter_app, IH. done.
Qed.

Lemma calls_of_shifted n from cs :
  calls_of (mk_stop SIGTRAP n from :: call_stops cs) = gaps n from cs.
Proof.
  revert n from. induction cs as [|[[m a] b] cs IH]; intros n from; [done|].
  unfold call_stops in *. cbn [mbind list_bind app calls_of gaps fst snd sp_rax sp_time].
  f_equal. exact (IH m b).
Qed.

Lemma calls_of_pairs cs :
  calls_of (call_stops cs) = (fun c => (c.1.1, elapsed c.1.2 c.2)) <$> cs.
Proof.
  induction cs as [|[[m a] b] cs IH]; [done|].
  unfold call_stops in *. cbn [mbind list_bind app calls_of fmap list_fmap fst snd sp_rax sp_time].
  by rewrite IH.
Qed.

(**  One plain SIGTRAP stop (such as a traced process gets when it calls
    [execve]) makes [snoop] take exits for entries from then on.  Without it
    the loop records each call with the time between its entry and its exit;
    with it, what is recorded is the time the program spends between the
    calls: from the exit of each call to the entry of the next, and the last
    call is not counted. *)
Theorem plain_trap_shifts (pid : Z) (w w' : W) (n : Z) (at_time : timespec)
    (cs : list (Z * timespec * timespec)) (l : list stop) (fuel : nat) (v : trace_vars)
    (Hv : tv_in_syscall v = false) (Htraced : traced pid w l w') (Hfuel : length l < fuel) :
  (l = call_stops cs ->
   trace_loop fuel w pid v =
   (let* t := record_calls (tv_table v)
                (filter (fun c => (0 <= c.1)%Z) ((fun c => (c.1.1, elapsed c.1.2 c.2)) <$> cs)) in
    Ret (w', t))) /\
  (l = mk_stop SIGTRAP n at_time :: call_stops cs ->
   trace_loop fuel w pid v =
   (let* t := record_calls (tv_table v) (filter (fun c => (0 <= c.1)%Z) (gaps n at_time cs)) in
    Ret (w', t))).
Proof.
  split; intros ->; rewrite (trace_loop_spec _ _ _ _ Htraced fuel v []) by
    (done || by unfold pending; rewrite Hv); cbn [app]; unfold completed.
  - by rewrite filter_call_stops, calls_of_pairs.
  - rewrite filter_cons, decide_True, filter_call_stops, calls_of_shifted by done. done.
Qed.
End tracing.

(** ** A recorded run

    The world holds the stops still to come and the current one; when no stop
    is left the process exits. *)
Record replay : Type := mk_replay { rp_now : option stop; rp_next : list stop }.

#[global] Instance replay_proc : ProcOS replay := {|
  os_waitpid w pid _ :=
    match rp_next w with
    | [] => (mk_replay None [], mk_wait pid 0 0)
    | e :: l => (mk_replay (Some e) l, mk_wait pid (sp_sig e * 256 + 127) 0)
    end;
  os_kill w _ _ := w;
  os_first_line _ _ _ := FL_noline;
  os_isatty _ := false;
  os_getpgrp _ := 1%Z;
  os_tcsetpgrp w _ := w;
  os_alarm w _ := w;
  os_alarm_fired w := (w, false);
  os_nanosleep w := w;
  os_sigchld w := (w, false)
|}.

#[global] Instance replay_exec : ExecOS replay := {|
  os_open w _ _ := (w, 3%Z);
  os_close w _ := w;
  os_pipe w := (w, None);
  os_fork w _ := (w, 100%Z);
  os_setpgid w _ _ := w;
  os_write1 w _ := w;
  os_access_x _ p := streq p (c_str "/bin/ls");
  os_isdir _ _ := Some false;
  os_getcwd _ := Some (c_str "/");
  os_getenv_path _ := Some (c_str "/usr/bin:/bin")
|}.

#[global] Instance replay_trace : TraceOS replay := {|
  pt_syscall w _ := (w, true);
  pt_getregs w _ := (w, sp_rax <$> rp_now w);
  pt_clock w := (w, default (0, 0)%Z (sp_time <$> rp_now w));
  pt_attach w _ := (w, true);
  pt_setoptions w _ := w;
  pt_detach w _ := w;
  pt_fork w _ _ := (w, 100%Z);
  pt_exists _ _ := true
|}.

(** The stop at [execve], then [write] once, [read] twice (with a signal in
    between) and the entry of [exit_group]. *)
Definition sample_stops : list stop :=
  let e n s ns := mk_stop 133 n (s, ns) in
  [e 1 10 0; e 1 10 500000000; e 0 11 0; mk_stop 17 0 (0, 0); e 0 11 250000000;
   e 0 12 0; e 0 12 1000000; e 231 13 0]%Z.

Definition sample_run : replay := mk_replay None (mk_stop 5 59 (9, 0)%Z :: sample_stops).

(** Follow a recorded run stop by stop. *)
Ltac replay_traced :=
  repeat first [eapply traced_stop; [reflexivity|reflexivity|done|reflexivity|reflexivity|reflexivity| |];
                [first [reflexivity|eexists; split; reflexivity]|]
               |eapply traced_end; [reflexivity|reflexivity|done|reflexivity]].

Lemma snoop_report_witness :
  exists rows, rows ≡ₚ stats_of (completed sample_stops) /\ StronglySorted before rows /\
    snoop_cmd 20 (js_init sample_run) (word_tok <$> [c_str "snoop"; c_str "ls"]) =
      Ret (prints (with_os (js_init sample_run) (mk_replay None [])) (header_line :: (stat_line <$> rows))).
Proof.
  apply (snoop_report (js_init sample_run) 20 (word_tok <$> [c_str "snoop"; c_str "ls"])
    (mk_replay (Some (mk_stop 5 59 (9, 0)%Z)) sample_stops) (mk_replay None []) 100 false sample_stops).
  - simpl. lia.
  - reflexivity.
  - simpl pt_setoptions. unfold sample_stops.
    replay_traced.
  - simpl. lia.
  - vm_compute. discriminate.
  - apply Nat.leb_le. reflexivity.
Defined.

(** The lines that this run prints. *)
Example sample_report :
  stat_line <$> qsort compare_sys_stats (stats_of (completed sample_stops)) =
  c_str <$> ["read                 2       0.251s"; "write                1       0.500s"].
Proof. vm_compute. reflexivity. Qed.

(** An [execve] stop in front of one [read] of half a second that follows five
    seconds of computation: the five seconds are recorded, for [execve]. *)
Lemma plain_trap_shifts_witness :
  let cs := [(0, (15, 0), (15, 500000000))]%Z in
  let l := mk_stop SIGTRAP 59 (10, 0)%Z :: call_stops cs in
  trace_loop 9 (mk_replay None l) 100 (mk_tv None false None (-1) empty_table) =
  (let* t := record_calls empty_table [(59%Z, elapsed (10, 0)%Z (15, 0)%Z)] in
   Ret (mk_replay None [], t)).
Proof.
  intros cs l.
  refine (proj2 (plain_trap_shifts 100 (mk_replay None l) (mk_replay None []) 59 (10, 0)%Z cs l 9
    (mk_tv None false None (-1) empty_table) _ _ _) _).
  - reflexivity.
  - unfold l, cs. cbn [call_stops mbind list_bind app].
    replay_traced.
  - simpl. lia.
  - reflexivity.
Defined.
