(* ===== verification/Spy.v ===== *)
(** * The command [spy] (c-shell/src/spy.c)

    [spy] lists the files of a process: its directory, its program, the files
    mapped into its memory (each once) and its descriptors in numerical order.
    Everything is read from [/proc] through the class [SpyOS]; directories are
    read with [RevealOS]. *)

From S2P Require Import Prelude.
From S2P Require Import Lexer.
From S2P Require Import Jobs.
From S2P Require Import Exec.
From S2P Require Import Builtins.
From S2P Require Import Reveal.
From S2P Require Import Snoop.

Inductive file_kind : Type := K_DIR | K_CHR | K_SOCK | K_REG | K_BLK | K_FIFO | K_LNK | K_OTHER.

Class SpyOS (W : Type) := {
  (** [st_mode] after [lstat] and after [stat] *)
  spy_lstat : W -> cstr -> option file_kind;
  spy_stat : W -> cstr -> option file_kind;
  (** the whole target of a symbolic link *)
  spy_readlink : W -> cstr -> option cstr;
  (** the contents of a file opened with [fopen] *)
  spy_file : W -> cstr -> option cstr;
  spy_getpid : W -> Z
}.

Definition MAX_MEM_FILES : nat := 512.

Definition compare_num_fds (a b : cstr) : Z := wrap32 (atoi a - atoi b).

Definition kind_name (k : file_kind) : option cstr :=
  match k with
  | K_DIR => Some (c_str "DIR")
  | K_CHR => Some (c_str "CHR")
  | K_SOCK => Some (c_str "SOCK")
  | K_REG => Some (c_str "REG")
  | K_BLK => Some (c_str "BLK")
  | K_FIFO => Some (c_str "FIFO")
  | K_LNK => Some (c_str "LNK")
  | K_OTHER => None
  end.

Section spy.
Context {W : Type} `{ProcOS W} `{ExecOS W} `{RevealOS W} `{TraceOS W} `{SpyOS W}.

(** The names of special files that cannot be found with [stat]. *)
Definition type_of_target (link_target : cstr) : cstr :=
  if is_prefix (c_str "/dev/pts/") link_target || is_prefix (c_str "/dev/tty") link_target
  then c_str "CHR"
  else if is_prefix (c_str "pipe:") link_target || is_prefix (c_str "anon_inode") link_target
  then c_str "FIFO"
  else if is_prefix (c_str "socket:") link_target then c_str "SOCK"
  else c_str "REG".

Definition get_file_type (w : W) (path link_target : cstr) : cstr :=
  match spy_lstat w path ≫= kind_name with
  | Some t => t
  | None =>
      match spy_stat w link_target ≫= kind_name with
      | Some t => t
      | None => type_of_target link_target
      end
  end.

(** [printf("%-7d %-5s %-7s %s\n", pid, what, type, path)] *)
Definition spy_line (pid : Z) (what type path : cstr) : cstr :=
  pad_right 7 (fmt_d pid) ++ [SPACE] ++ pad_right 5 what ++ [SPACE] ++ pad_right 7 type ++ [SPACE] ++ path.

Definition spy_header : cstr :=
  pad_right 7 (c_str "PID") ++ [SPACE] ++ pad_right 5 (c_str "FD") ++ [SPACE] ++
  pad_right 7 (c_str "TYPE") ++ [SPACE] ++ c_str "PATH".

(** [readlink(link, target, 511)], when more than 0 bytes were read. *)
Definition read_target (w : W) (link : cstr) : option cstr :=
  match take 511 <$> spy_readlink w link with
  | Some (c :: t) => Some (c :: t)
  | _ => None
  end.

Definition proc_file (pid : Z) (name : cstr) : cstr := c_str "/proc/" ++ fmt_d pid ++ name.

(** The line for the directory or the program. *)
Definition link_lines (w : W) (pid : Z) (link what : cstr) : list cstr :=
  match read_target w link with
  | Some target => [spy_line pid what (get_file_type w target target) target]
  | None => []
  end.

(** [strchr(line, '/')] *)
Fixpoint strchr_slash (line : cstr) : option cstr :=
  match line with
  | [] => None
  | c :: line' => if decide (c = "/"%char) then Some line else strchr_slash line'
  end.

(** A newline at the end is cut off. *)
Fixpoint chop_newline (s : cstr) : cstr :=
  match s with
  | [] => []
  | [c] => if decide (c = NEWLINE) then [] else [c]
  | c :: s => c :: chop_newline s
  end.

(** One mapped path: [seen] holds the copies made with [strncpy] in 512 bytes. *)
Definition spy_path (w : W) (pid : Z) (seen lines : list cstr) (slash : cstr) : list cstr * list cstr :=
  if bool_decide (slash ∈ seen) then (seen, lines)
  else if length seen <? MAX_MEM_FILES then
    (seen ++ [strncpy_buf 512 slash],
     lines ++ [spy_line pid (c_str "mem") (get_file_type w slash slash) slash])
  else (seen, lines).

(** The loop over the lines of the maps file. *)
Fixpoint maps_loop (fuel : nat) (w : W) (pid : Z) (data : cstr) (seen lines : list cstr)
    : outcome (list cstr) :=
  match fuel with
  | O => NoFuel
  | S fuel =>
      match fgets 1024 data with
      | None => Ret lines
      | Some (line, data) =>
          match strchr_slash (cstr_prefix line) with
          | Some slash =>
              let '(seen, lines) := spy_path w pid seen lines (chop_newline slash) in
              maps_loop fuel w pid data seen lines
          | None => maps_loop fuel w pid data seen lines
          end
      end
  end.

Definition mem_lines (w : W) (pid : Z) : outcome (list cstr) :=
  match spy_file w (proc_file pid (c_str "/maps")) with
  | None => Ret []
  | Some data => maps_loop (S (length data)) w pid data [] []
  end.

(** The first 512 names of the directory that are numbers, sorted. *)
Definition fd_names (entries : list cstr) : list cstr :=
  qsort compare_num_fds (take 512 (filter (fun n => is_all_digits (Some n) = true) entries)).

Definition fd_lines_of (w : W) (pid : Z) (name : cstr) : list cstr :=
  let fd_link := take 511 (proc_file pid (c_str "/fd/" ++ name)) in
  match read_target w fd_link with
  | Some target => [spy_line pid name (get_file_type w fd_link target) target]
  | None => []
  end.

Definition fd_lines (w : W) (pid : Z) : list cstr :=
  match rv_readdir w (proc_file pid (c_str "/fd")) with
  | None => []
  | Some entries => fd_names entries ≫= fd_lines_of w pid
  end.

(** The process asked for; [None] for "invalid syntax". *)
Definition spy_target (w : W) (toks : token_list_t) : option Z :=
  if 2 <? length toks then None
  else match toks with
       | [_; t] => if is_all_digits (tok_text t) then Some (atoi (word_text t)) else None
       | _ => Some (spy_getpid w)
       end.

Definition spy_cmd (s : jstate W) (toks : token_list_t) : outcome (jstate W) :=
  let w := js_os s in
  match spy_target w toks with
  | None => Ret (printf s (c_str "spy: invalid syntax"))
  | Some pid =>
      if negb (pt_exists w (proc_file pid [])) then Ret (printf s (c_str "spy: no such process"))
      else
        let* mem := mem_lines w pid in
        Ret (prints s (spy_header ::
          link_lines w pid (proc_file pid (c_str "/cwd")) (c_str "cwd") ++
          link_lines w pid (proc_file pid (c_str "/exe")) (c_str "txt") ++
          mem ++ fd_lines w pid))
  end.

End spy.

(** ** The reference *)

(** A line of the maps file: what stands before the path, and the path if the
    mapping has one. *)
Record map_line : Type := mk_map { ml_head : cstr; ml_path : cstr }.

Definition map_text (m : map_line) : cstr := ml_head m ++ ml_path m ++ [NEWLINE].

Record map_line_ok (m : map_line) : Prop := {
  mlo_head : ("/"%char ∉ ml_head m) /\ (NEWLINE ∉ ml_head m) /\ no_nul (ml_head m);
  mlo_path : ml_path m = [] \/ (absolute (ml_path m) /\ (NEWLINE ∉ ml_path m) /\ no_nul (ml_path m));
  mlo_length : length (ml_path m) < 512;
  mlo_fits : length (ml_head m ++ ml_path m) < 1023
}.

Definition mapped_paths (ms : list map_line) : list cstr :=
  filter (fun p => p <> []) (ml_path <$> ms).

(** ** Proofs *)
Section proofs.
Context {W : Type} `{ProcOS W} `{ExecOS W} `{RevealOS W} `{TraceOS W} `{SpyOS W}.

Lemma chop_newline_snoc s : chop_newline (s ++ [NEWLINE]) = s.
Proof.
  induction s as [|c s IH]; [done|]. simpl. rewrite IH. by destruct s.
Qed.

Lemma strchr_slash_head h p : "/"%char ∉ h ->
  strchr_slash (h ++ p) = strchr_slash p.
Proof.
  induction h as [|c h IH]; intros Hh; [done|]. simpl. rewrite decide_False by set_solver.
  apply IH. set_solver.
Qed.

Lemma map_line_slash m : map_line_ok m ->
  strchr_slash (cstr_prefix (map_text m)) =
  if decide (ml_path m = []) then None else Some (ml_path m ++ [NEWLINE]).
Proof.
  intros [(Hs & Hn & Hz) Hp Hl Hf]. unfold map_text. rewrite cstr_prefix_no_nul.
  - rewrite strchr_slash_head by done. destruct Hp as [->|(Ha & Hpn & Hpz)]; [done|].
    unfold absolute in Ha. destruct (ml_path m) as [|c p]; [done|]. simpl in Ha. simplify_eq. done.
  - apply no_nul_app. split; [done|]. apply no_nul_app. split; [|by apply no_nul_cons; split; [|apply not_elem_of_nil]].
    by destruct Hp as [->|(_ & _ & ?)]; [apply not_elem_of_nil|].
Qed.

(** The state of the loop after some paths. *)
Definition mem_state (w : W) (pid : Z) (ps : list cstr) : list cstr * list cstr :=
  let l := take MAX_MEM_FILES (distinct ps) in
  (l, (fun p => spy_line pid (c_str "mem") (get_file_type w p p) p) <$> l).

Lemma spy_path_step w pid ps p : length p < 512 ->
  spy_path w pid (mem_state w pid ps).1 (mem_state w pid ps).2 p = mem_state w pid (ps ++ [p]).
Proof.
  intros Hp. unfold spy_path, mem_state. cbn [fst snd]. rewrite distinct_snoc. unfold see.
  rewrite length_take. destruct (Nat.le_gt_cases MAX_MEM_FILES (length (distinct ps))) as [Hge|Hlt].
  - rewrite Nat.min_l by done. rewrite (proj2 (Nat.ltb_ge _ _)) by done.
    assert (take MAX_MEM_FILES (if decide (p ∈ distinct ps) then distinct ps else distinct ps ++ [p]) =
            take MAX_MEM_FILES (distinct ps)) as ->.
    { case_decide; [done|]. by rewrite take_app_le. }
    by destruct (bool_decide _).
  - rewrite Nat.min_r by lia. rewrite (proj2 (Nat.ltb_lt _ _)) by done.
    rewrite (take_ge (distinct ps)) by lia. case_decide as Hin.
    + rewrite bool_decide_eq_true_2 by done. rewrite take_ge by lia. done.
    + rewrite bool_decide_eq_false_2 by done. rewrite take_ge by (rewrite length_app; simpl; lia).
      rewrite fmap_app. unfold strncpy_buf. by rewrite (take_ge p) by lia.
Qed.

Lemma fgets_map_line m data : map_line_ok m ->
  fgets 1024 (map_text m ++ data) = Some (map_text m, data).
Proof.
  intros [(Hs & Hn & Hz) Hp Hl Hf]. unfold fgets, map_text.
  assert (NEWLINE ∉ ml_head m ++ ml_path m) as Hnl.
  { rewrite elem_of_app. intros [?|Hin]; [done|].
    destruct Hp as [Hp|(_ & ? & _)]; [rewrite Hp in Hin; by apply elem_of_nil in Hin|done]. }
  rewrite (assoc_L app (ml_head m)), <-(assoc_L app). cbn [app].
  rewrite fgets_take_line by (done || lia). by destruct (ml_head m ++ ml_path m).
Qed.

Lemma maps_loop_spec w pid ms : Forall map_line_ok ms ->
  forall fuel ps, length (mjoin (map_text <$> ms)) < fuel ->
  maps_loop fuel w pid (mjoin (map_text <$> ms)) (mem_state w pid ps).1 (mem_state w pid ps).2 =
  Ret (mem_state w pid (ps ++ mapped_paths ms)).2.
Proof.
  induction 1 as [|m ms Hm Hms IH]; intros [|fuel] ps Hf; try (simpl in Hf; lia).
  { simpl. by rewrite app_nil_r. }
  rewrite fmap_cons in *. cbn [mjoin list_join] in *. cbn [maps_loop].
  rewrite fgets_map_line, map_line_slash by done.
  assert (length (mjoin (map_text <$> ms)) < fuel) as Hf'.
  { rewrite length_app in Hf. assert (0 < length (map_text m)); [|unfold mjoin in *; lia].
    unfold map_text. rewrite !length_app. simpl. lia. }
  unfold mapped_paths. rewrite fmap_cons, filter_cons. destruct (decide (ml_path m = [])) as [E|E].
  - rewrite decide_False by naive_solver. by apply IH.
  - rewrite decide_True by done. rewrite chop_newline_snoc.
    rewrite spy_path_step by apply Hm. destruct (mem_state w pid (ps ++ [ml_path m])) as [a b] eqn:Es.
    pose proof (IH fuel (ps ++ [ml_path m]) Hf') as IH'. rewrite Es in IH'. cbn [fst snd] in IH'.
    etrans; [exact IH'|]. by rewrite <-(assoc_L app).
Qed.

Lemma compare_num_le a b : (0 <= atoi a)%Z -> (0 <= atoi b)%Z ->
  compare_num_fds a b = (atoi a - atoi b)%Z.
Proof.
  intros Ha Hb. unfold compare_num_fds. apply wrap32_small.
  assert (forall z, wrap32 z <= INT_MAX)%Z as Hw.
  { intros z. unfold wrap32, INT_MAX. pose proof (Z.mod_pos_bound (z + 2147483648) 4294967296). lia. }
  pose proof (Hw (Z.min LONG_MAX (digits_val (digit_prefix a)))).
  pose proof (Hw (Z.min LONG_MAX (digits_val (digit_prefix b)))).
  unfold atoi in *. unfold INT_MAX in *. lia.
Qed.

Lemma fd_names_sorted entries :
  Forall (fun n => is_all_digits (Some n) = true -> (0 <= atoi n)%Z) entries ->
  StronglySorted (fun a b => atoi a <= atoi b)%Z (fd_names entries).
Proof.
  intros He. unfold fd_names. set (l := take 512 _).
  assert (Forall (fun n => 0 <= atoi n)%Z l) as Hl.
  { apply Forall_take, Forall_forall. intros n Hn. apply list_elem_of_filter in Hn as [Hd Hn].
    rewrite Forall_forall in He. auto. }
  assert (StronglySorted (fun a b => compare_num_fds a b <= 0)%Z (qsort compare_num_fds l)) as Hs.
  { apply (qsort_ordered _ (fun n => 0 <= atoi n)%Z); [| |done].
    - intros a b Ha Hb. rewrite !compare_num_le by done. lia.
    - intros a b c Ha Hb Hc. rewrite !compare_num_le by done. lia. }
  assert (Forall (fun n => 0 <= atoi n)%Z (qsort compare_num_fds l)) as Hl' by (by rewrite qsort_perm).
  induction Hs as [|a k Hs IH Ha]; constructor; apply Forall_cons in Hl' as [Hpa Hk]; [by apply IH|].
  rewrite Forall_forall in Ha, Hk |- *. intros b Hb. specialize (Ha b Hb).
  rewrite compare_num_le in Ha by auto. lia.
Qed.

(** [spy] lists the files of a process: for a maps file made of lines
    with at most one path each (shorter than 512 bytes), the [mem] lines are
    the first 512 different paths, each once, in the order of their first
    mapping; the descriptors are the numeric names of the [fd] directory (at
    most 512) in increasing order.  Since the entries of that directory are
    symbolic links, every descriptor is shown with the type LNK, whatever file
    is open. *)
Theorem spy_lists (s : jstate W) (toks : token_list_t) (pid : Z) (ms : list map_line)
    (entries : list cstr)
    (Htarget : spy_target (js_os s) toks = Some pid)
    (Hproc : pt_exists (js_os s) (proc_file pid []) = true)
    (Hmaps : spy_file (js_os s) (proc_file pid (c_str "/maps")) = Some (mjoin (map_text <$> ms)))
    (Hms : Forall map_line_ok ms)
    (Hfd : rv_readdir (js_os s) (proc_file pid (c_str "/fd")) = Some entries)
    (Hnum : Forall (fun n => is_all_digits (Some n) = true -> (0 <= atoi n)%Z) entries) :
  let w := js_os s in
  spy_cmd s toks =
    Ret (prints s (spy_header ::
      link_lines w pid (proc_file pid (c_str "/cwd")) (c_str "cwd") ++
      link_lines w pid (proc_file pid (c_str "/exe")) (c_str "txt") ++
      ((fun p => spy_line pid (c_str "mem") (get_file_type w p p) p) <$>
         take MAX_MEM_FILES (distinct (mapped_paths ms))) ++
      (fd_names entries ≫= fd_lines_of w pid))) /\
  fd_names entries ≡ₚ take 512 (filter (fun n => is_all_digits (Some n) = true) entries) /\
  StronglySorted (fun a b => atoi a <= atoi b)%Z (fd_names entries) /\
  (forall name t, let fd_link := take 511 (proc_file pid (c_str "/fd/" ++ name)) in
     spy_lstat w fd_link = Some K_LNK -> read_target w fd_link = Some t ->
     fd_lines_of w pid name = [spy_line pid name (c_str "LNK") t]).
Proof.
  intros w. split_and!.
  - unfold spy_cmd. rewrite Htarget, Hproc. cbn [negb]. unfold mem_lines, fd_lines. rewrite Hmaps, Hfd.
    fold w. pose proof (maps_loop_spec w pid ms Hms _ [] (Nat.lt_succ_diag_r _)) as Hm.
    unfold mem_state, distinct in Hm. cbn [foldl fst snd] in Hm. rewrite take_nil in Hm.
    cbn [fmap list_fmap] in Hm. rewrite Hm. done.
  - apply qsort_perm.
  - by apply fd_names_sorted.
  - intros name t fd_link Hl Ht. unfold fd_lines_of. fold fd_link. rewrite Ht.
    unfold get_file_type. by rewrite Hl.
Qed.
End proofs.

(** ** A concrete process *)
#[global] Instance replay_dirs : RevealOS replay := {|
  rv_readdir _ _ := Some (c_str <$> ["."; ".."; "10"; "2"; "0"]);
  rv_realpath _ p := Some p;
  rv_oldpwd _ := None
|}.

Definition sample_maps : list map_line :=
  [mk_map (c_str "1-2 r-xp 8:1 ") (c_str "/bin/ls"); mk_map (c_str "2-3 rw-p 0:0 ") [];
   mk_map (c_str "3-4 r--p 8:1 ") (c_str "/bin/ls"); mk_map (c_str "4-5 r-xp 8:1 ") (c_str "/lib/c.so")].

#[global] Instance replay_spy : SpyOS replay := {|
  spy_lstat _ p := if is_prefix (c_str "/proc/") p then Some K_LNK else Some K_REG;
  spy_stat _ _ := Some K_REG;
  spy_readlink _ _ := Some (c_str "/bin/ls");
  spy_file _ _ := Some (mjoin (map_text <$> sample_maps));
  spy_getpid _ := 100%Z
|}.

Lemma spy_lists_witness :
  let s := js_init sample_run in
  exists lines, spy_cmd s [word_tok (c_str "spy")] = Ret (prints s lines) /\
    ((fun p => spy_line 100 (c_str "mem") (c_str "REG") p) <$> [c_str "/bin/ls"; c_str "/lib/c.so"]) `sublist_of` lines /\
    StronglySorted (fun a b => atoi a <= atoi b)%Z (fd_names (c_str <$> ["."; ".."; "10"; "2"; "0"])).
Proof.
  intros s.
  destruct (spy_lists s [word_tok (c_str "spy")] 100 sample_maps
    (c_str <$> ["."; ".."; "10"; "2"; "0"])) as (E & _ & Hs & _).
  - reflexivity.
  - reflexivity.
  - reflexivity.
  - assert (forall h p, forallb (fun c => negb (bool_decide (c ∈ ["/"%char; NEWLINE; NUL]))) h = true ->
      (p = [] \/ (absolute p /\ (NEWLINE ∉ p) /\ no_nul p)) -> length p < 512 ->
      length (h ++ p) < 1023 -> map_line_ok (mk_map h p)) as Hmk.
    { intros h p Hh Hp Hl Hf. split; try done. simpl.
      assert (forall c, c ∈ ["/"%char; NEWLINE; NUL] -> c ∉ h) as Hno.
      { intros c Hc Hin. rewrite forallb_forall in Hh. apply list_elem_of_In, Hh in Hin.
        by rewrite bool_decide_eq_true_2 in Hin. }
      unfold no_nul. split_and!; apply Hno; set_solver. }
    repeat apply Forall_cons_2; try apply Forall_nil_2; apply Hmk;
      try (apply Nat.ltb_lt; reflexivity); try reflexivity; try (left; reflexivity);
      right; split_and!; try reflexivity; apply (bool_decide_eq_true_1 _); reflexivity.
  - reflexivity.
  - repeat constructor; intros _; apply Z.leb_le; reflexivity.
  - eexists. split; [exact E|]. split; [|exact Hs].
    apply sublist_cons. apply sublist_inserts_l, sublist_inserts_l, sublist_inserts_r.
    apply reflexive_eq. reflexivity.
Defined.
