(* ===== verification/Peek.v ===== *)
(** * The [peek] command ([c-shell/src/peek.c])

    [peek] prints files line by line, forwards or backwards ([-r]), with or
    without numbers ([-n]).  Backwards without numbers it reads the file in
    chunks from its end.  A file is the list of its bytes; [getline], [read]
    and [lseek] on a regular file are modelled by their effect on that list.
    The growing array [lines_t] is modelled with its capacity. *)

From S2P Require Import Prelude Lexer.

Definition CHUNK : nat := 4096.

(** ** [lines_t] *)
Record lines_t : Type := mk_lines { l_items : list cstr; l_cap : nat }.

Definition l_count (l : lines_t) : nat := length (l_items l).

Definition lines_init : lines_t := mk_lines [] 64.

(** A store behind the array is undefined behaviour. *)
Definition lines_push (l : lines_t) (s : cstr) : outcome lines_t :=
  let cap := if l_count l =? l_cap l then l_cap l * 2 else l_cap l in
  if l_count l <? cap then Ret (mk_lines (l_items l ++ [s]) cap) else Undef.

(** ** Reading forwards *)

(** [getline]: the bytes up to the next newline (which is not kept here), and
    the rest; [None] at the end of the file. *)
Fixpoint getline (data : cstr) : option (cstr * cstr) :=
  match data with
  | [] => None
  | c :: data =>
      if decide (c = NEWLINE) then Some ([], data)
      else match getline data with
           | Some (line, rest) => Some (c :: line, rest)
           | None => Some ([c], [])
           end
  end.

(** The loop of [read_lines]; [strdup] keeps a line up to its first NUL.  The
    result has the unread bytes. *)
Fixpoint read_lines_loop (fuel : nat) (is_terminal : bool) (data : cstr) (la : lines_t)
    : outcome (lines_t * cstr) :=
  match fuel with
  | O => NoFuel
  | S fuel =>
      match getline data with
      | None => Ret (la, [])
      | Some (line, rest) =>
          let* la := lines_push la (cstr_prefix line) in
          if is_terminal : bool then Ret (la, rest) else read_lines_loop fuel is_terminal rest la
      end
  end.

Definition read_lines (is_terminal : bool) (data : cstr) (la : lines_t) : outcome (lines_t * cstr) :=
  read_lines_loop (S (length data)) is_terminal data la.

(** ** Reading backwards *)

(** The inner loop, over the indices below [i] of the chunk: [endp] is the end
    of the part not taken yet, [lo] the bytes left over from later chunks
    ([NULL] when there are none). *)
Fixpoint scan_chunk (word : cstr) (i endp : nat) (lo : option cstr) (la : lines_t)
    : outcome (nat * option cstr * lines_t) :=
  match i with
  | O => Ret (endp, lo, la)
  | S i =>
      let* c := from_option (word !! i) in
      if decide (c = NEWLINE) then
        let seg := take (endp - S i) (drop (S i) word) in
        let* la := lines_push la (seg ++ default [] lo) in
        scan_chunk word i i None la
      else scan_chunk word i endp lo la
  end.

(** The loop over the chunks, [pos] being the file position. *)
Fixpoint back_loop (fuel : nat) (chunk : nat) (data : cstr) (pos : nat) (lo : option cstr) (la : lines_t)
    : outcome (option cstr * lines_t) :=
  match fuel with
  | O => NoFuel
  | S fuel =>
      if 0 <? pos then
        let toread := if chunk <? pos then chunk else pos in
        let pos := pos - toread in
        let word := take toread (drop pos data) in
        if length word =? 0 then Ret (lo, la)
        else
          let* '(endp, lo, la) := scan_chunk word (length word) (length word) lo la in
          let lo := if 0 <? endp then Some (take endp word ++ default [] lo) else lo in
          back_loop fuel chunk data pos lo la
      else Ret (lo, la)
  end.

Definition read_lines_backward_chunk (chunk : nat) (data : cstr) (la : lines_t) : outcome lines_t :=
  if length data =? 0 then Ret la
  else
    let* '(lo, la) := back_loop (S (length data)) chunk data (length data) None la in
    match lo with
    | Some lo => lines_push la lo
    | None => Ret la
    end.

Definition read_lines_backward (data : cstr) (la : lines_t) : outcome lines_t :=
  read_lines_backward_chunk CHUNK data la.

(** ** Printing *)

(** What [peek] sees of the system, and what it changes: the text printed (one
    entry per line), the unread standard input and the running number. *)
Inductive source_stat : Type := S_missing | S_dir | S_file (data : cstr) (readable : bool).

Record pstate : Type := mk_ps { ps_out : list cstr; ps_stdin : cstr; ps_num : Z }.

Definition put (s : pstate) (line : cstr) : pstate :=
  mk_ps (ps_out s ++ [line]) (ps_stdin s) (ps_num s).

(** [++( *running_num )] *)
Definition next_num (s : pstate) : outcome pstate :=
  if (ps_num s <? INT_MAX)%Z then Ret (mk_ps (ps_out s) (ps_stdin s) (ps_num s + 1)) else Undef.

(** [printf("%d %s\n", ...)] and [printf("%s\n", ...)] *)
Definition numbered (n : Z) (line : cstr) : cstr := fmt_d n ++ " "%char :: cstr_prefix line.

(** [line\[0\] == '\0'] *)
Definition is_empty_line (line : cstr) : bool :=
  match line with [] => true | c :: _ => bool_decide (c = NUL) end.

(** The loop that prints the standard input while reading it. *)
Fixpoint stdin_loop (fuel : nat) (is_terminal n_flag : bool) (s : pstate) : outcome pstate :=
  match fuel with
  | O => NoFuel
  | S fuel =>
      match getline (ps_stdin s) with
      | None => Ret s
      | Some (line, rest) =>
          let s := mk_ps (ps_out s) rest (ps_num s) in
          let* s :=
            if is_empty_line line then Ret (put s [])
            else if n_flag : bool then
              let* s := next_num s in Ret (put s (numbered (ps_num s) line))
            else Ret (put s (cstr_prefix line)) in
          if is_terminal : bool then Ret s else stdin_loop fuel is_terminal n_flag s
      end
  end.

(** Printing a list of lines, in order. *)
Fixpoint print_plain (s : pstate) (items : list cstr) : pstate :=
  match items with
  | [] => s
  | line :: items => print_plain (put s (cstr_prefix line)) items
  end.

Fixpoint print_numbered (s : pstate) (items : list cstr) : outcome pstate :=
  match items with
  | [] => Ret s
  | line :: items =>
      if is_empty_line line then print_numbered (put s []) items
      else let* s := next_num s in print_numbered (put s (numbered (ps_num s) line)) items
  end.

(** The array [nums], filled in order; empty lines keep the 0 of [calloc]. *)
Fixpoint fill_nums (s : pstate) (items : list cstr) (nums : list Z) : outcome (pstate * list Z) :=
  match items with
  | [] => Ret (s, nums)
  | line :: items =>
      if is_empty_line line then fill_nums s items (nums ++ [0%Z])
      else let* s := next_num s in fill_nums s items (nums ++ [ps_num s])
  end.

(** The descending loop over the lines and their numbers. *)
Fixpoint print_back (s : pstate) (items : list cstr) (nums : list Z) (i : nat) : outcome pstate :=
  match i with
  | O => Ret s
  | S idx =>
      let* line := from_option (items !! idx) in
      if is_empty_line line then print_back (put s []) items nums idx
      else
        let* n := from_option (nums !! idx) in
        print_back (put s (numbered n line)) items nums idx
  end.

Fixpoint print_plain_back (s : pstate) (items : list cstr) (i : nat) : outcome pstate :=
  match i with
  | O => Ret s
  | S idx =>
      let* line := from_option (items !! idx) in
      print_plain_back (put s (cstr_prefix line)) items idx
  end.

Definition print_back_numbered (s : pstate) (items : list cstr) : outcome pstate :=
  let* '(s, nums) := fill_nums s items [] in
  print_back s items nums (length items).

(** ** One source *)
Section peek.
Variable stat : cstr -> source_stat.
Variable stdin_tty : bool.

Definition from_stdin (r_flag n_flag : bool) (s : pstate) : outcome (pstate * Z) :=
  if negb r_flag then
    let* s := stdin_loop (S (length (ps_stdin s))) stdin_tty n_flag s in Ret (s, 0%Z)
  else
    let* '(la, rest) := read_lines stdin_tty (ps_stdin s) lines_init in
    let s := mk_ps (ps_out s) rest (ps_num s) in
    let* s :=
      if negb n_flag then print_plain_back s (l_items la) (l_count la)
      else print_back_numbered s (l_items la) in
    Ret (s, 0%Z).

Definition from_file (data : cstr) (readable r_flag n_flag : bool) (s : pstate) : outcome (pstate * Z) :=
  if negb readable then Ret (put s (c_str "peek: no such file or directory"), (-1)%Z)
  else if r_flag && negb n_flag then
    let* la := read_lines_backward data lines_init in
    Ret (print_plain s (l_items la), 0%Z)
  else
    let* '(la, _) := read_lines false data lines_init in
    if r_flag && n_flag then
      let* s := print_back_numbered s (l_items la) in Ret (s, 0%Z)
    else if n_flag then
      let* s := print_numbered s (l_items la) in Ret (s, 0%Z)
    else Ret (print_plain s (l_items la), 0%Z).

Definition process_source (filename : option cstr) (r_flag n_flag : bool) (s : pstate)
    : outcome (pstate * Z) :=
  match filename with
  | None => from_stdin r_flag n_flag s
  | Some f =>
      if streq f (c_str "-") then from_stdin r_flag n_flag s
      else match stat f with
           | S_missing => Ret (put s (c_str "peek: no such file or directory"), (-1)%Z)
           | S_dir => Ret (put s (c_str "peek: is a directory"), (-1)%Z)
           | S_file data readable => from_file data readable r_flag n_flag s
           end
  end.

(** ** The command *)

(** The letters of a flag argument; [None] for an incorrect one. *)
Fixpoint flag_letters (letters : cstr) (n_flag r_flag : bool) : option (bool * bool) :=
  match letters with
  | [] => Some (n_flag, r_flag)
  | c :: letters =>
      if decide (c = "n"%char) then flag_letters letters true r_flag
      else if decide (c = "r"%char) then flag_letters letters n_flag true
      else None
  end.

Definition is_flag_arg (arg : cstr) : option cstr :=
  match arg with
  | "-"%char :: c :: rest => Some (c :: rest)
  | _ => None
  end.

Fixpoint peek_args (toks : token_list_t) (n_flag r_flag : bool) (files : list cstr)
    : option (bool * bool * list cstr) :=
  match toks with
  | [] => Some (n_flag, r_flag, files)
  | t :: toks =>
      match tok_type t with
      | OP_WORD =>
          let arg := default [] (tok_text t) in
          match is_flag_arg arg with
          | Some letters =>
              match flag_letters letters n_flag r_flag with
              | None => None
              | Some (n_flag, r_flag) => peek_args toks n_flag r_flag files
              end
          | None =>
              peek_args toks n_flag r_flag (if length files <? 256 then files ++ [arg] else files)
          end
      | _ => peek_args toks n_flag r_flag files
      end
  end.

Fixpoint peek_files (files : list cstr) (r_flag n_flag : bool) (s : pstate) : outcome pstate :=
  match files with
  | [] => Ret s
  | f :: files =>
      let* '(s, _) := process_source (Some f) r_flag n_flag s in
      peek_files files r_flag n_flag s
  end.

Definition peek (list : token_list_t) (stdin : cstr) : outcome pstate :=
  let s := mk_ps [] stdin 0 in
  match peek_args (drop 1 list) false false [] with
  | None => Ret (put s (c_str "peek: incorrect flag"))
  | Some (n_flag, r_flag, []) =>
      let* '(s, _) := process_source None r_flag n_flag s in Ret s
  | Some (n_flag, r_flag, files) => peek_files files r_flag n_flag s
  end.
End peek.

(** ** The lines of a file *)

(** The segments between the newlines. *)
Fixpoint split_nl (data : cstr) : list cstr :=
  match data with
  | [] => [[]]
  | c :: data =>
      if decide (c = NEWLINE) then [] :: split_nl data
      else match split_nl data with
           | s :: rest => (c :: s) :: rest
           | [] => [[c]]
           end
  end.

Definition drop_first_empty (l : list cstr) : list cstr :=
  match l with [] :: rest => rest | _ => l end.

(** The lines of a text file: what follows the last newline counts only when
    there is something. *)
Definition file_lines (data : cstr) : list cstr :=
  reverse (drop_first_empty (reverse (split_nl data))).

(** ** Proofs: the array of lines *)
Definition lines_ok (l : lines_t) : Prop := l_count l <= l_cap l /\ 0 < l_cap l.

Lemma lines_init_ok : lines_ok lines_init.
Proof. unfold lines_ok, l_count. simpl. lia. Qed.

Lemma lines_push_ok l s :
  lines_ok l -> exists l', lines_push l s = Ret l' /\ l_items l' = l_items l ++ [s] /\ lines_ok l'.
Proof.
  unfold lines_ok, lines_push, l_count. intros [Hc Hp].
  destruct (Nat.eqb_spec (length (l_items l)) (l_cap l)).
  - destruct (Nat.ltb_spec (length (l_items l)) (l_cap l * 2)); [|lia].
    eexists. split; [done|]. simpl. rewrite length_app. simpl. split; [done|lia].
  - destruct (Nat.ltb_spec (length (l_items l)) (l_cap l)); [|lia].
    eexists. split; [done|]. simpl. rewrite length_app. simpl. split; [done|lia].
Qed.
#[local] Hint Resolve lines_init_ok : cver.

Lemma split_nl_cons data : exists s rest, split_nl data = s :: rest.
Proof.
  destruct data as [|c data]; simpl; [eauto|]. case_decide; [eauto|].
  destruct (split_nl data); eauto.
Qed.

(** ** Proofs: reading backwards *)

(** Reading a byte in front of a text. *)
Lemma split_nl_step c data s rest :
  split_nl data = s :: rest ->
  split_nl (c :: data) = if decide (c = NEWLINE) then [] :: s :: rest else (c :: s) :: rest.
Proof. intros E. simpl. by rewrite E. Qed.

Lemma scan_chunk_spec word tail items0 : forall i endp lo la s0 rest,
  i <= endp -> endp <= length word -> (lo = None \/ endp = length word) -> lo <> Some [] ->
  lines_ok la ->
  split_nl (drop i word ++ tail) = s0 :: rest ->
  s0 = take (endp - i) (drop i word) ++ default [] lo ->
  l_items la = items0 ++ reverse rest ->
  exists endp' lo' la' s0' rest', scan_chunk word i endp lo la = Ret (endp', lo', la') /\
    endp' <= length word /\ (lo' = None \/ endp' = length word) /\ lo' <> Some [] /\ lines_ok la' /\
    split_nl (word ++ tail) = s0' :: rest' /\ s0' = take endp' word ++ default [] lo' /\
    l_items la' = items0 ++ reverse rest'.
Proof.
  induction i as [|i IH]; intros endp lo la s0 rest Hie Hen Hlo Hlne Hok Hs Hs0 Hla.
  { exists endp, lo, la, s0, rest. rewrite drop_0, Nat.sub_0_r in *. by split_and!. }
  destruct (lookup_lt_is_Some_2 word i) as [c Hc]; [lia|].
  cbn [scan_chunk]. rewrite Hc. cbn [from_option obind].
  pose proof (drop_S _ _ _ Hc) as Hd.
  assert (split_nl (drop i word ++ tail) =
    if decide (c = NEWLINE) then [] :: s0 :: rest else (c :: s0) :: rest) as Hs'.
  { rewrite Hd. by apply split_nl_step. }
  case_decide.
  - destruct (lines_push_ok la (take (endp - S i) (drop (S i) word) ++ default [] lo))
      as (la' & -> & Hla' & Hok'); [done|]. cbn [obind].
    eapply (IH i None la' [] (s0 :: rest)); try done; [lia|by left| |].
    + by rewrite Nat.sub_diag.
    + rewrite Hla', Hla, reverse_cons, <- Hs0. by rewrite <- app_assoc.
  - eapply (IH endp lo la (c :: s0) rest); try done; [lia|].
    rewrite Hd. replace (endp - i) with (S (endp - S i)) by lia. simpl. by rewrite Hs0.
Qed.

Lemma back_loop_spec chunk data items0 : 0 < chunk -> forall fuel pos lo la s0 rest,
  pos < fuel -> pos <= length data -> lo <> Some [] -> lines_ok la ->
  split_nl (drop pos data) = s0 :: rest -> s0 = default [] lo -> l_items la = items0 ++ reverse rest ->
  exists lo' la' s0' rest', back_loop fuel chunk data pos lo la = Ret (lo', la') /\
    lo' <> Some [] /\ lines_ok la' /\ split_nl data = s0' :: rest' /\ s0' = default [] lo' /\
    l_items la' = items0 ++ reverse rest'.
Proof.
  intros Hch. induction fuel as [|fuel IH]; intros pos lo la s0 rest Hf Hp Hlo Hok Hs Hs0 Hla; [lia|].
  cbn [back_loop]. destruct (Nat.ltb_spec 0 pos) as [Hpos|].
  2: { assert (pos = 0) as -> by lia. rewrite drop_0 in Hs. by exists lo, la, s0, rest. }
  set (toread := if chunk <? pos then chunk else pos).
  assert (0 < toread <= pos) as Ht by (unfold toread; destruct (Nat.ltb_spec chunk pos); lia).
  set (word := take toread (drop (pos - toread) data)).
  assert (length word = toread) as Hw.
  { unfold word. rewrite length_take, length_drop. lia. }
  assert (drop (pos - toread) data = word ++ drop pos data) as Hcut.
  { unfold word. rewrite <- (take_drop toread (drop (pos - toread) data)) at 1.
    rewrite drop_drop. do 2 f_equal. lia. }
  destruct (Nat.eqb_spec (length word) 0); [lia|].
  destruct (scan_chunk_spec word (drop pos data) items0 (length word) (length word) lo la s0 rest)
    as (endp & lo1 & la1 & s1 & r1 & -> & He & Hl1 & Hn1 & Hok1 & Hs1 & Hs01 & Hla1); try done.
  { by right. } { by rewrite drop_ge. } { by rewrite Nat.sub_diag. }
  cbn [obind]. rewrite <- Hcut in Hs1.
  eapply (IH _ _ la1 s1 r1); try done; try lia.
  - destruct (Nat.ltb_spec 0 endp); [|done]. intros [= E].
    apply (f_equal length) in E. rewrite length_app, length_take in E. simpl in E. lia.
  - rewrite Hs01. destruct (Nat.ltb_spec 0 endp); [done|].
    destruct Hl1 as [->|?]; [|lia]. by replace endp with 0 by lia.
Qed.

Lemma read_backward_items chunk data la :
  0 < chunk -> lines_ok la ->
  exists la', read_lines_backward_chunk chunk data la = Ret la' /\ lines_ok la' /\
    l_items la' = l_items la ++ reverse (drop_first_empty (split_nl data)).
Proof.
  intros Hch Hok. unfold read_lines_backward_chunk.
  destruct (Nat.eqb_spec (length data) 0) as [E|_].
  { destruct data; [|done]. exists la. by rewrite app_nil_r. }
  destruct (back_loop_spec chunk data (l_items la) Hch (S (length data)) (length data) None la [] [])
    as (lo & la1 & s0 & rest & -> & Hlo & Hok1 & Hs & Hs0 & Hla); try done; try lia.
  { by rewrite drop_all. } { by rewrite app_nil_r. }
  cbn [obind]. rewrite Hs. destruct lo as [lo|]; simpl in Hs0; subst s0.
  - destruct (lines_push_ok la1 lo Hok1) as (la2 & -> & Hla2 & ?). exists la2.
    split_and!; [done..|]. rewrite Hla2, Hla, <- app_assoc. do 2 f_equal.
    destruct lo; [done|]. simpl. by rewrite reverse_cons.
  - exists la1. by split_and!.
Qed.

(** ** Proofs: reading forwards *)
Lemma file_lines_split data s rest :
  split_nl data = s :: rest ->
  file_lines data = match rest with [] => drop_first_empty [s] | _ =>
                      s :: reverse (drop_first_empty (reverse rest)) end.
Proof.
  unfold file_lines. intros ->. rewrite reverse_cons. destruct rest as [|x rest].
  { by destruct s. }
  destruct (reverse (x :: rest)) as [|y l] eqn:E.
  { apply (f_equal length) in E. by rewrite length_reverse in E. }
  simpl. destruct y; simpl; rewrite ?reverse_app, ?reverse_cons, ?reverse_app; done.
Qed.

Lemma file_lines_newline data : file_lines (NEWLINE :: data) = [] :: file_lines data.
Proof.
  destruct (split_nl_cons data) as (s & rest & E).
  rewrite (file_lines_split (NEWLINE :: data) [] (s :: rest)); [|by rewrite (split_nl_step _ _ _ _ E)].
  unfold file_lines. by rewrite E.
Qed.

Lemma file_lines_char c data : c <> NEWLINE ->
  file_lines (c :: data) = match file_lines data with
                           | s :: rest => (c :: s) :: rest
                           | [] => [[c]]
                           end.
Proof.
  intros Hc. destruct (split_nl_cons data) as (s & rest & E).
  rewrite (file_lines_split (c :: data) (c :: s) rest);
    [|rewrite (split_nl_step _ _ _ _ E); by rewrite decide_False].
  rewrite (file_lines_split _ _ _ E). destruct rest; [by destruct s|done].
Qed.

Lemma getline_lines data :
  match getline data with
  | None => data = []
  | Some (line, rest) => length rest < length data /\ file_lines data = line :: file_lines rest
  end.
Proof.
  induction data as [|c data IH]; [done|]. cbn [getline].
  case_decide as Hc; [subst; split; [simpl; lia|apply file_lines_newline]|].
  rewrite file_lines_char by done.
  destruct (getline data) as [[line rest]|]; [destruct IH as [? ->]; split; [simpl; lia|done]|].
  subst. split; [simpl; lia|done].
Qed.

Lemma read_lines_items data la :
  lines_ok la ->
  exists la', read_lines false data la = Ret (la', []) /\ lines_ok la' /\
    l_items la' = l_items la ++ (cstr_prefix <$> file_lines data).
Proof.
  unfold read_lines. assert (length data < S (length data)) as Hf by lia.
  revert Hf. generalize (S (length data)). intros fuel. revert data la.
  induction fuel as [|fuel IH]; intros data la Hf Hok; [lia|]. cbn [read_lines_loop].
  pose proof (getline_lines data) as Hg. destruct (getline data) as [[line rest]|].
  - destruct Hg as [Hlen Hg].
    destruct (lines_push_ok la (cstr_prefix line) Hok) as (la1 & -> & Hl1 & Hok1).
    cbn [obind]. destruct (IH rest la1) as (la2 & -> & Hok2 & Hl2); [lia|done|].
    exists la2. split_and!; [done..|]. rewrite Hl2, Hl1, Hg, fmap_cons, <- app_assoc. done.
  - subst. exists la. by rewrite app_nil_r.
Qed.

(** ** Proofs: printing *)
Lemma print_plain_out items : forall s,
  print_plain s items = mk_ps (ps_out s ++ (cstr_prefix <$> items)) (ps_stdin s) (ps_num s).
Proof.
  induction items as [|x items IH]; intros s; cbn [print_plain].
  - rewrite app_nil_r. by destruct s.
  - rewrite IH. simpl. by rewrite <- app_assoc.
Qed.

(** The text of a line under its number, empty lines without one. *)
Definition num_text (line : cstr) (n : Z) : cstr :=
  if is_empty_line line then [] else numbered n line.

(** The numbers of lines, starting behind [n]. *)
Fixpoint line_nums (n : Z) (items : list cstr) : list Z :=
  match items with
  | [] => []
  | x :: items =>
      if is_empty_line x then 0%Z :: line_nums n items else (n + 1)%Z :: line_nums (n + 1) items
  end.

Definition count_nonempty (items : list cstr) : Z :=
  Z.of_nat (length (filter (fun x => is_empty_line x = false) items)).

Lemma count_nonempty_cons x items :
  count_nonempty (x :: items) = ((if is_empty_line x then 0 else 1) + count_nonempty items)%Z.
Proof.
  unfold count_nonempty. rewrite filter_cons. destruct (is_empty_line x); [done|].
  rewrite decide_True by done. simpl length. lia.
Qed.

Lemma length_line_nums items : forall n, length (line_nums n items) = length items.
Proof.
  induction items as [|x items IH]; intros n; cbn [line_nums]; [done|].
  destruct (is_empty_line x); simpl; by rewrite IH.
Qed.

Lemma print_numbered_out items : forall s,
  (ps_num s + count_nonempty items <= INT_MAX)%Z ->
  print_numbered s items =
    Ret (mk_ps (ps_out s ++ zip_with num_text items (line_nums (ps_num s) items))
           (ps_stdin s) (ps_num s + count_nonempty items)).
Proof.
  induction items as [|x items IH]; intros s; cbn [print_numbered line_nums].
  - intros _. unfold count_nonempty. simpl. rewrite app_nil_r, Z.add_0_r. by destruct s.
  - rewrite count_nonempty_cons. intros Hle.
    assert (0 <= count_nonempty items)%Z by (unfold count_nonempty; lia).
    destruct (is_empty_line x) eqn:Ex.
    + rewrite IH by (simpl; lia). cbn [put ps_out ps_stdin ps_num zip_with].
      unfold num_text at 2. by rewrite Ex, <- app_assoc.
    + unfold next_num. destruct (Z.ltb_spec (ps_num s) INT_MAX); [|lia]. cbn [obind].
      rewrite IH by (simpl; lia). cbn [put ps_out ps_stdin ps_num zip_with].
      unfold num_text at 2. by rewrite Ex, <- app_assoc, Z.add_assoc.
Qed.

Lemma fill_nums_out items : forall s nums,
  (ps_num s + count_nonempty items <= INT_MAX)%Z ->
  fill_nums s items nums =
    Ret (mk_ps (ps_out s) (ps_stdin s) (ps_num s + count_nonempty items),
         nums ++ line_nums (ps_num s) items).
Proof.
  induction items as [|x items IH]; intros s nums; cbn [fill_nums line_nums].
  - intros _. unfold count_nonempty. simpl. rewrite app_nil_r, Z.add_0_r. by destruct s.
  - rewrite count_nonempty_cons. intros Hle.
    assert (0 <= count_nonempty items)%Z by (unfold count_nonempty; lia).
    destruct (is_empty_line x) eqn:Ex.
    + rewrite IH by (simpl; lia). by rewrite <- app_assoc.
    + unfold next_num. destruct (Z.ltb_spec (ps_num s) INT_MAX); [|lia]. cbn [obind].
      rewrite IH by (simpl; lia). cbn [ps_out ps_stdin ps_num]. by rewrite <- app_assoc, Z.add_assoc.
Qed.

Lemma print_back_out items nums : length nums = length items -> forall i s, i <= length items ->
  print_back s items nums i =
    Ret (mk_ps (ps_out s ++ reverse (take i (zip_with num_text items nums))) (ps_stdin s) (ps_num s)).
Proof.
  intros Hl. induction i as [|i IH]; intros s Hi; cbn [print_back].
  { simpl. rewrite app_nil_r. by destruct s. }
  destruct (lookup_lt_is_Some_2 items i) as [x Hx]; [lia|].
  destruct (lookup_lt_is_Some_2 nums i) as [n Hn]; [lia|].
  rewrite Hx, Hn. cbn [from_option obind].
  rewrite (take_S_r _ _ (num_text x n)) by by rewrite lookup_zip_with, Hx, Hn.
  rewrite reverse_app. unfold num_text at 1.
  destruct (is_empty_line x) eqn:Ex; rewrite IH by lia; simpl; by rewrite <- app_assoc.
Qed.

Lemma print_back_numbered_out s items :
  (ps_num s + count_nonempty items <= INT_MAX)%Z ->
  print_back_numbered s items =
    Ret (mk_ps (ps_out s ++ reverse (zip_with num_text items (line_nums (ps_num s) items)))
           (ps_stdin s) (ps_num s + count_nonempty items)).
Proof.
  intros Hle. unfold print_back_numbered. rewrite fill_nums_out by done. cbn [obind].
  rewrite print_back_out; [|by rewrite app_nil_l, length_line_nums|done]. simpl.
  rewrite take_ge; [done|]. rewrite length_zip_with, length_line_nums. lia.
Qed.

Lemma print_plain_back_out items : forall i s, i <= length items ->
  print_plain_back s items i =
    Ret (mk_ps (ps_out s ++ reverse (take i (cstr_prefix <$> items))) (ps_stdin s) (ps_num s)).
Proof.
  induction i as [|i IH]; intros s Hi; cbn [print_plain_back].
  { simpl. rewrite app_nil_r. by destruct s. }
  destruct (lookup_lt_is_Some_2 items i) as [x Hx]; [lia|]. rewrite Hx. cbn [from_option obind].
  rewrite (take_S_r _ _ (cstr_prefix x)) by by rewrite list_lookup_fmap, Hx.
  rewrite reverse_app, IH by lia. simpl. by rewrite <- app_assoc.
Qed.

(** ** Claims *)

(** C19.  Reading a file backwards in chunks gives, whatever the size of the
    chunks and however lines straddle them, the segments between the newlines
    in reverse order, without the first segment when it is empty. *)
Theorem read_lines_backward_spec (data : cstr) (chunk : nat) (Hch : 0 < chunk) :
  exists la la', read_lines_backward data lines_init = Ret la /\
    read_lines_backward_chunk chunk data lines_init = Ret la' /\
    l_items la = reverse (drop_first_empty (split_nl data)) /\ l_items la' = l_items la.
Proof.
  destruct (read_backward_items CHUNK data lines_init) as (la & E & _ & Hla); [|eauto with cver|].
  { unfold CHUNK. lia. }
  destruct (read_backward_items chunk data lines_init) as (la' & E' & _ & Hla'); [done|eauto with cver|].
  exists la, la'. split_and!; [done|done|done|]. by rewrite Hla, Hla'.
Qed.

Lemma read_lines_backward_spec_witness :
  let data := c_str "ab" ++ [NEWLINE; NEWLINE] ++ c_str "cde" in
  exists la la', read_lines_backward data lines_init = Ret la /\
    read_lines_backward_chunk 2 data lines_init = Ret la' /\
    l_items la = reverse (drop_first_empty (split_nl data)) /\ l_items la' = l_items la.
Proof. intros data. apply (read_lines_backward_spec data 2). lia. Defined.

Section claims.
Variables (stat : cstr -> source_stat) (tty : bool).

Lemma split_nl_snoc body : split_nl (body ++ [NEWLINE]) = split_nl body ++ [[]].
Proof.
  induction body as [|c body IH]; [done|]. simpl. rewrite IH.
  case_decide; [done|]. by destruct (split_nl_cons body) as (s & rest & ->).
Qed.

Lemma file_lines_snoc body : file_lines (body ++ [NEWLINE]) = split_nl body.
Proof.
  unfold file_lines. rewrite split_nl_snoc, reverse_app. simpl. apply reverse_involutive.
Qed.

(** [peek -r] of a file that ends with a newline (and does not start with
    one) prints the lines of [peek] in reverse order behind an additional
    empty line. *)
Theorem peek_reverse_blank (f : cstr) (c : ascii) (body : cstr) (s : pstate)
    (Hf : f <> c_str "-") (Hc : c <> NEWLINE)
    (Hs : stat f = S_file (c :: body ++ [NEWLINE]) true) :
  let text := cstr_prefix <$> split_nl (c :: body) in
  process_source stat tty (Some f) false false s =
    Ret (mk_ps (ps_out s ++ text) (ps_stdin s) (ps_num s), 0%Z) /\
  process_source stat tty (Some f) true false s =
    Ret (mk_ps (ps_out s ++ [] :: reverse text) (ps_stdin s) (ps_num s), 0%Z).
Proof.
  intros text. unfold process_source, streq. rewrite bool_decide_false by done. rewrite Hs.
  unfold from_file. simpl (negb true). simpl (_ && _). cbv iota. split.
  - destruct (read_lines_items (c :: body ++ [NEWLINE]) lines_init) as (la & -> & _ & Hla);
      [eauto with cver|]. cbn [obind]. rewrite print_plain_out, Hla.
    change (c :: body ++ [NEWLINE]) with ((c :: body) ++ [NEWLINE]). rewrite file_lines_snoc.
    simpl (l_items lines_init ++ _). rewrite <- list_fmap_compose. do 4 f_equal.
    apply list_fmap_ext. intros ? x _. simpl. apply cstr_prefix_no_nul, no_nul_cstr_prefix.
  - destruct (read_backward_items CHUNK (c :: body ++ [NEWLINE]) lines_init) as (la & E & _ & Hla);
      [unfold CHUNK; lia|eauto with cver|].
    unfold read_lines_backward. rewrite E. cbn [obind]. rewrite print_plain_out, Hla.
    change (c :: body ++ [NEWLINE]) with ((c :: body) ++ [NEWLINE]). rewrite split_nl_snoc.
    unfold text. destruct (split_nl (c :: body)) as [|x rest] eqn:Ex;
      [by destruct (split_nl_cons (c :: body)) as (? & ? & ?); congruence|].
    assert (x <> []) as Hx.
    { simpl in Ex. rewrite decide_False in Ex by done.
      destruct (split_nl body); simplify_eq; done. }
    destruct x as [|y x]; [done|]. change (drop_first_empty (((y :: x) :: rest) ++ [[]]))
      with (((y :: x) :: rest) ++ [[]]).
    rewrite reverse_snoc. simpl (l_items lines_init ++ _). by rewrite fmap_cons, fmap_reverse.
Qed.

(** Numbers and lines of a readable file, forwards and backwards. *)
Lemma from_file_numbered data s :
  let items := cstr_prefix <$> file_lines data in
  (ps_num s + count_nonempty items <= INT_MAX)%Z ->
  let new := zip_with num_text items (line_nums (ps_num s) items) in
  let num := (ps_num s + count_nonempty items)%Z in
  from_file data true false true s = Ret (mk_ps (ps_out s ++ new) (ps_stdin s) num, 0%Z) /\
  from_file data true true true s = Ret (mk_ps (ps_out s ++ reverse new) (ps_stdin s) num, 0%Z).
Proof.
  intros items Hle new num. unfold from_file. simpl (negb true). simpl (_ && _). cbv iota.
  destruct (read_lines_items data lines_init) as (la & -> & _ & Hla); [eauto with cver|].
  simpl (l_items lines_init ++ _) in Hla. cbn [obind]. rewrite Hla. fold items.
  by rewrite print_numbered_out, print_back_numbered_out.
Qed.

Lemma length_file_lines data : length (file_lines data) <= length data.
Proof.
  remember (length data) as n eqn:Hn. assert (length data <= n) as Hle by lia. clear Hn.
  revert data Hle. induction n as [|n IH]; intros data Hle;
    (pose proof (getline_lines data) as Hg; destruct (getline data) as [[line rest]|]; [|subst; simpl; lia]);
    destruct Hg as [Hl ->]; simpl; [lia|]. specialize (IH rest). lia.
Qed.

Lemma count_nonempty_le items : (count_nonempty items <= Z.of_nat (length items))%Z.
Proof. unfold count_nonempty. apply Nat2Z.inj_le, length_filter. Qed.

(** A file has at most as many numbered lines as bytes. *)
Lemma count_file data :
  (0 <= count_nonempty (cstr_prefix <$> file_lines data) <= Z.of_nat (length data))%Z.
Proof.
  pose proof (count_nonempty_le (cstr_prefix <$> file_lines data)) as Hc.
  rewrite length_fmap in Hc. pose proof (length_file_lines data).
  split; [unfold count_nonempty; lia|lia].
Qed.

(** [peek -rn] prints exactly the lines of [peek -n] in reverse order,
    every line under the number it has there, and leaves the running number
    where [peek -n] leaves it; the non-empty lines are numbered one after
    another from the running number on. *)
Theorem peek_numbers_reverse (f : cstr) (data : cstr) (s : pstate)
    (Hf : f <> c_str "-") (Hs : stat f = S_file data true)
    (Hle : (ps_num s + Z.of_nat (length data) <= INT_MAX)%Z) :
  let items := cstr_prefix <$> file_lines data in
  let new := zip_with num_text items (line_nums (ps_num s) items) in
  let num := (ps_num s + count_nonempty items)%Z in
  process_source stat tty (Some f) false true s = Ret (mk_ps (ps_out s ++ new) (ps_stdin s) num, 0%Z) /\
  process_source stat tty (Some f) true true s =
    Ret (mk_ps (ps_out s ++ reverse new) (ps_stdin s) num, 0%Z).
Proof.
  intros items new num. unfold process_source, streq. rewrite bool_decide_false by done. rewrite Hs.
  apply from_file_numbered. pose proof (count_file data). lia.
Qed.

(** *** Termination *)

(** The number grows by at most the bytes read, so its sum with the unread
    input does not grow. *)
Definition num_bound (s : pstate) : Z := (ps_num s + Z.of_nat (length (ps_stdin s)))%Z.

Lemma next_num_ret s : (ps_num s < INT_MAX)%Z ->
  next_num s = Ret (mk_ps (ps_out s) (ps_stdin s) (ps_num s + 1)).
Proof. unfold next_num. intros. destruct (Z.ltb_spec (ps_num s) INT_MAX); [done|lia]. Qed.

Lemma stdin_loop_ret n : forall fuel s, length (ps_stdin s) < fuel -> (num_bound s <= INT_MAX)%Z ->
  exists s', stdin_loop fuel tty n s = Ret s' /\ (num_bound s' <= num_bound s)%Z.
Proof.
  unfold num_bound. induction fuel as [|fuel IH]; intros s Hf Hb; [lia|]. cbn [stdin_loop].
  pose proof (getline_lines (ps_stdin s)) as Hg.
  destruct (getline (ps_stdin s)) as [[line rest]|]; [|by exists s].
  destruct Hg as [Hl _]. set (s1 := mk_ps (ps_out s) rest (ps_num s)).
  assert (exists s2, (if is_empty_line line then Ret (put s1 [])
    else if n then let* s := next_num s1 in Ret (put s (numbered (ps_num s) line))
    else Ret (put s1 (cstr_prefix line))) = Ret s2 /\
    ps_stdin s2 = rest /\ (ps_num s <= ps_num s2 <= ps_num s + 1)%Z) as (s2 & -> & Hr2 & Hn2).
  { destruct (is_empty_line line); [eexists; split; [done|]; simpl; split; [done|lia]|].
    destruct n; [|eexists; split; [done|]; simpl; split; [done|lia]].
    rewrite next_num_ret by (simpl; lia). eexists; split; [done|]; simpl; split; [done|lia]. }
  cbn [obind]. destruct tty.
  - exists s2. split; [done|]. rewrite Hr2. lia.
  - destruct (IH s2) as (s' & -> & Hs'); rewrite ?Hr2 in *; [lia|lia|]. exists s'. split; [done|]. lia.
Qed.

Lemma read_lines_stdin data la : lines_ok la ->
  exists la' rest, read_lines tty data la = Ret (la', rest) /\
    (exists taken, l_items la' = l_items la ++ taken /\ length taken + length rest <= length data).
Proof.
  intros Hok. destruct tty.
  - unfold read_lines. cbn [read_lines_loop]. pose proof (getline_lines data) as Hg.
    destruct (getline data) as [[line rest]|].
    + destruct (lines_push_ok la (cstr_prefix line) Hok) as (la' & -> & Hi & _). cbn [obind].
      exists la', rest. split; [done|]. eexists. split; [done|]. simpl. lia.
    + subst. exists la, []. split; [done|]. exists []. rewrite app_nil_r. split; [done|simpl; lia].
  - destruct (read_lines_items data la Hok) as (la' & -> & _ & Hi). exists la', [].
    split; [done|]. eexists. split; [done|]. rewrite length_fmap. pose proof (length_file_lines data).
    simpl. lia.
Qed.

Lemma from_stdin_ret r n s : (num_bound s <= INT_MAX)%Z ->
  exists s', from_stdin tty r n s = Ret (s', 0%Z) /\ (num_bound s' <= num_bound s)%Z.
Proof.
  intros Hb. unfold from_stdin. destruct r; simpl (negb _); cbv iota.
  - destruct (read_lines_stdin (ps_stdin s) lines_init) as (la & rest & -> & taken & Hi & Hl);
      [eauto with cver|]. simpl in Hi. cbn [obind]. unfold l_count. rewrite Hi.
    unfold num_bound in *. pose proof (count_nonempty_le taken).
    assert (0 <= count_nonempty taken)%Z by (unfold count_nonempty; lia).
    destruct n; simpl (negb _); cbv iota.
    + rewrite print_back_numbered_out by (simpl; lia). cbn [obind]. eexists. split; [done|]. simpl. lia.
    + rewrite print_plain_back_out by done. cbn [obind]. eexists. split; [done|]. simpl. lia.
  - destruct (stdin_loop_ret n (S (length (ps_stdin s))) s) as (s' & -> & Hs'); [lia|done|].
    cbn [obind]. eauto.
Qed.

Lemma from_file_ret data readable r n s :
  (num_bound s + Z.of_nat (length data) <= INT_MAX)%Z ->
  exists s' v, from_file data readable r n s = Ret (s', v) /\
    (num_bound s' <= num_bound s + Z.of_nat (length data))%Z.
Proof.
  unfold num_bound. intros Hb. destruct readable.
  2: { unfold from_file. simpl. do 2 eexists. split; [done|]. simpl. lia. }
  destruct n.
  - pose proof (count_file data). destruct (from_file_numbered data s) as [H1 H2]; [lia|].
    destruct r; [rewrite H2|rewrite H1]; do 2 eexists; (split; [done|]); simpl; lia.
  - unfold from_file. rewrite andb_false_r, andb_true_r. simpl (negb true). cbv iota. destruct r.
    + destruct (read_backward_items CHUNK data lines_init) as (la & E & _ & Hla);
        [unfold CHUNK; lia|eauto with cver|]. unfold read_lines_backward. rewrite E. cbn [obind].
      do 2 eexists. split; [done|]. rewrite print_plain_out. simpl. lia.
    + destruct (read_lines_items data lines_init) as (la & -> & _ & Hla); [eauto with cver|].
      cbn [obind]. do 2 eexists. split; [done|]. rewrite print_plain_out. simpl. lia.
Qed.
End claims.

Section returns.
Variables (stat : cstr -> source_stat) (tty : bool) (M : nat).
Hypothesis small_files : forall f data readable, stat f = S_file data readable -> length data <= M.

Lemma process_source_ret f r n s : (num_bound s + Z.of_nat M <= INT_MAX)%Z ->
  exists s' v, process_source stat tty f r n s = Ret (s', v) /\ (num_bound s' <= num_bound s + Z.of_nat M)%Z.
Proof.
  intros Hb. unfold process_source.
  assert (exists s' v, from_stdin tty r n s = Ret (s', v) /\ (num_bound s' <= num_bound s + Z.of_nat M)%Z)
    as Hin.
  { destruct (from_stdin_ret tty r n s) as (s' & -> & ?); [lia|]. do 2 eexists. split; [done|]. lia. }
  destruct f as [f|]; [|done]. destruct (streq f (c_str "-")); [done|].
  destruct (stat f) as [| |data readable] eqn:Ef.
  1-2: do 2 eexists; (split; [done|]); unfold num_bound; simpl; lia.
  pose proof (small_files _ _ _ Ef).
  destruct (from_file_ret data readable r n s) as (s' & v & -> & ?); [lia|].
  do 2 eexists. split; [done|]. lia.
Qed.

Lemma peek_files_ret r n : forall files s,
  (num_bound s + Z.of_nat (length files) * Z.of_nat M <= INT_MAX)%Z ->
  exists s', peek_files stat tty files r n s = Ret s'.
Proof.
  induction files as [|f files IH]; intros s Hb; cbn [peek_files]; [by eexists|].
  simpl length in Hb. destruct (process_source_ret (Some f) r n s) as (s' & v & -> & Hs'); [lia|].
  cbn [obind]. apply IH. lia.
Qed.

Lemma peek_args_files toks : forall n r files n' r' files',
  length files <= 256 -> peek_args toks n r files = Some (n', r', files') -> length files' <= 256.
Proof.
  induction toks as [|t toks IH]; intros n r files n' r' files' Hl; cbn [peek_args]; [by intros [= _ _ <-]|].
  destruct (tok_type t); try by apply IH.
  destruct (is_flag_arg _) as [letters|].
  - destruct (flag_letters letters n r) as [[? ?]|]; [by apply IH|done].
  - apply IH. destruct (Nat.ltb_spec (length files) 256); [rewrite length_app; simpl; lia|done].
Qed.

(**  [peek] returns for every argument list, every contents of its files
    and every standard input, in a terminal or not, as long as the running
    number fits an [int]: no loop goes on forever, no array is overrun. *)
Theorem peek_returns (list : token_list_t) (stdin : cstr)
    (Hsize : (Z.of_nat (length stdin) + 256 * Z.of_nat M <= INT_MAX)%Z) :
  exists s, peek stat tty list stdin = Ret s.
Proof.
  unfold peek. destruct (peek_args _ _ _ _) as [[[n r] files]|] eqn:Ea; [|by eexists].
  apply peek_args_files in Ea; [|simpl; lia]. destruct files as [|f files].
  - destruct (process_source_ret None r n (mk_ps [] stdin 0)) as (s' & v & -> & _); [unfold num_bound; simpl; lia|].
    by eexists.
  - apply peek_files_ret. unfold num_bound. simpl ps_num. simpl ps_stdin. nia.
Qed.
End returns.

(** A directory with one file, for the witnesses. *)
Definition one_file (f : cstr) : source_stat :=
  if streq f (c_str "a.txt") then S_file (c_str "one" ++ [NEWLINE; NEWLINE] ++ c_str "two" ++ [NEWLINE]) true
  else S_missing.

Lemma peek_reverse_blank_witness :
  let s := mk_ps [] [] 0 in
  process_source one_file false (Some (c_str "a.txt")) true false s =
    Ret (mk_ps [[]; c_str "two"; []; c_str "one"] [] 0, 0%Z).
Proof.
  intros s.
  refine (proj2 (peek_reverse_blank one_file false (c_str "a.txt") "o"%char
    (c_str "ne" ++ [NEWLINE; NEWLINE] ++ c_str "two") s _ _ _));
    [vm_compute; discriminate..|reflexivity].
Defined.

Lemma peek_numbers_reverse_witness :
  let s := mk_ps [] [] 0 in
  process_source one_file false (Some (c_str "a.txt")) true true s =
    Ret (mk_ps [c_str "2 two"; []; c_str "1 one"] [] 2, 0%Z).
Proof.
  intros s.
  refine (proj2 (peek_numbers_reverse one_file false (c_str "a.txt")
    (c_str "one" ++ [NEWLINE; NEWLINE] ++ c_str "two" ++ [NEWLINE]) s _ _ _));
    [vm_compute; discriminate|reflexivity|vm_compute; discriminate].
Defined.

Lemma peek_returns_witness :
  exists s, peek one_file true [word_tok (c_str "peek"); word_tok (c_str "-rn"); word_tok (c_str "a.txt")]
              (c_str "x") = Ret s.
Proof.
  apply (peek_returns one_file true 9).
  - intros f data readable. unfold one_file. destruct (streq f (c_str "a.txt")); [|done].
    intros [= <- _]. vm_compute. lia.
  - vm_compute. discriminate.
Defined.
