(* ===== verification/Hop.v ===== *)
(** * The [hop] command and its directory history ([c-shell/src/hop.c])

    [hop] changes the working directory; every directory it lands in is
    entered into a table of at most 256 entries with a visit count and the
    time of the last visit, which is written to a history file.  A name that
    is no directory is looked up in the table: the entry with the highest
    score (visits weighted by recency) whose path contains the name wins.

    The directory tree, the clock and files are the class [DirOS]. *)

From S2P Require Import Prelude Lexer.

Definition MAX_ENTRIES : nat := 256.
Definition HOP_PATH_MAX : nat := 4096.

Record frecency_entry_t : Type := mk_entry {
  fe_path : cstr;
  fe_frequency : Z;
  fe_last_access : Z
}.

#[global] Instance frecency_entry_eq_dec : EqDecision frecency_entry_t.
Proof. solve_decision. Defined.

Class DirOS (W : Type) := {
  dir_getcwd : W -> option cstr;
  dir_chdir : W -> cstr -> option W;
  dir_isdir : W -> cstr -> bool;
  dir_time : W -> Z;
  dir_readlink : W -> option cstr;
  (** [fopen(path, "w")], the text, [fclose]; unchanged when it cannot be opened *)
  dir_write : W -> cstr -> cstr -> W;
  dir_read : W -> cstr -> option cstr
}.

(** The globals of the file, the environment variable OLDPWD and the text
    printed. *)
Record hstate (W : Type) : Type := mk_hs {
  hs_os : W;
  hs_db : list frecency_entry_t;
  hs_home : cstr;
  hs_history_path : cstr;
  hs_oldpwd : option cstr;
  hs_out : list cstr
}.
Arguments mk_hs {W}.
Arguments hs_os {W}.
Arguments hs_db {W}.
Arguments hs_home {W}.
Arguments hs_history_path {W}.
Arguments hs_oldpwd {W}.
Arguments hs_out {W}.

(** ** The history file *)

(** [fprintf(fp, "%d %ld %s\n", ...)] *)
Definition entry_line (e : frecency_entry_t) : cstr :=
  fmt_d (fe_frequency e) ++ " "%char :: fmt_d (fe_last_access e) ++ " "%char :: fe_path e ++ [NEWLINE].

Definition history_text (db : list frecency_entry_t) : cstr := mjoin (entry_line <$> db).

(** [isspace] *)
Definition isspace (c : ascii) : bool :=
  let n := nat_of_ascii c in (n =? 32) || ((9 <=? n) && (n <=? 13)).

Fixpoint skip_while (p : ascii -> bool) (s : cstr) : cstr :=
  match s with
  | c :: s' => if p c then skip_while p s' else s
  | [] => []
  end.

(** One integer conversion of [sscanf]: white space, a sign, digits; the value
    and the rest. *)
Definition scan_number (s : cstr) : option (Z * cstr) :=
  let s := skip_while isspace s in
  let '(neg, s) :=
    match s with
    | c :: s' => if decide (c = "-"%char) then (true, s')
                 else if decide (c = "+"%char) then (false, s') else (false, s)
    | [] => (false, [])
    end in
  let ds := digit_prefix s in
  if length ds =? 0 then None
  else Some (if neg : bool then (- digits_val ds)%Z else digits_val ds, drop (length ds) s).

Definition clamp_long (z : Z) : Z := Z.max (- LONG_MAX - 1) (Z.min LONG_MAX z).

(** [sscanf(line, "%d %ld", &freq, &last_acc) == 2] *)
Definition sscanf_entry (line : cstr) : option (Z * Z) :=
  match scan_number line with
  | Some (freq, rest) =>
      match scan_number rest with
      | Some (last_acc, _) => Some (wrap32 (clamp_long freq), clamp_long last_acc)
      | None => None
      end
  | None => None
  end.

Definition is_blank (c : ascii) : bool := bool_decide (c = " "%char) || bool_decide (c = TAB).
Definition is_digit_or_minus (c : ascii) : bool := isdigit c || bool_decide (c = "-"%char).
Definition is_eol (c : ascii) : bool := bool_decide (c = NEWLINE) || bool_decide (c = CR).

(** The five loops over [p], and the stripping of the line end. *)
Definition path_start (line : cstr) : cstr :=
  skip_while is_blank (skip_while is_digit_or_minus (skip_while is_blank
    (skip_while isdigit (skip_while is_blank line)))).

Definition strip_eol (p : cstr) : cstr := reverse (skip_while is_eol (reverse p)).

Definition load_line (line : cstr) : option frecency_entry_t :=
  match sscanf_entry line with
  | Some (freq, last_acc) =>
      let p := strip_eol (path_start line) in
      if 0 <? length p then Some (mk_entry (strncpy_buf HOP_PATH_MAX p) freq last_acc) else None
  | None => None
  end.

Fixpoint load_loop (fuel : nat) (data : cstr) (db : list frecency_entry_t)
    : outcome (list frecency_entry_t) :=
  match fuel with
  | O => NoFuel
  | S fuel =>
      if length db <? MAX_ENTRIES then
        match fgets (HOP_PATH_MAX + 128) data with
        | None => Ret db
        | Some (line, rest) =>
            match load_line (cstr_prefix line) with
            | Some e => load_loop fuel rest (db ++ [e])
            | None => load_loop fuel rest db
            end
        end
      else Ret db
  end.

(** ** Scores *)
Definition long_ok (z : Z) : bool := ((- LONG_MAX - 1 <=? z) && (z <=? LONG_MAX))%Z.
Definition int_ok (z : Z) : bool := ((- INT_MAX - 1 <=? z) && (z <=? INT_MAX))%Z.

Definition weight (t_d : Z) : Z :=
  if (t_d <? 3600)%Z then 400
  else if (t_d <? 86400)%Z then 200
  else if (t_d <? 604800)%Z then 100
  else 50.

Definition score (now : Z) (e : frecency_entry_t) : outcome Z :=
  let t_d := (now - fe_last_access e)%Z in
  if negb (long_ok t_d) then Undef
  else
    let s := (fe_frequency e * weight t_d)%Z in
    if int_ok s then Ret s else Undef.

(** ** Lookup *)
Section order.
Variables (now : Z) (db : list frecency_entry_t).

Definition score_at (idx : nat) : outcome Z :=
  let* e := from_option (db !! idx) in score now e.

(** The inner loop, [cnt] iterations from [j] on. *)
Fixpoint order_inner (cnt i j : nat) (order : list nat) : outcome (list nat) :=
  match cnt with
  | O => Ret order
  | S cnt =>
      let* oj := from_option (order !! j) in
      let* oi := from_option (order !! i) in
      let* sj := score_at oj in
      let* si := score_at oi in
      let order := if (si <? sj)%Z then <[j := oi]> (<[i := oj]> order) else order in
      order_inner cnt i (S j) order
  end.

Fixpoint order_outer (cnt i : nat) (order : list nat) : outcome (list nat) :=
  match cnt with
  | O => Ret order
  | S cnt =>
      let* order := order_inner (length db - S i) i (S i) order in
      order_outer cnt (S i) order
  end.

Definition sort_order : outcome (list nat) :=
  order_outer (length db - 1) 0 (seq 0 (length db)).

(** The first entry in that order that matches. *)
Fixpoint first_match (isdir : cstr -> bool) (name : cstr) (order : list nat) : outcome (option cstr) :=
  match order with
  | [] => Ret None
  | idx :: order =>
      let* e := from_option (db !! idx) in
      if strstr (fe_path e) name && isdir (fe_path e) then Ret (Some (fe_path e))
      else first_match isdir name order
  end.
End order.

Definition frecency_lookup (isdir : cstr -> bool) (now : Z) (db : list frecency_entry_t) (name : cstr)
    : outcome (option cstr) :=
  let* order := sort_order now db in
  first_match db isdir name order.

(** ** Recording a visit *)

(** The loop that finds the entry with the lowest score. *)
Fixpoint min_loop (now : Z) (entries : list frecency_entry_t) (i min_idx : nat) (min_sc : Z) : outcome nat :=
  match entries with
  | [] => Ret min_idx
  | e :: entries =>
      let* s := score now e in
      if (s <? min_sc)%Z then min_loop now entries (S i) i s
      else min_loop now entries (S i) min_idx min_sc
  end.

Definition new_entry (now : Z) (abs_path : cstr) : frecency_entry_t :=
  mk_entry (strncpy_buf HOP_PATH_MAX abs_path) 1 now.

Definition update_db (now : Z) (db : list frecency_entry_t) (abs_path : cstr)
    : outcome (list frecency_entry_t) :=
  match list_find (fun e => streq (fe_path e) abs_path = true) db with
  | Some (i, e) =>
      if (fe_frequency e <? INT_MAX)%Z
      then Ret (<[i := mk_entry (fe_path e) (fe_frequency e + 1) now]> db)
      else Undef
  | None =>
      if length db <? MAX_ENTRIES then Ret (db ++ [new_entry now abs_path])
      else
        match db with
        | [] => Undef
        | e0 :: rest =>
            let* min_sc := score now e0 in
            let* min_idx := min_loop now rest 1 0 min_sc in
            Ret (<[min_idx := new_entry now abs_path]> db)
        end
  end.

Section hop.
Context {W : Type} `{DirOS W}.
Implicit Types s : hstate W.

Definition hop_printf s (line : cstr) : hstate W :=
  mk_hs (hs_os s) (hs_db s) (hs_home s) (hs_history_path s) (hs_oldpwd s) (hs_out s ++ [line]).

Definition save_history s : hstate W :=
  mk_hs (dir_write (hs_os s) (hs_history_path s) (history_text (hs_db s)))
    (hs_db s) (hs_home s) (hs_history_path s) (hs_oldpwd s) (hs_out s).

Definition load_history s : outcome (hstate W) :=
  match dir_read (hs_os s) (hs_history_path s) with
  | None => Ret s
  | Some data =>
      let* db := load_loop (S (length data)) data [] in
      Ret (mk_hs (hs_os s) db (hs_home s) (hs_history_path s) (hs_oldpwd s) (hs_out s))
  end.

Definition update_frecency s (abs_path : cstr) : outcome (hstate W) :=
  let* db := update_db (dir_time (hs_os s)) (hs_db s) abs_path in
  Ret (save_history
    (mk_hs (hs_os s) db (hs_home s) (hs_history_path s) (hs_oldpwd s) (hs_out s))).

Definition do_chdir s (target : cstr) : outcome (hstate W * bool) :=
  let prev := default [] (dir_getcwd (hs_os s)) in
  match dir_chdir (hs_os s) target with
  | None => Ret (s, false)
  | Some w =>
      let s := mk_hs w (hs_db s) (hs_home s) (hs_history_path s) (hs_oldpwd s) (hs_out s) in
      let* s := match dir_getcwd w with
                | Some landed => update_frecency s landed
                | None => Ret s
                end in
      let old := if 0 <? length prev then Some prev else hs_oldpwd s in
      Ret (mk_hs (hs_os s) (hs_db s) (hs_home s) (hs_history_path s) old (hs_out s), true)
  end.

(** The directory part of the path of the executable, for the history file. *)
Fixpoint dir_part (s : cstr) : option cstr :=
  match s with
  | [] => None
  | c :: s =>
      match dir_part s with
      | Some d => Some (c :: d)
      | None => if decide (c = "/"%char) then Some [] else None
      end
  end.

Definition history_file (w : W) (home_dir : cstr) : cstr :=
  let fallback := take (HOP_PATH_MAX - 1) (home_dir ++ c_str "/hop_hist") in
  match dir_readlink w with
  | Some exe_path =>
      if 0 <? length exe_path then
        match dir_part exe_path with
        | Some d => take (HOP_PATH_MAX - 15) d ++ c_str "/hop_hist"
        | None => fallback
        end
      else fallback
  | None => fallback
  end.

Definition hop_init (w : W) (oldpwd : option cstr) (home_dir : cstr) : outcome (hstate W) :=
  load_history (mk_hs w [] (strncpy_buf HOP_PATH_MAX home_dir) (history_file w home_dir) oldpwd []).

Definition no_such s : hstate W := hop_printf s (c_str "hop: No such directory").

(** [if (!do_chdir(target)) printf(...)] *)
Definition chdir_or_say s (target : cstr) : outcome (hstate W) :=
  let* '(s, ok) := do_chdir s target in Ret (if ok : bool then s else no_such s).

(** One argument. *)
Definition hop_arg s (arg : cstr) : outcome (hstate W) :=
  if streq arg (c_str "~") then let* '(s, _) := do_chdir s (hs_home s) in Ret s
  else if streq arg (c_str ".") then Ret s
  else if streq arg (c_str "..") then let* '(s, _) := do_chdir s (c_str "..") in Ret s
  else if streq arg (c_str "-") then
    match hs_oldpwd s with
    | Some old => chdir_or_say (hop_printf s old) old
    | None => Ret s
    end
  else if dir_isdir (hs_os s) arg then chdir_or_say s arg
  else
    let* m := frecency_lookup (dir_isdir (hs_os s)) (dir_time (hs_os s)) (hs_db s) arg in
    match m with
    | Some path => chdir_or_say s path
    | None => Ret (no_such s)
    end.

Fixpoint hop_args s (toks : token_list_t) : outcome (hstate W) :=
  match toks with
  | [] => Ret s
  | t :: toks =>
      match tok_type t with
      | OP_WORD => let* s := hop_arg s (default [] (tok_text t)) in hop_args s toks
      | _ => hop_args s toks
      end
  end.

Definition hop s (list : token_list_t) : outcome (hstate W) :=
  if length list <=? 1 then let* '(s, _) := do_chdir s (hs_home s) in Ret s
  else hop_args s (drop 1 list).
End hop.

(** ** Proofs: the history file *)
Lemma skip_while_app p l c r :
  forallb p l = true -> p c = false -> skip_while p (l ++ c :: r) = c :: r.
Proof.
  induction l as [|x l IH]; simpl; intros Hl Hc; [by rewrite Hc|].
  apply andb_true_iff in Hl as [-> ?]. by apply IH.
Qed.

Lemma digit_prefix_app l c r :
  forallb isdigit l = true -> isdigit c = false -> digit_prefix (l ++ c :: r) = l.
Proof.
  induction l as [|x l IH]; simpl; intros Hl Hc; [by rewrite Hc|].
  apply andb_true_iff in Hl as [-> ?]. by rewrite IH.
Qed.

(** A digit is no white space and no sign. *)
Lemma digit_plain c : isdigit c = true ->
  isspace c = false /\ is_blank c = false /\ c <> "-"%char /\ c <> "+"%char /\ c <> NEWLINE /\ c <> NUL.
Proof.
  destruct c as [b0 b1 b2 b3 b4 b5 b6 b7].
  destruct b0, b1, b2, b3, b4, b5, b6, b7; vm_compute; intros; try done;
    split_and!; (reflexivity || discriminate).
Qed.

(** The text of a number: an optional sign and digits. *)
Lemma fmt_d_shape z : exists ds, forallb isdigit ds = true /\ ds <> [] /\ digits_val ds = Z.abs z /\
  fmt_d z = if (z <? 0)%Z then "-"%char :: ds else ds.
Proof.
  destruct (Z.ltb_spec z 0).
  - destruct (fmt_d_digits (- z)) as (Hd & Hv & Hn); [lia|]. exists (fmt_d (- z)).
    split_and!; [done|done|lia|by apply fmt_d_neg].
  - destruct (fmt_d_digits z) as (Hd & Hv & Hn); [lia|]. exists (fmt_d z). split_and!; [done|done|lia|done].
Qed.

Lemma scan_number_fmt z c r : isdigit c = false -> scan_number (fmt_d z ++ c :: r) = Some (z, c :: r).
Proof.
  intros Hc. destruct (fmt_d_shape z) as (ds & Hd & Hn & Hv & Hz). unfold scan_number. rewrite Hz.
  destruct ds as [|d ds]; [done|]. assert (isdigit d = true) as Hd0 by (simpl in Hd; by apply andb_true_iff in Hd as [-> _]).
  destruct (digit_plain d Hd0) as (Hs & _ & Hm & Hp & _).
  destruct (Z.ltb_spec z 0).
  - cbn [app skip_while]. change (isspace "-") with false. cbv iota.
    rewrite decide_True by done. rewrite app_comm_cons, digit_prefix_app by done.
    change (length (d :: ds) =? 0) with false. cbv iota. rewrite Hv, drop_app_length. do 2 f_equal. lia.
  - cbn [app skip_while]. rewrite Hs. rewrite !decide_False by done.
    rewrite app_comm_cons, digit_prefix_app by done.
    change (length (d :: ds) =? 0) with false. cbv iota. rewrite Hv, drop_app_length. do 2 f_equal. lia.
Qed.

Lemma scan_number_space s : scan_number (" "%char :: s) = scan_number s.
Proof. done. Qed.

(** The entries the program itself writes. *)
Record entry_ok (e : frecency_entry_t) : Prop := {
  eo_freq : (0 <= fe_frequency e <= INT_MAX)%Z;
  eo_last : (- LONG_MAX - 1 <= fe_last_access e <= LONG_MAX)%Z;
  eo_head : exists c p, fe_path e = c :: p /\ is_blank c = false;
  eo_tail : exists c p, reverse (fe_path e) = c :: p /\ is_eol c = false;
  eo_newline : NEWLINE ∉ fe_path e;
  eo_nul : no_nul (fe_path e);
  eo_length : length (fe_path e) < HOP_PATH_MAX
}.

Lemma digits_minus ds : forallb isdigit ds = true -> forallb is_digit_or_minus ds = true.
Proof.
  intros Hd. apply forallb_forall. intros x Hx. rewrite forallb_forall in Hd.
  unfold is_digit_or_minus. by rewrite Hd.
Qed.

Lemma path_start_entry f l path c p :
  (0 <= f)%Z -> path = c :: p -> is_blank c = false ->
  path_start (fmt_d f ++ " "%char :: fmt_d l ++ " "%char :: path) = path.
Proof.
  intros Hf -> Hb. unfold path_start.
  destruct (fmt_d_digits f Hf) as (Hd & _ & Hn). destruct (fmt_d f) as [|d ds] eqn:E; [done|].
  assert (isdigit d = true) as Hd0 by (simpl in Hd; by apply andb_true_iff in Hd as [-> _]).
  simpl ((d :: ds) ++ _). cbn [skip_while]. rewrite (proj1 (proj2 (digit_plain d Hd0))).
  rewrite app_comm_cons, (skip_while_app isdigit) by done.
  change (skip_while is_blank (" "%char :: ?x)) with (skip_while is_blank x).
  cbn [skip_while]. change (is_blank " ") with true. cbv iota.
  destruct (fmt_d_shape l) as (dl & Hdl & Hnl & _ & El).
  assert (forallb is_digit_or_minus (fmt_d l) = true) as Hall.
  { rewrite El. destruct (l <? 0)%Z; [simpl|]; by apply digits_minus. }
  assert (exists x xs, fmt_d l = x :: xs /\ is_blank x = false) as (x & xs & Ex & Hx).
  { rewrite El. destruct (l <? 0)%Z; [by do 2 eexists|]. destruct dl as [|x xs]; [done|].
    exists x, xs. split; [done|]. simpl in Hdl. apply andb_true_iff in Hdl as [Hx _].
    by apply digit_plain. }
  rewrite Ex. simpl ((x :: xs) ++ _). cbn [skip_while]. rewrite Hx. rewrite app_comm_cons, <- Ex.
  rewrite (skip_while_app is_digit_or_minus) by done. cbn [skip_while]. change (is_blank " ") with true.
  cbv iota. by rewrite Hb.
Qed.

Lemma load_line_entry e : entry_ok e -> load_line (entry_line e) = Some e.
Proof.
  intros [Hf Hl (c & p & Hc & Hb) (c' & p' & Ht & He) Hnl Hn Hlen]. unfold load_line, sscanf_entry, entry_line.
  rewrite scan_number_fmt by done. rewrite scan_number_space, scan_number_fmt by done.
  rewrite (path_start_entry _ _ _ c (p ++ [NEWLINE])) by (rewrite ?Hc; done || lia).
  assert (strip_eol (fe_path e ++ [NEWLINE]) = fe_path e) as ->.
  { unfold strip_eol. rewrite reverse_snoc. cbn [skip_while]. change (is_eol NEWLINE) with true.
    cbv iota. rewrite Ht. cbn [skip_while]. rewrite He. rewrite <- Ht. apply reverse_involutive. }
  rewrite Hc at 1. cbn [length Nat.ltb Nat.leb]. unfold strncpy_buf. rewrite take_ge by (unfold HOP_PATH_MAX in *; lia).
  unfold clamp_long, LONG_MAX, INT_MAX in *. destruct e as [path f l]. simpl in *. f_equal. f_equal.
  - rewrite wrap32_small; unfold INT_MAX; lia.
  - lia.
Qed.

Lemma fmt_d_plain z : (- LONG_MAX - 1 <= z <= LONG_MAX)%Z ->
  (NEWLINE ∉ fmt_d z) /\ no_nul (fmt_d z) /\ length (fmt_d z) <= 20.
Proof.
  intros Hz. assert (forall n, (0 <= n <= LONG_MAX + 1)%Z ->
    (NEWLINE ∉ fmt_d n) /\ no_nul (fmt_d n) /\ length (fmt_d n) <= 19) as Hpos.
  { intros n Hn. destruct (fmt_d_digits n) as (Hd & _ & _); [lia|]. rewrite forallb_forall in Hd.
    unfold no_nul. split_and!; [| |apply (fmt_d_length 18); unfold LONG_MAX in *; lia];
      intros Hin; apply list_elem_of_In, Hd, digit_plain in Hin as (_ & _ & _ & _ & ? & ?); done. }
  destruct (decide (z < 0)%Z).
  - rewrite fmt_d_neg by done. destruct (Hpos (- z)%Z) as (H1 & H2 & H3); [unfold LONG_MAX in *; lia|].
    unfold no_nul in *. split_and!; [| |simpl; lia]; rewrite elem_of_cons; intros [?|?]; done.
  - destruct (Hpos z) as (H1 & H2 & H3); [lia|]. split_and!; [done|done|lia].
Qed.

Lemma entry_line_shape e : entry_ok e -> exists l,
  entry_line e = l ++ [NEWLINE] /\ (NEWLINE ∉ l) /\ no_nul (entry_line e) /\ length l < HOP_PATH_MAX + 128 - 1.
Proof.
  intros [Hf Hl _ _ Hnl Hn Hlen].
  destruct (fmt_d_plain (fe_frequency e)) as (Hf1 & Hf2 & Hf3); [unfold INT_MAX, LONG_MAX in *; lia|].
  destruct (fmt_d_plain (fe_last_access e)) as (Hl1 & Hl2 & Hl3); [done|].
  exists (fmt_d (fe_frequency e) ++ " "%char :: fmt_d (fe_last_access e) ++ " "%char :: fe_path e).
  split_and!.
  - unfold entry_line. rewrite <- app_assoc. simpl. by rewrite <- app_assoc.
  - rewrite elem_of_app, elem_of_cons, elem_of_app, elem_of_cons. intros [?|[?|[?|[?|?]]]]; done.
  - unfold entry_line, no_nul in *. rewrite elem_of_app, elem_of_cons, elem_of_app, elem_of_cons, elem_of_app.
    intros [?|[?|[?|[?|[?|?%list_elem_of_singleton]]]]]; done.
  - rewrite length_app. simpl. rewrite length_app. simpl. unfold HOP_PATH_MAX in *. lia.
Qed.

Lemma load_loop_history db : forall fuel acc,
  Forall entry_ok db -> length acc + length db <= MAX_ENTRIES -> length (history_text db) < fuel ->
  load_loop fuel (history_text db) acc = Ret (acc ++ db).
Proof.
  induction db as [|e db IH]; intros [|fuel] acc Hok Hcap Hf; try lia; cbn [load_loop].
  { rewrite app_nil_r. by case_match. }
  inversion Hok as [|? ? He Hok']; subst. simpl in Hcap.
  destruct (Nat.ltb_spec (length acc) MAX_ENTRIES); [|lia].
  destruct (entry_line_shape e He) as (l & El & Hnl & Hnn & Hlen).
  change (history_text (e :: db)) with (entry_line e ++ history_text db) in Hf |- *.
  rewrite El, <- app_assoc in Hf |- *. simpl ([NEWLINE] ++ _) in Hf |- *.
  assert (fgets (HOP_PATH_MAX + 128) (l ++ NEWLINE :: history_text db) =
    Some (l ++ [NEWLINE], history_text db)) as ->.
  { unfold fgets. rewrite fgets_take_line by done. by destruct l. }
  rewrite <- El, cstr_prefix_no_nul, load_line_entry by done.
  rewrite IH; [by rewrite <- app_assoc|done|rewrite length_app; simpl; lia|].
  rewrite length_app in Hf. simpl in Hf. lia.
Qed.

(** ** Proofs: the lookup *)
Section lookup.
Variables (now : Z) (db : list frecency_entry_t) (sc : nat -> Z).
Hypothesis scores : forall i e, db !! i = Some e -> score now e = Ret (sc i).

(** [order] lists the indices of the table. *)
Definition covers (order : list nat) : Prop :=
  length order = length db /\ forall x, x ∈ order <-> x < length db.

(** Positions below [i] hold scores at least as high as all behind them. *)
Definition sorted_below (i : nat) (order : list nat) : Prop :=
  forall k l a b, k < i -> k < l -> order !! k = Some a -> order !! l = Some b -> (sc b <= sc a)%Z.

Lemma score_at_ret order k a : covers order -> order !! k = Some a -> score_at now db a = Ret (sc a).
Proof.
  intros [_ Hc] Hk. unfold score_at.
  assert (a < length db) as Ha by (apply Hc; by eapply list_elem_of_lookup_2).
  destruct (lookup_lt_is_Some_2 db a Ha) as [e He]. rewrite He. simpl. by apply scores.
Qed.

Lemma lookup_swap (order : list nat) i j a b k : i <> j -> order !! i = Some a -> order !! j = Some b ->
  <[j := a]> (<[i := b]> order) !! k =
    if decide (k = j) then Some a else if decide (k = i) then Some b else order !! k.
Proof.
  intros Hij Hi Hj. apply lookup_lt_Some in Hi as Hi', Hj as Hj'.
  destruct (decide (k = j)) as [->|Hkj]; [by rewrite list_lookup_insert_eq by by rewrite length_insert|].
  rewrite list_lookup_insert_ne by done. destruct (decide (k = i)) as [->|Hki].
  - by rewrite list_lookup_insert_eq.
  - by rewrite list_lookup_insert_ne.
Qed.

Lemma covers_swap order i j a b : i <> j -> order !! i = Some a -> order !! j = Some b ->
  covers order -> covers (<[j := a]> (<[i := b]> order)).
Proof.
  intros Hij Hi Hj [Hl Hc]. split; [by rewrite !length_insert|]. intros x. rewrite <- Hc.
  rewrite !list_elem_of_lookup. split; intros [k Hk].
  - rewrite (lookup_swap order i j a b) in Hk by done. repeat case_decide; simplify_eq; eauto.
  - destruct (decide (k = i)) as [->|]; [exists j|destruct (decide (k = j)) as [->|]; [exists i|exists k]];
      rewrite (lookup_swap order i j a b) by done; repeat case_decide; congruence.
Qed.

(** The inner loop brings the best score of the rest to position [i]. *)
Lemma order_inner_spec cnt : forall i j order,
  covers order -> i < j -> j + cnt = length db ->
  (forall l a b, i < l < j -> order !! i = Some a -> order !! l = Some b -> (sc b <= sc a)%Z) ->
  exists order', order_inner now db cnt i j order = Ret order' /\ covers order' /\
    (forall k, k < i -> order' !! k = order !! k) /\
    (forall l b, i <= l -> order' !! l = Some b -> exists l', i <= l' /\ order !! l' = Some b) /\
    (forall l a b, i < l -> order' !! i = Some a -> order' !! l = Some b -> (sc b <= sc a)%Z).
Proof.
  induction cnt as [|cnt IH]; intros i j order Hc Hij Hcnt Hbest; cbn [order_inner].
  { exists order. split_and!; [done|done|done|eauto|]. intros l a b Hl Ha Hb. eapply Hbest; [|done..].
    apply lookup_lt_Some in Hb. destruct Hc as [Hc _]. lia. }
  assert (length order = length db) as Hlen by apply Hc.
  destruct (lookup_lt_is_Some_2 order j) as [oj Hj]; [lia|].
  destruct (lookup_lt_is_Some_2 order i) as [oi Hi]; [lia|].
  rewrite Hj, Hi. cbn [from_option obind].
  rewrite (score_at_ret order j oj), (score_at_ret order i oi) by done. cbn [obind].
  destruct (Z.ltb_spec (sc oi) (sc oj)) as [Hlt|Hge].
  - destruct (IH i (S j) (<[j := oi]> (<[i := oj]> order))) as (order' & -> & Hc' & Hlow & Hfrom & Hb');
      [by apply covers_swap; lia || done|lia|lia| |].
    { intros l a b Hl. rewrite !(lookup_swap order i j) by (lia || done).
      destruct (decide (i = j)); [lia|]. rewrite decide_True by done. intros [= <-].
      destruct (decide (l = j)); [intros [= <-]; lia|]. destruct (decide (l = i)); [lia|].
      intros Hb. pose proof (Hbest l oi b ltac:(lia) Hi Hb). lia. }
    exists order'. split_and!; [done|done| | |done].
    + intros k Hk. rewrite Hlow by done. rewrite (lookup_swap order i j) by (lia || done).
      by rewrite !decide_False by lia.
    + intros l b Hl Hb. destruct (Hfrom l b Hl Hb) as (l' & Hl' & E).
      rewrite (lookup_swap order i j) in E by (lia || done).
      repeat case_decide; simplify_eq; [by exists i|by exists j; split; [lia|]|by exists l'].
  - apply IH; [done|lia|lia|]. intros l a b Hl Ha Hb. simplify_eq.
    destruct (decide (l = j)) as [->|]; [simplify_eq; lia|]. eapply Hbest; [|done..]. lia.
Qed.

Lemma order_outer_spec cnt : forall i order,
  covers order -> (cnt <> 0 -> i + cnt < length db) -> sorted_below i order ->
  exists order', order_outer now db cnt i order = Ret order' /\ covers order' /\ sorted_below (i + cnt) order'.
Proof.
  induction cnt as [|cnt IH]; intros i order Hc Hn Hs; cbn [order_outer].
  { exists order. by rewrite Nat.add_0_r. }
  destruct (order_inner_spec (length db - S i) i (S i) order) as (order1 & -> & Hc1 & Hlow & Hfrom & Hb);
    [done|lia|lia|intros; lia|]. cbn [obind].
  destruct (IH (S i) order1) as (order2 & -> & Hc2 & Hs2); [done|lia| |].
  - intros k l a b Hk Hl Ha Hb'. destruct (decide (k = i)) as [->|]; [by apply (Hb l)|].
    rewrite Hlow in Ha by lia. destruct (decide (l < i)).
    + rewrite Hlow in Hb' by done. eapply Hs; [|exact Hl|done..]. lia.
    + destruct (Hfrom l b ltac:(lia) Hb') as (l' & Hl' & E). eapply Hs; [| |exact Ha|exact E]; lia.
  - exists order2. split_and!; [done|done|]. by replace (i + S cnt) with (S i + cnt) by lia.
Qed.

Lemma sort_order_spec : exists order, sort_order now db = Ret order /\ covers order /\
  forall k l a b, k < l -> order !! k = Some a -> order !! l = Some b -> (sc b <= sc a)%Z.
Proof.
  unfold sort_order. destruct (order_outer_spec (length db - 1) 0 (seq 0 (length db))) as (order & -> & Hc & Hs).
  - split; [apply length_seq|]. intros x. rewrite elem_of_seq. lia.
  - lia.
  - intros k l a b Hk. lia.
  - exists order. split_and!; [done|done|]. intros k l a b Hl Ha Hb. eapply Hs; [|exact Hl|done..].
    apply lookup_lt_Some in Hb. destruct Hc as [Hc _]. lia.
Qed.

(** An entry that a name stands for. *)
Definition matches (isdir : cstr -> bool) (name : cstr) (e : frecency_entry_t) : Prop :=
  (exists a b, fe_path e = a ++ name ++ b) /\ isdir (fe_path e) = true.

Lemma first_match_spec isdir name order :
  (forall x, x ∈ order -> x < length db) ->
  (forall k l a b, k < l -> order !! k = Some a -> order !! l = Some b -> (sc b <= sc a)%Z) ->
  (first_match db isdir name order = Ret None /\
   forall i e, i ∈ order -> db !! i = Some e -> ~ matches isdir name e) \/
  (exists i e, first_match db isdir name order = Ret (Some (fe_path e)) /\
    i ∈ order /\ db !! i = Some e /\ matches isdir name e /\
    forall j e', j ∈ order -> db !! j = Some e' -> matches isdir name e' -> (sc j <= sc i)%Z).
Proof.
  induction order as [|x order IH]; intros Hlt Hs; cbn [first_match]; [left; set_solver|].
  destruct (lookup_lt_is_Some_2 db x) as [e He]; [apply Hlt; set_solver|]. rewrite He. cbn [from_option obind].
  assert (strstr (fe_path e) name && isdir (fe_path e) = true <-> matches isdir name e) as Hm.
  { unfold matches. by rewrite andb_true_iff, strstr_spec. }
  assert (forall k l a b, k < l -> order !! k = Some a -> order !! l = Some b -> (sc b <= sc a)%Z) as Hs'.
  { intros k l a b Hl Ha Hb. by apply (Hs (S k) (S l) a b); [lia| |]. }
  destruct (strstr _ _ && _).
  - right. exists x, e. split_and!; [done|set_solver|done|by apply Hm|].
    intros j e' Hj _ _. apply elem_of_cons in Hj as [->|Hj]; [lia|].
    apply list_elem_of_lookup in Hj as [l Hl]. by apply (Hs 0 (S l) x j); [lia| |].
  - assert (~ matches isdir name e) as Hno by (intros Hx; by apply Hm in Hx).
    destruct (IH ltac:(set_solver) Hs') as [[-> Hn]|(i & e' & -> & Hi & He' & Hme & Hbest)].
    + left. split; [done|]. intros i e' Hi. apply elem_of_cons in Hi as [->|Hi]; [naive_solver|by apply Hn].
    + right. exists i, e'. split_and!; [done|set_solver|done|done|].
      intros j e2 Hj Hj' Hm'. apply elem_of_cons in Hj as [->|Hj]; [naive_solver|by eapply Hbest].
Qed.
End lookup.

(** ** Proofs: recording a visit *)

(** Entries far from overflow: at most [k] visits, times in range. *)
Definition entry_small (k : Z) (e : frecency_entry_t) : Prop :=
  (0 <= fe_frequency e <= k)%Z /\ (0 <= fe_last_access e <= LONG_MAX)%Z.

(** The score as a number. *)
Definition score_of (now : Z) (e : frecency_entry_t) : Z :=
  (fe_frequency e * weight (now - fe_last_access e))%Z.

Lemma weight_range t : (50 <= weight t <= 400)%Z.
Proof. unfold weight. repeat case_match; lia. Qed.

Lemma score_ret now e k : (0 <= now <= LONG_MAX)%Z -> (400 * k <= INT_MAX)%Z -> entry_small k e ->
  score now e = Ret (score_of now e).
Proof.
  unfold entry_small, score, score_of, long_ok, int_ok. intros Hn Hk [Hf Hl].
  pose proof (weight_range (now - fe_last_access e)) as Hw.
  set (wt := weight _) in *. assert (0 <= fe_frequency e * wt <= 400 * k)%Z by nia.
  unfold LONG_MAX, INT_MAX in *.
  repeat (match goal with |- context [(?a <=? ?b)%Z] => destruct (Z.leb_spec a b); try lia end). done.
Qed.

Lemma min_loop_spec now db (sc : frecency_entry_t -> Z) :
  (forall e, e ∈ db -> score now e = Ret (sc e)) -> forall rest i m em,
  rest = drop i db -> db !! m = Some em -> (forall k e, k < i -> db !! k = Some e -> (sc em <= sc e)%Z) ->
  exists m' em', min_loop now rest i m (sc em) = Ret m' /\ db !! m' = Some em' /\
    forall e, e ∈ db -> (sc em' <= sc e)%Z.
Proof.
  intros Hsc. induction rest as [|e rest IH]; intros i m em Hr Hm Hlow; cbn [min_loop].
  { exists m, em. split_and!; [done|done|]. intros e He. apply list_elem_of_lookup in He as [k Hk].
    apply (Hlow k); [|done]. apply lookup_lt_Some in Hk.
    apply (f_equal length) in Hr. rewrite length_drop in Hr. simpl in Hr. lia. }
  assert (db !! i = Some e) as Hi.
  { rewrite <- (Nat.add_0_r i), <- lookup_drop, <- Hr. done. }
  rewrite (Hsc e) by by eapply list_elem_of_lookup_2. cbn [obind].
  assert (rest = drop (S i) db) as Hr'.
  { apply drop_S in Hi. congruence. }
  destruct (Z.ltb_spec (sc e) (sc em)); (apply IH; [done|done|]); intros k e' Hk He';
    (destruct (decide (k = i)) as [->|]; [simplify_eq; lia|]);
    pose proof (Hlow k e' ltac:(lia) He'); lia.
Qed.

Lemma NoDup_insert_fresh {A} (l : list A) i x : NoDup l -> (x ∉ l) -> NoDup (<[i := x]> l).
Proof.
  intros Hnd Hx. apply NoDup_alt. intros a b y Ha Hb.
  assert (forall k, <[i := x]> l !! k = Some y -> (k = i /\ y = x /\ k < length l) \/ (k <> i /\ l !! k = Some y)) as Hc.
  { intros k Hk. destruct (decide (k = i)) as [->|].
    - apply lookup_lt_Some in Hk as Hlt. rewrite length_insert in Hlt.
      rewrite list_lookup_insert_eq in Hk by done. naive_solver.
    - rewrite list_lookup_insert_ne in Hk by done. auto. }
  apply Hc in Ha as [(-> & -> & _)|[Ha1 Ha2]], Hb as [(-> & Hy & _)|[Hb1 Hb2]]; try done.
  - by apply list_elem_of_lookup_2 in Hb2.
  - subst. by apply list_elem_of_lookup_2 in Ha2.
  - by eapply NoDup_lookup.
Qed.

(** What a visit to [p] does to the table. *)
Record visited (now : Z) (p : cstr) (db db' : list frecency_entry_t) : Prop := {
  vi_length : length db' <= MAX_ENTRIES;
  vi_nodup : NoDup (fe_path <$> db');
  vi_entry : exists e, e ∈ db' /\ fe_path e = p /\ fe_last_access e = now /\
    match list_find (fun e => streq (fe_path e) p = true) db with
    | Some (_, old) => fe_frequency e = (fe_frequency old + 1)%Z
    | None => fe_frequency e = 1%Z
    end;
  vi_others : forall e, e ∈ db' -> fe_path e <> p -> e ∈ db;
  vi_evicted : forall e, e ∈ db -> e ∉ db' -> fe_path e <> p ->
    length db = MAX_ENTRIES /\ forall e2, e2 ∈ db -> (score_of now e <= score_of now e2)%Z
}.

Lemma elem_insert {A} (l : list A) i x y z : l !! i = Some y ->
  z ∈ <[i := x]> l -> z = x \/ z ∈ l.
Proof.
  intros Hi Hz. apply list_elem_of_lookup in Hz as [k Hk]. destruct (decide (k = i)) as [->|].
  - apply lookup_lt_Some in Hi. rewrite list_lookup_insert_eq in Hk by done. left. congruence.
  - rewrite list_lookup_insert_ne in Hk by done. right. by eapply list_elem_of_lookup_2.
Qed.

Lemma elem_not_insert {A} (l : list A) i x y z : l !! i = Some y ->
  z ∈ l -> z ∉ <[i := x]> l -> z = y.
Proof.
  intros Hi Hz Hn. apply list_elem_of_lookup in Hz as [k Hk]. destruct (decide (k = i)) as [->|]; [congruence|].
  exfalso. apply Hn. apply (list_elem_of_lookup_2 _ k). by rewrite list_lookup_insert_ne.
Qed.

Lemma elem_insert_eq {A} (l : list A) i x y : l !! i = Some y -> x ∈ <[i := x]> l.
Proof.
  intros Hi%lookup_lt_Some. apply (list_elem_of_lookup_2 _ i). by apply list_lookup_insert_eq.
Qed.

Lemma update_db_visited now db p k :
  (0 <= now <= LONG_MAX)%Z -> (400 * k <= INT_MAX)%Z -> Forall (entry_small k) db ->
  length db <= MAX_ENTRIES -> NoDup (fe_path <$> db) -> length p < HOP_PATH_MAX ->
  exists db', update_db now db p = Ret db' /\ visited now p db db'.
Proof.
  intros Hn Hk Hsm Hlen Hnd Hp.
  assert (fe_path (new_entry now p) = p) as Hnew.
  { unfold new_entry, strncpy_buf. simpl. rewrite take_ge; [done|]. unfold HOP_PATH_MAX in *. lia. }
  unfold update_db. destruct (list_find _ db) as [[i e]|] eqn:Ef.
  { pose proof Ef as (Hi & He & _)%list_find_Some. unfold streq in He. apply bool_decide_eq_true in He.
    pose proof (proj1 (Forall_lookup _ _) Hsm _ _ Hi) as [Hf _].
    destruct (Z.ltb_spec (fe_frequency e) INT_MAX); [|unfold INT_MAX in *; lia].
    eexists. split; [done|]. split.
    - by rewrite length_insert.
    - rewrite list_fmap_insert. simpl. by rewrite list_insert_id by by rewrite list_lookup_fmap, Hi.
    - eexists. split; [by eapply elem_insert_eq|]. by rewrite Ef.
    - intros x Hx Hne. eapply elem_insert in Hx as [->|Hx]; [done|done|done].
    - intros x Hx Hnx Hne. pose proof (elem_not_insert _ _ _ _ _ Hi Hx Hnx); congruence. }
  assert (p ∉ fe_path <$> db) as Hpn.
  { intros Hin. apply list_elem_of_fmap in Hin as (x & -> & Hx). rewrite list_find_None in Ef.
    rewrite Forall_forall in Ef. apply (Ef x Hx). unfold streq. by apply bool_decide_eq_true. }
  destruct (Nat.ltb_spec (length db) MAX_ENTRIES).
  { eexists. split; [done|]. split.
    - rewrite length_app. simpl. lia.
    - rewrite fmap_app. change (fe_path <$> [new_entry now p]) with [fe_path (new_entry now p)].
      rewrite Hnew. apply NoDup_app. split_and!; [done| |by apply NoDup_singleton].
      intros x Hx ->%list_elem_of_singleton. done.
    - exists (new_entry now p). rewrite Ef. split_and!; [set_solver|done..].
    - intros x Hx Hne. apply elem_of_app in Hx as [Hx| ->%list_elem_of_singleton]; done.
    - set_solver. }
  destruct db as [|e0 rest] eqn:Edb; [unfold MAX_ENTRIES in *; simpl in *; lia|]. rewrite <- Edb in *.
  assert (forall e, e ∈ db -> score now e = Ret (score_of now e)) as Hsc.
  { intros e He. apply (score_ret now e k); [done..|]. rewrite Forall_forall in Hsm. by apply Hsm. }
  rewrite (Hsc e0) by (rewrite Edb; set_solver). cbn [obind].
  destruct (min_loop_spec now db (score_of now) Hsc rest 1 0 e0) as (m & em & -> & Hm & Hmin).
  { by rewrite Edb. } { by rewrite Edb. }
  { intros j x Hj Hx. assert (j = 0) as -> by lia. rewrite Edb in Hx. simplify_eq/=. lia. }
  cbn [obind]. eexists. split; [done|]. split.
  - by rewrite length_insert.
  - rewrite list_fmap_insert, Hnew. by apply NoDup_insert_fresh.
  - exists (new_entry now p). rewrite Ef. split; [by eapply elem_insert_eq|done].
  - intros x Hx Hne. eapply elem_insert in Hx as [->|Hx]; done.
  - intros x Hx Hnx _. pose proof (elem_not_insert _ _ _ _ _ Hm Hx Hnx); subst x. split; [lia|done].
Qed.

(** ** Claims *)
Section claims.
Context {W : Type} `{DirOS W}.
Implicit Types s : hstate W.

Definition with_db s (db : list frecency_entry_t) : hstate W :=
  mk_hs (hs_os s) db (hs_home s) (hs_history_path s) (hs_oldpwd s) (hs_out s).

(** The history file round-trips: loading the file that was saved
    restores the table exactly, whatever was in memory before, for tables of
    at most 256 entries whose paths have no newline, no NUL, no leading blank
    and no trailing carriage return. *)
Theorem history_roundtrip (s : hstate W) (before : list frecency_entry_t)
    (Hos : forall w f t, dir_read (dir_write w f t) f = Some t)
    (Hok : Forall entry_ok (hs_db s)) (Hlen : length (hs_db s) <= MAX_ENTRIES) :
  load_history (with_db (save_history s) before) = Ret (save_history s).
Proof.
  unfold load_history, with_db, save_history.
  cbn [hs_os hs_db hs_home hs_history_path hs_oldpwd hs_out]. rewrite Hos.
  by rewrite load_loop_history by (done || lia).
Qed.

(** A visit enters the directory into the table: afterwards the table has
    an entry for it with the current time and one more visit (or the first),
    still no path twice and at most 256 entries; every other entry is an old
    one, and an entry is dropped only from a full table and only when no entry
    has a lower score. *)
Theorem update_frecency_visits (s : hstate W) (p : cstr) (k : Z)
    (Hnow : (0 <= dir_time (hs_os s) <= LONG_MAX)%Z) (Hk : (400 * k <= INT_MAX)%Z)
    (Hsm : Forall (entry_small k) (hs_db s)) (Hlen : length (hs_db s) <= MAX_ENTRIES)
    (Hnd : NoDup (fe_path <$> hs_db s)) (Hp : length p < HOP_PATH_MAX) :
  exists db', update_frecency s p = Ret (save_history (with_db s db')) /\
    visited (dir_time (hs_os s)) p (hs_db s) db'.
Proof.
  destruct (update_db_visited (dir_time (hs_os s)) (hs_db s) p k) as (db' & E & Hv); [done..|].
  exists db'. unfold update_frecency. rewrite E. done.
Qed.
End claims.

(** C21.  A name that is looked up yields the path of an existing directory of
    the table that contains the name and has the highest score of all such
    entries; the lookup fails only when there is none.  (The exchange sort of
    the code ends and neither leaves its array nor loses an index.) *)
Theorem frecency_lookup_best (isdir : cstr -> bool) (now k : Z) (db : list frecency_entry_t) (name : cstr)
    (Hnow : (0 <= now <= LONG_MAX)%Z) (Hk : (400 * k <= INT_MAX)%Z) (Hsm : Forall (entry_small k) db) :
  (frecency_lookup isdir now db name = Ret None /\ forall e, e ∈ db -> ~ matches isdir name e) \/
  (exists e, frecency_lookup isdir now db name = Ret (Some (fe_path e)) /\ e ∈ db /\ matches isdir name e /\
    forall e', e' ∈ db -> matches isdir name e' -> (score_of now e' <= score_of now e)%Z).
Proof.
  set (sc := fun i => default 0%Z (score_of now <$> db !! i)).
  assert (forall i e, db !! i = Some e -> score now e = Ret (sc i)) as Hsc.
  { intros i e Hi. unfold sc. rewrite Hi. simpl. apply (score_ret now e k); [done..|].
    by eapply Forall_lookup_1. }
  destruct (sort_order_spec now db sc Hsc) as (order & E & [Hlen Hc] & Hs).
  unfold frecency_lookup. rewrite E. cbn [obind].
  destruct (first_match_spec now db sc Hsc isdir name order) as [[-> Hn]|(i & e & -> & Hi & He & Hm & Hb)];
    [by intros; apply Hc|done| |].
  - left. split; [done|]. intros e He. apply list_elem_of_lookup in He as [i Hi].
    apply (Hn i); [|done]. apply Hc. by eapply lookup_lt_Some.
  - right. exists e. split_and!; [done|by eapply list_elem_of_lookup_2|done|].
    intros e' He' Hm'. apply list_elem_of_lookup in He' as [j Hj].
    assert (j ∈ order) as Hjo by (apply Hc; by eapply lookup_lt_Some).
    pose proof (Hb j e' Hjo Hj Hm') as Hle. unfold sc in Hle. by rewrite Hj, He in Hle.
Qed.

(** *** Going back *)

(** The documented behaviour of [getcwd] and [chdir] that [hop -] relies on:
    the working directory has a non-empty absolute path, writing the history
    file does not move the shell, and the path of the directory that was left
    leads back to it. *)
Class DirLaws (W : Type) `{DirOS W} := {
  cwd_path : forall w p, dir_getcwd w = Some p -> p <> [] /\ length p < HOP_PATH_MAX;
  cwd_write : forall w f t, dir_getcwd (dir_write w f t) = dir_getcwd w;
  time_write : forall w f t, dir_time (dir_write w f t) = dir_time w;
  time_chdir : forall w d w', dir_chdir w d = Some w' -> dir_time w' = dir_time w;
  chdir_back : forall w p d w1 f t, dir_getcwd w = Some p -> dir_chdir w d = Some w1 ->
    exists w2, dir_chdir (dir_write w1 f t) p = Some w2 /\ dir_getcwd w2 = Some p
}.

Section back.
Context {W : Type} `{DirLaws W}.
Implicit Types s : hstate W.

(** The table is far from overflow. *)
Definition table_ok (k : Z) s : Prop :=
  (0 <= dir_time (hs_os s) <= LONG_MAX)%Z /\ Forall (entry_small k) (hs_db s) /\
  length (hs_db s) <= MAX_ENTRIES /\ NoDup (fe_path <$> hs_db s).

Lemma visited_small now p k db db' :
  (0 <= k)%Z -> (0 <= now <= LONG_MAX)%Z -> Forall (entry_small k) db -> visited now p db db' ->
  Forall (entry_small (k + 1)) db'.
Proof.
  intros Hk Hn Hsm [_ Hnd (e & He & Hp & Hl & Hfr) Hoth _]. apply Forall_forall. intros x Hx.
  rewrite Forall_forall in Hsm. destruct (decide (fe_path x = p)) as [Hxp|Hne].
  - assert (x = e) as ->.
    { apply list_elem_of_lookup in Hx as [a Ha], He as [b Hb].
      assert (a = b) as -> by (eapply (NoDup_lookup _ a b p Hnd); rewrite list_lookup_fmap, ?Ha, ?Hb; simpl; congruence).
      congruence. }
    unfold entry_small. rewrite Hl. split; [|done].
    destruct (list_find _ db) as [[i old]|] eqn:Ef; [|lia].
    apply list_find_Some in Ef as (Hi & _). apply list_elem_of_lookup_2, Hsm in Hi as [Hi _]. lia.
  - destruct (Hsm x) as [? ?]; [by apply Hoth|]. split; [lia|done].
Qed.

Lemma do_chdir_ret k s d w1 p :
  (0 <= k)%Z -> (400 * k <= INT_MAX)%Z -> table_ok k s ->
  dir_getcwd (hs_os s) = Some p -> dir_chdir (hs_os s) d = Some w1 ->
  exists s1, do_chdir s d = Ret (s1, true) /\ table_ok (k + 1) s1 /\ hs_oldpwd s1 = Some p /\
    hs_out s1 = hs_out s /\
    (dir_getcwd w1 <> None -> exists t, hs_os s1 = dir_write w1 (hs_history_path s) t).
Proof.
  intros Hk0 Hk (Hn & Hsm & Hlen & Hnd) Hp Hc. unfold do_chdir. rewrite Hp, Hc. simpl (default [] (Some p)).
  destruct (cwd_path _ _ Hp) as [Hne _]. destruct (Nat.ltb_spec 0 (length p)) as [_|]; [|destruct p; simpl in *; [done|lia]].
  pose proof (time_chdir _ _ _ Hc) as Ht.
  destruct (dir_getcwd w1) as [landed|] eqn:El.
  - unfold update_frecency. simpl. rewrite Ht.
    destruct (update_db_visited (dir_time (hs_os s)) (hs_db s) landed k) as (db' & -> & Hv);
      [done..|by apply (cwd_path _ _ El)|]. cbn [obind]. eexists. split; [done|].
    split_and!; [|done|done|by eexists]. destruct Hv as [Hv1 Hv2 Hv3 Hv4 Hv5] eqn:Ev.
    split_and!; simpl; rewrite ?time_write, ?Ht; try done; try lia.
    by eapply visited_small.
  - cbn [obind]. eexists. split; [done|]. split_and!; try done; simpl.
    split_and!; simpl; rewrite ?Ht; try done; try lia.
    eapply Forall_impl; [exact Hsm|]. unfold entry_small. intros x [? ?]. split; [lia|done].
Qed.

(**  [hop d] followed by [hop -] ends in the directory it began in: the
    second command prints the path that was left, goes there, and OLDPWD then
    names the directory visited in between. *)
Theorem hop_there_and_back (s : hstate W) (d : cstr) (w1 : W) (p landed : cstr) (k : Z)
    (Hk0 : (0 <= k)%Z) (Hk : (400 * (k + 1) <= INT_MAX)%Z) (Hok : table_ok k s)
    (Hd : dir_isdir (hs_os s) d = true)
    (Hplain : d <> c_str "~" /\ d <> c_str "." /\ d <> c_str ".." /\ d <> c_str "-")
    (Hp : dir_getcwd (hs_os s) = Some p) (Hc : dir_chdir (hs_os s) d = Some w1)
    (Hl : dir_getcwd w1 = Some landed) :
  exists s1 s2, hop_arg s d = Ret s1 /\ dir_getcwd (hs_os s1) = Some landed /\
    hop_arg s1 (c_str "-") = Ret s2 /\ hs_out s2 = hs_out s ++ [p] /\
    dir_getcwd (hs_os s2) = Some p /\ hs_oldpwd s2 = Some landed.
Proof.
  destruct (do_chdir_ret k s d w1 p) as (s1 & E1 & Hok1 & Hold & Hout & Hw); [lia|lia|done..|].
  destruct Hw as [t Hw]; [congruence|]. destruct Hplain as (Hd1 & Hd2 & Hd3 & Hd4).
  assert (dir_getcwd (hs_os s1) = Some landed) as Hl1 by by rewrite Hw, cwd_write.
  destruct (chdir_back _ _ _ _ (hs_history_path s) t Hp Hc) as (w2 & Hc2 & Hp2).
  destruct (do_chdir_ret (k + 1) (hop_printf s1 p) p w2 landed) as (s2 & E2 & _ & Hold2 & Hout2 & Hw2);
    [lia|lia|done|done|simpl; by rewrite Hw|].
  destruct Hw2 as [t2 Hw2]; [congruence|].
  exists s1, s2. unfold hop_arg, streq. rewrite !bool_decide_false by done. rewrite Hd. unfold chdir_or_say.
  rewrite E1. cbn [obind]. split_and!; [done|done| | | |done].
  - simpl (bool_decide _). cbv iota. rewrite Hold. rewrite E2. done.
  - by rewrite Hout2, <- Hout.
  - by rewrite Hw2, cwd_write.
Qed.
End back.

(** *** A concrete directory tree, for the witnesses *)
Record tree : Type := mk_tree { tr_cwd : cstr; tr_hist : cstr }.

Definition tree_dirs : list cstr := [c_str "/"; c_str "/a"; c_str "/a/b"].

#[global] Instance tree_os : DirOS tree := {|
  dir_getcwd w := if bool_decide (tr_cwd w ∈ tree_dirs) then Some (tr_cwd w) else None;
  dir_chdir w d := if bool_decide (d ∈ tree_dirs) then Some (mk_tree d (tr_hist w)) else None;
  dir_isdir _ d := bool_decide (d ∈ tree_dirs);
  dir_time _ := 1000000%Z;
  dir_readlink _ := None;
  dir_write w _ t := mk_tree (tr_cwd w) t;
  dir_read w _ := Some (tr_hist w)
|}.

Lemma tree_dirs_path p : p ∈ tree_dirs -> p <> [] /\ length p < HOP_PATH_MAX.
Proof.
  assert (Forall (fun q => q <> [] /\ length q < HOP_PATH_MAX) tree_dirs) as Hf.
  { repeat (apply Forall_cons_2; [split; [vm_compute; discriminate|unfold HOP_PATH_MAX; simpl; lia]|]).
    apply Forall_nil_2. }
  rewrite Forall_forall in Hf. apply Hf.
Qed.

#[global] Instance tree_laws : DirLaws tree.
Proof.
  split; try done.
  - intros w p. simpl. case_bool_decide; [|done]. intros [= <-]. by apply tree_dirs_path.
  - intros w p d w1 f t. simpl. case_bool_decide as Hw; [|done]. intros [= <-] _.
    exists (mk_tree (tr_cwd w) t). by rewrite !bool_decide_true.
Qed.

Definition sample_db : list frecency_entry_t :=
  [mk_entry (c_str "/a") 3 10; mk_entry (c_str "/a/b") 2 999990].

Definition sample_state : hstate tree :=
  mk_hs (mk_tree (c_str "/") []) sample_db (c_str "/") (c_str "/hop_hist") None [].

Lemma sample_small : Forall (entry_small 10) sample_db.
Proof. repeat constructor; simpl; unfold LONG_MAX; lia. Qed.

Lemma sample_nodup : NoDup (fe_path <$> sample_db).
Proof. apply (bool_decide_unpack _). vm_compute. exact I. Qed.

Lemma history_roundtrip_witness :
  load_history (with_db (save_history sample_state) []) = Ret (save_history sample_state).
Proof.
  apply history_roundtrip; [done| |simpl; unfold MAX_ENTRIES; lia].
  repeat (apply Forall_cons_2; [split; simpl; unfold INT_MAX, LONG_MAX, HOP_PATH_MAX; try lia;
    try (do 2 eexists; split; reflexivity); apply (bool_decide_unpack _); vm_compute; exact I|]).
  apply Forall_nil_2.
Defined.

Lemma update_frecency_visits_witness :
  exists db', update_frecency sample_state (c_str "/") = Ret (save_history (with_db sample_state db')) /\
    visited (dir_time (hs_os sample_state)) (c_str "/") (hs_db sample_state) db'.
Proof.
  apply (update_frecency_visits sample_state (c_str "/") 10);
    [vm_compute; split; discriminate|vm_compute; discriminate|apply sample_small
    |simpl; unfold MAX_ENTRIES; lia|apply sample_nodup|simpl; unfold HOP_PATH_MAX; lia].
Defined.

Lemma frecency_lookup_best_witness :
  frecency_lookup (dir_isdir (hs_os sample_state)) 1000000 sample_db (c_str "a") = Ret (Some (c_str "/a/b")) /\
  ((frecency_lookup (dir_isdir (hs_os sample_state)) 1000000 sample_db (c_str "a") = Ret None /\
    forall e, e ∈ sample_db -> ~ matches (dir_isdir (hs_os sample_state)) (c_str "a") e) \/
   exists e, frecency_lookup (dir_isdir (hs_os sample_state)) 1000000 sample_db (c_str "a") = Ret (Some (fe_path e)) /\
    e ∈ sample_db /\ matches (dir_isdir (hs_os sample_state)) (c_str "a") e /\
    forall e', e' ∈ sample_db -> matches (dir_isdir (hs_os sample_state)) (c_str "a") e' ->
      (score_of 1000000 e' <= score_of 1000000 e)%Z).
Proof.
  split; [vm_compute; reflexivity|].
  apply (frecency_lookup_best _ 1000000 10 sample_db (c_str "a"));
    [vm_compute; split; discriminate|vm_compute; discriminate|apply sample_small].
Defined.

Lemma hop_there_and_back_witness :
  exists s1 s2, hop_arg sample_state (c_str "/a") = Ret s1 /\ dir_getcwd (hs_os s1) = Some (c_str "/a") /\
    hop_arg s1 (c_str "-") = Ret s2 /\ hs_out s2 = hs_out sample_state ++ [c_str "/"] /\
    dir_getcwd (hs_os s2) = Some (c_str "/") /\ hs_oldpwd s2 = Some (c_str "/a").
Proof.
  refine (hop_there_and_back sample_state (c_str "/a") (mk_tree (c_str "/a") []) (c_str "/") (c_str "/a") 10
    _ _ _ _ _ _ _ _).
  - lia.
  - unfold INT_MAX. lia.
  - split; [vm_compute; split; discriminate|]. split; [apply sample_small|].
    split; [simpl; unfold MAX_ENTRIES; lia|apply sample_nodup].
  - vm_compute. reflexivity.
  - split_and!; vm_compute; discriminate.
  - vm_compute. reflexivity.
  - vm_compute. reflexivity.
  - vm_compute. reflexivity.
Defined.
