(* ===== verification/Shell.v ===== *)
(** * The shell as a whole

    The built-in commands of the other files together are the [run_builtin]
    of [Exec] and [Main]: the calls in the branches of [execute_pipeline_fg].
    The static variables of [hop.c] and the environment live beside the
    operating system, behind the class [ShellVars]. *)

From S2P Require Import Prelude.
From S2P Require Import Lexer.
From S2P Require Import Parser.
From S2P Require Import Jobs.
From S2P Require Import Exec.
From S2P Require Import Builtins.
From S2P Require Import Reveal.
From S2P Require Import Snoop.
From S2P Require Import Spy.
From S2P Require Import Peek.
From S2P Require Import Hop.

(** The variables of [hop.c], OLDPWD, the home directory that [reveal] keeps,
    and the standard input and files that [peek] reads. *)
Record hop_vars : Type := mk_hv {
  hv_db : list frecency_entry_t;
  hv_home : cstr;
  hv_history_path : cstr;
  hv_oldpwd : option cstr
}.

Class ShellVars (W : Type) := {
  sv_hop : W -> hop_vars;
  sv_set_hop : W -> hop_vars -> W;
  sv_reveal_home : W -> cstr;
  sv_stat : W -> cstr -> source_stat;
  sv_stdin_tty : W -> bool;
  sv_stdin : W -> cstr;
  sv_set_stdin : W -> cstr -> W
}.

Section shell.
Context {W : Type} `{ProcOS W} `{ExecOS W} `{DirOS W} `{RevealOS W} `{TraceOS W} `{SpyOS W} `{ShellVars W}.
Implicit Types s : jstate W.

(** [hop(list)] on the state of the shell. *)
Definition run_hop s (toks : token_list_t) : outcome (jstate W) :=
  let v := sv_hop (js_os s) in
  let* h := hop (mk_hs (js_os s) (hv_db v) (hv_home v) (hv_history_path v) (hv_oldpwd v) []) toks in
  let w := sv_set_hop (hs_os h) (mk_hv (hs_db h) (hs_home h) (hs_history_path h) (hs_oldpwd h)) in
  Ret (prints (with_os s w) (hs_out h)).

Definition run_peek s (toks : token_list_t) : outcome (jstate W) :=
  let w := js_os s in
  let* p := peek (sv_stat w) (sv_stdin_tty w) toks (sv_stdin w) in
  Ret (prints (with_os s (sv_set_stdin w (ps_stdin p))) (ps_out p)).

(** [fuel] bounds the polling of [resume], the depth of [reveal] and the
    stops of [snoop]. *)
Definition run_builtin (fuel : nat) s (b : builtin) (toks : token_list_t) : outcome (jstate W) :=
  match b with
  | B_hop => run_hop s toks
  | B_reveal => reveal fuel (sv_reveal_home (js_os s)) s toks
  | B_peek => run_peek s toks
  | B_locate => locate s toks
  | B_activities => Ret (jobs_refresh_and_print_activities s)
  | B_resume => resume_cmd fuel s toks
  | B_ping => ping_cmd s toks
  | B_spy => spy_cmd s toks
  | B_snoop => snoop_cmd fuel s toks
  end.

(** ** Built-in commands and the job table *)
Lemma upd_refl s : table_upd s s.
Proof. apply (table_upd_refl s). Qed.

Lemma upd_os s w : table_upd s (with_os s w).
Proof. apply (table_upd_refl s). Qed.

Lemma upd_printf s l : table_upd s (printf s l).
Proof. apply (table_upd_refl s). Qed.

Lemma upd_prints s l : table_upd s (prints s l).
Proof. apply (table_upd_refl s). Qed.

Lemma upd_prints_os s w l : table_upd s (prints (with_os s w) l).
Proof. apply (table_upd_refl s). Qed.

Create HintDb tbl.
Hint Resolve upd_os upd_printf upd_prints upd_prints_os upd_refl resume_bg_upd resume_fg_upd
  activities_upd : tbl.

Lemma ping_report_upd s r n t : table_upd s r.1 -> table_upd s (ping_report r n t).
Proof. destruct r as [s' []]; simpl; intros ?; (etrans; [done|apply upd_printf]). Qed.

Lemma ping_upd s toks s' : ping_cmd s toks = Ret s' -> table_upd s s'.
Proof.
  unfold ping_cmd, ping_invalid. intros E. repeat first [case_match | progress inv_bind];
    simplify_eq; eauto with tbl; apply ping_report_upd;
    eauto using signal_job_upd, signal_pid_upd.
Qed.

Lemma resume_upd fuel s toks s' : resume_cmd fuel s toks = Ret s' -> table_upd s s'.
Proof.
  unfold resume_cmd, resume_fg_args, resume_invalid. intros E.
  repeat first [case_match | progress inv_bind]; simplify_eq; eauto with tbl.
Qed.

Lemma locate_dirs_upd cwd dirs cmd : forall s n s' n',
  locate_dirs s cwd dirs cmd n = Ret (s', n') -> table_upd s s'.
Proof.
  induction dirs as [|d dirs IH]; intros s n s' n'; cbn [locate_dirs]; [intros; by simplify_eq|].
  intros E. inv_bind. case_match; [|eauto]. etrans; [apply upd_printf|]. eauto.
Qed.

Lemma locate_single_upd s cmd s' : locate_single s cmd = Ret s' -> table_upd s s'.
Proof.
  unfold locate_single. set (r := match os_getcwd (js_os s) with Some d => _ | None => _ end).
  assert (table_upd s r.1) as Hr.
  { unfold r. destruct (os_getcwd (js_os s)) as [d|]; [|apply table_upd_refl].
    destruct (locate_is_executable _ _); [apply upd_printf|apply table_upd_refl]. }
  destruct r as [s1 n1]. simpl in Hr. intros E. inv_bind. destruct x as [s2 n2]. simplify_eq.
  assert (table_upd s1 s2) as Hs.
  { repeat case_match; simplify_eq; eauto using locate_dirs_upd with tbl. }
  etrans; [done|]. etrans; [done|]. destruct (n2 =? 0); auto with tbl.
Qed.

Lemma locate_upd s toks s' : locate s toks = Ret s' -> table_upd s s'.
Proof.
  unfold locate. case_match; [intros; simplify_eq; eauto with tbl|]. clear.
  generalize (tail toks) as l. intros l. revert s. induction l as [|t l IH]; intros s; cbn [locate_words].
  { intros; by simplify_eq. }
  case_match; [|eauto]. intros E. inv_bind. etrans; [by eapply locate_single_upd|eauto].
Qed.

Lemma run_builtin_upd fuel s b toks s' : run_builtin fuel s b toks = Ret s' -> table_upd s s'.
Proof.
  destruct b; cbn [run_builtin]; eauto using ping_upd, resume_upd, locate_upd.
  - unfold run_hop. intros E. inv_bind. simplify_eq. eauto with tbl.
  - unfold reveal. intros E. repeat first [case_match | progress inv_bind]; simplify_eq; eauto with tbl.
  - unfold run_peek. intros E. inv_bind. simplify_eq. eauto with tbl.
  - intros. simplify_eq. eauto with tbl.
  - unfold spy_cmd. intros E. repeat first [case_match | progress inv_bind]; simplify_eq; eauto with tbl.
  - unfold snoop_cmd. intros E. repeat first [case_match | progress inv_bind]; simplify_eq; eauto with tbl.
Qed.

(** ** Command lines and the job table

    A command takes at most one job number. *)
Definition grown s (k : Z) s' : Prop := Jobs.table_ok s' /\ (js_next s' <= js_next s + k)%Z.

(** What a command may assume of the number it is given: a background command
    has its number, a foreground command may have to take one. *)
Definition number_ready s (is_bg : bool) (id : Z) : Prop :=
  if is_bg then fresh_id s id else (js_next s < INT_MAX)%Z.
Definition number_used (is_bg : bool) : Z := if is_bg then 0 else 1.

Lemma grown_upd s s1 k : Jobs.table_ok s -> (0 <= k)%Z -> table_upd s s1 -> grown s k s1.
Proof. intros Hok Hk Hu. split; [by eapply table_ok_upd|]. destruct Hu as [_ ->]. lia. Qed.

Lemma ready_upd s s1 is_bg id : table_upd s s1 -> number_ready s is_bg id -> number_ready s1 is_bg id.
Proof.
  intros Hu. destruct is_bg; simpl; [by apply fresh_id_upd|]. by destruct Hu as [_ ->].
Qed.

Lemma number_used_nonneg is_bg : (0 <= number_used is_bg)%Z.
Proof. by destruct is_bg. Qed.

Lemma add_pipeline_next s id pgid pids names cmd :
  js_next (jobs_add_pipeline s id pgid pids names cmd) = js_next s.
Proof. unfold jobs_add_pipeline. by case_match. Qed.

Lemma add_stopped_next s id pgid pids names cmd :
  js_next (jobs_add_stopped s id pgid pids names cmd) = js_next s.
Proof.
  unfold jobs_add_stopped. case_match; [cbn [js_next with_jobs]|]; apply add_pipeline_next.
Qed.

Lemma add_grown s id pgid pids names cmd :
  Jobs.table_ok s -> fresh_id s id -> grown s 0 (jobs_add_pipeline s id pgid pids names cmd).
Proof.
  intros Hok Hf. split; [by apply add_pipeline_ok|]. rewrite add_pipeline_next. lia.
Qed.

(** A number is taken for a job that stopped in the foreground. *)
Lemma stopped_grown s pgid pids names cmd l :
  Jobs.table_ok s -> (js_next s < INT_MAX)%Z ->
  grown s 1 (printf (jobs_add_stopped (jobs_alloc_id s).1 (jobs_alloc_id s).2 pgid pids names cmd) l).
Proof.
  intros Hok Hn. destruct (alloc_ok s Hok Hn) as [Hok1 Hf].
  pose proof (add_stopped_ok _ _ pgid pids names cmd Hok1 Hf) as Hok2.
  split; [by eapply table_ok_upd; [apply upd_printf|]|].
  assert (js_next (jobs_alloc_id s).1 = js_next s + 1)%Z as Ha.
  { simpl. apply wrap32_small. destruct Hok as (_ & _ & _ & ? & _). lia. }
  change (js_next (printf ?s0 l)) with (js_next s0). rewrite add_stopped_next. lia.
Qed.

Lemma cmd_parent_grown s pid sync out_fds id n1 n2 full : Jobs.table_ok s ->
  let is_bg := bool_decide (is_Some sync) in
  number_ready s is_bg id ->
  grown s (number_used is_bg) (cmd_parent s pid sync out_fds id n1 n2 full).1.
Proof.
  intros Hok. unfold cmd_parent. destruct sync as [[r wr]|]; simpl.
  - intros Hf. apply (add_grown (with_os (printf (with_os s _) _) _)); [exact Hok|exact Hf].
  - intros Hn. destruct (os_waitpid _ _ _) as [w res].
    destruct (WIFSTOPPED _); simpl; [|apply grown_upd; auto with tbl; done].
    apply (stopped_grown (with_os s _)); [exact Hok|done].
Qed.

Lemma cmd_spawn_grown s is_bg id n1 full n2 path argv inputs out_fds :
  Jobs.table_ok s -> number_ready s is_bg id ->
  grown s (number_used is_bg) (cmd_spawn s is_bg id n1 full n2 path argv inputs out_fds).1.
Proof.
  intros Hok Hr. unfold cmd_spawn.
  destruct (if is_bg then os_pipe (js_os s) else (js_os s, None)) as [w sync] eqn:E.
  destruct (is_bg && negb (bool_decide (is_Some sync))) eqn:Eb.
  { apply grown_upd; [done|apply number_used_nonneg|apply upd_os]. }
  destruct (os_fork _ _) as [w1 pid]. destruct (0 <? pid)%Z.
  - assert (bool_decide (is_Some sync) = is_bg) as Hs.
    { destruct is_bg; [|by simplify_eq]. simpl in Eb. by apply negb_false_iff in Eb. }
    pose proof (cmd_parent_grown (with_os s w1) pid sync out_fds id n1 n2 full) as Hp.
    simpl in Hp. rewrite Hs in Hp. apply Hp; [exact Hok|].
    by eapply ready_upd; [apply upd_os|].
  - apply grown_upd; [done|apply number_used_nonneg|apply upd_os].
Qed.

Lemma execute_cmd_grown s list is_bg id n1 full s' ok :
  Jobs.table_ok s -> number_ready s is_bg id ->
  execute_cmd_internal s list is_bg id n1 full = Ret (s', ok) -> grown s (number_used is_bg) s'.
Proof.
  intros Hok Hr. pose proof (number_used_nonneg is_bg) as Hk. unfold execute_cmd_internal.
  intros E. case_match; [simplify_eq; by apply grown_upd, upd_refl|].
  inv_bind. destruct x as [[argv inputs outputs]|]; [|simplify_eq; by apply grown_upd, upd_printf].
  destruct argv as [|raw_cmd args]; [simplify_eq; by apply grown_upd, upd_refl|].
  destruct (check_inputs _ _) as [w [|]]; cbn [negb] in *; [|simplify_eq; by apply grown_upd].
  destruct (open_outputs _ _ _) as [[w1 fds1] [|]]; cbn [negb] in *; [|simplify_eq; by apply grown_upd].
  destruct (skip_percent raw_cmd) as [skip name].
  destruct (resolve_command w1 skip name) as [path|]; [|simplify_eq; by apply grown_upd].
  simplify_eq.
  match goal with H : cmd_spawn ?a ?b ?c ?d ?e ?f ?g ?h ?i ?j = _ |- _ =>
    pose proof (cmd_spawn_grown a b c d e f g h i j) as Hg; rewrite H in Hg end.
  apply Hg; [exact Hok|by eapply ready_upd; [apply upd_os|]].
Qed.

Lemma pipeline_fg_grown s stages full : Jobs.table_ok s -> (js_next s < INT_MAX)%Z ->
  grown s 1 (run_pipeline_fg s stages full).1.
Proof.
  intros Hok Hn. unfold run_pipeline_fg. destruct (make_pipes _ _ _) as [[w pipes] [|]]; cbn [negb].
  2: { by apply grown_upd, upd_os. }
  destruct (spawn_stages _ _ _ _ _ _ _) as [w1 pids]. destruct (wait_stages _ _ _) as [w2 [|]].
  - apply (stopped_grown (with_os s _)); [exact Hok|done].
  - by apply grown_upd, upd_os.
Qed.

Lemma pipeline_bg_grown s stages id full : Jobs.table_ok s -> fresh_id s id ->
  grown s 0 (run_pipeline_bg s stages id full).1.
Proof.
  intros Hok Hf. unfold run_pipeline_bg. destruct (make_pipes _ _ _) as [[w pipes] [|]]; cbn [negb].
  2: { by apply grown_upd, upd_os. }
  destruct (os_pipe w) as [w1 [[r wr]|]]; [|by apply grown_upd, upd_os].
  destruct (spawn_stages _ _ _ _ _ _ _) as [w2 pids].
  apply (add_grown (with_os (printf (with_os s _) _) _)); [exact Hok|exact Hf].
Qed.

Lemma bg_builtin_grown s b list id full : Jobs.table_ok s -> fresh_id s id ->
  grown s 0 (bg_builtin s b list id full).1.
Proof.
  intros Hok Hf. unfold bg_builtin. destruct (os_pipe (js_os s)) as [w [[r wr]|]]; [|by apply grown_upd, upd_os].
  destruct (os_fork _ _) as [w1 pid]. destruct (pid <? 0)%Z; [by apply grown_upd, upd_os|].
  apply (add_grown (with_os (printf (with_os s _) _) _)); [exact Hok|exact Hf].
Qed.

Section with_builtins.
Variable builtins : jstate W -> builtin -> token_list_t -> outcome (jstate W).
Hypothesis builtins_upd : forall s b toks s', builtins s b toks = Ret s' -> table_upd s s'.

Lemma execute_fg_grown s list full s' ok : Jobs.table_ok s -> (js_next s < INT_MAX)%Z ->
  execute_pipeline_fg builtins s list full = Ret (s', ok) -> grown s 1 s'.
Proof.
  intros Hok Hn. unfold execute_pipeline_fg.
  destruct (length list =? 0); [intros; simplify_eq; by apply grown_upd, upd_refl|].
  destruct (num_stages list =? 1).
  - destruct (stage_builtin list) as [b|]; [|by apply (execute_cmd_grown s list false)].
    intros E. inv_bind. simplify_eq. apply grown_upd; eauto. done.
  - destruct (stages_valid _ _); intros E; injection E as E; [|simplify_eq; by apply grown_upd, upd_printf].
    pose proof (pipeline_fg_grown s (split_stages list) full Hok Hn) as Hg. by rewrite E in Hg.
Qed.

Lemma execute_bg_grown s list id full s' ok : Jobs.table_ok s -> fresh_id s id ->
  execute_pipeline_bg s list id full = Ret (s', ok) -> grown s 0 s'.
Proof.
  intros Hok Hf. unfold execute_pipeline_bg.
  destruct (length list =? 0); [intros; simplify_eq; by apply grown_upd, upd_refl|].
  destruct (num_stages list =? 1).
  - destruct (stage_builtin list) as [b|]; [|by apply (execute_cmd_grown s list true)].
    intros E. injection E as E. pose proof (bg_builtin_grown s b list id full Hok Hf) as Hg.
    by rewrite E in Hg.
  - destruct (stages_valid _ _); intros E; injection E as E; [|simplify_eq; by apply grown_upd, upd_printf].
    pose proof (pipeline_bg_grown s (split_stages list) id full Hok Hf) as Hg. by rewrite E in Hg.
Qed.

Lemma run_command_grown s cmd is_bg s' ok : Jobs.table_ok s -> (js_next s < INT_MAX)%Z ->
  run_command builtins s cmd is_bg = Ret (s', ok) -> grown s 1 s'.
Proof.
  intros Hok Hn. unfold run_command. destruct is_bg.
  - destruct (alloc_ok s Hok Hn) as [Hok1 Hf]. destruct (jobs_alloc_id s) as [s1 id] eqn:Ea.
    intros E. apply obind_inv in E as ([s2 ok2] & Er & E). simplify_eq.
    destruct (execute_bg_grown s1 cmd id _ _ _ Hok1 Hf Er) as [? ?]. split; [done|].
    assert (js_next s1 = js_next s + 1)%Z; [|lia]. unfold jobs_alloc_id in Ea. simplify_eq. simpl.
    apply wrap32_small. destruct Hok as (_ & _ & _ & ? & _). lia.
  - intros E. apply obind_inv in E as ([s2 ok2] & Er & E). simplify_eq.
    destruct (execute_fg_grown (jobs_set_fg_active s true) cmd _ _ _ Hok Hn Er) as [Hok2 Hn2].
    pose proof (check_completed_upd (jobs_set_fg_active s2 false)) as Hu.
    split; [by eapply table_ok_upd|]. destruct Hu as [_ ->]. done.
Qed.

Lemma run_commands_grown cmds : forall s s', Jobs.table_ok s ->
  (js_next s + Z.of_nat (length cmds) <= INT_MAX)%Z ->
  run_commands builtins s cmds = Ret s' -> grown s (Z.of_nat (length cmds)) s'.
Proof.
  induction cmds as [|[cmd is_bg] cmds IH]; intros s s' Hok Hn; cbn [run_commands].
  { intros; simplify_eq; by apply grown_upd, upd_refl. }
  cbn [length] in *. intros Hr. apply obind_inv in Hr as ([s1 ok] & Hc & Hr).
  destruct (run_command_grown s cmd is_bg s1 ok Hok) as [Hok1 Hn1]; [lia|done|].
  destruct ok; [|simplify_eq; split; [done|lia]].
  destruct (IH s1 s') as [? ?]; [done|lia|done|]. split; [done|]. lia.
Qed.

(** *** Lines that return *)

(** No built-in command that runs in the shell's own process, and no more
    redirections in a stage than the arrays hold. *)
Definition plain_command (c : token_list_t * bool) : Prop :=
  (c.2 = false -> ~ fg_builtin c.1) /\
  Forall (fun st => forall c items, reads st (I_word c :: items) -> items_fit items) (split_pipe c.1).

Lemma execute_cmd_returns s list is_bg id bn full : cmd_wf list -> num_stages list = 1 ->
  Forall (fun t => ends_command t = false) list ->
  Forall (fun st => forall c items, reads st (I_word c :: items) -> items_fit items) (split_pipe list) ->
  exists s' ok, execute_cmd_internal s list is_bg id bn full = Ret (s', ok).
Proof.
  intros [Hn _ Hst] Hone Hno Hfit. unfold execute_cmd_internal. destruct (length list =? 0); [by eexists _, _|].
  rewrite (group_id _ Hno). rewrite Hn in Hone.
  assert (split_pipe list = [list]) as E by (by apply split_pipe_single).
  rewrite E in Hst, Hfit. apply Forall_cons in Hst as [(c & items & Hr & Hg) _]. apply Forall_cons in Hfit as [Hf _].
  rewrite (Hg (Hf _ _ Hr)). cbn [obind redirs_of item_words omap list_omap take].
  repeat (case_match; try by eexists _, _).
  destruct (cmd_spawn _ _ _ _ _ _ _ _ _ _). by eexists _, _.
Qed.

Lemma run_command_returns s cmd is_bg : cmd_wf cmd -> plain_command (cmd, is_bg) ->
  Forall (fun t => ends_command t = false) cmd ->
  exists s' ok, run_command builtins s cmd is_bg = Ret (s', ok).
Proof.
  intros Hwf [Hb Hfit] Hno. unfold fg_builtin in Hb. simpl in Hb, Hfit. unfold run_command.
  destruct is_bg.
  - destruct (jobs_alloc_id s) as [s1 id]. unfold execute_pipeline_bg.
    destruct (length cmd =? 0); [by eexists _, _|]. destruct (Nat.eqb_spec (num_stages cmd) 1).
    + destruct (stage_builtin cmd); [destruct (bg_builtin _ _ _ _ _); by eexists _, _|].
      destruct (execute_cmd_returns s1 cmd true id (bg_name cmd) (Some (reconstruct_cmd_str cmd FULL_CMD_SIZE)))
        as (s' & ok & ->); [done..|]. by eexists _, _.
    + destruct (stages_valid _ _); [destruct (run_pipeline_bg _ _ _ _)|]; by eexists _, _.
  - unfold execute_pipeline_fg. destruct (length cmd =? 0); [by eexists _, _|].
    destruct (Nat.eqb_spec (num_stages cmd) 1).
    + destruct (stage_builtin cmd); [by destruct Hb|].
      destruct (execute_cmd_returns (jobs_set_fg_active s true) cmd false 0 []
        (Some (reconstruct_cmd_str cmd FULL_CMD_SIZE))) as (s' & ok & ->); [done..|]. by eexists _, _.
    + destruct (stages_valid _ _); [destruct (run_pipeline_fg _ _ _)|]; by eexists _, _.
Qed.

Lemma run_commands_return cmds : forall s,
  Forall (fun '(cmd, _) => cmd_wf cmd) cmds -> Forall plain_command cmds ->
  Forall (fun c => Forall (fun t => ends_command t = false) c.1) cmds ->
  exists s', run_commands builtins s cmds = Ret s'.
Proof.
  induction cmds as [|[cmd is_bg] cmds IH]; intros s Hwf Hp Hno; [by eexists|]. cbn [run_commands].
  apply Forall_cons in Hwf as [Hw Hwf]. apply Forall_cons in Hp as [Hc Hp]. apply Forall_cons in Hno as [Hn Hno].
  destruct (run_command_returns s cmd is_bg Hw Hc Hn) as (s1 & ok & ->). cbn [obind].
  destruct ok; [by apply IH|by eexists].
Qed.
End with_builtins.


(** Redirecting a built-in command can crash the shell: the lexer and the
    parser accept these lines, and running them dereferences the missing text
    of the redirection operator, in every state of the shell. *)
Theorem redirected_builtins_crash (fuel : nat) :
  Forall (fun line => exists toks,
      lex_line (fun _ => true) line = Ret (Some toks) /\ parse_tokens toks = Ret 1%Z /\
      forall s, execute_command_line (run_builtin fuel) s toks = Undef)
    (c_str <$> ["ping > 5"; "snoop > out"; "resume %1 fg > out"]).
Proof.
  repeat apply Forall_cons_2; try apply Forall_nil_2;
    (eexists; split; [vm_compute; reflexivity|]; split; [vm_compute; reflexivity|]);
    intros s; destruct s; vm_compute; reflexivity.
Qed.

End shell.

(** ** A concrete world: that of [Snoop] and [Spy], with one directory *)
#[global] Instance replay_dir : DirOS replay := {|
  dir_getcwd _ := Some (c_str "/");
  dir_chdir w p := if streq p (c_str "/") then Some w else None;
  dir_isdir _ p := streq p (c_str "/");
  dir_time _ := 1000%Z;
  dir_readlink _ := None;
  dir_write w _ _ := w;
  dir_read _ _ := None
|}.

#[global] Instance replay_vars : ShellVars replay := {|
  sv_hop _ := mk_hv [] (c_str "/") (c_str "/hop_hist") None;
  sv_set_hop w _ := w;
  sv_reveal_home _ := c_str "/";
  sv_stat _ _ := S_missing;
  sv_stdin_tty _ := false;
  sv_stdin _ := [];
  sv_set_stdin w _ := w
|}.

(** A line of three commands, one of them traced and one in the background. *)
Definition sample_line : token_list_t :=
  [word_tok (c_str "locate"); word_tok (c_str "ls"); op_tok OP_SEMI;
   word_tok (c_str "snoop"); word_tok (c_str "ls"); op_tok OP_SEMI;
   word_tok (c_str "ls"); op_tok OP_AMP].

(** A pipeline in the foreground and a command in the background. *)
Definition plain_line : token_list_t :=
  [word_tok (c_str "cat"); op_tok OP_LT; word_tok (c_str "f"); op_tok OP_PIPE; word_tok (c_str "wc"); op_tok OP_SEMI;
   word_tok (c_str "ls"); op_tok OP_AMP].

Lemma plain_line_plain : Forall plain_command (commands plain_line).
Proof.
  change (commands plain_line) with
    [([word_tok (c_str "cat"); op_tok OP_LT; word_tok (c_str "f"); op_tok OP_PIPE; word_tok (c_str "wc")], false);
     ([word_tok (c_str "ls")], true)].
  repeat apply Forall_cons_2; try apply Forall_nil_2; (split; [intros E [Hf _]; vm_compute in Hf, E; discriminate|]);
    repeat apply Forall_cons_2; try apply Forall_nil_2; intros c items Hr;
    repeat match goal with H : reads _ _ |- _ => inversion H; clear H; subst; try discriminate end;
    split; apply Nat.leb_le; reflexivity.
Qed.

