(* ===== verification/Main.v ===== *)
(** * The read-execute loop of the shell ([c-shell/src/main.c])

    The loop reads a line, glues pieces that were typed without a newline
    together, lexes, parses and runs it.  What [fgets] can deliver is an
    input event; the loop is a step function on the state [mstate], so that a
    session is a list of events.  The two signal handlers only set a flag and
    are events of their own. *)

From S2P Require Import Prelude Lexer Parser Jobs Exec.

Definition MAX_INPUT_LEN : nat := 1024.

(** ** The prompt *)

(** [snprintf(out, outsize, ...)] of a text. *)
Definition snprintf_buf (outsize : nat) (s : cstr) : cstr := take (outsize - 1) s.

(** [get_display_path]: the home directory is shown as [~]. *)
Definition get_display_path (home_dir : cstr) (cwd : option cstr) (outsize : nat) : cstr :=
  match cwd with
  | None => snprintf_buf outsize (c_str "?")
  | Some cwd =>
      let home_len := length home_dir in
      if streq cwd home_dir then snprintf_buf outsize (c_str "~")
      else if is_prefix home_dir cwd && bool_decide (cwd !! home_len = Some "/"%char)
      then snprintf_buf outsize ("~"%char :: drop home_len cwd)
      else snprintf_buf outsize cwd
  end.

(** ** Events and state *)

(** [fgets] returned a text, or NULL: [errno] then is or is not EINTR, and the
    end-of-file flag of the stream is or is not set. *)
Inductive event : Type :=
| Ev_line (text : cstr)
| Ev_null (eintr eof : bool)
| Ev_signal.

Record mstate (W : Type) : Type := mk_ms {
  ms_js : jstate W;
  ms_accum : cstr;
  ms_line : cstr;
  ms_warned : bool;
  ms_interrupted : bool;
  ms_running : bool
}.
Arguments mk_ms {W}.
Arguments ms_js {W}.
Arguments ms_accum {W}.
Arguments ms_line {W}.
Arguments ms_warned {W}.
Arguments ms_interrupted {W}.
Arguments ms_running {W}.

Section main.
Context {W : Type} `{ProcOS W} `{ExecOS W}.
Variable malloc_ok : Z -> bool.
Variable run_builtin : jstate W -> builtin -> token_list_t -> outcome (jstate W).
Variables (home_dir username hostname_buf : cstr).
Implicit Types m : mstate W.

Definition print_prompt (s : jstate W) : jstate W :=
  let display_path := get_display_path home_dir (os_getcwd (js_os s)) PATH_MAX in
  printf s (c_str "<" ++ username ++ c_str "@" ++ hostname_buf ++ c_str ":" ++ display_path ++ c_str "> ").

(** The head of the loop, before [fgets]. *)
Definition loop_head m : mstate W :=
  match ms_accum m with
  | [] => mk_ms (print_prompt (jobs_check_completed (ms_js m))) [] (ms_line m) (ms_warned m)
            (ms_interrupted m) (ms_running m)
  | _ => m
  end.

(** A complete line: lexer, parser, executor. *)
Definition run_line (s : jstate W) (accum : cstr) : outcome (jstate W) :=
  let* tokens := lex_line malloc_ok accum in
  match tokens with
  | None => Ret (printf s (c_str "cshell: invalid syntax"))
  | Some tokens =>
      let* valid := parse_tokens tokens in
      if (valid =? 0)%Z then Ret (printf s (c_str "cshell: invalid syntax"))
      else if 0 <? length tokens then execute_command_line run_builtin s tokens
      else Ret s
  end.

(** From the copying of [line] to the end of the body. *)
Definition take_line m : outcome (mstate W) :=
  let accum :=
    match ms_line m with
    | [] => ms_accum m
    | _ => if length (ms_accum m) + length (ms_line m) <? MAX_INPUT_LEN + 1
           then ms_accum m ++ ms_line m else ms_accum m
    end in
  match last accum with
  | None => Ret (mk_ms (ms_js m) accum (ms_line m) (ms_warned m) (ms_interrupted m) true)
  | Some c =>
      if negb (bool_decide (c = NEWLINE)) && os_isatty (js_os (ms_js m))
      then Ret (mk_ms (ms_js m) accum (ms_line m) (ms_warned m) (ms_interrupted m) true)
      else
        let accum := if decide (c = NEWLINE) then take (length accum - 1) accum else accum in
        let* s := run_line (ms_js m) accum in
        Ret (mk_ms s [] (ms_line m) false (ms_interrupted m) true)
  end.

(** [fgets] returned NULL. *)
Definition no_line m (eintr eof : bool) : outcome (mstate W) :=
  if eintr then
    if ms_interrupted m
    then Ret (mk_ms (printf (ms_js m) []) [] (ms_line m) (ms_warned m) false true)
    else Ret m
  else
    match ms_accum m with
    | _ :: _ =>
        if negb (os_isatty (js_os (ms_js m))) && eof then take_line m else Ret m
    | [] =>
        let '(s, stopped) := jobs_has_stopped (ms_js m) in
        if stopped && negb (ms_warned m) then
          Ret (mk_ms (printf s (c_str "cshell: there are stopped jobs")) [] (ms_line m) true
                 (ms_interrupted m) true)
        else
          Ret (mk_ms (jobs_send_sighup_all s) [] (ms_line m) (ms_warned m) (ms_interrupted m) false)
    end.

(** One event: a signal, or one pass of the loop. *)
Definition main_step m (e : event) : outcome (mstate W) :=
  match e with
  | Ev_signal =>
      Ret (mk_ms (ms_js m) (ms_accum m) (ms_line m) (ms_warned m) true (ms_running m))
  | Ev_line text =>
      let m := loop_head m in
      take_line (mk_ms (ms_js m) (ms_accum m) (cstr_prefix text) (ms_warned m) (ms_interrupted m) true)
  | Ev_null eintr eof => no_line (loop_head m) eintr eof
  end.

(** A session; events behind the end of the loop are not read. *)
Fixpoint main_loop m (evs : list event) : outcome (mstate W) :=
  match evs with
  | [] => Ret m
  | e :: evs =>
      if ms_running m then let* m := main_step m e in main_loop m evs else Ret m
  end.

(** Behind the loop. *)
Definition main_exit m : jstate W := printf (jobs_send_sighup_all (ms_js m)) [].

Definition main_start (w : W) : mstate W := mk_ms (js_init w) [] [] false false true.
End main.

(** ** Claims *)

(** Reading a displayed path back: [~] stands for the home directory. *)
Definition expand_home (home_dir p : cstr) : cstr :=
  match p with
  | c :: rest => if decide (c = "~"%char) then home_dir ++ rest else p
  | [] => []
  end.

Lemma is_prefix_drop p l : is_prefix p l = true -> l = p ++ drop (length p) l.
Proof. intros [k ->]%is_prefix_spec. by rewrite drop_app_length. Qed.

(** The path in the prompt names the working directory: with [~] read as
    the home directory it is exactly the working directory, for all absolute
    paths that fit the buffers; a directory that merely shares a prefix of its
    name with the home directory is not abbreviated. *)
Theorem display_path_expands (home_dir cwd : cstr) (rest : cstr)
    (Habs : cwd = "/"%char :: rest) (Hlen : length cwd < PATH_MAX - 1) :
  let shown := get_display_path home_dir (Some cwd) PATH_MAX in
  expand_home home_dir shown = cwd /\
  (head shown = Some "~"%char <-> cwd = home_dir \/ exists sub, cwd = home_dir ++ "/"%char :: sub).
Proof.
  intros shown. unfold shown, get_display_path, snprintf_buf, streq.
  destruct (bool_decide_reflect (cwd = home_dir)) as [->|Hne].
  { simpl. rewrite app_nil_r. split; [done|]. split; auto. }
  destruct (is_prefix home_dir cwd && _) eqn:Ep; reflect.
  - apply is_prefix_drop in H as Hcut. rewrite take_ge.
    2: { rewrite length_cons, length_drop. lia. }
    simpl. split; [done|]. split; [|done]. intros _. right.
    apply drop_S in H0. exists (drop (S (length home_dir)) cwd). by rewrite <- H0.
  - rewrite take_ge by lia. subst cwd. simpl. split; [done|]. split; [done|].
    intros [?|[sub Hs]]; [done|]. exfalso. apply andb_false_iff in Ep as [Ep|Ep].
    + assert (is_prefix home_dir ("/"%char :: rest) = true) as E; [|congruence].
      apply is_prefix_spec. rewrite Hs. by eexists.
    + reflect. apply Ep. rewrite Hs, lookup_app_r by lia. by rewrite Nat.sub_diag.
Qed.

Lemma display_path_expands_witness :
  let shown := get_display_path (c_str "/home/u") (Some (c_str "/home/u/src")) PATH_MAX in
  expand_home (c_str "/home/u") shown = c_str "/home/u/src" /\
  (head shown = Some "~"%char <-> c_str "/home/u/src" = c_str "/home/u" \/
     exists sub, c_str "/home/u/src" = c_str "/home/u" ++ "/"%char :: sub).
Proof.
  apply (display_path_expands (c_str "/home/u") (c_str "/home/u/src") (c_str "home/u/src")).
  - reflexivity.
  - unfold PATH_MAX. simpl. lia.
Defined.

Section loop.
Context {W : Type} `{ProcOS W} `{ExecOS W}.
Variable malloc_ok : Z -> bool.
Variable run_builtin : jstate W -> builtin -> token_list_t -> outcome (jstate W).
Variables (home_dir username hostname_buf : cstr).
Implicit Types m : mstate W.

Abbreviation step := (main_step malloc_ok run_builtin home_dir username hostname_buf).
Abbreviation loop := (main_loop malloc_ok run_builtin home_dir username hostname_buf).
Abbreviation head := (loop_head home_dir username hostname_buf).

(** The pending text fits its array and is not a complete line; without a
    terminal there is none. *)
Definition accum_ok (tty : bool) m : Prop :=
  length (ms_accum m) <= MAX_INPUT_LEN /\ last (ms_accum m) <> Some NEWLINE /\
  (tty = false -> ms_accum m = []).

Lemma head_accum m : ms_accum (head m) = ms_accum m.
Proof. unfold loop_head. by destruct (ms_accum m) eqn:E. Qed.

Lemma take_line_accum tty m m' :
  (forall w : W, os_isatty w = tty) ->
  accum_ok tty m -> take_line malloc_ok run_builtin m = Ret m' -> accum_ok tty m'.
Proof.
  unfold accum_ok. intros Htty (Hl & Hn & Hb). unfold take_line. set (accum := match ms_line m with [] => _ | _ => _ end).
  assert (length accum <= MAX_INPUT_LEN) as Hla.
  { unfold accum. destruct (ms_line m); [done|]. case_match eqn:E; [|done].
    apply Nat.ltb_lt in E. rewrite length_app. lia. }
  destruct (last accum) as [c|] eqn:Ec.
  - rewrite Htty. destruct (bool_decide_reflect (c = NEWLINE)); simpl.
    + intros Hr. apply obind_inv in Hr as (s & _ & [= <-]). simpl. split_and!; [lia|done|done].
    + destruct tty.
      * intros [= <-]. simpl. split_and!; [done|congruence|done].
      * intros Hr. apply obind_inv in Hr as (s & _ & [= <-]). simpl. split_and!; [lia|done|done].
  - intros [= <-]. simpl. apply last_None in Ec. rewrite Ec. split_and!; [simpl; lia|done|done].
Qed.

Lemma step_accum tty m e m' :
  (forall w : W, os_isatty w = tty) -> accum_ok tty m -> step m e = Ret m' -> accum_ok tty m'.
Proof.
  intros Htty Hok. destruct e as [text|eintr eof|]; simpl.
  - apply take_line_accum; [done|]. unfold accum_ok in *. simpl. by rewrite head_accum.
  - assert (accum_ok tty (head m)) as Hok' by (unfold accum_ok in *; by rewrite head_accum).
    unfold no_line. destruct eintr.
    { destruct (ms_interrupted (head m)); intros [= <-]; [|done].
      unfold accum_ok. simpl. split_and!; [lia|done|done]. }
    destruct (ms_accum (head m)) as [|c l] eqn:Ea.
    + destruct (jobs_has_stopped _) as [s b]. destruct (b && _); intros [= <-];
        unfold accum_ok; simpl; (split_and!; [lia|done|done]).
    + destruct (negb _ && eof); [by apply take_line_accum|by intros [= <-]].
  - by intros [= <-].
Qed.

(**  Throughout every session (any input, any signals) the pending text
    fits its array of 1025 bytes with the terminating NUL and never contains a
    complete line; when the input is no terminal nothing is ever pending, so
    the last line of a script without a newline is run at once. *)
Theorem pending_line_fits (tty : bool) (w : W) (evs : list event) (m : mstate W)
    (Htty : forall w0 : W, os_isatty w0 = tty) (Hr : loop (main_start w) evs = Ret m) :
  length (ms_accum m) <= MAX_INPUT_LEN /\ last (ms_accum m) <> Some NEWLINE /\
  (tty = false -> ms_accum m = []).
Proof.
  assert (accum_ok tty (main_start w)) as Hok by (split_and!; simpl; [lia|done|done]).
  revert Hok Hr. generalize (main_start w). induction evs as [|e evs IH]; intros m0 Hok; simpl.
  { intros [= ->]. exact Hok. }
  destruct (ms_running m0); [|intros [= ->]; exact Hok].
  intros Hr. apply obind_inv in Hr as (m1 & Hs & Hr). eapply IH; [|done]. by eapply step_accum.
Qed.

(** The state with a pending text, in the middle of a typed line. *)
Definition pending m (accum line : cstr) : mstate W :=
  mk_ms (ms_js m) accum line (ms_warned m) (ms_interrupted m) true.

Lemma head_pending m c accum line : head (pending m (c :: accum) line) = pending m (c :: accum) line.
Proof. done. Qed.

Lemma take_piece m accum piece :
  os_isatty (js_os (ms_js m)) = true -> piece <> [] -> NEWLINE ∉ piece ->
  length accum + length piece <= MAX_INPUT_LEN ->
  take_line malloc_ok run_builtin (pending m accum piece) = Ret (pending m (accum ++ piece) piece).
Proof.
  intros Ht Hne Hnl Hlen. unfold take_line, pending.
  cbn [ms_js ms_accum ms_line ms_warned ms_interrupted]. destruct piece as [|c p] eqn:Ep; [done|].
  destruct (Nat.ltb_spec (length accum + length (c :: p)) (MAX_INPUT_LEN + 1)); [|lia].
  rewrite last_app. destruct (last (c :: p)) as [x|] eqn:Ex; [|by apply last_None in Ex].
  rewrite Ht, bool_decide_false; [done|].
  intros ->. apply Hnl. apply last_Some in Ex as [l ->]. set_solver.
Qed.

Lemma take_final m accum q :
  length accum + length q < MAX_INPUT_LEN ->
  take_line malloc_ok run_builtin (pending m accum (q ++ [NEWLINE])) =
  (let* s := run_line malloc_ok run_builtin (ms_js m) (accum ++ q) in
   Ret (mk_ms s [] (q ++ [NEWLINE]) false (ms_interrupted m) true)).
Proof.
  intros Hlen. unfold take_line, pending.
  cbn [ms_js ms_accum ms_line ms_warned ms_interrupted]. destruct (q ++ [NEWLINE]) as [|c l] eqn:Eq; [by destruct q|].
  rewrite <- Eq, length_app. change (length [NEWLINE]) with 1.
  destruct (Nat.ltb_spec (length accum + (length q + 1)) (MAX_INPUT_LEN + 1)); [|lia].
  rewrite app_assoc, last_snoc. rewrite bool_decide_true by done. simpl (negb true && _). cbv iota.
  rewrite decide_True by done. rewrite length_app. change (length [NEWLINE]) with 1.
  replace (length (accum ++ q) + 1 - 1) with (length (accum ++ q)) by lia.
  by rewrite take_app_length.
Qed.

Lemma loop_pending m q : no_nul q -> os_isatty (js_os (ms_js m)) = true -> forall pieces acc line,
  Forall (fun p => p <> [] /\ (NEWLINE ∉ p) /\ no_nul p) pieces -> acc <> [] ->
  length acc + length (mjoin pieces) + length q < MAX_INPUT_LEN ->
  loop (pending m acc line) ((Ev_line <$> pieces) ++ [Ev_line (q ++ [NEWLINE])]) =
  (let* s := run_line malloc_ok run_builtin (ms_js m) (acc ++ mjoin pieces ++ q) in
   Ret (mk_ms s [] (q ++ [NEWLINE]) false (ms_interrupted m) true)).
Proof.
  intros Hq Htty. induction pieces as [|p pieces IH]; intros acc line Hp Ha Hl;
    (destruct acc as [|a acc]; [done|]); cbn [fmap list_fmap app main_loop];
    change (ms_running (pending m (a :: acc) line)) with true; cbv iota; cbn [main_step];
    rewrite head_pending.
  - rewrite cstr_prefix_no_nul by (apply no_nul_app; split; [done|vm_compute; set_solver]).
    change (take_line malloc_ok run_builtin _) with
      (take_line malloc_ok run_builtin (pending m (a :: acc) (q ++ [NEWLINE]))).
    rewrite take_final by (simpl in *; lia). by destruct (run_line _ _ _ _).
  - inversion Hp as [|? ? (Hne & Hnl & Hnn) Hp']; subst.
    change (mjoin (p :: pieces)) with (p ++ mjoin pieces) in *. rewrite length_app in Hl.
    rewrite cstr_prefix_no_nul by done.
    change (take_line malloc_ok run_builtin _) with
      (take_line malloc_ok run_builtin (pending m (a :: acc) p)).
    rewrite take_piece by (done || (simpl in *; lia)).
    cbn [obind]. rewrite IH; [by rewrite <- !app_assoc|done|done|]. rewrite length_app. simpl in *. lia.
Qed.

(**  A line that is typed in pieces (the end-of-file key pressed in the
    middle of it delivers what is there) is run once, as a whole, when its
    newline arrives, under one prompt. *)
Theorem typed_pieces_run_once (m : mstate W) (pieces : list cstr) (q : cstr)
    (Htty : os_isatty (js_os (ms_js (head m))) = true)
    (Hm : ms_running m = true /\ ms_accum m = [])
    (Hp : Forall (fun p => p <> [] /\ (NEWLINE ∉ p) /\ no_nul p) pieces) (Hq : no_nul q)
    (Hlen : length (mjoin pieces) + length q < MAX_INPUT_LEN) :
  loop m ((Ev_line <$> pieces) ++ [Ev_line (q ++ [NEWLINE])]) =
  (let* s := run_line malloc_ok run_builtin (ms_js (head m)) (mjoin pieces ++ q) in
   Ret (mk_ms s [] (q ++ [NEWLINE]) false (ms_interrupted m) true)).
Proof.
  destruct Hm as [Hrun Hacc].
  assert (ms_interrupted (head m) = ms_interrupted m) as Hint by (unfold loop_head; by rewrite Hacc).
  destruct pieces as [|p pieces]; cbn [fmap list_fmap app main_loop]; rewrite Hrun;
    cbn [main_step]; rewrite head_accum, Hacc.
  - rewrite cstr_prefix_no_nul by (apply no_nul_app; split; [done|vm_compute; set_solver]).
    change (take_line malloc_ok run_builtin _) with
      (take_line malloc_ok run_builtin (pending (head m) [] (q ++ [NEWLINE]))).
    rewrite take_final by (simpl in *; lia). rewrite Hint. by destruct (run_line _ _ _ _).
  - inversion Hp as [|? ? (Hne & Hnl & Hnn) Hp']; subst.
    change (mjoin (p :: pieces)) with (p ++ mjoin pieces) in *. rewrite length_app in Hlen.
    rewrite cstr_prefix_no_nul by done.
    change (take_line malloc_ok run_builtin _) with
      (take_line malloc_ok run_builtin (pending (head m) [] p)).
    rewrite take_piece by (done || (simpl in *; lia)). cbn [obind app].
    rewrite loop_pending by (done || lia). by rewrite Hint, <- app_assoc.
Qed.

(** The shell leaves its loop only when the end of the input is reached
    with nothing pending, and while a job is stopped only after it has warned:
    the flag that allows it is set by printing the warning (the shell then
    goes on) and cleared whenever a line is run.  On leaving, every active job
    is sent SIGHUP. *)
Theorem exit_needs_warning (m m' : mstate W) (e : event)
    (Hrun : ms_running m = true) (Hs : step m e = Ret m') :
  (ms_running m' = false ->
     (exists eof, e = Ev_null false eof) /\ ms_accum m = [] /\
     ((jobs_has_stopped (ms_js (head m))).2 = true -> ms_warned m = true) /\
     ms_js m' = jobs_send_sighup_all (jobs_has_stopped (ms_js (head m))).1) /\
  (ms_warned m = false -> ms_warned m' = true ->
     ms_running m' = true /\ (jobs_has_stopped (ms_js (head m))).2 = true /\
     last (js_out (ms_js m')) = Some (c_str "cshell: there are stopped jobs")).
Proof.
  assert (ms_running (head m) = true /\ ms_warned (head m) = ms_warned m) as [Hr1 Hw1].
  { unfold loop_head. by destruct (ms_accum m). }
  assert (forall m1, ms_running m1 = true -> take_line malloc_ok run_builtin m1 = Ret m' ->
    ms_running m' = true /\ (ms_warned m' = true -> ms_warned m1 = true)) as Htake.
  { intros m1 Hm1. unfold take_line. set (accum := match ms_line m1 with [] => _ | _ => _ end).
    destruct (last accum) as [c|]; [|by intros [= <-]].
    destruct (negb _ && _); [by intros [= <-]|].
    intros Hr. by apply obind_inv in Hr as (s & _ & [= <-]). }
  destruct e as [text|eintr eof|]; cbn [main_step] in Hs.
  - apply Htake in Hs as [Hr' Hw']; [|done]. simpl in Hw'. rewrite Hw1 in Hw'.
    split; intros; [congruence|]. specialize (Hw' ltac:(done)). congruence.
  - unfold no_line in Hs. destruct eintr.
    { destruct (ms_interrupted (head m)); simplify_eq/=; split; intros; congruence. }
    rewrite head_accum in Hs. destruct (ms_accum m) as [|c l] eqn:Ea.
    + destruct (jobs_has_stopped (ms_js (head m))) as [s b] eqn:Eb. simpl.
      destruct (b && negb (ms_warned (head m))) eqn:Et; simplify_eq/=.
      * reflect. split; [done|]. intros _ _. split_and!; [done|done|]. by rewrite last_snoc.
      * split; [|intros; congruence]. intros _. split_and!; [eauto|done| |done].
        intros ->. rewrite Hw1 in Et. by destruct (ms_warned m).
    + destruct (negb _ && eof); [|simplify_eq; split; intros; congruence].
      apply Htake in Hs as [Hr' Hw']; [|done]. rewrite Hw1 in Hw'.
      split; intros; [congruence|]. specialize (Hw' ltac:(done)). congruence.
  - simplify_eq/=. split; intros; congruence.
Qed.
End loop.

(** *** Witnesses *)

(** The system of [Exec] is a terminal whose commands succeed. *)
Definition sample_main : mstate fdworld := main_start (mk_fdworld {[ 0; 1; 2 ]} 5).

Abbreviation sample_loop :=
  (main_loop (fun _ => true) builtin_nop (c_str "/home") (c_str "u") (c_str "h")).
Abbreviation sample_head := (loop_head (c_str "/home") (c_str "u") (c_str "h")).

Lemma pending_line_fits_witness :
  match sample_loop sample_main [Ev_line (c_str "ls"); Ev_signal; Ev_null true false; Ev_line (c_str "wc")] with
  | Ret m => ms_accum m = c_str "wc" /\ length (ms_accum m) <= MAX_INPUT_LEN
  | _ => False
  end.
Proof.
  destruct (sample_loop sample_main _) as [m| | | |] eqn:E; [|by vm_compute in E..].
  split; [by vm_compute in E; simplify_eq|].
  exact (proj1 (pending_line_fits (fun _ => true) builtin_nop (c_str "/home") (c_str "u") (c_str "h")
    true (mk_fdworld {[ 0; 1; 2 ]} 5) _ m (fun _ => eq_refl) E)).
Defined.

Lemma typed_pieces_run_once_witness :
  sample_loop sample_main [Ev_line (c_str "ls -"); Ev_line (c_str "l" ++ [NEWLINE])] =
  (let* s := run_line (fun _ => true) builtin_nop (ms_js (sample_head sample_main)) (c_str "ls -" ++ c_str "l") in
   Ret (mk_ms s [] (c_str "l" ++ [NEWLINE]) false false true)).
Proof.
  refine (typed_pieces_run_once (fun _ => true) builtin_nop (c_str "/home") (c_str "u") (c_str "h")
    sample_main [c_str "ls -"] (c_str "l") _ _ _ _ _).
  - reflexivity.
  - split; reflexivity.
  - apply Forall_cons_2; [|apply Forall_nil_2]. split_and!; [discriminate|vm_compute; set_solver..].
  - vm_compute. set_solver.
  - unfold MAX_INPUT_LEN. simpl. lia.
Defined.

Lemma exit_needs_warning_witness :
  match main_step (fun _ => true) builtin_nop (c_str "/home") (c_str "u") (c_str "h")
          sample_main (Ev_null false true) with
  | Ret m' => ms_running m' = false /\ ms_accum sample_main = []
  | _ => False
  end.
Proof.
  destruct (main_step _ _ _ _ _ sample_main _) as [m'| | | |] eqn:E; [|by vm_compute in E..].
  assert (ms_running m' = false) as Hr by (vm_compute in E; by simplify_eq).
  split; [done|].
  apply (proj1 (exit_needs_warning (fun _ => true) builtin_nop (c_str "/home") (c_str "u") (c_str "h")
    sample_main m' (Ev_null false true) eq_refl E) Hr).
Defined.
