(* ===== verification/Sched.v ===== *)
(** * Processes and schedulers of the kernel ([xv6/kernel/proc.c],
      the timer part of [xv6/kernel/trap.c])

    The process table, the CPUs and the clock are a record [kernel]; every
    function of the source that changes them under its locks is a function on
    that record.  A CPU runs at most one process; [None] is a CPU inside its
    scheduler loop.  [swtch] is the assignment to the [cpus] entry.  The three
    scheduling policies are compile-time choices of the source and a parameter
    here.

    Memory management appears through its answers ([kalloc], [proc_pagetable],
    [uvmcopy], [copyout] succeed or fail), files and directories not at all. *)

From S2P Require Import Prelude.

Definition NPROC : nat := 64.

Inductive policy : Type := RR | FIFO | MLFQ.
#[global] Instance policy_eq_dec : EqDecision policy.
Proof. solve_decision. Defined.

Inductive procstate : Type := UNUSED | USED | SLEEPING | RUNNABLE | RUNNING | ZOMBIE.
#[global] Instance procstate_eq_dec : EqDecision procstate.
Proof. solve_decision. Defined.

(** Sleep channels are addresses: of a process, of [ticks], or another. *)
Inductive chan : Type := Ch_proc (i : nat) | Ch_ticks | Ch_other (a : Z).
#[global] Instance chan_eq_dec : EqDecision chan.
Proof. solve_decision. Defined.

(** The bookkeeping of the schedulers. *)
Record sched_info : Type := mk_si {
  si_priority : Z;
  si_ticks_used : Z;
  si_ctime : Z;
  si_rtime : Z;
  si_wtime : Z;
  si_etime : Z;
  si_first_run : Z
}.

Record proc : Type := mk_proc {
  p_state : procstate;
  p_chan : option chan;
  p_killed : bool;
  p_xstate : Z;
  p_pid : Z;
  p_parent : option nat;
  p_trapframe : bool;
  p_pagetable : bool;
  p_sz : Z;
  p_si : sched_info
}.

Record kernel : Type := mk_kernel {
  k_procs : list proc;
  k_cpus : list (option nat);
  k_nextpid : Z;
  k_ticks : Z;
  k_boost : Z;
  k_init : nat
}.

(** Assignments to single fields. *)
Definition set_state (st : procstate) (p : proc) : proc :=
  mk_proc st (p_chan p) (p_killed p) (p_xstate p) (p_pid p) (p_parent p) (p_trapframe p) (p_pagetable p)
    (p_sz p) (p_si p).
Definition set_chan (ch : option chan) (p : proc) : proc :=
  mk_proc (p_state p) ch (p_killed p) (p_xstate p) (p_pid p) (p_parent p) (p_trapframe p) (p_pagetable p)
    (p_sz p) (p_si p).
Definition set_killed (p : proc) : proc :=
  mk_proc (p_state p) (p_chan p) true (p_xstate p) (p_pid p) (p_parent p) (p_trapframe p) (p_pagetable p)
    (p_sz p) (p_si p).
Definition set_parent (pp : option nat) (p : proc) : proc :=
  mk_proc (p_state p) (p_chan p) (p_killed p) (p_xstate p) (p_pid p) pp (p_trapframe p) (p_pagetable p)
    (p_sz p) (p_si p).
Definition set_si (si : sched_info) (p : proc) : proc :=
  mk_proc (p_state p) (p_chan p) (p_killed p) (p_xstate p) (p_pid p) (p_parent p) (p_trapframe p)
    (p_pagetable p) (p_sz p) si.

Definition with_procs (k : kernel) (l : list proc) : kernel :=
  mk_kernel l (k_cpus k) (k_nextpid k) (k_ticks k) (k_boost k) (k_init k).
Definition with_cpu (k : kernel) (c : nat) (r : option nat) : kernel :=
  mk_kernel (k_procs k) (<[c := r]> (k_cpus k)) (k_nextpid k) (k_ticks k) (k_boost k) (k_init k).

(** An update of process [i] under its lock. *)
Definition upd (k : kernel) (i : nat) (f : proc -> proc) : kernel :=
  with_procs k (alter f i (k_procs k)).

(** ** Allocation *)
Definition allocpid (k : kernel) : kernel * Z :=
  (mk_kernel (k_procs k) (k_cpus k) (wrap32 (k_nextpid k + 1)) (k_ticks k) (k_boost k) (k_init k),
   k_nextpid k).

Definition freeproc (p : proc) : proc :=
  mk_proc UNUSED None false 0 0 (p_parent p) false false 0 (p_si p).

(** [p->ctime = ticks] converts to [int]. *)
Definition fresh_si (ticks : Z) : sched_info := mk_si 0 0 (wrap32 ticks) 0 0 0 (-1).

(** [found:] the slot gets a number and the state USED; when the trapframe or
    the page table cannot be had it is freed again. *)
Definition allocproc (k : kernel) (kalloc_ok pagetable_ok : bool) : kernel * option nat :=
  match list_find (fun p => p_state p = UNUSED) (k_procs k) with
  | None => (k, None)
  | Some (i, p) =>
      let '(k, pid) := allocpid k in
      let p1 := mk_proc USED (p_chan p) (p_killed p) (p_xstate p) pid (p_parent p) kalloc_ok
                  (p_pagetable p) (p_sz p) (p_si p) in
      if negb kalloc_ok then (upd k i (fun _ => freeproc p1), None)
      else
        let p2 := mk_proc USED (p_chan p) (p_killed p) (p_xstate p) pid (p_parent p) true pagetable_ok
                    (p_sz p) (p_si p) in
        if negb pagetable_ok then (upd k i (fun _ => freeproc p2), None)
        else (upd k i (fun _ => set_si (fresh_si (k_ticks k)) p2), Some i)
  end.

Definition set_sz (sz : Z) (p : proc) : proc :=
  mk_proc (p_state p) (p_chan p) (p_killed p) (p_xstate p) (p_pid p) (p_parent p) (p_trapframe p)
    (p_pagetable p) sz (p_si p).

(** [fork] by process [cur]. *)
Definition kfork (k : kernel) (cur : nat) (kalloc_ok pagetable_ok uvmcopy_ok : bool) : kernel * Z :=
  let '(k, np) := allocproc k kalloc_ok pagetable_ok in
  match np with
  | None => (k, (-1)%Z)
  | Some np =>
      if negb uvmcopy_ok then (upd k np freeproc, (-1)%Z)
      else
        let sz := default 0%Z (p_sz <$> k_procs k !! cur) in
        let pid := default 0%Z (p_pid <$> k_procs k !! np) in
        let k := upd k np (set_sz sz) in
        let k := upd k np (set_parent (Some cur)) in
        (upd k np (set_state RUNNABLE), pid)
  end.

(** The first process. *)
Definition userinit (k : kernel) (kalloc_ok pagetable_ok : bool) : outcome kernel :=
  let '(k, p) := allocproc k kalloc_ok pagetable_ok in
  match p with
  | None => Undef
  | Some i =>
      Ret (upd (mk_kernel (k_procs k) (k_cpus k) (k_nextpid k) (k_ticks k) (k_boost k) i) i
             (set_state RUNNABLE))
  end.

(** ** Sleeping and waking *)
Definition sleep_prepare (k : kernel) (i : nat) (ch : chan) : kernel := upd k i (set_chan (Some ch)).

(** Leaving the CPU: [sched] switches to the scheduler of CPU [c].  The four
    checks before the switch are left out: the process lock and the interrupt
    state are not part of this model, and every caller has taken the process
    out of the state RUNNING. *)
Definition sched (k : kernel) (c : nat) : kernel := with_cpu k c None.

Definition reset_ticks (p : proc) : proc :=
  let si := p_si p in
  set_si (mk_si (si_priority si) 0 (si_ctime si) (si_rtime si) (si_wtime si) (si_etime si)
            (si_first_run si)) p.

(** The result says whether the process went to sleep. *)
Definition sleep (pol : policy) (k : kernel) (c i : nat) : kernel * bool :=
  match k_procs k !! i ≫= p_chan with
  | None => (k, false)
  | Some _ =>
      let k := upd k i (set_state SLEEPING) in
      let k := if decide (pol = MLFQ) then upd k i reset_ticks else k in
      (sched k c, true)
  end.

Definition wake_one (ch : chan) (p : proc) : proc :=
  if decide (p_chan p = Some ch) then
    let p := set_chan None p in
    if decide (p_state p = SLEEPING) then set_state RUNNABLE p else p
  else p.

Definition wakeup (k : kernel) (ch : chan) : kernel := with_procs k (wake_one ch <$> k_procs k).

Definition kill_one (p : proc) : proc :=
  let p := set_killed p in
  if decide (p_state p = SLEEPING) then set_state RUNNABLE p else p.

Definition kkill (k : kernel) (pid : Z) : kernel * Z :=
  match list_find (fun p => p_pid p = pid) (k_procs k) with
  | Some (i, _) => (upd k i kill_one, 0%Z)
  | None => (k, (-1)%Z)
  end.

Definition setkilled (k : kernel) (i : nat) : kernel := upd k i set_killed.

Definition killed (k : kernel) (i : nat) : bool := default false (p_killed <$> k_procs k !! i).

(** ** Exit and wait *)

(** [reparent]: each child moves to [initproc], which is woken each time. *)
Fixpoint reparent_loop (k : kernel) (i : nat) (n j : nat) : kernel :=
  match n with
  | O => k
  | S n =>
      let k :=
        if decide ((k_procs k !! j ≫= p_parent) = Some i)
        then wakeup (upd k j (set_parent (Some (k_init k)))) (Ch_proc (k_init k))
        else k in
      reparent_loop k i n (S j)
  end.

Definition reparent (k : kernel) (i : nat) : kernel := reparent_loop k i (length (k_procs k)) 0.

Definition exit_one (status ticks : Z) (p : proc) : proc :=
  let si := p_si p in
  mk_proc ZOMBIE (p_chan p) (p_killed p) status (p_pid p) (p_parent p) (p_trapframe p) (p_pagetable p)
    (p_sz p) (mk_si (si_priority si) (si_ticks_used si) (si_ctime si) (si_rtime si) (si_wtime si)
                (wrap32 ticks) (si_first_run si)).

Definition kexit (k : kernel) (c i : nat) (status : Z) : outcome kernel :=
  if decide (i = k_init k) then Panic "init exiting"
  else
    let k := reparent k i in
    let k := match k_procs k !! i ≫= p_parent with
             | Some pp => wakeup k (Ch_proc pp)
             | None => k
             end in
    let k := upd k i (exit_one status (k_ticks k)) in
    Ret (sched k c).

(** What the caller of [wait] and [waitx] learns about the child. *)
Record reaped : Type := mk_reaped {
  re_pid : Z; re_xstate : Z; re_rtime : Z; re_wtime : Z; re_response : Z
}.

Inductive wait_result : Type :=
| Wait_error (k : kernel)
| Wait_reaped (k : kernel) (r : reaped)
| Wait_sleep (k : kernel).

Definition reap_info (p : proc) : reaped :=
  let si := p_si p in
  mk_reaped (p_pid p) (p_xstate p) (si_rtime si) (si_wtime si)
    (if (0 <=? si_first_run si)%Z then wrap32 (si_first_run si - si_ctime si) else 0%Z).

(** The scan of the table: [None] behind its end, with the flag [havekids]. *)
Fixpoint wait_scan (k : kernel) (i : nat) (copyout_ok : bool) (n j : nat) (havekids : bool)
    : bool * option wait_result :=
  match n with
  | O => (havekids, None)
  | S n =>
      match k_procs k !! j with
      | Some pp =>
          if decide (p_parent pp = Some i) then
            if decide (p_state pp = ZOMBIE) then
              if copyout_ok : bool
              then (true, Some (Wait_reaped (upd (upd k j (set_parent None)) j freeproc) (reap_info pp)))
              else (true, Some (Wait_error k))
            else wait_scan k i copyout_ok n (S j) true
          else wait_scan k i copyout_ok n (S j) havekids
      | None => (havekids, None)
      end
  end.

(** One round of the loop of [kwait], up to the call of [sleep]. *)
Definition wait_round (k : kernel) (i : nat) (copyout_ok : bool) : wait_result :=
  match wait_scan k i copyout_ok (length (k_procs k)) 0 false with
  | (_, Some r) => r
  | (havekids, None) =>
      if negb havekids || killed k i then Wait_error k else Wait_sleep (sleep_prepare k i (Ch_proc i))
  end.

(** [waitx] copies four values out, each only when asked for; it stops at the
    first that cannot be copied. *)
Definition waitx_round (k : kernel) (i : nat) (addr_ok rtime_ok wtime_ok retime_ok : bool) : wait_result :=
  wait_round k i (addr_ok && rtime_ok && wtime_ok && retime_ok).

(** ** Timer *)
Definition charge (running : bool) (p : proc) : proc :=
  let si := p_si p in
  if running then
    set_si (mk_si (si_priority si) (si_ticks_used si) (si_ctime si) (wrap32 (si_rtime si + 1)) (si_wtime si)
              (si_etime si) (si_first_run si)) p
  else if decide (p_state p = RUNNABLE) then
    set_si (mk_si (si_priority si) (si_ticks_used si) (si_ctime si) (si_rtime si) (wrap32 (si_wtime si + 1))
              (si_etime si) (si_first_run si)) p
  else p.

Definition charge_all (k : kernel) (i : nat) : kernel :=
  with_procs k (imap (fun j p => charge (j =? i) p) (k_procs k)).

Definition slice_ticks : list Z := [1; 4; 8; 16]%Z.

Definition yield (k : kernel) (c i : nat) : kernel := sched (upd k i (set_state RUNNABLE)) c.

Definition set_level (priority ticks_used : Z) (p : proc) : proc :=
  let si := p_si p in
  set_si (mk_si priority ticks_used (si_ctime si) (si_rtime si) (si_wtime si) (si_etime si)
            (si_first_run si)) p.

(** Is a process of a queue above [prio] runnable? *)
Definition higher_runnable (k : kernel) (prio : Z) : bool :=
  existsb (fun q => existsb (fun hp => bool_decide (p_state hp = RUNNABLE) && (si_priority (p_si hp) =? q)%Z)
                      (k_procs k))
    (seqZ 0 prio).

(** The [SCHEDULER_MLFQ] part of [usertrap]. *)
Definition mlfq_timer (k : kernel) (c i : nat) : outcome kernel :=
  let* p := from_option (k_procs k !! i) in
  let si := p_si p in
  let ticks_used := wrap32 (si_ticks_used si + 1) in
  if (si_priority si <? 0)%Z then Undef
  else
    let* slice := from_option (slice_ticks !! Z.to_nat (si_priority si)) in
    if (slice <=? ticks_used)%Z then
      let prio := if (si_priority si <? 3)%Z then (si_priority si + 1)%Z else si_priority si in
      Ret (yield (upd k i (set_level prio 0)) c i)
    else
      let k := upd k i (set_level (si_priority si) ticks_used) in
      if higher_runnable k (si_priority si) then Ret (yield k c i) else Ret k.

(** A timer interrupt of process [i] in user mode on CPU [c]. *)
Definition user_timer (pol : policy) (k : kernel) (c i : nat) : outcome kernel :=
  let k := charge_all k i in
  match pol with
  | FIFO => Ret k
  | MLFQ => mlfq_timer k c i
  | RR => Ret (yield k c i)
  end.

(** [clockintr], on the first CPU. *)
Definition clockintr (k : kernel) : kernel :=
  wakeup (mk_kernel (k_procs k) (k_cpus k) (k_nextpid k) (u32 (k_ticks k + 1)) (k_boost k) (k_init k)) Ch_ticks.

(** ** Schedulers *)

(** [swtch] to process [i]. *)
Definition dispatch (k : kernel) (c i : nat) : kernel := with_cpu (upd k i (set_state RUNNING)) c (Some i).

(** Round robin: the loop over the table goes on behind the process that ran
    last, at [pos]. *)
Definition runnable (p : proc) : bool := bool_decide (p_state p = RUNNABLE).

Definition rr_pick (l : list proc) (pos : nat) : option nat :=
  (fun r => pos + fst r) <$> list_find (fun p => runnable p = true) (drop pos l).

(** FIFO: the runnable process with the smallest creation time. *)
Fixpoint fifo_scan (l : list proc) (j : nat) (earliest : option (nat * proc)) : option (nat * proc) :=
  match l with
  | [] => earliest
  | p :: l =>
      let earliest :=
        if runnable p then
          match earliest with
          | None => Some (j, p)
          | Some (e, ep) =>
              if (si_ctime (p_si p) <? si_ctime (p_si ep))%Z then Some (j, p) else Some (e, ep)
          end
        else earliest in
      fifo_scan l (S j) earliest
  end.

Definition fifo_pick (l : list proc) : option nat := fst <$> fifo_scan l 0 None.

Definition note_first_run (ticks : Z) (p : proc) : proc :=
  let si := p_si p in
  if (si_first_run si =? -1)%Z then
    set_si (mk_si (si_priority si) (si_ticks_used si) (si_ctime si) (si_rtime si) (si_wtime si) (si_etime si)
              (wrap32 ticks)) p
  else p.

(** MLFQ: the boost, then the queues from 0 to 3. *)
Definition boost (k : kernel) : kernel :=
  if (48 <=? u32 (k_ticks k - k_boost k))%Z then
    mk_kernel (set_level 0 0 <$> k_procs k) (k_cpus k) (k_nextpid k) (k_ticks k) (wrap32 (k_ticks k)) (k_init k)
  else k.

Fixpoint mlfq_queues (l : list proc) (qs : list Z) : option nat :=
  match qs with
  | [] => None
  | q :: qs =>
      match list_find (fun p => runnable p && (si_priority (p_si p) =? q)%Z = true) l with
      | Some (i, _) => Some i
      | None => mlfq_queues l qs
      end
  end.

Definition mlfq_pick (l : list proc) : option nat := mlfq_queues l [0; 1; 2; 3]%Z.

(** One decision of the scheduler of CPU [c]; [pos] is the position of the
    round-robin loop. *)
Definition scheduler (pol : policy) (k : kernel) (c pos : nat) : kernel * option nat :=
  match pol with
  | RR =>
      match rr_pick (k_procs k) pos with
      | Some i => (dispatch k c i, Some i)
      | None => (k, None)
      end
  | FIFO =>
      match fifo_pick (k_procs k) with
      | Some i => (dispatch (upd k i (note_first_run (k_ticks k))) c i, Some i)
      | None => (k, None)
      end
  | MLFQ =>
      let k := boost k in
      match mlfq_pick (k_procs k) with
      | Some i => (dispatch k c i, Some i)
      | None => (k, None)
      end
  end.

(** ** The kernel as a transition system

    A step is a system call or interrupt of a process on its CPU, or a
    decision of the scheduler of an idle CPU. *)
Definition running_on (k : kernel) (c i : nat) : Prop := k_cpus k !! c = Some (Some i).

Inductive kstep (pol : policy) : kernel -> kernel -> Prop :=
| step_fork k c i b1 b2 b3 :
    running_on k c i -> (k_nextpid k < INT_MAX)%Z -> kstep pol k (kfork k i b1 b2 b3).1
| step_exit k c i status k' :
    running_on k c i -> kexit k c i status = Ret k' -> kstep pol k k'
| step_wait k c i b k' :
    running_on k c i ->
    (wait_round k i b = Wait_error k' \/ (exists r, wait_round k i b = Wait_reaped k' r) \/
     wait_round k i b = Wait_sleep k') -> kstep pol k k'
| step_prepare k c i ch : running_on k c i -> kstep pol k (sleep_prepare k i ch)
| step_sleep k c i : running_on k c i -> kstep pol k (sleep pol k c i).1
| step_wakeup k c i ch : running_on k c i -> kstep pol k (wakeup k ch)
| step_kill k c i pid : running_on k c i -> kstep pol k (kkill k pid).1
| step_setkilled k c i : running_on k c i -> kstep pol k (setkilled k i)
| step_timer k c i k' : running_on k c i -> user_timer pol k c i = Ret k' -> kstep pol k k'
| step_kernel_timer k c i : running_on k c i -> kstep pol k (yield k c i)
| step_clock k : kstep pol k (clockintr k)
| step_sched k c pos : k_cpus k !! c = Some None -> kstep pol k (scheduler pol k c pos).1.

Definition empty_proc : proc :=
  mk_proc UNUSED None false 0 0 None false false 0 (mk_si 0 0 0 0 0 0 0).

(** After [procinit], with [ncpu] CPUs. *)
Definition procinit (ncpu : nat) : kernel := mk_kernel (replicate NPROC empty_proc) (replicate ncpu None) 1 0 0 0.

Definition kreach (pol : policy) (ncpu : nat) (k : kernel) : Prop :=
  exists k0, userinit (procinit ncpu) true true = Ret k0 /\ rtc (kstep pol) k0 k.

(** ** The invariant *)
Definition live (p : proc) : Prop := p_state p = SLEEPING \/ p_state p = RUNNABLE \/ p_state p = RUNNING.

(** The queue of a process exists and its slice is not used up. *)
Definition level_ok (p : proc) : Prop :=
  exists slice, (0 <= si_priority (p_si p))%Z /\
    slice_ticks !! Z.to_nat (si_priority (p_si p)) = Some slice /\
    (0 <= si_ticks_used (p_si p) < slice)%Z.

Record kinv (k : kernel) : Prop := {
  ki_length : length (k_procs k) = NPROC;
  ki_cpu : forall c i, running_on k c i -> exists p, k_procs k !! i = Some p /\ p_state p = RUNNING;
  ki_running : forall i p, k_procs k !! i = Some p -> p_state p = RUNNING -> exists c, running_on k c i;
  ki_one_cpu : forall c1 c2 i, running_on k c1 i -> running_on k c2 i -> c1 = c2;
  ki_chan : forall i p, k_procs k !! i = Some p -> p_state p = SLEEPING -> p_chan p <> None;
  ki_parent : forall j p q, k_procs k !! j = Some p -> p_parent p = Some q ->
    exists pq, k_procs k !! q = Some pq /\ live pq;
  ki_init : exists p, k_procs k !! k_init k = Some p /\ live p;
  ki_unused : forall i p, k_procs k !! i = Some p -> p_state p = UNUSED -> p_pid p = 0%Z /\ p_parent p = None;
  ki_used : forall i p, k_procs k !! i = Some p -> p_state p <> USED;
  ki_pid : forall i p, k_procs k !! i = Some p -> p_state p <> UNUSED -> (0 < p_pid p < k_nextpid k)%Z;
  ki_pid_inj : forall i j p q, k_procs k !! i = Some p -> k_procs k !! j = Some q ->
    p_state p <> UNUSED -> p_pid p = p_pid q -> i = j;
  ki_nextpid : (0 < k_nextpid k <= INT_MAX)%Z;
  ki_level : forall i p, k_procs k !! i = Some p -> level_ok p
}.

(** Changes that touch neither the identity of a process nor its CPU. *)
Record gentle (init : nat) (p p' : proc) : Prop := {
  ge_pid : p_pid p' = p_pid p;
  ge_parent : p_parent p' = p_parent p \/ (p_parent p <> None /\ p_parent p' = Some init);
  ge_state : p_state p' = p_state p \/ (p_state p = SLEEPING /\ p_state p' = RUNNABLE);
  ge_chan : p_state p' = SLEEPING -> p_chan p' <> None;
  ge_level : level_ok p'
}.

Lemma gentle_live init p p' : gentle init p p' -> live p -> live p'.
Proof. unfold live. intros [_ _ [->|[-> ->]] _ _]; auto. Qed.

Lemma gentle_unused init p p' : gentle init p p' -> (p_state p' = UNUSED <-> p_state p = UNUSED) /\
  (p_state p' = RUNNING <-> p_state p = RUNNING) /\ (p_state p' = USED <-> p_state p = USED).
Proof. intros [_ _ [->|[-> ->]] _ _]; split_and!; naive_solver. Qed.

Lemma kinv_gentle k k' :
  kinv k -> length (k_procs k') = length (k_procs k) -> k_cpus k' = k_cpus k ->
  k_nextpid k' = k_nextpid k -> k_init k' = k_init k ->
  (forall j p', k_procs k' !! j = Some p' -> exists p, k_procs k !! j = Some p /\ gentle (k_init k) p p') ->
  kinv k'.
Proof.
  intros [Hl Hc Hr H1 Hch Hp Hi Hu Hus Hpid Hinj Hn Hlv] El Ec En Ei Hg.
  assert (forall j p, k_procs k !! j = Some p ->
    exists p', k_procs k' !! j = Some p' /\ gentle (k_init k) p p') as Hg'.
  { intros j p Hj. destruct (lookup_lt_is_Some_2 (k_procs k') j) as [p' Hj'].
    { rewrite El. by eapply lookup_lt_Some. }
    destruct (Hg j p' Hj') as (p0 & ? & ?). exists p'. by simplify_eq. }
  assert (forall c i, running_on k' c i <-> running_on k c i) as Hro by (unfold running_on; by rewrite Ec).
  split; rewrite ?En, ?Ei; try done.
  - congruence.
  - intros c i Hci%Hro. destruct (Hc c i Hci) as (p & Hp0 & Hs). destruct (Hg' i p Hp0) as (p' & ? & G).
    exists p'. split; [done|]. by apply (gentle_unused _ _ _ G).
  - intros i p' Hi' Hs. destruct (Hg i p' Hi') as (p & Hp0 & G). destruct (Hr i p Hp0) as [c ?].
    { by apply (gentle_unused _ _ _ G). } exists c. by apply Hro.
  - intros c1 c2 i ?%Hro ?%Hro. by eapply H1.
  - intros i p' Hi' Hs. destruct (Hg i p' Hi') as (p & Hp0 & G). by apply G.
  - intros j p' q Hj Hq. destruct (Hg j p' Hj) as (p & Hp0 & G).
    assert (exists pq, k_procs k !! q = Some pq /\ live pq) as (pq & Hq0 & Hlq).
    { destruct (ge_parent _ _ _ G) as [E|[_ E]]; [apply (Hp j p q); congruence|]. rewrite E in Hq. by simplify_eq. }
    destruct (Hg' q pq Hq0) as (pq' & ? & Gq). exists pq'. split; [done|]. by eapply gentle_live.
  - destruct Hi as (p & Hp0 & Hl0). destruct (Hg' _ p Hp0) as (p' & ? & G). exists p'. split; [done|]. by eapply gentle_live.
  - intros i p' Hi' Hs. destruct (Hg i p' Hi') as (p & Hp0 & G).
    destruct (Hu i p Hp0) as [E1 E2]; [by apply (gentle_unused _ _ _ G)|].
    rewrite (ge_pid _ _ _ G). split; [done|]. destruct (ge_parent _ _ _ G) as [->|[? _]]; done.
  - intros i p' Hi' Hs. destruct (Hg i p' Hi') as (p & Hp0 & G). apply (Hus i p Hp0). by apply (gentle_unused _ _ _ G).
  - intros i p' Hi' Hs. destruct (Hg i p' Hi') as (p & Hp0 & G). rewrite (ge_pid _ _ _ G). apply (Hpid i p Hp0).
    intros E. apply Hs. by apply (gentle_unused _ _ _ G).
  - intros i j p' q' Hi' Hj' Hs Heq. destruct (Hg i p' Hi') as (p & Hp0 & G), (Hg j q' Hj') as (q & Hq0 & G').
    apply (Hinj i j p q); [done|done| |by rewrite <- (ge_pid _ _ _ G), <- (ge_pid _ _ _ G')].
    intros E. apply Hs. by apply (gentle_unused _ _ _ G).
  - intros i p' Hi'. destruct (Hg i p' Hi') as (p & Hp0 & G). by apply G.
Qed.

(** The lookup after an update of one process. *)
Lemma lookup_upd k i f j :
  k_procs (upd k i f) !! j = if decide (j = i) then f <$> k_procs k !! i else k_procs k !! j.
Proof.
  simpl. destruct (decide (j = i)) as [->|]; [by rewrite list_lookup_alter_eq|by rewrite list_lookup_alter_ne].
Qed.

Lemma gentle_refl k i p : kinv k -> k_procs k !! i = Some p -> gentle (k_init k) p p.
Proof.
  intros Hk Hi. split; auto; [by eapply ki_chan|by eapply ki_level].
Qed.

Lemma kinv_upd k i f :
  kinv k -> (forall p, k_procs k !! i = Some p -> gentle (k_init k) p (f p)) -> kinv (upd k i f).
Proof.
  intros Hk Hf. eapply kinv_gentle; [done|by simpl; rewrite length_alter|done..|].
  intros j p'. rewrite lookup_upd. case_decide as Hj; subst.
  - destruct (k_procs k !! i) as [p|] eqn:E; [|done]. intros [= <-]. eauto.
  - intros Hp. exists p'. split; [done|]. by eapply gentle_refl.
Qed.

Lemma kinv_fmap k f :
  kinv k -> (forall i p, k_procs k !! i = Some p -> gentle (k_init k) p (f p)) ->
  kinv (with_procs k (f <$> k_procs k)).
Proof.
  intros Hk Hf. eapply kinv_gentle; [done|by simpl; rewrite length_fmap|done..|].
  intros j p'. simpl. rewrite list_lookup_fmap. destruct (k_procs k !! j) as [p|] eqn:E; [|done].
  intros [= <-]. eauto.
Qed.

(** *** Changes of the gentle kind *)
Lemma level_si p p' : p_si p' = p_si p -> level_ok p -> level_ok p'.
Proof. unfold level_ok. by intros ->. Qed.

Lemma gentle_wake k i p ch : kinv k -> k_procs k !! i = Some p -> gentle (k_init k) p (wake_one ch p).
Proof.
  intros Hk Hi. pose proof (gentle_refl k i p Hk Hi) as G. unfold wake_one.
  destruct (decide (p_chan p = Some ch)); [|done]. simpl. destruct (decide (p_state p = SLEEPING)) as [Hs|Hs];
    split; simpl; auto; try done; try (by eapply level_si; [|by apply (ki_level k Hk i)]); naive_solver.
Qed.

Lemma kinv_wakeup k ch : kinv k -> kinv (wakeup k ch).
Proof. intros Hk. apply kinv_fmap; [done|]. intros. by eapply gentle_wake. Qed.

Lemma gentle_kill k i p : kinv k -> k_procs k !! i = Some p -> gentle (k_init k) p (kill_one p).
Proof.
  intros Hk Hi. pose proof (ki_chan k Hk i p Hi). unfold kill_one. simpl.
  destruct (decide (p_state p = SLEEPING)) as [Hs|Hs];
    split; simpl; auto; try done; try (by eapply level_si; [|by apply (ki_level k Hk i)]).
Qed.

Lemma kinv_prepare k i ch : kinv k -> kinv (sleep_prepare k i ch).
Proof.
  intros Hk. apply kinv_upd; [done|]. intros p Hp. split; simpl; auto; try done.
  eapply level_si; [|by apply (ki_level k Hk i)]. done.
Qed.

Lemma kinv_kkill k pid : kinv k -> kinv (kkill k pid).1.
Proof.
  intros Hk. unfold kkill. destruct (list_find _ _) as [[i p]|]; [|done].
  apply kinv_upd; [done|]. intros. by eapply gentle_kill.
Qed.

Lemma kinv_setkilled k i : kinv k -> kinv (setkilled k i).
Proof.
  intros Hk. apply kinv_upd; [done|]. intros p Hp. pose proof (ki_chan k Hk i p Hp).
  split; simpl; auto; try done. eapply level_si; [|by apply (ki_level k Hk i)]. done.
Qed.

(** Only the queue position matters for [level_ok]. *)
Lemma gentle_si k i p si : kinv k -> k_procs k !! i = Some p -> level_ok (set_si si p) ->
  gentle (k_init k) p (set_si si p).
Proof. intros Hk Hp Hl. pose proof (ki_chan k Hk i p Hp). split; simpl; auto. Qed.

Lemma kinv_charge_all k i : kinv k -> kinv (charge_all k i).
Proof.
  intros Hk. eapply kinv_gentle; [done|by simpl; rewrite length_imap|done..|].
  intros j p'. simpl. rewrite list_lookup_imap. destruct (k_procs k !! j) as [p|] eqn:E; [|done].
  intros [= <-]. exists p. split; [done|]. pose proof (ki_level k Hk j p E) as Hl. unfold charge.
  destruct (j =? i); [by apply (gentle_si k j)|]. case_decide; [by apply (gentle_si k j)|by apply (gentle_refl k j)].
Qed.

Lemma kinv_clock k : kinv k -> kinv (clockintr k).
Proof.
  intros Hk. apply kinv_wakeup. destruct Hk. split; done.
Qed.

Lemma level_zero p : level_ok (set_level 0 0 p).
Proof. exists 1%Z. simpl. split_and!; [lia|done|lia..]. Qed.

Lemma kinv_boost k : kinv k -> kinv (boost k).
Proof.
  intros Hk. unfold boost. case_match; [|done].
  eapply kinv_gentle; [done|by simpl; rewrite length_fmap|done..|].
  intros j p'. simpl. rewrite list_lookup_fmap. destruct (k_procs k !! j) as [p|] eqn:E; [|done].
  intros [= <-]. exists p. split; [done|]. apply (gentle_si k j); [done..|apply level_zero].
Qed.

(** *** One process changes its state *)
Lemma alter_insert {A} (f : A -> A) (l : list A) i x : l !! i = Some x -> alter f i l = <[i := f x]> l.
Proof.
  intros Hi. apply list_eq. intros j. destruct (decide (j = i)) as [->|].
  - rewrite list_lookup_alter_eq, Hi, list_lookup_insert_eq; [done|]. by eapply lookup_lt_Some.
  - by rewrite list_lookup_alter_ne, list_lookup_insert_ne.
Qed.

(** Process [i], in use before and after, becomes [p'], and the CPUs change
    for it alone. *)
Lemma kinv_one k i p p' cpus' t b :
  kinv k -> k_procs k !! i = Some p ->
  p_pid p' = p_pid p -> p_parent p' = p_parent p -> p_state p <> UNUSED ->
  p_state p' <> UNUSED -> p_state p' <> USED -> (p_state p' = SLEEPING -> p_chan p' <> None) -> level_ok p' ->
  (live p' \/ (i <> k_init k /\ forall j q, k_procs k !! j = Some q -> p_parent q <> Some i)) ->
  (forall c j, cpus' !! c = Some (Some j) -> (j <> i /\ running_on k c j) \/ (j = i /\ p_state p' = RUNNING)) ->
  (forall c j, j <> i -> running_on k c j -> cpus' !! c = Some (Some j)) ->
  (p_state p' = RUNNING -> exists c, forall c', cpus' !! c' = Some (Some i) <-> c' = c) ->
  kinv (mk_kernel (<[i := p']> (k_procs k)) cpus' (k_nextpid k) t b (k_init k)).
Proof.
  intros [Hl Hc Hr H1 Hch Hp Hi Hu Hus Hpid Hinj Hn Hlv] Hip Epid Epar Hnu Hnu' Hnus Hch' Hlv' Hlive Hc1 Hc2 Hc3.
  assert (forall j q, <[i := p']> (k_procs k) !! j = Some q ->
    (j = i /\ q = p') \/ (j <> i /\ k_procs k !! j = Some q)) as Hlk.
  { intros j q Hq. destruct (decide (j = i)) as [->|]; [left|right].
    - rewrite list_lookup_insert_eq in Hq by (by eapply lookup_lt_Some). by simplify_eq.
    - by rewrite list_lookup_insert_ne in Hq. }
  assert (<[i := p']> (k_procs k) !! i = Some p') as Hii.
  { apply list_lookup_insert_eq. by eapply lookup_lt_Some. }
  assert (forall j q, k_procs k !! j = Some q -> live q -> (j <> i \/ live p') ->
    exists q', <[i := p']> (k_procs k) !! j = Some q' /\ live q') as Hlv1.
  { intros j q Hj Hq Hor. destruct (decide (j = i)) as [->|]; [|by exists q; rewrite list_lookup_insert_ne].
    exists p'. split; [done|]. by destruct Hor. }
  unfold running_on in *. split; simpl; unfold running_on; simpl.
  - by rewrite length_insert.
  - intros c j Hcj. destruct (Hc1 c j Hcj) as [[Hne Hj]|[-> Hs]]; [|by exists p'].
    destruct (Hc c j Hj) as (q & Hq & ?). exists q. by rewrite list_lookup_insert_ne.
  - intros j q Hj Hs. apply Hlk in Hj as [[-> ->]|[Hne Hj]].
    + destruct (Hc3 Hs) as [c Hcc]. exists c. by apply Hcc.
    + destruct (Hr j q Hj Hs) as [c ?]. exists c. by apply Hc2.
  - intros c1 c2 j Ha Hb. destruct (Hc1 c1 j Ha) as [[Hne Hj]|[-> Hs]].
    + destruct (Hc1 c2 j Hb) as [[_ Hj']|[? _]]; [by eapply H1|done].
    + destruct (Hc3 Hs) as [c Hcc]. apply Hcc in Ha, Hb. congruence.
  - intros j q Hj. apply Hlk in Hj as [[-> ->]|[Hne Hj]]; [done|by eapply Hch].
  - intros j q r Hj Hr'. assert (exists q0, k_procs k !! j = Some q0 /\ p_parent q0 = Some r) as (q0 & Hq0 & Hpar).
    { apply Hlk in Hj as [[-> ->]|[Hne Hj]]; [exists p; split; [done|congruence]|by exists q]. }
    destruct (Hp j q0 r Hq0 Hpar) as (pq & Hpq & Hlq). apply (Hlv1 r pq Hpq Hlq).
    destruct Hlive as [?|[_ Hno]]; [by right|left]. intros ->. by apply (Hno j q0).
  - destruct Hi as (pi & Hpi & Hli). apply (Hlv1 _ pi Hpi Hli). destruct Hlive as [?|[? _]]; [by right|left; congruence].
  - intros j q Hj. apply Hlk in Hj as [[-> ->]|[Hne Hj]]; [done|by eapply Hu].
  - intros j q Hj. apply Hlk in Hj as [[-> ->]|[Hne Hj]]; [done|by eapply Hus].
  - intros j q Hj Hs. apply Hlk in Hj as [[-> ->]|[Hne Hj]]; [rewrite Epid; by apply (Hpid i p)|by eapply Hpid].
  - intros a d q r Ha Hd Hs E. apply Hlk in Ha as [[-> ->]|[Hna Ha]], Hd as [[-> ->]|[Hnd Hd]]; try done.
    + rewrite Epid in E. by apply (Hinj i d p r).
    + rewrite Epid in E. by apply (Hinj a i q p).
    + by apply (Hinj a d q r).
  - done.
  - intros j q Hj. apply Hlk in Hj as [[-> ->]|[Hne Hj]]; [done|by eapply Hlv].
Qed.

(** A process leaves its CPU. *)
Lemma kinv_leave k c i p f :
  kinv k -> running_on k c i -> k_procs k !! i = Some p ->
  p_pid (f p) = p_pid p -> p_parent (f p) = p_parent p ->
  (p_state (f p) = RUNNABLE \/ (p_state (f p) = SLEEPING /\ p_chan (f p) <> None) \/
   (p_state (f p) = ZOMBIE /\ i <> k_init k /\ forall j q, k_procs k !! j = Some q -> p_parent q <> Some i)) ->
  level_ok (f p) -> kinv (sched (upd k i f) c).
Proof.
  intros Hk Hci Hip Hpid Hpar Hst Hlv. unfold sched, with_cpu, upd, with_procs. simpl.
  rewrite (alter_insert _ _ _ _ Hip).
  assert (p_state p = RUNNING) as Hrun.
  { destruct (ki_cpu k Hk c i Hci) as (p0 & ? & ?). by simplify_eq. }
  assert (p_state (f p) <> RUNNING) as Hnr by (intros E; rewrite E in Hst; naive_solver).
  apply (kinv_one k i p); try done.
  - congruence.
  - naive_solver congruence.
  - naive_solver congruence.
  - naive_solver congruence.
  - unfold live. naive_solver.
  - intros c' j. destruct (decide (c' = c)) as [->|].
    + rewrite list_lookup_insert_eq by (by eapply lookup_lt_Some). done.
    + rewrite list_lookup_insert_ne by done. intros Hj. left. split; [|done]. intros ->.
      by apply (ki_one_cpu k Hk c' c i) in Hj.
  - intros c' j Hne Hj. destruct (decide (c' = c)) as [->|]; [|by rewrite list_lookup_insert_ne].
    unfold running_on in *. congruence.
Qed.

Lemma kinv_yield k c i : kinv k -> running_on k c i -> kinv (yield k c i).
Proof.
  intros Hk Hci. destruct (ki_cpu k Hk c i Hci) as (p & Hp & _). unfold yield.
  apply (kinv_leave k c i p); simpl; auto. by apply (level_si p _ eq_refl), (ki_level k Hk i p).
Qed.

Lemma kinv_dispatch k c i p :
  kinv k -> k_cpus k !! c = Some None -> k_procs k !! i = Some p -> p_state p = RUNNABLE -> kinv (dispatch k c i).
Proof.
  intros Hk Hc Hip Hs. unfold dispatch, with_cpu, upd, with_procs. simpl. rewrite (alter_insert _ _ _ _ Hip).
  assert (forall c', ~ running_on k c' i) as Hno.
  { intros c' Hci. destruct (ki_cpu k Hk c' i Hci) as (? & ? & ?). congruence. }
  apply (kinv_one k i p); simpl; try done.
  - congruence.
  - eapply level_si; [|by apply (ki_level k Hk i)]. done.
  - left. right. by right.
  - intros c' j. destruct (decide (c' = c)) as [->|].
    + rewrite list_lookup_insert_eq by (by eapply lookup_lt_Some). intros [= <-]. by right.
    + rewrite list_lookup_insert_ne by done. intros Hj. left. split; [|done]. intros ->. by apply (Hno c').
  - intros c' j Hne Hj. destruct (decide (c' = c)) as [->|]; [|by rewrite list_lookup_insert_ne].
    unfold running_on in *. congruence.
  - intros _. exists c. intros c'. split.
    + destruct (decide (c' = c)) as [->|]; [done|]. rewrite list_lookup_insert_ne by done. intros Hci. by apply Hno in Hci.
    + intros ->. apply list_lookup_insert_eq. by eapply lookup_lt_Some.
Qed.

(** *** A slot is freed or taken *)
Lemma kinv_slot k i p p' n t b :
  kinv k -> k_procs k !! i = Some p -> p_state p = UNUSED \/ p_state p = ZOMBIE -> level_ok p' ->
  (k_nextpid k <= n <= INT_MAX)%Z ->
  (p_state p' = UNUSED /\ p_pid p' = 0%Z /\ p_parent p' = None) \/
  (p_state p' = RUNNABLE /\ p_pid p' = k_nextpid k /\ n = (k_nextpid k + 1)%Z /\
   exists q pq, p_parent p' = Some q /\ k_procs k !! q = Some pq /\ live pq) ->
  kinv (mk_kernel (<[i := p']> (k_procs k)) (k_cpus k) n t b (k_init k)).
Proof.
  intros [Hl Hc Hr H1 Hch Hp Hi Hu Hus Hpid Hinj Hn Hlv] Hip Hs Hlv' Hnn Hor.
  assert (~ live p) as Hnl by (unfold live; destruct Hs as [->| ->]; naive_solver).
  assert (forall j q, <[i := p']> (k_procs k) !! j = Some q ->
    (j = i /\ q = p') \/ (j <> i /\ k_procs k !! j = Some q)) as Hlk.
  { intros j q Hq. destruct (decide (j = i)) as [->|]; [left|right].
    - rewrite list_lookup_insert_eq in Hq by (by eapply lookup_lt_Some). by simplify_eq.
    - by rewrite list_lookup_insert_ne in Hq. }
  assert (forall j q, k_procs k !! j = Some q -> live q -> <[i := p']> (k_procs k) !! j = Some q) as Hkeep.
  { intros j q Hj Hq. rewrite list_lookup_insert_ne; [done|]. intros ->. congruence. }
  assert (p_state p' <> RUNNING) as Hnr by naive_solver congruence.
  split; simpl; unfold running_on in *; simpl.
  - by rewrite length_insert.
  - intros c j Hcj. destruct (Hc c j Hcj) as (q & Hq & Hsq). exists q. split; [|done]. apply Hkeep; [done|]. right. by right.
  - intros j q Hj Hsq. apply Hlk in Hj as [[-> ->]|[Hne Hj]]; [done|by eapply Hr].
  - done.
  - intros j q Hj Hsq. apply Hlk in Hj as [[-> ->]|[Hne Hj]]; [naive_solver congruence|by eapply Hch].
  - intros j q r Hj Hr'. assert (exists pq, k_procs k !! r = Some pq /\ live pq) as (pq & Hpq & Hlq).
    { apply Hlk in Hj as [[-> ->]|[Hne Hj]]; [|by eapply Hp].
      destruct Hor as [(_ & _ & E)|(_ & _ & _ & q0 & pq & E & ? & ?)]; [congruence|]. exists pq. by simplify_eq. }
    exists pq. split; [by apply Hkeep|done].
  - destruct Hi as (q & Hq & Hlq). exists q. split; [by apply Hkeep|done].
  - intros j q Hj Hsq. apply Hlk in Hj as [[-> ->]|[Hne Hj]]; [naive_solver congruence|by eapply Hu].
  - intros j q Hj. apply Hlk in Hj as [[-> ->]|[Hne Hj]]; [naive_solver congruence|by eapply Hus].
  - intros j q Hj Hsq. apply Hlk in Hj as [[-> ->]|[Hne Hj]].
    + destruct Hor as [(? & _)|(_ & -> & -> & _)]; [done|]. lia.
    + pose proof (Hpid j q Hj Hsq). lia.
  - assert (forall j q, k_procs k !! j = Some q -> p_state p' <> UNUSED -> p_pid q <> p_pid p') as Hfresh.
    { intros j q Hj Hne E. destruct Hor as [(? & _)|(_ & Ep & _)]; [done|].
      destruct (decide (p_state q = UNUSED)) as [Hq|Hq]; [destruct (Hu j q Hj Hq) as [E0 _]; rewrite E0 in E; lia|].
      pose proof (Hpid j q Hj Hq). lia. }
    intros a d q r Ha Hd Hsq E. apply Hlk in Ha as [[-> ->]|[Hna Ha]], Hd as [[-> ->]|[Hnd Hd]]; try done.
    + exfalso. by apply (Hfresh d r).
    + exfalso. destruct (decide (p_state p' = UNUSED)) as [E0|Hne].
      * assert (p_pid p' = 0%Z) as E1 by naive_solver congruence. pose proof (Hpid a q Ha Hsq). lia.
      * by apply (Hfresh a q).
    + by apply (Hinj a d q r).
  - lia.
  - intros j q Hj. apply Hlk in Hj as [[-> ->]|[Hne Hj]]; [done|by eapply Hlv].
Qed.

Lemma level_fresh ticks p : level_ok (set_si (fresh_si ticks) p).
Proof. exists 1%Z. simpl. split_and!; [lia|done|lia..]. Qed.

Lemma alter_const {A} (l : list A) i x y : l !! i = Some x -> alter (fun _ => y) i l = <[i := y]> l.
Proof. intros Hi. by rewrite (alter_insert _ _ _ _ Hi). Qed.

Lemma upd_upd k i f g : upd (upd k i f) i g = upd k i (fun p => g (f p)).
Proof.
  unfold upd, with_procs. simpl. f_equal. apply list_eq. intros j. destruct (decide (j = i)) as [->|].
  - rewrite !list_lookup_alter_eq. by destruct (k_procs k !! i).
  - by rewrite !list_lookup_alter_ne.
Qed.

Lemma kinv_fork k c i b1 b2 b3 :
  kinv k -> running_on k c i -> (k_nextpid k < INT_MAX)%Z -> kinv (kfork k i b1 b2 b3).1.
Proof.
  intros Hk Hci Hnp. unfold kfork, allocproc.
  destruct (list_find _ (k_procs k)) as [[np p]|] eqn:Ef; [|done].
  apply list_find_Some in Ef as (Hp & Hun & _).
  destruct (ki_unused k Hk np p Hp Hun) as [_ Hpar]. pose proof (ki_nextpid k Hk) as Hn.
  pose proof (ki_level k Hk np p Hp) as Hlv. unfold allocpid. simpl.
  assert (wrap32 (k_nextpid k + 1) = k_nextpid k + 1)%Z as Hw by (rewrite wrap32_small; lia).
  destruct b1; simpl.
  2: { unfold upd, with_procs. simpl. rewrite (alter_const _ _ p) by done. rewrite Hw.
       apply (kinv_slot k np p); auto; lia. }
  destruct b2; simpl.
  2: { unfold upd, with_procs. simpl. rewrite (alter_const _ _ p) by done. rewrite Hw.
       apply (kinv_slot k np p); auto; lia. }
  destruct b3; simpl.
  2: { rewrite upd_upd. unfold upd, with_procs. simpl. rewrite (alter_const _ _ p) by done. rewrite Hw.
       apply (kinv_slot k np p); auto; [apply (level_fresh (k_ticks k) p)|lia]. }
  rewrite !upd_upd. unfold upd, with_procs. simpl. rewrite (alter_const _ _ p) by done. rewrite Hw.
  apply (kinv_slot k np p); auto; simpl; [apply (level_fresh (k_ticks k) p)|lia|]. right. split_and!; [done..|].
  destruct (ki_cpu k Hk c i Hci) as (q & Hq & Hs). exists i, q. split_and!; [done|done|]. right. by right.
Qed.

(** *** Exit *)
Lemma reparent_loop_spec i n : forall k j,
  kinv k -> (i <> k_init k) ->
  (forall j' q, j' < j -> k_procs k !! j' = Some q -> p_parent q <> Some i) ->
  let k' := reparent_loop k i n j in
  kinv k' /\ k_cpus k' = k_cpus k /\ k_init k' = k_init k /\ k_ticks k' = k_ticks k /\
  (forall j' q, j' < j + n -> k_procs k' !! j' = Some q -> p_parent q <> Some i).
Proof.
  induction n as [|n IH]; intros k j Hk Hni Hlow; simpl; [rewrite Nat.add_0_r; done|].
  destruct (decide ((k_procs k !! j ≫= p_parent) = Some i)) as [E|E].
  - set (k1 := wakeup _ _).
    assert (kinv k1) as Hk1.
    { apply kinv_wakeup, kinv_upd; [done|]. intros p Hp. rewrite Hp in E. simpl in E.
      pose proof (ki_chan k Hk j p Hp). split; simpl; auto; [right; split; [congruence|done]|].
      by apply (level_si p _ eq_refl), (ki_level k Hk j p). }
    destruct (IH k1 (S j) Hk1) as (H1 & H2 & H3 & H4 & H5); [done| |].
    + intros j' q Hj'. unfold k1. simpl. rewrite list_lookup_fmap. destruct (decide (j' = j)) as [->|].
      * rewrite list_lookup_alter_eq. destruct (k_procs k !! j); [|done]. simpl. intros [= <-].
        unfold wake_one. repeat case_decide; simpl; congruence.
      * rewrite list_lookup_alter_ne by done. destruct (k_procs k !! j') as [q0|] eqn:E0; [|done].
        simpl. intros [= <-]. assert (p_parent q0 <> Some i) by (apply (Hlow j'); [lia|done]).
        unfold wake_one. repeat case_decide; simpl; done.
    + split_and!; try done. intros j' q Hj'. apply H5. lia.
  - destruct (IH k (S j) Hk Hni) as (H1 & H2 & H3 & H4 & H5).
    + intros j' q Hj' Hq. destruct (decide (j' = j)) as [->|]; [|apply (Hlow j'); [lia|done]].
      rewrite Hq in E. done.
    + split_and!; try done. intros j' q Hj'. apply H5. lia.
Qed.

Lemma kinv_exit k c i status k' :
  kinv k -> running_on k c i -> kexit k c i status = Ret k' -> kinv k'.
Proof.
  intros Hk Hci. unfold kexit. case_decide as Hni; [done|].
  destruct (reparent_loop_spec i (length (k_procs k)) k 0 Hk Hni) as (H1 & H2 & H3 & H4 & H5); [intros; lia|].
  fold (reparent k i) in *. set (k1 := reparent k i) in *. set (k2 := match _ with Some _ => _ | None => _ end).
  assert (kinv k2 /\ k_cpus k2 = k_cpus k /\ k_init k2 = k_init k /\
    forall j q, k_procs k2 !! j = Some q -> p_parent q <> Some i) as (Hk2 & Hc2 & Hi2 & Hp2).
  { assert (forall j q, k_procs k1 !! j = Some q -> p_parent q <> Some i) as Hp1.
    { intros j q Hj. apply (H5 j); [|done]. simpl. pose proof (lookup_lt_Some _ _ _ Hj).
      rewrite (ki_length k Hk). by rewrite <- (ki_length k1 H1). }
    unfold k2. destruct (k_procs k1 !! i ≫= p_parent); [|done].
    split_and!; [by apply kinv_wakeup|done|done|]. intros j q. simpl. rewrite list_lookup_fmap.
    destruct (k_procs k1 !! j) as [q0|] eqn:E0; [|done]. intros [= <-]. pose proof (Hp1 j q0 E0).
    unfold wake_one. repeat case_decide; simpl; done. }
  intros [= <-]. assert (running_on k2 c i) as Hci2 by (unfold running_on; by rewrite Hc2).
  destruct (ki_cpu k2 Hk2 c i Hci2) as (p & Hp & Hs).
  apply (kinv_leave k2 c i p); auto; simpl.
  - right. right. split_and!; [done|congruence|done].
  - destruct (ki_level k2 Hk2 i p Hp) as (sl & ? & ? & ?). by exists sl.
Qed.

(** *** Wait, sleep and the timer *)
Lemma wait_scan_spec k i b n : forall j have,
  let '(have', r) := wait_scan k i b n j have in
  match r with
  | None => True
  | Some (Wait_error k') => k' = k
  | Some (Wait_sleep k') => False
  | Some (Wait_reaped k' info) => exists z pp, k_procs k !! z = Some pp /\ p_parent pp = Some i /\
      p_state pp = ZOMBIE /\ k' = upd (upd k z (set_parent None)) z freeproc /\ info = reap_info pp
  end.
Proof.
  induction n as [|n IH]; intros j have; simpl; [done|].
  destruct (k_procs k !! j) as [pp|] eqn:E; [|done]. case_decide; [|apply IH].
  case_decide; [|apply IH]. destruct b; [|done]. by exists j, pp.
Qed.

Lemma kinv_reap k z pp :
  kinv k -> k_procs k !! z = Some pp -> p_state pp = ZOMBIE ->
  kinv (upd (upd k z (set_parent None)) z freeproc).
Proof.
  intros Hk Hz Hs. rewrite upd_upd. unfold upd, with_procs. rewrite (alter_insert _ _ _ _ Hz).
  pose proof (ki_nextpid k Hk). apply (kinv_slot k z pp); auto; [|lia].
  by apply (level_si pp _ eq_refl), (ki_level k Hk z pp).
Qed.

Lemma kinv_wait k i b k' :
  kinv k ->
  (wait_round k i b = Wait_error k' \/ (exists r, wait_round k i b = Wait_reaped k' r) \/
   wait_round k i b = Wait_sleep k') -> kinv k'.
Proof.
  intros Hk. unfold wait_round. pose proof (wait_scan_spec k i b (length (k_procs k)) 0 false) as Hs.
  destruct (wait_scan _ _ _ _ _ _) as [have [r|]].
  - destruct r as [k1|k1 info|k1]; [subst; naive_solver| |done].
    destruct Hs as (z & pp & Hz & _ & Hzs & -> & _).
    intros [?|[[? [= <- _]]|?]]; [done| |done]. by eapply kinv_reap.
  - destruct (negb have || killed k i); [naive_solver|].
    intros [?|[[? ?]|[= <-]]]; [done|done|]. by apply kinv_prepare.
Qed.

Lemma level_reset p : level_ok p -> level_ok (reset_ticks p).
Proof. intros (sl & ? & ? & ?). exists sl. simpl. split_and!; [done|done|lia|lia]. Qed.

Lemma kinv_sleep pol k c i : kinv k -> running_on k c i -> kinv (sleep pol k c i).1.
Proof.
  intros Hk Hci. unfold sleep. destruct (ki_cpu k Hk c i Hci) as (p & Hp & Hs). rewrite Hp. simpl.
  destruct (p_chan p) as [ch|] eqn:Ec; [|done]. pose proof (ki_level k Hk i p Hp).
  case_decide; simpl; [rewrite upd_upd|]; apply (kinv_leave k c i p); simpl; auto.
  - right. left. simpl. split; [done|congruence].
  - by apply (level_reset p).
  - right. left. simpl. split; [done|congruence].
Qed.

(** The next queue and the next tick stay inside the slices. *)
Lemma mlfq_levels p slice :
  level_ok p -> slice_ticks !! Z.to_nat (si_priority (p_si p)) = Some slice ->
  let used := wrap32 (si_ticks_used (p_si p) + 1) in
  let prio := if (si_priority (p_si p) <? 3)%Z then (si_priority (p_si p) + 1)%Z else si_priority (p_si p) in
  level_ok (set_level prio 0 p) /\ ((used < slice)%Z -> level_ok (set_level (si_priority (p_si p)) used p)).
Proof.
  intros (sl & Hp & Hsl & Hu) Hs. simplify_eq. unfold level_ok. simpl.
  assert (exists n, si_priority (p_si p) = Z.of_nat n /\ n < 4 /\ (sl <= 16)%Z) as (n & En & Hn & Hsl16).
  { exists (Z.to_nat (si_priority (p_si p))). apply lookup_lt_Some in Hsl as Hlt. unfold slice_ticks in Hlt. simpl in Hlt.
    split_and!; [lia|lia|].
    assert (Forall (fun z => z <= 16)%Z slice_ticks) as Hf by (repeat constructor; lia).
    by apply (proj1 (Forall_lookup _ _) Hf _ _ Hsl). }
  rewrite En in *. split.
  - destruct n as [|[|[|[|n]]]]; [exists 4%Z|exists 8%Z|exists 16%Z|exists 16%Z|lia]; simpl; (split_and!; [lia|done|lia..]).
  - intros Hlt. exists sl. split_and!; [done|done| |done]. rewrite wrap32_small; unfold INT_MAX; lia.
Qed.

Lemma kinv_timer pol k c i k' :
  kinv k -> running_on k c i -> user_timer pol k c i = Ret k' -> kinv k'.
Proof.
  intros Hk Hci. pose proof (kinv_charge_all k i Hk) as Hk1.
  assert (running_on (charge_all k i) c i) as Hci1 by done. unfold user_timer.
  set (k1 := charge_all k i) in *. destruct pol.
  - intros [= <-]. by apply kinv_yield.
  - by intros [= <-].
  - unfold mlfq_timer. destruct (ki_cpu k1 Hk1 c i Hci1) as (p & Hp & Hs). rewrite Hp. cbn [from_option obind].
    case_match; [done|]. intros Hr. apply obind_inv in Hr as (slice & Hsl & Hr).
    destruct (slice_ticks !! _) as [sl|] eqn:Esl; [|done]. simplify_eq/=.
    destruct (mlfq_levels p slice (ki_level k1 Hk1 i p Hp) Esl) as [Hdem Huse].
    destruct (Z.leb_spec slice (wrap32 (si_ticks_used (p_si p) + 1))); simplify_eq.
    + apply kinv_yield; [|done]. apply kinv_upd; [done|]. intros q Hq. simplify_eq. by apply (gentle_si k1 i).
    + assert (kinv (upd k1 i (set_level (si_priority (p_si p)) (wrap32 (si_ticks_used (p_si p) + 1))))) as Hk2.
      { apply kinv_upd; [done|]. intros q Hq. simplify_eq. apply (gentle_si k1 i); [done..|]. by apply Huse. }
      destruct (higher_runnable _ _); injection Hr as <-; [by apply kinv_yield|done].
Qed.

(** *** The schedulers *)
Lemma rr_pick_runnable l pos i : rr_pick l pos = Some i ->
  exists p, l !! i = Some p /\ p_state p = RUNNABLE /\ pos <= i.
Proof.
  unfold rr_pick. destruct (list_find _ _) as [[n p]|] eqn:E; [|done]. simpl. intros [= <-].
  apply list_find_Some in E as (Hp & Hr & _). rewrite lookup_drop in Hp. unfold runnable in Hr.
  apply bool_decide_eq_true in Hr. exists p. split_and!; [done|done|lia].
Qed.

Lemma fifo_scan_spec l : forall j e,
  (forall q, e = Some q -> runnable q.2 = true) ->
  match fifo_scan l j e with
  | None => e = None /\ forall p, p ∈ l -> runnable p = false
  | Some (i, p) => runnable p = true /\ (e = Some (i, p) \/ (j <= i /\ l !! (i - j) = Some p)) /\
      (forall q, e = Some q -> (si_ctime (p_si p) <= si_ctime (p_si q.2))%Z) /\
      forall n q, l !! n = Some q -> runnable q = true -> (si_ctime (p_si p) <= si_ctime (p_si q))%Z
  end.
Proof.
  induction l as [|x l IH]; intros j e He; cbn [fifo_scan].
  { destruct e as [[i p]|]; [|set_solver]. split_and!; [by apply (He (i, p))|by left|naive_solver lia|done]. }
  set (e1 := if runnable x then _ else e).
  assert (forall q, e1 = Some q -> runnable q.2 = true) as He1.
  { unfold e1. destruct (runnable x) eqn:Ex; [|done]. destruct e as [[e ep]|]; [case_match|]; intros q [= <-]; simpl; try done.
    by apply (He (e, ep)). }
  specialize (IH (S j) e1 He1). destruct (fifo_scan l (S j) e1) as [[i p]|].
  - destruct IH as (Hr & Hor & Hle & Hall). split; [done|].
    assert ((forall q, e = Some q -> (si_ctime (p_si p) <= si_ctime (p_si q.2))%Z) /\
      (runnable x = true -> (si_ctime (p_si p) <= si_ctime (p_si x))%Z)) as [Hle1 Hlex].
    { unfold e1 in Hle. destruct (runnable x); [|split; [done|done]].
      destruct e as [[e ep]|]; [destruct (Z.ltb_spec (si_ctime (p_si x)) (si_ctime (p_si ep)))|];
        (split; [intros q Hq; simplify_eq|intros _]); simpl;
        first [specialize (Hle _ eq_refl); simpl in Hle; lia|done]. }
    split_and!; [|done|].
    + destruct Hor as [Hor|[Hj Hl]].
      * unfold e1 in Hor. destruct (runnable x); [|by left].
        destruct e as [[e ep]|]; [case_match|]; simplify_eq; [right|by left|right]; (split; [lia|]); by rewrite Nat.sub_diag.
      * right. split; [lia|]. replace (i - j) with (S (i - S j)) by lia. done.
    + intros [|n] q Hq Hrq; simpl in Hq; [simplify_eq; by apply Hlex|by eapply Hall].
  - destruct IH as [Hn Hall]. unfold e1 in Hn. destruct (runnable x) eqn:Ex.
    + destruct e as [[e ep]|]; [case_match|]; done.
    + split; [done|]. intros p Hp. apply elem_of_cons in Hp as [->|Hp]; [done|by apply Hall].
Qed.

Lemma fifo_pick_spec l i : fifo_pick l = Some i ->
  exists p, l !! i = Some p /\ p_state p = RUNNABLE /\
    forall n q, l !! n = Some q -> p_state q = RUNNABLE -> (si_ctime (p_si p) <= si_ctime (p_si q))%Z.
Proof.
  unfold fifo_pick. pose proof (fifo_scan_spec l 0 None) as Hf.
  destruct (fifo_scan l 0 None) as [[j p]|]; [|done]. simpl. intros [= <-].
  destruct Hf as (Hr & [?|[_ Hl]] & _ & Hall); [done|done|]. rewrite Nat.sub_0_r in Hl. unfold runnable in *.
  apply bool_decide_eq_true in Hr. exists p. split_and!; [done|done|]. intros n q Hq Hs. apply (Hall n q Hq).
  by apply bool_decide_eq_true.
Qed.

Lemma mlfq_queues_spec l qs : 
  match mlfq_queues l qs with
  | Some i => exists p pre q post, l !! i = Some p /\ p_state p = RUNNABLE /\ si_priority (p_si p) = q /\
      qs = pre ++ q :: post /\
      (forall n r, l !! n = Some r -> p_state r = RUNNABLE -> si_priority (p_si r) ∉ pre) /\
      (forall n r, n < i -> l !! n = Some r -> p_state r = RUNNABLE -> si_priority (p_si r) <> q)
  | None => forall n r, l !! n = Some r -> p_state r = RUNNABLE -> si_priority (p_si r) ∉ qs
  end.
Proof.
  induction qs as [|q qs IH]; simpl; [intros; set_solver|].
  destruct (list_find _ l) as [[i p]|] eqn:E.
  - apply list_find_Some in E as (Hp & Hr & Hmin). unfold runnable in Hr. reflect.
    exists p, [], q, qs. split_and!; [done..|set_solver|].
    intros n r Hn Hr Hs Hq. apply (Hmin n r Hr Hn). unfold runnable. rewrite bool_decide_true by done.
    simpl. by apply Z.eqb_eq.
  - apply list_find_None in E. rewrite Forall_lookup in E.
    assert (forall n r, l !! n = Some r -> p_state r = RUNNABLE -> si_priority (p_si r) <> q) as Hnq.
    { intros n r Hn Hs Hq. apply (E n r Hn). unfold runnable. rewrite bool_decide_true by done. simpl. by apply Z.eqb_eq. }
    destruct (mlfq_queues l qs) as [i|].
    + destruct IH as (p & pre & q' & post & H1 & H2 & H3 & -> & H5 & H6).
      exists p, (q :: pre), q', post. split_and!; try done.
      intros n r Hn Hs. rewrite not_elem_of_cons. split; [by eapply Hnq|by eapply H5].
    + intros n r Hn Hs. rewrite not_elem_of_cons. split; [by eapply Hnq|by eapply IH].
Qed.

Lemma kinv_scheduler pol k c pos :
  kinv k -> k_cpus k !! c = Some None -> kinv (scheduler pol k c pos).1.
Proof.
  intros Hk Hc. unfold scheduler. destruct pol.
  - destruct (rr_pick _ _) as [i|] eqn:E; [|done]. apply rr_pick_runnable in E as (p & Hp & Hs & _).
    by apply (kinv_dispatch k c i p).
  - destruct (fifo_pick _) as [i|] eqn:E; [|done]. apply fifo_pick_spec in E as (p & Hp & Hs & _).
    assert (kinv (upd k i (note_first_run (k_ticks k)))) as Hk1.
    { apply kinv_upd; [done|]. intros q Hq. simplify_eq. unfold note_first_run.
      pose proof (ki_level k Hk i p Hp) as Hl.
      case_match; [by apply (gentle_si k i)|by apply (gentle_refl k i)]. }
    apply (kinv_dispatch _ c i (note_first_run (k_ticks k) p)); [done|done| |].
    + rewrite lookup_upd, decide_True by done. by rewrite Hp.
    + unfold note_first_run. by case_match.
  - pose proof (kinv_boost k Hk) as Hk1. pose proof (mlfq_queues_spec (k_procs (boost k)) [0; 1; 2; 3]%Z) as Hm.
    unfold mlfq_pick. destruct (mlfq_queues _ _) as [i|]; simpl; [|done].
    destruct Hm as (p & _ & _ & _ & Hp & Hs & _). apply (kinv_dispatch _ c i p); try done.
    unfold boost. by case_match.
Qed.

Lemma kstep_inv pol k k' : kstep pol k k' -> kinv k -> kinv k'.
Proof.
  destruct 1; intros Hk.
  - by eapply kinv_fork.
  - by eapply kinv_exit.
  - by eapply kinv_wait.
  - by apply kinv_prepare.
  - by apply kinv_sleep.
  - by apply kinv_wakeup.
  - by apply kinv_kkill.
  - by apply kinv_setkilled.
  - by eapply kinv_timer.
  - by apply kinv_yield.
  - by apply kinv_clock.
  - by apply kinv_scheduler.
Qed.

Definition first_proc : proc := mk_proc RUNNABLE None false 0 1 None true true 0 (fresh_si 0).

Lemma boot_state ncpu : userinit (procinit ncpu) true true =
  Ret (mk_kernel (first_proc :: replicate 63 empty_proc) (replicate ncpu None) 2 0 0 0).
Proof. reflexivity. Qed.

Lemma kinv_boot ncpu k0 : userinit (procinit ncpu) true true = Ret k0 -> kinv k0.
Proof.
  rewrite boot_state. intros [= <-].
  assert (forall i p, (first_proc :: replicate 63 empty_proc) !! i = Some p ->
    (i = 0 /\ p = first_proc) \/ p = empty_proc) as Hlk.
  { intros [|i] p Hp; [left; by simplify_eq/=|]. right.
    change (replicate 63 empty_proc !! i = Some p) in Hp. by apply lookup_replicate in Hp as [-> _]. }
  assert (forall c i, (replicate ncpu None : list (option nat)) !! c <> Some (Some i)) as Hno.
  { intros c i Hc. by apply lookup_replicate in Hc as [? _]. }
  assert (level_ok empty_proc /\ level_ok first_proc) as [Hl1 Hl2].
  { split; exists 1%Z; simpl; (split_and!; [lia|done|lia..]). }
  split; unfold running_on; cbn [k_procs k_cpus k_nextpid k_init].
  - done.
  - intros c i Hc. by apply Hno in Hc.
  - intros i p Hp Hs. by apply Hlk in Hp as [[-> ->]| ->].
  - intros c1 c2 i Hc. by apply Hno in Hc.
  - intros i p Hp Hs. by apply Hlk in Hp as [[-> ->]| ->].
  - intros i p q Hp Hs. by apply Hlk in Hp as [[-> ->]| ->].
  - exists first_proc. split; [done|]. right. by left.
  - intros i p Hp Hs. by apply Hlk in Hp as [[-> ->]| ->].
  - intros i p Hp Hs. by apply Hlk in Hp as [[-> ->]| ->].
  - intros i p Hp Hs. by apply Hlk in Hp as [[-> ->]| ->].
  - intros i j p q Hp Hq Hs E. apply Hlk in Hp as [[-> ->]| ->], Hq as [[-> ->]| ->]; done.
  - unfold INT_MAX. lia.
  - intros i p Hp. by apply Hlk in Hp as [[-> ->]| ->].
Qed.

Lemma kreach_inv pol ncpu k : kreach pol ncpu k -> kinv k.
Proof.
  intros (k0 & H0 & Hr). apply kinv_boot in H0. induction Hr as [|k1 k2 k3 Hs _ IH]; [done|].
  apply IH. by eapply kstep_inv.
Qed.

(** ** Claims *)

(** C5.  In every state the kernel can reach, under each of the three
    policies, with any number of CPUs and any interleaving of system calls,
    interrupts and scheduling decisions: a process is RUNNING exactly when one
    CPU runs it, and never on two; every sleeping process has a channel;
    parents are alive (so no exit status is lost) and so is [initproc];
    processes in use have distinct positive numbers; free slots hold no number
    and no parent; and every process is in one of the four queues with an
    unexpired slice, so [slice_ticks] is never read out of range. *)
Theorem kernel_invariant (pol : policy) (ncpu : nat) (k : kernel) (Hr : kreach pol ncpu k) : kinv k.
Proof. by eapply kreach_inv. Qed.

(** The first process is dispatched, forks, takes a timer interrupt and waits
    for its child. *)
Definition boot : kernel :=
  mk_kernel (first_proc :: replicate 63 empty_proc) [None; None] 2 0 0 0.

Definition sk1 : kernel := (scheduler MLFQ boot 0 0).1.
Definition sk2 : kernel := (kfork sk1 0 true true true).1.
Definition sk3 : kernel := sleep_prepare sk2 0 (Ch_proc 0).
Definition sk4 : kernel := (sleep MLFQ sk3 0 0).1.
Definition sample_kernel : kernel := (scheduler MLFQ sk4 1 0).1.

Lemma kernel_invariant_witness : kinv sample_kernel /\ k_cpus sample_kernel = [None; Some 1].
Proof.
  split; [|vm_compute; reflexivity].
  assert (running_on sk1 0 0 /\ running_on sk2 0 0 /\ running_on sk3 0 0) as (H1 & H2 & H3)
    by (split_and!; vm_compute; reflexivity).
  assert (wait_round sk2 0 true = Wait_sleep sk3) as Hw by (vm_compute; reflexivity).
  assert (k_cpus sk4 !! 1 = Some None) as H4 by (vm_compute; reflexivity).
  apply (kernel_invariant MLFQ 2). exists boot. split; [vm_compute; reflexivity|].
  apply (rtc_l _ _ sk1); [exact (step_sched MLFQ boot 0 0 eq_refl)|].
  apply (rtc_l _ _ sk2); [apply (step_fork MLFQ sk1 0 0 true true true H1); vm_compute; reflexivity|].
  apply (rtc_l _ _ sk3); [exact (step_wait MLFQ sk2 0 0 true sk3 H2 (or_intror (or_intror Hw)))|].
  apply (rtc_l _ _ sk4); [exact (step_sleep MLFQ sk3 0 0 H3)|].
  apply (rtc_l _ _ sample_kernel); [exact (step_sched MLFQ sk4 1 0 H4)|apply rtc_refl].
Defined.

Lemma level_queue k i p : kinv k -> k_procs k !! i = Some p -> si_priority (p_si p) ∈ [0; 1; 2; 3]%Z.
Proof.
  intros Hk Hp. destruct (ki_level k Hk i p Hp) as (sl & H0 & Hsl & _). apply lookup_lt_Some in Hsl.
  unfold slice_ticks in Hsl. simpl in Hsl. rewrite !elem_of_cons.
  assert (si_priority (p_si p) = 0 \/ si_priority (p_si p) = 1 \/ si_priority (p_si p) = 2 \/ si_priority (p_si p) = 3)%Z by lia.
  tauto.
Qed.

(** C23.  The choice of each scheduler: round robin takes the first runnable
    process from its position on; FIFO takes a runnable process with the
    earliest creation time; MLFQ takes, after the boost, a runnable process of
    the highest non-empty queue, the first of that queue in the table.  FIFO
    and MLFQ leave the CPU idle only when nothing is runnable. *)
Theorem scheduler_choice (k : kernel) (c pos : nat) (Hk : kinv k) :
  (forall i, (scheduler RR k c pos).2 = Some i ->
     exists p, k_procs k !! i = Some p /\ p_state p = RUNNABLE /\ pos <= i /\
       forall n q, pos <= n < i -> k_procs k !! n = Some q -> p_state q <> RUNNABLE) /\
  (forall i, (scheduler FIFO k c pos).2 = Some i ->
     exists p, k_procs k !! i = Some p /\ p_state p = RUNNABLE /\
       forall n q, k_procs k !! n = Some q -> p_state q = RUNNABLE -> (si_ctime (p_si p) <= si_ctime (p_si q))%Z) /\
  (forall i, (scheduler MLFQ k c pos).2 = Some i ->
     exists p, k_procs (boost k) !! i = Some p /\ p_state p = RUNNABLE /\
       forall n q, k_procs (boost k) !! n = Some q -> p_state q = RUNNABLE ->
         (si_priority (p_si p) < si_priority (p_si q))%Z \/
         (si_priority (p_si p) = si_priority (p_si q) /\ i <= n)) /\
  ((scheduler FIFO k c pos).2 = None \/ (scheduler MLFQ k c pos).2 = None ->
     forall n q, k_procs k !! n = Some q -> p_state q <> RUNNABLE).
Proof.
  pose proof (kinv_boost k Hk) as Hkb. unfold scheduler. split_and!.
  - destruct (rr_pick _ _) as [j|] eqn:E; [|done]. intros i [= <-].
    destruct (rr_pick_runnable _ _ _ E) as (p & ? & ? & ?). exists p. split_and!; try done.
    intros n q Hn Hq Hs. unfold rr_pick in E. destruct (list_find _ _) as [[a b]|] eqn:Ef; [|done]. simplify_eq/=.
    apply list_find_Some in Ef as (_ & _ & Hmin). apply (Hmin (n - pos) q); [|lia|].
    + rewrite lookup_drop. by replace (pos + (n - pos)) with n by lia.
    + unfold runnable. by apply bool_decide_eq_true.
  - destruct (fifo_pick _) as [j|] eqn:E; [|done]. intros i [= <-]. by apply fifo_pick_spec.
  - pose proof (mlfq_queues_spec (k_procs (boost k)) [0; 1; 2; 3]%Z) as Hm. unfold mlfq_pick.
    destruct (mlfq_queues _ _) as [j|]; simpl; [|done]. intros i [= <-].
    destruct Hm as (p & pre & q0 & post & Hp & Hs & Hq & Heq & Hpre & Hmin). exists p. split_and!; [done..|].
    intros n q Hn Hsq. pose proof (level_queue _ n q Hkb Hn) as Hin. pose proof (Hpre n q Hn Hsq) as Hnp.
    destruct (decide (si_priority (p_si q) = q0)) as [E|Hne].
    + right. split; [congruence|]. destruct (decide (n < j)); [|lia]. by destruct (Hmin n q).
    + left. rewrite Hq. rewrite Heq in Hin. apply elem_of_app in Hin as [?|Hin]; [done|].
      apply elem_of_cons in Hin as [?|Hin]; [done|].
      destruct pre as [|a [|b [|d [|e pre]]]]; simplify_eq/=; [set_unfold in Hin; lia..|by destruct pre].
  - intros Hnone n q Hq Hs. destruct Hnone as [Hf|Hm].
    + unfold fifo_pick in Hf. pose proof (fifo_scan_spec (k_procs k) 0 None) as Hsc.
      destruct (fifo_scan _ _ _) as [[? ?]|]; [done|]. destruct Hsc as [_ Hall]; [done|].
      specialize (Hall q (list_elem_of_lookup_2 _ _ _ Hq)). unfold runnable in Hall.
      by apply bool_decide_eq_false in Hall.
    + pose proof (mlfq_queues_spec (k_procs (boost k)) [0; 1; 2; 3]%Z) as Hsp. unfold mlfq_pick in Hm.
      destruct (mlfq_queues _ _) as [j|]; [done|].
      assert (exists q', k_procs (boost k) !! n = Some q' /\ p_state q' = RUNNABLE) as (q' & Hq' & Hs').
      { unfold boost. case_match; [|by exists q]. simpl. rewrite list_lookup_fmap, Hq. simpl. by eexists. }
      by apply (Hsp n q' Hq' Hs'), (level_queue _ n q' Hkb).
Qed.

Lemma scheduler_choice_witness :
  exists p, k_procs (boost boot) !! 0 = Some p /\ p_state p = RUNNABLE /\
    forall n q, k_procs (boost boot) !! n = Some q -> p_state q = RUNNABLE ->
      (si_priority (p_si p) < si_priority (p_si q))%Z \/
      (si_priority (p_si p) = si_priority (p_si q) /\ 0 <= n).
Proof.
  refine (proj1 (proj2 (proj2 (scheduler_choice boot 0 0 _))) 0 _); [|vm_compute; reflexivity].
  apply (kinv_boot 2). reflexivity.
Defined.

(** No wakeup is lost: a wakeup of the channel between [sleep_prepare]
    and [sleep] makes [sleep] return at once, and a wakeup turns every process
    that sleeps on the channel RUNNABLE and leaves all others as they were. *)
Theorem no_lost_wakeup (pol : policy) (k : kernel) (c i : nat) (ch : chan) :
  (let k1 := wakeup (sleep_prepare k i ch) ch in sleep pol k1 c i = (k1, false)) /\
  (forall j p, k_procs k !! j = Some p ->
     exists p', k_procs (wakeup k ch) !! j = Some p' /\
       (p_state p = SLEEPING -> p_chan p = Some ch -> p_state p' = RUNNABLE /\ p_chan p' = None) /\
       (p_chan p <> Some ch -> p' = p) /\ (p_state p <> SLEEPING -> p_state p' = p_state p)).
Proof.
  split.
  - intros k1. unfold sleep, k1, sleep_prepare. simpl. rewrite list_lookup_fmap, list_lookup_alter_eq.
    destruct (k_procs k !! i) as [p|]; [|done]. simpl. unfold wake_one. simpl. rewrite decide_True by done.
    by case_decide.
  - intros j p Hj. exists (wake_one ch p). simpl. rewrite list_lookup_fmap, Hj. split; [done|].
    unfold wake_one. simpl. repeat case_decide; simpl; split_and!; try done; congruence.
Qed.

(** *** Waiting *)

(** Is [j] an exited child of [i]? *)
Definition zombie_child (k : kernel) (i j : nat) : Prop :=
  exists p, k_procs k !! j = Some p /\ p_parent p = Some i /\ p_state p = ZOMBIE.

Lemma wait_scan_none k i b n : forall j have, j + n = length (k_procs k) ->
  let '(have', r) := wait_scan k i b n j have in
  r = None -> (have' = true <-> have = true \/ exists j' p, j <= j' /\ k_procs k !! j' = Some p /\ p_parent p = Some i) /\
  forall j', j <= j' -> ~ zombie_child k i j'.
Proof.
  induction n as [|n IH]; intros j have Hn; simpl.
  { intros _. split.
    - split; [by left|]. intros [?|(j' & p & Hj & Hp & _)]; [done|]. apply lookup_lt_Some in Hp. lia.
    - intros j' Hj (p & Hp & _). apply lookup_lt_Some in Hp. lia. }
  destruct (lookup_lt_is_Some_2 (k_procs k) j) as [pp Hpp]; [lia|]. rewrite Hpp.
  destruct (decide (p_parent pp = Some i)) as [Hpar|Hpar].
  - destruct (decide (p_state pp = ZOMBIE)) as [Hz|Hz]; [by destruct b|].
    specialize (IH (S j) true). destruct (wait_scan k i b n (S j) true) as [h r]. intros Hr.
    destruct IH as [Hh Hno]; [lia|done|]. split.
    + rewrite Hh. split; [|by left]. intros _. right. by exists j, pp.
    + intros j' Hj (p & Hp & Hpi & Hpz). destruct (decide (j' = j)) as [->|]; [by simplify_eq|].
      apply (Hno j'); [lia|by exists p].
  - specialize (IH (S j) have). destruct (wait_scan k i b n (S j) have) as [h r]. intros Hr.
    destruct IH as [Hh Hno]; [lia|done|]. split.
    + rewrite Hh. split; intros [?|(j' & p & Hj & Hp & Hpi)]; [by left| |by left|]; right.
      * exists j', p. split_and!; [lia|done..].
      * exists j', p. split_and!; [|done..]. destruct (decide (j' = j)); [simplify_eq; done|lia].
    + intros j' Hj (p & Hp & Hpi & Hpz). destruct (decide (j' = j)) as [->|]; [by simplify_eq|].
      apply (Hno j'); [lia|by exists p].
Qed.

(** [wait] and [waitx]: when the results can be copied out, an exited
    child is reaped (its number, exit status and times are returned and only
    its slot is freed) whenever there is one; a process with children none of
    which has exited goes to sleep on itself unless it is killed; a process
    without children gets an error; on an error the table is unchanged. *)
Theorem wait_reaps (k : kernel) (i : nat) :
  match wait_round k i true with
  | Wait_reaped k' info => exists z p, k_procs k !! z = Some p /\ zombie_child k i z /\ info = reap_info p /\
      (exists p', k_procs k' !! z = Some p' /\ p_state p' = UNUSED /\ p_pid p' = 0%Z /\ p_parent p' = None) /\
      forall j, j <> z -> k_procs k' !! j = k_procs k !! j
  | Wait_sleep k' => k' = sleep_prepare k i (Ch_proc i) /\ killed k i = false /\
      (forall j, ~ zombie_child k i j) /\ exists j p, k_procs k !! j = Some p /\ p_parent p = Some i
  | Wait_error k' => k' = k /\ (forall j, ~ zombie_child k i j) /\
      (killed k i = true \/ forall j p, k_procs k !! j = Some p -> p_parent p <> Some i)
  end.
Proof.
  unfold wait_round. pose proof (wait_scan_spec k i true (length (k_procs k)) 0 false) as Hs.
  pose proof (wait_scan_none k i true (length (k_procs k)) 0 false eq_refl) as Hn.
  assert (forall n j have, (wait_scan k i true n j have).2 <> Some (Wait_error k)) as Hne.
  { induction n as [|n IH]; intros j have; simpl; [done|]. destruct (k_procs k !! j); [|done].
    case_decide; [|apply IH]. case_decide; [done|apply IH]. }
  specialize (Hne (length (k_procs k)) 0 false).
  destruct (wait_scan _ _ _ _ _ _) as [have [[k1|k1 info|k1]|]]; [simpl in Hne; congruence| |done|].
  - destruct Hs as (z & p & Hz & Hpar & Hst & -> & ->). exists z, p. split_and!; [done|by exists p|done| |].
    + eexists. rewrite lookup_upd, decide_True by done. rewrite lookup_upd, decide_True by done. rewrite Hz. done.
    + intros j Hj. by rewrite !lookup_upd, !decide_False.
  - destruct (Hn eq_refl) as [Hh Hz]. destruct have; simpl.
    + assert (exists j p, k_procs k !! j = Some p /\ p_parent p = Some i) as Hex by naive_solver.
      destruct (killed k i) eqn:Ek; simpl.
      * split_and!; [done|intros j; apply Hz; lia|by left].
      * split_and!; [done|done|intros j; apply Hz; lia|done].
    + split_and!; [done|intros j; apply Hz; lia|]. right. intros j p Hj Hp.
      assert (false = true) by (apply Hh; right; exists j, p; split_and!; [lia|done..]). done.
Qed.

(** *** Two weaknesses *)

(**  [kill(0)] succeeds and marks the first free slot of the table as
    killed; as [allocproc] does not clear the mark, the process that is forked
    next is killed from birth. *)
Theorem kill_zero_poisons (k : kernel) (i z : nat) (p : proc) (Hk : kinv k)
    (Hz : list_find (fun p => p_state p = UNUSED) (k_procs k) = Some (z, p)) :
  let '(k1, r) := kkill k 0 in
  r = 0%Z /\
  let '(k2, _) := kfork k1 i true true true in
  exists child, k_procs k2 !! z = Some child /\ p_state child = RUNNABLE /\ p_killed child = true.
Proof.
  pose proof Hz as (Hp & Hun & Hmin)%list_find_Some.
  assert (list_find (fun p => p_pid p = 0%Z) (k_procs k) = Some (z, p)) as Hf.
  { apply list_find_Some. split_and!; [done|by apply (ki_unused k Hk z p)|].
    intros j q Hq Hlt Hpid. destruct (decide (p_state q = UNUSED)) as [E|E]; [by apply (Hmin j q)|].
    pose proof (ki_pid k Hk j q Hq E). lia. }
  unfold kkill. rewrite Hf. split; [done|]. unfold kfork, allocproc. cbn [upd with_procs k_procs].
  assert (list_find (fun p => p_state p = UNUSED) (alter kill_one z (k_procs k)) = Some (z, kill_one p)) as Hf2.
  { apply list_find_Some. rewrite list_lookup_alter_eq, Hp. split_and!; [done|unfold kill_one; simpl; by rewrite decide_False by congruence|].
    intros j q Hq Hlt. rewrite list_lookup_alter_ne in Hq by lia. by apply (Hmin j q). }
  rewrite Hf2. simpl. rewrite !list_lookup_alter_eq, Hp. simpl. eexists. split; [done|].
  unfold kill_one. simpl. rewrite decide_False by congruence. done.
Qed.

Lemma kill_zero_poisons_witness :
  let '(k1, r) := kkill sk1 0 in
  r = 0%Z /\
  let '(k2, _) := kfork k1 0 true true true in
  exists child, k_procs k2 !! 1 = Some child /\ p_state child = RUNNABLE /\ p_killed child = true.
Proof.
  refine (kill_zero_poisons sk1 0 1 empty_proc _ _); [|vm_compute; reflexivity].
  apply (kstep_inv MLFQ boot); [exact (step_sched MLFQ boot 0 0 eq_refl)|]. apply (kinv_boot 2). reflexivity.
Defined.

(** C25.  The queues of the MLFQ scheduler are not served round robin: a
    process of the last queue that has used up its slice gives up the CPU and,
    as the scan starts at the beginning of the table, is chosen again at once,
    although other processes of its queue (further back in the table) are
    waiting; only the next boost changes this. *)
Theorem mlfq_queue_not_fair (k : kernel) (c i pos : nat) (p : proc)
    (Hci : running_on k c i) (Hp : k_procs k !! i = Some p)
    (Hq : si_priority (p_si p) = 3%Z /\ si_ticks_used (p_si p) = 15%Z)
    (Hothers : forall j q, k_procs k !! j = Some q -> p_state q = RUNNABLE ->
       i < j /\ si_priority (p_si q) = 3%Z)
    (Hboost : (u32 (k_ticks k - k_boost k) < 48)%Z) :
  exists k', user_timer MLFQ k c i = Ret k' /\ k_cpus k' !! c = Some None /\
    (scheduler MLFQ k' c pos).2 = Some i.
Proof.
  destruct Hq as [Hprio Hused].
  assert (k_procs (charge_all k i) !! i = Some (charge true p)) as Hp1.
  { simpl. rewrite list_lookup_imap, Hp. simpl. by rewrite Nat.eqb_refl. }
  unfold user_timer, mlfq_timer. rewrite Hp1. cbn [from_option obind].
  change (si_priority (p_si (charge true p))) with (si_priority (p_si p)).
  change (si_ticks_used (p_si (charge true p))) with (si_ticks_used (p_si p)).
  rewrite Hprio, Hused. change (3 <? 0)%Z with false.
  change (slice_ticks !! Z.to_nat 3) with (Some 16%Z). cbn [from_option obind].
  change (wrap32 (15 + 1)) with 16%Z. change (16 <=? 16)%Z with true. change (3 <? 3)%Z with false.
  cbv iota. eexists. split; [done|]. split.
  { simpl. apply list_lookup_insert_eq. by eapply lookup_lt_Some. }
  set (k' := yield _ _ _). unfold scheduler, boost.
  change (k_ticks k') with (k_ticks k). change (k_boost k') with (k_boost k).
  destruct (Z.leb_spec 48 (u32 (k_ticks k - k_boost k))); [lia|].
  assert (exists pi, k_procs k' !! i = Some pi /\ p_state pi = RUNNABLE /\ si_priority (p_si pi) = 3%Z) as (pi & Hpi & Hsi & Hqi).
  { unfold k', yield. cbn [sched with_cpu k_procs]. rewrite upd_upd, lookup_upd, decide_True by done. rewrite Hp1. by eexists. }
  assert (forall j q, k_procs k' !! j = Some q -> p_state q = RUNNABLE -> si_priority (p_si q) = 3%Z /\ i <= j) as Hall.
  { intros j q. destruct (decide (j = i)) as [->|Hne]; [intros Hq _; rewrite Hpi in Hq; by simplify_eq|].
    unfold k', yield. cbn [sched with_cpu k_procs]. rewrite upd_upd, lookup_upd, decide_False by done. simpl.
    rewrite list_lookup_imap. destruct (k_procs k !! j) as [q0|] eqn:E0; [|done]. simpl. intros [= <-] Hs.
    unfold charge in *. destruct (Nat.eqb_spec j i); [done|].
    case_decide; [|done]. simpl in *. destruct (Hothers j q0 E0) as [? ?]; [done|]. split; [done|lia]. }
  pose proof (mlfq_queues_spec (k_procs k') [0; 1; 2; 3]%Z) as Hm. unfold mlfq_pick.
  destruct (mlfq_queues _ _) as [j|]; simpl.
  - destruct Hm as (q & pre & q0 & post & Hq & Hs & Hq0 & _ & _ & Hmin).
    destruct (Hall j q Hq Hs) as [? ?]. f_equal. destruct (decide (i < j)); [|lia].
    destruct (Hmin i pi); [done..|congruence].
  - exfalso. apply (Hm i pi Hpi Hsi). rewrite Hqi. set_solver.
Qed.

(** Two processes that compute, in the last queue. *)
Definition busy_kernel : kernel :=
  let si used := mk_si 3 used 0 0 0 0 (-1) in
  mk_kernel
    [mk_proc SLEEPING (Some (Ch_proc 0)) false 0 1 None true true 0 (fresh_si 0);
     mk_proc RUNNING None false 0 2 (Some 0) true true 0 (si 15%Z);
     mk_proc RUNNABLE None false 0 3 (Some 0) true true 0 (si 0%Z)]
    [Some 1] 4 100 96 0.

Lemma mlfq_queue_not_fair_witness :
  exists k', user_timer MLFQ busy_kernel 0 1 = Ret k' /\ k_cpus k' !! 0 = Some None /\
    (scheduler MLFQ k' 0 0).2 = Some 1.
Proof.
  refine (mlfq_queue_not_fair busy_kernel 0 1 0 _ eq_refl eq_refl _ _ _).
  - split; reflexivity.
  - intros [|[|[|j]]] q Hq Hs; simplify_eq/=; split; [lia|done].
  - vm_compute. reflexivity.
Defined.
