(* ===== verification/Pipe.v ===== *)
(** * Pipes of the kernel ([xv6/kernel/pipe.c])

    A pipe is a ring of 512 bytes with two free-running 32-bit counters.
    [pipewrite] and [piperead] hold the lock of the pipe except while they
    sleep, so each is a sequence of rounds: a round ends with the return of
    the call or with going to sleep.  User memory is a function that gives
    the byte at an offset, or [None] where the copy fails. *)

From S2P Require Import Prelude.

Definition PIPESIZE : nat := 512.

Record pipe : Type := mk_pipe {
  pi_data : list ascii;
  pi_nread : Z;
  pi_nwrite : Z;
  pi_readopen : bool;
  pi_writeopen : bool
}.

(** Which sleepers are woken: those on [&pi->nread] or on [&pi->nwrite]. *)
Inductive pipe_chan : Type := On_nread | On_nwrite.

(** How a round ends: the value returned, or asleep with the state of the
    loop. *)
Inductive round_end (A : Type) : Type :=
| Returned (v : Z)
| Asleep (a : A).
Arguments Returned {A}.
Arguments Asleep {A}.

(** [data\[nwrite++ % PIPESIZE\] = ch] *)
Definition ring_index (n : Z) : nat := Z.to_nat (n `mod` Z.of_nat PIPESIZE).

Definition put_byte (pi : pipe) (ch : ascii) : pipe :=
  mk_pipe (<[ring_index (pi_nwrite pi) := ch]> (pi_data pi)) (pi_nread pi) (u32 (pi_nwrite pi + 1))
    (pi_readopen pi) (pi_writeopen pi).

Definition is_full (pi : pipe) : bool := (pi_nwrite pi =? u32 (pi_nread pi + Z.of_nat PIPESIZE))%Z.
Definition is_empty (pi : pipe) : bool := (pi_nread pi =? pi_nwrite pi)%Z.

(** The contents of a fresh page are arbitrary; its other fields are not. *)
Definition pipealloc (page : list ascii) : pipe := mk_pipe page 0 0 true true.

(** [true] when both ends are closed and the page is freed. *)
Definition pipeclose (pi : pipe) (writable : bool) : pipe * list pipe_chan * bool :=
  let pi' :=
    if writable then mk_pipe (pi_data pi) (pi_nread pi) (pi_nwrite pi) (pi_readopen pi) false
    else mk_pipe (pi_data pi) (pi_nread pi) (pi_nwrite pi) false (pi_writeopen pi) in
  (pi', [if writable then On_nread else On_nwrite], negb (pi_readopen pi') && negb (pi_writeopen pi')).

(** A round of the loop of [pipewrite], with [cnt = n - i] bytes left. *)
Fixpoint write_loop (pi : pipe) (src : nat -> option ascii) (killed : bool) (cnt i : nat)
    : pipe * list pipe_chan * round_end nat :=
  match cnt with
  | O => (pi, [On_nread], Returned (Z.of_nat i))
  | S cnt =>
      if negb (pi_readopen pi) || killed then (pi, [], Returned (-1))
      else if is_full pi then (pi, [On_nread], Asleep i)
      else
        match src i with
        | None => (pi, [On_nread], Returned (if (i =? 0)%nat then -1 else Z.of_nat i)%Z)
        | Some ch => write_loop (put_byte pi ch) src killed cnt (S i)
        end
  end.

Definition pipewrite (pi : pipe) (src : nat -> option ascii) (killed : bool) (n : Z) (i : nat)
    : pipe * list pipe_chan * round_end nat :=
  write_loop pi src killed (Z.to_nat n - i) i.

(** The copying loop of [piperead]; the bytes delivered. *)
Fixpoint read_loop (pi : pipe) (dst_ok : nat -> bool) (cnt i : nat) (out : list ascii)
    : outcome (pipe * list ascii * Z) :=
  match cnt with
  | O => Ret (pi, out, Z.of_nat i)
  | S cnt =>
      if is_empty pi then Ret (pi, out, Z.of_nat i)
      else
        let* ch := from_option (pi_data pi !! ring_index (pi_nread pi)) in
        if dst_ok i then
          read_loop (mk_pipe (pi_data pi) (u32 (pi_nread pi + 1)) (pi_nwrite pi) (pi_readopen pi) (pi_writeopen pi))
            dst_ok cnt (S i) (out ++ [ch])
        else Ret (pi, out, (if (i =? 0)%nat then -1 else Z.of_nat i)%Z)
  end.

Definition piperead (pi : pipe) (dst_ok : nat -> bool) (killed : bool) (n : Z)
    : outcome (pipe * list ascii * list pipe_chan * round_end unit) :=
  if is_empty pi && pi_writeopen pi then
    if killed then Ret (pi, [], [], Returned (-1)) else Ret (pi, [], [], Asleep tt)
  else
    let* '(pi, out, v) := read_loop pi dst_ok (Z.to_nat n) 0 [] in
    Ret (pi, out, [On_nwrite], Returned v).

(** ** The queue a pipe stands for *)
Definition used (pi : pipe) : Z := u32 (pi_nwrite pi - pi_nread pi).

Record pipe_ok (pi : pipe) : Prop := {
  po_data : length (pi_data pi) = PIPESIZE;
  po_nread : (0 <= pi_nread pi < 4294967296)%Z;
  po_nwrite : (0 <= pi_nwrite pi < 4294967296)%Z;
  po_used : (used pi <= Z.of_nat PIPESIZE)%Z
}.

Definition contents (pi : pipe) : list ascii :=
  (fun k => default NUL (pi_data pi !! ring_index (pi_nread pi + Z.of_nat k))) <$> seq 0 (Z.to_nat (used pi)).

(** ** Proofs *)

(** The size of the ring divides the range of the counters. *)
Lemma ring_index_u32 n : ring_index (u32 n) = ring_index n.
Proof.
  unfold ring_index, u32. f_equal. change (Z.of_nat PIPESIZE) with 512%Z.
  apply Z.mod_mod_divide. by exists 8388608%Z.
Qed.

Lemma ring_index_lt n : ring_index n < PIPESIZE.
Proof.
  unfold ring_index. change (Z.of_nat PIPESIZE) with 512%Z. pose proof (Z.mod_pos_bound n 512).
  unfold PIPESIZE. lia.
Qed.

(** Positions less than a ring apart are different. *)
Lemma ring_index_inj n a b :
  (0 <= a < 512)%Z -> (0 <= b < 512)%Z -> ring_index (n + a) = ring_index (n + b) -> a = b.
Proof.
  unfold ring_index. change (Z.of_nat PIPESIZE) with 512%Z. intros Ha Hb E.
  pose proof (Z.mod_pos_bound (n + a) 512). pose proof (Z.mod_pos_bound (n + b) 512).
  assert ((n + a) `mod` 512 = (n + b) `mod` 512)%Z as E' by lia.
  pose proof (Z.div_mod (n + a) 512). pose proof (Z.div_mod (n + b) 512). lia.
Qed.

Lemma used_range pi : (0 <= used pi < 4294967296)%Z.
Proof. apply u32_range. Qed.

Lemma nwrite_used pi : pipe_ok pi -> pi_nwrite pi = u32 (pi_nread pi + used pi).
Proof.
  intros [_ Hr Hw _]. unfold used, u32. rewrite Zplus_mod_idemp_r.
  replace (pi_nread pi + (pi_nwrite pi - pi_nread pi))%Z with (pi_nwrite pi) by lia.
  by rewrite Z.mod_small.
Qed.

Lemma u32_add_diff r d : (0 <= d < 4294967296)%Z -> u32 (u32 (r + d) - r) = d.
Proof.
  intros Hd. unfold u32. rewrite Zminus_mod_idemp_l. replace (r + d - r)%Z with d by lia. by apply Z.mod_small.
Qed.

Lemma is_full_spec pi : pipe_ok pi -> is_full pi = bool_decide (used pi = 512%Z).
Proof.
  intros Hok. unfold is_full. rewrite (nwrite_used pi Hok). change (Z.of_nat PIPESIZE) with 512%Z.
  pose proof (used_range pi). apply eq_true_iff_eq. rewrite bool_decide_eq_true, Z.eqb_eq. split.
  - intros E. apply (f_equal (fun z => u32 (z - pi_nread pi))) in E. rewrite !u32_add_diff in E by lia. done.
  - by intros ->.
Qed.

Lemma is_empty_spec pi : pipe_ok pi -> is_empty pi = bool_decide (used pi = 0%Z).
Proof.
  intros Hok. unfold is_empty. pose proof (used_range pi). apply eq_true_iff_eq.
  rewrite bool_decide_eq_true, Z.eqb_eq. split.
  - intros E. unfold used. rewrite E, Z.sub_diag. done.
  - intros E. rewrite (nwrite_used pi Hok), E, Z.add_0_r. symmetry. apply u32_small, Hok.
Qed.

Lemma used_put pi ch : pipe_ok pi -> used pi <> 512%Z -> used (put_byte pi ch) = (used pi + 1)%Z.
Proof.
  intros Hok Hne. pose proof (used_range pi). pose proof (po_used pi Hok) as Hu.
  change (Z.of_nat PIPESIZE) with 512%Z in Hu. unfold used at 1, put_byte. simpl.
  rewrite (nwrite_used pi Hok). unfold u32 at 2 3. rewrite Zplus_mod_idemp_l.
  change ((pi_nread pi + used pi + 1) `mod` 4294967296)%Z with (u32 (pi_nread pi + used pi + 1)).
  rewrite <- Z.add_assoc, u32_add_diff; lia.
Qed.

Lemma put_byte_ok pi ch : pipe_ok pi -> used pi <> 512%Z ->
  pipe_ok (put_byte pi ch) /\ contents (put_byte pi ch) = contents pi ++ [ch].
Proof.
  intros Hok Hne. pose proof (used_range pi) as Hur. pose proof (po_used pi Hok) as Hu.
  change (Z.of_nat PIPESIZE) with 512%Z in Hu. pose proof (used_put pi ch Hok Hne) as Hup. split.
  - split; [by simpl; rewrite length_insert; apply Hok|apply Hok|apply u32_range|].
    rewrite Hup. change (Z.of_nat PIPESIZE) with 512%Z. lia.
  - unfold contents. rewrite Hup. replace (Z.to_nat (used pi + 1)) with (S (Z.to_nat (used pi))) by lia.
    rewrite seq_S, fmap_app. simpl. f_equal.
    + apply list_fmap_ext. intros j k Hk. apply lookup_seq in Hk as [-> Hk]. simpl. f_equal.
      rewrite list_lookup_insert_ne; [done|]. rewrite (nwrite_used pi Hok), ring_index_u32. intros E.
      apply ring_index_inj in E; lia.
    + f_equal. rewrite (nwrite_used pi Hok), ring_index_u32. rewrite Z2Nat.id by lia.
      rewrite list_lookup_insert_eq; [done|]. rewrite (po_data pi Hok). apply ring_index_lt.
Qed.

Lemma contents_length pi : length (contents pi) = Z.to_nat (used pi).
Proof. unfold contents. by rewrite length_fmap, length_seq. Qed.

(** Taking the first byte. *)
Definition take_byte (pi : pipe) : pipe :=
  mk_pipe (pi_data pi) (u32 (pi_nread pi + 1)) (pi_nwrite pi) (pi_readopen pi) (pi_writeopen pi).

Lemma take_byte_ok pi : pipe_ok pi -> used pi <> 0%Z ->
  exists ch, pi_data pi !! ring_index (pi_nread pi) = Some ch /\ pipe_ok (take_byte pi) /\
    contents pi = ch :: contents (take_byte pi).
Proof.
  intros Hok Hne. pose proof (used_range pi) as Hur. pose proof (po_used pi Hok) as Hu.
  change (Z.of_nat PIPESIZE) with 512%Z in Hu.
  destruct (lookup_lt_is_Some_2 (pi_data pi) (ring_index (pi_nread pi))) as [ch Hch].
  { rewrite (po_data pi Hok). apply ring_index_lt. }
  assert (used (take_byte pi) = used pi - 1)%Z as Hut.
  { unfold used at 1, take_byte. simpl. rewrite (nwrite_used pi Hok). unfold u32 at 3.
    unfold u32 at 1. rewrite Zminus_mod_idemp_r. fold (u32 (u32 (pi_nread pi + used pi) - (pi_nread pi + 1))).
    replace (pi_nread pi + used pi)%Z with (pi_nread pi + 1 + (used pi - 1))%Z by lia.
    apply u32_add_diff. lia. }
  exists ch. split_and!; [done| |].
  - split; [apply Hok|apply u32_range|apply Hok|]. rewrite Hut. change (Z.of_nat PIPESIZE) with 512%Z. lia.
  - unfold contents. rewrite Hut. replace (Z.to_nat (used pi)) with (S (Z.to_nat (used pi - 1))) by lia.
    simpl. f_equal; [by rewrite Z.add_0_r, Hch|]. rewrite <- fmap_S_seq, <- list_fmap_compose.
    apply list_fmap_ext. intros j k _. simpl. do 2 f_equal.
    rewrite <- (ring_index_u32 (u32 (pi_nread pi + 1) + Z.of_nat k)). unfold u32 at 1 2.
    rewrite Zplus_mod_idemp_l. fold (u32 (pi_nread pi + 1 + Z.of_nat k)). rewrite ring_index_u32. f_equal. lia.
Qed.

(** The ends of a pipe are not changed by reading and writing. *)
Definition same_ends (pi pi' : pipe) : Prop :=
  pi_readopen pi' = pi_readopen pi /\ pi_writeopen pi' = pi_writeopen pi.

(** How a round of [pipewrite] that stored [bytes] can end. *)
Definition write_end (pi pi' : pipe) (src : nat -> option ascii) (killed : bool) (cnt i : nat)
    (bytes : list ascii) (r : round_end nat) : Prop :=
  match r with
  | Asleep j => j = i + length bytes /\ length bytes < cnt /\ length (contents pi') = PIPESIZE /\
      pi_readopen pi = true /\ killed = false
  | Returned v =>
      (v = (-1)%Z /\ (pi_readopen pi = false \/ killed = true \/ (i = 0 /\ src 0 = None /\ bytes = []))) \/
      (v = Z.of_nat (i + length bytes) /\ (length bytes = cnt \/ src (i + length bytes) = None))
  end.

Lemma write_loop_spec src killed cnt : forall pi i, pipe_ok pi ->
  let '(pi', wk, r) := write_loop pi src killed cnt i in
  pipe_ok pi' /\ same_ends pi pi' /\ pi_nread pi' = pi_nread pi /\
  exists bytes, contents pi' = contents pi ++ bytes /\
    (forall k b, bytes !! k = Some b -> src (i + k) = Some b) /\ write_end pi pi' src killed cnt i bytes r.
Proof.
  induction cnt as [|cnt IH]; intros pi i Hok; cbn [write_loop].
  { split_and!; try done. exists []. rewrite app_nil_r. split_and!; [done|done|]. right. simpl. auto. }
  destruct (negb (pi_readopen pi) || killed) eqn:Ek.
  { split_and!; try done. exists []. rewrite app_nil_r. split_and!; [done|done|]. left.
    apply orb_true_iff in Ek as [Ek|Ek]; reflect; auto. }
  reflect. rewrite (is_full_spec pi Hok). case_bool_decide as Hf.
  { split_and!; try done. exists []. rewrite app_nil_r. split_and!; [done|done|].
    simpl. rewrite contents_length, Hf. split_and!; [lia|lia|done|done|done]. }
  destruct (src i) as [ch|] eqn:Es.
  - destruct (put_byte_ok pi ch Hok Hf) as [Hok1 Hc1]. specialize (IH (put_byte pi ch) (S i) Hok1).
    destruct (write_loop (put_byte pi ch) src killed cnt (S i)) as [[pi' wk] r].
    destruct IH as (Hok' & Hends & Hnr & bytes & Hc & Hb & Hend). split_and!; try done.
    exists (ch :: bytes). split_and!.
    + rewrite Hc, Hc1, <- app_assoc. done.
    + intros [|k] b Hk; simpl in Hk; [simplify_eq; by rewrite Nat.add_0_r|].
      replace (i + S k) with (S i + k) by lia. by apply Hb.
    + unfold write_end in *. simpl length. destruct r as [v|j].
      * destruct Hend as [[-> [?|[?|[? _]]]]|[-> Hor]]; [by left; auto..|done|].
        right. split; [lia|]. destruct Hor as [Hl|Hn]; [left; lia|right].
        by replace (i + S (length bytes)) with (S i + length bytes) by lia.
      * destruct Hend as (-> & ? & ? & ? & ?). split_and!; [lia|lia|done|done|done].
  - split_and!; try done. exists []. rewrite app_nil_r. split_and!; [done|done|]. simpl.
    rewrite Nat.add_0_r. destruct (Nat.eqb_spec i 0) as [->|]; [left; split; [done|]; right; right; done|].
    right. auto.
Qed.

Lemma read_loop_spec dst_ok cnt : forall pi i out, pipe_ok pi ->
  exists pi' new v, read_loop pi dst_ok cnt i out = Ret (pi', out ++ new, v) /\
    pipe_ok pi' /\ same_ends pi pi' /\ contents pi = new ++ contents pi' /\ pi_nwrite pi' = pi_nwrite pi /\
    ((v = (-1)%Z /\ i = 0 /\ new = [] /\ dst_ok 0 = false) \/
     (v = Z.of_nat (i + length new) /\
      (length new = cnt \/ contents pi' = [] \/ dst_ok (i + length new) = false))).
Proof.
  induction cnt as [|cnt IH]; intros pi i out Hok; cbn [read_loop].
  { exists pi, [], (Z.of_nat i). rewrite app_nil_r. split_and!; try done. right. rewrite Nat.add_0_r. auto. }
  rewrite (is_empty_spec pi Hok). case_bool_decide as He.
  { exists pi, [], (Z.of_nat i). rewrite app_nil_r. split_and!; try done. right. rewrite Nat.add_0_r.
    split; [done|]. right. left. apply nil_length_inv. rewrite contents_length, He. done. }
  destruct (take_byte_ok pi Hok He) as (ch & -> & Hok1 & Hc1). cbn [from_option obind].
  destruct (dst_ok i) eqn:Ed.
  - destruct (IH (take_byte pi) (S i) (out ++ [ch]) Hok1) as (pi' & new & v & E & Hok' & Hends & Hc & Hw & Hv).
    exists pi', (ch :: new), v. split_and!; try done.
    + unfold take_byte in E. by rewrite E, <- app_assoc.
    + by rewrite Hc1, Hc.
    + right. destruct Hv as [(_ & ? & _)|[-> Hor]]; [done|]. simpl length. split; [lia|].
      destruct Hor as [?|[?|Hn]]; [left; lia|auto|]. right. right.
      by replace (i + S (length new)) with (S i + length new) by lia.
  - exists pi, []. eexists. rewrite app_nil_r. split_and!; try done. rewrite Nat.add_0_r.
    destruct (Nat.eqb_spec i 0) as [->|]; [left; auto|right; auto].
Qed.

(** ** Claims *)

(** The bytes that a round of [pipewrite] accepted, by the counter. *)
Definition accepted (pi pi' : pipe) (src : nat -> option ascii) (i : nat) : list ascii :=
  (fun k => default NUL (src (i + k))) <$> seq 0 (Z.to_nat (u32 (pi_nwrite pi' - pi_nwrite pi))).

Lemma accepted_bytes pi pi' src i bytes :
  pipe_ok pi -> pipe_ok pi' -> pi_nread pi' = pi_nread pi -> contents pi' = contents pi ++ bytes ->
  (forall k b, bytes !! k = Some b -> src (i + k) = Some b) -> accepted pi pi' src i = bytes.
Proof.
  intros Hok Hok' Hnr Hc Hb. apply (f_equal length) in Hc. rewrite length_app, !contents_length in Hc.
  pose proof (used_range pi). pose proof (used_range pi'). pose proof (po_used pi' Hok').
  change (Z.of_nat PIPESIZE) with 512%Z in *.
  assert (Z.to_nat (u32 (pi_nwrite pi' - pi_nwrite pi)) = length bytes) as Hlen.
  { rewrite (nwrite_used pi' Hok'), (nwrite_used pi Hok), Hnr.
    replace (used pi') with (used pi + Z.of_nat (length bytes))%Z by lia.
    rewrite Z.add_assoc. unfold u32 at 1 3. rewrite Zminus_mod_idemp_r.
    fold (u32 (u32 (pi_nread pi + used pi + Z.of_nat (length bytes)) - (pi_nread pi + used pi))).
    rewrite u32_add_diff; lia. }
  unfold accepted. rewrite Hlen. apply list_eq. intros k. rewrite list_lookup_fmap.
  destruct (decide (k < length bytes)) as [Hk|Hk].
  - rewrite lookup_seq_lt by done. destruct (lookup_lt_is_Some_2 bytes k Hk) as [b Hbk].
    simpl. by rewrite (Hb k b Hbk), Hbk.
  - rewrite lookup_seq_ge by lia. simpl. symmetry. apply lookup_ge_None. lia.
Qed.

(** A history of a pipe: rounds of readers and writers and closings in any
    order. *)
Inductive pipe_op : Type :=
| Op_write (src : nat -> option ascii) (killed : bool) (n : Z) (i : nat)
| Op_read (dst_ok : nat -> bool) (killed : bool) (n : Z)
| Op_close (writable : bool).

(** The pipe, all bytes accepted from writers and all bytes given to
    readers. *)
Fixpoint run_pipe (pi : pipe) (ops : list pipe_op) (ins outs : list ascii)
    : outcome (pipe * list ascii * list ascii) :=
  match ops with
  | [] => Ret (pi, ins, outs)
  | Op_write src killed n i :: ops =>
      let '(pi', _, _) := pipewrite pi src killed n i in
      run_pipe pi' ops (ins ++ accepted pi pi' src i) outs
  | Op_read dst_ok killed n :: ops =>
      let* '(pi', out, _, _) := piperead pi dst_ok killed n in
      run_pipe pi' ops ins (outs ++ out)
  | Op_close writable :: ops =>
      let '(pi', _, _) := pipeclose pi writable in run_pipe pi' ops ins outs
  end.

Lemma close_ok pi writable : pipe_ok pi ->
  pipe_ok (pipeclose pi writable).1.1 /\ contents (pipeclose pi writable).1.1 = contents pi.
Proof. intros [? ? ? ?]. destruct writable; (split; [split; done|done]). Qed.

(** C22.  A pipe is a first-in first-out queue: whatever readers, writers and
    closings do in whatever order, and however often the 32-bit counters wrap
    around, no access leaves the ring, it never holds more than 512 bytes, and
    the bytes given to readers followed by the bytes still in the ring are
    exactly the bytes accepted from writers, in their order. *)
Theorem pipe_is_fifo (page : list ascii) (ops : list pipe_op) (Hpage : length page = PIPESIZE) :
  exists pi ins outs, run_pipe (pipealloc page) ops [] [] = Ret (pi, ins, outs) /\
    outs ++ contents pi = ins /\ length (contents pi) <= PIPESIZE.
Proof.
  assert (pipe_ok (pipealloc page)) as Hok.
  { split; simpl; [done|lia|lia|vm_compute; discriminate]. }
  assert (forall pi ins outs, pipe_ok pi -> outs ++ contents pi = ins ->
    exists pi' ins' outs', run_pipe pi ops ins outs = Ret (pi', ins', outs') /\
      outs' ++ contents pi' = ins' /\ pipe_ok pi') as Hgo.
  { induction ops as [|[src killed n i|dst_ok killed n|writable] ops IH]; intros pi ins outs Hpi Hq; cbn [run_pipe].
    - by exists pi, ins, outs.
    - unfold pipewrite. pose proof (write_loop_spec src killed (Z.to_nat n - i) pi i Hpi) as Hw.
      destruct (write_loop _ _ _ _ _) as [[pi' wk] r]. destruct Hw as (Hok' & _ & Hnr & bytes & Hc & Hb & _).
      apply IH; [done|]. rewrite (accepted_bytes pi pi' src i bytes) by done. by rewrite Hc, app_assoc, Hq.
    - unfold piperead. destruct (is_empty pi && pi_writeopen pi).
      { destruct killed; cbn [obind]; apply IH; [done|by rewrite app_nil_r|done|by rewrite app_nil_r]. }
      destruct (read_loop_spec dst_ok (Z.to_nat n) pi 0 [] Hpi) as (pi' & new & v & -> & Hok' & _ & Hc & _).
      cbn [obind]. apply IH; [done|]. rewrite <- Hq, Hc, <- app_assoc. done.
    - destruct (close_ok pi writable Hpi) as [Hok' Hc]. destruct (pipeclose pi writable) as [[pi' ?] ?].
      simpl in *. apply IH; [done|]. by rewrite Hc. }
  destruct (Hgo (pipealloc page) [] [] Hok eq_refl) as (pi & ins & outs & E & Hq & Hok').
  exists pi, ins, outs. split_and!; [done|done|]. rewrite contents_length.
  pose proof (po_used pi Hok'). pose proof (used_range pi). lia.
Qed.

Lemma pipe_is_fifo_witness :
  let src k := c_str "abc" !! k in
  exists pi ins outs, run_pipe (pipealloc (replicate PIPESIZE NUL))
      [Op_write src false 3 0; Op_read (fun _ => true) false 2; Op_close true; Op_read (fun _ => true) false 9] [] []
      = Ret (pi, ins, outs) /\
    outs ++ contents pi = ins /\ length (contents pi) <= PIPESIZE.
Proof. intros src. apply pipe_is_fifo. apply length_replicate. Defined.

(**  When readers and writers block and what they return.  A writer sleeps
    only on a full pipe whose reader is open and then has stored all that fit;
    it returns the number of bytes stored, short only where user memory
    cannot be read, or -1.  A reader sleeps only on an empty pipe with an open
    writer; otherwise it returns the number of bytes delivered, as many as
    were asked for or everything there was, so 0 for a positive request means
    the end of the data, or -1. *)
Theorem pipe_blocking (pi : pipe) (src : nat -> option ascii) (dst_ok : nat -> bool) (killed : bool) (n : Z)
    (Hok : pipe_ok pi) (Hn : (0 <= n)%Z) :
  (let '(pi', _, r) := pipewrite pi src killed n 0 in
   exists bytes, contents pi' = contents pi ++ bytes /\ write_end pi pi' src killed (Z.to_nat n) 0 bytes r) /\
  (exists pi' out wk r, piperead pi dst_ok killed n = Ret (pi', out, wk, r) /\
     contents pi = out ++ contents pi' /\
     match r with
     | Asleep _ => contents pi = [] /\ pi_writeopen pi = true /\ killed = false
     | Returned v =>
         (v = (-1)%Z /\ out = [] /\ (killed = true \/ dst_ok 0 = false)) \/
         (v = Z.of_nat (length out) /\ ~ (contents pi = [] /\ pi_writeopen pi = true) /\
          (v = n \/ contents pi' = [] \/ dst_ok (length out) = false))
     end).
Proof.
  split.
  - unfold pipewrite. rewrite Nat.sub_0_r. pose proof (write_loop_spec src killed (Z.to_nat n) pi 0 Hok) as Hw.
    destruct (write_loop _ _ _ _ _) as [[pi' wk] r]. destruct Hw as (_ & _ & _ & bytes & Hc & _ & Hend). by exists bytes.
  - unfold piperead. assert (is_empty pi = true <-> contents pi = []) as Hem.
    { rewrite (is_empty_spec pi Hok), bool_decide_eq_true, <- length_zero_iff_nil, contents_length.
      pose proof (used_range pi). lia. }
    destruct (is_empty pi && pi_writeopen pi) eqn:Eb.
    + reflect. destruct killed; do 4 eexists; (split; [done|]); simpl; (split; [done|]).
      * left. auto.
      * split_and!; [by apply Hem|done|done].
    + destruct (read_loop_spec dst_ok (Z.to_nat n) pi 0 [] Hok) as (pi' & new & v & -> & _ & _ & Hc & _ & Hv).
      cbn [obind app]. do 4 eexists. split; [done|]. split; [done|].
      destruct Hv as [(-> & _ & -> & ?)|[-> Hor]]; [left; auto|]. right. simpl in *. split_and!; [done| |].
      * intros [Hx%Hem Hy]. rewrite Hx, Hy in Eb. done.
      * destruct Hor as [Hl|Hor]; [left; lia|by right].
Qed.

Lemma pipe_blocking_witness :
  let pi := pipealloc (replicate PIPESIZE NUL) in
  exists pi' out wk r, piperead pi (fun _ => true) false 5 = Ret (pi', out, wk, r) /\
     contents pi = out ++ contents pi' /\
     match r with
     | Asleep _ => contents pi = [] /\ pi_writeopen pi = true /\ false = false
     | Returned v =>
         (v = (-1)%Z /\ out = [] /\ (false = true \/ true = false)) \/
         (v = Z.of_nat (length out) /\ ~ (contents pi = [] /\ pi_writeopen pi = true) /\
          (v = 5%Z \/ contents pi' = [] \/ true = false))
     end.
Proof.
  intros pi. refine (proj2 (pipe_blocking pi (fun _ => None) (fun _ => true) false 5 _ _)); [|lia].
  split; simpl; [reflexivity|lia|lia|vm_compute; discriminate].
Defined.
