(* ===== verification/Bio.v ===== *)
(** * The buffer cache (xv6/kernel/bio.c)

    Buffers are the entries of [bcache.buf]; a pointer to a buffer is its
    index, a pointer to [bcache.head] is [HEAD], and the fields [prev] and
    [next] of the buffers and of the head are the entries of [bc_prev] and
    [bc_next].  The disk maps block numbers to blocks;
    [bc_trace] records the writes that reached it, for the crash theorems of
    the log.  A call that would sleep on a buffer lock does not return
    ([NoFuel]).

    The second part is the interface [BlockCache] that the log and the file
    system are proved against: a representation relates the cache to the
    contents that its users see and to the references they hold. *)

From S2P Require Import Prelude.
From S2P Require Import Bytes.

Definition BSIZE : nat := 1024.
Definition NBUF : nat := 30.
Definition ROOTDEV : Z := 1.

(** ** Data *)
Record buf : Type := mk_buf {
  b_valid : bool;
  b_dev : Z;
  b_blockno : Z;
  b_locked : bool;
  b_refcnt : Z;
  b_data : bytes
}.

Record bcache : Type := mk_bcache {
  bc_buf : list buf;
  bc_prev : list nat;
  bc_next : list nat;
  bc_disk : gmap Z bytes;
  bc_trace : list (Z * bytes)
}.

Definition zero_block : bytes := replicate BSIZE 0%Z.

(** What the disk holds at a block. *)
Definition disk_block (d : gmap Z bytes) (blockno : Z) : bytes := default zero_block (d !! blockno).

Definition set_refcnt (b : buf) (n : Z) : buf :=
  mk_buf (b_valid b) (b_dev b) (b_blockno b) (b_locked b) n (b_data b).
Definition set_locked (b : buf) (l : bool) : buf :=
  mk_buf (b_valid b) (b_dev b) (b_blockno b) l (b_refcnt b) (b_data b).
Definition set_bdata (b : buf) (d : bytes) : buf :=
  mk_buf (b_valid b) (b_dev b) (b_blockno b) (b_locked b) (b_refcnt b) d.

Definition with_buf (c : bcache) (i : nat) (b : buf) : bcache :=
  mk_bcache (<[i := b]> (bc_buf c)) (bc_prev c) (bc_next c) (bc_disk c) (bc_trace c).

(** [&bcache.head] *)
Definition HEAD : nat := NBUF.

(** [i->prev = v] and [i->next = v] *)
Definition set_prev (c : bcache) (i v : nat) : bcache :=
  mk_bcache (bc_buf c) (<[i := v]> (bc_prev c)) (bc_next c) (bc_disk c) (bc_trace c).
Definition set_next (c : bcache) (i v : nat) : bcache :=
  mk_bcache (bc_buf c) (bc_prev c) (<[i := v]> (bc_next c)) (bc_disk c) (bc_trace c).

(** ** Operations *)

(** [b->next = head.next; b->prev = &head; head.next->prev = b; head.next = b] *)
Definition link_front (c : bcache) (i : nat) : bcache :=
  let c := set_next c i (bc_next c !!! HEAD) in
  let c := set_prev c i HEAD in
  let c := set_prev c (bc_next c !!! HEAD) i in
  set_next c HEAD i.

(** [b->next->prev = b->prev; b->prev->next = b->next] *)
Definition buf_unlink (c : bcache) (i : nat) : bcache :=
  let c := set_prev c (bc_next c !!! i) (bc_prev c !!! i) in
  set_next c (bc_prev c !!! i) (bc_next c !!! i).

(** The static storage is zero ([0] is no meaningful pointer here, and every
    field is assigned before it is read); the head points to itself, and each
    buffer in turn is linked in behind it. *)
Definition binit (disk : gmap Z bytes) : bcache :=
  let c := mk_bcache (replicate NBUF (mk_buf false 0 0 false 0 zero_block))
             (replicate (S NBUF) 0) (replicate (S NBUF) 0) disk [] in
  let c := set_prev c HEAD HEAD in
  let c := set_next c HEAD HEAD in
  foldl link_front c (seq 0 NBUF).

Definition matches (dev blockno : Z) (b : buf) : bool :=
  (b_dev b =? dev)%Z && (b_blockno b =? blockno)%Z.

(** [for (; b != &head; b = b->link)]: the walk along one of the pointers to
    the first buffer that satisfies the test; the list has [NBUF] buffers, so
    [S NBUF] rounds see its end. *)
Fixpoint buf_walk (p : buf -> bool) (bufs : list buf) (link : list nat) (b fuel : nat)
    : outcome (option (nat * buf)) :=
  match fuel with
  | O => NoFuel
  | S fuel =>
      if b =? HEAD then Ret None
      else
        let* x := load bufs b in
        if p x then Ret (Some (b, x)) else buf_walk p bufs link (link !!! b) fuel
  end.

Definition acquiresleep (c : bcache) (i : nat) : outcome bcache :=
  let* b := load (bc_buf c) i in
  if b_locked b then NoFuel else Ret (with_buf c i (set_locked b true)).

Definition bget (c : bcache) (dev blockno : Z) : outcome (bcache * nat) :=
  let* cached := buf_walk (matches dev blockno) (bc_buf c) (bc_next c) (bc_next c !!! HEAD) (S NBUF) in
  match cached with
  | Some (i, b) =>
      let c := with_buf c i (set_refcnt b (u32 (b_refcnt b + 1))) in
      let* c := acquiresleep c i in Ret (c, i)
  | None =>
      let* free := buf_walk (fun b => (b_refcnt b =? 0)%Z) (bc_buf c) (bc_prev c) (bc_prev c !!! HEAD) (S NBUF) in
      match free with
      | Some (i, b) =>
          let c := with_buf c i (mk_buf false dev blockno (b_locked b) 1 (b_data b)) in
          let* c := acquiresleep c i in Ret (c, i)
      | None => Panic "bget: no buffers"
      end
  end.

Definition bread (c : bcache) (dev blockno : Z) : outcome (bcache * nat) :=
  let* '(c, i) := bget c dev blockno in
  let* b := load (bc_buf c) i in
  if b_valid b then Ret (c, i)
  else
    let data := disk_block (bc_disk c) (b_blockno b) in
    Ret (with_buf c i (mk_buf true (b_dev b) (b_blockno b) (b_locked b) (b_refcnt b) data), i).

Definition bwrite (c : bcache) (i : nat) : outcome bcache :=
  let* b := load (bc_buf c) i in
  if negb (b_locked b) then Panic "bwrite"
  else Ret (mk_bcache (bc_buf c) (bc_prev c) (bc_next c) (<[b_blockno b := b_data b]> (bc_disk c))
              (bc_trace c ++ [(b_blockno b, b_data b)])).

Definition brelse (c : bcache) (i : nat) : outcome bcache :=
  let* b := load (bc_buf c) i in
  if negb (b_locked b) then Panic "brelse"
  else
    let n := u32 (b_refcnt b - 1) in
    let c := with_buf c i (set_refcnt (set_locked b false) n) in
    Ret (if (n =? 0)%Z then link_front (buf_unlink c i) i else c).

Definition bpin (c : bcache) (i : nat) : outcome bcache :=
  let* b := load (bc_buf c) i in Ret (with_buf c i (set_refcnt b (u32 (b_refcnt b + 1)))).

Definition bunpin (c : bcache) (i : nat) : outcome bcache :=
  let* b := load (bc_buf c) i in Ret (with_buf c i (set_refcnt b (u32 (b_refcnt b - 1)))).

(** What a user of a buffer does with [b->data]. *)
Definition buf_data (c : bcache) (i : nat) : outcome bytes :=
  let* b := load (bc_buf c) i in Ret (b_data b).
Definition buf_blockno (c : bcache) (i : nat) : outcome Z :=
  let* b := load (bc_buf c) i in Ret (b_blockno b).
Definition set_data (c : bcache) (i : nat) (d : bytes) : outcome bcache :=
  let* b := load (bc_buf c) i in Ret (with_buf c i (set_bdata b d)).

(** ** The interface

    [V] is the contents of the blocks as the users see it, [H] the blocks in
    use: the number of references and whether the buffer is locked. *)
Definition upd {A} (V : Z -> A) (b : Z) (d : A) : Z -> A := fun x => if decide (x = b) then d else V x.

Lemma upd_same {A} (V : Z -> A) b d : upd V b d b = d.
Proof. unfold upd. by rewrite decide_True. Qed.
Lemma upd_other {A} (V : Z -> A) b d x : x <> b -> upd V b d x = V x.
Proof. intros. unfold upd. by rewrite decide_False. Qed.

Abbreviation held := (gmap Z (Z * bool)).

Class BlockCache (S : Type) := {
  c_bread : S -> Z -> outcome (S * nat);
  c_data : S -> nat -> outcome bytes;
  c_blockno : S -> nat -> outcome Z;
  c_set_data : S -> nat -> bytes -> outcome S;
  c_bwrite : S -> nat -> outcome S;
  c_brelse : S -> nat -> outcome S;
  c_bpin : S -> nat -> outcome S;
  c_bunpin : S -> nat -> outcome S;
  c_disk : S -> gmap Z bytes;
  c_trace : S -> list (Z * bytes);
  (** a cache on a disk after a boot *)
  c_boot : gmap Z bytes -> S
}.

(** [c_handle s i b]: the buffer [i] holds the block [b] and has a
    reference. *)
Class CacheLaws (S : Type) `{BlockCache S} := {
  c_rep : S -> (Z -> bytes) -> held -> Prop;
  c_handle : S -> nat -> Z -> Prop;
  c_rep_ext : forall s V V' Hd, (forall b, V b = V' b) -> c_rep s V Hd -> c_rep s V' Hd;
  c_clean : forall s V Hd b, c_rep s V Hd -> Hd !! b = None -> disk_block (c_disk s) b = V b;
  c_boot_ok : forall d, c_rep (c_boot d) (disk_block d) ∅ /\ c_disk (c_boot d) = d /\ c_trace (c_boot d) = [];
  c_bread_ok : forall s V Hd b,
    c_rep s V Hd ->
    (Hd !! b = None /\ size Hd < NBUF) \/ (exists n, Hd !! b = Some (n, false) /\ (n < 4294967295)%Z) ->
    exists s' i, c_bread s b = Ret (s', i) /\
      c_rep s' V (<[b := (default 0%Z (fst <$> Hd !! b) + 1, true)%Z]> Hd) /\
      c_handle s' i b /\ (forall j x, c_handle s j x -> c_handle s' j x) /\
      c_disk s' = c_disk s /\ c_trace s' = c_trace s;
  c_data_ok : forall s V Hd i b n, c_rep s V Hd -> c_handle s i b -> Hd !! b = Some (n, true) ->
    c_data s i = Ret (V b);
  c_blockno_ok : forall s V Hd i b, c_rep s V Hd -> c_handle s i b -> c_blockno s i = Ret b;
  c_set_data_ok : forall s V Hd i b n d, c_rep s V Hd -> c_handle s i b -> Hd !! b = Some (n, true) ->
    exists s', c_set_data s i d = Ret s' /\ c_rep s' (upd V b d) Hd /\
      (forall j x, c_handle s j x -> c_handle s' j x) /\ c_disk s' = c_disk s /\ c_trace s' = c_trace s;
  c_bwrite_ok : forall s V Hd i b n, c_rep s V Hd -> c_handle s i b -> Hd !! b = Some (n, true) ->
    exists s', c_bwrite s i = Ret s' /\ c_rep s' V Hd /\
      (forall j x, c_handle s j x -> c_handle s' j x) /\
      c_disk s' = <[b := V b]> (c_disk s) /\ c_trace s' = c_trace s ++ [(b, V b)];
  (** the last reference may only go when the disk has the contents *)
  c_brelse_ok : forall s V Hd i b n, c_rep s V Hd -> c_handle s i b -> Hd !! b = Some (n, true) ->
    (n = 1%Z -> disk_block (c_disk s) b = V b) ->
    exists s', c_brelse s i = Ret s' /\
      c_rep s' V (if (n =? 1)%Z then delete b Hd else <[b := (n - 1, false)%Z]> Hd) /\
      (forall j x, (n = 1%Z -> x <> b) -> c_handle s j x -> c_handle s' j x) /\
      c_disk s' = c_disk s /\ c_trace s' = c_trace s;
  c_bpin_ok : forall s V Hd i b n l, c_rep s V Hd -> c_handle s i b -> Hd !! b = Some (n, l) ->
    (n < 4294967295)%Z ->
    exists s', c_bpin s i = Ret s' /\ c_rep s' V (<[b := (n + 1, l)%Z]> Hd) /\
      (forall j x, c_handle s j x -> c_handle s' j x) /\ c_disk s' = c_disk s /\ c_trace s' = c_trace s;
  c_bunpin_ok : forall s V Hd i b n l, c_rep s V Hd -> c_handle s i b -> Hd !! b = Some (n, l) ->
    (1 < n)%Z ->
    exists s', c_bunpin s i = Ret s' /\ c_rep s' V (<[b := (n - 1, l)%Z]> Hd) /\
      (forall j x, c_handle s j x -> c_handle s' j x) /\ c_disk s' = c_disk s /\ c_trace s' = c_trace s;
  (** every buffer in use takes one of the [NBUF] buffers *)
  c_full : forall s V Hd b, c_rep s V Hd -> NBUF <= size Hd -> Hd !! b = None ->
    c_bread s b = Panic "bget: no buffers"
}.

#[global] Instance bio_cache : BlockCache bcache := {|
  c_bread c b := bread c ROOTDEV b;
  c_data := buf_data;
  c_blockno := buf_blockno;
  c_set_data := set_data;
  c_bwrite := bwrite;
  c_brelse := brelse;
  c_bpin := bpin;
  c_bunpin := bunpin;
  c_disk := bc_disk;
  c_trace := bc_trace;
  c_boot := binit
|}.

(** ** Proofs: the circular list

    [link_path f a l z]: from [a] the pointers [f] lead through [l] to [z]. *)
Fixpoint link_path (f : nat -> nat) (a : nat) (l : list nat) (z : nat) : Prop :=
  match l with
  | [] => f a = z
  | b :: l => f a = b /\ link_path f b l z
  end.

Definition fupd (f : nat -> nat) (p v : nat) : nat -> nat := fun x => if decide (x = p) then v else f x.

Lemma fupd_eq f p v : fupd f p v p = v.
Proof. unfold fupd. by rewrite decide_True. Qed.
Lemma fupd_ne f p v x : x <> p -> fupd f p v x = f x.
Proof. intros. unfold fupd. by rewrite decide_False. Qed.

Lemma path_app f l1 b l2 z : forall a, link_path f a (l1 ++ b :: l2) z <-> link_path f a l1 b /\ link_path f b l2 z.
Proof. induction l1 as [|x l1 IH]; intros a; simpl; [done|]. rewrite IH. tauto. Qed.

(** Only the pointers of the nodes on the way matter; the first node may be
    another one that points to the same place. *)
Lemma path_restart f g l z : forall a b,
  link_path f a l z -> g b = f a -> (forall x, x ∈ l -> g x = f x) -> link_path g b l z.
Proof.
  induction l as [|x l IH]; intros a b; simpl; [congruence|].
  intros [<- Hp] Hb Hl. split; [done|]. apply (IH (f a)); [done| |set_solver]. apply Hl. set_solver.
Qed.

Lemma path_ext f g a l z : (forall x, x ∈ a :: l -> g x = f x) -> link_path f a l z -> link_path g a l z.
Proof. intros He Hp. apply (path_restart f g l z a a Hp); [apply He; set_solver|set_solver]. Qed.

Lemma path_first f a l z : link_path f a l z -> f a = default z (head l).
Proof. destruct l; [done|]. by intros [? _]. Qed.

(** The last node of the way points to its end, and can be made to point
    elsewhere. *)
Lemma path_redirect f v l z : forall a,
  NoDup (a :: l) -> link_path f a l z -> link_path (fupd f (default a (last l)) v) a l v.
Proof.
  induction l as [|b l IH]; intros a Hnd Hp; [apply fupd_eq|].
  apply NoDup_cons in Hnd as [Ha Hnd]. destruct Hp as [Hb Hp]. specialize (IH b Hnd Hp).
  replace (default a (last (b :: l))) with (default b (last l)).
  - split; [|done]. rewrite fupd_ne; [done|]. intros E. apply Ha. rewrite E.
    destruct (last l) as [x|] eqn:El; [|set_solver]. simpl.
    apply last_Some in El as [l' ->]. set_solver.
  - destruct l as [|x l]; [done|]. change (last (b :: x :: l)) with (last (x :: l)).
    destruct (last (x :: l)) eqn:El; [done|]. by apply last_None in El.
Qed.

(** A node is taken out of the way. *)
Lemma path_bypass f l1 i l2 z a :
  NoDup (a :: l1 ++ l2) -> link_path f a (l1 ++ i :: l2) z ->
  link_path (fupd f (default a (last l1)) (f i)) a (l1 ++ l2) z.
Proof.
  intros Hnd Hp. apply path_app in Hp as [H1 H2].
  assert (NoDup (a :: l1)) as Hnd1 by (rewrite app_comm_cons in Hnd; by apply NoDup_app in Hnd as (?&_)).
  pose proof (path_redirect f (f i) l1 i a Hnd1 H1) as Hr.
  destruct l2 as [|n l2]; [simpl in H2; rewrite app_nil_r; by rewrite H2 in *|].
  destruct H2 as [Hn H2]. apply path_app. split; [by rewrite Hn in *|].
  eapply path_ext; [|exact H2]. intros x Hx. apply fupd_ne. intros ->.
  rewrite app_comm_cons in Hnd. apply NoDup_app in Hnd as (_ & Hd & _). apply (Hd (default a (last l1))); [|done].
  destruct (last l1) as [y|] eqn:El; [|set_solver]. simpl. apply last_Some in El as [l' ->]. set_solver.
Qed.

(** [order] are the buffers from [head.next] (most recently released) on: the
    [next] pointers lead from the head through [order] back to the head, the
    [prev] pointers the other way round. *)
Record ring (c : bcache) (order : list nat) : Prop := {
  ring_all : order ≡ₚ seq 0 NBUF;
  ring_prev_len : length (bc_prev c) = S NBUF;
  ring_next_len : length (bc_next c) = S NBUF;
  ring_next : link_path (fun x => bc_next c !!! x) HEAD order HEAD;
  ring_prev : link_path (fun x => bc_prev c !!! x) HEAD (reverse order) HEAD
}.

(** The same for a list of some of the buffers. *)
Record part_ring (c : bcache) (order : list nat) : Prop := {
  pr_nodup : NoDup (HEAD :: order);
  pr_lt : Forall (fun i => i < NBUF) order;
  pr_prev_len : length (bc_prev c) = S NBUF;
  pr_next_len : length (bc_next c) = S NBUF;
  pr_next : link_path (fun x => bc_next c !!! x) HEAD order HEAD;
  pr_prev : link_path (fun x => bc_prev c !!! x) HEAD (reverse order) HEAD
}.

Lemma insert_fupd (l : list nat) i v x : i < length l -> <[i := v]> l !!! x = fupd (fun x => l !!! x) i v x.
Proof.
  intros Hi. unfold fupd. case_decide as E; [subst; by apply list_lookup_total_insert_eq|].
  by apply list_lookup_total_insert_ne.
Qed.

Lemma head_reverse (l : list nat) : head (reverse l) = last l.
Proof. induction l as [|x l _] using rev_ind; [done|]. by rewrite reverse_app, last_snoc. Qed.
Lemma last_reverse (l : list nat) : last (reverse l) = head l.
Proof. by rewrite <-head_reverse, reverse_involutive. Qed.

Lemma default_lt (l : list nat) (o : option nat) :
  (forall x, o = Some x -> x ∈ l) -> Forall (fun i => i < NBUF) l -> default HEAD o < S NBUF.
Proof.
  intros Ho Hl. destruct o as [x|]; simpl; [|unfold HEAD; lia].
  rewrite Forall_forall in Hl. specialize (Hl x (Ho x eq_refl)). lia.
Qed.

Lemma head_elem (l : list nat) x : head l = Some x -> x ∈ l.
Proof. destruct l; [done|]. intros [= ->]. set_solver. Qed.
Lemma last_elem (l : list nat) x : last l = Some x -> x ∈ l.
Proof. intros E. apply last_Some in E as [l' ->]. set_solver. Qed.

Lemma link_front_ok c order i :
  part_ring c order -> i < NBUF -> i ∉ order -> part_ring (link_front c i) (i :: order).
Proof.
  intros R Hi Hni. destruct R as [Hnd Hlt Lp Ln Hn Hp]. apply NoDup_cons in Hnd as [Hh Hnd].
  assert (i <> HEAD) as Hih by (unfold HEAD; lia).
  assert ((<[i:=bc_next c !!! HEAD]> (bc_next c)) !!! HEAD = bc_next c !!! HEAD) as Eh
    by (apply list_lookup_total_insert_ne; done).
  pose proof (path_first _ _ _ _ Hn) as Ef.
  split; cbn [link_front set_prev set_next bc_prev bc_next]; rewrite ?Eh.
  - apply NoDup_cons. split; [set_solver|]. by apply NoDup_cons.
  - by constructor.
  - by rewrite !length_insert.
  - by rewrite !length_insert.
  - split; [apply list_lookup_total_insert_eq; rewrite length_insert, Ln; unfold HEAD; lia|].
    eapply path_restart; [exact Hn| |].
    + rewrite list_lookup_total_insert_ne by done. apply list_lookup_total_insert_eq. lia.
    + intros x Hx. rewrite !list_lookup_total_insert_ne; [done|set_solver|set_solver].
  - rewrite reverse_cons. apply path_app. rewrite Ef.
    assert (default HEAD (head order) < S NBUF) as Hd
      by (eapply default_lt; [apply head_elem|exact Hlt]).
    assert (default HEAD (head order) <> i) as Hne.
    { destruct (head order) eqn:E; simpl; [|done]. apply head_elem in E. set_solver. }
    split; [|simpl].
    + eapply path_ext with (f := fupd (fun x => bc_prev c !!! x) (default HEAD (last (reverse order))) i).
      * intros x Hx. rewrite insert_fupd by (rewrite length_insert, Lp; done). rewrite last_reverse.
        unfold fupd. case_decide; [done|]. apply list_lookup_total_insert_ne. set_solver.
      * apply path_redirect with HEAD; [|done]. apply NoDup_cons. rewrite elem_of_reverse. split; [done|].
        by rewrite reverse_Permutation.
    + rewrite list_lookup_total_insert_ne by done. apply list_lookup_total_insert_eq. lia.
Qed.

Lemma unlink_ok c l1 i l2 :
  part_ring c (l1 ++ i :: l2) -> part_ring (buf_unlink c i) (l1 ++ l2) /\ i < NBUF /\ i ∉ l1 ++ l2.
Proof.
  intros [Hnd Hlt Lp Ln Hn Hp].
  assert (HEAD :: l1 ++ i :: l2 ≡ₚ i :: HEAD :: l1 ++ l2) as Eq by (rewrite <-Permutation_middle; constructor).
  rewrite Eq in Hnd. apply NoDup_cons in Hnd as [Hi Hnd].
  assert (Forall (fun i => i < NBUF) (i :: l1 ++ l2)) as Hlt' by (by rewrite Permutation_middle).
  apply Forall_cons in Hlt' as [Hib Hlt']. apply Forall_app in Hlt' as [Hl1 Hl2].
  split; [|split; [done|by apply not_elem_of_cons in Hi as [_ ?]]].
  rewrite reverse_app, reverse_cons, <-(assoc_L app) in Hp. cbn [app] in Hp.
  pose proof (proj1 (path_app _ _ _ _ _ _) Hn) as [_ Hn2].
  pose proof (proj1 (path_app _ _ _ _ _ _) Hp) as [_ Hp2].
  apply path_first in Hn2, Hp2. rewrite head_reverse in Hp2.
  assert (default HEAD (last l1) < S NBUF) as Hd1 by (eapply default_lt; [apply last_elem|done]).
  assert (default HEAD (head l2) < S NBUF) as Hd2 by (eapply default_lt; [apply head_elem|done]).
  assert (default HEAD (head l2) <> i) as Hne.
  { destruct (head l2) eqn:E; simpl; [|unfold HEAD; lia]. apply head_elem in E. intros ->.
    apply Hi, elem_of_cons. right. apply elem_of_app. by right. }
  split; cbn [buf_unlink set_prev set_next bc_prev bc_next].
  - done.
  - by apply Forall_app.
  - by rewrite length_insert.
  - by rewrite length_insert.
  - rewrite Hn2, list_lookup_total_insert_ne, Hp2 by done.
    eapply path_ext; [|apply (path_bypass _ l1 i l2 _ _ Hnd Hn)].
    intros x _. rewrite insert_fupd by (by rewrite Ln). by rewrite Hn2.
  - rewrite Hn2, Hp2, reverse_app.
    eapply path_ext; [|apply (path_bypass (fun x => bc_prev c !!! x) (reverse l2) i (reverse l1) HEAD HEAD)].
    + intros x _. rewrite insert_fupd by (by rewrite Lp). by rewrite last_reverse, Hp2.
    + rewrite <-reverse_app. apply NoDup_cons in Hnd as [? ?]. apply NoDup_cons. rewrite elem_of_reverse.
      split; [done|]. by rewrite reverse_Permutation.
    + done.
Qed.

Lemma ring_part c order : ring c order <-> part_ring c order /\ order ≡ₚ seq 0 NBUF.
Proof.
  split.
  - intros [Ha ? ? ? ?]. split; [|done]. split; try done.
    + apply NoDup_cons. rewrite Ha, elem_of_seq. split; [unfold HEAD; lia|apply NoDup_seq].
    + rewrite Ha. apply Forall_seq. lia.
  - intros [[] ?]. by split.
Qed.

(** The buffer becomes the first of the list. *)
Lemma ring_front c l1 i l2 :
  ring c (l1 ++ i :: l2) -> ring (link_front (buf_unlink c i) i) (i :: l1 ++ l2).
Proof.
  intros [R Ha]%ring_part. destruct (unlink_ok c l1 i l2 R) as (R1 & Hi & Hni).
  apply ring_part. split; [by apply link_front_ok|]. by rewrite Permutation_middle.
Qed.

Lemma ring_with_buf c order i b : ring c order -> ring (with_buf c i b) order.
Proof. intros []. by split. Qed.

Lemma foldl_link_front n : forall c, part_ring c [] -> n <= NBUF ->
  part_ring (foldl link_front c (seq 0 n)) (reverse (seq 0 n)).
Proof.
  induction n as [|n IH]; intros c R Hn; [done|].
  rewrite seq_S, foldl_app, reverse_app. cbn [foldl reverse app].
  apply link_front_ok; [apply IH; [done|lia]|lia|]. rewrite elem_of_reverse, elem_of_seq. lia.
Qed.

Lemma foldl_link_front_rest l : forall c,
  let c' := foldl link_front c l in
  bc_buf c' = bc_buf c /\ bc_disk c' = bc_disk c /\ bc_trace c' = bc_trace c.
Proof. induction l as [|i l IH]; intros c; [done|]. apply (IH (link_front c i)). Qed.

Lemma binit_ring d : ring (binit d) (reverse (seq 0 NBUF)).
Proof.
  apply ring_part. split; [|apply reverse_Permutation]. apply foldl_link_front; [|done].
  split; try done; repeat constructor; set_solver.
Qed.

(** A walk along the list, as a search in the list of the buffers. *)
Fixpoint scan (p : buf -> bool) (bufs : list buf) (order : list nat) : option (nat * buf) :=
  match order with
  | [] => None
  | i :: order =>
      match bufs !! i with
      | Some b => if p b then Some (i, b) else scan p bufs order
      | None => None
      end
  end.

Lemma walk_scan p bufs link l : forall a n,
  link_path (fun x => link !!! x) a l HEAD -> Forall (fun i => i < NBUF) l -> length bufs = NBUF -> length l < n ->
  buf_walk p bufs link (link !!! a) n = Ret (scan p bufs l).
Proof.
  induction l as [|b l IH]; intros a n Hp Hl Hb Hn; (destruct n as [|n]; [simpl in Hn; lia|]); cbn [buf_walk].
  - simpl in Hp. by rewrite Hp, Nat.eqb_refl.
  - destruct Hp as [-> Hp]. apply Forall_cons in Hl as [Hb1 Hl].
    rewrite (proj2 (Nat.eqb_neq b HEAD)) by (unfold HEAD; lia).
    destruct (lookup_lt_is_Some_2 bufs b) as [x Hx]; [lia|]. rewrite (load_ret _ _ _ Hx). cbn [obind scan].
    rewrite Hx. destruct (p x); [done|]. apply IH; try done. simpl in Hn. lia.
Qed.

(** [bget] by the list of the buffers. *)
Definition bget_list (c : bcache) (order : list nat) (dev blockno : Z) : outcome (bcache * nat) :=
  match scan (matches dev blockno) (bc_buf c) order with
  | Some (i, b) =>
      let c := with_buf c i (set_refcnt b (u32 (b_refcnt b + 1))) in
      let* c := acquiresleep c i in Ret (c, i)
  | None =>
      match scan (fun b => (b_refcnt b =? 0)%Z) (bc_buf c) (reverse order) with
      | Some (i, b) =>
          let c := with_buf c i (mk_buf false dev blockno (b_locked b) 1 (b_data b)) in
          let* c := acquiresleep c i in Ret (c, i)
      | None => Panic "bget: no buffers"
      end
  end.

Lemma bget_walks c order dev blockno :
  ring c order -> length (bc_buf c) = NBUF -> bget c dev blockno = bget_list c order dev blockno.
Proof.
  intros [[Hnd Hlt _ _ Hn Hp] Ha]%ring_part Hl. unfold bget.
  assert (length order < S NBUF) as Hlen by (rewrite Ha, length_seq; lia).
  rewrite (walk_scan _ _ _ order HEAD) by done. cbn [obind]. unfold bget_list.
  destruct (scan (matches dev blockno) _ _) as [[i b]|]; [done|].
  rewrite (walk_scan _ _ _ (reverse order) HEAD); [done|done| |done|by rewrite length_reverse].
  by apply Forall_reverse.
Qed.

(** ** Proofs: the representation *)
Definition caches (b : buf) (x : Z) : Prop := b_dev b = ROOTDEV /\ b_blockno b = x.

Record bio_rep (c : bcache) (V : Z -> bytes) (Hd : held) : Prop := {
  br_len : length (bc_buf c) = NBUF;
  br_ring : exists order, ring c order;
  (** no block is cached twice *)
  br_uniq : forall i j bi bj x, bc_buf c !! i = Some bi -> bc_buf c !! j = Some bj ->
    caches bi x -> caches bj x -> i = j;
  br_view : forall i b x, bc_buf c !! i = Some b -> caches b x -> b_valid b = true /\ b_data b = V x;
  br_disk : forall x, Hd !! x = None -> disk_block (bc_disk c) x = V x;
  br_held : forall x n l, Hd !! x = Some (n, l) <->
    exists i b, bc_buf c !! i = Some b /\ caches b x /\ b_refcnt b = n /\ b_locked b = l /\ (0 < n)%Z;
  br_count : forall i b, bc_buf c !! i = Some b ->
    (b_refcnt b = 0 /\ b_locked b = false \/ 0 < b_refcnt b <= 4294967295 /\ b_dev b = ROOTDEV)%Z
}.

Definition bio_handle (c : bcache) (i : nat) (x : Z) : Prop :=
  exists b, bc_buf c !! i = Some b /\ caches b x /\ (0 < b_refcnt b)%Z.

Lemma scan_some p bufs order i b : scan p bufs order = Some (i, b) ->
  i ∈ order /\ bufs !! i = Some b /\ p b = true.
Proof.
  induction order as [|j order IH]; simpl; [done|].
  destruct (bufs !! j) as [bj|] eqn:Ej; [|done]. destruct (p bj) eqn:Ep; [|set_solver].
  intros [= -> ->]. set_solver.
Qed.

Lemma scan_none p bufs order : (forall i, i ∈ order -> i < length bufs) ->
  scan p bufs order = None -> forall i b, i ∈ order -> bufs !! i = Some b -> p b = false.
Proof.
  intros Hlt. induction order as [|j order IH]; simpl; [set_solver|].
  destruct (lookup_lt_is_Some_2 bufs j) as [bj Ej]; [apply Hlt; set_solver|]. rewrite Ej.
  destruct (p bj) eqn:Ep; [done|]. intros Hs i b Hi Hb.
  apply elem_of_cons in Hi as [->|Hi]; [congruence|]. apply (IH ltac:(set_solver) Hs i b Hi Hb).
Qed.

Section rep.
Context (c : bcache) (V : Z -> bytes) (Hd : held) (R : bio_rep c V Hd).

Lemma order_lt order i : ring c order -> i ∈ order <-> i < length (bc_buf c).
Proof. intros Ho. rewrite (ring_all _ _ Ho), (br_len _ _ _ R), elem_of_seq. lia. Qed.

Lemma scan_order_none p order0 order : ring c order0 -> (forall i, i ∈ order <-> i ∈ order0) ->
  scan p (bc_buf c) order = None -> forall i b, bc_buf c !! i = Some b -> p b = false.
Proof.
  intros Hr Ho Hs i b Hb. eapply scan_none; [|done| |done].
  - intros k Hk. by apply (order_lt order0), Ho.
  - apply Ho, order_lt; [done|]. by eapply lookup_lt_Some.
Qed.

(** A buffer of block [x], or a free one when the block is not cached, gets
    the block with new contents and references. *)
Lemma rep_set i b x n l d :
  bc_buf c !! i = Some b ->
  caches b x \/ (b_refcnt b = 0%Z /\ (forall j bj, bc_buf c !! j = Some bj -> ~ caches bj x)) ->
  (0 < n <= 4294967295)%Z ->
  bio_rep (with_buf c i (mk_buf true ROOTDEV x l n d)) (upd V x d) (<[x := (n, l)]> Hd).
Proof.
  intros Hi Hb Hn. assert (i < length (bc_buf c)) as Hlt by (by eapply lookup_lt_Some).
  assert (forall j bj, j <> i -> bc_buf c !! j = Some bj -> ~ caches bj x) as Hother.
  { intros j bj Hne Hj Hx. destruct Hb as [Hb|[_ Hb]]; [|by eapply Hb].
    apply Hne. by eapply (br_uniq _ _ _ R). }
  assert (forall j bj, <[i:=mk_buf true ROOTDEV x l n d]> (bc_buf c) !! j = Some bj ->
    j = i /\ bj = mk_buf true ROOTDEV x l n d \/ j <> i /\ bc_buf c !! j = Some bj) as Hcase.
  { intros j bj Hj. apply list_lookup_insert_Some in Hj as [(?&?&_)|[??]]; [left|right]; naive_solver. }
  split; cbn [with_buf bc_buf bc_disk].
  - rewrite length_insert. apply R.
  - destruct (br_ring _ _ _ R) as [order Ho]. exists order. by apply ring_with_buf.
  - intros j k bj bk y Hj Hk Cj Ck.
    destruct (Hcase _ _ Hj) as [[-> ->]|[Nj Hj']], (Hcase _ _ Hk) as [[-> ->]|[Nk Hk']]; [done|..].
    + destruct Cj as [_ <-]. by destruct (Hother k bk Nk Hk').
    + destruct Ck as [_ <-]. by destruct (Hother j bj Nj Hj').
    + by eapply (br_uniq _ _ _ R).
  - intros j bj y Hj Cj. destruct (Hcase _ _ Hj) as [[-> ->]|[Nj Hj']].
    + destruct Cj as [_ <-]. by rewrite upd_same.
    + rewrite upd_other; [by eapply (br_view _ _ _ R)|]. intros ->. by eapply Hother.
  - intros y Hy. destruct (decide (y = x)) as [->|]; [by rewrite lookup_insert_eq in Hy|].
    rewrite lookup_insert_ne in Hy by done. rewrite upd_other by done. by apply R.
  - intros y m k. destruct (decide (y = x)) as [->|Hne].
    + rewrite lookup_insert_eq. split.
      * intros [= <- <-]. exists i. eexists. rewrite list_lookup_insert_eq by done. split_and!; (done || lia).
      * intros (j & bj & Hj & Cj & <- & <- & _). destruct (Hcase _ _ Hj) as [[-> ->]|[Nj Hj']]; [done|].
        by destruct (Hother j bj Nj Hj').
    + rewrite lookup_insert_ne by done. rewrite (br_held _ _ _ R). split.
      * intros (j & bj & Hj & Cj & ?). exists j, bj. rewrite list_lookup_insert_ne; [done|].
        intros <-. simplify_eq. destruct Hb as [[_ Hb]|[Hb _]]; [by destruct Cj; congruence|]. lia.
      * intros (j & bj & Hj & Cj & ?). destruct (Hcase _ _ Hj) as [[-> ->]|[Nj Hj']]; [|by exists j, bj].
        destruct Cj as [_ Cj]. simpl in Cj. congruence.
  - intros j bj Hj. destruct (Hcase _ _ Hj) as [[-> ->]|[Nj Hj']]; [right; simpl; lia|].
    by apply (br_count _ _ _ R j).
Qed.

Lemma rep_ext V' : (forall b, V b = V' b) -> bio_rep c V' Hd.
Proof.
  intros E. destruct R as [? ? ? Hv Hdk ? ?]. split; auto.
  - intros i b x Hi Hc. rewrite <-E. by apply (Hv i).
  - intros x Hx. rewrite <-E. auto.
Qed.

(** The buffer with the last reference of block [x] becomes free. *)
Lemma rep_free i b x :
  bc_buf c !! i = Some b -> caches b x -> disk_block (bc_disk c) x = V x ->
  bio_rep (link_front (buf_unlink (with_buf c i (set_refcnt (set_locked b false) 0)) i) i) V (delete x Hd).
Proof.
  intros Hi Cb Hdx. assert (i < length (bc_buf c)) as Hlt by (by eapply lookup_lt_Some).
  set (b0 := set_refcnt (set_locked b false) 0).
  assert (forall j bj, <[i:=b0]> (bc_buf c) !! j = Some bj ->
    j = i /\ bj = b0 \/ j <> i /\ bc_buf c !! j = Some bj) as Hcase.
  { intros j bj Hj. apply list_lookup_insert_Some in Hj as [(?&?&_)|[??]]; [left|right]; naive_solver. }
  assert (forall j bj y, <[i:=b0]> (bc_buf c) !! j = Some bj -> caches bj y ->
    exists bj', bc_buf c !! j = Some bj' /\ caches bj' y /\ b_valid bj' = b_valid bj /\ b_data bj' = b_data bj) as Hold.
  { intros j bj y Hj Cj. destruct (Hcase _ _ Hj) as [[-> ->]|[_ Hj']]; [by exists b|by exists bj]. }
  split; cbn [link_front buf_unlink set_prev set_next with_buf bc_buf bc_disk].
  - rewrite length_insert. apply R.
  - destruct (br_ring _ _ _ R) as [order Ho].
    assert (i ∈ order) as Hin by (by apply (order_lt order)).
    apply list_elem_of_split in Hin as (l1 & l2 & ->).
    exists (i :: l1 ++ l2). by apply ring_front, ring_with_buf.
  - intros j k bj bk y Hj Hk Cj Ck.
    destruct (Hold _ _ _ Hj Cj) as (bj' & ? & ? & _), (Hold _ _ _ Hk Ck) as (bk' & ? & ? & _).
    by eapply (br_uniq _ _ _ R).
  - intros j bj y Hj Cj. destruct (Hold _ _ _ Hj Cj) as (bj' & Hj' & Cj' & <- & <-).
    by eapply (br_view _ _ _ R).
  - intros y Hy. destruct (decide (y = x)) as [->|]; [done|].
    rewrite lookup_delete_ne in Hy by done. by apply R.
  - intros y m k. destruct (decide (y = x)) as [->|Hne].
    + rewrite lookup_delete_eq. split; [done|].
      intros (j & bj & Hj & Cj & <- & <- & ?). destruct (Hcase _ _ Hj) as [[-> ->]|[Nj Hj']]; [simpl in *; lia|].
      destruct Nj. by eapply (br_uniq _ _ _ R).
    + rewrite lookup_delete_ne by done. rewrite (br_held _ _ _ R). split.
      * intros (j & bj & Hj & Cj & ?). exists j, bj. rewrite list_lookup_insert_ne; [done|].
        intros <-. simplify_eq. destruct Cb, Cj. congruence.
      * intros (j & bj & Hj & Cj & <- & <- & ?). destruct (Hcase _ _ Hj) as [[-> ->]|[Nj Hj']]; [simpl in *; lia|].
        by exists j, bj.
  - intros j bj Hj. destruct (Hcase _ _ Hj) as [[-> ->]|[Nj Hj']]; [by left|]. by apply (br_count _ _ _ R j).
Qed.
End rep.

(** ** Proofs: the operations *)
Section operations.
Context (c : bcache) (V : Z -> bytes) (Hd : held) (R : bio_rep c V Hd).

Lemma handle_lookup i x : bio_handle c i x ->
  exists b, bc_buf c !! i = Some b /\ caches b x /\ b_valid b = true /\ b_data b = V x /\
    Hd !! x = Some (b_refcnt b, b_locked b) /\ (0 < b_refcnt b <= 4294967295)%Z.
Proof.
  intros (b & Hi & Cb & Hp). exists b. destruct (br_view _ _ _ R i b x Hi Cb).
  split_and!; try done; [|by destruct (br_count _ _ _ R i b Hi); lia].
  apply (br_held _ _ _ R). by exists i, b.
Qed.

(** An update of the buffer [i] of block [x] that keeps its identity. *)
Lemma handle_update i b x b' : bc_buf c !! i = Some b -> caches b x ->
  b_dev b' = b_dev b -> b_blockno b' = b_blockno b -> (0 < b_refcnt b')%Z ->
  forall j y, bio_handle c j y -> bio_handle (with_buf c i b') j y.
Proof.
  intros Hi Cb Hdv Hbn Hr j y (bj & Hj & Cj & Hp). unfold bio_handle, with_buf. cbn [bc_buf].
  destruct (decide (j = i)) as [->|].
  - exists b'. rewrite list_lookup_insert_eq by (by eapply lookup_lt_Some).
    simplify_eq. unfold caches in *. split_and!; (done || by destruct Cj; congruence).
  - exists bj. by rewrite list_lookup_insert_ne.
Qed.

Lemma insert_mk i b x n l d : bc_buf c !! i = Some b -> caches b x -> b_valid b = true ->
  mk_buf (b_valid b) (b_dev b) (b_blockno b) l n d = mk_buf true ROOTDEV x l n d.
Proof. by intros _ [-> ->] ->. Qed.

Lemma bio_data_ok i x n : bio_handle c i x -> Hd !! x = Some (n, true) -> buf_data c i = Ret (V x).
Proof.
  intros Hh _. destruct (handle_lookup i x Hh) as (b & Hi & _ & _ & Hv & _).
  unfold buf_data. rewrite (load_ret _ _ _ Hi). cbn [obind]. by rewrite Hv.
Qed.

Lemma bio_set_data_ok i x n d : bio_handle c i x -> Hd !! x = Some (n, true) ->
  exists c', set_data c i d = Ret c' /\ bio_rep c' (upd V x d) Hd /\
    (forall j y, bio_handle c j y -> bio_handle c' j y) /\ bc_disk c' = bc_disk c /\ bc_trace c' = bc_trace c.
Proof.
  intros Hh Hx. destruct (handle_lookup i x Hh) as (b & Hi & Cb & Hv & _ & Hl & Hr).
  unfold set_data. rewrite (load_ret _ _ _ Hi). eexists. split; [done|]. split_and!; try done.
  - unfold set_bdata. rewrite (insert_mk i b x) by done.
    rewrite <-(insert_id Hd x _ Hl). by apply (rep_set _ _ _ R i b); [|left|].
  - intros j y. apply (handle_update i b x); try done. simpl. lia.
Qed.

Lemma bio_bwrite_ok i x n : bio_handle c i x -> Hd !! x = Some (n, true) ->
  exists c', bwrite c i = Ret c' /\ bio_rep c' V Hd /\
    (forall j y, bio_handle c j y -> bio_handle c' j y) /\
    bc_disk c' = <[x := V x]> (bc_disk c) /\ bc_trace c' = bc_trace c ++ [(x, V x)].
Proof.
  intros Hh Hx. destruct (handle_lookup i x Hh) as (b & Hi & Cb & Hv & Hdt & Hl & Hr).
  unfold bwrite. rewrite (load_ret _ _ _ Hi). cbn [obind]. rewrite Hl in Hx. injection Hx as _ Hlk.
  rewrite Hlk. cbn [negb]. destruct Cb as [_ Hbn]. rewrite Hbn, Hdt.
  eexists. split; [done|]. split; [|done]. destruct R as [? [order []] ? ? Hdk ? ?]. split; auto; [by exists order|]. cbn [bc_disk].
  intros y Hy. unfold disk_block. destruct (decide (y = x)) as [->|]; [by rewrite lookup_insert_eq|].
  rewrite lookup_insert_ne by done. by apply Hdk.
Qed.

Lemma u32_dec n : (0 < n <= 4294967295)%Z -> u32 (n - 1) = (n - 1)%Z.
Proof. intros. apply u32_small. lia. Qed.

Lemma bio_brelse_ok i x n : bio_handle c i x -> Hd !! x = Some (n, true) ->
  (n = 1%Z -> disk_block (bc_disk c) x = V x) ->
  exists c', brelse c i = Ret c' /\
    bio_rep c' V (if (n =? 1)%Z then delete x Hd else <[x := (n - 1, false)%Z]> Hd) /\
    (forall j y, (n = 1%Z -> y <> x) -> bio_handle c j y -> bio_handle c' j y) /\
    bc_disk c' = bc_disk c /\ bc_trace c' = bc_trace c.
Proof.
  intros Hh Hx Hdx. destruct (handle_lookup i x Hh) as (b & Hi & Cb & Hv & Hdt & Hl & Hr).
  rewrite Hl in Hx. injection Hx as Hn Hlk.
  unfold brelse. rewrite (load_ret _ _ _ Hi). cbn [obind]. rewrite Hlk. cbn [negb].
  rewrite u32_dec, Hn by lia. destruct (Z.eqb_spec n 1) as [->|Hne].
  - change (1 - 1)%Z with 0%Z. change (0 =? 0)%Z with true. eexists. split; [done|].
    split; [by apply (rep_free _ _ _ R i b x); auto|]. split; [|done].
    intros j y Hy (bj & Hj & Cj & Hp). exists bj. cbn [link_front buf_unlink set_prev set_next with_buf bc_buf].
    rewrite list_lookup_insert_ne; [done|]. intros <-. simplify_eq. apply Hy; [done|].
    destruct Cb, Cj. congruence.
  - rewrite (proj2 (Z.eqb_neq _ _)) by lia. eexists. split; [done|]. split_and!; try done.
    + unfold set_refcnt, set_locked. cbn [b_valid b_dev b_blockno b_locked b_data].
      rewrite (insert_mk i b x) by done.
      apply (rep_ext _ (upd V x (V x))); [|intros y; unfold upd; by case_decide; subst].
      rewrite <-Hdt. by apply (rep_set _ _ _ R i b); [|left|lia].
    + intros j y _. apply (handle_update i b x); try done. simpl. lia.
Qed.

Lemma bio_pin_ok i x n l m : bio_handle c i x -> Hd !! x = Some (n, l) -> (0 < m <= 4294967295)%Z ->
  let c' := with_buf c i (set_refcnt (default (mk_buf false 0 0 false 0 []) (bc_buf c !! i)) m) in
  bio_rep c' V (<[x := (m, l)]> Hd) /\ (forall j y, bio_handle c j y -> bio_handle c' j y).
Proof.
  intros Hh Hx Hm. destruct (handle_lookup i x Hh) as (b & Hi & Cb & Hv & Hdt & Hl & Hr).
  rewrite Hi. simpl. rewrite Hl in Hx. injection Hx as Hn Hlk. split.
  - unfold set_refcnt. rewrite (insert_mk i b x), Hlk by done.
    apply (rep_ext _ (upd V x (V x))); [|intros y; unfold upd; by case_decide; subst].
    rewrite <-Hdt. by apply (rep_set _ _ _ R i b); [|left|lia].
  - intros j y. apply (handle_update i b x); try done. simpl. lia.
Qed.
End operations.

Section reading.
Context (c : bcache) (V : Z -> bytes) (Hd : held) (R : bio_rep c V Hd).

Lemma matches_caches b x : matches ROOTDEV x b = true <-> caches b x.
Proof. unfold matches, caches. rewrite andb_true_iff, !Z.eqb_eq. done. Qed.

Lemma with_buf_twice i b1 b2 : with_buf (with_buf c i b1) i b2 = with_buf c i b2.
Proof. unfold with_buf. simpl. by rewrite list_insert_insert_eq. Qed.

(** Both branches end alike: the buffer [i] is locked, filled and handed out. *)
Lemma bread_finish i b0 b1 x :
  bc_buf c !! i = Some b0 -> caches b1 x -> b_locked b1 = false -> (0 < b_refcnt b1 <= 4294967295)%Z ->
  (b_valid b1 = true -> b_data b1 = V x) -> (b_valid b1 = false -> disk_block (bc_disk c) x = V x) ->
  caches b0 x \/ (b_refcnt b0 = 0%Z /\ forall j bj, bc_buf c !! j = Some bj -> ~ caches bj x) ->
  exists c', (let* '(c, i) := (let* c := acquiresleep (with_buf c i b1) i in Ret (c, i)) in
    let* b := load (bc_buf c) i in
    if b_valid b then Ret (c, i)
    else Ret (with_buf c i (mk_buf true (b_dev b) (b_blockno b) (b_locked b) (b_refcnt b)
                              (disk_block (bc_disk c) (b_blockno b))), i)) = Ret (c', i) /\
    bio_rep c' V (<[x := (b_refcnt b1, true)]> Hd) /\ bio_handle c' i x /\
    (forall j y, bio_handle c j y -> bio_handle c' j y) /\ bc_disk c' = bc_disk c /\ bc_trace c' = bc_trace c.
Proof.
  intros Hi [Hdv Hbn] Hlk Hr Hval Hinv Hsafe. set (bf := mk_buf true ROOTDEV x true (b_refcnt b1) (V x)).
  assert (i < length (bc_buf c)) as Hlt by (by eapply lookup_lt_Some).
  exists (with_buf c i bf). split.
  { unfold acquiresleep. rewrite (load_ret _ _ b1) by (unfold with_buf; simpl; by rewrite list_lookup_insert_eq).
    cbn [obind]. rewrite Hlk. rewrite with_buf_twice. cbn [obind].
    rewrite (load_ret _ _ (set_locked b1 true)) by (unfold with_buf; simpl; by rewrite list_lookup_insert_eq).
    cbn [obind]. change (b_valid (set_locked b1 true)) with (b_valid b1).
    destruct (b_valid b1) eqn:E.
    - unfold set_locked, bf. rewrite Hdv, Hbn, E, Hval by done. done.
    - rewrite with_buf_twice. unfold set_locked, bf. cbn [b_dev b_blockno b_locked b_refcnt with_buf bc_disk].
      rewrite Hdv, Hbn, Hinv by done. done. }
  split_and!; try done.
  - apply (rep_ext _ (upd V x (V x))); [|intros y; unfold upd; by case_decide; subst].
    by apply (rep_set _ _ _ R i b0).
  - exists bf. unfold with_buf. simpl. rewrite list_lookup_insert_eq by done. split_and!; (done || simpl; lia).
  - intros j y (bj & Hj & Cj & Hp). unfold bio_handle, with_buf. simpl. destruct (decide (j = i)) as [->|].
    + exists bf. rewrite list_lookup_insert_eq by done. simplify_eq.
      destruct Hsafe as [Hx|[? _]]; [|lia]. split_and!; [done| |simpl; lia].
      destruct Hx, Cj. split; [done|]. simpl. congruence.
    + exists bj. by rewrite list_lookup_insert_ne.
Qed.

Lemma count_in_use : (forall i b, bc_buf c !! i = Some b -> b_refcnt b <> 0%Z) -> NBUF <= size Hd.
Proof.
  intros Hall. rewrite <-(br_len _ _ _ R), <-(length_fmap b_blockno (bc_buf c)).
  rewrite <-size_dom. assert (NoDup (b_blockno <$> bc_buf c)) as Hnd.
  { apply NoDup_alt. intros i j x Hi Hj. rewrite !list_lookup_fmap in *.
    apply fmap_Some in Hi as (bi & Hi & ->), Hj as (bj & Hj & Ej).
    destruct (br_count _ _ _ R i bi Hi) as [[? _]|[_ ?]]; [by destruct (Hall i bi)|].
    destruct (br_count _ _ _ R j bj Hj) as [[? _]|[_ ?]]; [by destruct (Hall j bj)|].
    by apply (br_uniq _ _ _ R i j bi bj (b_blockno bi)). }
  rewrite <-(size_list_to_set (C := gset Z)) by done. apply subseteq_size. intros x.
  rewrite elem_of_list_to_set, elem_of_dom, list_elem_of_fmap. intros (b & -> & Hb).
  apply list_elem_of_lookup in Hb as [i Hi]. exists (b_refcnt b, b_locked b). apply (br_held _ _ _ R).
  exists i, b. destruct (br_count _ _ _ R i b Hi) as [[? _]|[? ?]]; [by destruct (Hall i b)|].
  split_and!; (done || lia).
Qed.

Lemma scan_free_none order : ring c order ->
  scan (fun b => (b_refcnt b =? 0)%Z) (bc_buf c) (reverse order) = None ->
  NBUF <= size Hd.
Proof.
  intros Ho Hs. apply count_in_use. intros i b Hb.
  eapply (scan_order_none c V Hd R) in Hs; [|exact Ho|intros k; apply elem_of_reverse|done].
  by apply Z.eqb_neq in Hs.
Qed.

Lemma bio_bread_ok x :
  (Hd !! x = None /\ size Hd < NBUF) \/ (exists n, Hd !! x = Some (n, false) /\ (n < 4294967295)%Z) ->
  exists c' i, bread c ROOTDEV x = Ret (c', i) /\
    bio_rep c' V (<[x := (default 0%Z (fst <$> Hd !! x) + 1, true)%Z]> Hd) /\
    bio_handle c' i x /\ (forall j y, bio_handle c j y -> bio_handle c' j y) /\
    bc_disk c' = bc_disk c /\ bc_trace c' = bc_trace c.
Proof.
  intros Hx. destruct (br_ring _ _ _ R) as [order Ho].
  unfold bread. rewrite (bget_walks c order) by (done || apply R). unfold bget_list.
  destruct (scan (matches ROOTDEV x) _ _) as [[i b]|] eqn:Es.
  - apply scan_some in Es as (_ & Hi & Hm). apply matches_caches in Hm.
    assert (Hd !! x = None /\ b_refcnt b = 0%Z /\ b_locked b = false \/
      Hd !! x = Some (b_refcnt b, false) /\ b_locked b = false /\ (0 < b_refcnt b < 4294967295)%Z) as Hb.
    { destruct (br_count _ _ _ R i b Hi) as [[Hz Hlk]|[Hz _]].
      - destruct Hx as [[? _]|(n & Hn & _)]; [by left|].
        apply (br_held _ _ _ R) in Hn as (j & bj & Hj & Cj & <- & _ & ?).
        assert (j = i) as -> by (by eapply (br_uniq _ _ _ R)). simplify_eq. lia.
      - assert (Hd !! x = Some (b_refcnt b, b_locked b)) as Hn.
        { apply (br_held _ _ _ R). exists i, b. split_and!; (done || lia). }
        destruct Hx as [[? _]|(n & Hn' & ?)]; [congruence|]. simplify_eq. right. naive_solver lia. }
    destruct (br_view _ _ _ R i b x Hi Hm) as [Hv Hdt].
    destruct (bread_finish i b (set_refcnt b (u32 (b_refcnt b + 1))) x) as (c' & E & Rc & Hh & Hm' & Hdk & Htr).
    + done.
    + done.
    + simpl. naive_solver.
    + simpl. rewrite u32_small; naive_solver lia.
    + done.
    + simpl. congruence.
    + by left.
    + exists c', i. split; [exact E|]. split_and!; try done.
      cbn [set_refcnt b_refcnt] in Rc. rewrite u32_small in Rc by naive_solver lia.
      destruct Hb as [(-> & Hz & _)|(-> & _)]; simpl; [by rewrite Hz in Rc|done].
  - assert (forall j bj, bc_buf c !! j = Some bj -> ~ caches bj x) as Hno.
    { intros j bj Hj Cj. apply matches_caches in Cj.
      eapply (scan_order_none c V Hd R) in Es; [|done..]. congruence. }
    assert (Hd !! x = None) as Hn.
    { destruct (Hd !! x) as [[n l]|] eqn:E; [|done].
      apply (br_held _ _ _ R) in E as (j & bj & Hj & Cj & _). by destruct (Hno j bj). }
    destruct Hx as [[_ Hsz]|(n & ? & _)]; [|congruence].
    destruct (scan (fun b => (b_refcnt b =? 0)%Z) _ _) as [[i b]|] eqn:Ef.
    2: { apply (scan_free_none order Ho) in Ef. lia. }
    apply scan_some in Ef as (_ & Hi & Hz). apply Z.eqb_eq in Hz.
    destruct (bread_finish i b (mk_buf false ROOTDEV x (b_locked b) 1 (b_data b)) x)
      as (c' & E & Rc & Hh & Hm' & Hdk & Htr).
    + done.
    + done.
    + simpl. destruct (br_count _ _ _ R i b Hi) as [[_ ?]|[? _]]; [done|lia].
    + simpl. lia.
    + done.
    + intros _. by apply (br_disk _ _ _ R).
    + by right.
    + exists c', i. split; [exact E|]. rewrite Hn. by split_and!.
Qed.

Lemma size_list_to_set_le (l : list Z) : size (list_to_set (C := gset Z) l) <= length l.
Proof.
  induction l as [|a l IH]; [done|]. simpl. rewrite size_union_alt, size_singleton.
  pose proof (subseteq_size (list_to_set (C := gset Z) l ∖ {[a]}) (list_to_set l) ltac:(set_solver)). lia.
Qed.

(** With [NBUF] blocks in use no buffer is free. *)
Lemma all_in_use : NBUF <= size Hd -> forall i b, bc_buf c !! i = Some b -> (0 < b_refcnt b)%Z.
Proof.
  intros Hsz i b Hi. destruct (Z.ltb_spec 0 (b_refcnt b)) as [|Hz]; [done|]. exfalso.
  set (P := fun b : buf => (0 < b_refcnt b)%Z).
  assert (length (filter P (bc_buf c)) < length (bc_buf c)) as Hlt.
  { apply (length_filter_lt P _ b); [by eapply list_elem_of_lookup_2|unfold P; lia]. }
  assert (dom Hd ⊆ list_to_set (b_blockno <$> filter P (bc_buf c))) as Hsub.
  { intros y. rewrite elem_of_dom, elem_of_list_to_set, list_elem_of_fmap. intros [[n l] Hy].
    apply (br_held _ _ _ R) in Hy as (j & bj & Hj & [_ Cj] & <- & _ & ?).
    exists bj. split; [done|]. apply list_elem_of_filter. split; [done|]. by eapply list_elem_of_lookup_2. }
  apply subseteq_size in Hsub. rewrite size_dom in Hsub.
  pose proof (size_list_to_set_le (b_blockno <$> filter P (bc_buf c))) as Hle.
  rewrite length_fmap in Hle. rewrite (br_len _ _ _ R) in Hlt. lia.
Qed.

Lemma bio_full x : NBUF <= size Hd -> Hd !! x = None -> bread c ROOTDEV x = Panic "bget: no buffers".
Proof.
  intros Hsz Hx. pose proof (all_in_use Hsz) as Hall.
  destruct (br_ring _ _ _ R) as [order Ho].
  unfold bread. rewrite (bget_walks c order) by (done || apply R). unfold bget_list.
  destruct (scan (matches ROOTDEV x) _ _) as [[i b]|] eqn:Es.
  { apply scan_some in Es as (_ & Hi & Hm). apply matches_caches in Hm.
    assert (Hd !! x = Some (b_refcnt b, b_locked b)); [|congruence].
    apply (br_held _ _ _ R). exists i, b. split_and!; try done. by eapply Hall. }
  destruct (scan (fun b => (b_refcnt b =? 0)%Z) _ _) as [[i b]|] eqn:Ef; [|done].
  apply scan_some in Ef as (_ & Hi & Hz). apply Z.eqb_eq in Hz. specialize (Hall i b Hi). lia.
Qed.
End reading.

Lemma binit_rep d : bio_rep (binit d) (disk_block d) ∅.
Proof.
  assert (forall i b, bc_buf (binit d) !! i = Some b -> b = mk_buf false 0 0 false 0 zero_block) as Hb.
  { intros i b Hi. unfold binit in Hi. rewrite (proj1 (foldl_link_front_rest _ _)) in Hi.
    apply lookup_replicate in Hi. naive_solver. }
  split.
  - done.
  - eexists. apply binit_ring.
  - intros i j bi bj x Hi _ [Hc _] _. by rewrite (Hb _ _ Hi) in Hc.
  - intros i b x Hi [Hc _]. by rewrite (Hb _ _ Hi) in Hc.
  - done.
  - intros x n l. rewrite lookup_empty. split; [done|].
    intros (i & b & Hi & [Hc _] & _). by rewrite (Hb _ _ Hi) in Hc.
  - intros i b Hi. rewrite (Hb _ _ Hi). by left.
Qed.

(** ** The cache implements the interface *)
#[global] Instance bio_laws : CacheLaws bcache.
Proof.
  refine {| c_rep := bio_rep; c_handle := bio_handle |}.
  - intros s V V' Hd E R. by apply (rep_ext s V Hd R).
  - intros s V Hd b R Hb. by apply (br_disk _ _ _ R).
  - intros d. split; [apply binit_rep|done].
  - intros s V Hd b R Hx. exact (bio_bread_ok s V Hd R b Hx).
  - intros s V Hd i b n R. exact (bio_data_ok s V Hd R i b n).
  - intros s V Hd i b _ (bf & Hi & [_ Cb] & _). cbn [c_blockno bio_cache]. unfold buf_blockno.
    rewrite (load_ret _ _ _ Hi). simpl. by rewrite Cb.
  - intros s V Hd i b n d R. exact (bio_set_data_ok s V Hd R i b n d).
  - intros s V Hd i b n R. exact (bio_bwrite_ok s V Hd R i b n).
  - intros s V Hd i b n R. exact (bio_brelse_ok s V Hd R i b n).
  - intros s V Hd i b n l R Hh Hb Hn. destruct (handle_lookup s V Hd R i b Hh) as (bf & Hi & _ & _ & _ & Hl & Hr).
    rewrite Hl in Hb. injection Hb as <- <-.
    destruct (bio_pin_ok s V Hd R i b (b_refcnt bf) (b_locked bf) (b_refcnt bf + 1) Hh Hl) as [Rc Hm]; [lia|].
    rewrite Hi in Rc, Hm. simpl in Rc, Hm. cbn [c_bpin bio_cache]. unfold bpin. rewrite (load_ret _ _ _ Hi).
    cbn [obind]. rewrite u32_small by lia. eexists. split; [done|]. by split_and!.
  - intros s V Hd i b n l R Hh Hb Hn. destruct (handle_lookup s V Hd R i b Hh) as (bf & Hi & _ & _ & _ & Hl & Hr).
    rewrite Hl in Hb. injection Hb as <- <-.
    destruct (bio_pin_ok s V Hd R i b (b_refcnt bf) (b_locked bf) (b_refcnt bf - 1) Hh Hl) as [Rc Hm]; [lia|].
    rewrite Hi in Rc, Hm. simpl in Rc, Hm. cbn [c_bunpin bio_cache]. unfold bunpin. rewrite (load_ret _ _ _ Hi).
    cbn [obind]. rewrite u32_small by lia. eexists. split; [done|]. by split_and!.
  - intros s V Hd b R. exact (bio_full s V Hd R b).
Defined.

(** ** Histories of the cache

    The users of the cache follow its rules: only the holder of the lock
    touches a buffer, and a buffer whose last reference goes has been written
    (the log pins the others). *)
Inductive bstep : bcache -> bcache -> Prop :=
| bs_bread c x c' i : (forall j b, bc_buf c !! j = Some b -> (b_refcnt b < 4294967295)%Z) ->
    bread c ROOTDEV x = Ret (c', i) -> bstep c c'
| bs_set_data c i b d c' : bc_buf c !! i = Some b -> b_locked b = true ->
    set_data c i d = Ret c' -> bstep c c'
| bs_bwrite c i c' : bwrite c i = Ret c' -> bstep c c'
| bs_brelse c i b c' : bc_buf c !! i = Some b ->
    (b_refcnt b = 1%Z -> disk_block (bc_disk c) (b_blockno b) = b_data b) ->
    brelse c i = Ret c' -> bstep c c'
| bs_bpin c i b c' : bc_buf c !! i = Some b -> (0 < b_refcnt b < 4294967295)%Z ->
    bpin c i = Ret c' -> bstep c c'
| bs_bunpin c i b c' : bc_buf c !! i = Some b -> (1 < b_refcnt b)%Z ->
    bunpin c i = Ret c' -> bstep c c'.

Lemma locked_handle c V Hd i b : bio_rep c V Hd -> bc_buf c !! i = Some b -> b_locked b = true ->
  bio_handle c i (b_blockno b) /\ Hd !! b_blockno b = Some (b_refcnt b, true).
Proof.
  intros R Hi Hl. destruct (br_count _ _ _ R i b Hi) as [[_ ?]|[? ?]]; [congruence|].
  assert (caches b (b_blockno b)) as Cb by done. split; [exists b; split_and!; (done || lia)|].
  apply (br_held _ _ _ R). exists i, b. split_and!; (done || lia).
Qed.

Lemma used_handle c V Hd i b : bio_rep c V Hd -> bc_buf c !! i = Some b -> (0 < b_refcnt b)%Z ->
  bio_handle c i (b_blockno b) /\ Hd !! b_blockno b = Some (b_refcnt b, b_locked b).
Proof.
  intros R Hi Hr. destruct (br_count _ _ _ R i b Hi) as [[? _]|[? ?]]; [lia|].
  assert (caches b (b_blockno b)) as Cb by done. split; [by exists b|].
  apply (br_held _ _ _ R). by exists i, b.
Qed.

(** A block whose buffer is locked is waited for. *)
Lemma bread_locked c V Hd x n : bio_rep c V Hd -> Hd !! x = Some (n, true) ->
  bread c ROOTDEV x = NoFuel.
Proof.
  intros R Hx. apply (br_held _ _ _ R) in Hx as (i & b & Hi & Cb & Hn & Hl & Hp).
  destruct (br_ring _ _ _ R) as [order Ho].
  unfold bread. rewrite (bget_walks c order) by (done || apply R). unfold bget_list.
  destruct (scan (matches ROOTDEV x) _ _) as [[j bj]|] eqn:Es.
  - apply scan_some in Es as (_ & Hj & Hm). apply matches_caches in Hm.
    assert (i = j) as <- by (by eapply (br_uniq _ _ _ R)). simplify_eq.
    unfold acquiresleep. rewrite (load_ret _ _ (set_refcnt b (u32 (b_refcnt b + 1)))).
    + simpl. by rewrite Hl.
    + unfold with_buf. simpl. apply list_lookup_insert_eq. by eapply lookup_lt_Some.
  - eapply (scan_order_none c V Hd R) in Es; [|exact Ho|done|exact Hi].
    apply matches_caches in Cb. congruence.
Qed.

Lemma bstep_rep c c' V Hd : bio_rep c V Hd -> bstep c c' -> exists V' Hd', bio_rep c' V' Hd'.
Proof.
  intros R Hs. destruct Hs as [c x c' i Hmax E|c i b d c' Hi Hl E|c i c' E|c i b c' Hi Hc E|c i b c' Hi Hr E|c i b c' Hi Hr E].
  - assert ((Hd !! x = None /\ size Hd < NBUF) \/ (exists n, Hd !! x = Some (n, false) /\ (n < 4294967295)%Z)) as Hx.
    { destruct (Hd !! x) as [[n [|]]|] eqn:Ex.
      - rewrite (bread_locked _ _ _ _ _ R Ex) in E. done.
      - right. exists n. split; [done|]. apply (br_held _ _ _ R) in Ex as (j & bj & Hj & _ & <- & _). eauto.
      - left. split; [done|]. destruct (Nat.lt_ge_cases (size Hd) NBUF); [done|].
        by rewrite (bio_full _ _ _ R) in E. }
    destruct (bio_bread_ok c V Hd R x Hx) as (c2 & i2 & E2 & R2 & _). rewrite E in E2. simplify_eq. eauto.
  - destruct (locked_handle _ _ _ _ _ R Hi Hl) as [Hh Hx].
    destruct (bio_set_data_ok c V Hd R i _ _ d Hh Hx) as (c2 & E2 & R2 & _). rewrite E in E2. simplify_eq. eauto.
  - assert (exists b, bc_buf c !! i = Some b /\ b_locked b = true) as (b & Hi & Hl).
    { unfold bwrite, load, from_option in E. destruct (bc_buf c !! i) as [b|]; [|done]. cbn [obind] in E.
      destruct (b_locked b) eqn:?; [by exists b|done]. }
    destruct (locked_handle _ _ _ _ _ R Hi Hl) as [Hh Hx].
    destruct (bio_bwrite_ok c V Hd R i _ _ Hh Hx) as (c2 & E2 & R2 & _). rewrite E in E2. simplify_eq. eauto.
  - assert (b_locked b = true) as Hl.
    { unfold brelse in E. rewrite (load_ret _ _ _ Hi) in E. cbn [obind] in E. by destruct (b_locked b). }
    destruct (locked_handle _ _ _ _ _ R Hi Hl) as [Hh Hx].
    destruct (handle_lookup _ _ _ R _ _ Hh) as (b2 & Hi2 & _ & _ & Hv & _). simplify_eq. rewrite Hv in Hc.
    destruct (bio_brelse_ok c V Hd R i _ _ Hh Hx Hc) as (c2 & E2 & R2 & _). rewrite E in E2. simplify_eq. eauto.
  - destruct (used_handle _ _ _ _ _ R Hi) as [Hh Hx]; [lia|].
    destruct (bio_pin_ok c V Hd R i _ _ _ (b_refcnt b + 1) Hh Hx) as [R2 _]; [lia|].
    unfold bpin in E. rewrite (load_ret _ _ _ Hi) in E. rewrite Hi in R2. simpl in *.
    rewrite u32_small in E by lia. simplify_eq. eauto.
  - destruct (used_handle _ _ _ _ _ R Hi) as [Hh Hx]; [lia|].
    destruct (br_count _ _ _ R i b Hi) as [[? _]|[? _]]; [lia|].
    destruct (bio_pin_ok c V Hd R i _ _ _ (b_refcnt b - 1) Hh Hx) as [R2 _]; [lia|].
    unfold bunpin in E. rewrite (load_ret _ _ _ Hi) in E. rewrite Hi in R2. simpl in *.
    rewrite u32_small in E by lia. simplify_eq. eauto.
Qed.

Lemma reachable_rep d c : rtc bstep (binit d) c -> exists V Hd, bio_rep c V Hd.
Proof.
  intros Hr. assert (exists V Hd, bio_rep (binit d) V Hd) as Hi by eauto using binit_rep.
  induction Hr as [|c1 c2 c3 Hs _ IH]; [done|]. destruct Hi as (V & Hd & R).
  by apply IH, (bstep_rep c1 c2 V Hd).
Qed.

(** The first buffer of a walk that satisfies the test. *)
Lemma scan_cases p bufs order : (forall i, i ∈ order -> i < length bufs) ->
  scan p bufs order = None \/
  exists i b l1 l2, order = l1 ++ i :: l2 /\ bufs !! i = Some b /\ p b = true /\
    (forall j bj, j ∈ l1 -> bufs !! j = Some bj -> p bj = false) /\ scan p bufs order = Some (i, b).
Proof.
  induction order as [|k order IH]; intros Hlt; [by left|]. simpl.
  destruct (lookup_lt_is_Some_2 bufs k) as [bk Hk]; [apply Hlt; set_solver|]. rewrite Hk.
  destruct (p bk) eqn:Hp.
  - right. exists k, bk, [], order. split_and!; try done. set_solver.
  - destruct IH as [IH|(i & b & l1 & l2 & -> & Hi & Hb & Hl & Hs)]; [set_solver|by left|].
    right. exists i, b, (k :: l1), l2. split_and!; try done. intros j bj Hj.
    apply elem_of_cons in Hj as [->|Hj]; [congruence|eauto].
Qed.

(** C26.  In every history of the cache that follows its rules (a buffer is
    changed only by the holder of its lock, and the last reference to it goes
    only when the disk has its contents), the [next] pointers lead from the
    head through all 30 buffers, each once, back to the head, and the [prev]
    pointers through the same buffers in the opposite order; no block is cached
    in two buffers; a locked buffer has a reference; and a buffer without
    references that holds a block is valid and has the bytes of the disk, so
    recycling it loses nothing. *)
Theorem cache_invariant (d : gmap Z bytes) (c : bcache) (Hr : rtc bstep (binit d) c) :
  (exists order, order ≡ₚ seq 0 NBUF /\
     link_path (fun b => bc_next c !!! b) HEAD order HEAD /\
     link_path (fun b => bc_prev c !!! b) HEAD (reverse order) HEAD) /\
  (forall i j bi bj x, bc_buf c !! i = Some bi -> bc_buf c !! j = Some bj ->
     caches bi x -> caches bj x -> i = j) /\
  (forall i b, bc_buf c !! i = Some b -> b_locked b = true -> (0 < b_refcnt b)%Z) /\
  (forall i b, bc_buf c !! i = Some b -> b_refcnt b = 0%Z -> b_dev b = ROOTDEV ->
     b_valid b = true /\ b_data b = disk_block (bc_disk c) (b_blockno b)).
Proof.
  destruct (reachable_rep d c Hr) as (V & Hd & R). split_and!.
  - destruct (br_ring _ _ _ R) as [order []]. by exists order.
  - apply R.
  - intros i b Hi Hl. destruct (br_count _ _ _ R i b Hi) as [[_ ?]|[? _]]; [congruence|lia].
  - intros i b Hi Hz Hdv.
    destruct (br_view _ _ _ R i b (b_blockno b) Hi) as [Hv Hdt]; [done|]. split; [done|].
    rewrite Hdt. symmetry. apply (br_disk _ _ _ R). destruct (Hd !! b_blockno b) as [[n l]|] eqn:E; [|done].
    apply (br_held _ _ _ R) in E as (j & bj & Hj & Cj & <- & _ & ?).
    assert (j = i) as -> by (by eapply (br_uniq _ _ _ R)). simplify_eq. lia.
Qed.

(** Block 33 is read into buffer 0 (the first in is the last out) and
    released: buffer 0 moves from the end of the list to its front. *)
Definition after_read : bcache :=
  match bread (binit ∅) ROOTDEV 33 with Ret (c, _) => c | _ => binit ∅ end.
Definition after_release : bcache :=
  match brelse after_read 0 with Ret c => c | _ => after_read end.

Lemma cache_invariant_witness :
  bc_next after_release !!! HEAD = 0 /\ bc_next after_release !!! 0 = 29 /\
  bc_prev after_release !!! 29 = 0 /\ bc_prev after_release !!! HEAD = 1 /\
  exists order, order ≡ₚ seq 0 NBUF /\
    link_path (fun b => bc_next after_release !!! b) HEAD order HEAD /\
    link_path (fun b => bc_prev after_release !!! b) HEAD (reverse order) HEAD.
Proof.
  split; [reflexivity|]. split; [reflexivity|]. split; [reflexivity|]. split; [reflexivity|].
  apply (cache_invariant ∅).
  eapply rtc_l; [apply (bs_bread _ 33 after_read 0)|
    eapply rtc_l; [apply (bs_brelse after_read 0 (mk_buf true ROOTDEV 33 true 1 zero_block) after_release)|apply rtc_refl]].
  - intros j b Hj. unfold binit in Hj. rewrite (proj1 (foldl_link_front_rest _ _)) in Hj.
    apply lookup_replicate in Hj as [-> _]. reflexivity.
  - vm_compute. reflexivity.
  - vm_compute. reflexivity.
  - intros _. vm_compute. reflexivity.
  - vm_compute. reflexivity.
Defined.

(**  A block that is not cached goes into the free buffer that was released
    longest ago: all buffers behind it in the list are in use; a block that is
    cached is found whatever its place; and [bread] panics only when every
    buffer is in use. *)
Theorem bget_recycles_lru (d : gmap Z bytes) (c : bcache) (dev blockno : Z)
    (Hr : rtc bstep (binit d) c)
    (Hmiss : forall j b, bc_buf c !! j = Some b -> matches dev blockno b = false) :
  exists order, ring c order /\
  ((forall j b, bc_buf c !! j = Some b -> b_refcnt b <> 0%Z) /\ bget c dev blockno = Panic "bget: no buffers" \/
  exists i b l1 l2 c', order = l1 ++ i :: l2 /\ bc_buf c !! i = Some b /\ b_refcnt b = 0%Z /\
    (forall j bj, j ∈ l2 -> bc_buf c !! j = Some bj -> b_refcnt bj <> 0%Z) /\
    bget c dev blockno = Ret (c', i) /\
    bc_buf c' = <[i := mk_buf false dev blockno true 1 (b_data b)]> (bc_buf c)).
Proof.
  destruct (reachable_rep d c Hr) as (V & Hd & R). destruct (br_ring _ _ _ R) as [order Ho].
  exists order. split; [done|].
  assert (scan (matches dev blockno) (bc_buf c) order = None) as Em.
  { destruct (scan _ _ _) as [[i b]|] eqn:E; [|done]. apply scan_some in E as (_ & Hi & Hm).
    by rewrite (Hmiss i b Hi) in Hm. }
  rewrite (bget_walks c order) by (done || apply R). unfold bget_list. rewrite Em.
  destruct (scan_cases (fun b => (b_refcnt b =? 0)%Z) (bc_buf c) (reverse order)) as [Hs|(i & b & l1 & l2 & Hl12 & Hi & Hb & Hl & Hs)].
  { intros i Hi. rewrite elem_of_reverse in Hi. by apply (order_lt _ _ _ R order). }
  - left. rewrite Hs. split; [|done]. intros j bj Hj.
    eapply (scan_order_none c V Hd R) in Hs; [|exact Ho|intros k; apply elem_of_reverse|exact Hj]. by apply Z.eqb_neq.
  - right. rewrite Hs. exists i, b, (reverse l2), (reverse l1).
    assert (i < length (bc_buf c)) as Hlt by (by eapply lookup_lt_Some).
    apply Z.eqb_eq in Hb. assert (b_locked b = false) as Hlk.
    { destruct (br_count _ _ _ R i b Hi) as [[_ ?]|[? _]]; [done|lia]. }
    unfold acquiresleep. rewrite (load_ret _ _ (mk_buf false dev blockno (b_locked b) 1 (b_data b)))
      by (unfold with_buf; simpl; by rewrite list_lookup_insert_eq).
    cbn [obind b_locked]. rewrite Hlk. cbn [obind]. eexists. split_and!.
    + rewrite <-(reverse_involutive order), Hl12, reverse_app, reverse_cons, <-(assoc_L app). done.
    + done.
    + done.
    + intros j bj Hj Hbj. rewrite elem_of_reverse in Hj. apply Z.eqb_neq. eauto.
    + done.
    + rewrite with_buf_twice. done.
Qed.

Lemma bget_recycles_lru_witness :
  exists i b c', bc_buf (binit ∅) !! i = Some b /\ bget (binit ∅) ROOTDEV 33 = Ret (c', i).
Proof.
  destruct (bget_recycles_lru ∅ (binit ∅) ROOTDEV 33)
    as (order & _ & [[Hall _]|(i & b & l1 & l2 & c' & _ & H2 & _ & _ & H3 & _)]).
  - apply rtc_refl.
  - intros j b Hj. unfold binit in Hj. rewrite (proj1 (foldl_link_front_rest _ _)) in Hj.
    apply lookup_replicate in Hj as [-> _]. reflexivity.
  - exfalso. exact (Hall 0 _ eq_refl eq_refl).
  - exists i, b, c'. split; [exact H2|exact H3].
Defined.
