(* ===== verification/Log.v ===== *)
(** * The log of the file system (xv6/kernel/log.c)

    The log is proved against the interface [BlockCache].  The header block is
    read and written as the C structure, four bytes per number.  A call that
    would sleep in [begin_op] returns [None].

    A crash keeps the writes that reached the disk: a prefix of the trace of
    the cache.  [logical] is what the recovery makes of a disk, so that the
    theorems say that a crash at any moment leaves the contents before or
    after the transaction, also when the recovery itself is interrupted. *)

From S2P Require Import Prelude.
From S2P Require Import Bytes.
From S2P Require Import Bio.

Definition MAXOPBLOCKS : Z := 10.
Definition LOGBLOCKS : nat := 30.

Record logheader : Type := mk_lh { lh_n : Z; lh_block : list Z }.

Record log : Type := mk_log {
  lg_start : Z;
  lg_outstanding : Z;
  lg_committing : bool;
  lg_dev : Z;
  lg_ncommit : Z;
  lg_lh : logheader
}.

(** The static variable before [initlog]. *)
Definition log0 : log := mk_log 0 0 false 0 0 (mk_lh 0 (replicate LOGBLOCKS 0%Z)).

Definition set_n (l : log) (n : Z) : log :=
  mk_log (lg_start l) (lg_outstanding l) (lg_committing l) (lg_dev l) (lg_ncommit l)
    (mk_lh n (lh_block (lg_lh l))).

(** ** The header block as a structure of 32-bit integers *)
Definition hdr_n (data : bytes) : Z := wrap32 (get_le 4 data 0).
Definition hdr_block (data : bytes) (i : nat) : Z := wrap32 (get_le 4 data (4 + 4 * i)).

(** [hb->block[i] = log.lh.block[i]] for [k] indices from [i] *)
Fixpoint fill_header (data : bytes) (blocks : list Z) (i k : nat) : outcome bytes :=
  match k with
  | O => Ret data
  | S k =>
      let* b := load blocks i in
      fill_header (put_le 4 data (4 + 4 * i) (u32 b)) blocks (S i) k
  end.

(** [log.lh.block[i] = lh->block[i]] *)
Fixpoint fill_memory (data : bytes) (blocks : list Z) (i k : nat) : outcome (list Z) :=
  match k with
  | O => Ret blocks
  | S k =>
      let* blocks := store blocks i (hdr_block data i) in
      fill_memory data blocks (S i) k
  end.

Section log.
Context {S : Type} `{BlockCache S}.

(** The loop of [install_trans] from [tail], [k] blocks to go. *)
Fixpoint install_loop (recovering : bool) (l : log) (s : S) (tail k : nat) : outcome S :=
  match k with
  | O => Ret s
  | Datatypes.S k =>
      let* '(s, lbuf) := c_bread s (lg_start l + Z.of_nat tail + 1) in
      let* b := load (lh_block (lg_lh l)) tail in
      let* '(s, dbuf) := c_bread s b in
      let* data := c_data s lbuf in
      let* s := c_set_data s dbuf data in
      let* s := c_bwrite s dbuf in
      let* s := if recovering then Ret s else c_bunpin s dbuf in
      let* s := c_brelse s lbuf in
      let* s := c_brelse s dbuf in
      install_loop recovering l s (Datatypes.S tail) k
  end.

Definition install_trans (recovering : bool) (l : log) (s : S) : outcome S :=
  install_loop recovering l s 0 (Z.to_nat (lh_n (lg_lh l))).

Definition read_head (l : log) (s : S) : outcome (log * S) :=
  let* '(s, buf) := c_bread s (lg_start l) in
  let* data := c_data s buf in
  let n := hdr_n data in
  let* blocks := fill_memory data (lh_block (lg_lh l)) 0 (Z.to_nat n) in
  let* s := c_brelse s buf in
  Ret (mk_log (lg_start l) (lg_outstanding l) (lg_committing l) (lg_dev l) (lg_ncommit l) (mk_lh n blocks), s).

Definition write_head (l : log) (s : S) : outcome S :=
  let* '(s, buf) := c_bread s (lg_start l) in
  let* data := c_data s buf in
  let data := put_le 4 data 0 (u32 (lh_n (lg_lh l))) in
  let* data := fill_header data (lh_block (lg_lh l)) 0 (Z.to_nat (lh_n (lg_lh l))) in
  let* s := c_set_data s buf data in
  let* s := c_bwrite s buf in
  c_brelse s buf.

Definition recover_from_log (l : log) (s : S) : outcome (log * S) :=
  let* '(l, s) := read_head l s in
  let* s := install_trans true l s in
  let l := set_n l 0 in
  let* s := write_head l s in
  Ret (l, s).

Definition initlog (dev logstart : Z) (s : S) : outcome (log * S) :=
  recover_from_log (mk_log logstart 0 false dev 0 (mk_lh 0 (replicate LOGBLOCKS 0%Z))) s.

(** One round of the loop; [None] when the caller has to sleep. *)
Definition begin_op (l : log) : option log :=
  if lg_committing l then None
  else if (Z.of_nat LOGBLOCKS <? lh_n (lg_lh l) + (lg_outstanding l + 1) * MAXOPBLOCKS)%Z then None
  else Some (mk_log (lg_start l) (lg_outstanding l + 1) (lg_committing l) (lg_dev l) (lg_ncommit l) (lg_lh l)).

Fixpoint write_log_loop (l : log) (s : S) (tail k : nat) : outcome S :=
  match k with
  | O => Ret s
  | Datatypes.S k =>
      let* '(s, to) := c_bread s (lg_start l + Z.of_nat tail + 1) in
      let* b := load (lh_block (lg_lh l)) tail in
      let* '(s, from) := c_bread s b in
      let* data := c_data s from in
      let* s := c_set_data s to data in
      let* s := c_bwrite s to in
      let* s := c_brelse s from in
      let* s := c_brelse s to in
      write_log_loop l s (Datatypes.S tail) k
  end.

Definition write_log (l : log) (s : S) : outcome S := write_log_loop l s 0 (Z.to_nat (lh_n (lg_lh l))).

Definition commit (l : log) (s : S) : outcome (log * S) :=
  if (0 <? lh_n (lg_lh l))%Z then
    let* s := write_log l s in
    let* s := write_head l s in
    let* s := install_trans false l s in
    let l := set_n l 0 in
    let* s := write_head l s in
    Ret (l, s)
  else Ret (l, s).

Definition end_op (l : log) (s : S) : outcome (log * S) :=
  let out := (lg_outstanding l - 1)%Z in
  if lg_committing l then Panic "log.committing"
  else if (out =? 0)%Z then
    let l := mk_log (lg_start l) out true (lg_dev l) (lg_ncommit l) (lg_lh l) in
    let* '(l, s) := commit l s in
    Ret (mk_log (lg_start l) (lg_outstanding l) false (lg_dev l) (lg_ncommit l + 1) (lg_lh l), s)
  else Ret (mk_log (lg_start l) out false (lg_dev l) (lg_ncommit l) (lg_lh l), s).

(** The search for the block among the first [n] entries. *)
Fixpoint find_block (blocks : list Z) (blockno : Z) (i k : nat) : outcome nat :=
  match k with
  | O => Ret i
  | Datatypes.S k =>
      let* b := load blocks i in
      if (b =? blockno)%Z then Ret i else find_block blocks blockno (Datatypes.S i) k
  end.

(** The entry in the log, and whether it is new. *)
Definition log_absorb (l : log) (blockno : Z) : outcome (log * bool) :=
  let n := lh_n (lg_lh l) in
  if (Z.of_nat LOGBLOCKS <=? n)%Z then Panic "too big a transaction"
  else if (lg_outstanding l <? 1)%Z then Panic "log_write outside of trans"
  else
    let* i := find_block (lh_block (lg_lh l)) blockno 0 (Z.to_nat n) in
    let* blocks := store (lh_block (lg_lh l)) i blockno in
    let fresh := (Z.of_nat i =? n)%Z in
    let l' n := mk_log (lg_start l) (lg_outstanding l) (lg_committing l) (lg_dev l) (lg_ncommit l) (mk_lh n blocks) in
    Ret (l' (if fresh then n + 1 else n)%Z, fresh).

Definition log_write (l : log) (s : S) (i : nat) : outcome (log * S) :=
  let* blockno := c_blockno s i in
  let* '(l, fresh) := log_absorb l blockno in
  let* s := if fresh : bool then c_bpin s i else Ret s in
  Ret (l, s).

(** One round of [sys_sync]: must the caller wait, and for which commit? *)
Definition sys_sync_wait (l : log) : option Z :=
  if lg_committing l || (0 <? lg_outstanding l)%Z then Some (lg_ncommit l + 1)%Z else None.
Definition sys_sync_done (l : log) (n : Z) : bool := negb (lg_ncommit l <? n)%Z.

End log.

(** ** Writes to the disk *)
Definition apply_writes (d : gmap Z bytes) (ws : list (Z * bytes)) : gmap Z bytes :=
  foldl (fun d w => <[w.1 := w.2]> d) d ws.

(** The last write to a block. *)
Definition last_write (ws : list (Z * bytes)) (b : Z) : option bytes :=
  foldl (fun o w => if decide (w.1 = b) then Some w.2 else o) None ws.

Lemma apply_writes_app d ws1 ws2 : apply_writes d (ws1 ++ ws2) = apply_writes (apply_writes d ws1) ws2.
Proof. apply foldl_app. Qed.

Lemma last_write_snoc ws w b :
  last_write (ws ++ [w]) b = if decide (w.1 = b) then Some w.2 else last_write ws b.
Proof. unfold last_write. by rewrite foldl_app. Qed.

Lemma lookup_apply_writes d ws b :
  apply_writes d ws !! b = match last_write ws b with Some x => Some x | None => d !! b end.
Proof.
  induction ws as [|w ws IH] using rev_ind; [done|].
  rewrite apply_writes_app, last_write_snoc. simpl.
  destruct (decide (w.1 = b)) as [<-|Hne]; [by rewrite lookup_insert_eq|by rewrite lookup_insert_ne].
Qed.

Lemma last_write_none ws b : last_write ws b = None <-> b ∉ ws.*1.
Proof.
  induction ws as [|w ws IH] using rev_ind; [by split; [intros _; apply not_elem_of_nil|]|].
  rewrite last_write_snoc, fmap_app, not_elem_of_app, <-IH. cbn [fmap list_fmap].
  rewrite list_elem_of_singleton.
  destruct (decide (w.1 = b)) as [<-|]; naive_solver.
Qed.

Lemma last_write_take ws k b x : last_write (take k ws) b = Some x -> exists y, last_write ws b = Some y.
Proof.
  intros E. destruct (last_write ws b) as [y|] eqn:E2; [by exists y|].
  apply last_write_none in E2. rewrite (proj2 (last_write_none (take k ws) b)) in E; [done|].
  intros Hb. apply E2. rewrite fmap_take in Hb. eapply elem_of_subseteq; [apply subseteq_take|done].
Qed.

(** Writing again after a crash in the middle of the same writes. *)
Lemma apply_writes_redo d ws k : apply_writes (apply_writes d (take k ws)) ws = apply_writes d ws.
Proof.
  apply map_eq. intros b. rewrite !lookup_apply_writes.
  destruct (last_write ws b) eqn:E; [done|].
  destruct (last_write (take k ws) b) eqn:E2; [|done].
  destruct (last_write_take _ _ _ _ E2) as [y Hy]. congruence.
Qed.

Lemma disk_block_insert d b x c : disk_block (<[b := x]> d) c = upd (disk_block d) b x c.
Proof.
  unfold disk_block, upd. destruct (decide (c = b)) as [->|]; [by rewrite lookup_insert_eq|].
  by rewrite lookup_insert_ne.
Qed.

Lemma disk_block_apply_out d ws b : b ∉ ws.*1 -> disk_block (apply_writes d ws) b = disk_block d b.
Proof.
  intros Hb. unfold disk_block. rewrite lookup_apply_writes.
  by rewrite (proj2 (last_write_none ws b) Hb).
Qed.

Lemma lookup_apply_app_out d ws ws' b : b ∉ ws'.*1 ->
  disk_block (apply_writes d (ws ++ ws')) b = disk_block (apply_writes d ws) b.
Proof. intros. rewrite apply_writes_app. by apply disk_block_apply_out. Qed.

(** The same writes as they change what the users of the cache see. *)
Definition view_writes (V : Z -> bytes) (ws : list (Z * bytes)) : Z -> bytes :=
  foldl (fun V w => upd V w.1 w.2) V ws.

Lemma view_writes_disk ws : forall d V b, disk_block d b = V b ->
  disk_block (apply_writes d ws) b = view_writes V ws b.
Proof.
  induction ws as [|w ws IH]; intros d V b E; [done|]. simpl. apply IH.
  rewrite disk_block_insert. unfold upd. by case_decide.
Qed.

Lemma view_writes_out ws : forall V b, b ∉ ws.*1 -> view_writes V ws b = V b.
Proof.
  induction ws as [|w ws IH]; intros V b Hb; [done|]. simpl in *.
  rewrite IH by set_solver. apply upd_other. set_solver.
Qed.

(** ** The header block *)
Definition hdr_list (data : bytes) : list Z := hdr_block data <$> seq 0 (Z.to_nat (hdr_n data)).

Definition is_int (z : Z) : Prop := (-2147483648 <= z <= INT_MAX)%Z.

Lemma wrap32_u32 z : is_int z -> wrap32 (u32 z) = z.
Proof.
  unfold is_int, wrap32, u32, INT_MAX. intros.
  rewrite Z.add_mod_idemp_l by lia. rewrite Z.mod_small; lia.
Qed.

Lemma fill_header_ok blocks k : forall data i, i + k <= length blocks -> 4 + 4 * (i + k) <= length data ->
  exists data', fill_header data blocks i k = Ret data' /\ length data' = length data /\
    (forall o m, o + m <= 4 + 4 * i -> get_le m data' o = get_le m data o) /\
    (forall j b, i <= j < i + k -> blocks !! j = Some b -> is_int b -> hdr_block data' j = b).
Proof.
  induction k as [|k IH]; intros data i Hb Hd; cbn [fill_header].
  { exists data. split_and!; try done. intros; lia. }
  destruct (lookup_lt_is_Some_2 blocks i) as [b Eb]; [lia|]. rewrite (load_ret _ _ _ Eb). cbn [obind].
  assert (length (put_le 4 data (4 + 4 * i) (u32 b)) = length data) as Hlen by (apply length_put_le; lia).
  destruct (IH (put_le 4 data (4 + 4 * i) (u32 b)) (S i)) as (data' & -> & Hl & Hk & Hj); [lia..|].
  exists data'. split_and!; [done|congruence|..].
  - intros o m Ho. rewrite Hk by lia. apply get_put_le_ne; lia.
  - intros j c Hij Hc Hi. destruct (decide (j = i)) as [->|]; [|apply Hj; [lia|done..]].
    simplify_eq. unfold hdr_block. rewrite Hk by lia. rewrite get_put_le; [by apply wrap32_u32|lia|].
    apply u32_range.
Qed.

Lemma hdr_list_eq data bs : hdr_n data = Z.of_nat (length bs) ->
  (forall i b, bs !! i = Some b -> hdr_block data i = b) -> hdr_list data = bs.
Proof.
  intros En Hb. unfold hdr_list. rewrite En, Nat2Z.id. apply list_eq. intros i.
  rewrite list_lookup_fmap. destruct (Nat.lt_ge_cases i (length bs)) as [Hi|Hi].
  - rewrite lookup_seq_lt by done. simpl. destruct (lookup_lt_is_Some_2 bs i Hi) as [b Eb].
    by rewrite Eb, (Hb i b Eb).
  - rewrite lookup_seq_ge, lookup_ge_None_2 by done. done.
Qed.

Lemma fill_memory_ok data k : forall blocks i, i + k <= length blocks ->
  exists blocks', fill_memory data blocks i k = Ret blocks' /\ length blocks' = length blocks /\
    forall j, blocks' !! j = if decide (i <= j < i + k) then Some (hdr_block data j) else blocks !! j.
Proof.
  induction k as [|k IH]; intros blocks i Hb; cbn [fill_memory].
  { exists blocks. split_and!; try done. intros j. rewrite decide_False by lia. done. }
  rewrite store_ret by lia. cbn [obind].
  destruct (IH (<[i := hdr_block data i]> blocks) (S i)) as (blocks' & -> & Hl & Hj);
    [rewrite length_insert; lia|].
  exists blocks'. split_and!; [done|by rewrite Hl, length_insert|]. intros j. rewrite Hj.
  destruct (decide (j = i)) as [->|Hne].
  - rewrite decide_False, decide_True by lia. apply list_lookup_insert_eq. lia.
  - rewrite list_lookup_insert_ne by done. by repeat case_decide; try lia.
Qed.

(** ** The loops over the log, against the laws of the cache *)

(** Blocks outside the log. *)
Definition home (st : Z) (b : Z) : Prop := (b < st \/ st + Z.of_nat LOGBLOCKS < b)%Z.

(** What [write_log] and [install_trans] write for the blocks [bs] from entry
    [i] on. *)
Fixpoint log_writes (V : Z -> bytes) (st : Z) (i : nat) (bs : list Z) : list (Z * bytes) :=
  match bs with
  | [] => []
  | b :: bs => (st + Z.of_nat i + 1, V b)%Z :: log_writes V st (S i) bs
  end.
Fixpoint home_writes (V : Z -> bytes) (st : Z) (i : nat) (bs : list Z) : list (Z * bytes) :=
  match bs with
  | [] => []
  | b :: bs => (b, V (st + Z.of_nat i + 1)%Z) :: home_writes V st (S i) bs
  end.

(** What recovery makes of a disk. *)
Definition logical (st : Z) (d : gmap Z bytes) : gmap Z bytes :=
  apply_writes d (home_writes (disk_block d) st 0 (hdr_list (disk_block d st))).

Lemma log_writes_ext V V' st bs : Forall (fun b => V b = V' b) bs -> forall i,
  log_writes V st i bs = log_writes V' st i bs.
Proof. induction 1 as [|b bs E _ IH]; intros i; simpl; [done|]. by rewrite E, IH. Qed.

Lemma home_writes_ext V V' st bs : forall i,
  (forall j, i <= j < i + length bs -> V (st + Z.of_nat j + 1)%Z = V' (st + Z.of_nat j + 1)%Z) ->
  home_writes V st i bs = home_writes V' st i bs.
Proof.
  induction bs as [|b bs IH]; intros i E; simpl in *; [done|]. rewrite (E i) by lia.
  f_equal. apply IH. intros. apply E. lia.
Qed.

Lemma home_writes_dom V st bs : forall i, (home_writes V st i bs).*1 = bs.
Proof. induction bs as [|b bs IH]; intros i; simpl; [done|]. by rewrite IH. Qed.

Lemma log_writes_dom V st bs : forall i x, x ∈ (log_writes V st i bs).*1 ->
  (st + Z.of_nat i < x <= st + Z.of_nat (i + length bs))%Z.
Proof.
  induction bs as [|b bs IH]; intros i x; simpl; [by rewrite elem_of_nil|].
  rewrite elem_of_cons. intros [->|Hx]; [lia|]. apply IH in Hx. lia.
Qed.

(** Writes that all carry the contents [W]. *)
Lemma apply_writes_carry W ws : Forall (fun w => w.2 = W w.1) ws -> forall d b, b ∈ ws.*1 ->
  disk_block (apply_writes d ws) b = W b.
Proof.
  induction ws as [|w ws IH] using rev_ind; intros Hw d b; [by rewrite elem_of_nil|].
  apply Forall_app in Hw as [Hw Hl]. rewrite Forall_singleton in Hl.
  rewrite apply_writes_app, fmap_app, elem_of_app. simpl. rewrite disk_block_insert. unfold upd.
  case_decide as E; [by subst|]. rewrite list_elem_of_singleton. naive_solver.
Qed.

Lemma home_writes_carry V W st bs : forall i,
  (forall j b, bs !! j = Some b -> V (st + Z.of_nat (i + j) + 1)%Z = W b) ->
  Forall (fun w => w.2 = W w.1) (home_writes V st i bs).
Proof.
  induction bs as [|b bs IH]; intros i E; simpl; constructor.
  - simpl. rewrite <-(E 0 b eq_refl). do 2 f_equal. lia.
  - apply IH. intros j c Hj. rewrite <-(E (S j) c Hj). do 2 f_equal. lia.
Qed.

Lemma log_writes_lookup V st bs : forall i d j b, bs !! j = Some b ->
  disk_block (apply_writes d (log_writes V st i bs)) (st + Z.of_nat (i + j) + 1) = V b.
Proof.
  induction bs as [|c bs IH]; intros i d j b Hj; [done|]. destruct j as [|j]; simpl in *.
  - simplify_eq. rewrite disk_block_apply_out.
    + rewrite disk_block_insert, Nat.add_0_r. apply upd_same.
    + intros Hin. apply log_writes_dom in Hin. lia.
  - replace (i + S j) with (S i + j) by lia. by apply IH.
Qed.

(** [recoverable st W d]: the header of the disk [d] is sound and recovery
    brings the blocks outside the log to the contents [W]. *)
Record recoverable (st : Z) (W : Z -> bytes) (d : gmap Z bytes) : Prop := {
  rc_len : length (disk_block d st) = BSIZE;
  rc_n : (0 <= hdr_n (disk_block d st))%Z;
  rc_cap : length (hdr_list (disk_block d st)) <= LOGBLOCKS;
  rc_home : Forall (home st) (hdr_list (disk_block d st));
  rc_view : forall b, home st b -> disk_block (logical st d) b = W b
}.

Lemma hdr_list_zero h : hdr_n h = 0%Z -> hdr_list h = [].
Proof. intros E. unfold hdr_list. by rewrite E. Qed.

(** A disk whose header is empty. *)
Lemma recoverable_empty st W d : length (disk_block d st) = BSIZE -> hdr_n (disk_block d st) = 0%Z ->
  (forall b, home st b -> disk_block d b = W b) -> recoverable st W d.
Proof.
  intros Hl Hn Hv. pose proof (hdr_list_zero _ Hn) as E.
  split; [done|lia|by rewrite E; apply Nat.le_0_l|by rewrite E|]. unfold logical. by rewrite E.
Qed.

Lemma take_app_cases {A} (a b : list A) k :
  (exists j, take k (a ++ b) = take j a) \/ (exists j, take k (a ++ b) = a ++ take j b).
Proof.
  destruct (Nat.le_ge_cases k (length a)).
  - left. exists k. by rewrite take_app_le.
  - right. exists (k - length a). by rewrite take_app_ge.
Qed.

Section recoverable.
Context (st : Z) (W : Z -> bytes) (d : gmap Z bytes) (R : recoverable st W d).
Let hw := home_writes (disk_block d) st 0 (hdr_list (disk_block d st)).

Lemma install_keeps k b : ~ home st b -> disk_block (apply_writes d (take k hw)) b = disk_block d b.
Proof.
  intros Hb. apply disk_block_apply_out. intros Hin. apply Hb. rewrite fmap_take in Hin.
  eapply elem_of_subseteq in Hin; [|apply subseteq_take]. unfold hw in Hin. rewrite home_writes_dom in Hin.
  pose proof (rc_home _ _ _ R) as Hh. rewrite Forall_forall in Hh. by apply Hh.
Qed.

(** A crash in the middle of the installation. *)
Lemma install_prefix k : recoverable st W (apply_writes d (take k hw)).
Proof.
  assert (disk_block (apply_writes d (take k hw)) st = disk_block d st) as Est.
  { apply install_keeps. unfold home. lia. }
  destruct R as [Hl Hn Hc Hh Hv]. split; [by rewrite Est..|]. intros b Hb. rewrite <-Hv by done.
  unfold logical. rewrite Est, (home_writes_ext _ (disk_block d)); [fold hw; by rewrite apply_writes_redo|].
  intros j Hj. apply install_keeps. unfold home. lia.
Qed.

(** The header is cleared after the installation. *)
Lemma install_end h : length h = BSIZE -> hdr_n h = 0%Z ->
  recoverable st W (apply_writes d (hw ++ [(st, h)])).
Proof.
  intros Hl Hn. assert (disk_block (apply_writes d (hw ++ [(st, h)])) st = h) as Est.
  { rewrite apply_writes_app. simpl. rewrite disk_block_insert. apply upd_same. }
  apply recoverable_empty; rewrite ?Est; [done..|]. intros b Hb. rewrite <-(rc_view _ _ _ R b Hb).
  rewrite apply_writes_app. simpl. rewrite disk_block_insert, upd_other; [done|]. unfold home in Hb. lia.
Qed.

Lemma install_crash h k : length h = BSIZE -> hdr_n h = 0%Z ->
  recoverable st W (apply_writes d (take k (hw ++ [(st, h)]))).
Proof.
  intros Hl Hn. destruct (take_app_cases hw [(st, h)] k) as [[j ->]|[[|j] ->]].
  - apply install_prefix.
  - rewrite app_nil_r. rewrite <-(take_ge hw (length hw)) by done. apply install_prefix.
  - simpl. rewrite take_nil. by apply install_end.
Qed.
End recoverable.

Section laws.
Context {S : Type} `{CacheLaws S}.
Implicit Types (s : S) (V : Z -> bytes) (Hd : held) (l : log).

(** [s'] comes from [s] by the disk writes [ws]; its users see [V'] and hold
    [Hd']. *)
Record wrote s s' (ws : list (Z * bytes)) V' Hd' : Prop := {
  wr_rep : c_rep s' V' Hd';
  wr_disk : c_disk s' = apply_writes (c_disk s) ws;
  wr_trace : c_trace s' = c_trace s ++ ws
}.

Lemma wrote_refl s V Hd : c_rep s V Hd -> wrote s s [] V Hd.
Proof. intros. split; [done|done|by rewrite app_nil_r]. Qed.

Lemma wrote_trans s s1 s2 ws1 ws2 V1 V2 H1 H2 :
  wrote s s1 ws1 V1 H1 -> wrote s1 s2 ws2 V2 H2 -> wrote s s2 (ws1 ++ ws2) V2 H2.
Proof.
  intros [? D1 T1] [? D2 T2]. split; [done|by rewrite D2, D1, apply_writes_app|].
  by rewrite T2, T1, (assoc_L app).
Qed.

(** The laws of [bread] and [brelse] by the number of references. *)
Definition keeps s s' : Prop := forall j x, c_handle s j x -> c_handle s' j x.

Lemma bread_new s V Hd b : c_rep s V Hd -> Hd !! b = None -> size Hd < NBUF ->
  exists s' i, c_bread s b = Ret (s', i) /\ c_rep s' V (<[b := (1%Z, true)]> Hd) /\ c_handle s' i b /\
    keeps s s' /\ c_disk s' = c_disk s /\ c_trace s' = c_trace s.
Proof.
  intros R Hb Hsz. destruct (c_bread_ok s V Hd b R) as (s' & i & E & R' & K); [by left|].
  rewrite Hb in R'. by exists s', i.
Qed.

Lemma bread_again s V Hd b n : c_rep s V Hd -> Hd !! b = Some (n, false) -> (n < 4294967295)%Z ->
  exists s' i, c_bread s b = Ret (s', i) /\ c_rep s' V (<[b := ((n + 1)%Z, true)]> Hd) /\ c_handle s' i b /\
    keeps s s' /\ c_disk s' = c_disk s /\ c_trace s' = c_trace s.
Proof.
  intros R Hb Hn. destruct (c_bread_ok s V Hd b R) as (s' & i & E & R' & K); [right; by exists n|].
  rewrite Hb in R'. by exists s', i.
Qed.

Lemma brelse_last s V Hd i b : c_rep s V Hd -> c_handle s i b -> Hd !! b = Some (1%Z, true) ->
  disk_block (c_disk s) b = V b ->
  exists s', c_brelse s i = Ret s' /\ c_rep s' V (delete b Hd) /\
    (forall j x, x <> b -> c_handle s j x -> c_handle s' j x) /\ c_disk s' = c_disk s /\ c_trace s' = c_trace s.
Proof.
  intros R Hh Hb Hd'. destruct (c_brelse_ok s V Hd i b 1 R Hh Hb) as (s' & E & R' & K & D & T); [done|].
  exists s'. split_and!; try done. intros j x Hx. by apply K.
Qed.

Lemma brelse_more s V Hd i b n : c_rep s V Hd -> c_handle s i b -> Hd !! b = Some (n, true) -> n <> 1%Z ->
  exists s', c_brelse s i = Ret s' /\ c_rep s' V (<[b := ((n - 1)%Z, false)]> Hd) /\
    keeps s s' /\ c_disk s' = c_disk s /\ c_trace s' = c_trace s.
Proof.
  intros R Hh Hb Hn. destruct (c_brelse_ok s V Hd i b n R Hh Hb) as (s' & E & R' & K & D & T); [done|].
  rewrite (proj2 (Z.eqb_neq _ _) Hn) in R'. exists s'. split_and!; try done.
  intros j x Hj. by apply K.
Qed.

(** A buffer that nobody uses is read, changed, written and released. *)
Lemma update_block s V Hd b d :
  c_rep s V Hd -> Hd !! b = None -> size Hd < NBUF ->
  exists s1 i, c_bread s b = Ret (s1, i) /\ c_data s1 i = Ret (V b) /\
    exists s2, c_set_data s1 i d = Ret s2 /\ exists s3, c_bwrite s2 i = Ret s3 /\
    exists s4, c_brelse s3 i = Ret s4 /\ wrote s s4 [(b, d)] (upd V b d) Hd.
Proof.
  intros R Hb Hsz.
  destruct (bread_new s V Hd b R Hb Hsz) as (s1 & i & E1 & R1 & H1 & _ & D1 & T1).
  assert (<[b:=(1%Z, true)]> Hd !! b = Some (1%Z, true)) as Eb by apply lookup_insert_eq.
  destruct (c_set_data_ok s1 V _ i b _ d R1 H1 Eb) as (s2 & E2 & R2 & K2 & D2 & T2).
  destruct (c_bwrite_ok s2 _ _ i b _ R2 (K2 _ _ H1) Eb) as (s3 & E3 & R3 & K3 & D3 & T3).
  destruct (brelse_last s3 _ _ i b R3 (K3 _ _ (K2 _ _ H1)) Eb) as (s4 & E4 & R4 & _ & D4 & T4).
  { rewrite D3, disk_block_insert. apply upd_same. }
  rewrite upd_same in D3, T3. rewrite delete_insert_id in R4 by done.
  exists s1, i. split; [done|]. split; [by eapply c_data_ok|].
  exists s2. split; [done|]. exists s3. split; [done|]. exists s4. split; [done|].
  split; [done|by rewrite D4, D3, D2, D1|by rewrite T4, T3, T2, T1].
Qed.

Lemma write_log_step l s V Hd tail k b n :
  c_rep s V Hd -> lh_block (lg_lh l) !! tail = Some b ->
  Hd !! (lg_start l + Z.of_nat tail + 1)%Z = None -> Hd !! b = Some (n, false) ->
  (0 < n < 4294967295)%Z -> size Hd < NBUF ->
  exists s', write_log_loop l s tail (Datatypes.S k) = write_log_loop l s' (Datatypes.S tail) k /\
    wrote s s' [(lg_start l + Z.of_nat tail + 1, V b)%Z] (upd V (lg_start l + Z.of_nat tail + 1) (V b)) Hd.
Proof.
  intros R Eb Hto Hb Hn Hsz. cbn [write_log_loop]. set (to := (lg_start l + Z.of_nat tail + 1)%Z) in *.
  assert (to <> b) as Hne by (intros E; rewrite E in Hto; congruence).
  destruct (bread_new s V Hd to R Hto Hsz) as (s1 & i & -> & R1 & H1 & _ & D1 & T1). cbn [obind].
  rewrite (load_ret _ _ _ Eb). cbn [obind].
  assert (<[to:=(1%Z, true)]> Hd !! b = Some (n, false)) as Eb1 by (by rewrite lookup_insert_ne).
  destruct (bread_again s1 V _ b n R1 Eb1) as (s2 & j & -> & R2 & H2 & K2 & D2 & T2); [lia|]. cbn [obind].
  assert (<[b:=((n + 1)%Z, true)]> (<[to:=(1%Z, true)]> Hd) !! b = Some ((n + 1)%Z, true)) as Eb2 by apply lookup_insert_eq.
  assert (<[b:=((n + 1)%Z, true)]> (<[to:=(1%Z, true)]> Hd) !! to = Some (1%Z, true)) as Et2.
  { rewrite lookup_insert_ne by done. apply lookup_insert_eq. }
  rewrite (c_data_ok s2 _ _ j b _ R2 H2 Eb2). cbn [obind].
  destruct (c_set_data_ok s2 _ _ i to _ (V b) R2 (K2 _ _ H1) Et2) as (s3 & -> & R3 & K3 & D3 & T3). cbn [obind].
  destruct (c_bwrite_ok s3 _ _ i to _ R3 (K3 _ _ (K2 _ _ H1)) Et2) as (s4 & -> & R4 & K4 & D4 & T4). cbn [obind].
  destruct (brelse_more s4 _ _ j b _ R4 (K4 _ _ (K3 _ _ H2)) Eb2) as (s5 & -> & R5 & K5 & D5 & T5); [lia|]. cbn [obind].
  rewrite insert_insert_eq in R5.
  replace (n + 1 - 1)%Z with n in R5 by lia.
  assert (<[b:=(n, false)]> (<[to:=(1%Z, true)]> Hd) = <[to:=(1%Z, true)]> Hd) as E5 by (by apply insert_id).
  rewrite E5 in R5.
  destruct (brelse_last s5 _ _ i to R5) as (s6 & -> & R6 & _ & D6 & T6).
  - apply K5, K4, K3, K2, H1.
  - apply lookup_insert_eq.
  - rewrite D5, D4, disk_block_insert. apply upd_same.
  - cbn [obind]. rewrite delete_insert_id in R6 by done. rewrite upd_same in D4, T4.
    exists s6. split; [done|].
    split; [done|by rewrite D6, D5, D4, D3, D2, D1|by rewrite T6, T5, T4, T3, T2, T1].
Qed.

Lemma write_log_loop_ok l Hd bs : forall s V tail,
  c_rep s V Hd ->
  (forall i b, bs !! i = Some b -> lh_block (lg_lh l) !! (tail + i) = Some b) ->
  Forall (fun b => home (lg_start l) b /\ Hd !! b = Some (1%Z, false)) bs ->
  (forall x, (lg_start l <= x <= lg_start l + Z.of_nat LOGBLOCKS)%Z -> Hd !! x = None) ->
  tail + length bs <= LOGBLOCKS -> size Hd < NBUF ->
  exists s', write_log_loop l s tail (length bs) = Ret s' /\
    wrote s s' (log_writes V (lg_start l) tail bs) (view_writes V (log_writes V (lg_start l) tail bs)) Hd.
Proof.
  induction bs as [|b bs IH]; intros s V tail R Hbs Hp Hlog Hlen Hsz.
  { exists s. split; [done|by apply wrote_refl]. }
  apply Forall_cons in Hp as [[Hh Hb] Hp]. cbn [length log_writes] in *.
  pose proof (Hbs 0 b eq_refl) as E0. rewrite Nat.add_0_r in E0.
  destruct (write_log_step l s V Hd tail (length bs) b 1 R E0) as (s1 & -> & W1); [apply Hlog; lia|done|lia|done|].
  destruct (IH s1 _ (Datatypes.S tail) (wr_rep _ _ _ _ _ W1)) as (s' & E & W2); [|done|done|lia|done|].
  { intros i x Hi. rewrite <-(Hbs (Datatypes.S i) x Hi). f_equal. lia. }
  exists s'. split; [done|].
  rewrite (log_writes_ext _ V) in W2; [by apply (wrote_trans _ _ _ _ _ _ _ _ _ W1 W2)|].
  eapply Forall_impl; [exact Hp|]. intros x [Hx _]. apply upd_other. unfold home in Hx. lia.
Qed.

Lemma install_step l s V Hd tail k b :
  c_rep s V Hd -> lh_block (lg_lh l) !! tail = Some b ->
  Hd !! (lg_start l + Z.of_nat tail + 1)%Z = None -> Hd !! b = Some (1%Z, false) -> size Hd < NBUF ->
  exists s', install_loop false l s tail (Datatypes.S k) = install_loop false l s' (Datatypes.S tail) k /\
    wrote s s' [(b, V (lg_start l + Z.of_nat tail + 1)%Z)]
      (upd V b (V (lg_start l + Z.of_nat tail + 1)%Z)) (delete b Hd).
Proof.
  intros R Eb Hto Hb Hsz. cbn [install_loop]. set (to := (lg_start l + Z.of_nat tail + 1)%Z) in *.
  assert (to <> b) as Hne by (intros E; rewrite E in Hto; congruence).
  destruct (bread_new s V Hd to R Hto Hsz) as (s1 & i & -> & R1 & H1 & _ & D1 & T1). cbn [obind].
  rewrite (load_ret _ _ _ Eb). cbn [obind].
  assert (<[to:=(1%Z, true)]> Hd !! b = Some (1%Z, false)) as Eb1 by (by rewrite lookup_insert_ne).
  destruct (bread_again s1 V _ b 1 R1 Eb1) as (s2 & j & -> & R2 & H2 & K2 & D2 & T2); [lia|]. cbn [obind].
  change (1 + 1)%Z with 2%Z in R2.
  set (H2' := <[b:=(2%Z, true)]> (<[to:=(1%Z, true)]> Hd)) in *.
  assert (H2' !! b = Some (2%Z, true)) as Eb2 by apply lookup_insert_eq.
  assert (H2' !! to = Some (1%Z, true)) as Et2.
  { unfold H2'. rewrite lookup_insert_ne by done. apply lookup_insert_eq. }
  rewrite (c_data_ok s2 _ _ i to _ R2 (K2 _ _ H1) Et2). cbn [obind].
  destruct (c_set_data_ok s2 _ _ j b _ (V to) R2 H2 Eb2) as (s3 & -> & R3 & K3 & D3 & T3). cbn [obind].
  destruct (c_bwrite_ok s3 _ _ j b _ R3 (K3 _ _ H2) Eb2) as (s4 & -> & R4 & K4 & D4 & T4). cbn [obind].
  destruct (c_bunpin_ok s4 _ _ j b _ _ R4 (K4 _ _ (K3 _ _ H2)) Eb2) as (s5 & -> & R5 & K5 & D5 & T5); [lia|]. cbn [obind].
  change (2 - 1)%Z with 1%Z in R5. rewrite upd_same in D4, T4.
  assert (<[b:=(1%Z, true)]> H2' !! to = Some (1%Z, true)) as Et5 by (by rewrite lookup_insert_ne).
  destruct (brelse_last s5 _ _ i to R5 (K5 _ _ (K4 _ _ (K3 _ _ (K2 _ _ H1)))) Et5) as (s6 & -> & R6 & K6 & D6 & T6).
  { rewrite D5, D4, D3, D2, D1, disk_block_insert, !upd_other by done. by apply (c_clean s V Hd). }
  cbn [obind].
  destruct (brelse_last s6 _ _ j b R6) as (s7 & -> & R7 & _ & D7 & T7).
  { apply K6; [done|]. apply K5, K4, K3, H2. }
  { rewrite lookup_delete_ne by done. apply lookup_insert_eq. }
  { rewrite D6, D5, D4, disk_block_insert. by rewrite !upd_same. }
  cbn [obind]. exists s7. split; [done|]. split.
  - replace (delete b Hd) with (delete b (delete to (<[b:=(1%Z, true)]> H2'))); [done|].
    unfold H2'. rewrite insert_insert_eq, (insert_insert_ne _ b to) by done.
    rewrite delete_insert_id by (by rewrite lookup_insert_ne). apply delete_insert_eq.
  - by rewrite D7, D6, D5, D4, D3, D2, D1.
  - by rewrite T7, T6, T5, T4, T3, T2, T1.
Qed.

Lemma install_loop_ok l bs : forall s V Hd tail,
  c_rep s V Hd ->
  (forall i b, bs !! i = Some b -> lh_block (lg_lh l) !! (tail + i) = Some b) ->
  NoDup bs -> Forall (fun b => home (lg_start l) b /\ Hd !! b = Some (1%Z, false)) bs ->
  (forall x, (lg_start l <= x <= lg_start l + Z.of_nat LOGBLOCKS)%Z -> Hd !! x = None) ->
  tail + length bs <= LOGBLOCKS -> size Hd < NBUF ->
  exists s' Hd', install_loop false l s tail (length bs) = Ret s' /\
    wrote s s' (home_writes V (lg_start l) tail bs) (view_writes V (home_writes V (lg_start l) tail bs)) Hd' /\
    forall x, Hd' !! x = if decide (x ∈ bs) then None else Hd !! x.
Proof.
  induction bs as [|b bs IH]; intros s V Hd tail R Hbs Hnd Hp Hlog Hlen Hsz.
  { exists s, Hd. split_and!; [done|by apply wrote_refl|done]. }
  apply Forall_cons in Hp as [[Hh Hb] Hp]. apply NoDup_cons in Hnd as [Hnb Hnd]. cbn [length home_writes] in *.
  pose proof (Hbs 0 b eq_refl) as E0. rewrite Nat.add_0_r in E0.
  destruct (install_step l s V Hd tail (length bs) b R E0) as (s1 & -> & W1); [apply Hlog; lia|done..|].
  assert (size (delete b Hd) < NBUF) as Hsz'.
  { rewrite map_size_delete, Hb. simpl. lia. }
  destruct (IH s1 _ _ (Datatypes.S tail) (wr_rep _ _ _ _ _ W1)) as (s' & Hd' & E & W2 & Hx); [|done| | |lia|done|].
  { intros i x Hi. rewrite <-(Hbs (Datatypes.S i) x Hi). f_equal. lia. }
  { rewrite Forall_forall in Hp |- *. intros x Hx. rewrite lookup_delete_ne by (by intros ->). by apply Hp. }
  { intros x Hx. destruct (decide (x = b)) as [->|]; [apply lookup_delete_eq|].
    rewrite lookup_delete_ne by done. by apply Hlog. }
  exists s', Hd'. split; [done|]. split.
  - rewrite (home_writes_ext _ V) in W2; [by apply (wrote_trans _ _ _ _ _ _ _ _ _ W1 W2)|].
    intros j Hj. apply upd_other. unfold home in Hh. lia.
  - intros x. rewrite Hx. destruct (decide (x = b)) as [->|Hne].
    + rewrite decide_False by done. rewrite decide_True by set_solver. apply lookup_delete_eq.
    + rewrite lookup_delete_ne by done. repeat case_decide; set_solver.
Qed.

(** The same loop on a freshly booted cache. *)
Lemma recover_step l s V tail k b :
  c_rep s V ∅ -> lh_block (lg_lh l) !! tail = Some b -> (lg_start l + Z.of_nat tail + 1)%Z <> b ->
  exists s', install_loop true l s tail (Datatypes.S k) = install_loop true l s' (Datatypes.S tail) k /\
    wrote s s' [(b, V (lg_start l + Z.of_nat tail + 1)%Z)] (upd V b (V (lg_start l + Z.of_nat tail + 1)%Z)) ∅.
Proof.
  intros R Eb Hne. cbn [install_loop]. set (to := (lg_start l + Z.of_nat tail + 1)%Z) in *.
  destruct (bread_new s V ∅ to R) as (s1 & i & -> & R1 & H1 & _ & D1 & T1); [done|rewrite map_size_empty; unfold NBUF; lia|].
  cbn [obind]. rewrite (load_ret _ _ _ Eb). cbn [obind].
  destruct (bread_new s1 V _ b R1) as (s2 & j & -> & R2 & H2 & K2 & D2 & T2).
  { by rewrite lookup_insert_ne. }
  { rewrite map_size_insert_None by done. rewrite map_size_empty. unfold NBUF. lia. }
  cbn [obind]. set (H2' := <[b:=(1%Z, true)]> (<[to:=(1%Z, true)]> ∅)) in *.
  assert (H2' !! b = Some (1%Z, true)) as Eb2 by apply lookup_insert_eq.
  assert (H2' !! to = Some (1%Z, true)) as Et2.
  { unfold H2'. rewrite lookup_insert_ne by done. apply lookup_insert_eq. }
  rewrite (c_data_ok s2 _ _ i to _ R2 (K2 _ _ H1) Et2). cbn [obind].
  destruct (c_set_data_ok s2 _ _ j b _ (V to) R2 H2 Eb2) as (s3 & -> & R3 & K3 & D3 & T3). cbn [obind].
  destruct (c_bwrite_ok s3 _ _ j b _ R3 (K3 _ _ H2) Eb2) as (s4 & -> & R4 & K4 & D4 & T4). cbn [obind].
  rewrite upd_same in D4, T4.
  destruct (brelse_last s4 _ _ i to R4 (K4 _ _ (K3 _ _ (K2 _ _ H1))) Et2) as (s5 & -> & R5 & K5 & D5 & T5).
  { rewrite D4, D3, D2, D1, disk_block_insert, !upd_other by done. by apply (c_clean s V ∅). }
  cbn [obind].
  destruct (brelse_last s5 _ _ j b R5) as (s6 & -> & R6 & _ & D6 & T6).
  { apply K5; [done|]. apply K4, K3, H2. }
  { by rewrite lookup_delete_ne. }
  { rewrite D5, D4, disk_block_insert. by rewrite !upd_same. }
  cbn [obind]. exists s6. split; [done|]. split.
  - replace (delete b (delete to H2')) with (∅ : held) in R6; [done|].
    unfold H2'. rewrite (insert_insert_ne _ b to) by done.
    rewrite (delete_insert_id _ to) by (by rewrite lookup_insert_ne). by rewrite delete_insert_id.
  - by rewrite D6, D5, D4, D3, D2, D1.
  - by rewrite T6, T5, T4, T3, T2, T1.
Qed.

Lemma recover_loop_ok l bs : forall s V tail,
  c_rep s V ∅ ->
  (forall i b, bs !! i = Some b -> lh_block (lg_lh l) !! (tail + i) = Some b) ->
  Forall (home (lg_start l)) bs -> tail + length bs <= LOGBLOCKS ->
  exists s', install_loop true l s tail (length bs) = Ret s' /\
    wrote s s' (home_writes V (lg_start l) tail bs) (view_writes V (home_writes V (lg_start l) tail bs)) ∅.
Proof.
  induction bs as [|b bs IH]; intros s V tail R Hbs Hh Hlen.
  { exists s. split; [done|by apply wrote_refl]. }
  apply Forall_cons in Hh as [Hb Hh]. cbn [length home_writes] in *. unfold home in Hb.
  pose proof (Hbs 0 b eq_refl) as E0. rewrite Nat.add_0_r in E0.
  destruct (recover_step l s V tail (length bs) b R E0) as (s1 & -> & W1); [lia|].
  destruct (IH s1 _ (Datatypes.S tail) (wr_rep _ _ _ _ _ W1)) as (s' & E & W2); [|done|lia|].
  { intros i x Hi. rewrite <-(Hbs (Datatypes.S i) x Hi). f_equal. lia. }
  exists s'. split; [done|].
  rewrite (home_writes_ext _ V) in W2; [by apply (wrote_trans _ _ _ _ _ _ _ _ _ W1 W2)|].
  intros j Hj. apply upd_other. lia.
Qed.

(** [write_head] puts the list of the log into the header block. *)
Lemma write_head_ok l s V Hd bs :
  c_rep s V Hd -> Hd !! lg_start l = None -> size Hd < NBUF -> length (V (lg_start l)) = BSIZE ->
  lh_n (lg_lh l) = Z.of_nat (length bs) -> length bs <= LOGBLOCKS ->
  (forall i b, bs !! i = Some b -> lh_block (lg_lh l) !! i = Some b) ->
  Forall is_int bs -> length bs <= length (lh_block (lg_lh l)) ->
  exists s' h, write_head l s = Ret s' /\ wrote s s' [(lg_start l, h)] (upd V (lg_start l) h) Hd /\
    length h = BSIZE /\ hdr_list h = bs /\ hdr_n h = Z.of_nat (length bs).
Proof.
  intros R Hst Hsz Hlen Hn Hbs Hbl Hint Hcap. unfold write_head. rewrite Hn, Nat2Z.id.
  set (data := put_le 4 (V (lg_start l)) 0 (u32 (Z.of_nat (length bs)))).
  unfold LOGBLOCKS in Hbs. assert (length data = BSIZE) as Hdl by (unfold data; rewrite length_put_le; rewrite Hlen; unfold BSIZE; lia).
  destruct (fill_header_ok (lh_block (lg_lh l)) (length bs) data 0) as (h & Eh & Hl & Hk & Hj);
    [lia|rewrite Hdl; unfold BSIZE; lia|].
  destruct (update_block s V Hd (lg_start l) h R Hst Hsz) as (s1 & i & -> & E2 & s2 & E3 & s3 & E4 & s4 & E5 & W).
  cbn [obind]. rewrite E2. cbn [obind]. fold data. rewrite Eh. cbn [obind]. rewrite E3. cbn [obind]. rewrite E4. cbn [obind].
  assert (hdr_n h = Z.of_nat (length bs)) as En.
  { unfold hdr_n. rewrite Hk by lia. unfold data.
    rewrite get_put_le; [apply wrap32_u32; unfold is_int, INT_MAX; lia|rewrite Hlen; unfold BSIZE; lia|apply u32_range]. }
  exists s4, h. split_and!; [done|done|congruence| |done]. apply hdr_list_eq; [done|].
  intros k b Hb. apply Hj; [|by apply Hbl|].
  - apply lookup_lt_Some in Hb. lia.
  - rewrite Forall_forall in Hint. apply Hint. by eapply list_elem_of_lookup_2.
Qed.

Lemma read_head_ok l s V :
  c_rep s V ∅ -> (0 <= hdr_n (V (lg_start l)))%Z -> length (lh_block (lg_lh l)) = LOGBLOCKS ->
  length (hdr_list (V (lg_start l))) <= LOGBLOCKS ->
  exists l' s', read_head l s = Ret (l', s') /\ wrote s s' [] V ∅ /\
    lg_start l' = lg_start l /\ lh_n (lg_lh l') = hdr_n (V (lg_start l)) /\
    length (lh_block (lg_lh l')) = LOGBLOCKS /\
    (forall i b, hdr_list (V (lg_start l)) !! i = Some b -> lh_block (lg_lh l') !! i = Some b).
Proof.
  intros R Hn Hcap Hlen. unfold read_head. set (data := V (lg_start l)) in *.
  destruct (bread_new s V ∅ (lg_start l) R) as (s1 & i & -> & R1 & H1 & _ & D1 & T1);
    [done|rewrite map_size_empty; unfold NBUF; lia|]. cbn [obind].
  rewrite (c_data_ok s1 _ _ i (lg_start l) 1 R1 H1 (lookup_insert_eq _ _ _)). cbn [obind]. fold data.
  unfold hdr_list in Hlen. rewrite length_fmap, length_seq in Hlen.
  destruct (fill_memory_ok data (Z.to_nat (hdr_n data)) (lh_block (lg_lh l)) 0) as (blocks & -> & Hbl & Hj); [lia|].
  cbn [obind].
  destruct (brelse_last s1 _ _ i (lg_start l) R1 H1 (lookup_insert_eq _ _ _)) as (s2 & -> & R2 & _ & D2 & T2).
  { rewrite D1. by apply (c_clean s V ∅). }
  cbn [obind]. eexists _, s2. split; [done|]. cbn. rewrite delete_insert_id in R2 by done. split_and!.
  - split; [done|by rewrite D2, D1|by rewrite T2, T1, app_nil_r].
  - done.
  - done.
  - congruence.
  - intros k b Hb. unfold hdr_list in Hb. rewrite list_lookup_fmap in Hb.
    apply fmap_Some in Hb as (m & Hm & ->). apply lookup_seq in Hm as [-> Hm].
    rewrite Hj, decide_True by lia. by f_equal.
Qed.

(** Recovery returns; a crash at any moment of it leaves a disk with the same
    outcome. *)
Lemma initlog_ok dev st W d : recoverable st W d ->
  exists l s, initlog dev st (c_boot d) = Ret (l, s) /\ c_rep s (disk_block (c_disk s)) ∅ /\
    c_disk s = apply_writes d (c_trace s) /\ lh_n (lg_lh l) = 0%Z /\ lg_start l = st /\
    length (lh_block (lg_lh l)) = LOGBLOCKS /\ hdr_n (disk_block (c_disk s) st) = 0%Z /\
    (forall b, home st b -> disk_block (c_disk s) b = W b) /\
    forall k, recoverable st W (apply_writes d (take k (c_trace s))).
Proof.
  intros Rc. destruct (c_boot_ok d) as (R & Ed & Et). unfold initlog, recover_from_log.
  set (l0 := mk_log _ _ _ _ _ _).
  destruct (read_head_ok l0 (c_boot d) (disk_block d) R) as (l1 & s1 & -> & W1 & E1 & En1 & Hb1 & Hl1);
    [apply Rc|done|apply Rc|]. cbn [obind]. unfold install_trans. rewrite En1. change (lg_start l0) with st in *.
  set (bs := hdr_list (disk_block d st)) in *.
  assert (Z.to_nat (hdr_n (disk_block d st)) = length bs) as -> by (unfold bs, hdr_list; by rewrite length_fmap, length_seq).
  destruct (recover_loop_ok l1 bs s1 _ 0 (wr_rep _ _ _ _ _ W1)) as (s2 & -> & W2);
    [done|rewrite E1; apply Rc|apply Rc|]. cbn [obind]. rewrite E1 in W2.
  set (hw := home_writes (disk_block d) st 0 bs) in *.
  destruct (write_head_ok (set_n l1 0) s2 _ ∅ [] (wr_rep _ _ _ _ _ W2)) as (s3 & h & -> & W3 & Hh & _ & Hhn); try done.
  { simpl. rewrite map_size_empty. unfold NBUF. lia. }
  { simpl. rewrite E1, view_writes_out; [apply Rc|]. unfold hw. rewrite home_writes_dom. intros Hin.
    pose proof (rc_home _ _ _ Rc) as Hf. rewrite Forall_forall in Hf. specialize (Hf _ Hin). unfold home in Hf. lia. }
  { simpl. lia. } { simpl. lia. }
  cbn [obind]. pose proof (wrote_trans _ _ _ _ _ _ _ _ _ (wrote_trans _ _ _ _ _ _ _ _ _ W1 W2) W3) as [R3 D3 T3].
  change (lg_start (set_n l1 0)) with (lg_start l1) in *. rewrite E1 in *. rewrite Et in T3. rewrite Ed in D3. simpl in T3, D3.
  assert (recoverable st W (c_disk s3)) as Rf by (rewrite D3; apply (install_end st W d Rc); done).
  assert (disk_block (c_disk s3) st = h) as Eh.
  { rewrite D3, apply_writes_app. simpl. rewrite disk_block_insert. apply upd_same. }
  exists (set_n l1 0), s3. split_and!; try done.
  - eapply c_rep_ext; [|exact R3]. intros b. symmetry. by apply (c_clean s3 _ ∅).
  - by rewrite T3.
  - by rewrite Eh.
  - intros b Hb. rewrite <-(rc_view _ _ _ Rf b Hb). unfold logical. by rewrite Eh, hdr_list_zero.
  - intros k. rewrite T3. by apply (install_crash st W d Rc).
Qed.

(** The state between two commits: the logged blocks [bs] are pinned in the
    cache and nothing else is in use; the log on the disk is empty. *)
Record ready l s V Hd (bs : list Z) : Prop := {
  rd_rep : c_rep s V Hd;
  rd_n : lh_n (lg_lh l) = Z.of_nat (length bs);
  rd_cap : length (lh_block (lg_lh l)) = LOGBLOCKS;
  rd_bs : forall i b, bs !! i = Some b -> lh_block (lg_lh l) !! i = Some b;
  rd_nodup : NoDup bs;
  rd_home : Forall (home (lg_start l)) bs;
  rd_int : Forall is_int bs;
  rd_pins : forall x, Hd !! x = if decide (x ∈ bs) then Some (1%Z, false) else None;
  rd_len : length (V (lg_start l)) = BSIZE;
  rd_hdr : hdr_n (V (lg_start l)) = 0%Z
}.

Section ready.
Context l s V Hd bs (R : ready l s V Hd bs).

Lemma ready_size : size Hd = length bs.
Proof.
  rewrite <-size_dom. rewrite <-(size_list_to_set (C := gset Z) bs) by apply R. f_equal.
  apply set_eq. intros x. rewrite elem_of_dom, elem_of_list_to_set, (rd_pins _ _ _ _ _ R).
  case_decide; split; [done|intros _; by eexists|intros [? ?]; done|done].
Qed.

Lemma ready_length : length bs <= LOGBLOCKS.
Proof.
  destruct (Nat.le_gt_cases (length bs) LOGBLOCKS) as [|Hlt]; [done|].
  destruct (lookup_lt_is_Some_2 bs LOGBLOCKS Hlt) as [b Hb].
  apply (rd_bs _ _ _ _ _ R), lookup_lt_Some in Hb. rewrite (rd_cap _ _ _ _ _ R) in Hb. lia.
Qed.

Lemma ready_log_free x : ~ home (lg_start l) x -> Hd !! x = None.
Proof.
  intros Hx. rewrite (rd_pins _ _ _ _ _ R), decide_False; [done|]. intros Hin. apply Hx.
  pose proof (rd_home _ _ _ _ _ R) as Hf. rewrite Forall_forall in Hf. by apply Hf.
Qed.

Lemma ready_pinned : Forall (fun b => home (lg_start l) b /\ Hd !! b = Some (1%Z, false)) bs.
Proof.
  pose proof (rd_home _ _ _ _ _ R) as Hf. rewrite Forall_forall in Hf |- *. intros b Hb.
  split; [by apply Hf|]. by rewrite (rd_pins _ _ _ _ _ R), decide_True.
Qed.

(** The disk once the header with the blocks is written: recovery would
    install all of them. *)
Lemma committed_recoverable h : length h = BSIZE -> hdr_list h = bs -> hdr_n h = Z.of_nat (length bs) ->
  let st := lg_start l in
  recoverable st V (apply_writes (c_disk s) (log_writes V st 0 bs ++ [(st, h)])).
Proof.
  intros Hl Hb Hn st. set (d := apply_writes _ _).
  assert (disk_block d st = h) as Est.
  { unfold d. rewrite apply_writes_app. simpl. rewrite disk_block_insert. apply upd_same. }
  split; rewrite ?Est; [done|lia|rewrite Hb; apply ready_length|rewrite Hb; apply R|].
  intros b Hh. unfold logical. rewrite Est, Hb.
  assert (Forall (fun w => w.2 = V w.1) (home_writes (disk_block d) st 0 bs)) as Hc.
  { apply home_writes_carry. intros j c Hj. unfold d. rewrite apply_writes_app. simpl.
    rewrite disk_block_insert, upd_other by lia. by apply (log_writes_lookup V st bs 0). }
  destruct (decide (b ∈ bs)) as [Hin|Hin].
  - apply apply_writes_carry; [done|]. by rewrite home_writes_dom.
  - rewrite disk_block_apply_out by (by rewrite home_writes_dom). unfold d.
    rewrite apply_writes_app. simpl. rewrite disk_block_insert, upd_other by (unfold home in Hh; lia).
    rewrite disk_block_apply_out.
    + apply (c_clean _ _ _ _ (rd_rep _ _ _ _ _ R)). by rewrite (rd_pins _ _ _ _ _ R), decide_False.
    + intros Hx. apply log_writes_dom in Hx. pose proof ready_length. unfold home in Hh. lia.
Qed.

(** A crash before that: nothing happened. *)
Lemma uncommitted_recoverable k :
  recoverable (lg_start l) (disk_block (c_disk s))
    (apply_writes (c_disk s) (take k (log_writes V (lg_start l) 0 bs))).
Proof.
  assert (forall b, home (lg_start l) b \/ b = lg_start l ->
    disk_block (apply_writes (c_disk s) (take k (log_writes V (lg_start l) 0 bs))) b = disk_block (c_disk s) b) as Hout.
  { intros b Hb. apply disk_block_apply_out. intros Hx. rewrite fmap_take in Hx.
    eapply elem_of_subseteq in Hx; [|apply subseteq_take]. apply log_writes_dom in Hx.
    pose proof ready_length. unfold home in Hb. lia. }
  assert (disk_block (c_disk s) (lg_start l) = V (lg_start l)) as Est.
  { apply (c_clean _ _ _ _ (rd_rep _ _ _ _ _ R)), ready_log_free. unfold home. lia. }
  apply recoverable_empty; [rewrite Hout by (by right); rewrite Est; apply R..|].
  intros b Hb. apply Hout. by left.
Qed.
End ready.

(** The state after a commit. *)
Lemma ready_empty l s V : c_rep s V ∅ -> lh_n (lg_lh l) = 0%Z -> length (lh_block (lg_lh l)) = LOGBLOCKS ->
  length (V (lg_start l)) = BSIZE -> hdr_n (V (lg_start l)) = 0%Z -> ready l s V ∅ [].
Proof.
  intros. split; try done; by constructor.
Qed.

Lemma recoverable_view l s V W : ready l s V ∅ [] -> recoverable (lg_start l) W (c_disk s) ->
  forall b, home (lg_start l) b -> V b = W b.
Proof.
  intros R Rc b Hb. rewrite <-(rc_view _ _ _ Rc b Hb). pose proof (rd_rep _ _ _ _ _ R) as Rr.
  unfold logical. rewrite (c_clean s V ∅ (lg_start l)), hdr_list_zero by (done || apply R).
  symmetry. by apply (c_clean s V ∅).
Qed.

(** The disk writes of a commit: the log, its header, the home blocks, the
    cleared header. *)
Lemma commit_writes l s V Hd bs : ready l s V Hd bs -> 0 < length bs < NBUF ->
  exists s' h1 h0 V', commit l s = Ret (set_n l 0, s') /\
    length h1 = BSIZE /\ hdr_list h1 = bs /\ hdr_n h1 = Z.of_nat (length bs) /\
    length h0 = BSIZE /\ hdr_n h0 = 0%Z /\ V' (lg_start l) = h0 /\
    let st := lg_start l in
    let d1 := apply_writes (c_disk s) (log_writes V st 0 bs ++ [(st, h1)]) in
    wrote s s' ((log_writes V st 0 bs ++ [(st, h1)]) ++
                home_writes (disk_block d1) st 0 (hdr_list (disk_block d1 st)) ++ [(st, h0)]) V' ∅.
Proof.
  intros R Hsz. pose proof (ready_size _ _ _ _ _ R) as Hsize. pose proof (ready_length _ _ _ _ _ R) as Hlen.
  pose proof (ready_pinned _ _ _ _ _ R) as Hpin.
  assert (Hst : Hd !! lg_start l = None) by (apply (ready_log_free _ _ _ _ _ R); unfold home; lia).
  assert (Hfree : forall x, (lg_start l <= x <= lg_start l + Z.of_nat LOGBLOCKS)%Z -> Hd !! x = None).
  { intros x Hx. apply (ready_log_free _ _ _ _ _ R). unfold home. lia. }
  unfold commit, write_log, install_trans. rewrite (rd_n _ _ _ _ _ R), (proj2 (Z.ltb_lt _ _)), Nat2Z.id by lia.
  destruct (write_log_loop_ok l Hd bs s V 0 (rd_rep _ _ _ _ _ R)) as (s1 & -> & W1); try done; [apply R|lia|].
  cbn [obind]. set (st := lg_start l) in *.
  destruct (write_head_ok l s1 _ Hd bs (wr_rep _ _ _ _ _ W1)) as (s2 & h1 & -> & W2 & Hl1 & Hb1 & Hn1);
    try done; [lia| |apply R|apply R|apply R|rewrite (rd_cap _ _ _ _ _ R); lia|].
  { fold st. rewrite view_writes_out; [apply R|]. intros Hx. apply log_writes_dom in Hx. lia. }
  cbn [obind]. pose proof (wrote_trans _ _ _ _ _ _ _ _ _ W1 W2) as W12.
  destruct (install_loop_ok l bs s2 _ Hd 0 (wr_rep _ _ _ _ _ W12)) as (s3 & Hd3 & -> & W3 & HHd);
    try done; [apply R|apply R|lia|].
  cbn [obind]. assert (Hd3 = ∅) as ->.
  { apply map_eq. intros x. rewrite HHd, lookup_empty. case_decide as Hx; [done|].
    by rewrite (rd_pins _ _ _ _ _ R), decide_False. }
  destruct (write_head_ok (set_n l 0) s3 _ ∅ [] (wr_rep _ _ _ _ _ W3)) as (s4 & h0 & -> & W4 & Hl0 & _ & Hn0); try done.
  { rewrite map_size_empty. unfold NBUF. lia. }
  { simpl. fold st. rewrite view_writes_out; [unfold upd; by rewrite decide_True|]. rewrite home_writes_dom. intros Hx.
    pose proof (rd_home _ _ _ _ _ R) as Hf. rewrite Forall_forall in Hf. specialize (Hf _ Hx). unfold home in Hf. lia. }
  { simpl. lia. } { simpl. lia. }
  cbn [obind]. eexists s4, h1, h0, _. split_and!; try done; [apply upd_same|]. cbv zeta. fold st.
  set (d1 := apply_writes (c_disk s) _). change (lg_start (set_n l 0)) with st in *.
  assert (c_disk s2 = d1) as E2 by apply (wr_disk _ _ _ _ _ W12).
  assert (disk_block d1 st = h1) as Est.
  { unfold d1. rewrite apply_writes_app. simpl. rewrite disk_block_insert. apply upd_same. }
  pose proof (wrote_trans _ _ _ _ _ _ _ _ _ W12 (wrote_trans _ _ _ _ _ _ _ _ _ W3 W4)) as W.
  rewrite Est, Hb1. rewrite (home_writes_ext (disk_block d1)
    (upd (view_writes V (log_writes V st 0 bs)) st h1)); [exact W|].
  intros j Hj. rewrite <-E2. apply (c_clean s2 _ Hd); [apply W12|]. apply Hfree. lia.
Qed.

(** [commit] returns when a buffer is left; at every moment of it the disk is
    recoverable to the old or to the new contents. *)
Lemma commit_ok l s V Hd bs : ready l s V Hd bs -> length bs < NBUF ->
  exists s' ws V', commit l s = Ret (set_n l 0, s') /\ wrote s s' ws V' ∅ /\ ready (set_n l 0) s' V' ∅ [] /\
    (forall b, home (lg_start l) b -> V' b = V b) /\
    (forall k, recoverable (lg_start l) (disk_block (c_disk s)) (apply_writes (c_disk s) (take k ws)) \/
               recoverable (lg_start l) V (apply_writes (c_disk s) (take k ws))) /\
    recoverable (lg_start l) V (c_disk s').
Proof.
  intros R Hsz. destruct (decide (0 < length bs)) as [Hpos|Hz].
  - destruct (commit_writes l s V Hd bs R) as (s' & h1 & h0 & V' & E & Hl1 & Hb1 & Hn1 & Hl0 & Hn0 & EV & W); [lia|].
    cbv zeta in W. set (st := lg_start l) in *.
    pose proof (committed_recoverable l s V Hd bs R h1 Hl1 Hb1 Hn1) as Rc. cbv zeta in Rc. fold st in Rc.
    set (lw := log_writes V st 0 bs) in *. set (d1 := apply_writes (c_disk s) (lw ++ [(st, h1)])) in *.
    assert (ready (set_n l 0) s' V' ∅ []) as R'.
    { apply ready_empty; [apply W|done|apply R|by change (lg_start _) with st; rewrite EV..]. }
    assert (recoverable st V (c_disk s')) as Rf.
    { rewrite (wr_disk _ _ _ _ _ W), apply_writes_app. fold d1. by apply install_end. }
    eexists s', _, V'. split_and!; [done|exact W|done|by apply (recoverable_view (set_n l 0) s')| |done].
    intros k. destruct (take_app_cases (lw ++ [(st, h1)])
      (home_writes (disk_block d1) st 0 (hdr_list (disk_block d1 st)) ++ [(st, h0)]) k) as [[j ->]|[j ->]].
    + destruct (take_app_cases lw [(st, h1)] j) as [[i ->]|[[|i] ->]].
      * left. by apply (uncommitted_recoverable l s V Hd bs).
      * left. simpl. rewrite app_nil_r, <-(take_ge lw (length lw)) by done.
        by apply (uncommitted_recoverable l s V Hd bs).
      * right. simpl. by rewrite take_nil.
    + right. rewrite apply_writes_app. fold d1. by apply install_crash.
  - destruct bs; [|simpl in Hz; lia].
    assert (Hd = ∅) as ->.
    { apply map_eq. intros x. rewrite (rd_pins _ _ _ _ _ R), decide_False by apply not_elem_of_nil. by rewrite lookup_empty. }
    assert (set_n l 0 = l) as El.
    { pose proof (rd_n _ _ _ _ _ R) as En. destruct l as [? ? ? ? ? [n blocks]]. simpl in *. by rewrite En. }
    assert (recoverable (lg_start l) V (c_disk s)) as Rf.
    { apply recoverable_empty; [rewrite (c_clean s V ∅) by (done || apply R); apply R..|].
      intros b Hb. apply (c_clean s V ∅); [apply R|done]. }
    exists s, [], V. unfold commit. rewrite (rd_n _ _ _ _ _ R), El. split_and!; try done.
    + apply wrote_refl, R.
    + intros k. rewrite take_nil. by right.
Qed.
End laws.
