(* ===== verification/Txn.v ===== *)
(** * Transactions of the file system (begin_op, log_write, end_op of log.c)

    What a file system operation sees of the log and the buffer cache together:
    blocks are read and locked, changed, logged and released, and [end_op]
    makes all changes of the transaction visible at once.  The interface
    [TxStore] with its laws is what the file system is proved against. *)

From S2P Require Import Prelude.
From S2P Require Import Bytes.
From S2P Require Import Bio.
From S2P Require Import Log.

Section laws.
Context {S : Type} `{CacheLaws S}.
Implicit Types (s : S) (V : Z -> bytes) (Hd : held) (l : log).

Lemma find_block_ok blocks b bs : forall i, (forall j x, bs !! j = Some x -> blocks !! (i + j) = Some x) ->
  exists j, find_block blocks b i (length bs) = Ret (i + j) /\
    (((b ∉ bs) /\ j = length bs) \/ (bs !! j = Some b)).
Proof.
  induction bs as [|x bs IH]; intros i Hb; cbn [length find_block].
  { exists 0. rewrite Nat.add_0_r. split; [done|]. left. split; [apply not_elem_of_nil|done]. }
  pose proof (Hb 0 x eq_refl) as E0. rewrite Nat.add_0_r in E0. rewrite (load_ret _ _ _ E0). cbn [obind].
  destruct (Z.eqb_spec x b) as [->|Hne].
  { exists 0. rewrite Nat.add_0_r. split; [done|by right]. }
  destruct (IH (Datatypes.S i)) as (j & -> & Hj).
  { intros j y Hy. rewrite <-(Hb (Datatypes.S j) y Hy). f_equal. lia. }
  exists (Datatypes.S j). split; [f_equal; lia|]. destruct Hj as [[Hn ->]|Hj]; [left|by right].
  split; [set_solver|done].
Qed.

Definition add_block (bs : list Z) (b : Z) : list Z := if decide (b ∈ bs) then bs else bs ++ [b].

(** The list of the log in memory. *)
Record logged l (bs : list Z) : Prop := {
  lo_n : lh_n (lg_lh l) = Z.of_nat (length bs);
  lo_cap : length (lh_block (lg_lh l)) = LOGBLOCKS;
  lo_bs : forall i b, bs !! i = Some b -> lh_block (lg_lh l) !! i = Some b;
  lo_nodup : NoDup bs
}.

(** A write is absorbed by the entry of its block or gets a new entry. *)
Lemma log_absorb_ok l bs b : logged l bs -> (1 <= lg_outstanding l)%Z -> length bs < LOGBLOCKS ->
  exists l', log_absorb l b = Ret (l', bool_decide (b ∉ bs)) /\ logged l' (add_block bs b) /\
    lg_start l' = lg_start l /\ lg_outstanding l' = lg_outstanding l /\
    lg_committing l' = lg_committing l /\ lg_ncommit l' = lg_ncommit l.
Proof.
  intros [Hn Hc Hb Hnd] Ho Hlen. unfold log_absorb. rewrite Hn, Nat2Z.id.
  rewrite (proj2 (Z.leb_gt _ _)), (proj2 (Z.ltb_ge _ _)) by lia.
  destruct (find_block_ok (lh_block (lg_lh l)) b bs 0) as (j & -> & Hj); [done|]. cbn [obind].
  assert (j <= length bs) as Hle by (destruct Hj as [[_ ->]|Hj]; [done|apply lookup_lt_Some in Hj; lia]).
  rewrite store_ret by lia. cbn [obind]. simpl Nat.add. unfold add_block.
  destruct Hj as [[Hnin ->]|Hj].
  - rewrite (proj2 (Z.eqb_eq _ _) eq_refl), bool_decide_true, decide_False by done.
    eexists. split; [done|]. split; [|done]. split; cbn.
    + rewrite length_app. simpl. lia.
    + by rewrite length_insert.
    + intros i x Hi. apply lookup_snoc_Some in Hi as [[Hi Hx]|[-> ->]].
      * rewrite list_lookup_insert_ne by lia. by apply Hb.
      * apply list_lookup_insert_eq. lia.
    + apply NoDup_app. split_and!; [done|set_solver|apply NoDup_singleton].
  - pose proof (lookup_lt_Some _ _ _ Hj) as Hlt. pose proof (list_elem_of_lookup_2 _ _ _ Hj) as Hin.
    rewrite (proj2 (Z.eqb_neq _ _)), bool_decide_false, decide_True by (lia || naive_solver).
    eexists. split; [done|]. split; [|done]. split; cbn; [done|by rewrite length_insert| |done].
    intros i x Hi. destruct (decide (i = j)) as [->|]; [|rewrite list_lookup_insert_ne by done; by apply Hb].
    simplify_eq. apply list_lookup_insert_eq. lia.
Qed.

(** Inside a transaction: the blocks [bs] are in the log, the buffers of [L]
    are locked by the caller, with a mark on those that were changed and not
    yet logged. *)
Record txn l s V Hd (bs : list Z) (L : gmap Z bool) : Prop := {
  tx_rep : c_rep s V Hd;
  tx_log : logged l bs;
  tx_home : Forall (home (lg_start l)) bs;
  tx_int : Forall is_int bs;
  tx_held : forall x, Hd !! x =
    match L !! x with
    | Some _ => Some (if decide (x ∈ bs) then 2%Z else 1%Z, true)
    | None => if decide (x ∈ bs) then Some (1%Z, false) else None
    end;
  tx_clean : forall x, L !! x = Some false -> x ∈ bs \/ disk_block (c_disk s) x = V x;
  tx_locked : forall x c, L !! x = Some c -> home (lg_start l) x /\ is_int x;
  tx_len : length (V (lg_start l)) = BSIZE;
  tx_hdr : hdr_n (V (lg_start l)) = 0%Z
}.

Lemma txn_ready l s V Hd bs : txn l s V Hd bs ∅ -> ready l s V Hd bs.
Proof. intros [R [? ? ? ?] ? ? Hh ? ? ? ?]. by split. Qed.

Lemma ready_txn l s V Hd bs : ready l s V Hd bs -> txn l s V Hd bs ∅.
Proof. intros []. split; try done. Qed.

Lemma txn_size l s V Hd bs L : txn l s V Hd bs L -> size Hd <= length bs + size L.
Proof.
  intros T. rewrite <-(size_dom (D := gset Z) Hd), <-(size_dom (D := gset Z) L).
  rewrite <-(size_list_to_set (C := gset Z) bs) by apply T.
  transitivity (size (list_to_set bs ∪ dom L : gset Z)).
  - apply subseteq_size. intros x. rewrite elem_of_dom, (tx_held _ _ _ _ _ _ T), elem_of_union.
    rewrite elem_of_list_to_set, elem_of_dom. intros [p Hp]. destruct (L !! x); [by right; eexists|].
    case_decide; [by left|done].
  - rewrite size_union_alt. pose proof (subseteq_size (dom L ∖ list_to_set bs) (dom L : gset Z)). set_solver by lia.
Qed.

Section txn.
Context l s V Hd bs L (T : txn l s V Hd bs L).

Lemma tx_bread b : L !! b = None -> home (lg_start l) b -> is_int b -> length bs + size L < NBUF ->
  exists s' i Hd', c_bread s b = Ret (s', i) /\ txn l s' V Hd' bs (<[b := false]> L) /\
    c_handle s' i b /\ keeps s s' /\ c_disk s' = c_disk s.
Proof.
  intros HL Hh Hi Hsz. pose proof (txn_size _ _ _ _ _ _ T) as Hle.
  pose proof (tx_held _ _ _ _ _ _ T b) as Hb. rewrite HL in Hb.
  assert (exists s' i, c_bread s b = Ret (s', i) /\
    c_rep s' V (<[b := (if decide (b ∈ bs) then 2 else 1, true)%Z]> Hd) /\ c_handle s' i b /\ keeps s s' /\
    c_disk s' = c_disk s) as (s' & i & E & R' & H' & K & D).
  { case_decide.
    - destruct (bread_again s V Hd b 1 (tx_rep _ _ _ _ _ _ T) Hb) as (s' & i & ? & ? & ? & ? & ? & _); [lia|]. by exists s', i.
    - destruct (bread_new s V Hd b (tx_rep _ _ _ _ _ _ T) Hb) as (s' & i & ? & ? & ? & ? & ? & _); [lia|]. by exists s', i. }
  eexists s', i, _. split_and!; [done| |done..]. destruct T as [R Hl Ho Hint Hheld Hc Hlk Hle1 Hhd]. split; try done.
  - intros x. destruct (decide (x = b)) as [->|]; [by rewrite !lookup_insert_eq|]. by rewrite !lookup_insert_ne.
  - intros x Hx. rewrite D. destruct (decide (x = b)) as [->|Hne].
    + case_decide; [by left|right]. by apply (c_clean s V Hd).
    + rewrite lookup_insert_ne in Hx by done. by apply Hc.
  - intros x c Hx. destruct (decide (x = b)) as [->|]; [done|]. rewrite lookup_insert_ne in Hx by done. by eapply Hlk.
Qed.

Lemma tx_data i b c : L !! b = Some c -> c_handle s i b -> c_data s i = Ret (V b).
Proof.
  intros HL Hh. eapply c_data_ok; [apply T|done|]. by rewrite (tx_held _ _ _ _ _ _ T), HL.
Qed.

Lemma tx_set_data i b c d : L !! b = Some c -> c_handle s i b ->
  exists s', c_set_data s i d = Ret s' /\ txn l s' (upd V b d) Hd bs (<[b := true]> L) /\ keeps s s' /\ c_disk s' = c_disk s.
Proof.
  intros HL Hh. pose proof (tx_held _ _ _ _ _ _ T b) as Hb. rewrite HL in Hb.
  destruct (c_set_data_ok s V Hd i b _ d (tx_rep _ _ _ _ _ _ T) Hh Hb) as (s' & E & R' & K & D & _).
  exists s'. split_and!; [done| |done..]. destruct T as [R Hl Ho Hint Hheld Hc Hlk Hle1 Hhd].
  assert (lg_start l <> b) as Hne by (destruct (Hlk b c HL) as [Hx _]; unfold home in Hx; lia).
  split; try done.
  - intros x. rewrite Hheld. destruct (decide (x = b)) as [->|]; [by rewrite lookup_insert_eq, HL|].
    by rewrite lookup_insert_ne.
  - intros x Hx. rewrite D. destruct (decide (x = b)) as [->|]; [by rewrite lookup_insert_eq in Hx|].
    rewrite lookup_insert_ne in Hx by done. rewrite upd_other by done. by apply Hc.
  - intros x c' Hx. destruct (decide (x = b)) as [->|]; [by eapply Hlk|]. rewrite lookup_insert_ne in Hx by done. by eapply Hlk.
  - by rewrite upd_other.
  - by rewrite upd_other.
Qed.

Lemma tx_log_write i b c : L !! b = Some c -> c_handle s i b -> (1 <= lg_outstanding l)%Z -> length bs < LOGBLOCKS ->
  exists l' s' Hd', log_write l s i = Ret (l', s') /\ txn l' s' V Hd' (add_block bs b) (<[b := false]> L) /\
    lg_start l' = lg_start l /\ lg_outstanding l' = lg_outstanding l /\ lg_committing l' = lg_committing l /\
    keeps s s' /\ c_disk s' = c_disk s.
Proof.
  intros HL Hh Hout Hlen. pose proof (tx_held _ _ _ _ _ _ T b) as Hb. rewrite HL in Hb.
  unfold log_write. rewrite (c_blockno_ok s V Hd i b (tx_rep _ _ _ _ _ _ T) Hh). cbn [obind].
  destruct (log_absorb_ok l bs b (tx_log _ _ _ _ _ _ T) Hout Hlen) as (l' & -> & Hl' & Est & Eo & Ec & _). cbn [obind].
  assert (exists s', (if bool_decide (b ∉ bs) then c_bpin s i else Ret s) = Ret s' /\
    c_rep s' V (<[b := (2%Z, true)]> Hd) /\ keeps s s' /\ c_disk s' = c_disk s) as (s' & -> & R' & K & D).
  { case_decide as Hin.
    - rewrite bool_decide_false by naive_solver. exists s. split_and!; try done; [|intros ? ?; done].
      rewrite insert_id by done. apply T.
    - rewrite bool_decide_true by done.
      destruct (c_bpin_ok s V Hd i b _ _ (tx_rep _ _ _ _ _ _ T) Hh Hb) as (s' & E & R' & K & D & _); [lia|].
      by exists s'. }
  cbn [obind]. eexists l', s', _. split_and!; [done| |done..].
  assert (forall x, x ∈ add_block bs b <-> x = b \/ x ∈ bs) as Hadd by (intros x; unfold add_block; case_decide; set_solver).
  destruct T as [R Hl Ho Hint Hheld Hc Hlk Hle1 Hhd]. destruct (Hlk b c HL) as [Hhb Hib].
  rewrite Forall_forall in Ho, Hint.
  split; try done; rewrite ?Est; try done.
  - apply Forall_forall. intros x Hx. apply Hadd in Hx as [->|Hx]; auto.
  - apply Forall_forall. intros x Hx. apply Hadd in Hx as [->|Hx]; auto.
  - intros x. destruct (decide (x = b)) as [->|].
    + rewrite !lookup_insert_eq, decide_True; [done|]. apply Hadd. by left.
    + rewrite !lookup_insert_ne, Hheld by done.
      assert (x ∈ add_block bs b <-> x ∈ bs) by (rewrite Hadd; naive_solver).
      destruct (L !! x); repeat case_decide; (done || tauto).
  - intros x Hx. rewrite D. destruct (decide (x = b)) as [->|]; [left; apply Hadd; by left|].
    rewrite lookup_insert_ne in Hx by done. destruct (Hc x Hx) as [?|?]; [left; apply Hadd; by right|by right].
  - intros x c' Hx. destruct (decide (x = b)) as [->|]; [done|]. rewrite lookup_insert_ne in Hx by done. by eapply Hlk.
Qed.

Lemma tx_brelse i b : L !! b = Some false -> c_handle s i b ->
  exists s' Hd', c_brelse s i = Ret s' /\ txn l s' V Hd' bs (delete b L) /\
    (forall j x, x <> b -> c_handle s j x -> c_handle s' j x) /\ c_disk s' = c_disk s.
Proof.
  intros HL Hh. pose proof (tx_held _ _ _ _ _ _ T b) as Hb. rewrite HL in Hb.
  assert (exists s', c_brelse s i = Ret s' /\
    c_rep s' V (if decide (b ∈ bs) then <[b := (1%Z, false)]> Hd else delete b Hd) /\
    (forall j x, x <> b -> c_handle s j x -> c_handle s' j x) /\ c_disk s' = c_disk s) as (s' & E & R' & K & D).
  { case_decide as Hin.
    - destruct (brelse_more s V Hd i b 2 (tx_rep _ _ _ _ _ _ T) Hh Hb) as (s' & E & R' & K & D & _); [done|].
      exists s'. split_and!; try done. intros j x _. apply K.
    - destruct (brelse_last s V Hd i b (tx_rep _ _ _ _ _ _ T) Hh Hb) as (s' & E & R' & K & D & _).
      + by destruct (tx_clean _ _ _ _ _ _ T b HL).
      + by exists s'. }
  eexists s', _. split_and!; [done| |done..]. destruct T as [R Hl Ho Hint Hheld Hc Hlk Hle1 Hhd].
  split; try done.
  - intros x. destruct (decide (x = b)) as [->|].
    + rewrite lookup_delete_eq. case_decide; [apply lookup_insert_eq|apply lookup_delete_eq].
    + rewrite lookup_delete_ne by done. rewrite <-Hheld. case_decide; [by apply lookup_insert_ne|by apply lookup_delete_ne].
  - intros x Hx. rewrite D. apply lookup_delete_Some in Hx as [_ Hx]. by apply Hc.
  - intros x c Hx. apply lookup_delete_Some in Hx as [_ Hx]. by eapply Hlk.
Qed.
End txn.

(** [end_op] of the last operation commits. *)
Lemma end_op_ok l s V Hd bs : ready l s V Hd bs -> length bs < NBUF ->
  lg_outstanding l = 1%Z -> lg_committing l = false ->
  exists l' s' ws V', end_op l s = Ret (l', s') /\ wrote s s' ws V' ∅ /\ ready l' s' V' ∅ [] /\
    lg_start l' = lg_start l /\ lg_outstanding l' = 0%Z /\ lg_committing l' = false /\
    lg_ncommit l' = (lg_ncommit l + 1)%Z /\
    (forall b, home (lg_start l) b -> V' b = V b) /\
    (forall k, recoverable (lg_start l) (disk_block (c_disk s)) (apply_writes (c_disk s) (take k ws)) \/
               recoverable (lg_start l) V (apply_writes (c_disk s) (take k ws))) /\
    recoverable (lg_start l) V (c_disk s').
Proof.
  intros R Hlen Ho Hc. unfold end_op. rewrite Hc, Ho. change (1 - 1)%Z with 0%Z. cbn [Z.eqb].
  set (l1 := mk_log _ _ _ _ _ _).
  assert (ready l1 s V Hd bs) as R1 by (destruct R; by split).
  destruct (commit_ok l1 s V Hd bs R1 Hlen) as (s' & ws & V' & -> & W & R' & HV & Hk & Hf). cbn [obind].
  eexists _, s', ws, V'. split; [done|]. split; [done|]. split; [destruct R'; by split|]. done.
Qed.
End laws.

(** ** The interface *)

(** Room for three buffers besides the logged blocks. *)
Definition TXCAP : nat := 27.

Class TxStore (T : Type) := {
  t_bread : T -> Z -> outcome (T * nat);
  t_data : T -> nat -> outcome bytes;
  t_set_data : T -> nat -> bytes -> outcome T;
  t_log_write : T -> nat -> outcome T;
  t_brelse : T -> nat -> outcome T;
  t_begin_op : T -> outcome T;
  t_end_op : T -> outcome T;
  t_initlog : T -> Z -> outcome T
}.

(** [t_rep t V L D]: the caller sees the contents [V], has locked the buffers
    [L] (marked when changed and not logged), and has logged [D]. *)
Class TxLaws (T : Type) `{TxStore T} := {
  t_block : Z -> Prop;
  t_rep : T -> (Z -> bytes) -> gmap Z bool -> gset Z -> Prop;
  t_handle : T -> nat -> Z -> Prop;
  t_rep_ext : forall t V V' L D, (forall b, V b = V' b) -> t_rep t V L D -> t_rep t V' L D;
  t_bread_ok : forall t V L D b, t_rep t V L D -> L !! b = None -> t_block b -> size L < 3 ->
    exists t' i, t_bread t b = Ret (t', i) /\ t_rep t' V (<[b := false]> L) D /\ t_handle t' i b /\
      (forall j x, t_handle t j x -> t_handle t' j x);
  t_data_ok : forall t V L D i b c, t_rep t V L D -> t_handle t i b -> L !! b = Some c -> t_data t i = Ret (V b);
  t_set_data_ok : forall t V L D i b c d, t_rep t V L D -> t_handle t i b -> L !! b = Some c ->
    exists t', t_set_data t i d = Ret t' /\ t_rep t' (upd V b d) (<[b := true]> L) D /\
      (forall j x, t_handle t j x -> t_handle t' j x);
  t_log_write_ok : forall t V L D i b c, t_rep t V L D -> t_handle t i b -> L !! b = Some c ->
    size ({[b]} ∪ D) <= TXCAP ->
    exists t', t_log_write t i = Ret t' /\ t_rep t' V (<[b := false]> L) ({[b]} ∪ D) /\
      (forall j x, t_handle t j x -> t_handle t' j x);
  t_brelse_ok : forall t V L D i b, t_rep t V L D -> t_handle t i b -> L !! b = Some false ->
    exists t', t_brelse t i = Ret t' /\ t_rep t' V (delete b L) D /\
      (forall j x, x <> b -> t_handle t j x -> t_handle t' j x)
}.

#[global] Instance log_tx {S} `{BlockCache S} : TxStore (log * S) := {|
  t_bread t b := let* '(s, i) := c_bread t.2 b in Ret ((t.1, s), i);
  t_data t i := c_data t.2 i;
  t_set_data t i d := let* s := c_set_data t.2 i d in Ret (t.1, s);
  t_log_write t i := log_write t.1 t.2 i;
  t_brelse t i := let* s := c_brelse t.2 i in Ret (t.1, s);
  t_begin_op t := match begin_op t.1 with Some l => Ret (l, t.2) | None => NoFuel end;
  t_end_op t := end_op t.1 t.2;
  t_initlog t logstart := initlog ROOTDEV logstart t.2
|}.

(** The transaction of the only operation under way, on a log that starts at
    block [st]. *)
Definition log_rep {S} `{CacheLaws S} (st : Z) (t : log * S) (V : Z -> bytes) (L : gmap Z bool) (D : gset Z) : Prop :=
  exists Hd bs, txn t.1 t.2 V Hd bs L /\ D = list_to_set bs /\ size D <= TXCAP /\
    lg_start t.1 = st /\ lg_outstanding t.1 = 1%Z /\ lg_committing t.1 = false.

Lemma list_to_set_add_block bs b : list_to_set (add_block bs b) = {[b]} ∪ (list_to_set bs : gset Z).
Proof. unfold add_block. case_decide; set_solver. Qed.

Lemma txn_length {S} `{CacheLaws S} l s V Hd bs L : txn (S := S) l s V Hd bs L ->
  length bs = size (list_to_set bs : gset Z).
Proof. intros T. symmetry. apply size_list_to_set, T. Qed.

Definition log_tx_laws {S} `{CacheLaws S} (st : Z) : TxLaws (log * S).
Proof.
  refine {| t_block b := home st b /\ is_int b; t_rep := log_rep st; t_handle t i b := c_handle t.2 i b |}.
  - intros [l s] V V' L D E (Hd & bs & T & HD & Hr). exists Hd, bs. split; [|done]. cbn in *. destruct T. split; try done.
    + by eapply c_rep_ext.
    + intros x Hx. rewrite <-E. auto.
    + by rewrite <-E.
    + by rewrite <-E.
  - intros [l s] V L D b (Hd & bs & T & HD & Hsz & Hst & Hr) HL [Hh Hi] HsL. cbn in *.
    pose proof (txn_length _ _ _ _ _ _ T). subst D. unfold TXCAP in Hsz.
    destruct (tx_bread l s V Hd bs L T b) as (s' & i & Hd' & -> & T' & H' & K & _);
      [done|by rewrite Hst|done|unfold NBUF; lia|]. cbn [obind].
    exists (l, s'), i. split_and!; [done| |done|apply K]. by exists Hd', bs.
  - intros [l s] V L D i b c (Hd & bs & T & _) Hh HL. by eapply tx_data.
  - intros [l s] V L D i b c d (Hd & bs & T & Hr) Hh HL. cbn in *.
    destruct (tx_set_data l s V Hd bs L T i b c d HL Hh) as (s' & -> & T' & K & _). cbn [obind].
    exists (l, s'). split_and!; [done| |apply K]. by exists Hd, bs.
  - intros [l s] V L D i b c (Hd & bs & T & -> & Hsz & Hst & Ho & Hc) Hh HL Hcap. cbn in *.
    pose proof (txn_length _ _ _ _ _ _ T).
    destruct (tx_log_write l s V Hd bs L T i b c HL Hh) as (l' & s' & Hd' & -> & T' & E1 & E2 & E3 & K & _);
      [lia|unfold LOGBLOCKS, TXCAP in *; lia|].
    exists (l', s'). split_and!; [done| |apply K]. exists Hd', (add_block bs b). cbn. rewrite E1, E2, E3.
    split_and!; try done; by rewrite list_to_set_add_block.
  - intros [l s] V L D i b (Hd & bs & T & Hr) Hh HL. cbn in *.
    destruct (tx_brelse l s V Hd bs L T i b HL Hh) as (s' & Hd' & -> & T' & K & _). cbn [obind].
    exists (l, s'). split_and!; [done| |apply K]. by exists Hd', bs.
Defined.

(** *** Using a block under the laws *)
Section use.
Context {T : Type} `{TxLaws T}.
Implicit Types (t : T) (V : Z -> bytes) (L : gmap Z bool) (D : gset Z).

(** The buffers of [L] keep their handles. *)
Definition tkeeps L t t' : Prop := forall j x, is_Some (L !! x) -> t_handle t j x -> t_handle t' j x.

Lemma tkeeps_refl L t : tkeeps L t t.
Proof. by intros j x. Qed.

Lemma tkeeps_trans L t1 t2 t3 : tkeeps L t1 t2 -> tkeeps L t2 t3 -> tkeeps L t1 t3.
Proof. intros H1 H2 j x HL Hj. auto. Qed.

Lemma tkeeps_insert L b c t t' : tkeeps (<[b := c]> L) t t' -> L !! b = None -> tkeeps L t t'.
Proof. intros Hk Hb j x [y Hx]. apply Hk. rewrite lookup_insert_ne; [by eexists|]. intros ->. congruence. Qed.

Lemma use_bread t V L D b : t_rep t V L D -> L !! b = None -> t_block b -> size L < 3 ->
  exists t' i, t_bread t b = Ret (t', i) /\ t_data t' i = Ret (V b) /\
    t_rep t' V (<[b := false]> L) D /\ t_handle t' i b /\ tkeeps L t t'.
Proof.
  intros R Hb Hbl Hs. destruct (t_bread_ok t V L D b R Hb Hbl Hs) as (t' & i & E & R' & Hh & K).
  exists t', i. split; [done|]. split; [eapply t_data_ok; [done..|apply lookup_insert_eq]|].
  split_and!; [done..|]. intros j x _. apply K.
Qed.

Lemma use_brelse t V L D b i : t_rep t V (<[b := false]> L) D -> t_handle t i b -> L !! b = None ->
  exists t', t_brelse t i = Ret t' /\ t_rep t' V L D /\ tkeeps L t t'.
Proof.
  intros R Hh Hb. destruct (t_brelse_ok t V _ D i b R Hh (lookup_insert_eq _ _ _)) as (t' & E & R' & K).
  rewrite delete_insert_id in R' by done. exists t'. split_and!; try done.
  intros j x [y Hx]. apply K. intros ->. congruence.
Qed.

Lemma size_add_le b D : size ({[b]} ∪ D) <= S (size D).
Proof. rewrite size_union_alt, size_singleton. pose proof (subseteq_size (D ∖ {[b]}) D). set_solver by lia. Qed.

(** New contents for a locked block, logged. *)
Lemma use_write t V L D b i c d : t_rep t V L D -> L !! b = Some c -> t_handle t i b -> S (size D) <= TXCAP ->
  exists t1 t2, t_set_data t i d = Ret t1 /\ t_log_write t1 i = Ret t2 /\
    t_rep t2 (upd V b d) (<[b := false]> L) ({[b]} ∪ D) /\ t_handle t2 i b /\ tkeeps L t t2.
Proof.
  intros R Hb Hh Hsz. pose proof (size_add_le b D).
  destruct (t_set_data_ok t V L D i b c d R Hh Hb) as (t1 & E1 & R1 & K1).
  destruct (t_log_write_ok t1 _ _ D i b true R1 (K1 _ _ Hh) (lookup_insert_eq _ _ _)) as (t2 & E2 & R2 & K2); [lia|].
  rewrite insert_insert_eq in R2. exists t1, t2. split_and!; try done; [by apply K2, K1|].
  intros j x _ Hj. by apply K2, K1.
Qed.

Lemma use_write_brelse t V L D b i d : t_rep t V (<[b := false]> L) D -> L !! b = None -> t_handle t i b ->
  S (size D) <= TXCAP ->
  exists t1 t2 t3, t_set_data t i d = Ret t1 /\ t_log_write t1 i = Ret t2 /\ t_brelse t2 i = Ret t3 /\
    t_rep t3 (upd V b d) L ({[b]} ∪ D) /\ tkeeps L t t3.
Proof.
  intros R Hb Hh Hsz.
  destruct (use_write t V _ D b i false d R (lookup_insert_eq _ _ _) Hh Hsz) as (t1 & t2 & E1 & E2 & R2 & H2 & K2).
  rewrite insert_insert_eq in R2. destruct (use_brelse t2 _ L _ b i R2 H2 Hb) as (t3 & E3 & R3 & K3).
  exists t1, t2, t3. split_and!; try done. eapply tkeeps_trans; [by eapply tkeeps_insert|done].
Qed.
End use.

(** ** Claims *)

(** A crash during recovery: the disk keeps a prefix of its writes. *)
Definition crash_in_recovery {S} `{BlockCache S} (st : Z) (d d' : gmap Z bytes) : Prop :=
  exists l (s : S) k, initlog ROOTDEV st (c_boot d) = Ret (l, s) /\ d' = apply_writes d (take k (c_trace s)).

Lemma crashes_recoverable {S} `{CacheLaws S} st W d d' :
  rtc (crash_in_recovery (S := S) st) d d' -> recoverable st W d -> recoverable st W d'.
Proof.
  induction 1 as [|d d1 d' (l & s & k & E & ->) _ IH]; [done|]. intros Rc. apply IH.
  destruct (initlog_ok ROOTDEV st W d Rc) as (l' & s' & E' & _ & _ & _ & _ & _ & _ & _ & Hk).
  rewrite E in E'. by simplify_eq.
Qed.

(** A boot on a recoverable disk. *)
Lemma boot_recovers {S} `{CacheLaws S} st W d : recoverable st W d ->
  exists l (s : S), initlog ROOTDEV st (c_boot d) = Ret (l, s) /\
    forall b, home st b -> disk_block (c_disk s) b = W b.
Proof.
  intros Rc. destruct (initlog_ok ROOTDEV st W d Rc) as (l & s & E & _ & _ & _ & _ & _ & _ & HW & _).
  by exists l, s.
Qed.


(** The log after a boot on a disk whose log is empty. *)
Lemma boot_ready_disk {S} `{CacheLaws S} st d :
  length (disk_block d st) = BSIZE -> hdr_n (disk_block d st) = 0%Z ->
  exists l (s : S), initlog ROOTDEV st (c_boot d) = Ret (l, s) /\
    ready l s (disk_block (c_disk s)) ∅ [] /\ lg_start l = st /\
    forall b, home st b -> disk_block (c_disk s) b = disk_block d b.
Proof.
  intros Hl Hn. pose proof (recoverable_empty st (disk_block d) d Hl Hn ltac:(done)) as Rc.
  destruct (initlog_ok (S := S) ROOTDEV st _ d Rc) as (l & s & E & R & HD & Hn' & Hst & Hcap & Hh & HW & Hk).
  exists l, s. split; [done|]. split; [|done]. apply ready_empty; try done; rewrite Hst; [|done].
  specialize (Hk (length (c_trace s))). rewrite take_ge, <-HD in Hk by done. apply Hk.
Qed.

Lemma boot_ready {S} `{CacheLaws S} st : exists l (s : S), initlog ROOTDEV st (c_boot ∅) = Ret (l, s) /\
  ready l s (disk_block (c_disk s)) ∅ [] /\ lg_start l = st.
Proof.
  destruct (boot_ready_disk (S := S) st ∅) as (l & s & E & R & Hst & _).
  - unfold disk_block. rewrite lookup_empty. apply length_replicate.
  - reflexivity.
  - by exists l, s.
Qed.

Definition with_outstanding (l : log) (n : Z) : log :=
  mk_log (lg_start l) n false (lg_dev l) (lg_ncommit l) (lg_lh l).

Lemma ready_outstanding {S} `{CacheLaws S} l (s : S) V Hd bs n :
  ready l s V Hd bs -> ready (with_outstanding l n) s V Hd bs.
Proof. intros []. by split. Qed.

(** After the boot no operation is under way. *)
Lemma initlog_idle {S} `{BlockCache S} dev st (s s' : S) l :
  initlog dev st s = Ret (l, s') -> lg_outstanding l = 0%Z /\ lg_committing l = false.
Proof.
  unfold initlog, recover_from_log, read_head. intros E.
  apply obind_inv in E as ([l1 s1] & E1 & E).
  apply obind_inv in E1 as ([s2 i] & _ & E1). repeat (apply obind_inv in E1 as (? & _ & E1)).
  repeat (apply obind_inv in E as (? & _ & E)). by simplify_eq/=.
Qed.

Lemma boot_idle {S} `{CacheLaws S} st d :
  length (disk_block d st) = BSIZE -> hdr_n (disk_block d st) = 0%Z ->
  exists l (s : S), initlog ROOTDEV st (c_boot d) = Ret (l, s) /\
    ready l s (disk_block (c_disk s)) ∅ [] /\ lg_start l = st /\
    lg_outstanding l = 0%Z /\ lg_committing l = false.
Proof.
  intros Hl Hn. destruct (boot_ready_disk (S := S) st d Hl Hn) as (l & s & E & R & Hst & _).
  destruct (initlog_idle _ _ _ _ _ E). by exists l, s.
Qed.

(** *** Histories of calls

    The calls that the operations of the file system make on the log and on
    the cache; a buffer that is read stays in hand until it is released. *)
Inductive log_call : Type :=
| BeginOp
| Bread (b : Z)
| LogWrite
| Brelse
| EndOp.

(** One call.  [begin_op] on a log that has no room sleeps: such a call is not
    made in the histories below. *)
Definition run_call {S} `{BlockCache S} (x : log * S * list nat) (c : log_call)
    : outcome (log * S * list nat) :=
  let '(l, s, hs) := x in
  match c, hs with
  | BeginOp, _ => match begin_op l with Some l => Ret (l, s, hs) | None => NoFuel end
  | Bread b, _ => let* '(s, i) := c_bread s b in Ret (l, s, i :: hs)
  | LogWrite, i :: _ => let* '(l, s) := log_write l s i in Ret (l, s, hs)
  | Brelse, i :: hs => let* s := c_brelse s i in Ret (l, s, hs)
  | EndOp, _ => let* '(l, s) := end_op l s in Ret (l, s, hs)
  | _, [] => Undef
  end.

Fixpoint run_calls {S} `{BlockCache S} (x : log * S * list nat) (cs : list log_call)
    : outcome (log * S * list nat) :=
  match cs with
  | [] => Ret x
  | c :: cs => let* x := run_call x c in run_calls x cs
  end.

Lemma run_calls_app {S} `{BlockCache S} cs1 cs2 : forall x : log * S * list nat,
  run_calls x (cs1 ++ cs2) = (let* x := run_calls x cs1 in run_calls x cs2).
Proof.
  induction cs1 as [|c cs1 IH]; intros x; [done|]. cbn [run_calls app].
  destruct (run_call x c) as [y| | | |]; [apply IH|done..].
Qed.

(** An operation logs the blocks [bs]: each is read, logged and released. *)
Definition op_writes (bs : list Z) : list log_call := bs ≫= fun b => [Bread b; LogWrite; Brelse].

Lemma op_writes_ok {S} `{CacheLaws S} new : forall l (s : S) V Hd bs,
  ready l s V Hd bs -> (1 <= lg_outstanding l)%Z -> NoDup (bs ++ new) ->
  Forall (fun b => home (lg_start l) b /\ is_int b) new -> length (bs ++ new) <= LOGBLOCKS ->
  exists l' s' Hd', run_calls (l, s, []) (op_writes new) = Ret (l', s', []) /\ ready l' s' V Hd' (bs ++ new) /\
    lg_start l' = lg_start l /\ lg_outstanding l' = lg_outstanding l /\ lg_committing l' = lg_committing l /\
    c_disk s' = c_disk s.
Proof.
  induction new as [|b new IH]; intros l s V Hd bs R Ho Hnd Hh Hlen.
  { exists l, s, Hd. by rewrite app_nil_r. }
  apply Forall_cons in Hh as [[Hb Hi] Hh]. rewrite length_app in Hlen. cbn [length] in Hlen.
  unfold LOGBLOCKS in Hlen. change (op_writes (b :: new)) with ([Bread b; LogWrite; Brelse] ++ op_writes new).
  cbn [run_calls run_call app].
  destruct (tx_bread l s V Hd bs ∅ (ready_txn _ _ _ _ _ R) b) as (s1 & i & Hd1 & -> & T1 & H1 & _ & D1);
    [done|done|done|rewrite map_size_empty; unfold NBUF; lia|]. cbn [obind].
  cbn [run_call].
  destruct (tx_log_write _ _ _ _ _ _ T1 i b false) as (l2 & s2 & Hd2 & -> & T2 & E1 & E2 & E3 & K2 & D2);
    [apply lookup_insert_eq|done|done|unfold LOGBLOCKS; lia|]. cbn [obind].
  cbn [run_call].
  destruct (tx_brelse _ _ _ _ _ _ T2 i b) as (s3 & Hd3 & -> & T3 & _ & D3);
    [apply lookup_insert_eq|by apply K2|]. cbn [obind].
  rewrite insert_insert_eq, delete_insert_id in T3 by done. apply txn_ready in T3.
  apply NoDup_app in Hnd as (Hn1 & Hn2 & Hn3). unfold add_block in T3. rewrite decide_False in T3 by set_solver.
  destruct (IH l2 s3 V Hd3 (bs ++ [b]) T3) as (l' & s' & Hd' & E & R' & F1 & F2 & F3 & D').
  - by rewrite E2.
  - rewrite <-(assoc_L app). by apply NoDup_app.
  - by rewrite E1.
  - rewrite !length_app. simpl. unfold LOGBLOCKS. lia.
  - exists l', s', Hd'. rewrite <-(assoc_L app) in R'. cbn in R'. split_and!; try done; congruence.
Qed.


(** An operation that is not the last one ends. *)
Lemma end_op_early {S} `{CacheLaws S} l (s : S) V Hd bs n :
  ready l s V Hd bs -> lg_outstanding l = (n + 1)%Z -> (1 <= n)%Z -> lg_committing l = false ->
  end_op l s = Ret (with_outstanding l n, s).
Proof.
  intros R Ho Hn Hc. unfold end_op. rewrite Hc, Ho. replace (n + 1 - 1)%Z with n by lia.
  by rewrite (proj2 (Z.eqb_neq n 0)) by lia.
Qed.

Lemma commit_full {S} `{CacheLaws S} l (s : S) V Hd bs :
  ready l s V Hd bs -> length bs = LOGBLOCKS -> commit l s = Panic "bget: no buffers".
Proof.
  intros R Hlen. pose proof (ready_size _ _ _ _ _ R) as Hsz.
  unfold commit, write_log. rewrite (rd_n _ _ _ _ _ R), Hlen. cbn [Z.of_nat Z.ltb].
  change (0 <? Z.of_nat LOGBLOCKS)%Z with true. cbn iota. rewrite Nat2Z.id. unfold LOGBLOCKS at 1. cbn [write_log_loop].
  rewrite (c_full s V Hd); [done|apply R|rewrite Hsz, Hlen; done|].
  apply (ready_log_free _ _ _ _ _ R). unfold home, LOGBLOCKS. lia.
Qed.

Lemma end_op_full {S} `{CacheLaws S} l (s : S) V Hd bs :
  ready l s V Hd bs -> length bs = LOGBLOCKS -> lg_outstanding l = 1%Z -> lg_committing l = false ->
  end_op l s = Panic "bget: no buffers".
Proof.
  intros R Hlen Ho Hc. unfold end_op. rewrite Hc, Ho. change (1 - 1)%Z with 0%Z. cbn [Z.eqb].
  erewrite commit_full; [done| |exact Hlen]. destruct R. by split.
Qed.

(** Three operations begin; each logs its blocks and ends. *)
Definition three_ops (w1 w2 w3 : list Z) : list log_call :=
  [BeginOp; BeginOp; BeginOp] ++ op_writes w1 ++ [EndOp] ++ op_writes w2 ++ [EndOp] ++
  op_writes w3 ++ [EndOp].

Lemma three_begin {S} `{CacheLaws S} l (s : S) V :
  ready l s V ∅ [] -> lg_outstanding l = 0%Z -> lg_committing l = false ->
  run_calls (l, s, []) [BeginOp; BeginOp; BeginOp] = Ret (with_outstanding l 3, s, []).
Proof.
  intros R Ho Hc. pose proof (rd_n _ _ _ _ _ R) as Hn. simpl in Hn.
  destruct l as [st o c dev n [h bl]]. cbn in Hn, Ho, Hc. subst. reflexivity.
Qed.

(** An operation in a history: its blocks are logged and it ends before the
    last one. *)
Lemma op_early {S} `{CacheLaws S} w l (s : S) V Hd bs n cs :
  ready l s V Hd bs -> lg_outstanding l = (n + 1)%Z -> (1 <= n)%Z -> lg_committing l = false ->
  NoDup (bs ++ w) -> Forall (fun b => home (lg_start l) b /\ is_int b) w -> length (bs ++ w) <= LOGBLOCKS ->
  exists l' s' Hd', run_calls (l, s, []) (op_writes w ++ [EndOp] ++ cs) = run_calls (l', s', []) cs /\
    ready l' s' V Hd' (bs ++ w) /\
    lg_start l' = lg_start l /\ lg_outstanding l' = n /\ lg_committing l' = false.
Proof.
  intros R Ho Hn Hc Hnd Hh Hlen.
  destruct (op_writes_ok w l s V Hd bs R) as (l1 & s1 & Hd1 & E & R1 & E1 & E2 & E3 & _); [lia|done..|].
  exists (with_outstanding l1 n), s1, Hd1. split; [|split; [by apply ready_outstanding|done]].
  rewrite run_calls_app, E. cbn [obind app run_calls run_call].
  by rewrite (end_op_early l1 s1 V Hd1 (bs ++ w) n R1) by congruence.
Qed.

Lemma three_ops_full {S} `{CacheLaws S} w1 w2 w3 l (s : S) V :
  ready l s V ∅ [] -> lg_outstanding l = 0%Z -> lg_committing l = false ->
  NoDup (w1 ++ w2 ++ w3) -> Forall (fun b => home (lg_start l) b /\ is_int b) (w1 ++ w2 ++ w3) ->
  length (w1 ++ w2 ++ w3) = LOGBLOCKS ->
  exists l' s', run_calls (l, s, [])
      ([BeginOp; BeginOp; BeginOp] ++ op_writes w1 ++ [EndOp] ++ op_writes w2 ++ [EndOp] ++ op_writes w3)
      = Ret (l', s', []) /\
    lh_n (lg_lh l') = Z.of_nat LOGBLOCKS /\ end_op l' s' = Panic "bget: no buffers".
Proof.
  intros R Ho Hc Hnd Hh Hall. rewrite !Forall_app in Hh. destruct Hh as (F1 & F2 & F3).
  assert (NoDup (w1 ++ w2)) as Hnd2 by (rewrite (assoc_L app) in Hnd; by apply NoDup_app in Hnd as (?&_)).
  rewrite run_calls_app, (three_begin l s V R Ho Hc). cbn [obind].
  destruct (op_early w1 (with_outstanding l 3) s V ∅ [] 2 (op_writes w2 ++ [EndOp] ++ op_writes w3)
    (ready_outstanding _ _ _ _ _ 3 R)) as (l1 & s1 & Hd1 & -> & R1 & S1 & O1 & C1);
    [done|lia|done|by apply NoDup_app in Hnd as (?&_)|done|rewrite <-Hall, !length_app; simpl; lia|].
  destruct (op_early w2 l1 s1 V Hd1 w1 1 (op_writes w3) R1) as (l2 & s2 & Hd2 & -> & R2 & S2 & O2 & C2);
    [done|lia|done|done|by rewrite S1|rewrite <-Hall, !length_app; lia|].
  destruct (op_writes_ok w3 l2 s2 V Hd2 (w1 ++ w2) R2) as (l3 & s3 & Hd3 & E & R3 & _ & O3 & C3 & _);
    [lia|by rewrite <-(assoc_L app)|by rewrite S2, S1|by rewrite <-(assoc_L app), Hall|].
  rewrite <-(assoc_L app) in R3.
  exists l3, s3. split_and!; [done|by rewrite (rd_n _ _ _ _ _ R3), Hall|].
  by apply (end_op_full l3 s3 V Hd3 _ R3 Hall); congruence.
Qed.

(** C27.  The log has room for [LOGBLOCKS] blocks but the cache has as many
    buffers, and a commit needs one more for the log block it copies to.  After
    a boot on a disk with an empty log, three operations begin (which
    [begin_op] admits), each logs [MAXOPBLOCKS] blocks, no block twice, by
    reading, logging and releasing it (which [log_write] admits), and ends: all
    these calls return but the last [end_op], whose commit panics in [bget]. *)
Theorem full_log_panics {S} `{CacheLaws S} (st : Z) (d : gmap Z bytes) (w1 w2 w3 : list Z)
    (Hd : length (disk_block d st) = BSIZE) (Hempty : hdr_n (disk_block d st) = 0%Z)
    (Hnd : NoDup (w1 ++ w2 ++ w3))
    (Hh : Forall (fun b => home st b /\ is_int b) (w1 ++ w2 ++ w3))
    (Hlen : Forall (fun w => Z.of_nat (length w) = MAXOPBLOCKS) [w1; w2; w3]) :
  exists l (s : S) l' s',
    initlog ROOTDEV st (c_boot d) = Ret (l, s) /\
    run_calls (l, s, []) (removelast (three_ops w1 w2 w3)) = Ret (l', s', []) /\
    lh_n (lg_lh l') = Z.of_nat LOGBLOCKS /\
    run_calls (l, s, []) (three_ops w1 w2 w3) = Panic "bget: no buffers".
Proof.
  destruct (boot_idle (S := S) st d Hd Hempty) as (l & s & Ei & R & Hst & Ho & Hc).
  exists l, s. apply Forall_cons in Hlen as [L1 Hlen]. apply Forall_cons in Hlen as [L2 Hlen].
  apply Forall_cons in Hlen as [L3 _]. unfold MAXOPBLOCKS in *.
  destruct (three_ops_full w1 w2 w3 l s _ R Ho Hc Hnd) as (l' & s' & E & En & Ef);
    [by rewrite Hst|unfold LOGBLOCKS; rewrite !length_app; lia|].
  exists l', s'. split_and!; [done| |done|].
  - unfold three_ops. rewrite !(assoc_L app), removelast_last. by rewrite !(assoc_L app) in E.
  - unfold three_ops. rewrite !(assoc_L app), run_calls_app. rewrite !(assoc_L app) in E. rewrite E.
    cbn [obind run_calls run_call]. by rewrite Ef.
Qed.

Lemma full_log_panics_witness :
  exists (l : log) (s : bcache),
    initlog ROOTDEV 2 (c_boot ∅) = Ret (l, s) /\
    run_calls (l, s, []) (three_ops (Z.of_nat <$> seq 100 10) (Z.of_nat <$> seq 110 10) (Z.of_nat <$> seq 120 10))
      = Panic "bget: no buffers".
Proof.
  destruct (full_log_panics (S := bcache) 2 ∅ (Z.of_nat <$> seq 100 10) (Z.of_nat <$> seq 110 10) (Z.of_nat <$> seq 120 10))
    as (l & s & l' & s' & Ei & _ & _ & Ep).
  - unfold disk_block. rewrite lookup_empty. apply length_replicate.
  - reflexivity.
  - apply (bool_decide_unpack _). reflexivity.
  - rewrite <-!fmap_app. change (Forall (fun b => home 2 b /\ is_int b) (Z.of_nat <$> seq 100 30)).
    apply Forall_fmap, Forall_seq. intros j Hj. unfold home, is_int, INT_MAX, LOGBLOCKS. simpl. lia.
  - repeat constructor.
  - exists l, s. split; [exact Ei|exact Ep].
Defined.

(** *** The reservation of log space *)

(** The log with the number of blocks that each operation under way has
    logged. *)
Inductive rstep {S} `{BlockCache S} : log * S * list nat -> log * S * list nat -> Prop :=
| rs_begin l l' s ws : begin_op l = Some l' -> rstep (l, s, ws) (l', s, ws ++ [0])
| rs_write l l' s s' ws j w i : ws !! j = Some w -> (Z.of_nat w < MAXOPBLOCKS)%Z ->
    log_write l s i = Ret (l', s') -> rstep (l, s, ws) (l', s', <[j := Datatypes.S w]> ws)
| rs_end l l' s s' ws1 w ws2 : end_op l s = Ret (l', s') -> rstep (l, s, ws1 ++ w :: ws2) (l', s', ws1 ++ ws2)
| rs_cache l s s' ws : rstep (l, s, ws) (l, s', ws).

(** The blocks that the operations may still log. *)
Definition reserved (ws : list nat) : nat := sum_list ((fun w => 10 - w) <$> ws).

Record log_inv (l : log) (ws : list nat) : Prop := {
  li_logged : exists bs, logged l bs /\ length bs + reserved ws <= LOGBLOCKS;
  li_outstanding : lg_outstanding l = Z.of_nat (length ws);
  li_committing : lg_committing l = false
}.

Lemma reserved_app ws1 ws2 : reserved (ws1 ++ ws2) = reserved ws1 + reserved ws2.
Proof. unfold reserved. by rewrite fmap_app, sum_list_with_app. Qed.

Lemma reserved_insert ws j w : ws !! j = Some w -> w < 10 ->
  reserved ws = Datatypes.S (reserved (<[j := Datatypes.S w]> ws)).
Proof.
  intros Hj Hw. rewrite insert_take_drop by (by eapply lookup_lt_Some).
  rewrite <-(take_drop_middle ws j w Hj) at 1. rewrite !reserved_app. unfold reserved at 2 4. simpl. fold (reserved (drop (Datatypes.S j) ws)).
  unfold reserved. simpl. lia.
Qed.

Lemma reserved_le ws : reserved ws <= 10 * length ws.
Proof. induction ws as [|w ws IH]; [done|]. change (w :: ws) with ([w] ++ ws). rewrite reserved_app, length_app. unfold reserved at 1. simpl. lia. Qed.

Lemma logged_nil l : lh_n (lg_lh l) = 0%Z -> length (lh_block (lg_lh l)) = LOGBLOCKS -> logged l [].
Proof. intros. by split; [..|constructor]. Qed.

Lemma commit_clears {S} `{BlockCache S} l l' (s s' : S) bs : commit l s = Ret (l', s') -> logged l bs ->
  logged l' [] /\ lg_outstanding l' = lg_outstanding l.
Proof.
  unfold commit. intros E Hl. case_match eqn:En.
  - repeat (apply obind_inv in E as (? & _ & E)). simplify_eq. split; [|done]. apply logged_nil; [done|apply Hl].
  - simplify_eq. split; [|done]. apply logged_nil; [|apply Hl].
    apply Z.ltb_ge in En. rewrite (lo_n _ _ Hl) in *. lia.
Qed.

Lemma log_inv_step {S} `{BlockCache S} l l' (s s' : S) ws ws' :
  rstep (l, s, ws) (l', s', ws') -> log_inv l ws -> log_inv l' ws'.
Proof.
  intros Hs [(bs & Hl & Hr) Ho Hc]. inversion Hs as [? ? ? ? E|? ? ? ? ? j w i Hj Hw E|? ? ? ? ws1 w ws2 E|]; subst.
  - unfold begin_op in E. rewrite Hc in E. case_match eqn:El; [done|]. simplify_eq.
    apply Z.ltb_ge in El. rewrite (lo_n _ _ Hl), Ho in El. pose proof (reserved_le ws).
    split; [exists bs; split; [destruct Hl; by split|]|rewrite length_app; simpl; lia|done].
    rewrite reserved_app. unfold reserved at 2. simpl. unfold MAXOPBLOCKS, LOGBLOCKS in *. lia.
  - unfold log_write in E. apply obind_inv in E as (b & _ & E). unfold MAXOPBLOCKS in Hw.
    pose proof (reserved_insert ws j w Hj ltac:(lia)) as Hi. pose proof (lookup_lt_Some _ _ _ Hj).
    destruct (log_absorb_ok l bs b Hl) as (l1 & E1 & Hl1 & _ & Eo & Ec & _); [lia..|].
    rewrite E1 in E. cbn [obind] in E. apply obind_inv in E as (s1 & _ & E). simplify_eq.
    split; [|by rewrite Eo, length_insert|congruence].
    exists (add_block bs b). split; [done|]. rewrite Hi in Hr. unfold add_block. destruct (decide (b ∈ bs)); [|rewrite length_app; simpl]; lia.
  - rewrite reserved_app in Hr. change (w :: ws2) with ([w] ++ ws2) in Hr. rewrite reserved_app in Hr.
    rewrite length_app in Ho. cbn [length] in Ho. unfold end_op in E. rewrite Hc in E. case_match eqn:Ez.
    + apply obind_inv in E as ([l1 s1] & E1 & E). simplify_eq. apply Z.eqb_eq in Ez.
      destruct (commit_clears _ _ _ _ bs E1) as [Hl1 Eo1]; [destruct Hl; by split|].
      split; cbn; [|rewrite Eo1; cbn; rewrite length_app; lia|done].
      exists []. split; [destruct Hl1; by split|]. rewrite reserved_app. simpl. lia.
    + simplify_eq. split; cbn; [|rewrite length_app; lia|done].
      exists bs. split; [destruct Hl; by split|]. rewrite reserved_app. lia.
  - split; [by exists bs|done|done].
Qed.

(** The reservation of [begin_op] is enough: in every interleaving of
    operations that begin, log at most [MAXOPBLOCKS] blocks each and end, the
    logged blocks and those that the operations may still log fit into the
    log, and no [log_write] finds it full. *)
Theorem log_space {S} `{BlockCache S} (l0 l : log) (s0 s : S) (ws : list nat)
    (Hinit : log_inv l0 []) (Hr : rtc rstep (l0, s0, []) (l, s, ws)) :
  (lh_n (lg_lh l) + Z.of_nat (reserved ws) <= Z.of_nat LOGBLOCKS)%Z /\
  lg_outstanding l = Z.of_nat (length ws) /\
  forall j w b, ws !! j = Some w -> (Z.of_nat w < MAXOPBLOCKS)%Z ->
    exists l' fresh, log_absorb l b = Ret (l', fresh).
Proof.
  assert (log_inv l ws) as [(bs & Hl & Hle) Ho Hc].
  { remember (l0, s0, []) as x eqn:Ex. remember (l, s, ws) as y eqn:Ey.
    assert (log_inv x.1.1 x.2) as Hx by (by subst). clear Hinit Ex. revert l s ws Ey.
    induction Hr as [x|x [[l1 s1] ws1] y Hs _ IH]; intros l s ws ->; [done|].
    eapply IH; [|done]. destruct x as [[l2 s2] ws2]. by eapply log_inv_step. }
  split; [rewrite (lo_n _ _ Hl); lia|]. split; [done|]. intros j w b Hj Hw. unfold MAXOPBLOCKS in Hw.
  pose proof (reserved_insert ws j w Hj ltac:(lia)). pose proof (lookup_lt_Some _ _ _ Hj).
  destruct (log_absorb_ok l bs b Hl) as (l' & E & _); [lia..|]. by eexists _, _.
Qed.

Lemma log_space_witness : exists l, begin_op log0 = Some l /\ exists l' fresh, log_absorb l 40 = Ret (l', fresh).
Proof.
  destruct (begin_op log0) as [l|] eqn:E; [|discriminate]. exists l. split; [reflexivity|].
  destruct (log_space log0 l (binit ∅) (binit ∅) [0]) as (_ & _ & Hw).
  - split; [|reflexivity|reflexivity]. exists []. split; [|apply Nat.leb_le; reflexivity]. apply logged_nil; reflexivity.
  - eapply rtc_l; [|apply rtc_refl]. apply (rs_begin log0 l (binit ∅) [] E).
  - exact (Hw 0 0 40%Z eq_refl eq_refl).
Defined.
