(* ===== verification/Fs.v ===== *)
(** * The file system: blocks and inodes (xv6/kernel/fs.c)

    The functions of [fs.c] over the transactional block store of [Txn].  There
    is one device, so the device number is not passed to [bread].  A block is
    the list of its bytes; the structures on the disk (super block, inodes,
    indirect blocks) are read and written at their offsets.  An in-memory inode
    is a record; the functions that work on one locked inode pass it as a
    value, those that work on the table of inodes take its index.  A call that
    would sleep on an inode lock does not return ([NoFuel]). *)

From S2P Require Import Prelude.
From S2P Require Import Bytes.
From S2P Require Import Kstring.
From S2P Require Import Bio.
From S2P Require Import Log.
From S2P Require Import Txn.

(** ** Data *)
Definition NDIRECT : nat := 12.
Definition NINDIRECT : nat := 256.
Definition MAXFILE : nat := 268.
Definition IPB : Z := 16.
Definition BPB : Z := 8192.
Definition NINODE : nat := 50.
Definition FSMAGIC : Z := 270544960.
Definition ROOTINO : Z := 1.
Definition T_DIR : Z := 1.
Definition T_FILE : Z := 2.
Definition T_DEVICE : Z := 3.
Definition DINODE : nat := 64.

Record superblock : Type := mk_sb {
  sb_magic : Z;
  sb_size : Z;
  sb_nblocks : Z;
  sb_ninodes : Z;
  sb_nlog : Z;
  sb_logstart : Z;
  sb_inodestart : Z;
  sb_bmapstart : Z
}.

Record dinode : Type := mk_di {
  d_type : Z;
  d_major : Z;
  d_minor : Z;
  d_nlink : Z;
  d_size : Z;
  d_addrs : list Z
}.

#[global] Instance dinode_eq_dec : EqDecision dinode.
Proof. solve_decision. Defined.

Record inode : Type := mk_inode {
  i_dev : Z;
  i_inum : Z;
  i_ref : Z;
  i_locked : bool;
  i_valid : bool;
  i_di : dinode
}.

Definition IBLOCK (sb : superblock) (i : Z) : Z := (i `div` IPB + sb_inodestart sb)%Z.
Definition BBLOCK (sb : superblock) (b : Z) : Z := (b `div` BPB + sb_bmapstart sb)%Z.

Definition get_uint (data : bytes) (i : nat) : Z := get_le 4 data (4 * i).
Definition put_uint (data : bytes) (i : nat) (v : Z) : bytes := put_le 4 data (4 * i) v.

(** [struct dinode] at an offset of its block *)
Definition slot (inum : Z) : nat := DINODE * Z.to_nat (inum `mod` IPB).

Definition dinode_at (data : bytes) (off : nat) : dinode :=
  mk_di (s16 (get_le 2 data off)) (s16 (get_le 2 data (off + 2))) (s16 (get_le 2 data (off + 4)))
    (s16 (get_le 2 data (off + 6))) (get_le 4 data (off + 8))
    ((fun k => get_le 4 data (off + 12 + 4 * k)) <$> seq 0 (NDIRECT + 1)).

Definition put_type (data : bytes) (off : nat) (type : Z) : bytes := put_le 2 data off (u16 type).

Fixpoint put_addrs (data : bytes) (off : nat) (addrs : list Z) : bytes :=
  match addrs with
  | [] => data
  | a :: addrs => put_addrs (put_le 4 data off a) (off + 4) addrs
  end.

Definition put_dinode (data : bytes) (off : nat) (d : dinode) : bytes :=
  let data := put_type data off (d_type d) in
  let data := put_le 2 data (off + 2) (u16 (d_major d)) in
  let data := put_le 2 data (off + 4) (u16 (d_minor d)) in
  let data := put_le 2 data (off + 6) (u16 (d_nlink d)) in
  let data := put_le 4 data (off + 8) (d_size d) in
  put_addrs data (off + 12) (d_addrs d).

Definition set_addr (d : dinode) (k : nat) (a : Z) : dinode :=
  mk_di (d_type d) (d_major d) (d_minor d) (d_nlink d) (d_size d) (<[k := a]> (d_addrs d)).
Definition set_size (d : dinode) (n : Z) : dinode :=
  mk_di (d_type d) (d_major d) (d_minor d) (d_nlink d) n (d_addrs d).
Definition set_nlink (d : dinode) (n : Z) : dinode :=
  mk_di (d_type d) (d_major d) (d_minor d) n (d_size d) (d_addrs d).

Definition with_di (ip : inode) (d : dinode) : inode :=
  mk_inode (i_dev ip) (i_inum ip) (i_ref ip) (i_locked ip) (i_valid ip) d.

Definition di0 : dinode := mk_di 0 0 0 0 0 (replicate (NDIRECT + 1) 0%Z).
Definition inode0 : inode := mk_inode 0 0 0 false false di0.

Section fs.
Context {T : Type} `{TxStore T}.

(** ** Blocks *)

Definition readsb (t : T) : outcome (T * superblock) :=
  let* '(t, bp) := t_bread t 1 in
  let* data := t_data t bp in
  let u i := get_uint data i in
  let sb := mk_sb (u 0) (u 1) (u 2) (u 3) (u 4) (u 5) (u 6) (u 7) in
  let* t := t_brelse t bp in
  Ret (t, sb).

Definition bzero (t : T) (bno : Z) : outcome T :=
  let* '(t, bp) := t_bread t bno in
  let* data := t_data t bp in
  let* data := memset data 0 0 BSIZE in
  let* t := t_set_data t bp data in
  let* t := t_log_write t bp in
  t_brelse t bp.

Definition bit_clear (byte m : Z) : bool := (Z.land byte m =? 0)%Z.

(** The inner loop of [balloc]: [k] bits to go from [bi]. *)
Fixpoint find_free (data : bytes) (b size bi : Z) (k : nat) : outcome (option Z) :=
  match k with
  | O => Ret None
  | S k =>
      if (b + bi <? size)%Z then
        let m := Z.shiftl 1 (bi `mod` 8) in
        let* byte := load data (Z.to_nat (bi `div` 8)) in
        if bit_clear byte m then Ret (Some bi) else find_free data b size (bi + 1) k
      else Ret None
  end.

Fixpoint balloc_loop (sb : superblock) (t : T) (b : Z) (fuel : nat) : outcome (T * Z) :=
  match fuel with
  | O => NoFuel
  | S fuel =>
      if (b <? sb_size sb)%Z then
        let* '(t, bp) := t_bread t (BBLOCK sb b) in
        let* data := t_data t bp in
        let* found := find_free data b (sb_size sb) 0 (Z.to_nat BPB) in
        match found with
        | Some bi =>
            let m := Z.shiftl 1 (bi `mod` 8) in
            let* byte := load data (Z.to_nat (bi `div` 8)) in
            let* data := store data (Z.to_nat (bi `div` 8)) (Z.lor byte m) in
            let* t := t_set_data t bp data in
            let* t := t_log_write t bp in
            let* t := t_brelse t bp in
            let* t := bzero t (b + bi) in
            Ret (t, b + bi)%Z
        | None =>
            let* t := t_brelse t bp in
            balloc_loop sb t (b + BPB) fuel
        end
      else Ret (t, 0%Z)
  end.

Definition balloc (sb : superblock) (t : T) : outcome (T * Z) :=
  balloc_loop sb t 0 (S (S (Z.to_nat (sb_size sb `div` BPB)))).

Definition bfree (sb : superblock) (t : T) (b : Z) : outcome T :=
  let* '(t, bp) := t_bread t (BBLOCK sb b) in
  let* data := t_data t bp in
  let bi := (b `mod` BPB)%Z in
  let m := Z.shiftl 1 (bi `mod` 8) in
  let* byte := load data (Z.to_nat (bi `div` 8)) in
  if bit_clear byte m then Panic "freeing free block"
  else
    let* data := store data (Z.to_nat (bi `div` 8)) (Z.ldiff byte m) in
    let* t := t_set_data t bp data in
    let* t := t_log_write t bp in
    t_brelse t bp.

(** ** Inodes on the disk *)
Definition iupdate (sb : superblock) (t : T) (ip : inode) : outcome T :=
  let* '(t, bp) := t_bread t (IBLOCK sb (i_inum ip)) in
  let* data := t_data t bp in
  let* t := t_set_data t bp (put_dinode data (slot (i_inum ip)) (i_di ip)) in
  let* t := t_log_write t bp in
  t_brelse t bp.

Definition ifree (sb : superblock) (t : T) (inum : Z) : outcome T :=
  let* '(t, bp) := t_bread t (IBLOCK sb inum) in
  let* data := t_data t bp in
  let* t := t_set_data t bp (put_type data (slot inum) 0) in
  let* t := t_log_write t bp in
  t_brelse t bp.

(** ** Inode content *)

(** The part of [bmap] that works on the indirect block [addr]. *)
Definition bmap_entry (sb : superblock) (t : T) (ip : inode) (addr : Z) (bn : nat) : outcome (T * inode * Z) :=
  let* '(t, bp) := t_bread t addr in
  let* a := t_data t bp in
  let addr := get_uint a bn in
  let* '(t, addr) :=
    if (addr =? 0)%Z then
      let* '(t, addr) := balloc sb t in
      if (addr =? 0)%Z then Ret (t, addr)
      else
        let* t := t_set_data t bp (put_uint a bn addr) in
        let* t := t_log_write t bp in
        Ret (t, addr)
    else Ret (t, addr) in
  let* t := t_brelse t bp in
  Ret (t, ip, addr).

Definition bmap (sb : superblock) (t : T) (ip : inode) (bn : Z) : outcome (T * inode * Z) :=
  if (bn <? Z.of_nat NDIRECT)%Z then
    let* addr := load (d_addrs (i_di ip)) (Z.to_nat bn) in
    if (addr =? 0)%Z then
      let* '(t, addr) := balloc sb t in
      if (addr =? 0)%Z then Ret (t, ip, 0%Z)
      else Ret (t, with_di ip (set_addr (i_di ip) (Z.to_nat bn) addr), addr)
    else Ret (t, ip, addr)
  else
    let bn := (bn - Z.of_nat NDIRECT)%Z in
    if (bn <? Z.of_nat NINDIRECT)%Z then
      let* addr := load (d_addrs (i_di ip)) NDIRECT in
      let* '(t, ip, addr) :=
        if (addr =? 0)%Z then
          let* '(t, addr) := balloc sb t in
          if (addr =? 0)%Z then Ret (t, ip, 0%Z)
          else Ret (t, with_di ip (set_addr (i_di ip) NDIRECT addr), addr)
        else Ret (t, ip, addr) in
      if (addr =? 0)%Z then Ret (t, ip, 0%Z)
      else
        bmap_entry sb t ip addr (Z.to_nat bn)
    else Panic "bmap: out of range".

(** The two loops of [itrunc]. *)
Fixpoint free_direct (sb : superblock) (t : T) (ip : inode) (i k : nat) : outcome (T * inode) :=
  match k with
  | O => Ret (t, ip)
  | S k =>
      let* a := load (d_addrs (i_di ip)) i in
      if (a =? 0)%Z then free_direct sb t ip (S i) k
      else
        let* t := bfree sb t a in
        free_direct sb t (with_di ip (set_addr (i_di ip) i 0)) (S i) k
  end.

Fixpoint free_indirect (sb : superblock) (t : T) (a : bytes) (j k : nat) : outcome T :=
  match k with
  | O => Ret t
  | S k =>
      let* t := if (get_uint a j =? 0)%Z then Ret t else bfree sb t (get_uint a j) in
      free_indirect sb t a (S j) k
  end.

Definition itrunc (sb : superblock) (t : T) (ip : inode) : outcome (T * inode) :=
  let* '(t, ip) := free_direct sb t ip 0 NDIRECT in
  let* ind := load (d_addrs (i_di ip)) NDIRECT in
  let* '(t, ip) :=
    if (ind =? 0)%Z then Ret (t, ip)
    else
      let* '(t, bp) := t_bread t ind in
      let* a := t_data t bp in
      let* t := free_indirect sb t a 0 NINDIRECT in
      let* t := t_brelse t bp in
      let* t := bfree sb t ind in
      Ret (t, with_di ip (set_addr (i_di ip) NDIRECT 0)) in
  let ip := with_di ip (set_size (i_di ip) 0) in
  let* t := iupdate sb t ip in
  Ret (t, ip).

Definition BS : Z := 1024.

(** [either_copyout] and [either_copyin] with a kernel address: a copy into or
    from an object of the kernel. *)
Definition kcopyout (mem : bytes) (dst : Z) (x : bytes) : outcome (bytes * bool) :=
  if (length x =? 0) || ((0 <=? dst)%Z && (Z.to_nat dst + length x <=? length mem))
  then Ret (splice (Z.to_nat dst) x mem, true) else Undef.
Definition kcopyin (mem : bytes) (src m : Z) : outcome (bytes * bytes * bool) :=
  if (0 <=? src)%Z && (Z.to_nat src + Z.to_nat m <=? length mem)
  then Ret (mem, slice (Z.to_nat src) (Z.to_nat m) mem, true) else Undef.

(** The memory [M] that is copied to or from is a part of the state: a copy to
    or from user memory can allocate pages.  [copyout mem dst data] is the memory
    after [either_copyout] and whether it succeeded. *)
Section copy.
Context {M : Type}.

Fixpoint readi_loop (copyout : M -> Z -> bytes -> outcome (M * bool)) (sb : superblock) (t : T) (ip : inode)
    (mem : M) (dst off n tot : Z) (fuel : nat) : outcome (T * inode * M * Z) :=
  match fuel with
  | O => NoFuel
  | S fuel =>
      if (tot <? n)%Z then
        let* '(t, ip, addr) := bmap sb t ip (off `div` BS) in
        if (addr =? 0)%Z then Ret (t, ip, mem, tot)
        else
          let* '(t, bp) := t_bread t addr in
          let m := Z.min (n - tot) (BS - off `mod` BS) in
          let* data := t_data t bp in
          let* '(mem, ok) := copyout mem dst (slice (Z.to_nat (off `mod` BS)) (Z.to_nat m) data) in
          if negb ok then let* t := t_brelse t bp in Ret (t, ip, mem, (-1)%Z)
          else
            let* t := t_brelse t bp in
            readi_loop copyout sb t ip mem (dst + m) (off + m) n (tot + m) fuel
      else Ret (t, ip, mem, tot)
  end.

(** One round per block of the file, and [bmap] panics behind the last. *)
Definition readi (copyout : M -> Z -> bytes -> outcome (M * bool)) (sb : superblock) (t : T) (ip : inode)
    (mem : M) (dst off n : Z) : outcome (T * inode * M * Z) :=
  let size := d_size (i_di ip) in
  if (size <? off)%Z || (u32 (off + n) <? off)%Z then Ret (t, ip, mem, 0%Z)
  else
    let n := if (size <? u32 (off + n))%Z then (size - off)%Z else n in
    readi_loop copyout sb t ip mem dst off n 0 (MAXFILE + 2).

(** [copyin mem src m]: the memory, the bytes that [either_copyin] stored and
    whether it succeeded; when it fails it may have stored some of them. *)
Fixpoint writei_loop (copyin : M -> Z -> Z -> outcome (M * bytes * bool)) (sb : superblock) (t : T) (ip : inode)
    (mem : M) (src off n tot : Z) (fuel : nat) : outcome (T * inode * M * Z * Z) :=
  match fuel with
  | O => NoFuel
  | S fuel =>
      if (tot <? n)%Z then
        let* '(t, ip, addr) := bmap sb t ip (off `div` BS) in
        if (addr =? 0)%Z then Ret (t, ip, mem, off, tot)
        else
          let* '(t, bp) := t_bread t addr in
          let m := Z.min (n - tot) (BS - off `mod` BS) in
          let* data := t_data t bp in
          let* '(mem, x, ok) := copyin mem src m in
          let* t := t_set_data t bp (splice (Z.to_nat (off `mod` BS)) x data) in
          let* t := t_log_write t bp in
          let* t := t_brelse t bp in
          if ok : bool then writei_loop copyin sb t ip mem (src + m) (off + m) n (tot + m) fuel
          else Ret (t, ip, mem, off, tot)
      else Ret (t, ip, mem, off, tot)
  end.

Definition writei (copyin : M -> Z -> Z -> outcome (M * bytes * bool)) (sb : superblock) (t : T) (ip : inode)
    (mem : M) (src off n : Z) : outcome (T * inode * M * Z) :=
  let size := d_size (i_di ip) in
  if (size <? off)%Z || (u32 (off + n) <? off)%Z then Ret (t, ip, mem, (-1)%Z)
  else if (Z.of_nat MAXFILE * BS <? u32 (off + n))%Z then Ret (t, ip, mem, (-1)%Z)
  else
    let* '(t, ip, mem, off, tot) := writei_loop copyin sb t ip mem src off n 0 (MAXFILE + 2) in
    let ip := if (d_size (i_di ip) <? off)%Z then with_di ip (set_size (i_di ip) off) else ip in
    let* t := iupdate sb t ip in
    Ret (t, ip, mem, tot).
End copy.
End fs.
