(* ===== verification/FsBlocks.v ===== *)
(** * Free blocks and disk inodes: proofs (xv6/kernel/fs.c)

    The bitmap of free blocks as a set of bits, the allocation of a block, and
    the inodes in their blocks, against the laws of the transactional store. *)

From S2P Require Import Prelude.
From S2P Require Import Bytes.
From S2P Require Import Kstring.
From S2P Require Import Bio.
From S2P Require Import Log.
From S2P Require Import Txn.
From S2P Require Import Fs.

(** ** Bits of a block *)
Definition bit (data : bytes) (i : Z) : bool := Z.testbit (default 0%Z (data !! Z.to_nat (i `div` 8))) (i `mod` 8).

Definition set_bit (data : bytes) (i : Z) : bytes :=
  let k := Z.to_nat (i `div` 8) in <[k := Z.lor (default 0%Z (data !! k)) (Z.shiftl 1 (i `mod` 8))]> data.
Definition clear_bit (data : bytes) (i : Z) : bytes :=
  let k := Z.to_nat (i `div` 8) in <[k := Z.ldiff (default 0%Z (data !! k)) (Z.shiftl 1 (i `mod` 8))]> data.

Lemma bit_clear_testbit byte k : (0 <= k)%Z -> bit_clear byte (Z.shiftl 1 k) = negb (Z.testbit byte k).
Proof.
  intros Hk. unfold bit_clear. rewrite Z.shiftl_1_l. destruct (Z.testbit byte k) eqn:E; simpl.
  - apply Z.eqb_neq. intros H0. assert (Z.testbit (Z.land byte (2 ^ k)) k = true) as Ht.
    { rewrite Z.land_spec, E, Z.pow2_bits_true by done. done. }
    rewrite H0, Z.testbit_0_l in Ht. done.
  - apply Z.eqb_eq. apply Z.bits_inj'. intros n Hn. rewrite Z.land_spec, Z.testbit_0_l.
    destruct (decide (n = k)) as [->|]; [by rewrite E|]. rewrite Z.pow2_bits_false by done. apply andb_false_r.
Qed.

Lemma shiftl_1_testbit k n : (0 <= k)%Z -> (0 <= n)%Z -> Z.testbit (Z.shiftl 1 k) n = (k =? n)%Z.
Proof. intros. rewrite Z.shiftl_1_l. by apply Z.pow2_bits_eqb. Qed.

Section bits.
Context (data : bytes) (i j : Z).
Context (Hi : (0 <= i)%Z) (Hj : (0 <= j)%Z) (Hl : Z.to_nat (i `div` 8) < length data).

Lemma bit_insert v :
  bit (<[Z.to_nat (i `div` 8) := v]> data) j =
  if decide (i `div` 8 = j `div` 8)%Z then Z.testbit v (j `mod` 8) else bit data j.
Proof.
  unfold bit. case_decide as E.
  - by rewrite <-E, list_lookup_insert_eq.
  - rewrite list_lookup_insert_ne; [done|]. intros E2. apply E.
    assert (0 <= i `div` 8)%Z by (by apply Z.div_pos). assert (0 <= j `div` 8)%Z by (by apply Z.div_pos). lia.
Qed.

Lemma same_bit : (i `div` 8 = j `div` 8 -> (i `mod` 8 =? j `mod` 8) = (i =? j))%Z.
Proof. intros E. destruct (Z.eqb_spec i j) as [->|Hne]; [apply Z.eqb_refl|]. apply Z.eqb_neq.
  pose proof (Z.div_mod i 8). pose proof (Z.div_mod j 8). lia. Qed.

Lemma bit_set : bit (set_bit data i) j = (i =? j)%Z || bit data j.
Proof.
  unfold set_bit. rewrite bit_insert. case_decide as E.
  - rewrite Z.lor_spec, shiftl_1_testbit, same_bit by (done || apply Z.mod_pos_bound; lia).
    unfold bit. rewrite E. apply orb_comm.
  - destruct (Z.eqb_spec i j) as [->|]; [done|]. done.
Qed.

Lemma bit_reset : bit (clear_bit data i) j = negb (i =? j)%Z && bit data j.
Proof.
  unfold clear_bit. rewrite bit_insert. case_decide as E.
  - rewrite Z.ldiff_spec, shiftl_1_testbit, same_bit by (done || apply Z.mod_pos_bound; lia).
    unfold bit. rewrite E. apply andb_comm.
  - destruct (Z.eqb_spec i j) as [->|]; [done|]. done.
Qed.
End bits.

Lemma length_set_bit data i : length (set_bit data i) = length data.
Proof. apply length_insert. Qed.
Lemma length_clear_bit data i : length (clear_bit data i) = length data.
Proof. apply length_insert. Qed.

(** The inner loop of [balloc] finds the first clear bit. *)
Lemma find_free_ok data b size k : forall bi, (0 <= bi)%Z ->
  (bi + Z.of_nat k <= BPB)%Z -> length data = BSIZE ->
  (exists bi', find_free data b size bi k = Ret (Some bi') /\ (bi <= bi' < bi + Z.of_nat k)%Z /\
     (b + bi' < size)%Z /\ bit data bi' = false /\ forall x, (bi <= x < bi')%Z -> bit data x = true) \/
  (find_free data b size bi k = Ret None /\
     forall x, (bi <= x < bi + Z.of_nat k)%Z -> (b + x < size)%Z -> bit data x = true).
Proof.
  induction k as [|k IH]; intros bi Hbi Hk Hlen; cbn [find_free]; [right; split; [done|lia]|].
  destruct (Z.ltb_spec (b + bi) size) as [Hlt|Hge]; [|right; split; [done|lia]].
  assert (Z.to_nat (bi `div` 8) < length data) as Hin.
  { rewrite Hlen. unfold BSIZE, BPB in *. assert (bi `div` 8 < 1024)%Z by (apply Z.div_lt_upper_bound; lia).
    assert (0 <= bi `div` 8)%Z by (by apply Z.div_pos). lia. }
  destruct (lookup_lt_is_Some_2 data _ Hin) as [byte Eb]. rewrite (load_ret _ _ _ Eb). cbn [obind].
  rewrite bit_clear_testbit by (apply Z.mod_pos_bound; lia).
  assert (bit data bi = Z.testbit byte (bi `mod` 8)) as Ebit by (unfold bit; by rewrite Eb).
  destruct (Z.testbit byte (bi `mod` 8)); simpl.
  - destruct (IH (bi + 1)%Z) as [(bi' & E & Hr & Hsz & Hc & Hx)|(E & Hx)]; [lia..| |].
    + left. exists bi'. split_and!; try done; try lia. intros x Hxx.
      destruct (decide (x = bi)) as [->|]; [done|]. apply Hx. lia.
    + right. split; [done|]. intros x Hxx. destruct (decide (x = bi)) as [->|]; [done|]. apply Hx. lia.
  - left. exists bi. split_and!; try done; lia.
Qed.

Lemma is_byte_bits x : is_byte x <-> (0 <= x)%Z /\ forall k, (8 <= k)%Z -> Z.testbit x k = false.
Proof.
  unfold is_byte. split.
  - intros [? ?]. split; [done|]. apply (Z.bounded_iff_bits_nonneg 8); (done || lia).
  - intros [H0 Hb]. split; [done|]. change 256%Z with (2 ^ 8)%Z. by apply Z.bounded_iff_bits_nonneg.
Qed.

Lemma is_byte_lor x k : is_byte x -> (0 <= k < 8)%Z -> is_byte (Z.lor x (Z.shiftl 1 k)).
Proof.
  rewrite !is_byte_bits. intros [H0 Hb] Hk. split; [apply Z.lor_nonneg; rewrite Z.shiftl_nonneg; lia|].
  intros n Hn. rewrite Z.lor_spec, Hb, shiftl_1_testbit by lia. by apply Z.eqb_neq; lia.
Qed.

Lemma is_byte_ldiff x y : is_byte x -> is_byte (Z.ldiff x y).
Proof.
  rewrite !is_byte_bits. intros [H0 Hb]. split; [apply Z.ldiff_nonneg; lia|].
  intros n Hn. by rewrite Z.ldiff_spec, Hb.
Qed.

(** ** Blocks *)
Definition block_ok (d : bytes) : Prop := length d = BSIZE /\ Forall is_byte d.

Lemma zero_block_ok : block_ok zero_block.
Proof. split; [apply length_replicate|]. apply Forall_replicate. unfold is_byte. lia. Qed.

Lemma default_byte d k : Forall is_byte d -> is_byte (default 0%Z (d !! k)).
Proof.
  intros Hf. destruct (d !! k) as [x|] eqn:E; simpl; [by eapply Forall_lookup_1|]. unfold is_byte. lia.
Qed.

Lemma set_bit_ok d i : block_ok d -> block_ok (set_bit d i).
Proof.
  intros [Hl Hf]. split; [by rewrite length_set_bit|]. apply Forall_insert; [done|].
  apply is_byte_lor; [by apply default_byte|]. apply Z.mod_pos_bound. lia.
Qed.

Lemma clear_bit_ok d i : block_ok d -> block_ok (clear_bit d i).
Proof.
  intros [Hl Hf]. split; [by rewrite length_clear_bit|]. apply Forall_insert; [done|].
  by apply is_byte_ldiff, default_byte.
Qed.

Lemma put_le_ok n d off v : block_ok d -> off + n <= BSIZE -> block_ok (put_le n d off v).
Proof. intros [Hl Hf] Ho. split; [rewrite length_put_le; [done|lia]|by apply put_le_bytes]. Qed.

Lemma splice_ok d off x : block_ok d -> off + length x <= BSIZE -> Forall is_byte x -> block_ok (splice off x d).
Proof.
  intros [Hl Hf] Ho Hx. split; [rewrite length_splice; lia|]. unfold splice. rewrite !Forall_app.
  split; [by apply Forall_take|]. split; [done|by apply Forall_drop].
Qed.

(** Block [x] is marked in use. *)
Definition used (sb : superblock) (V : Z -> bytes) (x : Z) : bool := bit (V (BBLOCK sb x)) (x `mod` BPB).

(** The first block behind the bitmap. *)
Definition data_start (sb : superblock) : Z := (BBLOCK sb (sb_size sb - 1) + 1)%Z.

(** The layout that [mkfs] gives to a disk: inodes, bitmap, data. *)
Record layout {T} `{TxLaws T} (sb : superblock) : Prop := {
  ly_start : (0 <= sb_inodestart sb <= sb_bmapstart sb)%Z;
  ly_inodes : forall i, (0 <= i < sb_ninodes sb)%Z -> (IBLOCK sb i < sb_bmapstart sb)%Z;
  ly_data : (data_start sb < sb_size sb <= 4294967295)%Z;
  ly_block : forall b, (sb_inodestart sb <= b < sb_size sb)%Z -> t_block b
}.

(** Blocks hold bytes, and everything in front of the data is in use. *)
Record disk_ok (sb : superblock) (V : Z -> bytes) : Prop := {
  dk_block : forall b, block_ok (V b);
  dk_meta : forall b, (0 <= b < data_start sb)%Z -> used sb V b = true
}.

(** What [balloc] and [bfree] make of the disk. *)
Definition alloc_block (sb : superblock) (V : Z -> bytes) (b : Z) : Z -> bytes :=
  upd (upd V (BBLOCK sb b) (set_bit (V (BBLOCK sb b)) (b `mod` BPB))) b zero_block.
Definition free_block (sb : superblock) (V : Z -> bytes) (b : Z) : Z -> bytes :=
  upd V (BBLOCK sb b) (clear_bit (V (BBLOCK sb b)) (b `mod` BPB)).

Section layout.
Context {T : Type} `{TxLaws T} (sb : superblock) (LY : layout (T := T) sb).

Lemma bblock_range x : (0 <= x < sb_size sb)%Z -> (sb_bmapstart sb <= BBLOCK sb x < data_start sb)%Z.
Proof.
  intros Hx. unfold data_start, BBLOCK, BPB.
  assert (0 <= x `div` 8192)%Z by (apply Z.div_pos; lia). pose proof (Z.div_le_mono x (sb_size sb - 1) 8192). lia.
Qed.

Lemma bblock_block x : (0 <= x < sb_size sb)%Z -> t_block (BBLOCK sb x).
Proof. intros Hx. pose proof (bblock_range x Hx). destruct LY. apply ly_block0. lia. Qed.

Lemma iblock_range i : (0 <= i < sb_ninodes sb)%Z -> (sb_inodestart sb <= IBLOCK sb i < sb_bmapstart sb)%Z.
Proof.
  intros Hi. split; [|by apply LY]. unfold IBLOCK, IPB.
  assert (0 <= i `div` 16)%Z by (apply Z.div_pos; lia). lia.
Qed.

Lemma data_start_range : (sb_bmapstart sb < data_start sb < sb_size sb)%Z.
Proof.
  split; [|apply LY]. destruct LY as [Hs Hi Hd Hb]. unfold data_start, BBLOCK, BPB in *.
  assert (0 <= sb_size sb - 1)%Z.
  { destruct (Z.le_gt_cases 0 (sb_size sb - 1)); [done|].
    assert (sb_size sb <= 0)%Z by lia. 
    pose proof (Z.div_mod (sb_size sb - 1) 8192). pose proof (Z.mod_pos_bound (sb_size sb - 1) 8192). nia. }
  assert (0 <= (sb_size sb - 1) `div` 8192)%Z by (by apply Z.div_pos). lia.
Qed.

Lemma iblock_block i : (0 <= i < sb_ninodes sb)%Z -> t_block (IBLOCK sb i).
Proof. intros Hi. pose proof (iblock_range i Hi). pose proof data_start_range. apply LY. lia. Qed.

Lemma bit_index x : (0 <= x)%Z -> (0 <= x `mod` BPB)%Z /\ Z.to_nat ((x `mod` BPB) `div` 8) < BSIZE.
Proof.
  intros Hx. unfold BPB, BSIZE. pose proof (Z.mod_pos_bound x 8192). split; [lia|].
  assert (0 <= (x `mod` 8192) `div` 8 < 1024)%Z; [|lia].
  split; [apply Z.div_pos; lia|apply Z.div_lt_upper_bound; lia].
Qed.

(** Different blocks have different bits. *)
Lemma bit_inj x y : (0 <= x)%Z -> (0 <= y)%Z -> BBLOCK sb x = BBLOCK sb y ->
  (x `mod` BPB =? y `mod` BPB)%Z = (x =? y)%Z.
Proof.
  unfold BBLOCK, BPB. intros Hx Hy E. destruct (Z.eqb_spec x y) as [->|]; [apply Z.eqb_refl|]. apply Z.eqb_neq.
  pose proof (Z.div_mod x 8192). pose proof (Z.div_mod y 8192). lia.
Qed.

Context (V : Z -> bytes) (OK : disk_ok sb V).

Lemma used_alloc b x : (data_start sb <= b < sb_size sb)%Z -> (0 <= x < sb_size sb)%Z ->
  used sb (alloc_block sb V b) x = (b =? x)%Z || used sb V x.
Proof.
  intros Hb Hx. pose proof data_start_range as Hds. pose proof (bblock_range x Hx) as Hxr. destruct LY as [Hst _ _ _].
  pose proof (bit_index b) as [? ?]; [lia|]. pose proof (bit_index x) as [? ?]; [lia|].
  unfold used, alloc_block. rewrite upd_other by lia. unfold upd. case_decide as E.
  - rewrite E, bit_set by (rewrite ?(proj1 (dk_block _ _ OK _)); done).
    rewrite bit_inj by (done || lia). done.
  - destruct (Z.eqb_spec b x) as [->|]; [done|]. done.
Qed.

Lemma used_free b x : (0 <= b < sb_size sb)%Z -> (0 <= x < sb_size sb)%Z ->
  used sb (free_block sb V b) x = negb (b =? x)%Z && used sb V x.
Proof.
  intros Hb Hx. pose proof (bit_index b) as [? ?]; [lia|]. pose proof (bit_index x) as [? ?]; [lia|].
  unfold used, free_block, upd. case_decide as E.
  - rewrite E, bit_reset by (rewrite ?(proj1 (dk_block _ _ OK _)); done).
    rewrite bit_inj by (done || lia). done.
  - destruct (Z.eqb_spec b x) as [->|]; [done|]. done.
Qed.

Lemma upd_ok b d : block_ok d -> forall x, block_ok (upd V b d x).
Proof. intros Hd x. unfold upd. case_decide; [done|apply OK]. Qed.

Lemma alloc_block_ok b : (data_start sb <= b < sb_size sb)%Z -> disk_ok sb (alloc_block sb V b).
Proof.
  intros Hb. split.
  - intros x. unfold alloc_block, upd. repeat case_decide; [apply zero_block_ok|apply set_bit_ok, OK|apply OK].
  - intros x Hx. pose proof data_start_range. rewrite used_alloc, (dk_meta _ _ OK x Hx) by lia. apply orb_true_r.
Qed.

Lemma free_ok b : (data_start sb <= b < sb_size sb)%Z -> disk_ok sb (free_block sb V b).
Proof.
  intros Hb. pose proof data_start_range as Hds. destruct LY as [Hst _ _ _]. split.
  - apply upd_ok, clear_bit_ok, OK.
  - intros x Hx. rewrite used_free, (dk_meta _ _ OK x Hx) by lia.
    rewrite (proj2 (Z.eqb_neq b x)) by lia. done.
Qed.

(** Changing a block outside the bitmap. *)
Lemma upd_used b d x : (b < sb_bmapstart sb \/ data_start sb <= b)%Z -> (0 <= x < sb_size sb)%Z ->
  used sb (upd V b d) x = used sb V x.
Proof. intros Hb Hx. pose proof (bblock_range x Hx). unfold used. rewrite upd_other by lia. done. Qed.

Lemma upd_disk_ok b d : (b < sb_bmapstart sb \/ data_start sb <= b)%Z -> block_ok d -> disk_ok sb (upd V b d).
Proof.
  intros Hb Hd. pose proof data_start_range as Hds. destruct LY as [Hst _ _ _]. split; [by apply upd_ok|].
  intros x Hx. rewrite upd_used by lia. by apply OK.
Qed.
End layout.

(** ** Allocation and release *)
Section alloc.
Context {T : Type} `{TxLaws T} (sb : superblock) (LY : layout (T := T) sb).

(** The caller has locked data blocks that are in use. *)
Definition locks_ok (V : Z -> bytes) (L : gmap Z bool) : Prop :=
  size L < 3 /\ forall x, is_Some (L !! x) -> (data_start sb <= x < sb_size sb)%Z /\ used sb V x = true.

Lemma locks_bitmap V L x : locks_ok V L -> (0 <= x < sb_size sb)%Z -> L !! BBLOCK sb x = None.
Proof.
  intros [_ HL] Hx. destruct (L !! BBLOCK sb x) as [c|] eqn:E; [|done].
  destruct (HL _ ltac:(by eexists)) as [? _]. pose proof (bblock_range sb x Hx). lia.
Qed.

Lemma bzero_ok t V L D b : t_rep t V L D -> L !! b = None -> t_block b -> size L < 3 -> block_ok (V b) ->
  S (size D) <= TXCAP ->
  exists t', bzero t b = Ret t' /\ t_rep t' (upd V b zero_block) L ({[b]} ∪ D) /\ tkeeps L t t'.
Proof.
  intros R Hb Hbl Hs [Hlen _] Hsz. unfold bzero.
  destruct (use_bread t V L D b R Hb Hbl Hs) as (t1 & i & -> & E1 & R1 & H1 & K1). cbn [obind]. rewrite E1. cbn [obind].
  rewrite memset_spec by lia. cbn [obind].
  destruct (use_write_brelse t1 V L D b i (splice 0 (replicate BSIZE (0 `mod` 256)%Z) (V b)) R1 Hb H1 Hsz)
    as (t2 & t3 & t4 & -> & E3 & E4 & R4 & K4). cbn [obind]. rewrite E3. cbn [obind].
  exists t4. split; [done|]. split; [|by eapply tkeeps_trans].
  replace zero_block with (splice 0 (replicate BSIZE (0 `mod` 256)%Z) (V b)); [done|].
  unfold splice. rewrite length_replicate, drop_ge by lia. apply app_nil_r.
Qed.

Lemma bit_byte d i : block_ok d -> (0 <= i < BPB)%Z -> exists byte, load d (Z.to_nat (i `div` 8)) = Ret byte /\
  byte = default 0%Z (d !! Z.to_nat (i `div` 8)) /\ Z.to_nat (i `div` 8) < length d.
Proof.
  intros [Hl _] Hi. pose proof (bit_index i) as [_ Hx]; [lia|]. rewrite Z.mod_small in Hx by done.
  rewrite <-Hl in Hx. destruct (lookup_lt_is_Some_2 _ _ Hx) as [byte E].
  exists byte. split; [by apply load_ret|]. by rewrite E.
Qed.

Lemma div_mod_base b bi : (0 <= bi < BPB)%Z -> (b `mod` BPB = 0)%Z ->
  ((b + bi) `div` BPB = b `div` BPB)%Z /\ ((b + bi) `mod` BPB = bi)%Z.
Proof.
  intros Hbi Hm. pose proof (Z.div_mod b BPB) as E. rewrite Hm in E. unfold BPB in *.
  replace (b + bi)%Z with (bi + (b `div` 8192) * 8192)%Z by lia.
  rewrite Z.div_add, Z.mod_add, Z.div_small, Z.mod_small by lia. lia.
Qed.

Lemma balloc_loop_ok V L D (OK : disk_ok sb V) (HL : locks_ok V L) (Hsz : size D + 2 <= TXCAP) fuel : forall t b,
  t_rep t V L D -> (0 <= b)%Z -> (b `mod` BPB = 0)%Z -> 0 < fuel -> (sb_size sb <= b + BPB * (Z.of_nat fuel - 1))%Z ->
  (forall x, (0 <= x < b)%Z -> (x < sb_size sb)%Z -> used sb V x = true) ->
  exists t' r, balloc_loop sb t b fuel = Ret (t', r) /\ tkeeps L t t' /\
    ((r = 0%Z /\ t_rep t' V L D /\ forall x, (0 <= x < sb_size sb)%Z -> used sb V x = true) \/
     ((data_start sb <= r < sb_size sb)%Z /\ used sb V r = false /\
      (forall x, (0 <= x < r)%Z -> used sb V x = true) /\
      t_rep t' (alloc_block sb V r) L ({[r]} ∪ ({[BBLOCK sb r]} ∪ D)))).
Proof.
  pose proof (data_start_range sb LY) as Hds. destruct LY as [Hst _ _ Hblk].
  induction fuel as [|fuel IH]; intros t b R Hb Hm Hf0 Hf Hlow; [lia|]. cbn [balloc_loop].
  destruct (Z.ltb_spec b (sb_size sb)) as [Hlt|Hge].
  2: { exists t, 0%Z. split; [done|]. split; [apply tkeeps_refl|]. left. split_and!; try done. intros x Hx. apply Hlow; lia. }
  destruct (use_bread t V L D (BBLOCK sb b) R) as (t1 & i & -> & E1 & R1 & H1 & K1);
    [apply (locks_bitmap V L); [done|lia]|apply (bblock_block sb LY); lia|apply HL|].
  cbn [obind]. rewrite E1. cbn [obind].
  destruct (find_free_ok (V (BBLOCK sb b)) b (sb_size sb) (Z.to_nat BPB) 0) as
    [(bi & -> & Hr & Hrs & Hc & Hx)|(-> & Hx)]; [lia|unfold BPB; lia|apply OK| |]; cbn [obind]; rewrite Z2Nat.id in * by (unfold BPB; lia).
  - destruct (div_mod_base b bi) as [Ed Em]; [lia|done|].
    assert (BBLOCK sb (b + bi) = BBLOCK sb b) as Ebb by (unfold BBLOCK; by rewrite Ed).
    assert (used sb V (b + bi) = false) as Hfree by (unfold used; by rewrite Ebb, Em).
    assert (data_start sb <= b + bi)%Z as Hdat.
    { destruct (Z.le_gt_cases (data_start sb) (b + bi)); [done|].
      rewrite (dk_meta _ _ OK) in Hfree by lia. done. }
    destruct (bit_byte (V (BBLOCK sb b)) bi) as (byte & -> & Eby & Hin); [apply OK|lia|]. cbn [obind].
    rewrite store_ret by done. cbn [obind]. rewrite Eby. fold (set_bit (V (BBLOCK sb b)) bi).
    destruct (use_write_brelse t1 V L D (BBLOCK sb b) i (set_bit (V (BBLOCK sb b)) bi) R1)
      as (t2 & t3 & t4 & -> & E3 & E4 & R4 & K4); [apply (locks_bitmap V L); [done|lia]|done|lia|].
    cbn [obind]. rewrite E3. cbn [obind]. rewrite E4. cbn [obind]. pose proof (size_add_le (BBLOCK sb b) D).
    destruct (bzero_ok t4 _ L _ (b + bi) R4) as (t5 & -> & R5 & K5).
    + destruct (L !! (b + bi)%Z) as [c|] eqn:E; [|done]. destruct HL as [_ HL].
      destruct (HL (b + bi)%Z ltac:(by eexists)) as [_ Hu]. congruence.
    + apply Hblk. lia.
    + apply HL.
    + apply (upd_ok sb V OK). apply set_bit_ok, OK.
    + lia.
    + cbn [obind]. exists t5, (b + bi)%Z. split; [done|]. split; [eauto using tkeeps_trans|].
      right. split_and!; [lia|lia|done| |].
      * intros x Hxx. destruct (Z.lt_ge_cases x b); [apply Hlow; lia|].
        destruct (div_mod_base b (x - b)) as [Ed' Em']; [lia|done|]. replace (b + (x - b))%Z with x in * by lia.
        unfold used, BBLOCK. rewrite Ed', Em'. apply Hx. lia.
      * unfold alloc_block. rewrite Ebb, Em. done.
  - destruct (use_brelse t1 V L D (BBLOCK sb b) i R1 H1) as (t2 & -> & R2 & K2); [apply (locks_bitmap V L); [done|lia]|].
    cbn [obind]. destruct (IH t2 (b + BPB)%Z R2) as (t' & r & E & K & Hres).
    + unfold BPB. lia.
    + rewrite <-(Z.mod_add b 1 BPB) in Hm by (unfold BPB; lia). by rewrite Z.mul_1_l in Hm.
    + unfold BPB in Hf. lia.
    + unfold BPB in *. lia.
    + intros x Hxx Hxs. destruct (Z.lt_ge_cases x b); [apply Hlow; lia|].
      destruct (div_mod_base b (x - b)) as [Ed' Em']; [lia|done|]. replace (b + (x - b))%Z with x in * by lia.
      unfold used, BBLOCK. rewrite Ed', Em'. apply Hx; lia.
    + exists t', r. split; [done|]. split; [|done]. eauto using tkeeps_trans.
Qed.

Lemma balloc_ok t V L D : t_rep t V L D -> disk_ok sb V -> locks_ok V L -> size D + 2 <= TXCAP ->
  exists t' r, balloc sb t = Ret (t', r) /\ tkeeps L t t' /\
    ((r = 0%Z /\ t_rep t' V L D /\ forall x, (0 <= x < sb_size sb)%Z -> used sb V x = true) \/
     ((data_start sb <= r < sb_size sb)%Z /\ used sb V r = false /\
      (forall x, (0 <= x < r)%Z -> used sb V x = true) /\
      t_rep t' (alloc_block sb V r) L ({[r]} ∪ ({[BBLOCK sb r]} ∪ D)))).
Proof.
  intros R OK HL Hsz. pose proof (data_start_range sb LY) as Hds. destruct LY as [Hst _ _ _].
  apply (balloc_loop_ok V L D OK HL Hsz); [done|done|done|lia| |lia].
  pose proof (Z.div_mod (sb_size sb) BPB). pose proof (Z.mod_pos_bound (sb_size sb) BPB). unfold BPB in *.
  assert (0 <= sb_size sb `div` 8192)%Z by (apply Z.div_pos; lia). lia.
Qed.

Lemma bfree_ok t V L D b : t_rep t V L D -> disk_ok sb V -> size L < 3 -> L !! BBLOCK sb b = None ->
  (0 <= b < sb_size sb)%Z -> used sb V b = true -> S (size D) <= TXCAP ->
  exists t', bfree sb t b = Ret t' /\ t_rep t' (free_block sb V b) L ({[BBLOCK sb b]} ∪ D) /\ tkeeps L t t'.
Proof.
  intros R OK HL Hbb Hb Hu Hsz. unfold bfree.
  destruct (use_bread t V L D (BBLOCK sb b) R) as (t1 & i & -> & E1 & R1 & H1 & K1);
    [done|by apply (bblock_block sb LY)|done|].
  cbn [obind]. rewrite E1. cbn [obind].
  assert (0 <= b `mod` BPB < BPB)%Z as Hm by (apply Z.mod_pos_bound; unfold BPB; lia).
  destruct (bit_byte (V (BBLOCK sb b)) (b `mod` BPB)) as (byte & -> & Eby & Hin); [apply OK|done|]. cbn [obind].
  rewrite bit_clear_testbit by (apply Z.mod_pos_bound; lia). rewrite Eby.
  unfold used, bit in Hu. rewrite Hu. cbn [negb]. rewrite store_ret by done. cbn [obind].
  fold (clear_bit (V (BBLOCK sb b)) (b `mod` BPB)).
  destruct (use_write_brelse t1 V L D (BBLOCK sb b) i (clear_bit (V (BBLOCK sb b)) (b `mod` BPB)) R1)
    as (t2 & t3 & t4 & -> & E3 & E4 & R4 & K4); [done..|].
  cbn [obind]. rewrite E3. cbn [obind]. exists t4. split_and!; [done|done|by eapply tkeeps_trans].
Qed.

(** A block that is free panics. *)
Lemma bfree_panics t V L D b : t_rep t V L D -> disk_ok sb V -> size L < 3 -> L !! BBLOCK sb b = None ->
  (0 <= b < sb_size sb)%Z -> used sb V b = false -> bfree sb t b = Panic "freeing free block".
Proof.
  intros R OK HL Hbb Hb Hu. unfold bfree.
  destruct (use_bread t V L D (BBLOCK sb b) R) as (t1 & i & -> & E1 & R1 & H1 & K1);
    [done|by apply (bblock_block sb LY)|done|].
  cbn [obind]. rewrite E1. cbn [obind].
  assert (0 <= b `mod` BPB < BPB)%Z as Hm by (apply Z.mod_pos_bound; unfold BPB; lia).
  destruct (bit_byte (V (BBLOCK sb b)) (b `mod` BPB)) as (byte & -> & Eby & Hin); [apply OK|done|]. cbn [obind].
  rewrite bit_clear_testbit by (apply Z.mod_pos_bound; lia). rewrite Eby.
  unfold used, bit in Hu. by rewrite Hu.
Qed.
End alloc.

(** ** Inodes in their blocks *)

(** The length of a block after stores. *)
Ltac put_len := try (rewrite length_put_le; [put_len|put_len; lia]).

Definition is_uint (z : Z) : Prop := (0 <= z < 4294967296)%Z.
Definition is_short (z : Z) : Prop := (-32768 <= z < 32768)%Z.

(** The fields of an inode fit their C types. *)
Record dinode_ok (d : dinode) : Prop := {
  do_type : is_short (d_type d);
  do_major : is_short (d_major d);
  do_minor : is_short (d_minor d);
  do_nlink : is_short (d_nlink d);
  do_size : is_uint (d_size d);
  do_len : length (d_addrs d) = NDIRECT + 1;
  do_addrs : Forall is_uint (d_addrs d)
}.

Lemma put_addrs_ok addrs : forall data off, off + 4 * length addrs <= length data -> Forall is_uint addrs ->
  length (put_addrs data off addrs) = length data /\
  (forall k a, addrs !! k = Some a -> get_le 4 (put_addrs data off addrs) (off + 4 * k) = a) /\
  (forall n o, o + n <= off \/ off + 4 * length addrs <= o ->
     get_le n (put_addrs data off addrs) o = get_le n data o).
Proof.
  induction addrs as [|a addrs IH]; intros data off Hl Hu; cbn [put_addrs length] in *; [done|].
  apply Forall_cons in Hu as [Ha Hu].
  assert (length (put_le 4 data off a) = length data) as Hlen by (apply length_put_le; lia).
  destruct (IH (put_le 4 data off a) (off + 4)) as (L1 & G1 & O1); [lia|done|].
  split_and!; [congruence| |].
  - intros [|k] x Hx; simpl in Hx.
    + simplify_eq. rewrite Nat.add_0_r, O1 by lia. apply get_put_le; [lia|done].
    + rewrite <-(G1 k x Hx). f_equal. lia.
  - intros n o Ho. rewrite O1 by lia. apply get_put_le_ne; lia.
Qed.

Lemma put_addrs_bytes addrs : forall data off, Forall is_byte data -> Forall is_byte (put_addrs data off addrs).
Proof. induction addrs as [|a addrs IH]; intros data off Hd; [done|]. apply IH. by apply put_le_bytes. Qed.

Lemma s16_put z data off : is_short z -> off + 2 <= length data -> s16 (get_le 2 (put_le 2 data off (u16 z)) off) = z.
Proof.
  intros Hz Hl. rewrite get_put_le; [by apply s16_u16|done|]. unfold u16. apply Z.mod_pos_bound. lia.
Qed.

Lemma length_put_dinode data off d : off + DINODE <= length data -> dinode_ok d ->
  length (put_dinode data off d) = length data.
Proof.
  intros Hl [_ _ _ _ _ Hn Hu]. unfold DINODE in Hl. unfold put_dinode, put_type.
  match goal with |- context [put_addrs ?x ?o _] => destruct (put_addrs_ok (d_addrs d) x o) as (-> & _) end;
    [rewrite Hn; put_len; unfold NDIRECT; lia|exact Hu|by put_len].
Qed.

Lemma dinode_at_put data off d : off + DINODE <= length data -> dinode_ok d ->
  dinode_at (put_dinode data off d) off = d.
Proof.
  intros Hl [Ht Hma Hmi Hnl Hs Hn Hu]. unfold DINODE in Hl. unfold put_dinode, put_type, dinode_at.
  match goal with |- context [put_addrs ?x ?o _] => destruct (put_addrs_ok (d_addrs d) x o) as (_ & G & O) end;
    [rewrite Hn; put_len; unfold NDIRECT; lia|exact Hu|].
  rewrite !O by lia. destruct d as [ty ma mi nl sz addrs]. cbn [d_type d_major d_minor d_nlink d_size d_addrs] in *.
  f_equal; try (repeat rewrite get_put_le_ne by (put_len; lia); apply s16_put; [done|put_len; lia]).
  { apply get_put_le; [put_len; lia|done]. }
  apply list_eq. intros k. rewrite list_lookup_fmap.
  destruct (Nat.lt_ge_cases k 13) as [Hk|Hk].
  - rewrite lookup_seq_lt by done. simpl. destruct (lookup_lt_is_Some_2 addrs k) as [a Ea]; [unfold NDIRECT in Hn; lia|].
    rewrite Ea. f_equal. by apply G.
  - rewrite lookup_seq_ge, lookup_ge_None_2 by (rewrite ?Hn; unfold NDIRECT; lia). done.
Qed.

Lemma dinode_at_ext data data' off :
  (forall n o, off <= o -> o + n <= off + DINODE -> get_le n data' o = get_le n data o) ->
  dinode_at data' off = dinode_at data off.
Proof.
  unfold DINODE. intros E. unfold dinode_at. rewrite !E by lia. f_equal. apply list_fmap_ext. intros i k Hk.
  apply lookup_seq in Hk as [-> Hi]. unfold NDIRECT in Hi. apply E; simpl; lia.
Qed.

Lemma dinode_at_put_ne data off d off' : off + DINODE <= length data -> dinode_ok d ->
  off' + DINODE <= off \/ off + DINODE <= off' ->
  dinode_at (put_dinode data off d) off' = dinode_at data off'.
Proof.
  intros Hl [_ _ _ _ _ Hn Hu] Ho. apply dinode_at_ext. unfold DINODE in *. intros n o H1 H2.
  unfold put_dinode, put_type.
  match goal with |- context [put_addrs ?x ?o _] => destruct (put_addrs_ok (d_addrs d) x o) as (_ & _ & O) end;
    [rewrite Hn; put_len; unfold NDIRECT; lia|exact Hu|].
  rewrite O by (rewrite Hn; unfold NDIRECT; lia).
  by rewrite !get_put_le_ne by (put_len; lia).
Qed.

Lemma dinode_at_ok data off : Forall is_byte data -> off + DINODE <= length data -> dinode_ok (dinode_at data off).
Proof.
  unfold DINODE. intros Hb Hl. assert (forall z, is_short (s16 z)) as Hs.
  { intros z. unfold is_short, s16. pose proof (Z.mod_pos_bound (z + 32768) 65536). lia. }
  split; unfold dinode_at; cbn [d_type d_major d_minor d_nlink d_size d_addrs]; [apply Hs..|apply (get_le_bound 4); [lia|done]|by rewrite length_fmap, length_seq|].
  apply Forall_fmap, Forall_seq. intros k Hk. apply (get_le_bound 4); [unfold NDIRECT in Hk; lia|done].
Qed.

Lemma put_dinode_ok data off d : block_ok data -> off + DINODE <= BSIZE -> dinode_ok d -> block_ok (put_dinode data off d).
Proof.
  intros [Hl Hb] Ho Hd. split; [rewrite length_put_dinode; [done|lia|done]|].
  unfold put_dinode, put_type. apply put_addrs_bytes. by repeat apply put_le_bytes.
Qed.

(** The inode [inum] on the disk. *)
Definition disk_inode (sb : superblock) (V : Z -> bytes) (inum : Z) : dinode :=
  dinode_at (V (IBLOCK sb inum)) (slot inum).

Lemma slot_range inum : (0 <= inum)%Z -> slot inum + DINODE <= BSIZE.
Proof. intros. unfold slot, DINODE, BSIZE, IPB. pose proof (Z.mod_pos_bound inum 16). lia. Qed.

Lemma slot_disjoint i j sb : (0 <= i)%Z -> (0 <= j)%Z -> i <> j -> IBLOCK sb i = IBLOCK sb j ->
  slot j + DINODE <= slot i \/ slot i + DINODE <= slot j.
Proof.
  unfold IBLOCK, slot, DINODE, IPB. intros Hi Hj Hne E.
  pose proof (Z.div_mod i 16). pose proof (Z.div_mod j 16).
  pose proof (Z.mod_pos_bound i 16). pose proof (Z.mod_pos_bound j 16). lia.
Qed.

Section inode.
Context {T : Type} `{TxLaws T} (sb : superblock) (LY : layout (T := T) sb).

(** What [iupdate] makes of the disk. *)
Definition update_inode (V : Z -> bytes) (inum : Z) (d : dinode) : Z -> bytes :=
  upd V (IBLOCK sb inum) (put_dinode (V (IBLOCK sb inum)) (slot inum) d).

Lemma iupdate_ok t V L D ip : t_rep t V L D -> (0 <= i_inum ip < sb_ninodes sb)%Z ->
  L !! IBLOCK sb (i_inum ip) = None -> size L < 3 -> S (size D) <= TXCAP ->
  exists t', iupdate sb t ip = Ret t' /\ tkeeps L t t' /\
    t_rep t' (update_inode V (i_inum ip) (i_di ip)) L ({[IBLOCK sb (i_inum ip)]} ∪ D).
Proof.
  intros R Hi HL Hs Hsz. unfold iupdate.
  destruct (use_bread t V L D (IBLOCK sb (i_inum ip)) R) as (t1 & i & -> & E1 & R1 & H1 & K1);
    [done|by apply (iblock_block sb LY)|done|].
  cbn [obind]. rewrite E1. cbn [obind].
  destruct (use_write_brelse t1 V L D _ i (put_dinode (V (IBLOCK sb (i_inum ip))) (slot (i_inum ip)) (i_di ip)) R1)
    as (t2 & t3 & t4 & -> & E3 & E4 & R4 & K4); [done..|].
  cbn [obind]. rewrite E3. cbn [obind]. exists t4. split_and!; [done|by eapply tkeeps_trans|done].
Qed.

Lemma update_inode_same V inum d : disk_ok sb V -> (0 <= inum)%Z -> dinode_ok d ->
  disk_inode sb (update_inode V inum d) inum = d.
Proof.
  intros OK Hi Hd. unfold disk_inode, update_inode. rewrite upd_same. apply dinode_at_put; [|done].
  rewrite (proj1 (dk_block _ _ OK _)). by apply slot_range.
Qed.

Lemma update_inode_other V inum d j : disk_ok sb V -> (0 <= inum)%Z -> (0 <= j)%Z -> j <> inum -> dinode_ok d ->
  disk_inode sb (update_inode V inum d) j = disk_inode sb V j.
Proof.
  intros OK Hi Hj Hne Hd. unfold disk_inode, update_inode, upd. case_decide as E; [|done].
  rewrite E. apply dinode_at_put_ne; [|done|].
  - rewrite (proj1 (dk_block _ _ OK _)). by apply slot_range.
  - by apply (slot_disjoint inum j sb).
Qed.

Lemma update_inode_ok V inum d : disk_ok sb V -> (0 <= inum < sb_ninodes sb)%Z -> dinode_ok d ->
  disk_ok sb (update_inode V inum d).
Proof.
  intros OK Hi Hd. pose proof (iblock_range sb LY inum Hi). apply (upd_disk_ok sb LY V OK); [lia|].
  apply put_dinode_ok; [apply OK|apply slot_range; lia|done].
Qed.
End inode.

(** ** A small file system

    16 inodes in block 40, the bitmap in block 42, data from block 43 to 99; the
    log starts at block 2. *)
Definition demo_sb : superblock := mk_sb FSMAGIC 100 56 16 31 2 40 42.

Definition demo_bitmap : bytes := replicate 5 255%Z ++ 7%Z :: replicate 1018 0%Z.

Definition demo_disk : gmap Z bytes := {[42%Z := demo_bitmap]}.

Definition demo_laws : TxLaws (log * bcache) := log_tx_laws 2.

Lemma demo_layout : @layout _ _ demo_laws demo_sb.
Proof.
  split; simpl.
  - lia.
  - intros i Hi. unfold IBLOCK, IPB. simpl. assert (i `div` 16 < 1)%Z by (apply Z.div_lt_upper_bound; lia). lia.
  - reflexivity || (split; [reflexivity|discriminate]).
  - intros b Hb. unfold home, is_int, LOGBLOCKS, INT_MAX. lia.
Qed.

Definition block_okb (d : bytes) : bool := (length d =? BSIZE) && forallb (fun b => (0 <=? b) && (b <? 256))%Z d.

Lemma block_okb_ok d : block_okb d = true -> block_ok d.
Proof.
  unfold block_okb. intros [H1 H2]%andb_prop. split; [by apply Nat.eqb_eq|].
  apply Forall_forall. intros x Hx. rewrite forallb_forall in H2. specialize (H2 x).
  rewrite <-list_elem_of_In in H2. specialize (H2 Hx). unfold is_byte. lia.
Qed.

(** The first operation after the boot of a disk with this layout. *)
Definition booted_blocks (dk : gmap Z bytes) : bool :=
  match initlog ROOTDEV 2 (c_boot (S := bcache) dk) with
  | Ret (_, s) => forallb (fun x => block_okb x.2) (map_to_list (c_disk s))
  | _ => false
  end.

Lemma boot_rep dk : length (disk_block dk 2) = BSIZE -> hdr_n (disk_block dk 2) = 0%Z ->
  disk_block dk 42 = demo_bitmap -> booted_blocks dk = true ->
  exists (t : log * bcache) V, @t_rep _ _ demo_laws t V ∅ ∅ /\ disk_ok demo_sb V /\
    forall b, home 2 b -> V b = disk_block dk b.
Proof.
  intros Hl Hh Hbm Hbl. destruct (boot_ready_disk (S := bcache) 2 dk Hl Hh) as (l & s & E & R & Hst & HV).
  unfold booted_blocks in Hbl. rewrite E in Hbl. clear E.
  exists (with_outstanding l 1, s), (disk_block (c_disk s)). split.
  - exists ∅, []. split; [apply ready_txn, ready_outstanding, R|]. repeat split; try done.
    rewrite size_empty. unfold TXCAP. lia.
  - split; [|done]. split.
    + intros b. unfold disk_block. destruct (c_disk s !! b) as [x|] eqn:Eb; simpl; [|apply zero_block_ok].
      apply block_okb_ok. rewrite forallb_forall in Hbl. apply (Hbl (b, x)), list_elem_of_In, elem_of_map_to_list, Eb.
    + intros b Hb. unfold used. rewrite HV by (unfold home, BBLOCK, BPB, LOGBLOCKS in *; cbn [demo_sb sb_bmapstart];
        assert (0 <= b `div` 8192)%Z by (apply Z.div_pos; lia); lia).
      change (data_start demo_sb) with 43%Z in Hb. unfold BBLOCK, BPB. rewrite Z.div_small, Z.mod_small by lia.
      change (0 + sb_bmapstart demo_sb)%Z with 42%Z. rewrite Hbm.
      assert (forallb (fun i => bit demo_bitmap (Z.of_nat i)) (seq 0 43) = true) as Hall by (vm_compute; reflexivity).
      rewrite forallb_forall in Hall. specialize (Hall (Z.to_nat b)). rewrite Z2Nat.id in Hall by lia.
      apply Hall, in_seq. lia.
Qed.

Lemma demo_rep : exists (t : log * bcache) V, @t_rep _ _ demo_laws t V ∅ ∅ /\ disk_ok demo_sb V /\
  forall b, home 2 b -> V b = disk_block demo_disk b.
Proof. apply boot_rep; [reflexivity|reflexivity|reflexivity|vm_compute; reflexivity]. Qed.

(** [balloc] returns the lowest free block, zeroed and marked in use, or 0
    when every block is in use; the block lies in the data area, and no other
    block of the disk changes except the bitmap.  [bfree] of it gives the set of
    free blocks back as it was, and a second [bfree] panics. *)
Theorem balloc_bfree {T} `{TxLaws T} (sb : superblock) (t : T) V (D : gset Z)
    (LY : layout (T := T) sb) (R : t_rep t V ∅ D) (OK : disk_ok sb V) (Hsz : size D + 4 <= TXCAP) :
  exists t' r, balloc sb t = Ret (t', r) /\
    ((r = 0%Z /\ forall x, (0 <= x < sb_size sb)%Z -> used sb V x = true) \/
     ((data_start sb <= r < sb_size sb)%Z /\ used sb V r = false /\
      (forall x, (0 <= x < r)%Z -> used sb V x = true) /\
      exists V' D', t_rep t' V' ∅ D' /\ disk_ok sb V' /\ V' r = zero_block /\
        (forall b, b <> r -> b <> BBLOCK sb r -> V' b = V b) /\
        (forall x, (0 <= x < sb_size sb)%Z -> used sb V' x = (r =? x)%Z || used sb V x) /\
        exists t2 V2 D2, bfree sb t' r = Ret t2 /\ t_rep t2 V2 ∅ D2 /\
          (forall x, (0 <= x < sb_size sb)%Z -> used sb V2 x = used sb V x) /\
          bfree sb t2 r = Panic "freeing free block")).
Proof.
  assert (locks_ok sb V ∅) as HL.
  { split; [rewrite map_size_empty; lia|]. intros x [c Hc]. by rewrite lookup_empty in Hc. }
  destruct (balloc_ok sb LY t V ∅ D R OK HL) as (t' & r & E & _ & Hres); [lia|]. exists t', r. split; [done|].
  destruct Hres as [(Hz & _ & Hfull)|(Hr & Hfree & Hlow & R')]; [by left|right]. split_and!; try done; try lia.
  pose proof (data_start_range sb LY) as Hds. pose proof LY as [Hst _ _ _].
  assert (0 <= r < sb_size sb)%Z as Hr0 by lia. pose proof (alloc_block_ok sb LY V OK r Hr) as OK'.
  pose proof (size_add_le r ({[BBLOCK sb r]} ∪ D)). pose proof (size_add_le (BBLOCK sb r) D).
  eexists _, _. split; [exact R'|]. split_and!; [done|apply upd_same| | |].
  - intros b Hb Hbb. unfold alloc_block. by rewrite !upd_other.
  - intros x Hx. by apply (used_alloc sb LY V OK).
  - destruct (bfree_ok sb LY t' _ ∅ _ r R' OK') as (t2 & E2 & R2 & _); [rewrite map_size_empty; lia|done|done| |lia|].
    { rewrite (used_alloc sb LY V OK) by done. by rewrite Z.eqb_refl. }
    eexists t2, _, _. split; [done|]. split; [exact R2|].
    assert (forall x, (0 <= x < sb_size sb)%Z -> used sb (free_block sb (alloc_block sb V r) r) x = used sb V x) as Hu.
    { intros x Hx. rewrite (used_free sb _ OK') by done. rewrite (used_alloc sb LY V OK) by done.
      destruct (Z.eqb_spec r x) as [<-|]; [by rewrite Hfree|done]. }
    split; [done|]. eapply (bfree_panics sb LY t2 _ ∅ _ r R2); [by apply (free_ok sb LY)|rewrite map_size_empty; lia|done|done|].
    by rewrite Hu.
Qed.

Lemma balloc_bfree_witness : exists (t t' : log * bcache) r, balloc demo_sb t = Ret (t', r).
Proof.
  destruct demo_rep as (t & V & R & OK & _).
  destruct (@balloc_bfree _ _ demo_laws demo_sb t V ∅ demo_layout R OK) as (t' & r & E & _).
  - rewrite size_empty. unfold TXCAP. lia.
  - exists t, t', r. exact E.
Defined.
