(* ===== verification/FsContent.v ===== *)
(** * The contents of a file: proofs (xv6/kernel/fs.c)

    [blk] is the map from the blocks of a file to blocks of the disk, through
    the direct and the indirect addresses.  [bmap] extends it without changing
    the contents; [readi] reads the contents and [writei] changes them in its
    range and nowhere else. *)

From S2P Require Import Prelude.
From S2P Require Import Bytes.
From S2P Require Import Kstring.
From S2P Require Import Bio.
From S2P Require Import Log.
From S2P Require Import Txn.
From S2P Require Import Fs.
From S2P Require Import FsBlocks.

(** ** The block map *)
Definition ind (d : dinode) : Z := default 0%Z (d_addrs d !! NDIRECT).

Definition blk (V : Z -> bytes) (d : dinode) (n : nat) : Z :=
  if n <? NDIRECT then default 0%Z (d_addrs d !! n)
  else if (ind d =? 0)%Z then 0%Z else get_uint (V (ind d)) (n - NDIRECT).

(** The contents of a block of the file; a block without address is zero. *)
Definition cblk (V : Z -> bytes) (d : dinode) (n : nat) : bytes :=
  if (blk V d n =? 0)%Z then zero_block else V (blk V d n).

Definition d_meta (d : dinode) := (d_type d, d_major d, d_minor d, d_nlink d, d_size d).

(** The addresses of a file are distinct data blocks in use, and there is one
    for every block below its size. *)
Record inode_ok (sb : superblock) (V : Z -> bytes) (d : dinode) : Prop := {
  io_ok : dinode_ok d;
  io_blk : forall n, n < MAXFILE -> blk V d n <> 0%Z ->
    (data_start sb <= blk V d n < sb_size sb)%Z /\ used sb V (blk V d n) = true /\ blk V d n <> ind d;
  io_ind : ind d <> 0%Z -> (data_start sb <= ind d < sb_size sb)%Z /\ used sb V (ind d) = true;
  io_inj : forall n m, n < MAXFILE -> m < MAXFILE -> blk V d n <> 0%Z -> blk V d n = blk V d m -> n = m;
  io_full : forall n, (Z.of_nat n * BS < d_size d)%Z -> n < MAXFILE /\ blk V d n <> 0%Z
}.

(** Block [b] belongs to somebody else than the file [d]: it is in front of the
    bitmap or a data block in use that the file does not have. *)
Definition foreign (sb : superblock) (V : Z -> bytes) (d : dinode) (b : Z) : Prop :=
  (b < sb_bmapstart sb)%Z \/
  ((data_start sb <= b < sb_size sb)%Z /\ used sb V b = true /\ b <> ind d /\
   forall n, n < MAXFILE -> b <> blk V d n).

(** The file keeps its blocks and gets more of them, and nothing of others
    changes. *)
Record grown (sb : superblock) (V : Z -> bytes) (d : dinode) (V' : Z -> bytes) (d' : dinode) : Prop := {
  gr_disk : disk_ok sb V';
  gr_inode : inode_ok sb V' d';
  gr_blk : forall n, n < MAXFILE -> blk V d n <> 0%Z -> blk V' d' n = blk V d n;
  gr_new : forall n, n < MAXFILE -> blk V d n = 0%Z -> blk V' d' n = 0%Z \/ used sb V (blk V' d' n) = false;
  gr_frame : forall b, foreign sb V d b -> V' b = V b;
  gr_used : forall b, (0 <= b < sb_size sb)%Z -> used sb V b = true -> used sb V' b = true;
  gr_meta : d_meta d' = d_meta d;
  gr_ind : (ind d' = ind d) \/ (ind d = 0%Z /\ ind d' <> 0%Z /\ used sb V (ind d') = false)
}.

(** ... and its contents stay. *)
Record extends (sb : superblock) (V : Z -> bytes) (d : dinode) (V' : Z -> bytes) (d' : dinode) : Prop := {
  ex_grown : grown sb V d V' d';
  ex_content : forall n, n < MAXFILE -> cblk V' d' n = cblk V d n
}.

Lemma grown_refl sb V d : disk_ok sb V -> inode_ok sb V d -> grown sb V d V d.
Proof. intros. split; auto. Qed.

Lemma extends_refl sb V d : disk_ok sb V -> inode_ok sb V d -> extends sb V d V d.
Proof. intros. split; [by apply grown_refl|done]. Qed.

Section extends.
Context {T : Type} `{TxLaws T} (sb : superblock) (LY : layout (T := T) sb).

Lemma data_pos b : (data_start sb <= b)%Z -> (0 <= b)%Z /\ b <> 0%Z.
Proof. intros. pose proof (data_start_range sb LY). destruct LY as [Hst _ _ _]. lia. Qed.

Section trans.
Context V d V1 d1 (G1 : grown sb V d V1 d1).

(** What was free in the middle was free before. *)
Lemma grown_unused b : (data_start sb <= b < sb_size sb)%Z -> used sb V1 b = false -> used sb V b = false.
Proof.
  intros Hb Hf. destruct (used sb V b) eqn:E; [|done]. pose proof (data_pos b (proj1 Hb)).
  rewrite (gr_used _ _ _ _ _ G1 b) in Hf; [done|lia|done].
Qed.

Lemma grown_foreign b : foreign sb V d b -> foreign sb V1 d1 b.
Proof.
  intros [Hb|(Hb & Hu & Hne & Hn)]; [by left|right]. pose proof (data_pos b (proj1 Hb)).
  split; [done|]. split; [apply (gr_used _ _ _ _ _ G1); [lia|done]|]. split.
  - destruct (gr_ind _ _ _ _ _ G1) as [->|(_ & _ & Hf)]; [done|]. intros ->. congruence.
  - intros n Hnn E. destruct (decide (blk V d n = 0%Z)) as [Ez|Hnz].
    + destruct (gr_new _ _ _ _ _ G1 n Hnn Ez) as [E2|E2]; [lia|]. rewrite <-E in E2. congruence.
    + rewrite (gr_blk _ _ _ _ _ G1) in E by done. by destruct (Hn n Hnn).
Qed.

Lemma grown_trans V2 d2 : grown sb V1 d1 V2 d2 -> grown sb V d V2 d2.
Proof.
  intros G2. split; try apply G2.
  - intros n Hn Hz. rewrite (gr_blk _ _ _ _ _ G2); [by apply G1|done|by rewrite (gr_blk _ _ _ _ _ G1)].
  - intros n Hn Hz. destruct (gr_new _ _ _ _ _ G1 n Hn Hz) as [E1|E1].
    + destruct (gr_new _ _ _ _ _ G2 n Hn E1) as [E2|E2]; [by left|].
      destruct (decide (blk V2 d2 n = 0%Z)) as [|Hnz]; [by left|right].
      apply grown_unused; [|done]. by apply (io_blk _ _ _ (gr_inode _ _ _ _ _ G2) n).
    + destruct (decide (blk V1 d1 n = 0%Z)) as [Ez|Hnz].
      * destruct (gr_new _ _ _ _ _ G2 n Hn Ez) as [E2|E2]; [by left|].
        destruct (decide (blk V2 d2 n = 0%Z)) as [|Hnz2]; [by left|right].
        apply grown_unused; [|done]. by apply (io_blk _ _ _ (gr_inode _ _ _ _ _ G2) n).
      * right. by rewrite (gr_blk _ _ _ _ _ G2).
  - intros b Hb. rewrite (gr_frame _ _ _ _ _ G2); [by apply G1|by apply grown_foreign].
  - intros b Hb Hu. apply (gr_used _ _ _ _ _ G2); [done|]. by apply (gr_used _ _ _ _ _ G1).
  - rewrite (gr_meta _ _ _ _ _ G2). apply G1.
  - destruct (gr_ind _ _ _ _ _ G1) as [E1|(E1 & Hz & Hf)], (gr_ind _ _ _ _ _ G2) as [E2|(E2 & Hz2 & Hf2)].
    + left. congruence.
    + right. split_and!; [congruence|done|]. apply grown_unused; [|done]. by apply (io_ind _ _ _ (gr_inode _ _ _ _ _ G2)).
    + right. by rewrite E2.
    + congruence.
Qed.
End trans.

Lemma extends_trans V d V1 d1 V2 d2 : extends sb V d V1 d1 -> extends sb V1 d1 V2 d2 -> extends sb V d V2 d2.
Proof.
  intros [G1 C1] [G2 C2]. split; [by eapply grown_trans|]. intros n Hn. by rewrite C2, C1.
Qed.

(** A fresh block [r] goes into entry [bn] of the map, or becomes the indirect
    block. *)
Lemma extends_fresh V d V' d' r :
  disk_ok sb V -> inode_ok sb V d -> (data_start sb <= r < sb_size sb)%Z -> used sb V r = false ->
  disk_ok sb V' -> dinode_ok d' -> d_meta d' = d_meta d -> V' r = zero_block ->
  (forall x, (0 <= x < sb_size sb)%Z -> used sb V' x = (r =? x)%Z || used sb V x) ->
  (forall b, (b < sb_bmapstart sb)%Z \/ ((data_start sb <= b < sb_size sb)%Z /\ b <> r /\ b <> ind d) -> V' b = V b) ->
  (exists bn, ind d' = ind d /\ bn < MAXFILE /\ blk V d bn = 0%Z /\
     forall n, n < MAXFILE -> blk V' d' n = if decide (n = bn) then r else blk V d n) \/
  (ind d = 0%Z /\ ind d' = r /\ forall n, n < MAXFILE -> blk V' d' n = blk V d n) ->
  extends sb V d V' d'.
Proof.
  intros OK IO Hr Hfree OK' Dd Hm Hz Hu Hfr Hcase. pose proof (data_pos r (proj1 Hr)) as [Hr0 Hrz].
  assert (forall n, n < MAXFILE -> blk V d n <> 0%Z -> blk V' d' n = blk V d n) as Hmono.
  { intros n Hn Hb. destruct Hcase as [(bn & _ & _ & Hbz & E)|(_ & _ & E)]; rewrite E by done; [|done].
    case_decide; [by subst|done]. }
  assert (forall n, n < MAXFILE -> blk V d n = 0%Z -> blk V' d' n = 0%Z \/ blk V' d' n = r) as Hnew.
  { intros n Hn Hb. destruct Hcase as [(bn & _ & _ & Hbz & E)|(_ & _ & E)]; rewrite E by done; [|by left].
    case_decide; [by right|by left]. }
  assert (forall n, n < MAXFILE -> blk V d n <> r) as Hnr.
  { intros n Hn E. destruct (io_blk _ _ _ IO n Hn) as (_ & Hx & _); [congruence|]. congruence. }
  assert (ind d <> r) as Hir.
  { intros E. destruct (io_ind _ _ _ IO) as [_ Hx]; congruence. }
  assert (forall x, (0 <= x < sb_size sb)%Z -> used sb V x = true -> used sb V' x = true) as Hum.
  { intros x Hx Hux. rewrite Hu, Hux by done. apply orb_true_r. }
  assert (used sb V' r = true) as Hur by (rewrite Hu, Z.eqb_refl by lia; done).
  assert (forall n, n < MAXFILE -> blk V d n <> 0%Z -> blk V d n <> ind d') as Hnind.
  { intros n Hn Hb. destruct (io_blk _ _ _ IO n Hn Hb) as (_ & _ & Hi).
    destruct Hcase as [(bn & -> & _)|(_ & -> & _)]; [done|by apply Hnr]. }
  assert (forall n, n < MAXFILE -> blk V' d' n = r -> r <> ind d') as Hnir.
  { intros n Hn E. destruct Hcase as [(bn & -> & _)|(_ & _ & E2)]; [done|]. rewrite E2 in E by done. by destruct (Hnr n Hn). }
  assert (d_size d' = d_size d) as Hsize by (unfold d_meta in Hm; congruence).
  assert (inode_ok sb V' d') as IO'.
  { split; [done|..].
    - intros n Hn Hb. destruct (decide (blk V d n = 0%Z)) as [Ez|Hnz].
      + destruct (Hnew n Hn Ez) as [E|E]; [done|]. split_and!; try (rewrite E; done || lia). rewrite E. by apply (Hnir n).
      + rewrite Hmono by done. destruct (io_blk _ _ _ IO n Hn Hnz) as (H1 & H2 & H3).
        pose proof (data_pos (blk V d n)). split_and!; [lia|lia|apply Hum; [lia|done]|by apply Hnind].
    - intros Hi. destruct Hcase as [(bn & E & _)|(_ & E & _)]; rewrite E in *; [|split; [lia|done]].
      destruct (io_ind _ _ _ IO Hi) as [? ?]. pose proof (data_pos (ind d)). split; [lia|apply Hum; [lia|done]].
    - intros n m Hn Hm' Hb E. destruct Hcase as [(bn & _ & _ & Hbz & Eb)|(_ & _ & Eb)]; rewrite !Eb in * by done.
      + repeat case_decide; subst; try done; [by destruct (Hnr m Hm')|by destruct (Hnr n Hn)|by apply (io_inj _ _ _ IO)].
      + by apply (io_inj _ _ _ IO).
    - intros n Hn. rewrite Hsize in Hn. destruct (io_full _ _ _ IO n Hn) as [H1 H2]. split; [done|]. by rewrite Hmono. }
  split; [split; try done|].
  - intros n Hn Hb. destruct (Hnew n Hn Hb) as [->| ->]; [by left|by right].
  - intros b [Hb|(Hb & Hub & Hne & _)]; apply Hfr; [by left|right]. split_and!; [lia|lia|congruence|done].
  - destruct Hcase as [(bn & E & _)|(E & E2 & _)]; [by left|right]. rewrite E2. done.
  - intros n Hn. unfold cblk. destruct (Z.eqb_spec (blk V d n) 0) as [Ez|Hnz].
    + destruct (Hnew n Hn Ez) as [->| ->]; [done|]. rewrite (proj2 (Z.eqb_neq r 0)) by done. done.
    + rewrite Hmono by done. rewrite (proj2 (Z.eqb_neq _ 0)) by done. apply Hfr. right.
      destruct (io_blk _ _ _ IO n Hn Hnz) as (H1 & H2 & H3). split_and!; [lia|lia|by apply Hnr|done].
Qed.

Lemma alloc_other V r b : (0 <= r < sb_size sb)%Z -> b <> r -> (b < sb_bmapstart sb \/ data_start sb <= b)%Z ->
  alloc_block sb V r b = V b.
Proof. intros Hr Hne Hb. pose proof (bblock_range sb r Hr). unfold alloc_block. rewrite !upd_other by lia. done. Qed.

Lemma alloc_same V r : alloc_block sb V r r = zero_block.
Proof. apply upd_same. Qed.

Lemma get_uint_zero k : get_uint zero_block k = 0%Z.
Proof.
  unfold get_uint, get_le, slice, zero_block. rewrite drop_replicate, take_replicate.
  induction (4 `min` (BSIZE - 4 * k)) as [|n IH]; [done|]. simpl. by rewrite IH.
Qed.

Lemma get_put_uint data k j v : block_ok data -> is_uint v -> k < NINDIRECT -> j < NINDIRECT ->
  get_uint (put_uint data k v) j = if decide (j = k) then v else get_uint data j.
Proof.
  intros [Hl _] Hv Hk Hj. unfold get_uint, put_uint, NINDIRECT, BSIZE in *. case_decide as E.
  - subst. by apply get_put_le; [lia|].
  - apply get_put_le_ne; lia.
Qed.

Lemma set_addr_ok d k a : dinode_ok d -> is_uint a -> dinode_ok (set_addr d k a).
Proof. intros [] Ha. split; cbn [set_addr d_type d_major d_minor d_nlink d_size d_addrs]; try done; [by rewrite length_insert|by apply Forall_insert]. Qed.

Section fresh.
Context (V : Z -> bytes) (d : dinode) (r : Z) (OK : disk_ok sb V) (IO : inode_ok sb V d).
Context (Hr : (data_start sb <= r < sb_size sb)%Z) (Hfree : used sb V r = false).

Lemma fresh_uint : is_uint r.
Proof. pose proof (data_pos r (proj1 Hr)). destruct LY as [_ _ Hs _]. unfold is_uint. lia. Qed.

Lemma fresh_range : (0 <= r < sb_size sb)%Z.
Proof. pose proof (data_pos r (proj1 Hr)). lia. Qed.

Lemma fresh_ind : ind d <> r.
Proof. intros E. pose proof (data_pos r (proj1 Hr)). destruct (io_ind _ _ _ IO) as [_ Hx]; [lia|congruence]. Qed.

Lemma alloc_ind : ind d <> 0%Z -> alloc_block sb V r (ind d) = V (ind d).
Proof.
  intros Hi. destruct (io_ind _ _ _ IO Hi) as [? _]. apply alloc_other; [apply fresh_range|apply fresh_ind|lia].
Qed.

Lemma alloc_frame b : (b < sb_bmapstart sb)%Z \/ ((data_start sb <= b < sb_size sb)%Z /\ b <> r /\ b <> ind d) ->
  alloc_block sb V r b = V b.
Proof.
  intros Hb. pose proof (data_start_range sb LY). apply alloc_other; [apply fresh_range|lia|lia].
Qed.

Lemma addr_insert k n : k < NDIRECT + 1 -> <[k := r]> (d_addrs d) !! n = if decide (n = k) then Some r else d_addrs d !! n.
Proof.
  intros Hk. case_decide as E; [subst; apply list_lookup_insert_eq; rewrite (do_len _ (io_ok _ _ _ IO)); done|].
  by apply list_lookup_insert_ne.
Qed.

Lemma extends_direct bn : bn < NDIRECT -> blk V d bn = 0%Z ->
  extends sb V d (alloc_block sb V r) (set_addr d bn r).
Proof.
  intros Hbn Hz. apply (extends_fresh V d _ _ r); try done.
  - by apply (alloc_block_ok sb LY V OK).
  - apply set_addr_ok; [apply IO|apply fresh_uint].
  - apply alloc_same.
  - intros x Hx. by apply (used_alloc sb LY V OK).
  - apply alloc_frame.
  - left. exists bn.
    assert (ind (set_addr d bn r) = ind d) as Ei.
    { unfold ind. cbn [set_addr d_addrs]. rewrite addr_insert by (unfold NDIRECT in *; lia).
      by rewrite decide_False by lia. }
    split_and!; try done; [unfold MAXFILE, NDIRECT in *; lia|]. intros n Hn. unfold blk. rewrite Ei.
    destruct (Nat.ltb_spec n NDIRECT) as [Hlt|Hge].
    + cbn [set_addr d_addrs]. rewrite addr_insert by (unfold NDIRECT in *; lia). by case_decide.
    + rewrite decide_False by lia. destruct (Z.eqb_spec (ind d) 0); [done|]. by rewrite alloc_ind.
Qed.

Lemma extends_ind : ind d = 0%Z -> extends sb V d (alloc_block sb V r) (set_addr d NDIRECT r).
Proof.
  intros Hz. apply (extends_fresh V d _ _ r); try done.
  - by apply (alloc_block_ok sb LY V OK).
  - apply set_addr_ok; [apply IO|apply fresh_uint].
  - apply alloc_same.
  - intros x Hx. by apply (used_alloc sb LY V OK).
  - apply alloc_frame.
  - right. assert (ind (set_addr d NDIRECT r) = r) as Ei.
    { unfold ind. cbn [set_addr d_addrs]. rewrite addr_insert by (unfold NDIRECT in *; lia).
      by rewrite decide_True by lia. }
    split_and!; try done. intros n Hn. unfold blk. rewrite Ei, Hz. pose proof (data_pos r (proj1 Hr)).
    destruct (Nat.ltb_spec n NDIRECT) as [Hlt|Hge].
    + cbn [set_addr d_addrs]. rewrite addr_insert by (unfold NDIRECT in *; lia). by rewrite decide_False by lia.
    + rewrite (proj2 (Z.eqb_neq r 0)) by lia. rewrite alloc_same. apply get_uint_zero.
Qed.

Lemma extends_indirect k : ind d <> 0%Z -> k < NINDIRECT -> blk V d (NDIRECT + k) = 0%Z ->
  extends sb V d (upd (alloc_block sb V r) (ind d) (put_uint (V (ind d)) k r)) d.
Proof.
  intros Hi Hk Hz. destruct (io_ind _ _ _ IO Hi) as [Hir Hiu]. pose proof fresh_ind as Hne.
  pose proof (alloc_block_ok sb LY V OK r Hr) as OK1.
  assert (block_ok (put_uint (V (ind d)) k r)) as Hput.
  { apply put_le_ok; [apply OK|unfold NINDIRECT, BSIZE in *; lia]. }
  apply (extends_fresh V d _ _ r); try done.
  - apply (upd_disk_ok sb LY _ OK1); [lia|done].
  - apply IO.
  - rewrite upd_other by done. apply alloc_same.
  - intros x Hx. rewrite (upd_used sb _) by (done || lia). by apply (used_alloc sb LY V OK).
  - intros b Hb. rewrite upd_other; [by apply alloc_frame|]. pose proof (data_start_range sb LY). lia.
  - left. exists (NDIRECT + k). split_and!; try done; [unfold MAXFILE, NDIRECT, NINDIRECT in *; lia|].
    intros n Hn. unfold blk. destruct (Nat.ltb_spec n NDIRECT) as [Hlt|Hge].
    + by rewrite decide_False by lia.
    + rewrite (proj2 (Z.eqb_neq _ 0)) by done. rewrite upd_same.
      rewrite get_put_uint; [|apply OK|apply fresh_uint|done|unfold MAXFILE, NDIRECT, NINDIRECT in *; lia].
      repeat case_decide; (done || lia).
Qed.
End fresh.
End extends.

Lemma with_di_same ip : with_di ip (i_di ip) = ip.
Proof. by destruct ip. Qed.

(** ** [bmap] *)
Section bmap.
Context {T : Type} `{TxLaws T} (sb : superblock) (LY : layout (T := T) sb).

Lemma locks_none V : locks_ok sb V ∅.
Proof. split; [rewrite map_size_empty; lia|]. intros x [c Hc]. by rewrite lookup_empty in Hc. Qed.

Lemma locks_one V b c : (data_start sb <= b < sb_size sb)%Z -> used sb V b = true -> locks_ok sb V {[b := c]}.
Proof.
  intros Hb Hu. split; [rewrite map_size_singleton; lia|]. intros x [c' Hc].
  apply lookup_singleton_Some in Hc as [<- _]. done.
Qed.

Lemma size_add2 b c (D : gset Z) : size ({[b]} ∪ ({[c]} ∪ D)) <= size D + 2.
Proof. pose proof (size_add_le b ({[c]} ∪ D)). pose proof (size_add_le c D). lia. Qed.

Lemma bmap_entry_ok t V D ip k : t_rep t V ∅ D -> disk_ok sb V -> inode_ok sb V (i_di ip) ->
  ind (i_di ip) <> 0%Z -> k < NINDIRECT -> size D + 3 <= TXCAP ->
  exists t' r V' D', bmap_entry sb t ip (ind (i_di ip)) k = Ret (t', ip, r) /\
    t_rep t' V' ∅ D' /\ size D' <= size D + 3 /\ extends sb V (i_di ip) V' (i_di ip) /\
    r = blk V' (i_di ip) (NDIRECT + k) /\
    (blk V (i_di ip) (NDIRECT + k) <> 0%Z -> V' = V /\ D' = D) /\
    (r = 0%Z -> forall x, (0 <= x < sb_size sb)%Z -> used sb V' x = true).
Proof.
  intros R OK IO Hi Hk Hsz. set (d := i_di ip) in *. destruct (io_ind _ _ _ IO Hi) as [Hir Hiu].
  assert (forall W, blk W d (NDIRECT + k) = get_uint (W (ind d)) k) as Eblk.
  { intros W. unfold blk. rewrite (proj2 (Nat.ltb_ge _ _)), (proj2 (Z.eqb_neq _ _)) by (done || lia). f_equal. lia. }
  unfold bmap_entry. pose proof (data_start_range sb LY) as Hds.
  destruct (use_bread t V ∅ D (ind d) R) as (t1 & i & -> & E1 & R1 & H1 & K1);
    [done|destruct LY as [? _ _ Hb]; apply Hb; lia|rewrite map_size_empty; lia|].
  cbn [obind]. rewrite E1. cbn [obind]. rewrite (insert_empty (ind d)) in R1.
  destruct (Z.eqb_spec (get_uint (V (ind d)) k) 0) as [Ez|Hnz].
  - destruct (balloc_ok sb LY t1 V {[ind d := false]} D R1 OK) as (t2 & r & -> & K2 & Hres);
      [by apply locks_one|lia|]. cbn [obind].
    assert (t_handle t2 i (ind d)) as H2 by (apply K2; [rewrite lookup_singleton_eq; by eexists|done]).
    destruct Hres as [(-> & R2 & Hfull)|(Hr & Hfree & _ & R2)].
    + cbn [Z.eqb obind]. rewrite <-(insert_empty (ind d)) in R2.
      destruct (use_brelse t2 V ∅ D (ind d) i R2 H2) as (t3 & -> & R3 & K3); [done|]. cbn [obind].
      exists t3, 0%Z, V, D. split_and!; try done; [lia|by apply extends_refl|by rewrite Eblk].
    + pose proof (data_pos sb LY r (proj1 Hr)) as [_ Hrz]. rewrite (proj2 (Z.eqb_neq r 0)) by done.
      pose proof (size_add2 r (BBLOCK sb r) D) as Hs2.
      destruct (use_write t2 _ _ _ (ind d) i false (put_uint (V (ind d)) k r) R2) as (t3 & t4 & -> & E4 & R4 & H4 & K4);
        [apply lookup_singleton_eq|done|lia|].
      cbn [obind]. rewrite E4. cbn [obind]. rewrite insert_singleton_eq, <-(insert_empty (ind d)) in R4.
      destruct (use_brelse t4 _ ∅ _ (ind d) i R4 H4) as (t5 & -> & R5 & K5); [done|]. cbn [obind].
      eexists t5, r, _, _. split; [done|]. split; [exact R5|].
      pose proof (size_add_le (ind d) ({[r]} ∪ ({[BBLOCK sb r]} ∪ D))).
      split_and!; [lia| | | |done].
      * apply (extends_indirect sb LY V d r OK IO Hr Hfree k Hi Hk). by rewrite Eblk.
      * rewrite Eblk, upd_same, get_put_uint; [by rewrite decide_True|apply OK|apply (fresh_uint sb LY r Hr)|done|done].
      * by rewrite Eblk.
  - cbn [obind]. rewrite <-(insert_empty (ind d)) in R1.
    destruct (use_brelse t1 V ∅ D (ind d) i R1 H1) as (t3 & -> & R3 & K3); [done|]. cbn [obind].
    eexists t3, _, V, D. split_and!; try done; [lia|by apply extends_refl].
Qed.

Lemma bmap_ok t V D ip bn : t_rep t V ∅ D -> disk_ok sb V -> inode_ok sb V (i_di ip) ->
  bn < MAXFILE -> size D + 5 <= TXCAP ->
  exists t' d' r V' D', bmap sb t ip (Z.of_nat bn) = Ret (t', with_di ip d', r) /\
    t_rep t' V' ∅ D' /\ size D' <= size D + 5 /\ extends sb V (i_di ip) V' d' /\ r = blk V' d' bn /\
    (blk V (i_di ip) bn <> 0%Z -> V' = V /\ d' = i_di ip /\ D' = D) /\
    (r = 0%Z -> forall x, (0 <= x < sb_size sb)%Z -> used sb V' x = true).
Proof.
  intros R OK IO Hbn Hsz. unfold bmap. set (d := i_di ip) in *.
  pose proof (do_len _ (io_ok _ _ _ IO)) as Hlen.
  destruct (Z.ltb_spec (Z.of_nat bn) (Z.of_nat NDIRECT)) as [Hlt|Hge].
  - rewrite Nat2Z.id. assert (bn < NDIRECT) as Hlt' by lia.
    destruct (lookup_lt_is_Some_2 (d_addrs d) bn) as [a Ea]; [lia|]. rewrite (load_ret _ _ _ Ea). cbn [obind].
    assert (blk V d bn = a) as Eb by (unfold blk; rewrite (proj2 (Nat.ltb_lt _ _) Hlt'); by rewrite Ea).
    destruct (Z.eqb_spec a 0) as [->|Hnz].
    + destruct (balloc_ok sb LY t V ∅ D R OK (locks_none V)) as (t1 & r & -> & _ & Hres); [lia|]. cbn [obind].
      destruct Hres as [(-> & R2 & Hfull)|(Hr & Hfree & _ & R2)].
      * cbn [Z.eqb]. exists t1, d, 0%Z, V, D. split_and!; try done; [by unfold d; rewrite with_di_same|lia|by apply extends_refl].
      * pose proof (data_pos sb LY r (proj1 Hr)) as [_ Hrz]. rewrite (proj2 (Z.eqb_neq r 0)) by done.
        eexists t1, _, r, _, _. split; [done|]. split; [exact R2|]. pose proof (size_add2 r (BBLOCK sb r) D).
        split_and!; [lia|by apply (extends_direct sb LY V d r OK IO Hr Hfree)| |done|done].
        unfold blk. rewrite (proj2 (Nat.ltb_lt _ _) Hlt'). cbn [set_addr d_addrs]. rewrite list_lookup_insert_eq by lia. done.
    + exists t, d, a, V, D. split_and!; try done; [by unfold d; rewrite with_di_same|lia|by apply extends_refl].
  - rewrite (proj2 (Z.ltb_lt _ _)) by (unfold MAXFILE, NDIRECT, NINDIRECT in *; lia).
    destruct (lookup_lt_is_Some_2 (d_addrs d) NDIRECT) as [a Ea]; [rewrite Hlen; lia|]. rewrite (load_ret _ _ _ Ea). cbn [obind].
    assert (ind d = a) as Ei by (unfold ind; by rewrite Ea).
    replace (Z.to_nat (Z.of_nat bn - Z.of_nat NDIRECT)) with (bn - NDIRECT) by lia.
    assert (bn - NDIRECT < NINDIRECT) as Hk by (unfold MAXFILE, NDIRECT, NINDIRECT in *; lia).
    assert (NDIRECT + (bn - NDIRECT) = bn) as Ebn by lia.
    destruct (Z.eqb_spec a 0) as [->|Hnz].
    + assert (blk V d bn = 0%Z) as Eb by (unfold blk; rewrite (proj2 (Nat.ltb_ge _ _)) by lia; by rewrite Ei).
      destruct (balloc_ok sb LY t V ∅ D R OK (locks_none V)) as (t1 & r & -> & _ & Hres); [lia|]. cbn [obind].
      destruct Hres as [(-> & R2 & Hfull)|(Hr & Hfree & _ & R2)].
      * cbn [Z.eqb obind]. exists t1, d, 0%Z, V, D.
        split_and!; try done; [by unfold d; rewrite with_di_same|lia|by apply extends_refl].
      * pose proof (data_pos sb LY r (proj1 Hr)) as [_ Hrz]. rewrite (proj2 (Z.eqb_neq r 0)) by done. cbn [obind].
        rewrite (proj2 (Z.eqb_neq r 0)) by done. pose proof (size_add2 r (BBLOCK sb r) D).
        pose proof (extends_ind sb LY V d r OK IO Hr Hfree Ei) as X1. set (d1 := set_addr d NDIRECT r) in *.
        assert (ind d1 = r) as Ei1 by (unfold ind, d1; cbn [set_addr d_addrs]; rewrite list_lookup_insert_eq by lia; done).
        destruct (bmap_entry_ok t1 _ _ (with_di ip d1) (bn - NDIRECT) R2) as (t2 & r2 & V2 & D2 & E2 & R3 & Hs & X2 & Er & _ & Hf);
          [apply X1|apply X1|cbn; congruence|done|lia|].
        cbn [i_di with_di] in *. rewrite Ei1 in E2. rewrite Ebn in Er. exists t2, d1, r2, V2, D2.
        split_and!; try done; [lia|by eapply extends_trans].
    + cbn [obind]. rewrite (proj2 (Z.eqb_neq a 0)) by done. rewrite <-Ei in *.
      destruct (bmap_entry_ok t V D ip (bn - NDIRECT) R OK IO) as (t2 & r2 & V2 & D2 & E2 & R3 & Hs & X2 & Er & Hsame & Hf);
        [done|done|lia|]. rewrite Ebn in *. exists t2, d, r2, V2, D2. unfold d. rewrite with_di_same.
      split_and!; try done; [lia|]. intros Hb. destruct (Hsame Hb). done.
Qed.
End bmap.

(** ** Bytes of a file *)
Definition fbyte (V : Z -> bytes) (d : dinode) (k : Z) : Z :=
  default 0%Z (cblk V d (Z.to_nat (k `div` BS)) !! Z.to_nat (k `mod` BS)).
Definition fbytes (V : Z -> bytes) (d : dinode) (off : Z) (n : nat) : bytes :=
  (fun j => fbyte V d (off + Z.of_nat j)) <$> seq 0 n.

Lemma length_fbytes V d off n : length (fbytes V d off n) = n.
Proof. unfold fbytes. by rewrite length_fmap, length_seq. Qed.

Lemma lookup_fbytes V d off n j : j < n -> fbytes V d off n !! j = Some (fbyte V d (off + Z.of_nat j)).
Proof. intros Hj. unfold fbytes. rewrite list_lookup_fmap, lookup_seq_lt by done. done. Qed.

Lemma fbytes_app V d off n m : fbytes V d off (n + m) = fbytes V d off n ++ fbytes V d (off + Z.of_nat n) m.
Proof.
  unfold fbytes. rewrite seq_app, fmap_app. f_equal. simpl.
  apply list_eq. intros j. rewrite !list_lookup_fmap. destruct (Nat.lt_ge_cases j m).
  - rewrite !lookup_seq_lt by done. simpl. do 2 f_equal. lia.
  - by rewrite !lookup_seq_ge by done.
Qed.

Lemma cblk_ok sb V d n : disk_ok sb V -> block_ok (cblk V d n).
Proof. intros OK. unfold cblk. case_match; [apply zero_block_ok|apply OK]. Qed.

Lemma fbytes_bytes sb V d off n : disk_ok sb V -> Forall is_byte (fbytes V d off n).
Proof.
  intros OK. apply Forall_fmap, Forall_true. intros j. cbn. unfold fbyte.
  destruct (cblk V d _ !! _) as [b|] eqn:E; cbn; [|unfold is_byte; lia].
  by apply (proj1 (Forall_lookup _ _) (proj2 (cblk_ok sb V d _ OK)) _ _ E).
Qed.

(** Position [off + j] stays in the block of [off]. *)
Lemma same_block off j : (0 <= off)%Z -> (0 <= j)%Z -> (off `mod` BS + j < BS)%Z ->
  ((off + j) `div` BS = off `div` BS)%Z /\ ((off + j) `mod` BS = off `mod` BS + j)%Z.
Proof.
  unfold BS. intros. pose proof (Z.div_mod off 1024). pose proof (Z.mod_pos_bound off 1024).
  replace (off + j)%Z with (off `mod` 1024 + j + (off `div` 1024) * 1024)%Z by lia.
  rewrite Z.div_add, Z.mod_add, Z.div_small, Z.mod_small by lia. lia.
Qed.

Lemma slice_cblk sb V d off m : disk_ok sb V -> (0 <= off)%Z -> (off `mod` BS + Z.of_nat m <= BS)%Z ->
  slice (Z.to_nat (off `mod` BS)) m (cblk V d (Z.to_nat (off `div` BS))) = fbytes V d off m.
Proof.
  intros OK Ho Hm. pose proof (cblk_ok sb V d (Z.to_nat (off `div` BS)) OK) as [Hl _].
  assert (0 <= off `mod` BS)%Z as Hmod by (apply Z.mod_pos_bound; unfold BS; lia).
  apply list_eq. intros j. destruct (Nat.lt_ge_cases j m) as [Hj|Hj].
  - rewrite lookup_slice, lookup_fbytes by done. unfold fbyte.
    destruct (same_block off (Z.of_nat j)) as [-> ->]; [done|lia|lia|].
    replace (Z.to_nat (off `mod` BS + Z.of_nat j)) with (Z.to_nat (off `mod` BS) + j) by lia.
    destruct (lookup_lt_is_Some_2 (cblk V d (Z.to_nat (off `div` BS))) (Z.to_nat (off `mod` BS) + j)) as [x ->]; [|done].
    rewrite Hl. unfold BSIZE, BS in *. lia.
  - unfold slice. rewrite lookup_take_ge, lookup_ge_None_2 by (rewrite ?length_fbytes; lia). done.
Qed.

(** The copies of [readi] and [writei] move at least one byte and stay in one
    block. *)
Lemma chunk_range off k : (0 <= off)%Z -> (0 < k)%Z ->
  let m := Z.min k (BS - off `mod` BS) in (0 < m <= k /\ off `mod` BS + m <= BS /\
    (m < k -> (off + m) `mod` BS = 0 /\ m = BS - off `mod` BS))%Z.
Proof.
  intros Ho Hk m. pose proof (Z.mod_pos_bound off BS ltac:(unfold BS; lia)). unfold m.
  split; [lia|]. split; [lia|]. intros Hlt. rewrite Z.min_r by lia. split; [|done].
  pose proof (Z.div_mod off BS ltac:(unfold BS; lia)) as E.
  replace (off + (BS - off `mod` BS))%Z with ((off `div` BS + 1) * BS)%Z by lia. apply Z.mod_mul. unfold BS. lia.
Qed.

Lemma max_size sb V d : inode_ok sb V d -> (d_size d <= Z.of_nat MAXFILE * BS)%Z.
Proof.
  intros IO. destruct (Z.le_gt_cases (d_size d) (Z.of_nat MAXFILE * BS)); [done|].
  destruct (io_full _ _ _ IO MAXFILE); [done|lia].
Qed.

Section content.
Context {T : Type} `{TxLaws T} (sb : superblock) (LY : layout (T := T) sb).

(** [copied x mem]: the bytes [x] have been stored from [dst0] on; [failed]
    holds of the memory after a copy that fails. *)
Section readi.
Context {M : Type} (copyout : M -> Z -> bytes -> outcome (M * bool)) (dst0 : Z) (room : nat).
Context (copied : bytes -> M -> Prop) (failed : M -> Prop).
Context (copy_more : forall x y mem, copied x mem -> length x + length y <= room -> 0 < length y -> Forall is_byte y ->
  exists mem' ok, copyout mem (dst0 + Z.of_nat (length x))%Z y = Ret (mem', ok) /\
    if ok : bool then copied (x ++ y) mem' else failed mem').

Lemma readi_loop_ok V D ip (OK : disk_ok sb V) (IO : inode_ok sb V (i_di ip)) (Hsz : size D + 5 <= TXCAP) n fuel :
  forall t mem off tot x, t_rep t V ∅ D -> (0 <= off)%Z -> (0 <= tot <= n)%Z -> copied x mem -> Z.of_nat (length x) = tot ->
  (off + (n - tot) <= d_size (i_di ip))%Z -> Z.to_nat n <= room ->
  0 < fuel -> (tot < n -> off `mod` BS + (n - tot) <= BS * (Z.of_nat fuel - 1))%Z ->
  exists t' mem' r, readi_loop copyout sb t ip mem (dst0 + tot) off n tot fuel = Ret (t', ip, mem', r) /\ t_rep t' V ∅ D /\
    ((r = n /\ copied (x ++ fbytes V (i_di ip) off (Z.to_nat (n - tot))) mem') \/ (r = (-1)%Z /\ failed mem')).
Proof.
  induction fuel as [|fuel IH]; intros t mem off tot x R Ho Ht Hc Hx Hs Hroom Hf0 Hf; [lia|].
  cbn [readi_loop]. destruct (Z.ltb_spec tot n) as [Hlt|Hge].
  2: { replace (n - tot)%Z with 0%Z by lia. exists t, mem, tot. split_and!; try done. left. split; [lia|]. by rewrite app_nil_r. }
  destruct (chunk_range off (n - tot)) as (Hm & Hmb & Hmore); [done|lia|]. cbv zeta in *. set (m := Z.min _ _) in *.
  assert (0 <= off `div` BS)%Z as Hdiv by (apply Z.div_pos; unfold BS; lia).
  destruct (io_full _ _ _ IO (Z.to_nat (off `div` BS))) as [Hbn Hblk].
  { rewrite Z2Nat.id by done. pose proof (Z.div_mod off BS). pose proof (Z.mod_pos_bound off BS). unfold BS in *. lia. }
  destruct (bmap_ok sb LY t V D ip _ R OK IO Hbn Hsz) as (t1 & d1 & r & V1 & D1 & E1 & R1 & _ & _ & Er & Hsame & _).
  rewrite Z2Nat.id in E1 by done. rewrite E1. cbn [obind].
  destruct (Hsame Hblk) as (-> & -> & ->). rewrite with_di_same, (proj2 (Z.eqb_neq r 0)) by congruence.
  destruct (io_blk _ _ _ IO _ Hbn Hblk) as (Hr & _). rewrite <-Er in Hr.
  destruct (use_bread t1 V ∅ D r R1) as (t2 & i & -> & E2 & R2 & H2 & _);
    [done|pose proof (data_start_range sb LY); destruct LY as [? _ _ Hb]; apply Hb; lia|rewrite map_size_empty; lia|].
  cbn [obind]. rewrite E2. cbn [obind].
  destruct (use_brelse t2 V ∅ D r i R2 H2) as (t3 & E3 & R3 & _); [done|].
  assert (V r = cblk V (i_di ip) (Z.to_nat (off `div` BS))) as Ec.
  { unfold cblk. rewrite <-Er, (proj2 (Z.eqb_neq r 0)) by congruence. done. }
  rewrite Ec, (slice_cblk sb) by (done || lia).
  replace (Z.to_nat (n - tot)) with (Z.to_nat m + Z.to_nat (n - (tot + m))) by lia.
  rewrite fbytes_app, Z2Nat.id, (assoc_L app) by lia.
  destruct (copy_more x (fbytes V (i_di ip) off (Z.to_nat m)) mem Hc) as (mem1 & ok & Ec1 & Hok);
    [rewrite length_fbytes; lia|rewrite length_fbytes; lia|by apply (fbytes_bytes sb)|].
  rewrite Hx in Ec1. rewrite Ec1. cbn [obind]. destruct ok; cbn [negb]; rewrite E3; cbn [obind].
  - specialize (Hf Hlt). pose proof (Z.mod_pos_bound off BS ltac:(unfold BS; lia)).
    rewrite <-Z.add_assoc. apply IH; try done; [lia|lia|rewrite length_app, length_fbytes; lia|lia|unfold BS in *; lia|].
    intros Hl. destruct Hmore as [-> Em]; [lia|]. unfold BS in *. lia.
  - exists t3, mem1, (-1)%Z. split_and!; try done. by right.
Qed.

(** The bytes that a read of [n] bytes at [off] gets. *)
Definition read_count (d : dinode) (off n : Z) : Z := Z.max 0 (Z.min n (d_size d - off)).

Lemma readi_ok t V D ip mem off n : t_rep t V ∅ D -> disk_ok sb V -> inode_ok sb V (i_di ip) ->
  size D + 5 <= TXCAP -> is_uint off -> is_uint n -> (off + n < 4294967296)%Z -> copied [] mem ->
  Z.to_nat (read_count (i_di ip) off n) <= room ->
  exists t' mem' r, readi copyout sb t ip mem dst0 off n = Ret (t', ip, mem', r) /\ t_rep t' V ∅ D /\
    ((r = read_count (i_di ip) off n /\ copied (fbytes V (i_di ip) off (Z.to_nat r)) mem') \/ (r = (-1)%Z /\ failed mem')).
Proof.
  intros R OK IO Hsz Ho Hn Hov Hc0 Hroom. unfold is_uint in *. unfold readi. unfold read_count in *.
  pose proof (max_size _ _ _ IO) as Hmax. pose proof (Z.mod_le off BS) as Hmod.
  rewrite u32_small by lia. destruct (Z.ltb_spec (d_size (i_di ip)) off) as [Hbig|Hle]; cbn [orb].
  { rewrite Z.max_l by lia. exists t, mem, 0%Z. split_and!; try done. by left. }
  rewrite (proj2 (Z.ltb_ge _ _)) by lia.
  set (k := if (d_size (i_di ip) <? off + n)%Z then (d_size (i_di ip) - off)%Z else n).
  assert (k = Z.max 0 (Z.min n (d_size (i_di ip) - off))) as Ek.
  { unfold k. destruct (Z.ltb_spec (d_size (i_di ip)) (off + n)); lia. }
  rewrite <-Ek in *.
  destruct (readi_loop_ok V D ip OK IO Hsz k (MAXFILE + 2) t mem off 0 []) as (t' & mem' & r & E & R' & Hm); try done.
  - lia.
  - lia.
  - lia.
  - unfold MAXFILE. lia.
  - intros _. unfold MAXFILE, BS in *. lia.
  - rewrite Z.sub_0_r in Hm. rewrite Z.add_0_r in E. exists t', mem', r. split_and!; try done.
    destruct Hm as [[-> Hm]|Hm]; [by left|by right].
Qed.
End readi.

(** *** Writing *)

(** New contents for block [bn] of the file. *)
Lemma write_block V d bn x : disk_ok sb V -> inode_ok sb V d -> bn < MAXFILE -> blk V d bn <> 0%Z -> block_ok x ->
  let V' := upd V (blk V d bn) x in
  grown sb V d V' d /\ (forall n, n < MAXFILE -> blk V' d n = blk V d n) /\
  (forall n, n < MAXFILE -> cblk V' d n = if decide (n = bn) then x else cblk V d n).
Proof.
  intros OK IO Hbn Hnz Hx V'. destruct (io_blk _ _ _ IO bn Hbn Hnz) as (Hr & Hu & Hni).
  pose proof (data_start_range sb LY) as Hds.
  assert (forall n, n < MAXFILE -> blk V' d n = blk V d n) as Eb.
  { intros n _. unfold blk. case_match; [done|]. case_match; [done|]. unfold V'. by rewrite upd_other. }
  assert (forall x, (0 <= x < sb_size sb)%Z -> used sb V' x = used sb V x) as Eu.
  { intros y Hy. apply (upd_used sb); [lia|done]. }
  split; [|split; [done|]].
  - split.
    + apply (upd_disk_ok sb LY V OK); [lia|done].
    + destruct IO as [I1 I2 I3 I4 I5]. split; [done|..].
      * intros n Hn. rewrite Eb by done. intros Hz. destruct (I2 n Hn Hz) as (H1 & H2 & H3).
        pose proof (data_pos sb LY (blk V d n) (proj1 H1)). rewrite Eu by lia. done.
      * intros Hz. destruct (I3 Hz) as [H1 H2]. pose proof (data_pos sb LY (ind d) (proj1 H1)). rewrite Eu by lia. done.
      * intros n m Hn Hm. rewrite !Eb by done. by apply I4.
      * intros n Hn. destruct (I5 n Hn). rewrite Eb by done. done.
    + intros n Hn _. by apply Eb.
    + intros n Hn Hz. left. by rewrite Eb.
    + intros b [Hb|(Hb & _ & _ & Hf)]; unfold V'; apply upd_other; [lia|by apply Hf].
    + intros b Hb. by rewrite Eu.
    + done.
    + by left.
  - intros n Hn. unfold cblk. rewrite Eb by done. unfold V'. case_decide as E.
    + subst. rewrite (proj2 (Z.eqb_neq _ 0)) by done. apply upd_same.
    + destruct (Z.eqb_spec (blk V d n) 0); [done|]. apply upd_other. intros E2. apply E.
      by apply (io_inj _ _ _ IO).
Qed.

(** The bytes after a write inside one block. *)
Lemma write_bytes V V' d d' off y : disk_ok sb V -> (0 <= off)%Z -> (off `mod` BS + Z.of_nat (length y) <= BS)%Z ->
  (forall n, n < MAXFILE -> cblk V' d' n =
     if decide (n = Z.to_nat (off `div` BS)) then splice (Z.to_nat (off `mod` BS)) y (cblk V d n) else cblk V d n) ->
  forall k, (0 <= k < Z.of_nat MAXFILE * BS)%Z ->
    fbyte V' d' k = if decide (off <= k < off + Z.of_nat (length y))%Z
                    then default 0%Z (y !! Z.to_nat (k - off)) else fbyte V d k.
Proof.
  intros OK Ho Hy Hc k Hk. unfold BS in *. pose proof (Z.mod_pos_bound off 1024) as Hm1. pose proof (Z.mod_pos_bound k 1024) as Hm2.
  pose proof (Z.div_mod off 1024) as Eo. pose proof (Z.div_mod k 1024) as Ek.
  assert (0 <= k `div` 1024 < 268)%Z as Hkd by (split; [apply Z.div_pos|apply Z.div_lt_upper_bound]; unfold MAXFILE in *; lia).
  assert (0 <= off `div` 1024)%Z as Hod by (apply Z.div_pos; lia).
  unfold fbyte, BS. rewrite Hc by (unfold MAXFILE; lia).
  destruct (decide (Z.to_nat (k `div` 1024) = Z.to_nat (off `div` 1024))) as [E|E].
  - pose proof (cblk_ok sb V d (Z.to_nat (k `div` 1024)) OK) as [Hl _]. unfold BSIZE in Hl. case_decide as Hin.
    + replace (Z.to_nat (k `mod` 1024)) with (Z.to_nat (off `mod` 1024) + Z.to_nat (k - off)) by lia.
      rewrite lookup_splice_in by lia. done.
    + rewrite lookup_splice_out by lia. done.
  - rewrite decide_False by lia. done.
Qed.

Section writei.
Context {M : Type} (copyin : M -> Z -> Z -> outcome (M * bytes * bool)) (src off n : Z) (data : bytes) (mem_ok : M -> Prop).
Context (Hdata : length data = Z.to_nat n) (Hbytes : Forall is_byte data).
Context (Hcopy : forall mem a m, mem_ok mem -> (0 <= a)%Z -> (0 < m)%Z -> (a + m <= n)%Z ->
  exists mem', copyin mem (src + a)%Z m = Ret (mem', slice (Z.to_nat a) (Z.to_nat m) data, true) /\ mem_ok mem').
Context (Hoff : (0 <= off)%Z) (Hn : (0 <= n)%Z) (Hmax : (off + n <= Z.of_nat MAXFILE * BS)%Z).

(** Every block below [hi] has an address. *)
Definition full_below (V : Z -> bytes) (d : dinode) (hi : Z) : Prop :=
  forall j, (Z.of_nat j * BS < hi)%Z -> j < MAXFILE /\ blk V d j <> 0%Z.

(** The bytes from [lo] to [hi] are those of the data. *)
Definition written (V : Z -> bytes) (d : dinode) (V' : Z -> bytes) (d' : dinode) (lo hi : Z) : Prop :=
  forall k, (0 <= k < Z.of_nat MAXFILE * BS)%Z ->
    fbyte V' d' k = if decide (lo <= k < hi)%Z then default 0%Z (data !! Z.to_nat (k - off)) else fbyte V d k.

(** One round: [bmap], then the copy into the block. *)
Lemma write_round V d V1 d1 tot m :
  disk_ok sb V -> (0 <= tot)%Z -> (tot + m <= n)%Z -> (0 < m)%Z -> ((off + tot) `mod` BS + m <= BS)%Z ->
  extends sb V d V1 d1 -> blk V1 d1 (Z.to_nat ((off + tot) `div` BS)) <> 0%Z -> Z.to_nat ((off + tot) `div` BS) < MAXFILE ->
  full_below V d (off + tot) ->
  let bn := Z.to_nat ((off + tot) `div` BS) in
  let V2 := upd V1 (blk V1 d1 bn) (splice (Z.to_nat ((off + tot) `mod` BS)) (slice (Z.to_nat tot) (Z.to_nat m) data) (V1 (blk V1 d1 bn))) in
  grown sb V d V2 d1 /\ written V d V2 d1 (off + tot) (off + (tot + m)) /\ full_below V2 d1 (off + (tot + m)).
Proof.
  intros OK Ht Htm Hm Hmod [G1 C1] Hnz Hbn Hfull bn V2.
  assert (length (slice (Z.to_nat tot) (Z.to_nat m) data) = Z.to_nat m) as Hlen by (apply length_slice; lia).
  pose proof (gr_disk _ _ _ _ _ G1) as OK1. pose proof (gr_inode _ _ _ _ _ G1) as IO1.
  assert (0 <= (off + tot) `mod` BS)%Z as Hm0 by (apply Z.mod_pos_bound; unfold BS; lia).
  destruct (write_block V1 d1 bn (splice (Z.to_nat ((off + tot) `mod` BS)) (slice (Z.to_nat tot) (Z.to_nat m) data) (V1 (blk V1 d1 bn))) OK1 IO1)
    as (G2 & B2 & C2); [done|done| |].
  { apply splice_ok; [apply OK1|rewrite Hlen; unfold BSIZE, BS in *; lia|]. by apply Forall_take, Forall_drop. }
  fold V2 in G2, B2, C2. split; [by eapply grown_trans|]. split.
  - intros k Hk.
    rewrite (write_bytes V V2 d d1 (off + tot) (slice (Z.to_nat tot) (Z.to_nat m) data) OK);
      [|lia|rewrite Hlen, Z2Nat.id by lia; done| |done].
    + rewrite Hlen, Z2Nat.id by lia. replace (off + tot + m)%Z with (off + (tot + m))%Z by lia. case_decide; [|done].
      rewrite lookup_slice by lia. do 2 f_equal. lia.
    + intros j Hj. rewrite C2 by done. rewrite <-C1 by done. fold bn. case_decide as E; [|done]. subst j.
      f_equal. unfold cblk. by rewrite (proj2 (Z.eqb_neq _ 0)).
  - intros j Hj. destruct (decide (j = bn)) as [->|Hne]; [by rewrite B2|].
    destruct (Hfull j) as [Hj1 Hj2].
    { unfold bn in Hne. pose proof (Z.div_mod (off + tot) BS ltac:(unfold BS; lia)). unfold BS in *. lia. }
    split; [done|]. rewrite B2 by done. by rewrite (gr_blk _ _ _ _ _ G1).
Qed.

Lemma written_trans V d V1 d1 V2 d2 lo mid hi : (lo <= mid <= hi)%Z ->
  written V d V1 d1 lo mid -> written V1 d1 V2 d2 mid hi -> written V d V2 d2 lo hi.
Proof.
  intros Hr W1 W2 k Hk. rewrite W2, W1 by done. repeat case_decide; (done || lia).
Qed.

Lemma writei_loop_ok fuel : forall t V D ip mem tot c,
  t_rep t V ∅ D -> mem_ok mem -> disk_ok sb V -> inode_ok sb V (i_di ip) -> (0 <= tot <= n)%Z ->
  full_below V (i_di ip) (off + tot) -> 0 < fuel ->
  (tot < n -> (off + tot) `mod` BS + (n - tot) <= BS * (Z.of_nat fuel - 1))%Z ->
  (tot < n -> (off + tot) `mod` BS + (n - tot) <= BS * Z.of_nat c)%Z -> size D + 6 * c <= TXCAP ->
  exists t' d' mem' V' D' tot',
    writei_loop copyin sb t ip mem (src + tot) (off + tot) n tot fuel = Ret (t', with_di ip d', mem', (off + tot')%Z, tot') /\
    t_rep t' V' ∅ D' /\ mem_ok mem' /\ size D' <= size D + 6 * c /\ grown sb V (i_di ip) V' d' /\ (tot <= tot' <= n)%Z /\
    full_below V' d' (off + tot') /\ written V (i_di ip) V' d' (off + tot) (off + tot') /\
    (tot' = n \/ forall x, (0 <= x < sb_size sb)%Z -> used sb V' x = true).
Proof.
  assert (0 < BS)%Z as HBS by (unfold BS; lia).
  induction fuel as [|fuel IH]; intros t V D ip mem tot c R Hmem OK IO Ht Hfull Hf0 Hf Hc Hsz; [lia|]. cbn [writei_loop].
  destruct (Z.ltb_spec tot n) as [Hlt|Hge].
  2: { exists t, (i_di ip), mem, V, D, tot. rewrite with_di_same. split_and!; try done; try lia; [by apply grown_refl|].
       intros k Hk. rewrite decide_False by lia. done. }
  specialize (Hf Hlt). specialize (Hc Hlt).
  destruct (chunk_range (off + tot) (n - tot)) as (Hm & Hmb & Hmore); [lia|lia|]. cbv zeta in *. set (m := Z.min _ _) in *.
  assert (0 <= (off + tot) `div` BS)%Z as Hdiv by (apply Z.div_pos; lia).
  pose proof (Z.mod_pos_bound (off + tot) BS HBS) as Hmod.
  destruct c as [|c]; [lia|].
  assert (Z.to_nat ((off + tot) `div` BS) < MAXFILE) as Hbn.
  { assert ((off + tot) `div` BS < Z.of_nat MAXFILE)%Z by (apply Z.div_lt_upper_bound; lia). lia. }
  set (bn := Z.to_nat ((off + tot) `div` BS)) in *.
  destruct (bmap_ok sb LY t V D ip bn R OK IO Hbn) as (t1 & d1 & r & V1 & D1 & E1 & R1 & Hs1 & X1 & Er & _ & Hdf); [lia|].
  unfold bn in E1. rewrite Z2Nat.id in E1 by done. rewrite E1. cbn [obind].
  pose proof (ex_grown _ _ _ _ _ X1) as G1. pose proof (gr_disk _ _ _ _ _ G1) as OK1. pose proof (gr_inode _ _ _ _ _ G1) as IO1.
  destruct (Z.eqb_spec r 0) as [Ez|Hnz].
  { exists t1, d1, mem, V1, D1, tot. split_and!; try done; try lia.
    - intros j Hj. destruct (Hfull j Hj) as [H1 H2]. split; [done|]. by rewrite (gr_blk _ _ _ _ _ G1).
    - intros k Hk. rewrite decide_False by lia. unfold fbyte. rewrite (ex_content _ _ _ _ _ X1); [done|].
      assert (k `div` BS < Z.of_nat MAXFILE)%Z by (apply Z.div_lt_upper_bound; lia). lia.
    - right. by apply Hdf. }
  rewrite Er in Hnz. destruct (io_blk _ _ _ IO1 bn Hbn Hnz) as (Hr & _).
  destruct (use_bread t1 V1 ∅ D1 r R1) as (t2 & i & -> & E2 & R2 & H2 & _);
    [done|pose proof (data_start_range sb LY); destruct LY as [? _ _ Hb]; apply Hb; lia|rewrite map_size_empty; lia|].
  cbn [obind]. rewrite E2. cbn [obind].
  destruct (Hcopy mem tot m Hmem) as (mem1 & -> & Hmem1); [lia..|]. cbn [obind].
  destruct (use_write_brelse t2 V1 ∅ D1 r i (splice (Z.to_nat ((off + tot) `mod` BS)) (slice (Z.to_nat tot) (Z.to_nat m) data) (V1 r)) R2)
    as (t3 & t4 & t5 & -> & E4 & E5 & R5 & _); [done|done|lia|].
  cbn [obind]. rewrite E4. cbn [obind]. rewrite E5. cbn [obind]. rewrite Er in R5.
  destruct (write_round V (i_di ip) V1 d1 tot m) as (G2 & W2 & F2); [done|lia|lia|lia|lia|done|done|done|done|].
  cbv zeta in *. fold bn in G2, W2, F2. set (V2 := upd V1 _ _) in *.
  pose proof (size_add_le (blk V1 d1 bn) D1).
  replace (src + tot + m)%Z with (src + (tot + m))%Z by lia. replace (off + tot + m)%Z with (off + (tot + m))%Z by lia.
  destruct (IH t5 V2 ({[blk V1 d1 bn]} ∪ D1) (with_di ip d1) mem1 (tot + m)%Z c R5 Hmem1) as
    (t' & d' & mem' & V' & D' & tot' & E & R' & Hmem' & Hs & G3 & Ht' & F3 & W3 & Hend); cbn [i_di with_di].
  - apply G2.
  - apply G2.
  - lia.
  - done.
  - unfold BS in *. lia.
  - intros Hl. destruct Hmore as [Em0 Em]; [lia|]. replace (off + (tot + m))%Z with (off + tot + m)%Z by lia. rewrite Em0. lia.
  - intros Hl. destruct Hmore as [Em0 Em]; [lia|]. replace (off + (tot + m))%Z with (off + tot + m)%Z by lia. rewrite Em0. lia.
  - lia.
  - exists t', d', mem', V', D', tot'. split; [exact E|]. split_and!; try done; try lia.
    + by eapply grown_trans.
    + eapply written_trans; [|exact W2|exact W3]. lia.
Qed.

(** The file with a new size. *)
Lemma inode_ok_size V d hi : inode_ok sb V d -> full_below V d hi -> (0 <= hi <= Z.of_nat MAXFILE * BS)%Z ->
  inode_ok sb V (set_size d hi).
Proof.
  intros [[] I2 I3 I4 I5] Hf Hhi. split; try done. split; try done. unfold is_uint, MAXFILE, BS in *. simpl. lia.
Qed.

(** Writing the inode back changes no data block. *)
Lemma update_inode_data V inum d d2 : (0 <= inum < sb_ninodes sb)%Z -> disk_ok sb V -> dinode_ok d2 -> inode_ok sb V d ->
  let V' := update_inode sb V inum d2 in
  inode_ok sb V' d /\ (forall n, n < MAXFILE -> cblk V' d n = cblk V d n) /\
  (forall x, (0 <= x < sb_size sb)%Z -> used sb V' x = used sb V x).
Proof.
  intros Hi OK Dd IO V'. pose proof (iblock_range sb LY inum Hi) as Hib. pose proof (data_start_range sb LY) as Hds.
  assert (forall b, (sb_bmapstart sb <= b)%Z -> V' b = V b) as Hd by (intros b Hb; unfold V', update_inode; apply upd_other; lia).
  assert (forall x, (0 <= x < sb_size sb)%Z -> used sb V' x = used sb V x) as Eu.
  { intros x Hx. apply (upd_used sb); [lia|done]. }
  assert (forall n, blk V' d n = blk V d n) as Eb.
  { intros n'. unfold blk. case_match; [done|]. destruct (Z.eqb_spec (ind d) 0); [done|].
    destruct (io_ind _ _ _ IO) as [? _]; [done|]. rewrite Hd by lia. done. }
  split; [|split; [|done]].
  - destruct IO as [I1 I2 I3 I4 I5]. split; [done|..].
    + intros m Hm. rewrite Eb. intros Hz. destruct (I2 m Hm Hz) as (H1 & H2 & H3).
      pose proof (data_pos sb LY (blk V d m) (proj1 H1)). rewrite Eu by lia. done.
    + intros Hz. destruct (I3 Hz) as [H1 H2]. pose proof (data_pos sb LY (ind d) (proj1 H1)). rewrite Eu by lia. done.
    + intros m1 m2. rewrite !Eb. apply I4.
    + intros m. rewrite Eb. apply I5.
  - intros m Hm. unfold cblk. rewrite Eb. destruct (Z.eqb_spec (blk V d m) 0) as [|Hz]; [done|].
    destruct (io_blk _ _ _ IO m Hm Hz) as (H1 & _). apply Hd. lia.
Qed.

(** The disk and the inode after [writei] wrote [tot] bytes. *)
Record wrote_file (V : Z -> bytes) (inum : Z) (d : dinode) (V' : Z -> bytes) (d' : dinode) (tot : Z) : Prop := {
  wf_disk : disk_ok sb V';
  wf_inode : inode_ok sb V' d';
  wf_size : d_size d' = Z.max (d_size d) (off + tot);
  wf_type : d_type d' = d_type d /\ d_nlink d' = d_nlink d;
  wf_bytes : written V d V' d' off (off + tot);
  wf_synced : disk_inode sb V' inum = d';
  wf_inodes : forall j, (0 <= j < sb_ninodes sb)%Z -> j <> inum -> disk_inode sb V' j = disk_inode sb V j;
  wf_foreign : forall b, foreign sb V d b -> b <> IBLOCK sb inum -> V' b = V b
}.

Lemma writei_ok t V D ip mem c : t_rep t V ∅ D -> mem_ok mem -> disk_ok sb V -> inode_ok sb V (i_di ip) ->
  (0 <= i_inum ip < sb_ninodes sb)%Z -> (off <= d_size (i_di ip))%Z -> (off `mod` BS + n <= BS * Z.of_nat c)%Z ->
  size D + 6 * c + 1 <= TXCAP ->
  exists t' d' mem' V' D' tot, writei copyin sb t ip mem src off n = Ret (t', with_di ip d', mem', tot) /\ t_rep t' V' ∅ D' /\ mem_ok mem' /\
    size D' <= size D + 6 * c + 1 /\ (0 <= tot <= n)%Z /\ wrote_file V (i_inum ip) (i_di ip) V' d' tot /\
    (tot = n \/ forall x, (0 <= x < sb_size sb)%Z -> used sb V' x = true).
Proof.
  intros R Hmem OK IO Hi Hle Hc Hsz. unfold writei. pose proof (max_size _ _ _ IO) as Hms.
  assert (0 <= off + n < 4294967296)%Z as Hu by (unfold MAXFILE, BS in *; lia). rewrite u32_small by done.
  rewrite !(proj2 (Z.ltb_ge _ _)) by lia. cbn [orb].
  destruct (writei_loop_ok (MAXFILE + 2) t V D ip mem 0 c R Hmem OK IO) as
    (t1 & d1 & mem1 & V1 & D1 & tot & E & R1 & Hmem1 & Hs1 & G & Ht & F & W & Hend); rewrite ?Z.add_0_r in *.
  - lia.
  - intros j Hj. apply (io_full _ _ _ IO). lia.
  - unfold MAXFILE. lia.
  - intros _. pose proof (Z.mod_le off BS). unfold MAXFILE, BS in *. lia.
  - intros _. lia.
  - lia.
  - rewrite E. cbn [obind]. cbn [i_di with_di]. pose proof (gr_meta _ _ _ _ _ G) as Hmeta. unfold d_meta in Hmeta.
    assert (d_size d1 = d_size (i_di ip)) as Hsize by congruence.
    assert (d_type d1 = d_type (i_di ip) /\ d_nlink d1 = d_nlink (i_di ip)) as Htype by (split; congruence).
    set (d2 := if (d_size d1 <? off + tot)%Z then set_size d1 (off + tot) else d1).
    assert ((if (d_size d1 <? off + tot)%Z then with_di (with_di ip d1) (set_size d1 (off + tot)) else with_di ip d1)
      = with_di ip d2) as -> by (unfold d2; by case_match).
    assert (inode_ok sb V1 d2) as IO2.
    { unfold d2. case_match; [|apply G]. apply inode_ok_size; [apply G|done|lia]. }
    assert (d_size d2 = Z.max (d_size (i_di ip)) (off + tot)) as Hsz2.
    { unfold d2. destruct (Z.ltb_spec (d_size d1) (off + tot)); cbn; lia. }
    assert (forall W k, fbyte W d2 k = fbyte W d1 k) as Efb by (intros; unfold d2; by case_match).
    destruct (iupdate_ok sb LY t1 V1 ∅ D1 (with_di ip d2) R1) as (t2 & -> & _ & R2);
      [done|done|rewrite map_size_empty; lia|lia|]. cbn [obind i_di with_di i_inum] in *.
    destruct (update_inode_data V1 (i_inum ip) d2 d2 Hi (gr_disk _ _ _ _ _ G) (io_ok _ _ _ IO2) IO2) as (IO3 & C3 & U3).
    exists t2, d2, mem1, (update_inode sb V1 (i_inum ip) d2), ({[IBLOCK sb (i_inum ip)]} ∪ D1), tot.
    pose proof (size_add_le (IBLOCK sb (i_inum ip)) D1).
    split; [done|]. split; [exact R2|]. split; [done|]. split; [lia|]. split; [lia|]. split.
    + split; try done.
      * apply (update_inode_ok sb LY); [apply G|done|apply IO2].
      * unfold d2. by case_match.
      * intros k Hk. unfold fbyte at 1. rewrite C3; [|].
        { fold (fbyte V1 d2 k). rewrite Efb. by apply W. }
        assert (k `div` BS < Z.of_nat MAXFILE)%Z by (apply Z.div_lt_upper_bound; unfold BS in *; lia).
        assert (0 <= k `div` BS)%Z by (apply Z.div_pos; unfold BS; lia). lia.
      * apply update_inode_same; [apply G|lia|apply IO2].
      * intros j Hj Hne. rewrite update_inode_other by (done || lia || apply G || apply IO2).
        unfold disk_inode. rewrite (gr_frame _ _ _ _ _ G); [done|]. left. by apply (iblock_range sb LY).
      * intros b Hb Hne. unfold update_inode. rewrite upd_other by done. by apply (gr_frame _ _ _ _ _ G).
    + destruct Hend as [->|Hall]; [by left|right]. intros x Hx. rewrite U3 by done. by apply Hall.
Qed.
End writei.
End content.

(** ** Claims *)

(** Copies to and from an object of the kernel. *)
Lemma kcopyout_ret mem (k : nat) x : k + length x <= length mem -> kcopyout mem (Z.of_nat k) x = Ret (splice k x mem, true).
Proof.
  intros Hl. unfold kcopyout. rewrite Nat2Z.id, (proj2 (Z.leb_le _ _)), (proj2 (Nat.leb_le _ _)) by lia.
  by rewrite orb_true_r.
Qed.

Lemma kcopyin_ret mem (a m : Z) : (0 <= a)%Z -> (0 <= m)%Z -> (a + m <= Z.of_nat (length mem))%Z ->
  kcopyin mem a m = Ret (mem, slice (Z.to_nat a) (Z.to_nat m) mem, true).
Proof. intros Ha Hm Hl. unfold kcopyin. by rewrite (proj2 (Z.leb_le _ _)), (proj2 (Nat.leb_le _ _)) by lia. Qed.

Lemma kcopy_more mem0 (k room : nat) : k + room <= length mem0 ->
  forall x y mem, mem = splice k x mem0 -> length x + length y <= room -> 0 < length y -> Forall is_byte y ->
  exists mem' ok, kcopyout mem (Z.of_nat k + Z.of_nat (length x))%Z y = Ret (mem', ok) /\
    if ok : bool then mem' = splice k (x ++ y) mem0 else False.
Proof.
  intros Hr x y mem -> Hl _ _. exists (splice k (x ++ y) mem0), true. rewrite <-Nat2Z.inj_add, kcopyout_ret.
  - by rewrite splice_app by lia.
  - rewrite length_splice; lia.
Qed.

Lemma fbytes_written off n data V d V' d' : length data = Z.to_nat n -> (0 <= off)%Z -> (0 <= n)%Z ->
  (off + n <= Z.of_nat MAXFILE * BS)%Z -> written off data V d V' d' off (off + n) -> fbytes V' d' off (Z.to_nat n) = data.
Proof.
  intros Hl Ho Hn Hm Hw. apply list_eq. intros j. destruct (Nat.lt_ge_cases j (Z.to_nat n)) as [Hj|Hj].
  - rewrite lookup_fbytes, Hw by lia. rewrite decide_True by lia.
    replace (Z.to_nat (off + Z.of_nat j - off)) with j by lia.
    destruct (lookup_lt_is_Some_2 data j) as [x ->]; [lia|done].
  - rewrite !lookup_ge_None_2 by (rewrite ?length_fbytes; lia). done.
Qed.

(** C7.  A file holds what was written to it.  [writei] of [n] bytes at [off]
    returns; it writes all of them unless the disk is full; then the bytes of
    the file are the data in the written range and the old bytes everywhere
    else, the size grows as needed, the inode on the disk agrees with the one in
    memory, the other inodes and all blocks that do not belong to the file stay
    as they were; and a [readi] of the range delivers exactly the data.  The two
    copy functions to and from memory are parameters: [copyin] delivers the data,
    and [copyout] stores what it is given behind what it has stored, or fails. *)
Theorem writei_readi {T} `{TxLaws T} {M} (sb : superblock) (t : T) V (D : gset Z) (ip : inode)
    (copyin : M -> Z -> Z -> outcome (M * bytes * bool)) (copyout : M -> Z -> bytes -> outcome (M * bool))
    (src off n dst : Z) (data : bytes) (mem : M) (c : nat) (mem_ok failed : M -> Prop) (copied : bytes -> M -> Prop)
    (LY : layout (T := T) sb) (R : t_rep t V ∅ D) (OK : disk_ok sb V) (IO : inode_ok sb V (i_di ip))
    (Hi : (0 <= i_inum ip < sb_ninodes sb)%Z) (Hoff : (0 <= off <= d_size (i_di ip))%Z) (Hn : (0 <= n)%Z)
    (Hmax : (off + n <= Z.of_nat MAXFILE * BS)%Z)
    (Hc : (off `mod` BS + n <= BS * Z.of_nat c)%Z) (Hsz : size D + 6 * c + 6 <= TXCAP)
    (Hdata : length data = Z.to_nat n) (Hbytes : Forall is_byte data) (Hmem : mem_ok mem)
    (Hcopy : forall mem a m, mem_ok mem -> (0 <= a)%Z -> (0 < m)%Z -> (a + m <= n)%Z ->
       exists mem', copyin mem (src + a)%Z m = Ret (mem', slice (Z.to_nat a) (Z.to_nat m) data, true) /\ mem_ok mem')
    (Hmore : forall x y mem, copied x mem -> length x + length y <= Z.to_nat n -> 0 < length y -> Forall is_byte y ->
       exists mem' ok, copyout mem (dst + Z.of_nat (length x))%Z y = Ret (mem', ok) /\
         if ok : bool then copied (x ++ y) mem' else failed mem') :
  exists t' d' mem' V' D' tot, writei copyin sb t ip mem src off n = Ret (t', with_di ip d', mem', tot) /\
    t_rep t' V' ∅ D' /\ mem_ok mem' /\ wrote_file sb off data V (i_inum ip) (i_di ip) V' d' tot /\ (0 <= tot <= n)%Z /\
    (tot = n \/ forall x, (0 <= x < sb_size sb)%Z -> used sb V' x = true) /\
    (tot = n -> forall mem1, copied [] mem1 ->
       exists t2 mem2 r, readi copyout sb t' (with_di ip d') mem1 dst off n = Ret (t2, with_di ip d', mem2, r) /\
         t_rep t2 V' ∅ D' /\ ((r = n /\ copied data mem2) \/ (r = (-1)%Z /\ failed mem2))).
Proof.
  destruct (writei_ok sb LY copyin src off n data mem_ok Hdata Hbytes Hcopy (proj1 Hoff) Hn Hmax t V D ip mem c R Hmem OK IO Hi)
    as (t' & d' & mem' & V' & D' & tot & E & R' & Hmem' & Hs & Ht & WF & Hend); [lia|done|lia|].
  exists t', d', mem', V', D', tot. split_and!; try done; try lia.
  intros -> mem1 Hm1. destruct WF as [WD WI WS _ WB _ _ _]. unfold MAXFILE, BS in Hmax.
  assert (read_count d' off n = n) as Ec by (unfold read_count; rewrite WS; lia).
  destruct (readi_ok sb LY copyout dst (Z.to_nat n) copied failed Hmore t' V' D' (with_di ip d') mem1 off n R' WD WI)
    as (t2 & mem2 & r & E2 & R2 & Hm); [lia|unfold is_uint; lia|unfold is_uint; lia|lia|done|cbn; lia|].
  cbn [i_di with_di] in *. rewrite Ec in Hm. exists t2, mem2, r. split_and!; try done.
  destruct Hm as [[-> Hm]|Hm]; [left|by right]. split; [done|].
  by rewrite (fbytes_written off n data V (i_di ip)) in Hm by (done || lia || (unfold MAXFILE, BS; lia)).
Qed.

(** An empty file. *)
Lemma blk_di0 V n : blk V di0 n = 0%Z.
Proof.
  unfold blk. case_match eqn:E; [|done]. apply Nat.ltb_lt in E. unfold di0, NDIRECT in *. cbn [d_addrs].
  by rewrite lookup_replicate_2 by lia.
Qed.

Lemma inode_ok_di0 sb V : inode_ok sb V di0.
Proof.
  split.
  - split; try (unfold is_short, is_uint; simpl; lia). apply Forall_replicate. unfold is_uint. lia.
  - intros n _ Hz. by rewrite blk_di0 in Hz.
  - done.
  - intros n m _ _ Hz. by rewrite blk_di0 in Hz.
  - intros n Hn. simpl in Hn. unfold BS in Hn. lia.
Qed.

Lemma writei_readi_witness : exists (t t' : log * bcache) ip' mem tot,
  writei kcopyin demo_sb t inode0 [104; 105]%Z 0 0 2 = Ret (t', ip', mem, tot).
Proof.
  destruct demo_rep as (t & V & R & OK & _).
  destruct (@writei_readi _ _ demo_laws bytes demo_sb t V ∅ inode0 kcopyin kcopyout 0 0 2 0 [104; 105]%Z [104; 105]%Z 1
    (fun mem => mem = [104; 105]%Z) (fun _ => False) (fun x mem => mem = splice 0 x [0; 0]%Z)
    demo_layout R OK (inode_ok_di0 demo_sb V)) as (t' & d' & mem' & V' & D' & tot & E & _).
  - simpl. lia.
  - simpl. lia.
  - lia.
  - unfold MAXFILE, BS. lia.
  - discriminate.
  - rewrite size_empty. unfold TXCAP. lia.
  - reflexivity.
  - repeat constructor; unfold is_byte; lia.
  - reflexivity.
  - intros mem a m -> Ha Hm Hle. exists [104; 105]%Z. split; [apply kcopyin_ret; simpl; lia|reflexivity].
  - apply (kcopy_more [0; 0]%Z 0 2). simpl. lia.
  - exists t, t', (with_di inode0 d'), mem', tot. exact E.
Defined.
