(* ===== verification/FsTrunc.v ===== *)
(** * Truncation of a file: proofs (xv6/kernel/fs.c)

    [itrunc] frees exactly the blocks of the file.  The bitmap is one block, as
    on the image that [mkfs] builds (2000 blocks, 8192 bits in a block). *)

From S2P Require Import Prelude.
From S2P Require Import Bytes.
From S2P Require Import Bio.
From S2P Require Import Log.
From S2P Require Import Txn.
From S2P Require Import Fs.
From S2P Require Import FsBlocks.
From S2P Require Import FsContent.

(** [V'] is [V] with the blocks [F] free. *)
Record cleared (sb : superblock) (V V' : Z -> bytes) (F : list Z) : Prop := {
  cl_disk : disk_ok sb V';
  cl_frame : forall b, b <> sb_bmapstart sb -> V' b = V b;
  cl_used : forall x, (0 <= x < sb_size sb)%Z -> used sb V' x = used sb V x && negb (bool_decide (x ∈ F))
}.

(** The addresses [a i], ..., [a (i + k - 1)] that are not zero can be freed one
    after the other. *)
Record freeable (sb : superblock) (V : Z -> bytes) (F : list Z) (a : nat -> Z) (i k : nat) : Prop := {
  fr_used : forall j, i <= j < i + k -> a j <> 0%Z ->
    (data_start sb <= a j < sb_size sb)%Z /\ used sb V (a j) = true /\ (a j ∉ F);
  fr_inj : forall j j', i <= j < i + k -> i <= j' < i + k -> a j <> 0%Z -> a j = a j' -> j = j'
}.

(** [F'] is [F] with these addresses. *)
Definition freed (F : list Z) (a : nat -> Z) (i k : nat) (F' : list Z) : Prop :=
  forall x, x ∈ F' <-> x ∈ F \/ exists j, i <= j < i + k /\ a j = x /\ x <> 0%Z.

Lemma freeable_skip sb V F a i k : freeable sb V F a i (S k) -> freeable sb V F a (S i) k.
Proof. intros [H1 H2]. split; [intros; apply H1; (lia || done)|intros; apply H2; (lia || done)]. Qed.

Lemma freeable_next sb V F a i k : freeable sb V F a i (S k) -> a i <> 0%Z -> freeable sb V (a i :: F) a (S i) k.
Proof.
  intros [H1 H2] Hz. split; [|intros; apply H2; (lia || done)]. intros j Hj Haj.
  destruct (H1 j) as (? & ? & ?); [lia|done|]. split; [done|]. split; [done|]. rewrite elem_of_cons. intros [E|?]; [|done].
  assert (i = j); [apply H2; (lia || done)|lia].
Qed.

Lemma freed_skip F a i k F' : a i = 0%Z -> freed F a (S i) k F' -> freed F a i (S k) F'.
Proof.
  intros Hz HF x. rewrite (HF x). split.
  - intros [?|(j & Hj & E & Hx)]; [by left|right]. exists j. split; [lia|done].
  - intros [?|(j & Hj & E & Hx)]; [by left|right]. exists j. split; [|done].
    destruct (decide (j = i)) as [->|]; [congruence|lia].
Qed.

Lemma freed_next F a i k F' : a i <> 0%Z -> freed (a i :: F) a (S i) k F' -> freed F a i (S k) F'.
Proof.
  intros Hz HF x. rewrite (HF x), elem_of_cons. split.
  - intros [[->|?]|(j & Hj & E & Hx)]; [right|by left|right].
    + exists i. split; [lia|done].
    + exists j. split; [lia|done].
  - intros [?|(j & Hj & E & Hx)]; [by left; right|].
    destruct (decide (j = i)) as [->|]; [left; left; done|right]. exists j. split; [lia|done].
Qed.

Section trunc.
Context {T : Type} `{TxLaws T} (sb : superblock) (LY : layout (T := T) sb) (Hone : (sb_size sb <= BPB)%Z).

Lemma bblock_one x : (0 <= x < sb_size sb)%Z -> BBLOCK sb x = sb_bmapstart sb.
Proof using Hone. intros Hx. unfold BBLOCK. rewrite Z.div_small; lia. Qed.

Context (V : Z -> bytes) (L : gmap Z bool) (D : gset Z).
Context (OK : disk_ok sb V) (HL : size L < 3) (HLb : L !! sb_bmapstart sb = None) (Hsz : size D + 2 <= TXCAP).

(** The writes go to the block of the bitmap. *)
Abbreviation D_ok D' := (D' ⊆ {[sb_bmapstart sb]} ∪ D).

Lemma bfree_step t V1 D1 F x : t_rep t V1 L D1 -> D_ok D1 -> cleared sb V V1 F ->
  (data_start sb <= x < sb_size sb)%Z -> used sb V x = true -> x ∉ F ->
  exists t' V2 D2, bfree sb t x = Ret t' /\ t_rep t' V2 L D2 /\ D_ok D2 /\ cleared sb V V2 (x :: F) /\ tkeeps L t t'.
Proof.
  intros R HD [CD CF CU] Hx Hu HF. pose proof (data_start_range sb LY) as Hds. pose proof LY as [Hst _ _ _].
  assert (0 <= x < sb_size sb)%Z as Hx0 by lia. pose proof (bblock_one x Hx0) as Eb.
  assert (size D1 <= S (size D)) as Hs1.
  { pose proof (subseteq_size _ _ HD). pose proof (size_add_le (sb_bmapstart sb) D). lia. }
  destruct (bfree_ok sb LY t V1 L D1 x R CD) as (t' & E & R' & K); [done|by rewrite Eb|done| |lia|].
  { rewrite CU by done. rewrite Hu, bool_decide_false by done. done. }
  rewrite Eb in R'. eexists t', _, _. split; [done|]. split; [exact R'|]. split; [set_solver|]. split; [|done].
  split; [by apply (free_ok sb LY)| |].
  - intros b Hb. unfold free_block. rewrite Eb, upd_other by done. by apply CF.
  - intros y Hy. rewrite (used_free sb V1 CD) by done. rewrite CU by done.
    destruct (Z.eqb_spec x y) as [->|Hne].
    + rewrite (bool_decide_true (y ∈ y :: F)) by set_solver. by rewrite !andb_false_r.
    + rewrite (bool_decide_ext (y ∈ x :: F) (y ∈ F)) by set_solver. done.
Qed.

Lemma free_indirect_ok a k : forall t V1 D1 F j, t_rep t V1 L D1 -> D_ok D1 -> cleared sb V V1 F ->
  freeable sb V F (get_uint a) j k ->
  exists t' V2 D2 F', free_indirect sb t a j k = Ret t' /\ t_rep t' V2 L D2 /\ D_ok D2 /\ cleared sb V V2 F' /\
    freed F (get_uint a) j k F' /\ tkeeps L t t'.
Proof.
  induction k as [|k IH]; intros t V1 D1 F j R HD HC Hf; cbn [free_indirect].
  { exists t, V1, D1, F. split_and!; try done; [|apply tkeeps_refl]. intros x. split; [by left|]. intros [?|(j' & Hj & _)]; [done|lia]. }
  destruct (Z.eqb_spec (get_uint a j) 0) as [Ez|Hnz].
  - cbn [obind]. destruct (IH t V1 D1 F (S j) R HD HC (freeable_skip _ _ _ _ _ _ Hf)) as (t' & V2 & D2 & F' & E & R2 & HD2 & HC2 & HF & K).
    exists t', V2, D2, F'. split_and!; try done. by apply freed_skip.
  - destruct (fr_used _ _ _ _ _ _ Hf j) as (Hr & Hu & HF); [lia|done|].
    destruct (bfree_step t V1 D1 F _ R HD HC Hr Hu HF) as (t1 & V2 & D2 & -> & R2 & HD2 & HC2 & K1). cbn [obind].
    destruct (IH t1 V2 D2 _ (S j) R2 HD2 HC2 (freeable_next _ _ _ _ _ _ Hf Hnz)) as (t' & V3 & D3 & F' & E & R3 & HD3 & HC3 & HF3 & K).
    exists t', V3, D3, F'. split_and!; try done; [by apply freed_next|by eapply tkeeps_trans].
Qed.

Definition addr (d : dinode) (j : nat) : Z := default 0%Z (d_addrs d !! j).

Lemma free_direct_ok k : forall t V1 D1 F ip i, t_rep t V1 L D1 -> D_ok D1 -> cleared sb V V1 F ->
  i + k <= length (d_addrs (i_di ip)) -> freeable sb V F (addr (i_di ip)) i k ->
  exists t' V2 D2 F' d', free_direct sb t ip i k = Ret (t', with_di ip d') /\ t_rep t' V2 L D2 /\ D_ok D2 /\
    cleared sb V V2 F' /\ freed F (addr (i_di ip)) i k F' /\ d_meta d' = d_meta (i_di ip) /\
    length (d_addrs d') = length (d_addrs (i_di ip)) /\
    (forall j, addr d' j = if decide (i <= j < i + k) then 0%Z else addr (i_di ip) j) /\ tkeeps L t t'.
Proof.
  induction k as [|k IH]; intros t V1 D1 F ip i R HD HC Hlen Hf; cbn [free_direct].
  { exists t, V1, D1, F, (i_di ip). rewrite with_di_same. split_and!; try done; [| |apply tkeeps_refl].
    - intros x. split; [by left|]. intros [?|(j' & Hj & _)]; [done|lia].
    - intros j. rewrite decide_False by lia. done. }
  destruct (lookup_lt_is_Some_2 (d_addrs (i_di ip)) i) as [a Ea]; [lia|]. rewrite (load_ret _ _ _ Ea). cbn [obind].
  assert (addr (i_di ip) i = a) as Eai by (unfold addr; by rewrite Ea).
  destruct (Z.eqb_spec a 0) as [->|Hnz].
  - destruct (IH t V1 D1 F ip (S i) R HD HC ltac:(lia) (freeable_skip _ _ _ _ _ _ Hf)) as
      (t' & V2 & D2 & F' & d' & E & R2 & HD2 & HC2 & HF & Hm & Hl & Ha & K).
    exists t', V2, D2, F', d'. split_and!; try done; [by apply freed_skip|]. intros j. rewrite Ha.
    repeat case_decide; try lia; try done. replace j with i by lia. done.
  - rewrite <-Eai in *. destruct (fr_used _ _ _ _ _ _ Hf i) as (Hr & Hu & HF); [lia|done|].
    destruct (bfree_step t V1 D1 F _ R HD HC Hr Hu HF) as (t1 & V2 & D2 & -> & R2 & HD2 & HC2 & K1). cbn [obind].
    set (d1 := set_addr (i_di ip) i 0).
    assert (forall j, addr d1 j = if decide (j = i) then 0%Z else addr (i_di ip) j) as Ed1.
    { intros j. unfold addr, d1. cbn [set_addr d_addrs]. case_decide as E; [subst; by rewrite list_lookup_insert_eq by lia|].
      by rewrite list_lookup_insert_ne. }
    assert (freeable sb V (addr (i_di ip) i :: F) (addr d1) (S i) k) as Hf1.
    { destruct (freeable_next _ _ _ _ _ _ Hf Hnz) as [G1 G2]. split.
      - intros j Hj. rewrite Ed1, decide_False by lia. by apply G1.
      - intros j j' Hj Hj'. rewrite !Ed1, !decide_False by lia. by apply G2. }
    destruct (IH t1 V2 D2 _ (with_di ip d1) (S i) R2 HD2 HC2) as
      (t' & V3 & D3 & F' & d' & E & R3 & HD3 & HC3 & HF3 & Hm & Hl & Ha & K); [cbn; rewrite length_insert; lia|done|].
    cbn [i_di with_di] in *. exists t', V3, D3, F', d'. split_and!; try done; [| | |by eapply tkeeps_trans].
    + apply freed_next; [done|]. intros x. rewrite (HF3 x). split; intros [?|(j & Hj & E1 & Hx)]; try (by left); right; exists j.
      * rewrite Ed1, decide_False in E1 by lia. done.
      * rewrite Ed1, decide_False by lia. done.
    + rewrite Hl. unfold d1. cbn. apply length_insert.
    + intros j. rewrite Ha, Ed1. repeat case_decide; (done || lia).
Qed.
End trunc.

(** The blocks of a file. *)
Definition owned (V : Z -> bytes) (d : dinode) (x : Z) : Prop :=
  x <> 0%Z /\ (x = ind d \/ exists n, n < MAXFILE /\ blk V d n = x).

Definition emptied (d : dinode) : dinode :=
  mk_di (d_type d) (d_major d) (d_minor d) (d_nlink d) 0 (replicate (NDIRECT + 1) 0%Z).

Lemma emptied_ok d : dinode_ok d -> dinode_ok (emptied d).
Proof. intros []. split; try done. apply Forall_replicate. unfold is_uint. lia. Qed.

Lemma cleared_nil sb V : disk_ok sb V -> cleared sb V V [].
Proof. intros OK. split; [done|done|]. intros x _. rewrite bool_decide_false by apply not_elem_of_nil. by rewrite andb_true_r. Qed.

Lemma blk_direct V d n : n < NDIRECT -> blk V d n = addr d n.
Proof. intros Hn. unfold blk, addr. by rewrite (proj2 (Nat.ltb_lt _ _) Hn). Qed.

Lemma blk_indirect V d k : ind d <> 0%Z -> blk V d (NDIRECT + k) = get_uint (V (ind d)) k.
Proof.
  intros Hi. unfold blk. rewrite (proj2 (Nat.ltb_ge _ _)), (proj2 (Z.eqb_neq _ _)) by (done || lia). f_equal. lia.
Qed.

Section itrunc.
Context {T : Type} `{TxLaws T} (sb : superblock) (LY : layout (T := T) sb) (Hone : (sb_size sb <= BPB)%Z).
Context (V : Z -> bytes) (OK : disk_ok sb V).

Lemma freeable_direct d : inode_ok sb V d -> freeable sb V [] (addr d) 0 NDIRECT.
Proof.
  intros IO. split.
  - intros j Hj Hz. rewrite <-(blk_direct V) in * by lia.
    destruct (io_blk _ _ _ IO j) as (? & ? & _); [unfold MAXFILE, NDIRECT in *; lia|done|].
    split; [done|]. split; [done|]. apply not_elem_of_nil.
  - intros j j' Hj Hj' Hz E. rewrite <-!(blk_direct V) in * by lia.
    apply (io_inj _ _ _ IO); (done || unfold MAXFILE, NDIRECT in *; lia).
Qed.

Lemma freeable_indirect d F : inode_ok sb V d -> ind d <> 0%Z -> freed [] (addr d) 0 NDIRECT F ->
  freeable sb V F (get_uint (V (ind d))) 0 NINDIRECT.
Proof.
  intros IO Hi HF. split.
  - intros j Hj Hz. rewrite <-blk_indirect in * by done.
    destruct (io_blk _ _ _ IO (NDIRECT + j)) as (? & ? & _); [unfold MAXFILE, NDIRECT, NINDIRECT in *; lia|done|].
    split; [done|]. split; [done|]. rewrite (HF _). intros [Hn|(j' & Hj' & E & _)]; [by apply not_elem_of_nil in Hn|].
    rewrite <-(blk_direct V) in E by lia.
    assert (NDIRECT + j = j'); [|lia]. apply (io_inj _ _ _ IO); (done || unfold MAXFILE, NDIRECT, NINDIRECT in *; lia).
  - intros j j' Hj Hj' Hz E. rewrite <-!blk_indirect in * by done.
    assert (NDIRECT + j = NDIRECT + j'); [|lia].
    apply (io_inj _ _ _ IO); (done || unfold MAXFILE, NDIRECT, NINDIRECT in *; lia).
Qed.

(** The second half of [itrunc]: the indirect block. *)
Lemma free_ind_ok t V1 D D1 F ip : inode_ok sb V (i_di ip) -> ind (i_di ip) <> 0%Z -> size D + 2 <= TXCAP ->
  t_rep t V1 ∅ D1 -> D1 ⊆ {[sb_bmapstart sb]} ∪ D -> cleared sb V V1 F -> freed [] (addr (i_di ip)) 0 NDIRECT F ->
  exists t' V2 D2 F', (let* '(t, bp) := t_bread t (ind (i_di ip)) in
      let* a := t_data t bp in
      let* t := free_indirect sb t a 0 NINDIRECT in
      let* t := t_brelse t bp in bfree sb t (ind (i_di ip))) = Ret t' /\
    t_rep t' V2 ∅ D2 /\ D2 ⊆ {[sb_bmapstart sb]} ∪ D /\ cleared sb V V2 F' /\
    forall x, x ∈ F' <-> owned V (i_di ip) x.
Proof.
  set (d := i_di ip). intros IO Hi Hsz R HD HC HF. destruct (io_ind _ _ _ IO Hi) as [Hir Hiu].
  pose proof (data_start_range sb LY) as Hds. pose proof LY as [Hst _ _ Hblk].
  destruct (use_bread t V1 ∅ D1 (ind d) R) as (t1 & i & -> & E1 & R1 & H1 & _);
    [done|apply Hblk; lia|rewrite map_size_empty; lia|].
  cbn [obind]. rewrite E1. cbn [obind]. rewrite (cl_frame _ _ _ _ HC) by lia.
  destruct (free_indirect_ok sb LY Hone V (<[ind d := false]> ∅) D) with (a := V (ind d)) (k := NINDIRECT) (t := t1) (V1 := V1) (D1 := D1) (F := F) (j := 0)
    as (t2 & V2 & D2 & F2 & -> & R2 & HD2 & HC2 & HF2 & K2); try done.
  { rewrite insert_empty, map_size_singleton. lia. }
  { rewrite lookup_insert_ne by lia. done. }
  { by apply freeable_indirect. }
  cbn [obind]. destruct (use_brelse t2 V2 ∅ D2 (ind d) i R2) as (t3 & -> & R3 & _).
  { apply K2; [rewrite lookup_insert_eq; by eexists|done]. } { done. }
  cbn [obind].
  assert (forall x, x ∈ F2 <-> x <> 0%Z /\ exists n, n < MAXFILE /\ blk V d n = x) as HF2'.
  { intros x. rewrite (HF2 x), (HF x). split.
    - intros [[Hn|(j & Hj & E & Hx)]|(j & Hj & E & Hx)]; [by apply not_elem_of_nil in Hn|..]; (split; [done|]).
      + exists j. rewrite <-(blk_direct V) in E by lia. split; [unfold MAXFILE, NDIRECT in *; lia|done].
      + exists (NDIRECT + j). rewrite blk_indirect by done. split; [unfold MAXFILE, NDIRECT, NINDIRECT in *; lia|done].
    - intros [Hx (n & Hn & E)]. destruct (decide (n < NDIRECT)).
      + left. right. exists n. rewrite <-(blk_direct V) by done. split; [lia|done].
      + right. exists (n - NDIRECT). rewrite <-blk_indirect by done. replace (NDIRECT + (n - NDIRECT)) with n by lia.
        split; [unfold MAXFILE, NDIRECT, NINDIRECT in *; lia|done]. }
  destruct (bfree_step sb LY Hone V ∅ D) with (t := t3) (V1 := V2) (D1 := D2) (F := F2) (x := ind d)
    as (t4 & V4 & D4 & E4 & R4 & HD4 & HC4 & _); try done.
  { rewrite map_size_empty. lia. }
  { rewrite (HF2' _). intros [_ (n & Hn & E)]. destruct (io_blk _ _ _ IO n Hn) as (_ & _ & Hne); congruence. }
  exists t4, V4, D4, (ind d :: F2). split_and!; try done.
  intros x. rewrite elem_of_cons, (HF2' x). unfold owned. split; [intros [->|[? ?]]; [by split; [|left]|by split; [|right]]|].
  intros [Hx [E|E]]; [by left|by right].
Qed.

Lemma itrunc_ok t D ip : inode_ok sb V (i_di ip) -> (0 <= i_inum ip < sb_ninodes sb)%Z -> size D + 2 <= TXCAP ->
  t_rep t V ∅ D ->
  exists t' V' D', itrunc sb t ip = Ret (t', with_di ip (emptied (i_di ip))) /\ t_rep t' V' ∅ D' /\
    D' ⊆ {[IBLOCK sb (i_inum ip)]} ∪ ({[sb_bmapstart sb]} ∪ D) /\ disk_ok sb V' /\
    (forall x, (0 <= x < sb_size sb)%Z -> used sb V' x = true <-> used sb V x = true /\ ~ owned V (i_di ip) x) /\
    disk_inode sb V' (i_inum ip) = emptied (i_di ip) /\
    (forall j, (0 <= j < sb_ninodes sb)%Z -> j <> i_inum ip -> disk_inode sb V' j = disk_inode sb V j) /\
    (forall b, b <> sb_bmapstart sb -> b <> IBLOCK sb (i_inum ip) -> V' b = V b).
Proof.
  intros IO Hi Hsz R. set (d := i_di ip) in *. pose proof (io_ok _ _ _ IO) as Dd. pose proof (do_len _ Dd) as Hlen.
  pose proof (data_start_range sb LY) as Hds. pose proof LY as [Hst _ _ Hblk].
  unfold itrunc.
  destruct (free_direct_ok sb LY Hone V ∅ D) with (k := NDIRECT) (t := t) (V1 := V) (D1 := D) (F := @nil Z) (ip := ip) (i := 0)
    as (t1 & V1 & D1 & F1 & d1 & -> & R1 & HD1 & HC1 & HF1 & Hm1 & Hl1 & Ha1 & _); try done.
  { rewrite map_size_empty. lia. } { set_solver. } { by apply cleared_nil. }
  { fold d. rewrite Hlen. lia. } { by apply freeable_direct. }
  fold d in Ha1, Hl1, HF1, Hm1. cbn [obind i_di with_di].
  assert (addr d1 NDIRECT = ind d) as Ei by (rewrite Ha1, decide_False by lia; done).
  destruct (lookup_lt_is_Some_2 (d_addrs d1) NDIRECT) as [a Ea]; [lia|]. rewrite (load_ret _ _ _ Ea). cbn [obind].
  assert (a = ind d) as -> by (rewrite <-Ei; unfold addr; by rewrite Ea).
  assert (exists t2 V2 D2 F2, (if (ind d =? 0)%Z then Ret (t1, with_di ip d1) else
      let* '(t, bp) := t_bread t1 (ind d) in
      let* a := t_data t bp in
      let* t := free_indirect sb t a 0 NINDIRECT in
      let* t := t_brelse t bp in
      let* t := bfree sb t (ind d) in
      Ret (t, with_di (with_di ip d1) (set_addr d1 NDIRECT 0))) = Ret (t2, with_di ip (set_addr d1 NDIRECT 0)) /\
    t_rep t2 V2 ∅ D2 /\ D2 ⊆ {[sb_bmapstart sb]} ∪ D /\ cleared sb V V2 F2 /\ forall x, x ∈ F2 <-> owned V d x)
    as (t2 & V2 & D2 & F2 & E2 & R2 & HD2 & HC2 & HF2).
  { destruct (Z.eqb_spec (ind d) 0) as [Ez|Hnz].
    - exists t1, V1, D1, F1. split_and!; try done.
      + do 3 f_equal. destruct d1 as [? ? ? ? ? addrs]. unfold set_addr. cbn in *. f_equal. symmetry. apply list_insert_id. by rewrite Ea, Ez.
      + intros x. rewrite (HF1 x). unfold owned. split.
        * intros [Hn|(j & Hj & E & Hx)]; [by apply not_elem_of_nil in Hn|]. split; [done|right]. exists j.
          rewrite <-(blk_direct V) in E by lia. split; [unfold MAXFILE, NDIRECT in *; lia|done].
        * intros [Hx [E|(n & Hn & E)]]; [congruence|right]. destruct (decide (n < NDIRECT)) as [Hlt|Hge].
          -- exists n. rewrite <-(blk_direct V) by done. split; [lia|done].
          -- exfalso. apply Hx. rewrite <-E. unfold blk. rewrite (proj2 (Nat.ltb_ge _ _)) by lia. by rewrite Ez.
    - destruct (free_ind_ok t1 V1 D D1 F1 ip IO Hnz Hsz R1 HD1 HC1 HF1) as (t2 & V2 & D2 & F2 & E & R2 & HD2 & HC2 & HF2).
      fold d in E. exists t2, V2, D2, F2. split; [|done].
      apply obind_inv in E as ([ta bp] & -> & E). cbn [obind]. apply obind_inv in E as (a & -> & E). cbn [obind].
      apply obind_inv in E as (tb & -> & E). cbn [obind]. apply obind_inv in E as (tc & -> & E). cbn [obind]. by rewrite E. }
  rewrite E2. cbn [obind i_di with_di]. set (d2 := set_size (set_addr d1 NDIRECT 0) 0).
  assert (d2 = emptied d) as Ed2.
  { unfold d2, emptied, set_size, set_addr. unfold d_meta in Hm1. cbn. f_equal; try congruence.
    apply list_eq. intros j. destruct (Nat.lt_ge_cases j 13) as [Hj|Hj].
    - destruct (decide (j = NDIRECT)) as [->|Hne].
      + rewrite list_lookup_insert_eq by lia. done.
      + rewrite list_lookup_insert_ne by done.
        specialize (Ha1 j). rewrite decide_True in Ha1 by (unfold NDIRECT in *; lia). unfold addr in Ha1.
        destruct (lookup_lt_is_Some_2 (d_addrs d1) j) as [y Ey]; [unfold NDIRECT in *; lia|]. rewrite Ey in *. simpl in Ha1. subst y.
        symmetry. apply (lookup_replicate_2 13). lia.
    - rewrite lookup_ge_None_2 by (rewrite length_insert; unfold NDIRECT in *; lia).
      symmetry. apply (lookup_ge_None_2 (replicate 13 0%Z)). rewrite length_replicate. done. }
  replace (with_di (with_di ip (set_addr d1 NDIRECT 0)) d2) with (with_di ip (emptied d)) by (by rewrite <-Ed2).
  pose proof (emptied_ok d Dd) as Dde. pose proof (cl_disk _ _ _ _ HC2) as OK2. pose proof (iblock_range sb LY (i_inum ip) Hi) as Hib.
  assert (size D2 <= S (size D)) as Hs2.
  { pose proof (subseteq_size _ _ HD2). pose proof (size_add_le (sb_bmapstart sb) D). lia. }
  destruct (iupdate_ok sb LY t2 V2 ∅ D2 (with_di ip (emptied d)) R2) as (t3 & -> & _ & R3);
    [done|done|rewrite map_size_empty; lia|lia|]. cbn [obind i_di i_inum with_di] in *.
  eexists t3, _, _. split; [done|]. split; [exact R3|]. split; [set_solver|].
  split; [by apply (update_inode_ok sb LY)|]. split.
  { intros x Hx. unfold update_inode. rewrite (upd_used sb) by (done || lia). rewrite (cl_used _ _ _ _ HC2) by done.
    rewrite andb_true_iff, negb_true_iff, bool_decide_eq_false, (HF2 x). done. }
  split; [apply update_inode_same; (done || lia)|]. split.
  - intros j Hj Hne. rewrite update_inode_other by (done || lia). unfold disk_inode.
    rewrite (cl_frame _ _ _ _ HC2); [done|]. pose proof (iblock_range sb LY j Hj). lia.
  - intros b Hb Hb2. unfold update_inode. rewrite upd_other by done. by apply HC2.
Qed.
End itrunc.
