(* ===== verification/Inode.v ===== *)
(** * The table of in-memory inodes (xv6/kernel/fs.c)

    [iget], [ilock], [iput] and the functions around them on the state of the
    file system: the super block, the block store and the table.  An inode is
    named by its index in the table.  A call that would sleep on an inode lock
    does not return ([NoFuel]). *)

From S2P Require Import Prelude.
From S2P Require Import Bytes.
From S2P Require Import Bio.
From S2P Require Import Log.
From S2P Require Import Txn.
From S2P Require Import Fs.
From S2P Require Import FsBlocks.
From S2P Require Import FsContent.
From S2P Require Import FsTrunc.

Record fs (T : Type) : Type := mk_fs {
  f_sb : superblock;
  f_t : T;
  f_itab : list inode
}.
Arguments mk_fs {T}.
Arguments f_sb {T}.
Arguments f_t {T}.
Arguments f_itab {T}.

Definition set_ref (ip : inode) (n : Z) : inode :=
  mk_inode (i_dev ip) (i_inum ip) n (i_locked ip) (i_valid ip) (i_di ip).
Definition set_ilock (ip : inode) (l : bool) : inode :=
  mk_inode (i_dev ip) (i_inum ip) (i_ref ip) l (i_valid ip) (i_di ip).
Definition set_valid (ip : inode) (v : bool) : inode :=
  mk_inode (i_dev ip) (i_inum ip) (i_ref ip) (i_locked ip) v (i_di ip).

(** The static table, after [iinit]. *)
Definition iinit : list inode := replicate NINODE inode0.

(** The loop of [iget]: the entry of the inode, or else the first free one. *)
Fixpoint iget_scan (tab : list inode) (dev inum : Z) (i : nat) (empty : option nat) : nat + option nat :=
  match tab with
  | [] => inr empty
  | ip :: tab =>
      if (0 <? i_ref ip)%Z && (i_dev ip =? dev)%Z && (i_inum ip =? inum)%Z then inl i
      else
        let empty := match empty with
                     | None => if (i_ref ip =? 0)%Z then Some i else None
                     | Some _ => empty
                     end in
        iget_scan tab dev inum (S i) empty
  end.

Section inode.
Context {T : Type} `{TxStore T}.
Implicit Types f : fs T.

Definition with_t f (t : T) : fs T := mk_fs (f_sb f) t (f_itab f).
Definition with_ip f (i : nat) (ip : inode) : fs T := mk_fs (f_sb f) (f_t f) (<[i := ip]> (f_itab f)).

Definition iget f (dev inum : Z) : outcome (fs T * nat) :=
  match iget_scan (f_itab f) dev inum 0 None with
  | inl i =>
      let* ip := load (f_itab f) i in
      Ret (with_ip f i (set_ref ip (i_ref ip + 1)), i)
  | inr None => Panic "iget: no inodes"
  | inr (Some i) =>
      let* ip := load (f_itab f) i in
      Ret (with_ip f i (mk_inode dev inum 1 (i_locked ip) false (i_di ip)), i)
  end.

Definition idup f (i : nat) : outcome (fs T) :=
  let* ip := load (f_itab f) i in
  Ret (with_ip f i (set_ref ip (i_ref ip + 1))).

Definition ilock f (i : nat) : outcome (fs T) :=
  let* ip := load (f_itab f) i in
  if (i_ref ip <? 1)%Z then Panic "ilock"
  else if i_locked ip then NoFuel
  else
    let ip := set_ilock ip true in
    if i_valid ip then Ret (with_ip f i ip)
    else
      let* '(t, bp) := t_bread (f_t f) (IBLOCK (f_sb f) (i_inum ip)) in
      let* data := t_data t bp in
      let ip := with_di ip (dinode_at data (slot (i_inum ip))) in
      let* t := t_brelse t bp in
      let ip := set_valid ip true in
      if (d_type (i_di ip) =? 0)%Z then Panic "ilock: no type"
      else Ret (with_ip (with_t f t) i ip).

Definition iunlock f (i : nat) : outcome (fs T) :=
  let* ip := load (f_itab f) i in
  if negb (i_locked ip) || (i_ref ip <? 1)%Z then Panic "iunlock"
  else Ret (with_ip f i (set_ilock ip false)).

Definition iput f (i : nat) : outcome (fs T) :=
  let* ip := load (f_itab f) i in
  let last := (i_ref ip =? 1)%Z && i_valid ip && (d_nlink (i_di ip) =? 0)%Z in
  let inum := i_inum ip in
  let* f :=
    if last then
      if i_locked ip then NoFuel
      else
        let* '(t, ip) := itrunc (f_sb f) (f_t f) (set_ilock ip true) in
        Ret (with_ip (with_t f t) i (set_ilock (set_valid ip false) false))
    else Ret f in
  let* ip := load (f_itab f) i in
  let f := with_ip f i (set_ref ip (i_ref ip - 1)) in
  if last then
    let* t := ifree (f_sb f) (f_t f) inum in
    Ret (with_t f t)
  else Ret f.

Definition iunlockput f (i : nat) : outcome (fs T) :=
  let* f := iunlock f i in iput f i.

(** [iupdate] of an entry of the table. *)
Definition iupdate_ip f (i : nat) : outcome (fs T) :=
  let* ip := load (f_itab f) i in
  let* t := iupdate (f_sb f) (f_t f) ip in
  Ret (with_t f t).

(** The search of [ialloc] from inode [inum] on, [k] inodes to go. *)
Fixpoint ialloc_loop f (dev type inum : Z) (k : nat) : outcome (fs T * option nat) :=
  match k with
  | O => Ret (f, None)
  | S k =>
      let* '(t, bp) := t_bread (f_t f) (IBLOCK (f_sb f) inum) in
      let* data := t_data t bp in
      if (d_type (dinode_at data (slot inum)) =? 0)%Z then
        let* data := Kstring.memset data (slot inum) 0 DINODE in
        let* t := t_set_data t bp (put_type data (slot inum) type) in
        let* t := t_log_write t bp in
        let* t := t_brelse t bp in
        let* '(f, i) := iget (with_t f t) dev inum in
        Ret (f, Some i)
      else
        let* t := t_brelse t bp in
        ialloc_loop (with_t f t) dev type (inum + 1) k
  end.

Definition ialloc f (dev type : Z) : outcome (fs T * option nat) :=
  ialloc_loop f dev type 1 (Z.to_nat (sb_ninodes (f_sb f) - 1)).

Fixpoint ireclaim_loop f (dev inum : Z) (k : nat) : outcome (fs T) :=
  match k with
  | O => Ret f
  | S k =>
      let* '(t, bp) := t_bread (f_t f) (IBLOCK (f_sb f) inum) in
      let* data := t_data t bp in
      let dip := dinode_at data (slot inum) in
      let f := with_t f t in
      let* '(f, ip) :=
        if negb (d_type dip =? 0)%Z && (d_nlink dip =? 0)%Z
        then let* '(f, i) := iget f dev inum in Ret (f, Some i) else Ret (f, None) in
      let* t := t_brelse (f_t f) bp in
      let f := with_t f t in
      let* f :=
        match ip with
        | None => Ret f
        | Some i =>
            let* t := t_begin_op (f_t f) in
            let* f := ilock (with_t f t) i in
            let* f := iunlock f i in
            let* f := iput f i in
            let* t := t_end_op (f_t f) in
            Ret (with_t f t)
        end in
      ireclaim_loop f dev (inum + 1) k
  end.

Definition ireclaim f (dev : Z) : outcome (fs T) :=
  ireclaim_loop f dev 1 (Z.to_nat (sb_ninodes (f_sb f) - 1)).

Definition fsinit (t : T) (tab : list inode) (dev : Z) : outcome (fs T) :=
  let* '(t, sb) := readsb t in
  if negb (sb_magic sb =? FSMAGIC)%Z then Panic "invalid file system"
  else
    let* t := t_initlog t (sb_logstart sb) in
    ireclaim (mk_fs sb t tab) dev.

(** [struct stat] *)
Record stat : Type := mk_stat { st_dev : Z; st_ino : Z; st_type : Z; st_nlink : Z; st_size : Z }.

Definition stati (ip : inode) : stat :=
  mk_stat (i_dev ip) (i_inum ip) (d_type (i_di ip)) (d_nlink (i_di ip)) (d_size (i_di ip)).
End inode.

(** ** Proofs *)
Definition names (dev inum : Z) (ip : inode) : Prop := (0 < i_ref ip)%Z /\ i_dev ip = dev /\ i_inum ip = inum.

Lemma names_spec dev inum ip :
  (0 <? i_ref ip)%Z && (i_dev ip =? dev)%Z && (i_inum ip =? inum)%Z = true <-> names dev inum ip.
Proof. unfold names. rewrite !andb_true_iff, Z.ltb_lt, !Z.eqb_eq. tauto. Qed.

Lemma iget_scan_ok dev inum tab : forall i e,
  (exists k ip, iget_scan tab dev inum i e = inl (i + k) /\ tab !! k = Some ip /\ names dev inum ip) \/
  ((forall k ip, tab !! k = Some ip -> ~ names dev inum ip) /\
   (match e with
    | Some x => iget_scan tab dev inum i e = inr (Some x)
    | None => (exists k ip, iget_scan tab dev inum i e = inr (Some (i + k)) /\ tab !! k = Some ip /\ i_ref ip = 0%Z) \/
              (iget_scan tab dev inum i e = inr None /\ forall k ip, tab !! k = Some ip -> i_ref ip <> 0%Z)
    end)).
Proof.
  induction tab as [|ip tab IH]; intros i e; cbn [iget_scan].
  { right. split; [done|]. destruct e; [done|]. right. done. }
  destruct (_ && _) eqn:En.
  { left. exists 0, ip. rewrite Nat.add_0_r. split_and!; try done. by apply names_spec. }
  assert (~ names dev inum ip) as Hno by (intros Hn; apply names_spec in Hn; congruence).
  set (e' := match e with Some _ => e | None => if (i_ref ip =? 0)%Z then Some i else None end).
  destruct (IH (S i) e') as [(k & jp & -> & Hk & Hn)|[Hnone He]].
  { left. exists (S k), jp. split; [f_equal; lia|done]. }
  right. split; [intros [|k] jp Hk; [by simplify_eq/=|by eapply Hnone]|].
  destruct e as [x|]; [done|]. subst e'. cbn in *. destruct (Z.eqb_spec (i_ref ip) 0) as [Hz|Hz].
  - left. exists 0, ip. rewrite Nat.add_0_r. done.
  - destruct He as [(k & jp & -> & Hk & Hr)|[-> Hall]].
    + left. exists (S k), jp. split; [do 2 f_equal; lia|done].
    + right. split; [done|]. intros [|k] jp Hk; [by simplify_eq/=|by eapply Hall].
Qed.

(** The table: one entry per inode in use, and an unlocked entry that was read
    agrees with the disk. *)
Record itab_ok (sb : superblock) (V : Z -> bytes) (tab : list inode) : Prop := {
  it_ref : forall i ip, tab !! i = Some ip -> (0 <= i_ref ip)%Z;
  it_free : forall i ip, tab !! i = Some ip -> i_ref ip = 0%Z -> i_locked ip = false;
  it_inum : forall i ip, tab !! i = Some ip -> (0 < i_ref ip)%Z ->
    i_dev ip = ROOTDEV /\ (0 <= i_inum ip < sb_ninodes sb)%Z;
  it_uniq : forall i j ip jp, tab !! i = Some ip -> tab !! j = Some jp ->
    names (i_dev ip) (i_inum ip) jp -> (0 < i_ref ip)%Z -> i = j;
  it_sync : forall i ip, tab !! i = Some ip -> (0 < i_ref ip)%Z -> i_valid ip = true -> i_locked ip = false ->
    i_di ip = disk_inode sb V (i_inum ip)
}.

Lemma iinit_ok sb V : itab_ok sb V iinit.
Proof.
  assert (forall i ip, iinit !! i = Some ip -> ip = inode0) as E by (intros i ip Hi; by apply lookup_replicate in Hi as [-> _]).
  split; intros i; try (intros ip Hi; apply E in Hi; subst; simpl; (done || lia)).
  intros j ip jp Hi Hj. apply E in Hi, Hj. subst. intros [? _]. simpl in *. lia.
Qed.

(** A new value for one entry. *)
Lemma itab_insert sb V tab i ip ip' : itab_ok sb V tab -> tab !! i = Some ip ->
  (0 <= i_ref ip')%Z -> (i_ref ip' = 0%Z -> i_locked ip' = false) ->
  ((0 < i_ref ip')%Z -> i_dev ip' = ROOTDEV /\ (0 <= i_inum ip' < sb_ninodes sb)%Z) ->
  ((0 < i_ref ip')%Z -> forall j jp, j <> i -> tab !! j = Some jp -> ~ names (i_dev ip') (i_inum ip') jp) ->
  ((0 < i_ref ip')%Z -> i_valid ip' = true -> i_locked ip' = false -> i_di ip' = disk_inode sb V (i_inum ip')) ->
  itab_ok sb V (<[i := ip']> tab).
Proof.
  intros [I1 I2 I3 I4 I5] Hi H1 H2 H3 H4 H5.
  assert (forall j jp, <[i := ip']> tab !! j = Some jp -> (j = i /\ jp = ip') \/ (j <> i /\ tab !! j = Some jp)) as Hcase.
  { intros j jp Hj. apply list_lookup_insert_Some in Hj as [(-> & <- & _)|[? ?]]; [by left|right; done]. }
  split.
  - intros j jp Hj. destruct (Hcase _ _ Hj) as [[-> ->]|[_ ?]]; eauto.
  - intros j jp Hj. destruct (Hcase _ _ Hj) as [[-> ->]|[_ ?]]; eauto.
  - intros j jp Hj. destruct (Hcase _ _ Hj) as [[-> ->]|[_ ?]]; eauto.
  - intros j k jp kp Hj Hk Hn Hr. destruct (Hcase _ _ Hj) as [[-> ->]|[Nj Hj']], (Hcase _ _ Hk) as [[-> ->]|[Nk Hk']]; [done|..].
    + by destruct (H4 Hr k kp).
    + destruct Hn as (Hr' & Ed & Ei). destruct (H4 Hr' j jp Nj Hj'). split; [done|]. by rewrite Ed, Ei.
    + by eapply I4.
  - intros j jp Hj. destruct (Hcase _ _ Hj) as [[-> ->]|[_ ?]]; eauto.
Qed.

Section itab.
Context {T : Type} `{TxLaws T}.
Implicit Types f : fs T.

Lemma iget_ok f V dev inum : itab_ok (f_sb f) V (f_itab f) -> dev = ROOTDEV -> (0 <= inum < sb_ninodes (f_sb f))%Z ->
  (iget f dev inum = Panic "iget: no inodes" /\
     (forall j jp, f_itab f !! j = Some jp -> (0 < i_ref jp)%Z /\ ~ names dev inum jp)) \/
  exists i ip ip', iget f dev inum = Ret (with_ip f i ip', i) /\ f_itab f !! i = Some ip /\
    i_dev ip' = dev /\ i_inum ip' = inum /\ itab_ok (f_sb f) V (<[i := ip']> (f_itab f)) /\
    ((names dev inum ip /\ ip' = set_ref ip (i_ref ip + 1)) \/
     (i_ref ip = 0%Z /\ i_ref ip' = 1%Z /\ i_valid ip' = false /\ i_locked ip' = false /\
      forall j jp, f_itab f !! j = Some jp -> ~ names dev inum jp)).
Proof.
  intros IT Hdev Hin. unfold iget.
  destruct (iget_scan_ok dev inum (f_itab f) 0 None) as [(k & ip & -> & Hk & Hn)|[Hnone [(k & ip & -> & Hk & Hr)|[-> Hall]]]].
  - right. simpl. rewrite (load_ret _ _ _ Hk). cbn [obind]. destruct Hn as (Hr & Hd & Hi).
    exists k, ip, (set_ref ip (i_ref ip + 1)). split_and!; try done; [|left; split; [done|done]].
    eapply itab_insert; [done|done|..]; cbn; try lia.
    + intros _ j jp Hne Hj Hnm. apply Hne. symmetry. by eapply (it_uniq _ _ _ IT).
    + intros _ Hv Hl. by eapply (it_sync _ _ _ IT).
  - right. simpl. rewrite (load_ret _ _ _ Hk). cbn [obind]. eexists k, ip, _. split; [done|].
    pose proof (it_free _ _ _ IT k ip Hk Hr) as Hl. split_and!; try done; [|right; by rewrite Hl].
    eapply itab_insert; [done|done|..]; cbn; try lia; try done.
    intros _ j jp _ Hj. by apply Hnone with j.
  - left. split; [done|]. intros j jp Hj. pose proof (it_ref _ _ _ IT j jp Hj). pose proof (Hall j jp Hj). split; [lia|by apply Hnone with j].
Qed.

Context (f : fs T) (LY : layout (T := T) (f_sb f)) (V : Z -> bytes) (D : gset Z).
Context (R : t_rep (f_t f) V ∅ D) (OK : disk_ok (f_sb f) V) (IT : itab_ok (f_sb f) V (f_itab f)).

Lemma ilock_ok i ip : f_itab f !! i = Some ip -> (0 < i_ref ip)%Z -> i_locked ip = false ->
  d_type (disk_inode (f_sb f) V (i_inum ip)) <> 0%Z ->
  exists f', ilock f i = Ret f' /\ f_sb f' = f_sb f /\ t_rep (f_t f') V ∅ D /\
    f_itab f' = <[i := mk_inode (i_dev ip) (i_inum ip) (i_ref ip) true true (disk_inode (f_sb f) V (i_inum ip))]> (f_itab f) /\
    itab_ok (f_sb f) V (f_itab f').
Proof.
  intros Hi Hr Hl Ht. unfold ilock. rewrite (load_ret _ _ _ Hi). cbn [obind].
  rewrite (proj2 (Z.ltb_ge _ _)), Hl by lia. cbn [set_ilock i_valid].
  set (ip' := mk_inode _ _ _ true true _).
  assert (itab_ok (f_sb f) V (<[i := ip']> (f_itab f))) as IT'.
  { eapply itab_insert; [done|done|..]; cbn; try lia; try done.
    - intros _. by eapply (it_inum _ _ _ IT).
    - intros _ j jp Hne Hj Hn. apply Hne. symmetry. by eapply (it_uniq _ _ _ IT). }
  destruct (i_valid ip) eqn:Hv.
  - eexists. split; [done|]. unfold with_ip. cbn.
    assert (set_ilock ip true = ip') as ->; [|done].
    unfold ip', set_ilock. by rewrite Hv, (it_sync _ _ _ IT i ip).
  - pose proof (it_inum _ _ _ IT i ip Hi Hr) as [_ Hin].
    destruct (use_bread (f_t f) V ∅ D (IBLOCK (f_sb f) (i_inum ip)) R) as (t1 & b & E & E1 & R1 & H1 & _);
      [done|by apply (iblock_block _ LY)|rewrite map_size_empty; lia|].
    cbn [set_ilock i_inum with_di i_di]. rewrite E. cbn [obind]. rewrite E1. cbn [obind].
    destruct (use_brelse t1 V ∅ D _ b R1 H1) as (t2 & -> & R2 & _); [done|]. cbn [obind set_valid i_di].
    fold (disk_inode (f_sb f) V (i_inum ip)). rewrite (proj2 (Z.eqb_neq _ _)) by done.
    eexists. split; [done|]. done.
Qed.

Lemma iunlock_ok i ip : f_itab f !! i = Some ip -> (0 < i_ref ip)%Z -> i_locked ip = true ->
  i_di ip = disk_inode (f_sb f) V (i_inum ip) ->
  exists f', iunlock f i = Ret f' /\ f_sb f' = f_sb f /\ f_t f' = f_t f /\
    f_itab f' = <[i := set_ilock ip false]> (f_itab f) /\ itab_ok (f_sb f) V (f_itab f').
Proof.
  intros Hi Hr Hl Hd. unfold iunlock. rewrite (load_ret _ _ _ Hi). cbn [obind].
  rewrite Hl, (proj2 (Z.ltb_ge _ _)) by lia. cbn. eexists. split; [done|]. split_and!; try done. cbn.
  eapply itab_insert; [done|done|..]; cbn; try lia; try done.
  - intros _. by eapply (it_inum _ _ _ IT).
  - intros _ j jp Hne Hj Hn. apply Hne. symmetry. by eapply (it_uniq _ _ _ IT).
Qed.

(** Only the inode [inum] changed on the disk, and no entry relies on it. *)
Lemma itab_disk sb W W' tab inum : itab_ok sb W tab ->
  (forall j, (0 <= j < sb_ninodes sb)%Z -> j <> inum -> disk_inode sb W' j = disk_inode sb W j) ->
  (forall i ip, tab !! i = Some ip -> (0 < i_ref ip)%Z -> i_valid ip = true -> i_locked ip = false -> i_inum ip <> inum) ->
  itab_ok sb W' tab.
Proof.
  intros [I1 I2 I3 I4 I5] Hd Hno. split; try done. intros i ip Hi Hr Hv Hl.
  rewrite Hd; [by eapply I5|by eapply I3|by eapply Hno].
Qed.

(** [ifree] clears the type and nothing else. *)
Lemma ifree_ok sb t W D' inum : layout (T := T) sb -> t_rep t W ∅ D' -> disk_ok sb W -> (0 <= inum < sb_ninodes sb)%Z ->
  S (size D') <= TXCAP ->
  exists t' W', ifree sb t inum = Ret t' /\ t_rep t' W' ∅ ({[IBLOCK sb inum]} ∪ D') /\ disk_ok sb W' /\
    d_type (disk_inode sb W' inum) = 0%Z /\
    (forall j, (0 <= j < sb_ninodes sb)%Z -> j <> inum -> disk_inode sb W' j = disk_inode sb W j) /\
    (forall b, b <> IBLOCK sb inum -> W' b = W b) /\
    (forall x, (0 <= x < sb_size sb)%Z -> used sb W' x = used sb W x).
Proof.
  intros LY' R' OK' Hin Hsz. unfold ifree. pose proof (iblock_range sb LY' inum Hin) as Hib.
  destruct (use_bread t W ∅ D' (IBLOCK sb inum) R') as (t1 & b & -> & E1 & R1 & H1 & _);
    [done|by apply (iblock_block _ LY')|rewrite map_size_empty; lia|]. cbn [obind]. rewrite E1. cbn [obind].
  destruct (use_write_brelse t1 W ∅ D' _ b (put_type (W (IBLOCK sb inum)) (slot inum) 0) R1)
    as (t2 & t3 & t4 & -> & E3 & E4 & R4 & _); [done|done|done|]. cbn [obind]. rewrite E3. cbn [obind].
  pose proof (slot_range inum ltac:(lia)) as Hslot. pose proof (dk_block _ _ OK' (IBLOCK sb inum)) as [Hlen Hby].
  unfold DINODE in Hslot.
  eexists t4, _. split; [done|]. split; [exact R4|]. split_and!.
  - apply (upd_disk_ok sb LY' W OK'); [lia|]. apply put_le_ok; [done|lia].
  - unfold disk_inode. rewrite upd_same. unfold dinode_at. cbn [d_type]. unfold put_type.
    rewrite s16_put; [done|unfold is_short; lia|lia].
  - intros j Hj Hne. unfold disk_inode, upd. case_decide as E; [|done]. rewrite E. apply dinode_at_ext.
    intros n o Ho1 Ho2. unfold put_type. apply get_put_le_ne; [lia|].
    destruct (slot_disjoint inum j sb); [lia|lia|done|done|..]; unfold DINODE in *; lia.
  - intros x Hx. by apply upd_other.
  - intros x Hx. apply (upd_used sb); [lia|done].
Qed.

Lemma iput_keeps i ip : f_itab f !! i = Some ip -> (0 < i_ref ip)%Z -> i_locked ip = false ->
  ~ (i_ref ip = 1%Z /\ i_valid ip = true /\ d_nlink (i_di ip) = 0%Z) ->
  exists f', iput f i = Ret f' /\ f_sb f' = f_sb f /\ f_t f' = f_t f /\
    f_itab f' = <[i := set_ref ip (i_ref ip - 1)]> (f_itab f) /\ itab_ok (f_sb f) V (f_itab f').
Proof.
  intros Hi Hr Hl Hnot. unfold iput. rewrite (load_ret _ _ _ Hi). cbn [obind].
  assert ((i_ref ip =? 1)%Z && i_valid ip && (d_nlink (i_di ip) =? 0)%Z = false) as ->.
  { apply not_true_is_false. rewrite !andb_true_iff, !Z.eqb_eq. tauto. }
  cbn [obind]. rewrite (load_ret _ _ _ Hi). cbn [obind]. eexists. split; [done|]. split_and!; try done. cbn.
  eapply itab_insert; [done|done|..]; cbn; try lia; try done.
  - intros _. by eapply (it_inum _ _ _ IT).
  - intros _ j jp Hne Hj Hn. apply Hne. symmetry. by eapply (it_uniq _ _ _ IT).
  - intros _ Hv _. by eapply (it_sync _ _ _ IT).
Qed.

Lemma iput_frees i ip : (sb_size (f_sb f) <= BPB)%Z -> size D + 3 <= TXCAP -> inode_ok (f_sb f) V (i_di ip) ->
  f_itab f !! i = Some ip -> i_ref ip = 1%Z -> i_locked ip = false -> i_valid ip = true -> d_nlink (i_di ip) = 0%Z ->
  exists f' V' D', iput f i = Ret f' /\ f_sb f' = f_sb f /\ t_rep (f_t f') V' ∅ D' /\ disk_ok (f_sb f) V' /\
    itab_ok (f_sb f) V' (f_itab f') /\
    f_itab f' = <[i := mk_inode (i_dev ip) (i_inum ip) 0 false false (emptied (i_di ip))]> (f_itab f) /\
    d_type (disk_inode (f_sb f) V' (i_inum ip)) = 0%Z /\
    (forall j, (0 <= j < sb_ninodes (f_sb f))%Z -> j <> i_inum ip -> disk_inode (f_sb f) V' j = disk_inode (f_sb f) V j) /\
    (forall x, (0 <= x < sb_size (f_sb f))%Z ->
       used (f_sb f) V' x = true <-> used (f_sb f) V x = true /\ ~ owned V (i_di ip) x) /\
    (forall b, b <> sb_bmapstart (f_sb f) -> b <> IBLOCK (f_sb f) (i_inum ip) -> V' b = V b).
Proof.
  intros Hone Hsz IO Hi Hr Hl Hv Hn. unfold iput. rewrite (load_ret _ _ _ Hi). cbn [obind].
  assert ((i_ref ip =? 1)%Z && i_valid ip && (d_nlink (i_di ip) =? 0)%Z = true) as -> by (by rewrite Hr, Hv, Hn).
  rewrite Hl. destruct (it_inum _ _ _ IT i ip Hi ltac:(lia)) as [Hdev Hin].
  destruct (itrunc_ok (f_sb f) LY Hone V OK (f_t f) D (set_ilock ip true) IO Hin) as
    (t1 & V1 & D1 & -> & R1 & HD1 & OK1 & Hu1 & _ & Hin1 & Hfr1); [lia|done|].
  cbn [obind set_ilock i_inum i_di] in *.
  assert (size D1 <= size D + 2) as Hs1.
  { pose proof (subseteq_size _ _ HD1). pose proof (size_add_le (IBLOCK (f_sb f) (i_inum ip)) ({[sb_bmapstart (f_sb f)]} ∪ D)).
    pose proof (size_add_le (sb_bmapstart (f_sb f)) D). lia. }
  set (ip1 := mk_inode (i_dev ip) (i_inum ip) 0 false false (emptied (i_di ip))).
  unfold with_ip, with_t. cbn [f_itab f_t f_sb].
  rewrite (load_ret _ i (set_ilock (set_valid (with_di (set_ilock ip true) (emptied (i_di ip))) false) false));
    [|rewrite list_lookup_insert_eq by (by eapply lookup_lt_Some); done].
  cbn [obind]. rewrite list_insert_insert_eq.
  destruct (ifree_ok (f_sb f) t1 V1 D1 (i_inum ip) LY R1 OK1 Hin) as (t2 & V2 & -> & R2 & OK2 & Ht2 & Hi2 & Hfr2 & Hu2); [lia|].
  cbn [obind]. eexists _, V2, _. split; [done|]. cbn [f_sb f_t f_itab]. split; [done|]. split; [exact R2|].
  assert (set_ref (set_ilock (set_valid (with_di (set_ilock ip true) (emptied (i_di ip))) false) false)
    (i_ref (set_ilock (set_valid (with_di (set_ilock ip true) (emptied (i_di ip))) false) false) - 1) = ip1) as ->.
  { unfold ip1, set_ref. cbn. by rewrite Hr. }
  split_and!; try done.
  - apply (itab_disk _ V _ _ (i_inum ip)).
    + eapply itab_insert; [done|done|..]; cbn; (done || lia).
    + intros j Hj Hne. rewrite Hi2, Hin1 by done. done.
    + intros j jp Hj Hrj _ _ E. apply list_lookup_insert_Some in Hj as [(-> & <- & _)|[Hne Hj]]; [cbn in Hrj; lia|].
      apply Hne. eapply (it_uniq _ _ _ IT); [done|done| |lia].
      destruct (it_inum _ _ _ IT j jp Hj Hrj) as [Hdj _]. split; [done|]. by rewrite Hdev, Hdj, E.
  - intros j Hj Hne. rewrite Hi2, Hin1 by done. done.
  - intros x Hx. rewrite Hu2 by done. by apply Hu1.
  - intros b Hb1 Hb2. rewrite Hfr2, Hfr1 by done. done.
Qed.
End itab.

(** ** Claims *)

(** An inode has one entry in the table while it is in use: [iget] returns
    the entry, with one more reference, that every other [iget] of the inode
    returns, it changes no other entry, and it panics only when all entries are
    used by other inodes; [ilock] of an entry that nobody has locked returns
    with the contents of the inode on the disk. *)
Theorem iget_ilock {T} `{TxLaws T} (f : fs T) V (D : gset Z) (inum : Z)
    (LY : layout (T := T) (f_sb f)) (R : t_rep (f_t f) V ∅ D) (OK : disk_ok (f_sb f) V)
    (IT : itab_ok (f_sb f) V (f_itab f)) (Hin : (0 <= inum < sb_ninodes (f_sb f))%Z)
    (Hfree : exists j jp, f_itab f !! j = Some jp /\ (i_ref jp = 0%Z \/ names ROOTDEV inum jp)) :
  exists i ip ip', iget f ROOTDEV inum = Ret (with_ip f i ip', i) /\ f_itab f !! i = Some ip /\
    itab_ok (f_sb f) V (<[i := ip']> (f_itab f)) /\ names ROOTDEV inum ip' /\
    i_ref ip' = (i_ref ip + 1)%Z /\
    (forall j jp, f_itab f !! j = Some jp -> names ROOTDEV inum jp -> j = i) /\
    (exists f2, iget (with_ip f i ip') ROOTDEV inum = Ret (f2, i)) /\
    (i_locked ip' = false -> d_type (disk_inode (f_sb f) V inum) <> 0%Z ->
     exists f2, ilock (with_ip f i ip') i = Ret f2 /\ t_rep (f_t f2) V ∅ D /\
       f_itab f2 !! i = Some (mk_inode ROOTDEV inum (i_ref ip') true true (disk_inode (f_sb f) V inum))).
Proof.
  destruct (iget_ok f V ROOTDEV inum IT eq_refl Hin) as [[_ Hall]|(i & ip & ip' & E & Hi & Hd & Hn & IT' & Hc)].
  { exfalso. destruct Hfree as (j & jp & Hj & Hf). destruct (Hall j jp Hj). destruct Hf; [lia|done]. }
  assert (i < length (f_itab f)) as Hlt by (by eapply lookup_lt_Some).
  assert (names ROOTDEV inum ip') as Hnm.
  { split; [|done]. destruct Hc as [[[Hr _] ->]|(_ & -> & _)]; cbn; lia. }
  assert (f_itab (with_ip f i ip') !! i = Some ip') as Hi' by (by apply list_lookup_insert_eq).
  exists i, ip, ip'. split_and!; try done.
  - destruct Hc as [[_ ->]|(-> & -> & _)]; done.
  - intros j jp Hj Hj'. destruct Hc as [[Hip _]|(_ & _ & _ & _ & Hno)]; [|by destruct (Hno j jp)].
    destruct Hip as (Hr & Hd1 & Hn1). eapply (it_uniq _ _ _ IT); [exact Hj|exact Hi| |apply Hj'].
    destruct Hj' as (_ & -> & ->). done.
  - destruct (iget_ok (with_ip f i ip') V ROOTDEV inum IT' eq_refl Hin) as [[_ Hall]|(k & kp & kp' & E2 & Hk & _ & _ & _ & Hc2)].
    + by destruct (Hall i ip' Hi').
    + destruct Hc2 as [[Hkp _]|(_ & _ & _ & _ & Hno)]; [|by destruct (Hno i ip' Hi')].
      assert (k = i) as ->; [|by eexists]. destruct Hnm as (Hr & Hd1 & Hn1).
      eapply (it_uniq _ _ _ IT'); [exact Hk|exact Hi'| |apply Hkp]. destruct Hkp as (_ & -> & ->). done.
  - intros Hl Ht. destruct Hnm as (Hr & Hd1 & Hn1).
    destruct (ilock_ok (with_ip f i ip') LY V D R IT' i ip' Hi' Hr Hl) as (f2 & E2 & _ & R2 & Hf2 & _); [by rewrite Hn1|].
    exists f2. split; [done|]. split; [done|]. rewrite Hf2, Hd1, Hn1. apply list_lookup_insert_eq. cbn. by rewrite length_insert.
Qed.

Definition demo_fs (t : log * bcache) (tab : list inode) : fs (log * bcache) := mk_fs demo_sb t tab.

Lemma iget_ilock_witness : exists (t : log * bcache) f i, iget (demo_fs t iinit) ROOTDEV 1 = Ret (f, i).
Proof.
  destruct demo_rep as (t & V & R & OK & _).
  destruct (@iget_ilock _ _ demo_laws (demo_fs t iinit) V ∅ 1 demo_layout R OK (iinit_ok demo_sb V)) as (i & ip & ip' & E & _).
  - simpl. lia.
  - exists 0, inode0. split; [reflexivity|]. left. reflexivity.
  - exists t, (with_ip (demo_fs t iinit) i ip'), i. exact E.
Defined.

(** [iput] drops one reference.  As long as a name or another reference is
    left the disk does not change; with the last reference of an inode without
    links it frees exactly the blocks of the file and the inode, and leaves the
    other inodes, their blocks and their entries as they were. *)
Theorem iput_lifetime {T} `{TxLaws T} (f : fs T) V (D : gset Z) (i : nat) (ip : inode)
    (LY : layout (T := T) (f_sb f)) (R : t_rep (f_t f) V ∅ D) (OK : disk_ok (f_sb f) V)
    (IT : itab_ok (f_sb f) V (f_itab f)) (Hone : (sb_size (f_sb f) <= BPB)%Z) (Hsz : size D + 3 <= TXCAP)
    (Hi : f_itab f !! i = Some ip) (Hr : (0 < i_ref ip)%Z) (Hl : i_locked ip = false)
    (IO : i_valid ip = true -> inode_ok (f_sb f) V (i_di ip)) :
  exists f' V' D' ip', iput f i = Ret f' /\ t_rep (f_t f') V' ∅ D' /\ disk_ok (f_sb f) V' /\
    itab_ok (f_sb f) V' (f_itab f') /\ f_itab f' = <[i := ip']> (f_itab f) /\ i_ref ip' = (i_ref ip - 1)%Z /\
    if decide (i_ref ip = 1%Z /\ i_valid ip = true /\ d_nlink (i_di ip) = 0%Z) then
      d_type (disk_inode (f_sb f) V' (i_inum ip)) = 0%Z /\
      (forall j, (0 <= j < sb_ninodes (f_sb f))%Z -> j <> i_inum ip -> disk_inode (f_sb f) V' j = disk_inode (f_sb f) V j) /\
      (forall x, (0 <= x < sb_size (f_sb f))%Z ->
         used (f_sb f) V' x = true <-> used (f_sb f) V x = true /\ ~ owned V (i_di ip) x) /\
      (forall b, b <> sb_bmapstart (f_sb f) -> b <> IBLOCK (f_sb f) (i_inum ip) -> V' b = V b)
    else V' = V.
Proof.
  case_decide as Hlast.
  - destruct Hlast as (H1 & H2 & H3).
    destruct (iput_frees f LY V D R OK IT i ip Hone Hsz (IO H2) Hi H1 Hl H2 H3)
      as (f' & V' & D' & E & _ & R' & OK' & IT' & Ef & Hrest).
    eexists f', V', D', _. split; [done|]. split; [done|]. split; [done|]. split; [done|]. split; [exact Ef|].
    split; [cbn; lia|done].
  - destruct (iput_keeps f V IT i ip Hi Hr Hl Hlast) as (f' & E & _ & Et & Ef & IT').
    eexists f', V, D, _. split; [done|]. rewrite Et. split; [done|]. split; [done|]. split; [done|]. split; [exact Ef|]. done.
Qed.

Lemma iput_lifetime_witness : exists (t : log * bcache) f', 
  iput (demo_fs t (<[0 := mk_inode ROOTDEV 1 1 false true di0]> iinit)) 0 = Ret f'.
Proof.
  destruct demo_rep as (t & V & R & OK & HV). set (ip := mk_inode ROOTDEV 1 1 false true di0).
  assert (disk_inode demo_sb V 1 = di0) as Ed.
  { unfold disk_inode. rewrite HV by (right; reflexivity). reflexivity. }
  assert (itab_ok demo_sb V (<[0 := ip]> iinit)) as IT.
  { apply (itab_insert demo_sb V iinit 0 inode0 ip (iinit_ok demo_sb V)); try done; try (simpl; lia).
    intros _ j jp _ Hj. apply (lookup_replicate NINODE) in Hj as [-> _]. intros [Hx _]. simpl in Hx. lia. }
  destruct (@iput_lifetime _ _ demo_laws (demo_fs t (<[0 := ip]> iinit)) V ∅ 0 ip demo_layout R OK IT) as (f' & V' & D' & ip' & E & _).
  - simpl. unfold BPB. lia.
  - rewrite size_empty. unfold TXCAP. lia.
  - reflexivity.
  - simpl. lia.
  - reflexivity.
  - intros _. apply inode_ok_di0.
  - exists t, f'. exact E.
Defined.
