(* ===== verification/Dir.v ===== *)
(** * Directories and path names (xv6/kernel/fs.c)

    A directory is a file of 16-byte entries: two bytes of inode number and 14
    bytes of name, filled up with zeros.  Names and paths are arrays of bytes;
    a path ends with its first NUL. *)

From S2P Require Import Prelude.
From S2P Require Import Bytes.
From S2P Require Import Kstring.
From S2P Require Import Bio.
From S2P Require Import Log.
From S2P Require Import Txn.
From S2P Require Import Fs.
From S2P Require Import FsBlocks.
From S2P Require Import FsContent.
From S2P Require Import FsTrunc.
From S2P Require Import Inode.

Definition DIRSIZ : nat := 14.
Definition DIRENT : nat := 16.
Definition SLASH : Z := 47.

Definition namecmp (s t : bytes) : outcome Z := strncmp s t DIRSIZ.

(** [struct dirent] *)
Definition de_inum (de : bytes) : Z := get_le 2 de 0.
Definition de_name (de : bytes) : bytes := drop 2 de.

Section dir.
Context {T : Type} `{TxStore T}.
Implicit Types f : fs T.

(** [readi] of the entry at [off] into [de]; [None] when it is incomplete. *)
Definition read_dirent f (dp : nat) (off : Z) (de : bytes) : outcome (fs T * option bytes) :=
  let* ip := load (f_itab f) dp in
  let* '(t, ip, de, r) := readi kcopyout (f_sb f) (f_t f) ip de 0 off (Z.of_nat DIRENT) in
  Ret (with_ip (with_t f t) dp ip, if (r =? Z.of_nat DIRENT)%Z then Some de else None).

Fixpoint dirlookup_loop f (dp : nat) (name : bytes) (size dev off : Z) (de : bytes) (fuel : nat) :
    outcome (fs T * option (nat * Z)) :=
  match fuel with
  | O => NoFuel
  | S fuel =>
      if (off <? size)%Z then
        let* '(f, r) := read_dirent f dp off de in
        match r with
        | None => Panic "dirlookup read"
        | Some de =>
            if (de_inum de =? 0)%Z then dirlookup_loop f dp name size dev (off + Z.of_nat DIRENT) de fuel
            else
              let* c := namecmp name (de_name de) in
              if (c =? 0)%Z then
                let* '(f, i) := iget f dev (de_inum de) in Ret (f, Some (i, off))
              else dirlookup_loop f dp name size dev (off + Z.of_nat DIRENT) de fuel
        end
      else Ret (f, None)
  end.

(** The fuel is one round per entry and one more. *)
Definition dir_fuel (size : Z) : nat := S (Z.to_nat (size `div` Z.of_nat DIRENT) + 1).

Definition dirlookup f (dp : nat) (name : bytes) : outcome (fs T * option (nat * Z)) :=
  let* ip := load (f_itab f) dp in
  if negb (d_type (i_di ip) =? T_DIR)%Z then Panic "dirlookup not DIR"
  else
    let size := d_size (i_di ip) in
    dirlookup_loop f dp name size (i_dev ip) 0 (replicate DIRENT 0%Z) (dir_fuel size).

(** The search for an empty entry: its offset and what [de] holds then. *)
Fixpoint dirlink_loop f (dp : nat) (size off : Z) (de : bytes) (fuel : nat) : outcome (fs T * Z * bytes) :=
  match fuel with
  | O => NoFuel
  | S fuel =>
      if (off <? size)%Z then
        let* '(f, r) := read_dirent f dp off de in
        match r with
        | None => Panic "dirlink read"
        | Some de =>
            if (de_inum de =? 0)%Z then Ret (f, off, de)
            else dirlink_loop f dp size (off + Z.of_nat DIRENT) de fuel
        end
      else Ret (f, off, de)
  end.

Definition dirlink f (dp : nat) (name : bytes) (inum : Z) : outcome (fs T * Z) :=
  let* '(f, r) := dirlookup f dp name in
  match r with
  | Some (i, _) => let* f := iput f i in Ret (f, (-1)%Z)
  | None =>
      let* ip := load (f_itab f) dp in
      let size := d_size (i_di ip) in
      let* '(f, off, de) := dirlink_loop f dp size 0 (replicate DIRENT 0%Z) (dir_fuel size) in
      let* nm := strncpy (de_name de) name DIRSIZ in
      let de := le_encode 2 (u16 inum) ++ nm in
      let* ip := load (f_itab f) dp in
      let* '(t, ip, _, r) := writei kcopyin (f_sb f) (f_t f) ip de 0 off (Z.of_nat DIRENT) in
      let f := with_ip (with_t f t) dp ip in
      Ret (f, if (r =? Z.of_nat DIRENT)%Z then 0 else -1)%Z
  end.

(** ** Paths *)

Fixpoint skip_slashes (path : bytes) : outcome bytes :=
  match path with
  | [] => Undef
  | c :: rest => if (c =? SLASH)%Z then skip_slashes rest else Ret path
  end.

Fixpoint elem_len (path : bytes) : outcome nat :=
  match path with
  | [] => Undef
  | c :: rest => if (c =? SLASH)%Z || (c =? 0)%Z then Ret 0 else let* n := elem_len rest in Ret (S n)
  end.

(** [memmove(name, s, n)] between two arrays *)
Definition copy_to (name s : bytes) (n : nat) : outcome bytes :=
  if (n <=? length name) && (n <=? length s) then Ret (splice 0 (take n s) name) else Undef.

(** The rest of the path and the element in [name]. *)
Definition skipelem (path name : bytes) : outcome (option (bytes * bytes)) :=
  let* path := skip_slashes path in
  let* c := load path 0 in
  if (c =? 0)%Z then Ret None
  else
    let* len := elem_len path in
    let* name :=
      if DIRSIZ <=? len then copy_to name path DIRSIZ
      else let* name := copy_to name path len in store name len 0%Z in
    let* path := skip_slashes (drop len path) in
    Ret (Some (path, name)).

Fixpoint namex_loop f (ip : nat) (path : bytes) (nameiparent : bool) (name : bytes) (fuel : nat) :
    outcome (fs T * option nat * bytes) :=
  match fuel with
  | O => NoFuel
  | S fuel =>
      let* r := skipelem path name in
      match r with
      | None =>
          if nameiparent then let* f := iput f ip in Ret (f, None, name)
          else Ret (f, Some ip, name)
      | Some (path, name) =>
          let* f := ilock f ip in
          let* inode := load (f_itab f) ip in
          if negb (d_type (i_di inode) =? T_DIR)%Z then
            let* f := iunlockput f ip in Ret (f, None, name)
          else if (d_nlink (i_di inode) =? 0)%Z then
            let* f := iunlockput f ip in Ret (f, None, name)
          else
            let* c := load path 0 in
            if nameiparent && (c =? 0)%Z then
              let* f := iunlock f ip in Ret (f, Some ip, name)
            else
              let* '(f, next) := dirlookup f ip name in
              match next with
              | None => let* f := iunlockput f ip in Ret (f, None, name)
              | Some (next, _) =>
                  let* f := iunlockput f ip in
                  namex_loop f next path nameiparent name fuel
              end
      end
  end.

(** [cwd] is [myproc()->cwd]; every round takes at least one byte of the
    path. *)
Definition namex f (cwd : nat) (path : bytes) (nameiparent : bool) (name : bytes) : outcome (fs T * option nat * bytes) :=
  let* c := load path 0 in
  let* '(f, ip) :=
    if (c =? SLASH)%Z then iget f ROOTDEV ROOTINO
    else let* f := idup f cwd in Ret (f, cwd) in
  namex_loop f ip path nameiparent name (S (length path)).

Definition namei f (cwd : nat) (path : bytes) : outcome (fs T * option nat) :=
  let* '(f, ip, _) := namex f cwd path false (replicate DIRSIZ 0%Z) in Ret (f, ip).

Definition nameiparent f (cwd : nat) (path name : bytes) : outcome (fs T * option nat * bytes) :=
  namex f cwd path true name.
End dir.

(** ** Paths: proofs *)

(** The elements of a path: the longest pieces without slash. *)
Fixpoint path_elems (p cur : bytes) : list bytes :=
  match p with
  | [] => match cur with [] => [] | _ => [cur] end
  | c :: p =>
      if (c =? SLASH)%Z then match cur with [] => path_elems p [] | _ => cur :: path_elems p [] end
      else path_elems p (cur ++ [c])
  end.

Fixpoint lstrip (p : bytes) : bytes :=
  match p with [] => [] | c :: q => if (c =? SLASH)%Z then lstrip q else p end.
Fixpoint first_elem (p : bytes) : bytes :=
  match p with [] => [] | c :: q => if (c =? SLASH)%Z then [] else c :: first_elem q end.

Lemma path_elems_lstrip p : path_elems (lstrip p) [] = path_elems p [].
Proof. induction p as [|c p IH]; [done|]. cbn. destruct (Z.eqb_spec c SLASH) as [->|E]; [done|]. cbn. by rewrite (proj2 (Z.eqb_neq _ _) E). Qed.

Lemma first_elem_drop p : p = first_elem p ++ drop (length (first_elem p)) p.
Proof. induction p as [|c p IH]; [done|]. cbn. destruct (_ =? _)%Z; [done|]. cbn. by f_equal. Qed.

Lemma path_elems_cur p : forall cur, cur <> [] ->
  path_elems p cur = (cur ++ first_elem p) :: path_elems (drop (length (first_elem p)) p) [].
Proof.
  induction p as [|c p IH]; intros cur Hc; cbn.
  { rewrite app_nil_r. by destruct cur. }
  destruct (Z.eqb_spec c SLASH) as [->|E]; cbn.
  - rewrite app_nil_r. by destruct cur.
  - rewrite IH by (by destruct cur). by rewrite <-(assoc_L app).
Qed.

Lemma path_elems_first c q : c <> SLASH ->
  path_elems (c :: q) [] = first_elem (c :: q) :: path_elems (drop (length (first_elem (c :: q))) (c :: q)) [].
Proof. intros E. cbn. rewrite (proj2 (Z.eqb_neq _ _) E). by rewrite path_elems_cur. Qed.

Lemma lstrip_head p c q : lstrip p = c :: q -> c <> SLASH.
Proof. induction p as [|x p IH]; [done|]. cbn. destruct (Z.eqb_spec x SLASH); [done|]. by intros [= -> ->]. Qed.

Lemma lstrip_length p : length (lstrip p) <= length p.
Proof. induction p as [|c p IH]; [done|]. cbn. case_match; cbn; lia. Qed.

Lemma lstrip_forall (P : Z -> Prop) p : Forall P p -> Forall P (lstrip p).
Proof. induction 1 as [|c p Hc Hp IH]; [done|]. cbn. case_match; [done|by constructor]. Qed.

Lemma lstrip_none p : lstrip p = [] <-> path_elems p [] = [].
Proof.
  rewrite <-path_elems_lstrip. destruct (lstrip p) as [|c q] eqn:E; [done|].
  rewrite path_elems_first by (by eapply lstrip_head). done.
Qed.

Section strings.
Context (r : bytes).

Lemma skip_slashes_ok p : Forall (fun c => c <> 0%Z) p -> skip_slashes (p ++ 0%Z :: r) = Ret (lstrip p ++ 0%Z :: r).
Proof. induction 1 as [|c p Hc Hp IH]; cbn; [done|]. by destruct (Z.eqb_spec c SLASH) as [->|E]. Qed.

Lemma elem_len_ok p : Forall (fun c => c <> 0%Z) p -> elem_len (p ++ 0%Z :: r) = Ret (length (first_elem p)).
Proof.
  induction 1 as [|c p Hc Hp IH]; cbn; [done|]. destruct (Z.eqb_spec c SLASH) as [->|E]; cbn; [done|].
  rewrite (proj2 (Z.eqb_neq _ _) Hc), IH. done.
Qed.

(** What [skipelem] leaves in [name]. *)
Definition elem_field (e : bytes) : bytes := if decide (DIRSIZ <= length e) then take DIRSIZ e else e ++ [0%Z].

Lemma length_elem_field e : length (elem_field e) <= DIRSIZ.
Proof. unfold elem_field. case_decide; rewrite ?length_take, ?length_app; [lia|]. change (length [0%Z]) with 1. lia. Qed.

Lemma skipelem_ok p name : Forall (fun c => c <> 0%Z) p -> length name = DIRSIZ ->
  match path_elems p [] with
  | [] => skipelem (p ++ 0%Z :: r) name = Ret None
  | e :: es => exists p', skipelem (p ++ 0%Z :: r) name = Ret (Some (p' ++ 0%Z :: r, splice 0 (elem_field e) name)) /\
      path_elems p' [] = es /\ (p' = [] <-> es = []) /\ length p' < length p /\ Forall (fun c => c <> 0%Z) p'
  end.
Proof.
  intros Hz Hn. unfold skipelem. rewrite skip_slashes_ok by done. cbn [obind].
  rewrite <-path_elems_lstrip. pose proof (lstrip_forall _ _ Hz) as Hz'. pose proof (lstrip_length p) as Hlen.
  destruct (lstrip p) as [|c q] eqn:E; [done|]. rewrite path_elems_first by (by eapply lstrip_head).
  set (s := c :: q) in *. set (e := first_elem s) in *. rewrite (load_ret _ 0 c) by done. cbn [obind].
  apply Forall_cons in Hz' as Hz2. destruct Hz2 as [Hc0 _]. rewrite (proj2 (Z.eqb_neq _ _) Hc0).
  pose proof (first_elem_drop s) as Es. fold e in Es. set (rest := drop (length e) s) in *.
  rewrite elem_len_ok by done. fold e. cbn [obind].
  assert (take (length e) (s ++ 0%Z :: r) = e) as Et.
  { rewrite Es at 1. rewrite <-(assoc_L app). apply take_app_length. }
  assert (drop (length e) (s ++ 0%Z :: r) = rest ++ 0%Z :: r) as Ed.
  { rewrite Es at 1. rewrite <-(assoc_L app). apply drop_app_length. }
  assert ((if DIRSIZ <=? length e then copy_to name (s ++ 0%Z :: r) DIRSIZ
    else let* name := copy_to name (s ++ 0%Z :: r) (length e) in store name (length e) 0%Z) = Ret (splice 0 (elem_field e) name)) as ->.
  { assert (length e <= length (s ++ 0%Z :: r)) by (rewrite length_app; rewrite Es, length_app; lia).
    unfold elem_field, copy_to. rewrite Hn. destruct (Nat.leb_spec DIRSIZ (length e)) as [Hge|Hlt].
    - rewrite decide_True by done. rewrite (proj2 (Nat.leb_le DIRSIZ (length (s ++ _)))) by lia.
      rewrite Nat.leb_refl. cbn [andb]. do 2 f_equal. rewrite <-Et, take_take. f_equal. lia.
    - rewrite decide_False by lia. rewrite !(proj2 (Nat.leb_le _ _)) by lia. cbn [andb obind]. rewrite Et.
      rewrite store_ret by (rewrite length_splice; lia). f_equal.
      rewrite splice_app by (change (length [0%Z]) with 1; lia).
      rewrite splice_cons by (rewrite length_splice; change (length (@nil Z)) with 0; lia). by rewrite splice_nil. }
  cbn [obind]. rewrite Ed.
  assert (Forall (fun c => c <> 0%Z) rest) as Hzr by (by apply Forall_drop).
  rewrite skip_slashes_ok by done. cbn [obind]. exists (lstrip rest). split; [done|]. split; [apply path_elems_lstrip|].
  split; [apply lstrip_none|]. split; [|by apply lstrip_forall].
  pose proof (lstrip_length rest). unfold rest in *. rewrite length_drop in *.
  assert (0 < length e); [|cbn [length s] in *; lia].
  unfold e, s. cbn. rewrite (proj2 (Z.eqb_neq c SLASH)) by (by eapply lstrip_head). cbn. lia.
Qed.
End strings.

(** ** Directories: proofs *)
Definition ent (V : Z -> bytes) (d : dinode) (k : nat) : bytes := fbytes V d (Z.of_nat (DIRENT * k)) DIRENT.

Definition ent_matches (V : Z -> bytes) (d : dinode) (name : bytes) (k : nat) : bool :=
  negb (de_inum (ent V d k) =? 0)%Z &&
  match namecmp name (de_name (ent V d k)) with Ret z => (z =? 0)%Z | _ => false end.

(** The first index from [k] on, among [n], that satisfies [P]. *)
Fixpoint first_from (P : nat -> bool) (k n : nat) : option nat :=
  match n with
  | O => None
  | S n => if P k then Some k else first_from P (S k) n
  end.

Definition dir_len (d : dinode) : nat := Z.to_nat (d_size d `div` Z.of_nat DIRENT).

(** What a directory maps a name to: the inode of the first entry in use that
    has the name. *)
Definition dir_find (V : Z -> bytes) (d : dinode) (name : bytes) : option nat :=
  first_from (ent_matches V d name) 0 (dir_len d).
Definition dir_get (V : Z -> bytes) (d : dinode) (name : bytes) : option Z :=
  (fun k => de_inum (ent V d k)) <$> dir_find V d name.

Lemma first_from_some P n : forall k j, first_from P k n = Some j ->
  k <= j < k + n /\ P j = true /\ forall i, k <= i < j -> P i = false.
Proof.
  induction n as [|n IH]; intros k j E; cbn in E; [done|]. destruct (P k) eqn:Ek.
  - simplify_eq. split; [lia|]. split; [done|]. lia.
  - apply IH in E as (H1 & H2 & H3). split; [lia|]. split; [done|]. intros i Hi.
    destruct (decide (i = k)) as [->|]; [done|]. apply H3. lia.
Qed.

Lemma first_from_none P n : forall k, first_from P k n = None -> forall i, k <= i < k + n -> P i = false.
Proof.
  induction n as [|n IH]; intros k E i Hi; cbn in E; [lia|]. destruct (P k) eqn:Ek; [done|].
  destruct (decide (i = k)) as [->|]; [done|]. apply (IH (S k)); [done|lia].
Qed.

Lemma first_from_intro P n : forall k j, k <= j < k + n -> P j = true -> (forall i, k <= i < j -> P i = false) ->
  first_from P k n = Some j.
Proof.
  induction n as [|n IH]; intros k j Hj HP Hl; cbn; [lia|]. destruct (decide (j = k)) as [->|]; [by rewrite HP|].
  rewrite Hl by lia. apply IH; [lia|done|]. intros i Hi. apply Hl. lia.
Qed.

Lemma first_from_all P n : forall k, (forall i, k <= i < k + n -> P i = false) -> first_from P k n = None.
Proof. induction n as [|n IH]; intros k Hl; cbn; [done|]. rewrite Hl by lia. apply IH. intros i Hi. apply Hl. lia. Qed.

(** A name for [namecmp]: terminated, or at least [DIRSIZ] bytes long. *)
Definition name_ok (name : bytes) : Prop := DIRSIZ <= length name \/ 0%Z ∈ name.

Lemma strncmp_total n : forall p q, n <= length q -> n <= length p \/ 0%Z ∈ p -> exists z, strncmp p q n = Ret z.
Proof.
  induction n as [|n IH]; intros p q Hq Hp; [by eexists|]. destruct q as [|b q]; [cbn in Hq; lia|].
  destruct p as [|a p]; [destruct Hp as [Hp|Hp]; [cbn in Hp; lia|by apply not_elem_of_nil in Hp]|].
  cbn. destruct (Z.eqb_spec a 0) as [->|Ha]; [by eexists|]. destruct (Z.eqb_spec a b) as [->|]; [|by eexists].
  apply IH; [cbn in Hq; lia|]. destruct Hp as [Hp|Hp]; [left; cbn in Hp; lia|right]. apply elem_of_cons in Hp as [?|?]; [congruence|done].
Qed.

Section dirs.
Context {T : Type} `{TxLaws T} (f : fs T) (LY : layout (T := T) (f_sb f)) (V : Z -> bytes) (D : gset Z).
Context (OK : disk_ok (f_sb f) V) (Hsz : size D + 5 <= TXCAP).
Context (dp : nat) (ip : inode) (Hdp : f_itab f !! dp = Some ip) (IO : inode_ok (f_sb f) V (i_di ip)).
Abbreviation d := (i_di ip).
Context (Hmod : (d_size d `mod` Z.of_nat DIRENT = 0)%Z).

Lemma dir_size : d_size d = Z.of_nat (DIRENT * dir_len d).
Proof.
  unfold dir_len. pose proof (Z.div_mod (d_size d) (Z.of_nat DIRENT) ltac:(unfold DIRENT; lia)) as E. rewrite Hmod in E.
  pose proof (do_size _ (io_ok _ _ _ IO)) as [Hs _].
  assert (0 <= d_size d `div` Z.of_nat DIRENT)%Z by (apply Z.div_pos; unfold DIRENT; lia). lia.
Qed.

Lemma length_ent k : length (ent V d k) = DIRENT.
Proof. apply length_fbytes. Qed.

(** Reading an entry changes nothing but the block store. *)
Lemma read_dirent_ok t k de : t_rep t V ∅ D -> k < dir_len d -> length de = DIRENT ->
  exists t', read_dirent (with_t f t) dp (Z.of_nat (DIRENT * k)) de = Ret (with_t f t', Some (ent V d k)) /\ t_rep t' V ∅ D.
Proof.
  intros R Hk Hde. unfold read_dirent. cbn [with_t f_itab f_sb f_t]. rewrite (load_ret _ _ _ Hdp). cbn [obind].
  pose proof dir_size as Hs. pose proof (max_size _ _ _ IO) as Hm. unfold MAXFILE, BS, DIRENT in *.
  destruct (readi_ok (f_sb f) LY kcopyout 0 16 (fun x m => m = splice 0 x de) (fun _ => False)
    (kcopy_more de 0 16 ltac:(lia)) t V D ip de (Z.of_nat (16 * k)) (Z.of_nat 16) R OK IO)
    as (t' & de' & r & -> & R' & Hc); [done|unfold is_uint; lia|unfold is_uint; lia|lia|by rewrite splice_nil|unfold read_count; lia|].
  cbn [obind]. unfold read_count in Hc.
  replace (Z.max 0 (Z.min (Z.of_nat 16) (d_size d - Z.of_nat (16 * k)))) with (Z.of_nat 16) in Hc by lia.
  destruct Hc as [[-> ->]|[_ []]]. rewrite Nat2Z.id.
  assert (splice 0 (fbytes V d (Z.of_nat (16 * k)) 16) de = ent V d k) as ->.
  { unfold splice, ent, DIRENT. rewrite length_fbytes. cbn [take app]. rewrite drop_ge by lia. apply app_nil_r. }
  rewrite Z.eqb_refl. exists t'. split; [|done]. unfold with_ip, with_t. cbn [f_itab f_sb f_t]. by rewrite list_insert_id.
Qed.

Lemma dirlookup_loop_ok name dev : name_ok name -> forall n t k de, t_rep t V ∅ D -> length de = DIRENT -> k + n = dir_len d ->
  forall fuel, n < fuel ->
  exists t', t_rep t' V ∅ D /\
    dirlookup_loop (with_t f t) dp name (d_size d) dev (Z.of_nat (DIRENT * k)) de fuel =
    match first_from (ent_matches V d name) k n with
    | None => Ret (with_t f t', None)
    | Some j => let* '(f, i) := iget (with_t f t') dev (de_inum (ent V d j)) in Ret (f, Some (i, Z.of_nat (DIRENT * j)))
    end.
Proof.
  intros Hname. pose proof dir_size as Hs. induction n as [|n IH]; intros t k de R Hde Hk fuel Hf; (destruct fuel as [|fuel]; [lia|]); cbn [dirlookup_loop first_from].
  - rewrite (proj2 (Z.ltb_ge _ _)) by lia. by exists t.
  - rewrite (proj2 (Z.ltb_lt _ _)) by (unfold DIRENT in *; lia).
    destruct (read_dirent_ok t k de R) as (t1 & -> & R1); [lia|done|]. cbn [obind].
    destruct (strncmp_total DIRSIZ name (de_name (ent V d k))) as [z Ez];
      [unfold de_name; rewrite length_drop, length_ent; unfold DIRSIZ, DIRENT; lia|done|].
    destruct (IH t1 (S k) (ent V d k) R1 (length_ent k) ltac:(lia) fuel ltac:(lia)) as (t2 & R2 & E2).
    replace (Z.of_nat (DIRENT * S k)) with (Z.of_nat (DIRENT * k) + Z.of_nat DIRENT)%Z in E2 by lia.
    unfold ent_matches at 1. unfold namecmp. rewrite Ez. cbn [obind].
    destruct (Z.eqb_spec (de_inum (ent V d k)) 0) as [E0|E0]; cbn [negb andb]; [by exists t2|].
    destruct (Z.eqb_spec z 0) as [->|Hz]; [|by exists t2]. exists t1. done.
Qed.

Lemma dirlookup_ok t name : t_rep t V ∅ D -> d_type d = T_DIR -> name_ok name ->
  exists t', t_rep t' V ∅ D /\ dirlookup (with_t f t) dp name =
    match dir_find V d name with
    | None => Ret (with_t f t', None)
    | Some j => let* '(f, i) := iget (with_t f t') (i_dev ip) (de_inum (ent V d j)) in Ret (f, Some (i, Z.of_nat (DIRENT * j)))
    end.
Proof.
  intros R Ht Hn. unfold dirlookup. cbn [with_t f_itab]. rewrite (load_ret _ _ _ Hdp). cbn [obind]. rewrite Ht. cbn [T_DIR Z.eqb Pos.eqb negb].
  apply (dirlookup_loop_ok name (i_dev ip) Hn (dir_len d) t 0); [done|apply length_replicate|done|].
  unfold dir_fuel, dir_len. lia.
Qed.

(** The first entry that is not in use, or the end. *)
Definition free_dirent : nat :=
  default (dir_len d) (first_from (fun k => (de_inum (ent V d k) =? 0)%Z) 0 (dir_len d)).

Lemma dirlink_loop_ok : forall n t k de, t_rep t V ∅ D -> length de = DIRENT -> k + n = dir_len d ->
  forall fuel, n < fuel ->
  exists t' de', t_rep t' V ∅ D /\ length de' = DIRENT /\
    dirlink_loop (with_t f t) dp (d_size d) (Z.of_nat (DIRENT * k)) de fuel =
    Ret (with_t f t', Z.of_nat (DIRENT * default (dir_len d) (first_from (fun k => (de_inum (ent V d k) =? 0)%Z) k n)), de').
Proof.
  pose proof dir_size as Hs. induction n as [|n IH]; intros t k de R Hde Hk fuel Hf; (destruct fuel as [|fuel]; [lia|]); cbn [dirlink_loop first_from].
  - rewrite (proj2 (Z.ltb_ge _ _)) by lia. exists t, de. cbn [default]. replace k with (dir_len d) by lia. done.
  - rewrite (proj2 (Z.ltb_lt _ _)) by (unfold DIRENT in *; lia).
    destruct (read_dirent_ok t k de R) as (t1 & -> & R1); [lia|done|]. cbn [obind].
    destruct (Z.eqb_spec (de_inum (ent V d k)) 0) as [E0|E0].
    + exists t1, (ent V d k). split; [done|]. split; [apply length_ent|done].
    + destruct (IH t1 (S k) (ent V d k) R1 (length_ent k) ltac:(lia) fuel ltac:(lia)) as (t2 & de2 & R2 & Hd2 & E2).
      replace (Z.of_nat (DIRENT * S k)) with (Z.of_nat (DIRENT * k) + Z.of_nat DIRENT)%Z in E2 by lia.
      by exists t2, de2.
Qed.

Lemma free_dirent_spec : free_dirent <= dir_len d /\ (forall k, k < free_dirent -> de_inum (ent V d k) <> 0%Z) /\
  (free_dirent < dir_len d -> de_inum (ent V d free_dirent) = 0%Z).
Proof.
  unfold free_dirent. destruct (first_from _ _ _) as [j|] eqn:E; cbn.
  - apply first_from_some in E as (H1 & H2 & H3). split; [lia|]. split; [|intros _; by apply Z.eqb_eq].
    intros k Hk. apply Z.eqb_neq, H3. lia.
  - split; [done|]. split; [|lia]. intros k Hk. apply Z.eqb_neq. apply (first_from_none _ _ _ E). lia.
Qed.
End dirs.

(** *** Linking *)

(** [name] is an array that holds the name [nm], terminated unless it is too
    long. *)
Definition is_name (name nm : bytes) : Prop :=
  Forall (fun c => c <> 0%Z) nm /\
  ((exists r, name = nm ++ 0%Z :: r) \/ (DIRSIZ <= length nm /\ exists r, name = nm ++ r)).

Lemma is_name_ok name nm : is_name name nm -> name_ok name.
Proof. intros [_ [[r ->]|[Hl [r ->]]]]; [right; set_solver|left; rewrite length_app; lia]. Qed.

(** Only the first [n] bytes are looked at. *)
Lemma strncmp_take n : forall p q r, n <= length p -> strncmp p q n = strncmp (take n p ++ r) q n.
Proof.
  induction n as [|n IH]; intros p q r Hp; [done|]. destruct p as [|a p]; [cbn in Hp; lia|]. cbn.
  destruct (a =? 0)%Z; [done|]. destruct q as [|b q]; [done|]. cbn. destruct (a =? b)%Z; [|done].
  apply IH. cbn in Hp. lia.
Qed.

Lemma namecmp_field name nm b : is_name name nm -> Forall (fun c => c <> 0%Z) b ->
  exists z, namecmp name (name_field DIRSIZ b) = Ret z /\ (z = 0%Z <-> take DIRSIZ nm = take DIRSIZ b).
Proof.
  intros [Hn [[r ->]|[Hl [r ->]]]] Hb; [by apply strncmp_field|].
  unfold namecmp. rewrite (strncmp_take _ _ _ [0%Z]) by (rewrite length_app; lia).
  rewrite take_app_le by done.
  destruct (strncmp_field DIRSIZ (take DIRSIZ nm) b []) as (z & Ez & Hz); [by apply Forall_take|done|].
  exists z. split; [done|]. by rewrite Hz, take_take, Nat.min_id.
Qed.

Lemma strncpy_name s name nm : is_name name nm -> length s = DIRSIZ -> strncpy s name DIRSIZ = Ret (name_field DIRSIZ nm).
Proof.
  intros [Hz Hn] Hs. unfold strncpy. rewrite (strncpy_loop_spec _ nm); [|lia|done|].
  - unfold splice. rewrite length_name_field, drop_ge by lia. cbn [take app]. by rewrite app_nil_r.
  - rewrite drop_0. destruct Hn as [[r ->]|[Hl [r ->]]]; [left|right; split; [done|]]; by exists r.
Qed.

(** The entry that [dirlink] writes. *)
Definition dirent (inum : Z) (nm : bytes) : bytes := le_encode 2 (u16 inum) ++ name_field DIRSIZ nm.

Lemma length_dirent inum nm : length (dirent inum nm) = DIRENT.
Proof. unfold dirent. rewrite length_app, length_le_encode, length_name_field. done. Qed.

Lemma de_inum_dirent inum nm : (0 <= inum < 65536)%Z -> de_inum (dirent inum nm) = inum.
Proof.
  intros Hi. unfold de_inum, get_le, slice, dirent. rewrite drop_0, take_app_le by (rewrite length_le_encode; lia).
  rewrite take_ge by (rewrite length_le_encode; lia). unfold u16. rewrite Z.mod_small by lia.
  apply le_decode_encode. lia.
Qed.

Lemma de_name_dirent inum nm : de_name (dirent inum nm) = name_field DIRSIZ nm.
Proof. unfold de_name, dirent. apply drop_app_length'. by rewrite length_le_encode. Qed.

Lemma dirent_bytes inum nm : Forall is_byte nm -> Forall is_byte (dirent inum nm).
Proof.
  intros Hn. apply Forall_app. split; [apply le_encode_bytes|]. unfold name_field. apply Forall_take, Forall_app.
  split; [done|]. apply Forall_replicate. unfold is_byte. lia.
Qed.

Lemma ent_written data V d V' d' k j : length data = DIRENT -> 
  (Z.of_nat (DIRENT * j) + Z.of_nat DIRENT <= Z.of_nat MAXFILE * BS)%Z ->
  written (Z.of_nat (DIRENT * k)) data V d V' d' (Z.of_nat (DIRENT * k)) (Z.of_nat (DIRENT * k) + Z.of_nat DIRENT) ->
  ent V' d' j = if decide (j = k) then data else ent V d j.
Proof.
  intros Hl Hj Hw. apply list_eq. intros i. unfold ent. destruct (Nat.lt_ge_cases i DIRENT) as [Hi|Hi].
  - rewrite lookup_fbytes by done. rewrite Hw by lia. destruct (decide (j = k)) as [->|Hne].
    + rewrite decide_True by lia. destruct (lookup_lt_is_Some_2 data i) as [x Ex]; [lia|].
      replace (Z.to_nat (Z.of_nat (DIRENT * k) + Z.of_nat i - Z.of_nat (DIRENT * k))) with i by lia. by rewrite Ex.
    + rewrite decide_False by (unfold DIRENT in *; lia). by rewrite lookup_fbytes.
  - case_decide; rewrite !lookup_ge_None_2 by (rewrite ?length_fbytes; lia); done.
Qed.

(** Directories that differ in a slot without entry. *)
Lemma dir_get_other V d V' d' k other :
  (forall j, j < dir_len d' -> j <> k -> ent V' d' j = ent V d j) ->
  dir_len d' = Nat.max (dir_len d) (S k) -> k <= dir_len d ->
  (k < dir_len d -> de_inum (ent V d k) = 0%Z) -> ent_matches V' d' other k = false ->
  dir_get V' d' other = dir_get V d other.
Proof.
  intros He Hlen Hk Hz Hm.
  assert (forall j, j < dir_len d -> ent_matches V' d' other j = ent_matches V d other j) as HP.
  { intros j Hj. destruct (decide (j = k)) as [->|Hne].
    - rewrite Hm. unfold ent_matches. by rewrite Hz.
    - unfold ent_matches. rewrite He by (done || lia). done. }
  unfold dir_get, dir_find. destruct (first_from (ent_matches V d other) 0 (dir_len d)) as [j|] eqn:E.
  - apply first_from_some in E as (H1 & H2 & H3).
    rewrite (first_from_intro _ _ 0 j); [|lia|by rewrite HP by lia|intros i Hi; rewrite HP by lia; by apply H3].
    cbn [fmap option_fmap option_map]. rewrite He; [done|lia|]. intros ->. rewrite <-HP in H2 by lia. congruence.
  - rewrite first_from_all; [done|]. intros i Hi. destruct (decide (i < dir_len d)) as [Hlt|Hge].
    + rewrite HP by done. apply (first_from_none _ _ _ E). lia.
    + by replace i with k by lia.
Qed.

Lemma with_t_same {T} (f : fs T) : with_t f (f_t f) = f.
Proof. by destruct f. Qed.

Section link.
Context {T : Type} `{TxLaws T} (f : fs T) (LY : layout (T := T) (f_sb f)) (V : Z -> bytes) (D : gset Z).
Context (OK : disk_ok (f_sb f) V) (Hsz : size D + 7 <= TXCAP) (R : t_rep (f_t f) V ∅ D).
Context (dp : nat) (ip : inode) (Hdp : f_itab f !! dp = Some ip) (IO : inode_ok (f_sb f) V (i_di ip)).
Abbreviation d := (i_di ip).
Context (Htype : d_type d = T_DIR) (Hmod : (d_size d `mod` Z.of_nat DIRENT = 0)%Z).
Context (Hi : (0 <= i_inum ip < sb_ninodes (f_sb f))%Z) (Hroom : (d_size d < Z.of_nat MAXFILE * BS)%Z).
Context (name nm : bytes) (inum : Z) (Hname : is_name name nm) (Hby : Forall is_byte nm) (Hinum : (0 < inum < 65536)%Z).
Context (Hnone : dir_find V d name = None).

Lemma dirlink_writes : let k := free_dirent V ip in
  exists f' r d' V' D' tot, dirlink f dp name inum = Ret (f', r) /\ f_sb f' = f_sb f /\ t_rep (f_t f') V' ∅ D' /\
    f_itab f' = <[dp := with_di ip d']> (f_itab f) /\
    wrote_file (f_sb f) (Z.of_nat (DIRENT * k)) (dirent inum nm) V (i_inum ip) d V' d' tot /\
    r = (if (tot =? Z.of_nat DIRENT)%Z then 0 else -1)%Z /\
    (tot = Z.of_nat DIRENT \/ forall x, (0 <= x < sb_size (f_sb f))%Z -> used (f_sb f) V' x = true).
Proof.
  intros k. unfold dirlink.
  destruct (dirlookup_ok f LY V D OK ltac:(lia) dp ip Hdp IO Hmod (f_t f) name R Htype (is_name_ok _ _ Hname)) as (t1 & R1 & E1).
  rewrite with_t_same in E1. rewrite E1, Hnone. cbn [obind with_t f_itab]. rewrite (load_ret _ _ _ Hdp). cbn [obind].
  destruct (dirlink_loop_ok f LY V D OK ltac:(lia) dp ip Hdp IO Hmod (dir_len d) t1 0 (replicate DIRENT 0%Z) R1
    (length_replicate _ _) eq_refl (dir_fuel (d_size d))) as (t2 & de & R2 & Hde & E2); [unfold dir_fuel, dir_len; lia|].
  change (Z.of_nat (DIRENT * 0)) with 0%Z in E2. fold (free_dirent V ip) in E2. fold k in E2. unfold with_t in *. rewrite E2. cbn [obind].
  rewrite (strncpy_name _ name nm Hname) by (unfold de_name; rewrite length_drop, Hde; done). cbn [obind f_itab f_sb f_t].
  fold (dirent inum nm). rewrite (load_ret _ _ _ Hdp). cbn [obind].
  destruct (free_dirent_spec V D ltac:(lia) ip) as (Hk & _ & _). fold k in Hk.
  pose proof (dir_size f V D ltac:(lia) ip IO Hmod) as Hds.
  destruct (writei_ok (f_sb f) LY kcopyin 0 (Z.of_nat (DIRENT * k)) (Z.of_nat DIRENT) (dirent inum nm) (fun m => m = dirent inum nm))
    with (t := t2) (V := V) (D := D) (ip := ip) (mem := dirent inum nm) (c := 1)
    as (t3 & d3 & mem3 & V3 & D3 & tot & -> & R3 & _ & _ & Ht & WF & Hend); try done; try lia.
  - rewrite length_dirent. by rewrite Nat2Z.id.
  - by apply dirent_bytes.
  - intros mem a m -> Ha Hm Hle. exists (dirent inum nm). split; [|done]. apply kcopyin_ret; rewrite ?length_dirent; lia.
  - unfold MAXFILE, BS, DIRENT in *.
    assert ((d_size d) `mod` 16 = 0)%Z as Hm by exact Hmod. pose proof (Z.div_mod (d_size d) 16). lia.
  - unfold DIRENT in *. lia.
  - assert (0 <= Z.of_nat (DIRENT * k) `mod` BS <= 1008)%Z; [|unfold DIRENT, BS in *; lia].
    unfold DIRENT, BS. replace (Z.of_nat (16 * k)) with (16 * Z.of_nat k)%Z by lia.
    change 1024%Z with (16 * 64)%Z. rewrite Z.mul_mod_distr_l by lia. pose proof (Z.mod_pos_bound (Z.of_nat k) 64). lia.
  - cbn [obind]. eexists _, _, d3, V3, D3, tot. split; [done|]. cbn. done.
Qed.

Lemma dirlink_ok : exists f' r d' V' D', dirlink f dp name inum = Ret (f', r) /\ f_sb f' = f_sb f /\ t_rep (f_t f') V' ∅ D' /\
  f_itab f' = <[dp := with_di ip d']> (f_itab f) /\ disk_ok (f_sb f) V' /\ inode_ok (f_sb f) V' d' /\
  disk_inode (f_sb f) V' (i_inum ip) = d' /\
  (forall b, foreign (f_sb f) V d b -> b <> IBLOCK (f_sb f) (i_inum ip) -> V' b = V b) /\
  ((r = (-1)%Z /\ forall x, (0 <= x < sb_size (f_sb f))%Z -> used (f_sb f) V' x = true) \/
   (r = 0%Z /\ d_type d' = T_DIR /\ (d_size d' `mod` Z.of_nat DIRENT = 0)%Z /\ dir_get V' d' name = Some inum /\
    forall other onm, is_name other onm -> take DIRSIZ onm <> take DIRSIZ nm -> dir_get V' d' other = dir_get V d other)).
Proof.
  destruct dirlink_writes as (f' & r & d' & V' & D' & tot & E & Esb & R' & Et & WF & Hr & Hend).
  set (k := free_dirent V ip) in *. exists f', r, d', V', D'. split_and!; try done; [apply WF..|].
  destruct (Z.eqb_spec tot (Z.of_nat DIRENT)) as [->|Hne]; [right|left; split; [done|]; by destruct Hend].
  destruct WF as [_ IO' Hsize [Htype' _] Hw _ _ _]. split; [done|]. split; [congruence|].
  destruct (free_dirent_spec V D ltac:(lia) ip) as (Hk & Hused & Hfree). fold k in Hk, Hused, Hfree.
  pose proof (dir_size f V D ltac:(lia) ip IO Hmod) as Hds.
  assert (d_size d' = Z.of_nat (DIRENT * Nat.max (dir_len d) (Datatypes.S k)))%Z as Hsize'.
  { rewrite Hsize, Hds. unfold DIRENT. lia. }
  assert (dir_len d' = Nat.max (dir_len d) (Datatypes.S k)) as Hlen'.
  { unfold dir_len at 1. rewrite Hsize'. rewrite Nat2Z.inj_mul, Z.mul_comm, Z.div_mul by (unfold DIRENT; lia). lia. }
  assert (d_size d' `mod` Z.of_nat DIRENT = 0)%Z as Hmod'.
  { rewrite Hsize', Nat2Z.inj_mul, Z.mul_comm. apply Z.mod_mul. unfold DIRENT. lia. }
  pose proof (max_size _ _ _ IO') as Hmax.
  assert (forall j, j < dir_len d' -> ent V' d' j = if decide (j = k) then dirent inum nm else ent V d j) as He.
  { intros j Hj. apply ent_written; [apply length_dirent| |done]. rewrite Hsize' in Hmax. unfold DIRENT in *. lia. }
  assert (forall other, ent_matches V' d' other k = match namecmp other (name_field DIRSIZ nm) with Ret z => (z =? 0)%Z | _ => false end) as Hmk.
  { intros other. unfold ent_matches. rewrite He, decide_True by (done || lia).
    rewrite de_inum_dirent, de_name_dirent, (proj2 (Z.eqb_neq inum 0)) by lia. done. }
  split; [done|]. split.
  - unfold dir_get, dir_find. rewrite (first_from_intro _ _ 0 k); [|lia| |].
    + cbn [fmap option_fmap option_map]. rewrite He, decide_True by (done || lia). by rewrite de_inum_dirent by lia.
    + rewrite Hmk. destruct (namecmp_field name nm nm Hname (proj1 Hname)) as (z & -> & Hz). apply Z.eqb_eq. by apply Hz.
    + intros i Hii. unfold ent_matches. rewrite He, decide_False by lia. fold (ent_matches V d name i).
      apply (first_from_none _ _ _ Hnone). lia.
  - intros other onm Ho Hne. apply (dir_get_other V d V' d' k); try done.
    + intros j Hj Hjk. by rewrite He, decide_False.
    + rewrite Hmk. destruct (namecmp_field other onm nm Ho (proj1 Hname)) as (z & -> & Hz). apply Z.eqb_neq. tauto.
Qed.
End link.

(** ** Path resolution *)

(** The name of an element as [namecmp] sees it. *)
Definition elem_name (e : bytes) : bytes := take DIRSIZ e ++ [0%Z].

(** A sound tree: inodes in use have sound contents and links, directories
    consist of entries for inodes in use. *)
Record tree_ok (sb : superblock) (V : Z -> bytes) : Prop := {
  tr_inode : forall n, (0 <= n < sb_ninodes sb)%Z -> d_type (disk_inode sb V n) <> 0%Z ->
    inode_ok sb V (disk_inode sb V n) /\ d_nlink (disk_inode sb V n) <> 0%Z;
  tr_dir : forall n, (0 <= n < sb_ninodes sb)%Z -> d_type (disk_inode sb V n) = T_DIR ->
    (d_size (disk_inode sb V n) `mod` Z.of_nat DIRENT = 0)%Z /\
    forall k, k < dir_len (disk_inode sb V n) -> de_inum (ent V (disk_inode sb V n) k) <> 0%Z ->
      (0 <= de_inum (ent V (disk_inode sb V n) k) < sb_ninodes sb)%Z /\
      d_type (disk_inode sb V (de_inum (ent V (disk_inode sb V n) k))) <> 0%Z
}.

(** Bytes behind the NUL do not matter. *)
Lemma strncmp_nul n : forall a r r' q, Forall (fun c => c <> 0%Z) a ->
  strncmp (a ++ 0%Z :: r) q n = strncmp (a ++ 0%Z :: r') q n.
Proof.
  induction n as [|n IH]; intros a r r' q Ha; [done|]. destruct a as [|x a]; [done|]. apply Forall_cons in Ha as [Hx Ha].
  cbn. destruct (x =? 0)%Z; [done|]. destruct q as [|y q]; [done|]. cbn. destruct (x =? y)%Z; [|done]. by apply IH.
Qed.

Lemma namecmp_elem e name q : Forall (fun c => c <> 0%Z) e -> length name = DIRSIZ ->
  namecmp (splice 0 (elem_field e) name) q = namecmp (elem_name e) q.
Proof.
  intros He Hn. unfold namecmp, elem_name, elem_field. case_decide as Hl.
  - unfold splice. rewrite length_take_le, drop_ge by lia. cbn [app]. rewrite app_nil_r. change (take 0 name) with (@nil Z). cbn [app].
    rewrite (strncmp_take _ _ _ [0%Z]) by (rewrite length_take; lia). by rewrite take_take, Nat.min_id.
  - rewrite (take_ge e) by lia. unfold splice. rewrite <-(assoc_L app). change (take 0 name) with (@nil Z). cbn [app].
    by apply strncmp_nul.
Qed.

Lemma dir_find_elem V d e name : Forall (fun c => c <> 0%Z) e -> length name = DIRSIZ ->
  dir_find V d (splice 0 (elem_field e) name) = dir_find V d (elem_name e).
Proof.
  intros He Hn. unfold dir_find. generalize 0 at 2 3. induction (dir_len d) as [|n IH]; intros k; [done|]. cbn [first_from].
  assert (ent_matches V d (splice 0 (elem_field e) name) k = ent_matches V d (elem_name e) k) as ->
    by (unfold ent_matches; by rewrite namecmp_elem).
  by rewrite IH.
Qed.

Lemma length_splice_name e name : length name = DIRSIZ -> length (splice 0 (elem_field e) name) = DIRSIZ.
Proof. intros Hn. rewrite length_splice; [done|]. pose proof (length_elem_field e). lia. Qed.

Lemma path_elems_nonzero p : Forall (fun c => c <> 0%Z) p -> forall cur, Forall (fun c => c <> 0%Z) cur ->
  Forall (Forall (fun c => c <> 0%Z)) (path_elems p cur).
Proof.
  induction 1 as [|c p Hc Hp IH]; intros cur Hcur; cbn.
  - destruct cur; [constructor|]. constructor; [done|constructor].
  - case_match; [destruct cur; [by apply IH|constructor; [done|by apply IH]]|].
    apply IH. apply Forall_app. by split; [|constructor].
Qed.

(** The reference counts of a table, and one of them changed. *)
Definition refs (tab : list inode) : list Z := i_ref <$> tab.
Definition bump (i : nat) (a : Z) (rs : list Z) : list Z := alter (fun x => x + a)%Z i rs.
Definition two_free (rs : list Z) : Prop := exists a b, a <> b /\ rs !! a = Some 0%Z /\ rs !! b = Some 0%Z.

Lemma lookup_bump i a rs k : bump i a rs !! k = (fun x => if decide (k = i) then x + a else x)%Z <$> rs !! k.
Proof.
  unfold bump. rewrite list_lookup_alter. destruct (decide (k = i)) as [->|Hne].
  - by rewrite decide_True by done.
  - rewrite decide_False by done. by destruct (rs !! k).
Qed.

Lemma refs_insert tab i ip ip' : tab !! i = Some ip -> refs (<[i := ip']> tab) = bump i (i_ref ip' - i_ref ip) (refs tab).
Proof.
  intros Hi. apply list_eq. intros k. rewrite lookup_bump. unfold refs. rewrite !list_lookup_fmap.
  destruct (decide (k = i)) as [->|Hne].
  - rewrite list_lookup_insert_eq, Hi by (by eapply lookup_lt_Some). cbn. f_equal. lia.
  - rewrite list_lookup_insert_ne by done. by destruct (tab !! k).
Qed.

Ltac bumps := apply list_eq; intros ?k; rewrite !lookup_bump; destruct (_ !! _); cbn; f_equal; repeat case_decide; lia.

Lemma bump_0 i rs : bump i 0 rs = rs.
Proof. bumps. Qed.
Lemma bump_swap i j rs : bump i (-1) (bump j 1 (bump i 1 rs)) = bump j 1 rs.
Proof. bumps. Qed.
Lemma bump_back i rs : bump i (-1) (bump i 1 rs) = rs.
Proof. bumps. Qed.

(** With two free entries there is still one when an entry is taken. *)
Lemma two_free_one rs tab i a : two_free rs -> refs tab = bump i a rs -> exists j jp, tab !! j = Some jp /\ i_ref jp = 0%Z.
Proof.
  intros (x & y & Hxy & Hx & Hy) E.
  assert (exists k, k <> i /\ rs !! k = Some 0%Z) as (k & Hk & H0) by (destruct (decide (x = i)); [exists y|exists x]; by split; [congruence|]).
  assert (refs tab !! k = Some 0%Z) as Hr by (rewrite E, lookup_bump, H0; cbn; by rewrite decide_False by done).
  unfold refs in Hr. rewrite list_lookup_fmap in Hr. destruct (tab !! k) as [jp|] eqn:Hj; [|done]. exists k, jp. cbn in Hr. by simplify_eq.
Qed.

Section namex.
Context {T : Type} `{TxLaws T} (V : Z -> bytes) (D : gset Z) (Hsz : size D + 5 <= TXCAP).
Implicit Types f : fs T.

(** Nobody has locked an inode. *)
Record quiet f : Prop := {
  qu_layout : layout (T := T) (f_sb f);
  qu_rep : t_rep (f_t f) V ∅ D;
  qu_disk : disk_ok (f_sb f) V;
  qu_tree : tree_ok (f_sb f) V;
  qu_itab : itab_ok (f_sb f) V (f_itab f);
  qu_unlocked : forall i ip, f_itab f !! i = Some ip -> (0 < i_ref ip)%Z -> i_locked ip = false
}.

(** The walker holds a reference of inode [n] at entry [i]. *)
Definition holds f (i : nat) (n : Z) : Prop :=
  (exists ip, f_itab f !! i = Some ip /\ names ROOTDEV n ip) /\ d_type (disk_inode (f_sb f) V n) <> 0%Z.

(** [ilock] of the held inode. *)
Lemma walk_lock f i n : quiet f -> holds f i n ->
  exists f1 ip, ilock f i = Ret f1 /\ f_itab f !! i = Some ip /\ names ROOTDEV n ip /\ f_sb f1 = f_sb f /\ t_rep (f_t f1) V ∅ D /\
    f_itab f1 = <[i := mk_inode ROOTDEV n (i_ref ip) true true (disk_inode (f_sb f) V n)]> (f_itab f) /\
    itab_ok (f_sb f) V (f_itab f1) /\ (0 <= n < sb_ninodes (f_sb f))%Z /\ refs (f_itab f1) = refs (f_itab f).
Proof.
  intros [LY R OK TR IT UN] [(ip & Hi & Hr & Hd & Hn) Ht].
  destruct (ilock_ok f LY V D R IT i ip Hi Hr (UN i ip Hi Hr)) as (f1 & E & Esb & R1 & Et & IT1); [by rewrite Hn|].
  exists f1, ip. rewrite Hd, Hn in Et. split_and!; try done; [rewrite <-Hn; by eapply (it_inum _ _ _ IT)..|].
  rewrite Et, (refs_insert _ _ _ _ Hi). cbn [i_ref]. rewrite Z.sub_diag. apply bump_0.
Qed.

(** [iunlockput] after that gives the reference back. *)
Lemma walk_unlock f1 f i n ip : quiet f -> f_sb f1 = f_sb f -> t_rep (f_t f1) V ∅ D -> itab_ok (f_sb f) V (f_itab f1) ->
  d_type (disk_inode (f_sb f) V n) <> 0%Z -> (0 <= n < sb_ninodes (f_sb f))%Z ->
  f_itab f1 !! i = Some ip -> names ROOTDEV n ip -> i_locked ip = true -> i_di ip = disk_inode (f_sb f) V n ->
  (forall j jp, j <> i -> f_itab f1 !! j = Some jp -> (0 < i_ref jp)%Z -> i_locked jp = false) ->
  exists f2 ip2, iunlockput f1 i = Ret f2 /\ quiet f2 /\ f_sb f2 = f_sb f /\ f_itab f2 = <[i := ip2]> (f_itab f1) /\
    i_ref ip2 = (i_ref ip - 1)%Z /\ i_dev ip2 = i_dev ip /\ i_inum ip2 = i_inum ip /\
    refs (f_itab f2) = bump i (-1) (refs (f_itab f1)).
Proof.
  intros Q Esb R1 IT1 Ht Hn Hi (Hr & Hd & Hinum) Hl Hdi Hun. unfold iunlockput.
  pose proof IT1 as IT1'. rewrite <-Esb in IT1'.
  destruct (iunlock_ok f1 V IT1' i ip Hi Hr Hl) as (f2 & -> & Esb2 & Et2 & Etab2 & IT2); [by rewrite Esb, Hinum|]. cbn [obind].
  rewrite <-Esb2 in IT2.
  assert (f_itab f2 !! i = Some (set_ilock ip false)) as Hi2.
  { rewrite Etab2. apply list_lookup_insert_eq. by eapply lookup_lt_Some. }
  destruct (tr_inode _ _ (qu_tree _ Q) n Hn Ht) as [_ Hlink].
  destruct (iput_keeps f2 V IT2 i _ Hi2) as (f3 & E3 & Esb3 & Et3 & Etab3 & IT3); [done|done| |].
  { cbn. rewrite Hdi. tauto. }
  eexists f3, _. split; [done|]. rewrite Etab2, list_insert_insert_eq in Etab3.
  assert (f_sb f3 = f_sb f) as E by congruence.
  split; [|split; [done|split; [exact Etab3|split_and!; try done]]].
  2: { rewrite Etab3, (refs_insert _ _ _ _ Hi). f_equal. cbn. lia. }
  destruct Q as [LY R OK TR IT UN]. split; rewrite ?E; try done; [congruence|by rewrite <-Esb, <-Esb2|].
  intros j jp Hj Hrj. rewrite Etab3 in Hj. apply list_lookup_insert_Some in Hj as [(-> & <- & _)|[Hne Hj]]; [done|by eapply Hun].
Qed.

(** The last part of a round: the directory is searched and given back. *)
Lemma walk_next rs f i n name e : quiet f -> holds f i n -> two_free rs -> refs (f_itab f) = bump i 1 rs ->
  d_type (disk_inode (f_sb f) V n) = T_DIR -> Forall (fun c => c <> 0%Z) e -> length name = DIRSIZ ->
  forall f1, ilock f i = Ret f1 ->
  (match dir_get V (disk_inode (f_sb f) V n) (elem_name e) with
   | None => exists f2 f3, dirlookup f1 i (splice 0 (elem_field e) name) = Ret (f2, None) /\ iunlockput f2 i = Ret f3 /\
       quiet f3 /\ f_sb f3 = f_sb f /\ refs (f_itab f3) = rs
   | Some m =>
       exists f2 f3 j off, dirlookup f1 i (splice 0 (elem_field e) name) = Ret (f2, Some (j, off)) /\ iunlockput f2 i = Ret f3 /\
         quiet f3 /\ f_sb f3 = f_sb f /\ holds f3 j m /\ refs (f_itab f3) = bump j 1 rs
   end).
Proof.
  intros Q Hh H2 Hrefs Hdir He Hname f1 E1.
  destruct (walk_lock f i n Q Hh) as (f1' & ip & E1' & Hi & Hnm & Esb & R1 & Etab & IT1 & Hn & Erf). rewrite E1 in E1'. symmetry in E1'. simplify_eq.
  set (dn := disk_inode (f_sb f) V n) in *. set (ipl := mk_inode ROOTDEV n (i_ref ip) true true dn) in *.
  destruct (tr_dir _ _ (qu_tree _ Q) n Hn Hdir) as [Hmod Hent]. fold dn in Hmod, Hent.
  destruct (tr_inode _ _ (qu_tree _ Q) n Hn (proj2 Hh)) as [IO Hlink]. fold dn in IO, Hlink.
  assert (f_itab f1 !! i = Some ipl) as Hi1 by (rewrite Etab; apply list_lookup_insert_eq; by eapply lookup_lt_Some).
  assert (forall j jp, j <> i -> f_itab f1 !! j = Some jp -> (0 < i_ref jp)%Z -> i_locked jp = false) as Hun.
  { intros j jp Hne Hj. rewrite Etab, list_lookup_insert_ne in Hj by done. by apply (qu_unlocked _ Q j). }
  destruct Hnm as (Hr & Hd & Hin).
  destruct (dirlookup_ok f1) with (V := V) (D := D) (dp := i) (ip := ipl) (t := f_t f1) (name := splice 0 (elem_field e) name)
    as (t2 & R2 & E2); try done; [rewrite Esb; apply Q|rewrite Esb; apply Q|by rewrite Esb|left; by rewrite length_splice_name|].
  rewrite with_t_same in E2. cbn [i_di ipl i_dev] in E2. rewrite dir_find_elem in E2 by done. rewrite E2.
  unfold dir_get. destruct (dir_find V dn (elem_name e)) as [k|] eqn:Ek; cbn [fmap option_fmap option_map].
  - apply first_from_some in Ek as (Hk & Hm & _). unfold ent_matches in Hm. apply andb_prop in Hm as [Hnz _].
    apply negb_true_iff, Z.eqb_neq in Hnz. destruct (Hent k) as [Hm Hmt]; [lia|done|]. set (m := de_inum (ent V dn k)) in *.
    destruct (iget_ok (with_t f1 t2) V ROOTDEV m) as [[_ Hfull]|(j & jp & jp' & -> & Hj & Hjd & Hji & IT2 & Hcase)];
      [cbn; rewrite Esb; exact IT1|done|by cbn; rewrite Esb| |].
    { exfalso. destruct (two_free_one rs (f_itab f1) i 1 H2) as (x & xp & Hx & Hx0); [congruence|].
      destruct (Hfull x xp Hx). lia. }
    cbn [obind]. assert (i_ref jp' - i_ref jp = 1)%Z as Hd1 by (destruct Hcase as [[_ ->]|(-> & -> & _)]; cbn; lia).
    assert (names ROOTDEV m jp') as Hnm'.
    { split; [|done]. destruct Hcase as [[(Hx & _) ->]|(_ & -> & _)]; cbn; lia. }
    cbn [with_t f_sb f_itab] in IT2, Hj. rewrite Esb in IT2. set (f2 := with_ip (with_t f1 t2) j jp').
    assert (exists ip2, f_itab f2 !! i = Some ip2 /\ (i_ref ipl <= i_ref ip2)%Z /\ i_dev ip2 = ROOTDEV /\ i_inum ip2 = n /\ i_locked ip2 = true /\ i_di ip2 = dn /\
      (j = i -> i_ref ip2 = i_ref ipl + 1)%Z) as (ip2 & Hi2 & Hr2 & Hd2 & Hn2 & Hl2 & Hdi2 & Hj2).
    { destruct (decide (j = i)) as [->|Hne].
      - exists jp'. cbn. rewrite list_lookup_insert_eq by (by eapply lookup_lt_Some). rewrite Hi1 in Hj. simplify_eq.
        destruct Hcase as [[Hx ->]|(Hz & _)]; [cbn in *; destruct Hx as (_ & _ & Hx); cbn in Hx; split_and!; (done || lia)|cbn in Hz; lia].
      - exists ipl. cbn. rewrite list_lookup_insert_ne by done. split_and!; (done || lia). }
    destruct (walk_unlock f2 f i n ip2 Q) as (f3 & ip3 & E3 & Q3 & Esb3 & Etab3 & Hr3 & Hd3 & Hn3 & Erf3); try done; [apply Hh|split_and!; (done || cbn in Hr2; lia)| |].
    { intros x xp Hne Hx Hxr. cbn in Hx. apply list_lookup_insert_Some in Hx as [(-> & <- & _)|[Hne2 Hx]]; [|by apply (Hun x)].
      destruct Hcase as [[Hx ->]|(_ & _ & _ & Hlk & _)]; [|done]. cbn. apply (Hun x jp Hne Hj). apply Hx. }
    exists f2, f3, j, (Z.of_nat (DIRENT * k)). split_and!; try done.
    2: { rewrite Erf3. cbn [f2 with_ip with_t f_itab]. rewrite (refs_insert _ _ _ _ Hj), Hd1, Erf, Hrefs. apply bump_swap. }
    split; [|by rewrite Esb3].
    destruct (decide (j = i)) as [->|Hne].
    + exists ip3. rewrite Etab3. split; [apply list_lookup_insert_eq; by eapply lookup_lt_Some|].
      cbn in Hi2. rewrite list_lookup_insert_eq in Hi2 by (by eapply lookup_lt_Some). simplify_eq.
      split; [rewrite Hr3, (Hj2 eq_refl); cbn; lia|]. split; [by rewrite Hd3|]. rewrite Hn3. done.
    + exists jp'. rewrite Etab3, list_lookup_insert_ne by done. cbn. rewrite list_lookup_insert_eq by (by eapply lookup_lt_Some). done.
  - eexists (with_t f1 t2). destruct (walk_unlock (with_t f1 t2) f i n ipl Q) as (f3 & ip3 & E3 & Q3 & Esb3 & _ & _ & _ & _ & Erf3); try done; [apply Hh|].
    exists f3. split_and!; try done. rewrite Erf3. cbn [with_t f_itab]. rewrite Erf, Hrefs. apply bump_back.
Qed.

Lemma iget_root f : quiet f -> two_free (refs (f_itab f)) -> (1 < sb_ninodes (f_sb f))%Z ->
  d_type (disk_inode (f_sb f) V 1) <> 0%Z ->
  exists f' i, iget f ROOTDEV 1 = Ret (f', i) /\ quiet f' /\ f_sb f' = f_sb f /\ holds f' i 1 /\
    refs (f_itab f') = bump i 1 (refs (f_itab f)).
Proof.
  intros Q H2 Hn Ht.
  destruct (iget_ok f V ROOTDEV 1 (qu_itab _ Q) eq_refl) as [[_ Hfull]|(i & ip & ip' & -> & Hi & Hd & Hin & IT' & Hc)]; [lia| |].
  { exfalso. destruct (two_free_one _ (f_itab f) 0 0 H2) as (x & xp & Hx & Hx0); [by rewrite bump_0|]. destruct (Hfull x xp Hx). lia. }
  exists (with_ip f i ip'), i. split; [done|].
  assert (0 < i_ref ip' /\ i_ref ip' - i_ref ip = 1)%Z as [Hr Hr1] by (destruct Hc as [[(Hx & _) ->]|(-> & -> & _)]; cbn; lia).
  split; [|split; [done|split]].
  - destruct Q as [LY R OK TR IT UN]. split; cbn; try done. intros j jp Hj Hrj.
    apply list_lookup_insert_Some in Hj as [(-> & <- & _)|[Hne Hj]]; [|by eapply UN].
    destruct Hc as [[(Hx & _) ->]|(_ & _ & _ & Hl & _)]; [cbn; by eapply UN|done].
  - split; [|done]. exists ip'. split; [apply list_lookup_insert_eq; by eapply lookup_lt_Some|]. done.
  - cbn [with_ip f_itab]. by rewrite (refs_insert _ _ _ _ Hi), Hr1.
Qed.

Context (r : bytes) (parent : bool).

(** The inode that [namex] looks for: with [nameiparent] the directory of the
    last element. *)
Fixpoint target (sb : superblock) (n : Z) (es : list bytes) : option Z :=
  match es with
  | [] => if parent then None else Some n
  | e :: es =>
      let d := disk_inode sb V n in
      if negb (d_type d =? T_DIR)%Z || (d_nlink d =? 0)%Z then None
      else if parent && bool_decide (es = []) then Some n
      else match dir_get V d (elem_name e) with
           | None => None
           | Some m => target sb m es
           end
  end.

Lemma namex_loop_ok rs fuel : two_free rs -> forall f i n p name, quiet f -> holds f i n -> refs (f_itab f) = bump i 1 rs ->
  Forall (fun c => c <> 0%Z) p -> length name = DIRSIZ -> length p < fuel ->
  exists f' res name', namex_loop f i (p ++ 0%Z :: r) parent name fuel = Ret (f', res, name') /\ quiet f' /\ f_sb f' = f_sb f /\
    match target (f_sb f) n (path_elems p []) with
    | None => res = None
    | Some m => exists j, res = Some j /\ holds f' j m
    end /\
    refs (f_itab f') = match res with Some j => bump j 1 rs | None => rs end /\
    (parent = true -> is_Some res -> exists e, last (path_elems p []) = Some e /\ take (length (elem_field e)) name' = elem_field e).
Proof.
  intros H2. induction fuel as [|fuel IH]; intros f i n p name Q Hh Hrefs Hz Hname Hf; [lia|]. cbn [namex_loop].
  pose proof (skipelem_ok r p name Hz Hname) as Hskip. pose proof (path_elems_nonzero p Hz [] (Forall_nil_2 _)) as Hel.
  destruct (path_elems p []) as [|e es] eqn:Ees.
  - rewrite Hskip. cbn [obind target]. destruct parent eqn:Ep.
    + destruct Hh as [(ip & Hi & Hr & Hd & Hn) Ht]. pose proof (qu_itab _ Q) as IT.
      pose proof (it_inum _ _ _ IT i ip Hi Hr) as [_ Hrange]. rewrite Hn in Hrange.
      destruct (tr_inode _ _ (qu_tree _ Q) n Hrange Ht) as [_ Hlink]. pose proof (qu_unlocked _ Q i ip Hi Hr) as Hul.
      destruct (iput_keeps f V IT i ip Hi Hr Hul) as (f2 & -> & Esb & Et & Etab & IT2).
      { intros (_ & Hv & Hl). rewrite (it_sync _ _ _ IT i ip Hi Hr Hv Hul), Hn in Hl. done. }
      cbn [obind]. exists f2, None, name. split; [done|]. split; [|split; [done|split; [done|split; [|by intros _ [? ?]]]]].
      2: { rewrite Etab, (refs_insert _ _ _ _ Hi), Hrefs. cbn. replace (i_ref ip - 1 - i_ref ip)%Z with (-1)%Z by lia. apply bump_back. }
      destruct Q as [LY R OK TR _ UN]. split; rewrite ?Esb, ?Et; try done. intros j jp Hj Hrj.
      rewrite Etab in Hj. apply list_lookup_insert_Some in Hj as [(-> & <- & _)|[Hne Hj]]; [done|by eapply UN].
    + exists f, (Some i), name. split; [done|]. split; [done|]. split; [done|]. split; [by exists i|done].
  - destruct Hskip as (p' & -> & Ep' & Hnil & Hlen & Hz'). cbn [obind]. apply Forall_cons in Hel as [He Hel].
    destruct (walk_lock f i n Q Hh) as (f1 & ip & E1 & Hi & Hnm & Esb & R1 & Etab & IT1 & Hn & Erf). rewrite E1. cbn [obind].
    set (dn := disk_inode (f_sb f) V n) in *. set (ipl := mk_inode ROOTDEV n (i_ref ip) true true dn) in *.
    assert (f_itab f1 !! i = Some ipl) as Hi1 by (rewrite Etab; apply list_lookup_insert_eq; by eapply lookup_lt_Some).
    rewrite (load_ret _ _ _ Hi1). cbn [obind i_di ipl target]. fold dn.
    assert (forall j jp, j <> i -> f_itab f1 !! j = Some jp -> (0 < i_ref jp)%Z -> i_locked jp = false) as Hun.
    { intros j jp Hne Hj. rewrite Etab, list_lookup_insert_ne in Hj by done. by apply (qu_unlocked _ Q j). }
    assert (names ROOTDEV n ipl) as Hnl by (split_and!; [apply Hnm|done|done]).
    destruct (tr_inode _ _ (qu_tree _ Q) n Hn (proj2 Hh)) as [_ Hlink]. fold dn in Hlink.
    destruct (Z.eqb_spec (d_type dn) T_DIR) as [Hdir|Hnd]; cbn [negb orb].
    2: { destruct (walk_unlock f1 f i n ipl Q Esb R1 IT1 (proj2 Hh) Hn Hi1 Hnl eq_refl eq_refl Hun) as (f2 & ip2 & -> & Q2 & Esb2 & _ & _ & _ & _ & Erf2).
         cbn [obind]. exists f2, None. eexists. split; [done|]. split; [done|]. split; [done|]. split; [done|].
         split; [|by intros _ [? ?]]. rewrite Erf2, Erf, Hrefs. apply bump_back. }
    rewrite (proj2 (Z.eqb_neq _ _) Hlink).
    assert (load (p' ++ 0%Z :: r) 0 = Ret (default 0%Z (head p'))) as -> by (destruct p'; done). cbn [obind].
    assert ((default 0%Z (head p') =? 0)%Z = bool_decide (es = [])) as ->.
    { destruct p' as [|c p'']; [rewrite bool_decide_true by (by apply Hnil); done|].
      rewrite bool_decide_false by (intros Hx; apply Hnil in Hx; done). apply Z.eqb_neq. by apply Forall_cons in Hz' as [? _]. }
    destruct (parent && bool_decide (es = [])) eqn:Epar.
    + apply andb_prop in Epar as [Hpar Hes]. apply bool_decide_eq_true in Hes. destruct es; [clear Hes|done].
      pose proof IT1 as IT1'. rewrite <-Esb in IT1'.
      destruct (iunlock_ok f1 V IT1' i ipl Hi1 (proj1 Hnl) eq_refl) as (f2 & -> & Esb2 & Et2 & Etab2 & IT2); [by rewrite Esb|]. cbn [obind].
      exists f2, (Some i). eexists. split; [done|].
      assert (f_sb f2 = f_sb f) as Es by congruence. split; [|split; [done|split; [|split]]].
      * destruct Q as [LY R OK TR _ UN]. split; rewrite ?Es, ?Et2; try done; [by rewrite <-Esb|]. intros j jp Hj Hrj.
        rewrite Etab2 in Hj. apply list_lookup_insert_Some in Hj as [(-> & <- & _)|[Hne Hj]]; [done|by eapply Hun].
      * exists i. split; [done|]. split; [|by rewrite Es; apply Hh]. eexists. split; [rewrite Etab2; apply list_lookup_insert_eq; by eapply lookup_lt_Some|].
        split_and!; [apply Hnm|done|done].
      * rewrite Etab2, (refs_insert _ _ _ _ Hi1), Erf, Hrefs. cbn [set_ilock i_ref]. rewrite Z.sub_diag. apply bump_0.
      * intros _ _. exists e. split; [done|]. unfold splice. change (take 0 name) with (@nil Z). rewrite app_nil_l. apply take_app_length.
    + pose proof (walk_next rs f i n name e Q Hh H2 Hrefs Hdir He Hname f1 E1) as Hnext. fold dn in Hnext.
      destruct (dir_get V dn (elem_name e)) as [m|].
      * destruct Hnext as (f2 & f3 & j & off & -> & E3 & Q3 & Esb3 & Hh3 & Erf3). cbn [obind]. rewrite E3. cbn [obind].
        destruct (IH f3 j m p' (splice 0 (elem_field e) name) Q3 Hh3 Erf3 Hz') as (f' & res & name' & -> & Q' & Esb' & Hres & Hrf' & Hlast);
          [by apply length_splice_name|lia|]. exists f', res, name'. rewrite Ep', Esb3 in *.
        split; [done|]. split; [done|]. split; [congruence|]. split; [done|]. split; [done|]. intros Hpar Hsome.
        destruct (Hlast Hpar Hsome) as (e' & He' & Ht'). exists e'. split; [|done]. destruct es; [done|done].
      * destruct Hnext as (f2 & f3 & -> & E3 & Q3 & Esb3 & Erf3). cbn [obind]. rewrite E3. cbn [obind].
        exists f3, None. eexists. split; [done|]. split; [done|]. split; [done|]. split; [done|]. split; [done|]. by intros _ [? ?].
Qed.

Lemma idup_ok f i n : quiet f -> holds f i n -> exists f', idup f i = Ret f' /\ quiet f' /\ f_sb f' = f_sb f /\ holds f' i n /\
  refs (f_itab f') = bump i 1 (refs (f_itab f)).
Proof.
  intros Q [(ip & Hi & Hr & Hd & Hn) Ht]. unfold idup. rewrite (load_ret _ _ _ Hi). cbn [obind]. eexists. split; [done|].
  pose proof (qu_itab _ Q) as IT.
  split; [|split; [done|split; [split; [|done]|]]].
  - destruct Q as [LY R OK TR _ UN]. split; cbn; try done.
    + eapply itab_insert; [done|done|..]; cbn; try lia.
      * intros _. by eapply (it_inum _ _ _ IT).
      * intros _ j jp Hne Hj Hnm. apply Hne. symmetry. by eapply (it_uniq _ _ _ IT).
      * intros _ Hv Hl. by eapply (it_sync _ _ _ IT).
    + intros j jp Hj Hrj. apply list_lookup_insert_Some in Hj as [(-> & <- & _)|[Hne Hj]]; [cbn; by eapply UN|by eapply UN].
  - eexists. split; [apply list_lookup_insert_eq; by eapply lookup_lt_Some|]. split_and!; [cbn; lia|done|done].
  - cbn [with_ip f_itab]. rewrite (refs_insert _ _ _ _ Hi). f_equal. cbn. lia.
Qed.
End namex.

(** ** Claims *)

(** [dirlink] of a name that the directory does not have adds it: it
    returns 0 and afterwards [dirlookup] of the name finds the inode, and every
    other name (names are compared in their first 14 bytes) is found or not
    found as before; or it returns -1 and the disk is full.  Blocks that do not
    belong to the directory do not change. *)
Theorem dirlink_adds {T} `{TxLaws T} (f : fs T) V (D : gset Z) (dp : nat) (ip : inode) (name nm : bytes) (inum : Z)
    (LY : layout (T := T) (f_sb f)) (R : t_rep (f_t f) V ∅ D) (OK : disk_ok (f_sb f) V) (Hsz : size D + 7 <= TXCAP)
    (Hdp : f_itab f !! dp = Some ip) (IO : inode_ok (f_sb f) V (i_di ip))
    (Htype : d_type (i_di ip) = T_DIR) (Hmod : (d_size (i_di ip) `mod` Z.of_nat DIRENT = 0)%Z)
    (Hi : (0 <= i_inum ip < sb_ninodes (f_sb f))%Z) (Hroom : (d_size (i_di ip) < Z.of_nat MAXFILE * BS)%Z)
    (Hname : is_name name nm) (Hby : Forall is_byte nm) (Hinum : (0 < inum < 65536)%Z)
    (Hnone : dir_get V (i_di ip) name = None) :
  exists f' r d' V' D', dirlink f dp name inum = Ret (f', r) /\ t_rep (f_t f') V' ∅ D' /\
    f_itab f' = <[dp := with_di ip d']> (f_itab f) /\ disk_ok (f_sb f) V' /\ inode_ok (f_sb f) V' d' /\
    (forall b, foreign (f_sb f) V (i_di ip) b -> b <> IBLOCK (f_sb f) (i_inum ip) -> V' b = V b) /\
    ((r = (-1)%Z /\ forall x, (0 <= x < sb_size (f_sb f))%Z -> used (f_sb f) V' x = true) \/
     (r = 0%Z /\ dir_get V' d' name = Some inum /\
      forall other onm, is_name other onm -> take DIRSIZ onm <> take DIRSIZ nm -> dir_get V' d' other = dir_get V (i_di ip) other)).
Proof.
  assert (dir_find V (i_di ip) name = None) as Hn by (unfold dir_get in Hnone; by destruct (dir_find V (i_di ip) name)).
  destruct (dirlink_ok f LY V D OK Hsz R dp ip Hdp IO Htype Hmod Hi Hroom name nm inum Hname Hby Hinum Hn)
    as (f' & r & d' & V' & D' & E & _ & R' & Et & OK' & IO' & _ & Hf & Hres).
  exists f', r, d', V', D'. split_and!; try done. destruct Hres as [?|(Hr & _ & _ & Hg & Ho)]; [by left|by right].
Qed.

(** A disk with an empty root directory. *)
Definition root_di : dinode := mk_di T_DIR 0 0 1 0 (replicate (NDIRECT + 1) 0%Z).
Definition root_disk : gmap Z bytes := {[42%Z := demo_bitmap; 40%Z := put_dinode zero_block 64 root_di]}.

Lemma root_rep : exists (t : log * bcache) V, @t_rep _ _ demo_laws t V ∅ ∅ /\ disk_ok demo_sb V /\
  forall b, home 2 b -> V b = disk_block root_disk b.
Proof. apply boot_rep; [reflexivity|reflexivity|reflexivity|vm_compute; reflexivity]. Qed.

Lemma inode_ok_root sb V : inode_ok sb V root_di.
Proof.
  assert (forall n, blk V root_di n = 0%Z) as Eb by (intros n; exact (blk_di0 V n)). split.
  - split; try (unfold is_short, is_uint, root_di, T_DIR; cbn; lia). apply Forall_replicate. unfold is_uint. lia.
  - intros n _ Hz. by rewrite Eb in Hz.
  - done.
  - intros n m _ _ Hz. by rewrite Eb in Hz.
  - intros n Hn. simpl in Hn. unfold BS in Hn. lia.
Qed.

Lemma root_inodes V n : (forall b, home 2 b -> V b = disk_block root_disk b) -> (0 <= n < 16)%Z ->
  disk_inode demo_sb V n = if decide (n = 1%Z) then root_di else di0.
Proof.
  intros HV Hn. unfold disk_inode. assert (IBLOCK demo_sb n = 40%Z) as -> by (unfold IBLOCK, IPB; rewrite Z.div_small by lia; done).
  rewrite HV by (right; reflexivity).
  assert (forallb (fun k => bool_decide (dinode_at (disk_block root_disk 40) (slot (Z.of_nat k)) =
    if decide (Z.of_nat k = 1%Z) then root_di else di0)) (seq 0 16) = true) as Hall by (vm_compute; reflexivity).
  rewrite forallb_forall in Hall. specialize (Hall (Z.to_nat n)). rewrite Z2Nat.id in Hall by lia.
  assert (In (Z.to_nat n) (seq 0 16)) as Hin by (apply in_seq; lia). specialize (Hall Hin).
  by apply bool_decide_eq_true in Hall.
Qed.

Lemma dirlink_adds_witness : exists (t : log * bcache) f' r,
  dirlink (demo_fs t (<[0 := mk_inode ROOTDEV 1 1 true true root_di]> iinit)) 0 [97; 0]%Z 5 = Ret (f', r).
Proof.
  destruct root_rep as (t & V & R & OK & _). set (ip := mk_inode ROOTDEV 1 1 true true root_di).
  destruct (@dirlink_adds _ _ demo_laws (demo_fs t (<[0 := ip]> iinit)) V ∅ 0 ip [97; 0]%Z [97]%Z 5 demo_layout R OK)
    as (f' & r & d' & V' & D' & E & _).
  - rewrite size_empty. unfold TXCAP. lia.
  - reflexivity.
  - apply inode_ok_root.
  - reflexivity.
  - reflexivity.
  - simpl. lia.
  - reflexivity.
  - split; [repeat constructor; discriminate|]. left. exists []. reflexivity.
  - repeat constructor; unfold is_byte; lia.
  - lia.
  - reflexivity.
  - exists t, f', r. exact E.
Defined.

(** C8.  [namex] resolves path names: for a path with the elements [es] it
    returns the inode that the directories on the disk assign to them from the
    root or from the current directory (with [nameiparent] the directory of the
    last element, and the name of that element), or null where a directory
    lacks an element or an element is no directory.  The disk does not change,
    all inodes are unlocked again, and no reference is lost or leaked: the
    counts of the inode table are the old ones, one more for the result.  Two
    free entries of the table are enough for paths of any length. *)
Theorem namex_resolves {T} `{TxLaws T} (f : fs T) V (D : gset Z) (cwd : nat) (n : Z) (parent : bool) (p r name : bytes)
    (Hsz : size D + 5 <= TXCAP) (Q : quiet V D f) (Hz : Forall (fun c => c <> 0%Z) p) (Hname : length name = DIRSIZ)
    (Hfree : two_free (refs (f_itab f)))
    (Hroot : (ROOTINO < sb_ninodes (f_sb f))%Z /\ d_type (disk_inode (f_sb f) V ROOTINO) <> 0%Z)
    (Hcwd : head p <> Some SLASH -> holds V f cwd n) :
  exists f' res name', namex f cwd (p ++ 0%Z :: r) parent name = Ret (f', res, name') /\ quiet V D f' /\
    match target V parent (f_sb f) (if decide (head p = Some SLASH) then ROOTINO else n) (path_elems p []) with
    | None => res = None
    | Some m => exists j, res = Some j /\ holds V f' j m
    end /\
    refs (f_itab f') = match res with Some j => bump j 1 (refs (f_itab f)) | None => refs (f_itab f) end /\
    (parent = true -> is_Some res ->
     exists e, last (path_elems p []) = Some e /\ take (length (elem_field e)) name' = elem_field e).
Proof.
  unfold namex. assert (load (p ++ 0%Z :: r) 0 = Ret (default 0%Z (head p))) as -> by (by destruct p). cbn [obind].
  assert (length p < S (length (p ++ 0%Z :: r))) as Hfuel by (rewrite length_app; simpl; lia).
  case_decide as Hs.
  - rewrite Hs. cbn [default]. rewrite Z.eqb_refl. unfold ROOTINO in *.
    destruct (iget_root V D Hsz f Q Hfree (proj1 Hroot) (proj2 Hroot)) as (f1 & i & -> & Q' & Esb & Hh & Erf). cbn [obind].
    destruct (namex_loop_ok V D Hsz r parent _ (S (length (p ++ 0%Z :: r))) Hfree _ i 1 p name Q' Hh Erf Hz Hname Hfuel)
      as (f' & res & name' & -> & Q2 & _ & Hres). rewrite Esb in Hres. by exists f', res, name'.
  - assert ((default 0%Z (head p) =? SLASH)%Z = false) as ->.
    { apply Z.eqb_neq. destruct p; cbn in *; [done|congruence]. }
    destruct (idup_ok V D Hsz f cwd n Q (Hcwd Hs)) as (f1 & -> & Q1 & Esb & Hh & Erf). cbn [obind].
    destruct (namex_loop_ok V D Hsz r parent _ (S (length (p ++ 0%Z :: r))) Hfree f1 cwd n p name Q1 Hh Erf Hz Hname Hfuel)
      as (f' & res & name' & -> & Q2 & _ & Hres). rewrite Esb in Hres. by exists f', res, name'.
Qed.

Lemma namex_resolves_witness : exists (t : log * bcache) f' i name',
  namex (demo_fs t iinit) 0 [47; 0]%Z false (replicate DIRSIZ 0%Z) = Ret (f', Some i, name') /\
  refs (f_itab f') = bump i 1 (replicate NINODE 0%Z).
Proof.
  destruct root_rep as (t & V & R & OK & HV). exists t.
  assert (forall n, (0 <= n < 16)%Z -> d_type (disk_inode demo_sb V n) <> 0%Z -> n = 1%Z) as H1.
  { intros n Hn Ht. rewrite (root_inodes V n HV Hn) in Ht. destruct (decide (n = 1%Z)); [done|]. by destruct Ht. }
  assert (disk_inode demo_sb V 1 = root_di) as E1 by (rewrite (root_inodes V 1 HV) by lia; reflexivity).
  destruct (@namex_resolves _ _ demo_laws (demo_fs t iinit) V ∅ 0 0 false [47]%Z [] (replicate DIRSIZ 0%Z))
    as (f' & res & name' & E & _ & Hres & Hrefs & _).
  - rewrite size_empty. unfold TXCAP. lia.
  - split; [exact demo_layout|exact R|exact OK| |apply iinit_ok|].
    + split; cbn [demo_fs f_sb]; intros n Hn Ht.
      * assert (n = 1%Z) as -> by (by apply H1). rewrite E1. split; [apply inode_ok_root|discriminate].
      * assert (n = 1%Z) as -> by (apply H1; [done|]; rewrite Ht; discriminate). rewrite E1.
        split; [reflexivity|]. intros k Hk. exfalso. revert Hk. apply Nat.nlt_0_r.
    + intros i ip Hi Hr. apply (lookup_replicate NINODE) in Hi as [-> _]. simpl in Hr. lia.
  - repeat constructor. discriminate.
  - reflexivity.
  - exists 0, 1. split; [discriminate|]. split; reflexivity.
  - cbn [demo_fs f_sb]. unfold ROOTINO. rewrite E1. split; [reflexivity|discriminate].
  - intros Hh. exfalso. apply Hh. reflexivity.
  - destruct Hres as (j & -> & _). exists f', j, name'. split; [exact E|exact Hrefs].
Defined.
