(* ===== verification/Kalloc.v ===== *)
(** * Physical memory (xv6/kernel/kalloc.c)

    The page allocator.  Memory is a map from the address of a page to its 4096
    bytes; the list of free pages runs through the first eight bytes of the
    pages themselves, as in the code, and the allocator keeps only its head.
    [kend] is the address [end] that the linker script sets.

    The second part is the interface that the page tables use ([PageStore],
    [PageLaws]): a map of the pages in use and the set of the free ones.  The
    section under the lock is one step, and the lock is left out. *)

From S2P Require Import Prelude.
From S2P Require Import Bytes.
From S2P Require Import Kstring.

Definition PGSIZE : Z := 4096.
Definition PGBYTES : nat := Z.to_nat PGSIZE.
Definition KERNBASE : Z := 2147483648.
Definition PHYSTOP : Z := KERNBASE + 128 * 1024 * 1024.

Definition PGROUNDUP (sz : Z) : Z := Z.ldiff (u64 (sz + PGSIZE - 1)) (PGSIZE - 1).
Definition PGROUNDDOWN (a : Z) : Z := Z.ldiff a (PGSIZE - 1).

(** ** Model *)
Record kmem : Type := mk_kmem {
  km_pages : gmap Z bytes;
  km_freelist : Z
}.

Definition get_page (k : kmem) (pa : Z) : outcome bytes := from_option (km_pages k !! pa).
Definition set_page (k : kmem) (pa : Z) (d : bytes) : outcome kmem :=
  let* _ := get_page k pa in Ret (mk_kmem (<[pa := d]> (km_pages k)) (km_freelist k)).

(** [r->next] *)
Definition run_next (d : bytes) : Z := get_le 8 d 0.

Section kalloc.
Context (kend : Z).

Definition kfree (k : kmem) (pa : Z) : outcome kmem :=
  if negb (pa `mod` PGSIZE =? 0)%Z || (pa <? kend)%Z || (PHYSTOP <=? pa)%Z then Panic "kfree"
  else
    let* d := get_page k pa in
    let* d := memset d 0 1 PGBYTES in
    let* k := set_page k pa (put_le 8 d 0 (km_freelist k)) in
    Ret (mk_kmem (km_pages k) pa).

Definition kalloc (k : kmem) : outcome (kmem * Z) :=
  let r := km_freelist k in
  if (r =? 0)%Z then Ret (k, r)
  else
    let* d := get_page k r in
    let k := mk_kmem (km_pages k) (run_next d) in
    let* d := memset d 0 5 PGBYTES in
    let* k := set_page k r d in
    Ret (k, r).

Fixpoint freerange_loop (k : kmem) (p pa_end : Z) (fuel : nat) : outcome kmem :=
  match fuel with
  | O => NoFuel
  | S fuel =>
      if (p + PGSIZE <=? pa_end)%Z then
        let* k := kfree k p in
        freerange_loop k (p + PGSIZE) pa_end fuel
      else Ret k
  end.

(** One round per page of the range. *)
Definition freerange (k : kmem) (pa_start pa_end : Z) : outcome kmem :=
  freerange_loop k (PGROUNDUP pa_start) pa_end (S (Z.to_nat ((pa_end - PGROUNDUP pa_start) `div` PGSIZE))).

Definition kinit (k : kmem) : outcome kmem := freerange k kend PHYSTOP.
End kalloc.

(** ** Rounding *)

(** Linear goals with divisions by constants. *)
Ltac div_lia := Z.to_euclidean_division_equations; lia.

Lemma ldiff_page a : (0 <= a)%Z -> Z.ldiff a (PGSIZE - 1) = (a - a `mod` PGSIZE)%Z.
Proof.
  intros Ha. change (PGSIZE - 1)%Z with (Z.ones 12). rewrite Z.ldiff_ones_r by lia.
  rewrite Z.shiftl_mul_pow2, Z.shiftr_div_pow2 by lia. change (2 ^ 12)%Z with PGSIZE. unfold PGSIZE.
  div_lia.
Qed.

Lemma round_down a : (0 <= a)%Z -> PGROUNDDOWN a = (a - a `mod` PGSIZE)%Z.
Proof. apply ldiff_page. Qed.

Lemma round_up a : (0 <= a < 2 ^ 63)%Z -> PGROUNDUP a = (PGSIZE * ((a + PGSIZE - 1) `div` PGSIZE))%Z.
Proof.
  intros Ha. unfold PGROUNDUP. rewrite u64_small by (unfold PGSIZE; lia). rewrite ldiff_page by (unfold PGSIZE; lia).
  unfold PGSIZE. div_lia.
Qed.

(** ** The free list *)
Definition page_ok (d : bytes) : Prop := length d = PGBYTES /\ Forall is_byte d.

Fixpoint chain (pages : gmap Z bytes) (hd : Z) (l : list Z) : Prop :=
  match l with
  | [] => hd = 0%Z
  | a :: l => hd = a /\ exists d, pages !! a = Some d /\ chain pages (run_next d) l
  end.

Definition junk (c : Z) : bytes := replicate PGBYTES c.

Lemma memset_page d c : page_ok d -> memset d 0 c PGBYTES = Ret (junk (c `mod` 256)).
Proof.
  intros [Hl _]. rewrite memset_spec by lia. unfold splice, junk. rewrite drop_ge, app_nil_r; [done|].
  rewrite length_replicate. lia.
Qed.

Lemma junk_ok c : is_byte c -> page_ok (junk c).
Proof. intros. split; [apply length_replicate|by apply Forall_replicate]. Qed.

Lemma put_page_ok n d off v : page_ok d -> off + n <= PGBYTES -> page_ok (put_le n d off v).
Proof. intros [Hl Hb] Ho. split; [rewrite length_put_le by lia; done|by apply put_le_bytes]. Qed.

Lemma chain_insert pages hd l p d : p ∉ l -> chain pages hd l -> chain (<[p := d]> pages) hd l.
Proof.
  revert hd. induction l as [|a l IH]; intros hd Hp; [done|]. apply not_elem_of_cons in Hp as [Hne Hp].
  intros (-> & d' & Hd & Hc). split; [done|]. exists d'. rewrite lookup_insert_ne by done. split; [done|by apply IH].
Qed.

Section proofs.
Context (kend : Z) (Hk : (0 < kend)%Z).

(** The pages that the allocator manages. *)
Definition page_addr (p : Z) : Prop := (p `mod` PGSIZE = 0 /\ kend <= p < PHYSTOP)%Z.

#[global] Instance page_addr_dec p : Decision (page_addr p).
Proof. unfold page_addr. apply _. Defined.

Record kmem_ok (k : kmem) (l : list Z) : Prop := {
  ko_chain : chain (km_pages k) (km_freelist k) l;
  ko_nodup : NoDup l;
  ko_addr : Forall page_addr l;
  ko_pages : forall p d, km_pages k !! p = Some d -> page_ok d;
  ko_ram : forall p, page_addr p -> is_Some (km_pages k !! p)
}.

Lemma page_addr_range p : page_addr p -> (0 < p < 4294967296)%Z.
Proof. unfold page_addr, PHYSTOP, KERNBASE. lia. Qed.

Lemma kalloc_ok k l : kmem_ok k l ->
  match l with
  | [] => kalloc k = Ret (k, 0%Z)
  | p :: l => exists k', kalloc k = Ret (k', p) /\ km_pages k' = <[p := junk 5]> (km_pages k) /\ kmem_ok k' l
  end.
Proof.
  intros [C N A P R]. unfold kalloc. destruct l as [|p l]; [simpl in C; by rewrite C|].
  destruct C as (-> & d & Hd & C). apply NoDup_cons in N as [Hp N]. apply Forall_cons in A as [Ap A].
  rewrite (proj2 (Z.eqb_neq p 0)) by (apply page_addr_range in Ap; lia).
  unfold get_page. rewrite Hd. cbn [from_option obind]. rewrite (memset_page d) by (by eapply P). cbn [obind].
  unfold set_page, get_page. cbn [km_pages]. rewrite Hd. cbn [from_option obind].
  eexists. split; [done|]. split; [done|]. split; cbn; try done.
  - by apply chain_insert.
  - intros q e. rewrite lookup_insert_Some. intros [[_ <-]|[_ He]]; [by apply (junk_ok 5)|by eapply P].
  - intros q Hq. destruct (decide (p = q)) as [->|]; [by rewrite lookup_insert_eq|]. rewrite lookup_insert_ne by done. by apply R.
Qed.

Lemma kfree_ok k l p : kmem_ok k l -> page_addr p -> p ∉ l ->
  exists k', kfree kend k p = Ret k' /\ (forall q, q <> p -> km_pages k' !! q = km_pages k !! q) /\ kmem_ok k' (p :: l).
Proof.
  intros [C N A P R] Hp Hnin. pose proof (page_addr_range p Hp) as Hr. unfold kfree. destruct (R p Hp) as [d Hd].
  assert (negb (p `mod` PGSIZE =? 0)%Z || (p <? kend)%Z || (PHYSTOP <=? p)%Z = false) as ->.
  { destruct Hp as [-> [Hp1 Hp2]]. cbn. by rewrite (proj2 (Z.ltb_ge _ _)), (proj2 (Z.leb_gt _ _)) by done. }
  unfold get_page. rewrite Hd. cbn [from_option obind]. rewrite (memset_page d) by (by eapply P). cbn [obind].
  unfold set_page, get_page. rewrite Hd. cbn [from_option obind].
  eexists. split; [done|]. split; [cbn; intros q Hq; by apply lookup_insert_ne|].
  assert (0 <= km_freelist k < 4294967296)%Z as Hf.
  { destruct l as [|a l]; [simpl in C; lia|]. destruct C as [-> _]. apply Forall_cons in A as [Ha _]. apply page_addr_range in Ha. lia. }
  assert (page_ok (junk 1)) as Hj by (by apply junk_ok). change (1 `mod` 256)%Z with 1%Z. split; cbn [km_pages km_freelist].
  - split; [done|]. eexists. split; [apply lookup_insert_eq|]. unfold run_next.
    rewrite get_put_le; [by apply chain_insert|rewrite (proj1 Hj); unfold PGBYTES, PGSIZE; lia|lia].
  - by apply NoDup_cons.
  - by apply Forall_cons.
  - intros q e. rewrite lookup_insert_Some. intros [[_ <-]|[_ He]]; [|by eapply P].
    apply put_page_ok; [done|unfold PGBYTES, PGSIZE; lia].
  - intros q Hq. destruct (decide (p = q)) as [->|]; [by rewrite lookup_insert_eq|]. rewrite lookup_insert_ne by done. by apply R.
Qed.

(** A write to a page that is not free. *)
Lemma set_page_ok k l p d : kmem_ok k l -> p ∉ l -> is_Some (km_pages k !! p) -> page_ok d ->
  exists k', set_page k p d = Ret k' /\ km_pages k' = <[p := d]> (km_pages k) /\ kmem_ok k' l.
Proof.
  intros [C N A P R] Hp [e He] Hd. unfold set_page, get_page. rewrite He. cbn [from_option obind].
  eexists. split; [done|]. split; [done|]. split; cbn; try done.
  - by apply chain_insert.
  - intros q f. rewrite lookup_insert_Some. intros [[_ <-]|[_ Hf]]; [done|by eapply P].
  - intros q Hq. destruct (decide (p = q)) as [->|]; [by rewrite lookup_insert_eq|]. rewrite lookup_insert_ne by done. by apply R.
Qed.

Lemma freerange_loop_ok pa_end : (pa_end <= PHYSTOP)%Z -> forall n k l p, kmem_ok k l ->
  (p `mod` PGSIZE = 0)%Z -> (kend <= p)%Z -> (forall q, q ∈ l -> q < p)%Z -> (pa_end - p < PGSIZE * (Z.of_nat n + 1))%Z ->
  forall fuel, n < fuel -> exists k' l', freerange_loop kend k p pa_end fuel = Ret k' /\ kmem_ok k' l' /\
    (forall q, q ∈ l' <-> q ∈ l \/ q `mod` PGSIZE = 0 /\ p <= q /\ q + PGSIZE <= pa_end)%Z /\
    (forall q, is_Some (km_pages k' !! q) <-> is_Some (km_pages k !! q)).
Proof.
  intros He. unfold PGSIZE in *. induction n as [|n IH]; intros k l p K Hm Hp Hl Hn fuel Hfuel; (destruct fuel as [|fuel]; [lia|]);
    cbn [freerange_loop]; unfold PGSIZE at 1;
    (destruct (Z.leb_spec (p + 4096) pa_end) as [Hle|Hgt];
     [|exists k, l; split; [done|]; split; [done|]; split; [|done]; intros q; split; [by left|]; intros [?|?]; [done|lia]]); [lia|].
  - destruct (kfree_ok k l p K) as (k1 & -> & Hfr & K1); [split; [done|lia]|intros Hin; apply Hl in Hin; lia|].
    cbn [obind]. destruct (IH k1 (p :: l) (p + 4096)%Z K1) with (fuel := fuel) as (k' & l' & E & K' & Hq & Hpg).
    + rewrite <-Z.add_mod_idemp_r, Z.mod_same, Z.add_0_r by lia. done.
    + lia.
    + intros q [->|Hq]%elem_of_cons; [lia|apply Hl in Hq; lia].
    + lia.
    + lia.
    + exists k', l'. split; [done|]. split; [done|]. split.
      2: { intros q. rewrite Hpg. destruct (decide (q = p)) as [->|Hne]; [|by rewrite Hfr by done].
           split; intros _; [apply (ko_ram _ _ K)|apply (ko_ram _ _ K1)]; (split; [done|lia]). }
      intros q. rewrite Hq, elem_of_cons. split.
      * intros [[->|?]|?]; [right; lia|by left|right; lia].
      * intros [?|(Hq0 & Hq1 & Hq2)]; [left; by right|]. destruct (decide (q = p)) as [->|]; [left; by left|right].
        split; [done|]. split; [|done]. div_lia.
Qed.

(** Memory before [kinit]: the pages are there and none is free. *)
Record raw_memory (k : kmem) : Prop := {
  rm_head : km_freelist k = 0%Z;
  rm_pages : forall p d, km_pages k !! p = Some d -> page_ok d;
  rm_ram : forall p, page_addr p -> is_Some (km_pages k !! p)
}.

Lemma kinit_ok k : raw_memory k -> (kend <= PHYSTOP)%Z ->
  exists k' l, kinit kend k = Ret k' /\ kmem_ok k' l /\ (forall q, q ∈ l <-> page_addr q) /\
    (forall q, is_Some (km_pages k' !! q) <-> is_Some (km_pages k !! q)).
Proof.
  intros [H0 P R] Hle. unfold kinit, freerange.
  assert (kend <= PGROUNDUP kend < kend + PGSIZE /\ PGROUNDUP kend `mod` PGSIZE = 0)%Z as [Hr Hm].
  { rewrite round_up by (unfold PHYSTOP, KERNBASE in *; lia). unfold PGSIZE. split; [div_lia|].
    rewrite Z.mul_comm. apply Z.mod_mul. lia. }
  destruct (freerange_loop_ok PHYSTOP) with (n := Z.to_nat ((PHYSTOP - PGROUNDUP kend) `div` PGSIZE)) (k := k) (l := @nil Z) (p := PGROUNDUP kend)
    (fuel := S (Z.to_nat ((PHYSTOP - PGROUNDUP kend) `div` PGSIZE)))
    as (k' & l' & -> & K' & Hq & Hpg); try done; try lia.
  - split; cbn; try done. constructor.
  - intros q Hq. by apply not_elem_of_nil in Hq.
  - unfold PGSIZE in *. div_lia.
  - exists k', l'. split; [done|]. split; [done|]. split; [|done]. intros q. rewrite Hq. unfold page_addr, PGSIZE in *. split.
    + intros [Hx|?]; [by apply not_elem_of_nil in Hx|lia].
    + intros (Hq0 & Hq1 & Hq2). right. split; [done|].
      assert (PHYSTOP = 4096 * 557056)%Z as HP by reflexivity. div_lia.
Qed.
End proofs.

(** ** The interface of the page tables *)
Class PageStore (M : Type) := {
  pg_get : M -> Z -> outcome bytes;
  pg_set : M -> Z -> bytes -> outcome M;
  pg_kalloc : M -> outcome (M * Z);
  pg_kfree : M -> Z -> outcome M
}.

(** [pg_rep m A F]: the pages in use with their contents, and the free pages;
    [pg_heap]: the pages that may be given to [kfree]. *)
Class PageLaws (M : Type) `{PageStore M} := {
  pg_rep : M -> gmap Z bytes -> gset Z -> Prop;
  pg_heap : Z -> Prop;
  pg_heap_addr : forall p, pg_heap p -> (p `mod` PGSIZE = 0 /\ 0 < p < 4294967296)%Z;
  pg_used_ok : forall m A F p d, pg_rep m A F -> A !! p = Some d -> page_ok d;
  pg_free_ok : forall m A F p, pg_rep m A F -> p ∈ F -> pg_heap p /\ A !! p = None;
  pg_get_ok : forall m A F p d, pg_rep m A F -> A !! p = Some d -> pg_get m p = Ret d;
  pg_set_ok : forall m A F p d, pg_rep m A F -> is_Some (A !! p) -> page_ok d ->
    exists m', pg_set m p d = Ret m' /\ pg_rep m' (<[p := d]> A) F;
  pg_kalloc_none : forall m A, pg_rep m A ∅ -> pg_kalloc m = Ret (m, 0%Z);
  pg_kalloc_some : forall m A F, pg_rep m A F -> F <> ∅ ->
    exists m' p, pg_kalloc m = Ret (m', p) /\ p ∈ F /\ pg_rep m' (<[p := junk 5]> A) (F ∖ {[p]});
  pg_kfree_ok : forall m A F p, pg_rep m A F -> is_Some (A !! p) -> pg_heap p ->
    exists m', pg_kfree m p = Ret m' /\ pg_rep m' (delete p A) ({[p]} ∪ F)
}.

#[export] Instance kmem_store (kend : Z) : PageStore kmem := {|
  pg_get := get_page;
  pg_set := set_page;
  pg_kalloc := kalloc;
  pg_kfree := kfree kend
|}.

Definition kmem_rep (kend : Z) (k : kmem) (A : gmap Z bytes) (F : gset Z) : Prop :=
  exists l, kmem_ok kend k l /\ F = list_to_set l /\
    forall p, A !! p = if decide (p ∈ l) then None else km_pages k !! p.

Lemma kmem_rep_in kend k A F p d : kmem_rep kend k A F -> A !! p = Some d ->
  exists l, kmem_ok kend k l /\ F = list_to_set l /\ (p ∉ l) /\ km_pages k !! p = Some d /\
    forall q, A !! q = if decide (q ∈ l) then None else km_pages k !! q.
Proof.
  intros (l & K & HF & HA) Hp. exists l. pose proof (HA p) as Hp'. rewrite Hp in Hp'. case_decide; [done|]. done.
Qed.

#[export] Instance kmem_laws (kend : Z) (Hk : (0 < kend)%Z) : PageLaws kmem (H := kmem_store kend).
Proof.
  refine {| pg_rep := kmem_rep kend; pg_heap := page_addr kend |}.
  - intros p Hp. pose proof (page_addr_range kend Hk p Hp). split; [apply Hp|lia].
  - intros m A F p d R Hp. destruct (kmem_rep_in _ _ _ _ _ _ R Hp) as (l & K & _ & _ & Hd & _). by eapply (ko_pages _ _ _ K).
  - intros m A F p (l & K & -> & HA) Hp. apply elem_of_list_to_set in Hp. split; [by eapply Forall_forall; [apply (ko_addr _ _ _ K)|]|].
    rewrite HA. by rewrite decide_True.
  - intros m A F p d R Hp. destruct (kmem_rep_in _ _ _ _ _ _ R Hp) as (l & _ & _ & _ & Hd & _). cbn. unfold get_page. by rewrite Hd.
  - intros m A F p d R [d0 Hp] Hd. destruct (kmem_rep_in _ _ _ _ _ _ R Hp) as (l & K & HF & Hnin & Hd0 & HA).
    destruct (set_page_ok kend m l p d K Hnin) as (m' & E & Em & K'); [by eexists|done|].
    exists m'. split; [done|]. exists l. split; [done|]. split; [done|]. intros q. rewrite Em.
    destruct (decide (p = q)) as [->|Hne]; [rewrite !lookup_insert_eq; by rewrite decide_False|].
    rewrite !lookup_insert_ne by done. apply HA.
  - intros m A (l & K & HF & HA). pose proof (kalloc_ok kend Hk m l K) as Hal.
    destruct l as [|a l]; [done|]. cbn in HF. set_solver.
  - intros m A F (l & K & HF & HA) Hne. pose proof (kalloc_ok kend Hk m l K) as Hal.
    destruct l as [|a l]; [by subst|]. destruct Hal as (m' & E & Em & K'). exists m', a. split; [done|].
    pose proof (ko_nodup _ _ _ K) as Hnd. apply NoDup_cons in Hnd as [Ha Hnd].
    split; [subst; set_solver|]. exists l. split; [done|]. split; [subst; cbn; set_solver|]. intros q. rewrite Em.
    destruct (decide (a = q)) as [->|Hqa]; [rewrite !lookup_insert_eq; by rewrite decide_False|].
    rewrite !lookup_insert_ne, HA by done. by destruct (decide (q ∈ l)) as [Hq|Hq];
      [rewrite decide_True by set_solver|rewrite decide_False by set_solver].
  - intros m A F p R [d Hp] Hh. destruct (kmem_rep_in _ _ _ _ _ _ R Hp) as (l & K & HF & Hnin & Hd0 & HA).
    destruct (kfree_ok kend Hk m l p K Hh Hnin) as (m' & E & Em & K'). exists m'. split; [done|]. exists (p :: l).
    split; [done|]. split; [subst; cbn; set_solver|]. intros q.
    destruct (decide (p = q)) as [->|Hqa]; [rewrite lookup_delete_eq; by rewrite decide_True by set_solver|].
    rewrite lookup_delete_ne, HA, Em by done. by destruct (decide (q ∈ l)) as [Hq|Hq];
      [rewrite decide_True by set_solver|rewrite decide_False by set_solver].
Defined.

(** ** Claim *)

(** Histories: [kalloc], [kfree] of a page that was allocated and not yet freed,
    and writes to pages that are not free; the second component is the set of
    the pages in use. *)
Inductive kmstep (kend : Z) : kmem * gset Z -> kmem * gset Z -> Prop :=
| km_alloc k U k' p : kalloc k = Ret (k', p) -> p <> 0%Z -> kmstep kend (k, U) (k', {[p]} ∪ U)
| km_free k U k' p : p ∈ U -> kfree kend k p = Ret k' -> kmstep kend (k, U) (k', U ∖ {[p]})
| km_write k U k' p d : p ∈ U \/ ~ page_addr kend p -> page_ok d -> set_page k p d = Ret k' -> kmstep kend (k, U) (k', U).

Record shared (kend : Z) (k : kmem) (U : gset Z) (l : list Z) : Prop := {
  sh_ok : kmem_ok kend k l;
  sh_all : forall p, page_addr kend p <-> p ∈ l \/ p ∈ U;
  sh_disj : forall p, p ∈ l -> p ∉ U
}.

(** The same call again. *)
Ltac again := match goal with E : ?c = Ret _, E' : ?c = Ret _ |- _ => rewrite E in E'; simplify_eq end.

Lemma shared_step kend k U k' U' l : (0 < kend)%Z -> shared kend k U l -> kmstep kend (k, U) (k', U') ->
  exists l', shared kend k' U' l'.
Proof.
  intros Hk [K HA HD] Hs. inversion Hs; subst.
  - pose proof (kalloc_ok kend Hk k l K) as Hal. destruct l as [|a l]; [congruence|]. destruct Hal as (k1 & E & _ & K1). again.
    pose proof (ko_nodup _ _ _ K) as Hnd. apply NoDup_cons in Hnd as [Ha _].
    exists l. split; [done| |]; [intros q; rewrite HA; set_solver|]. intros q Hq. pose proof (HD q). set_solver.
  - assert (page_addr kend p) as Hp by (apply HA; by right). assert (p ∉ l) as Hnl by (intros Hl; by apply (HD p)).
    destruct (kfree_ok kend Hk k l p K Hp Hnl) as (k1 & E & _ & K1). again.
    exists (p :: l). split; [done| |].
    + intros q. rewrite HA. destruct (decide (q = p)); set_solver.
    + intros q [->|Hq]%elem_of_cons; [set_solver|]. pose proof (HD q Hq). set_solver.
  - match goal with Hw : _ \/ ~ _ |- _ => rename Hw into Hor end.
    match goal with Hw : set_page _ _ _ = _ |- _ => rename Hw into Es end.
    assert (is_Some (km_pages k !! p)) as Hsome.
    { unfold set_page, get_page in Es. destruct (km_pages k !! p) eqn:E; [by eexists|done]. }
    assert (p ∉ l) as Hnl by (intros Hl; destruct Hor as [HU|Hno]; [by apply (HD p)|apply Hno, HA; by left]).
    destruct (set_page_ok kend k l p d K Hnl Hsome) as (k1 & E & _ & K1); [done|]. again. by exists l.
Qed.

(** C28.  No page is lost and none is given out twice.  [kinit] returns; and in
    every history of allocations, releases and writes to allocated pages that
    follows, [kalloc] returns a page of the heap that is not in use, filled with
    junk, and it returns 0 exactly when all pages of the heap are in use; the
    release of any page in use returns, and the next [kalloc] gives it out
    again.  The free list runs through the free pages themselves, so that this
    is also a statement about the writes: none of them breaks the list. *)
Theorem pages_conserved (kend : Z) (k0 : kmem) (Hk : (0 < kend <= PHYSTOP)%Z) (Hraw : raw_memory kend k0) :
  exists k1, kinit kend k0 = Ret k1 /\ forall k U, rtc (kmstep kend) (k1, ∅) (k, U) ->
  ((forall p, page_addr kend p -> p ∈ U) /\ kalloc k = Ret (k, 0%Z) \/
   exists k' p, kalloc k = Ret (k', p) /\ page_addr kend p /\ (p ∉ U) /\ get_page k' p = Ret (junk 5)) /\
  (forall p, p ∈ U -> page_addr kend p /\ exists k' k2, kfree kend k p = Ret k' /\ kalloc k' = Ret (k2, p)).
Proof.
  destruct (kinit_ok kend ltac:(lia) k0 Hraw ltac:(lia)) as (k1 & l0 & E & K0 & Hl & _). exists k1. split; [done|]. intros k U Hr.
  assert (exists l, shared kend k U l) as [l [K HA HD]].
  { remember (k1, ∅) as s eqn:Es. remember (k, U) as s' eqn:Es'.
    assert (exists l, shared kend s.1 s.2 l) as Hsh.
    { subst s. exists l0. split; cbn; [done| |set_solver]. intros p. rewrite <-Hl. set_solver. }
    clear Es. induction Hr as [|[a Ua] [b Ub] c Hab _ IH]; [by subst|]. apply IH; [done|].
    destruct Hsh as [la Hla]. by eapply shared_step; [lia| |]. }
  split.
  - pose proof (kalloc_ok kend ltac:(lia) k l K) as Hal. destruct l as [|a l].
    + left. split; [|done]. intros p Hp. apply HA in Hp as [Hp|]; [by apply not_elem_of_nil in Hp|done].
    + right. destruct Hal as (k' & Ea & Ep & _). exists k', a. split; [done|]. split; [apply HA; left; set_solver|].
      split; [apply HD; set_solver|]. unfold get_page. by rewrite Ep, lookup_insert_eq.
  - intros p Hp. assert (page_addr kend p) as Ha by (apply HA; by right). split; [done|].
    destruct (kfree_ok kend ltac:(lia) k l p K Ha) as (k' & Ef & _ & K'); [intros Hl'; by apply (HD p)|].
    pose proof (kalloc_ok kend ltac:(lia) k' _ K') as (k2 & E2 & _). by exists k', k2.
Qed.

(** A machine with [n] pages. *)
Definition demo_end (n : nat) : Z := PHYSTOP - PGSIZE * Z.of_nat n.
Definition demo_pages (n : nat) : list Z := (fun i => demo_end n + PGSIZE * Z.of_nat i)%Z <$> seq 0 n.
Definition demo_memory (n : nat) : kmem := mk_kmem (list_to_map ((fun p => (p, junk 0)) <$> demo_pages n)) 0.

Lemma elem_of_demo_pages n p : n < 1000 -> p ∈ demo_pages n <-> page_addr (demo_end n) p.
Proof.
  intros Hn. unfold demo_pages, page_addr, demo_end, PHYSTOP, KERNBASE, PGSIZE. rewrite list_elem_of_fmap. split.
  - intros (i & -> & Hi). apply elem_of_seq in Hi. div_lia.
  - intros [Hm Hp]. exists (Z.to_nat ((p - (2147483648 + 128 * 1024 * 1024 - 4096 * Z.of_nat n)) `div` 4096)).
    rewrite elem_of_seq. div_lia.
Qed.

Lemma demo_pages_NoDup n : NoDup (demo_pages n).
Proof. apply NoDup_fmap_2; [|apply NoDup_seq]. intros i j E. unfold PGSIZE in E. lia. Qed.

Lemma demo_range n : n < 1000 -> (0 < demo_end n <= PHYSTOP)%Z.
Proof. unfold demo_end, PHYSTOP, KERNBASE, PGSIZE. lia. Qed.

Lemma demo_lookup n p d : km_pages (demo_memory n) !! p = Some d <-> p ∈ demo_pages n /\ d = junk 0.
Proof.
  cbn. rewrite <-elem_of_list_to_map.
  - rewrite list_elem_of_fmap. split; [intros (q & E & Hq); by simplify_eq|]. intros [Hp ->]. by exists p.
  - rewrite <-list_fmap_compose. rewrite (list_fmap_ext _ id); [rewrite list_fmap_id; apply demo_pages_NoDup|done].
Qed.

Lemma demo_raw n : n < 1000 -> raw_memory (demo_end n) (demo_memory n).
Proof.
  intros Hn. split; [done| |].
  - intros p d Hd. apply demo_lookup in Hd as [_ ->]. by apply (junk_ok 0).
  - intros p Hp. exists (junk 0). apply demo_lookup. by rewrite elem_of_demo_pages.
Qed.

(** After [kinit] all of them are free. *)
Lemma demo_boot n : n < 1000 -> exists k F, kinit (demo_end n) (demo_memory n) = Ret k /\ kmem_rep (demo_end n) k ∅ F /\ size F = n.
Proof.
  intros Hn. pose proof (demo_range n Hn) as Hr.
  destruct (kinit_ok (demo_end n) ltac:(lia) (demo_memory n) (demo_raw n Hn) ltac:(lia)) as (k & l & E & K & Hl & Hp).
  exists k, (list_to_set l). split; [done|]. split.
  - exists l. split; [done|]. split; [done|]. intros p. rewrite lookup_empty. case_decide as Hx; [done|].
    destruct (km_pages k !! p) as [d|] eqn:Ed; [|done]. destruct Hx. apply Hl. rewrite <-elem_of_demo_pages by done.
    assert (is_Some (km_pages (demo_memory n) !! p)) as [d' Hd'] by (apply Hp; by eexists). by apply demo_lookup in Hd' as [? _].
  - rewrite size_list_to_set by (by apply (ko_nodup _ _ _ K)).
    assert (length (demo_pages n) = n) as <- by (unfold demo_pages; by rewrite length_fmap, length_seq).
    apply Permutation_length, NoDup_Permutation; [apply K|apply demo_pages_NoDup|].
    intros p. rewrite Hl. symmetry. by apply elem_of_demo_pages.
Qed.

Lemma pages_conserved_witness : exists k1 k' p, kinit (demo_end 2) (demo_memory 2) = Ret k1 /\ kalloc k1 = Ret (k', p) /\ p <> 0%Z.
Proof.
  assert (2 < 1000) as H2 by lia. pose proof (demo_range 2 H2) as Hk.
  destruct (pages_conserved (demo_end 2) (demo_memory 2) Hk (demo_raw 2 H2)) as (k1 & E & Hall1).
  destruct (Hall1 k1 ∅ (rtc_refl _ _)) as [[[Hall _]|(k' & p & Ea & Hp & _ & _)] _].
  - exfalso. assert (demo_end 2 ∈ (∅ : gset Z)) as Hx.
    { apply Hall. unfold page_addr, demo_end, PHYSTOP, KERNBASE, PGSIZE. split; [reflexivity|lia]. }
    by apply not_elem_of_empty in Hx.
  - exists k1, k', p. split; [exact E|]. split; [exact Ea|]. destruct Hp as [_ Hp]. lia.
Defined.
