(* ===== verification/Vm.v ===== *)
(** * Virtual memory (xv6/kernel/vm.c, and its callers in proc.c)

    Page tables in memory: a page table is a page of 512 entries of eight bytes,
    read and written in the memory of [Kalloc] through its interface.  A pointer
    to an entry is the pair of the page and the index.  Addresses are 64-bit
    unsigned, with the wrap-around written out.  The buffers of the kernel that
    are copied to and from user memory are lists of bytes.

    The functions that only set machine registers ([kvminithart]) and the
    construction of the kernel's own table from the device addresses
    ([kvmmake]) are left out. *)

From S2P Require Import Prelude.
From S2P Require Import Bytes.
From S2P Require Import Kstring.
From S2P Require Import Kalloc.

Definition MAXVA : Z := Z.shiftl 1 (9 + 9 + 9 + 12 - 1).
Definition TRAMPOLINE : Z := MAXVA - PGSIZE.
Definition TRAPFRAME : Z := TRAMPOLINE - PGSIZE.
Definition PTE_V : Z := Z.shiftl 1 0.
Definition PTE_R : Z := Z.shiftl 1 1.
Definition PTE_W : Z := Z.shiftl 1 2.
Definition PTE_X : Z := Z.shiftl 1 3.
Definition PTE_U : Z := Z.shiftl 1 4.

Definition PA2PTE (pa : Z) : Z := Z.shiftl (Z.shiftr pa 12) 10.
Definition PTE2PA (pte : Z) : Z := u64 (Z.shiftl (Z.shiftr pte 10) 12).
Definition PTE_FLAGS (pte : Z) : Z := Z.land pte 1023.
Definition PXSHIFT (level : nat) : Z := 12 + 9 * Z.of_nat level.
Definition PX (level : nat) (va : Z) : nat := Z.to_nat (Z.land (Z.shiftr va (PXSHIFT level)) 511).

(** [pte & flag] as a condition *)
Definition has (pte flag : Z) : bool := negb (Z.land pte flag =? 0)%Z.

Section vm.
Context {M : Type} `{PageStore M}.
Implicit Types (m : M) (pt va pa sz psz : Z).

Definition pte_load m (pte : Z * nat) : outcome Z :=
  let* d := pg_get m pte.1 in Ret (get_le 8 d (8 * pte.2)).
Definition pte_store m (pte : Z * nat) (v : Z) : outcome M :=
  let* d := pg_get m pte.1 in pg_set m pte.1 (put_le 8 d (8 * pte.2) v).

(** [memset(pa, c, PGSIZE)] *)
Definition fill_page m pa (c : Z) : outcome M :=
  let* d := pg_get m pa in
  let* d := memset d 0 c PGBYTES in
  pg_set m pa d.

(** ** Page tables *)
Fixpoint walk_loop m pt va (alloc : bool) (level : nat) : outcome (M * option (Z * nat)) :=
  match level with
  | O => Ret (m, Some (pt, PX 0 va))
  | S l =>
      let* pte := pte_load m (pt, PX level va) in
      if has pte PTE_V then walk_loop m (PTE2PA pte) va alloc l
      else if negb alloc then Ret (m, None)
      else
        let* '(m, child) := pg_kalloc m in
        if (child =? 0)%Z then Ret (m, None)
        else
          let* m := fill_page m child 0 in
          let* m := pte_store m (pt, PX level va) (Z.lor (PA2PTE child) PTE_V) in
          walk_loop m child va alloc l
  end.

Definition walk m pt va (alloc : bool) : outcome (M * option (Z * nat)) :=
  if (MAXVA <=? va)%Z then Panic "walk" else walk_loop m pt va alloc 2.

Definition walkaddr m pt va : outcome (M * Z) :=
  if (MAXVA <=? va)%Z then Ret (m, 0%Z)
  else
    let* '(m, r) := walk m pt va false in
    match r with
    | None => Ret (m, 0%Z)
    | Some p =>
        let* pte := pte_load m p in
        if negb (has pte PTE_V) then Ret (m, 0%Z)
        else if negb (has pte PTE_U) then Ret (m, 0%Z)
        else Ret (m, PTE2PA pte)
    end.

(** One round per page. *)
Fixpoint mappages_loop m pt (a last pa perm : Z) (fuel : nat) : outcome (M * Z) :=
  match fuel with
  | O => NoFuel
  | S fuel =>
      let* '(m, r) := walk m pt a true in
      match r with
      | None => Ret (m, (-1)%Z)
      | Some p =>
          let* pte := pte_load m p in
          if has pte PTE_V then Panic "mappages: remap"
          else
            let* m := pte_store m p (Z.lor (Z.lor (PA2PTE pa) perm) PTE_V) in
            if (a =? last)%Z then Ret (m, 0%Z)
            else mappages_loop m pt (u64 (a + PGSIZE)) last (u64 (pa + PGSIZE)) perm fuel
      end
  end.

Definition mappages m pt va (size pa perm : Z) : outcome (M * Z) :=
  if negb (va `mod` PGSIZE =? 0)%Z then Panic "mappages: va not aligned"
  else if negb (size `mod` PGSIZE =? 0)%Z then Panic "mappages: size not aligned"
  else if (size =? 0)%Z then Panic "mappages: size"
  else mappages_loop m pt va (u64 (va + size - PGSIZE)) pa perm (Z.to_nat (size `div` PGSIZE)).

Definition kvmmap m kpgtbl va pa (sz perm : Z) : outcome M :=
  let* '(m, r) := mappages m kpgtbl va sz pa perm in
  if negb (r =? 0)%Z then Panic "kvmmap" else Ret m.

Definition uvmcreate m : outcome (M * Z) :=
  let* '(m, pt) := pg_kalloc m in
  if (pt =? 0)%Z then Ret (m, 0%Z)
  else
    let* m := fill_page m pt 0 in
    Ret (m, pt).

Fixpoint uvmunmap_loop m pt (a last : Z) (do_free : bool) (fuel : nat) : outcome M :=
  match fuel with
  | O => NoFuel
  | S fuel =>
      if (a <? last)%Z then
        let* '(m, r) := walk m pt a false in
        match r with
        | None => uvmunmap_loop m pt (u64 (a + PGSIZE)) last do_free fuel
        | Some p =>
            let* pte := pte_load m p in
            if negb (has pte PTE_V) then uvmunmap_loop m pt (u64 (a + PGSIZE)) last do_free fuel
            else
              let* m := if do_free then pg_kfree m (PTE2PA pte) else Ret m in
              let* m := pte_store m p 0 in
              uvmunmap_loop m pt (u64 (a + PGSIZE)) last do_free fuel
        end
      else Ret m
  end.

Definition uvmunmap m pt va (npages : Z) (do_free : bool) : outcome M :=
  if negb (va `mod` PGSIZE =? 0)%Z then Panic "uvmunmap: not aligned"
  else uvmunmap_loop m pt va (u64 (va + npages * PGSIZE)) do_free (S (Z.to_nat npages)).

Definition uvmdealloc m pt (oldsz newsz : Z) : outcome (M * Z) :=
  if (oldsz <=? newsz)%Z then Ret (m, oldsz)
  else
    let* m :=
      if (PGROUNDUP newsz <? PGROUNDUP oldsz)%Z then
        let npages := wrap32 ((PGROUNDUP oldsz - PGROUNDUP newsz) `div` PGSIZE) in
        uvmunmap m pt (PGROUNDUP newsz) (u64 npages) true
      else Ret m in
    Ret (m, newsz).

(** [oldsz] is the rounded size. *)
Fixpoint uvmalloc_loop m pt (a oldsz newsz xperm : Z) (fuel : nat) : outcome (M * Z) :=
  match fuel with
  | O => NoFuel
  | S fuel =>
      if (a <? newsz)%Z then
        let* '(m, mem) := pg_kalloc m in
        if (mem =? 0)%Z then
          let* '(m, _) := uvmdealloc m pt a oldsz in Ret (m, 0%Z)
        else
          let* m := fill_page m mem 0 in
          let* '(m, r) := mappages m pt a PGSIZE mem (Z.lor (Z.lor PTE_R PTE_U) xperm) in
          if negb (r =? 0)%Z then
            let* m := pg_kfree m mem in
            let* '(m, _) := uvmdealloc m pt a oldsz in Ret (m, 0%Z)
          else uvmalloc_loop m pt (u64 (a + PGSIZE)) oldsz newsz xperm fuel
      else Ret (m, newsz)
  end.

Definition uvmalloc m pt (oldsz newsz xperm : Z) : outcome (M * Z) :=
  if (newsz <? oldsz)%Z then Ret (m, oldsz)
  else
    let oldsz := PGROUNDUP oldsz in
    uvmalloc_loop m pt oldsz oldsz newsz xperm (S (Z.to_nat ((newsz - oldsz + PGSIZE - 1) `div` PGSIZE))).

(** The loop of [freewalk] over the entries, [rec] being its recursive call. *)
Fixpoint freewalk_loop (rec : M -> Z -> outcome M) m pt (i k : nat) : outcome M :=
  match k with
  | O => Ret m
  | S k =>
      let* pte := pte_load m (pt, i) in
      if has pte PTE_V && negb (has pte (Z.lor (Z.lor PTE_R PTE_W) PTE_X)) then
        let* m := rec m (PTE2PA pte) in
        let* m := pte_store m (pt, i) 0 in
        freewalk_loop rec m pt (S i) k
      else if has pte PTE_V then Panic "freewalk: leaf"
      else freewalk_loop rec m pt (S i) k
  end.

(** The recursion is bounded: a page table has three levels. *)
Fixpoint freewalk (depth : nat) m pt : outcome M :=
  match depth with
  | O => NoFuel
  | S depth =>
      let* m := freewalk_loop (freewalk depth) m pt 0 512 in
      pg_kfree m pt
  end.

Definition uvmfree m pt sz : outcome M :=
  let* m := if (0 <? sz)%Z then uvmunmap m pt 0 (PGROUNDUP sz `div` PGSIZE) true else Ret m in
  freewalk 3 m pt.

(** ** Copying *)
Definition uvmcopy_fail m (new i : Z) : outcome (M * Z) :=
  let* m := uvmunmap m new 0 (i `div` PGSIZE) true in Ret (m, (-1)%Z).

Fixpoint uvmcopy_loop m (old new sz i : Z) (fuel : nat) : outcome (M * Z) :=
  match fuel with
  | O => NoFuel
  | S fuel =>
      if (i <? sz)%Z then
        let* '(m, r) := walk m old i false in
        match r with
        | None => uvmcopy_loop m old new sz (u64 (i + PGSIZE)) fuel
        | Some p =>
            let* pte := pte_load m p in
            if negb (has pte PTE_V) then uvmcopy_loop m old new sz (u64 (i + PGSIZE)) fuel
            else
              let pa := PTE2PA pte in
              let flags := PTE_FLAGS pte in
              let* '(m, mem) := pg_kalloc m in
              if (mem =? 0)%Z then uvmcopy_fail m new i
              else
                let* d := pg_get m pa in
                let* m := pg_set m mem d in
                let* '(m, r) := mappages m new i PGSIZE mem flags in
                if negb (r =? 0)%Z then
                  let* m := pg_kfree m mem in
                  uvmcopy_fail m new i
                else uvmcopy_loop m old new sz (u64 (i + PGSIZE)) fuel
        end
      else Ret (m, 0%Z)
  end.

Definition uvmcopy m (old new sz : Z) : outcome (M * Z) :=
  uvmcopy_loop m old new sz 0 (S (Z.to_nat ((sz + PGSIZE - 1) `div` PGSIZE))).

Definition uvmclear m pt va : outcome M :=
  let* '(m, r) := walk m pt va false in
  match r with
  | None => Panic "uvmclear"
  | Some p => let* pte := pte_load m p in pte_store m p (Z.ldiff pte PTE_U)
  end.

Definition ismapped m pt va : outcome (M * bool) :=
  let* '(m, r) := walk m pt va false in
  match r with
  | None => Ret (m, false)
  | Some p => let* pte := pte_load m p in Ret (m, has pte PTE_V)
  end.

Definition vmfault m pt psz va : outcome (M * Z) :=
  if (psz <=? va)%Z then Ret (m, 0%Z)
  else
    let va := PGROUNDDOWN va in
    let* '(m, b) := ismapped m pt va in
    if b : bool then Ret (m, 0%Z)
    else
      let* '(m, mem) := pg_kalloc m in
      if (mem =? 0)%Z then Ret (m, 0%Z)
      else
        let* m := fill_page m mem 0 in
        let* '(m, r) := mappages m pt va PGSIZE mem (Z.lor (Z.lor PTE_W PTE_U) PTE_R) in
        if negb (r =? 0)%Z then let* m := pg_kfree m mem in Ret (m, 0%Z)
        else Ret (m, mem).

(** The physical page of a user address, faulted in where needed: the common
    beginning of the rounds of the three copy functions. *)
Definition user_page m pt psz va0 : outcome (M * Z) :=
  let* '(m, pa0) := walkaddr m pt va0 in
  if (pa0 =? 0)%Z then vmfault m pt psz va0 else Ret (m, pa0).

Fixpoint copyout_loop m pt psz (dstva : Z) (src : bytes) (fuel : nat) : outcome (M * Z) :=
  match fuel with
  | O => NoFuel
  | S fuel =>
      if (0 <? Z.of_nat (length src))%Z then
        let va0 := PGROUNDDOWN dstva in
        if (MAXVA <=? va0)%Z then Ret (m, (-1)%Z)
        else
          let* '(m, pa0) := user_page m pt psz va0 in
          if (pa0 =? 0)%Z then Ret (m, (-1)%Z)
          else
            let* '(m, r) := walk m pt va0 false in
            let* p := from_option r in
            let* pte := pte_load m p in
            if negb (has pte PTE_W) then Ret (m, (-1)%Z)
            else
              let n := Z.to_nat (Z.min (PGSIZE - (dstva - va0)) (Z.of_nat (length src))) in
              let* d := pg_get m pa0 in
              let* m := pg_set m pa0 (splice (Z.to_nat (dstva - va0)) (take n src) d) in
              copyout_loop m pt psz (u64 (va0 + PGSIZE)) (drop n src) fuel
      else Ret (m, 0%Z)
  end.

Definition copy_fuel (len : nat) : nat := Z.to_nat (Z.of_nat len `div` PGSIZE) + 3.

Definition copyout m pt psz (dstva : Z) (src : bytes) : outcome (M * Z) :=
  copyout_loop m pt psz dstva src (copy_fuel (length src)).

(** [dst]: what was stored so far. *)
Fixpoint copyin_loop m pt psz (dst : bytes) (srcva : Z) (len : nat) (fuel : nat) : outcome (M * bytes * Z) :=
  match fuel with
  | O => NoFuel
  | S fuel =>
      if (0 <? Z.of_nat len)%Z then
        let va0 := PGROUNDDOWN srcva in
        let* '(m, pa0) := user_page m pt psz va0 in
        if (pa0 =? 0)%Z then Ret (m, dst, (-1)%Z)
        else
          let n := Z.to_nat (Z.min (PGSIZE - (srcva - va0)) (Z.of_nat len)) in
          let* d := pg_get m pa0 in
          copyin_loop m pt psz (dst ++ slice (Z.to_nat (srcva - va0)) n d) (u64 (va0 + PGSIZE)) (len - n) fuel
      else Ret (m, dst, 0%Z)
  end.

Definition copyin m pt psz (srcva : Z) (len : nat) : outcome (M * bytes * Z) :=
  copyin_loop m pt psz [] srcva len (copy_fuel len).

(** The inner loop of [copyinstr] over [n] bytes of a page: the bytes stored
    and whether one of them was the NUL. *)
Fixpoint copy_string (d : bytes) (p n : nat) (dst : bytes) : outcome (bytes * bool) :=
  match n with
  | O => Ret (dst, false)
  | S n =>
      let* c := load d p in
      if (c =? 0)%Z then Ret (dst ++ [0%Z], true) else copy_string d (S p) n (dst ++ [c])
  end.

Fixpoint copyinstr_loop m pt psz (dst : bytes) (srcva : Z) (max : nat) (fuel : nat) : outcome (M * bytes * Z) :=
  match fuel with
  | O => NoFuel
  | S fuel =>
      if (0 <? Z.of_nat max)%Z then
        let va0 := PGROUNDDOWN srcva in
        let* '(m, pa0) := user_page m pt psz va0 in
        if (pa0 =? 0)%Z then Ret (m, dst, (-1)%Z)
        else
          let n := Z.to_nat (Z.min (PGSIZE - (srcva - va0)) (Z.of_nat max)) in
          let* d := pg_get m pa0 in
          let* '(dst, got_null) := copy_string d (Z.to_nat (srcva - va0)) n dst in
          if got_null : bool then Ret (m, dst, 0%Z)
          else copyinstr_loop m pt psz dst (u64 (va0 + PGSIZE)) (max - n) fuel
      else Ret (m, dst, (-1)%Z)
  end.

Definition copyinstr m pt psz (srcva : Z) (max : nat) : outcome (M * bytes * Z) :=
  copyinstr_loop m pt psz [] srcva max (copy_fuel max).

(** ** Address spaces of processes (proc.c) *)

(** The new [p->sz] and the result. *)
Definition growproc m pt sz (n : Z) : outcome (M * Z * Z) :=
  if (0 <? n)%Z then
    if (TRAPFRAME <? u64 (sz + n))%Z then Ret (m, sz, (-1)%Z)
    else
      let* '(m, r) := uvmalloc m pt sz (u64 (sz + n)) PTE_W in
      if (r =? 0)%Z then Ret (m, sz, (-1)%Z) else Ret (m, r, 0%Z)
  else if (n <? 0)%Z then
    let* '(m, r) := uvmdealloc m pt sz (u64 (sz + n)) in
    Ret (m, r, 0%Z)
  else Ret (m, sz, 0%Z).

Definition proc_pagetable m (trampoline trapframe : Z) : outcome (M * Z) :=
  let* '(m, pt) := uvmcreate m in
  if (pt =? 0)%Z then Ret (m, 0%Z)
  else
    let* '(m, r) := mappages m pt TRAMPOLINE PGSIZE trampoline (Z.lor PTE_R PTE_X) in
    if (r <? 0)%Z then let* m := uvmfree m pt 0 in Ret (m, 0%Z)
    else
      let* '(m, r) := mappages m pt TRAPFRAME PGSIZE trapframe (Z.lor PTE_R PTE_W) in
      if (r <? 0)%Z then
        let* m := uvmunmap m pt TRAMPOLINE 1 false in
        let* m := uvmfree m pt 0 in Ret (m, 0%Z)
      else Ret (m, pt).

Definition proc_freepagetable m pt sz : outcome M :=
  let* m := uvmunmap m pt TRAMPOLINE 1 false in
  let* m := uvmunmap m pt TRAPFRAME 1 false in
  uvmfree m pt sz.
End vm.
