(* ===== verification/PageTable.v ===== *)
(** * Page tables: proofs

    The tree of the page-table pages under a root.  The ghost map [N] gives
    every page of the tree its level and its position (the high bits of the
    addresses it serves); [pte_at A root v] is the entry that the tree assigns
    to the virtual page number [v] and 0 where it has none.  [walk] finds this
    entry and, with [alloc], extends the tree without changing any of them. *)

From S2P Require Import Prelude.
From S2P Require Import Bytes.
From S2P Require Import Kstring.
From S2P Require Import Kalloc.
From S2P Require Import Vm.

(** ** Entries *)
Lemma PA2PTE_eq pa : (0 <= pa)%Z -> PA2PTE pa = (1024 * (pa `div` 4096))%Z.
Proof.
  intros. unfold PA2PTE. rewrite Z.shiftl_mul_pow2, Z.shiftr_div_pow2 by lia.
  change (2 ^ 12)%Z with 4096%Z. change (2 ^ 10)%Z with 1024%Z. lia.
Qed.

Lemma lor_flags q fl : (0 <= fl < 1024)%Z -> Z.lor (1024 * q) fl = (1024 * q + fl)%Z.
Proof.
  intros Hf. assert (Z.land (1024 * q) fl = 0%Z) as E.
  { apply Z.bits_inj'. intros n Hn. rewrite Z.land_spec, Z.bits_0. change 1024%Z with (2 ^ 10)%Z. rewrite Z.mul_comm.
    destruct (Z.ltb_spec n 10) as [Hlt|Hge]; [by rewrite Z.mul_pow2_bits_low by lia|].
    rewrite andb_comm. rewrite <-(Z.mod_small fl (2 ^ 10)) by lia. by rewrite Z.mod_pow2_bits_high by lia. }
  rewrite <-Z.lxor_lor by done. symmetry. by apply Z.add_nocarry_lxor.
Qed.

(** [Z.lor (PA2PTE pa) fl] for a page address and its flags *)
Definition pte_of (pa fl : Z) : Z := Z.lor (PA2PTE pa) fl.
Definition phys (pa : Z) : Prop := (pa `mod` 4096 = 0 /\ 0 <= pa < 2 ^ 56)%Z.
Definition is_flags (fl : Z) : Prop := (0 <= fl < 1024)%Z.

Lemma pte_of_eq pa fl : phys pa -> is_flags fl -> pte_of pa fl = (1024 * (pa `div` 4096) + fl)%Z.
Proof. intros [_ ?] ?. unfold pte_of. rewrite PA2PTE_eq by lia. by apply lor_flags. Qed.

Lemma pte_of_range pa fl : phys pa -> is_flags fl -> (0 <= pte_of pa fl < 2 ^ 64)%Z.
Proof. intros Hp Hf. rewrite pte_of_eq by done. unfold phys, is_flags in *. div_lia. Qed.

Lemma pte_of_pa pa fl : phys pa -> is_flags fl -> PTE2PA (pte_of pa fl) = pa.
Proof.
  intros Hp Hf. rewrite pte_of_eq by done. unfold PTE2PA, phys, is_flags in *.
  rewrite Z.shiftl_mul_pow2, Z.shiftr_div_pow2 by lia. change (2 ^ 12)%Z with 4096%Z. change (2 ^ 10)%Z with 1024%Z.
  rewrite u64_small; div_lia.
Qed.

Lemma pte_of_flags pa fl : phys pa -> is_flags fl -> PTE_FLAGS (pte_of pa fl) = fl.
Proof.
  intros Hp Hf. rewrite pte_of_eq by done. unfold PTE_FLAGS. change 1023%Z with (Z.ones 10). rewrite Z.land_ones by lia.
  change (2 ^ 10)%Z with 1024%Z. unfold is_flags in Hf. div_lia.
Qed.

Lemma has_flags pte f : is_flags f -> has pte f = has (PTE_FLAGS pte) f.
Proof.
  intros Hf. unfold has, PTE_FLAGS. rewrite <-Z.land_assoc. replace (Z.land 1023 f) with f; [done|].
  rewrite Z.land_comm. change 1023%Z with (Z.ones 10). rewrite Z.land_ones by lia. symmetry. apply Z.mod_small. exact Hf.
Qed.

Lemma pte_of_has pa fl f : phys pa -> is_flags fl -> is_flags f -> has (pte_of pa fl) f = has fl f.
Proof. intros. rewrite has_flags by done. by rewrite pte_of_flags. Qed.

Lemma has_lor a b f : has (Z.lor a b) f = has a f || has b f.
Proof.
  unfold has. rewrite Z.land_comm, Z.land_lor_distr_r, !(Z.land_comm f).
  destruct (Z.eqb_spec (Z.land a f) 0) as [->|Ha]; [by rewrite Z.lor_0_l|]. cbn.
  destruct (Z.eqb_spec (Z.lor (Z.land a f) (Z.land b f)) 0) as [E|]; [|done]. apply Z.lor_eq_0_iff in E as [? _]. done.
Qed.

Lemma is_flags_lor a b : is_flags a -> is_flags b -> is_flags (Z.lor a b).
Proof.
  unfold is_flags. intros Ha Hb. assert (0 <= Z.lor a b)%Z by (apply Z.lor_nonneg; lia). split; [done|].
  destruct (decide (Z.lor a b = 0)%Z) as [->|]; [lia|]. change 1024%Z with (2 ^ 10)%Z. apply Z.log2_lt_pow2; [lia|].
  rewrite Z.log2_lor by lia. apply Z.max_lub_lt.
  - destruct (decide (a = 0)%Z) as [->|]; [simpl; lia|]. apply Z.log2_lt_pow2; lia.
  - destruct (decide (b = 0)%Z) as [->|]; [simpl; lia|]. apply Z.log2_lt_pow2; lia.
Qed.

Lemma is_flags_V : is_flags PTE_V.
Proof. split; by vm_compute. Qed.
#[local] Hint Resolve is_flags_V : core.

(** ** Entries of the pages in use *)
Definition entry (A : gmap Z bytes) (p : Z) (i : nat) : Z := get_le 8 (default [] (A !! p)) (8 * i).
Definition set_entry (A : gmap Z bytes) (p : Z) (i : nat) (v : Z) : gmap Z bytes :=
  <[p := put_le 8 (default [] (A !! p)) (8 * i) v]> A.

Lemma entry_set A p i v p' i' d : A !! p = Some d -> page_ok d -> i < 512 -> i' < 512 -> (0 <= v < 2 ^ 64)%Z ->
  entry (set_entry A p i v) p' i' = if decide (p' = p /\ i' = i) then v else entry A p' i'.
Proof.
  intros Hd [Hl _] Hi Hi' Hv. unfold entry, set_entry. destruct (decide (p' = p)) as [->|Hne].
  - rewrite lookup_insert_eq, Hd. cbn [default id]. unfold PGBYTES, PGSIZE in Hl. case_decide as Hc.
    + destruct Hc as [_ ->]. apply get_put_le; [lia|]. exact Hv.
    + apply get_put_le_ne; [lia|]. assert (i' <> i) by (intros ->; apply Hc; done). lia.
  - rewrite lookup_insert_ne by done. rewrite decide_False by tauto. done.
Qed.

Lemma entry_insert_ne A p d q i : q <> p -> entry (<[p := d]> A) q i = entry A q i.
Proof. intros. unfold entry. by rewrite lookup_insert_ne. Qed.

Lemma entry_zero A p i : i < 512 -> entry (<[p := junk 0]> A) p i = 0%Z.
Proof.
  intros Hi. unfold entry. rewrite lookup_insert_eq. cbn [default id]. unfold get_le, slice, junk.
  rewrite drop_replicate, take_replicate.
  replace (Nat.min 8 (PGBYTES - 8 * i)) with 8 by (unfold PGBYTES, PGSIZE; lia). reflexivity.
Qed.

Lemma has_0 f : has 0 f = false.
Proof. done. Qed.

(** ** Indices *)
Definition pos (l : nat) (v : Z) : Z :=
  match l with O => v `div` 512 | S O => v `div` 262144 | _ => v `div` 134217728 end.

Lemma PX_eq l va : (0 <= va)%Z -> PX l va = Z.to_nat ((va `div` 2 ^ (12 + 9 * Z.of_nat l)) `mod` 512).
Proof.
  intros. unfold PX, PXSHIFT. rewrite Z.shiftr_div_pow2 by lia. change 511%Z with (Z.ones 9). by rewrite Z.land_ones by lia.
Qed.

Lemma PX_lt l va : (0 <= va)%Z -> PX l va < 512.
Proof. intros. rewrite PX_eq by done. pose proof (Z.mod_pos_bound (va `div` 2 ^ (12 + 9 * Z.of_nat l)) 512). lia. Qed.

Lemma PX_0 va : (0 <= va)%Z -> PX 0 va = Z.to_nat ((va `div` 4096) `mod` 512).
Proof. intros. by rewrite PX_eq. Qed.

Lemma PX_pos l va : l <= 1 -> (0 <= va)%Z ->
  pos l (va `div` 4096) = (512 * pos (S l) (va `div` 4096) + Z.of_nat (PX (S l) va))%Z.
Proof.
  intros Hl Hva. rewrite PX_eq by done. destruct l as [|[|]]; [..|lia]; cbn [pos].
  - change (2 ^ (12 + 9 * Z.of_nat 1))%Z with 2097152%Z. div_lia.
  - change (2 ^ (12 + 9 * Z.of_nat 2))%Z with 1073741824%Z. div_lia.
Qed.

Lemma pos_up l v : l <= 1 -> (0 <= v)%Z -> (pos l v `div` 512 = pos (S l) v)%Z.
Proof. intros. destruct l as [|[|]]; [..|lia]; cbn [pos]; div_lia. Qed.

Lemma MAXVA_eq : MAXVA = 274877906944%Z.
Proof. reflexivity. Qed.

Lemma pos_top va : (0 <= va < MAXVA)%Z -> pos 2 (va `div` 4096) = 0%Z.
Proof. rewrite MAXVA_eq. intros. cbn [pos]. div_lia. Qed.

(** ** The tree *)
Fixpoint table_at (A : gmap Z bytes) (pt : Z) (va : Z) (level : nat) : option Z :=
  match level with
  | O => Some pt
  | S l => if has (entry A pt (PX level va)) PTE_V then table_at A (PTE2PA (entry A pt (PX level va))) va l else None
  end.

(** The entry for the virtual page [v] *)
Definition pte_at (A : gmap Z bytes) (root : Z) (v : Z) : Z :=
  match table_at A root (4096 * v) 2 with
  | Some p => entry A p (Z.to_nat (v `mod` 512))
  | None => 0%Z
  end.

(** The number of positions at a level *)
Definition width (l : nat) : Z := match l with O => 131072 | S O => 256 | _ => 1 end.

Section tree.
Context {M : Type} `{PageLaws M}.
Implicit Types (m : M) (A : gmap Z bytes) (F : gset Z) (N : gmap Z (nat * Z)) (p q root : Z).

Record pt_ok A root N : Prop := {
  po_root : N !! root = Some (2, 0%Z);
  po_page : forall p lx, N !! p = Some lx -> is_Some (A !! p) /\ pg_heap p /\ lx.1 <= 2 /\ (0 <= lx.2 < width lx.1)%Z;
  po_top : forall p x, N !! p = Some (2, x) -> p = root;
  po_inj : forall p q lx, N !! p = Some lx -> N !! q = Some lx -> p = q;
  po_down : forall p l x i, N !! p = Some (S l, x) -> i < 512 -> has (entry A p i) PTE_V = true ->
    exists c, entry A p i = pte_of c PTE_V /\ N !! c = Some (l, 512 * x + Z.of_nat i)%Z;
  po_up : forall p l x, N !! p = Some (l, x) -> l <= 1 ->
    exists q, N !! q = Some (S l, x `div` 512)%Z /\ entry A q (Z.to_nat (x `mod` 512)) = pte_of p PTE_V
}.

Lemma heap_phys p : pg_heap p -> phys p.
Proof. intros Hp. apply pg_heap_addr in Hp. unfold phys, PGSIZE in *. lia. Qed.

Lemma has_V c : phys c -> has (pte_of c PTE_V) PTE_V = true.
Proof. intros. by rewrite pte_of_has. Qed.

Section ok.
Context A root N (PT : pt_ok A root N).

Lemma node_phys p lx : N !! p = Some lx -> phys p.
Proof. intros Hp. apply heap_phys. by apply (po_page _ _ _ PT) in Hp as (_ & ? & _). Qed.

(** One level down from the page that serves an address. *)
Lemma down l p va : l <= 1 -> (0 <= va)%Z -> N !! p = Some (S l, pos (S l) (va `div` 4096)) ->
  if has (entry A p (PX (S l) va)) PTE_V
  then N !! (PTE2PA (entry A p (PX (S l) va))) = Some (l, pos l (va `div` 4096))
  else forall q, N !! q <> Some (l, pos l (va `div` 4096)).
Proof.
  intros Hl Hva Hp. destruct (has _ _) eqn:Ev.
  - destruct (po_down _ _ _ PT p l _ (PX (S l) va) Hp (PX_lt _ _ Hva) Ev) as (c & -> & Hc).
    rewrite pte_of_pa by (try done; by eapply node_phys). by rewrite PX_pos.
  - intros q Hq. destruct (po_up _ _ _ PT q l _ Hq Hl) as (p' & Hp' & He).
    rewrite pos_up in Hp' by (try done; div_lia). assert (p' = p) as -> by (by eapply (po_inj _ _ _ PT)).
    assert (Z.to_nat (pos l (va `div` 4096) `mod` 512) = PX (S l) va) as E.
    { rewrite PX_pos by done. pose proof (PX_lt (S l) va Hva). rewrite Z.mul_comm, Z.add_comm, Z.mod_add by lia.
      rewrite Z.mod_small by lia. lia. }
    rewrite E in He. rewrite He, has_V in Ev; [done|by eapply node_phys].
Qed.

Lemma table_at_ok l p va : l <= 2 -> (0 <= va)%Z -> N !! p = Some (l, pos l (va `div` 4096)) ->
  match table_at A p va l with
  | Some q => N !! q = Some (0, pos 0 (va `div` 4096))
  | None => forall q, N !! q <> Some (0, pos 0 (va `div` 4096))
  end.
Proof.
  revert p. induction l as [|l IH]; intros p Hl Hva Hp; cbn [table_at]; [done|].
  pose proof (down l p va ltac:(lia) Hva Hp) as Hd. destruct (has _ _) eqn:Ev; [by apply IH; [lia|..]|].
  destruct l as [|l]; [done|]. assert (l = 0) as -> by lia. intros q Hq.
  destruct (po_up _ _ _ PT q 0 _ Hq ltac:(lia)) as (q' & Hq' & _). rewrite pos_up in Hq' by (try lia; div_lia). by apply (Hd q').
Qed.

Lemma root_pos v : (0 <= v < MAXVA `div` 4096)%Z -> N !! root = Some (2, pos 2 ((4096 * v) `div` 4096)).
Proof. intros Hv. rewrite pos_top by (rewrite MAXVA_eq in *; div_lia). apply PT. Qed.

Lemma page_of_va v : ((4096 * v) `div` 4096 = v)%Z.
Proof. rewrite Z.mul_comm. by apply Z.div_mul. Qed.

Lemma pte_at_some v q : (0 <= v < MAXVA `div` 4096)%Z -> N !! q = Some (0, (v `div` 512)%Z) ->
  table_at A root (4096 * v) 2 = Some q /\ pte_at A root v = entry A q (Z.to_nat (v `mod` 512)).
Proof.
  intros Hv Hq. pose proof (table_at_ok 2 root (4096 * v) ltac:(lia) ltac:(lia) (root_pos v Hv)) as Ht.
  rewrite page_of_va in Ht. cbn [pos] in Ht. unfold pte_at. destruct (table_at A root (4096 * v) 2) as [q'|].
  - assert (q' = q) as -> by (by eapply (po_inj _ _ _ PT)). done.
  - by destruct (Ht q).
Qed.

Lemma pte_at_none v : (0 <= v < MAXVA `div` 4096)%Z -> (forall q, N !! q <> Some (0, (v `div` 512)%Z)) -> pte_at A root v = 0%Z.
Proof.
  intros Hv Hq. pose proof (table_at_ok 2 root (4096 * v) ltac:(lia) ltac:(lia) (root_pos v Hv)) as Ht.
  rewrite page_of_va in Ht. cbn [pos] in Ht. unfold pte_at. destruct (table_at A root (4096 * v) 2) as [q'|]; [|done]. by destruct (Hq q').
Qed.
End ok.

(** The entries depend only on the lowest tables. *)
Lemma pte_at_same A A' root N N' v : pt_ok A root N -> pt_ok A' root N' -> (0 <= v < MAXVA `div` 4096)%Z ->
  (forall q, N !! q = Some (0, (v `div` 512)%Z) ->
     N' !! q = Some (0, (v `div` 512)%Z) /\ entry A' q (Z.to_nat (v `mod` 512)) = entry A q (Z.to_nat (v `mod` 512))) ->
  (forall q, N' !! q = Some (0, (v `div` 512)%Z) -> N !! q = Some (0, (v `div` 512)%Z) \/ entry A' q (Z.to_nat (v `mod` 512)) = 0%Z) ->
  pte_at A' root v = pte_at A root v.
Proof.
  intros PT PT' Hv H1 H2.
  destruct (table_at A' root (4096 * v) 2) as [q'|] eqn:Et.
  - pose proof (table_at_ok A' root N' PT' 2 root (4096 * v) ltac:(lia) ltac:(lia) (root_pos _ _ _ PT' v Hv)) as Ht.
    rewrite Et, page_of_va in Ht. cbn [pos] in Ht. destruct (pte_at_some _ _ _ PT' v q' Hv Ht) as [_ ->].
    destruct (decide (N !! q' = Some (0, (v `div` 512)%Z))) as [Hq|Hq].
    + destruct (H1 q' Hq) as [_ ->]. by destruct (pte_at_some _ _ _ PT v q' Hv Hq) as [_ ->].
    + destruct (H2 q' Ht) as [?|E]; [done|]. rewrite E. symmetry. apply (pte_at_none _ _ _ PT v Hv). intros q Hq'.
      destruct (H1 q Hq') as [Hq2 _]. assert (q = q') as -> by (by eapply (po_inj _ _ _ PT')). done.
  - assert (pte_at A' root v = 0%Z) as -> by (unfold pte_at; by rewrite Et). symmetry.
    apply (pte_at_none _ _ _ PT v Hv). intros q Hq. destruct (H1 q Hq) as [Hq' _].
    destruct (pte_at_some _ _ _ PT' v q Hv Hq') as [E _]. congruence.
Qed.

(** ** Memory operations *)
Lemma pte_load_ok m A F p i : pg_rep m A F -> is_Some (A !! p) -> pte_load m (p, i) = Ret (entry A p i).
Proof. intros R [d Hd]. unfold pte_load, entry. cbn. by rewrite (pg_get_ok m A F p d R Hd), Hd. Qed.

Lemma pte_store_ok m A F p i v : pg_rep m A F -> is_Some (A !! p) -> i < 512 ->
  exists m', pte_store m (p, i) v = Ret m' /\ pg_rep m' (set_entry A p i v) F.
Proof.
  intros R [d Hd] Hi. unfold pte_store, set_entry. cbn [fst snd]. rewrite (pg_get_ok m A F p d R Hd), Hd. cbn [obind default].
  apply pg_set_ok; [done|by eexists|]. apply put_page_ok; [by eapply pg_used_ok|unfold PGBYTES, PGSIZE; lia].
Qed.

Lemma fill_page_ok m A F p c : pg_rep m A F -> is_Some (A !! p) ->
  exists m', fill_page m p c = Ret m' /\ pg_rep m' (<[p := junk (c `mod` 256)]> A) F.
Proof.
  intros R [d Hd]. unfold fill_page. rewrite (pg_get_ok m A F p d R Hd). cbn [obind].
  rewrite memset_page by (by eapply pg_used_ok). cbn [obind]. apply pg_set_ok; [done|by eexists|].
  apply junk_ok. apply Z.mod_pos_bound. lia.
Qed.

(** A new page of zeroes. *)
Lemma kalloc_zero m A F : pg_rep m A F ->
  (F = ∅ /\ pg_kalloc m = Ret (m, 0%Z)) \/
  exists m1 m2 p, pg_kalloc m = Ret (m1, p) /\ (p =? 0)%Z = false /\ p ∈ F /\ pg_heap p /\ A !! p = None /\
    fill_page m1 p 0 = Ret m2 /\ pg_rep m1 (<[p := junk 5]> A) (F ∖ {[p]}) /\ pg_rep m2 (<[p := junk 0]> A) (F ∖ {[p]}).
Proof.
  intros R. destruct (decide (F = ∅)) as [->|Hne]; [left; split; [done|by eapply pg_kalloc_none]|right].
  destruct (pg_kalloc_some m A F R Hne) as (m1 & p & E & Hp & R1).
  destruct (fill_page_ok m1 _ _ p 0 R1) as (m2 & E2 & R2); [rewrite lookup_insert_eq; by eexists|].
  rewrite insert_insert_eq in R2. destruct (pg_free_ok m A F p R Hp) as [Hh HA]. pose proof (pg_heap_addr p Hh).
  exists m1, m2, p. split_and!; try done. apply Z.eqb_neq. lia.
Qed.

Lemma table_at_page A root N va l p q : pt_ok A root N -> l <= 2 -> (0 <= va)%Z -> N !! p = Some (l, pos l (va `div` 4096)) ->
  table_at A p va l = Some q -> is_Some (A !! q).
Proof.
  intros PT Hl Hva Hp Et. pose proof (table_at_ok A root N PT l p va Hl Hva Hp) as Ht. rewrite Et in Ht.
  by apply (po_page _ _ _ PT) in Ht as [? _].
Qed.

(** [walk] without [alloc] changes nothing. *)
Lemma walk_loop_find m A F root N va : pg_rep m A F -> pt_ok A root N -> (0 <= va)%Z -> forall l p, l <= 2 ->
  N !! p = Some (l, pos l (va `div` 4096)) ->
  walk_loop m p va false l = Ret (m, (fun q => (q, PX 0 va)) <$> table_at A p va l).
Proof.
  intros R PT Hva. induction l as [|l IH]; intros p Hl Hp; cbn [walk_loop table_at]; [done|].
  rewrite (pte_load_ok m A F p _ R) by (by apply (po_page _ _ _ PT) in Hp as [? _]). cbn [obind].
  pose proof (down A root N PT l p va ltac:(lia) Hva Hp) as Hd. destruct (has _ _); [by apply IH; [lia|]|done].
Qed.

Lemma walk_find m A F root N va : pg_rep m A F -> pt_ok A root N -> (0 <= va < MAXVA)%Z ->
  walk m root va false = Ret (m, (fun q => (q, PX 0 va)) <$> table_at A root va 2).
Proof.
  intros R PT Hva. unfold walk. rewrite (proj2 (Z.leb_gt _ _)) by lia.
  eapply walk_loop_find; [done|done|lia|done|]. rewrite pos_top by done. apply PT.
Qed.

(** ** Growing the tree *)
Record grows A F N A' F' N' : Prop := {
  gr_sub : N ⊆ N';
  gr_free : F' ⊆ F;
  gr_new : forall p, is_Some (N' !! p) <-> is_Some (N !! p) \/ p ∈ F ∖ F';
  gr_same : forall p, N' !! p = None -> A' !! p = A !! p
}.

Lemma grows_refl A F N : grows A F N A F N.
Proof. split; [done|done|set_solver|done]. Qed.

Lemma grows_trans A F N A1 F1 N1 A2 F2 N2 : grows A F N A1 F1 N1 -> grows A1 F1 N1 A2 F2 N2 -> grows A F N A2 F2 N2.
Proof.
  intros [S1 F1' N1' E1] [S2 F2' N2' E2]. split; [by etrans|set_solver| |].
  - intros p. rewrite N2', N1'. destruct (decide (p ∈ F1)), (decide (p ∈ F2)); set_solver.
  - intros p Hp. rewrite E2 by done. apply E1. destruct (N1 !! p) eqn:E; [|done]. by rewrite (lookup_weaken _ _ _ _ E S2) in Hp.
Qed.

(** One new page below [p]. *)
Section add.
Context A F root N (PT : pt_ok A root N) (l : nat) (p c va : Z).
Context (Hl : l <= 1) (Hva : (0 <= va)%Z) (Hmax : (va < MAXVA)%Z) (Hp : N !! p = Some (S l, pos (S l) (va `div` 4096))).
Context (Hinv : has (entry A p (PX (S l) va)) PTE_V = false).
Context (Hc : c ∈ F) (Hheap : pg_heap c) (HcA : A !! c = None) (Hpage : forall q d, A !! q = Some d -> page_ok d).

Abbreviation A1 := (<[c := junk 0]> A).
Abbreviation A' := (set_entry A1 p (PX (S l) va) (pte_of c PTE_V)).
Abbreviation N' := (<[c := (l, pos l (va `div` 4096))]> N).

Lemma add_fresh q lx : N !! q = Some lx -> q <> c.
Proof. intros Hq ->. apply (po_page _ _ _ PT) in Hq as [[? ?] _]. congruence. Qed.

Lemma add_none q : N !! q <> Some (l, pos l (va `div` 4096)).
Proof. pose proof (down A root N PT l p va Hl Hva Hp) as Hd. rewrite Hinv in Hd. apply Hd. Qed.

Lemma add_entry q i : i < 512 -> entry A' q i =
  if decide (q = p /\ i = PX (S l) va) then pte_of c PTE_V else if decide (q = c) then 0%Z else entry A q i.
Proof.
  intros Hi. pose proof (add_fresh p _ Hp) as Hpc. destruct (po_page _ _ _ PT p _ Hp) as [[d Hd] _].
  rewrite (entry_set A1 p (PX (S l) va) (pte_of c PTE_V) q i d).
  - case_decide; [done|]. case_decide as Hqc; [subst; by apply entry_zero|by apply entry_insert_ne].
  - by rewrite lookup_insert_ne by done.
  - by eapply Hpage.
  - by apply PX_lt.
  - done.
  - apply pte_of_range; [by apply heap_phys|done].
Qed.

Lemma add_ok : pt_ok A' root N'.
Proof.
  pose proof (add_fresh p _ Hp) as Hpc. pose proof (heap_phys c Hheap) as Hcp.
  assert (forall q i, q <> c -> q <> p -> i < 512 -> entry A' q i = entry A q i) as Hsame.
  { intros q i ???. rewrite add_entry by done. rewrite decide_False by tauto. by rewrite decide_False. }
  split.
  - rewrite lookup_insert_ne; [apply PT|]. apply not_eq_sym, (add_fresh root _ (po_root _ _ _ PT)).
  - intros q lx. rewrite lookup_insert_Some. intros [[<- <-]|[Hne Hq]].
    + split_and!; [|done|cbn; lia| |]; [|cbn; pose proof Hmax as Hm; rewrite MAXVA_eq in Hm; destruct l as [|[|]]; cbn; div_lia..].
      unfold set_entry. rewrite lookup_insert_ne by done. rewrite lookup_insert_eq. by eexists.
    + apply (po_page _ _ _ PT) in Hq as ([d Hd] & Hr). split; [|done]. unfold set_entry.
      destruct (decide (p = q)) as [<-|]; [rewrite lookup_insert_eq; by eexists|].
      rewrite !lookup_insert_ne by done. by eexists.
  - intros q x. rewrite lookup_insert_Some. intros [[<- E]|[Hne Hq]]; [exfalso; simplify_eq; lia|by eapply (po_top _ _ _ PT)].
  - intros q q' lx. rewrite !lookup_insert_Some. intros [[<- <-]|[Hne Hq]] [[<- E]|[Hne' Hq']]; [done|..].
    + by apply add_none in Hq'.
    + subst lx. by apply add_none in Hq.
    + by eapply (po_inj _ _ _ PT).
  - intros q l' x i Hq Hi. rewrite add_entry by done. case_decide as E.
    + destruct E as [-> ->]. intros _. exists c. split; [done|]. rewrite lookup_insert_ne in Hq by done.
      rewrite Hp in Hq. simplify_eq. rewrite lookup_insert_eq. by rewrite PX_pos.
    + rewrite lookup_insert_Some in Hq. destruct Hq as [[<- E']|[Hne Hq]]; [by rewrite decide_True|].
      rewrite decide_False by done. intros Hv. destruct (po_down _ _ _ PT q l' x i Hq Hi Hv) as (c' & -> & Hc').
      exists c'. split; [done|]. rewrite lookup_insert_ne; [done|]. by apply not_eq_sym, (add_fresh c' _ Hc').
  - intros q l' x. rewrite lookup_insert_Some. intros [[<- E]|[Hne Hq]] Hl'.
    + injection E as <- <-. exists p. rewrite lookup_insert_ne, pos_up by (done || div_lia). split; [done|].
      assert (Z.to_nat (pos l (va `div` 4096) `mod` 512) = PX (S l) va) as ->.
      { rewrite PX_pos by done. pose proof (PX_lt (S l) va Hva). rewrite Z.mul_comm, Z.add_comm, Z.mod_add by lia.
        rewrite Z.mod_small by lia. lia. }
      rewrite add_entry by (by apply PX_lt). by rewrite decide_True.
    + destruct (po_up _ _ _ PT q l' x Hq Hl') as (q' & Hq' & He). exists q'. pose proof (add_fresh q' _ Hq') as Hqc.
      rewrite lookup_insert_ne by done. split; [done|].
      rewrite add_entry by (pose proof (Z.mod_pos_bound x 512); lia). rewrite (decide_False (P := q' = c)) by done.
      case_decide as E; [|done]. destruct E as [-> E]. exfalso.
      pose proof Hinv as Hi. rewrite <-E, He, has_V in Hi; [done|by eapply node_phys].
Qed.

Lemma add_grows : grows A F N A' (F ∖ {[c]}) N'.
Proof.
  assert (N !! c = None) as HN by (destruct (N !! c) eqn:E; [by destruct (add_fresh c _ E)|done]).
  split; [by apply insert_subseteq|set_solver| |].
  - intros q. destruct (decide (q = c)) as [->|Hne].
    + rewrite lookup_insert_eq. split; [intros _; right; set_solver|intros _; by eexists].
    + rewrite lookup_insert_ne by done. set_solver.
  - intros q. rewrite lookup_insert_None. intros [Hq Hne]. unfold set_entry.
    rewrite !lookup_insert_ne; [done|done|]. intros <-. congruence.
Qed.

Lemma add_pte v : (0 <= v < MAXVA `div` 4096)%Z -> pte_at A' root v = pte_at A root v.
Proof.
  intros Hv. apply (pte_at_same A A' root N N' v PT add_ok Hv); intros q Hq.
  - pose proof (add_fresh q _ Hq) as Hqc. rewrite lookup_insert_ne by done. split; [done|].
    rewrite add_entry by (pose proof (Z.mod_pos_bound v 512); lia). rewrite (decide_False (P := q = c)) by done.
    rewrite decide_False; [done|]. intros [-> _]. congruence.
  - rewrite lookup_insert_Some in Hq. destruct Hq as [[<- E]|[_ Hq]]; [right|by left].
    rewrite add_entry by (pose proof (Z.mod_pos_bound v 512); lia). rewrite (decide_True (P := c = c)) by done.
    rewrite decide_False; [done|]. intros [E' _]. by apply (add_fresh _ _ Hp).
Qed.
End add.

(** Virtual page numbers below [MAXVA] *)
Definition vpage (v : Z) : Prop := (0 <= v < MAXVA `div` 4096)%Z.

Record vm m A F root N : Prop := {
  vm_rep : pg_rep m A F;
  vm_pt : pt_ok A root N
}.

Lemma walk_loop_grow root va : (0 <= va < MAXVA)%Z -> forall l m A F N p, l <= 2 -> vm m A F root N ->
  N !! p = Some (l, pos l (va `div` 4096)) ->
  exists m' A' F' N' r, walk_loop m p va true l = Ret (m', r) /\ vm m' A' F' root N' /\ grows A F N A' F' N' /\
    (forall v, vpage v -> pte_at A' root v = pte_at A root v) /\ size F <= size F' + l /\
    match r with
    | None => F' = ∅
    | Some (q, i) => i = PX 0 va /\ N' !! q = Some (0, pos 0 (va `div` 4096))
    end.
Proof.
  intros [Hva Hmax]. induction l as [|l IH]; intros m A F N p Hl V Hp; cbn [walk_loop].
  { exists m, A, F, N, (Some (p, PX 0 va)). split_and!; try done; [apply grows_refl|lia]. }
  pose proof V as [R PT]. rewrite (pte_load_ok m A F p _ R) by (by apply (po_page _ _ _ PT) in Hp as [? _]). cbn [obind].
  pose proof (down A root N PT l p va ltac:(lia) Hva Hp) as Hd. destruct (has _ _) eqn:Ev.
  { destruct (IH m A F N _ ltac:(lia) V Hd) as (m' & A' & F' & N' & r & E & V' & G & Hs & Hsz & Hr).
    exists m', A', F', N', r. split_and!; try done. lia. }
  cbn [negb]. destruct (kalloc_zero m A F R) as [[-> ->]|(m1 & m2 & c & -> & E0 & Hc & Hh & HcA & E2 & R1 & R2)]; cbn [obind].
  { cbn. exists m, A, ∅, N, None. split_and!; try done; [apply grows_refl|lia]. }
  rewrite E0, E2. cbn [obind].
  assert (forall q d, A !! q = Some d -> page_ok d) as Hpg by (intros q d Hq; exact (pg_used_ok m A F q d R Hq)).
  assert (p <> c) as Hpc by (intros ->; apply (po_page _ _ _ PT) in Hp as [[? ?] _]; congruence).
  destruct (pte_store_ok m2 _ _ p (PX (S l) va) (pte_of c PTE_V) R2) as (m3 & E3 & R3);
    [rewrite lookup_insert_ne by done; by apply (po_page _ _ _ PT) in Hp as [? _]|by apply PX_lt|].
  change (Z.lor (PA2PTE c) PTE_V) with (pte_of c PTE_V). rewrite E3. cbn [obind].
  pose proof (add_ok A root N PT l p c va ltac:(lia) Hva Hmax Hp Ev Hh HcA Hpg) as PT'.
  pose proof (add_grows A F root N PT l p c va ltac:(lia) Hva Hmax Hp Ev Hc Hh HcA Hpg) as G'.
  destruct (IH m3 _ _ _ c ltac:(lia) (Build_vm _ _ _ _ _ R3 PT')) as (m' & A' & F' & N' & r & E & V' & G & Hs & Hsz & Hr);
    [apply lookup_insert_eq|].
  exists m', A', F', N', r. split_and!; try done.
  - by eapply grows_trans.
  - intros v Hv. rewrite Hs by done. by apply (add_pte A root N PT l p c va ltac:(lia) Hva Hmax Hp Ev Hh HcA Hpg).
  - rewrite size_difference, size_singleton in Hsz by set_solver. assert (size F <> 0) by (apply size_non_empty_iff; set_solver). lia.
Qed.

Lemma vpage_va v : vpage v -> (0 <= 4096 * v < MAXVA)%Z.
Proof. unfold vpage. rewrite MAXVA_eq. intros. div_lia. Qed.

Lemma walk_alloc m A F root N v : vm m A F root N -> vpage v ->
  exists m' A' F' N' r, walk m root (4096 * v) true = Ret (m', r) /\ vm m' A' F' root N' /\ grows A F N A' F' N' /\
    (forall u, vpage u -> pte_at A' root u = pte_at A root u) /\ size F <= size F' + 2 /\
    match r with
    | None => F' = ∅
    | Some (q, i) => i = Z.to_nat (v `mod` 512) /\ N' !! q = Some (0, (v `div` 512)%Z)
    end.
Proof.
  intros V Hv. pose proof (vpage_va v Hv) as Hva. unfold walk. rewrite (proj2 (Z.leb_gt _ _)) by lia.
  destruct (walk_loop_grow root (4096 * v) Hva 2 m A F N root ltac:(lia) V) as (m' & A' & F' & N' & r & E & V' & G & Hs & Hsz & Hr);
    [apply (root_pos _ _ _ (vm_pt _ _ _ _ _ V) v Hv)|].
  exists m', A', F', N', r. split_and!; try done. destruct r as [[q i]|]; [|done]. rewrite PX_0 in Hr by lia.
  rewrite page_of_va in Hr. done.
Qed.

(** [walk] without [alloc], in terms of [pte_at]: it finds no table, and the
    entry is 0, or it finds the entry. *)
Lemma walk_lookup m A F root N v : vm m A F root N -> vpage v ->
  (walk m root (4096 * v) false = Ret (m, None) /\ pte_at A root v = 0%Z) \/
  exists q, walk m root (4096 * v) false = Ret (m, Some (q, Z.to_nat (v `mod` 512))) /\ N !! q = Some (0, (v `div` 512)%Z) /\
    pte_load m (q, Z.to_nat (v `mod` 512)) = Ret (pte_at A root v).
Proof.
  intros [R PT] Hv. pose proof (vpage_va v Hv) as Hva. rewrite (walk_find m A F root N _ R PT Hva).
  rewrite PX_0, page_of_va by lia.
  pose proof (table_at_ok A root N PT 2 root (4096 * v) ltac:(lia) ltac:(lia) (root_pos _ _ _ PT v Hv)) as Ht.
  rewrite page_of_va in Ht. destruct (table_at A root (4096 * v) 2) as [q|] eqn:Et.
  - right. exists q. split; [done|]. split; [done|]. rewrite (pte_load_ok m A F q _ R) by (by apply (po_page _ _ _ PT) in Ht as [? _]).
    by destruct (pte_at_some _ _ _ PT v q Hv Ht) as [_ ->].
  - left. split; [done|]. unfold pte_at. by rewrite Et.
Qed.

(** ** Writing an entry, and writing elsewhere *)
Lemma mod_512 v : Z.to_nat (v `mod` 512) < 512.
Proof. pose proof (Z.mod_pos_bound v 512). lia. Qed.

Lemma set_leaf A root N q v e : pt_ok A root N -> (forall p d, A !! p = Some d -> page_ok d) -> vpage v ->
  N !! q = Some (0, (v `div` 512)%Z) -> (0 <= e < 2 ^ 64)%Z ->
  pt_ok (set_entry A q (Z.to_nat (v `mod` 512)) e) root N /\
  forall u, vpage u -> pte_at (set_entry A q (Z.to_nat (v `mod` 512)) e) root u = if decide (u = v) then e else pte_at A root u.
Proof.
  intros PT Hpg Hv Hq He. destruct (po_page _ _ _ PT q _ Hq) as ([d Hd] & _).
  assert (forall p i, i < 512 -> entry (set_entry A q (Z.to_nat (v `mod` 512)) e) p i =
    if decide (p = q /\ i = Z.to_nat (v `mod` 512)) then e else entry A p i) as Hen.
  { intros p i Hi. eapply entry_set; [done|by eapply Hpg|apply mod_512|done|done]. }
  assert (pt_ok (set_entry A q (Z.to_nat (v `mod` 512)) e) root N) as PT'.
  { destruct PT as [P1 P2 P0 P3 P4 P5]. split; [done| |done|done| |].
    - intros p lx Hp. destruct (P2 p lx Hp) as ([d' Hd'] & Hr). split; [|done]. unfold set_entry.
      destruct (decide (q = p)) as [->|]; [rewrite lookup_insert_eq; by eexists|]. rewrite lookup_insert_ne by done. by eexists.
    - intros p l x i Hp Hi. rewrite Hen, decide_False by (try done; intros [-> _]; congruence). by apply P4.
    - intros p l x Hp Hl. destruct (P5 p l x Hp Hl) as (q' & Hq' & E). exists q'. split; [done|].
      rewrite Hen, decide_False by (try apply mod_512; intros [-> _]; congruence). done. }
  split; [done|]. intros u Hu. case_decide as Huv.
  - subst u. destruct (pte_at_some _ _ _ PT' v q Hv Hq) as [_ ->]. rewrite Hen by apply mod_512. by rewrite decide_True.
  - apply (pte_at_same A _ root N N u PT PT' Hu); intros p Hp; [|by left]. split; [done|].
    rewrite Hen by apply mod_512. rewrite decide_False; [done|]. intros [-> Ei]. apply Huv.
    rewrite Hq in Hp. injection Hp as Ediv. unfold vpage in *. rewrite MAXVA_eq in *.
    pose proof (Z.mod_pos_bound u 512). pose proof (Z.mod_pos_bound v 512).
    assert (u `mod` 512 = v `mod` 512)%Z as Em by lia. rewrite (Z.div_mod u 512), (Z.div_mod v 512) by lia. congruence.
Qed.

Lemma pt_frame A A' root N : pt_ok A root N -> (forall q, is_Some (N !! q) -> A' !! q = A !! q) ->
  pt_ok A' root N /\ forall u, vpage u -> pte_at A' root u = pte_at A root u.
Proof.
  intros PT Hf. assert (forall q lx i, N !! q = Some lx -> entry A' q i = entry A q i) as He.
  { intros q lx i Hq. unfold entry. by rewrite Hf by (by eexists). }
  assert (pt_ok A' root N) as PT'.
  { destruct PT as [P1 P2 P0 P3 P4 P5]. split; [done| |done|done| |].
    - intros p lx Hp. rewrite Hf by (by eexists). by apply P2.
    - intros p l x i Hp Hi. rewrite (He _ _ _ Hp). by apply P4.
    - intros p l x Hp Hl. destruct (P5 p l x Hp Hl) as (q & Hq & E). exists q. by rewrite (He _ _ _ Hq). }
  split; [done|]. intros u Hu. apply (pte_at_same A A' root N N u PT PT' Hu); intros q Hq; [|by left].
  split; [done|]. by eapply He.
Qed.

Lemma vm_pages m A F root N : vm m A F root N -> forall p d, A !! p = Some d -> page_ok d.
Proof. intros [R _] p d Hp. exact (pg_used_ok m A F p d R Hp). Qed.

Lemma store_leaf m A F root N q v e : vm m A F root N -> vpage v -> N !! q = Some (0, (v `div` 512)%Z) -> (0 <= e < 2 ^ 64)%Z ->
  exists m' A', pte_store m (q, Z.to_nat (v `mod` 512)) e = Ret m' /\ vm m' A' F root N /\
    (forall u, vpage u -> pte_at A' root u = if decide (u = v) then e else pte_at A root u) /\
    (forall p, p <> q -> A' !! p = A !! p).
Proof.
  intros V Hv Hq He. pose proof V as [R PT]. destruct (po_page _ _ _ PT q _ Hq) as (Hs & _).
  destruct (pte_store_ok m A F q (Z.to_nat (v `mod` 512)) e R Hs (mod_512 v)) as (m' & E & R').
  destruct (set_leaf A root N q v e PT (vm_pages _ _ _ _ _ V) Hv Hq He) as [PT' Hp].
  eexists m', _. split; [done|]. split; [by split|]. split; [done|]. intros p Hne. unfold set_entry. by rewrite lookup_insert_ne.
Qed.

(** ** [mappages] *)
Lemma grows_leaf A F N A1 F1 N1 A2 q lx : grows A F N A1 F1 N1 -> N1 !! q = Some lx ->
  (forall p, p <> q -> A2 !! p = A1 !! p) -> grows A F N A2 F1 N1.
Proof.
  intros [G1 G2 G3 G4] Hq Hs. split; try done. intros p Hp. rewrite Hs; [by apply G4|]. intros ->. congruence.
Qed.

Definition mapped_range (A : gmap Z bytes) root (v0 : Z) (k : nat) (pa fl : Z) (v : Z) : Z :=
  if decide (v0 <= v < v0 + Z.of_nat k)%Z then pte_of (pa + 4096 * (v - v0)) fl else pte_at A root v.

(** One round. *)
Lemma map_one m A F root N v pa fl : vm m A F root N -> vpage v -> phys pa -> is_flags fl ->
  exists m1 A1 F1 N1 r, walk m root (4096 * v) true = Ret (m1, r) /\ size F <= size F1 + 2 /\
    match r with
    | None => F1 = ∅ /\ vm m1 A1 F1 root N1 /\ grows A F N A1 F1 N1 /\
        forall u, vpage u -> pte_at A1 root u = pte_at A root u
    | Some p => pte_load m1 p = Ret (pte_at A root v) /\
        exists m2 A2, pte_store m1 p (pte_of pa fl) = Ret m2 /\ vm m2 A2 F1 root N1 /\ grows A F N A2 F1 N1 /\
        forall u, vpage u -> pte_at A2 root u = if decide (u = v) then pte_of pa fl else pte_at A root u
    end.
Proof.
  intros V Hv Hpa Hfl. destruct (walk_alloc m A F root N v V Hv) as (m1 & A1 & F1 & N1 & r & E & V1 & G1 & Hs1 & Hsz & Hr).
  exists m1, A1, F1, N1, r. split; [done|]. split; [done|]. destruct r as [[q i]|]; [|done]. destruct Hr as [-> Hq].
  rewrite (pte_load_ok m1 A1 F1 q _ (vm_rep _ _ _ _ _ V1)) by (by apply (po_page _ _ _ (vm_pt _ _ _ _ _ V1)) in Hq as [? _]).
  destruct (pte_at_some _ _ _ (vm_pt _ _ _ _ _ V1) v q Hv Hq) as [_ <-]. rewrite Hs1 by done. split; [done|].
  destruct (store_leaf m1 A1 F1 root N1 q v (pte_of pa fl) V1 Hv Hq (pte_of_range _ _ Hpa Hfl)) as (m2 & A2 & E2 & V2 & Hs2 & Hfr2).
  exists m2, A2. split; [done|]. split; [done|]. split; [by eapply grows_leaf|]. intros u Hu. rewrite Hs2 by done. by rewrite Hs1.
Qed.

Lemma mappages_loop_ok root perm : is_flags perm -> forall fuel n m A F N v0 pa last,
  vm m A F root N -> (forall v, v0 <= v < v0 + Z.of_nat (S n) -> vpage v /\ has (pte_at A root v) PTE_V = false)%Z ->
  (forall k, 0 <= k <= Z.of_nat n -> phys (pa + 4096 * k))%Z -> last = (4096 * (v0 + Z.of_nat n))%Z -> n < fuel ->
  exists m' A' F' N' r k, mappages_loop m root (4096 * v0) last pa perm fuel = Ret (m', r) /\ vm m' A' F' root N' /\
    grows A F N A' F' N' /\ (forall v, vpage v -> pte_at A' root v = mapped_range A root v0 k pa (Z.lor perm PTE_V) v) /\
    size F <= size F' + 2 * S n /\
    ((r = 0%Z /\ k = S n) \/ (r = (-1)%Z /\ k <= n /\ F' = ∅)).
Proof.
  intros Hperm. assert (is_flags (Z.lor perm PTE_V)) as Hfl by (by apply is_flags_lor).
  induction fuel as [|fuel IH]; intros n m A F N v0 pa last V Hv Hpa Hlast Hf; [lia|]. cbn [mappages_loop].
  destruct (Hv v0 ltac:(lia)) as [Hv0 Hnone].
  assert (phys pa) as Hpa0 by (specialize (Hpa 0%Z ltac:(lia)); by rewrite Z.mul_0_r, Z.add_0_r in Hpa).
  destruct (map_one m A F root N v0 pa _ V Hv0 Hpa0 Hfl) as (m1 & A1 & F1 & N1 & r & -> & Hsz & Hr). cbn [obind].
  destruct r as [p|].
  2: { destruct Hr as (-> & V1 & G1 & Hs1). exists m1, A1, ∅, N1, (-1)%Z, 0. split_and!; try done; [|lia|right; split_and!; (done || lia)].
       intros v Hvp. unfold mapped_range. rewrite decide_False by lia. by apply Hs1. }
  destruct Hr as (-> & m2 & A2 & E2 & V2 & G2 & Hs2). cbn [obind]. rewrite Hnone, <-Z.lor_assoc.
  fold (pte_of pa (Z.lor perm PTE_V)). rewrite E2. cbn [obind]. destruct n as [|n].
  - rewrite (proj2 (Z.eqb_eq _ _)) by lia. exists m2, A2, F1, N1, 0%Z, 1. split_and!; try done; try lia; try by left.
    intros v Hvp. rewrite Hs2 by done. unfold mapped_range. destruct (decide (v = v0)) as [->|Hne].
    + rewrite decide_True by lia. by rewrite Z.sub_diag, Z.mul_0_r, Z.add_0_r.
    + by rewrite decide_False by lia.
  - rewrite (proj2 (Z.eqb_neq _ _)) by lia.
    destruct (Hv (v0 + 1)%Z ltac:(lia)) as [Hv1 _]. apply vpage_va in Hv0, Hv1. rewrite MAXVA_eq in Hv0, Hv1.
    pose proof (Hpa 1%Z ltac:(lia)) as [_ Hpa1]. destruct Hpa0 as [_ Hpa0].
    unfold PGSIZE. rewrite (u64_small (4096 * v0 + 4096)), (u64_small (pa + 4096)) by lia.
    replace (4096 * v0 + 4096)%Z with (4096 * (v0 + 1))%Z by lia.
    destruct (IH n m2 A2 F1 N1 (v0 + 1)%Z (pa + 4096)%Z last V2) as (m' & A' & F' & N' & r & k & E & V' & G' & Hs' & Hsz' & Hr).
    + intros v Hvr. destruct (Hv v ltac:(lia)) as [Hvp Hvn]. split; [done|]. by rewrite Hs2, decide_False by (done || lia).
    + intros k Hk. specialize (Hpa (k + 1)%Z ltac:(lia)). by replace (pa + 4096 + 4096 * k)%Z with (pa + 4096 * (k + 1))%Z by lia.
    + lia.
    + lia.
    + exists m', A', F', N', r, (S k). split_and!; try done; [by eapply grows_trans| |lia|].
      * intros v Hvp. rewrite Hs' by done. unfold mapped_range. destruct (decide (v = v0)) as [->|Hne].
        -- rewrite decide_False, decide_True by lia. rewrite Hs2, decide_True by (done || lia).
           by rewrite Z.sub_diag, Z.mul_0_r, Z.add_0_r.
        -- destruct (decide (v0 + 1 <= v < v0 + 1 + Z.of_nat k)%Z).
           ++ rewrite decide_True by lia. f_equal. lia.
           ++ rewrite decide_False by lia. by rewrite Hs2, decide_False by (done || lia).
      * destruct Hr as [[-> ->]|(-> & Hk & ->)]; [by left|right; split_and!; (done || lia)].
Qed.

Lemma mappages_ok m A F root N v0 n pa perm : vm m A F root N -> is_flags perm -> (0 < n)%Z ->
  (forall v, v0 <= v < v0 + n -> vpage v /\ has (pte_at A root v) PTE_V = false)%Z ->
  (forall k, 0 <= k < n -> phys (pa + 4096 * k))%Z ->
  exists m' A' F' N' r k, mappages m root (4096 * v0) (4096 * n) pa perm = Ret (m', r) /\ vm m' A' F' root N' /\
    grows A F N A' F' N' /\ (forall v, vpage v -> pte_at A' root v = mapped_range A root v0 k pa (Z.lor perm PTE_V) v) /\
    (Z.of_nat (size F) <= Z.of_nat (size F') + 2 * n)%Z /\
    ((r = 0%Z /\ Z.of_nat k = n) \/ (r = (-1)%Z /\ (Z.of_nat k < n)%Z /\ F' = ∅)).
Proof.
  intros V Hperm Hn Hv Hpa. unfold mappages, PGSIZE. rewrite !(Z.mul_comm 4096), !Z.mod_mul, Z.div_mul by lia. cbn [negb Z.eqb].
  rewrite (proj2 (Z.eqb_neq _ _)) by lia. rewrite !(Z.mul_comm _ 4096).
  destruct (Hv v0 ltac:(lia)) as [[H1 _] _]. destruct (Hv (v0 + n - 1)%Z ltac:(lia)) as [[_ H2] _].
  rewrite MAXVA_eq in H2. change (274877906944 `div` 4096)%Z with 67108864%Z in H2. rewrite u64_small by lia.
  destruct (mappages_loop_ok root perm Hperm (Z.to_nat n) (Z.to_nat (n - 1)) m A F N v0 pa (4096 * v0 + 4096 * n - 4096)%Z V)
    as (m' & A' & F' & N' & r & k & E & V' & G' & Hs' & Hsz' & Hr); try lia.
  - intros v Hvr. apply Hv. lia.
  - intros k Hk. apply Hpa. lia.
  - exists m', A', F', N', r, k. split_and!; try done; [lia|]. destruct Hr as [[-> ->]|(-> & Hk & ->)]; [left; split; [done|lia]|right; split_and!; (done || lia)].
Qed.
End tree.
