(* ===== verification/UserMem.v ===== *)
(** * User address spaces: proofs

    A [space] is a page table whose entries below the trap frame point to pages
    of their own.  [own] are the pages of a space, its tables included; every
    operation is described by what it does to the entries and by [evolve]: no
    page is lost or taken from somebody else.  [uview] is the memory as the
    process sees it; a page that was never touched reads as zero, since the
    copy functions allocate it on demand. *)

From S2P Require Import Prelude.
From S2P Require Import Bytes.
From S2P Require Import Kstring.
From S2P Require Import Kalloc.
From S2P Require Import Vm.
From S2P Require Import PageTable.

Definition uvpage (v : Z) : Prop := (0 <= v < TRAPFRAME `div` 4096)%Z.

Lemma TRAPFRAME_eq : TRAPFRAME = 274877898752%Z.
Proof. reflexivity. Qed.

Lemma uvpage_vpage v : uvpage v -> vpage v.
Proof. unfold uvpage, vpage. rewrite TRAPFRAME_eq, MAXVA_eq. div_lia. Qed.
#[export] Hint Resolve uvpage_vpage : core.

(** ** The memory of the process *)

(** A byte of a physical page *)
Definition ubyte (A : gmap Z bytes) (pa off : Z) : Z := default 0%Z (default [] (A !! pa) !! Z.to_nat off).

(** The byte at a user address, for a process of size [psz]; [None] where the
    process has no access. *)
Definition uview (A : gmap Z bytes) (root psz a : Z) : option Z :=
  let e := pte_at A root (a `div` 4096) in
  if has e PTE_V then if has e PTE_U then Some (ubyte A (PTE2PA e) (a `mod` 4096)) else None
  else if (4096 * (a `div` 4096) <? psz)%Z then Some 0%Z else None.

Definition uwritable (A : gmap Z bytes) (root psz a : Z) : bool :=
  let e := pte_at A root (a `div` 4096) in
  if has e PTE_V then has e PTE_U && has e PTE_W else (4096 * (a `div` 4096) <? psz)%Z.

(** The user page [p] of a space *)
Definition user_pa (A : gmap Z bytes) (root p : Z) : Prop :=
  exists v, uvpage v /\ has (pte_at A root v) PTE_V = true /\ PTE2PA (pte_at A root v) = p.

Section space.
Context {M : Type} `{PageLaws M}.
Implicit Types (m : M) (A : gmap Z bytes) (F : gset Z) (N : gmap Z (nat * Z)) (p q root v : Z).

Definition own A root N p : Prop := is_Some (N !! p) \/ user_pa A root p.

Record space m A F root N : Prop := {
  sp_vm : vm m A F root N;
  sp_user : forall v, uvpage v -> has (pte_at A root v) PTE_V = true ->
    exists pa fl, pte_at A root v = pte_of pa fl /\ is_flags fl /\ pg_heap pa /\ is_Some (A !! pa) /\ N !! pa = None;
  sp_inj : forall u v, uvpage u -> uvpage v -> has (pte_at A root u) PTE_V = true -> has (pte_at A root v) PTE_V = true ->
    PTE2PA (pte_at A root u) = PTE2PA (pte_at A root v) -> u = v
}.

Record evolve root A F N A' F' N' : Prop := {
  ev_total : forall p, own A' root N' p \/ p ∈ F' <-> own A root N p \/ p ∈ F;
  ev_frame : forall p d, A !! p = Some d -> ~ own A root N p -> A' !! p = Some d
}.

Lemma evolve_refl root A F N : evolve root A F N A F N.
Proof. by split. Qed.

Lemma evolve_trans root m A F N A1 F1 N1 A2 F2 N2 : pg_rep m A F ->
  evolve root A F N A1 F1 N1 -> evolve root A1 F1 N1 A2 F2 N2 -> evolve root A F N A2 F2 N2.
Proof.
  intros R [T1 E1] [T2 E2]. split; [intros p; by rewrite T2, T1|]. intros p d Hd Hno. apply E2; [by apply E1|].
  intros Ho. destruct (proj1 (T1 p) (or_introl Ho)) as [?|Hf]; [done|].
  destruct (pg_free_ok m A F p R Hf) as [_ E]. congruence.
Qed.

Section facts.
Context m A F root N (SP : space m A F root N).

Lemma own_used p : own A root N p -> is_Some (A !! p) /\ pg_heap p.
Proof.
  intros [[lx Hp]|(v & Hv & Hh & <-)].
  - by apply (po_page _ _ _ (vm_pt _ _ _ _ _ (sp_vm _ _ _ _ _ SP))) in Hp as (? & ? & _).
  - destruct (sp_user _ _ _ _ _ SP v Hv Hh) as (pa & fl & -> & Hfl & Hp & Hs & _).
    by rewrite pte_of_pa by (done || by apply heap_phys).
Qed.

Lemma own_not_free p : own A root N p -> p ∉ F.
Proof.
  intros Ho Hf. destruct (own_used p Ho) as [[d Hd] _]. destruct (pg_free_ok m A F p (vm_rep _ _ _ _ _ (sp_vm _ _ _ _ _ SP)) Hf) as [_ E].
  congruence.
Qed.

Lemma user_not_table v : uvpage v -> has (pte_at A root v) PTE_V = true -> N !! PTE2PA (pte_at A root v) = None.
Proof.
  intros Hv Hh. destruct (sp_user _ _ _ _ _ SP v Hv Hh) as (pa & fl & -> & Hfl & Hp & _ & Hn).
  by rewrite pte_of_pa by (done || by apply heap_phys).
Qed.

(** Changes of pages that the space does not own. *)
Lemma space_frame m' A' F' : pg_rep m' A' F' -> (forall p, own A root N p -> A' !! p = A !! p) ->
  space m' A' F' root N /\ (forall v, vpage v -> pte_at A' root v = pte_at A root v) /\ (forall p, own A' root N p <-> own A root N p).
Proof.
  intros R' Hf. destruct (pt_frame A A' root N (vm_pt _ _ _ _ _ (sp_vm _ _ _ _ _ SP))) as [PT' Hp]; [intros q Hq; apply Hf; by left|].
  split; [|split; [done|]].
  - split; [by split| |].
    + intros v Hv. rewrite Hp by auto. intros Hh. destruct (sp_user _ _ _ _ _ SP v Hv Hh) as (pa & fl & E & Hfl & Hpa & Hs & Hn).
      exists pa, fl. split_and!; try done. rewrite Hf; [done|]. right. exists v. split; [done|]. split; [done|].
      rewrite E. by rewrite pte_of_pa by (done || by apply heap_phys).
    + intros u v Hu Hv. rewrite !Hp by auto. by apply (sp_inj _ _ _ _ _ SP).
  - intros p. unfold own, user_pa. split; (intros [?|(v & Hv & Hh & E)]; [by left|right; exists v; rewrite ?Hp in * by auto; rewrite ?Hp by auto; done]).
Qed.

(** The table grows and the entries stay. *)
Lemma space_grows m' A' F' N' : vm m' A' F' root N' -> grows A F N A' F' N' ->
  (forall v, uvpage v -> pte_at A' root v = pte_at A root v) ->
  space m' A' F' root N' /\ evolve root A F N A' F' N'.
Proof.
  intros V' G Hp.
  assert (forall p, N !! p = None -> p ∉ F -> N' !! p = None) as Hkeep.
  { intros p Hn Hf. destruct (N' !! p) eqn:E; [|done]. destruct (proj1 (gr_new _ _ _ _ _ _ G p) ltac:(by eexists)) as [[? ?]|?]; [congruence|set_solver]. }
  split.
  - split; [done| |].
    + intros v Hv. rewrite Hp by auto. intros Hh. destruct (sp_user _ _ _ _ _ SP v Hv Hh) as (pa & fl & E & Hfl & Hpa & Hs & Hn).
      assert (pa ∉ F) as Hf.
      { apply own_not_free. right. exists v. split; [done|]. split; [done|]. rewrite E. by rewrite pte_of_pa by (done || by apply heap_phys). }
      exists pa, fl. pose proof (Hkeep pa Hn Hf) as Hn'. split_and!; try done. by rewrite (gr_same _ _ _ _ _ _ G) by done.
    + intros u v Hu Hv. rewrite !Hp by auto. by apply (sp_inj _ _ _ _ _ SP).
  - assert (forall p, user_pa A' root p <-> user_pa A root p) as Hu.
    { intros p. unfold user_pa. split; intros (v & Hv & Hh & E); exists v; rewrite ?Hp in * by auto; rewrite ?Hp by auto; done. }
    split.
    + intros p. unfold own. rewrite Hu, (gr_new _ _ _ _ _ _ G). pose proof (gr_free _ _ _ _ _ _ G). destruct (decide (p ∈ F')); set_solver.
    + intros p d Hd Hno. assert (p ∉ F) as Hf.
      { intros Hf. destruct (pg_free_ok m A F p (vm_rep _ _ _ _ _ (sp_vm _ _ _ _ _ SP)) Hf) as [_ E]. congruence. }
      rewrite (gr_same _ _ _ _ _ _ G); [done|]. apply Hkeep; [|done]. destruct (N !! p) eqn:E; [|done]. destruct Hno. left. by eexists.
Qed.
End facts.

(** A page taken from the allocator that the space does not own yet. *)
Lemma space_loose m A F root N m1 c d : space m A F root N -> c ∈ F -> pg_rep m1 (<[c := d]> A) (F ∖ {[c]}) ->
  space m1 (<[c := d]> A) (F ∖ {[c]}) root N /\ (forall v, vpage v -> pte_at (<[c := d]> A) root v = pte_at A root v) /\
  (forall p, own (<[c := d]> A) root N p <-> own A root N p) /\ N !! c = None /\ A !! c = None /\ pg_heap c /\ ~ own A root N c.
Proof.
  intros SP Hc R1. destruct (pg_free_ok m A F c (vm_rep _ _ _ _ _ (sp_vm _ _ _ _ _ SP)) Hc) as [Hh Hn].
  assert (~ own A root N c) as Hno by (intros Ho; by apply (own_not_free _ _ _ _ _ SP) in Ho).
  destruct (space_frame m A F root N SP m1 (<[c := d]> A) (F ∖ {[c]}) R1) as (S1 & P1 & O1).
  { intros p Hp. rewrite lookup_insert_ne; [done|]. by intros <-. }
  split_and!; try done. destruct (N !! c) eqn:E; [|done]. destruct Hno. left. by eexists.
Qed.

Section map_page.
Context m A F root N (SP : space m A F root N) m1 (c : Z) (d : bytes) (Hc : c ∈ F).
Context (R1 : pg_rep m1 (<[c := d]> A) (F ∖ {[c]})).
Context (v perm : Z) (Hv : uvpage v) (Hfree : has (pte_at A root v) PTE_V = false) (Hperm : is_flags perm).
Abbreviation A1 := (<[c := d]> A).
Abbreviation F1 := (F ∖ {[c]}).
Abbreviation fl := (Z.lor perm PTE_V).

Lemma map_page_done m2 A2 F2 N2 : vm m2 A2 F2 root N2 -> grows A1 F1 N A2 F2 N2 ->
  (forall u, vpage u -> pte_at A2 root u = if decide (u = v) then pte_of c fl else pte_at A root u) ->
  space m2 A2 F2 root N2 /\ evolve root A F N A2 F2 N2 /\ A2 !! c = Some d /\ (forall p, user_pa A root p -> A2 !! p = A !! p).
Proof.
  intros V2 G Hp. destruct (space_loose m A F root N m1 c d SP Hc R1) as (S1 & P1 & O1 & HNc & HAc & Hh & Hnc).
  pose proof (heap_phys c Hh) as Hph. assert (is_flags fl) as Hfl by (by apply is_flags_lor).
  assert (has fl PTE_V = true) as HflV by (rewrite has_lor; by rewrite orb_true_r).
  assert (forall p, N !! p = None -> p ∉ F1 -> N2 !! p = None) as Hkeep.
  { intros p Hn Hf. destruct (N2 !! p) eqn:E; [|done]. destruct (proj1 (gr_new _ _ _ _ _ _ G p) ltac:(by eexists)) as [[? ?]|?]; [congruence|set_solver]. }
  assert (forall p, user_pa A root p -> N2 !! p = None /\ p <> c /\ A2 !! p = A !! p) as Huser.
  { intros p Hu. assert (own A root N p) as Ho by (by right).
    assert (p <> c) as Hne by (by intros ->). assert (N2 !! p = None) as Hn2.
    { apply Hkeep; [|pose proof (own_not_free _ _ _ _ _ SP p Ho); set_solver].
      destruct Hu as (u & Hu & Hhu & <-). by apply (user_not_table _ _ _ _ _ SP). }
    split; [done|]. split; [done|]. rewrite (gr_same _ _ _ _ _ _ G) by done. by rewrite lookup_insert_ne. }
  assert (N2 !! c = None) as HN2c by (apply Hkeep; [done|set_solver]).
  assert (A2 !! c = Some d) as HA2c by (rewrite (gr_same _ _ _ _ _ _ G) by done; by rewrite lookup_insert_eq).
  assert (forall u, uvpage u -> u <> v -> has (pte_at A root u) PTE_V = true -> user_pa A root (PTE2PA (pte_at A root u))) as Hup
    by (intros u ? ? ?; by exists u).
  assert (forall p, user_pa A2 root p <-> p = c \/ user_pa A root p) as HU.
  { intros p. split.
    - intros (u & Hu & Hhu & E). rewrite Hp in Hhu, E by auto. case_decide.
      + left. by rewrite pte_of_pa in E.
      + right. by exists u.
    - intros [->|(u & Hu & Hhu & E)].
      + exists v. rewrite Hp, decide_True by auto. by rewrite pte_of_has, pte_of_pa.
      + exists u. rewrite Hp, decide_False by (auto; intros ->; congruence). done. }
  split; [|split; [|split; [done|intros p Hu; by apply Huser]]].
  - split; [done| |].
    + intros u Hu. rewrite Hp by auto. case_decide as Huv; intros Hhu.
      * exists c, fl. by split_and!.
      * destruct (sp_user _ _ _ _ _ SP u Hu Hhu) as (pa & f & E & Hf & Hpa & Hs & Hn). exists pa, f.
        assert (user_pa A root pa) as Hx by (exists u; split_and!; [done|done|]; rewrite E; apply pte_of_pa; [by apply heap_phys|done]).
        destruct (Huser pa Hx) as (Hn2 & _ & ->). done.
    + intros u w Hu Hw. rewrite !Hp by auto. repeat case_decide; intros Hhu Hhw E; [congruence|..].
      * rewrite pte_of_pa in E by done. destruct (Huser _ (Hup w Hw ltac:(done) Hhw)) as (_ & Hx & _). congruence.
      * rewrite pte_of_pa in E by done. destruct (Huser _ (Hup u Hu ltac:(done) Hhu)) as (_ & Hx & _). congruence.
      * by apply (sp_inj _ _ _ _ _ SP).
  - split.
    + intros p. unfold own. rewrite HU, (gr_new _ _ _ _ _ _ G). pose proof (gr_free _ _ _ _ _ _ G) as Hfr.
      destruct (decide (p = c)) as [->|]; [set_solver|]. destruct (decide (p ∈ F2)); set_solver.
    + intros p e Hpe Hno. assert (p <> c) as Hne by congruence.
      assert (p ∉ F) as Hf.
      { intros Hf. destruct (pg_free_ok m A F p (vm_rep _ _ _ _ _ (sp_vm _ _ _ _ _ SP)) Hf) as [_ E]. congruence. }
      rewrite (gr_same _ _ _ _ _ _ G); [by rewrite lookup_insert_ne|]. apply Hkeep; [|set_solver].
      destruct (N !! p) eqn:E; [|done]. destruct Hno. left. by eexists.
Qed.

Lemma map_page_fail m2 A2 N2 : vm m2 A2 ∅ root N2 -> grows A1 F1 N A2 ∅ N2 ->
  (forall u, vpage u -> pte_at A2 root u = pte_at A root u) ->
  exists m3, pg_kfree m2 c = Ret m3 /\ space m3 (delete c A2) {[c]} root N2 /\ evolve root A F N (delete c A2) {[c]} N2 /\
    (forall u, vpage u -> pte_at (delete c A2) root u = pte_at A root u) /\ (forall p, user_pa A root p -> delete c A2 !! p = A !! p).
Proof.
  intros V2 G Hp. destruct (space_loose m A F root N m1 c d SP Hc R1) as (S1 & P1 & O1 & HNc & HAc & Hh & Hnc).
  destruct (space_grows m1 A1 F1 root N S1 m2 A2 ∅ N2 V2 G) as [S2 [T2 E2]]; [intros u Hu; by rewrite Hp, P1 by auto|].
  assert (A2 !! c = Some d) as HA2c by (apply E2; [by rewrite lookup_insert_eq|by rewrite O1]).
  assert (~ own A2 root N2 c) as Hnc2.
  { intros Ho. destruct (proj1 (T2 c) (or_introl Ho)) as [Ho1|?]; [by apply O1 in Ho1|set_solver]. }
  destruct (pg_kfree_ok m2 A2 ∅ c (vm_rep _ _ _ _ _ V2)) as (m3 & E3 & R3); [by eexists|done|]. rewrite union_empty_r_L in R3.
  destruct (space_frame m2 A2 ∅ root N2 S2 m3 (delete c A2) {[c]} R3) as (S3 & P3 & O3).
  { intros p Ho. rewrite lookup_delete_ne; [done|]. by intros <-. }
  exists m3. split; [done|]. split; [done|]. split; [|split; [intros u Hu; by rewrite P3, Hp|]].
  - split.
    + intros p. rewrite O3. specialize (T2 p). rewrite O1 in T2. destruct (decide (p = c)) as [->|]; set_solver.
    + intros p e Hpe Hno. assert (p <> c) as Hne by congruence. rewrite lookup_delete_ne by done.
      apply E2; [by rewrite lookup_insert_ne|by rewrite O1].
  - intros p Hu. assert (p <> c) as Hne by (intros ->; apply Hnc; by right). rewrite lookup_delete_ne by done.
    rewrite (gr_same _ _ _ _ _ _ G); [by rewrite lookup_insert_ne|].
    destruct Hu as (u & Hu & Hhu & <-). rewrite <-Hp in * by auto. by apply (user_not_table _ _ _ _ _ S2).
Qed.

(** [mappages] of the new page, with what its callers do when it fails. *)
Lemma map_page_ok : exists m2 r, mappages m1 root (4096 * v) PGSIZE c perm = Ret (m2, r) /\
  ((r = 0%Z /\ exists A2 F2 N2, space m2 A2 F2 root N2 /\ evolve root A F N A2 F2 N2 /\ A2 !! c = Some d /\ size F <= size F2 + 3 /\
      (forall u, vpage u -> pte_at A2 root u = if decide (u = v) then pte_of c fl else pte_at A root u) /\
      (forall p, user_pa A root p -> A2 !! p = A !! p)) \/
   (r = (-1)%Z /\ size F <= 3 /\ exists m3 A3 F3 N3, pg_kfree m2 c = Ret m3 /\ space m3 A3 F3 root N3 /\ evolve root A F N A3 F3 N3 /\
      (forall u, vpage u -> pte_at A3 root u = pte_at A root u) /\ (forall p, user_pa A root p -> A3 !! p = A !! p))).
Proof.
  destruct (space_loose m A F root N m1 c d SP Hc R1) as (S1 & P1 & O1 & HNc & HAc & Hh & Hnc).
  destruct (mappages_ok m1 A1 F1 root N v 1 c perm (sp_vm _ _ _ _ _ S1) Hperm ltac:(lia)) as (m2 & A2 & F2 & N2 & r & k & E & V2 & G & Hp & Hsz & Hr).
  - intros u Hu. assert (u = v) as -> by lia. split; [auto|]. by rewrite P1 by auto.
  - intros k Hk. assert (k = 0%Z) as -> by lia. rewrite Z.mul_0_r, Z.add_0_r. by apply heap_phys.
  - rewrite Z.mul_1_r in E. exists m2, r. split; [done|].
    assert (size F <> 0) as Hs0 by (apply size_non_empty_iff; set_solver).
    assert (size F1 = size F - 1) as Hs1 by (rewrite size_difference, size_singleton by set_solver; done).
    destruct Hr as [[-> Hk]|(-> & Hk & ->)].
    + left. split; [done|]. assert (k = 1) as -> by lia.
      assert (forall u, vpage u -> pte_at A2 root u = if decide (u = v) then pte_of c fl else pte_at A root u) as Hp'.
      { intros u Hu. rewrite Hp by done. unfold mapped_range. destruct (decide (u = v)) as [->|].
        - rewrite decide_True by lia. by rewrite Z.sub_diag, Z.mul_0_r, Z.add_0_r.
        - rewrite decide_False by lia. by apply P1. }
      destruct (map_page_done m2 A2 F2 N2 V2 G Hp') as (S2 & E2 & HA & HU). exists A2, F2, N2. split_and!; try done. lia.
    + right. split; [done|]. rewrite size_empty in Hsz. split; [lia|]. assert (k = 0) as -> by lia.
      destruct (map_page_fail m2 A2 N2 V2 G) as (m3 & E3 & S3 & Ev & Hp3 & HU).
      { intros u Hu. rewrite Hp by done. unfold mapped_range. rewrite decide_False by lia. by apply P1. }
      by exists m3, (delete c A2), {[c]}, N2.
Qed.
End map_page.

(** ** Pages on demand *)
Definition uaddr (a : Z) : Prop := (0 <= a < TRAPFRAME)%Z.

Lemma uaddr_page a : uaddr a -> uvpage (a `div` 4096).
Proof. unfold uaddr, uvpage. rewrite TRAPFRAME_eq. div_lia. Qed.

(** The views agree where entries and user pages do. *)
Lemma uview_same A A' root psz a : uaddr a ->
  pte_at A' root (a `div` 4096) = pte_at A root (a `div` 4096) -> (forall p, user_pa A root p -> A' !! p = A !! p) ->
  uview A' root psz a = uview A root psz a /\ uwritable A' root psz a = uwritable A root psz a.
Proof.
  intros Ha Hp Hu. unfold uview, uwritable. rewrite Hp. split; [|done]. destruct (has _ PTE_V) eqn:Hv; [|done].
  unfold ubyte. rewrite Hu; [done|]. exists (a `div` 4096)%Z. split; [by apply uaddr_page|done].
Qed.

Lemma fault_flags : has (Z.lor (Z.lor (Z.lor PTE_W PTE_U) PTE_R) PTE_V) PTE_U = true /\
  has (Z.lor (Z.lor (Z.lor PTE_W PTE_U) PTE_R) PTE_V) PTE_W = true /\
  has (Z.lor (Z.lor (Z.lor PTE_W PTE_U) PTE_R) PTE_V) PTE_V = true /\
  is_flags (Z.lor (Z.lor PTE_W PTE_U) PTE_R) /\ is_flags (Z.lor (Z.lor (Z.lor PTE_W PTE_U) PTE_R) PTE_V).
Proof. split_and!; try reflexivity; split; by vm_compute. Qed.

Lemma is_flags_W : is_flags PTE_W.
Proof. split; by vm_compute. Qed.
Lemma is_flags_U : is_flags PTE_U.
Proof. split; by vm_compute. Qed.
#[local] Hint Resolve is_flags_W is_flags_U : core.

(** A page of zeroes that appears does not change the view. *)
Lemma uview_fault A A2 root psz v c fl : uvpage v -> has (pte_at A root v) PTE_V = false -> (4096 * v < psz)%Z -> phys c -> is_flags fl ->
  has fl PTE_V = true -> has fl PTE_U = true -> has fl PTE_W = true -> A2 !! c = Some (junk 0) ->
  (forall u, vpage u -> pte_at A2 root u = if decide (u = v) then pte_of c fl else pte_at A root u) ->
  (forall p, user_pa A root p -> A2 !! p = A !! p) ->
  forall a, uaddr a -> uview A2 root psz a = uview A root psz a /\ uwritable A2 root psz a = uwritable A root psz a.
Proof.
  intros Hv Hn Hps Hc Hfl H1 H2 H3 HA Hp Hu a Ha. pose proof (uaddr_page a Ha) as Hav.
  destruct (decide (a `div` 4096 = v)%Z) as [E|Hne].
  - unfold uview, uwritable. rewrite E, Hn, Hp, decide_True by auto. rewrite !pte_of_has, H1, H2, H3 by (try done; auto).
    rewrite (proj2 (Z.ltb_lt _ _) Hps). split; [|done]. rewrite pte_of_pa by done. unfold ubyte. rewrite HA. cbn [default id].
    unfold junk. by rewrite lookup_replicate_2 by (unfold PGBYTES, PGSIZE; div_lia).
  - apply uview_same; [done|by rewrite Hp, decide_False by auto|done].
Qed.

Lemma walkaddr_ok m A F root N v : vm m A F root N -> vpage v ->
  walkaddr m root (4096 * v) =
  Ret (m, if has (pte_at A root v) PTE_V && has (pte_at A root v) PTE_U then PTE2PA (pte_at A root v) else 0%Z).
Proof.
  intros V Hv. pose proof (vpage_va v Hv) as Hva. unfold walkaddr. rewrite (proj2 (Z.leb_gt _ _)) by lia.
  destruct (walk_lookup m A F root N v V Hv) as [[-> ->]|(q & -> & Hq & El)]; cbn [obind]; [done|].
  rewrite El. cbn [obind]. destruct (has _ PTE_V); [|done]. by destruct (has _ PTE_U).
Qed.

Lemma ismapped_ok m A F root N v : vm m A F root N -> vpage v ->
  ismapped m root (4096 * v) = Ret (m, has (pte_at A root v) PTE_V).
Proof.
  intros V Hv. unfold ismapped. destruct (walk_lookup m A F root N v V Hv) as [[-> ->]|(q & -> & Hq & El)]; cbn [obind]; [done|].
  by rewrite El.
Qed.

Lemma round_down_page v : (0 <= v)%Z -> PGROUNDDOWN (4096 * v) = (4096 * v)%Z.
Proof. intros. rewrite round_down by lia. unfold PGSIZE. rewrite Z.mul_comm, Z.mod_mul by lia. lia. Qed.

Lemma user_page_ok m A F root N psz v : space m A F root N -> uvpage v ->
  exists m' A' F' N' pa, user_page m root psz (4096 * v) = Ret (m', pa) /\ space m' A' F' root N' /\ evolve root A F N A' F' N' /\
    size F <= size F' + 3 /\
    (forall a, uaddr a -> uview A' root psz a = uview A root psz a /\ uwritable A' root psz a = uwritable A root psz a) /\
    ((pa = 0%Z /\ (uview A root psz (4096 * v) = None \/ size F <= 3)) \/
     (pa <> 0%Z /\ exists fl, pte_at A' root v = pte_of pa fl /\ is_flags fl /\ has fl PTE_V = true /\ has fl PTE_U = true /\ pg_heap pa)).
Proof.
  intros SP Hv. pose proof (sp_vm _ _ _ _ _ SP) as V. unfold user_page. rewrite (walkaddr_ok m A F root N v V) by auto. cbn [obind].
  assert (0 <= v)%Z as Hv0 by apply Hv.
  destruct (has (pte_at A root v) PTE_V) eqn:HV; [destruct (has (pte_at A root v) PTE_U) eqn:HU|]; cbn [andb].
  - destruct (sp_user _ _ _ _ _ SP v Hv HV) as (pa & fl & E & Hfl & Hh & Hs & Hn). pose proof (heap_phys pa Hh) as Hph.
    rewrite E, pte_of_has in HV, HU by auto. rewrite E, pte_of_pa by done. pose proof (pg_heap_addr pa Hh) as [_ Hpa0].
    rewrite (proj2 (Z.eqb_neq _ _)) by lia. exists m, A, F, N, pa. split_and!; try done; try lia.
    right. split; [lia|]. by exists fl.
  - cbn [Z.eqb]. unfold vmfault.
    assert (uview A root psz (4096 * v) = None) as Hnone.
    { unfold uview. rewrite (Z.mul_comm 4096 v), Z.div_mul by lia. by rewrite HV, HU. }
    exists m, A, F, N, 0%Z. split; [|split_and!; try done; try lia; left; split; [done|by left]].
    destruct (psz <=? 4096 * v)%Z; [done|]. rewrite round_down_page, (ismapped_ok m A F root N v V) by auto. cbn [obind]. by rewrite HV.
  - cbn [Z.eqb]. unfold vmfault. destruct (Z.leb_spec psz (4096 * v)) as [Hle|Hlt].
    { exists m, A, F, N, 0%Z. split_and!; try done; try lia. left. split; [done|]. left.
      unfold uview. rewrite (Z.mul_comm 4096 v), Z.div_mul by lia. rewrite HV, (proj2 (Z.ltb_ge _ _)) by lia. done. }
    rewrite round_down_page, (ismapped_ok m A F root N v V) by auto. cbn [obind]. rewrite HV.
    destruct (kalloc_zero m A F (vm_rep _ _ _ _ _ V)) as [[-> ->]|(m1 & m2 & c & -> & E0 & Hc & Hh & HcA & E2 & R1 & R2)]; cbn [obind].
    { exists m, A, ∅, N, 0%Z. split_and!; try done; try lia. left; split; [done|right; rewrite size_empty; lia]. }
    rewrite E0, E2. cbn [obind]. destruct fault_flags as (F1 & F2 & F3 & F4 & F5).
    destruct (map_page_ok m A F root N SP m2 c (junk 0) Hc R2 v _ Hv HV F4) as (m3 & r & -> & Hr). cbn [obind].
    destruct Hr as [(-> & A3 & F3' & N3 & S3 & Ev & HA & Hsz & Hp & Hu)|(-> & Hsz & m4 & A4 & F4' & N4 & Ek & S4 & Ev & Hp & Hu)]; cbn [Z.eqb negb].
    + exists m3, A3, F3', N3, c. split_and!; try done.
      * by eapply uview_fault; eauto; apply heap_phys.
      * right. split; [by apply Z.eqb_neq|]. eexists. split; [by rewrite Hp, decide_True by auto|]. done.
    + rewrite Ek. cbn [obind]. exists m4, A4, F4', N4, 0%Z. split_and!; try done; try lia; try (left; split; [done|by right]).
      intros a Ha. apply uview_same; [done|apply Hp; auto using uaddr_page|done].
Qed.

(** ** Copying *)

(** A write to a page of the user. *)
Lemma space_write m A F root N v pa fl m' d' : space m A F root N -> uvpage v -> pte_at A root v = pte_of pa fl -> is_flags fl ->
  has fl PTE_V = true -> pg_heap pa -> pg_rep m' (<[pa := d']> A) F ->
  space m' (<[pa := d']> A) F root N /\ evolve root A F N (<[pa := d']> A) F N /\
  (forall u, vpage u -> pte_at (<[pa := d']> A) root u = pte_at A root u).
Proof.
  intros SP Hv Hpte Hfl HV Hh R'. pose proof (heap_phys pa Hh) as Hph.
  assert (has (pte_at A root v) PTE_V = true) as Hhas by (by rewrite Hpte, pte_of_has by auto using is_flags_V).
  assert (user_pa A root pa) as Hu by (exists v; split_and!; [done|done|by rewrite Hpte, pte_of_pa]).
  assert (N !! pa = None) as HN by (pose proof (user_not_table _ _ _ _ _ SP v Hv Hhas) as E; by rewrite Hpte, pte_of_pa in E).
  destruct (pt_frame A (<[pa := d']> A) root N (vm_pt _ _ _ _ _ (sp_vm _ _ _ _ _ SP))) as [PT' Hp].
  { intros q [lx Hq]. rewrite lookup_insert_ne; [done|]. intros ->. congruence. }
  split; [|split; [|done]].
  - split; [by split| |].
    + intros u Huv. rewrite Hp by auto. intros Hhu. destruct (sp_user _ _ _ _ _ SP u Huv Hhu) as (p & f & E & Hf & Hpa & Hs & Hn).
      exists p, f. split_and!; try done. destruct (decide (pa = p)) as [->|]; [rewrite lookup_insert_eq; by eexists|by rewrite lookup_insert_ne].
    + intros u w Hu' Hw. rewrite !Hp by auto. by apply (sp_inj _ _ _ _ _ SP).
  - split.
    + intros p. unfold own, user_pa. split; (intros [[?|(u & Hu' & Hhu & E)]|?]; [left; by left| |by right];
        left; right; exists u; rewrite ?Hp in * by auto; rewrite ?Hp by auto; done).
    + intros p e Hpe Hno. rewrite lookup_insert_ne; [done|]. intros <-. apply Hno. by right.
Qed.

Lemma write_user m A F root N v pa fl off x psz : space m A F root N -> uvpage v -> pte_at A root v = pte_of pa fl -> is_flags fl ->
  has fl PTE_V = true -> has fl PTE_U = true -> pg_heap pa -> Forall is_byte x -> (0 <= off)%Z -> (off + Z.of_nat (length x) <= 4096)%Z ->
  exists d m' A', pg_get m pa = Ret d /\ pg_set m pa (splice (Z.to_nat off) x d) = Ret m' /\ space m' A' F root N /\
    evolve root A F N A' F N /\
    (forall a, uaddr a -> uwritable A' root psz a = uwritable A root psz a /\
       uview A' root psz a = if decide (4096 * v + off <= a < 4096 * v + off + Z.of_nat (length x))%Z
                             then Some (default 0%Z (x !! Z.to_nat (a - (4096 * v + off)))) else uview A root psz a).
Proof.
  intros SP Hv Hpte Hfl HV HU Hh Hx Hoff Hlen. pose proof (heap_phys pa Hh) as Hph. pose proof (sp_vm _ _ _ _ _ SP) as [R PT].
  assert (has (pte_at A root v) PTE_V = true) as Hhas by (by rewrite Hpte, pte_of_has by auto using is_flags_V).
  assert (is_Some (A !! pa)) as [d Hd].
  { apply (own_used _ _ _ _ _ SP pa). right. exists v. split_and!; [done|done|by rewrite Hpte, pte_of_pa]. }
  pose proof (pg_used_ok m A F pa d R Hd) as [Hdl Hdb]. unfold PGBYTES, PGSIZE in Hdl.
  assert (page_ok (splice (Z.to_nat off) x d)) as Hok.
  { split; [rewrite length_splice by lia; done|]. unfold splice. rewrite !Forall_app. auto using Forall_take, Forall_drop. }
  destruct (pg_set_ok m A F pa _ R ltac:(by eexists) Hok) as (m' & E & R').
  destruct (space_write m A F root N v pa fl m' _ SP Hv Hpte Hfl HV Hh R') as (S' & Ev & Hp).
  eexists d, m', _. split; [by eapply pg_get_ok|]. split; [done|]. split; [done|]. split; [done|]. intros a Ha.
  pose proof (uaddr_page a Ha) as Hav. unfold uwritable, uview. rewrite !Hp by auto. split; [done|].
  destruct (decide (a `div` 4096 = v)%Z) as [Ea|Hne].
  - rewrite Ea, Hpte, !pte_of_has, HV, HU, pte_of_pa by auto using is_flags_V. unfold ubyte. rewrite lookup_insert_eq, Hd. cbn [default id].
    assert (a = 4096 * v + a `mod` 4096)%Z as Eq by (subst v; div_lia). pose proof (Z.mod_pos_bound a 4096 ltac:(lia)) as Hm.
    case_decide as Hc.
    + replace (Z.to_nat (a `mod` 4096)) with (Z.to_nat off + (Z.to_nat (a `mod` 4096) - Z.to_nat off)) by lia.
      rewrite lookup_splice_in by lia. do 2 f_equal. f_equal. lia.
    + by rewrite lookup_splice_out by lia.
  - rewrite decide_False by div_lia. destruct (has (pte_at A root (a `div` 4096)) PTE_V) eqn:Hva; [|done].
    unfold ubyte. rewrite lookup_insert_ne; [done|]. intros E'. apply Hne. apply (sp_inj _ _ _ _ _ SP); try done.
    by rewrite <-E', Hpte, pte_of_pa.
Qed.

Lemma page_split a : (0 <= a)%Z -> PGROUNDDOWN a = (4096 * (a `div` 4096))%Z /\ (a - 4096 * (a `div` 4096) = a `mod` 4096)%Z.
Proof. intros. rewrite round_down by done. unfold PGSIZE. div_lia. Qed.

Lemma uwritable_page A root psz a b : (a `div` 4096 = b `div` 4096)%Z -> uwritable A root psz a = uwritable A root psz b.
Proof. intros E. unfold uwritable. by rewrite E. Qed.

Lemma uview_none A root psz a v : (a `div` 4096 = v)%Z -> uview A root psz (4096 * v) = None ->
  uview A root psz a = None /\ uwritable A root psz a = false.
Proof.
  intros <-. unfold uview, uwritable. rewrite (Z.mul_comm 4096), Z.div_mul, (Z.mul_comm _ 4096) by lia.
  destruct (has _ PTE_V); [destruct (has _ PTE_U); [done|done]|]. destruct (_ <? psz)%Z; done.
Qed.

(** The memory after [src] was stored at [dst] *)
Definition stored A root psz (dst : Z) (src : bytes) (a : Z) : option Z :=
  if decide (dst <= a < dst + Z.of_nat (length src))%Z then Some (default 0%Z (src !! Z.to_nat (a - dst))) else uview A root psz a.

Lemma copyout_loop_ok root psz : forall fuel k m A F N dst src, space m A F root N -> (0 <= dst)%Z ->
  (dst + Z.of_nat (length src) <= TRAPFRAME)%Z -> Forall is_byte src ->
  (dst `mod` 4096 + Z.of_nat (length src) <= 4096 * Z.of_nat k)%Z -> 3 * k < size F -> k < fuel ->
  exists m' A' F' N' r, copyout_loop m root psz dst src fuel = Ret (m', r) /\ space m' A' F' root N' /\ evolve root A F N A' F' N' /\
    size F <= size F' + 3 * k /\
    (forall a, uaddr a -> uwritable A' root psz a = uwritable A root psz a) /\
    ((r = 0%Z /\ (forall a, dst <= a < dst + Z.of_nat (length src) -> uwritable A root psz a = true)%Z /\
      forall a, uaddr a -> uview A' root psz a = stored A root psz dst src a) \/
     (r = (-1)%Z /\ (exists a, dst <= a < dst + Z.of_nat (length src) /\ uwritable A root psz a = false)%Z /\
      forall a, uaddr a -> ~ (dst <= a < dst + Z.of_nat (length src))%Z -> uview A' root psz a = uview A root psz a)).
Proof.
  induction fuel as [|fuel IH]; intros k m A F N dst src SP Hdst Htop Hby Hk HF Hfuel; [lia|]. cbn [copyout_loop].
  destruct (Z.ltb_spec 0 (Z.of_nat (length src))) as [Hlen|Hlen].
  2: { exists m, A, F, N, 0%Z. split_and!; try done; [lia|]. left. split_and!; try done; [lia|]. intros a Ha. unfold stored.
       by rewrite decide_False by lia. }
  destruct (page_split dst Hdst) as [-> ->]. set (v := (dst `div` 4096)%Z). set (off := (dst `mod` 4096)%Z) in *.
  assert (0 <= off < 4096)%Z as Hoff by (apply Z.mod_pos_bound; lia).
  assert (dst = 4096 * v + off)%Z as Ed by (subst v off; div_lia).
  assert (uaddr dst) as Hua by (split; lia). assert (uvpage v) as Hv by (by apply uaddr_page).
  rewrite TRAPFRAME_eq in Htop.
  rewrite (proj2 (Z.leb_gt _ _)) by (pose proof (vpage_va v ltac:(auto)); lia).
  destruct (user_page_ok m A F root N psz v SP Hv) as (m1 & A1 & F1 & N1 & pa & -> & S1 & Ev1 & Hsz1 & Hview1 & Hpa). cbn [obind].
  assert (dst `div` 4096 = v)%Z as Edv by done.
  destruct Hpa as [(-> & [Hnone|?])|(Hpa & fl & Hpte & Hfl & HV & HU & Hh)]; [|destruct k; lia|].
  { cbn. exists m1, A1, F1, N1, (-1)%Z. split_and!; try done; [lia|by intros a Ha; apply Hview1|]. right. split; [done|]. split.
    - exists dst. split; [lia|]. by apply (uview_none A root psz dst v).
    - intros a Ha _. by apply Hview1. }
  rewrite (proj2 (Z.eqb_neq _ _)) by done. pose proof (heap_phys pa Hh) as Hph.
  assert (has (pte_at A1 root v) PTE_V = true) as HV1 by (by rewrite Hpte, pte_of_has by auto using is_flags_V).
  destruct (walk_lookup m1 A1 F1 root N1 v (sp_vm _ _ _ _ _ S1) ltac:(auto)) as [[_ E0]|(q & -> & Hq & El)]; [by rewrite E0 in HV1|].
  cbn [obind from_option]. rewrite El, Hpte. cbn [obind]. rewrite pte_of_has by auto.
  assert (forall a, (a `div` 4096 = v)%Z -> uwritable A1 root psz a = has fl PTE_W) as Hw1.
  { intros a Ea. unfold uwritable. rewrite Ea, Hpte, !pte_of_has, HV, HU by auto using is_flags_V. done. }
  destruct (has fl PTE_W) eqn:HW; cbn [negb].
  2: { exists m1, A1, F1, N1, (-1)%Z. split_and!; try done; [lia|by intros a Ha; apply Hview1|]. right. split; [done|]. split.
       - exists dst. split; [lia|]. destruct (Hview1 dst Hua) as [_ <-]. by rewrite Hw1.
       - intros a Ha _. by apply Hview1. }
  set (n := Z.to_nat (Z.min (PGSIZE - off) (Z.of_nat (length src)))).
  assert (Z.of_nat n = Z.min (4096 - off) (Z.of_nat (length src)) /\ n <= length src) as [Hn Hnl] by (subst n; unfold PGSIZE; lia).
  destruct (write_user m1 A1 F1 root N1 v pa fl off (take n src) psz S1 Hv Hpte Hfl HV HU Hh) as (d & m2 & A2 & -> & E2 & S2 & Ev2 & Hview2);
    [by apply Forall_take|lia|rewrite length_take; lia|]. cbn [obind]. rewrite E2. cbn [obind].
  rewrite length_take, Nat.min_l, <-Ed in Hview2 by done.
  pose proof Hv as Hv'. unfold uvpage in Hv'. rewrite TRAPFRAME_eq in Hv'. change (274877898752 `div` 4096)%Z with 67108862%Z in Hv'.
  unfold PGSIZE. rewrite u64_small by lia. replace (4096 * v + 4096)%Z with (4096 * (v + 1))%Z by lia.
  destruct (IH (k - 1) m2 A2 F1 N1 (4096 * (v + 1))%Z (drop n src) S2) as (m3 & A3 & F3 & N3 & r & -> & S3 & Ev3 & Hsz3 & Hw3 & Hr).
  - lia.
  - rewrite length_drop, TRAPFRAME_eq. div_lia.
  - by apply Forall_drop.
  - rewrite (Z.mul_comm 4096), Z.mod_mul, length_drop by lia. lia.
  - destruct k; lia.
  - destruct k; lia.
  - rewrite length_drop in Hr.
    pose proof (vm_rep _ _ _ _ _ (sp_vm _ _ _ _ _ SP)) as Rm.
    assert (evolve root A F N A3 F3 N3) as Ev.
    { eapply (evolve_trans root m); [exact Rm| |exact Ev3]. by eapply (evolve_trans root m); [exact Rm|..]. }
    assert (forall a, uaddr a -> uwritable A2 root psz a = uwritable A root psz a) as Hw2.
    { intros a Ha. destruct (Hview2 a Ha) as [-> _]. by destruct (Hview1 a Ha) as [_ ->]. }
    exists m3, A3, F3, N3, r. split_and!; try done; [lia|intros a Ha; by rewrite Hw3, Hw2|].
    destruct Hr as [(-> & Hall & Hst)|(-> & (b & Hb & Hbw) & Hst)].
    + left. split; [done|]. split.
      * intros a Ha. destruct (decide (a `div` 4096 = v)%Z) as [Ea|Hna].
        { destruct (Hview1 a) as [_ <-]; [split; rewrite ?TRAPFRAME_eq; lia|]. by rewrite Hw1. }
        rewrite <-Hw2 by (split; rewrite ?TRAPFRAME_eq; lia). apply Hall. div_lia.
      * intros a Ha. rewrite Hst by done. unfold stored. rewrite length_drop. destruct (Hview2 a Ha) as [_ ->]. destruct (Hview1 a Ha) as [-> _].
        destruct (decide (dst <= a < dst + Z.of_nat n)%Z) as [H1|H1].
        -- rewrite decide_False, decide_True by lia. rewrite lookup_take_lt by lia. done.
        -- destruct (decide (4096 * (v + 1) <= a < 4096 * (v + 1) + Z.of_nat (length src - n))%Z) as [H2|H2].
           ++ rewrite decide_True by lia. rewrite lookup_drop. do 3 f_equal. lia.
           ++ by rewrite decide_False by lia.
    + right. split; [done|]. split.
      * exists b. split; [lia|]. rewrite <-Hw2; [done|]. split; rewrite ?TRAPFRAME_eq; lia.
      * intros a Ha Hna. rewrite Hst by (done || lia). destruct (Hview2 a Ha) as [_ ->]. rewrite decide_False by lia. by apply Hview1.
Qed.

Lemma copyout_ok m A F root N psz dst src : space m A F root N -> (0 <= dst)%Z -> (dst + Z.of_nat (length src) <= TRAPFRAME)%Z ->
  Forall is_byte src -> (3 * (Z.of_nat (length src) `div` 4096 + 2) < Z.of_nat (size F))%Z ->
  exists m' A' F' N' r, copyout m root psz dst src = Ret (m', r) /\ space m' A' F' root N' /\ evolve root A F N A' F' N' /\
    (Z.of_nat (size F) <= Z.of_nat (size F') + 3 * (Z.of_nat (length src) `div` 4096 + 2))%Z /\
    (forall a, uaddr a -> uwritable A' root psz a = uwritable A root psz a) /\
    ((r = 0%Z /\ (forall a, dst <= a < dst + Z.of_nat (length src) -> uwritable A root psz a = true)%Z /\
      forall a, uaddr a -> uview A' root psz a = stored A root psz dst src a) \/
     (r = (-1)%Z /\ (exists a, dst <= a < dst + Z.of_nat (length src) /\ uwritable A root psz a = false)%Z /\
      forall a, uaddr a -> ~ (dst <= a < dst + Z.of_nat (length src))%Z -> uview A' root psz a = uview A root psz a)).
Proof.
  intros SP Hd Ht Hb HF.
  destruct (copyout_loop_ok root psz (copy_fuel (length src)) (Z.to_nat (Z.of_nat (length src) `div` 4096) + 2) m A F N dst src)
    as (m' & A' & F' & N' & r & E & S' & Ev & Hsz & Hw & Hr); try done; try (unfold copy_fuel, PGSIZE; div_lia).
  exists m', A', F', N', r. split_and!; try done. div_lia.
Qed.

(** Reading a page of the user. *)
Lemma read_user m A F root N v pa fl psz : space m A F root N -> uvpage v -> pte_at A root v = pte_of pa fl -> is_flags fl ->
  has fl PTE_V = true -> has fl PTE_U = true -> pg_heap pa ->
  exists d, pg_get m pa = Ret d /\ page_ok d /\
    forall i, (0 <= i < 4096)%Z -> uview A root psz (4096 * v + i) = Some (default 0%Z (d !! Z.to_nat i)).
Proof.
  intros SP Hv Hpte Hfl HV HU Hh. pose proof (heap_phys pa Hh) as Hph. pose proof (sp_vm _ _ _ _ _ SP) as [R PT].
  assert (has (pte_at A root v) PTE_V = true) as Hhas by (by rewrite Hpte, pte_of_has by auto using is_flags_V).
  assert (is_Some (A !! pa)) as [d Hd].
  { apply (own_used _ _ _ _ _ SP pa). right. exists v. split_and!; [done|done|by rewrite Hpte, pte_of_pa]. }
  exists d. split; [by eapply pg_get_ok|]. split; [exact (pg_used_ok m A F pa d R Hd)|]. intros i Hi. unfold uview.
  assert ((4096 * v + i) `div` 4096 = v)%Z as -> by div_lia. rewrite Hpte, !pte_of_has, HV, HU, pte_of_pa by auto using is_flags_V.
  unfold ubyte. rewrite Hd. cbn [default id]. assert ((4096 * v + i) `mod` 4096 = i)%Z as -> by div_lia. done.
Qed.

(** [x] are the bytes at [src]. *)
Definition bytes_at A root psz (src : Z) (x : bytes) : Prop :=
  forall i b, x !! i = Some b -> uview A root psz (src + Z.of_nat i) = Some b.

Lemma bytes_at_slice A root psz v off n d : page_ok d -> (0 <= off)%Z -> (off + Z.of_nat n <= 4096)%Z ->
  (forall i, (0 <= i < 4096)%Z -> uview A root psz (4096 * v + i) = Some (default 0%Z (d !! Z.to_nat i))) ->
  bytes_at A root psz (4096 * v + off) (slice (Z.to_nat off) n d) /\ length (slice (Z.to_nat off) n d) = n.
Proof.
  intros [Hl _] Hoff Hn Hd. unfold PGBYTES, PGSIZE in Hl. assert (length (slice (Z.to_nat off) n d) = n) as Hs by (apply length_slice; lia).
  split; [|done]. intros i b Hi. pose proof (lookup_lt_Some _ _ _ Hi) as Hlt. rewrite Hs in Hlt. rewrite lookup_slice in Hi by lia.
  rewrite <-Z.add_assoc, Hd by lia. replace (Z.to_nat (off + Z.of_nat i)) with (Z.to_nat off + i) by lia. by rewrite Hi.
Qed.

Lemma bytes_at_app A root psz src x y : bytes_at A root psz src x -> bytes_at A root psz (src + Z.of_nat (length x)) y ->
  bytes_at A root psz src (x ++ y).
Proof.
  intros Hx Hy i b Hi. destruct (decide (i < length x)); [rewrite lookup_app_l in Hi by done; by apply Hx|].
  rewrite lookup_app_r in Hi by lia. specialize (Hy _ _ Hi). by replace (src + Z.of_nat i)%Z with (src + Z.of_nat (length x) + Z.of_nat (i - length x))%Z by lia.
Qed.

(** One round of the two functions that read: the page is there, or the first
    byte is not accessible. *)
Lemma read_round m A F root N psz src : space m A F root N -> uaddr src -> 3 < size F ->
  exists m' A' F' N' pa, user_page m root psz (PGROUNDDOWN src) = Ret (m', pa) /\ space m' A' F' root N' /\ evolve root A F N A' F' N' /\
    size F <= size F' + 3 /\
    (forall a, uaddr a -> uview A' root psz a = uview A root psz a /\ uwritable A' root psz a = uwritable A root psz a) /\
    ((pa = 0%Z /\ uview A root psz src = None) \/
     (pa <> 0%Z /\ exists d, pg_get m' pa = Ret d /\ page_ok d /\
        forall i, (0 <= i < 4096)%Z -> uview A' root psz (4096 * (src `div` 4096) + i) = Some (default 0%Z (d !! Z.to_nat i)))).
Proof.
  intros SP Ha HF. destruct (page_split src (proj1 Ha)) as [-> _]. pose proof (uaddr_page src Ha) as Hv.
  destruct (user_page_ok m A F root N psz _ SP Hv) as (m1 & A1 & F1 & N1 & pa & -> & S1 & Ev1 & Hsz1 & Hview1 & Hpa).
  exists m1, A1, F1, N1, pa. split_and!; try done.
  destruct Hpa as [(-> & [Hnone|?])|(Hpa & fl & Hpte & Hfl & HV & HU & Hh)]; [|lia|].
  - left. split; [done|]. by apply (uview_none A root psz src (src `div` 4096)).
  - right. split; [done|]. by eapply (read_user m1 A1 F1 root N1 _ pa fl psz S1 Hv).
Qed.

Definition same_memory root psz A A' : Prop :=
  forall a, uaddr a -> uview A' root psz a = uview A root psz a /\ uwritable A' root psz a = uwritable A root psz a.

Lemma bytes_at_same root psz A A' src x : same_memory root psz A A' -> (0 <= src)%Z -> (src + Z.of_nat (length x) <= TRAPFRAME)%Z ->
  bytes_at A' root psz src x <-> bytes_at A root psz src x.
Proof.
  intros Hs H1 H2. split; intros Hb i b Hi; pose proof (lookup_lt_Some _ _ _ Hi) as Hlt;
    (destruct (Hs (src + Z.of_nat i)%Z) as [E _]; [split; lia|]); [rewrite <-E|rewrite E]; by apply Hb.
Qed.

Lemma copyin_loop_ok root psz : forall fuel k m A F N dst src len, space m A F root N -> (0 <= src)%Z ->
  (src + Z.of_nat len <= TRAPFRAME)%Z -> (src `mod` 4096 + Z.of_nat len <= 4096 * Z.of_nat k)%Z -> 3 * k < size F -> k < fuel ->
  exists m' A' F' N' x r, copyin_loop m root psz dst src len fuel = Ret (m', dst ++ x, r) /\ space m' A' F' root N' /\
    evolve root A F N A' F' N' /\ same_memory root psz A A' /\
    ((r = 0%Z /\ length x = len /\ bytes_at A root psz src x) \/
     (r = (-1)%Z /\ exists a, (src <= a < src + Z.of_nat len)%Z /\ uview A root psz a = None)).
Proof.
  induction fuel as [|fuel IH]; intros k m A F N dst src len SP Hsrc Htop Hk HF Hfuel; [lia|]. cbn [copyin_loop].
  destruct (Z.ltb_spec 0 (Z.of_nat len)) as [Hlen|Hlen].
  2: { exists m, A, F, N, [], 0%Z. rewrite app_nil_r. split_and!; try done. left. split_and!; try done. cbn; lia. }
  assert (uaddr src) as Hua by (split; lia).
  pose proof (Z.mod_pos_bound src 4096 ltac:(lia)) as Hmp.
  destruct (read_round m A F root N psz src SP Hua ltac:(lia)) as (m1 & A1 & F1 & N1 & pa & -> & S1 & Ev1 & Hsz1 & Hview1 & Hpa).
  cbn [obind]. destruct Hpa as [[-> Hnone]|(Hpa & d & Ed & Hok & Hd)].
  { exists m1, A1, F1, N1, [], (-1)%Z. rewrite app_nil_r. cbn. split_and!; try done. right. split; [done|]. exists src. split; [lia|done]. }
  rewrite (proj2 (Z.eqb_neq _ _) Hpa), Ed. cbn [obind]. destruct (page_split src Hsrc) as [-> ->].
  set (v := (src `div` 4096)%Z) in *. set (off := (src `mod` 4096)%Z) in *.
  assert (0 <= off < 4096)%Z as Hoff by (apply Z.mod_pos_bound; lia). assert (src = 4096 * v + off)%Z as Es by (subst v off; div_lia).
  set (n := Z.to_nat (Z.min (PGSIZE - off) (Z.of_nat len))).
  assert (Z.of_nat n = Z.min (4096 - off) (Z.of_nat len) /\ n <= len) as [Hn Hnl] by (subst n; unfold PGSIZE; lia).
  destruct (bytes_at_slice A1 root psz v off n d Hok ltac:(lia) ltac:(lia) Hd) as [Hb Hbl]. rewrite <-Es in Hb.
  rewrite TRAPFRAME_eq in Htop. unfold PGSIZE. rewrite u64_small by lia. replace (4096 * v + 4096)%Z with (4096 * (v + 1))%Z by lia.
  destruct (IH (k - 1) m1 A1 F1 N1 (dst ++ slice (Z.to_nat off) n d) (4096 * (v + 1))%Z (len - n) S1)
    as (m2 & A2 & F2 & N2 & x & r & E2 & S2 & Ev2 & Hview2 & Hr).
  - lia.
  - rewrite TRAPFRAME_eq. div_lia.
  - rewrite (Z.mul_comm 4096), Z.mod_mul by lia. lia.
  - destruct k; lia.
  - destruct k; lia.
  - rewrite <-(assoc_L app) in E2. exists m2, A2, F2, N2, (slice (Z.to_nat off) n d ++ x), r. split; [done|]. split; [done|].
    split; [by eapply (evolve_trans root m); [apply (vm_rep _ _ _ _ _ (sp_vm _ _ _ _ _ SP))|..]|].
    split; [intros a Ha; destruct (Hview2 a Ha) as [-> ->]; by apply Hview1|].
    destruct Hr as [(-> & Hxl & Hx)|(-> & a & Ha & Hn')].
    + left. split; [done|]. split; [rewrite length_app; lia|].
      apply (bytes_at_same root psz A A1) in Hb; [|done|lia|rewrite Hbl, TRAPFRAME_eq; lia].
      destruct (decide (len = n)) as [Eln|Hne]; [assert (x = []) as -> by (destruct x; [done|simpl in Hxl; lia]); by rewrite app_nil_r|].
      apply bytes_at_app; [done|]. rewrite Hbl. replace (src + Z.of_nat n)%Z with (4096 * (v + 1))%Z by lia.
      apply (bytes_at_same root psz A A1); [done|lia|rewrite TRAPFRAME_eq; lia|done].
    + right. split; [done|]. exists a. split; [lia|]. destruct (Hview1 a) as [<- _]; [split; rewrite ?TRAPFRAME_eq; lia|done].
Qed.

Lemma copyin_ok m A F root N psz src len : space m A F root N -> (0 <= src)%Z -> (src + Z.of_nat len <= TRAPFRAME)%Z ->
  (3 * (Z.of_nat len `div` 4096 + 2) < Z.of_nat (size F))%Z ->
  exists m' A' F' N' x r, copyin m root psz src len = Ret (m', x, r) /\ space m' A' F' root N' /\
    evolve root A F N A' F' N' /\ same_memory root psz A A' /\
    ((r = 0%Z /\ length x = len /\ bytes_at A root psz src x) \/
     (r = (-1)%Z /\ exists a, (src <= a < src + Z.of_nat len)%Z /\ uview A root psz a = None)).
Proof.
  intros SP Hs Ht HF.
  apply (copyin_loop_ok root psz _ (Z.to_nat (Z.of_nat len `div` 4096) + 2) m A F N []); try done; unfold copy_fuel, PGSIZE; div_lia.
Qed.

(** *** Strings *)
Lemma copy_string_ok (d : bytes) : forall (n p : nat) (dst : bytes), p + n <= length d ->
  exists s got, copy_string d p n dst = Ret (dst ++ s, got) /\ length s <= n /\ s = slice p (length s) d /\
    if got : bool then exists s', s = s' ++ [0%Z] /\ Forall (fun c => c <> 0%Z) s' else length s = n /\ Forall (fun c => c <> 0%Z) s.
Proof.
  induction n as [|n IH]; intros p dst Hl; cbn [copy_string].
  { exists [], false. rewrite app_nil_r. by split_and!. }
  destruct (lookup_lt_is_Some_2 d p ltac:(lia)) as [c Hc]. rewrite (load_ret _ _ _ Hc). cbn [obind].
  assert (forall k, slice p (S k) d = c :: slice (S p) k d) as Hsl.
  { intros k. unfold slice. by rewrite (drop_S d c p Hc). }
  destruct (Z.eqb_spec c 0) as [->|Hne].
  - exists [0%Z], true. split; [done|]. split; [simpl; lia|]. split; [cbn [length]; by rewrite Hsl|]. by exists [].
  - destruct (IH (S p) (dst ++ [c]) ltac:(lia)) as (s & got & E & Hls & Es & Hs). rewrite <-(assoc_L app) in E.
    exists (c :: s), got. split; [exact E|]. split; [simpl; lia|]. split; [cbn [length]; by rewrite Hsl, <-Es|].
    destruct got.
    + destruct Hs as (s' & -> & Hs'). exists (c :: s'). split; [done|by constructor].
    + destruct Hs as [Hs1 Hs2]. split; [simpl; lia|by constructor].
Qed.

(** The string at [src] ends within [max] bytes. *)
Definition user_string A root psz (src : Z) (max : nat) (s : bytes) : Prop :=
  Forall (fun c => c <> 0%Z) s /\ bytes_at A root psz src (s ++ [0%Z]) /\ length s < max.

(** A byte before the end of the string is not accessible, or there is no end. *)
Definition no_string A root psz (src : Z) (max : nat) : Prop :=
  exists s, Forall (fun c => c <> 0%Z) s /\ bytes_at A root psz src s /\ length s <= max /\
    (length s = max \/ uview A root psz (src + Z.of_nat (length s)) = None).

Lemma copyinstr_loop_ok root psz : forall fuel k m A F N dst src max, space m A F root N -> (0 <= src)%Z ->
  (src + Z.of_nat max <= TRAPFRAME)%Z -> (src `mod` 4096 + Z.of_nat max <= 4096 * Z.of_nat k)%Z -> 3 * k < size F -> k < fuel ->
  exists m' A' F' N' x r, copyinstr_loop m root psz dst src max fuel = Ret (m', dst ++ x, r) /\ space m' A' F' root N' /\
    evolve root A F N A' F' N' /\ same_memory root psz A A' /\
    ((r = 0%Z /\ exists s, x = s ++ [0%Z] /\ user_string A root psz src max s) \/ (r = (-1)%Z /\ no_string A root psz src max)).
Proof.
  induction fuel as [|fuel IH]; intros k m A F N dst src max SP Hsrc Htop Hk HF Hfuel; [lia|]. cbn [copyinstr_loop].
  destruct (Z.ltb_spec 0 (Z.of_nat max)) as [Hlen|Hlen].
  2: { exists m, A, F, N, [], (-1)%Z. rewrite app_nil_r. split_and!; try done. right. split; [done|]. exists []. cbn. split_and!; try done; [|left]; lia. }
  assert (uaddr src) as Hua by (split; lia). pose proof (Z.mod_pos_bound src 4096 ltac:(lia)) as Hmp.
  destruct (read_round m A F root N psz src SP Hua ltac:(lia)) as (m1 & A1 & F1 & N1 & pa & -> & S1 & Ev1 & Hsz1 & Hview1 & Hpa).
  cbn [obind]. destruct Hpa as [[-> Hnone]|(Hpa & d & Ed & Hok & Hd)].
  { exists m1, A1, F1, N1, [], (-1)%Z. rewrite app_nil_r. cbn. split_and!; try done. right. split; [done|]. exists [].
    split_and!; try done; [cbn; lia|]. right. cbn. by rewrite Z.add_0_r. }
  rewrite (proj2 (Z.eqb_neq _ _) Hpa), Ed. cbn [obind]. destruct (page_split src Hsrc) as [-> ->].
  set (v := (src `div` 4096)%Z) in *. set (off := (src `mod` 4096)%Z) in *.
  assert (src = 4096 * v + off)%Z as Es by (subst v off; div_lia).
  set (n := Z.to_nat (Z.min (PGSIZE - off) (Z.of_nat max))).
  assert (Z.of_nat n = Z.min (4096 - off) (Z.of_nat max) /\ n <= max) as [Hn Hnl] by (subst n; unfold PGSIZE; lia).
  pose proof Hok as [Hdl _]. unfold PGBYTES, PGSIZE in Hdl.
  destruct (copy_string_ok d n (Z.to_nat off) dst ltac:(lia)) as (s & got & -> & Hsl & Ess & Hs). cbn [obind].
  assert (bytes_at A root psz src s) as Hb.
  { rewrite Ess. apply (bytes_at_same root psz A A1); [done|lia|rewrite length_slice; lia|].
    rewrite Es at 1. by apply (bytes_at_slice A1 root psz v off (length s) d Hok); [lia|lia|]. }
  destruct got.
  { destruct Hs as (s' & -> & Hs'). rewrite length_app in Hsl. cbn in Hsl. exists m1, A1, F1, N1, (s' ++ [0%Z]), 0%Z. split_and!; try done.
    left. split; [done|]. exists s'. split; [done|]. split_and!; try done. lia. }
  destruct Hs as [Hs1 Hs2]. rewrite TRAPFRAME_eq in Htop. unfold PGSIZE. rewrite u64_small by lia.
  replace (4096 * v + 4096)%Z with (4096 * (v + 1))%Z by lia.
  destruct (IH (k - 1) m1 A1 F1 N1 (dst ++ s) (4096 * (v + 1))%Z (max - n) S1) as (m2 & A2 & F2 & N2 & x & r & E2 & S2 & Ev2 & Hview2 & Hr).
  - lia.
  - rewrite TRAPFRAME_eq. div_lia.
  - rewrite (Z.mul_comm 4096), Z.mod_mul by lia. lia.
  - destruct k; lia.
  - destruct k; lia.
  - rewrite <-(assoc_L app) in E2. exists m2, A2, F2, N2, (s ++ x), r. split; [done|]. split; [done|].
    split; [by eapply (evolve_trans root m); [apply (vm_rep _ _ _ _ _ (sp_vm _ _ _ _ _ SP))|..]|].
    split; [intros a Ha; destruct (Hview2 a Ha) as [-> ->]; by apply Hview1|].
    assert (forall y, length y <= max - n -> 0 < length y -> bytes_at A1 root psz (4096 * (v + 1)) y -> bytes_at A root psz src (s ++ y)) as Hjoin.
    { intros y Hy Hy0 Hby. apply bytes_at_app; [done|]. rewrite Hs1. replace (src + Z.of_nat n)%Z with (4096 * (v + 1))%Z by lia.
      apply (bytes_at_same root psz A A1); [done|lia|rewrite TRAPFRAME_eq; lia|done]. }
    destruct Hr as [(-> & s2 & -> & Hz & Hb2 & Hl2)|(-> & s2 & Hz & Hb2 & Hl2 & Hend)].
    + left. split; [done|]. exists (s ++ s2). rewrite <-(assoc_L app). split; [done|]. split; [by apply Forall_app|].
      rewrite <-(assoc_L app). split; [apply Hjoin; [rewrite length_app; simpl; lia|rewrite length_app; simpl; lia|done]|rewrite length_app; lia].
    + right. split; [done|]. exists (s ++ s2). split; [by apply Forall_app|].
      split; [destruct s2; [by rewrite app_nil_r|apply Hjoin; [done|simpl; lia|done]]|]. rewrite length_app. split; [lia|].
      destruct (decide (max = n)) as [Emax|Hne]; [left; lia|]. destruct Hend as [?|Hend]; [left; lia|]. destruct (decide (length s2 = max - n)); [left; lia|right].
      rewrite Nat2Z.inj_add, Hs1. replace (src + (Z.of_nat n + Z.of_nat (length s2)))%Z with (4096 * (v + 1) + Z.of_nat (length s2))%Z by lia.
      destruct (Hview1 (4096 * (v + 1) + Z.of_nat (length s2))%Z) as [<- _]; [split; rewrite ?TRAPFRAME_eq; lia|done].
Qed.

Lemma copyinstr_ok m A F root N psz src max : space m A F root N -> (0 <= src)%Z -> (src + Z.of_nat max <= TRAPFRAME)%Z ->
  (3 * (Z.of_nat max `div` 4096 + 2) < Z.of_nat (size F))%Z ->
  exists m' A' F' N' x r, copyinstr m root psz src max = Ret (m', x, r) /\ space m' A' F' root N' /\
    evolve root A F N A' F' N' /\ same_memory root psz A A' /\
    ((r = 0%Z /\ exists s, x = s ++ [0%Z] /\ user_string A root psz src max s) \/ (r = (-1)%Z /\ no_string A root psz src max)).
Proof.
  intros SP Hs Ht HF.
  apply (copyinstr_loop_ok root psz _ (Z.to_nat (Z.of_nat max `div` 4096) + 2) m A F N []); try done; unfold copy_fuel, PGSIZE; div_lia.
Qed.

(** Two readings of the same bytes agree. *)
Lemma bytes_at_agree A root psz src x y i b : bytes_at A root psz src x -> bytes_at A root psz src y ->
  x !! i = Some b -> i < length y -> y !! i = Some b.
Proof.
  intros Hx Hy Hi Hl. destruct (lookup_lt_is_Some_2 y i Hl) as [c Hc]. specialize (Hx i b Hi). specialize (Hy i c Hc). congruence.
Qed.

Lemma no_early_end A root psz src s t : bytes_at A root psz src (s ++ [0%Z]) -> Forall (fun c => c <> 0%Z) t ->
  bytes_at A root psz src t -> ~ length s < length t.
Proof.
  intros Hbs Hnz Hb Hl. assert (t !! length s = Some 0%Z) as Hz0.
  { apply (bytes_at_agree A root psz src (s ++ [0%Z]) t); [done|done| |lia]. by rewrite lookup_app_r, Nat.sub_diag by lia. }
  by apply (proj1 (Forall_lookup _ _) Hnz _ _ Hz0).
Qed.

Lemma no_string_none A root psz src max s : no_string A root psz src max -> ~ user_string A root psz src max s.
Proof.
  intros (t & Hnz & Hb & Hl & Hend) (Hz & Hbs & Hls). destruct (decide (length t <= length s)) as [Hle|Hgt].
  - destruct Hend as [?|Hn]; [lia|]. destruct (lookup_lt_is_Some_2 (s ++ [0%Z]) (length t)) as [c Hc]; [rewrite length_app; simpl; lia|].
    specialize (Hbs _ _ Hc). congruence.
  - by apply (no_early_end A root psz src s t); [..|lia].
Qed.

Lemma user_string_unique A root psz src max s t : user_string A root psz src max s -> user_string A root psz src max t -> s = t.
Proof.
  intros (Hz & Hb & _) (Hz' & Hb' & _).
  assert (forall x, bytes_at A root psz src (x ++ [0%Z]) -> bytes_at A root psz src x) as Hpre
    by (intros x Hx i b Hi; apply Hx; by apply lookup_app_l_Some).
  destruct (Nat.lt_trichotomy (length s) (length t)) as [Hlt|[Heq|Hgt]].
  - by destruct (no_early_end A root psz src s t Hb Hz' (Hpre _ Hb') Hlt).
  - apply list_eq_same_length with (length s); [done|done|]. intros i x y Hi Hx Hy.
    assert (t !! i = Some x) by (apply (bytes_at_agree A root psz src s); eauto; lia). congruence.
  - by destruct (no_early_end A root psz src t s Hb' Hz (Hpre _ Hb) Hgt).
Qed.

(** ** A new address space *)
Lemma empty_tree A root : pg_heap root -> A !! root = Some (junk 0) ->
  pt_ok A root {[root := (2, 0%Z)]} /\ forall v, vpage v -> pte_at A root v = 0%Z.
Proof.
  intros Hh HA. assert (forall i, i < 512 -> entry A root i = 0%Z) as He.
  { intros i Hi. rewrite <-(insert_id A root (junk 0)) by done. by apply entry_zero. }
  assert (pt_ok A root {[root := (2, 0%Z)]}) as PT.
  { split.
    - apply lookup_singleton_eq.
    - intros p lx [<- <-]%lookup_singleton_Some. split; [by eexists|]. split; [done|]. cbn. lia.
    - by intros p x [<- _]%lookup_singleton_Some.
    - intros p q lx [<- <-]%lookup_singleton_Some [<- _]%lookup_singleton_Some. done.
    - intros p l x i [<- E]%lookup_singleton_Some Hi. by rewrite He.
    - intros p l x [<- E]%lookup_singleton_Some Hl. simplify_eq. lia. }
  split; [done|]. intros v Hv. apply (pte_at_none _ _ _ PT v Hv). intros q [_ E]%lookup_singleton_Some. done.
Qed.

Lemma uvmcreate_ok m A F : pg_rep m A F ->
  (F = ∅ /\ uvmcreate m = Ret (m, 0%Z)) \/
  exists m' root, uvmcreate m = Ret (m', root) /\ root ∈ F /\ space m' (<[root := junk 0]> A) (F ∖ {[root]}) root {[root := (2, 0%Z)]} /\
    (forall v, vpage v -> pte_at (<[root := junk 0]> A) root v = 0%Z) /\
    forall p, own (<[root := junk 0]> A) root {[root := (2, 0%Z)]} p <-> p = root.
Proof.
  intros R. unfold uvmcreate. destruct (kalloc_zero m A F R) as [[-> ->]|(m1 & m2 & c & -> & E0 & Hc & Hh & HcA & E2 & R1 & R2)]; cbn [obind].
  { left. by split. }
  right. rewrite E0, E2. cbn [obind]. exists m2, c. destruct (empty_tree (<[c := junk 0]> A) c Hh) as [PT Hp]; [apply lookup_insert_eq|].
  assert (forall v, uvpage v -> has (pte_at (<[c := junk 0]> A) c v) PTE_V = false) as Hno by (intros v Hv; by rewrite Hp by auto).
  split; [done|]. split; [done|]. split; [|split; [done|]].
  - split; [by split| |].
    + intros v Hv Hx. by rewrite Hno in Hx.
    + intros u v Hu Hv Hx. by rewrite Hno in Hx.
  - intros p. unfold own, user_pa. split.
    + intros [[lx [<- _]%lookup_singleton_Some]|(v & Hv & Hx & _)]; [done|]. by rewrite Hno in Hx.
    + intros ->. left. rewrite lookup_singleton_eq. by eexists.
Qed.
End space.

(** ** Claim *)

(** C10.  User memory holds what is copied out to it.  For a range below the trap
    frame and with enough free pages, [copyout] returns, and it returns 0
    exactly when every byte of the range is writable for the user, pages that
    the process never touched included, which it allocates; then [copyin] of
    the range delivers the data.  In any case no byte outside the range changes,
    as far as the user can see, no page gets lost, and no page of anybody else
    is touched; [copyin] returns -1 exactly when a byte of its range is not
    accessible. *)
Theorem copyout_copyin {M} `{PageLaws M} (m : M) A F root N (psz dst src : Z) (data : bytes) (len : nat)
    (SP : space m A F root N) (Hdst : (0 <= dst)%Z) (Htop : (dst + Z.of_nat (length data) <= TRAPFRAME)%Z) (Hby : Forall is_byte data)
    (Hsrc : (0 <= src)%Z) (Htops : (src + Z.of_nat len <= TRAPFRAME)%Z)
    (HF : (3 * (Z.of_nat (length data) `div` 4096 + 2) + 3 * (Z.of_nat (len + length data) `div` 4096 + 2) < Z.of_nat (size F))%Z) :
  exists m1 r1 A1 F1 N1, copyout m root psz dst data = Ret (m1, r1) /\ space m1 A1 F1 root N1 /\ evolve root A F N A1 F1 N1 /\
    (r1 = 0%Z <-> forall a, (dst <= a < dst + Z.of_nat (length data))%Z -> uwritable A root psz a = true) /\ (r1 = 0%Z \/ r1 = (-1)%Z) /\
    (forall a, uaddr a -> ~ (dst <= a < dst + Z.of_nat (length data))%Z -> uview A1 root psz a = uview A root psz a) /\
    (r1 = 0%Z -> exists m2, copyin m1 root psz dst (length data) = Ret (m2, data, 0%Z)) /\
    exists m2 x r2 A2 F2 N2, copyin m1 root psz src len = Ret (m2, x, r2) /\ space m2 A2 F2 root N2 /\ evolve root A F N A2 F2 N2 /\
      (r2 = 0%Z <-> forall a, (src <= a < src + Z.of_nat len)%Z -> is_Some (uview A1 root psz a)) /\
      (r2 = 0%Z -> length x = len /\ bytes_at A1 root psz src x).
Proof.
  destruct (copyout_ok m A F root N psz dst data SP Hdst Htop Hby ltac:(div_lia)) as (m1 & A1 & F1 & N1 & r1 & E1 & S1 & Ev1 & Hsz1 & Hw1 & Hr1).
  exists m1, r1, A1, F1, N1. split; [done|]. split; [done|]. split; [done|]. split; [|split; [|split; [|split]]].
  - destruct Hr1 as [(-> & Hall & _)|(-> & (a & Ha & Hn) & _)]; [done|]. split; [done|]. intros Hall. rewrite Hall in Hn by done. done.
  - destruct Hr1 as [(-> & _)|(-> & _)]; [by left|by right].
  - intros a Ha Hno. destruct Hr1 as [(_ & _ & Hst)|(_ & _ & Hst)]; [|by apply Hst]. rewrite Hst by done. unfold stored. by rewrite decide_False.
  - intros ->. destruct Hr1 as [(_ & _ & Hst)|(Hx & _)]; [|done].
    destruct (copyin_ok m1 A1 F1 root N1 psz dst (length data) S1 Hdst Htop ltac:(div_lia)) as (m2 & A2 & F2 & N2 & x & r & E2 & _ & _ & _ & Hr).
    assert (forall i, i < length data -> uview A1 root psz (dst + Z.of_nat i) = data !! i) as Hd.
    { intros i Hi. rewrite Hst by (split; lia). unfold stored. rewrite decide_True by lia.
      destruct (lookup_lt_is_Some_2 data i Hi) as [b Hb]. replace (Z.to_nat (dst + Z.of_nat i - dst)) with i by lia. by rewrite Hb. }
    destruct Hr as [(-> & Hl & Hx)|(_ & a & Ha & Hn)].
    + exists m2. rewrite E2. do 2 f_equal. f_equal. apply list_eq. intros i. destruct (decide (i < length data)) as [Hi|Hi].
      * destruct (lookup_lt_is_Some_2 x i ltac:(lia)) as [b Hb]. rewrite Hb. specialize (Hx i b Hb). rewrite Hd in Hx by done. done.
      * by rewrite !lookup_ge_None_2 by lia.
    + exfalso. specialize (Hd (Z.to_nat (a - dst)) ltac:(lia)). rewrite Z2Nat.id in Hd by lia. replace (dst + (a - dst))%Z with a in Hd by lia.
      rewrite Hn in Hd. symmetry in Hd. apply lookup_ge_None in Hd. lia.
  - destruct (copyin_ok m1 A1 F1 root N1 psz src len S1 Hsrc Htops ltac:(div_lia)) as (m2 & A2 & F2 & N2 & x & r & E2 & S2 & Ev2 & _ & Hr).
    exists m2, x, r, A2, F2, N2. split; [done|]. split; [done|].
    split; [by eapply (evolve_trans root m); [apply (vm_rep _ _ _ _ _ (sp_vm _ _ _ _ _ SP))|..]|].
    destruct Hr as [(-> & Hl & Hx)|(-> & a & Ha & Hn)].
    + split; [|done]. split; [|done]. intros _ a Ha. destruct (lookup_lt_is_Some_2 x (Z.to_nat (a - src)) ltac:(lia)) as [b Hb].
      specialize (Hx _ _ Hb). rewrite Z2Nat.id in Hx by lia. replace (src + (a - src))%Z with a in Hx by lia. by eexists.
    + split; [|done]. split; [done|]. intros Hall. destruct (Hall a Ha) as [? ?]. congruence.
Qed.

(** A system call gets the string its argument points to and never more.
    [copyinstr] of at most [max] bytes below the trap frame returns, with pages
    never touched before faulted in: it returns 0 with the bytes up to and
    including the first NUL exactly when all of them are accessible and lie
    within [max] bytes, and -1 exactly when there is no such string; what the
    user sees of the memory does not change, and no page is lost. *)
Theorem copyinstr_string {M} `{PageLaws M} (m : M) A F root N (psz src : Z) (max : nat)
    (SP : space m A F root N) (Hsrc : (0 <= src)%Z) (Htop : (src + Z.of_nat max <= TRAPFRAME)%Z)
    (HF : (3 * (Z.of_nat max `div` 4096 + 2) < Z.of_nat (size F))%Z) :
  exists m' A' F' N' x r, copyinstr m root psz src max = Ret (m', x, r) /\ space m' A' F' root N' /\
    evolve root A F N A' F' N' /\ same_memory root psz A A' /\
    ((r = 0%Z /\ exists s, x = s ++ [0%Z] /\ user_string A root psz src max s) \/
     (r = (-1)%Z /\ forall s, ~ user_string A root psz src max s)).
Proof.
  destruct (copyinstr_ok m A F root N psz src max SP Hsrc Htop HF) as (m' & A' & F' & N' & x & r & E & S' & Ev & Hv & Hr).
  exists m', A', F', N', x, r. split_and!; try done. destruct Hr as [?|[-> Hn]]; [by left|]. right. split; [done|]. intros s. by apply no_string_none.
Qed.

(** The laws of the machine with [n] pages. *)
Definition demo_page_laws (n : nat) (Hn : n < 1000) : PageLaws kmem (H := kmem_store (demo_end n)) :=
  kmem_laws (demo_end n) (proj1 (demo_range n Hn)).

Lemma lt_20 : 20 < 1000.
Proof. lia. Qed.

(** A process of 10000 bytes on it that has not touched its memory. *)
Lemma demo_space : exists k root A F N, @space _ _ (demo_page_laws 20 lt_20) k A F root N /\ size F = 19 /\
  forall v, vpage v -> pte_at A root v = 0%Z.
Proof.
  destruct (demo_boot 20 lt_20) as (k & F & _ & R & Hs).
  destruct (@uvmcreate_ok _ _ (demo_page_laws 20 lt_20) k ∅ F R) as [[-> _]|(k' & root & _ & Hr & SP & Hp & _)].
  - rewrite size_empty in Hs. lia.
  - exists k', root. do 3 eexists. split; [exact SP|]. split; [|exact Hp].
    rewrite size_difference, size_singleton, Hs by set_solver. done.
Qed.

Lemma copyout_copyin_witness : exists (k k1 k2 : kmem) root,
  copyout (H := kmem_store (demo_end 20)) k root 10000 4094 [7; 8; 9]%Z = Ret (k1, 0%Z) /\
  copyin (H := kmem_store (demo_end 20)) k1 root 10000 4094 3 = Ret (k2, [7; 8; 9]%Z, 0%Z).
Proof.
  destruct demo_space as (k & root & A & F & N & SP & Hs & Hp).
  destruct (@copyout_copyin _ _ (demo_page_laws 20 lt_20) k A F root N 10000 4094 0 [7; 8; 9]%Z 0 SP)
    as (k1 & r1 & A1 & F1 & N1 & E1 & _ & _ & Hr1 & _ & _ & Hin & _).
  - lia.
  - rewrite TRAPFRAME_eq. simpl. lia.
  - repeat constructor; unfold is_byte; lia.
  - lia.
  - rewrite TRAPFRAME_eq. lia.
  - rewrite Hs. reflexivity.
  - assert (r1 = 0%Z) as ->.
    { apply Hr1. intros a Ha. simpl in Ha. unfold uwritable. rewrite Hp by (split; [|rewrite MAXVA_eq]; div_lia).
      rewrite has_0. apply Z.ltb_lt. div_lia. }
    destruct (Hin eq_refl) as (k2 & E2). exists k, k1, k2, root. split; [exact E1|exact E2].
Defined.

Lemma copyinstr_string_witness : exists (k k1 k2 : kmem) root,
  copyout (H := kmem_store (demo_end 20)) k root 10000 4095 [104; 105; 0; 7]%Z = Ret (k1, 0%Z) /\
  copyinstr (H := kmem_store (demo_end 20)) k1 root 10000 4095 128 = Ret (k2, [104; 105; 0]%Z, 0%Z).
Proof.
  destruct demo_space as (k & root & A & F & N & SP & Hs & Hp).
  destruct (@copyout_ok _ _ (demo_page_laws 20 lt_20) k A F root N 10000 4095 [104; 105; 0; 7]%Z SP)
    as (k1 & A1 & F1 & N1 & r1 & E1 & S1 & _ & Hsz & _ & Hr1).
  - lia.
  - rewrite TRAPFRAME_eq. simpl. lia.
  - repeat constructor; unfold is_byte; lia.
  - rewrite Hs. reflexivity.
  - destruct Hr1 as [(-> & _ & Hst)|(_ & (a & Ha & Hn) & _)].
    2: { exfalso. simpl in Ha. unfold uwritable in Hn. rewrite Hp in Hn by (split; [|rewrite MAXVA_eq]; div_lia).
         rewrite has_0 in Hn. apply Z.ltb_ge in Hn. div_lia. }
    assert (forall i b, [104; 105; 0]%Z !! i = Some b -> uview A1 root 10000 (4095 + Z.of_nat i) = Some b) as Hb.
    { intros i b Hi. pose proof (lookup_lt_Some _ _ _ Hi) as Hl. simpl in Hl. rewrite Hst by (split; [|rewrite TRAPFRAME_eq]; lia).
      unfold stored. rewrite decide_True by (simpl; lia). replace (Z.to_nat (4095 + Z.of_nat i - 4095)) with i by lia.
      destruct i as [|[|[|i]]]; simpl in *; [congruence..|lia]. }
    destruct (@copyinstr_string _ _ (demo_page_laws 20 lt_20) k1 A1 F1 root N1 10000 4095 128 S1)
      as (k2 & A2 & F2 & N2 & x & r & E2 & _ & _ & _ & Hr).
    + lia.
    + rewrite TRAPFRAME_eq. lia.
    + rewrite Hs in Hsz. change (Z.of_nat (length [104; 105; 0; 7]%Z) `div` 4096)%Z with 0%Z in Hsz. change (Z.of_nat 128 `div` 4096)%Z with 0%Z. lia.
    + assert (user_string A1 root 10000 4095 128 [104; 105]%Z) as Hu by (split_and!; [by repeat constructor|exact Hb|simpl; lia]).
      destruct Hr as [(-> & s & -> & Hs')|[_ Hno]]; [|by destruct (Hno _ Hu)].
      rewrite <-(user_string_unique A1 root 10000 4095 128 _ _ Hu Hs') in E2. by exists k, k1, k2, root.
Defined.
