(* ===== verification/Uvm.v ===== *)
(** * Growing, shrinking, copying and freeing address spaces: proofs

    [uvmunmap], [uvmalloc], [uvmdealloc], [freewalk], [uvmfree], [uvmcopy] and
    their callers in proc.c, in terms of the spaces of [UserMem]. *)

From S2P Require Import Prelude.
From S2P Require Import Bytes.
From S2P Require Import Kstring.
From S2P Require Import Kalloc.
From S2P Require Import Vm.
From S2P Require Import PageTable.
From S2P Require Import UserMem.

Section uvm.
Context {M : Type} `{PageLaws M}.
Implicit Types (m : M) (A : gmap Z bytes) (F : gset Z) (N : gmap Z (nat * Z)) (p q root v : Z).

Lemma sp_rep m A F root N : space m A F root N -> pg_rep m A F.
Proof. intros SP. apply (vm_rep _ _ _ _ _ (sp_vm _ _ _ _ _ SP)). Qed.

Lemma user_entry m A F root N v : space m A F root N -> uvpage v -> has (pte_at A root v) PTE_V = true ->
  user_pa A root (PTE2PA (pte_at A root v)) /\ is_Some (A !! PTE2PA (pte_at A root v)) /\ pg_heap (PTE2PA (pte_at A root v)) /\
  N !! PTE2PA (pte_at A root v) = None.
Proof.
  intros SP Hv Hh. assert (user_pa A root (PTE2PA (pte_at A root v))) as Hu by (by exists v).
  split; [done|]. destruct (own_used _ _ _ _ _ SP _ (or_intror Hu)) as [? ?]. split_and!; try done. by apply (user_not_table _ _ _ _ _ SP).
Qed.

(** ** Removing entries *)

(** The entry of one user page is cleared and its page freed. *)
Lemma unmap_one m A F root N v q : space m A F root N -> uvpage v -> has (pte_at A root v) PTE_V = true ->
  N !! q = Some (0, (v `div` 512)%Z) ->
  exists m1 m2 A' F', pg_kfree m (PTE2PA (pte_at A root v)) = Ret m1 /\ pte_store m1 (q, Z.to_nat (v `mod` 512)) 0 = Ret m2 /\
    space m2 A' F' root N /\ evolve root A F N A' F' N /\ F ⊆ F' /\
    (forall u, vpage u -> pte_at A' root u = if decide (u = v) then 0%Z else pte_at A root u) /\
    (forall p, user_pa A' root p -> A' !! p = A !! p).
Proof.
  intros SP Hv Hh Hq. destruct (user_entry m A F root N v SP Hv Hh) as (Hu & Hs & Hhp & Hn). set (pa := PTE2PA (pte_at A root v)) in *.
  destruct (pg_kfree_ok m A F pa (sp_rep _ _ _ _ _ SP) Hs Hhp) as (m1 & E1 & R1).
  destruct (pt_frame A (delete pa A) root N (vm_pt _ _ _ _ _ (sp_vm _ _ _ _ _ SP))) as [PT1 P1].
  { intros p [lx Hp]. rewrite lookup_delete_ne; [done|]. intros <-. congruence. }
  destruct (store_leaf m1 _ _ root N q v 0 (Build_vm _ _ _ _ _ R1 PT1) ltac:(auto) Hq ltac:(lia)) as (m2 & A2 & E2 & V2 & P2 & Fr2).
  assert (forall u, vpage u -> pte_at A2 root u = if decide (u = v) then 0%Z else pte_at A root u) as P.
  { intros u Hu'. rewrite P2 by done. case_decide; [done|by apply P1]. }
  assert (forall u, uvpage u -> has (pte_at A2 root u) PTE_V = true -> u <> v /\ has (pte_at A root u) PTE_V = true /\ pte_at A2 root u = pte_at A root u) as Hold.
  { intros u Hu'. rewrite P by auto. by case_decide. }
  assert (forall p, user_pa A2 root p -> user_pa A root p /\ p <> pa) as HU.
  { intros p (u & Hu' & Hhu & E). destruct (Hold u Hu' Hhu) as (Hne & Hhu' & E'). rewrite E' in E. split; [by exists u|].
    intros ->. apply Hne. apply (sp_inj _ _ _ _ _ SP); done. }
  assert (forall p, N !! p = None -> p <> pa -> A2 !! p = A !! p) as Hsame.
  { intros p Hp Hne. rewrite Fr2 by (intros ->; rewrite Hq in Hp; discriminate). by apply lookup_delete_ne. }
  assert (forall p, user_pa A2 root p -> A2 !! p = A !! p) as Hcont.
  { intros p Hp. destruct (HU p Hp) as [(u & Hu' & Hhu & <-) Hne]. apply Hsame; [by apply (user_not_table _ _ _ _ _ SP)|done]. }
  exists m1, m2, A2, ({[pa]} ∪ F). split; [done|]. split; [done|]. split; [|split; [|split; [apply union_subseteq_r|split; [done|done]]]].
  - split; [done| |].
    + intros u Hu' Hhu. destruct (Hold u Hu' Hhu) as (Hne & Hhu' & E'). rewrite E'.
      destruct (sp_user _ _ _ _ _ SP u Hu' Hhu') as (p & fl & E & Hfl & Hp & Hps & Hpn). exists p, fl. split_and!; try done.
      rewrite Hcont; [done|]. exists u. split_and!; try done. rewrite E', E. apply pte_of_pa; [by apply heap_phys|done].
    + intros u w Hu' Hw Hhu Hhw. destruct (Hold u Hu' Hhu) as (_ & Hhu' & ->). destruct (Hold w Hw Hhw) as (_ & Hhw' & ->).
      by apply (sp_inj _ _ _ _ _ SP).
  - split.
    + intros p. unfold own. split.
      * intros [[?|Hp]|Hp]; [left; by left|left; right; by apply HU|]. apply elem_of_union in Hp as [->%elem_of_singleton|?]; [left; by right|by right].
      * intros [[?|Hp]|?]; [left; by left| |right; by apply elem_of_union_r].
        destruct (decide (p = pa)) as [->|Hne]; [right; by apply elem_of_union_l, elem_of_singleton|left; right].
        destruct Hp as (u & Hu' & Hhu & E). exists u. rewrite P, decide_False by (auto; intros ->; done). done.
    + intros p d Hd Hno. rewrite Hsame; [done| |].
      * destruct (N !! p) eqn:E; [|done]. destruct Hno. left. by eexists.
      * intros ->. apply Hno. by right.
Qed.

Definition cleared_range A root (v0 n v : Z) : Z :=
  if decide (v0 <= v < v0 + n)%Z then (if has (pte_at A root v) PTE_V then 0%Z else pte_at A root v) else pte_at A root v.

Lemma uvmunmap_loop_ok root N : forall fuel n m A F v0, space m A F root N -> (forall v, v0 <= v < v0 + Z.of_nat n -> uvpage v)%Z ->
  (0 <= v0)%Z -> n < fuel ->
  exists m' A' F', uvmunmap_loop m root (4096 * v0) (4096 * (v0 + Z.of_nat n)) true fuel = Ret m' /\ space m' A' F' root N /\
    evolve root A F N A' F' N /\ F ⊆ F' /\ (forall u, vpage u -> pte_at A' root u = cleared_range A root v0 (Z.of_nat n) u) /\
    (forall p, user_pa A' root p -> A' !! p = A !! p).
Proof.
  induction fuel as [|fuel IH]; intros n m A F v0 SP Hv H0v Hf; [lia|]. cbn [uvmunmap_loop]. destruct n as [|n].
  { rewrite (proj2 (Z.ltb_ge _ _)) by lia. exists m, A, F. split_and!; try done.
    intros u Hu. unfold cleared_range. by rewrite decide_False by lia. }
  rewrite (proj2 (Z.ltb_lt _ _)) by lia. pose proof (Hv v0 ltac:(lia)) as Hv0. pose proof (vpage_va v0 ltac:(auto)) as Hva.
  rewrite MAXVA_eq in Hva. unfold PGSIZE. rewrite u64_small by lia.
  replace (4096 * v0 + 4096)%Z with (4096 * (v0 + 1))%Z by lia.
  replace (4096 * (v0 + Z.of_nat (S n)))%Z with (4096 * (v0 + 1 + Z.of_nat n))%Z by lia.
  assert (forall m1 A1 F1, space m1 A1 F1 root N -> evolve root A F N A1 F1 N -> F ⊆ F1 ->
    (forall u, vpage u -> pte_at A1 root u = cleared_range A root v0 1 u) -> (forall p, user_pa A1 root p -> A1 !! p = A !! p) ->
    exists m' A' F', uvmunmap_loop m1 root (4096 * (v0 + 1)) (4096 * (v0 + 1 + Z.of_nat n)) true fuel = Ret m' /\ space m' A' F' root N /\
    evolve root A F N A' F' N /\ F ⊆ F' /\ (forall u, vpage u -> pte_at A' root u = cleared_range A root v0 (Z.of_nat (S n)) u) /\
    (forall p, user_pa A' root p -> A' !! p = A !! p)) as Hrest.
  { intros m1 A1 F1 S1 Ev1 Hsub P1 C1. destruct (IH n m1 A1 F1 (v0 + 1)%Z S1) as (m2 & A2 & F2 & -> & S2 & Ev2 & Hsub2 & P2 & C2);
      [intros v Hvr; apply Hv; lia|lia|lia|].
    exists m2, A2, F2. split; [done|]. split; [done|]. split; [by eapply (evolve_trans root m); [by eapply sp_rep|..]|].
    split; [by etrans|]. split.
    - intros u Hu. rewrite P2 by done. unfold cleared_range. rewrite P1 by done. unfold cleared_range.
      repeat case_decide; try lia; try done; by destruct (has (pte_at A root u) PTE_V) eqn:E; rewrite ?has_0, ?E.
    - intros p Hp. rewrite C2 by done. apply C1. destruct Hp as (u & Hu & Hh & E). exists u. rewrite P2 in Hh, E by auto.
      unfold cleared_range in Hh, E. case_decide; [|done]. destruct (has (pte_at A1 root u) PTE_V) eqn:E'; [done|]. by rewrite E' in Hh. }
  destruct (walk_lookup m A F root N v0 (sp_vm _ _ _ _ _ SP) ltac:(auto)) as [[-> E0]|(q & -> & Hq & El)]; cbn [obind].
  { apply (Hrest m A F); try done. intros u Hu. unfold cleared_range. case_decide; [|done]. assert (u = v0) as -> by lia. by rewrite E0. }
  rewrite El. cbn [obind]. destruct (has (pte_at A root v0) PTE_V) eqn:Hh; cbn [negb].
  - destruct (unmap_one m A F root N v0 q SP Hv0 Hh Hq) as (m1 & m2 & A2 & F2 & -> & E2 & S2 & Ev2 & Hsub & P2 & C2). cbn [obind].
    rewrite E2. cbn [obind]. apply (Hrest m2 A2 F2); try done. intros u Hu. rewrite P2 by done. unfold cleared_range.
    destruct (decide (u = v0)) as [->|]; [rewrite decide_True, Hh by lia; done|by rewrite decide_False by lia].
  - apply (Hrest m A F); try done. intros u Hu. unfold cleared_range. case_decide; [|done]. assert (u = v0) as -> by lia. by rewrite Hh.
Qed.

Lemma uvmunmap_ok m A F root N v0 n : space m A F root N -> (forall v, v0 <= v < v0 + n -> uvpage v)%Z -> (0 <= v0)%Z -> (0 <= n)%Z ->
  (v0 + n <= TRAPFRAME `div` 4096)%Z ->
  exists m' A' F', uvmunmap m root (4096 * v0) n true = Ret m' /\ space m' A' F' root N /\
    evolve root A F N A' F' N /\ F ⊆ F' /\ (forall u, vpage u -> pte_at A' root u = cleared_range A root v0 n u) /\
    (forall p, user_pa A' root p -> A' !! p = A !! p).
Proof.
  intros SP Hv Hv0 Hn Htop. rewrite TRAPFRAME_eq in Htop. change (274877898752 `div` 4096)%Z with 67108862%Z in Htop. unfold uvmunmap, PGSIZE.
  rewrite (Z.mul_comm 4096 v0), Z.mod_mul by lia. cbn [Z.eqb negb]. rewrite (Z.mul_comm v0 4096), (Z.mul_comm n 4096), <-Z.mul_add_distr_l.
  rewrite u64_small by lia.
  destruct (uvmunmap_loop_ok root N (S (Z.to_nat n)) (Z.to_nat n) m A F v0 SP) as (m' & A' & F' & E & S' & Ev & Hsub & P & C);
    [intros v Hvr; apply Hv; lia|done|lia|]. rewrite Z2Nat.id in E, P by done. by exists m', A', F'.
Qed.

(** ** Growing and shrinking *)

(** The number of pages of a size *)
Definition np (sz : Z) : Z := ((sz + 4095) `div` 4096)%Z.

Lemma round_up_np sz : (0 <= sz <= TRAPFRAME)%Z -> PGROUNDUP sz = (4096 * np sz)%Z.
Proof. rewrite TRAPFRAME_eq. intros. rewrite round_up by lia. unfold np, PGSIZE. do 2 f_equal. lia. Qed.

Lemma np_range sz : (0 <= sz <= TRAPFRAME)%Z -> (0 <= np sz <= TRAPFRAME `div` 4096)%Z.
Proof. rewrite TRAPFRAME_eq. unfold np. intros. div_lia. Qed.

Lemma np_4096 v : np (4096 * v) = v.
Proof. unfold np. div_lia. Qed.

Lemma uvpage_range v0 n v : (0 <= v0)%Z -> (v0 + n <= TRAPFRAME `div` 4096)%Z -> (v0 <= v < v0 + n)%Z -> uvpage v.
Proof. unfold uvpage. lia. Qed.

Lemma uvmdealloc_ok m A F root N oldsz newsz : space m A F root N -> (0 <= newsz <= TRAPFRAME)%Z -> (0 <= oldsz <= TRAPFRAME)%Z ->
  exists m' A' F', uvmdealloc m root oldsz newsz = Ret (m', Z.min oldsz newsz) /\ space m' A' F' root N /\ evolve root A F N A' F' N /\ F ⊆ F' /\
    (forall u, vpage u -> pte_at A' root u = cleared_range A root (np newsz) (np oldsz - np newsz) u) /\
    (forall p, user_pa A' root p -> A' !! p = A !! p).
Proof.
  intros SP Hnew Hold. unfold uvmdealloc.
  assert (np oldsz <= np newsz -> exists A' F', space m A' F' root N /\ evolve root A F N A' F' N /\ F ⊆ F' /\
    (forall u, vpage u -> pte_at A' root u = cleared_range A root (np newsz) (np oldsz - np newsz) u) /\
    (forall p, user_pa A' root p -> A' !! p = A !! p))%Z as Hnone.
  { intros Hle. exists A, F. split_and!; try done. intros u Hu. unfold cleared_range. by rewrite decide_False by lia. }
  destruct (Z.leb_spec oldsz newsz) as [Hle|Hlt].
  { destruct Hnone as (A' & F' & Hx); [unfold np; div_lia|]. exists m, A', F'. by rewrite Z.min_l. }
  rewrite Z.min_r by lia. rewrite !round_up_np by done. pose proof (np_range _ Hnew) as Hn1. pose proof (np_range _ Hold) as Hn2.
  destruct (Z.ltb_spec (4096 * np newsz) (4096 * np oldsz)) as [Hlt2|Hge].
  2: { destruct Hnone as (A' & F' & Hx); [lia|]. by exists m, A', F'. }
  rewrite <-Z.mul_sub_distr_l. unfold PGSIZE. rewrite (Z.mul_comm 4096 (np oldsz - np newsz)), Z.div_mul by lia.
  rewrite TRAPFRAME_eq in Hn1, Hn2. change (274877898752 `div` 4096)%Z with 67108862%Z in Hn1, Hn2.
  rewrite wrap32_small, u64_small by (unfold INT_MAX; lia).
  destruct (uvmunmap_ok m A F root N (np newsz) (np oldsz - np newsz) SP) as (m' & A' & F' & -> & Hx);
    [|lia|lia|rewrite TRAPFRAME_eq; change (274877898752 `div` 4096)%Z with 67108862%Z; lia|by exists m', A', F'].
  intros v Hv. apply (uvpage_range (np newsz) (np oldsz - np newsz)); [lia|rewrite TRAPFRAME_eq; change (274877898752 `div` 4096)%Z with 67108862%Z; lia|done].
Qed.

(** Between the old state [A0] and the state [A]: the pages [v0, v) are new
    pages of zeroes with the flags [fl], everything else of the user is as it
    was. *)
Record extended root A0 A (v0 v fl : Z) : Prop := {
  ex_new : forall u, (v0 <= u < v)%Z -> exists pa, pte_at A root u = pte_of pa fl /\ pg_heap pa /\ A !! pa = Some (junk 0);
  ex_old : forall u, vpage u -> ~ (v0 <= u < v)%Z -> pte_at A root u = pte_at A0 root u;
  ex_data : forall p, user_pa A0 root p -> A !! p = A0 !! p
}.

Lemma extended_refl root A v0 fl : extended root A A v0 v0 fl.
Proof. split; [lia|done|done]. Qed.

(** The roll-back of [uvmalloc]. *)
Definition rolled_back root A0 A (v0 v : Z) : Prop :=
  (forall u, vpage u -> ~ (v0 <= u < v)%Z -> pte_at A root u = pte_at A0 root u) /\
  (forall u, (v0 <= u < v)%Z -> has (pte_at A root u) PTE_V = false) /\
  (forall p, user_pa A0 root p -> A !! p = A0 !! p).

Section alloc.
Context root (A0 : gmap Z bytes) (F0 : gset Z) (N0 : gmap Z (nat * Z)) (m0 : M) (SP0 : space m0 A0 F0 root N0).
Context (v0 w : Z) (Hv0 : (0 <= v0)%Z) (Hw : (w <= TRAPFRAME `div` 4096)%Z).
Context (Hfree : forall u, uvpage u -> (v0 <= u)%Z -> has (pte_at A0 root u) PTE_V = false).
Context (xperm : Z) (Hx : is_flags xperm).
Abbreviation perm := (Z.lor (Z.lor PTE_R PTE_U) xperm).
Abbreviation fl := (Z.lor perm PTE_V).

Lemma alloc_flags : is_flags perm /\ is_flags fl /\ has fl PTE_V = true /\ has fl PTE_U = true.
Proof.
  assert (is_flags (Z.lor PTE_R PTE_U)) as H1 by (split; by vm_compute).
  assert (is_flags perm) as H2 by (by apply is_flags_lor).
  split; [done|]. split; [apply is_flags_lor; [done|apply is_flags_V]|]. split; rewrite !has_lor; [by rewrite orb_true_r|].
  by change (has PTE_U PTE_U) with true; rewrite ?orb_true_r.
Qed.

Lemma undo_ok m A F N v : space m A F root N -> evolve root A0 F0 N0 A F N -> extended root A0 A v0 v fl -> (v0 <= v <= w)%Z ->
  exists m' A' F' r, uvmdealloc m root (4096 * v) (4096 * v0) = Ret (m', r) /\ space m' A' F' root N /\ evolve root A0 F0 N0 A' F' N /\
    rolled_back root A0 A' v0 v.
Proof.
  intros SP Ev [X1 X2 X3] Hv. rewrite TRAPFRAME_eq in Hw. change (274877898752 `div` 4096)%Z with 67108862%Z in Hw.
  destruct (uvmdealloc_ok m A F root N (4096 * v) (4096 * v0) SP) as (m' & A' & F' & E & S' & Ev' & Hsub & P & C); [rewrite TRAPFRAME_eq; lia..|].
  rewrite !np_4096 in P. exists m', A', F', (Z.min (4096 * v) (4096 * v0)). split; [done|]. split; [done|].
  split; [by eapply (evolve_trans root m0); [by eapply sp_rep|..]|]. split; [|split].
  - intros u Hu Hno. rewrite P by done. unfold cleared_range. rewrite decide_False by lia. by apply X2.
  - intros u Hu. assert (vpage u) as Hvp by (unfold vpage; rewrite MAXVA_eq; change (274877906944 `div` 4096)%Z with 67108864%Z; lia).
    rewrite P by done. unfold cleared_range. rewrite decide_True by lia. by destruct (has (pte_at A root u) PTE_V) eqn:E2.
  - intros p Hp. rewrite <-X3 by done. apply C. destruct Hp as (u & Hu & Hh & E2). assert (~ (v0 <= u)%Z) as Hno by (intros Hc; by rewrite Hfree in Hh).
    exists u. rewrite P by auto. unfold cleared_range. rewrite decide_False by lia. rewrite X2 by (auto; lia). done.
Qed.

Lemma uvmalloc_loop_ok newsz : w = np newsz -> (0 <= newsz)%Z -> forall fuel m A F N v, space m A F root N -> evolve root A0 F0 N0 A F N ->
  extended root A0 A v0 v fl -> (v0 <= v)%Z -> (v <= w \/ v = v0)%Z -> (w - v < Z.of_nat fuel)%Z -> 0 < fuel ->
  exists m' A' F' N' r, uvmalloc_loop m root (4096 * v) (4096 * v0) newsz xperm fuel = Ret (m', r) /\ space m' A' F' root N' /\
    evolve root A0 F0 N0 A' F' N' /\
    ((r = newsz /\ extended root A0 A' v0 (Z.max v w) fl) \/
     (r = 0%Z /\ (v < w)%Z /\ rolled_back root A0 A' v0 w /\ (Z.of_nat (size F) <= 3 * (w - v))%Z)).
Proof.
  intros Ew Hns. pose proof alloc_flags as (Fp & Ff & FV & FU).
  assert (forall A v, rolled_back root A0 A v0 v -> (v <= w)%Z -> rolled_back root A0 A v0 w) as Hroll.
  { intros A v (B1 & B2 & B3) Hv. split; [|split; [|done]].
    - intros u Hu Hno. apply B1; [done|lia].
    - intros u Hu. destruct (decide (u < v)%Z); [by apply B2; lia|]. assert (uvpage u) as Huv by (unfold uvpage; lia).
      rewrite B1 by (auto; lia). apply Hfree; [done|lia]. }
  induction fuel as [|fuel IH]; intros m A F N v SP Ev EX Hv Hvw Hf Hf0; [lia|]. cbn [uvmalloc_loop].
  destruct (Z.ltb_spec (4096 * v) newsz) as [Hlt|Hge].
  2: { assert (w <= v)%Z as Hwv by (subst w; unfold np; div_lia). exists m, A, F, N, newsz. split_and!; try done. left. split; [done|]. by rewrite Z.max_l. }
  assert (v < w)%Z as Hlt' by (subst w; unfold np; div_lia). assert (uvpage v) as Huv by (unfold uvpage; lia).
  destruct (kalloc_zero m A F (sp_rep _ _ _ _ _ SP)) as [[-> ->]|(m1 & m2 & c & -> & E0 & Hc & Hh & HcA & E2 & R1 & R2)]; cbn [obind].
  { cbn [Z.eqb]. destruct (undo_ok m A ∅ N v SP Ev EX ltac:(lia)) as (m' & A' & F' & r & -> & S' & Ev' & Hrb). cbn [obind].
    exists m', A', F', N, 0%Z. split_and!; try done. right. split_and!; try done; [by apply (Hroll A' v); [|lia]|rewrite size_empty; lia]. }
  rewrite E0, E2. cbn [obind].
  assert (has (pte_at A root v) PTE_V = false) as Hnone by (rewrite (ex_old _ _ _ _ _ _ EX) by (auto; lia); by apply Hfree).
  destruct (map_page_ok m A F root N SP m2 c (junk 0) Hc R2 v perm Huv Hnone Fp) as (m3 & r & -> & Hr). cbn [obind].
  assert (forall p, user_pa A0 root p -> user_pa A root p) as Hkeep.
  { intros p (u & Hu & Hhu & E). assert (~ (v0 <= u)%Z) as Hno by (intros Hc'; by rewrite Hfree in Hhu).
    exists u. rewrite (ex_old _ _ _ _ _ _ EX) by (auto; lia). done. }
  destruct Hr as [(-> & A3 & F3 & N3 & S3 & Ev3 & HA & Hsz & P3 & C3)|(-> & Hsz & m4 & A4 & F4 & N4 & Ek & S4 & Ev4 & P4 & C4)]; cbn [Z.eqb negb].
  - pose proof (vpage_va v ltac:(auto)) as Hva. rewrite MAXVA_eq in Hva. unfold PGSIZE. rewrite u64_small by lia.
    replace (4096 * v + 4096)%Z with (4096 * (v + 1))%Z by lia.
    destruct (IH m3 A3 F3 N3 (v + 1)%Z S3) as (m' & A' & F' & N' & r & E & S' & Ev' & Hr); try lia.
    + by eapply (evolve_trans root m0); [by eapply sp_rep|..].
    + split.
      * intros u Hu. destruct (decide (u = v)) as [->|Hne].
        -- exists c. rewrite P3, decide_True by auto. done.
        -- destruct (ex_new _ _ _ _ _ _ EX u ltac:(lia)) as (pa & Ep & Hpa & Hd). assert (uvpage u) as Huu by (unfold uvpage; lia).
           exists pa. rewrite P3, decide_False by auto. split_and!; try done. rewrite C3; [done|].
           exists u. rewrite Ep, pte_of_has, pte_of_pa by (done || (by apply heap_phys) || apply is_flags_V). done.
      * intros u Hu Hno. rewrite P3, decide_False by (auto; lia). apply (ex_old _ _ _ _ _ _ EX); [done|lia].
      * intros p Hp. rewrite C3 by (by apply Hkeep). by apply (ex_data _ _ _ _ _ _ EX).
    + exists m', A', F', N', r. split; [done|]. split; [done|]. split; [done|].
      destruct Hr as [[-> HX]|(-> & H1 & H2 & H3)]; [left; split; [done|]; by replace (Z.max v w) with (Z.max (v + 1) w) by lia|right].
      split_and!; try done; lia.
  - rewrite Ek. cbn [obind]. assert (evolve root A0 F0 N0 A4 F4 N4) as Ev04 by (by eapply (evolve_trans root m0); [by eapply sp_rep|..]).
    assert (extended root A0 A4 v0 v fl) as EX4.
    { split.
      - intros u Hu. destruct (ex_new _ _ _ _ _ _ EX u Hu) as (pa & Ep & Hpa & Hd). assert (uvpage u) as Huu by (unfold uvpage; lia).
        exists pa. rewrite P4 by auto. split_and!; try done. rewrite C4; [done|].
        exists u. rewrite Ep, pte_of_has, pte_of_pa by (done || (by apply heap_phys) || apply is_flags_V). done.
      - intros u Hu Hno. rewrite P4 by done. by apply (ex_old _ _ _ _ _ _ EX).
      - intros p Hp. rewrite C4 by (by apply Hkeep). by apply (ex_data _ _ _ _ _ _ EX). }
    destruct (undo_ok m4 A4 F4 N4 v S4 Ev04 EX4 ltac:(lia)) as (m' & A' & F' & r & -> & S' & Ev' & Hrb). cbn [obind].
    exists m', A', F', N4, 0%Z. split_and!; try done. right. split_and!; try done; [by apply (Hroll A' v); [|lia]|lia].
Qed.
End alloc.
End uvm.

(** ** [growproc] *)
Lemma uview_keep A A' root psz psz' a :
  pte_at A' root (a `div` 4096) = pte_at A root (a `div` 4096) ->
  (has (pte_at A root (a `div` 4096)) PTE_V = true -> A' !! PTE2PA (pte_at A root (a `div` 4096)) = A !! PTE2PA (pte_at A root (a `div` 4096))) ->
  (4096 * (a `div` 4096) < psz <-> 4096 * (a `div` 4096) < psz')%Z ->
  uview A' root psz' a = uview A root psz a /\ uwritable A' root psz' a = uwritable A root psz a.
Proof.
  intros E Hd Hp. unfold uview, uwritable, ubyte. rewrite E.
  assert ((4096 * (a `div` 4096) <? psz')%Z = (4096 * (a `div` 4096) <? psz)%Z) as -> by (apply eq_true_iff_eq; rewrite !Z.ltb_lt; tauto).
  destruct (has _ PTE_V); [|done]. by rewrite Hd.
Qed.

(** The state after [growproc]: [sz'] is the new size. *)
Record resized {M} `{PageLaws M} (A A' : gmap Z bytes) (root sz sz' : Z) : Prop := {
  rz_above : forall v, uvpage v -> (np sz' <= v)%Z -> has (pte_at A' root v) PTE_V = false;
  rz_kept : forall a, (0 <= a < 4096 * np (Z.min sz sz'))%Z ->
    uview A' root sz' a = uview A root sz a /\ uwritable A' root sz' a = uwritable A root sz a;
  rz_new : forall a, (4096 * np sz <= a < 4096 * np sz')%Z -> uview A' root sz' a = Some 0%Z /\ uwritable A' root sz' a = true
}.

Section resize.
Context {M : Type} `{PageLaws M}.

Lemma resized_same A A' root sz : (0 <= sz <= TRAPFRAME)%Z ->
  (forall v, uvpage v -> (np sz <= v)%Z -> has (pte_at A' root v) PTE_V = false) ->
  (forall u, uvpage u -> (u < np sz)%Z -> pte_at A' root u = pte_at A root u) -> (forall p, user_pa A root p -> A' !! p = A !! p) ->
  resized A A' root sz sz.
Proof.
  intros Hsz Hab He Hd. pose proof (np_range _ Hsz) as Hnp. split; [done| |lia]. intros a Ha. rewrite Z.min_id in Ha.
  assert (uvpage (a `div` 4096)) as Huv by (unfold uvpage; div_lia).
  apply uview_keep; [apply He; [done|div_lia]|intros Hh; apply Hd; by exists (a `div` 4096)%Z|done].
Qed.

Lemma resized_grow A A' root sz sz' : (0 <= sz <= sz')%Z -> (sz' <= TRAPFRAME)%Z ->
  (forall v, uvpage v -> (np sz <= v)%Z -> has (pte_at A root v) PTE_V = false) ->
  extended root A A' (np sz) (Z.max (np sz) (np sz')) (Z.lor (Z.lor (Z.lor PTE_R PTE_U) PTE_W) PTE_V) -> resized A A' root sz sz'.
Proof.
  intros Hsz Htop Hab [X1 X2 X3]. pose proof (np_range sz ltac:(lia)) as Hn. pose proof (np_range sz' ltac:(lia)) as Hn'.
  assert (np sz <= np sz')%Z as Hle by (unfold np; div_lia). rewrite Z.max_r in X1, X2 by lia. split.
  - intros v Hv Hge. rewrite X2 by (auto; lia). apply Hab; [done|lia].
  - intros a Ha. rewrite Z.min_l in Ha by lia. assert (uvpage (a `div` 4096)) as Huv by (unfold uvpage; div_lia).
    apply uview_keep; [apply X2; [auto|div_lia]|intros Hh; apply X3; by exists (a `div` 4096)%Z|unfold np in Ha; div_lia].
  - intros a Ha. assert (uvpage (a `div` 4096)) as Huv by (unfold uvpage; div_lia).
    destruct (X1 (a `div` 4096)%Z ltac:(div_lia)) as (pa & E & Hh & Hd). unfold uview, uwritable. rewrite E.
    assert (is_flags (Z.lor (Z.lor (Z.lor PTE_R PTE_U) PTE_W) PTE_V)) as Hfl by (split; by vm_compute).
    rewrite !pte_of_has, pte_of_pa by (done || (by apply heap_phys) || (split; by vm_compute)). split; [|done].
    change (has (Z.lor (Z.lor (Z.lor PTE_R PTE_U) PTE_W) PTE_V) PTE_V) with true.
    change (has (Z.lor (Z.lor (Z.lor PTE_R PTE_U) PTE_W) PTE_V) PTE_U) with true. cbn iota. unfold ubyte. rewrite Hd. cbn [default id].
    unfold junk. by rewrite lookup_replicate_2 by (unfold PGBYTES, PGSIZE; div_lia).
Qed.

Lemma resized_shrink A A' root sz sz' : (0 <= sz' <= sz)%Z -> (sz <= TRAPFRAME)%Z ->
  (forall v, uvpage v -> (np sz <= v)%Z -> has (pte_at A root v) PTE_V = false) ->
  (forall u, vpage u -> pte_at A' root u = cleared_range A root (np sz') (np sz - np sz') u) ->
  (forall p, user_pa A' root p -> A' !! p = A !! p) -> resized A A' root sz sz'.
Proof.
  intros Hsz Htop Hab HP Hd. pose proof (np_range sz ltac:(lia)) as Hn. assert (np sz' <= np sz)%Z as Hle by (unfold np; div_lia). split; [| |lia].
  - intros v Hv Hge. rewrite HP by auto. unfold cleared_range. case_decide.
    + by destruct (has (pte_at A root v) PTE_V) eqn:E.
    + apply Hab; [done|lia].
  - intros a Ha. rewrite Z.min_r in Ha by lia. assert (uvpage (a `div` 4096)) as Huv by (unfold uvpage; div_lia).
    assert (pte_at A' root (a `div` 4096) = pte_at A root (a `div` 4096)) as E.
    { rewrite HP by auto. unfold cleared_range. by rewrite decide_False by div_lia. }
    apply uview_keep; [done| |unfold np in *; div_lia]. intros Hh. apply Hd. exists (a `div` 4096)%Z. rewrite E. done.
Qed.
End resize.

(** [growproc] resizes the process.  It returns; on success the size is
    [sz + n] (a request to shrink below zero is ignored and reported as
    success), the contents up to the smaller size are kept, a grown process
    finds new writable pages of zeroes from the next page boundary on, and a
    shrunk one has no page above its size; it fails only when the size would
    reach the trap frame or memory runs out, and then the process is as before.
    In all cases no page is lost and no page of anybody else is touched. *)
Theorem growproc_resizes {M} `{PageLaws M} (m : M) A F root N (sz n : Z)
    (SP : space m A F root N) (Hsz : (0 <= sz <= TRAPFRAME)%Z) (Hn : (-2147483648 <= n <= INT_MAX)%Z)
    (Habove : forall v, uvpage v -> (np sz <= v)%Z -> has (pte_at A root v) PTE_V = false) :
  exists m' A' F' N' sz' r, growproc m root sz n = Ret (m', sz', r) /\ space m' A' F' root N' /\ evolve root A F N A' F' N' /\
    resized A A' root sz sz' /\
    ((r = 0%Z /\ sz' = if decide (sz + n < 0)%Z then sz else (sz + n)%Z) \/
     (r = (-1)%Z /\ sz' = sz /\ (TRAPFRAME < sz + n \/ 0 < n /\ Z.of_nat (size F) <= 3 * (np (sz + n) - np sz))%Z)).
Proof.
  unfold INT_MAX in Hn. rewrite TRAPFRAME_eq in Hsz. unfold growproc. rewrite TRAPFRAME_eq. destruct (Z.ltb_spec 0 n) as [Hpos|Hneg].
  - rewrite u64_small by lia. rewrite decide_False by lia. destruct (Z.ltb_spec 274877898752 (sz + n)) as [Hbig|Hfit].
    { exists m, A, F, N, sz, (-1)%Z. split_and!; try done; [|right; split_and!; (done || lia)]. apply resized_same; try done; try (rewrite TRAPFRAME_eq; lia). }
    unfold uvmalloc. rewrite (proj2 (Z.ltb_ge _ _)) by lia. rewrite round_up_np by (rewrite TRAPFRAME_eq; lia).
    pose proof (np_range (sz + n) ltac:(rewrite TRAPFRAME_eq; lia)) as Hnp'. pose proof (np_range sz ltac:(rewrite TRAPFRAME_eq; lia)) as Hnp.
    assert (is_flags PTE_W) as Fw by (split; by vm_compute).
    destruct (uvmalloc_loop_ok root A F N m SP (np sz) (np (sz + n)) ltac:(lia) ltac:(lia) Habove PTE_W Fw (sz + n) eq_refl ltac:(lia)
      (S (Z.to_nat ((sz + n - 4096 * np sz + PGSIZE - 1) `div` PGSIZE))) m A F N (np sz) SP (evolve_refl _ _ _ _) (extended_refl _ _ _ _))
      as (m' & A' & F' & N' & r & -> & S' & Ev' & Hr); try lia.
    { unfold PGSIZE, np. div_lia. }
    cbn [obind]. destruct Hr as [[-> HX]|(-> & Hlt & (B1 & B2 & B3) & Hs)].
    + rewrite (proj2 (Z.eqb_neq _ _)) by lia. exists m', A', F', N', (sz + n)%Z, 0%Z. split_and!; try done; [|by left].
      apply resized_grow; try done; try lia; try (rewrite TRAPFRAME_eq; lia).
    + exists m', A', F', N', sz, (-1)%Z. split_and!; try done; [|right; split_and!; (done || lia)].
      apply resized_same; [rewrite TRAPFRAME_eq; lia| | |done].
      * intros v Hv Hge. destruct (decide (v < np (sz + n))%Z); [by apply B2; lia|]. rewrite B1 by (auto; lia). by apply Habove.
      * intros u Hu Hlt'. apply B1; [auto|lia].
  - destruct (Z.ltb_spec n 0) as [Hlt|Hz].
    2: { assert (n = 0%Z) as -> by lia. exists m, A, F, N, sz, 0%Z. rewrite decide_False, Z.add_0_r by lia. split_and!; try done; [|by left].
         apply resized_same; try done; try (rewrite TRAPFRAME_eq; lia). }
    case_decide as Hneg'.
    + unfold uvmdealloc. assert (sz <= u64 (sz + n))%Z as Hu.
      { unfold u64. rewrite <-(Z.mod_add _ 1) by lia. rewrite Z.mod_small by lia. lia. }
      rewrite (proj2 (Z.leb_le _ _)) by done. cbn [obind]. exists m, A, F, N, sz, 0%Z. split_and!; try done; [|by left].
      apply resized_same; try done; try (rewrite TRAPFRAME_eq; lia).
    + rewrite u64_small by lia. destruct (uvmdealloc_ok m A F root N sz (sz + n) SP) as (m' & A' & F' & -> & S' & Ev' & _ & P & C); [rewrite TRAPFRAME_eq; lia..|].
      cbn [obind]. rewrite Z.min_r by lia. exists m', A', F', N, (sz + n)%Z, 0%Z. split_and!; try done; [|by left].
      apply resized_shrink; try done; try lia; try (rewrite TRAPFRAME_eq; lia).
Qed.

Lemma growproc_resizes_witness : exists (k k' : kmem) root, growproc (H := kmem_store (demo_end 20)) k root 10000 5000 = Ret (k', 15000%Z, 0%Z).
Proof.
  destruct demo_space as (k & root & A & F & N & SP & Hs & Hp).
  destruct (@growproc_resizes _ _ (demo_page_laws 20 lt_20) k A F root N 10000 5000 SP) as (k' & A' & F' & N' & sz' & r & E & _ & _ & _ & Hr).
  - rewrite TRAPFRAME_eq. lia.
  - unfold INT_MAX. lia.
  - intros v Hv _. rewrite Hp by (apply uvpage_vpage; exact Hv). reflexivity.
  - exists k, k', root. rewrite E. destruct Hr as [[-> ->]|(_ & _ & [Hx|[_ Hx]])].
    + reflexivity.
    + exfalso. rewrite TRAPFRAME_eq in Hx. lia.
    + exfalso. rewrite Hs in Hx. revert Hx. vm_compute. intros Hx. apply Hx. reflexivity.
Defined.
