(* ===== verification/UvmFree.v ===== *)
(** * The end of an address space: proofs

    [freewalk] visits every page of a page table once; together with [uvmunmap]
    it gives back all pages that a space owns.  [sub A l p] lists the pages that
    [freewalk] frees below the table [p] of level [l]. *)

From S2P Require Import Prelude.
From S2P Require Import Bytes.
From S2P Require Import Kstring.
From S2P Require Import Kalloc.
From S2P Require Import Vm.
From S2P Require Import PageTable.
From S2P Require Import UserMem.
From S2P Require Import Uvm.

Definition PTE_RWX : Z := Z.lor (Z.lor PTE_R PTE_W) PTE_X.

Fixpoint sub (A : gmap Z bytes) (l : nat) (p : Z) : list Z :=
  match l with
  | O => [p]
  | S l => (seq 0 512 ≫= fun i => if has (entry A p i) PTE_V then sub A l (PTE2PA (entry A p i)) else []) ++ [p]
  end.

Definition child (A : gmap Z bytes) (l : nat) (p : Z) (i : nat) : list Z :=
  if has (entry A p i) PTE_V then sub A l (PTE2PA (entry A p i)) else [].
Definition kids (A : gmap Z bytes) (l : nat) (p : Z) (i k : nat) : list Z := seq i k ≫= child A l p.

(** No leaf is left, and the inner entries are pointers. *)
Fixpoint walkable (A : gmap Z bytes) (l : nat) (p : Z) : Prop :=
  match l with
  | O => forall i, i < 512 -> has (entry A p i) PTE_V = false
  | S l => forall i, i < 512 -> has (entry A p i) PTE_V = true ->
      has (entry A p i) PTE_RWX = false /\ walkable A l (PTE2PA (entry A p i))
  end.

Lemma sub_S A l p : sub A (S l) p = kids A l p 0 512 ++ [p].
Proof. reflexivity. Qed.

Lemma kids_S A l p i k : kids A l p i (S k) = child A l p i ++ kids A l p (S i) k.
Proof. reflexivity. Qed.

Lemma elem_of_kids A l p i k q : q ∈ kids A l p i k <-> exists j, i <= j < i + k /\ q ∈ child A l p j.
Proof.
  unfold kids. rewrite list_elem_of_bind. split.
  - intros (j & Hq & Hj). apply elem_of_seq in Hj. by exists j.
  - intros (j & Hj & Hq). exists j. by rewrite elem_of_seq.
Qed.

Lemma sub_self A l p : p ∈ sub A l p.
Proof. destruct l; [by apply list_elem_of_singleton|]. rewrite sub_S. apply elem_of_app. right. by apply list_elem_of_singleton. Qed.

Lemma kids_ext A A' l p i k : (forall j, i <= j < i + k -> child A' l p j = child A l p j) -> kids A' l p i k = kids A l p i k.
Proof.
  revert i. induction k as [|k IH]; intros i Hc; [done|]. rewrite !kids_S, Hc by lia. f_equal. apply IH. intros j Hj. apply Hc. lia.
Qed.

Lemma sub_ext A A' l : forall p, (forall q, q ∈ sub A l p -> A' !! q = A !! q) ->
  sub A' l p = sub A l p /\ (walkable A l p -> walkable A' l p).
Proof.
  induction l as [|l IH]; intros p Hf; assert (forall i, entry A' p i = entry A p i) as He by (intros i; unfold entry; by rewrite Hf by apply sub_self).
  { split; [done|]. intros Hw i Hi. rewrite He. by apply Hw. }
  assert (forall i, i < 512 -> has (entry A p i) PTE_V = true -> forall q, q ∈ sub A l (PTE2PA (entry A p i)) -> A' !! q = A !! q) as Hc.
  { intros i Hi Hv q Hq. apply Hf. rewrite sub_S. apply elem_of_app. left. apply elem_of_kids. exists i. split; [lia|]. unfold child. by rewrite Hv. }
  split.
  - rewrite !sub_S. f_equal. apply kids_ext. intros i Hi. unfold child. rewrite He. destruct (has _ _) eqn:Hv; [|done].
    apply IH. intros q. apply Hc; [lia|done].
  - cbn [walkable]. intros Hw i Hi. rewrite He. intros Hv. destruct (Hw i Hi Hv) as [H1 H2]. split; [done|]. by apply IH; [by apply Hc|].
Qed.

Section free.
Context {M : Type} `{PageLaws M}.
Implicit Types (m : M) (A : gmap Z bytes) (F : gset Z) (N : gmap Z (nat * Z)) (p q root v : Z).

(** What a call of [freewalk] for a table of level [l] does. *)
Definition frees (rec : M -> Z -> outcome M) (l : nat) : Prop :=
  forall m A F p, pg_rep m A F -> walkable A l p -> NoDup (sub A l p) -> (forall q, q ∈ sub A l p -> is_Some (A !! q) /\ pg_heap q) ->
  exists m' A', rec m p = Ret m' /\ pg_rep m' A' (list_to_set (sub A l p) ∪ F) /\
    forall q, A' !! q = if decide (q ∈ sub A l p) then None else A !! q.

Lemma freewalk_loop_ok rec l p : frees rec l -> forall k i m A F, pg_rep m A F -> i + k <= 512 -> is_Some (A !! p) ->
  p ∉ kids A l p i k -> NoDup (kids A l p i k) -> (forall q, q ∈ kids A l p i k -> is_Some (A !! q) /\ pg_heap q) ->
  (forall j, i <= j < i + k -> has (entry A p j) PTE_V = true -> has (entry A p j) PTE_RWX = false /\ walkable A l (PTE2PA (entry A p j))) ->
  exists m' A', freewalk_loop rec m p i k = Ret m' /\ pg_rep m' A' (list_to_set (kids A l p i k) ∪ F) /\ is_Some (A' !! p) /\
    forall q, q <> p -> A' !! q = if decide (q ∈ kids A l p i k) then None else A !! q.
Proof.
  intros Hrec. induction k as [|k IH]; intros i m A F R Hik Hp Hpk Hnd Hown Hw; cbn [freewalk_loop].
  { change (kids A l p i 0) with (@nil Z). exists m, A. split; [done|]. split; [cbn [list_to_set]; by rewrite union_empty_l_L|]. split; [done|]. intros q Hq. rewrite decide_False; [done|]. apply not_elem_of_nil. }
  rewrite (pte_load_ok m A F p i R Hp). cbn [obind]. rewrite kids_S in *. fold PTE_RWX.
  destruct (has (entry A p i) PTE_V) eqn:Hv.
  2: { cbn [andb]. assert (child A l p i = []) as Ec by (unfold child; by rewrite Hv). rewrite Ec in *. cbn [app] in *.
       apply IH; try done; [lia|]. intros j Hj. apply Hw. lia. }
  destruct (Hw i ltac:(lia) Hv) as [-> Hwc]. cbn [andb negb]. assert (child A l p i = sub A l (PTE2PA (entry A p i))) as Ec by (unfold child; by rewrite Hv).
  rewrite Ec in *. set (c := PTE2PA (entry A p i)) in *. apply NoDup_app in Hnd as (Hn1 & Hdis & Hn2).
  apply not_elem_of_app in Hpk as [Hpc Hpk].
  destruct (Hrec m A F c R Hwc Hn1) as (m1 & A1 & -> & R1 & HA1); [intros q Hq; apply Hown, elem_of_app; by left|]. cbn [obind].
  assert (A1 !! p = A !! p) as Hp1 by (rewrite HA1; by rewrite decide_False).
  destruct (pte_store_ok m1 A1 _ p i 0 R1) as (m2 & -> & R2); [by rewrite Hp1|lia|]. cbn [obind].
  set (A2 := set_entry A1 p i 0). destruct Hp as [d Hd].
  assert (forall q, q <> p -> A2 !! q = A1 !! q) as HA2 by (intros q Hq; subst A2; unfold set_entry; by rewrite lookup_insert_ne).
  assert (forall j, j < 512 -> j <> i -> entry A2 p j = entry A p j) as He2.
  { intros j Hj Hne. subst A2. rewrite (entry_set A1 p i 0 p j d) by (rewrite ?Hp1; try done; try lia; exact (pg_used_ok m A F p d R Hd)).
    rewrite decide_False by tauto. unfold entry. by rewrite Hp1. }
  assert (forall j, S i <= j < S i + k -> child A2 l p j = child A l p j /\
    (has (entry A p j) PTE_V = true -> walkable A l (PTE2PA (entry A p j)) -> walkable A2 l (PTE2PA (entry A p j)))) as Hch.
  { intros j Hj. unfold child. rewrite He2 by lia. destruct (has (entry A p j) PTE_V) eqn:Hvj; [|done].
    destruct (sub_ext A A2 l (PTE2PA (entry A p j))) as [E1 E2]; [|by split].
    intros q Hq. assert (q ∈ kids A l p (S i) k) as Hqk by (apply elem_of_kids; exists j; unfold child; by rewrite Hvj).
    rewrite HA2, HA1 by (by intros ->). rewrite decide_False; [done|]. intros Hqc. by apply (Hdis q). }
  assert (kids A2 l p (S i) k = kids A l p (S i) k) as Ek by (apply kids_ext; intros j Hj; by apply Hch).
  destruct (IH (S i) m2 A2 _ R2) as (m3 & A3 & -> & R3 & Hp3 & HA3); rewrite ?Ek; try done; [lia| | | |].
  - subst A2. unfold set_entry. rewrite lookup_insert_eq. by eexists.
  - intros q Hq. rewrite HA2, HA1 by (by intros ->). rewrite decide_False by (intros Hqc; by apply (Hdis q)). apply Hown, elem_of_app. by right.
  - intros j Hj. rewrite He2 by lia. intros Hvj. destruct (Hw j ltac:(lia) Hvj) as [H1 H2]. split; [done|]. by apply Hch.
  - exists m3, A3. rewrite Ek in R3, HA3. split; [done|]. split; [|split; [done|]].
    + rewrite list_to_set_app_L. by rewrite (comm_L (∪) (list_to_set (sub A l c))), <-(assoc_L (∪)).
    + intros q Hq. rewrite HA3, HA2, HA1 by done. destruct (decide (q ∈ kids A l p (S i) k)) as [Hk|Hk].
      * rewrite decide_True; [done|]. apply elem_of_app. by right.
      * destruct (decide (q ∈ sub A l c)) as [Hc|Hc]; [rewrite decide_True; [done|apply elem_of_app; by left]|].
        rewrite decide_False; [done|]. by apply not_elem_of_app.
Qed.

Lemma kfree_drop m A F p (B : list Z) A' : pg_rep m A' F -> is_Some (A' !! p) -> pg_heap p -> p ∉ B ->
  (forall q, q <> p -> A' !! q = if decide (q ∈ B) then None else A !! q) ->
  exists m' A'', pg_kfree m p = Ret m' /\ pg_rep m' A'' ({[p]} ∪ F) /\ forall q, A'' !! q = if decide (q ∈ B ++ [p]) then None else A !! q.
Proof.
  intros R Hs Hh HpB Hq. destruct (pg_kfree_ok m A' F p R Hs Hh) as (m' & E & R'). exists m', (delete p A'). split; [done|]. split; [done|].
  intros q. destruct (decide (q = p)) as [->|Hne].
  - rewrite lookup_delete_eq, decide_True; [done|]. apply elem_of_app. right. by apply list_elem_of_singleton.
  - rewrite lookup_delete_ne, Hq by done. destruct (decide (q ∈ B)) as [HB|HB].
    + rewrite decide_True; [done|]. apply elem_of_app. by left.
    + rewrite decide_False; [done|]. apply not_elem_of_app. split; [done|]. by rewrite list_elem_of_singleton.
Qed.

Lemma freewalk_S depth m p : freewalk (S depth) m p = (let* m := freewalk_loop (freewalk depth) m p 0 512 in pg_kfree m p).
Proof. reflexivity. Qed.

Lemma freewalk_ok l : frees (freewalk (S l)) l.
Proof.
  induction l as [|l IH]; intros m A F p R Hw Hnd Hown; rewrite freewalk_S.
  - assert (forall k i, i + k <= 512 -> freewalk_loop (freewalk 0) m p i k = Ret m) as Hloop.
    { destruct (Hown p (sub_self A 0 p)) as [Hp _]. induction k as [|k IHk]; intros i Hik; cbn [freewalk_loop]; [done|].
      rewrite (pte_load_ok m A F p i R Hp). cbn [obind]. rewrite (Hw i) by lia. cbn [andb]. apply IHk. lia. }
    rewrite Hloop by lia. cbn [obind]. destruct (Hown p (sub_self A 0 p)) as [Hp Hh].
    destruct (kfree_drop m A F p [] A R Hp Hh) as (m' & A' & E & R' & HA'); [apply not_elem_of_nil| |].
    + intros q Hq. rewrite decide_False; [done|]. apply not_elem_of_nil.
    + exists m', A'. split; [done|]. split; [|done]. cbn [sub list_to_set]. by rewrite union_empty_r_L.
  - rewrite sub_S in *. apply NoDup_app in Hnd as (Hn1 & Hdis & _).
    assert (p ∉ kids A l p 0 512) as Hpk by (intros Hx; apply (Hdis p Hx); by apply list_elem_of_singleton).
    destruct (Hown p) as [Hp Hh]; [apply elem_of_app; right; by apply list_elem_of_singleton|].
    destruct (freewalk_loop_ok (freewalk (S l)) l p IH 512 0 m A F R) as (m1 & A1 & E1 & R1 & Hp1 & HA1); try done.
    + intros q Hq. apply Hown, elem_of_app. by left.
    + intros j Hj. apply Hw. lia.
    + rewrite E1. cbn [obind].
      destruct (kfree_drop m1 A _ p (kids A l p 0 512) A1 R1 Hp1 Hh Hpk HA1) as (m' & A' & E & R' & HA').
      exists m', A'. split; [done|]. split; [|done]. rewrite list_to_set_app_L. cbn [list_to_set].
      by rewrite union_empty_r_L, (comm_L (∪) (list_to_set _)), <-(assoc_L (∪)).
Qed.

(** ** The pages of a table *)
Definition up (x : Z) (k : nat) : Z := Nat.iter k (fun z => z `div` 512)%Z x.

Lemma up_S x k : up x (S k) = (up x k `div` 512)%Z.
Proof. reflexivity. Qed.

Section pages.
Context A root N (PT : pt_ok A root N).

Lemma child_node l p x i q : N !! p = Some (S l, x) -> i < 512 -> q ∈ child A l p i ->
  has (entry A p i) PTE_V = true /\ entry A p i = pte_of (PTE2PA (entry A p i)) PTE_V /\
  N !! PTE2PA (entry A p i) = Some (l, 512 * x + Z.of_nat i)%Z /\ q ∈ sub A l (PTE2PA (entry A p i)).
Proof.
  intros Hp Hi. unfold child. destruct (has _ _) eqn:Hv; [|intros Hq; by apply not_elem_of_nil in Hq]. intros Hq.
  destruct (po_down _ _ _ PT p l x i Hp Hi Hv) as (c & E & Hc). rewrite E, pte_of_pa in * by (try apply is_flags_V; by eapply node_phys). done.
Qed.

Lemma sub_nodes l : forall p x, N !! p = Some (l, x) -> forall q, q ∈ sub A l p ->
  exists l' x', l' <= l /\ N !! q = Some (l', x') /\ up x' (l - l') = x.
Proof.
  induction l as [|l IH]; intros p x Hp q Hq.
  { apply list_elem_of_singleton in Hq as ->. exists 0, x. done. }
  rewrite sub_S in Hq. apply elem_of_app in Hq as [Hq|Hq].
  - apply elem_of_kids in Hq as (i & Hi & Hq). destruct (child_node l p x i q Hp ltac:(lia) Hq) as (_ & _ & Hc & Hqc).
    destruct (IH _ _ Hc q Hqc) as (l' & x' & Hl & Hq' & Hu). exists l', x'. split; [lia|]. split; [done|].
    replace (S l - l') with (S (l - l')) by lia. rewrite up_S, Hu. div_lia.
  - apply list_elem_of_singleton in Hq as ->. exists (S l), x. rewrite Nat.sub_diag. done.
Qed.

Lemma sub_NoDup l : forall p x, N !! p = Some (l, x) -> NoDup (sub A l p).
Proof.
  induction l as [|l IH]; intros p x Hp; [apply NoDup_singleton|]. rewrite sub_S. apply NoDup_app. split; [|split; [|apply NoDup_singleton]].
  - apply NoDup_bind; [| |apply NoDup_seq].
    + intros i j q Hi Hj Hqi Hqj. apply elem_of_seq in Hi, Hj.
      destruct (child_node l p x i q Hp ltac:(lia) Hqi) as (_ & _ & Hci & Hqi'). destruct (child_node l p x j q Hp ltac:(lia) Hqj) as (_ & _ & Hcj & Hqj').
      destruct (sub_nodes l _ _ Hci q Hqi') as (l1 & x1 & Hl1 & E1 & U1). destruct (sub_nodes l _ _ Hcj q Hqj') as (l2 & x2 & Hl2 & E2 & U2).
      rewrite E1 in E2. injection E2 as <- <-. rewrite U1 in U2. lia.
    + intros i Hi. apply elem_of_seq in Hi. unfold child. destruct (has _ _) eqn:Hv; [|constructor].
      destruct (po_down _ _ _ PT p l x i Hp ltac:(lia) Hv) as (c & E & Hc). rewrite E, pte_of_pa by (try apply is_flags_V; by eapply node_phys). by eapply IH.
  - intros q Hq ->%list_elem_of_singleton. apply elem_of_kids in Hq as (i & Hi & Hq).
    destruct (child_node l p x i p Hp ltac:(lia) Hq) as (_ & _ & Hc & Hqc). destruct (sub_nodes l _ _ Hc p Hqc) as (l' & x' & Hl & E & _).
    rewrite Hp in E. injection E as <- _. lia.
Qed.

(** The node above, [k] levels up. *)
Lemma climb k : forall q l x, N !! q = Some (l, x) -> l + k <= 2 -> exists c, N !! c = Some (l + k, up x k).
Proof.
  induction k as [|k IH]; intros q l x Hq Hl; [rewrite Nat.add_0_r; by exists q|].
  destruct (IH q l x Hq ltac:(lia)) as (c & Hc). destruct (po_up _ _ _ PT c _ _ Hc ltac:(lia)) as (c' & Hc' & _).
  exists c'. by replace (l + S k) with (S (l + k)) by lia.
Qed.

Lemma node_sub k : forall q l x p, N !! q = Some (l, x) -> l + k <= 2 -> N !! p = Some (l + k, up x k) -> q ∈ sub A (l + k) p.
Proof.
  induction k as [|k IH]; intros q l x p Hq Hl Hp.
  { rewrite Nat.add_0_r in Hp. assert (p = q) as -> by (by eapply (po_inj _ _ _ PT)). apply sub_self. }
  destruct (climb k q l x Hq ltac:(lia)) as (c & Hc). pose proof (IH q l x c Hq ltac:(lia) Hc) as Hqc.
  destruct (po_up _ _ _ PT c _ _ Hc ltac:(lia)) as (p' & Hp' & He). replace (l + S k) with (S (l + k)) in * by lia.
  assert (p' = p) as -> by (eapply (po_inj _ _ _ PT); [exact Hp'|exact Hp]).
  rewrite sub_S. apply elem_of_app. left. apply elem_of_kids. exists (Z.to_nat (up x k `mod` 512)).
  pose proof (Z.mod_pos_bound (up x k) 512 ltac:(lia)). split; [lia|]. unfold child. rewrite He, has_V by (by eapply node_phys).
  by rewrite pte_of_pa by (try apply is_flags_V; by eapply node_phys).
Qed.

Lemma sub_root q : q ∈ sub A 2 root <-> is_Some (N !! q).
Proof.
  split.
  - intros Hq. destruct (sub_nodes 2 root 0%Z (po_root _ _ _ PT) q Hq) as (l & x & _ & E & _). by eexists.
  - intros [[l x] Hq]. destruct (po_page _ _ _ PT q _ Hq) as (_ & _ & Hl & _). cbn in Hl.
    destruct (climb (2 - l) q l x Hq ltac:(lia)) as (c & Hc). replace (l + (2 - l)) with 2 in Hc by lia.
    assert (c = root) as -> by (by eapply (po_top _ _ _ PT)).
    pose proof (node_sub (2 - l) q l x root Hq ltac:(lia)) as Hs. replace (l + (2 - l)) with 2 in Hs by lia. by apply Hs.
Qed.

Lemma node_walkable l : (forall v, vpage v -> has (pte_at A root v) PTE_V = false) -> forall p x, N !! p = Some (l, x) -> walkable A l p.
Proof.
  intros Hno. induction l as [|l IH]; intros p x Hp i Hi.
  - destruct (po_page _ _ _ PT p _ Hp) as (_ & _ & _ & Hx). cbn in Hx.
    assert (vpage (512 * x + Z.of_nat i)) as Hv by (unfold vpage; rewrite MAXVA_eq; change (274877906944 `div` 4096)%Z with 67108864%Z; lia).
    rewrite <-(Hno _ Hv). destruct (pte_at_some _ _ _ PT _ p Hv) as [_ ->].
    + rewrite Hp. do 2 f_equal. div_lia.
    + do 2 f_equal. rewrite Z.mul_comm, Z.add_comm, Z.mod_add, Z.mod_small by lia. lia.
  - intros Hv. destruct (po_down _ _ _ PT p l x i Hp Hi Hv) as (c & E & Hc). pose proof (node_phys _ _ _ PT c _ Hc) as Hph.
    rewrite E, pte_of_pa by (done || apply is_flags_V). split; [|by eapply IH].
    rewrite pte_of_has by (done || apply is_flags_V || (split; by vm_compute)). done.
Qed.
End pages.

(** [freewalk] of a table without leaves. *)
Lemma freewalk_root m A F root N : vm m A F root N -> (forall v, vpage v -> has (pte_at A root v) PTE_V = false) ->
  exists m' A' F', freewalk 3 m root = Ret m' /\ pg_rep m' A' F' /\ (forall p, p ∈ F' <-> p ∈ F \/ is_Some (N !! p)) /\
    (forall p, N !! p = None -> A' !! p = A !! p).
Proof.
  intros [R PT] Hno.
  destruct (freewalk_ok 2 m A F root R) as (m' & A' & E & R' & HA').
  - by eapply (node_walkable A root N PT 2 Hno), PT.
  - by eapply (sub_NoDup A root N PT 2), PT.
  - intros q Hq. apply (sub_root A root N PT) in Hq as [lx Hq]. by destruct (po_page _ _ _ PT q _ Hq) as (? & ? & _).
  - eexists m', A', _. split; [done|]. split; [exact R'|]. split.
    + intros p. rewrite elem_of_union, elem_of_list_to_set, (sub_root A root N PT). tauto.
    + intros p Hp. rewrite HA', decide_False; [done|]. rewrite (sub_root A root N PT), Hp. by intros [? ?].
Qed.

Lemma uvmfree_ok m A F root N sz : space m A F root N -> (0 <= sz <= TRAPFRAME)%Z ->
  (forall v, vpage v -> has (pte_at A root v) PTE_V = true -> (0 <= v < np sz)%Z) ->
  exists m' A' F', uvmfree m root sz = Ret m' /\ pg_rep m' A' F' /\ (forall p, p ∈ F' <-> p ∈ F \/ own A root N p) /\
    (forall p d, A !! p = Some d -> ~ own A root N p -> A' !! p = Some d).
Proof.
  intros SP Hsz Hin. unfold uvmfree. pose proof (np_range sz Hsz) as Hnp.
  assert (exists m1 A1 F1, (if (0 <? sz)%Z then uvmunmap m root 0 (PGROUNDUP sz `div` PGSIZE) true else Ret m) = Ret m1 /\ space m1 A1 F1 root N /\
    evolve root A F N A1 F1 N /\ forall v, vpage v -> has (pte_at A1 root v) PTE_V = false) as (m1 & A1 & F1 & -> & S1 & [T1 E1] & Hno).
  { destruct (Z.ltb_spec 0 sz) as [Hpos|Hz].
    - rewrite round_up_np by done. unfold PGSIZE. rewrite (Z.mul_comm 4096), Z.div_mul by lia.
      destruct (uvmunmap_ok m A F root N 0 (np sz) SP) as (m1 & A1 & F1 & E & S1 & Ev & _ & P & _); [|lia|lia|lia|].
      + intros v Hv. unfold uvpage. lia.
      + rewrite Z.mul_0_r in E. exists m1, A1, F1. split_and!; try done. intros v Hv. rewrite P by done. unfold cleared_range.
        destruct (has (pte_at A root v) PTE_V) eqn:Hh; case_decide as Hc; try done. exfalso. apply Hc. specialize (Hin v Hv Hh). lia.
    - exists m, A, F. split_and!; try done. intros v Hv. apply not_true_is_false. intros Hh. specialize (Hin v Hv Hh). unfold np in Hin. div_lia. }
  cbn [obind]. destruct (freewalk_root m1 A1 F1 root N (sp_vm _ _ _ _ _ S1) Hno) as (m2 & A2 & F2 & -> & R2 & HF2 & HA2).
  exists m2, A2, F2. split; [done|]. split; [done|]. split.
  - intros p. rewrite HF2. specialize (T1 p). unfold own at 1 in T1.
    assert (~ user_pa A1 root p) as Hnu by (intros (v & Hv & Hh & _); by rewrite Hno in Hh by auto). tauto.
  - intros p d Hd Hown. rewrite HA2; [by apply E1|]. destruct (N !! p) eqn:E; [|done]. destruct Hown. left. by eexists.
Qed.
End free.

(** ** The two pages at the top *)
Definition topv (v : Z) : Prop := vpage v /\ ~ uvpage v.

Lemma topv_range v : vpage v -> ~ uvpage v -> (v = TRAPFRAME `div` 4096 \/ v = TRAMPOLINE `div` 4096)%Z.
Proof.
  unfold vpage, uvpage. rewrite MAXVA_eq, TRAPFRAME_eq. change (274877906944 `div` 4096)%Z with 67108864%Z.
  change (274877898752 `div` 4096)%Z with 67108862%Z. change (TRAMPOLINE `div` 4096)%Z with 67108863%Z. lia.
Qed.

Lemma topv_frame : topv (TRAPFRAME `div` 4096) /\ topv (TRAMPOLINE `div` 4096).
Proof.
  unfold topv, vpage, uvpage. rewrite MAXVA_eq, TRAPFRAME_eq. change (274877906944 `div` 4096)%Z with 67108864%Z.
  change (274877898752 `div` 4096)%Z with 67108862%Z. change (TRAMPOLINE `div` 4096)%Z with 67108863%Z. lia.
Qed.

Lemma top_addr : TRAMPOLINE = (4096 * (TRAMPOLINE `div` 4096))%Z /\ TRAPFRAME = (4096 * (TRAPFRAME `div` 4096))%Z.
Proof. split; reflexivity. Qed.

Section top.
Context {M : Type} `{PageLaws M}.

Lemma unmap_top (m : M) A F root N v : space m A F root N -> topv v ->
  exists m' A', uvmunmap m root (4096 * v) 1 false = Ret m' /\ space m' A' F root N /\ evolve root A F N A' F N /\
    (forall u, vpage u -> pte_at A' root u = cleared_range A root v 1 u).
Proof.
  intros SP [Hv Hno]. pose proof (vpage_va v Hv) as Hva. rewrite MAXVA_eq in Hva. unfold uvmunmap, PGSIZE.
  rewrite (Z.mul_comm 4096 v), Z.mod_mul by lia. cbn [Z.eqb negb]. rewrite (Z.mul_comm v), u64_small by lia.
  change (S (Z.to_nat 1)) with 2. cbn [uvmunmap_loop]. rewrite (proj2 (Z.ltb_lt _ _)) by lia. unfold PGSIZE. rewrite !u64_small by lia.
  rewrite (proj2 (Z.ltb_ge (4096 * v + 4096) _)) by lia.
  assert (has (pte_at A root v) PTE_V = false -> exists m' A', Ret m = Ret m' /\ space m' A' F root N /\ evolve root A F N A' F N /\
    (forall u, vpage u -> pte_at A' root u = cleared_range A root v 1 u)) as Hnone.
  { intros Hx. exists m, A. split_and!; try done. intros u Hu. unfold cleared_range. case_decide; [|done]. assert (u = v) as -> by lia. by rewrite Hx. }
  destruct (walk_lookup m A F root N v (sp_vm _ _ _ _ _ SP) Hv) as [[-> E0]|(q & -> & Hq & El)]; cbn [obind].
  { apply Hnone. by rewrite E0. }
  rewrite El. cbn [obind]. destruct (has (pte_at A root v) PTE_V) eqn:Hh; cbn [negb]; [|by apply Hnone].
  destruct (store_leaf m A F root N q v 0 (sp_vm _ _ _ _ _ SP) Hv Hq ltac:(lia)) as (m2 & A2 & -> & V2 & P2 & Fr2). cbn [obind].
  destruct (space_grows m A F root N SP m2 A2 F N V2) as [S2 Ev2].
  - eapply grows_leaf; [apply grows_refl|exact Hq|exact Fr2].
  - intros u Hu. rewrite P2, decide_False; [done| |auto]. by intros ->.
  - exists m2, A2. split_and!; try done. intros u Hu. rewrite P2 by done. unfold cleared_range. destruct (decide (u = v)) as [->|].
    + rewrite decide_True, Hh by lia. done.
    + by rewrite decide_False by lia.
Qed.

Lemma map_top (m : M) A F root N v pa perm : space m A F root N -> topv v -> has (pte_at A root v) PTE_V = false -> phys pa -> is_flags perm ->
  exists m' A' F' N' r, mappages m root (4096 * v) PGSIZE pa perm = Ret (m', r) /\ space m' A' F' root N' /\ evolve root A F N A' F' N' /\
    size F <= size F' + 2 /\
    ((r = 0%Z /\ forall u, vpage u -> pte_at A' root u = if decide (u = v) then pte_of pa (Z.lor perm PTE_V) else pte_at A root u) \/
     (r = (-1)%Z /\ size F <= 2 /\ forall u, vpage u -> pte_at A' root u = pte_at A root u)).
Proof.
  intros SP [Hv Hno] Hf Hpa Hperm.
  destruct (mappages_ok m A F root N v 1 pa perm (sp_vm _ _ _ _ _ SP) Hperm ltac:(lia)) as (m2 & A2 & F2 & N2 & r & k & E & V2 & G & Hp & Hsz & Hr).
  - intros u Hu. assert (u = v) as -> by lia. done.
  - intros k Hk. assert (k = 0%Z) as -> by lia. by rewrite Z.mul_0_r, Z.add_0_r.
  - rewrite Z.mul_1_r in E. assert (k <= 1) as Hk by (destruct Hr as [[_ ?]|(_ & ? & _)]; lia).
    assert (forall u, vpage u -> u <> v -> pte_at A2 root u = pte_at A root u) as Hne.
    { intros u Hu Huv. rewrite Hp by done. unfold mapped_range. by rewrite decide_False by lia. }
    destruct (space_grows m A F root N SP m2 A2 F2 N2 V2 G) as [S2 Ev2]; [intros u Hu; apply Hne; [auto|by intros ->]|].
    exists m2, A2, F2, N2, r. split; [exact E|]. split; [done|]. split; [done|]. split; [lia|].
    destruct Hr as [[-> Hk1]|(-> & Hk1 & ->)]; [left|right].
    + split; [done|]. intros u Hu. case_decide as Huv; [|by apply Hne]. subst u. rewrite Hp by done. unfold mapped_range.
      rewrite decide_True by lia. by rewrite Z.sub_diag, Z.mul_0_r, Z.add_0_r.
    + split; [done|]. rewrite size_empty in Hsz. split; [lia|]. intros u Hu. rewrite Hp by done. unfold mapped_range. by rewrite decide_False by lia.
Qed.

Lemma proc_freepagetable_ok (m : M) A F root N sz : space m A F root N -> (0 <= sz <= TRAPFRAME)%Z ->
  (forall v, uvpage v -> (np sz <= v)%Z -> has (pte_at A root v) PTE_V = false) ->
  exists m' A' F', proc_freepagetable m root sz = Ret m' /\ pg_rep m' A' F' /\ (forall p, p ∈ F' <-> p ∈ F \/ own A root N p) /\
    (forall p d, A !! p = Some d -> ~ own A root N p -> A' !! p = Some d).
Proof.
  intros SP Hsz Hab. unfold proc_freepagetable. destruct top_addr as [E1 E2]. destruct topv_frame as [T1 T2].
  destruct (unmap_top m A F root N _ SP T2) as (m1 & A1 & Eu1 & S1 & Ev1 & P1). rewrite <-E1 in Eu1. rewrite Eu1. cbn [obind].
  destruct (unmap_top m1 A1 F root N _ S1 T1) as (m2 & A2 & Eu2 & S2 & Ev2 & P2). rewrite <-E2 in Eu2. rewrite Eu2. cbn [obind].
  assert (evolve root A F N A2 F N) as Ev by (by eapply (evolve_trans root m); [by eapply sp_rep|..]).
  destruct (uvmfree_ok m2 A2 F root N sz S2 Hsz) as (m3 & A3 & F3 & E & R3 & HF & HA).
  - intros v Hv Hh. assert (uvpage v) as Huv.
    { destruct (decide (0 <= v < TRAPFRAME `div` 4096)%Z) as [?|Hno]; [done|exfalso]. rewrite P2 in Hh by done. unfold cleared_range in Hh.
      destruct (topv_range v Hv Hno) as [->| ->].
      - rewrite decide_True in Hh by lia. destruct (has (pte_at A1 root _) PTE_V) eqn:Hx; [done|]. by rewrite Hx in Hh.
      - rewrite decide_False in Hh by (change (TRAMPOLINE `div` 4096)%Z with 67108863%Z; change (TRAPFRAME `div` 4096)%Z with 67108862%Z; lia).
        rewrite P1 in Hh by done. unfold cleared_range in Hh. rewrite decide_True in Hh by lia.
        destruct (has (pte_at A root _) PTE_V) eqn:Hx; [done|]. by rewrite Hx in Hh. }
    split; [apply Huv|]. destruct (decide (v < np sz)%Z) as [?|Hge]; [done|exfalso].
    rewrite P2 in Hh by done. unfold cleared_range in Hh. rewrite decide_False in Hh by (unfold uvpage in Huv; lia).
    rewrite P1 in Hh by done. unfold cleared_range in Hh.
    rewrite decide_False in Hh by (unfold uvpage in Huv; change (TRAMPOLINE `div` 4096)%Z with 67108863%Z; change (TRAPFRAME `div` 4096)%Z with 67108862%Z in Huv; lia).
    rewrite Hab in Hh by (done || lia). done.
  - exists m3, A3, F3. split; [done|]. split; [done|]. split.
    + intros p. rewrite HF. rewrite (or_comm (p ∈ F)), (ev_total _ _ _ _ _ _ _ Ev p). tauto.
    + intros p d Hd Hno. apply HA; [by apply (ev_frame _ _ _ _ _ _ _ Ev)|]. intros Ho.
      destruct (proj1 (ev_total _ _ _ _ _ _ _ Ev p) (or_introl Ho)) as [?|Hf]; [done|].
      destruct (pg_free_ok m A F p (sp_rep _ _ _ _ _ SP) Hf) as [_ Hx]. by rewrite Hx in Hd.
Qed.

(** The failure of [proc_pagetable] after the root was allocated: a table
    without leaves is freed. *)
Lemma give_back (m0 m : M) A0 F0 A F root N : pg_rep m0 A0 F0 -> root ∈ F0 -> space m A F root N ->
  evolve root (<[root := junk 0]> A0) (F0 ∖ {[root]}) {[root := (2, 0%Z)]} A F N ->
  (forall p, own (<[root := junk 0]> A0) root {[root := (2, 0%Z)]} p <-> p = root) ->
  (forall v, vpage v -> has (pte_at A root v) PTE_V = false) ->
  exists m' A' F', uvmfree m root 0 = Ret m' /\ pg_rep m' A' F' /\ F' = F0 /\ (forall p d, A0 !! p = Some d -> A' !! p = Some d).
Proof.
  intros R0 Hr SP [T E] Hown Hno.
  destruct (uvmfree_ok m A F root N 0 SP) as (m' & A' & F' & -> & R' & HF & HA); [rewrite TRAPFRAME_eq; lia|intros v Hv Hh; by rewrite Hno in Hh|].
  exists m', A', F'. split; [done|]. split; [done|]. split.
  - apply set_eq. intros p. rewrite HF, (or_comm (p ∈ F)), T, Hown, elem_of_difference, elem_of_singleton.
    destruct (decide (p = root)) as [->|]; tauto.
  - intros p d Hd. assert (p <> root) as Hne by (intros ->; destruct (pg_free_ok m0 A0 F0 root R0 Hr) as [_ Hx]; by rewrite Hx in Hd).
    assert (p ∉ F0) as Hnf by (intros Hf; destruct (pg_free_ok m0 A0 F0 p R0 Hf) as [_ Hx]; by rewrite Hx in Hd).
    apply HA; [apply E; [by rewrite lookup_insert_ne|by rewrite Hown]|]. intros Ho.
    destruct (proj1 (T p) (or_introl Ho)) as [->%Hown|Hf]; [done|]. apply elem_of_difference in Hf as [? _]. done.
Qed.

Lemma proc_pagetable_ok (m : M) A F tramp tf : pg_rep m A F -> phys tramp -> phys tf ->
  exists m' pt, proc_pagetable m tramp tf = Ret (m', pt) /\
    ((pt = 0%Z /\ size F <= 5 /\ exists A', pg_rep m' A' F /\ forall p d, A !! p = Some d -> A' !! p = Some d) \/
     (pt <> 0%Z /\ exists A' F' N', space m' A' F' pt N' /\ (forall p, own A' pt N' p \/ p ∈ F' <-> p ∈ F) /\
       (forall p d, A !! p = Some d -> A' !! p = Some d) /\
       (forall u, vpage u -> pte_at A' pt u =
          if decide (u = TRAPFRAME `div` 4096)%Z then pte_of tf (Z.lor (Z.lor PTE_R PTE_W) PTE_V)
          else if decide (u = TRAMPOLINE `div` 4096)%Z then pte_of tramp (Z.lor (Z.lor PTE_R PTE_X) PTE_V) else 0%Z))).
Proof.
  intros R Ht Hf. unfold proc_pagetable. destruct (uvmcreate_ok m A F R) as [[-> ->]|(m1 & root & -> & Hr & S1 & P1 & O1)]; cbn [obind].
  { cbn. exists m, 0%Z. split; [done|]. left. split; [done|]. split; [rewrite size_empty; lia|]. by exists A. }
  destruct (pg_free_ok m A F root R Hr) as [Hh HrA]. pose proof (pg_heap_addr root Hh) as [_ Hr0]. rewrite (proj2 (Z.eqb_neq _ _)) by lia.
  assert (size (F ∖ {[root]}) = size F - 1) as Hs1 by (rewrite size_difference, size_singleton by set_solver; done).
  destruct top_addr as [E1 E2]. destruct topv_frame as [T1 T2].
  assert (is_flags (Z.lor PTE_R PTE_X) /\ is_flags (Z.lor PTE_R PTE_W)) as [Fx Fw] by (split; split; by vm_compute).
  destruct (map_top m1 _ _ root _ _ tramp _ S1 T2 ltac:(by rewrite P1 by apply T2) Ht Fx) as (m2 & A2 & F2 & N2 & r2 & Em2 & S2 & Ev2 & Hsz2 & Hr2).
  rewrite <-E1 in Em2. rewrite Em2. cbn [obind]. destruct Hr2 as [[-> P2]|(-> & Hs2 & P2)]; cbn [Z.ltb Z.compare].
  2: { destruct (give_back m m2 A F A2 F2 root N2 R Hr S2 Ev2 O1) as (m3 & A3 & F3 & -> & R3 & -> & HA); [intros v Hv; by rewrite P2, P1 by done|].
       cbn [obind]. exists m3, 0%Z. split; [done|]. left. split; [done|]. split; [lia|]. by exists A3. }
  assert (TRAPFRAME `div` 4096 <> TRAMPOLINE `div` 4096)%Z as Hne by (by vm_compute).
  destruct (map_top m2 A2 F2 root N2 _ tf _ S2 T1 ltac:(by rewrite P2, decide_False, P1 by (done || apply T1)) Hf Fw)
    as (m3 & A3 & F3 & N3 & r3 & Em3 & S3 & Ev3 & Hsz3 & Hr3).
  rewrite <-E2 in Em3. rewrite Em3.
  assert (evolve root (<[root := junk 0]> A) (F ∖ {[root]}) {[root := (2, 0%Z)]} A3 F3 N3) as Ev by
    (by eapply (evolve_trans root m1); [by eapply sp_rep|..]).
  cbn [obind]. destruct Hr3 as [[-> P3]|(-> & Hs3 & P3)]; cbn [Z.ltb Z.compare].
  - exists m3, root. split; [done|]. right. split; [lia|]. exists A3, F3, N3. split; [done|]. split; [|split].
    + intros p. rewrite (ev_total _ _ _ _ _ _ _ Ev), O1, elem_of_difference, elem_of_singleton. destruct (decide (p = root)) as [->|]; tauto.
    + intros p d Hd. assert (p <> root) as Hnr by (intros ->; by rewrite HrA in Hd).
      apply (ev_frame _ _ _ _ _ _ _ Ev); [by rewrite lookup_insert_ne|by rewrite O1].
    + intros u Hu. rewrite P3 by done. case_decide; [done|]. rewrite P2 by done. case_decide; [done|by apply P1].
  - destruct (unmap_top m3 A3 F3 root N3 _ S3 T2) as (m4 & A4 & E4 & S4 & Ev4 & P4). rewrite <-E1 in E4. rewrite E4. cbn [obind].
    destruct (give_back m m4 A F A4 F3 root N3 R Hr S4) as (m5 & A5 & F5 & -> & R5 & -> & HA); [|done| |].
    + by eapply (evolve_trans root m1); [by eapply sp_rep|exact Ev|exact Ev4].
    + intros v Hv. rewrite P4 by done. unfold cleared_range. rewrite P3, P2, P1 by done. repeat case_decide; try done.
      * by destruct (has (pte_of tramp (Z.lor (Z.lor PTE_R PTE_X) PTE_V)) PTE_V) eqn:Ex.
      * exfalso. lia.
    + cbn [obind]. exists m5, 0%Z. split; [done|]. left. split; [done|]. split; [lia|]. by exists A5.
Qed.
End top.

(** ** Claim *)

(** C29.  The life of an address space.  [proc_pagetable] returns; when it
    returns 0, memory was short and every page it had taken is free again.
    Otherwise it built a table that maps the trampoline and the trap frame, for
    the kernel only, and nothing else, out of free pages.  Whatever happens to
    the space afterwards, as long as its operations keep account of their pages
    and no page is mapped above the size of the process, [proc_freepagetable]
    returns, and then exactly the pages that were free before [proc_pagetable]
    are free again: no page is lost and none is freed that the space does not
    own. *)
Theorem pagetable_lifecycle {M} `{PageLaws M} (m : M) A F (trampoline trapframe : Z)
    (R : pg_rep m A F) (Ht : phys trampoline) (Hf : phys trapframe) :
  exists m1 pt, proc_pagetable m trampoline trapframe = Ret (m1, pt) /\
    ((pt = 0%Z /\ size F <= 5 /\ exists A1, pg_rep m1 A1 F /\ forall p d, A !! p = Some d -> A1 !! p = Some d) \/
     (pt <> 0%Z /\ exists A1 F1 N1, space m1 A1 F1 pt N1 /\ (forall p d, A !! p = Some d -> A1 !! p = Some d) /\
       pte_at A1 pt (TRAMPOLINE `div` 4096) = pte_of trampoline (Z.lor (Z.lor PTE_R PTE_X) PTE_V) /\
       pte_at A1 pt (TRAPFRAME `div` 4096) = pte_of trapframe (Z.lor (Z.lor PTE_R PTE_W) PTE_V) /\
       (forall v, uvpage v -> pte_at A1 pt v = 0%Z) /\
       forall m2 A2 F2 N2 sz, space m2 A2 F2 pt N2 -> evolve pt A1 F1 N1 A2 F2 N2 -> (0 <= sz <= TRAPFRAME)%Z ->
         (forall v, uvpage v -> (np sz <= v)%Z -> has (pte_at A2 pt v) PTE_V = false) ->
         exists m3 A3, proc_freepagetable m2 pt sz = Ret m3 /\ pg_rep m3 A3 F /\ forall p d, A !! p = Some d -> A3 !! p = Some d)).
Proof.
  destruct (proc_pagetable_ok m A F trampoline trapframe R Ht Hf) as (m1 & pt & E & Hr). exists m1, pt. split; [done|].
  destruct Hr as [Hr|(Hpt & A1 & F1 & N1 & S1 & Htot & Hfr & P)]; [by left|right]. split; [done|]. exists A1, F1, N1.
  destruct topv_frame as [[V1 _] [V2 _]]. assert (TRAMPOLINE `div` 4096 <> TRAPFRAME `div` 4096)%Z as Hne by (by vm_compute).
  split; [done|]. split; [done|]. split; [by rewrite P, decide_False, decide_True by done|]. split; [by rewrite P, decide_True by done|]. split.
  - intros v Hv. destruct (topv_frame) as [[_ N1'] [_ N2']]. rewrite P, !decide_False; [done|by intros ->|by intros ->|auto].
  - intros m2 A2 F2 N2 sz S2 Ev Hsz Hab. destruct (proc_freepagetable_ok m2 A2 F2 pt N2 sz S2 Hsz Hab) as (m3 & A3 & F3 & E3 & R3 & HF & HA).
    assert (F3 = F) as ->.
    { apply set_eq. intros p. rewrite HF, (or_comm (p ∈ F2)), (ev_total _ _ _ _ _ _ _ Ev). apply Htot. }
    exists m3, A3. split; [done|]. split; [done|]. intros p d Hd.
    assert (p ∉ F) as Hnf by (intros Hx; destruct (pg_free_ok m A F p R Hx) as [_ Hy]; by rewrite Hy in Hd).
    assert (~ own A1 pt N1 p) as Hno1 by (intros Ho; apply Hnf, Htot; by left).
    apply HA; [apply (ev_frame _ _ _ _ _ _ _ Ev); [by apply Hfr|done]|]. intros Ho.
    apply Hnf, Htot, (ev_total _ _ _ _ _ _ _ Ev). by left.
Qed.

Lemma pagetable_lifecycle_witness : exists (k k1 k2 : kmem) pt, pt <> 0%Z /\
  proc_pagetable (H := kmem_store (demo_end 20)) k 2147483648 2147487744 = Ret (k1, pt) /\
  proc_freepagetable (H := kmem_store (demo_end 20)) k1 pt 0 = Ret k2.
Proof.
  destruct (demo_boot 20 lt_20) as (k & F & _ & R & Hs).
  destruct (@pagetable_lifecycle _ _ (demo_page_laws 20 lt_20) k ∅ F 2147483648 2147487744 R) as (k1 & pt & E & Hr).
  - split; [reflexivity|lia].
  - split; [reflexivity|lia].
  - destruct Hr as [(_ & Hx & _)|(Hpt & A1 & F1 & N1 & S1 & _ & _ & _ & P & Hfree)].
    + exfalso. rewrite Hs in Hx. lia.
    + destruct (Hfree k1 A1 F1 N1 0%Z S1 (evolve_refl _ _ _ _)) as (k2 & A3 & E3 & _).
      * rewrite TRAPFRAME_eq. lia.
      * intros v Hv _. rewrite (P v Hv). reflexivity.
      * exists k, k1, k2, pt. split; [exact Hpt|]. split; [exact E|exact E3].
Defined.
