(* ===== verification/UvmCopy.v ===== *)
(** * Copying an address space: proofs

    [uvmcopy] as [fork] uses it: two spaces in one memory that own no page in
    common. *)

From S2P Require Import Prelude.
From S2P Require Import Bytes.
From S2P Require Import Kstring.
From S2P Require Import Kalloc.
From S2P Require Import Vm.
From S2P Require Import PageTable.
From S2P Require Import UserMem.
From S2P Require Import Uvm.

Lemma lor_V fl : has fl PTE_V = true -> Z.lor fl PTE_V = fl.
Proof.
  intros Hh. change PTE_V with 1%Z in *. assert (Z.testbit fl 0 = true) as H0.
  { unfold has in Hh. apply negb_true_iff, Z.eqb_neq in Hh. destruct (Z.testbit fl 0) eqn:E; [done|]. exfalso. apply Hh.
    change 1%Z with (Z.ones 1). rewrite Z.land_ones by lia. pose proof (Z.bit0_mod fl) as Eb. rewrite E in Eb. done. }
  apply Z.bits_inj'. intros n Hn. rewrite Z.lor_spec. destruct (decide (n = 0)%Z) as [->|Hne]; [by rewrite H0|].
  replace (Z.testbit 1 n) with false; [by rewrite orb_false_r|]. symmetry. change 1%Z with (2 ^ 0)%Z. by rewrite Z.pow2_bits_false by lia.
Qed.

Section copy.
Context {M : Type} `{PageLaws M}.
Implicit Types (m : M) (A : gmap Z bytes) (F : gset Z) (N : gmap Z (nat * Z)) (p q root v : Z).

(** A page with the contents of another one: [kalloc] and [memmove]. *)
Lemma kalloc_copy m A F pa d : pg_rep m A F -> A !! pa = Some d ->
  (F = ∅ /\ pg_kalloc m = Ret (m, 0%Z)) \/
  exists m1 m2 c, pg_kalloc m = Ret (m1, c) /\ (c =? 0)%Z = false /\ c ∈ F /\ pg_get m1 pa = Ret d /\ pg_set m1 c d = Ret m2 /\
    pg_rep m2 (<[c := d]> A) (F ∖ {[c]}).
Proof.
  intros R Hd. destruct (decide (F = ∅)) as [->|Hne]; [left; split; [done|by eapply pg_kalloc_none]|right].
  destruct (pg_kalloc_some m A F R Hne) as (m1 & c & E & Hc & R1). destruct (pg_free_ok m A F c R Hc) as [Hh HA]. pose proof (pg_heap_addr c Hh).
  destruct (pg_set_ok m1 _ _ c d R1) as (m2 & E2 & R2); [rewrite lookup_insert_eq; by eexists|exact (pg_used_ok m A F pa d R Hd)|].
  rewrite insert_insert_eq in R2. exists m1, m2, c. split_and!; try done; [apply Z.eqb_neq; lia|].
  eapply pg_get_ok; [done|]. rewrite lookup_insert_ne; [done|]. intros ->. by rewrite HA in Hd.
Qed.

Context (old new : Z) (m0 : M) (A0 : gmap Z bytes) (F0 : gset Z) (No N0 : gmap Z (nat * Z)).
Context (SO : space m0 A0 F0 old No) (SN : space m0 A0 F0 new N0) (Hdis : forall p, own A0 old No p -> ~ own A0 new N0 p).
Context (Hempty : forall v, uvpage v -> has (pte_at A0 new v) PTE_V = false).

(** The pages [0, v) are copied. *)
Record copied A (v : Z) : Prop := {
  cp_done : forall u, uvpage u -> (u < v)%Z ->
    if has (pte_at A0 old u) PTE_V
    then exists pa, pte_at A new u = pte_of pa (PTE_FLAGS (pte_at A0 old u)) /\ pg_heap pa /\ A !! pa = A0 !! PTE2PA (pte_at A0 old u)
    else has (pte_at A new u) PTE_V = false;
  cp_rest : forall u, uvpage u -> (v <= u)%Z -> has (pte_at A new u) PTE_V = false;
  cp_top : forall u, vpage u -> ~ uvpage u -> pte_at A new u = pte_at A0 new u
}.

Lemma old_kept m A F N : space m A F new N -> evolve new A0 F0 N0 A F N ->
  space m A F old No /\ (forall v, vpage v -> pte_at A old v = pte_at A0 old v) /\ (forall p, own A0 old No p -> A !! p = A0 !! p) /\
  (forall p, own A old No p <-> own A0 old No p).
Proof.
  intros SP [T E]. assert (forall p, own A0 old No p -> A !! p = A0 !! p) as Hk.
  { intros p Ho. destruct (own_used _ _ _ _ _ SO p Ho) as [[d Hd] _]. rewrite Hd. apply E; [done|by apply Hdis]. }
  destruct (space_frame m0 A0 F0 old No SO m A F (sp_rep _ _ _ _ _ SP) Hk) as (S' & P' & O'). by split_and!.
Qed.

(** Undoing a partial copy. *)
Lemma uvmcopy_fail_ok m A F N v : space m A F new N -> evolve new A0 F0 N0 A F N -> copied A v -> uvpage v ->
  exists m' A' F', uvmcopy_fail m new (4096 * v) = Ret (m', (-1)%Z) /\ space m' A' F' new N /\ evolve new A0 F0 N0 A' F' N /\
    (forall u, uvpage u -> has (pte_at A' new u) PTE_V = false) /\ (forall u, vpage u -> ~ uvpage u -> pte_at A' new u = pte_at A0 new u).
Proof.
  intros SP Ev [C1 C2 C3] Hv. unfold uvmcopy_fail, PGSIZE. rewrite (Z.mul_comm 4096), Z.div_mul by lia. unfold uvpage in Hv.
  destruct (uvmunmap_ok m A F new N 0 v SP) as (m' & A' & F' & E & S' & Ev' & _ & P & _); [intros u Hu; unfold uvpage; lia|lia|lia|lia|].
  rewrite Z.mul_0_r in E. rewrite E. cbn [obind]. exists m', A', F'. split; [done|]. split; [done|].
  split; [by eapply (evolve_trans new m0); [by eapply sp_rep|..]|]. split.
  - intros u Hu. rewrite P by auto. unfold cleared_range. unfold uvpage in Hu. case_decide; [|apply C2; [done|lia]].
    by destruct (has (pte_at A new u) PTE_V) eqn:Ex.
  - intros u Hu Hno. rewrite P by done. unfold cleared_range. rewrite decide_False; [by apply C3|]. intros Hc. apply Hno. unfold uvpage. lia.
Qed.

Lemma uvmcopy_loop_ok sz : (0 <= sz <= TRAPFRAME)%Z -> forall fuel m A F N v, space m A F new N -> evolve new A0 F0 N0 A F N -> copied A v ->
  (0 <= v <= np sz)%Z -> (np sz - v < Z.of_nat fuel)%Z ->
  exists m' A' F' N' r, uvmcopy_loop m old new sz (4096 * v) fuel = Ret (m', r) /\ space m' A' F' new N' /\ evolve new A0 F0 N0 A' F' N' /\
    ((r = 0%Z /\ copied A' (np sz)) \/
     (r = (-1)%Z /\ (Z.of_nat (size F) <= 3 * (np sz - v))%Z /\ (forall u, uvpage u -> has (pte_at A' new u) PTE_V = false) /\
      (forall u, vpage u -> ~ uvpage u -> pte_at A' new u = pte_at A0 new u))).
Proof.
  intros Hsz. pose proof (np_range sz Hsz) as Hnp. induction fuel as [|fuel IH]; intros m A F N v SP Ev CP Hv Hf; [lia|]. cbn [uvmcopy_loop].
  destruct (Z.ltb_spec (4096 * v) sz) as [Hlt|Hge].
  2: { assert (v = np sz) as -> by (unfold np in *; div_lia). exists m, A, F, N, 0%Z. split_and!; try done. by left. }
  assert (v < np sz)%Z as Hlt' by (unfold np; div_lia). assert (uvpage v) as Huv by (unfold uvpage; lia).
  destruct (old_kept m A F N SP Ev) as (SO' & PO & KO & OO). pose proof (vpage_va v ltac:(auto)) as Hva. rewrite MAXVA_eq in Hva.
  assert (u64 (4096 * v + PGSIZE) = (4096 * (v + 1))%Z) as Eu by (unfold PGSIZE; rewrite u64_small; lia).
  assert (has (pte_at A0 old v) PTE_V = false -> exists m' A' F' N' r,
    uvmcopy_loop m old new sz (4096 * (v + 1)) fuel = Ret (m', r) /\ space m' A' F' new N' /\ evolve new A0 F0 N0 A' F' N' /\
    ((r = 0%Z /\ copied A' (np sz)) \/
     (r = (-1)%Z /\ (Z.of_nat (size F) <= 3 * (np sz - v))%Z /\ (forall u, uvpage u -> has (pte_at A' new u) PTE_V = false) /\
      (forall u, vpage u -> ~ uvpage u -> pte_at A' new u = pte_at A0 new u)))) as Hskip.
  { intros Hno. destruct (IH m A F N (v + 1)%Z SP Ev) as (m' & A' & F' & N' & r & E & S' & Ev' & Hr); [|lia|lia|].
    - destruct CP as [C1 C2 C3]. split; [|intros u Hu Hx; apply C2; [done|lia]|done]. intros u Hu Hx.
      destruct (decide (u = v)) as [->|]; [rewrite Hno; apply C2; [done|lia]|apply C1; [done|lia]].
    - exists m', A', F', N', r. split_and!; try done. destruct Hr as [?|(? & ? & ?)]; [by left|right; split_and!; (done || lia || tauto)]. }
  destruct (walk_lookup m A F old No v (sp_vm _ _ _ _ _ SO') ltac:(auto)) as [[-> E0]|(q & -> & Hq & El)]; cbn [obind].
  { rewrite Eu. apply Hskip. rewrite <-PO by auto. by rewrite E0. }
  rewrite El. cbn [obind]. rewrite PO by auto. destruct (has (pte_at A0 old v) PTE_V) eqn:Hh; cbn [negb]; [|rewrite Eu; by apply Hskip].
  destruct (sp_user _ _ _ _ _ SO v Huv Hh) as (pa & fl & Epte & Hfl & Hhp & [d Hd] & Hn). pose proof (heap_phys pa Hhp) as Hph.
  assert (own A0 old No pa) as Hown by (right; exists v; split_and!; [done|done|by rewrite Epte, pte_of_pa]).
  assert (has fl PTE_V = true) as HflV by (by rewrite Epte, pte_of_has in Hh by (done || apply is_flags_V)).
  rewrite Epte, pte_of_pa, pte_of_flags by done.
  assert (A !! pa = Some d) as HdA by (by rewrite KO).
  destruct (kalloc_copy m A F pa d (sp_rep _ _ _ _ _ SP) HdA) as [[-> ->]|(m1 & m2 & c & -> & E0 & Hc & Eg & Es & R2)]; cbn [obind].
  { cbn [Z.eqb]. destruct (uvmcopy_fail_ok m A ∅ N v SP Ev CP Huv) as (m' & A' & F' & -> & S' & Ev' & Hn1 & Hn2).
    exists m', A', F', N, (-1)%Z. split_and!; try done. right. split_and!; try done. rewrite size_empty. lia. }
  rewrite E0, Eg. cbn [obind]. rewrite Es. cbn [obind].
  destruct (map_page_ok m A F new N SP m2 c d Hc R2 v fl Huv) as (m3 & r & -> & Hr); [apply (cp_rest _ _ CP); [done|lia]|done|].
  rewrite (lor_V fl HflV) in Hr. cbn [obind].
  destruct Hr as [(-> & A3 & F3 & N3 & S3 & Ev3 & HA & Hsz3 & P3 & C3)|(-> & Hsz3 & m4 & A4 & F4 & N4 & -> & S4 & Ev4 & P4 & C4)]; cbn [Z.eqb negb obind].
  - rewrite Eu. destruct (IH m3 A3 F3 N3 (v + 1)%Z S3) as (m' & A' & F' & N' & r & -> & S' & Ev' & Hr); [| |lia|lia|].
    + by eapply (evolve_trans new m0); [by eapply sp_rep|..].
    + destruct CP as [D1 D2 D3]. split.
      * intros u Hu Hx. rewrite P3 by auto. case_decide as Huv'.
        -- subst u. rewrite Hh. exists c. rewrite Epte, pte_of_flags, pte_of_pa by done. split_and!; [done| |by rewrite HA, Hd].
           by destruct (pg_free_ok m A F c (sp_rep _ _ _ _ _ SP) Hc).
        -- specialize (D1 u Hu ltac:(lia)). destruct (has (pte_at A0 old u) PTE_V) eqn:Hhu; [|done].
           destruct D1 as (p & Ep & Hp & Hpd). exists p. split_and!; try done. rewrite C3; [done|]. exists u. split; [done|].
           destruct (sp_user _ _ _ _ _ SO u Hu Hhu) as (pu & fu & Epu & Hfu & Hhu' & _ & _). pose proof (heap_phys pu Hhu') as Hpu.
           rewrite Ep, Epu, pte_of_flags by done. rewrite pte_of_has, pte_of_pa by (done || (by apply heap_phys) || apply is_flags_V). split; [|done].
           by rewrite Epu, pte_of_has in Hhu by (done || apply is_flags_V).
      * intros u Hu Hx. assert (u <> v) as Hne by lia. rewrite P3 by auto. rewrite decide_False by exact Hne. apply D2; [done|lia].
      * intros u Hu Hno. assert (u <> v) as Hne by (intros ->; exact (Hno Huv)). rewrite (P3 u Hu). rewrite decide_False by exact Hne. exact (D3 u Hu Hno).
    + exists m', A', F', N', r. split_and!; try done. destruct Hr as [?|(? & ? & ?)]; [by left|right; split_and!; (done || lia || tauto)].
  - assert (copied A4 v) as CP4.
    { destruct CP as [D1 D2 D3]. split.
      - intros u Hu Hx. rewrite P4 by auto. specialize (D1 u Hu Hx). destruct (has (pte_at A0 old u) PTE_V) eqn:Hhu; [|done].
        destruct D1 as (p & Ep & Hp & Hpd). exists p. split_and!; try done. rewrite C4; [done|]. exists u. split; [done|].
        destruct (sp_user _ _ _ _ _ SO u Hu Hhu) as (pu & fu & Epu & Hfu & Hhu' & _ & _). pose proof (heap_phys pu Hhu') as Hpu.
        rewrite Ep, Epu, pte_of_flags by done. rewrite pte_of_has, pte_of_pa by (done || (by apply heap_phys) || apply is_flags_V). split; [|done].
        by rewrite Epu, pte_of_has in Hhu by (done || apply is_flags_V).
      - intros u Hu Hx. rewrite P4 by auto. by apply D2.
      - intros u Hu Hno. rewrite P4 by done. by apply D3. }
    assert (evolve new A0 F0 N0 A4 F4 N4) as Ev04 by (by eapply (evolve_trans new m0); [by eapply sp_rep|..]).
    destruct (uvmcopy_fail_ok m4 A4 F4 N4 v S4 Ev04 CP4 Huv) as (m' & A' & F' & -> & S' & Ev' & Hn1 & Hn2).
    exists m', A', F', N4, (-1)%Z. split_and!; try done. right. split_and!; try done. lia.
Qed.
End copy.

(** ** Claim *)

(** C11.  [uvmcopy] gives the child a memory of its own with the contents of the
    parent's: it returns; when it returns 0, the child sees at every address of
    the process the byte that the parent sees, with the same permissions, and
    pages that the parent never touched are untouched in the child.  The two
    spaces own no page in common, so that what one writes is not seen by the
    other; the parent's memory is as it was.  It returns -1 only when memory
    runs out, and then the child has no page left. *)
Theorem uvmcopy_forks {M} `{PageLaws M} (m : M) A F (old new : Z) No Nn (sz : Z)
    (SO : space m A F old No) (SN : space m A F new Nn) (Hdis : forall p, own A old No p -> ~ own A new Nn p)
    (Hempty : forall v, uvpage v -> has (pte_at A new v) PTE_V = false) (Hsz : (0 <= sz <= TRAPFRAME)%Z) :
  exists m' A' F' N' r, uvmcopy m old new sz = Ret (m', r) /\ space m' A' F' old No /\ space m' A' F' new N' /\
    (forall p, own A' old No p -> ~ own A' new N' p) /\ evolve new A F Nn A' F' N' /\
    (forall a, uaddr a -> uview A' old sz a = uview A old sz a /\ uwritable A' old sz a = uwritable A old sz a) /\
    ((r = 0%Z /\ forall a, (0 <= a < 4096 * np sz)%Z ->
        uview A' new sz a = uview A old sz a /\ uwritable A' new sz a = uwritable A old sz a) \/
     (r = (-1)%Z /\ (Z.of_nat (size F) <= 3 * np sz)%Z /\ forall v, uvpage v -> has (pte_at A' new v) PTE_V = false)).
Proof.
  pose proof (np_range sz Hsz) as Hnp. unfold uvmcopy.
  destruct (uvmcopy_loop_ok old new m A F No Nn SO SN Hdis sz Hsz (S (Z.to_nat ((sz + PGSIZE - 1) `div` PGSIZE))) m A F Nn 0%Z SN (evolve_refl _ _ _ _))
    as (m' & A' & F' & N' & r & E & S' & Ev & Hr).
  - split; [intros u Hu Hx; unfold uvpage in Hu; lia|intros u Hu _; by apply Hempty|done].
  - lia.
  - unfold np, PGSIZE. div_lia.
  - rewrite Z.mul_0_r in E. destruct (old_kept old new m A F No Nn SO Hdis m' A' F' N' S' Ev) as (SO' & PO & KO & OO).
    exists m', A', F', N', r. split; [exact E|]. split; [done|]. split; [done|]. split; [|split; [done|split]].
    + intros p Ho Hn. apply OO in Ho. destruct (proj1 (ev_total _ _ _ _ _ _ _ Ev p) (or_introl Hn)) as [Hx|Hx]; [by apply (Hdis p)|].
      by apply (own_not_free _ _ _ _ _ SO) in Ho.
    + intros a Ha. apply uview_same; [done|apply PO; auto using uaddr_page|intros p Hp; apply KO; by right].
    + destruct Hr as [[-> [C1 C2 C3]]|(-> & Hs & Hn & _)]; [left|right]; [|split_and!; (done || lia)]. split; [done|]. intros a Ha.
      assert (uvpage (a `div` 4096)) as Huv by (unfold uvpage; div_lia). specialize (C1 _ Huv ltac:(div_lia)). unfold uview, uwritable.
      destruct (has (pte_at A old (a `div` 4096)) PTE_V) eqn:Hh; [|by rewrite C1].
      destruct C1 as (pa & Ep & Hpa & Hd). destruct (sp_user _ _ _ _ _ SO _ Huv Hh) as (po & fl & Eo & Hfl & Hho & _ & _).
      pose proof (heap_phys po Hho) as Hph. rewrite Eo in *. rewrite pte_of_flags in Ep by done. rewrite Ep.
      rewrite pte_of_pa in Hd by done. rewrite !pte_of_has, !pte_of_pa in * by (done || (by apply heap_phys) || apply is_flags_V || (split; by vm_compute)).
      unfold ubyte. by rewrite Hh, Hd.
Qed.

(** Two spaces. *)
Lemma demo_spaces : exists k A F old new No Nn, @space _ _ (demo_page_laws 20 lt_20) k A F old No /\
  @space _ _ (demo_page_laws 20 lt_20) k A F new Nn /\ (forall p, own A old No p -> ~ own A new Nn p) /\ size F = 18 /\
  (forall v, vpage v -> pte_at A old v = 0%Z) /\ (forall v, vpage v -> pte_at A new v = 0%Z).
Proof.
  destruct (demo_boot 20 lt_20) as (k & F & _ & R & Hs).
  destruct (@uvmcreate_ok _ _ (demo_page_laws 20 lt_20) k ∅ F R) as [[-> _]|(k1 & r1 & _ & H1 & S1 & P1 & O1)]; [rewrite size_empty in Hs; lia|].
  destruct (@uvmcreate_ok _ _ (demo_page_laws 20 lt_20) k1 _ _ (sp_rep _ _ _ _ _ S1)) as [[E _]|(k2 & r2 & _ & H2 & S2 & P2 & O2)].
  { exfalso. assert (size (F ∖ {[r1]}) = 0) as Hx by (by rewrite E, size_empty). rewrite size_difference, size_singleton, Hs in Hx by set_solver. lia. }
  destruct (@space_frame _ _ (demo_page_laws 20 lt_20) k1 _ _ r1 _ S1 k2 _ _ (sp_rep _ _ _ _ _ S2)) as (S3 & P3 & O3).
  { intros p ->%O1. rewrite lookup_insert_ne; [done|]. intros ->. set_solver. }
  eexists k2, _, _, r1, r2, _, _. split; [exact S3|]. split; [exact S2|]. split; [|split; [|split]].
  - intros p ->%O3%O1 ->%O2. set_solver.
  - rewrite !size_difference, !size_singleton, Hs by set_solver. done.
  - intros v Hv. rewrite P3 by done. by apply P1.
  - exact P2.
Qed.

Lemma uvmcopy_forks_witness : exists (k k' : kmem) old new, uvmcopy (H := kmem_store (demo_end 20)) k old new 10000 = Ret (k', 0%Z).
Proof.
  destruct demo_spaces as (k & A & F & old & new & No & Nn & SO & SN & Hdis & Hs & PO & PN).
  destruct (@uvmcopy_forks _ _ (demo_page_laws 20 lt_20) k A F old new No Nn 10000 SO SN Hdis) as (k' & A' & F' & N' & r & E & _ & _ & _ & _ & _ & Hr).
  - intros v Hv. rewrite PN by (apply uvpage_vpage; exact Hv). reflexivity.
  - rewrite TRAPFRAME_eq. lia.
  - exists k, k', old, new. destruct Hr as [[-> _]|(_ & Hx & _)]; [exact E|].
    exfalso. rewrite Hs in Hx. revert Hx. vm_compute. intros Hx. apply Hx. reflexivity.
Defined.
