(* ===== verification/File.v ===== *)
(** * Open files (xv6/kernel/file.c and pipealloc of pipe.c)

    The table of open files, which all processes share, over the pipes, the
    inodes and the physical memory.  A file is named by its index in the table,
    an inode by its index in the inode table, a pipe by the address of its page.
    User memory is reached through the page table of the calling process.

    [piperead] and [pipewrite] can sleep in the middle, and so can the read and
    write functions of a device: what they do to the memory and to the pipe is
    the class [Transfers] here.  The rounds of the two pipe functions are the
    subject of [Pipe]. *)

From S2P Require Import Prelude.
From S2P Require Import Bytes.
From S2P Require Import Kstring.
From S2P Require Import Pipe.
From S2P Require Import Bio.
From S2P Require Import Log.
From S2P Require Import Txn.
From S2P Require Import Fs.
From S2P Require Import Inode.
From S2P Require Import Dir.
From S2P Require Import Kalloc.
From S2P Require Import Vm.

Definition NFILE : nat := 100.
Definition NOFILE : nat := 16.
Definition NDEV : Z := 10.

Inductive fd_type : Type := FD_NONE | FD_PIPE | FD_INODE | FD_DEVICE.

Record file : Type := mk_file {
  fl_type : fd_type;
  fl_ref : Z;
  fl_readable : bool;
  fl_writable : bool;
  fl_pipe : Z;
  fl_ip : nat;
  fl_off : Z;
  fl_major : Z
}.

Definition file0 : file := mk_file FD_NONE 0 false false 0 0 0 0.

Definition set_fref (fl : file) (n : Z) : file :=
  mk_file (fl_type fl) n (fl_readable fl) (fl_writable fl) (fl_pipe fl) (fl_ip fl) (fl_off fl) (fl_major fl).
Definition set_off (fl : file) (off : Z) : file :=
  mk_file (fl_type fl) (fl_ref fl) (fl_readable fl) (fl_writable fl) (fl_pipe fl) (fl_ip fl) off (fl_major fl).
Definition closed_file (fl : file) : file :=
  mk_file FD_NONE 0 (fl_readable fl) (fl_writable fl) (fl_pipe fl) (fl_ip fl) (fl_off fl) (fl_major fl).

(** What the file calls use of a process; [u_args] are the registers [a0] to
    [a5] of its trap frame. *)
Record uproc : Type := mk_up {
  u_pt : Z;
  u_sz : Z;
  u_ofile : list (option nat);
  u_cwd : nat;
  u_args : list Z
}.
Definition set_ofile (p : uproc) (o : list (option nat)) : uproc := mk_up (u_pt p) (u_sz p) o (u_cwd p) (u_args p).
Definition set_cwd (p : uproc) (i : nat) : uproc := mk_up (u_pt p) (u_sz p) (u_ofile p) i (u_args p).

(** A transfer between user memory and a pipe or a device: the memory, the
    pipe and the value returned. *)
Class Transfers (M : Type) := {
  tr_piperead : M -> uproc -> pipe -> Z -> Z -> outcome (M * pipe * Z);
  tr_pipewrite : M -> uproc -> pipe -> Z -> Z -> outcome (M * pipe * Z);
  tr_devread : Z -> option (M -> uproc -> Z -> Z -> outcome (M * Z));
  tr_devwrite : Z -> option (M -> uproc -> Z -> Z -> outcome (M * Z))
}.

Record world (M T : Type) : Type := mk_world {
  w_mem : M;
  w_fs : fs T;
  w_ftable : list file;
  w_pipes : gmap Z pipe
}.
Arguments mk_world {M T}.
Arguments w_mem {M T}.
Arguments w_fs {M T}.
Arguments w_ftable {M T}.
Arguments w_pipes {M T}.

Section file.
Context {M T : Type} `{PageStore M} `{TxStore T} `{Transfers M}.
Implicit Types (w : world M T) (p : uproc).

Definition with_mem w (m : M) : world M T := mk_world m (w_fs w) (w_ftable w) (w_pipes w).
Definition with_fs w (f : fs T) : world M T := mk_world (w_mem w) f (w_ftable w) (w_pipes w).
Definition with_ftable w (l : list file) : world M T := mk_world (w_mem w) (w_fs w) l (w_pipes w).
Definition with_file w (i : nat) (fl : file) : world M T := with_ftable w (<[i := fl]> (w_ftable w)).
Definition with_pipes w (ps : gmap Z pipe) : world M T := mk_world (w_mem w) (w_fs w) (w_ftable w) ps.

(** [begin_op] and [end_op] *)
Definition fs_begin (f : fs T) : outcome (fs T) := let* t := t_begin_op (f_t f) in Ret (with_t f t).
Definition fs_end (f : fs T) : outcome (fs T) := let* t := t_end_op (f_t f) in Ret (with_t f t).

(** [either_copyout] and [either_copyin] with a user address *)
Definition ucopyout p (m : M) (dst : Z) (x : bytes) : outcome (M * bool) :=
  let* '(m, r) := copyout m (u_pt p) (u_sz p) dst x in Ret (m, negb (r =? -1)%Z).
Definition ucopyin p (m : M) (src n : Z) : outcome (M * bytes * bool) :=
  let* '(m, x, r) := copyin m (u_pt p) (u_sz p) src (Z.to_nat n) in Ret (m, x, negb (r =? -1)%Z).

(** ** The table *)
Fixpoint free_file (l : list file) (i : nat) : option nat :=
  match l with
  | [] => None
  | fl :: l => if (fl_ref fl =? 0)%Z then Some i else free_file l (S i)
  end.

Definition filealloc w : outcome (world M T * option nat) :=
  match free_file (w_ftable w) 0 with
  | Some i => let* fl := load (w_ftable w) i in Ret (with_file w i (set_fref fl 1), Some i)
  | None => Ret (w, None)
  end.

Definition filedup w (f : nat) : outcome (world M T) :=
  let* fl := load (w_ftable w) f in
  if (fl_ref fl <? 1)%Z then Panic "filedup"
  else Ret (with_file w f (set_fref fl (fl_ref fl + 1))).

Definition fileclose w (f : nat) : outcome (world M T) :=
  let* ff := load (w_ftable w) f in
  if (fl_ref ff <? 1)%Z then Panic "fileclose"
  else if (0 <? fl_ref ff - 1)%Z then Ret (with_file w f (set_fref ff (fl_ref ff - 1)))
  else
    let w := with_file w f (closed_file ff) in
    match fl_type ff with
    | FD_PIPE =>
        let* pi := from_option (w_pipes w !! fl_pipe ff) in
        let '(pi, _, dead) := pipeclose pi (fl_writable ff) in
        if dead : bool then
          let* m := pg_kfree (w_mem w) (fl_pipe ff) in
          Ret (with_pipes (with_mem w m) (delete (fl_pipe ff) (w_pipes w)))
        else Ret (with_pipes w (<[fl_pipe ff := pi]> (w_pipes w)))
    | FD_INODE | FD_DEVICE =>
        let* f := fs_begin (w_fs w) in
        let* f := iput f (fl_ip ff) in
        let* f := fs_end f in
        Ret (with_fs w f)
    | FD_NONE => Ret w
    end.

(** [struct stat] in memory: four bytes between [nlink] and [size] are never
    written, [pad] is what they hold. *)
Definition stat_bytes (st : stat) (pad : bytes) : bytes :=
  le_encode 4 (u32 (st_dev st)) ++ le_encode 4 (u32 (st_ino st)) ++ le_encode 2 (u16 (st_type st)) ++
  le_encode 2 (u16 (st_nlink st)) ++ pad ++ le_encode 8 (u64 (st_size st)).

Definition filestat w p (f : nat) (addr : Z) (pad : bytes) : outcome (world M T * Z) :=
  let* fl := load (w_ftable w) f in
  match fl_type fl with
  | FD_INODE | FD_DEVICE =>
      let* f := ilock (w_fs w) (fl_ip fl) in
      let* ip := load (f_itab f) (fl_ip fl) in
      let st := stati ip in
      let* f := iunlock f (fl_ip fl) in
      let* '(m, r) := copyout (w_mem w) (u_pt p) (u_sz p) addr (stat_bytes st pad) in
      Ret (with_fs (with_mem w m) f, if (r <? 0)%Z then (-1)%Z else 0%Z)
  | _ => Ret (w, (-1)%Z)
  end.

(** [readi] and [writei] of an entry of the inode table with user addresses *)
Definition readi_user w p (i : nat) (addr off n : Z) : outcome (world M T * Z) :=
  let f := w_fs w in
  let* ip := load (f_itab f) i in
  let* '(t, ip, m, r) := readi (ucopyout p) (f_sb f) (f_t f) ip (w_mem w) addr off n in
  Ret (with_fs (with_mem w m) (with_ip (with_t f t) i ip), r).

Definition writei_user w p (i : nat) (addr off n : Z) : outcome (world M T * Z) :=
  let f := w_fs w in
  let* ip := load (f_itab f) i in
  let* '(t, ip, m, r) := writei (ucopyin p) (f_sb f) (f_t f) ip (w_mem w) addr off n in
  Ret (with_fs (with_mem w m) (with_ip (with_t f t) i ip), r).

Definition fileread w p (f : nat) (addr n : Z) : outcome (world M T * Z) :=
  let* fl := load (w_ftable w) f in
  if negb (fl_readable fl) || (n <? 0)%Z then Ret (w, (-1)%Z)
  else
    match fl_type fl with
    | FD_PIPE =>
        let* pi := from_option (w_pipes w !! fl_pipe fl) in
        let* '(m, pi, r) := tr_piperead (w_mem w) p pi addr n in
        Ret (with_pipes (with_mem w m) (<[fl_pipe fl := pi]> (w_pipes w)), r)
    | FD_DEVICE =>
        if (fl_major fl <? 0)%Z || (NDEV <=? fl_major fl)%Z then Ret (w, (-1)%Z)
        else
          match tr_devread (fl_major fl) with
          | None => Ret (w, (-1)%Z)
          | Some read => let* '(m, r) := read (w_mem w) p addr n in Ret (with_mem w m, r)
          end
    | FD_INODE =>
        let* fs := ilock (w_fs w) (fl_ip fl) in
        let* '(w, r) := readi_user (with_fs w fs) p (fl_ip fl) addr (fl_off fl) n in
        let w := if (0 <? r)%Z then with_file w f (set_off fl (u32 (fl_off fl + r))) else w in
        let* fs := iunlock (w_fs w) (fl_ip fl) in
        Ret (with_fs w fs, r)
    | FD_NONE => Panic "fileread"
    end.

(** [((MAXOPBLOCKS - 1 - 1 - 2) / 2) * BSIZE] *)
Definition write_max : Z := ((MAXOPBLOCKS - 1 - 1 - 2) `div` 2 * BS)%Z.

(** The loop of [filewrite] over the pieces of a write: the final [i]. *)
Fixpoint filewrite_loop w p (f : nat) (addr n i : Z) (fuel : nat) : outcome (world M T * Z) :=
  match fuel with
  | O => NoFuel
  | S fuel =>
      if (i <? n)%Z then
        let n1 := if (write_max <? n - i)%Z then write_max else (n - i)%Z in
        let* fs := fs_begin (w_fs w) in
        let* fl := load (w_ftable w) f in
        let* fs := ilock fs (fl_ip fl) in
        let* '(w, r) := writei_user (with_fs w fs) p (fl_ip fl) (u64 (addr + i)) (fl_off fl) n1 in
        let w := if (0 <? r)%Z then with_file w f (set_off fl (u32 (fl_off fl + r))) else w in
        let* fs := iunlock (w_fs w) (fl_ip fl) in
        let* fs := fs_end fs in
        let w := with_fs w fs in
        if negb (r =? n1)%Z then Ret (w, i) else filewrite_loop w p f addr n (i + r) fuel
      else Ret (w, i)
  end.

Definition filewrite w p (f : nat) (addr n : Z) : outcome (world M T * Z) :=
  let* fl := load (w_ftable w) f in
  if negb (fl_writable fl) || (n <? 0)%Z then Ret (w, (-1)%Z)
  else
    match fl_type fl with
    | FD_PIPE =>
        let* pi := from_option (w_pipes w !! fl_pipe fl) in
        let* '(m, pi, r) := tr_pipewrite (w_mem w) p pi addr n in
        Ret (with_pipes (with_mem w m) (<[fl_pipe fl := pi]> (w_pipes w)), r)
    | FD_DEVICE =>
        if (fl_major fl <? 0)%Z || (NDEV <=? fl_major fl)%Z then Ret (w, (-1)%Z)
        else
          match tr_devwrite (fl_major fl) with
          | None => Ret (w, (-1)%Z)
          | Some write => let* '(m, r) := write (w_mem w) p addr n in Ret (with_mem w m, r)
          end
    | FD_INODE =>
        let* '(w, i) := filewrite_loop w p f addr n 0 (S (Z.to_nat n)) in
        Ret (w, if (i =? n)%Z then n else (-1)%Z)
    | FD_NONE => Panic "filewrite"
    end.

(** ** Pipes *)

(** The bytes of [struct pipe] behind its lock. *)
Definition PIPE_DATA : nat := 24.
Definition page_ring (d : bytes) : list ascii := (fun b => ascii_of_nat (Z.to_nat b)) <$> slice PIPE_DATA PIPESIZE d.

Definition pipealloc_bad w (f0 f1 : option nat) : outcome (world M T * option (nat * nat)) :=
  let* w := match f0 with Some f => fileclose w f | None => Ret w end in
  let* w := match f1 with Some f => fileclose w f | None => Ret w end in
  Ret (w, None).

Definition set_pipe (fl : file) (readable : bool) (pi : Z) : file :=
  mk_file FD_PIPE (fl_ref fl) readable (negb readable) pi (fl_ip fl) (fl_off fl) (fl_major fl).

(** The two files of a new pipe, its reading end first. *)
Definition pipealloc_files w : outcome (world M T * option (nat * nat)) :=
  let* '(w, f0) := filealloc w in
  match f0 with
  | None => pipealloc_bad w None None
  | Some f0 =>
      let* '(w, f1) := filealloc w in
      match f1 with
      | None => pipealloc_bad w (Some f0) None
      | Some f1 =>
          let* '(m, pi) := pg_kalloc (w_mem w) in
          let w := with_mem w m in
          if (pi =? 0)%Z then pipealloc_bad w (Some f0) (Some f1)
          else
            let* d := pg_get m pi in
            let w := with_pipes w (<[pi := pipealloc (page_ring d)]> (w_pipes w)) in
            let* fl0 := load (w_ftable w) f0 in
            let w := with_file w f0 (set_pipe fl0 true pi) in
            let* fl1 := load (w_ftable w) f1 in
            let w := with_file w f1 (set_pipe fl1 false pi) in
            Ret (w, Some (f0, f1))
      end
  end.
End file.
