(* ===== verification/SysFile.v ===== *)
(** * System calls on files (xv6/kernel/sysfile.c, argument access of syscall.c)

    Each system call is a function from the state of the kernel and of the
    calling process to the new ones and the value returned.  A [char] array
    that receives a string from user memory is the list of the bytes stored in
    it: the code reads no byte behind the terminating NUL.  The descriptor part
    of [kfork] and [kexit] ([proc.c]) is here too. *)

From S2P Require Import Prelude.
From S2P Require Import Bytes.
From S2P Require Import Kstring.
From S2P Require Import Pipe.
From S2P Require Import Bio.
From S2P Require Import Log.
From S2P Require Import Txn.
From S2P Require Import Fs.
From S2P Require Import Inode.
From S2P Require Import Dir.
From S2P Require Import Kalloc.
From S2P Require Import Vm.
From S2P Require Import File.

Definition MAXPATH : nat := 128.
Definition NLINK_MAX : Z := 32767.
Definition O_RDONLY : Z := 0.
Definition O_WRONLY : Z := 1.
Definition O_RDWR : Z := 2.
Definition O_CREATE : Z := 512.
Definition O_TRUNC : Z := 1024.

(** [omode & flag] *)
Definition flagged (omode flag : Z) : bool := negb (Z.land omode flag =? 0)%Z.

Section sysfile.
Context {M T : Type} `{PageStore M} `{TxStore T} `{Transfers M}.
Implicit Types (w : world M T) (p : uproc) (f : fs T).

(** ** Arguments *)
Definition argraw p (n : nat) : outcome Z :=
  match u_args p !! n with Some a => Ret a | None => Panic "argraw" end.
Definition argint p (n : nat) : outcome Z := let* a := argraw p n in Ret (wrap32 a).
Definition argaddr p (n : nat) : outcome Z := argraw p n.

(** The number at [addr], [None] for -1. *)
Definition fetchaddr w p (addr : Z) : outcome (world M T * option Z) :=
  if (u_sz p <=? addr)%Z || (u_sz p <? u64 (addr + 8))%Z then Ret (w, None)
  else
    let* '(m, x, r) := copyin (w_mem w) (u_pt p) (u_sz p) addr 8 in
    Ret (with_mem w m, if negb (r =? 0)%Z then None else Some (get_le 8 x 0)).

(** The string stored in the buffer and its length. *)
Definition fetchstr w p (addr : Z) (max : nat) : outcome (world M T * option (bytes * nat)) :=
  let* '(m, x, r) := copyinstr (w_mem w) (u_pt p) (u_sz p) addr max in
  let w := with_mem w m in
  if (r <? 0)%Z then Ret (w, None) else let* n := strlen x in Ret (w, Some (x, n)).

Definition argstr w p (n max : nat) : outcome (world M T * option bytes) :=
  let* addr := argaddr p n in
  let* '(w, r) := fetchstr w p addr max in
  Ret (w, fst <$> r).

(** The descriptor and its file. *)
Definition argfd p (n : nat) : outcome (option (nat * nat)) :=
  let* fd := argint p n in
  if (fd <? 0)%Z || (Z.of_nat NOFILE <=? fd)%Z then Ret None
  else
    let* o := load (u_ofile p) (Z.to_nat fd) in
    Ret ((fun fi => (Z.to_nat fd, fi)) <$> o).

Fixpoint free_fd (l : list (option nat)) (fd : nat) : option nat :=
  match l with
  | [] => None
  | None :: _ => Some fd
  | Some _ :: l => free_fd l (S fd)
  end.

Definition fdalloc p (f : nat) : uproc * option nat :=
  match free_fd (u_ofile p) 0 with
  | Some fd => (set_ofile p (<[fd := Some f]> (u_ofile p)), Some fd)
  | None => (p, None)
  end.

(** ** Calls on descriptors *)
Definition sys_dup w p : outcome (world M T * uproc * Z) :=
  let* r := argfd p 0 in
  match r with
  | None => Ret (w, p, (-1)%Z)
  | Some (_, f) =>
      match fdalloc p f with
      | (p, None) => Ret (w, p, (-1)%Z)
      | (p, Some fd) => let* w := filedup w f in Ret (w, p, Z.of_nat fd)
      end
  end.

Definition sys_read w p : outcome (world M T * uproc * Z) :=
  let* addr := argaddr p 1 in
  let* n := argint p 2 in
  let* r := argfd p 0 in
  match r with
  | None => Ret (w, p, (-1)%Z)
  | Some (_, f) => let* '(w, r) := fileread w p f addr n in Ret (w, p, r)
  end.

Definition sys_write w p : outcome (world M T * uproc * Z) :=
  let* addr := argaddr p 1 in
  let* n := argint p 2 in
  let* r := argfd p 0 in
  match r with
  | None => Ret (w, p, (-1)%Z)
  | Some (_, f) => let* '(w, r) := filewrite w p f addr n in Ret (w, p, r)
  end.

Definition sys_close w p : outcome (world M T * uproc * Z) :=
  let* r := argfd p 0 in
  match r with
  | None => Ret (w, p, (-1)%Z)
  | Some (fd, f) =>
      let p := set_ofile p (<[fd := None]> (u_ofile p)) in
      let* w := fileclose w f in
      Ret (w, p, 0%Z)
  end.

Definition sys_fstat w p (pad : bytes) : outcome (world M T * uproc * Z) :=
  let* st := argaddr p 1 in
  let* r := argfd p 0 in
  match r with
  | None => Ret (w, p, (-1)%Z)
  | Some (_, f) => let* '(w, r) := filestat w p f st pad in Ret (w, p, r)
  end.

(** ** Names *)

(** A call that ends with an operation on the file system: the transaction is
    ended and the value returned. *)
Definition fs_done w p f (r : Z) : outcome (world M T * uproc * Z) :=
  let* f := fs_end f in Ret (with_fs w f, p, r).

(** [ip->nlink += a] for the entry [i] *)
Definition add_nlink f (i : nat) (a : Z) : outcome (fs T) :=
  let* ip := load (f_itab f) i in
  Ret (with_ip f i (with_di ip (set_nlink (i_di ip) (s16 (d_nlink (i_di ip) + a))))).

Definition link_bad w p f (i : nat) : outcome (world M T * uproc * Z) :=
  let* f := ilock f i in
  let* f := add_nlink f i (-1) in
  let* f := iupdate_ip f i in
  let* f := iunlockput f i in
  fs_done w p f (-1).

Definition sys_link w p : outcome (world M T * uproc * Z) :=
  let* '(w, old) := argstr w p 0 MAXPATH in
  match old with
  | None => Ret (w, p, (-1)%Z)
  | Some old =>
  let* '(w, new) := argstr w p 1 MAXPATH in
  match new with
  | None => Ret (w, p, (-1)%Z)
  | Some new =>
  let* f := fs_begin (w_fs w) in
  let* '(f, r) := namei f (u_cwd p) old in
  match r with
  | None => fs_done w p f (-1)
  | Some i =>
  let* f := ilock f i in
  let* ip := load (f_itab f) i in
  if (d_type (i_di ip) =? T_DIR)%Z then let* f := iunlockput f i in fs_done w p f (-1)
  else if (NLINK_MAX <=? d_nlink (i_di ip))%Z then let* f := iunlockput f i in fs_done w p f (-1)
  else
  let* f := add_nlink f i 1 in
  let* f := iupdate_ip f i in
  let* f := iunlock f i in
  let* '(f, r, name) := nameiparent f (u_cwd p) new (replicate DIRSIZ 0%Z) in
  match r with
  | None => link_bad w p f i
  | Some d =>
  let* f := ilock f d in
  let* dp := load (f_itab f) d in
  if (d_nlink (i_di dp) =? 0)%Z then let* f := iunlockput f d in link_bad w p f i
  else
  let* ip := load (f_itab f) i in
  if negb (i_dev dp =? i_dev ip)%Z then let* f := iunlockput f d in link_bad w p f i
  else
  let* '(f, r) := dirlink f d name (i_inum ip) in
  if (r <? 0)%Z then let* f := iunlockput f d in link_bad w p f i
  else
  let* f := iunlockput f d in
  let* f := iput f i in
  fs_done w p f 0
  end end end end.

Fixpoint isdirempty_loop f (d : nat) (size off : Z) (de : bytes) (fuel : nat) : outcome (fs T * bool) :=
  match fuel with
  | O => NoFuel
  | S fuel =>
      if (off <? size)%Z then
        let* '(f, r) := read_dirent f d off de in
        match r with
        | None => Panic "isdirempty: readi"
        | Some de =>
            if negb (de_inum de =? 0)%Z then Ret (f, false)
            else isdirempty_loop f d size (off + Z.of_nat DIRENT) de fuel
        end
      else Ret (f, true)
  end.

Definition isdirempty f (d : nat) : outcome (fs T * bool) :=
  let* dp := load (f_itab f) d in
  let size := d_size (i_di dp) in
  isdirempty_loop f d size (2 * Z.of_nat DIRENT) (replicate DIRENT 0%Z) (dir_fuel size).

(** [writei] of a zero entry at [off]; the number of bytes written. *)
Definition clear_dirent f (d : nat) (off : Z) : outcome (fs T * Z) :=
  let* de := memset (replicate DIRENT 0%Z) 0 0 DIRENT in
  let* dp := load (f_itab f) d in
  let* '(t, dp, _, r) := writei kcopyin (f_sb f) (f_t f) dp de 0 off (Z.of_nat DIRENT) in
  Ret (with_ip (with_t f t) d dp, r).

Definition unlink_bad w p f (d : nat) : outcome (world M T * uproc * Z) :=
  let* f := iunlockput f d in fs_done w p f (-1).

Definition DOT : bytes := [46; 0]%Z.
Definition DOTDOT : bytes := [46; 46; 0]%Z.

Definition sys_unlink w p : outcome (world M T * uproc * Z) :=
  let* '(w, path) := argstr w p 0 MAXPATH in
  match path with
  | None => Ret (w, p, (-1)%Z)
  | Some path =>
  let* f := fs_begin (w_fs w) in
  let* '(f, r, name) := nameiparent f (u_cwd p) path (replicate DIRSIZ 0%Z) in
  match r with
  | None => fs_done w p f (-1)
  | Some d =>
  let* f := ilock f d in
  let* c1 := namecmp name DOT in
  let* dots := if (c1 =? 0)%Z then Ret true else let* c2 := namecmp name DOTDOT in Ret (c2 =? 0)%Z in
  if dots : bool then unlink_bad w p f d
  else
  let* '(f, r) := dirlookup f d name in
  match r with
  | None => unlink_bad w p f d
  | Some (i, off) =>
  let* f := ilock f i in
  let* ip := load (f_itab f) i in
  if (d_nlink (i_di ip) <? 1)%Z then Panic "unlink: nlink < 1"
  else
  let* '(f, full) := if (d_type (i_di ip) =? T_DIR)%Z
    then let* '(f, e) := isdirempty f i in Ret (f, negb e) else Ret (f, false) in
  if full : bool then let* f := iunlockput f i in unlink_bad w p f d
  else
  let* '(f, r) := clear_dirent f d off in
  if negb (r =? Z.of_nat DIRENT)%Z then Panic "unlink: writei"
  else
  let* ip := load (f_itab f) i in
  let* f := if (d_type (i_di ip) =? T_DIR)%Z
    then let* f := add_nlink f d (-1) in iupdate_ip f d else Ret f in
  let* f := iunlockput f d in
  let* f := add_nlink f i (-1) in
  let* f := iupdate_ip f i in
  let* f := iunlockput f i in
  fs_done w p f 0
  end end end.

Definition create_fail f (i d : nat) : outcome (fs T * option nat) :=
  let* ip := load (f_itab f) i in
  let f := with_ip f i (with_di ip (set_nlink (i_di ip) 0)) in
  let* f := iupdate_ip f i in
  let* f := iunlockput f i in
  let* f := iunlockput f d in
  Ret (f, None).

Definition new_di (di : dinode) (major minor : Z) : dinode :=
  mk_di (d_type di) major minor 1 (d_size di) (d_addrs di).

(** The inode, locked. *)
Definition create f (cwd : nat) (path : bytes) (type major minor : Z) : outcome (fs T * option nat) :=
  let* '(f, r, name) := nameiparent f cwd path (replicate DIRSIZ 0%Z) in
  match r with
  | None => Ret (f, None)
  | Some d =>
  let* f := ilock f d in
  let* dp := load (f_itab f) d in
  if (d_nlink (i_di dp) =? 0)%Z then let* f := iunlockput f d in Ret (f, None)
  else if (type =? T_DIR)%Z && (NLINK_MAX <=? d_nlink (i_di dp))%Z then let* f := iunlockput f d in Ret (f, None)
  else
  let* '(f, r) := dirlookup f d name in
  match r with
  | Some (i, _) =>
      let* f := iunlockput f d in
      let* f := ilock f i in
      let* ip := load (f_itab f) i in
      if (type =? T_FILE)%Z && ((d_type (i_di ip) =? T_FILE)%Z || (d_type (i_di ip) =? T_DEVICE)%Z) then Ret (f, Some i)
      else let* f := iunlockput f i in Ret (f, None)
  | None =>
  let* '(f, r) := ialloc f (i_dev dp) type in
  match r with
  | None => let* f := iunlockput f d in Ret (f, None)
  | Some i =>
  let* f := ilock f i in
  let* ip := load (f_itab f) i in
  let f := with_ip f i (with_di ip (new_di (i_di ip) major minor)) in
  let* f := iupdate_ip f i in
  let* '(f, bad) :=
    if (type =? T_DIR)%Z then
      let* '(f, r) := dirlink f i DOT (i_inum ip) in
      if (r <? 0)%Z then Ret (f, true)
      else let* '(f, r) := dirlink f i DOTDOT (i_inum dp) in Ret (f, (r <? 0)%Z)
    else Ret (f, false) in
  if bad : bool then create_fail f i d
  else
  let* '(f, r) := dirlink f d name (i_inum ip) in
  if (r <? 0)%Z then create_fail f i d
  else
  let* f := if (type =? T_DIR)%Z then let* f := add_nlink f d 1 in iupdate_ip f d else Ret f in
  let* f := iunlockput f d in
  Ret (f, Some i)
  end end end.

(** ** Opening *)

(** The file for the inode [i] in entry [fl]. *)
Definition opened (fl : file) (i : nat) (ip : inode) (omode : Z) : file :=
  let dev := (d_type (i_di ip) =? T_DEVICE)%Z in
  mk_file (if dev then FD_DEVICE else FD_INODE) (fl_ref fl)
    (negb (flagged omode O_WRONLY)) (flagged omode O_WRONLY || flagged omode O_RDWR)
    (fl_pipe fl) i (if dev then fl_off fl else 0%Z) (if dev then d_major (i_di ip) else fl_major fl).

(** The second half of [sys_open], with the inode [i] locked. *)
Definition open_inode w p f (i : nat) (omode : Z) : outcome (world M T * uproc * Z) :=
  let* ip := load (f_itab f) i in
  if (d_type (i_di ip) =? T_DEVICE)%Z && ((d_major (i_di ip) <? 0)%Z || (NDEV <=? d_major (i_di ip))%Z) then
    let* f := iunlockput f i in fs_done w p f (-1)
  else
  let* '(w, r) := filealloc (with_fs w f) in
  match r with
  | None => let* f := iunlockput (w_fs w) i in fs_done w p f (-1)
  | Some fi =>
      match fdalloc p fi with
      | (p, None) =>
          let* w := fileclose w fi in
          let* f := iunlockput (w_fs w) i in fs_done w p f (-1)
      | (p, Some fd) =>
          let* fl := load (w_ftable w) fi in
          let w := with_file w fi (opened fl i ip omode) in
          let f := w_fs w in
          let* f :=
            if flagged omode O_TRUNC && (d_type (i_di ip) =? T_FILE)%Z then
              let* '(t, ip) := itrunc (f_sb f) (f_t f) ip in Ret (with_ip (with_t f t) i ip)
            else Ret f in
          let* f := iunlock f i in
          fs_done w p f (Z.of_nat fd)
      end
  end.

Definition sys_open w p : outcome (world M T * uproc * Z) :=
  let* omode := argint p 1 in
  let* '(w, path) := argstr w p 0 MAXPATH in
  match path with
  | None => Ret (w, p, (-1)%Z)
  | Some path =>
  let* f := fs_begin (w_fs w) in
  if flagged omode O_CREATE then
    let* '(f, r) := create f (u_cwd p) path T_FILE 0 0 in
    match r with
    | None => fs_done w p f (-1)
    | Some i => open_inode w p f i omode
    end
  else
    let* '(f, r) := namei f (u_cwd p) path in
    match r with
    | None => fs_done w p f (-1)
    | Some i =>
        let* f := ilock f i in
        let* ip := load (f_itab f) i in
        if (d_type (i_di ip) =? T_DIR)%Z && negb (omode =? O_RDONLY)%Z then
          let* f := iunlockput f i in fs_done w p f (-1)
        else open_inode w p f i omode
    end
  end.

Definition sys_mkdir w p : outcome (world M T * uproc * Z) :=
  let* f := fs_begin (w_fs w) in
  let* '(w, path) := argstr (with_fs w f) p 0 MAXPATH in
  match path with
  | None => fs_done w p (w_fs w) (-1)
  | Some path =>
      let* '(f, r) := create (w_fs w) (u_cwd p) path T_DIR 0 0 in
      match r with
      | None => fs_done w p f (-1)
      | Some i => let* f := iunlockput f i in fs_done w p f 0
      end
  end.

Definition sys_mknod w p : outcome (world M T * uproc * Z) :=
  let* f := fs_begin (w_fs w) in
  let* major := argint p 1 in
  let* minor := argint p 2 in
  let* '(w, path) := argstr (with_fs w f) p 0 MAXPATH in
  match path with
  | None => fs_done w p (w_fs w) (-1)
  | Some path =>
      let* '(f, r) := create (w_fs w) (u_cwd p) path T_DEVICE (s16 major) (s16 minor) in
      match r with
      | None => fs_done w p f (-1)
      | Some i => let* f := iunlockput f i in fs_done w p f 0
      end
  end.

Definition sys_chdir w p : outcome (world M T * uproc * Z) :=
  let* f := fs_begin (w_fs w) in
  let* '(w, path) := argstr (with_fs w f) p 0 MAXPATH in
  match path with
  | None => fs_done w p (w_fs w) (-1)
  | Some path =>
      let* '(f, r) := namei (w_fs w) (u_cwd p) path in
      match r with
      | None => fs_done w p f (-1)
      | Some i =>
          let* f := ilock f i in
          let* ip := load (f_itab f) i in
          if negb (d_type (i_di ip) =? T_DIR)%Z then
            let* f := iunlockput f i in fs_done w p f (-1)
          else
            let* f := iunlock f i in
            let* f := iput f (u_cwd p) in
            fs_done w (set_cwd p i) f 0
      end
  end.

(** ** Pipes *)
Definition pipe_close w p (fds : list nat) (rf wf : nat) : outcome (world M T * uproc * Z) :=
  let p := set_ofile p (foldl (fun o fd => <[fd := None]> o) (u_ofile p) fds) in
  let* w := fileclose w rf in
  let* w := fileclose w wf in
  Ret (w, p, (-1)%Z).

Definition sys_pipe w p : outcome (world M T * uproc * Z) :=
  let* fdarray := argaddr p 0 in
  let* '(w, r) := pipealloc_files w in
  match r with
  | None => Ret (w, p, (-1)%Z)
  | Some (rf, wf) =>
      match fdalloc p rf with
      | (p, None) => pipe_close w p [] rf wf
      | (p, Some fd0) =>
          match fdalloc p wf with
          | (p, None) => pipe_close w p [fd0] rf wf
          | (p, Some fd1) =>
              let* '(m, r) := copyout (w_mem w) (u_pt p) (u_sz p) fdarray (le_encode 4 (Z.of_nat fd0)) in
              let w := with_mem w m in
              if (r <? 0)%Z then pipe_close w p [fd0; fd1] rf wf
              else
                let* '(m, r) := copyout m (u_pt p) (u_sz p) (u64 (fdarray + 4)) (le_encode 4 (Z.of_nat fd1)) in
                let w := with_mem w m in
                if (r <? 0)%Z then pipe_close w p [fd0; fd1] rf wf else Ret (w, p, 0%Z)
          end
      end
  end.

(** ** Creation and end of a process (proc.c) *)

(** The loop of [kfork] over the descriptors. *)
Fixpoint dup_files w (o : list (option nat)) : outcome (world M T) :=
  match o with
  | [] => Ret w
  | None :: o => dup_files w o
  | Some f :: o => let* w := filedup w f in dup_files w o
  end.

(** The files and the directory of the child [np], whose memory is [pt]. *)
Definition fork_files w p (pt : Z) : outcome (world M T * uproc) :=
  let* w := dup_files w (u_ofile p) in
  let* f := idup (w_fs w) (u_cwd p) in
  Ret (with_fs w f, mk_up pt (u_sz p) (u_ofile p) (u_cwd p) (u_args p)).

(** The loop of [kexit]. *)
Fixpoint close_files w (o : list (option nat)) : outcome (world M T) :=
  match o with
  | [] => Ret w
  | None :: o => close_files w o
  | Some f :: o => let* w := fileclose w f in close_files w o
  end.

Definition exit_files w p : outcome (world M T) :=
  let* w := close_files w (u_ofile p) in
  let* f := fs_begin (w_fs w) in
  let* f := iput f (u_cwd p) in
  let* f := fs_end f in
  Ret (with_fs w f).
End sysfile.
