(* ===== verification/Kexec.v ===== *)
(** * Program execution (xv6/kernel/exec.c and sys_exec of sysfile.c)

    [kexec] reads the program from the file system into a new address space,
    copies the arguments to its stack and only then replaces the old one.  The
    parts of the process that [kexec] sets besides its page table, its size and
    the register [a1] are the record [image]. *)

From S2P Require Import Prelude.
From S2P Require Import Bytes.
From S2P Require Import Kstring.
From S2P Require Import Bio.
From S2P Require Import Log.
From S2P Require Import Txn.
From S2P Require Import Fs.
From S2P Require Import Inode.
From S2P Require Import Dir.
From S2P Require Import Kalloc.
From S2P Require Import Vm.
From S2P Require Import File.
From S2P Require Import SysFile.

Definition MAXARG : nat := 32.
Definition USERSTACK : Z := 1.
Definition ELF_MAGIC : Z := 1179403647.
Definition ELF_PROG_LOAD : Z := 1.
Definition ELFHDR : nat := 64.
Definition PROGHDR : nat := 56.

(** Fields of [struct elfhdr] and [struct proghdr] *)
Definition elf_magic (h : bytes) : Z := get_le 4 h 0.
Definition elf_entry (h : bytes) : Z := get_le 8 h 24.
Definition elf_phoff (h : bytes) : Z := get_le 8 h 32.
Definition elf_phnum (h : bytes) : Z := get_le 2 h 56.
Definition ph_type (h : bytes) : Z := get_le 4 h 0.
Definition ph_flags (h : bytes) : Z := get_le 4 h 4.
Definition ph_off (h : bytes) : Z := get_le 8 h 8.
Definition ph_vaddr (h : bytes) : Z := get_le 8 h 16.
Definition ph_filesz (h : bytes) : Z := get_le 8 h 32.
Definition ph_memsz (h : bytes) : Z := get_le 8 h 40.

Definition flags2perm (flags : Z) : Z :=
  let perm := if negb (Z.land flags 1 =? 0)%Z then PTE_X else 0%Z in
  if negb (Z.land flags 2 =? 0)%Z then Z.lor perm PTE_W else perm.

Record image : Type := mk_image { im_entry : Z; im_sp : Z; im_name : bytes }.

(** The file name at the end of a path: what follows its last slash. *)
Fixpoint last_elem (last s : bytes) : outcome bytes :=
  match s with
  | [] => Undef
  | c :: s => if (c =? 0)%Z then Ret last else last_elem (if (c =? SLASH)%Z then s else last) s
  end.

Section kexec.
Context {M T : Type} `{PageStore M} `{TxStore T}.
Context (trampoline trapframe : Z).
Implicit Types (w : world M T) (p : uproc) (f : fs T) (m : M).

(** [readi] into an object of the kernel *)
Definition readi_kern f (i : nat) (buf : bytes) (off n : Z) : outcome (fs T * bytes * Z) :=
  let* ip := load (f_itab f) i in
  let* '(t, ip, buf, r) := readi kcopyout (f_sb f) (f_t f) ip buf 0 off n in
  Ret (with_ip (with_t f t) i ip, buf, r).

Fixpoint loadseg_loop m f (pt va : Z) (ip : nat) (offset sz i : Z) (fuel : nat) : outcome (M * fs T * Z) :=
  match fuel with
  | O => NoFuel
  | S fuel =>
      if (i <? sz)%Z then
        let* '(m, pa) := walkaddr m pt (u64 (va + i)) in
        if (pa =? 0)%Z then Panic "loadseg: address should exist"
        else
          let n := if (sz - i <? PGSIZE)%Z then (sz - i)%Z else PGSIZE in
          let* d := pg_get m pa in
          let* '(f, d, r) := readi_kern f ip d (u32 (offset + i)) n in
          let* m := pg_set m pa d in
          if negb (r =? n)%Z then Ret (m, f, (-1)%Z)
          else loadseg_loop m f pt va ip offset sz (u32 (i + PGSIZE)) fuel
      else Ret (m, f, 0%Z)
  end.

(** One round per page; the size of a file is below [MAXFILE] blocks. *)
Definition loadseg m f (pt va : Z) (ip : nat) (offset sz : Z) : outcome (M * fs T * Z) :=
  loadseg_loop m f pt va ip offset sz 0 (S (MAXFILE + 1)).

(** The loop over the program headers, from the [i]th on: the new size, or
    [None] for [goto bad], with the size by then. *)
Fixpoint load_segments m f (pt : Z) (ip : nat) (sz off : Z) (k : nat) : outcome (M * fs T * Z * bool) :=
  match k with
  | O => Ret (m, f, sz, true)
  | S k =>
      let* '(f, ph, r) := readi_kern f ip (replicate PROGHDR 0%Z) (u32 off) (Z.of_nat PROGHDR) in
      if negb (r =? Z.of_nat PROGHDR)%Z then Ret (m, f, sz, false)
      else if negb (ph_type ph =? ELF_PROG_LOAD)%Z then load_segments m f pt ip sz (wrap32 (off + Z.of_nat PROGHDR)) k
      else if (ph_memsz ph <? ph_filesz ph)%Z then Ret (m, f, sz, false)
      else if (u64 (ph_vaddr ph + ph_memsz ph) <? ph_vaddr ph)%Z then Ret (m, f, sz, false)
      else if negb (ph_vaddr ph `mod` PGSIZE =? 0)%Z then Ret (m, f, sz, false)
      else
        let* '(m, sz1) := uvmalloc m pt sz (u64 (ph_vaddr ph + ph_memsz ph)) (flags2perm (ph_flags ph)) in
        if (sz1 =? 0)%Z then Ret (m, f, sz, false)
        else
          let* '(m, f, r) := loadseg m f pt (ph_vaddr ph) ip (u32 (ph_off ph)) (u32 (ph_filesz ph)) in
          if (r <? 0)%Z then Ret (m, f, sz1, false)
          else load_segments m f pt ip sz1 (wrap32 (off + Z.of_nat PROGHDR)) k
  end.

(** The argument strings are copied downwards; [ustack] holds their addresses
    so far.  [argv] are the pages of the strings, [None] for [goto bad]. *)
Fixpoint push_args m (pt sz stackbase sp : Z) (argv : list Z) (ustack : list Z) : outcome (M * option (Z * list Z)) :=
  match argv with
  | [] => Ret (m, Some (sp, ustack))
  | page :: argv =>
      let* s := pg_get m page in
      let* n := strlen s in
      let sp := u64 (sp - (Z.of_nat n + 1)) in
      let sp := (sp - sp `mod` 16)%Z in
      if (sp <? stackbase)%Z then Ret (m, None)
      else
        let* '(m, r) := copyout m pt sz sp (take (n + 1) s) in
        if (r <? 0)%Z then Ret (m, None)
        else if MAXARG <=? length ustack then Undef
        else push_args m pt sz stackbase sp argv (ustack ++ [sp])
  end.

Definition kexec_bad w p (f : fs T) (pt sz : Z) (ip : option nat) : outcome (world M T * uproc * Z * option image) :=
  let* m := if negb (pt =? 0)%Z then proc_freepagetable (w_mem w) pt sz else Ret (w_mem w) in
  let* f := match ip with
            | Some i => let* f := iunlockput f i in fs_end f
            | None => Ret f
            end in
  Ret (with_fs (with_mem w m) f, p, (-1)%Z, None).

(** The part of [kexec] behind [end_op]: stack, arguments, replacement. *)
Definition kexec_stack w p (pt sz : Z) (entry : Z) (path : bytes) (argv : list Z) : outcome (world M T * uproc * Z * option image) :=
  let f := w_fs w in
  let oldsz := u_sz p in
  let sz := PGROUNDUP sz in
  let* '(m, sz1) := uvmalloc (w_mem w) pt sz (u64 (sz + (USERSTACK + 1) * PGSIZE)) PTE_W in
  let w := with_mem w m in
  if (sz1 =? 0)%Z then kexec_bad w p f pt sz None
  else
  let sz := sz1 in
  let* m := uvmclear (w_mem w) pt (u64 (sz - (USERSTACK + 1) * PGSIZE)) in
  let sp := sz in
  let stackbase := u64 (sp - USERSTACK * PGSIZE) in
  let* '(m, r) := push_args m pt sz stackbase sp argv [] in
  let w := with_mem w m in
  match r with
  | None => kexec_bad w p f pt sz None
  | Some (sp, ustack) =>
  if MAXARG <=? length ustack then Undef
  else
  let argc := length ustack in
  let sp := u64 (sp - (Z.of_nat argc + 1) * 8) in
  let sp := (sp - sp `mod` 16)%Z in
  if (sp <? stackbase)%Z then kexec_bad w p f pt sz None
  else
  let* '(m, r) := copyout (w_mem w) pt sz sp (flat_map (le_encode 8) (ustack ++ [0%Z])) in
  let w := with_mem w m in
  if (r <? 0)%Z then kexec_bad w p f pt sz None
  else
  let* last := last_elem path path in
  let* name := safestrcpy (replicate 16 0%Z) last 16 in
  let oldpt := u_pt p in
  let p := mk_up pt sz (u_ofile p) (u_cwd p) (<[1 := sp]> (u_args p)) in
  let* m := proc_freepagetable (w_mem w) oldpt oldsz in
  Ret (with_mem w m, p, Z.of_nat argc, Some (mk_image entry sp name))
  end.

Definition kexec w p (path : bytes) (argv : list Z) : outcome (world M T * uproc * Z * option image) :=
  let* f := fs_begin (w_fs w) in
  let* '(f, r) := namei f (u_cwd p) path in
  match r with
  | None => let* f := fs_end f in Ret (with_fs w f, p, (-1)%Z, None)
  | Some ip =>
  let* f := ilock f ip in
  let* '(f, elf, r) := readi_kern f ip (replicate ELFHDR 0%Z) 0 (Z.of_nat ELFHDR) in
  if negb (r =? Z.of_nat ELFHDR)%Z then kexec_bad w p f 0 0 (Some ip)
  else if negb (elf_magic elf =? ELF_MAGIC)%Z then kexec_bad w p f 0 0 (Some ip)
  else
  let* '(m, pt) := proc_pagetable (w_mem w) trampoline trapframe in
  let w := with_mem w m in
  if (pt =? 0)%Z then kexec_bad w p f 0 0 (Some ip)
  else
  let* '(m, f, sz, ok) := load_segments (w_mem w) f pt ip 0 (wrap32 (elf_phoff elf)) (Z.to_nat (elf_phnum elf)) in
  let w := with_mem w m in
  if negb ok then kexec_bad w p f pt sz (Some ip)
  else
  let* f := iunlockput f ip in
  let* f := fs_end f in
  kexec_stack (with_fs w f) p pt sz (elf_entry elf) path argv
  end.

(** ** sys_exec *)

(** The loop that frees the pages of the arguments. *)
Fixpoint free_args m (argv : list Z) : outcome M :=
  match argv with
  | [] => Ret m
  | page :: argv => let* m := pg_kfree m page in free_args m argv
  end.

(** The loop that fetches the arguments, [k] entries of [argv] to go; [false]
    for [goto bad], with the pages allocated by then. *)
Fixpoint fetch_args w p (uargv : Z) (i : Z) (argv : list Z) (k : nat) : outcome (world M T * list Z * bool) :=
  match k with
  | O => Ret (w, argv, false)
  | S k =>
      let* '(w, r) := fetchaddr w p (u64 (uargv + 8 * i)) in
      match r with
      | None => Ret (w, argv, false)
      | Some uarg =>
          if (uarg =? 0)%Z then Ret (w, argv, true)
          else
            let* '(m, page) := pg_kalloc (w_mem w) in
            let w := with_mem w m in
            if (page =? 0)%Z then Ret (w, argv, false)
            else
              let* '(m, x, r) := copyinstr (w_mem w) (u_pt p) (u_sz p) uarg PGBYTES in
              let* d := pg_get m page in
              let* m := pg_set m page (splice 0 x d) in
              let w := with_mem w m in
              if (r <? 0)%Z then Ret (w, argv ++ [page], false)
              else
                let* _ := strlen (splice 0 x d) in
                fetch_args w p uargv (i + 1) (argv ++ [page]) k
      end
  end.

Definition sys_exec w p : outcome (world M T * uproc * Z * option image) :=
  let* uargv := argaddr p 1 in
  let* '(w, path) := argstr w p 0 MAXPATH in
  match path with
  | None => Ret (w, p, (-1)%Z, None)
  | Some path =>
      let* '(w, argv, ok) := fetch_args w p uargv 0 [] MAXARG in
      if negb ok then
        let* m := free_args (w_mem w) argv in Ret (with_mem w m, p, (-1)%Z, None)
      else
        let* '(w, p, ret, im) := kexec w p path argv in
        let* m := free_args (w_mem w) argv in
        Ret (with_mem w m, p, ret, im)
  end.
End kexec.
