(* ===== verification/Account.v ===== *)
(** * What the file system functions take and give back

    Every function of [fs.c] on inodes is described by what it does to the
    reference counts and locks of the inode table and to the number of
    transactions under way, whenever it returns: an [iget] takes a reference, an
    [ilock] a lock, and so on.  [effect a l d f f'] says that [f'] is [f] with
    the references [a] added, the locks [l] set in this order, and [d]
    transactions more. *)

From S2P Require Import Prelude.
From S2P Require Import Bytes.
From S2P Require Import Kstring.
From S2P Require Import Bio.
From S2P Require Import Log.
From S2P Require Import Txn.
From S2P Require Import Fs.
From S2P Require Import Inode.
From S2P Require Import Dir.

(** ** Partial correctness *)
Definition ret_sat {A} (m : outcome A) (Q : A -> Prop) : Prop := forall a, m = Ret a -> Q a.

Lemma rs_ret {A} (a : A) Q : Q a -> ret_sat (Ret a) Q.
Proof. intros HQ b E. by simplify_eq. Qed.
Lemma rs_bind {A B} (m : outcome A) (k : A -> outcome B) P Q :
  ret_sat m P -> (forall a, P a -> ret_sat (k a) Q) -> ret_sat (obind m k) Q.
Proof. intros Hm Hk b E. apply obind_inv in E as (a & Ea & E). exact (Hk a (Hm a Ea) b E). Qed.
Lemma rs_mono {A} (m : outcome A) (P Q : A -> Prop) : ret_sat m P -> (forall a, P a -> Q a) -> ret_sat m Q.
Proof. intros Hm HPQ a E. auto. Qed.
Lemma rs_self {A} (m : outcome A) : ret_sat m (fun a => m = Ret a).
Proof. by intros a E. Qed.

Lemma rs_assoc {A B C} (m : outcome A) (k : A -> outcome B) (h : B -> outcome C) Q :
  ret_sat (obind m (fun a => obind (k a) h)) Q -> ret_sat (obind (obind m k) h) Q.
Proof. by destruct m. Qed.

Create HintDb acct.

(** Symbolic execution: specifications come from the hint database, other
    calls are remembered by their equation. *)
Ltac rs_intro :=
  let a := fresh "v" in
  let Ha := fresh "Hv" in
  intros a Ha;
  repeat (match type of a with (_ * _)%type => let x := fresh "v" in destruct a as [a x] end); cbn beta iota in *.

Ltac rs_step :=
  lazymatch goal with
  | |- ret_sat (Ret _) _ => apply rs_ret; cbn beta iota
  | |- ret_sat Undef _ => by intros ? ?
  | |- ret_sat NoFuel _ => by intros ? ?
  | |- ret_sat (Panic _) _ => by intros ? ?
  | |- ret_sat (obind (Ret _) _) _ => cbn [obind]
  | |- ret_sat (obind (Panic _) _) _ => by intros ? ?
  | |- ret_sat (obind Undef _) _ => by intros ? ?
  | |- ret_sat (obind NoFuel _) _ => by intros ? ?
  | |- ret_sat (obind (obind _ _) _) _ => apply rs_assoc
  | |- ret_sat (obind (if ?b then _ else _) _) _ => destruct b eqn:?
  | |- ret_sat (obind (match ?x with _ => _ end) _) _ => destruct x eqn:?
  | |- ret_sat (obind _ _) _ => eapply rs_bind; [rs_call|rs_intro]
  | |- ret_sat (if ?b then _ else _) _ => destruct b eqn:?
  | |- ret_sat (match ?x with _ => _ end) _ => destruct x eqn:?
  | |- ret_sat _ _ => eapply rs_mono; [solve [eauto with acct nocore]|rs_intro]
  end
with rs_call := first [solve [eauto with acct nocore] | apply rs_self].

(** ** Transactions under way *)
Class TxDepth (T : Type) `{TxStore T} := {
  t_depth : T -> Z;
  td_bread : forall t b, ret_sat (t_bread t b) (fun '(t', _) => t_depth t' = t_depth t);
  td_set_data : forall t i d, ret_sat (t_set_data t i d) (fun t' => t_depth t' = t_depth t);
  td_log_write : forall t i, ret_sat (t_log_write t i) (fun t' => t_depth t' = t_depth t);
  td_brelse : forall t i, ret_sat (t_brelse t i) (fun t' => t_depth t' = t_depth t);
  td_begin : forall t, ret_sat (t_begin_op t) (fun t' => t_depth t' = t_depth t + 1)%Z;
  td_end : forall t, ret_sat (t_end_op t) (fun t' => t_depth t' = t_depth t - 1)%Z
}.
#[export] Hint Resolve td_bread td_set_data td_log_write td_brelse td_begin td_end : acct.

(** The tactic for functions on the block store: each step keeps the depth. *)
Ltac depth_solve := repeat rs_step; simplify_eq; (reflexivity || congruence).

#[export] Instance log_depth {S} `{BlockCache S} : TxDepth (log * S).
Proof.
  refine {| t_depth t := lg_outstanding t.1 |}.
  - intros [l s] b. cbn [t_bread log_tx]. depth_solve.
  - intros [l s] i d. cbn [t_set_data log_tx]. depth_solve.
  - intros [l s] i. cbn [t_log_write log_tx fst snd]. unfold log_write, log_absorb. depth_solve.
  - intros [l s] i. cbn [t_brelse log_tx]. depth_solve.
  - intros [l s]. cbn [t_begin_op log_tx fst snd]. unfold begin_op. intros t' E. repeat case_match; simplify_eq. done.
  - intros [l s]. cbn [t_end_op log_tx fst snd]. unfold end_op, commit. repeat rs_step; cbn in *; try lia.
Defined.

Section depth.
Context {T : Type} `{TxDepth T}.
Implicit Types (t : T) (ip : inode).

Lemma bzero_depth t b : ret_sat (bzero t b) (fun t' => t_depth t' = t_depth t).
Proof. unfold bzero. depth_solve. Qed.
Hint Resolve bzero_depth : acct.

Lemma balloc_loop_depth sb fuel : forall t b, ret_sat (balloc_loop sb t b fuel) (fun '(t', _) => t_depth t' = t_depth t).
Proof. induction fuel as [|fuel IH]; intros t b; cbn [balloc_loop]; depth_solve. Qed.

Lemma balloc_depth sb t : ret_sat (balloc sb t) (fun '(t', _) => t_depth t' = t_depth t).
Proof. apply balloc_loop_depth. Qed.
Lemma bfree_depth sb t b : ret_sat (bfree sb t b) (fun t' => t_depth t' = t_depth t).
Proof. unfold bfree. depth_solve. Qed.
Lemma iupdate_depth sb t ip : ret_sat (iupdate sb t ip) (fun t' => t_depth t' = t_depth t).
Proof. unfold iupdate. depth_solve. Qed.
Lemma ifree_depth sb t inum : ret_sat (ifree sb t inum) (fun t' => t_depth t' = t_depth t).
Proof. unfold ifree. depth_solve. Qed.
Hint Resolve balloc_depth bfree_depth iupdate_depth ifree_depth : acct.

(** The functions that change an inode in memory change only the part of it
    that is on the disk too. *)
Definition entry_core (ip : inode) := (i_dev ip, i_inum ip, i_ref ip, i_locked ip, i_valid ip).
Definition same_entry t ip (t' : T) (ip' : inode) : Prop := t_depth t' = t_depth t /\ entry_core ip' = entry_core ip.

Lemma entry_core_di ip d : entry_core (with_di ip d) = entry_core ip.
Proof. done. Qed.

Ltac entry_solve := unfold same_entry in *; destruct_and?; rewrite ?entry_core_di in *; split; congruence.

Lemma bmap_entry_same sb t ip addr bn : ret_sat (bmap_entry sb t ip addr bn) (fun '(t', ip', _) => same_entry t ip t' ip').
Proof. unfold bmap_entry. repeat rs_step; entry_solve. Qed.
Hint Resolve bmap_entry_same : acct.

Lemma bmap_same sb t ip bn : ret_sat (bmap sb t ip bn) (fun '(t', ip', _) => same_entry t ip t' ip').
Proof. unfold bmap. repeat rs_step; entry_solve. Qed.

Lemma free_direct_same sb k : forall t ip i, ret_sat (free_direct sb t ip i k) (fun '(t', ip') => same_entry t ip t' ip').
Proof. induction k as [|k IH]; intros t ip i; cbn [free_direct]; repeat rs_step; entry_solve. Qed.

Lemma free_indirect_depth sb a k : forall t j, ret_sat (free_indirect sb t a j k) (fun t' => t_depth t' = t_depth t).
Proof. induction k as [|k IH]; intros t j; cbn [free_indirect]; depth_solve. Qed.
Hint Resolve bmap_same free_direct_same free_indirect_depth : acct.

Lemma itrunc_same sb t ip : ret_sat (itrunc sb t ip) (fun '(t', ip') => same_entry t ip t' ip').
Proof. unfold itrunc. repeat rs_step; entry_solve. Qed.
Hint Resolve itrunc_same : acct.

Lemma readi_loop_same {M} copyout sb n fuel : forall t ip (mem : M) dst off tot,
  ret_sat (readi_loop copyout sb t ip mem dst off n tot fuel) (fun '(t', ip', _, _) => same_entry t ip t' ip').
Proof. induction fuel as [|fuel IH]; intros t ip mem dst off tot; cbn [readi_loop]; repeat rs_step; entry_solve. Qed.

Lemma readi_same {M} copyout sb t ip (mem : M) dst off n :
  ret_sat (readi copyout sb t ip mem dst off n) (fun '(t', ip', _, _) => same_entry t ip t' ip').
Proof. unfold readi. rs_step; [rs_step; entry_solve|apply readi_loop_same]. Qed.

Lemma writei_loop_same {M} copyin sb n fuel : forall t ip (mem : M) src off tot,
  ret_sat (writei_loop copyin sb t ip mem src off n tot fuel) (fun '(t', ip', _, _, _) => same_entry t ip t' ip').
Proof. induction fuel as [|fuel IH]; intros t ip mem src off tot; cbn [writei_loop]; repeat rs_step; entry_solve. Qed.
Hint Resolve @readi_same @writei_loop_same : acct.

Lemma writei_same {M} copyin sb t ip (mem : M) src off n :
  ret_sat (writei copyin sb t ip mem src off n) (fun '(t', ip', _, _) => same_entry t ip t' ip').
Proof. unfold writei. repeat rs_step; try entry_solve. case_match; entry_solve. Qed.
End depth.
#[export] Hint Resolve iupdate_depth ifree_depth itrunc_same readi_same writei_same : acct.

(** ** Effects on the inode table *)
Definition tot (a : list (nat * Z)) (j : nat) : Z :=
  foldr (fun x s => if decide (x.1 = j) then (x.2 + s)%Z else s) 0%Z a.
Definition final (l : list (nat * bool)) (j : nat) (b : bool) : bool :=
  foldl (fun b x => if decide (x.1 = j) then x.2 else b) b l.

Definition rf {T} (f : fs T) (j : nat) : Z := default 0%Z (i_ref <$> f_itab f !! j).
Definition lk {T} (f : fs T) (j : nat) : bool := default false (i_locked <$> f_itab f !! j).

Record effect {T} `{TxDepth T} (a : list (nat * Z)) (l : list (nat * bool)) (d : Z) (f f' : fs T) : Prop := {
  ef_refs : forall j, rf f' j = (rf f j + tot a j)%Z;
  ef_locks : forall j, lk f' j = final l j (lk f j);
  ef_depth : t_depth (f_t f') = (t_depth (f_t f) + d)%Z;
  ef_len : length (f_itab f') = length (f_itab f);
  ef_sb : f_sb f' = f_sb f
}.

(** Facts about later states are carried back to the first one. *)
Ltac eff_pull :=
  repeat match goal with
  | E : effect _ _ _ _ ?g, HL : context [lk ?g ?i] |- _ => rewrite (ef_locks _ _ _ _ _ E i) in HL
  | E : effect _ _ _ _ ?g |- context [lk ?g ?i] => rewrite (ef_locks _ _ _ _ _ E i)
  | E : effect _ _ _ _ ?g |- context [rf ?g ?i] => rewrite (ef_refs _ _ _ _ _ E i)
  | E : effect _ _ _ _ ?g |- context [t_depth (f_t ?g)] => rewrite (ef_depth _ _ _ _ _ E)
  | E : effect _ _ _ _ ?g |- context [length (f_itab ?g)] => rewrite (ef_len _ _ _ _ _ E)
  | E : effect _ _ _ _ ?g |- context [f_sb ?g] => rewrite (ef_sb _ _ _ _ _ E)
  end.
Ltac eff_cases := cbn [tot final foldr foldl fst snd] in *; repeat (case_decide; subst; cbn [fst snd] in *); try (congruence || lia).
Ltac eff_solve := split; intros; eff_pull; eff_cases.

Section effect.
Context {T : Type} `{TxDepth T}.
Implicit Types (f : fs T) (t : T) (ip : inode).

Lemma effect_refl f : effect [] [] 0 f f.
Proof. split; intros; simpl; (done || lia). Qed.

Lemma load_sat {A} (l : list A) i : ret_sat (load l i) (fun a => l !! i = Some a).
Proof. intros a. unfold load. destruct (l !! i); by intros [= ->]. Qed.
Hint Resolve @load_sat : acct.

(** An update of one entry. *)
Lemma effect_entry f t i ip ip' a l d : f_itab f !! i = Some ip -> t_depth t = (t_depth (f_t f) + d)%Z ->
  (i_ref ip' = i_ref ip + tot a i)%Z -> (forall j, j <> i -> tot a j = 0%Z) ->
  i_locked ip' = final l i (i_locked ip) -> (forall j b, j <> i -> final l j b = b) ->
  effect a l d f (with_ip (with_t f t) i ip').
Proof.
  intros Hi Ht Hr Ha Hl Hb. assert (i < length (f_itab f)) as Hlt by (by eapply lookup_lt_Some).
  split; cbn; try done.
  - intros j. unfold rf. cbn. destruct (decide (j = i)) as [->|Hne].
    + rewrite list_lookup_insert_eq, Hi by done. done.
    + rewrite list_lookup_insert_ne by done. rewrite Ha by done. lia.
  - intros j. unfold lk. cbn. destruct (decide (j = i)) as [->|Hne].
    + rewrite list_lookup_insert_eq, Hi by done. done.
    + rewrite list_lookup_insert_ne by done. by rewrite Hb.
  - by rewrite length_insert.
Qed.

Lemma with_t_self f : with_t f (f_t f) = f.
Proof. by destruct f. Qed.

Lemma effect_ip f i ip ip' a l : f_itab f !! i = Some ip ->
  (i_ref ip' = i_ref ip + tot a i)%Z -> (forall j, j <> i -> tot a j = 0%Z) ->
  i_locked ip' = final l i (i_locked ip) -> (forall j b, j <> i -> final l j b = b) ->
  effect a l 0 f (with_ip f i ip').
Proof. intros Hi Hr Ha Hl Hb. rewrite <-(with_t_self f) at 2. eapply effect_entry; try done. lia. Qed.

Lemma effect_same f t i ip ip' : f_itab f !! i = Some ip -> same_entry (f_t f) ip t ip' -> effect [] [] 0 f (with_ip (with_t f t) i ip').
Proof. intros Hi [Ht Hc]. unfold entry_core in Hc. eapply effect_entry; simpl; try done; try congruence; simplify_eq; lia. Qed.

Lemma effect_di f i ip d : f_itab f !! i = Some ip -> effect [] [] 0 f (with_ip f i (with_di ip d)).
Proof. intros Hi. eapply effect_ip; simpl; try done. lia. Qed.

Lemma effect_t f t d : t_depth t = (t_depth (f_t f) + d)%Z -> effect [] [] d f (with_t f t).
Proof. intros Ht. split; intros; simpl; try done. rewrite Z.add_0_r. done. Qed.

Lemma lk_at f i ip : f_itab f !! i = Some ip -> lk f i = i_locked ip.
Proof. unfold lk. by intros ->. Qed.

Lemma iget_effect f dev inum : ret_sat (iget f dev inum) (fun '(f', i) => effect [(i, 1%Z)] [] 0 f f').
Proof.
  unfold iget. destruct (iget_scan_ok dev inum (f_itab f) 0 None) as [(k & ip & -> & Hk & _)|[_ [(k & ip & -> & Hk & Hz)|[-> _]]]].
  - rewrite Nat.add_0_l, (load_ret _ _ _ Hk). repeat rs_step. eapply effect_ip; cbn; try done.
    + by rewrite decide_True.
    + intros j Hj. by rewrite decide_False.
  - rewrite Nat.add_0_l, (load_ret _ _ _ Hk). repeat rs_step. eapply effect_ip; cbn; try done.
    + rewrite decide_True by done. lia.
    + intros j Hj. by rewrite decide_False.
  - repeat rs_step.
Qed.
Hint Resolve iget_effect : acct.

Lemma idup_effect f i : ret_sat (idup f i) (effect [(i, 1%Z)] [] 0 f).
Proof.
  unfold idup. repeat rs_step. eapply effect_ip; cbn; try done; [by rewrite decide_True|]. intros j Hj. by rewrite decide_False.
Qed.

Lemma ilock_effect f i : ret_sat (ilock f i) (fun f' => lk f i = false /\ effect [] [(i, true)] 0 f f').
Proof.
  unfold ilock. repeat rs_step; (split; [by rewrite (lk_at _ _ _ Hv)|]).
  - eapply effect_ip; cbn; try done; [lia|by rewrite decide_True|]. intros j b Hj. by rewrite decide_False.
  - eapply effect_entry; cbn; try done; [congruence || lia|lia|by rewrite decide_True|]. intros j b Hj. by rewrite decide_False.
Qed.

Lemma iunlock_effect f i : ret_sat (iunlock f i) (fun f' => lk f i = true /\ effect [] [(i, false)] 0 f f').
Proof.
  unfold iunlock. repeat rs_step. apply orb_false_iff in Heqb as [Hb _]. apply negb_false_iff in Hb.
  split; [by rewrite (lk_at _ _ _ Hv)|]. eapply effect_ip; cbn; try done; [lia|by rewrite decide_True|].
  intros j b Hj. by rewrite decide_False.
Qed.

Lemma drop_ref f i ip : f_itab f !! i = Some ip -> effect [(i, (-1)%Z)] [] 0 f (with_ip f i (set_ref ip (i_ref ip - 1))).
Proof.
  intros Hi. eapply effect_ip; cbn; try done; [rewrite decide_True by done; lia|]. intros j Hj. by rewrite decide_False.
Qed.

(** [iput] with the last reference truncates the file under the lock. *)
Lemma iput_effect f i : ret_sat (iput f i) (effect [(i, (-1)%Z)] [] 0 f).
Proof.
  unfold iput. repeat rs_step; [|by apply drop_ref].
  destruct Hv0 as [Ht Hc]. unfold entry_core in Hc. cbn in Hc. injection Hc as _ _ Hc1 Hc2 _.
  set (f1 := with_ip (with_t f v0) i (set_ilock (set_valid v1 false) false)) in *.
  assert (effect [] [] 0 f f1) as E1 by (eapply effect_entry; cbn; try done; (lia || congruence)).
  pose proof (drop_ref _ _ _ Hv1) as E2. set (f2 := with_ip f1 i _) in *.
  pose proof (effect_t f2 v3 0 ltac:(lia)) as E3. eff_solve.
Qed.
Hint Resolve idup_effect ilock_effect iunlock_effect iput_effect : acct.

Lemma iunlockput_effect f i : ret_sat (iunlockput f i) (fun f' => lk f i = true /\ effect [(i, (-1)%Z)] [(i, false)] 0 f f').
Proof. unfold iunlockput. repeat rs_step. destruct_and?. split; [done|]. eff_solve. Qed.

Lemma iupdate_ip_effect f i : ret_sat (iupdate_ip f i) (effect [] [] 0 f).
Proof. unfold iupdate_ip. repeat rs_step. apply effect_t. lia. Qed.
Hint Resolve iunlockput_effect iupdate_ip_effect : acct.

(** A search that may take a reference. *)
Definition taken (o : option nat) : list (nat * Z) := match o with Some i => [(i, 1%Z)] | None => [] end.

Lemma ialloc_loop_effect dev type k : forall f inum,
  ret_sat (ialloc_loop f dev type inum k) (fun '(f', o) => effect (taken o) [] 0 f f').
Proof.
  induction k as [|k IH]; intros f inum; cbn [ialloc_loop]; repeat rs_step; cbn [taken] in *; try apply effect_refl.
  all: match goal with _ : effect _ _ _ (with_t ?f ?t) _ |- _ => pose proof (effect_t f t 0 ltac:(lia)) end; eff_solve.
Qed.
Hint Resolve ialloc_loop_effect : acct.

Lemma ialloc_effect f dev type : ret_sat (ialloc f dev type) (fun '(f', o) => effect (taken o) [] 0 f f').
Proof. apply ialloc_loop_effect. Qed.

Lemma read_dirent_effect f d off de : ret_sat (read_dirent f d off de) (fun '(f', _) => effect [] [] 0 f f').
Proof. unfold read_dirent. repeat rs_step; by eapply effect_same. Qed.
Hint Resolve ialloc_effect read_dirent_effect : acct.

Lemma dirlookup_loop_effect d name size dev fuel : forall f off de,
  ret_sat (dirlookup_loop f d name size dev off de fuel) (fun '(f', o) => effect (taken (fst <$> o)) [] 0 f f').
Proof.
  induction fuel as [|fuel IH]; intros f off de; cbn [dirlookup_loop]; repeat rs_step; cbn [taken fst fmap option_fmap option_map] in *;
    try apply effect_refl; eff_solve.
Qed.
Hint Resolve dirlookup_loop_effect : acct.

Lemma dirlookup_effect f d name : ret_sat (dirlookup f d name) (fun '(f', o) => effect (taken (fst <$> o)) [] 0 f f').
Proof. unfold dirlookup. repeat rs_step. done. Qed.

Lemma dirlink_loop_effect d size fuel : forall f off de,
  ret_sat (dirlink_loop f d size off de fuel) (fun '(f', _, _) => effect [] [] 0 f f').
Proof. induction fuel as [|fuel IH]; intros f off de; cbn [dirlink_loop]; repeat rs_step; try apply effect_refl; eff_solve. Qed.
Hint Resolve dirlookup_effect dirlink_loop_effect : acct.

Lemma dirlink_effect f d name inum : ret_sat (dirlink f d name inum) (fun '(f', _) => effect [] [] 0 f f').
Proof.
  unfold dirlink. repeat rs_step; cbn [taken fst fmap option_fmap option_map] in *; [eff_solve|];
    (pose proof (effect_same _ _ _ _ _ ltac:(eassumption) ltac:(eassumption)) as E; eff_solve).
Qed.
Hint Resolve dirlink_effect : acct.

(** [namex] hands the reference from element to element. *)
Lemma namex_loop_effect parent fuel : forall f i path name,
  ret_sat (namex_loop f i path parent name fuel) (fun '(f', o, _) => effect ((i, (-1)%Z) :: taken o) [] 0 f f').
Proof.
  induction fuel as [|fuel IH]; intros f i path name; cbn [namex_loop]; [by intros ? ?|].
  repeat rs_step; cbn [taken fst fmap option_fmap option_map] in *; destruct_and?; eff_solve.
Qed.
Hint Resolve namex_loop_effect : acct.

Lemma namex_effect f cwd path parent name :
  ret_sat (namex f cwd path parent name) (fun '(f', o, _) => effect (taken o) [] 0 f f').
Proof. unfold namex. repeat rs_step; match goal with |- context [taken ?o] => destruct o end; cbn [taken] in *; eff_solve. Qed.
Hint Resolve namex_effect : acct.

Lemma namei_effect f cwd path : ret_sat (namei f cwd path) (fun '(f', o) => effect (taken o) [] 0 f f').
Proof. unfold namei. repeat rs_step. done. Qed.
Lemma nameiparent_effect f cwd path name :
  ret_sat (nameiparent f cwd path name) (fun '(f', o, _) => effect (taken o) [] 0 f f').
Proof. apply namex_effect. Qed.
End effect.
#[export] Hint Resolve @load_sat iget_effect idup_effect ilock_effect iunlock_effect iput_effect iunlockput_effect
  iupdate_ip_effect ialloc_effect read_dirent_effect dirlookup_effect dirlink_effect namei_effect nameiparent_effect : acct.
