(* ===== verification/FileInv.v ===== *)
(** * Descriptors, open files and inodes agree

    The reference count of an open file is the number of descriptors that name
    it, over all processes; the reference count of an inode in memory is the
    number of open files on it and of processes with it as working directory;
    the ends of a pipe are open exactly as long as a file for them is; between
    two system calls no inode is locked and no transaction is under way.  The
    [ledger] states this with the references that a running system call holds
    in addition; each function moves entries of the ledger. *)

From S2P Require Import Prelude.
From S2P Require Import Bytes.
From S2P Require Import Kstring.
From S2P Require Import Pipe.
From S2P Require Import Bio.
From S2P Require Import Log.
From S2P Require Import Txn.
From S2P Require Import Fs.
From S2P Require Import Inode.
From S2P Require Import Dir.
From S2P Require Import Kalloc.
From S2P Require Import Vm.
From S2P Require Import File.
From S2P Require Import SysFile.
From S2P Require Import Account.

(** ** Sums over a list *)
Fixpoint zsum {A} (g : A -> Z) (l : list A) : Z := match l with [] => 0 | x :: l => g x + zsum g l end.

Section zsum.
Context {A : Type} (g : A -> Z).

Lemma zsum_app l l' : zsum g (l ++ l') = (zsum g l + zsum g l')%Z.
Proof. induction l as [|x l IH]; simpl; [done|]. rewrite IH. lia. Qed.

Lemma zsum_insert l : forall k x y, l !! k = Some x -> zsum g (<[k := y]> l) = (zsum g l - g x + g y)%Z.
Proof.
  induction l as [|z l IH]; intros [|k] x y E; simplify_eq/=; [lia|]. rewrite (IH k x y E). lia.
Qed.

Lemma zsum_delete l : forall k x, l !! k = Some x -> zsum g (delete k l) = (zsum g l - g x)%Z.
Proof. induction l as [|z l IH]; intros [|k] x E; simplify_eq/=; [lia|]. rewrite (IH k x E). lia. Qed.

Lemma zsum_nonneg l : (forall x, 0 <= g x)%Z -> (0 <= zsum g l)%Z.
Proof. intros Hg. induction l as [|x l IH]; simpl; [lia|]. specialize (Hg x). lia. Qed.

Lemma zsum_le l k x : (forall x, 0 <= g x)%Z -> l !! k = Some x -> (g x <= zsum g l)%Z.
Proof.
  intros Hg. revert k. induction l as [|z l IH]; intros [|k] E; simplify_eq/=.
  - pose proof (zsum_nonneg l Hg). lia.
  - specialize (IH k E). specialize (Hg z). lia.
Qed.

Lemma zsum_zero l : (forall x, x ∈ l -> g x = 0%Z) -> zsum g l = 0%Z.
Proof.
  induction l as [|x l IH]; intros Hz; simpl; [done|]. rewrite (Hz x) by apply list_elem_of_here.
  rewrite IH; [lia|]. intros y Hy. apply Hz. by apply list_elem_of_further.
Qed.

Lemma zsum_pos l : (forall x, 0 <= g x)%Z -> (0 < zsum g l)%Z -> exists k x, l !! k = Some x /\ (0 < g x)%Z.
Proof.
  intros Hg. induction l as [|z l IH]; simpl; intros Hp; [lia|]. destruct (decide (0 < g z)%Z) as [Hz|Hz]; [by exists 0, z|].
  destruct IH as (k & x & E & Hx); [specialize (Hg z); lia|]. by exists (S k), x.
Qed.
End zsum.

Definition b2z (b : bool) : Z := if b then 1 else 0.
Lemma b2z_nonneg b : (0 <= b2z b)%Z.
Proof. destruct b; simpl; lia. Qed.

(** ** Who refers to what *)
Definition names_file (i : nat) (o : option nat) : Z := b2z (bool_decide (o = Some i)).
Definition fd_count (ps : list uproc) (i : nat) : Z := zsum (fun p => zsum (names_file i) (u_ofile p)) ps.
Definition in_dir (j : nat) (p : uproc) : Z := b2z (bool_decide (u_cwd p = j)).

Definition on_inode (fl : file) : bool := match fl_type fl with FD_INODE | FD_DEVICE => true | _ => false end.
Definition on_pipe (fl : file) : bool := match fl_type fl with FD_PIPE => true | _ => false end.
Definition holds_ip (j : nat) (fl : file) : Z := b2z (on_inode fl && bool_decide (fl_ip fl = j)).
Definition holds_end (pi : Z) (wr : bool) (fl : file) : Z :=
  b2z (on_pipe fl && bool_decide (fl_pipe fl = pi) && Bool.eqb (fl_writable fl) wr).

(** A pipe lives as long as one of its ends is open, and an end as long as
    its file. *)
Definition pipes_ok (ft : list file) (ps : gmap Z pipe) : Prop := forall pi,
  match ps !! pi with
  | Some pp => zsum (holds_end pi true) ft = b2z (pi_writeopen pp) /\ zsum (holds_end pi false) ft = b2z (pi_readopen pp) /\
      pi_readopen pp || pi_writeopen pp = true
  | None => zsum (holds_end pi true) ft = 0%Z /\ zsum (holds_end pi false) ft = 0%Z
  end.

(** [xf] and [xi]: references to files and inodes that the running call
    holds; [xl]: the inode locks it took; [d]: its transactions. *)
Record ledger {M T} `{TxDepth T} (w : world M T) (ps : list uproc) (xf xi : list (nat * Z)) (xl : list (nat * bool)) (d : Z) : Prop := {
  le_len : length (w_ftable w) = NFILE;
  le_ref : forall i fl, w_ftable w !! i = Some fl -> fl_ref fl = (fd_count ps i + tot xf i)%Z;
  le_none : forall i fl, w_ftable w !! i = Some fl -> fl_ref fl = 0%Z -> fl_type fl = FD_NONE;
  le_open : forall i fl, w_ftable w !! i = Some fl -> (0 < fd_count ps i)%Z -> fl_type fl <> FD_NONE;
  le_ip : forall j, rf (w_fs w) j = (zsum (holds_ip j) (w_ftable w) + zsum (in_dir j) ps + tot xi j)%Z;
  le_lk : forall j, lk (w_fs w) j = final xl j false;
  le_depth : t_depth (f_t (w_fs w)) = d;
  le_pipe : pipes_ok (w_ftable w) (w_pipes w);
  le_fds : forall p fd i, p ∈ ps -> u_ofile p !! fd = Some (Some i) -> i < NFILE;
  le_ofile : forall p, p ∈ ps -> length (u_ofile p) = NOFILE
}.

Definition counted {M T} `{TxDepth T} (w : world M T) (ps : list uproc) : Prop := ledger w ps [] [] [] 0.

(** What is asked of the transfers: they do not open or close a pipe. *)
Class TransferLaws (M : Type) `{Transfers M} := {
  tl_read : forall m p pi a n, ret_sat (tr_piperead m p pi a n) (fun '(_, pi', _) =>
    pi_readopen pi' = pi_readopen pi /\ pi_writeopen pi' = pi_writeopen pi);
  tl_write : forall m p pi a n, ret_sat (tr_pipewrite m p pi a n) (fun '(_, pi', _) =>
    pi_readopen pi' = pi_readopen pi /\ pi_writeopen pi' = pi_writeopen pi)
}.
#[export] Hint Resolve tl_read tl_write : acct.

Lemma tot_app a b j : tot (a ++ b) j = (tot a j + tot b j)%Z.
Proof. induction a as [|x a IH]; simpl; [done|]. case_decide; rewrite IH; lia. Qed.
Lemma final_app l l' j b : final (l ++ l') j b = final l' j (final l j b).
Proof. apply foldl_app. Qed.

Lemma names_nonneg i o : (0 <= names_file i o)%Z.
Proof. apply b2z_nonneg. Qed.
Lemma holds_ip_nonneg j fl : (0 <= holds_ip j fl)%Z.
Proof. apply b2z_nonneg. Qed.
Lemma holds_end_nonneg pi wr fl : (0 <= holds_end pi wr fl)%Z.
Proof. apply b2z_nonneg. Qed.
Lemma fd_count_nonneg ps i : (0 <= fd_count ps i)%Z.
Proof. apply zsum_nonneg. intros p. apply zsum_nonneg, names_nonneg. Qed.

Lemma named_counted ps p fd i : p ∈ ps -> u_ofile p !! fd = Some (Some i) -> (0 < fd_count ps i)%Z.
Proof.
  intros [k Hk]%list_elem_of_lookup Hfd. unfold fd_count.
  pose proof (zsum_le (fun q => zsum (names_file i) (u_ofile q)) ps k p (fun q => zsum_nonneg _ _ (names_nonneg i)) Hk) as Hle.
  pose proof (zsum_le (names_file i) _ _ _ (names_nonneg i) Hfd) as Hlo. cbn in Hle.
  unfold names_file in Hlo at 1. rewrite bool_decide_true in Hlo by done. simpl in Hlo. lia.
Qed.

Section ledger.
Context {M T : Type} `{PageStore M} `{TxDepth T}.
Implicit Types (w : world M T) (ps : list uproc) (xf xi : list (nat * Z)) (xl : list (nat * bool)).

Lemma ledger_fs w ps xf xi xl d f' a l e : ledger w ps xf xi xl d -> effect a l e (w_fs w) f' ->
  ledger (with_fs w f') ps xf (a ++ xi) (xl ++ l) (d + e).
Proof.
  intros [] E. split; cbn; try done.
  - intros j. rewrite (ef_refs _ _ _ _ _ E), tot_app. specialize (le_ip0 j). lia.
  - intros j. by rewrite (ef_locks _ _ _ _ _ E), final_app, le_lk0.
  - rewrite (ef_depth _ _ _ _ _ E). lia.
Qed.

Lemma ledger_norm w ps xf xi xl d xf' xi' xl' d' : ledger w ps xf xi xl d ->
  (forall j, tot xf' j = tot xf j) -> (forall j, tot xi' j = tot xi j) ->
  (forall j, final xl' j false = final xl j false) -> d' = d -> ledger w ps xf' xi' xl' d'.
Proof.
  intros [] Ef Ei El ->. split; try done.
  - intros i fl Hi. rewrite Ef. by apply le_ref0.
  - intros j. by rewrite Ei.
  - intros j. by rewrite El.
Qed.

Lemma ledger_mem w ps xf xi xl d m : ledger w ps xf xi xl d -> ledger (with_mem w m) ps xf xi xl d.
Proof. by intros []. Qed.

Lemma ledger_file w ps xf xi xl d i fl fl' a xi' pp : ledger w ps xf xi xl d -> w_ftable w !! i = Some fl ->
  fl_ref fl' = (fl_ref fl + tot a i)%Z -> (forall j, j <> i -> tot a j = 0%Z) ->
  (fl_ref fl' = 0%Z -> fl_type fl' = FD_NONE) -> ((0 < fd_count ps i)%Z -> fl_type fl' <> FD_NONE) ->
  (forall j, tot xi' j = tot xi j + holds_ip j fl - holds_ip j fl')%Z ->
  pipes_ok (<[i := fl']> (w_ftable w)) pp ->
  ledger (with_pipes (with_file w i fl') pp) ps (a ++ xf) xi' xl d.
Proof.
  intros [] Hi Hr Ha Hn Ho Hx Hp. assert (i < length (w_ftable w)) as Hlt by (by eapply lookup_lt_Some).
  split; cbn; try done.
  - by rewrite length_insert.
  - intros j fl1. rewrite tot_app. destruct (decide (j = i)) as [->|Hne].
    + rewrite list_lookup_insert_eq by done. intros [= <-]. rewrite Hr, (le_ref0 _ _ Hi). lia.
    + rewrite list_lookup_insert_ne by done. intros Hj. rewrite (le_ref0 _ _ Hj), Ha by done. lia.
  - intros j fl1. destruct (decide (j = i)) as [->|Hne]; [rewrite list_lookup_insert_eq by done; by intros [= <-]|].
    rewrite list_lookup_insert_ne by done. apply le_none0.
  - intros j fl1. destruct (decide (j = i)) as [->|Hne]; [rewrite list_lookup_insert_eq by done; by intros [= <-]|].
    rewrite list_lookup_insert_ne by done. apply le_open0.
  - intros j. rewrite (zsum_insert _ _ _ _ _ Hi), Hx, le_ip0. lia.
Qed.

(** An update that leaves the type and the target of the file as they are. *)
Lemma pipes_same ft i fl fl' pp : ft !! i = Some fl -> fl_type fl' = fl_type fl -> fl_pipe fl' = fl_pipe fl ->
  fl_writable fl' = fl_writable fl -> pipes_ok ft pp -> pipes_ok (<[i := fl']> ft) pp.
Proof.
  intros Hi Ht Hp Hw Hok pi. specialize (Hok pi).
  assert (forall b, holds_end pi b fl' = holds_end pi b fl) as E by (intros b; unfold holds_end, on_pipe; by rewrite Ht, Hp, Hw).
  rewrite !(zsum_insert _ _ _ _ _ Hi), !E. by replace (zsum (holds_end pi true) ft - holds_end pi true fl + holds_end pi true fl)%Z
    with (zsum (holds_end pi true) ft) by lia; replace (zsum (holds_end pi false) ft - holds_end pi false fl + holds_end pi false fl)%Z
    with (zsum (holds_end pi false) ft) by lia.
Qed.

Lemma with_pipes_self w : with_pipes w (w_pipes w) = w.
Proof. by destruct w. Qed.
Lemma with_pipes_file w i fl : with_pipes (with_file w i fl) (w_pipes w) = with_file w i fl.
Proof. by destruct w. Qed.

Lemma ledger_same_file w ps xf xi xl d i fl fl' a : ledger w ps xf xi xl d -> w_ftable w !! i = Some fl ->
  fl_ref fl' = (fl_ref fl + tot a i)%Z -> (forall j, j <> i -> tot a j = 0%Z) -> fl_ref fl' <> 0%Z -> fl_type fl' = fl_type fl ->
  fl_ip fl' = fl_ip fl -> fl_pipe fl' = fl_pipe fl -> fl_writable fl' = fl_writable fl ->
  ledger (with_file w i fl') ps (a ++ xf) xi xl d.
Proof.
  intros L Hi Hr Ha Hn Ht Hip Hp Hw. rewrite <-(with_pipes_self (with_file w i fl')). eapply ledger_file; try done.
  - intros Hc. rewrite Ht. by apply (le_open _ _ _ _ _ _ L i fl).
  - intros j. unfold holds_ip, on_inode. rewrite Ht, Hip. lia.
  - eapply pipes_same; try done. apply L.
Qed.

Lemma ledger_proc w ps k p p' xf xf' xi xi' xl d : ledger w ps xf xi xl d -> ps !! k = Some p ->
  (forall i, tot xf' i = tot xf i + zsum (names_file i) (u_ofile p) - zsum (names_file i) (u_ofile p'))%Z ->
  (forall j, tot xi' j = tot xi j + in_dir j p - in_dir j p')%Z ->
  (forall i fl, w_ftable w !! i = Some fl -> (0 < zsum (names_file i) (u_ofile p'))%Z -> fl_type fl <> FD_NONE) ->
  (forall fd i, u_ofile p' !! fd = Some (Some i) -> i < NFILE) -> length (u_ofile p') = NOFILE ->
  ledger w (<[k := p']> ps) xf' xi' xl d.
Proof.
  intros [] Hk Hf Hi Ho Hfds Hlen. assert (forall q, q ∈ <[k := p']> ps -> q = p' \/ q ∈ ps) as Hin.
  { intros q [j Hj]%list_elem_of_lookup. apply list_lookup_insert_Some in Hj as [(_ & <- & _)|[_ Hj]]; [by left|right].
    by eapply list_elem_of_lookup_2. }
  assert (forall i, fd_count (<[k := p']> ps) i
    = fd_count ps i - zsum (names_file i) (u_ofile p) + zsum (names_file i) (u_ofile p'))%Z as Hc.
  { intros i. unfold fd_count. by rewrite (zsum_insert (fun q => zsum (names_file i) (u_ofile q)) ps k p p' Hk). }
  split; try done.
  - intros i fl Hfl. rewrite Hc, Hf, (le_ref0 _ _ Hfl). lia.
  - intros i fl Hfl Hp. destruct (decide (0 < zsum (names_file i) (u_ofile p'))%Z) as [Hpos|Hz]; [by apply (Ho i)|].
    apply (le_open0 i); [done|]. rewrite Hc in Hp. pose proof (zsum_nonneg (names_file i) (u_ofile p) (names_nonneg i)). lia.
  - intros j. rewrite Hi, le_ip0, (zsum_insert _ _ _ _ _ Hk). lia.
  - intros q fd i Hq Hfd. destruct (Hin q Hq) as [->|Hq']; [by eapply Hfds|by eapply le_fds0].
  - intros q Hq. destruct (Hin q Hq) as [->|Hq']; [done|by apply le_ofile0].
Qed.
End ledger.

(** ** The functions of file.c *)
Lemma free_file_some l : forall k i, free_file l k = Some i -> exists fl, k <= i /\ l !! (i - k) = Some fl /\ fl_ref fl = 0%Z.
Proof.
  induction l as [|fl l IH]; intros k i; simpl; [done|]. destruct (Z.eqb_spec (fl_ref fl) 0) as [Hz|Hz].
  - intros [= ->]. exists fl. by rewrite Nat.sub_diag.
  - intros E. destruct (IH _ _ E) as (fl' & Hle & Hl & Hr). exists fl'. split; [lia|]. split; [|done].
    by replace (i - k) with (S (i - S k)) by lia.
Qed.

Lemma tot_one i a j : tot [(i, a)] j = if decide (i = j) then a else 0%Z.
Proof. simpl. case_decide; lia. Qed.

(** A transaction around an operation. *)
Lemma op_effect {T} `{TxDepth T} (f : fs T) v f1 v1 a l : t_depth v = (t_depth (f_t f) + 1)%Z ->
  effect a l 0 (with_t f v) f1 -> t_depth v1 = (t_depth (f_t f1) - 1)%Z -> effect a l 0 f (with_t f1 v1).
Proof.
  intros Hv E1 Hv1. pose proof (effect_t f v 1 Hv) as E0. pose proof (effect_t f1 v1 (-1) Hv1) as E2.
  split; intros; eff_pull; cbn [tot final foldr foldl]; (done || lia).
Qed.

Section files.
Context {M T : Type} `{PageStore M} `{TxDepth T}.
Implicit Types (w : world M T) (ps : list uproc) (xf xi : list (nat * Z)) (xl : list (nat * bool)).

Lemma filealloc_ledger w ps xf xi xl d : ledger w ps xf xi xl d -> (forall j, 0 <= tot xf j)%Z ->
  ret_sat (filealloc w) (fun '(w', o) => (w_fs w' = w_fs w /\ w_mem w' = w_mem w /\ w_pipes w' = w_pipes w) /\
    match o with
    | None => w' = w
    | Some i => ledger w' ps ((i, 1%Z) :: xf) xi xl d /\ fd_count ps i = 0%Z /\ tot xf i = 0%Z /\
        (exists fl, w_ftable w' !! i = Some fl /\ fl_type fl = FD_NONE /\ fl_ref fl = 1%Z) /\
        forall j, j <> i -> w_ftable w' !! j = w_ftable w !! j
    end).
Proof.
  intros L Hxf. unfold filealloc. destruct (free_file (w_ftable w) 0) as [i|] eqn:E; [|by apply rs_ret].
  destruct (free_file_some _ _ _ E) as (fl & _ & Hfl & Hr). rewrite Nat.sub_0_r in Hfl.
  rewrite (load_ret _ _ _ Hfl). rs_step. apply rs_ret. split; [done|].
  pose proof (le_ref _ _ _ _ _ _ L i fl Hfl) as Hc. pose proof (fd_count_nonneg ps i) as Hp. specialize (Hxf i).
  assert (i < length (w_ftable w)) as Hlt by (by eapply lookup_lt_Some). split_and!; try lia.
  - apply (ledger_same_file w ps xf xi xl d i fl (set_fref fl 1) [(i, 1%Z)]); try done.
    + cbn [fl_ref set_fref]. rewrite tot_one, decide_True by done. lia.
    + intros j Hj. by rewrite tot_one, decide_False.
  - exists (set_fref fl 1). cbn. rewrite list_lookup_insert_eq by done. split_and!; try done. by apply (le_none _ _ _ _ _ _ L i).
  - intros j Hj. cbn. by rewrite list_lookup_insert_ne.
Qed.

Lemma filedup_ledger w ps xf xi xl d i : ledger w ps xf xi xl d ->
  ret_sat (filedup w i) (fun w' => ledger w' ps ((i, 1%Z) :: xf) xi xl d).
Proof.
  intros L. unfold filedup. repeat rs_step. apply Z.ltb_ge in Heqb.
  apply (ledger_same_file w ps xf xi xl d i v _ [(i, 1%Z)]); cbn [fl_ref set_fref]; try done; [by rewrite tot_one, decide_True| |lia].
  intros j Hj. by rewrite tot_one, decide_False.
Qed.

(** The last reference to an end of a pipe. *)
Lemma close_end ft i fl pp b : pipes_ok ft pp -> ft !! i = Some fl -> on_pipe fl = true -> pp !! fl_pipe fl = Some b ->
  let '(b', _, dead) := pipeclose b (fl_writable fl) in
  pipes_ok (<[i := closed_file fl]> ft) (if dead : bool then delete (fl_pipe fl) pp else <[fl_pipe fl := b']> pp).
Proof.
  intros Hok Hi Hp Hb.
  assert (forall pi wr, zsum (holds_end pi wr) (<[i := closed_file fl]> ft)
    = zsum (holds_end pi wr) ft - b2z (bool_decide (fl_pipe fl = pi) && Bool.eqb (fl_writable fl) wr))%Z as Hz.
  { intros pi wr. rewrite (zsum_insert _ _ _ _ _ Hi). unfold holds_end. rewrite Hp. simpl. lia. }
  unfold pipeclose. cbn. pose proof (Hok (fl_pipe fl)) as Hs. rewrite Hb in Hs. destruct Hs as (Hw & Hr & Hany).
  pose proof (zsum_le (holds_end (fl_pipe fl) (fl_writable fl)) ft i fl (holds_end_nonneg _ _) Hi) as Hle.
  unfold holds_end in Hle at 1. rewrite Hp, bool_decide_true, Bool.eqb_reflx in Hle by done. simpl in Hle.
  intros pi. rewrite !Hz. destruct (decide (pi = fl_pipe fl)) as [->|Hne].
  - rewrite bool_decide_true by done. destruct b as [dt nr nw ro wo]. cbn in *.
    destruct (fl_writable fl), ro, wo; cbn in *; try lia; rewrite ?lookup_delete_eq, ?lookup_insert_eq; cbn; split_and!; (done || lia).
  - rewrite bool_decide_false by done. cbn [andb b2z]. specialize (Hok pi). rewrite !Z.sub_0_r.
    match goal with |- context [if ?c then delete _ _ else _] => destruct c end;
      [rewrite lookup_delete_ne by done|rewrite lookup_insert_ne by done]; exact Hok.
Qed.

Lemma fileclose_ledger w ps xf xi xl d i : ledger w ps xf xi xl d -> (1 <= tot xf i)%Z ->
  ret_sat (fileclose w i) (fun w' => ledger w' ps ((i, (-1)%Z) :: xf) xi xl d).
Proof.
  intros L Hx. unfold fileclose. eapply rs_bind; [rs_call|]. intros fl Hfl.
  destruct (fl_ref fl <? 1)%Z eqn:Hlt; [by intros ? ?|]. apply Z.ltb_ge in Hlt.
  pose proof (le_ref _ _ _ _ _ _ L i fl Hfl) as Hc. pose proof (fd_count_nonneg ps i) as Hp.
  assert (forall j, j <> i -> tot [(i, (-1)%Z)] j = 0%Z) as Hoth by (intros j Hj; by rewrite tot_one, decide_False).
  assert (tot [(i, (-1)%Z)] i = (-1)%Z) as Hone by (by rewrite tot_one, decide_True).
  destruct (Z.ltb_spec 0 (fl_ref fl - 1)) as [Hmore|Hlast].
  { apply rs_ret. apply (ledger_same_file w ps xf xi xl d i fl _ [(i, (-1)%Z)]); cbn [fl_ref set_fref]; try done; lia. }
  assert (fl_ref (closed_file fl) = fl_ref fl + tot [(i, (-1)%Z)] i)%Z as Hr' by (cbn [fl_ref closed_file]; lia).
  assert (forall xi' pp, (forall j, tot xi' j = tot xi j + holds_ip j fl)%Z -> pipes_ok (<[i := closed_file fl]> (w_ftable w)) pp ->
    ledger (with_pipes (with_file w i (closed_file fl)) pp) ps ((i, (-1)%Z) :: xf) xi' xl d) as Hfile.
  { intros xi' pp Hxi Hpp. apply (ledger_file w ps xf xi xl d i fl _ [(i, (-1)%Z)] xi' pp); try done; [lia|].
    intros j. rewrite Hxi. assert (holds_ip j (closed_file fl) = 0%Z) by done. lia. }
  assert (on_pipe fl = false -> pipes_ok (<[i := closed_file fl]> (w_ftable w)) (w_pipes w)) as Hnp.
  { intros Hnp pi. pose proof (le_pipe _ _ _ _ _ _ L pi) as Hx'. rewrite !(zsum_insert _ _ _ _ _ Hfl).
    assert (forall b, holds_end pi b fl = 0%Z /\ holds_end pi b (closed_file fl) = 0%Z) as Hz0
      by (intros b; unfold holds_end; rewrite Hnp; by split).
    destruct (Hz0 true) as [-> ->], (Hz0 false) as [-> ->]. rewrite !Z.sub_0_r, !Z.add_0_r. exact Hx'. }
  assert (forall f', effect [(fl_ip fl, (-1)%Z)] [] 0 (w_fs w) f' -> on_inode fl = true -> on_pipe fl = false ->
    ledger (with_fs (with_file w i (closed_file fl)) f') ps ((i, (-1)%Z) :: xf) xi xl d) as Hino.
  { intros f' E Hon Hnpi. specialize (Hfile ((fl_ip fl, 1%Z) :: xi) (w_pipes w)). rewrite with_pipes_file in Hfile.
    eapply ledger_norm; [eapply (ledger_fs _ _ _ _ _ _ f'); [apply Hfile; [|by apply Hnp]|exact E]|..]; try done.
    - intros j. unfold holds_ip. rewrite Hon. cbn [tot foldr fst snd]. fold (tot xi j). case_decide as Hd.
      + rewrite bool_decide_true by done. simpl. lia.
      + rewrite bool_decide_false by done. simpl. lia.
    - intros j. rewrite tot_app, tot_one. cbn [tot foldr fst snd]. fold (tot xi j). case_decide; lia.
    - intros j. by rewrite app_nil_r.
    - lia. }
  unfold on_inode, on_pipe in *. destruct (fl_type fl) eqn:Ht.
  - apply rs_ret. specialize (Hfile xi (w_pipes w)). rewrite with_pipes_file in Hfile. apply Hfile; [|by apply Hnp].
    intros j. unfold holds_ip, on_inode. rewrite Ht. simpl. lia.
  - destruct (w_pipes w !! fl_pipe fl) as [b|] eqn:Hb; [|cbn; rewrite Hb; by intros ? ?].
    cbn [w_pipes with_file with_ftable]. rewrite Hb. cbn [from_option obind].
    pose proof (close_end _ i fl _ b (le_pipe _ _ _ _ _ _ L) Hfl ltac:(unfold on_pipe; by rewrite Ht) Hb) as Hce.
    destruct (pipeclose b (fl_writable fl)) as [[b' ch] dead]. destruct dead; repeat rs_step.
    + apply (ledger_mem (with_pipes (with_file w i (closed_file fl)) _)), Hfile; [|done]. intros j. unfold holds_ip, on_inode. rewrite Ht. simpl. lia.
    + apply Hfile; [|done]. intros j. unfold holds_ip, on_inode. rewrite Ht. simpl. lia.
  - unfold fs_begin, fs_end. repeat rs_step. apply Hino; try done. by eapply op_effect.
  - unfold fs_begin, fs_end. repeat rs_step. apply Hino; try done. by eapply op_effect.
Qed.
End files.

(** ** Calls that only work on names *)
Definition same_rest {M T} (w w' : world M T) : Prop := w_ftable w' = w_ftable w /\ w_pipes w' = w_pipes w.

Section names.
Context {M T : Type} `{PageStore M} `{TxDepth T}.
Implicit Types (w : world M T) (p : uproc) (f : fs T).

Lemma fs_begin_effect f : ret_sat (fs_begin f) (effect [] [] 1 f).
Proof. unfold fs_begin. repeat rs_step. by apply effect_t. Qed.
Lemma fs_end_effect f : ret_sat (fs_end f) (effect [] [] (-1) f).
Proof. unfold fs_end. repeat rs_step. by apply effect_t. Qed.
Hint Resolve fs_begin_effect fs_end_effect : acct.

Lemma fs_done_effect w p f r : ret_sat (fs_done w p f r) (fun '(w', p', _) => p' = p /\ same_rest w w' /\ effect [] [] (-1) f (w_fs w')).
Proof. unfold fs_done. repeat rs_step. done. Qed.

Lemma argstr_same w p n max : ret_sat (argstr w p n max) (fun '(w', _) => same_rest w w' /\ w_fs w' = w_fs w).
Proof. unfold argstr, argaddr, argraw, fetchstr. repeat rs_step; by cbn. Qed.

Lemma fetchaddr_same w p addr : ret_sat (fetchaddr w p addr) (fun '(w', _) => same_rest w w' /\ w_fs w' = w_fs w).
Proof. unfold fetchaddr. repeat rs_step; by cbn. Qed.

Lemma add_nlink_effect f i a : ret_sat (add_nlink f i a) (effect [] [] 0 f).
Proof. unfold add_nlink. repeat rs_step. by apply effect_di. Qed.
Hint Resolve fs_done_effect argstr_same fetchaddr_same add_nlink_effect : acct.

Lemma link_bad_effect w p f i : ret_sat (link_bad w p f i) (fun '(w', p', _) => p' = p /\ same_rest w w' /\ effect [(i, (-1)%Z)] [] (-1) f (w_fs w')).
Proof. unfold link_bad. repeat rs_step. destruct_and?. split_and!; try done. eff_solve. Qed.
Hint Resolve link_bad_effect : acct.

(** The shape of the specification of a call. *)
Definition quiet_call w p : world M T * uproc * Z -> Prop :=
  fun '(w', p', _) => p' = p /\ same_rest w w' /\ effect [] [] 0 (w_fs w) (w_fs w').

Ltac call_solve :=
  unfold same_rest in *; destruct_and?; subst; cbn [w_fs w_ftable w_pipes with_fs with_mem] in *;
  repeat match goal with E : w_fs ?a = ?b |- _ => rewrite E in *; clear E end; cbn [taken fst fmap option_fmap option_map] in *;
  split; [done|]; split; [split; congruence|]; first [apply effect_refl | eff_solve].

Lemma sys_link_quiet w p : ret_sat (sys_link w p) (quiet_call w p).
Proof. unfold sys_link, quiet_call. repeat rs_step. all: call_solve. Qed.

Lemma isdirempty_loop_effect d size fuel : forall f off de,
  ret_sat (isdirempty_loop f d size off de fuel) (fun '(f', _) => effect [] [] 0 f f').
Proof. induction fuel as [|fuel IH]; intros f off de; cbn [isdirempty_loop]; repeat rs_step; try apply effect_refl; eff_solve. Qed.
Hint Resolve isdirempty_loop_effect : acct.

Lemma isdirempty_effect f d : ret_sat (isdirempty f d) (fun '(f', _) => effect [] [] 0 f f').
Proof. unfold isdirempty. repeat rs_step. done. Qed.

Lemma clear_dirent_effect f d off : ret_sat (clear_dirent f d off) (fun '(f', _) => effect [] [] 0 f f').
Proof. unfold clear_dirent. repeat rs_step; by eapply effect_same. Qed.

Lemma unlink_bad_effect w p f d : ret_sat (unlink_bad w p f d)
  (fun '(w', p', _) => p' = p /\ same_rest w w' /\ lk f d = true /\ effect [(d, (-1)%Z)] [(d, false)] (-1) f (w_fs w')).
Proof. unfold unlink_bad. repeat rs_step. destruct_and?. split_and!; try done. eff_solve. Qed.
Hint Resolve isdirempty_effect clear_dirent_effect unlink_bad_effect : acct.

Lemma sys_unlink_quiet w p : ret_sat (sys_unlink w p) (quiet_call w p).
Proof. unfold sys_unlink, quiet_call. repeat rs_step. all: call_solve. Qed.

(** [create] returns its inode locked. *)
Definition created f : fs T * option nat -> Prop :=
  fun '(f', o) => match o with
    | Some i => effect [(i, 1%Z)] [(i, true)] 0 f f' /\ lk f i = false
    | None => effect [] [] 0 f f'
    end.

Lemma create_fail_effect f i d : ret_sat (create_fail f i d) (fun '(f', o) => o = None /\ lk f i = true /\ (i <> d -> lk f d = true) /\
  effect [(i, (-1)%Z); (d, (-1)%Z)] [(i, false); (d, false)] 0 f f').
Proof.
  unfold create_fail. repeat rs_step. destruct_and?. pose proof (effect_di f i v (set_nlink (i_di v) 0) ltac:(done)) as E0.
  split; [done|]. split_and!; [by eff_pull|intros Hne; by eff_pull; eff_cases|eff_solve].
Qed.
Hint Resolve create_fail_effect : acct.

Lemma create_effect f cwd path type major minor : ret_sat (create f cwd path type major minor) (created f).
Proof.
  unfold create, created. repeat rs_step.
  all: destruct_and?; subst; cbn [taken fst fmap option_fmap option_map] in *.
  all: repeat match goal with
    | _ : effect _ _ _ (with_ip ?g ?i (with_di ?v ?d)) _, Hl : f_itab ?g !! ?i = Some ?v |- _ =>
        lazymatch goal with _ : effect _ _ _ g (with_ip g i (with_di v d)) |- _ => fail | _ => pose proof (effect_di g i v d Hl) end
    end.
  all: try apply effect_refl; try (split; [|eff_pull; by eff_cases]); try eff_solve.
Qed.
Hint Resolve create_effect : acct.

Lemma sys_mkdir_quiet w p : ret_sat (sys_mkdir w p) (quiet_call w p).
Proof.
  unfold sys_mkdir, quiet_call. repeat rs_step. all: unfold created in *; call_solve.
Qed.

Lemma argint_any p n : ret_sat (argint p n) (fun _ => True).
Proof. by intros ? ?. Qed.
Hint Resolve argint_any : acct.

Lemma sys_mknod_quiet w p : ret_sat (sys_mknod w p) (quiet_call w p).
Proof. unfold sys_mknod, quiet_call. repeat rs_step. all: unfold created in *; call_solve. Qed.

Lemma quiet_ledger w p w' p' r ps k : quiet_call w p (w', p', r) -> counted w ps -> ps !! k = Some p -> counted w' (<[k := p']> ps).
Proof.
  intros (-> & [Ef Ep] & E) L Hk. rewrite list_insert_id by done.
  assert (w' = with_mem (with_fs w (w_fs w')) (w_mem w')) as -> by (destruct w, w'; unfold with_mem, with_fs; cbn in Ef, Ep |- *; by rewrite Ef, Ep).
  apply ledger_mem. exact (ledger_fs _ _ _ _ _ _ _ _ _ _ L E).
Qed.
End names.
#[export] Hint Resolve fs_begin_effect fs_end_effect fs_done_effect argstr_same fetchaddr_same create_effect argint_any : acct.
