(* ===== verification/SysInv.v ===== *)
(** * Every system call keeps the accounts

    The system calls of [sysfile.c], the creation and the end of a process, as
    steps on the state of the kernel and the list of the processes.  A call that
    returns has released every inode lock it took and ended its transaction, on
    all of its paths, and the counts of [FileInv] are exact again. *)

From S2P Require Import Prelude.
From S2P Require Import Bytes.
From S2P Require Import Kstring.
From S2P Require Import Pipe.
From S2P Require Import Bio.
From S2P Require Import Log.
From S2P Require Import Txn.
From S2P Require Import Fs.
From S2P Require Import Inode.
From S2P Require Import Dir.
From S2P Require Import Kalloc.
From S2P Require Import Vm.
From S2P Require Import File.
From S2P Require Import SysFile.
From S2P Require Import Kexec.
From S2P Require Import Account.
From S2P Require Import FileInv.

(** ** Descriptors of a process *)
Lemma free_fd_some l : forall k fd, free_fd l k = Some fd -> k <= fd /\ l !! (fd - k) = Some None.
Proof.
  induction l as [|[x|] l IH]; intros k fd; simpl; [done| |].
  - intros E. destruct (IH _ _ E) as [Hle Hl]. split; [lia|]. by replace (fd - k) with (S (fd - S k)) by lia.
  - intros [= ->]. by rewrite Nat.sub_diag.
Qed.

Lemma fdalloc_some p f p' fd : fdalloc p f = (p', Some fd) ->
  u_ofile p !! fd = Some None /\ p' = set_ofile p (<[fd := Some f]> (u_ofile p)).
Proof.
  unfold fdalloc. destruct (free_fd (u_ofile p) 0) as [x|] eqn:E; [|done]. intros [= <- <-].
  apply free_fd_some in E as [_ E]. by rewrite Nat.sub_0_r in E.
Qed.

Lemma fdalloc_none p f p' : fdalloc p f = (p', None) -> p' = p.
Proof. unfold fdalloc. case_match; naive_solver. Qed.

Lemma names_one i f : names_file i (Some f) = if decide (f = i) then 1%Z else 0%Z.
Proof. unfold names_file. case_decide; [rewrite bool_decide_true by congruence|rewrite bool_decide_false by congruence]; done. Qed.
Lemma names_none i : names_file i None = 0%Z.
Proof. done. Qed.

Section procs.
Context {M T : Type} `{PageStore M} `{TxDepth T}.
Implicit Types (w : world M T) (ps : list uproc) (p : uproc) (xf xi : list (nat * Z)) (xl : list (nat * bool)).

Lemma argfd_named p n : ret_sat (argfd p n) (fun o => match o with Some (fd, f) => u_ofile p !! fd = Some (Some f) | None => True end).
Proof.
  unfold argfd. repeat rs_step; [done|]. destruct v0 as [f|]; done.
Qed.

(** A reference held by the call becomes a descriptor, and back. *)
Lemma add_fd w ps k p fd i xf xi xl d : ledger w ps ((i, 1%Z) :: xf) xi xl d -> ps !! k = Some p -> u_ofile p !! fd = Some None ->
  i < NFILE -> (forall fl, w_ftable w !! i = Some fl -> fl_type fl <> FD_NONE) ->
  ledger w (<[k := set_ofile p (<[fd := Some i]> (u_ofile p))]> ps) xf xi xl d.
Proof.
  intros L Hk Hfd Hi Ht. assert (p ∈ ps) as Hin by (by eapply list_elem_of_lookup_2).
  eapply ledger_proc; try done; cbn [u_ofile set_ofile].
  - intros j. rewrite (zsum_insert _ _ _ _ _ Hfd), names_one, names_none. cbn [tot foldr fst snd]. fold (tot xf j). case_decide; lia.
  - intros j. unfold in_dir. cbn. lia.
  - intros j fl Hfl Hpos. destruct (decide (i = j)) as [->|Hne]; [by apply Ht|]. apply (le_open _ _ _ _ _ _ L j); [done|].
    rewrite (zsum_insert _ _ _ _ _ Hfd), names_one, names_none, decide_False in Hpos by done. unfold fd_count.
    pose proof (zsum_le (fun q => zsum (names_file j) (u_ofile q)) ps k p (fun q => zsum_nonneg _ _ (names_nonneg j)) Hk). cbn in *. lia.
  - intros fd' j Hj. apply list_lookup_insert_Some in Hj as [(_ & E & _)|[_ Hj]]; [by simplify_eq|]. by eapply (le_fds _ _ _ _ _ _ L p).
  - rewrite length_insert. by apply (le_ofile _ _ _ _ _ _ L).
Qed.

Lemma drop_fd w ps k p fd i xf xi xl d : ledger w ps xf xi xl d -> ps !! k = Some p -> u_ofile p !! fd = Some (Some i) ->
  ledger w (<[k := set_ofile p (<[fd := None]> (u_ofile p))]> ps) ((i, 1%Z) :: xf) xi xl d.
Proof.
  intros L Hk Hfd. assert (p ∈ ps) as Hin by (by eapply list_elem_of_lookup_2).
  eapply ledger_proc; try done; cbn [u_ofile set_ofile].
  - intros j. rewrite (zsum_insert _ _ _ _ _ Hfd), names_one, names_none. cbn [tot foldr fst snd]. fold (tot xf j). case_decide; lia.
  - intros j. unfold in_dir. cbn. lia.
  - intros j fl Hfl Hpos. apply (le_open _ _ _ _ _ _ L j); [done|].
    rewrite (zsum_insert _ _ _ _ _ Hfd), names_one, names_none in Hpos. unfold fd_count.
    pose proof (zsum_le (fun q => zsum (names_file j) (u_ofile q)) ps k p (fun q => zsum_nonneg _ _ (names_nonneg j)) Hk). cbn in *.
    case_decide; lia.
  - intros fd' j Hj. apply list_lookup_insert_Some in Hj as [(_ & E & _)|[_ Hj]]; [done|]. by eapply (le_fds _ _ _ _ _ _ L p).
  - rewrite length_insert. by apply (le_ofile _ _ _ _ _ _ L).
Qed.

Lemma ledger_named w ps k p fd i xf xi xl d : ledger w ps xf xi xl d -> ps !! k = Some p -> u_ofile p !! fd = Some (Some i) ->
  i < NFILE /\ exists fl, w_ftable w !! i = Some fl /\ fl_type fl <> FD_NONE.
Proof.
  intros L Hk Hfd. assert (p ∈ ps) as Hin by (by eapply list_elem_of_lookup_2).
  assert (i < NFILE) as Hi by (by eapply (le_fds _ _ _ _ _ _ L p)). split; [done|].
  destruct (lookup_lt_is_Some_2 (w_ftable w) i) as [fl Hfl]; [by rewrite (le_len _ _ _ _ _ _ L)|].
  exists fl. split; [done|]. apply (le_open _ _ _ _ _ _ L i); [done|]. by eapply named_counted.
Qed.

Lemma sys_dup_counted w ps k p : counted w ps -> ps !! k = Some p ->
  ret_sat (sys_dup w p) (fun '(w', p', _) => counted w' (<[k := p']> ps)).
Proof.
  intros L Hk. unfold sys_dup. eapply rs_bind; [apply argfd_named|]. intros [[fd f]|] Hf; [|rs_step; by rewrite list_insert_id].
  destruct (fdalloc p f) as [p' [fd'|]] eqn:E; [|apply fdalloc_none in E as ->; rs_step; by rewrite list_insert_id].
  apply fdalloc_some in E as [Hn ->]. eapply rs_bind; [by apply filedup_ledger|]. intros w' L'. rs_step.
  destruct (ledger_named _ _ _ _ _ _ _ _ _ _ L' Hk Hf) as (Hi & fl & Hfl & Ht).
  apply add_fd; try done. intros fl' Hfl'. by simplify_eq.
Qed.

Lemma sys_close_counted w ps k p : counted w ps -> ps !! k = Some p ->
  ret_sat (sys_close w p) (fun '(w', p', _) => counted w' (<[k := p']> ps)).
Proof.
  intros L Hk. unfold sys_close. eapply rs_bind; [apply argfd_named|]. intros [[fd f]|] Hf; [|rs_step; by rewrite list_insert_id].
  pose proof (drop_fd _ _ _ _ _ _ _ _ _ _ L Hk Hf) as L1.
  eapply rs_bind; [apply (fileclose_ledger _ _ _ _ _ _ _ L1); rewrite tot_one, decide_True by done; lia|].
  intros w' L'. rs_step. eapply ledger_norm; [exact L'|..]; try done.
  intros j. cbn [tot foldr fst snd]. case_decide; lia.
Qed.

(** A change of the offset of a file. *)
Lemma off_ledger w ps xf xi xl d i fl off : ledger w ps xf xi xl d -> w_ftable w !! i = Some fl -> fl_ref fl <> 0%Z ->
  ledger (with_file w i (set_off fl off)) ps xf xi xl d.
Proof. intros L Hi Hr. apply (ledger_same_file w ps xf xi xl d i fl _ []); try done. simpl. lia. Qed.

(** A change of a pipe that leaves its ends as they are. *)
Lemma pipe_ledger w ps xf xi xl d pi b b' : ledger w ps xf xi xl d -> w_pipes w !! pi = Some b ->
  pi_readopen b' = pi_readopen b -> pi_writeopen b' = pi_writeopen b ->
  ledger (with_pipes w (<[pi := b']> (w_pipes w))) ps xf xi xl d.
Proof.
  intros L Hb Hr Hw. pose proof (le_pipe _ _ _ _ _ _ L) as Hp. destruct L. split; try done. intros x. specialize (Hp x).
  destruct (decide (x = pi)) as [->|Hne].
  - rewrite Hb in Hp. cbn. by rewrite lookup_insert_eq, Hr, Hw.
  - cbn. by rewrite lookup_insert_ne.
Qed.

Lemma readi_user_effect w p i addr off n : ret_sat (readi_user w p i addr off n)
  (fun '(w', _) => same_rest w w' /\ effect [] [] 0 (w_fs w) (w_fs w')).
Proof. unfold readi_user. repeat rs_step. split; [done|]. by eapply effect_same. Qed.
Lemma writei_user_effect w p i addr off n : ret_sat (writei_user w p i addr off n)
  (fun '(w', _) => same_rest w w' /\ effect [] [] 0 (w_fs w) (w_fs w')).
Proof. unfold writei_user. repeat rs_step. split; [done|]. by eapply effect_same. Qed.
Hint Resolve readi_user_effect writei_user_effect : acct.

Lemma ledger_rest w w' ps xf xi xl d a l e : ledger w ps xf xi xl d -> same_rest w w' -> effect a l e (w_fs w) (w_fs w') ->
  ledger w' ps xf (a ++ xi) (xl ++ l) (d + e).
Proof.
  intros L [Ef Ep] E. assert (w' = with_mem (with_fs w (w_fs w')) (w_mem w')) as ->.
  { destruct w, w'. unfold with_mem, with_fs. cbn in Ef, Ep |- *. by rewrite Ef, Ep. }
  apply ledger_mem. by apply ledger_fs.
Qed.

Lemma ledger_fs0 w ps xf xi xl d f' : ledger w ps xf xi xl d -> effect [] [] 0 (w_fs w) f' -> ledger (with_fs w f') ps xf xi xl d.
Proof.
  intros L E. eapply ledger_norm; [by apply (ledger_fs _ _ _ _ _ _ _ _ _ _ L E)|..]; try done; [|lia]. intros j. by rewrite app_nil_r.
Qed.

(** A file that a descriptor names. *)
Lemma counted_ref w ps i fl xi xl d : ledger w ps [] xi xl d -> (0 < fd_count ps i)%Z -> w_ftable w !! i = Some fl -> fl_ref fl <> 0%Z.
Proof. intros L Hc Hfl. rewrite (le_ref _ _ _ _ _ _ L i fl Hfl). simpl. lia. Qed.

(** The transfer under the lock of the inode, and the new offset. *)
Lemma moved_counted w w1 f2 ps i fl (r : Z) : counted w ps -> (0 < fd_count ps i)%Z -> w_ftable w !! i = Some fl ->
  same_rest w w1 -> effect [] [] 0 (w_fs w) f2 ->
  counted (with_fs (if (0 <? r)%Z then with_file w1 i (set_off fl (u32 (fl_off fl + r))) else w1) f2) ps.
Proof.
  intros L Hc Hfl [Ef Ep] E. pose proof (ledger_rest w (with_fs w1 f2) ps [] [] [] 0 [] [] 0 L (conj Ef Ep) E) as L'.
  case_match; [|exact L']. apply (off_ledger (with_fs w1 f2) ps [] [] [] 0 i fl); [done|cbn; congruence|]. exact (counted_ref _ _ _ _ _ _ _ L Hc Hfl).
Qed.

Lemma if_fs (b : bool) w i fl : w_fs (if b then with_file w i fl else w) = w_fs w.
Proof. by destruct b. Qed.

Section transfers.
Context `{!Transfers M} `{!TransferLaws M}.

Lemma fileread_counted w ps p i addr n : counted w ps -> (0 < fd_count ps i)%Z ->
  ret_sat (fileread w p i addr n) (fun '(w', _) => counted w' ps).
Proof.
  intros L Hc. unfold fileread. eapply rs_bind; [rs_call|]. intros fl Hfl. rs_step; [by rs_step|].
  destruct (fl_type fl) eqn:Ht; [by intros ? ?| | |].
  - destruct (w_pipes w !! fl_pipe fl) as [b|] eqn:Hb; [|by intros ? ?]. cbn [from_option obind]. repeat rs_step. destruct_and?.
    apply (pipe_ledger (with_mem w v) ps [] [] [] 0 (fl_pipe fl) b); [by apply ledger_mem|done..].
  - repeat rs_step; destruct_and?. rewrite if_fs in *. cbn [w_fs with_fs] in *. apply (moved_counted w); try done. eff_solve.
  - repeat rs_step; try done; by apply ledger_mem.
Qed.

Lemma filewrite_loop_counted ps p i addr n fuel : forall w j, counted w ps -> (0 < fd_count ps i)%Z ->
  ret_sat (filewrite_loop w p i addr n j fuel) (fun '(w', _) => counted w' ps).
Proof.
  induction fuel as [|fuel IH]; intros w j L Hc; cbn [filewrite_loop]; [by intros ? ?|]. rs_step; [|by rs_step].
  eapply rs_bind; [rs_call|]. intros f1 E1. eapply rs_bind; [rs_call|]. intros fl Hfl. eapply rs_bind; [rs_call|]. intros f2 [Hl2 E2].
  eapply rs_bind; [rs_call|]. intros [w3 r] [[Hf3 Hp3] E3]. cbn [w_fs w_ftable w_pipes with_fs] in *. rewrite if_fs.
  eapply rs_bind; [rs_call|]. intros f4 [Hl4 E4]. eapply rs_bind; [rs_call|]. intros f5 E5.
  assert (effect [] [] 0 (w_fs w) f5) as E by eff_solve.
  pose proof (moved_counted w w3 f5 ps i fl r L Hc Hfl (conj Hf3 Hp3) E) as L'. rs_step; [by rs_step|]. by apply IH.
Qed.

Lemma filewrite_counted w ps p i addr n : counted w ps -> (0 < fd_count ps i)%Z ->
  ret_sat (filewrite w p i addr n) (fun '(w', _) => counted w' ps).
Proof.
  intros L Hc. unfold filewrite. eapply rs_bind; [rs_call|]. intros fl Hfl. rs_step; [by rs_step|].
  destruct (fl_type fl) eqn:Ht; [by intros ? ?| | |].
  - destruct (w_pipes w !! fl_pipe fl) as [b|] eqn:Hb; [|by intros ? ?]. cbn [from_option obind]. repeat rs_step. destruct_and?.
    apply (pipe_ledger (with_mem w v) ps [] [] [] 0 (fl_pipe fl) b); [by apply ledger_mem|done..].
  - eapply rs_bind; [by apply filewrite_loop_counted|]. intros [w' j] L'. by rs_step.
  - repeat rs_step; try done; by apply ledger_mem.
Qed.

Lemma filestat_counted w ps p i addr pad : counted w ps -> ret_sat (filestat w p i addr pad) (fun '(w', _) => counted w' ps).
Proof.
  intros L. unfold filestat. repeat rs_step; try done; destruct_and?;
    (apply ledger_fs0; [by apply ledger_mem|]; cbn [w_fs with_mem]; eff_solve).
Qed.

(** The calls that pass a descriptor on. *)
Lemma sys_read_counted w ps k p : counted w ps -> ps !! k = Some p ->
  ret_sat (sys_read w p) (fun '(w', p', _) => counted w' (<[k := p']> ps)).
Proof.
  intros L Hk. unfold sys_read. do 2 rs_step. eapply rs_bind; [apply argfd_named|].
  intros [[fd f]|] Hf; [|rs_step; by rewrite list_insert_id]. eapply rs_bind; [apply fileread_counted; [done|]|].
  - eapply named_counted; [by eapply list_elem_of_lookup_2|done].
  - intros [w' r] L'. rs_step. by rewrite list_insert_id.
Qed.

Lemma sys_write_counted w ps k p : counted w ps -> ps !! k = Some p ->
  ret_sat (sys_write w p) (fun '(w', p', _) => counted w' (<[k := p']> ps)).
Proof.
  intros L Hk. unfold sys_write. do 2 rs_step. eapply rs_bind; [apply argfd_named|].
  intros [[fd f]|] Hf; [|rs_step; by rewrite list_insert_id]. eapply rs_bind; [apply filewrite_counted; [done|]|].
  - eapply named_counted; [by eapply list_elem_of_lookup_2|done].
  - intros [w' r] L'. rs_step. by rewrite list_insert_id.
Qed.
End transfers.

Lemma sys_fstat_counted w ps k p pad : counted w ps -> ps !! k = Some p ->
  ret_sat (sys_fstat w p pad) (fun '(w', p', _) => counted w' (<[k := p']> ps)).
Proof.
  intros L Hk. unfold sys_fstat. rs_step. eapply rs_bind; [apply argfd_named|].
  intros [[fd f]|] Hf; [|rs_step; by rewrite list_insert_id]. eapply rs_bind; [by apply filestat_counted|].
  intros [w' r] L'. rs_step. by rewrite list_insert_id.
Qed.

(** The working directory: the new one comes with a reference, the old one
    goes with one. *)
Lemma sys_chdir_counted w ps k p : counted w ps -> ps !! k = Some p ->
  ret_sat (sys_chdir w p) (fun '(w', p', _) => counted w' (<[k := p']> ps)).
Proof.
  intros L Hk. assert (p ∈ ps) as Hin by (by eapply list_elem_of_lookup_2).
  assert (forall w' i, same_rest w w' -> effect [(i, 1%Z); (u_cwd p, (-1)%Z)] [] 0 (w_fs w) (w_fs w') ->
    counted w' (<[k := set_cwd p i]> ps)) as Hdone.
  { intros w' i Hr E. pose proof (ledger_rest _ _ _ _ _ _ _ _ _ _ L Hr E) as L'.
    eapply ledger_proc; try done; cbn [u_ofile set_cwd].
    - intros j. simpl. lia.
    - intros j. rewrite app_nil_r. unfold in_dir. cbn. repeat case_bool_decide; repeat case_decide; subst; simpl; try done; lia.
    - intros j fl Hfl Hpos. apply (le_open _ _ _ _ _ _ L' j); [done|]. unfold fd_count.
      pose proof (zsum_le (fun q => zsum (names_file j) (u_ofile q)) ps k p (fun q => zsum_nonneg _ _ (names_nonneg j)) Hk). cbn in *. lia.
    - intros fd j. by apply (le_fds _ _ _ _ _ _ L p).
    - by apply (le_ofile _ _ _ _ _ _ L). }
  assert (forall w', same_rest w w' -> effect [] [] 0 (w_fs w) (w_fs w') -> counted w' (<[k := p]> ps)) as Hsame.
  { intros w' Hr E. rewrite list_insert_id by done. exact (ledger_rest _ _ _ _ _ _ _ _ _ _ L Hr E). }
  unfold sys_chdir. repeat rs_step; unfold same_rest in *; destruct_and?; subst; cbn [w_fs w_ftable w_pipes with_fs] in *;
    repeat match goal with E : w_fs ?a = ?b |- _ => rewrite E in *; clear E end; cbn [taken] in *.
  all: first [apply Hsame; [split; congruence|eff_solve] | apply Hdone; [split; congruence|]].
  all: eff_solve.
Qed.

(** ** Opening *)
Lemma with_fs_self w : with_fs w (w_fs w) = w.
Proof. by destruct w. Qed.

(** The file [i] gets an inode: the reference moves from the call to the
    file. *)
Lemma opened_ledger w ps xf xi xl d i fl j ip omode : ledger w ps xf ((j, 1%Z) :: xi) xl d -> w_ftable w !! i = Some fl ->
  fl_type fl = FD_NONE -> fl_ref fl = 1%Z -> ledger (with_file w i (opened fl j ip omode)) ps xf xi xl d.
Proof.
  intros L Hi Ht Hr. assert (on_inode (opened fl j ip omode) = true /\ on_pipe (opened fl j ip omode) = false) as [Hon Hnp].
  { unfold on_inode, on_pipe, opened. by destruct (d_type (i_di ip) =? T_DEVICE)%Z. }
  assert (fl_type (opened fl j ip omode) <> FD_NONE) as Hne by (unfold opened; by destruct (d_type (i_di ip) =? T_DEVICE)%Z).
  rewrite <-with_pipes_file. apply (ledger_file w ps xf ((j, 1%Z) :: xi) xl d i fl _ [] xi); try done.
  - simpl. lia.
  - unfold opened. cbn. lia.
  - intros x. unfold holds_ip. rewrite Hon. unfold on_inode. rewrite Ht. cbn [tot foldr fst snd b2z andb fl_ip opened]. fold (tot xi x).
    case_decide; [rewrite bool_decide_true by done|rewrite bool_decide_false by done]; simpl; lia.
  - intros pi. pose proof (le_pipe _ _ _ _ _ _ L pi) as Hx. rewrite !(zsum_insert _ _ _ _ _ Hi).
    assert (forall b, holds_end pi b fl = 0%Z /\ holds_end pi b (opened fl j ip omode) = 0%Z) as Hz0.
    { intros b. unfold holds_end. rewrite Hnp. unfold on_pipe. by rewrite Ht. }
    destruct (Hz0 true) as [-> ->], (Hz0 false) as [-> ->]. rewrite !Z.sub_0_r, !Z.add_0_r. exact Hx.
Qed.

Lemma open_inode_counted w ps k p f i omode : ledger (with_fs w f) ps [] [(i, 1%Z)] [(i, true)] 1 -> ps !! k = Some p ->
  ret_sat (open_inode w p f i omode) (fun '(w', p', _) => counted w' (<[k := p']> ps)).
Proof.
  intros L Hk. assert (p ∈ ps) as Hin by (by eapply list_elem_of_lookup_2).
  assert (forall w1 f1 r, ledger w1 ps [] [(i, 1%Z)] [(i, true)] 1 -> w_fs w1 = f1 ->
    ret_sat (let* f := iunlockput f1 i in fs_done w1 p f r) (fun '(w', p', _) => counted w' (<[k := p']> ps))) as Hback.
  { intros w1 f1 r L1 <-. eapply rs_bind; [rs_call|]. intros f2 [Hl E2]. unfold fs_done. eapply rs_bind; [rs_call|]. intros f3 E3.
    rs_step. rewrite list_insert_id by done. assert (effect [(i, (-1)%Z)] [(i, false)] (-1) (w_fs w1) f3) as E by eff_solve.
    eapply ledger_norm; [exact (ledger_fs _ _ _ _ _ _ _ _ _ _ L1 E)|..]; try done; intros j; simpl; repeat case_decide; done. }
  unfold open_inode. eapply rs_bind; [rs_call|]. intros ip Hip. rs_step; [apply (Hback (with_fs w f)); done|].
  eapply rs_bind; [apply (filealloc_ledger _ _ _ _ _ _ L); intros j; simpl; lia|].
  intros [w1 [fi|]] [(Hfs & _) Hw1]; [|subst w1; by apply (Hback (with_fs w f))].
  destruct Hw1 as (L1 & Hc0 & _ & (fl & Hfl & Ht & Hr) & _). cbn [w_fs with_fs] in Hfs.
  destruct (fdalloc p fi) as [p' [fd|]] eqn:Efd.
  2: { apply fdalloc_none in Efd as ->. eapply rs_bind; [apply (fileclose_ledger _ _ _ _ _ _ _ L1); rewrite tot_one, decide_True by done; lia|].
       intros w2 L2. apply Hback; [|done]. eapply ledger_norm; [exact L2|..]; try done. intros j. cbn [tot foldr fst snd]. case_decide; lia. }
  apply fdalloc_some in Efd as [Hn ->]. rewrite (load_ret _ _ _ Hfl). cbn [obind].
  pose proof (opened_ledger w1 ps [(fi, 1%Z)] [] [(i, true)] 1 fi fl i ip omode L1 Hfl Ht Hr) as L2.
  set (w2 := with_file w1 fi (opened fl i ip omode)) in *.
  assert (w_ftable w2 !! fi = Some (opened fl i ip omode)) as Hfl2.
  { cbn. apply list_lookup_insert_eq. by eapply lookup_lt_Some. }
  assert (fi < NFILE) as Hfi by (rewrite <-(le_len _ _ _ _ _ _ L1); by eapply lookup_lt_Some).
  assert (forall f4, effect [] [(i, false)] (-1) (w_fs w2) f4 ->
    counted (with_fs w2 f4) (<[k := set_ofile p (<[fd := Some fi]> (u_ofile p))]> ps)) as Hend.
  { intros f4 E4. apply (add_fd _ _ _ _ _ fi); try done.
    - eapply ledger_norm; [exact (ledger_fs _ _ _ _ _ _ _ _ _ _ L2 E4)|..]; try done; intros j; simpl; repeat case_decide; done.
    - intros fl'. cbn [w_ftable with_fs]. rewrite Hfl2. intros [= <-]. unfold opened. by destruct (d_type (i_di ip) =? T_DEVICE)%Z. }
  rs_step.
  - apply rs_assoc. eapply rs_bind; [rs_call|]. intros [t2 ip2] Hs. cbn [obind].
    eapply rs_bind; [rs_call|]. intros f3 [Hl3 E3]. unfold fs_done. eapply rs_bind; [rs_call|]. intros f4 E4. rs_step. apply Hend.
    assert (f_itab (w_fs w2) !! i = Some ip) as Hip2 by (cbn; by rewrite Hfs).
    pose proof (effect_same (w_fs w2) t2 i ip ip2 Hip2 Hs) as E2. eff_solve.
  - cbn [obind]. eapply rs_bind; [rs_call|]. intros f3 [Hl3 E3]. unfold fs_done. eapply rs_bind; [rs_call|]. intros f4 E4. rs_step.
    apply Hend. eff_solve.
Qed.

Lemma sys_open_counted w ps k p : counted w ps -> ps !! k = Some p ->
  ret_sat (sys_open w p) (fun '(w', p', _) => counted w' (<[k := p']> ps)).
Proof.
  intros L Hk. unfold sys_open. do 2 rs_step. destruct Hv0 as [[Hf1 Hp1] Hfs].
  assert (forall f', effect [] [] 0 (w_fs w) f' -> counted (with_fs v0 f') ps) as Hquiet.
  { intros f' E. exact (ledger_rest w (with_fs v0 f') _ _ _ _ _ _ _ _ L (conj Hf1 Hp1) E). }
  destruct v1 as [path|]; [|rs_step; rewrite list_insert_id by done; rewrite <-(with_fs_self v0); apply Hquiet; rewrite Hfs; apply effect_refl].
  assert (forall f r, effect [] [] 1 (w_fs w) f -> ret_sat (fs_done v0 p f r) (fun '(w', p', _) => counted w' (<[k := p']> ps))) as Hback.
  { intros f r E. unfold fs_done. eapply rs_bind; [rs_call|]. intros f' E'. rs_step. rewrite list_insert_id by done. apply Hquiet. eff_solve. }
  assert (forall f i, effect [(i, 1%Z)] [(i, true)] 1 (w_fs w) f -> ret_sat (open_inode v0 p f i v) (fun '(w', p', _) => counted w' (<[k := p']> ps))) as Hgo.
  { intros f i E. apply open_inode_counted; [|done].
    exact (ledger_rest w (with_fs v0 f) _ _ _ _ _ _ _ _ L (conj Hf1 Hp1) E). }
  rewrite Hfs. eapply rs_bind; [rs_call|]. intros f1 E1. rs_step.
  - eapply rs_bind; [apply create_effect|]. intros [f2 [i|]] Hc; unfold created in Hc.
    + destruct Hc as [E2 Hl]. apply Hgo. eff_solve.
    + apply Hback. eff_solve.
  - eapply rs_bind; [rs_call|]. intros [f2 [i|]] E2; cbn [taken] in E2; [|apply Hback; eff_solve].
    eapply rs_bind; [rs_call|]. intros f3 [Hl E3]. rs_step. rs_step.
    + eapply rs_bind; [rs_call|]. intros f4 [Hl4 E4]. apply Hback. eff_solve.
    + apply Hgo. eff_solve.
Qed.

(** ** Pipes *)

(** The page of a new pipe is not the page of another. *)
Definition fresh_page w : Prop := forall m pi, pg_kalloc (w_mem w) = Ret (m, pi) -> pi <> 0%Z -> w_pipes w !! pi = None.

Definition open_file w (i : nat) : Prop := i < NFILE /\ forall fl, w_ftable w !! i = Some fl -> fl_type fl <> FD_NONE.

Lemma new_ends ft pp pi i0 i1 fl0 fl1 d : pipes_ok ft pp -> pp !! pi = None -> ft !! i0 = Some fl0 -> ft !! i1 = Some fl1 -> i0 <> i1 ->
  fl_type fl0 = FD_NONE -> fl_type fl1 = FD_NONE ->
  pipes_ok (<[i1 := set_pipe fl1 false pi]> (<[i0 := set_pipe fl0 true pi]> ft)) (<[pi := pipealloc d]> pp).
Proof.
  intros Hok Hpi H0' H1' Hne Ht0 Ht1 x. specialize (Hok x).
  assert (forall b fl, fl_type fl = FD_NONE -> holds_end x b fl = 0%Z) as Hz by (intros b fl E; unfold holds_end, on_pipe; by rewrite E).
  assert (forall b, zsum (holds_end x b) (<[i1 := set_pipe fl1 false pi]> (<[i0 := set_pipe fl0 true pi]> ft))
    = zsum (holds_end x b) ft + b2z (bool_decide (pi = x)))%Z as Hs.
  { intros b. rewrite (zsum_insert _ _ i1 fl1) by (by rewrite list_lookup_insert_ne).
    rewrite (zsum_insert _ _ _ _ _ H0'), (Hz b fl0 Ht0), (Hz b fl1 Ht1). unfold holds_end. cbn [on_pipe fl_type set_pipe fl_pipe fl_writable negb].
    destruct b, (bool_decide (pi = x)); simpl; lia. }
  rewrite !Hs.
  destruct (decide (x = pi)) as [->|Hx].
  - rewrite Hpi in Hok. destruct Hok as [-> ->]. rewrite lookup_insert_eq, bool_decide_true by done. done.
  - rewrite lookup_insert_ne, bool_decide_false by done. cbn [b2z]. by rewrite !Z.add_0_r.
Qed.

Lemma pipealloc_bad_ledger w ps xi xl d f0 f1 : 
  ledger w ps (taken f0 ++ taken f1) xi xl d ->
  ret_sat (pipealloc_bad w f0 f1) (fun '(w', o) => o = None /\ ledger w' ps [] xi xl d).
Proof.
  intros L. unfold pipealloc_bad. destruct f0 as [f0|]; cbn [taken app] in *.
  - eapply rs_bind; [apply (fileclose_ledger _ _ _ _ _ _ _ L)|].
    { cbn [tot foldr fst snd]. fold (tot (taken f1) f0). rewrite decide_True by done.
      destruct f1; cbn [taken]; [rewrite tot_one; case_decide; lia|simpl; lia]. }
    intros w1 L1. destruct f1 as [f1|]; cbn [taken] in *.
    + eapply rs_bind; [apply (fileclose_ledger _ _ _ _ _ _ _ L1)|].
      { cbn [tot foldr fst snd]. repeat case_decide; (done || lia). }
      intros w2 L2. rs_step. split; [done|]. eapply ledger_norm; [exact L2|..]; try done.
      intros j. cbn [tot foldr fst snd]. repeat case_decide; lia.
    + cbn [obind]. rs_step. split; [done|]. eapply ledger_norm; [exact L1|..]; try done.
      intros j. cbn [tot foldr fst snd]. repeat case_decide; lia.
  - cbn [obind]. destruct f1 as [f1|]; cbn [taken] in *; [|cbn [obind]; by rs_step].
    eapply rs_bind; [apply (fileclose_ledger _ _ _ _ _ _ _ L); rewrite tot_one, decide_True by done; lia|].
    intros w2 L2. rs_step. split; [done|]. eapply ledger_norm; [exact L2|..]; try done.
    intros j. cbn [tot foldr fst snd]. repeat case_decide; lia.
Qed.

(** A file without a target becomes an end of the pipe. *)
Lemma pipealloc_ledger w ps xi xl d : ledger w ps [] xi xl d -> fresh_page w ->
  ret_sat (pipealloc_files w) (fun '(w', o) => match o with
    | None => ledger w' ps [] xi xl d
    | Some (f0, f1) => ledger w' ps [(f0, 1%Z); (f1, 1%Z)] xi xl d /\ open_file w' f0 /\ open_file w' f1
    end).
Proof.
  intros L Hfresh. unfold pipealloc_files. eapply rs_bind; [apply (filealloc_ledger _ _ _ _ _ _ L); intros j; simpl; lia|].
  intros [w0 [f0|]] [(_ & Em0 & Ep0) Hf0].
  2: { subst w0. eapply rs_mono; [by apply (pipealloc_bad_ledger w ps xi xl d None None)|]. by intros [w' o] [-> ?]. }
  destruct Hf0 as (L0 & Hc0 & _ & (fl0 & Hfl0 & Ht0 & Hr0) & _).
  eapply rs_bind; [apply (filealloc_ledger _ _ _ _ _ _ L0); intros j; rewrite tot_one; case_decide; lia|].
  intros [w1 [f1|]] [(_ & Em1 & Ep1) Hf1].
  2: { subst w1. eapply rs_mono; [by apply (pipealloc_bad_ledger w0 ps xi xl d (Some f0) None)|]. by intros [w' o] [-> ?]. }
  destruct Hf1 as (L1 & Hc1 & Hx1 & (fl1 & Hfl1 & Ht1 & Hr1) & Hoth).
  assert (f0 <> f1) as Hne by (intros ->; rewrite tot_one, decide_True in Hx1 by done; lia).
  rewrite <-Hoth in Hfl0 by done. rewrite Em1, Em0.
  eapply rs_bind; [apply rs_self|]. intros [m pi] Ek. rs_step.
  { eapply rs_mono; [apply (pipealloc_bad_ledger (with_mem w1 m) ps xi xl d (Some f0) (Some f1))|by intros [w' o] [-> ?]].
    apply ledger_mem. eapply ledger_norm; [exact L1|..]; try done. intros j. cbn [taken app tot foldr fst snd]. repeat case_decide; lia. }
  apply Z.eqb_neq in Heqb. assert (w_pipes w1 !! pi = None) as Hpi by (rewrite Ep1, Ep0; by eapply Hfresh).
  eapply rs_bind; [apply rs_self|]. intros dat _. cbn [w_ftable with_pipes with_mem w_pipes with_file with_ftable].
  rewrite (load_ret _ _ _ Hfl0). cbn [obind w_ftable with_pipes with_mem w_pipes with_file with_ftable].
  rewrite (load_ret _ f1 fl1) by (by rewrite list_lookup_insert_ne). cbn [obind]. rs_step.
  assert (f0 < length (w_ftable w1) /\ f1 < length (w_ftable w1)) as [Hlt0 Hlt1] by (split; by eapply lookup_lt_Some).
  pose proof (le_len _ _ _ _ _ _ L1) as Hlen. rewrite Hlen in Hlt0, Hlt1.
  split; [|split; split; cbn; try done].
  - destruct L1 as [Q1 Q2 Q3 Q4 Q5 Q6 Q7 Q8 Q9 Q10]. split; cbn [w_ftable w_pipes w_fs with_file with_ftable with_pipes with_mem]; try done.
    + by rewrite !length_insert.
    + intros j fl Hj. assert (fd_count ps j + tot [(f1, 1%Z); (f0, 1%Z)] j = fd_count ps j + tot [(f0, 1%Z); (f1, 1%Z)] j)%Z as <-
        by (cbn [tot foldr fst snd]; repeat case_decide; lia).
      apply list_lookup_insert_Some in Hj as [(<- & <- & _)|[_ Hj]]; [by apply (Q2 _ _ Hfl1)|].
      apply list_lookup_insert_Some in Hj as [(<- & <- & _)|[_ Hj]]; [by apply (Q2 _ _ Hfl0)|by apply Q2].
    + intros j fl Hj Hz. apply list_lookup_insert_Some in Hj as [(<- & <- & _)|[_ Hj]]; [cbn in Hz; lia|].
      apply list_lookup_insert_Some in Hj as [(<- & <- & _)|[_ Hj]]; [cbn in Hz; lia|by eapply Q3].
    + intros j fl Hj Hz. apply list_lookup_insert_Some in Hj as [(<- & <- & _)|[_ Hj]]; [done|].
      apply list_lookup_insert_Some in Hj as [(<- & <- & _)|[_ Hj]]; [done|by eapply Q4].
    + intros j. rewrite (zsum_insert _ _ f1 fl1) by (by rewrite list_lookup_insert_ne). rewrite (zsum_insert _ _ _ _ _ Hfl0), Q5.
      assert (forall fl, on_inode fl = false -> holds_ip j fl = 0%Z) as Hz by (intros fl E; unfold holds_ip; by rewrite E).
      rewrite !Hz by (unfold on_inode; by rewrite ?Ht0, ?Ht1). lia.
    + by apply new_ends.
  - intros fl. rewrite list_lookup_insert_ne, list_lookup_insert_eq by (done || lia). by intros [= <-].
  - intros fl. rewrite list_lookup_insert_eq by (rewrite length_insert; lia). by intros [= <-].
Qed.

(** The two descriptors of a failed [sys_pipe] are free again. *)
Lemma pipe_close_counted w ps k p o fds rf wf : ledger w ps [(rf, 1%Z); (wf, 1%Z)] [] [] 0 -> ps !! k = Some p ->
  foldl (fun o fd => <[fd := None]> o) o fds = u_ofile p ->
  ret_sat (pipe_close w (set_ofile p o) fds rf wf) (fun '(w', p', _) => counted w' (<[k := p']> ps)).
Proof.
  intros L Hk Eo. unfold pipe_close. cbn [u_ofile set_ofile].
  assert (set_ofile (set_ofile p o) (foldl (fun o fd => <[fd := None]> o) o fds) = p) as -> by (rewrite Eo; by destruct p).
  eapply rs_bind; [apply (fileclose_ledger _ _ _ _ _ _ _ L); cbn [tot foldr fst snd]; repeat case_decide; (done || lia)|]. intros w1 L1.
  eapply rs_bind; [apply (fileclose_ledger _ _ _ _ _ _ _ L1); cbn [tot foldr fst snd]; repeat case_decide; (done || lia)|]. intros w2 L2.
  rs_step. rewrite list_insert_id by done. eapply ledger_norm; [exact L2|..]; try done.
  intros j. cbn [tot foldr fst snd]. repeat case_decide; lia.
Qed.

Lemma sys_pipe_counted w ps k p : counted w ps -> ps !! k = Some p -> fresh_page w ->
  ret_sat (sys_pipe w p) (fun '(w', p', _) => counted w' (<[k := p']> ps)).
Proof.
  intros L Hk Hfresh. unfold sys_pipe. rs_step. eapply rs_bind; [by apply pipealloc_ledger|].
  intros [w1 [[rf wf]|]] L1; [|rs_step; by rewrite list_insert_id]. destruct L1 as (L1 & [Hr1 Hr2] & [Hw1 Hw2]).
  destruct (fdalloc p rf) as [p1 [fd0|]] eqn:E0.
  2: { apply fdalloc_none in E0 as ->. replace p with (set_ofile p (u_ofile p)) at 1 by (by destruct p). by apply pipe_close_counted. }
  apply fdalloc_some in E0 as [Hn0 ->]. set (o1 := <[fd0 := Some rf]> (u_ofile p)) in *.
  assert (<[fd0 := None]> o1 = u_ofile p) as Eo1 by (unfold o1; rewrite list_insert_insert_eq; by rewrite list_insert_id).
  destruct (fdalloc (set_ofile p o1) wf) as [p2 [fd1|]] eqn:E1.
  2: { apply fdalloc_none in E1 as ->. by apply pipe_close_counted. }
  apply fdalloc_some in E1 as [Hn1 ->]. cbn [u_ofile set_ofile] in *.
  assert (fd0 <> fd1) as Hne by (intros ->; unfold o1 in Hn1; rewrite list_lookup_insert_eq in Hn1 by (by eapply lookup_lt_Some); done).
  assert (set_ofile (set_ofile p o1) (<[fd1 := Some wf]> o1) = set_ofile p (<[fd1 := Some wf]> o1)) as -> by done.
  assert (foldl (fun o fd => <[fd := None]> o) (<[fd1 := Some wf]> o1) [fd0; fd1] = u_ofile p) as Eo2.
  { simpl. rewrite (list_insert_insert_ne _ fd0 fd1) by done. rewrite Eo1, list_insert_insert_eq. apply list_insert_id.
    unfold o1 in Hn1. by rewrite list_lookup_insert_ne in Hn1. }
  assert (forall m, counted (with_mem w1 m) (<[k := set_ofile p (<[fd1 := Some wf]> o1)]> ps)) as Hok.
  { intros m. apply ledger_mem.
    pose proof (add_fd w1 ps k p fd0 rf [(wf, 1%Z)] [] [] 0 L1 Hk Hn0 Hr1 Hr2) as L2. fold o1 in L2.
    pose proof (add_fd w1 _ k (set_ofile p o1) fd1 wf [] [] [] 0 L2) as L3. rewrite list_insert_insert_eq in L3. apply L3; try done.
    apply list_lookup_insert_eq. by eapply lookup_lt_Some. }
  repeat rs_step; first [exact (Hok _) | apply pipe_close_counted; [repeat apply ledger_mem; exact L1|done|exact Eo2]].
Qed.

(** ** Creation and end of a process *)
Fixpoint dups (o : list (option nat)) : list (nat * Z) :=
  match o with [] => [] | Some i :: o => (i, 1%Z) :: dups o | None :: o => dups o end.

Lemma tot_cons x a l j : tot ((x, a) :: l) j = ((if decide (x = j) then a else 0) + tot l j)%Z.
Proof. simpl. case_decide; lia. Qed.

Lemma tot_dups o i : tot (dups o) i = zsum (names_file i) o.
Proof.
  induction o as [|[x|] o IH]; cbn [dups zsum]; [done| |by rewrite names_none, IH].
  rewrite names_one, <-IH, tot_cons. done.
Qed.

Lemma dup_files_ledger o : forall w ps xf xi xl d, ledger w ps xf xi xl d ->
  ret_sat (dup_files w o) (fun w' => ledger w' ps (rev (dups o) ++ xf) xi xl d).
Proof.
  induction o as [|[i|] o IH]; intros w ps xf xi xl d L; cbn [dup_files dups rev]; [by rs_step| |by apply IH].
  eapply rs_bind; [apply (filedup_ledger _ _ _ _ _ _ i L)|]. intros w' L'. eapply rs_mono; [apply (IH _ _ _ _ _ _ L')|].
  intros w2. by rewrite <-app_assoc.
Qed.

Lemma tot_rev a j : tot (rev a) j = tot a j.
Proof. induction a as [|x a IH]; simpl; [done|]. rewrite tot_app, IH. simpl. case_decide; lia. Qed.

Lemma in_dir_if j p : in_dir j p = if decide (u_cwd p = j) then 1%Z else 0%Z.
Proof. unfold in_dir. case_decide; [by rewrite bool_decide_true|by rewrite bool_decide_false]. Qed.

Lemma fork_files_counted w ps k p pt : counted w ps -> ps !! k = Some p ->
  ret_sat (fork_files w p pt) (fun '(w', q) => counted w' (ps ++ [q])).
Proof.
  intros L Hk. assert (p ∈ ps) as Hin by (by eapply list_elem_of_lookup_2). unfold fork_files.
  eapply rs_bind; [apply (dup_files_ledger (u_ofile p) _ _ _ _ _ _ L)|]. intros w1 L1. eapply rs_bind; [rs_call|]. intros f2 E2. rs_step.
  pose proof (ledger_fs _ _ _ _ _ _ _ _ _ _ L1 E2) as L2. rewrite app_nil_r in L2. cbn [app] in L2.
  set (q := mk_up pt (u_sz p) (u_ofile p) (u_cwd p) (u_args p)).
  assert (forall i, fd_count (ps ++ [q]) i = fd_count ps i + zsum (names_file i) (u_ofile p))%Z as Hc
    by (intros i; unfold fd_count; rewrite zsum_app; simpl; lia).
  assert (forall x, x ∈ ps ++ [q] -> x = q \/ x ∈ ps) as Hx by set_solver.
  destruct L2 as [Q1 Q2 Q3 Q4 Q5 Q6 Q7 Q8 Q9 Q10]. split; try done.
  - intros i fl Hi. rewrite (Q2 i fl Hi), Hc, tot_rev, tot_dups. simpl. lia.
  - intros i fl Hi Hpos. apply (Q4 i fl Hi). rewrite Hc in Hpos. unfold fd_count in *.
    pose proof (zsum_le (fun q => zsum (names_file i) (u_ofile q)) ps k p (fun q => zsum_nonneg _ _ (names_nonneg i)) Hk). cbn in *.
    pose proof (zsum_nonneg (names_file i) (u_ofile p) (names_nonneg i)). lia.
  - intros j. rewrite (Q5 j), zsum_app, tot_one. cbn [zsum tot foldr]. rewrite in_dir_if. cbn [u_cwd q]. case_decide; lia.
  - intros x fd i Hxin Hfd. destruct (Hx x Hxin) as [->|?]; [by eapply (Q9 p)|by eapply Q9].
  - intros x Hxin. destruct (Hx x Hxin) as [->|?]; [by apply (Q10 p)|by apply Q10].
Qed.

Lemma close_files_ledger o : forall w ps xf xi xl d, ledger w ps (dups o ++ xf) xi xl d -> (forall j, 0 <= tot xf j)%Z ->
  ret_sat (close_files w o) (fun w' => ledger w' ps xf xi xl d).
Proof.
  induction o as [|[i|] o IH]; intros w ps xf xi xl d L Hx; cbn [close_files dups app] in *; [by rs_step| |by apply IH].
  assert (0 <= tot (dups o ++ xf) i)%Z as Hnn.
  { rewrite tot_app, tot_dups. pose proof (zsum_nonneg (names_file i) o (names_nonneg i)). specialize (Hx i). lia. }
  eapply rs_bind; [apply (fileclose_ledger _ _ _ _ _ _ _ L); rewrite tot_cons, decide_True by done; lia|].
  intros w' L'. apply IH; [|done]. eapply ledger_norm; [exact L'|..]; try done.
  intros j. rewrite !tot_cons. case_decide; lia.
Qed.

Lemma exit_files_counted w ps k p : counted w ps -> ps !! k = Some p -> ret_sat (exit_files w p) (fun w' => counted w' (delete k ps)).
Proof.
  intros L Hk. unfold exit_files.
  assert (ledger w (delete k ps) (dups (u_ofile p) ++ []) [(u_cwd p, 1%Z)] [] 0) as L1.
  { assert (forall i, fd_count (delete k ps) i = fd_count ps i - zsum (names_file i) (u_ofile p))%Z as Hc
      by (intros i; unfold fd_count; by rewrite (zsum_delete _ _ _ _ Hk)).
    assert (forall x, x ∈ delete k ps -> x ∈ ps) as Hx by (intros x Hx; eapply elem_of_submseteq; [exact Hx|]; apply sublist_submseteq, sublist_delete).
    destruct L as [Q1 Q2 Q3 Q4 Q5 Q6 Q7 Q8 Q9 Q10]. split; try done.
    - intros i fl Hi. rewrite (Q2 i fl Hi), Hc, app_nil_r, tot_dups. simpl. lia.
    - intros i fl Hi Hpos. apply (Q4 i fl Hi). rewrite Hc in Hpos. pose proof (zsum_nonneg (names_file i) (u_ofile p) (names_nonneg i)). lia.
    - intros j. rewrite (Q5 j), (zsum_delete _ _ _ _ Hk), tot_one, in_dir_if. cbn [tot foldr]. case_decide; lia.
    - intros x fd i Hxin. apply Q9. auto.
    - intros x Hxin. apply Q10. auto. }
  eapply rs_bind; [apply (close_files_ledger _ _ _ _ _ _ _ L1); intros j; simpl; lia|]. intros w1 L2.
  eapply rs_bind; [rs_call|]. intros f1 E1. eapply rs_bind; [rs_call|]. intros f2 E2. eapply rs_bind; [rs_call|]. intros f3 E3. rs_step.
  assert (effect [(u_cwd p, (-1)%Z)] [] 0 (w_fs w1) f3) as E by eff_solve.
  eapply ledger_norm; [exact (ledger_fs _ _ _ _ _ _ _ _ _ _ L2 E)|..]; try done. intros j. simpl. repeat case_decide; lia.
Qed.
End procs.

(** ** Program execution *)
Section exec.
Context {M T : Type} `{PageStore M} `{TxDepth T} (trampoline trapframe : Z).
Implicit Types (w : world M T) (ps : list uproc) (p : uproc) (f : fs T) (m : M).

Lemma readi_kern_effect f i buf off n : ret_sat (readi_kern f i buf off n) (fun '(f', _, _) => effect [] [] 0 f f').
Proof. unfold readi_kern. repeat rs_step. by eapply effect_same. Qed.
Hint Resolve readi_kern_effect : acct.

Lemma loadseg_loop_effect pt va ip offset sz fuel : forall m f i,
  ret_sat (loadseg_loop m f pt va ip offset sz i fuel) (fun '(_, f', _) => effect [] [] 0 f f').
Proof. induction fuel as [|fuel IH]; intros m f i; cbn [loadseg_loop]; repeat rs_step; try apply effect_refl; eff_solve. Qed.
Hint Resolve loadseg_loop_effect : acct.

Lemma loadseg_effect m f pt va ip offset sz : ret_sat (loadseg m f pt va ip offset sz) (fun '(_, f', _) => effect [] [] 0 f f').
Proof. apply loadseg_loop_effect. Qed.
Hint Resolve loadseg_effect : acct.

Lemma load_segments_effect pt ip k : forall m f sz off,
  ret_sat (load_segments m f pt ip sz off k) (fun '(_, f', _, _) => effect [] [] 0 f f').
Proof. induction k as [|k IH]; intros m f sz off; cbn [load_segments]; repeat rs_step; try apply effect_refl; eff_solve. Qed.
Hint Resolve load_segments_effect : acct.

Lemma kexec_bad_effect w p f pt sz ip : ret_sat (kexec_bad w p f pt sz ip) (fun '(w', p', _, _) => p' = p /\ same_rest w w' /\
  match ip with
  | Some i => lk f i = true /\ effect [(i, (-1)%Z)] [(i, false)] (-1) f (w_fs w')
  | None => w_fs w' = f
  end).
Proof. unfold kexec_bad. repeat rs_step; destruct_and?; split_and!; try done; cbn [w_fs with_fs]; eff_solve. Qed.
Hint Resolve kexec_bad_effect : acct.

(** The files of the process stay as they are. *)
Definition same_files p p' : Prop := u_ofile p' = u_ofile p /\ u_cwd p' = u_cwd p.

Lemma kexec_stack_same w p pt sz entry path argv : ret_sat (kexec_stack w p pt sz entry path argv)
  (fun '(w', p', _, _) => same_files p p' /\ same_rest w w' /\ w_fs w' = w_fs w).
Proof. unfold kexec_stack. repeat rs_step; unfold same_rest in *; destruct_and?; subst; cbn in *; split_and!; done. Qed.
Hint Resolve kexec_stack_same : acct.

Lemma kexec_quiet w p path argv : ret_sat (kexec trampoline trapframe w p path argv)
  (fun '(w', p', _, _) => same_files p p' /\ same_rest w w' /\ effect [] [] 0 (w_fs w) (w_fs w')).
Proof.
  unfold kexec. repeat rs_step; unfold same_rest in *; destruct_and?; subst; cbn [w_fs w_ftable w_pipes with_fs with_mem taken] in *;
    (split; [done|]; split; [split; congruence|]);
    repeat match goal with E : w_fs ?a = ?b |- _ => rewrite E in *; clear E end; eff_solve.
Qed.
Hint Resolve kexec_quiet : acct.

Lemma fetch_args_same p uargv k : forall w i argv, ret_sat (fetch_args w p uargv i argv k)
  (fun '(w', _, _) => same_rest w w' /\ w_fs w' = w_fs w).
Proof.
  induction k as [|k IH]; intros w i argv; cbn [fetch_args]; repeat rs_step; unfold same_rest in *; destruct_and?; cbn in *;
    split_and!; congruence.
Qed.
Hint Resolve fetch_args_same : acct.

Lemma sys_exec_quiet w p : ret_sat (sys_exec trampoline trapframe w p)
  (fun '(w', p', _, _) => same_files p p' /\ same_rest w w' /\ effect [] [] 0 (w_fs w) (w_fs w')).
Proof.
  unfold sys_exec. repeat rs_step; unfold same_rest in *; destruct_and?; subst; cbn [w_fs w_ftable w_pipes with_fs with_mem] in *;
    (split; [done|]; split; [split; congruence|]);
    repeat match goal with E : w_fs ?a = ?b |- _ => rewrite E in *; clear E end; first [apply effect_refl|done].
Qed.

Lemma same_files_counted w ps k p p' : counted w ps -> ps !! k = Some p -> same_files p p' -> counted w (<[k := p']> ps).
Proof.
  intros L Hk [Eo Ec]. assert (p ∈ ps) as Hin by (by eapply list_elem_of_lookup_2). eapply ledger_proc; try done; rewrite ?Eo.
  - intros i. lia.
  - intros j. rewrite !in_dir_if, Ec. lia.
  - intros i fl Hfl Hpos. apply (le_open _ _ _ _ _ _ L i); [done|]. unfold fd_count.
    pose proof (zsum_le (fun q => zsum (names_file i) (u_ofile q)) ps k p (fun q => zsum_nonneg _ _ (names_nonneg i)) Hk). cbn in *. lia.
  - intros fd i. by apply (le_fds _ _ _ _ _ _ L p).
  - by apply (le_ofile _ _ _ _ _ _ L p).
Qed.

Lemma sys_exec_counted w ps k p : counted w ps -> ps !! k = Some p ->
  ret_sat (sys_exec trampoline trapframe w p) (fun '(w', p', _, _) => counted w' (<[k := p']> ps)).
Proof.
  intros L Hk. eapply rs_mono; [apply sys_exec_quiet|]. intros [[[w' p'] r] im] (Hs & Hr & E).
  eapply same_files_counted; [exact (ledger_rest _ _ _ _ _ _ _ _ _ _ L Hr E)|done|done].
Qed.
End exec.

(** ** Histories of system calls *)
Section steps.
Context {M T : Type} `{PageStore M} `{TxDepth T} `{!Transfers M} `{!TransferLaws M}.
Implicit Types (w : world M T) (ps : list uproc) (p q : uproc).

Definition file_calls : list (world M T -> uproc -> outcome (world M T * uproc * Z)) :=
  [sys_dup; sys_read; sys_write; sys_close; sys_link; sys_unlink; sys_open; sys_mkdir; sys_mknod; sys_chdir].

(** A process makes a call that returns, is created or ends; between its calls
    it changes its memory and its registers, and [sbrk] its size. *)
Inductive sysstep : world M T * list uproc -> world M T * list uproc -> Prop :=
| S_call w ps k p call w' p' r : ps !! k = Some p -> call ∈ file_calls -> call w p = Ret (w', p', r) ->
    sysstep (w, ps) (w', <[k := p']> ps)
| S_fstat w ps k p pad w' p' r : ps !! k = Some p -> sys_fstat w p pad = Ret (w', p', r) -> sysstep (w, ps) (w', <[k := p']> ps)
| S_pipe w ps k p w' p' r : ps !! k = Some p -> fresh_page w -> sys_pipe w p = Ret (w', p', r) -> sysstep (w, ps) (w', <[k := p']> ps)
| S_exec tramp frame w ps k p w' p' r im : ps !! k = Some p -> sys_exec tramp frame w p = Ret (w', p', r, im) ->
    sysstep (w, ps) (w', <[k := p']> ps)
| S_fork w ps k p pt w' q : ps !! k = Some p -> fork_files w p pt = Ret (w', q) -> sysstep (w, ps) (w', ps ++ [q])
| S_exit w ps k p w' : ps !! k = Some p -> exit_files w p = Ret w' -> sysstep (w, ps) (w', delete k ps)
| S_user w ps k p m pt sz args : ps !! k = Some p ->
    sysstep (w, ps) (with_mem w m, <[k := mk_up pt sz (u_ofile p) (u_cwd p) args]> ps).

Lemma file_call_counted w ps k p call : counted w ps -> ps !! k = Some p -> call ∈ file_calls ->
  ret_sat (call w p) (fun '(w', p', _) => counted w' (<[k := p']> ps)).
Proof.
  intros L Hk Hc. unfold file_calls in Hc. repeat (apply elem_of_cons in Hc as [->|Hc]); [..|by apply not_elem_of_nil in Hc].
  - by apply sys_dup_counted.
  - by apply sys_read_counted.
  - by apply sys_write_counted.
  - by apply sys_close_counted.
  - eapply rs_mono; [apply sys_link_quiet|]. intros [[w' p'] r] Hq. by eapply quiet_ledger.
  - eapply rs_mono; [apply sys_unlink_quiet|]. intros [[w' p'] r] Hq. by eapply quiet_ledger.
  - by apply sys_open_counted.
  - eapply rs_mono; [apply sys_mkdir_quiet|]. intros [[w' p'] r] Hq. by eapply quiet_ledger.
  - eapply rs_mono; [apply sys_mknod_quiet|]. intros [[w' p'] r] Hq. by eapply quiet_ledger.
  - by apply sys_chdir_counted.
Qed.

Lemma user_counted w ps k p m pt sz args : counted w ps -> ps !! k = Some p ->
  counted (with_mem w m) (<[k := mk_up pt sz (u_ofile p) (u_cwd p) args]> ps).
Proof. intros L Hk. by eapply same_files_counted; [apply ledger_mem| |]. Qed.

Lemma sysstep_counted (s s' : world M T * list uproc) : sysstep s s' -> counted s.1 s.2 -> counted s'.1 s'.2.
Proof.
  intros Hs L. destruct Hs as [w ps k p call w' p' r Hk Hc E|w ps k p pad w' p' r Hk E|w ps k p w' p' r Hk Hf E|tramp frame w ps k p w' p' r im Hk E|w ps k p pt w' q Hk E
    |w ps k p w' Hk E|w ps k p m pt sz args Hk]; cbn [fst snd] in *.
  - exact (file_call_counted w ps k p call L Hk Hc _ E).
  - exact (sys_fstat_counted w ps k p pad L Hk _ E).
  - exact (sys_pipe_counted w ps k p L Hk Hf _ E).
  - exact (sys_exec_counted tramp frame w ps k p L Hk _ E).
  - exact (fork_files_counted w ps k p pt L Hk _ E).
  - exact (exit_files_counted w ps k p L Hk _ E).
  - by apply user_counted.
Qed.
End steps.

(** C9.  Nothing is leaked or lost by the system calls on files.  In every
    history of calls, forks and exits, the count of an open file is the number
    of descriptors that name it, the count of an inode the number of open files
    and working directories on it, an end of a pipe is open exactly as long as a
    file for it is, no inode stays locked and no transaction stays open after a
    call has returned, successfully or not.  So a descriptor always names an
    open file: [filedup], [fileclose], [fileread] and [filewrite] do not panic on
    it. *)
Theorem descriptors_counted {M T} `{PageStore M} `{TxDepth T} `{!Transfers M} `{!TransferLaws M} (w0 w : world M T) (ps0 ps : list uproc)
    (Hstart : counted w0 ps0) (Hsteps : rtc sysstep (w0, ps0) (w, ps)) :
  counted w ps /\
  forall p fd i, p ∈ ps -> u_ofile p !! fd = Some (Some i) ->
    exists fl, w_ftable w !! i = Some fl /\ (1 <= fl_ref fl)%Z /\ fl_type fl <> FD_NONE /\ exists w', filedup w i = Ret w'.
Proof.
  assert (counted w ps) as L.
  { remember (w0, ps0) as s eqn:Es. remember (w, ps) as s' eqn:Es'. assert (counted s.1 s.2) as L0 by (by subst).
    clear Es. enough (counted s'.1 s'.2) by (by subst). clear Es'. induction Hsteps as [|a b c Hab _ IH]; [done|].
    apply IH. by eapply sysstep_counted. }
  split; [done|]. intros p fd i Hp Hfd. pose proof (named_counted ps p fd i Hp Hfd) as Hc.
  destruct (lookup_lt_is_Some_2 (w_ftable w) i) as [fl Hfl]; [rewrite (le_len _ _ _ _ _ _ L); by eapply (le_fds _ _ _ _ _ _ L)|].
  pose proof (le_ref _ _ _ _ _ _ L i fl Hfl) as Hr. simpl in Hr. exists fl. split_and!; [done|lia|by apply (le_open _ _ _ _ _ _ L i)|].
  unfold filedup. rewrite (load_ret _ _ _ Hfl). cbn [obind]. rewrite (proj2 (Z.ltb_ge _ _)) by lia. by eexists.
Qed.

(** A process with the console open. *)
Definition console_ip : inode := mk_inode ROOTDEV 1 2 false true (mk_di T_DEVICE 1 0 1 0 (replicate (NDIRECT + 1) 0%Z)).
Definition console_world : world kmem (log * bcache) :=
  mk_world (demo_memory 0) (mk_fs (mk_sb 0 0 0 0 0 0 0 0) (log0, binit ∅) (<[0 := console_ip]> iinit))
    (<[0 := mk_file FD_DEVICE 1 true true 0 0 0 1]> (replicate NFILE file0)) ∅.
Definition console_proc (args : list Z) : uproc := mk_up 0 0 (<[0 := Some 0]> (replicate NOFILE None)) 0 args.

(** Devices and pipes that transfer nothing. *)
#[export] Instance no_transfers : Transfers kmem := {|
  tr_piperead m p pi a n := Ret (m, pi, 0%Z);
  tr_pipewrite m p pi a n := Ret (m, pi, 0%Z);
  tr_devread major := None;
  tr_devwrite major := None
|}.
#[export] Instance no_transfer_laws : TransferLaws kmem.
Proof. split; intros; by apply rs_ret. Qed.

Lemma zsum_replicate {A} (g : A -> Z) n x : g x = 0%Z -> zsum g (replicate n x) = 0%Z.
Proof. intros Hx. induction n as [|n IH]; simpl; lia. Qed.

Lemma console_counted args : counted console_world [console_proc args].
Proof.
  assert (forall i, fd_count [console_proc args] i = if decide (i = 0%nat) then 1 else 0)%Z as Hc.
  { intros i. unfold fd_count. cbn [zsum u_ofile console_proc]. rewrite (zsum_insert _ _ 0 None) by done.
    rewrite zsum_replicate, names_one, names_none by done. repeat case_decide; subst; (done || lia). }
  assert (forall i fl, w_ftable console_world !! i = Some fl ->
    (i = 0 /\ fl = mk_file FD_DEVICE 1 true true 0 0 0 1) \/ (i <> 0 /\ fl = file0)) as Hfl.
  { intros i fl Hi. apply list_lookup_insert_Some in Hi as [(<- & <- & _)|[Hne Hi]]; [by left|right].
    split; [done|]. by apply lookup_replicate in Hi as [-> _]. }
  assert (forall j, f_itab (w_fs console_world) !! S j = iinit !! S j) as Htab by (intros j; by apply list_lookup_insert_ne).
  split; try done.
  - intros i fl Hi. rewrite Hc. destruct (Hfl i fl Hi) as [[-> ->]|[Hne ->]]; [done|]. by rewrite decide_False.
  - intros i fl Hi Hz. destruct (Hfl i fl Hi) as [[-> ->]|[Hne ->]]; done.
  - intros i fl Hi. rewrite Hc. destruct (Hfl i fl Hi) as [[-> ->]|[Hne ->]]; [done|]. rewrite decide_False by done. lia.
  - intros j. cbn [w_ftable console_world]. rewrite (zsum_insert _ _ 0 file0), zsum_replicate by done. cbn [zsum]. rewrite in_dir_if.
    destruct j as [|j]; [reflexivity|]. unfold rf. rewrite Htab. destruct (iinit !! S j) as [ip|] eqn:E; [|reflexivity].
    apply lookup_replicate in E as [-> _]. reflexivity.
  - intros [|j]; [reflexivity|]. unfold lk. rewrite Htab. destruct (iinit !! S j) as [ip|] eqn:E; [|reflexivity].
    apply lookup_replicate in E as [-> _]. reflexivity.
  - intros p fd i ->%list_elem_of_singleton Hfd. unfold NFILE. apply list_lookup_insert_Some in Hfd as [(_ & E & _)|[_ E]]; [simplify_eq; lia|].
    apply lookup_replicate in E as [? _]. done.
  - intros p ->%list_elem_of_singleton. done.
Qed.

Lemma descriptors_counted_witness : exists (w : world kmem (log * bcache)) (ps : list uproc),
  rtc (sysstep (M := kmem) (H := kmem_store 0)) (console_world, [console_proc [0%Z]]) (w, ps) /\ length ps = 2 /\ counted w ps.
Proof.
  destruct (sys_dup console_world (console_proc [0%Z])) as [[[w1 p1] r1]| | | |] eqn:E1; try (vm_compute in E1; discriminate).
  destruct (fork_files w1 p1 0) as [[w2 q]| | | |] eqn:E2; [|exfalso; revert E2; vm_compute in E1; injection E1 as <- <- <-; vm_compute; discriminate..].
  exists w2, ([p1] ++ [q]).
  assert (rtc (sysstep (M := kmem) (H := kmem_store 0)) (console_world, [console_proc [0%Z]]) (w2, [p1] ++ [q])) as Hs.
  { eapply rtc_l; [|apply rtc_once].
    - apply (S_call console_world _ 0 (console_proc [0%Z]) sys_dup w1 p1 r1); [done|left|exact E1].
    - by apply (S_fork w1 [p1] 0 p1 0 w2 q). }
  split; [exact Hs|]. split; [done|].
  exact (proj1 (descriptors_counted console_world w2 [console_proc [0%Z]] ([p1] ++ [q]) (console_counted _) Hs)).
Defined.
