(* ===== verification/Ulib.v ===== *)
(** * The library of the user programs

    [user/ulib.c]: strings, [gets], [atoi].  An array of characters is a list
    and a pointer into it a position, so that an access outside the array is
    [Undef]; a C string that is only read is the list of its characters.  The
    search, comparison, copy and move functions compute what their names
    say. *)

From S2P Require Import Prelude Bytes.

Local Open Scope nat_scope.

(** ** Strings: [ulib.c] *)
Section strings.
Implicit Types m s t p q : list ascii.

(** [strcpy(s, t)], [m] the array that holds the target at [s]. *)
Fixpoint ustrcpy_loop m (d : nat) t (i fuel : nat) : outcome (list ascii) :=
  match fuel with
  | 0 => NoFuel
  | S fuel =>
      let* c := load t i in
      let* m := store m (d + i) c in
      if decide (c = NUL) then Ret m else ustrcpy_loop m d t (S i) fuel
  end.

Definition ustrcpy m (d : nat) t : outcome (list ascii) := ustrcpy_loop m d t 0 (S (length t)).

Fixpoint ustrcmp_loop p q (i fuel : nat) : outcome Z :=
  match fuel with
  | 0 => NoFuel
  | S fuel =>
      let* a := load p i in
      let* b := load q i in
      if decide (a <> NUL /\ a = b) then ustrcmp_loop p q (S i) fuel
      else Ret (Z.of_nat (nat_of_ascii a) - Z.of_nat (nat_of_ascii b))%Z
  end.

Definition ustrcmp p q : outcome Z := ustrcmp_loop p q 0 (S (length p)).

Fixpoint ustrlen_loop m (s n fuel : nat) : outcome nat :=
  match fuel with
  | 0 => NoFuel
  | S fuel =>
      let* c := load m (s + n) in
      if decide (c = NUL) then Ret n else ustrlen_loop m s (S n) fuel
  end.

Definition ustrlen m (s : nat) : outcome nat := ustrlen_loop m s 0 (S (length m)).

(** [memset(dst, c, n)] *)
Fixpoint umemset m (dst : nat) (c : ascii) (n : nat) : outcome (list ascii) :=
  match n with
  | 0 => Ret m
  | S n => let* m := store m dst c in umemset m (S dst) c n
  end.

Fixpoint ustrchr_loop m (s : nat) (c : ascii) (fuel : nat) : outcome (option nat) :=
  match fuel with
  | 0 => NoFuel
  | S fuel =>
      let* a := load m s in
      if decide (a = NUL) then Ret None
      else if decide (a = c) then Ret (Some s) else ustrchr_loop m (S s) c fuel
  end.

Definition ustrchr m (s : nat) (c : ascii) : outcome (option nat) :=
  ustrchr_loop m s c (S (length m)).

(** [atoi]: [n * 10 + *s++ - '0'] in [int], evaluated from the left. *)
Definition in_int (z : Z) : Prop := (-2147483648 <= z <= INT_MAX)%Z.

Fixpoint uatoi_loop s (n : Z) : outcome Z :=
  match s with
  | c :: s' =>
      if isdigit c then
        let x := Z.of_nat (nat_of_ascii c) in
        if decide (in_int (n * 10) /\ in_int (n * 10 + x))%Z then uatoi_loop s' (n * 10 + x - 48)%Z
        else Undef
      else Ret n
  | [] => Ret n
  end.

Definition uatoi s : outcome Z := uatoi_loop s 0%Z.

(** [memmove(dst, src, n)] inside one array. *)
Fixpoint umove_up m (d s n : nat) : outcome (list ascii) :=
  match n with
  | 0 => Ret m
  | S n => let* c := load m s in let* m := store m d c in umove_up m (S d) (S s) n
  end.

(** The other loop: [d] and [s] are the positions before the decrement. *)
Fixpoint umove_down m (d s n : nat) : outcome (list ascii) :=
  match n with
  | 0 => Ret m
  | S n' => let* c := load m (s + n') in let* m := store m (d + n') c in umove_down m d s n'
  end.

Definition umemmove m (dst src n : nat) : outcome (list ascii) :=
  if decide (dst < src) then umove_up m dst src n else umove_down m dst src n.

Definition umemcpy m (dst src n : nat) : outcome (list ascii) := umemmove m dst src n.

Fixpoint umemcmp p q (n : nat) : outcome Z :=
  match n, p, q with
  | 0, _, _ => Ret 0%Z
  | S n, a :: p, b :: q =>
      if decide (a <> b) then Ret (Z.of_nat (nat_of_ascii a) - Z.of_nat (nat_of_ascii b))%Z
      else umemcmp p q n
  | _, _, _ => Undef
  end.
End strings.

(** ** Reading: [gets]

    What the programs use of the kernel to read: [read] on a descriptor, in a
    world [W].  The law says of a descriptor that delivers the bytes [data]:
    a call that asks for some bytes gets at least one and at most as many, and
    none exactly at the end. *)
Class ReadOS (W : Type) := {
  os_read : W -> Z -> nat -> Z * cstr * W;
  delivers : W -> Z -> cstr -> Prop
}.

Class ReadLaws (W : Type) `{ReadOS W} := {
  read_end : forall w fd n, delivers w fd [] ->
    exists w', os_read w fd n = (0%Z, [], w') /\ delivers w' fd [];
  read_none : forall w fd data, delivers w fd data ->
    exists w', os_read w fd 0 = (0%Z, [], w') /\ delivers w' fd data;
  read_some : forall w fd n data, delivers w fd data -> 0 < n -> data <> [] ->
    exists k w', 0 < k <= n /\ k <= length data /\
      os_read w fd n = (Z.of_nat k, take k data, w') /\ delivers w' fd (drop k data)
}.

(** A file whose bytes arrive in pieces of at most [k]. *)
Definition chunks (k : nat) : ReadOS cstr := {|
  os_read w fd n := (Z.of_nat (length (take (min n k) w)), take (min n k) w, drop (min n k) w);
  delivers w fd data := w = data
|}.

Lemma chunks_laws k : 0 < k -> @ReadLaws cstr (chunks k).
Proof.
  intros Hk. constructor; simpl.
  - intros w fd n ->. by rewrite take_nil, drop_nil; eexists.
  - intros w fd data ->. by rewrite take_0, drop_0; eexists.
  - intros w fd n data -> Hn Hd. exists (length (take (min n k) data)), (drop (min n k) data).
    assert (0 < length data) by (destruct data; simpl; [done|lia]).
    rewrite length_take. repeat split; try lia.
    + do 2 f_equal. destruct (Nat.le_ge_cases (min n k) (length data)).
      * by rewrite (Nat.min_l _ (length data)) by lia.
      * rewrite (Nat.min_r _ (length data)) by lia. by rewrite take_ge, firstn_all by lia.
    + destruct (Nat.le_ge_cases (min n k) (length data)).
      * by rewrite (Nat.min_l _ (length data)) by lia.
      * rewrite (Nat.min_r _ (length data)) by lia. by rewrite !drop_ge by lia.
Qed.

Section gets.
Context {W : Type} `{ReadOS W}.

(** The array [buf] starts at position [b] of [m]. *)
Fixpoint gets_loop (w : W) (m : list ascii) (b i max fuel : nat) : outcome (list ascii * nat * W) :=
  if decide (i + 1 < max) then
    match fuel with
    | 0 => NoFuel
    | S fuel =>
        let '(cc, got, w) := os_read w 0 1 in
        if (cc <? 1)%Z then Ret (m, i, w)
        else
          let* c := load got 0 in
          let* m := store m (b + i) c in
          if decide (c = NEWLINE \/ c = CR) then Ret (m, S i, w) else gets_loop w m b (S i) max fuel
    end
  else Ret (m, i, w).

Definition gets (w : W) (m : list ascii) (b max : nat) : outcome (list ascii * W) :=
  let* '(m, i, w) := gets_loop w m b 0 max max in
  let* m := store m (b + i) NUL in
  Ret (m, w).
End gets.

(** ** Strings: what the functions compute

    [cstr_at m p s]: the array [m] holds at [p] the string [s] and its NUL. *)
Definition cstr_at (m : list ascii) (p : nat) (s : cstr) : Prop :=
  no_nul s /\ exists pre post, m = pre ++ s ++ NUL :: post /\ length pre = p.

Lemma cstr_at_cons m p c s : cstr_at m p (c :: s) -> m !! p = Some c /\ c <> NUL /\ cstr_at m (S p) s.
Proof.
  intros (Hn & pre & post & -> & <-). apply no_nul_cons in Hn as [Hc Hn].
  split; [by rewrite lookup_app_r, Nat.sub_diag|]. split; [done|]. split; [done|].
  exists (pre ++ [c]), post. rewrite <- app_assoc, length_app. simpl. split; [done|lia].
Qed.

Lemma cstr_at_nil m p : cstr_at m p [] -> m !! p = Some NUL.
Proof. intros (_ & pre & post & -> & <-). by rewrite lookup_app_r, Nat.sub_diag. Qed.

Lemma cstr_at_length m p s : cstr_at m p s -> p + length s < length m.
Proof. intros (_ & pre & post & -> & <-). rewrite !length_app. simpl. lia. Qed.

Lemma ustrlen_spec m p s : cstr_at m p s -> ustrlen m p = Ret (length s).
Proof.
  intros H. pose proof (cstr_at_length _ _ _ H) as Hl. unfold ustrlen.
  cut (forall k n fuel s, cstr_at m (p + n) s -> k = n + length s -> length s < fuel ->
         ustrlen_loop m p n fuel = Ret k).
  { intros HH. apply (HH _ _ _ s); [by rewrite Nat.add_0_r|lia|lia]. }
  clear. intros k n fuel s. revert n fuel.
  induction s as [|c s IH]; intros n [|fuel] H Hk Hf; simpl in *; try lia.
  - rewrite (load_ret _ _ _ (cstr_at_nil _ _ H)). cbn [obind]. rewrite decide_True by done. f_equal. lia.
  - apply cstr_at_cons in H as (Hp & Hc & H). rewrite (load_ret _ _ _ Hp). cbn [obind].
    rewrite decide_False by done. apply IH; [|lia|lia]. by rewrite Nat.add_succ_r.
Qed.

(** [strchr] finds the first occurrence in the string, if there is one. *)
Lemma ustrchr_loop_none m c s : forall p fuel, cstr_at m p s -> c ∉ s -> length s < fuel ->
  ustrchr_loop m p c fuel = Ret None.
Proof.
  induction s as [|a s IH]; intros p [|fuel] H Hc Hf; simpl in *; try lia.
  - rewrite (load_ret _ _ _ (cstr_at_nil _ _ H)). cbn [obind]. by rewrite decide_True.
  - apply cstr_at_cons in H as (Hp & Ha & H). rewrite (load_ret _ _ _ Hp). cbn [obind].
    rewrite !decide_False by (done || set_solver). apply IH; [done|set_solver|lia].
Qed.

Lemma ustrchr_loop_some m c s1 s2 : forall p fuel, cstr_at m p (s1 ++ c :: s2) -> c ∉ s1 ->
  length s1 < fuel -> ustrchr_loop m p c fuel = Ret (Some (p + length s1)).
Proof.
  induction s1 as [|a s IH]; intros p [|fuel] H Hc Hf; simpl in *; try lia;
    apply cstr_at_cons in H as (Hp & Ha & H); rewrite (load_ret _ _ _ Hp); cbn [obind];
    rewrite decide_False by done.
  - rewrite decide_True by done. do 2 f_equal. lia.
  - rewrite decide_False by set_solver. rewrite IH by (done || set_solver || lia). do 2 f_equal. lia.
Qed.

Lemma ustrchr_none m p c s : cstr_at m p s -> c ∉ s -> ustrchr m p c = Ret None.
Proof.
  intros H Hc. pose proof (cstr_at_length _ _ _ H). eapply ustrchr_loop_none; [done|done|lia].
Qed.

Lemma ustrchr_some m p c s1 s2 : cstr_at m p (s1 ++ c :: s2) -> c ∉ s1 ->
  ustrchr m p c = Ret (Some (p + length s1)).
Proof.
  intros H Hc. pose proof (cstr_at_length _ _ _ H) as Hl. rewrite length_app in Hl. simpl in Hl.
  eapply ustrchr_loop_some; [done|done|lia].
Qed.

Lemma umemset_spec n : forall m d c, d + n <= length m ->
  umemset m d c n = Ret (splice d (replicate n c) m).
Proof.
  induction n as [|n IH]; intros m d c Hd; simpl; [by rewrite splice_nil|].
  rewrite store_ret by lia. simpl. rewrite IH by (rewrite length_insert; lia).
  rewrite splice_cons by (rewrite length_replicate; lia). done.
Qed.

Lemma umove_up_spec n : forall m d s, d + n <= length m -> s + n <= length m -> d <= s ->
  umove_up m d s n = Ret (splice d (slice s n m) m).
Proof.
  induction n as [|n IH]; intros m d s Hd Hs Ho; [by rewrite slice_0, splice_nil|].
  destruct (lookup_lt_is_Some_2 m s) as [a Ha]; [lia|].
  cbn [umove_up]. rewrite (load_ret _ _ _ Ha). cbn [obind]. rewrite store_ret by lia. cbn [obind].
  rewrite IH by (rewrite ?length_insert; lia).
  rewrite (slice_S m s n a), splice_cons by (done || rewrite length_slice; lia).
  by rewrite slice_insert_out by lia.
Qed.

Lemma umove_down_spec n : forall m d s, d + n <= length m -> s + n <= length m -> s <= d ->
  umove_down m d s n = Ret (splice d (slice s n m) m).
Proof.
  induction n as [|n IH]; intros m d s Hd Hs Ho; [by rewrite slice_0, splice_nil|].
  destruct (lookup_lt_is_Some_2 m (s + n)) as [a Ha]; [lia|].
  cbn [umove_down]. rewrite (load_ret _ _ _ Ha). cbn [obind]. rewrite store_ret by lia. cbn [obind].
  rewrite IH by (rewrite ?length_insert; lia).
  rewrite (slice_S_end m s n a), splice_snoc by (done || rewrite length_slice; lia).
  rewrite length_slice by lia. by rewrite slice_insert_out by lia.
Qed.

Lemma umemmove_spec m dst src n : dst + n <= length m -> src + n <= length m ->
  umemmove m dst src n = Ret (splice dst (slice src n m) m).
Proof.
  intros. unfold umemmove. case_decide; [apply umove_up_spec|apply umove_down_spec]; lia.
Qed.

Lemma drop_cons_inv {A} (l r : list A) i c : drop i l = c :: r -> l !! i = Some c /\ drop (S i) l = r.
Proof.
  intros E. rewrite <-(Nat.add_0_r i), <-lookup_drop, E. split; [done|].
  by rewrite Nat.add_0_r, <-Nat.add_1_r, <-drop_drop, E.
Qed.

Lemma ustrcmp_spec p q : no_nul p -> no_nul q ->
  exists z, ustrcmp (p ++ [NUL]) (q ++ [NUL]) = Ret z /\ Z.sgn z = Z.sgn (strcmp p q).
Proof.
  intros Hp Hq. unfold ustrcmp.
  cut (forall p' q' i fuel, drop i (p ++ [NUL]) = p' ++ [NUL] -> drop i (q ++ [NUL]) = q' ++ [NUL] ->
    no_nul p' -> no_nul q' -> length p' < fuel ->
    exists z, ustrcmp_loop (p ++ [NUL]) (q ++ [NUL]) i fuel = Ret z /\ Z.sgn z = Z.sgn (strcmp p' q')).
  { intros HH. apply HH; auto. rewrite length_app. simpl. lia. }
  clear Hp Hq. induction p' as [|a p' IH]; intros q' i [|fuel] Ep Eq Hp Hq Hf; simpl in Hf; try lia;
    apply drop_cons_inv in Ep as [Ep Ep'];
    cbn [ustrcmp_loop]; rewrite (load_ret _ _ _ Ep); cbn [obind].
  - destruct q' as [|b q']; apply drop_cons_inv in Eq as [Eq _];
      rewrite (load_ret _ _ _ Eq); cbn [obind];
      (rewrite decide_False by tauto); eexists; (split; [done|]); [done|].
    apply no_nul_cons in Hq as [Hb _]. apply ascii_ne_nat in Hb. cbn [strcmp].
    change (nat_of_ascii NUL) with 0 in *. lia.
  - apply no_nul_cons in Hp as [Ha Hp]. destruct q' as [|b q'];
      apply drop_cons_inv in Eq as [Eq Eq']; rewrite (load_ret _ _ _ Eq); cbn [obind strcmp].
    + rewrite decide_False by tauto. eexists. split; [done|]. apply ascii_ne_nat in Ha.
      change (nat_of_ascii NUL) with 0 in *. lia.
    + apply no_nul_cons in Hq as [Hb Hq]. destruct (decide (a = b)) as [<-|Hne].
      * rewrite decide_True by done. apply IH; auto. lia.
      * rewrite decide_False by tauto. by eexists.
Qed.

Lemma ustrcpy_spec m d t : no_nul t -> d + S (length t) <= length m ->
  ustrcpy m d (t ++ [NUL]) = Ret (splice d (t ++ [NUL]) m).
Proof.
  intros Ht Hd. unfold ustrcpy.
  cut (forall s i m fuel, drop i (t ++ [NUL]) = s ++ [NUL] -> no_nul s -> length s < fuel ->
    d + i + S (length s) <= length m ->
    ustrcpy_loop m d (t ++ [NUL]) i fuel = Ret (splice (d + i) (s ++ [NUL]) m)).
  { intros HH. rewrite (HH t); [by rewrite Nat.add_0_r|done|done|rewrite length_app; simpl; lia|lia]. }
  clear Hd Ht m. induction s as [|a s IH]; intros i m [|fuel] E Hs Hf Hm; simpl in Hf, Hm; try lia;
    apply drop_cons_inv in E as [E E'];
    cbn [ustrcpy_loop]; rewrite (load_ret _ _ _ E); cbn [obind];
    rewrite store_ret by lia; cbn [obind].
  - rewrite decide_True by done. simpl. rewrite splice_cons by (simpl; lia). by rewrite splice_nil.
  - apply no_nul_cons in Hs as [Ha Hs]. rewrite decide_False by done. rewrite IH.
    + rewrite Nat.add_succ_r. simpl. rewrite splice_cons by (rewrite length_app; simpl; lia). done.
    + done.
    + done.
    + lia.
    + rewrite length_insert. lia.
Qed.

(** [atoi] reads a string of digits whose value fits an [int], whatever
    follows it. *)
Lemma uatoi_spec s r : forallb isdigit s = true -> (digits_val s <= INT_MAX - 48)%Z ->
  match r with c :: _ => isdigit c = false | [] => True end -> uatoi (s ++ r) = Ret (digits_val s).
Proof.
  intros Hs Hv Hr. unfold uatoi, digits_val.
  set (val := foldl (fun acc c => 10 * acc + digit_val c)%Z) in *.
  assert (forall s n, forallb isdigit s = true -> (0 <= n)%Z -> (n <= val n s)%Z) as Hmono.
  { clear. induction s as [|c s IH]; intros n Hd Hn; simpl in *; [lia|]. unfold isdigit in Hd. reflect.
    assert (0 <= digit_val c)%Z by (unfold digit_val; lia).
    etrans; [|apply IH; [done|lia]]. lia. }
  cut (forall n, (0 <= n)%Z -> (val n s <= INT_MAX - 48)%Z -> uatoi_loop (s ++ r) n = Ret (val n s)).
  { intros HH. apply HH; [lia|]. exact Hv. }
  clear Hv. induction s as [|c s IH]; intros n Hn Hv; simpl.
  - destruct r as [|c r]; simpl; [done|]. by rewrite Hr.
  - simpl in Hs. apply andb_true_iff in Hs as [Hc Hs]. rewrite Hc. unfold isdigit in Hc. reflect.
    simpl in Hv. pose proof (Hmono s (10 * n + digit_val c)%Z Hs) as Hm. unfold digit_val, INT_MAX in *.
    rewrite decide_True by (unfold in_int, INT_MAX; lia).
    replace (n * 10 + Z.of_nat (nat_of_ascii c) - 48)%Z
      with (10 * n + (Z.of_nat (nat_of_ascii c) - 48))%Z by lia.
    apply IH; [done|lia|done].
Qed.

(** ** [gets] *)
Section gets_spec.
Context {W : Type} `{ReadLaws W}.

(** What [gets] takes from the input: up to and including the first newline
    or carriage return, at most [n] characters. *)
Fixpoint gets_line (n : nat) (data : cstr) : cstr :=
  match n, data with
  | S n, c :: data => if decide (c = NEWLINE \/ c = CR) then [c] else c :: gets_line n data
  | _, _ => []
  end.

Lemma gets_line_prefix n : forall data, exists rest, data = gets_line n data ++ rest.
Proof.
  induction n as [|n IH]; intros [|c data]; simpl; try by eexists.
  case_decide; [by eexists|]. destruct (IH data) as [r E]. exists r. simpl. by rewrite <-E.
Qed.

Lemma gets_line_length n : forall data, length (gets_line n data) <= n.
Proof.
  induction n as [|n IH]; intros [|c data]; simpl; try lia.
  case_decide; simpl; [lia|]. specialize (IH data). lia.
Qed.

Lemma gets_loop_spec n : forall w m b i max fuel data,
  delivers w 0 data -> n = max - 1 - i -> i < max -> n <= fuel -> b + max <= length m ->
  exists w', gets_loop w m b i max fuel =
    Ret (splice (b + i) (gets_line n data) m, i + length (gets_line n data), w') /\
    delivers w' 0 (drop (length (gets_line n data)) data).
Proof.
  induction n as [|n IH]; intros w m b i max fuel data Hw Hn Hi Hf Hm.
  { exists w. unfold gets_loop. destruct fuel; rewrite decide_False by lia; simpl;
      by rewrite splice_nil, Nat.add_0_r, drop_0. }
  destruct fuel as [|fuel]; [lia|]. cbn [gets_loop]. rewrite decide_True by lia.
  destruct data as [|c data].
  - destruct (read_end w 0 1 Hw) as (w' & -> & Hw'). cbn [gets_line length drop].
    exists w'. simpl. by rewrite splice_nil, Nat.add_0_r.
  - destruct (read_some w 0 1 (c :: data) Hw) as (k & w' & Hk & Hk' & -> & Hw'); [lia|done|].
    assert (k = 1) as -> by lia. cbn [Z.ltb Z.of_nat]. cbn [take]. simpl (Z.pos _ <? _)%Z.
    rewrite (load_ret _ _ c) by done. cbn [obind]. rewrite store_ret by lia. cbn [obind gets_line].
    case_decide.
    + exists w'. simpl. rewrite splice_cons by (simpl; lia). rewrite splice_nil. split; [|done].
      do 2 f_equal. f_equal. lia.
    + destruct (IH w' (<[b + i := c]> m) b (S i) max fuel data) as (w'' & -> & Hw''); try lia.
      { done. } { rewrite length_insert. lia. }
      exists w''. simpl. split; [|done].
      pose proof (gets_line_length n data).
      rewrite Nat.add_succ_r, <-splice_cons by lia. do 2 f_equal. f_equal. lia.
Qed.

Lemma gets_spec w m b max data : delivers w 0 data -> 0 < max -> b + max <= length m ->
  exists w', gets w m b max = Ret (splice b (gets_line (max - 1) data ++ [NUL]) m, w') /\
    delivers w' 0 (drop (length (gets_line (max - 1) data)) data).
Proof.
  intros Hw Hx Hm. unfold gets. pose proof (gets_line_length (max - 1) data).
  destruct (gets_loop_spec (max - 1) w m b 0 max max data) as (w' & -> & Hw'); try lia; [done|].
  exists w'. cbn [obind]. rewrite Nat.add_0_r, Nat.add_0_l.
  rewrite store_ret by (rewrite length_splice; lia). cbn [obind]. split; [|done]. do 2 f_equal.
  rewrite splice_snoc by lia. apply list_eq. intros j.
  assert (length (<[b + length (gets_line (max - 1) data):=NUL]> m) = length m) by apply length_insert.
  assert (length (splice b (gets_line (max - 1) data) m) = length m) by (apply length_splice; lia).
  destruct (decide (j = b + length (gets_line (max - 1) data))) as [->|].
  - rewrite list_lookup_insert_eq by lia. rewrite lookup_splice_out by lia.
    by rewrite list_lookup_insert_eq by lia.
  - rewrite list_lookup_insert_ne by lia. destruct (decide (b <= j < b + length (gets_line (max - 1) data))).
    + replace j with (b + (j - b)) by lia. by rewrite !lookup_splice_in by lia.
    + rewrite !lookup_splice_out by lia. by rewrite list_lookup_insert_ne by lia.
Qed.
End gets_spec.

(** The sum [n * 10 + *s] overflows before ['0'] is subtracted. *)
Example uatoi_int_max : uatoi (c_str "2147483647") = Undef.
Proof. reflexivity. Qed.
