(* ===== verification/Printf.v ===== *)
(** * Formatted output

    [user/printf.c], and the part of [kernel/printk.c] that is the same code.
    What a function writes is the list of the characters it hands to [putc],
    each of which is one call of [write] (or of [consputc] in the kernel).

    [printint] never leaves its array of 20 characters and prints the numeral
    of its argument; [vprintf] prints every format made of the conversions it
    knows as the concatenation of its parts; [atoi] reads back what [%d]
    prints. *)

From S2P Require Import Prelude Bytes Ulib.

Local Open Scope nat_scope.

(** [up] selects the letters of hexadecimal digits: capital in the programs,
    small in the kernel. *)
Section printf.
Context (up : bool).

(** ** The code *)
Definition digits : cstr := c_str (if up then "0123456789ABCDEF" else "0123456789abcdef").

Definition LLONG_MIN : Z := -9223372036854775808.

(** The conversion of an [unsigned long long] to [long long]. *)
Definition s64 (z : Z) : Z := ((z + 9223372036854775808) `mod` 18446744073709551616 - 9223372036854775808)%Z.

Fixpoint digit_loop (b : buf) (i : nat) (x base : Z) (fuel : nat) : outcome (buf * nat) :=
  match fuel with
  | 0 => NoFuel
  | S fuel =>
      let* d := load digits (Z.to_nat (x `mod` base)) in
      let* b := buf_store b i d in
      let x := (x `div` base)%Z in
      if (x =? 0)%Z then Ret (b, S i) else digit_loop b (S i) x base fuel
  end.

(** [while (--i >= 0) putc(fd, buf[i])] *)
Fixpoint put_back (b : buf) (i : nat) : outcome cstr :=
  match i with
  | 0 => Ret []
  | S i =>
      match b !! i with
      | Some (Some c) => let* out := put_back b i in Ret (c :: out)
      | _ => Undef
      end
  end.

Definition printint (xx base : Z) (sgn : bool) : outcome cstr :=
  let* '(neg, x) :=
    if sgn && (xx <? 0)%Z then
      (if decide (xx = LLONG_MIN) then Undef else Ret (true, u64 (- xx)))
    else Ret (false, u64 xx) in
  let* '(b, i) := digit_loop (buf_alloc 20) 0 x base 65 in
  let* '(b, i) :=
    if neg : bool then let* b := buf_store b i "-"%char in Ret (b, S i) else Ret (b, i) in
  put_back b i.

Fixpoint printptr_loop (x : Z) (n : nat) : outcome cstr :=
  match n with
  | 0 => Ret []
  | S n =>
      let* d := load digits (Z.to_nat (Z.shiftr x 60)) in
      let* out := printptr_loop (u64 (Z.shiftl x 4)) n in
      Ret (d :: out)
  end.

Definition printptr (x : Z) : outcome cstr :=
  let* out := printptr_loop x 16 in
  Ret ("0"%char :: "x"%char :: out).

(** The variable arguments: a register with a number or with a string pointer;
    [None] is the null pointer.  To take one of the wrong sort, or one too
    many, is undefined. *)
Inductive varg := AInt (z : Z) | AStr (s : option cstr).

Definition va_int (ap : list varg) : outcome (Z * list varg) :=
  match ap with
  | AInt z :: ap => Ret (z, ap)
  | _ => Undef
  end.

Definition va_str (ap : list varg) : outcome (option cstr * list varg) :=
  match ap with
  | AStr s :: ap => Ret (s, ap)
  | _ => Undef
  end.

(** One conversion: what it prints, the arguments left and the characters of
    the format skipped beyond the first. *)
Definition number (cast : Z -> Z) (base : Z) (sgn : bool) (skip : nat) (ap : list varg)
  : outcome (cstr * list varg * nat) :=
  let* '(z, ap) := va_int ap in
  let* out := printint (cast z) base sgn in
  Ret (out, ap, skip).

Definition conversion (c0 c1 c2 : ascii) (ap : list varg) : outcome (cstr * list varg * nat) :=
  let eqc (c : ascii) (d : ascii) := bool_decide (c = d) in
  if eqc c0 "d"%char then number wrap32 10 true 0 ap
  else if eqc c0 "l"%char && eqc c1 "d"%char then number (fun z => s64 (u64 z)) 10 true 1 ap
  else if eqc c0 "l"%char && eqc c1 "l"%char && eqc c2 "d"%char then
    number (fun z => s64 (u64 z)) 10 true 2 ap
  else if eqc c0 "u"%char then number u32 10 false 0 ap
  else if eqc c0 "l"%char && eqc c1 "u"%char then number (fun z => s64 (u64 z)) 10 false 1 ap
  else if eqc c0 "l"%char && eqc c1 "l"%char && eqc c2 "u"%char then
    number (fun z => s64 (u64 z)) 10 false 2 ap
  else if eqc c0 "x"%char then number u32 16 false 0 ap
  else if eqc c0 "l"%char && eqc c1 "x"%char then number (fun z => s64 (u64 z)) 16 false 1 ap
  else if eqc c0 "l"%char && eqc c1 "l"%char && eqc c2 "x"%char then
    number (fun z => s64 (u64 z)) 16 false 2 ap
  else if eqc c0 "p"%char then
    let* '(z, ap) := va_int ap in
    let* out := printptr (u64 z) in
    Ret (out, ap, 0)
  else if eqc c0 "c"%char then
    let* '(z, ap) := va_int ap in
    Ret ([ascii_of_nat (Z.to_nat (u32 z `mod` 256))], ap, 0)
  else if eqc c0 "s"%char then
    let* '(s, ap) := va_str ap in
    Ret (match s with Some s => s | None => c_str "(null)" end, ap, 0)
  else if eqc c0 "%"%char then Ret (["%"%char], ap, 0)
  else Ret (["%"%char; c0], ap, 0).

(** [state] is ['%'] after a per cent sign. *)
Fixpoint vprintf_loop (fmt : cstr) (i : nat) (state : bool) (ap : list varg) (fuel : nat)
  : outcome cstr :=
  match fuel with
  | 0 => NoFuel
  | S fuel =>
      let at_ j := load (fmt ++ [NUL]) j in
      let* c0 := at_ i in
      if decide (c0 = NUL) then Ret []
      else if negb state then
        if decide (c0 = "%"%char) then vprintf_loop fmt (S i) true ap fuel
        else let* out := vprintf_loop fmt (S i) false ap fuel in Ret (c0 :: out)
      else
        let* c1 := at_ (i + 1) in
        let* c2 := if decide (c1 = NUL) then Ret NUL else at_ (i + 2) in
        let* '(text, ap, skip) := conversion c0 c1 c2 ap in
        let* out := vprintf_loop fmt (i + skip + 1) false ap fuel in
        Ret (text ++ out)
  end.

(** What [vprintf] writes to its descriptor; [fprintf] and [printf] only
    collect the arguments. *)
Definition vprintf (fmt : cstr) (ap : list varg) : outcome cstr :=
  vprintf_loop fmt 0 false ap (S (length fmt)).

(** ** Numerals

    The digits of [x] in base [base], the least significant first. *)
Fixpoint num_rev (base x : Z) (fuel : nat) : cstr :=
  match fuel with
  | 0 => []
  | S fuel =>
      let d := default NUL (digits !! Z.to_nat (x `mod` base)) in
      if (x `div` base =? 0)%Z then [d] else d :: num_rev base (x `div` base) fuel
  end.

Definition num_text (base x : Z) : cstr := reverse (num_rev base x 65).

Definition hex_val (c : ascii) : Z :=
  let n := Z.of_nat (nat_of_ascii c) in
  if isdigit c then digit_val c else if (n <? 97)%Z then (n - 55)%Z else (n - 87)%Z.

(** [numeral base x s]: the text [s] consists of digits of the base, has the
    value [x] and no needless zero in front. *)
Definition numeral (base x : Z) (s : cstr) : Prop :=
  Forall (fun c => c ∈ take (Z.to_nat base) digits) s /\
  foldl (fun acc c => acc * base + hex_val c)%Z 0%Z s = x /\
  s <> [] /\ (head s = Some "0"%char -> s = ["0"%char]).

Lemma digits_lookup d : (0 <= d < 16)%Z -> exists c,
  digits !! Z.to_nat d = Some c /\ hex_val c = d /\ (c = "0"%char -> d = 0%Z).
Proof.
  intros Hd. unfold digits. remember (Z.to_nat d) as n eqn:En.
  assert (d = Z.of_nat n) as -> by lia. assert (n < 16) as Hn by lia. clear -Hn.
  destruct up; do 16 (destruct n as [|n];
    [eexists; split; [reflexivity|]; split; [done|intros E; (done || discriminate E)]|]); lia.
Qed.

(** One turn of the loop: the lowest digit and the rest. *)
Lemma num_rev_S base x fuel : (2 <= base <= 16)%Z -> (0 <= x)%Z -> exists c,
  digits !! Z.to_nat (x `mod` base) = Some c /\ hex_val c = (x `mod` base)%Z /\
  (c = "0"%char -> x `mod` base = 0)%Z /\
  num_rev base x (S fuel) = c :: (if (x `div` base =? 0)%Z then [] else num_rev base (x `div` base) fuel).
Proof.
  intros Hb Hx. pose proof (Z.mod_pos_bound x base).
  destruct (digits_lookup (x `mod` base)) as (c & Hc & Hv & H0); [lia|].
  exists c. repeat split; try done. cbn [num_rev]. rewrite Hc. simpl. by destruct (_ =? _)%Z.
Qed.

Lemma num_rev_numeral base k : (2 <= base <= 16)%Z -> forall x fuel,
  (0 <= x < base ^ Z.of_nat (S k))%Z -> S k <= fuel ->
  length (num_rev base x fuel) <= S k /\ numeral base x (reverse (num_rev base x fuel)).
Proof.
  intros Hb. induction k as [|k IH]; intros x [|fuel] Hx Hf; try lia;
    destruct (num_rev_S base x fuel Hb) as (c & Hc & Hv & H0 & ->); try lia;
    pose proof (Z.mod_pos_bound x base); pose proof (Z.div_mod x base);
    assert (c ∈ take (Z.to_nat base) digits) by
      (apply list_elem_of_lookup; exists (Z.to_nat (x `mod` base)); rewrite lookup_take_lt by lia; done).
  1: assert (x `div` base = 0)%Z as E by (apply Z.div_small; lia); rewrite E; simpl.
  2: destruct (Z.eqb_spec (x `div` base) 0) as [E|E].
  1, 2: rewrite E in *; simpl; split; [lia|]; split; [by repeat constructor|];
    split; [simpl; lia|]; split; [done|]; intros [= ->]; done.
  assert (0 <= x `div` base < base ^ Z.of_nat (S k))%Z as Hd.
  { split; [apply Z.div_pos; lia|]. apply Z.div_lt_upper_bound; [lia|].
    rewrite <-Z.pow_succ_r, <-Nat2Z.inj_succ by lia. apply Hx. }
  destruct (IH _ fuel Hd) as (Hl & HF & Hval & Hne & Hz); [lia|].
  split; [simpl; lia|]. rewrite reverse_cons. split; [apply Forall_app; by repeat constructor|].
  split; [rewrite foldl_app, Hval; simpl; lia|]. split; [by destruct (reverse _)|].
  destruct (reverse (num_rev base (x `div` base) fuel)) as [|d r] eqn:Er; [done|].
  simpl. intros [= ->]. specialize (Hz eq_refl). simplify_eq/=.
Qed.

Lemma digit_loop_spec base k : (2 <= base <= 16)%Z -> forall b i x fuel,
  (0 <= x < base ^ Z.of_nat (S k))%Z -> S k <= fuel -> i + S k <= length b ->
  digit_loop b i x base fuel =
    Ret (splice i (Some <$> num_rev base x fuel) b, i + length (num_rev base x fuel)).
Proof.
  intros Hb. induction k as [|k IH]; intros b i x [|fuel] Hx Hf Hl; try lia;
    destruct (num_rev_S base x fuel Hb) as (c & Hc & Hv & H0 & ->); try lia;
    cbn [digit_loop]; rewrite (load_ret _ _ _ Hc); cbn [obind]; unfold buf_store;
    rewrite decide_True by lia; cbn [obind].
  1: assert (x `div` base = 0)%Z as E by (apply Z.div_small; lia); rewrite E; simpl.
  2: destruct (Z.eqb_spec (x `div` base) 0) as [E|E].
  1, 2: simpl; rewrite splice_cons, splice_nil by (simpl; lia); do 2 f_equal; lia.
  assert (0 <= x `div` base < base ^ Z.of_nat (S k))%Z as Hd.
  { split; [apply Z.div_pos; lia|]. apply Z.div_lt_upper_bound; [lia|].
    rewrite <-Z.pow_succ_r, <-Nat2Z.inj_succ by lia. apply Hx. }
  rewrite IH by (done || rewrite ?length_insert; lia).
  destruct (num_rev_numeral base k Hb _ fuel Hd) as (Hn & _); [lia|].
  rewrite fmap_cons, splice_cons by (rewrite length_fmap; lia). simpl. do 2 f_equal. lia.
Qed.

Lemma put_back_spec b ds : length ds <= length b ->
  put_back (splice 0 (Some <$> ds) b) (length ds) = Ret (reverse ds).
Proof.
  revert b. induction ds as [|c ds IH] using rev_ind; intros b Hl; [done|].
  rewrite length_app, fmap_app in *. simpl in *. rewrite Nat.add_1_r. cbn [put_back].
  pose proof (lookup_splice_in 0 ((Some <$> ds) ++ [Some c]) b (length ds)) as Hc.
  rewrite length_app, length_fmap in Hc. simpl in Hc. rewrite Hc by lia. clear Hc.
  rewrite lookup_app_r, length_fmap, Nat.sub_diag by (rewrite length_fmap; lia). simpl.
  rewrite splice_snoc by (rewrite length_fmap; lia). rewrite IH by (rewrite length_insert; lia).
  simpl. by rewrite reverse_app.
Qed.

(** The sign and the magnitude of what is printed. *)
Definition int_text (base : Z) (sgn : bool) (xx : Z) : cstr :=
  if sgn && (xx <? 0)%Z then "-"%char :: num_text base (- xx) else num_text base (u64 xx).

Lemma printint_spec xx base sgn : (10 <= base <= 16)%Z ->
  (LLONG_MIN < xx < - LLONG_MIN)%Z \/ sgn = false ->
  printint xx base sgn = Ret (int_text base sgn xx).
Proof.
  intros Hb Hx. unfold printint, int_text, num_text, LLONG_MIN in *.
  assert (10 ^ 20 <= base ^ Z.of_nat 20)%Z by (apply Z.pow_le_mono_l; lia).
  assert (10 ^ 19 <= base ^ Z.of_nat 19)%Z by (apply Z.pow_le_mono_l; lia).
  destruct (sgn && (xx <? 0)%Z) eqn:Es.
  - reflect. rewrite decide_False by (destruct Hx; [lia|congruence]). cbn [obind].
    destruct Hx as [Hx|]; [|congruence]. unfold u64. rewrite Z.mod_small by lia.
    assert (0 <= - xx < base ^ Z.of_nat 19)%Z as Hr by lia.
    rewrite (digit_loop_spec base 18); [|lia|exact Hr|lia|unfold buf_alloc; rewrite length_replicate; lia].
    destruct (num_rev_numeral base 18) with (x := (- xx)%Z) (fuel := 65) as (Hn & _);
      [lia|exact Hr|lia|].
    cbn [obind]. rewrite Nat.add_0_l. unfold buf_store.
    generalize dependent (num_rev base (- xx) 65). intros ds Hn. clear - Hn.
    assert (length (buf_alloc 20) = 20) as H20 by done.
    rewrite decide_True by (rewrite length_splice; rewrite ?length_fmap; lia). cbn [obind].
    replace (<[length ds:=Some "-"%char]> (splice 0 (Some <$> ds) (buf_alloc 20)))
      with (splice 0 (Some <$> (ds ++ ["-"%char])) (buf_alloc 20)).
    { replace (S (length ds)) with (length (ds ++ ["-"%char])) by (rewrite length_app; simpl; lia).
      rewrite put_back_spec by (rewrite length_app; simpl; lia). by rewrite reverse_app. }
    rewrite fmap_app. unfold splice. simpl. rewrite length_app, <-app_assoc. simpl.
    rewrite insert_app_r_alt by (rewrite length_fmap; lia). rewrite length_fmap, Nat.sub_diag. f_equal.
    destruct (drop (length ds) _) as [|y l] eqn:Ed.
    { apply (f_equal length) in Ed. rewrite length_drop in Ed. simpl in Ed. lia. }
    simpl. f_equal. rewrite <-drop_drop, Ed. done.
  - pose proof (Z.mod_pos_bound xx 18446744073709551616). cbn [obind].
    assert (0 <= u64 xx < base ^ Z.of_nat 20)%Z as Hr by (unfold u64; lia).
    rewrite (digit_loop_spec base 19); [|lia|exact Hr|lia|unfold buf_alloc; rewrite length_replicate; lia].
    destruct (num_rev_numeral base 19) with (x := u64 xx) (fuel := 65) as (Hn & _);
      [lia|exact Hr|lia|].
    cbn [obind]. apply put_back_spec. done.
Qed.

(** C31.  [printint] stays inside its array of 20 characters for every base
    from ten to sixteen and every argument of its type, but for the least
    [long long] printed with a sign, whose negation overflows; what it prints
    is the numeral of its argument. *)
Theorem printint_bounds (xx base : Z) (sgn : bool) (Hb : (10 <= base <= 16)%Z)
    (Hx : (LLONG_MIN <= xx < - LLONG_MIN)%Z) :
  let neg := sgn && (xx <? 0)%Z in
  if decide (xx = LLONG_MIN /\ sgn = true) then printint xx base sgn = Undef
  else exists s, printint xx base sgn = Ret (if neg then "-"%char :: s else s) /\
    numeral base (if neg then - xx else u64 xx)%Z s.
Proof.
  intros neg. case_decide as Hm; [destruct Hm as [-> ->]; done|].
  exists (num_text base (if neg then - xx else u64 xx)%Z).
  assert (10 ^ 20 <= base ^ Z.of_nat 20)%Z by (apply Z.pow_le_mono_l; lia).
  unfold LLONG_MIN in *. split.
  - rewrite printint_spec; [|done|destruct sgn; [left; unfold LLONG_MIN; lia|by right]].
    unfold int_text. subst neg. by destruct (sgn && (xx <? 0)%Z).
  - apply (num_rev_numeral base 19); [lia| |lia]. subst neg. pose proof (Z.mod_pos_bound xx 18446744073709551616).
    unfold u64. destruct (sgn && (xx <? 0)%Z) eqn:E; [reflect|]; lia.
Qed.

(** ** Formats

    A format as a list of parts: a plain character, a number with its length
    modifier and its conversion, a pointer, a character, a string, a per cent
    sign. *)
Inductive width := W32 | WL | WLL.
#[global] Instance width_eq_dec : EqDecision width.
Proof. solve_decision. Defined.

Inductive conv := CD | CU | CX.
Inductive piece :=
| PLit (c : ascii) | PNum (w : width) (f : conv) (z : Z)
| PPtr (z : Z) | PChar (z : Z) | PStr (s : option cstr) | PPct.

Definition letter (f : conv) : ascii := match f with CD => "d" | CU => "u" | CX => "x" end%char.
Definition modifier (w : width) : cstr := c_str match w with W32 => "" | WL => "l" | WLL => "ll" end.

Definition piece_fmt (p : piece) : cstr :=
  match p with
  | PLit c => [c]
  | PNum w f _ => "%"%char :: modifier w ++ [letter f]
  | PPtr _ => ["%"; "p"]%char
  | PChar _ => ["%"; "c"]%char
  | PStr _ => ["%"; "s"]%char
  | PPct => ["%"; "%"]%char
  end.

Definition piece_arg (p : piece) : list varg :=
  match p with
  | PNum _ _ z | PPtr z | PChar z => [AInt z]
  | PStr s => [AStr s]
  | _ => []
  end.

(** The sixteen hexadecimal digits of a pointer. *)
Definition ptr_text (z : Z) : cstr :=
  (fun i => default NUL (digits !! Z.to_nat (Z.shiftr z (60 - 4 * Z.of_nat i) `mod` 16))) <$> seq 0 16.

Definition piece_text (p : piece) : cstr :=
  match p with
  | PLit c => [c]
  | PNum w CD z =>
      let z := match w with W32 => wrap32 z | _ => s64 z end in
      if (z <? 0)%Z then "-"%char :: num_text 10 (- z) else num_text 10 z
  | PNum w f z =>
      num_text (match f with CX => 16 | _ => 10 end)%Z (match w with W32 => u32 z | _ => u64 z end)
  | PPtr z => c_str "0x" ++ ptr_text (u64 z)
  | PChar z => [ascii_of_nat (Z.to_nat (u32 z `mod` 256))]
  | PStr s => match s with Some s => s | None => c_str "(null)" end
  | PPct => ["%"%char]
  end.

(** What a part may be: no per cent sign or NUL as a plain character, and not
    the one number that [printint] cannot negate. *)
Definition piece_ok (p : piece) : Prop :=
  match p with
  | PLit c => c <> "%"%char /\ c <> NUL
  | PNum w CD z => w = W32 \/ s64 z <> LLONG_MIN
  | _ => True
  end.

#[global] Instance piece_ok_dec p : Decision (piece_ok p).
Proof. destruct p as [| ? [] ?| | | |]; simpl; apply _. Defined.

Lemma s64_u64 z : s64 (u64 z) = s64 z.
Proof. unfold s64, u64. by rewrite Zplus_mod_idemp_l. Qed.

Lemma u64_s64 z : u64 (s64 z) = u64 z.
Proof.
  unfold s64, u64. rewrite Zminus_mod_idemp_l. f_equal. lia.
Qed.

Lemma s64_range z : (LLONG_MIN <= s64 z < - LLONG_MIN)%Z.
Proof. unfold s64, LLONG_MIN. pose proof (Z.mod_pos_bound (z + 9223372036854775808) 18446744073709551616). lia. Qed.

Lemma nibble_shift x k : (4 <= k <= 60)%Z ->
  (Z.shiftr (u64 (Z.shiftl x 4)) k `mod` 16 = Z.shiftr x (k - 4) `mod` 16)%Z.
Proof.
  intros Hk. unfold u64. change 16%Z with (2 ^ 4)%Z. change 18446744073709551616%Z with (2 ^ 64)%Z.
  apply Z.bits_inj'. intros n Hn. destruct (Z.lt_ge_cases n 4).
  - rewrite !Z.mod_pow2_bits_low by lia. rewrite !Z.shiftr_spec by lia.
    rewrite Z.mod_pow2_bits_low by lia. rewrite Z.shiftl_spec by lia. f_equal. lia.
  - by rewrite !Z.mod_pow2_bits_high by lia.
Qed.

Lemma printptr_loop_spec n : forall x, (0 <= x < 18446744073709551616)%Z -> n <= 16 ->
  printptr_loop x n = Ret ((fun i => default NUL
    (digits !! Z.to_nat (Z.shiftr x (60 - 4 * Z.of_nat i) `mod` 16))) <$> seq 0 n).
Proof.
  induction n as [|n IH]; intros x Hx Hn; [done|].
  cbn [printptr_loop seq]. rewrite fmap_cons, <-fmap_S_seq, <-list_fmap_compose.
  assert (0 <= Z.shiftr x 60 < 16)%Z as Hs.
  { rewrite Z.shiftr_div_pow2 by lia. split; [apply Z.div_pos; lia|apply Z.div_lt_upper_bound; lia]. }
  destruct (digits_lookup _ Hs) as (c & Hc & _). rewrite (load_ret _ _ _ Hc). cbn [obind].
  rewrite IH by (done || lia || apply Z.mod_pos_bound; lia). cbn [obind].
  change (60 - 4 * Z.of_nat 0)%Z with 60%Z. rewrite Z.mod_small, Hc by lia. simpl. do 2 f_equal.
  apply list_fmap_ext. intros j i Hi. apply lookup_seq in Hi as [-> Hi]. simpl.
  rewrite nibble_shift by lia. do 4 f_equal. f_equal. lia.
Qed.

Lemma printptr_spec z : printptr (u64 z) = Ret (c_str "0x" ++ ptr_text (u64 z)).
Proof.
  unfold printptr. rewrite printptr_loop_spec by (lia || (apply Z.mod_pos_bound; lia)). done.
Qed.

Lemma number_spec w f z rest : w = W32 \/ f <> CD \/ s64 z <> LLONG_MIN ->
  number (match w, f with W32, CD => wrap32 | W32, _ => u32 | _, _ => fun z => s64 (u64 z) end)
    (match f with CX => 16 | _ => 10 end)%Z (match f with CD => true | _ => false end)
    (length (modifier w)) (AInt z :: rest) = Ret (piece_text (PNum w f z), rest, length (modifier w)).
Proof.
  intros Hok. unfold number. cbn [va_int obind].
  assert (-2147483648 <= wrap32 z <= INT_MAX)%Z as Hw.
  { unfold wrap32, INT_MAX. pose proof (Z.mod_pos_bound (z + 2147483648) 4294967296). lia. }
  pose proof (s64_range z) as Hs. pose proof (u32_range z) as Hu.
  unfold LLONG_MIN, INT_MAX in *. destruct f.
  - rewrite printint_spec; [|lia|left; unfold LLONG_MIN; destruct w, Hok as [|[]]; rewrite ?s64_u64; first [done|lia]].
    cbn [obind]. do 2 f_equal. unfold int_text, piece_text. destruct w; rewrite ?s64_u64; simpl;
      (destruct (Z.ltb_spec (wrap32 z) 0), (Z.ltb_spec (s64 z) 0); rewrite ?u64_small by lia; done).
  - rewrite printint_spec by (lia || auto). cbn [obind]. do 2 f_equal. unfold int_text, piece_text.
    destruct w; simpl; by rewrite ?s64_u64, ?u64_s64, ?(u64_small (u32 z)) by lia.
  - rewrite printint_spec by (lia || auto). cbn [obind]. do 2 f_equal. unfold int_text, piece_text.
    destruct w; simpl; by rewrite ?s64_u64, ?u64_s64, ?(u64_small (u32 z)) by lia.
Qed.

(** The characters read at a per cent sign, [rest] the format behind the
    letter. *)
Lemma format_loads fmt i c0 rest : drop i fmt = "%"%char :: c0 :: rest -> no_nul (c0 :: rest) ->
  load (fmt ++ [NUL]) i = Ret "%"%char /\ load (fmt ++ [NUL]) (S i) = Ret c0 /\
  load (fmt ++ [NUL]) (S i + 1) = Ret (hd NUL rest) /\
  (if decide (hd NUL rest = NUL) then Ret NUL else load (fmt ++ [NUL]) (S i + 2)) = Ret (hd NUL (tail rest)).
Proof.
  intros Hd Hn. apply no_nul_cons in Hn as [H0 Hn].
  assert (drop i (fmt ++ [NUL]) = "%"%char :: c0 :: rest ++ [NUL]) as Hd'.
  { assert (i < length fmt). { apply (f_equal length) in Hd. rewrite length_drop in Hd. simpl in Hd. lia. }
    rewrite drop_app_le, Hd by lia. done. }
  apply drop_cons_inv in Hd' as [E0 Hd']. apply drop_cons_inv in Hd' as [E1 Hd'].
  replace (S i + 1) with (S (S i)) by lia. replace (S i + 2) with (S (S (S i))) by lia.
  split; [by apply load_ret|]. split; [by apply load_ret|]. split.
  - destruct rest; apply drop_cons_inv in Hd' as [E2 _]; by apply load_ret.
  - destruct rest as [|c1 rest]; [done|]. apply no_nul_cons in Hn as [H1 _]. simpl hd.
    rewrite decide_False by done. apply drop_cons_inv in Hd' as [_ Hd'].
    destruct rest; apply drop_cons_inv in Hd' as [Hd' _]; by rewrite (load_ret _ _ _ Hd').
Qed.

(** One conversion of the loop. *)
Lemma vprintf_percent fmt i ap fuel c0 rest :
  drop i fmt = "%"%char :: c0 :: rest -> no_nul (c0 :: rest) ->
  vprintf_loop fmt i false ap (S (S fuel)) =
    (let* '(text, ap, skip) := conversion c0 (hd NUL rest) (hd NUL (tail rest)) ap in
     let* out := vprintf_loop fmt (S (S i) + skip) false ap fuel in Ret (text ++ out)).
Proof.
  intros Hd Hn. destruct (format_loads _ _ _ _ Hd Hn) as (E0 & E1 & E2 & E3). apply no_nul_cons in Hn as [H0 _].
  cbn [vprintf_loop]. rewrite E0. cbn [obind negb]. rewrite decide_False by done.
  rewrite E1. cbn [obind]. rewrite (decide_False (P := c0 = NUL)) by done.
  rewrite E2. cbn [obind]. rewrite E3. cbn [obind].
  destruct (conversion _ _ _ _) as [[[text ap'] skip]| | | |]; cbn [obind]; try done.
  replace (S i + skip + 1) with (S (S i) + skip) by lia. done.
Qed.

#[local] Opaque number.

(** What a part other than a plain character converts to. *)
Lemma conversion_piece p c0 r rest ap : piece_ok p -> piece_fmt p = "%"%char :: c0 :: r ->
  conversion c0 (hd NUL (r ++ rest)) (hd NUL (tail (r ++ rest))) (piece_arg p ++ ap) =
    Ret (piece_text p, ap, length r).
Proof.
  intros Hok. destruct p as [c|w f z|z|z|s|]; simpl piece_fmt; intros E; try (by simplify_eq).
  - pose proof (number_spec w f z ap) as H. simpl piece_arg.
    assert (w = W32 \/ f <> CD \/ s64 z <> LLONG_MIN) as Hx by (destruct f; simpl in Hok; tauto || auto).
    specialize (H Hx). destruct w, f; simpl in E; injection E as <- <-; unfold conversion;
      cbn [app hd tail]; rewrite ?bool_decide_eq_true_2 by done;
      rewrite ?bool_decide_eq_false_2 by done; exact H.
  - injection E as <- <-. unfold conversion. rewrite ?bool_decide_eq_true_2 by done.
    rewrite ?bool_decide_eq_false_2 by done. cbn [andb piece_arg app va_int obind].
    rewrite printptr_spec. done.
Qed.

Lemma piece_shape p : (exists c, p = PLit c) \/ exists c0 r, piece_fmt p = "%"%char :: c0 :: r.
Proof. destruct p as [|[] ? ?| | | |]; simpl; eauto. Qed.

Lemma piece_fmt_no_nul p : piece_ok p -> no_nul (piece_fmt p).
Proof.
  destruct p as [c|w f z| | | |]; [intros [_ Hc]|intros _..].
  1: unfold no_nul; simpl; set_solver.
  1: destruct w, f.
  all: apply (bool_decide_unpack _); vm_compute; exact I.
Qed.

(** A format behind its first part. *)
Lemma format_rest fmt p qs i : Forall piece_ok (p :: qs) -> drop i fmt = concat (piece_fmt <$> p :: qs) ->
  i <= length fmt -> i + length (piece_fmt p) <= length fmt /\
  drop (i + length (piece_fmt p)) fmt = concat (piece_fmt <$> qs) /\ no_nul (concat (piece_fmt <$> qs)).
Proof.
  intros Hok Hd Hi. apply Forall_cons in Hok as [Hp Hok]. simpl in Hd.
  split; [apply (f_equal length) in Hd; rewrite length_drop, length_app in Hd; lia|].
  split; [rewrite <-drop_drop, Hd; by rewrite drop_app_length|].
  unfold no_nul. intros (l & Hl1 & Hl2)%list_elem_of_In%in_concat. apply list_elem_of_In in Hl1, Hl2.
  apply list_elem_of_fmap in Hl1 as (q & -> & Hq).
  rewrite Forall_forall in Hok. by apply (piece_fmt_no_nul q (Hok _ Hq)).
Qed.

Lemma vprintf_spec (ps : list piece) (Hok : Forall piece_ok ps) :
  vprintf (concat (piece_fmt <$> ps)) (concat (piece_arg <$> ps)) = Ret (concat (piece_text <$> ps)).
Proof.
  unfold vprintf. set (fmt := concat (piece_fmt <$> ps)).
  cut (forall qs i fuel, Forall piece_ok qs -> drop i fmt = concat (piece_fmt <$> qs) ->
    i <= length fmt -> length (concat (piece_fmt <$> qs)) < fuel ->
    vprintf_loop fmt i false (concat (piece_arg <$> qs)) fuel = Ret (concat (piece_text <$> qs))).
  { intros HH. apply HH; auto; lia. }
  clear Hok. induction qs as [|p qs IH]; intros i fuel Hok Hd Hi Hf; simpl in Hf.
  { destruct fuel; [lia|]. simpl in Hd. apply (f_equal length) in Hd. rewrite length_drop in Hd. simpl in Hd.
    cbn [vprintf_loop]. rewrite (load_ret _ _ NUL); [done|].
    rewrite lookup_app_r by lia. by replace (i - length fmt) with 0 by lia. }
  destruct (format_rest fmt p qs i Hok Hd Hi) as (Hl & Hd2 & Hn).
  apply Forall_cons in Hok as [Hp Hok]. simpl in Hd. rewrite length_app in Hf.
  destruct (piece_shape p) as [[c ->]|(c0 & r & Ef)].
  - destruct fuel as [|fuel]; [simpl in Hf; lia|]. cbn [vprintf_loop]. destruct Hp as [Hp1 Hp2].
    rewrite (load_ret _ _ c).
    2: { rewrite lookup_app_l by (simpl in Hl; lia). by apply drop_cons_inv in Hd as [? _]. }
    cbn [obind negb]. rewrite !decide_False by done. simpl in *. rewrite <-Nat.add_1_r.
    rewrite IH; [done|done|done|lia|by apply Nat.succ_lt_mono].
  - pose proof (piece_fmt_no_nul p Hp) as Hnp. pose proof (conversion_piece p c0 r) as Hc.
    specialize (Hc (concat (piece_fmt <$> qs)) (concat (piece_arg <$> qs)) Hp Ef).
    rewrite Ef in Hd, Hf, Hl, Hd2, Hnp. simpl in Hf, Hl. destruct fuel as [|[|fuel]]; [lia..|].
    rewrite fmap_cons. simpl concat.
    rewrite (vprintf_percent fmt i _ fuel c0 (r ++ concat (piece_fmt <$> qs))) by
      (done || apply no_nul_cons in Hnp as [_ Hnp]; apply no_nul_cons in Hnp as [? ?];
        by apply no_nul_cons; rewrite no_nul_app).
    rewrite Hc. cbn [obind]. replace (S (S i) + length r) with (i + S (S (length r))) by lia.
    rewrite IH; [done|done|done|lia|].
    change (list_fmap piece cstr piece_fmt qs) with (piece_fmt <$> qs) in Hf. lia.
Qed.

(** [vprintf] prints every format made of plain characters and of the
    conversions it knows, with or without length modifiers, as the
    concatenation of what the parts stand for, and takes the arguments in
    order. *)
Theorem vprintf_prints (ps : list piece) (Hok : Forall piece_ok ps) :
  vprintf (concat (piece_fmt <$> ps)) (concat (piece_arg <$> ps)) = Ret (concat (piece_text <$> ps)).
Proof. by apply vprintf_spec. Qed.

(** [atoi] reads back what [%d] prints.  The bound leaves out the last numbers
    below [INT_MAX], for which the sum [n * 10 + *s] of [atoi] overflows before
    ['0'] is subtracted. *)
Lemma numeral_10 x s : numeral 10 x s -> forallb isdigit s = true /\ digits_val s = x.
Proof.
  intros (HF & <- & _). unfold digits_val. generalize 0%Z.
  assert (forall c, c ∈ take (Z.to_nat 10) digits -> isdigit c = true) as Hd.
  { intros c Hc. assert (c ∈ c_str "0123456789") as Hc' by (unfold digits in Hc; by destruct up).
    clear Hc. rename Hc' into Hc. simpl in Hc.
    repeat (apply elem_of_cons in Hc as [->|Hc]; [done|]). set_solver. }
  induction HF as [|c s Hc HF IH]; intros n; simpl; [done|].
  rewrite (Hd c Hc). destruct (IH (n * 10 + hex_val c)%Z) as [-> <-]. split; [done|].
  f_equal. unfold hex_val. rewrite (Hd c Hc). lia.
Qed.

Lemma atoi_vprintf z r : (0 <= z <= INT_MAX - 48)%Z ->
  match r with c :: _ => isdigit c = false | [] => True end ->
  exists s, vprintf (c_str "%d") [AInt z] = Ret s /\ uatoi (s ++ r) = Ret z.
Proof.
  intros Hz Hr. exists (num_text 10 z). unfold INT_MAX in *.
  destruct (numeral_10 z (num_text 10 z)) as [Hd Hv].
  { apply (num_rev_numeral 10 19); lia. }
  split.
  - pose proof (vprintf_spec [PNum W32 CD z]) as H. simpl concat in H. rewrite app_nil_r in H.
    rewrite wrap32_small in H by (unfold INT_MAX; lia). destruct (Z.ltb_spec z 0); [lia|].
    apply H. repeat constructor.
  - rewrite <-Hv at 2. apply uatoi_spec; [done|rewrite Hv; unfold INT_MAX; lia|done].
Qed.
End printf.

Lemma printint_bounds_witness :
  exists s, printint true (-9223372036854775807) 10 true = Ret ("-"%char :: s) /\
    numeral true 10 9223372036854775807 s.
Proof. apply (printint_bounds true (-9223372036854775807) 10 true); unfold LLONG_MIN; lia. Defined.

Lemma vprintf_prints_witness :
  vprintf true (c_str "n=%d, %lx%% of %s") [AInt (-12); AInt 255; AStr (Some (c_str "it"))] =
    Ret (c_str "n=-12, FF% of it").
Proof.
  apply (vprintf_prints true [PLit "n"; PLit "="; PNum W32 CD (-12); PLit ","; PLit " "; PNum WL CX 255; PPct;
    PLit " "; PLit "o"; PLit "f"; PLit " "; PStr (Some (c_str "it"))]%char).
  apply (bool_decide_unpack _). vm_compute. exact I.
Defined.

