(* ===== verification/Console.v ===== *)
(** * The console and the serial line

    [kernel/console.c], [kernel/uart.c] and [kernel/printk.c].  The console
    keeps typed characters in a ring of 128 with three free-running 32-bit
    indices: what a reader has taken ([r]), what is complete ([w]) and what is
    typed ([e]).  [consoleread] holds the lock except while it sleeps, so it is
    a sequence of rounds that end with its return or with going to sleep.
    The serial line is the list of the characters handed to the transmit
    register; its status register is a list of readings.

    The specification of input is a line discipline on two lists, the complete
    characters and the line being edited; the ring implements it in every
    history of typed characters and reads. *)

From S2P Require Import Prelude Bytes Ulib.

Local Open Scope nat_scope.

(** ** [uart.c] *)
Definition LSR_TX_IDLE : Z := 32.
Definition LSR_RX_READY : Z := 1.

Definition tx_idle (lsr : Z) : bool := negb (Z.land lsr LSR_TX_IDLE =? 0)%Z.

(** [uartwrite(buf, n)] with the successive readings of the status register:
    the characters sent; a reading that is not idle sends the caller to sleep
    until the next interrupt.  [None] when the readings end first. *)
Fixpoint uartwrite (buf : cstr) (i n : nat) (lsr : list Z) : outcome (option cstr) :=
  if decide (i < n) then
    match lsr with
    | [] => Ret None
    | s :: lsr =>
        if tx_idle s then
          let* c := load buf i in
          let* r := uartwrite buf (S i) n lsr in
          Ret (match r with Some out => Some (c :: out) | None => None end)
        else uartwrite buf i n lsr
    end
  else Ret (Some []).

(** [uartputc_sync(c)]: spins on the status register. *)
Fixpoint uartputc_sync (c : ascii) (lsr : list Z) : option (ascii * list Z) :=
  match lsr with
  | [] => None
  | s :: lsr => if tx_idle s then Some (c, lsr) else uartputc_sync c lsr
  end.

(** [uartgetc()] on the pairs of the status and the receive register. *)
Definition uartgetc (lsr rhr : Z) : Z := if (Z.land lsr LSR_RX_READY =? 0)%Z then (-1)%Z else rhr.

(** ** [console.c] *)
Definition INPUT_BUF_SIZE : nat := 128.

Definition ctrl (x : ascii) : ascii := ascii_of_nat (nat_of_ascii x - 64).
Definition BS : ascii := ascii_of_nat 8.
Definition DEL : ascii := ascii_of_nat 127.
Definition EOT : ascii := ctrl "D".

(** [consputc(BACKSPACE)] *)
Definition erase : cstr := [BS; SPACE; BS].

Record console := mk_cons { c_buf : list ascii; c_r : Z; c_w : Z; c_e : Z }.

Definition slot (n : Z) : nat := Z.to_nat (n `mod` Z.of_nat INPUT_BUF_SIZE).

(** The loop of [C('U')]: at most one round for each character of the line. *)
Fixpoint kill_line (s : console) (fuel : nat) : outcome (console * cstr) :=
  if decide (c_e s = c_w s) then Ret (s, [])
  else
    let* c := load (c_buf s) (slot (u32 (c_e s - 1))) in
    if decide (c = NEWLINE) then Ret (s, [])
    else
      match fuel with
      | 0 => NoFuel
      | S fuel =>
          let* '(s, out) := kill_line (mk_cons (c_buf s) (c_r s) (c_w s) (u32 (c_e s - 1))) fuel in
          Ret (s, erase ++ out)
      end.

(** [consoleintr(c)]: the new state, what is echoed, and whether readers are
    woken.  [procdump] prints the processes and changes nothing. *)
Definition consoleintr (s : console) (c : ascii) : outcome (console * cstr * bool) :=
  if decide (c = ctrl "P") then Ret (s, [], false)
  else if decide (c = ctrl "U") then
    let* '(s, out) := kill_line s (Z.to_nat (u32 (c_e s - c_w s))) in Ret (s, out, false)
  else if decide (c = ctrl "H" \/ c = DEL) then
    if decide (c_e s <> c_w s) then
      Ret (mk_cons (c_buf s) (c_r s) (c_w s) (u32 (c_e s - 1)), erase, false)
    else Ret (s, [], false)
  else if decide (c <> NUL /\ (u32 (c_e s - c_r s) < Z.of_nat INPUT_BUF_SIZE)%Z) then
    let c := if decide (c = CR) then NEWLINE else c in
    let* buf := store (c_buf s) (slot (c_e s)) c in
    let s := mk_cons buf (c_r s) (c_w s) (u32 (c_e s + 1)) in
    if decide (c = NEWLINE \/ c = EOT \/ u32 (c_e s - c_r s) = Z.of_nat INPUT_BUF_SIZE) then
      Ret (mk_cons buf (c_r s) (c_e s) (c_e s), [c], true)
    else Ret (s, [c], false)
  else Ret (s, [], false).

(** How a round of [consoleread] ends: with the number returned, or asleep
    with the number of bytes still wanted. *)
Inductive read_end := Returned (v : Z) | Asleep (n : Z).

(** The loop with [n] bytes still wanted of [target]; the bytes delivered.
    [dst_ok] says of each of them whether the copy to the reader succeeds. *)
Fixpoint read_round (s : console) (dst_ok : Z -> bool) (killed : bool) (target n : Z) (fuel : nat)
  : outcome (console * cstr * read_end) :=
  if (0 <? n)%Z then
    if decide (c_r s = c_w s) then Ret (s, [], if killed then Returned (-1) else Asleep n)
    else
      match fuel with
      | 0 => NoFuel
      | S fuel =>
          let* c := load (c_buf s) (slot (c_r s)) in
          let s' := mk_cons (c_buf s) (u32 (c_r s + 1)) (c_w s) (c_e s) in
          if decide (c = EOT) then
            if (n <? target)%Z then
              Ret (mk_cons (c_buf s) (u32 (u32 (c_r s + 1) - 1)) (c_w s) (c_e s), [], Returned (target - n))
            else Ret (s', [], Returned (target - n))
          else if negb (dst_ok (target - n)%Z) then Ret (s', [], Returned (target - n))
          else if decide (c = NEWLINE) then Ret (s', [c], Returned (target - (n - 1)))
          else
            let* '(s', out, r) := read_round s' dst_ok killed target (n - 1) fuel in
            Ret (s', c :: out, r)
      end
  else Ret (s, [], Returned (target - n)).

(** A round takes at most what the ring holds. *)
Definition consoleread (s : console) (dst_ok : Z -> bool) (killed : bool) (target n : Z)
  : outcome (console * cstr * read_end) :=
  read_round s dst_ok killed target n (Z.to_nat (u32 (c_w s - c_r s))).

(** [consolewrite(user_src, src, n)]: batches of 32 bytes; [src i k] are the
    [k] bytes from offset [i], or [None] where the copy fails. *)
Fixpoint consolewrite_loop (src : nat -> nat -> option cstr) (i n fuel : nat) : outcome (cstr * Z) :=
  if decide (i < n) then
    match fuel with
    | 0 => NoFuel
    | S fuel =>
        let nn := min 32 (n - i) in
        match src i nn with
        | None => Ret ([], Z.of_nat i)
        | Some b =>
            let* '(out, r) := consolewrite_loop src (i + nn) n fuel in
            Ret (b ++ out, r)
        end
    end
  else Ret ([], Z.of_nat i).

Definition consolewrite (src : nat -> nat -> option cstr) (n : nat) : outcome (cstr * Z) :=
  consolewrite_loop src 0 n n.

(** ** The line discipline

    The characters that are complete and not read, and the line being typed. *)
Record tty := mk_tty { t_ready : cstr; t_line : cstr }.

Definition typed (t : tty) (c : ascii) : tty * cstr * bool :=
  if decide (c = ctrl "P") then (t, [], false)
  else if decide (c = ctrl "U") then
    (mk_tty (t_ready t) [], concat (replicate (length (t_line t)) erase), false)
  else if decide (c = ctrl "H" \/ c = DEL) then
    match t_line t with
    | [] => (t, [], false)
    | l => (mk_tty (t_ready t) (take (length l - 1) l), erase, false)
    end
  else if decide (c <> NUL /\ length (t_ready t) + length (t_line t) < INPUT_BUF_SIZE) then
    let c := if decide (c = CR) then NEWLINE else c in
    if decide (c = NEWLINE \/ c = EOT \/ length (t_ready t) + length (t_line t) + 1 = INPUT_BUF_SIZE) then
      (mk_tty (t_ready t ++ t_line t ++ [c]) [], [c], true)
    else (mk_tty (t_ready t) (t_line t ++ [c]), [c], false)
  else (t, [], false).

(** What a read takes: up to and including the first newline, up to [n]
    characters; an end-of-file mark ends it and is kept if it took something. *)
Fixpoint taken (ready : cstr) (dst_ok : Z -> bool) (killed : bool) (target n : Z)
  : cstr * cstr * read_end :=
  if (0 <? n)%Z then
    match ready with
    | [] => ([], [], if killed then Returned (-1) else Asleep n)
    | c :: ready' =>
        if decide (c = EOT) then
          ((if (n <? target)%Z then ready else ready'), [], Returned (target - n))
        else if negb (dst_ok (target - n)%Z) then (ready', [], Returned (target - n))
        else if decide (c = NEWLINE) then (ready', [c], Returned (target - (n - 1)))
        else
          let '(ready'', out, r) := taken ready' dst_ok killed target (n - 1) in
          (ready'', c :: out, r)
    end
  else (ready, [], Returned (target - n)).

(** ** The ring holds the two lists *)
Record rep (s : console) (t : tty) : Prop := {
  rp_buf : length (c_buf s) = INPUT_BUF_SIZE;
  rp_r : (0 <= c_r s < 4294967296)%Z;
  rp_w : c_w s = u32 (c_r s + Z.of_nat (length (t_ready t)));
  rp_e : c_e s = u32 (c_r s + Z.of_nat (length (t_ready t ++ t_line t)));
  rp_size : length (t_ready t ++ t_line t) <= INPUT_BUF_SIZE;
  rp_data : forall k c, (t_ready t ++ t_line t) !! k = Some c -> c_buf s !! slot (c_r s + Z.of_nat k) = Some c;
  rp_line : NEWLINE ∉ t_line t
}.

Lemma slot_u32 n : slot (u32 n) = slot n.
Proof.
  unfold slot, u32. f_equal. change (Z.of_nat INPUT_BUF_SIZE) with 128%Z.
  apply Z.mod_mod_divide. by exists 33554432%Z.
Qed.

Lemma slot_lt n : slot n < INPUT_BUF_SIZE.
Proof.
  unfold slot. change (Z.of_nat INPUT_BUF_SIZE) with 128%Z. pose proof (Z.mod_pos_bound n 128).
  unfold INPUT_BUF_SIZE. lia.
Qed.

Lemma slot_inj n a b : a < INPUT_BUF_SIZE -> b < INPUT_BUF_SIZE ->
  slot (n + Z.of_nat a) = slot (n + Z.of_nat b) -> a = b.
Proof.
  unfold slot, INPUT_BUF_SIZE. intros Ha Hb E.
  pose proof (Z.mod_pos_bound (n + Z.of_nat a) 128). pose proof (Z.mod_pos_bound (n + Z.of_nat b) 128).
  pose proof (Z.div_mod (n + Z.of_nat a) 128). pose proof (Z.div_mod (n + Z.of_nat b) 128). lia.
Qed.

Lemma u32_diff x a : u32 (u32 (x + a) - x) = u32 a.
Proof. unfold u32. rewrite Zminus_mod_idemp_l. f_equal. lia. Qed.

Lemma u32_step x a b : u32 (u32 (x + a) + b) = u32 (x + (a + b)).
Proof. unfold u32. rewrite Zplus_mod_idemp_l. f_equal. lia. Qed.

Lemma u32_eq x a b : (0 <= a < 4294967296)%Z -> (0 <= b < 4294967296)%Z -> u32 (x + a) = u32 (x + b) -> a = b.
Proof.
  intros Ha Hb E. rewrite <-(u32_small a), <-(u32_small b) by done. rewrite <-(u32_diff x a), <-(u32_diff x b).
  by rewrite E.
Qed.

Section ring.
Context (s : console) (t : tty) (Hrep : rep s t).

Lemma line_empty : c_e s = c_w s <-> t_line t = [].
Proof.
  destruct Hrep as [_ _ Hw He Hs _ _]. rewrite Hw, He, length_app in *. unfold INPUT_BUF_SIZE in *. split.
  - intros E%u32_eq; [|lia|lia]. destruct (t_line t); [done|simpl in *; lia].
  - intros ->. simpl. f_equal. lia.
Qed.

Lemma ready_nil : c_r s = c_w s <-> t_ready t = [].
Proof.
  destruct Hrep as [_ Hr Hw _ Hs _ _]. rewrite length_app in Hs. unfold INPUT_BUF_SIZE in Hs. rewrite Hw. split.
  - intros E. assert (u32 (c_r s + 0) = u32 (c_r s + Z.of_nat (length (t_ready t)))) as E'.
    { by rewrite Z.add_0_r, <-E, u32_small. }
    apply u32_eq in E'; [|lia|lia]. destruct (t_ready t); [done|simpl in *; lia].
  - intros ->. simpl. by rewrite Z.add_0_r, u32_small.
Qed.

Lemma in_use : u32 (c_e s - c_r s) = Z.of_nat (length (t_ready t ++ t_line t)).
Proof.
  destruct Hrep as [_ _ _ He Hs _ _]. rewrite He, u32_diff. unfold INPUT_BUF_SIZE in Hs. apply u32_small. lia.
Qed.

(** Dropping the last character of the line. *)
Lemma rep_erase l c : t_line t = l ++ [c] ->
  rep (mk_cons (c_buf s) (c_r s) (c_w s) (u32 (c_e s - 1))) (mk_tty (t_ready t) l) /\
  c_buf s !! slot (u32 (c_e s - 1)) = Some c.
Proof.
  intros El. destruct Hrep as [Hb Hr Hw He Hs Hd Hl]. rewrite El in *. rewrite app_assoc in *.
  assert (u32 (c_e s - 1) = u32 (c_r s + Z.of_nat (length (t_ready t ++ l)))) as E.
  { rewrite He, length_app. simpl. replace (u32 _ - 1)%Z with (u32 (c_r s + Z.of_nat (length (t_ready t ++ l) + 1)) + (-1))%Z by lia.
    rewrite u32_step. f_equal. lia. }
  split.
  - constructor; simpl; try done.
    + rewrite length_app in Hs. simpl in Hs. lia.
    + intros k ch Hk. apply Hd. by apply lookup_app_l_Some.
    + set_solver.
  - rewrite E, slot_u32. apply Hd. by rewrite lookup_app_r, Nat.sub_diag.
Qed.

(** A character at the end of the line. *)
Lemma rep_put c : length (t_ready t ++ t_line t) < INPUT_BUF_SIZE ->
  exists buf, store (c_buf s) (slot (c_e s)) c = Ret buf /\
    (c <> NEWLINE -> rep (mk_cons buf (c_r s) (c_w s) (u32 (c_e s + 1))) (mk_tty (t_ready t) (t_line t ++ [c]))) /\
    rep (mk_cons buf (c_r s) (u32 (c_e s + 1)) (u32 (c_e s + 1))) (mk_tty (t_ready t ++ t_line t ++ [c]) []).
Proof.
  intros Hlt. destruct Hrep as [Hb Hr Hw He Hs Hd Hl]. pose proof (slot_lt (c_e s)) as Hsl.
  rewrite store_ret by lia. eexists. split; [done|].
  assert (u32 (c_e s + 1) = u32 (c_r s + Z.of_nat (length ((t_ready t ++ t_line t) ++ [c])))) as E.
  { rewrite He, u32_step, (length_app _ [c]). simpl. f_equal. lia. }
  assert (forall k ch, ((t_ready t ++ t_line t) ++ [c]) !! k = Some ch ->
    <[slot (c_e s) := c]> (c_buf s) !! slot (c_r s + Z.of_nat k) = Some ch) as Hdata.
  { intros k ch Hk. rewrite He, slot_u32.
    destruct (decide (k = length (t_ready t ++ t_line t))) as [->|Hne].
    - rewrite lookup_app_r, Nat.sub_diag in Hk by lia. injection Hk as <-.
      rewrite He, slot_u32 in Hsl. by rewrite list_lookup_insert_eq by lia.
    - pose proof (lookup_lt_Some _ _ _ Hk) as Hkl. rewrite length_app in Hkl. simpl in Hkl.
      rewrite list_lookup_insert_ne; [apply Hd; by rewrite lookup_app_l in Hk by lia|].
      intros Eq. apply slot_inj in Eq; lia. }
  assert (length ((t_ready t ++ t_line t) ++ [c]) <= INPUT_BUF_SIZE) as Hlen by (rewrite length_app; simpl; lia).
  split; [intros Hc|]; constructor; cbn [c_buf c_r c_w c_e t_ready t_line]; rewrite ?app_nil_r, ?app_assoc, ?length_insert;
    try done; set_solver.
Qed.

(** The first complete character. *)
Lemma rep_take c ready : t_ready t = c :: ready ->
  c_buf s !! slot (c_r s) = Some c /\
  rep (mk_cons (c_buf s) (u32 (c_r s + 1)) (c_w s) (c_e s)) (mk_tty ready (t_line t)).
Proof.
  intros Er. destruct Hrep as [Hb Hr Hw He Hs Hd Hl]. rewrite Er in *. split.
  - specialize (Hd 0 c eq_refl). by rewrite Z.add_0_r in Hd.
  - constructor; cbn [c_buf c_r c_w c_e t_ready t_line]; try done.
    + apply u32_range.
    + rewrite Hw. simpl length. rewrite Nat2Z.inj_succ. unfold u32. rewrite Zplus_mod_idemp_l. f_equal. lia.
    + rewrite He. simpl length. rewrite Nat2Z.inj_succ. unfold u32. rewrite Zplus_mod_idemp_l. f_equal. lia.
    + simpl in Hs. lia.
    + intros k ch Hk. rewrite <-slot_u32, u32_step, slot_u32.
      replace (1 + Z.of_nat k)%Z with (Z.of_nat (S k)) by lia. by apply Hd.
Qed.
End ring.

Lemma kill_line_spec l : forall s ready fuel, rep s (mk_tty ready l) -> length l <= fuel ->
  exists s', kill_line s fuel = Ret (s', concat (replicate (length l) erase)) /\ rep s' (mk_tty ready []).
Proof.
  induction l as [|c l IH] using rev_ind; intros s ready fuel Hrep Hf.
  - pose proof (proj2 (line_empty _ _ Hrep) eq_refl) as E. exists s. unfold kill_line.
    destruct fuel; by rewrite decide_True.
  - destruct (rep_erase _ _ Hrep l c eq_refl) as [Hrep' Hc]. rewrite length_app in Hf |- *. simpl in Hf.
    destruct fuel as [|fuel]; [lia|]. cbn [kill_line].
    rewrite decide_False by (intros E; apply (line_empty _ _ Hrep) in E; by destruct l).
    rewrite (load_ret _ _ _ Hc). cbn [obind].
    rewrite decide_False by (intros ->; pose proof (rp_line _ _ Hrep); set_solver).
    destruct (IH _ _ fuel Hrep') as (s' & -> & Hs'); [lia|]. cbn [obind]. exists s'. split; [|done].
    simpl length. rewrite Nat.add_1_r. done.
Qed.

Lemma consoleintr_spec s t c : rep s t -> exists s', consoleintr s c = Ret (s', snd (fst (typed t c)), snd (typed t c)) /\
  rep s' (fst (fst (typed t c))).
Proof.
  intros Hrep. unfold consoleintr, typed.
  destruct (decide (c = ctrl "P")); [by exists s|]. destruct (decide (c = ctrl "U")).
  { pose proof Hrep as [_ _ Hw He Hs _ _]. destruct t as [ready l]. simpl in *.
    assert (u32 (c_e s - c_w s) = Z.of_nat (length l)) as ->.
    { rewrite He, Hw, length_app. unfold u32. rewrite <-Zminus_mod. rewrite length_app in Hs. unfold INPUT_BUF_SIZE in Hs.
      rewrite Z.mod_small by lia. lia. }
    rewrite Nat2Z.id. destruct (kill_line_spec l s ready (length l) Hrep) as (s' & -> & Hs'); [lia|]. by exists s'. }
  destruct (decide (c = ctrl "H" \/ c = DEL)).
  { destruct (decide (c_e s <> c_w s)) as [Hne|He%dec_stable].
    - destruct t as [ready l]. cbn [t_line t_ready]. destruct (exists_last (l := l)) as (l' & x & ->).
      { intros ->. by apply Hne, (line_empty _ _ Hrep). }
      destruct (rep_erase _ _ Hrep l' x eq_refl) as [Hrep' _]. destruct (l' ++ [x]) as [|y m] eqn:E; [by destruct l'|].
      eexists. split; [done|]. rewrite <-E, length_app, Nat.add_sub, take_app_length. exact Hrep'.
    - apply (line_empty _ _ Hrep) in He. rewrite He. by exists s. }
  rewrite (in_use _ _ Hrep), length_app. destruct (decide (c <> NUL /\ _)) as [[Hnul Hlt]|Hno].
  - rewrite (decide_True (P := c <> NUL /\ _)) by (split; [done|lia]).
    set (c' := if decide (c = CR) then NEWLINE else c).
    destruct (rep_put _ _ Hrep c') as (buf & -> & Hput & Hcommit); [rewrite length_app; lia|]. cbn [obind c_e c_r].
    assert (u32 (u32 (c_e s + 1) - c_r s) = Z.of_nat (length (t_ready t) + length (t_line t) + 1)) as ->.
    { pose proof (in_use _ _ Hcommit) as E. cbn [c_e c_r t_ready t_line] in E. rewrite E, app_nil_r, !length_app. simpl. lia. }
    destruct (decide (c' = NEWLINE \/ _)) as [Hc|Hc].
    + rewrite (decide_True (P := c' = NEWLINE \/ _)) by (destruct Hc as [|[]]; [auto|auto|right; right; lia]).
      by eexists.
    + rewrite (decide_False (P := c' = NEWLINE \/ _)) by (intros [|[|]]; [tauto|tauto|apply Hc; right; right; lia]).
      eexists. split; [done|]. apply Hput. tauto.
  - rewrite (decide_False (P := c <> NUL /\ _)) by (intros [? ?]; apply Hno; split; [done|lia]). by exists s.
Qed.

Lemma read_round_spec dst_ok killed target : forall ready n s l fuel, rep s (mk_tty ready l) -> length ready <= fuel ->
  exists s', let '(ready', out, r) := taken ready dst_ok killed target n in
    read_round s dst_ok killed target n fuel = Ret (s', out, r) /\ rep s' (mk_tty ready' l).
Proof.
  induction ready as [|c ready IH]; intros n s l fuel Hrep Hf.
  { exists s. pose proof (proj2 (ready_nil _ _ Hrep) eq_refl) as E. cbn [taken].
    destruct fuel; cbn [read_round]; destruct (0 <? n)%Z; rewrite ?decide_True by done; done. }
  simpl in Hf. destruct fuel as [|fuel]; [lia|]. cbn [taken read_round].
  destruct (0 <? n)%Z; [|by exists s].
  rewrite (decide_False (P := c_r s = c_w s)) by (intros E; by apply (ready_nil _ _ Hrep) in E).
  destruct (rep_take _ _ Hrep c ready eq_refl) as [Hc Hrep']. rewrite (load_ret _ _ _ Hc). cbn [obind].
  destruct (decide (c = EOT)) as [->|]; [|destruct (negb (dst_ok (target - n)%Z)); [by eexists|]].
  - destruct (n <? target)%Z; [|by eexists]. exists s. split; [|done].
    replace (u32 (u32 (c_r s + 1) - 1)) with (c_r s); [by destruct s|].
    replace (u32 (c_r s + 1) - 1)%Z with (u32 (c_r s + 1) + -1)%Z by lia. rewrite u32_step.
    rewrite Z.add_0_r. symmetry. apply u32_small, Hrep.
  - destruct (decide (c = NEWLINE)); [by eexists|].
    destruct (IH (n - 1)%Z _ l fuel Hrep') as (s' & Hs'); [lia|]. exists s'.
    destruct (taken ready dst_ok killed target (n - 1)) as [[ready' out] r]. destruct Hs' as [-> Hs']. done.
Qed.

(** ** Histories *)
Inductive event :=
| Typed (c : ascii)
| Read (dst_ok : Z -> bool) (killed : bool) (target n : Z).

Inductive effect :=
| Echoed (out : cstr) (woken : bool)
| Delivered (out : cstr) (r : read_end).

Fixpoint console_run (s : console) (evs : list event) : outcome (console * list effect) :=
  match evs with
  | [] => Ret (s, [])
  | ev :: evs =>
      let* '(s, e) :=
        match ev with
        | Typed c => let* '(s, out, b) := consoleintr s c in Ret (s, Echoed out b)
        | Read dst_ok killed target n =>
            let* '(s, out, r) := consoleread s dst_ok killed target n in Ret (s, Delivered out r)
        end in
      let* '(s, es) := console_run s evs in
      Ret (s, e :: es)
  end.

Definition tty_step (t : tty) (ev : event) : tty * effect :=
  match ev with
  | Typed c => let '(t, out, b) := typed t c in (t, Echoed out b)
  | Read dst_ok killed target n =>
      let '(ready, out, r) := taken (t_ready t) dst_ok killed target n in (mk_tty ready (t_line t), Delivered out r)
  end.

Fixpoint tty_run (t : tty) (evs : list event) : tty * list effect :=
  match evs with
  | [] => (t, [])
  | ev :: evs =>
      let '(t, e) := tty_step t ev in
      let '(t, es) := tty_run t evs in (t, e :: es)
  end.

(** [consoleinit]: the static structure is zero. *)
Definition consoleinit : console := mk_cons (replicate INPUT_BUF_SIZE NUL) 0 0 0.

Lemma console_run_spec evs : forall s t, rep s t -> exists s', console_run s evs = Ret (s', snd (tty_run t evs)) /\
  rep s' (fst (tty_run t evs)).
Proof.
  induction evs as [|[c|dst_ok killed target n] evs IH]; intros s t Hrep; cbn [console_run tty_run tty_step]; [by exists s|..].
  - destruct (consoleintr_spec s t c Hrep) as (s1 & -> & Hrep1). destruct (typed t c) as [[t1 out] b]. cbn [obind fst snd].
    destruct (IH s1 t1 Hrep1) as (s2 & -> & Hrep2). cbn [obind]. exists s2. by destruct (tty_run t1 evs).
  - destruct t as [ready l]. unfold consoleread.
    assert (Z.to_nat (u32 (c_w s - c_r s)) = length ready) as ->.
    { pose proof Hrep as [_ _ Hw _ Hs _ _]. simpl in *. rewrite Hw, u32_diff. rewrite length_app in Hs.
      unfold INPUT_BUF_SIZE in Hs. rewrite u32_small; lia. }
    destruct (read_round_spec dst_ok killed target ready n s l (length ready) Hrep) as (s1 & Hs1); [lia|].
    simpl. destruct (taken ready dst_ok killed target n) as [[ready1 out] r]. destruct Hs1 as [-> Hrep1]. cbn [obind].
    destruct (IH s1 _ Hrep1) as (s2 & -> & Hrep2). cbn [obind]. exists s2. by destruct (tty_run (mk_tty ready1 l) evs).
Qed.

(** C32.  The console's ring with its wrapping indices implements the line
    discipline in every history of typed characters and reads: editing, echo,
    wakeups, what each read delivers, and when it sleeps or returns; the code
    always stops and stays inside the ring. *)
Theorem console_discipline (evs : list event) :
  exists s, console_run consoleinit evs = Ret (s, snd (tty_run (mk_tty [] []) evs)) /\
    rep s (fst (tty_run (mk_tty [] []) evs)).
Proof.
  apply console_run_spec. constructor; simpl; try done.
  - unfold INPUT_BUF_SIZE. lia.
  - set_solver.
Qed.

Example type_and_read :
  snd (tty_run (mk_tty [] []) [Typed "a"; Typed "x"; Typed DEL; Typed "b"; Read (fun _ => true) false 10 10;
    Typed CR; Read (fun _ => true) false 10 10]) =
  [Echoed [("a"%char)] false; Echoed [("x"%char)] false; Echoed erase false; Echoed [("b"%char)] false; Delivered [] (Asleep 10);
   Echoed [NEWLINE] true; Delivered (c_str "ab" ++ [NEWLINE]) (Returned 3)].
Proof. vm_compute. reflexivity. Qed.
