(* ===== verification/Printk.v ===== *)
(** * Kernel messages

    [kernel/printk.c] over the shared code of [Printf] (small hexadecimal
    digits), and the output side of [kernel/console.c]: [consputc] and the
    batches of [consolewrite]. *)

From S2P Require Import Prelude Bytes Ulib Printf Console.

Local Open Scope nat_scope.

(** [consputc(c)]: the characters sent for [c]; [BACKSPACE] is 256. *)
Definition consputc (c : Z) : cstr :=
  if (c =? 256)%Z then erase else [ascii_of_nat (Z.to_nat (c `mod` 256))].

(** One conversion of [printk]: that of [printf] but for [%c]. *)
Definition kconversion (c0 c1 c2 : ascii) (ap : list varg) : outcome (cstr * list varg * nat) :=
  if decide (c0 = "c"%char) then
    let* '(z, ap) := va_int ap in
    Ret (consputc (u32 z), ap, 0)
  else conversion false c0 c1 c2 ap.

(** [i] is the position in the format; a format that ends behind a per cent
    sign ends the loop. *)
Fixpoint printk_loop (fmt : cstr) (i : nat) (ap : list varg) (fuel : nat) : outcome cstr :=
  match fuel with
  | 0 => NoFuel
  | S fuel =>
      let at_ j := load (fmt ++ [NUL]) j in
      let* cx := at_ i in
      if decide (cx = NUL) then Ret []
      else if decide (cx <> "%"%char) then
        let* out := printk_loop fmt (S i) ap fuel in Ret (cx :: out)
      else
        let i := S i in
        let* c0 := at_ i in
        let* c1 := if decide (c0 = NUL) then Ret NUL else at_ (i + 1) in
        let* c2 := if decide (c1 = NUL) then Ret NUL else at_ (i + 2) in
        if decide (c0 = NUL) then Ret []
        else
          let* '(text, ap, skip) := kconversion c0 c1 c2 ap in
          let* out := printk_loop fmt (i + skip + 1) ap fuel in
          Ret (text ++ out)
  end.

Definition printk (fmt : cstr) (ap : list varg) : outcome cstr := printk_loop fmt 0 ap (S (length fmt)).

(** [panic(s)]: the text on the console; the CPU then spins. *)
Definition kpanic (s : cstr) : outcome cstr :=
  let* a := printk (c_str "panic: ") [] in
  let* b := printk (c_str "%s" ++ [NEWLINE]) [AStr (Some s)] in
  Ret (a ++ b).

(** ** What they print *)
Definition kpiece_ok (p : piece) : Prop :=
  piece_ok p /\ match p with PChar z => u32 z <> 256%Z | _ => True end.

Lemma kconversion_piece p c0 r rest ap : kpiece_ok p -> piece_fmt p = "%"%char :: c0 :: r ->
  kconversion c0 (hd NUL (r ++ rest)) (hd NUL (tail (r ++ rest))) (piece_arg p ++ ap) =
    Ret (piece_text false p, ap, length r).
Proof.
  intros [Hok Hc] E. unfold kconversion. destruct (decide (c0 = "c"%char)) as [->|Hne].
  - destruct p as [c|[] [] z|z|z|s|]; simpl in E; simplify_eq. simpl. unfold consputc.
    by rewrite (proj2 (Z.eqb_neq _ _)) by done.
  - by apply conversion_piece.
Qed.

(** The conversion at a per cent sign. *)
Lemma printk_percent fmt i ap fuel c0 rest :
  drop i fmt = "%"%char :: c0 :: rest -> no_nul (c0 :: rest) ->
  printk_loop fmt i ap (S fuel) =
    (let* '(text, ap, skip) := kconversion c0 (hd NUL rest) (hd NUL (tail rest)) ap in
     let* out := printk_loop fmt (S (S i) + skip) ap fuel in Ret (text ++ out)).
Proof.
  intros Hd Hn. destruct (format_loads _ _ _ _ Hd Hn) as (E0 & E1 & E2 & E3). apply no_nul_cons in Hn as [H0 _].
  cbn [printk_loop]. rewrite E0. cbn [obind]. rewrite decide_False by done. rewrite decide_False by tauto.
  rewrite E1. cbn [obind]. rewrite (decide_False (P := c0 = NUL)) by done. rewrite E2. cbn [obind]. rewrite E3.
  cbn [obind]. rewrite (decide_False (P := c0 = NUL)) by done.
  destruct (kconversion _ _ _ _) as [[[text ap'] skip]| | | |]; cbn [obind]; try done.
  replace (S i + skip + 1) with (S (S i) + skip) by lia. done.
Qed.

(** [printk] prints the formats that [printf] prints. *)
Lemma printk_prints ps : Forall kpiece_ok ps ->
  printk (concat (piece_fmt <$> ps)) (concat (piece_arg <$> ps)) = Ret (concat (piece_text false <$> ps)).
Proof.
  unfold printk. set (fmt := concat (piece_fmt <$> ps)). intros Hps.
  cut (forall qs i fuel, Forall kpiece_ok qs -> drop i fmt = concat (piece_fmt <$> qs) ->
    i <= length fmt -> length (concat (piece_fmt <$> qs)) < fuel ->
    printk_loop fmt i (concat (piece_arg <$> qs)) fuel = Ret (concat (piece_text false <$> qs))).
  { intros HH. apply HH; auto; lia. }
  clear Hps. induction qs as [|p qs IH]; intros i fuel Hok Hd Hi Hf; simpl in Hf.
  { destruct fuel; [lia|]. simpl in Hd. apply (f_equal length) in Hd. rewrite length_drop in Hd. simpl in Hd.
    cbn [printk_loop]. rewrite (load_ret _ _ NUL); [done|].
    rewrite lookup_app_r by lia. by replace (i - length fmt) with 0 by lia. }
  assert (Forall piece_ok (p :: qs)) as Hok' by (eapply Forall_impl; [exact Hok|]; by intros ? [? _]).
  destruct (format_rest fmt p qs i Hok' Hd Hi) as (Hl & Hd2 & Hn).
  apply Forall_cons in Hok as [Hp Hok]. simpl in Hd. rewrite length_app in Hf.
  destruct (piece_shape p) as [[c ->]|(c0 & r & Ef)].
  - destruct fuel as [|fuel]; [simpl in Hf; lia|]. cbn [printk_loop]. destruct Hp as [[Hp1 Hp2] _].
    rewrite (load_ret _ _ c).
    2: { rewrite lookup_app_l by (simpl in Hl; lia). by apply drop_cons_inv in Hd as [? _]. }
    cbn [obind]. rewrite decide_False by done. rewrite decide_True by done. simpl in *. rewrite <-Nat.add_1_r.
    rewrite IH; [done|done|done|lia|by apply Nat.succ_lt_mono].
  - pose proof (piece_fmt_no_nul p (proj1 Hp)) as Hnp. pose proof (kconversion_piece p c0 r) as Hc.
    specialize (Hc (concat (piece_fmt <$> qs)) (concat (piece_arg <$> qs)) Hp Ef).
    rewrite Ef in Hd, Hf, Hl, Hd2, Hnp. simpl in Hf, Hl. destruct fuel as [|fuel]; [lia|].
    rewrite fmap_cons. simpl concat.
    rewrite (printk_percent fmt i _ fuel c0 (r ++ concat (piece_fmt <$> qs))) by
      (done || apply no_nul_cons in Hnp as [_ Hnp]; apply no_nul_cons in Hnp as [? ?];
        by apply no_nul_cons; rewrite no_nul_app).
    rewrite Hc. cbn [obind]. replace (S (S i) + length r) with (i + S (S (length r))) by lia.
    rewrite IH; [done|done|done|lia|].
    change (list_fmap piece cstr piece_fmt qs) with (piece_fmt <$> qs) in Hf. lia.
Qed.

Lemma kpanic_prints s : kpanic s = Ret (c_str "panic: " ++ s ++ [NEWLINE]).
Proof.
  unfold kpanic.
  assert (printk (c_str "panic: ") [] = Ret (c_str "panic: ")) as ->.
  { vm_compute. reflexivity. }
  assert (printk (c_str "%s" ++ [NEWLINE]) [AStr (Some s)] = Ret (s ++ [NEWLINE])) as ->.
  { apply (printk_prints [PStr (Some s); PLit NEWLINE]). by repeat constructor. }
  done.
Qed.

(** ** Writing *)
Lemma uartwrite_sends buf n : forall i lsr, n <= length buf -> n - i <= length (filter (fun s => tx_idle s = true) lsr) ->
  uartwrite buf i n lsr = Ret (Some (slice i (n - i) buf)).
Proof.
  intros i lsr. revert i. induction lsr as [|s lsr IH]; intros i Hb Hi; cbn [uartwrite]; case_decide as Hlt.
  - simpl in Hi. lia.
  - by replace (n - i) with 0 by lia.
  - destruct (tx_idle s) eqn:Es.
    + destruct (lookup_lt_is_Some_2 buf i) as [c Hc]; [lia|]. rewrite (load_ret _ _ _ Hc). cbn [obind].
      rewrite filter_cons_True in Hi by done. simpl in Hi.
      rewrite IH by lia. cbn [obind]. replace (n - i) with (S (n - S i)) by lia. by rewrite (slice_S _ _ _ _ Hc).
    + rewrite filter_cons_False in Hi by (by rewrite Es). apply IH; done.
  - by replace (n - i) with 0 by lia.
Qed.

(** The batches of [consolewrite] are the bytes in order. *)
Lemma consolewrite_sends data n : n <= length data ->
  consolewrite (fun i k => Some (slice i k data)) n = Ret (take n data, Z.of_nat n).
Proof.
  intros Hn. unfold consolewrite.
  cut (forall fuel i, n - i <= fuel -> i <= n -> consolewrite_loop (fun i k => Some (slice i k data)) i n fuel =
    Ret (slice i (n - i) data, Z.of_nat n)).
  { intros HH. rewrite HH by lia. by rewrite Nat.sub_0_r. }
  induction fuel as [|fuel IH]; intros i Hf Hi; cbn [consolewrite_loop]; case_decide; try lia;
    try (replace i with n by lia; by rewrite Nat.sub_diag, slice_0).
  rewrite IH by lia. cbn [obind]. do 2 f_equal. unfold slice.
  remember (min 32 (n - i)) as k eqn:Hk.
  replace (take (n - i) (drop i data)) with (take (k + (n - (i + k))) (drop i data)) by (f_equal; lia).
  rewrite <-drop_drop. by rewrite take_take_drop.
Qed.
