(* ===== verification/Grep.v ===== *)
(** * grep

    [user/grep.c]: the matcher of Kernighan and Pike, and the loop that reads a
    file through a buffer of 1024 characters.  A pattern and a line are C
    strings, the lists of their characters; the buffer is an array with
    positions for pointers.  Reading is the class [ReadOS] of [Ulib].

    The specification reads a pattern as a list of items, each a character
    (or [.]) taken once or starred, between an optional [^] and an optional
    [$]; the matcher finds an occurrence exactly when there is one.  The loop
    prints the matching lines of a file whatever the sizes of the pieces that
    [read] delivers. *)

From S2P Require Import Prelude Bytes Ulib Printf.

Local Open Scope nat_scope.

(** ** The matcher

    [c] in a pattern stands for [a]. *)
Definition stands (c a : ascii) : bool := bool_decide (a = c) || bool_decide (c = "."%char).

Section matcher.
Implicit Types re text : cstr.

(** [matchstar(c, re, text)], [here] the call of [matchhere] on [re]. *)
Fixpoint matchstar (c : ascii) (here : cstr -> bool) text : bool :=
  here text ||
  match text with
  | [] => false
  | a :: text => stands c a && matchstar c here text
  end.

Fixpoint matchhere re text {struct re} : bool :=
  match re with
  | [] => true
  | c :: re1 =>
      match re1 with
      | d :: re2 =>
          if decide (d = "*"%char) then matchstar c (matchhere re2) text
          else match text with
               | a :: text => stands c a && matchhere re1 text
               | [] => false
               end
      | [] =>
          if decide (c = "$"%char) then bool_decide (text = [])
          else match text with
               | a :: text => stands c a && matchhere re1 text
               | [] => false
               end
      end
  end.

Fixpoint match_any re text : bool :=
  matchhere re text ||
  match text with
  | [] => false
  | _ :: text => match_any re text
  end.

Definition match_re re text : bool :=
  match re with
  | c :: re' => if decide (c = "^"%char) then matchhere re' text else match_any re text
  | [] => match_any re text
  end.
End matcher.

(** ** The loop of [grep] *)
Section grep.
Context {W : Type} `{ReadOS W}.

(** The lines in the buffer from [p] on: what is written, the buffer and the
    position behind the last newline. *)
Fixpoint grep_lines (pattern : cstr) (buf : list ascii) (p fuel : nat)
  : outcome (list cstr * list ascii * nat) :=
  match fuel with
  | 0 => NoFuel
  | S fuel =>
      let* q := ustrchr buf p NEWLINE in
      match q with
      | None => Ret ([], buf, p)
      | Some q =>
          let* buf := store buf q NUL in
          let* '(out, buf) :=
            if match_re pattern (cstr_prefix (drop p buf)) then
              let* buf := store buf q NEWLINE in
              Ret ([slice p (q + 1 - p) buf], buf)
            else Ret ([], buf) in
          let* '(out', buf, p) := grep_lines pattern buf (q + 1) fuel in
          Ret (out ++ out', buf, p)
      end
  end.

(** The writes to descriptor 1 in order. *)
Fixpoint grep_loop (w : W) (pattern : cstr) (fd : Z) (buf : list ascii) (m fuel : nat)
  : outcome (list cstr * list ascii * W) :=
  match fuel with
  | 0 => NoFuel
  | S fuel =>
      let '(n, got, w) := os_read w fd (length buf - m - 1) in
      if (0 <? n)%Z then
        let buf := splice m got buf in
        let m := m + Z.to_nat n in
        let* buf := store buf m NUL in
        let* '(out, buf, p) := grep_lines pattern buf 0 (S (length buf)) in
        let* '(buf, m) :=
          if decide (0 < m) then
            let m := m - p in
            let* buf := umemmove buf 0 p m in
            Ret (buf, m)
          else Ret (buf, m) in
        let* '(out', buf, w) := grep_loop w pattern fd buf m fuel in
        Ret (out ++ out', buf, w)
      else Ret ([], buf, w)
  end.

Definition grep (w : W) (pattern : cstr) (fd : Z) (buf : list ascii) (fuel : nat)
  : outcome (list cstr * list ascii * W) := grep_loop w pattern fd buf 0 fuel.

(** [main]: [open] and [close] of the kernel; the exit code at the end.  The
    message for a file that cannot be opened goes to descriptor 1 as well. *)
Context (os_open : W -> cstr -> Z -> Z * W) (os_close : W -> Z -> W).

Fixpoint grep_files (w : W) (pattern : cstr) (files : list cstr) (buf : list ascii) (fuel : nat)
  : outcome (list cstr * Z * W) :=
  match files with
  | [] => Ret ([], 0%Z, w)
  | f :: files =>
      let '(fd, w) := os_open w f 0%Z in
      if (fd <? 0)%Z then
        let* msg := vprintf true (c_str "grep: cannot open %s" ++ [NEWLINE]) [AStr (Some f)] in
        Ret ((fun c => [c]) <$> msg, 1%Z, w)
      else
        let* '(out, buf, w) := grep w pattern fd buf fuel in
        let w := os_close w fd in
        let* '(out', code, w) := grep_files w pattern files buf fuel in
        Ret (out ++ out', code, w)
  end.

Definition grep_main (w : W) (argv : list cstr) (fuel : nat) : outcome (list cstr * Z * W) :=
  let buf := replicate 1024 NUL in
  match argv with
  | [] | [_] => Ret ([], 1%Z, w)
  | [_; pattern] =>
      let* '(out, buf, w) := grep w pattern 0 buf fuel in
      Ret (out, 0%Z, w)
  | _ :: pattern :: files => grep_files w pattern files buf fuel
  end.
End grep.

(** ** Patterns and their meaning *)
Record pattern := { p_anchored : bool; p_items : list (ascii * bool); p_eol : bool }.

(** The items of a pattern; an item with [true] is starred. *)
Fixpoint items (re : cstr) : list (ascii * bool) * bool :=
  match re with
  | [] => ([], false)
  | c :: re1 =>
      match re1 with
      | d :: re2 =>
          if decide (d = "*"%char) then let '(l, e) := items re2 in ((c, true) :: l, e)
          else let '(l, e) := items re1 in ((c, false) :: l, e)
      | [] => if decide (c = "$"%char) then ([], true) else ([(c, false)], false)
      end
  end.

Definition read_pattern (re : cstr) : pattern :=
  match re with
  | c :: re' =>
      if decide (c = "^"%char) then {| p_anchored := true; p_items := fst (items re'); p_eol := snd (items re') |}
      else {| p_anchored := false; p_items := fst (items re); p_eol := snd (items re) |}
  | [] => {| p_anchored := false; p_items := []; p_eol := false |}
  end.

Inductive item_in : ascii * bool -> cstr -> Prop :=
| in_one c a : stands c a = true -> item_in (c, false) [a]
| in_star c w : Forall (fun a => stands c a = true) w -> item_in (c, true) w.

Inductive items_in : list (ascii * bool) -> cstr -> Prop :=
| in_nil : items_in [] []
| in_cons i l w w' : item_in i w -> items_in l w' -> items_in (i :: l) (w ++ w').

(** Somewhere in the text, at its start if anchored, up to its end if the
    pattern ends with [$]. *)
Definition occurs (p : pattern) (text : cstr) : Prop :=
  exists pre mid post, text = pre ++ mid ++ post /\ items_in (p_items p) mid /\
    (p_anchored p = true -> pre = []) /\ (p_eol p = true -> post = []).

(** An occurrence at the start of the text. *)
Definition starts (l : list (ascii * bool) * bool) (text : cstr) : Prop :=
  exists mid post, text = mid ++ post /\ items_in (fst l) mid /\ (snd l = true -> post = []).

Lemma matchstar_spec c here text : matchstar c here text = true <->
  exists w rest, text = w ++ rest /\ Forall (fun a => stands c a = true) w /\ here rest = true.
Proof.
  induction text as [|a text IH]; simpl; rewrite orb_true_iff.
  - split; [intros [Hh|]; [by exists [], []|done]|].
    intros ([] & rest & E & _ & Hh); simplify_eq/=; by left.
  - rewrite andb_true_iff, IH. split.
    + intros [Hh|(Ha & w & rest & -> & Hw & Hh)]; [by exists [], (a :: text)|].
      exists (a :: w), rest. repeat split; auto.
    + intros ([|b w] & rest & E & Hw & Hh); simplify_eq/=; [by left|right].
      apply Forall_cons in Hw as [? ?]. split; [done|]. by exists w, rest.
Qed.

Lemma starts_star c l text : starts ((c, true) :: fst l, snd l) text <->
  exists w rest, text = w ++ rest /\ Forall (fun a => stands c a = true) w /\ starts l rest.
Proof.
  unfold starts. simpl. split.
  - intros (mid & post & -> & Hi & He). inversion Hi as [|? ? w w' Hw Hl]; subst.
    inversion Hw; subst. exists w, (w' ++ post). rewrite app_assoc. eauto 10.
  - intros (w & rest & -> & Hw & mid & post & -> & Hl & He).
    exists (w ++ mid), post. rewrite app_assoc. repeat split; auto. constructor; [|done]. by constructor.
Qed.

Lemma starts_one c l text : starts ((c, false) :: fst l, snd l) text <->
  exists a rest, text = a :: rest /\ stands c a = true /\ starts l rest.
Proof.
  unfold starts. simpl. split.
  - intros (mid & post & -> & Hi & He). inversion Hi as [|? ? w w' Hw Hl]; subst.
    inversion Hw; subst. simpl. eauto 10.
  - intros (a & rest & -> & Ha & mid & post & -> & Hl & He).
    exists (a :: mid), post. repeat split; auto. apply (in_cons _ _ [a]); [by constructor|done].
Qed.

(** A step of [matchhere] over a plain character. *)
Lemma step_one c (here : cstr -> bool) (P : cstr -> Prop) text :
  (forall t, here t = true <-> P t) ->
  match text with a :: text => stands c a && here text | [] => false end = true <->
  exists a rest, text = a :: rest /\ stands c a = true /\ P rest.
Proof.
  intros Hh. destruct text as [|a text].
  - split; [done|]. by intros (? & ? & ? & _).
  - rewrite andb_true_iff, Hh. split; [intros [? ?]; eauto|]. intros (? & ? & [= -> ->] & ? & ?). auto.
Qed.

Lemma items_two c d re : items (c :: d :: re) =
  if decide (d = "*"%char) then ((c, true) :: fst (items re), snd (items re))
  else ((c, false) :: fst (items (d :: re)), snd (items (d :: re))).
Proof.
  change (items (c :: d :: re)) with (if decide (d = "*"%char) then let '(l, e) := items re in ((c, true) :: l, e)
    else let '(l, e) := items (d :: re) in ((c, false) :: l, e)).
  by destruct (items re), (items (d :: re)).
Qed.

Lemma matchhere_two c d re text : matchhere (c :: d :: re) text =
  if decide (d = "*"%char) then matchstar c (matchhere re) text
  else match text with a :: text => stands c a && matchhere (d :: re) text | [] => false end.
Proof. done. Qed.

Lemma matchhere_spec n : forall re, length re <= n -> forall text,
  matchhere re text = true <-> starts (items re) text.
Proof.
  induction n as [|n IH]; intros [|c re1] Hn text; simpl in Hn; try lia.
  1, 2: split; [intros _; exists [], text; repeat split; [constructor|done]|done].
  destruct re1 as [|d re2].
  - cbn [matchhere items]. destruct (decide (c = "$"%char)).
    + rewrite bool_decide_eq_true. split; [intros ->; exists [], []; repeat split; constructor|].
      intros (mid & post & -> & Hi & He). inversion Hi; subst. simpl. by apply He.
    + rewrite (step_one c (fun _ => true)) by (intros t; apply (IH []); simpl; lia).
      symmetry. apply (starts_one c ([], false)).
  - rewrite matchhere_two, items_two. simpl in Hn. destruct (decide (d = "*"%char)) as [->|Hd].
    + rewrite starts_star, matchstar_spec. by setoid_rewrite (IH re2); [|lia].
    + rewrite starts_one. apply step_one. intros t. apply IH. simpl. lia.
Qed.

Lemma match_any_spec re text : match_any re text = true <->
  exists pre rest, text = pre ++ rest /\ starts (items re) rest.
Proof.
  induction text as [|a text IH]; cbn [match_any]; rewrite orb_true_iff, (matchhere_spec _ re (le_n _)).
  - split; [intros [Hh|]; [by exists [], []|done]|].
    intros ([] & rest & E & Hh); simplify_eq/=; by left.
  - rewrite IH. split.
    + intros [Hh|(pre & rest & -> & Hh)]; [by exists [], (a :: text)|by exists (a :: pre), rest].
    + intros ([|b pre] & rest & E & Hh); simplify_eq/=; [by left|right; by exists pre, rest].
Qed.

(** The matcher decides its patterns. *)
Lemma match_occurs re text : match_re re text = true <-> occurs (read_pattern re) text.
Proof.
  unfold occurs. destruct re as [|c re]; [|unfold match_re, read_pattern; destruct (decide (c = "^"%char))];
    cbn [match_re read_pattern p_anchored p_items p_eol].
  2: { rewrite (matchhere_spec _ re (le_n _)). split.
       - intros (mid & post & -> & Hi & He). exists [], mid, post. auto.
       - intros (pre & mid & post & -> & Hi & Ha & He). rewrite (Ha eq_refl). by exists mid, post. }
  all: rewrite match_any_spec; split;
    [intros (pre & ? & -> & mid & post & -> & Hi & He); exists pre, mid, post; repeat split; done
    |intros (pre & mid & post & -> & Hi & _ & He); exists pre, (mid ++ post); split; [done|];
     by exists mid, post].
Qed.

#[global] Instance occurs_dec re text : Decision (occurs (read_pattern re) text).
Proof. refine (cast_if (decide (match_re re text = true))); by rewrite <-match_occurs. Defined.

(** ** The lines of a file *)
Fixpoint lines_of (data : cstr) : list cstr * cstr :=
  match data with
  | [] => ([], [])
  | c :: data =>
      let '(ls, rest) := lines_of data in
      if decide (c = NEWLINE) then ([] :: ls, rest)
      else match ls with
           | [] => ([], c :: rest)
           | l :: ls => ((c :: l) :: ls, rest)
           end
  end.

Lemma lines_of_none l : NEWLINE ∉ l -> lines_of l = ([], l).
Proof.
  induction l as [|c l IH]; intros Hl; [done|]. cbn [lines_of].
  rewrite IH by set_solver. by rewrite decide_False by set_solver.
Qed.

Lemma lines_of_line l data : NEWLINE ∉ l ->
  lines_of (l ++ NEWLINE :: data) = (l :: fst (lines_of data), snd (lines_of data)).
Proof.
  induction l as [|c l IH]; intros Hl; cbn [lines_of app].
  - by destruct (lines_of data).
  - rewrite IH by set_solver. by rewrite decide_False by set_solver.
Qed.

(** Text with a newline has a first line; text without has none. *)
Lemma first_line s : NEWLINE ∉ s \/ exists l s', s = l ++ NEWLINE :: s' /\ NEWLINE ∉ l.
Proof.
  induction s as [|c s IH]; [left; set_solver|].
  destruct (decide (c = NEWLINE)) as [->|Hc]; [right; exists [], s; set_solver|].
  destruct IH as [|(l & s' & -> & Hl)]; [left; set_solver|].
  right. exists (c :: l), s'. set_solver.
Qed.

Lemma lines_of_app a b : lines_of (a ++ b) =
  (fst (lines_of a) ++ fst (lines_of (snd (lines_of a) ++ b)), snd (lines_of (snd (lines_of a) ++ b))).
Proof.
  remember (length a) as n eqn:Hn. revert a Hn. induction n as [n IH] using lt_wf_ind. intros a ->.
  destruct (first_line a) as [Ha|(l & s & -> & Hl)].
  - rewrite (lines_of_none a Ha). simpl. by destruct (lines_of (a ++ b)).
  - rewrite <-app_assoc. simpl app. rewrite !lines_of_line by done. simpl.
    rewrite (IH (length s)) by (rewrite ?length_app; simpl; lia || done). done.
Qed.

Lemma lines_of_rest s : exists done_, s = done_ ++ snd (lines_of s) /\ NEWLINE ∉ snd (lines_of s).
Proof.
  remember (length s) as n eqn:Hn. revert s Hn. induction n as [n IH] using lt_wf_ind. intros s ->.
  destruct (first_line s) as [Hs|(l & s' & -> & Hl)].
  - exists []. by rewrite lines_of_none.
  - rewrite lines_of_line by done. simpl.
    destruct (IH (length s')) with (s := s') as (d & E & Hr); [rewrite length_app; simpl; lia|done|].
    exists (l ++ NEWLINE :: d). rewrite <-app_assoc. simpl. by rewrite <-E.
Qed.

(** ** The loop prints the matching lines *)
Definition grep_out (re : cstr) (ls : list cstr) : list cstr :=
  (fun l => l ++ [NEWLINE]) <$> filter (fun l => occurs (read_pattern re) l) ls.

Lemma grep_out_cons re l ls : grep_out re (l :: ls) =
  (if match_re re l then [l ++ [NEWLINE]] else []) ++ grep_out re ls.
Proof.
  unfold grep_out. destruct (match_re re l) eqn:E.
  - apply match_occurs in E. by rewrite filter_cons_True.
  - rewrite filter_cons_False; [done|]. rewrite <-match_occurs. congruence.
Qed.

Lemma grep_out_app re a b : grep_out re (a ++ b) = grep_out re a ++ grep_out re b.
Proof. unfold grep_out. by rewrite filter_app, fmap_app. Qed.

Section grep_spec.
Context {W : Type} `{ReadLaws W}.

Lemma cstr_at_line buf p l s : cstr_at buf p (l ++ NEWLINE :: s) -> exists pre post,
  length pre = p /\ buf = pre ++ l ++ NEWLINE :: s ++ NUL :: post /\
  no_nul l /\ forall x, cstr_at (pre ++ l ++ x :: s ++ NUL :: post) (p + length l + 1) s.
Proof.
  intros (Hn & pre & post & -> & <-). exists pre, post. split; [done|].
  rewrite <-app_assoc. split; [done|]. apply no_nul_app in Hn as [Hl Hs].
  apply no_nul_cons in Hs as [_ Hs]. split; [done|]. intros x. split; [done|].
  exists (pre ++ l ++ [x]), post. rewrite <-!app_assoc, !length_app. simpl. split; [done|lia].
Qed.

Lemma store_at {A} (pre l : list A) x y s : store (pre ++ l ++ x :: s) (length pre + length l) y =
  Ret (pre ++ l ++ y :: s).
Proof.
  rewrite store_ret by (rewrite !length_app; simpl; lia). f_equal.
  rewrite insert_app_r_alt by lia. f_equal. rewrite insert_app_r_alt by lia. f_equal.
  by replace (length pre + length l - length pre - length l) with 0 by lia.
Qed.

Lemma grep_lines_spec re fuel : forall buf p s, cstr_at buf p s -> length s < fuel ->
  exists buf', grep_lines re buf p fuel =
    Ret (grep_out re (fst (lines_of s)), buf', p + (length s - length (snd (lines_of s)))) /\
    length buf' = length buf /\
    cstr_at buf' (p + (length s - length (snd (lines_of s)))) (snd (lines_of s)).
Proof.
  induction fuel as [|fuel IH]; intros buf p s Hb Hf; [lia|]. cbn [grep_lines].
  destruct (first_line s) as [Hs|(l & s' & -> & Hl)].
  - rewrite (ustrchr_none _ _ _ _ Hb Hs). cbn [obind]. rewrite lines_of_none by done. simpl.
    rewrite Nat.sub_diag, Nat.add_0_r. by exists buf.
  - rewrite (ustrchr_some _ _ _ _ _ Hb Hl). cbn [obind].
    destruct (cstr_at_line _ _ _ _ Hb) as (pre & post & <- & -> & Hn & Hx).
    rewrite store_at. cbn [obind]. rewrite drop_app_length, cstr_prefix_stop by done.
    rewrite lines_of_line by done. cbn [fst snd]. rewrite grep_out_cons.
    rewrite length_app in *. simpl in *.
    assert (exists x, (if match_re re l then
        let* buf := store (pre ++ l ++ NUL :: s' ++ NUL :: post) (length pre + length l) NEWLINE in
        Ret ([slice (length pre) (length pre + length l + 1 - length pre) buf], buf)
      else Ret ([], pre ++ l ++ NUL :: s' ++ NUL :: post)) =
      Ret (if match_re re l then [l ++ [NEWLINE]] else [], pre ++ l ++ x :: s' ++ NUL :: post))
      as [x ->].
    { destruct (match_re re l); [exists NEWLINE|by exists NUL]. rewrite store_at. cbn [obind].
      do 3 f_equal. unfold slice. rewrite drop_app_length.
      replace (length pre + length l + 1 - length pre) with (length (l ++ [NEWLINE]))
        by (rewrite length_app; simpl; lia).
      replace (l ++ NEWLINE :: s' ++ NUL :: post) with ((l ++ [NEWLINE]) ++ s' ++ NUL :: post)
        by (by rewrite <-app_assoc).
      apply take_app_length. }
    cbn [obind]. destruct (IH _ _ _ (Hx x)) as (buf' & -> & Hlen & Hat); [lia|]. cbn [obind].
    assert (length (snd (lines_of s')) <= length s').
    { destruct (lines_of_rest s') as (d & E & _). rewrite E at 2. rewrite length_app. lia. }
    exists buf'. replace (length pre + (length l + S (length s') - length (snd (lines_of s'))))
      with (length pre + length l + 1 + (length s' - length (snd (lines_of s')))) by lia.
    split; [done|]. split; [|done]. rewrite Hlen, !length_app. done.
Qed.

(** What is left of the line at the end of the buffer, moved to its start. *)
Lemma keep_rest buf n p r : cstr_at buf p r -> p + length r = n ->
  exists buf', umemmove buf 0 p (n - p) = Ret buf' /\ length buf' = length buf /\
    take (length r) buf' = r.
Proof.
  intros Hr Hp. pose proof (cstr_at_length _ _ _ Hr). replace (n - p) with (length r) by lia.
  rewrite umemmove_spec by lia. eexists. split; [done|].
  destruct Hr as (_ & pre & post & -> & <-).
  assert (slice (length pre) (length r) (pre ++ r ++ NUL :: post) = r) as ->.
  { unfold slice. rewrite drop_app_length. apply take_app_length. }
  split; [apply length_splice; rewrite !length_app; simpl; lia|]. unfold splice. simpl.
  apply take_app_length.
Qed.

(** The buffer after a read: what was kept, what was read, a NUL. *)
Lemma filled buf r got : take (length r) buf = r -> length r + length got < length buf ->
  no_nul (r ++ got) -> exists buf', store (splice (length r) got buf) (length r + length got) NUL = Ret buf' /\
    length buf' = length buf /\ cstr_at buf' 0 (r ++ got).
Proof.
  intros Hr Hl Hn. rewrite store_ret by (rewrite length_splice; lia). eexists. split; [done|].
  split; [rewrite length_insert, length_splice; lia|]. split; [done|].
  exists [], (drop (length r + length got + 1) buf). split; [|done]. simpl. unfold splice. rewrite Hr, app_assoc.
  rewrite <-length_app, insert_app_r_alt, Nat.sub_diag by lia. f_equal.
  destruct (drop (length (r ++ got)) buf) as [|y l] eqn:Ed.
  { apply (f_equal length) in Ed. rewrite length_drop, length_app in Ed. simpl in Ed. lia. }
  simpl. f_equal. rewrite <-drop_drop, Ed. done.
Qed.

(** A short line leaves room to read on. *)
Lemma room r data : NEWLINE ∉ r ->
  Forall (fun l => length l <= 1022) (fst (lines_of (r ++ data)) ++ [snd (lines_of (r ++ data))]) ->
  length r <= 1022.
Proof.
  intros Hr Hl. destruct (first_line data) as [Hdn|(l & d & -> & Hll)].
  - rewrite (lines_of_none (r ++ data)) in Hl by set_solver. simpl in Hl.
    apply Forall_inv in Hl. rewrite length_app in Hl. lia.
  - rewrite app_assoc, lines_of_line in Hl by set_solver. simpl in Hl. apply Forall_inv in Hl.
    rewrite length_app in Hl. lia.
Qed.

Lemma grep_loop_spec re fd : forall fuel w data buf r,
  delivers w fd data -> length data < fuel -> length buf = 1024 -> take (length r) buf = r ->
  NEWLINE ∉ r -> no_nul (r ++ data) ->
  Forall (fun l => length l <= 1022) (fst (lines_of (r ++ data)) ++ [snd (lines_of (r ++ data))]) ->
  exists buf' w', grep_loop w re fd buf (length r) fuel =
    Ret (grep_out re (fst (lines_of (r ++ data))), buf', w') /\ delivers w' fd [] /\ length buf' = 1024.
Proof.
  induction fuel as [|fuel IH]; intros w data buf r Hw Hf Hb Hr Hnl Hn Hl; [lia|]. cbn [grep_loop].
  pose proof (room _ _ Hnl Hl) as Hroom. destruct (decide (data = [])) as [->|Hd].
  { destruct (read_end w fd (length buf - length r - 1) Hw) as (w' & -> & Hw'). simpl.
    rewrite app_nil_r, lines_of_none by done. by exists buf, w'. }
  destruct (read_some w fd (length buf - length r - 1) data Hw) as (k & w' & Hk & Hk' & -> & Hw'); [lia|done|].
  rewrite (proj2 (Z.ltb_lt _ _)) by lia. rewrite Nat2Z.id. cbv zeta.
  replace (r ++ data) with ((r ++ take k data) ++ drop k data) in *
    by (by rewrite <-app_assoc, take_drop).
  assert (length (take k data) = k) as Hgot by (apply length_take_le; lia).
  assert (length (drop k data) < fuel) as Hf' by (rewrite length_drop; lia).
  generalize dependent (take k data). generalize dependent (drop k data). clear Hf Hd.
  intros rest Hw' Hf got Hn Hl <-.
  destruct (filled buf r got) as (buf0 & -> & Hl0 & Hat); [done|lia|by apply no_nul_app in Hn as [? _]|].
  cbn [obind].
  destruct (grep_lines_spec re (S (length buf0)) _ 0 _ Hat) as (buf1 & -> & Hl1 & Hat1).
  { rewrite length_app. lia. }
  cbn [obind]. rewrite decide_True by lia.
  destruct (lines_of_rest (r ++ got)) as (d & Ed & Hrn).
  rewrite (lines_of_app (r ++ got) rest) in Hl |- *. cbn [fst snd] in Hl |- *.
  rewrite grep_out_app. set (r' := snd (lines_of (r ++ got))) in *. rewrite Nat.add_0_l in *.
  assert (length r' <= length (r ++ got)) by (rewrite Ed, length_app; lia).
  rewrite <-length_app.
  destruct (keep_rest buf1 (length (r ++ got)) _ _ Hat1) as (buf2 & -> & Hl2 & Hk2); [lia|].
  cbn [obind]. replace (length (r ++ got) - (length (r ++ got) - length r')) with (length r') by lia.
  destruct (IH w' rest buf2 r') as (buf' & w'' & -> & Hw'' & Hb'); try done.
  - lia.
  - rewrite Ed, <-app_assoc in Hn. by apply no_nul_app in Hn as [_ ?].
  - by rewrite <-app_assoc in Hl; apply Forall_app in Hl as [_ ?].
  - cbn [obind]. by exists buf', w''.
Qed.
End grep_spec.

(** C30.  grep prints exactly the lines of its input that contain a match of
    the pattern, each with its newline and in order, whatever the sizes of the
    pieces that [read] delivers: for every input without NUL bytes whose lines
    have at most 1022 characters.  (A last line without a newline is read but
    never printed.) *)
Theorem grep_prints {W} `{ReadLaws W} (w : W) (re : cstr) (fd : Z) (data : cstr) (buf : list ascii)
    (fuel : nat) (Hw : delivers w fd data) (Hbuf : length buf = 1024) (Hn : no_nul data)
    (Hl : Forall (fun l => length l <= 1022) (fst (lines_of data) ++ [snd (lines_of data)]))
    (Hf : length data < fuel) :
  exists buf' w', grep w re fd buf fuel =
    Ret ((fun l => l ++ [NEWLINE]) <$>
         filter (fun l => occurs (read_pattern re) l) (fst (lines_of data)), buf', w') /\
    delivers w' fd [].
Proof.
  destruct (grep_loop_spec re fd fuel w data buf []) as (buf' & w' & Hg & Hw' & _); try done.
  { set_solver. }
  by exists buf', w'.
Qed.

Lemma grep_prints_witness :
  exists buf' w', grep (H := chunks 3) (c_str "ab" ++ NEWLINE :: c_str "xaaab" ++ [NEWLINE])
    (c_str "aa*b$") 0 (replicate 1024 NUL) 20 = Ret ([c_str "ab" ++ [NEWLINE]; c_str "xaaab" ++ [NEWLINE]], buf', w') /\
    delivers (ReadOS := chunks 3) w' 0 [].
Proof.
  apply (@grep_prints _ (chunks 3) (chunks_laws 3 ltac:(lia))
    (c_str "ab" ++ NEWLINE :: c_str "xaaab" ++ [NEWLINE]) (c_str "aa*b$") 0
    (c_str "ab" ++ NEWLINE :: c_str "xaaab" ++ [NEWLINE]) (replicate 1024 NUL) 20).
  - reflexivity.
  - reflexivity.
  - apply (bool_decide_unpack _). vm_compute. exact I.
  - apply (bool_decide_unpack _). vm_compute. exact I.
  - simpl. lia.
Defined.

(** A last line without a newline is never printed, and a line that fills the
    buffer ends the search: the lines behind it are not read. *)
Example grep_last_line :
  exists buf' w', grep (H := chunks 100) (c_str "x" ++ NEWLINE :: c_str "ab") (c_str "ab") 0
    (replicate 1024 NUL) 5 = Ret ([], buf', w').
Proof. eexists _, _. vm_compute. reflexivity. Qed.

Example grep_long_line :
  exists buf' w', grep (H := chunks 5000) (replicate 1023 "x"%char ++ NEWLINE :: c_str "ab" ++ [NEWLINE])
    (c_str "ab") 0 (replicate 1024 NUL) 5 = Ret ([], buf', w').
Proof. eexists _, _. vm_compute. reflexivity. Qed.
