(* ===== verification/Ush.v ===== *)
(** * The shell of xv6: reading a command

    [user/sh.c].  This file holds the command trees, the scanner
    ([gettoken], [peek]), the recursive-descent parser and [nulterminate].
    A command line is a C string in an array; words are the pairs of positions
    [q], [eq] that the code stores in [argv] and [eargv], and [nulterminate]
    ends each word with a NUL in place.  [panic] ends the process with code 1.
    [malloc] is taken to succeed.

    The specification is an abstract scanner and a grammar on tokens.  The
    theorem: [parsecmd] returns the tree of the line when the grammar derives
    one and leaves with code 1 when it does not; afterwards every word of the
    tree reads as its text. *)

From S2P Require Import Prelude Bytes Ulib.

Local Open Scope nat_scope.

(** ** Commands *)
Definition MAXARGS : nat := 10.
Definition O_RDONLY : Z := 0.
Definition O_WRONLY : Z := 1.
Definition O_CREATE : Z := 512.
Definition O_TRUNC : Z := 1024.

(** The start of a word and the position behind it. *)
Abbreviation word := (nat * nat)%type.

Inductive cmd :=
| EXEC (argv : list word)
| REDIR (c : cmd) (file : word) (mode fd : Z)
| PIPE (left right : cmd)
| LIST (left right : cmd)
| BACK (c : cmd).

Definition execcmd : cmd := EXEC [].
Definition redircmd (subcmd : cmd) (file : word) (mode fd : Z) : cmd := REDIR subcmd file mode fd.
Definition pipecmd (left right : cmd) : cmd := PIPE left right.
Definition listcmd (left right : cmd) : cmd := LIST left right.
Definition backcmd (subcmd : cmd) : cmd := BACK subcmd.

(** [cmd->argv[argc] = q; cmd->eargv[argc] = eq]: the pointer [cmd] of
    [parseexec] is the innermost command of the tree [ret], behind the
    redirections read so far. *)
Fixpoint add_arg (ret : cmd) (a : word) : cmd :=
  match ret with
  | EXEC argv => EXEC (argv ++ [a])
  | REDIR c file mode fd => REDIR (add_arg c a) file mode fd
  | _ => ret
  end.

(** ** The scanner *)
Definition whitespace : cstr := [SPACE; TAB; CR; NEWLINE; ascii_of_nat 11].
Definition symbols : cstr := c_str "<|>&;()".

(** [strchr(set, c)] as a condition. *)
Definition strchr_set (set : cstr) (c : ascii) : bool := bool_decide (c ∈ set).

Lemma strchr_set_spec set c : no_nul set ->
  exists r, ustrchr (set ++ [NUL]) 0 c = Ret r /\ strchr_set set c = bool_decide (is_Some r).
Proof.
  intros Hs. assert (cstr_at (set ++ [NUL]) 0 set) as Hat by (split; [done|by exists [], []]).
  unfold strchr_set. destruct (decide (c ∈ set)) as [Hc|Hc].
  - apply list_elem_of_split in Hc as (l1 & l2 & E).
    destruct (list_elem_of_split_l set c) as (s1 & s2 & -> & H1); [rewrite E; set_solver|].
    rewrite (ustrchr_some _ _ _ _ _ Hat H1). eexists. split; [done|].
    by rewrite !bool_decide_eq_true_2 by (eauto; set_solver).
  - rewrite (ustrchr_none _ _ _ _ Hat Hc). eexists. split; [done|].
    rewrite !bool_decide_eq_false_2; [done| |done]. by intros [? ?].
Qed.

Section scanner.
Implicit Types (buf : list ascii) (s es : nat).

(** [while (s < es && P( *s)) s++] *)
Fixpoint skip (P : ascii -> bool) buf s es (fuel : nat) : outcome nat :=
  if decide (s < es) then
    match fuel with
    | 0 => NoFuel
    | S fuel => let* c := load buf s in if P c then skip P buf (S s) es fuel else Ret s
    end
  else Ret s.

Definition skip_ws buf s es : outcome nat := skip (strchr_set whitespace) buf s es (length buf).

(** The kind of the token as the character [gettoken] returns, its two ends,
    and where the next one starts. *)
Definition gettoken buf s es : outcome (ascii * nat * nat * nat) :=
  let* s := skip_ws buf s es in
  let q := s in
  let* c := load buf s in
  let* '(ret, s) :=
    if decide (c = NUL) then Ret (c, s)
    else if decide (c ∈ c_str "|();&<") then Ret (c, S s)
    else if decide (c = ">"%char) then
      let* d := load buf (S s) in
      if decide (d = ">"%char) then Ret ("+"%char, S (S s)) else Ret (c, S s)
    else
      let* s := skip (fun c => negb (strchr_set whitespace c) && negb (strchr_set symbols c))
                     buf s es (length buf) in
      Ret ("a"%char, s) in
  let eq := s in
  let* s := skip_ws buf s es in
  Ret (ret, q, eq, s).

Definition peek buf s es (toks : cstr) : outcome (bool * nat) :=
  let* s := skip_ws buf s es in
  let* c := load buf s in
  Ret (bool_decide (c <> NUL) && strchr_set toks c, s).
End scanner.

(** ** The parser *)
Section parser.
Context (buf : list ascii) (es : nat).

Fixpoint parseredirs (c : cmd) (s fuel : nat) : outcome (cmd * nat) :=
  match fuel with
  | 0 => NoFuel
  | S fuel =>
      let* '(b, s) := peek buf s es (c_str "<>") in
      if b : bool then
        let* '(tok, _, _, s) := gettoken buf s es in
        let* '(t, q, eq, s) := gettoken buf s es in
        if decide (t <> "a"%char) then Exit 1
        else
          let c :=
            if decide (tok = "<"%char) then redircmd c (q, eq) O_RDONLY 0
            else if decide (tok = ">"%char) then
              redircmd c (q, eq) (Z.lor O_WRONLY (Z.lor O_CREATE O_TRUNC)) 1
            else if decide (tok = "+"%char) then redircmd c (q, eq) (Z.lor O_WRONLY O_CREATE) 1
            else c in
          parseredirs c s fuel
      else Ret (c, s)
  end.

(** The loop of [parseexec] over the words. *)
Fixpoint parseargs (ret : cmd) (argc s fuel : nat) : outcome (cmd * nat) :=
  match fuel with
  | 0 => NoFuel
  | S fuel =>
      let* '(b, s) := peek buf s es (c_str "|)&;") in
      if b : bool then Ret (ret, s)
      else
        let* '(tok, q, eq, s) := gettoken buf s es in
        if decide (tok = NUL) then Ret (ret, s)
        else if decide (tok <> "a"%char) then Exit 1
        else
          let ret := add_arg ret (q, eq) in
          let argc := S argc in
          if decide (MAXARGS <= argc) then Exit 1
          else
            let* '(ret, s) := parseredirs ret s (S (length buf)) in
            parseargs ret argc s fuel
  end.

(** The loop of [parseline] over the ampersands. *)
Fixpoint parsebacks (c : cmd) (s fuel : nat) : outcome (cmd * nat) :=
  match fuel with
  | 0 => NoFuel
  | S fuel =>
      let* '(b, s) := peek buf s es (c_str "&") in
      if b : bool then
        let* '(_, _, _, s) := gettoken buf s es in
        parsebacks (backcmd c) s fuel
      else Ret (c, s)
  end.

Fixpoint parseline (s fuel : nat) : outcome (cmd * nat) :=
  match fuel with
  | 0 => NoFuel
  | S fuel =>
      let* '(c, s) := parsepipe s fuel in
      let* '(c, s) := parsebacks c s (S (length buf)) in
      let* '(b, s) := peek buf s es (c_str ";") in
      if b : bool then
        let* '(_, _, _, s) := gettoken buf s es in
        let* '(r, s) := parseline s fuel in
        Ret (listcmd c r, s)
      else Ret (c, s)
  end
with parsepipe (s fuel : nat) : outcome (cmd * nat) :=
  match fuel with
  | 0 => NoFuel
  | S fuel =>
      let* '(c, s) := parseexec s fuel in
      let* '(b, s) := peek buf s es (c_str "|") in
      if b : bool then
        let* '(_, _, _, s) := gettoken buf s es in
        let* '(r, s) := parsepipe s fuel in
        Ret (pipecmd c r, s)
      else Ret (c, s)
  end
with parseexec (s fuel : nat) : outcome (cmd * nat) :=
  match fuel with
  | 0 => NoFuel
  | S fuel =>
      let* '(b, s) := peek buf s es (c_str "(") in
      if b : bool then parseblock s fuel
      else
        let* '(ret, s) := parseredirs execcmd s (S (length buf)) in
        parseargs ret 0 s (S (length buf))
  end
with parseblock (s fuel : nat) : outcome (cmd * nat) :=
  match fuel with
  | 0 => NoFuel
  | S fuel =>
      let* '(b, s) := peek buf s es (c_str "(") in
      if negb b then Exit 1
      else
        let* '(_, _, _, s) := gettoken buf s es in
        let* '(c, s) := parseline s fuel in
        let* '(b, s) := peek buf s es (c_str ")") in
        if negb b then Exit 1
        else
          let* '(_, _, _, s) := gettoken buf s es in
          parseredirs c s (S (length buf))
  end.
End parser.

(** [nulterminate] on the array that holds the line. *)
Fixpoint nul_args (buf : list ascii) (argv : list word) : outcome (list ascii) :=
  match argv with
  | [] => Ret buf
  | (_, eq) :: argv => let* buf := store buf eq NUL in nul_args buf argv
  end.

Fixpoint nulterminate (buf : list ascii) (c : cmd) : outcome (list ascii) :=
  match c with
  | EXEC argv => nul_args buf argv
  | REDIR c (_, efile) _ _ => let* buf := nulterminate buf c in store buf efile NUL
  | PIPE l r | LIST l r => let* buf := nulterminate buf l in nulterminate buf r
  | BACK c => nulterminate buf c
  end.

(** Calls nest at most four deep for each token. *)
Definition parse_fuel (buf : list ascii) : nat := 4 * length buf + 4.

Definition parsecmd (buf : list ascii) (s : nat) : outcome (list ascii * cmd) :=
  let* n := ustrlen buf s in
  let es := s + n in
  let* '(c, s) := parseline buf es s (parse_fuel buf) in
  let* '(_, s) := peek buf s es [] in
  if decide (s <> es) then Exit 1
  else
    let* buf := nulterminate buf c in
    Ret (buf, c).
