(* ===== verification/UshParse.v ===== *)
(** * The shell of xv6: the parser decides its grammar

    An abstract scanner on lists of characters, the grammar of the command
    language on its tokens, and the proof that [parsecmd] of [Ush] computes
    the tree that the grammar gives to a line.  Without a tree the process
    ends with code 1. *)

From S2P Require Import Prelude Bytes Ulib Ush.

Local Open Scope nat_scope.

(** ** Tokens

    A word with its two ends, or a symbol; [>>] is the symbol [+]. *)
Inductive token := TWord (q eq : nat) | TSym (c : ascii).

Definition word_char (c : ascii) : bool := negb (strchr_set whitespace c) && negb (strchr_set symbols c).

(** [cur] is the start of the word the scanner is in. *)
Definition flush (cur : option nat) (i : nat) : list token :=
  match cur with Some q => [TWord q i] | None => [] end.

Fixpoint lex (i : nat) (cur : option nat) (l : cstr) : list token :=
  match l with
  | [] => flush cur i
  | c :: l =>
      if strchr_set whitespace c then flush cur i ++ lex (S i) None l
      else if strchr_set symbols c then
        flush cur i ++
        match l with
        | d :: l' =>
            if decide (c = ">"%char /\ d = ">"%char) then TSym "+"%char :: lex (S (S i)) None l'
            else TSym c :: lex (S i) None l
        | [] => TSym c :: lex (S i) None l
        end
      else lex (S i) (Some (default i cur)) l
  end.

(** ** The grammar

    A simple command is a list of words and redirections in any order; its
    tree has the redirections around the words, the last outermost. *)
Inductive item := IWord (w : word) | IRedir (k : ascii) (w : word).

Definition item_tokens (it : item) : list token :=
  match it with
  | IWord (q, eq) => [TWord q eq]
  | IRedir k (q, eq) => [TSym k; TWord q eq]
  end.

Definition item_ok (it : item) : Prop :=
  match it with IWord _ => True | IRedir k _ => k ∈ c_str "<>+" end.

Definition is_redir (it : item) : Prop := match it with IWord _ => False | IRedir _ _ => True end.

Definition words (its : list item) : list word :=
  omap (fun it => match it with IWord w => Some w | IRedir _ _ => None end) its.

Definition redir_mode (k : ascii) : Z :=
  if decide (k = "<"%char) then O_RDONLY
  else if decide (k = ">"%char) then Z.lor O_WRONLY (Z.lor O_CREATE O_TRUNC)
  else Z.lor O_WRONLY O_CREATE.
Definition redir_fd (k : ascii) : Z := if decide (k = "<"%char) then 0%Z else 1%Z.

Definition wrap1 (c : cmd) (it : item) : cmd :=
  match it with IWord _ => c | IRedir k w => REDIR c w (redir_mode k) (redir_fd k) end.
Definition wrap (its : list item) (c : cmd) : cmd := foldl wrap1 c its.

Abbreviation toks its := (concat (item_tokens <$> its)).
Abbreviation amps n := (replicate n (TSym "&"%char)).

Inductive command : list token -> cmd -> Prop :=
| c_simple its : Forall item_ok its -> length (words its) < MAXARGS ->
    command (toks its) (wrap its (EXEC (words its)))
| c_block ts c rs : line ts c -> Forall item_ok rs -> Forall is_redir rs ->
    command (TSym "("%char :: ts ++ TSym ")"%char :: toks rs) (wrap rs c)
with pipeline : list token -> cmd -> Prop :=
| p_one ts c : command ts c -> pipeline ts c
| p_more ts c ts' c' : command ts c -> pipeline ts' c' ->
    pipeline (ts ++ TSym "|"%char :: ts') (PIPE c c')
with line : list token -> cmd -> Prop :=
| l_one ts c n : pipeline ts c -> line (ts ++ amps n) (Nat.iter n BACK c)
| l_more ts c n ts' c' : pipeline ts c -> line ts' c' ->
    line (ts ++ amps n ++ TSym ";"%char :: ts') (LIST (Nat.iter n BACK c) c').

Scheme command_ind3 := Induction for command Sort Prop
with pipeline_ind3 := Induction for pipeline Sort Prop
with line_ind3 := Induction for line Sort Prop.
Combined Scheme grammar_ind from command_ind3, pipeline_ind3, line_ind3.

(** ** The scanner on tokens *)
Lemma lex_ws i ws l : Forall (fun c => strchr_set whitespace c = true) ws ->
  lex i None (ws ++ l) = lex (i + length ws) None l.
Proof.
  intros Hw. revert i. induction Hw as [|c ws Hc Hw IH]; intros i; simpl; [by rewrite Nat.add_0_r|].
  rewrite Hc. simpl. rewrite IH. f_equal. lia.
Qed.

Lemma lex_word_cur i q w l : Forall (fun c => word_char c = true) w ->
  match l with [] => True | c :: _ => word_char c = false end ->
  lex i (Some q) (w ++ l) = TWord q (i + length w) :: lex (i + length w) None l.
Proof.
  intros Hw Hl. revert i. induction Hw as [|c w Hc Hw IH]; intros i; simpl.
  - rewrite Nat.add_0_r. destruct l as [|c l]; [done|]. simpl.
    destruct (strchr_set whitespace c) eqn:E1; [done|].
    destruct (strchr_set symbols c) eqn:E2; [done|]. unfold word_char in Hl. by rewrite E1, E2 in Hl.
  - unfold word_char in Hc. apply andb_true_iff in Hc as [H1 H2].
    apply negb_true_iff in H1, H2. rewrite H1, H2. rewrite IH. do 2 f_equal; lia.
Qed.

Lemma lex_word i c w l : Forall (fun c => word_char c = true) (c :: w) ->
  match l with [] => True | c :: _ => word_char c = false end ->
  lex i None (c :: w ++ l) = TWord i (i + S (length w)) :: lex (i + S (length w)) None l.
Proof.
  intros Hw Hl. etrans; [|exact (lex_word_cur i i (c :: w) l Hw Hl)].
  apply Forall_inv in Hw. unfold word_char in Hw. apply andb_true_iff in Hw as [H1 H2].
  apply negb_true_iff in H1, H2. simpl. by rewrite H1, H2.
Qed.

Section scan.
Context (buf : list ascii) (es : nat).

(** From position [s] the line holds the text [l]; its tokens are [ts]. *)
Definition text_at (s : nat) (l : cstr) : Prop := cstr_at buf s l /\ s + length l = es.
Definition tokens_at (s : nat) (ts : list token) : Prop := exists l, text_at s l /\ lex s None l = ts.

Lemma text_at_app s w l : text_at s (w ++ l) -> text_at (s + length w) l.
Proof.
  intros [H E]. split; [|rewrite length_app in E; lia]. revert s E H.
  induction w as [|c w IH]; intros s E H; simpl in *; [by rewrite Nat.add_0_r|].
  apply cstr_at_cons in H as (_ & _ & H). rewrite Nat.add_succ_r. apply (IH (S s)); [lia|done].
Qed.

Lemma text_at_load s l : text_at s l -> load buf s = Ret (hd NUL l).
Proof.
  intros [H _]. destruct l; [apply load_ret, (cstr_at_nil _ _ H)|].
  apply cstr_at_cons in H as (H & _ & _). by apply load_ret.
Qed.

Lemma text_at_no_nul s l : text_at s l -> no_nul l.
Proof. by intros [[? _] _]. Qed.

Lemma text_at_buf s l : text_at s l -> length l < length buf.
Proof. intros [H _]. apply cstr_at_length in H. lia. Qed.

(** The stretch of characters that satisfy [P]. *)
Lemma skip_spec P l : forall s fuel, text_at s l -> length l <= fuel ->
  exists w l', l = w ++ l' /\ Forall (fun c => P c = true) w /\
    match l' with [] => True | c :: _ => P c = false end /\ skip P buf s es fuel = Ret (s + length w).
Proof.
  induction l as [|c l IH]; intros s fuel Ht Hf.
  { exists [], []. repeat split; [constructor|]. destruct Ht as [_ E]. simpl in *.
    unfold skip. rewrite Nat.add_0_r. destruct fuel; by rewrite decide_False by lia. }
  simpl in Hf. destruct fuel as [|fuel]; [lia|]. cbn [skip]. pose proof (text_at_load _ _ Ht) as Hc.
  rewrite decide_True by (destruct Ht as [_ E]; simpl in E; lia). rewrite Hc. cbn [obind hd].
  destruct (P c) eqn:Ep.
  - destruct (IH (S s) fuel) as (w & l' & -> & Hw & Hl & ->); [|lia|].
    { apply (text_at_app s [c]) in Ht. by rewrite Nat.add_1_r in Ht. }
    exists (c :: w), l'. split; [done|]. split; [by constructor|]. split; [done|]. f_equal. simpl. lia.
  - exists [], (c :: l). rewrite Nat.add_0_r. by repeat split.
Qed.

(** White space is skipped without changing the tokens. *)
Lemma skip_ws_spec s ts : tokens_at s ts -> exists s' l, skip_ws buf s es = Ret s' /\ text_at s' l /\
  lex s' None l = ts /\ match l with [] => True | c :: _ => strchr_set whitespace c = false end.
Proof.
  intros (l & Ht & Hl). destruct (skip_spec (strchr_set whitespace) l s (length buf)) as (w & l' & -> & Hw & Hc & Hs);
    [done|apply text_at_buf in Ht; lia|].
  exists (s + length w), l'. split; [done|]. split; [by apply text_at_app|].
  split; [by rewrite <-lex_ws|done].
Qed.

(** What [peek] sees of a token. *)
Definition first_in (set : cstr) (ts : list token) : bool :=
  match ts with
  | TSym c :: _ => strchr_set set (if decide (c = "+"%char) then ">"%char else c)
  | _ => false
  end.

(** The first token of a text that starts with no white space. *)
Lemma lex_first i c l : strchr_set whitespace c = false -> forall ts, lex i None (c :: l) = ts ->
  if strchr_set symbols c then
    exists k ts', ts = TSym k :: ts' /\ (if decide (k = "+"%char) then ">"%char else k) = c
  else exists q eq ts', ts = TWord q eq :: ts'.
Proof.
  intros Hw ts <-. cbn [lex]. rewrite Hw. destruct (strchr_set symbols c) eqn:Hs.
  - assert (c <> "+"%char) by (intros ->; discriminate Hs). unfold flush. simpl app.
    destruct l as [|d l]; [by exists c, []; rewrite decide_False|].
    destruct (decide (c = ">"%char /\ d = ">"%char)) as [[-> ->]|].
    + by exists "+"%char, (lex (S (S i)) None l).
    + exists c, (lex (S i) None (d :: l)). by rewrite decide_False.
  - cut (forall j q0, exists q eq ts', lex j (Some q0) l = TWord q eq :: ts'); [intros H; apply H|].
    induction l as [|d l IH]; intros j q; cbn [lex]; [by eexists _, _, _|].
    destruct (strchr_set whitespace d); [by eexists _, _, _|].
    destruct (strchr_set symbols d); [by eexists _, _, _|]. simpl. apply IH.
Qed.

Lemma peek_spec set s ts : tokens_at s ts -> (forall c, c ∈ set -> c ∈ symbols) ->
  exists s', peek buf s es set = Ret (first_in set ts, s') /\ tokens_at s' ts /\ (s' = es <-> ts = []).
Proof.
  intros Ht Hset. destruct (skip_ws_spec _ _ Ht) as (s' & l & Hs & Htx & Hl & Hc).
  unfold peek. rewrite Hs. cbn [obind]. rewrite (text_at_load _ _ Htx). cbn [obind].
  exists s'. split; [|split; [by exists l|]].
  - do 2 f_equal. destruct l as [|c l]; simpl hd; [by subst|].
    apply text_at_no_nul in Htx. apply no_nul_cons in Htx as [Hnul _].
    rewrite bool_decide_eq_true_2 by done. simpl. pose proof (lex_first s' c l Hc _ Hl) as Hf.
    destruct (strchr_set symbols c) eqn:Esym.
    + destruct Hf as (k & ts' & -> & Hk). simpl. by rewrite Hk.
    + destruct Hf as (q & eq & ts' & ->). simpl. apply bool_decide_eq_false_2.
      intros Hin. apply Hset in Hin. by apply bool_decide_eq_false in Esym.
  - destruct Htx as [_ He]. destruct l as [|c l]; simpl in He.
    + subst ts. simpl. split; [done|lia].
    + split; [lia|]. intros ->. pose proof (lex_first s' c l Hc _ Hl) as Hf.
      destruct (strchr_set symbols c); [destruct Hf as (? & ? & ? & ?)|destruct Hf as (? & ? & ? & ?)]; done.
Qed.

(** [gettoken] takes the first token. *)
Definition sym_ok (c : ascii) : Prop := c ∈ c_str "|();&<>+".

Definition took (ts : list token) (r : ascii * nat * nat * nat) : Prop :=
  let '(ret, q, eq, s) := r in
  match ts with
  | [] => ret = NUL /\ s = es /\ tokens_at s []
  | TWord q' eq' :: ts => ret = "a"%char /\ q = q' /\ eq = eq' /\ tokens_at s ts
  | TSym c :: ts => ret = c /\ sym_ok c /\ tokens_at s ts
  end.

Lemma symbols_cases c : strchr_set symbols c = true -> c ∈ c_str "|();&<" \/ c = ">"%char.
Proof. unfold strchr_set. rewrite bool_decide_eq_true. unfold symbols. simpl. set_solver. Qed.

(** The end of [gettoken]: behind the token only white space is skipped. *)
Lemma gettoken_end (ret : ascii) (q eq : nat) ts : tokens_at eq ts ->
  exists s', (let* s := skip_ws buf eq es in Ret (ret, q, eq, s)) = Ret (ret, q, eq, s') /\ tokens_at s' ts /\
    (ts = [] -> s' = es).
Proof.
  intros Ht. destruct (skip_ws_spec _ _ Ht) as (s' & l & -> & Htx & Hl & Hc). exists s'. split; [done|].
  split; [by exists l|]. intros ->. destruct l as [|c l]; [destruct Htx as [_ ?]; simpl in *; lia|].
  pose proof (lex_first s' c l Hc _ Hl) as Hf.
  destruct (strchr_set symbols c); [destruct Hf as (? & ? & ? & ?)|destruct Hf as (? & ? & ? & ?)]; done.
Qed.

Lemma gettoken_spec s ts : tokens_at s ts -> exists r, gettoken buf s es = Ret r /\ took ts r.
Proof.
  intros Ht. destruct (skip_ws_spec _ _ Ht) as (s' & l & Hs & Htx & Hl & Hc).
  unfold gettoken. rewrite Hs. cbn [obind]. rewrite (text_at_load _ _ Htx). cbn [obind].
  destruct l as [|c l]; cbn [hd].
  { rewrite decide_True by done. cbn [obind].
    destruct (gettoken_end NUL s' s' []) as (s'' & -> & Ht' & He); [by exists []|].
    eexists. split; [done|]. simpl in Hl. subst ts. simpl. auto. }
  pose proof (text_at_no_nul _ _ Htx) as Hnn. apply no_nul_cons in Hnn as [Hnul Hnn].
  rewrite decide_False by done. pose proof (text_at_app s' [c] l Htx) as Htx'. rewrite Nat.add_1_r in Htx'.
  cbn [lex] in Hl. rewrite Hc in Hl. destruct (strchr_set symbols c) eqn:Hsym.
  - destruct (decide (c = ">"%char)) as [->|Hgt].
    + rewrite decide_False by (simpl; set_solver). rewrite (text_at_load _ _ Htx'). cbn [obind].
      destruct l as [|d l]; cbn [hd]; [rewrite decide_False by done|destruct (decide (d = ">"%char)) as [->|Hd]];
        cbn [obind].
      * destruct (gettoken_end ">"%char s' (S s') []) as (s'' & -> & Ht' & He); [by exists []|].
        eexists. split; [done|]. subst ts. repeat split; [|done]. by apply (bool_decide_unpack _).
      * rewrite decide_True in Hl by done. pose proof (text_at_app (S s') [">"%char] l Htx') as Htx2.
        rewrite Nat.add_1_r in Htx2.
        destruct (gettoken_end "+"%char s' (S (S s')) (lex (S (S s')) None l)) as (s'' & -> & Ht' & He); [by exists l|].
        eexists. split; [done|]. subst ts. repeat split; [|done]. by apply (bool_decide_unpack _).
      * rewrite decide_False in Hl by tauto.
        destruct (gettoken_end ">"%char s' (S s') (lex (S s') None (d :: l))) as (s'' & -> & Ht' & He); [by exists (d :: l)|].
        eexists. split; [done|]. subst ts. repeat split; [|done]. by apply (bool_decide_unpack _).
    + destruct (symbols_cases c Hsym) as [Hin|]; [|done]. rewrite decide_True by done. cbn [obind].
      assert (ts = TSym c :: lex (S s') None l) as ->.
      { rewrite <-Hl. destruct l; [done|]. by rewrite decide_False by tauto. }
      destruct (gettoken_end c s' (S s') (lex (S s') None l)) as (s'' & -> & Ht' & He); [by exists l|].
      eexists. split; [done|]. repeat split; [|done]. unfold sym_ok. simpl in *. set_solver.
  - assert (c ∉ symbols) as Hns by (by apply bool_decide_eq_false in Hsym).
    rewrite !decide_False by (unfold symbols in Hns; simpl in *; set_solver).
    destruct (skip_spec word_char (c :: l) s' (length buf)) as (w & l' & E & Hw & Hstop & Hsk);
      [done|apply text_at_buf in Htx; lia|].
    unfold word_char in Hsk. rewrite Hsk. cbn [obind].
    destruct w as [|c' w].
    { simpl in E. subst l'. unfold word_char in Hstop. by rewrite Hc, Hsym in Hstop. }
    injection E as <- ->.
    assert (lex s' None (c :: w ++ l') = ts) as Hlex by (cbn [lex]; by rewrite Hc, Hsym).
    rewrite lex_word in Hlex by done.
    destruct (gettoken_end "a"%char s' (s' + length (c :: w)) (lex (s' + S (length w)) None l')) as (s'' & -> & Ht' & He).
    { exists l'. split; [|done]. apply text_at_app. done. }
    eexists. split; [done|]. clear Hl. by subst ts.
Qed.
End scan.

(** ** Trees of simple commands *)
Lemma wrap_app a b c : wrap (a ++ b) c = wrap b (wrap a c).
Proof. apply foldl_app. Qed.

Lemma words_app a b : words (a ++ b) = words a ++ words b.
Proof. apply omap_app. Qed.

Lemma words_redirs rs : Forall is_redir rs -> words rs = [].
Proof. induction 1 as [|[w|k w] rs Hr _ IH]; [done|done|]. exact IH. Qed.

(** A word stored behind the redirections. *)
Lemma add_arg_wrap its ws a : add_arg (wrap its (EXEC ws)) a = wrap its (EXEC (ws ++ [a])).
Proof.
  induction its as [|[w|k w] its IH] using rev_ind; [done|..]; rewrite !wrap_app; simpl; [done|].
  by rewrite IH.
Qed.

Lemma simple_word its rs a : Forall is_redir rs ->
  wrap rs (add_arg (wrap its (EXEC (words its))) a) =
    wrap (its ++ IWord a :: rs) (EXEC (words (its ++ IWord a :: rs))) /\
  words (its ++ IWord a :: rs) = words its ++ [a].
Proof.
  intros Hr. rewrite words_app. simpl. change (words (IWord a :: rs)) with (a :: words rs).
  rewrite (words_redirs rs) by done. split; [|done]. rewrite add_arg_wrap, wrap_app. done.
Qed.

Lemma toks_app a b : toks (a ++ b) = toks a ++ toks b.
Proof. by rewrite fmap_app, concat_app. Qed.

Lemma toks_cons it its : toks (it :: its) = item_tokens it ++ toks its.
Proof. done. Qed.

(** The leading redirections of a list of items. *)
Lemma split_redirs its : exists rs its', its = rs ++ its' /\ Forall is_redir rs /\
  (its' = [] \/ exists w its'', its' = IWord w :: its'').
Proof.
  induction its as [|[w|k w] its (rs & its' & -> & Hr & Ho)].
  - exists [], []. split; [done|]. split; [constructor|auto].
  - exists [], (IWord w :: rs ++ its'). split; [done|]. split; [constructor|eauto].
  - exists (IRedir k w :: rs), its'. split; [done|]. split; [by constructor|done].
Qed.

Lemma first_in_inv set ts : first_in set ts = true ->
  exists k ts', ts = TSym k :: ts' /\ (if decide (k = "+"%char) then ">"%char else k) ∈ set.
Proof.
  destruct ts as [|[q eq|k] ts]; simpl; try done. intros H%bool_decide_eq_true. eauto.
Qed.

(** ** Soundness: a tree that is returned is derived by the grammar, and
    nothing but [exit(1)] can happen instead. *)
Section parse.
Context (buf : list ascii) (es : nat).
Abbreviation tokens_at := (tokens_at buf es).
Abbreviation run := (wp (fun code : Z => code = 1%Z)).

Lemma run_peek E set s ts {A} (k : bool * nat -> outcome A) Q :
  tokens_at s ts -> (forall c, c ∈ set -> c ∈ symbols) ->
  (forall s', tokens_at s' ts -> wp E (k (first_in set ts, s')) Q) -> wp E (obind (peek buf s es set) k) Q.
Proof. intros Ht Hs Hk. destruct (peek_spec buf es set s ts) as (s' & -> & Hs' & _); [done..|]. by apply Hk. Qed.

Lemma run_gettoken E s ts {A} (k : ascii * nat * nat * nat -> outcome A) Q :
  tokens_at s ts -> (forall r, took buf es ts r -> wp E (k r) Q) -> wp E (obind (gettoken buf s es) k) Q.
Proof. intros Ht Hk. destruct (gettoken_spec buf es s ts) as (r & -> & Hr); [done|]. by apply Hk. Qed.

Ltac sym_set := intros ?; unfold symbols; simpl; set_solver.
Ltac peek_step s' Ht := eapply run_peek; [eassumption|sym_set|intros s' Ht; cbn beta iota].

(** A token that [gettoken] reports as a word. *)
Lemma took_word ts q eq s : took buf es ts ("a"%char, q, eq, s) ->
  exists ts', ts = TWord q eq :: ts' /\ tokens_at s ts'.
Proof.
  destruct ts as [|[q' eq'|c0] ts']; simpl.
  - by intros [? _].
  - intros (_ & -> & -> & ?). eauto.
  - intros (<- & Hs & _). exfalso. revert Hs. unfold sym_ok. apply (bool_decide_unpack _). by vm_compute.
Qed.

Lemma redir_case k q eq c : k ∈ c_str "<>+" ->
  (if decide (k = "<"%char) then redircmd c (q, eq) O_RDONLY 0
   else if decide (k = ">"%char) then redircmd c (q, eq) (Z.lor O_WRONLY (Z.lor O_CREATE O_TRUNC)) 1
   else if decide (k = "+"%char) then redircmd c (q, eq) (Z.lor O_WRONLY O_CREATE) 1
   else c) = wrap1 c (IRedir k (q, eq)).
Proof.
  simpl. unfold redir_mode, redir_fd. intros Hk. repeat case_decide; try done. set_solver.
Qed.

Lemma parseredirs_run fuel : forall c s ts, tokens_at s ts -> length ts < fuel ->
  run (parseredirs buf es c s fuel) (fun '(c', s') => exists rs rest, ts = toks rs ++ rest /\
    Forall item_ok rs /\ Forall is_redir rs /\ c' = wrap rs c /\ tokens_at s' rest).
Proof.
  induction fuel as [|fuel IH]; intros c s ts Ht Hf; [lia|]. cbn [parseredirs].
  peek_step s1 Ht1. destruct (first_in (c_str "<>") ts) eqn:Ef.
  2: { simpl. by exists [], ts. }
  apply first_in_inv in Ef as (k & ts' & -> & Hk).
  eapply run_gettoken; [exact Ht1|]. intros [[[tok q0] e0] s2] (-> & _ & Ht2).
  eapply run_gettoken; [exact Ht2|]. intros [[[t q] eq] s3] Ht3. simpl in Hf.
  destruct (decide (t <> "a"%char)) as [|Ha]; [done|]. apply dec_stable in Ha. subst t.
  apply took_word in Ht3 as (ts'' & -> & Ht3).
  assert (k ∈ c_str "<>+") as Hk' by (destruct (decide (k = "+"%char)); subst; simpl in *; set_solver).
  rewrite redir_case by done. eapply wp_mono; [apply IH; [exact Ht3|simpl in Hf; lia]|].
  intros [c' s'] (rs & rest & -> & Hok & Hr & -> & Hs'). exists (IRedir k (q, eq) :: rs), rest.
  split; [done|]. split; [by constructor|]. split; [by constructor|]. done.
Qed.

Lemma parseargs_run fuel : forall its s ts, tokens_at s ts -> length ts < fuel -> length ts <= length buf ->
  length (words its) < MAXARGS ->
  run (parseargs buf es (wrap its (EXEC (words its))) (length (words its)) s fuel) (fun '(c', s') =>
    exists its2 rest, ts = toks its2 ++ rest /\ Forall item_ok its2 /\
      length (words (its ++ its2)) < MAXARGS /\
      c' = wrap (its ++ its2) (EXEC (words (its ++ its2))) /\ tokens_at s' rest).
Proof.
  induction fuel as [|fuel IH]; intros its s ts Ht Hf Hb Hw; [lia|]. cbn [parseargs].
  peek_step s1 Ht1. destruct (first_in (c_str "|)&;") ts) eqn:Ef.
  { simpl. exists [], ts. by rewrite app_nil_r. }
  eapply run_gettoken; [exact Ht1|]. intros [[[tok q] eq] s2] Ht2.
  destruct (decide (tok = NUL)) as [->|Hnul].
  { destruct ts as [|[]]; simpl in Ht2.
    - destruct Ht2 as (_ & _ & ?). simpl. exists [], []. by rewrite (app_nil_r its).
    - by destruct Ht2 as [? _].
    - destruct Ht2 as (<- & Hs & _). exfalso. revert Hs. apply (bool_decide_unpack _). by vm_compute. }
  destruct (decide (tok <> "a"%char)) as [|Ha]; [done|]. apply dec_stable in Ha. subst tok.
  apply took_word in Ht2 as (ts' & -> & Ht2). simpl in Hf, Hb.
  destruct (decide (MAXARGS <= S (length (words its)))); [done|].
  apply wp_bind. eapply wp_mono; [apply parseredirs_run; [exact Ht2|lia]|].
  intros [ret s3] (rs & rest & -> & Hok & Hr & -> & Hs3).
  destruct (simple_word its rs (q, eq) Hr) as [-> Hwd]. rewrite length_app in *.
  assert (S (length (words its)) = length (words (its ++ IWord (q, eq) :: rs))) as ->
    by (rewrite Hwd, length_app; simpl; lia).
  eapply wp_mono; [apply IH; [exact Hs3|lia|lia|rewrite Hwd, length_app; simpl; lia]|].
  intros [c' s'] (its2 & rest' & -> & Hok2 & Hw2 & -> & Hs'). exists (IWord (q, eq) :: rs ++ its2), rest'.
  rewrite <-app_assoc in Hw2 |- *. split; [simpl; by rewrite fmap_app, concat_app, <-app_assoc|].
  split; [constructor; [done|by apply Forall_app]|]. done.
Qed.
Lemma parsebacks_run fuel : forall c s ts, tokens_at s ts -> length ts < fuel ->
  run (parsebacks buf es c s fuel) (fun '(c', s') => exists n rest, ts = amps n ++ rest /\
    c' = Nat.iter n BACK c /\ tokens_at s' rest).
Proof.
  induction fuel as [|fuel IH]; intros c s ts Ht Hf; [lia|]. cbn [parsebacks].
  peek_step s1 Ht1. destruct (first_in (c_str "&") ts) eqn:Ef.
  2: { simpl. by exists 0, ts. }
  apply first_in_inv in Ef as (k & ts' & -> & Hk). simpl in Hk, Hf.
  assert (k = "&"%char) as -> by (destruct (decide (k = "+"%char)); set_solver).
  eapply run_gettoken; [exact Ht1|]. intros [[[tok q0] e0] s2] (_ & _ & Ht2).
  eapply wp_mono; [apply IH; [exact Ht2|lia]|]. intros [c' s'] (n & rest & -> & -> & Hs').
  exists (S n), rest. split; [done|]. split; [symmetry; apply Nat.iter_succ_r|done].
Qed.

Definition parses (P : list token -> cmd -> Prop) (ts : list token) (r : cmd * nat) : Prop :=
  exists ts1 rest, ts = ts1 ++ rest /\ P ts1 (fst r) /\ tokens_at (snd r) rest.

Definition parse_ok (n : nat) (P : list token -> cmd -> Prop) (f : nat -> outcome (cmd * nat)) (fuel : nat) : Prop :=
  forall s ts, tokens_at s ts -> 4 * length ts + n <= fuel -> length ts <= length buf -> run (f s) (parses P ts).

Lemma parseexec_run fuel :
  parse_ok 1 command (fun s => parseblock buf es s fuel) fuel ->
  parse_ok 2 command (fun s => parseexec buf es s (S fuel)) (S fuel).
Proof.
  intros IH s ts Ht Hf Hb. cbn [parseexec]. peek_step s1 Ht1.
  destruct (first_in (c_str "(") ts) eqn:Ef; [apply IH; [done|lia|done]|].
  apply wp_bind. eapply wp_mono; [apply parseredirs_run; [exact Ht1|lia]|].
  intros [ret s2] (rs & rest & -> & Hok & Hr & -> & Hs2). rewrite length_app in *.
  assert (words rs = []) as Hw by (by apply words_redirs).
  pose proof (parseargs_run (S (length buf)) rs s2 rest Hs2) as Hargs. rewrite Hw in Hargs.
  eapply wp_mono; [apply Hargs; unfold MAXARGS; simpl; lia|].
  intros [c s'] (its & rest' & -> & Hok2 & Hlen & -> & Hs'). exists (toks (rs ++ its)), rest'.
  split; [by rewrite toks_app, app_assoc|]. split; [|done]. constructor; [by apply Forall_app|done].
Qed.

Lemma parseblock_run fuel :
  parse_ok 4 line (fun s => parseline buf es s fuel) fuel ->
  parse_ok 1 command (fun s => parseblock buf es s (S fuel)) (S fuel).
Proof.
  intros IH s ts Ht Hf Hb. cbn [parseblock]. peek_step s1 Ht1.
  destruct (first_in (c_str "(") ts) eqn:Ef; [|done]. simpl negb. cbv iota.
  apply first_in_inv in Ef as (k & ts' & -> & Hk). simpl in Hk, Hf, Hb.
  assert (k = "("%char) as -> by (destruct (decide (k = "+"%char)); set_solver).
  eapply run_gettoken; [exact Ht1|]. intros [[[tok q0] e0] s2] (_ & _ & Ht2).
  apply wp_bind. eapply wp_mono; [apply IH; [exact Ht2|lia|lia]|].
  intros [c s3] (ts1 & rest & -> & Hl & Hs3). simpl in Hl, Hs3. peek_step s4 Ht4.
  destruct (first_in (c_str ")") rest) eqn:Ef; [|done]. simpl negb. cbv iota.
  apply first_in_inv in Ef as (k & rest' & -> & Hk2). simpl in Hk2.
  assert (k = ")"%char) as -> by (destruct (decide (k = "+"%char)); set_solver).
  eapply run_gettoken; [exact Ht4|]. intros [[[tok2 q2] e2] s5] (_ & _ & Ht5).
  rewrite length_app in *. simpl in Hf, Hb.
  eapply wp_mono; [apply parseredirs_run; [exact Ht5|lia]|].
  intros [c' s'] (rs & rest & -> & Hok & Hr & -> & Hs').
  exists (TSym "("%char :: ts1 ++ TSym ")"%char :: toks rs), rest. simpl.
  split; [by rewrite <-app_assoc|]. split; [by constructor|done].
Qed.

Lemma parsepipe_run fuel :
  parse_ok 2 command (fun s => parseexec buf es s fuel) fuel ->
  parse_ok 3 pipeline (fun s => parsepipe buf es s fuel) fuel ->
  parse_ok 3 pipeline (fun s => parsepipe buf es s (S fuel)) (S fuel).
Proof.
  intros IHe IH s ts Ht Hf Hb. cbn [parsepipe].
  apply wp_bind. eapply wp_mono; [apply IHe; [exact Ht|lia|lia]|].
  intros [c s1] (ts1 & rest & -> & Hc & Hs1). simpl in Hc, Hs1. peek_step s2 Ht2.
  rewrite length_app in *. destruct (first_in (c_str "|") rest) eqn:Ef.
  2: { exists ts1, rest. split; [done|]. split; [by constructor|done]. }
  apply first_in_inv in Ef as (k & rest' & -> & Hk). simpl in Hk, Hf, Hb.
  assert (k = "|"%char) as -> by (destruct (decide (k = "+"%char)); set_solver).
  eapply run_gettoken; [exact Ht2|]. intros [[[tok q0] e0] s3] (_ & _ & Ht3).
  apply wp_bind. eapply wp_mono; [apply IH; [exact Ht3|lia|lia]|].
  intros [r s4] (ts2 & rest & -> & Hr & Hs4). exists (ts1 ++ TSym "|"%char :: ts2), rest.
  split; [by rewrite <-app_assoc|]. split; [by constructor|done].
Qed.

Lemma parseline_run fuel :
  parse_ok 3 pipeline (fun s => parsepipe buf es s fuel) fuel ->
  parse_ok 4 line (fun s => parseline buf es s fuel) fuel ->
  parse_ok 4 line (fun s => parseline buf es s (S fuel)) (S fuel).
Proof.
  intros IHp IH s ts Ht Hf Hb. cbn [parseline].
  apply wp_bind. eapply wp_mono; [apply IHp; [exact Ht|lia|lia]|].
  intros [c s1] (ts1 & rest & -> & Hc & Hs1). simpl in Hc, Hs1. rewrite length_app in *.
  apply wp_bind. eapply wp_mono; [apply parsebacks_run; [exact Hs1|lia]|].
  intros [c1 s2] (n & rest1 & -> & -> & Hs2). peek_step s3 Ht3.
  rewrite length_app in *. destruct (first_in (c_str ";") rest1) eqn:Ef.
  2: { exists (ts1 ++ amps n), rest1. split; [by rewrite app_assoc|]. split; [by constructor|done]. }
  apply first_in_inv in Ef as (k & rest' & -> & Hk). simpl in Hk, Hf, Hb.
  assert (k = ";"%char) as -> by (destruct (decide (k = "+"%char)); set_solver).
  eapply run_gettoken; [exact Ht3|]. intros [[[tok q0] e0] s4] (_ & _ & Ht4).
  apply wp_bind. eapply wp_mono; [apply IH; [exact Ht4|lia|lia]|].
  intros [r s5] (ts2 & rest & -> & Hr & Hs5). exists (ts1 ++ amps n ++ TSym ";"%char :: ts2), rest.
  split; [by rewrite <-!app_assoc|]. split; [by constructor|done].
Qed.

Lemma parse_run fuel :
  parse_ok 4 line (fun s => parseline buf es s fuel) fuel /\
  parse_ok 3 pipeline (fun s => parsepipe buf es s fuel) fuel /\
  parse_ok 2 command (fun s => parseexec buf es s fuel) fuel /\
  parse_ok 1 command (fun s => parseblock buf es s fuel) fuel.
Proof.
  induction fuel as [|fuel (IH1 & IH2 & IH3 & IH4)]; [unfold parse_ok; repeat split; intros; lia|].
  split; [by apply parseline_run|]. split; [by apply parsepipe_run|].
  split; [by apply parseexec_run|by apply parseblock_run].
Qed.

(** ** Completeness: what the grammar derives is returned. *)
Definition returns (m : outcome (cmd * nat)) (c : cmd) (rest : list token) : Prop :=
  wp (fun _ => False) m (fun r => fst r = c /\ tokens_at (snd r) rest).

(** What may follow a command, a pipeline and a line. *)
Definition stops (set : cstr) (rest : list token) : Prop := rest = [] \/ first_in set rest = true.

Lemma first_sym set k ts : k <> "+"%char -> first_in set (TSym k :: ts) = strchr_set set k.
Proof. intros. simpl. by rewrite decide_False. Qed.

Lemma stops_not set set' rest : stops set rest -> (forall c, c ∈ set -> c ∉ set') -> first_in set' rest = false.
Proof.
  intros [->|H] Hd; [done|]. apply first_in_inv in H as (k & ts & -> & Hk). simpl.
  by apply bool_decide_eq_false, Hd.
Qed.

Lemma stops_mono set set' rest : stops set rest -> (forall c, c ∈ set -> c ∈ set') -> stops set' rest.
Proof.
  intros [->|H] Hd; [by left|right]. apply first_in_inv in H as (k & ts & -> & Hk). simpl.
  by apply bool_decide_eq_true, Hd.
Qed.

Ltac subset := simpl; set_solver.

Lemma parseredirs_returns rs : Forall item_ok rs -> Forall is_redir rs -> forall fuel c s rest,
  tokens_at s (toks rs ++ rest) -> first_in (c_str "<>") rest = false -> length (toks rs ++ rest) < fuel ->
  returns (parseredirs buf es c s fuel) (wrap rs c) rest.
Proof.
  intros Hok Hr. induction Hr as [|[w|k [q eq]] rs Hi Hr IH]; [|done|]; intros [|fuel] c s rest Ht Hf Hl; try lia;
    cbn [parseredirs]; unfold returns.
  - peek_step s1 Ht1. simpl app. rewrite Hf. by split.
  - apply Forall_cons in Hok as [Hk Hok]. peek_step s1 Ht1.
    assert (first_in (c_str "<>") (toks (IRedir k (q, eq) :: rs) ++ rest) = true) as ->.
    { simpl. apply bool_decide_eq_true. simpl in Hk. case_decide; set_solver. }
    eapply run_gettoken; [exact Ht1|]. intros [[[tok q0] e0] s2] (-> & _ & Ht2).
    eapply run_gettoken; [exact Ht2|]. intros [[[t q1] eq1] s3] (-> & -> & -> & Ht3).
    rewrite decide_False by tauto. rewrite redir_case by done. apply IH; [done|exact Ht3|done|].
    rewrite toks_cons in Hl. simpl length in Hl. lia.
Qed.

Lemma parseargs_returns n : forall its2 its s rest fuel, length its2 <= n ->
  Forall item_ok its2 -> (its2 = [] \/ exists w l, its2 = IWord w :: l) ->
  length (words (its ++ its2)) < MAXARGS -> tokens_at s (toks its2 ++ rest) -> stops (c_str "|)&;") rest ->
  length (toks its2 ++ rest) < fuel -> length (toks its2 ++ rest) <= length buf ->
  returns (parseargs buf es (wrap its (EXEC (words its))) (length (words its)) s fuel)
    (wrap (its ++ its2) (EXEC (words (its ++ its2)))) rest.
Proof.
  induction n as [|n IH]; intros its2 its s rest [|fuel] Hn Hok Hsh Hw Ht Hst Hf Hb; try lia;
    cbn [parseargs]; unfold returns; peek_step s1 Ht1.
  all: destruct Hsh as [->|([q eq] & l & ->)]; [|try (simpl in Hn; lia)].
  1, 2: simpl app in *; rewrite app_nil_r in *; destruct Hst as [->|Hst]; [|by rewrite Hst];
    cbn [first_in]; (eapply run_gettoken; [exact Ht1|]); intros [[[tok q0] e0] s2] (-> & -> & Ht2); by rewrite decide_True.
  simpl first_in. cbv iota. eapply run_gettoken; [exact Ht1|].
  intros [[[t q1] eq1] s2] (-> & -> & -> & Ht2). rewrite decide_False by done. rewrite decide_False by tauto.
  rewrite words_app, length_app in Hw. simpl in Hw. rewrite decide_False by (unfold MAXARGS in *; lia).
  destruct (split_redirs l) as (rs & its3 & -> & Hr & Hsh). simpl in Hn. rewrite length_app in Hn.
  apply Forall_cons in Hok as [_ Hok]. apply Forall_app in Hok as [Hok1 Hok2].
  rewrite toks_cons, toks_app in Hf, Hb. simpl in Hf, Hb. rewrite !length_app in Hf, Hb.
  change (concat _) with (toks (rs ++ its3)) in Ht2. rewrite toks_app in Ht2. simpl app in Ht2. rewrite <-app_assoc in Ht2.
  apply wp_bind. eapply wp_mono.
  { apply (parseredirs_returns rs Hok1 Hr); [exact Ht2| |rewrite !length_app; lia].
    destruct Hsh as [->|([q1 eq1] & l & ->)]; [|done]. apply (stops_not (c_str "|)&;")); [done|subset]. }
  intros [ret s3] [E Hs3]. cbn [fst snd] in E, Hs3. subst ret.
  destruct (simple_word its rs (q, eq) Hr) as [-> Hwd].
  assert (S (length (words its)) = length (words (its ++ IWord (q, eq) :: rs))) as ->
    by (rewrite Hwd, length_app; simpl; lia).
  replace (its ++ IWord (q, eq) :: rs ++ its3) with ((its ++ IWord (q, eq) :: rs) ++ its3) by (by rewrite <-app_assoc).
  apply IH; try done; try (rewrite !length_app; lia); [lia|].
  rewrite words_app, length_app, Hwd, length_app. simpl.
  rewrite words_app, length_app, (words_redirs rs Hr) in Hw. simpl in Hw. lia.
Qed.

Lemma parsebacks_returns n : forall c s rest fuel, tokens_at s (amps n ++ rest) ->
  first_in (c_str "&") rest = false -> length (amps n ++ rest) < fuel ->
  returns (parsebacks buf es c s fuel) (Nat.iter n BACK c) rest.
Proof.
  induction n as [|n IH]; intros c s rest [|fuel] Ht Hf Hl; try lia; cbn [parsebacks]; unfold returns;
    peek_step s1 Ht1.
  - simpl app. rewrite Hf. by split.
  - simpl first_in. eapply run_gettoken; [exact Ht1|]. intros [[[tok q0] e0] s2] (-> & _ & Ht2).
    rewrite Nat.iter_succ_r. apply IH; [exact Ht2|done|simpl in Hl; lia].
Qed.

(** [f] returns the tree of every derivation, if what follows is in [set]. *)
Definition complete (n : nat) (set : cstr) (f : nat -> nat -> outcome (cmd * nat)) (ts : list token) (c : cmd) : Prop :=
  forall s rest fuel, tokens_at s (ts ++ rest) -> stops set rest -> 4 * length (ts ++ rest) + n <= fuel ->
    length (ts ++ rest) <= length buf -> returns (f s fuel) c rest.

Abbreviation complete_command := (complete 2 (c_str "|)&;") (parseexec buf es)).
Abbreviation complete_pipeline := (complete 3 (c_str ")&;") (parsepipe buf es)).
Abbreviation complete_line := (complete 4 (c_str ")") (parseline buf es)).

Lemma returns_bind m k c c1 rest rest1 : returns m c1 rest1 ->
  (forall s', tokens_at s' rest1 -> returns (k (c1, s')) c rest) -> returns (obind m k) c rest.
Proof.
  intros Hm Hk. unfold returns in *. apply wp_bind. eapply wp_mono; [exact Hm|].
  intros [c' s'] [E Hs]. simpl in E, Hs. subst c'. by apply Hk.
Qed.

Lemma complete_simple its : Forall item_ok its -> length (words its) < MAXARGS ->
  complete_command (toks its) (wrap its (EXEC (words its))).
Proof.
  intros Hok Hw s rest [|fuel] Ht Hst Hf Hb; [lia|]. cbn [parseexec]. unfold returns. peek_step s1 Ht1.
  assert (first_in (c_str "(") (toks its ++ rest) = false) as ->.
  { destruct its as [|[[q eq]|k [q eq]] its]; [apply (stops_not (c_str "|)&;")); [done|subset]|done|].
    apply Forall_inv in Hok. simpl in Hok |- *. apply bool_decide_eq_false. case_decide; set_solver. }
  destruct (split_redirs its) as (rs & its2 & -> & Hr & Hsh). apply Forall_app in Hok as [Hok1 Hok2].
  rewrite toks_app, <-app_assoc in *. rewrite !length_app in Hf, Hb.
  eapply (returns_bind _ _ _ (wrap rs execcmd) _ (toks its2 ++ rest)).
  { apply parseredirs_returns; [done|done|exact Ht1| |rewrite !length_app; lia].
    destruct Hsh as [->|([q1 eq1] & l & ->)]; [|done]. apply (stops_not (c_str "|)&;")); [done|subset]. }
  intros s2 Ht2. pose proof (parseargs_returns (length its2) its2 rs s2 rest (S (length buf))) as H.
  rewrite (words_redirs rs) in H by done. apply H; try done; rewrite ?length_app; lia.
Qed.

Lemma complete_block ts c rs : complete_line ts c -> Forall item_ok rs -> Forall is_redir rs ->
  complete_command (TSym "("%char :: ts ++ TSym ")"%char :: toks rs) (wrap rs c).
Proof.
  intros IH Hok Hr s rest fuel Ht Hst Hf Hb. simpl app in *. rewrite <-app_assoc in *. simpl in Hf, Hb.
  destruct fuel as [|[|fuel]]; [lia..|]. cbn [parseexec]. unfold returns. peek_step s1 Ht1.
  simpl first_in. cbv iota. cbn [parseblock]. peek_step s2 Ht2. simpl first_in. cbv iota. simpl negb. cbv iota.
  eapply run_gettoken; [exact Ht2|]. intros [[[tok q0] e0] s3] (-> & _ & Ht3). simpl app in *.
  eapply returns_bind.
  { apply IH; [exact Ht3|by right|lia|lia]. }
  intros s4 Ht4. unfold returns. peek_step s5 Ht5. simpl first_in. simpl negb. cbv iota.
  eapply run_gettoken; [exact Ht5|]. intros [[[tok2 q2] e2] s6] (-> & _ & Ht6).
  apply parseredirs_returns; [done|done|exact Ht6|apply (stops_not (c_str "|)&;")); [done|subset]|].
  rewrite length_app in Hb. simpl in Hb. simpl app in Hb. lia.
Qed.

Lemma complete_pipe ts c ts' c' : complete_command ts c -> complete_pipeline ts' c' ->
  complete_pipeline (ts ++ TSym "|"%char :: ts') (PIPE c c').
Proof.
  intros IHc IHp s rest [|fuel] Ht Hst Hf Hb; [lia|]. rewrite <-app_assoc in *. simpl app in *.
  cbn [parsepipe]. eapply returns_bind; [apply IHc; [exact Ht|by right|lia|lia]|].
  intros s1 Ht1. unfold returns. peek_step s2 Ht2. simpl first_in. cbv iota.
  eapply run_gettoken; [exact Ht2|]. intros [[[tok q0] e0] s3] (-> & _ & Ht3).
  rewrite length_app in Hf, Hb. simpl in Hf, Hb.
  eapply returns_bind; [apply IHp; [exact Ht3|done|lia|lia]|]. intros s4 Ht4. by split.
Qed.

Lemma complete_single ts c : complete_command ts c -> complete_pipeline ts c.
Proof.
  intros IHc s rest [|fuel] Ht Hst Hf Hb; [lia|]. cbn [parsepipe].
  eapply returns_bind; [apply IHc; [exact Ht|apply (stops_mono (c_str ")&;")); [done|subset]|lia|lia]|].
  intros s1 Ht1. unfold returns. peek_step s2 Ht2.
  rewrite (stops_not (c_str ")&;") (c_str "|")); [by split|done|subset].
Qed.

(** A pipeline and its ampersands, before a token that ends them. *)
Lemma complete_backs ts c n rest s fuel (k : cmd * nat -> outcome (cmd * nat)) c' rest'' :
  complete_pipeline ts c -> tokens_at s (ts ++ amps n ++ rest) -> stops (c_str ");") rest ->
  4 * length (ts ++ amps n ++ rest) + 3 <= fuel -> length (ts ++ amps n ++ rest) <= length buf ->
  (forall s', tokens_at s' rest -> returns (k (Nat.iter n BACK c, s')) c' rest'') ->
  returns (let* '(c, s) := parsepipe buf es s fuel in obind (parsebacks buf es c s (S (length buf))) k) c' rest''.
Proof.
  intros IH Ht Hst Hf Hb Hk. eapply returns_bind; [apply IH; [exact Ht| |lia|lia]|].
  { destruct n; [|by right]. apply (stops_mono (c_str ");")); [done|subset]. }
  intros s1 Ht1. rewrite length_app in Hb.
  eapply returns_bind; [apply parsebacks_returns; [exact Ht1| |lia]|exact Hk].
  apply (stops_not (c_str ");")); [done|subset].
Qed.

Lemma complete_line_more ts c n ts' c' : complete_pipeline ts c -> complete_line ts' c' ->
  complete_line (ts ++ amps n ++ TSym ";"%char :: ts') (LIST (Nat.iter n BACK c) c').
Proof.
  intros IHp IHl s rest [|fuel] Ht Hst Hf Hb; [lia|]. rewrite <-!app_assoc in *. simpl app in *.
  cbn [parseline]. eapply (complete_backs ts c n); [done|exact Ht|by right|lia|lia|].
  intros s1 Ht1. unfold returns. peek_step s2 Ht2. simpl first_in. cbv iota.
  eapply run_gettoken; [exact Ht2|]. intros [[[tok q0] e0] s3] (-> & _ & Ht3).
  rewrite !length_app in Hf, Hb. simpl in Hf, Hb. rewrite length_app in Hf, Hb.
  eapply returns_bind; [apply IHl; [exact Ht3|done|rewrite length_app; lia|rewrite length_app; lia]|].
  intros s4 Ht4. by split.
Qed.

Lemma complete_line_one ts c n : complete_pipeline ts c -> complete_line (ts ++ amps n) (Nat.iter n BACK c).
Proof.
  intros IHp s rest [|fuel] Ht Hst Hf Hb; [lia|]. rewrite <-!app_assoc in *.
  cbn [parseline]. eapply (complete_backs ts c n); [done|exact Ht| |lia|lia|].
  { apply (stops_mono (c_str ")")); [done|subset]. }
  intros s1 Ht1. unfold returns. peek_step s2 Ht2.
  rewrite (stops_not (c_str ")") (c_str ";")); [by split|done|subset].
Qed.

Lemma parse_complete :
  (forall ts c, command ts c -> complete_command ts c) /\
  (forall ts c, pipeline ts c -> complete_pipeline ts c) /\
  (forall ts c, line ts c -> complete_line ts c).
Proof.
  apply grammar_ind; intros.
  - by apply complete_simple.
  - by apply complete_block.
  - by apply complete_single.
  - by apply complete_pipe.
  - by apply complete_line_one.
  - by apply complete_line_more.
Qed.
End parse.

(** ** Words and their ends *)
Fixpoint cmd_words (c : cmd) : list word :=
  match c with
  | EXEC argv => argv
  | REDIR c file _ _ => cmd_words c ++ [file]
  | PIPE l r | LIST l r => cmd_words l ++ cmd_words r
  | BACK c => cmd_words c
  end.

Lemma wrap_words its c w : w ∈ cmd_words (wrap its c) ->
  w ∈ cmd_words c \/ exists k, IRedir k w ∈ its.
Proof.
  induction its as [|[x|k x] its IH] using rev_ind; [auto|..]; rewrite wrap_app; simpl.
  - intros H. destruct (IH H) as [|[k Hk]]; [auto|right; exists k; set_solver].
  - intros [H|H]%elem_of_app; [|right; exists k; set_solver].
    destruct (IH H) as [|[k' Hk]]; [auto|right; exists k'; set_solver].
Qed.

Lemma toks_words its w : (exists k, IRedir k w ∈ its) \/ IWord w ∈ its -> TWord (fst w) (snd w) ∈ toks its.
Proof.
  intros H. induction its as [|it its IH]; [destruct H as [[k H]|H]; inversion H|].
  rewrite toks_cons. apply elem_of_app. destruct w as [q eq].
  destruct H as [[k [<-|H]%elem_of_cons]|[<-|H]%elem_of_cons]; simpl; [left; set_solver|right; eauto|left; set_solver|right; eauto].
Qed.

Lemma iter_back_words n c : cmd_words (Nat.iter n BACK c) = cmd_words c.
Proof. by induction n. Qed.

(** The words of a tree are words of the line. *)
Lemma grammar_words :
  (forall ts c, command ts c -> forall w, w ∈ cmd_words c -> TWord (fst w) (snd w) ∈ ts) /\
  (forall ts c, pipeline ts c -> forall w, w ∈ cmd_words c -> TWord (fst w) (snd w) ∈ ts) /\
  (forall ts c, line ts c -> forall w, w ∈ cmd_words c -> TWord (fst w) (snd w) ∈ ts).
Proof.
  apply grammar_ind; simpl.
  - intros its _ _ w Hw. apply toks_words. apply wrap_words in Hw as [Hw|]; [right|auto].
    apply list_elem_of_omap in Hw as ([w'|] & Hin & E); by simplify_eq.
  - intros ts c rs _ IH _ _ w Hw. apply wrap_words in Hw as [Hw|Hw].
    + specialize (IH w Hw). set_solver.
    + pose proof (toks_words rs w (or_introl Hw)). set_solver.
  - auto.
  - intros ts c ts' c' _ IH _ IH' w [H|H]%elem_of_app; [specialize (IH w H)|specialize (IH' w H)]; set_solver.
  - intros ts c n _ IH w. rewrite iter_back_words. intros H. specialize (IH w H). set_solver.
  - intros ts c n ts' c' _ IH _ IH' w. rewrite iter_back_words.
    intros [H|H]%elem_of_app; [specialize (IH w H)|specialize (IH' w H)]; set_solver.
Qed.

(** A word covers characters of words only and ends at another character. *)
Definition word_span (buf : list ascii) (q eq : nat) : Prop :=
  q < eq /\ (forall j, q <= j < eq -> exists c, buf !! j = Some c /\ word_char c = true /\ c <> NUL) /\
  exists c, buf !! eq = Some c /\ (word_char c = false \/ c = NUL).

Lemma lex_spans buf l : forall s cur, cstr_at buf s l ->
  (forall q, cur = Some q -> q < s /\
    forall j, q <= j < s -> exists c, buf !! j = Some c /\ word_char c = true /\ c <> NUL) ->
  forall q eq, TWord q eq ∈ lex s cur l -> word_span buf q eq.
Proof.
  remember (length l) as n eqn:Hn. revert l Hn. induction n as [n IH] using lt_wf_ind.
  intros l -> s cur Hl Hcur q eq.
  assert (forall c, buf !! s = Some c -> word_char c = false \/ c = NUL ->
    TWord q eq ∈ flush cur s -> word_span buf q eq) as Hflush.
  { intros c Hc Hnw Hin. destruct cur as [q0|]; simpl in Hin; [|inversion Hin].
    apply list_elem_of_singleton in Hin as [= -> ->]. destruct (Hcur q0 eq_refl) as [? ?].
    split; [done|]. eauto. }
  destruct l as [|c l]; cbn [lex].
  { apply cstr_at_nil in Hl. intros Hin. eapply Hflush; eauto. }
  pose proof (cstr_at_cons _ _ _ _ Hl) as (Hc & Hnul & Hl').
  assert (forall l' s', length l' < length (c :: l) -> cstr_at buf s' l' ->
    TWord q eq ∈ lex s' None l' -> word_span buf q eq) as Hrec.
  { intros l' s' Hlt Hat. eapply (IH (length l')); eauto. by intros. }
  destruct (strchr_set whitespace c) eqn:Ew; [|destruct (strchr_set symbols c) eqn:Es].
  - intros [Hin|Hin]%elem_of_app; [|eapply Hrec; [|exact Hl'|exact Hin]; simpl; lia].
    eapply Hflush; [done| |done]. left. unfold word_char. by rewrite Ew.
  - intros [Hin|Hin]%elem_of_app.
    { eapply Hflush; [done| |done]. left. unfold word_char. by rewrite Es, andb_false_r. }
    destruct l as [|d l']; [apply elem_of_cons in Hin as [|Hin]; [done|inversion Hin]|].
    destruct (decide (c = ">"%char /\ d = ">"%char)); apply elem_of_cons in Hin as [|Hin]; try done.
    + apply cstr_at_cons in Hl' as (_ & _ & Hl''). eapply Hrec; [|exact Hl''|exact Hin]; simpl; lia.
    + eapply Hrec; [|exact Hl'|exact Hin]; simpl; lia.
  - intros Hin. eapply (IH (length l)) with (l := l); [simpl; lia|done|exact Hl'| |exact Hin].
    intros q0 [= <-].
    assert (exists c0, buf !! s = Some c0 /\ word_char c0 = true /\ c0 <> NUL) as Hs.
    { exists c. unfold word_char. by rewrite Ew, Es. }
    destruct cur as [q1|]; simpl; [destruct (Hcur q1 eq_refl) as [? Hq]|];
      (split; [lia|]); intros j Hj; (destruct (decide (j = s)) as [->|]; [done|]); [apply Hq; lia|lia].
Qed.

(** ** [nulterminate]

    [f] puts a NUL at the end of each of the words, and nowhere else. *)
Definition ends_words (f : list ascii -> outcome (list ascii)) (ws : list word) : Prop :=
  forall buf, Forall (fun w => snd w < length buf) ws ->
  exists buf', f buf = Ret buf' /\ length buf' = length buf /\
    forall j, j < length buf -> buf' !! j = if decide (j ∈ snd <$> ws) then Some NUL else buf !! j.

Lemma nul_args_spec argv : ends_words (fun buf => nul_args buf argv) argv.
Proof.
  induction argv as [|[q eq] argv IH]; intros buf Hb.
  { exists buf. split; [done|]. split; [done|]. intros. by rewrite decide_False by (simpl; set_solver). }
  apply Forall_cons in Hb as [He Hb]. simpl in *. rewrite store_ret by done. cbn [obind].
  destruct (IH (<[eq := NUL]> buf)) as (buf' & -> & Hl & Hj).
  { by rewrite length_insert. }
  rewrite length_insert in *. exists buf'. split; [done|]. split; [done|]. intros j Hlt. rewrite Hj by done.
  change (list_fmap word nat snd argv) with (snd <$> argv).
  destruct (decide (j = eq)) as [->|].
  - rewrite (decide_True (P := eq ∈ eq :: _)) by set_solver. case_decide; [done|]. by rewrite list_lookup_insert_eq.
  - rewrite list_lookup_insert_ne by done. case_decide; [by rewrite decide_True by set_solver|].
    by rewrite decide_False by set_solver.
Qed.

Lemma ends_words_seq f g ws ws' : ends_words f ws -> ends_words g ws' ->
  ends_words (fun buf => let* buf := f buf in g buf) (ws ++ ws').
Proof.
  intros H1 H2 buf [Hb1 Hb2]%Forall_app. destruct (H1 buf Hb1) as (b1 & -> & Hl1 & Hj1).
  cbn [obind]. destruct (H2 b1) as (b2 & -> & Hl2 & Hj2); [by rewrite Hl1|].
  exists b2. split; [done|]. split; [lia|]. intros j Hj. rewrite Hj2, Hj1 by lia. rewrite fmap_app.
  repeat case_decide; try done; set_solver.
Qed.

Lemma nulterminate_spec c : ends_words (fun buf => nulterminate buf c) (cmd_words c).
Proof.
  induction c as [argv|c IH [q e] mode fd|l IHl r IHr|l IHl r IHr|c IH]; simpl.
  - apply nul_args_spec.
  - intros buf Hb. destruct (ends_words_seq _ _ _ _ IH (nul_args_spec [(q, e)]) buf Hb) as (buf' & Heq & H).
    exists buf'. split; [|done]. rewrite <-Heq.
    destruct (nulterminate buf c) as [b| | | |]; simpl; try done. by destruct (store b e NUL).
  - by apply ends_words_seq.
  - by apply ends_words_seq.
  - exact IH.
Qed.

(** A word whose end holds a NUL reads as its characters. *)
Lemma read_word buf buf' q eq : word_span buf q eq -> (forall j, q <= j < eq -> buf' !! j = buf !! j) ->
  buf' !! eq = Some NUL -> cstr_prefix (drop q buf') = slice q (eq - q) buf.
Proof.
  intros (Hlt & Hw & _). remember (eq - q) as n eqn:Hn. assert (eq = q + n) as -> by lia. clear Hn Hlt.
  revert q Hw. induction n as [|n IH]; intros q Hw Heq He.
  - rewrite Nat.add_0_r in He. rewrite (drop_S _ _ _ He), slice_0. done.
  - destruct (Hw q) as (c & Hc & _ & Hnul); [lia|].
    rewrite (slice_S _ _ _ _ Hc). rewrite (drop_S buf' c q) by (rewrite Heq by lia; done).
    cbn [cstr_prefix]. rewrite decide_False by done. f_equal. apply IH.
    + intros j Hj. apply Hw. lia.
    + intros j Hj. apply Heq. lia.
    + by rewrite Nat.add_succ_comm.
Qed.

Lemma lex_length s cur l : length (lex s cur l) <= length l + match cur with Some _ => 1 | None => 0 end.
Proof.
  remember (length l) as n eqn:Hn. revert l Hn s cur. induction n as [n IH] using lt_wf_ind. intros l -> s cur.
  assert (length (flush cur s) = match cur with Some _ => 1 | None => 0 end) as Hfl by (by destruct cur).
  destruct l as [|c l]; cbn [lex]; [lia|].
  pose proof (IH (length l) ltac:(simpl; lia) l eq_refl) as IHl.
  destruct (strchr_set whitespace c); [rewrite length_app, Hfl; specialize (IHl (S s) None); simpl in IHl |- *; lia|].
  destruct (strchr_set symbols c).
  - rewrite length_app, Hfl. destruct l as [|d l]; [simpl; lia|].
    destruct (decide _); cbn [length].
    + pose proof (IH (length l) ltac:(simpl; lia) l eq_refl (S (S s)) None) as IH2. simpl in IH2. lia.
    + specialize (IHl (S s) None). cbn [length] in IHl. cbv iota in IHl. lia.
  - specialize (IHl (S s) (Some (default s cur))). simpl in *. destruct cur; lia.
Qed.

Lemma parsecmd_spec (buf : list ascii) (s : nat) (text : cstr) (Hb : cstr_at buf s text) :
  let ts := lex s None text in
  (forall c, line ts c -> exists buf', parsecmd buf s = Ret (buf', c) /\
    forall q eq, (q, eq) ∈ cmd_words c -> cstr_prefix (drop q buf') = slice q (eq - q) buf) /\
  ((~ exists c, line ts c) -> parsecmd buf s = Exit 1).
Proof.
  intros ts. set (es := s + length text).
  assert (tokens_at buf es s ts) as Ht by (exists text; by split).
  pose proof (lex_length s None text) as Hlen. rewrite Nat.add_0_r in Hlen.
  pose proof (cstr_at_length _ _ _ Hb) as Hbl. unfold parsecmd.
  rewrite (ustrlen_spec _ _ _ Hb). cbn [obind]. fold es. split.
  - intros c Hl. destruct (parse_complete buf es) as (_ & _ & Hcomp).
    pose proof (Hcomp ts c Hl s [] (parse_fuel buf)) as Hret. rewrite app_nil_r in Hret.
    fold ts in Hlen.
    specialize (Hret Ht (or_introl eq_refl) ltac:(unfold parse_fuel; lia) ltac:(lia)). unfold returns in Hret.
    destruct (parseline buf es s (parse_fuel buf)) as [[c' s']| | | |]; [|contradiction..].
    destruct Hret as [E Hs']. simpl in E, Hs'. subst c'. cbn [obind].
    destruct (peek_spec buf es [] s' [] Hs') as (s2 & -> & _ & He); [set_solver|]. cbn [obind].
    rewrite decide_False by (intros Hne; apply Hne, He; done).
    assert (forall w, w ∈ cmd_words c -> word_span buf (fst w) (snd w)) as Hsp.
    { intros [q eq] Hw. apply (lex_spans buf text s None Hb); [done|].
      by apply (proj2 (proj2 grammar_words) ts c Hl (q, eq)). }
    destruct (nulterminate_spec c buf) as (buf' & -> & Hl' & Hj).
    { apply Forall_forall. intros w Hw. destruct (Hsp w Hw) as (_ & _ & ch & Hch & _).
      by apply lookup_lt_Some in Hch. }
    exists buf'. split; [done|]. intros q eq Hw. destruct (Hsp _ Hw) as (Hlt & Hspan & ch & Hch & _).
    simpl in *. apply lookup_lt_Some in Hch. apply read_word.
    + by apply (Hsp (q, eq)).
    + intros j Hr. rewrite Hj by lia. apply decide_False. intros ([q' j'] & -> & Hw')%list_elem_of_fmap.
      destruct (Hsp _ Hw') as (_ & _ & x & Hx & Hnw). destruct (Hspan _ Hr) as (y & Hy & Hyw & Hyn).
      simpl in *. simplify_eq. destruct Hnw; congruence.
    + rewrite Hj by lia. apply decide_True. apply list_elem_of_fmap. by exists (q, eq).
  - intros Hno. destruct (parse_run buf es (parse_fuel buf)) as (Hrun & _).
    specialize (Hrun s ts Ht ltac:(unfold parse_fuel; subst ts; lia) ltac:(subst ts; lia)).
    destruct (parseline buf es s (parse_fuel buf)) as [[c s']| | |code|]; simpl in Hrun; try contradiction.
    2: by subst code.
    destruct Hrun as (ts1 & rest & E & Hl & Hs'). simpl in Hl, Hs'. cbn [obind].
    destruct (peek_spec buf es [] s' rest Hs') as (s2 & -> & _ & He); [set_solver|]. cbn [obind].
    apply decide_True. rewrite He. intros ->. apply Hno. exists c. by rewrite E, app_nil_r.
Qed.

(** C12.  [parsecmd] decides the command language: on a line whose tokens the
    grammar derives it returns that tree, with every word ended in place so
    that it reads as its text; on any other line the process ends with code 1.
    It never leaves the array and always stops. *)
Theorem parsecmd_correct (buf : list ascii) (s : nat) (text : cstr) (Hb : cstr_at buf s text) :
  let ts := lex s None text in
  (forall c, line ts c -> exists buf', parsecmd buf s = Ret (buf', c) /\
    forall q eq, (q, eq) ∈ cmd_words c -> cstr_prefix (drop q buf') = slice q (eq - q) buf) /\
  ((~ exists c, line ts c) -> parsecmd buf s = Exit 1).
Proof. by apply parsecmd_spec. Qed.

Lemma parsecmd_correct_witness :
  exists buf', parsecmd (c_str "ls >f|wc &" ++ [NUL]) 0 =
    Ret (buf', BACK (PIPE (REDIR (EXEC [(0, 2)]) (4, 5) 1537 1) (EXEC [(6, 8)]))) /\
    forall q eq, (q, eq) ∈ [(0, 2); (4, 5); (6, 8)] ->
      cstr_prefix (drop q buf') = slice q (eq - q) (c_str "ls >f|wc &" ++ [NUL]).
Proof.
  assert (cstr_at (c_str "ls >f|wc &" ++ [NUL]) 0 (c_str "ls >f|wc &")) as H.
  { split; [apply (bool_decide_unpack _); vm_compute; exact I|by exists [], []]. }
  apply (proj1 (parsecmd_correct _ 0 _ H) (BACK (PIPE (REDIR (EXEC [(0, 2)]) (4, 5) 1537 1) (EXEC [(6, 8)])))).
  replace (lex 0 None (c_str "ls >f|wc &")) with ((toks [IWord (0, 2); IRedir ">"%char (4, 5)] ++
    TSym "|"%char :: toks [IWord (6, 8)]) ++ amps 1) by (vm_compute; reflexivity).
  apply (l_one _ (PIPE (REDIR (EXEC [(0, 2)]) (4, 5) 1537 1) (EXEC [(6, 8)])) 1).
  apply p_more.
  - apply (c_simple [IWord (0, 2); IRedir ">"%char (4, 5)]); [|simpl; unfold MAXARGS; lia].
    constructor; [done|]. constructor; [|constructor]. simpl. set_solver.
  - apply p_one. apply (c_simple [IWord (6, 8)]); [by repeat constructor|simpl; unfold MAXARGS; lia].
Defined.
