(* ===== verification/UshRun.v ===== *)
(** * The shell of xv6: running a command

    [runcmd], [getcmd] and [main] of [user/sh.c].  What a process does is a
    value of [prog]: its system calls in order, with what it does next for
    each result; [fork] continues with 0 in the child.  The kernel's side is a
    table of 16 descriptors per process, each the lowest free one when
    allocated; which files can be opened and which programs run are
    parameters.

    The theorem composes the parser with [runcmd]: a line that the grammar
    derives runs exactly the programs of its tree, each with its arguments and
    with the descriptors 0, 1 and 2 that its redirections and pipes say, and
    with no other descriptor open. *)

From S2P Require Import Prelude Bytes Ulib Ush UshParse.

Local Open Scope nat_scope.

(** ** What a process does *)
Inductive prog :=
| PExit (code : Z)
| PExec (path : cstr) (argv : list cstr) (failed : prog)
| POpen (file : cstr) (mode : Z) (k : Z -> prog)
| PClose (fd : Z) (k : prog)
| PDup (fd : Z) (k : prog)
| PPipe (k : option (Z * Z) -> prog)
| PFork (k : Z -> prog)
| PWait (k : prog)
| PPrint (fd : Z) (text : cstr) (k : prog).

Definition panic (s : string) : prog := PPrint 2 (c_str s ++ [NEWLINE]) (PExit 1).

Definition fork1 (k : Z -> prog) : prog :=
  PFork (fun pid => if (pid =? -1)%Z then panic "fork" else k pid).

(** The string of a word, in the array that [nulterminate] left. *)
Definition str (buf : list ascii) (w : word) : cstr := cstr_prefix (drop (fst w) buf).

(** [runcmd(cmd)]; [parsecmd] never returns a null pointer. *)
Fixpoint runcmd (buf : list ascii) (c : cmd) : prog :=
  match c with
  | EXEC [] => PExit 1
  | EXEC ((w :: _) as argv) =>
      PExec (str buf w) (str buf <$> argv)
        (PPrint 2 (c_str "exec " ++ str buf w ++ c_str " failed" ++ [NEWLINE]) (PExit 0))
  | REDIR c file mode fd =>
      PClose fd (POpen (str buf file) mode (fun r =>
        if (r <? 0)%Z then
          PPrint 2 (c_str "open " ++ str buf file ++ c_str " failed" ++ [NEWLINE]) (PExit 1)
        else runcmd buf c))
  | LIST l r =>
      fork1 (fun pid => if (pid =? 0)%Z then runcmd buf l else PWait (runcmd buf r))
  | PIPE l r =>
      PPipe (fun p =>
        match p with
        | None => panic "pipe"
        | Some (p0, p1) =>
            fork1 (fun pid =>
              if (pid =? 0)%Z then PClose 1 (PDup p1 (PClose p0 (PClose p1 (runcmd buf l))))
              else fork1 (fun pid =>
                if (pid =? 0)%Z then PClose 0 (PDup p0 (PClose p0 (PClose p1 (runcmd buf r))))
                else PClose p0 (PClose p1 (PWait (PWait (PExit 0))))))
        end)
  | BACK c => fork1 (fun pid => if (pid =? 0)%Z then runcmd buf c else PExit 0)
  end.

(** ** [getcmd] and [main] *)
Section main.
Context {W : Type} `{ReadOS W}.
Context (os_open : W -> cstr -> Z -> Z * W) (os_close : W -> Z -> W) (os_chdir : W -> cstr -> Z * W).

(** [while ((fd = open("console", O_RDWR)) >= 0) ...] *)
Fixpoint open_console (w : W) (fuel : nat) : outcome W :=
  match fuel with
  | 0 => NoFuel
  | S fuel =>
      let '(fd, w) := os_open w (c_str "console") 2 in
      if (fd <? 0)%Z then Ret w
      else if (3 <=? fd)%Z then Ret (os_close w fd)
      else open_console w fuel
  end.

Definition getcmd (w : W) (buf : list ascii) (nbuf : nat) : outcome (Z * list ascii * W) :=
  let* buf := umemset buf 0 NUL nbuf in
  let* '(buf, w) := gets w buf 0 nbuf in
  let* c := load buf 0 in
  Ret ((if decide (c = NUL) then -1 else 0)%Z, buf, w).

(** What the loop does with a line: nothing, change the directory, or run the
    command in a child; the child's process, and the array afterwards. *)
Inductive action :=
| Blank
| Chdir (path : cstr)
| Child (p : outcome prog).

(** [while ( *cmd == ' ' || *cmd == '\t') cmd++] *)
Fixpoint skip_blanks (buf : list ascii) (cmd fuel : nat) : outcome nat :=
  match fuel with
  | 0 => NoFuel
  | S fuel =>
      let* c := load buf cmd in
      if decide (c = SPACE \/ c = TAB) then skip_blanks buf (S cmd) fuel else Ret cmd
  end.

Definition sh_line (buf : list ascii) : outcome (action * list ascii) :=
  let* cmd := skip_blanks buf 0 (S (length buf)) in
  let* c0 := load buf cmd in
  if decide (c0 = NEWLINE) then Ret (Blank, buf)
  else
    let* cd :=
      if decide (c0 = "c"%char) then
        let* c1 := load buf (cmd + 1) in
        if decide (c1 = "d"%char) then
          let* c2 := load buf (cmd + 2) in Ret (bool_decide (c2 = SPACE))
        else Ret false
      else Ret false in
    if cd : bool then
      let* n := ustrlen buf cmd in
      let* buf := store buf (cmd + n - 1) NUL in
      Ret (Chdir (cstr_prefix (drop (cmd + 3) buf)), buf)
    else
      (* the child works on its own copy of the array *)
      Ret (Child (let* '(buf, c) := parsecmd buf cmd in Ret (runcmd buf c)), buf).

(** The loop of [main]: one action for each line, with the result of [chdir]. *)
Fixpoint sh_loop (w : W) (buf : list ascii) (fuel : nat) : outcome (list action * W) :=
  match fuel with
  | 0 => NoFuel
  | S fuel =>
      let* '(r, buf, w) := getcmd w buf 100 in
      if (r <? 0)%Z then Ret ([], w)
      else
        let* '(a, buf) := sh_line buf in
        let w := match a with Chdir path => snd (os_chdir w path) | _ => w end in
        let* '(l, w) := sh_loop w buf fuel in
        Ret (a :: l, w)
  end.

Definition sh_main (w : W) (fuel : nat) : outcome (list action * W) :=
  let* w := open_console w 4 in
  sh_loop w (replicate 100 NUL) fuel.
End main.

(** ** Descriptors *)
Inductive res :=
| Inherited (n : nat)
| File (file : cstr) (mode : Z)
| PipeRead (k : nat)
| PipeWrite (k : nat).

Abbreviation table := (list (option res)).

Definition nofile : nat := 16.

(** The lowest free descriptor. *)
Fixpoint fd_lowest (t : table) (r : res) : option (nat * table) :=
  match t with
  | [] => None
  | None :: t => Some (0, Some r :: t)
  | Some x :: t => match fd_lowest t r with Some (i, t) => Some (S i, Some x :: t) | None => None end
  end.

Definition fdclose (t : table) (fd : Z) : table := <[Z.to_nat fd := None]> t.

Section programs.
Context (openable : cstr -> Z -> bool) (runnable : cstr -> bool).

(** The programs that a process and its children become, each with its
    descriptors; [n] numbers the pipes.  A program that cannot be run leaves
    the process to go on. *)
Fixpoint programs (p : prog) (t : table) (n : nat) : list (list cstr * table) * nat :=
  match p with
  | PExit _ => ([], n)
  | PExec path argv k => if runnable path then ([(argv, t)], n) else programs k t n
  | POpen file mode k =>
      match (if openable file mode then fd_lowest t (File file mode) else None) with
      | Some (fd, t) => programs (k (Z.of_nat fd)) t n
      | None => programs (k (-1)%Z) t n
      end
  | PClose fd k => programs k (fdclose t fd) n
  | PDup fd k =>
      match t !! Z.to_nat fd with
      | Some (Some r) =>
          match fd_lowest t r with
          | Some (_, t) => programs k t n
          | None => programs k t n
          end
      | _ => programs k t n
      end
  | PPipe k =>
      match fd_lowest t (PipeRead n) with
      | Some (r, t1) =>
          match fd_lowest t1 (PipeWrite n) with
          | Some (w, t2) => programs (k (Some (Z.of_nat r, Z.of_nat w))) t2 (S n)
          | None => programs (k None) t n
          end
      | None => programs (k None) t n
      end
  | PFork k =>
      let '(child, n) := programs (k 0%Z) t n in
      let '(parent, n) := programs (k 1%Z) t n in
      (child ++ parent, n)
  | PWait k => programs k t n
  | PPrint _ _ k => programs k t n
  end.

(** The specification: the tree with the descriptors 0, 1 and 2. *)
Fixpoint wiring (text : word -> cstr) (c : cmd) (t : list res) (n : nat) : list (list cstr * list res) * nat :=
  match c with
  | EXEC [] => ([], n)
  | EXEC ((w :: _) as argv) => if runnable (text w) then ([(text <$> argv, t)], n) else ([], n)
  | REDIR c file mode fd =>
      if openable (text file) mode then wiring text c (<[Z.to_nat fd := File (text file) mode]> t) n else ([], n)
  | LIST l r =>
      let '(a, n) := wiring text l t n in
      let '(b, n) := wiring text r t n in (a ++ b, n)
  | PIPE l r =>
      let '(a, m) := wiring text l (<[1 := PipeWrite n]> t) (S n) in
      let '(b, m) := wiring text r (<[0 := PipeRead n]> t) m in (a ++ b, m)
  | BACK c => wiring text c t n
  end.
End programs.

(** Three open descriptors and nothing else. *)
Definition three (t : list res) : table := (Some <$> t) ++ replicate (nofile - 3) None.

(** The redirections of a tree are to descriptor 0 or 1. *)
Fixpoint std_redirs (c : cmd) : Prop :=
  match c with
  | EXEC _ => True
  | REDIR c _ _ fd => (fd = 0%Z \/ fd = 1%Z) /\ std_redirs c
  | PIPE l r | LIST l r => std_redirs l /\ std_redirs r
  | BACK c => std_redirs c
  end.

Lemma wrap_std_redirs its c : std_redirs c -> std_redirs (wrap its c).
Proof.
  intros Hc. induction its as [|[w|k w] its IH] using rev_ind; [done|..]; rewrite wrap_app; simpl; [done|].
  split; [|done]. unfold redir_fd. case_decide; auto.
Qed.

Lemma grammar_std_redirs :
  (forall ts c, command ts c -> std_redirs c) /\ (forall ts c, pipeline ts c -> std_redirs c) /\
  (forall ts c, line ts c -> std_redirs c).
Proof.
  assert (forall n c, std_redirs c -> std_redirs (Nat.iter n BACK c)) as Hiter by (by induction n).
  apply grammar_ind; simpl; intros; try (apply wrap_std_redirs); auto. done.
Qed.

Section wires.
Context (openable : cstr -> Z -> bool) (runnable : cstr -> bool).
Abbreviation progs := (programs openable runnable).
Abbreviation wires := (wiring openable runnable).

Definition place (r : list (list cstr * list res) * nat) : list (list cstr * table) * nat :=
  ((fun '(argv, t) => (argv, three t)) <$> fst r, snd r).

Lemma place_app a b n : place (a ++ b, n) = (fst (place (a, n)) ++ fst (place (b, n)), n).
Proof. unfold place. simpl. by rewrite fmap_app. Qed.

(** The steps of [runcmd] on the descriptors. *)
Lemma redir_table (a b c r : res) fd : fd = 0%Z \/ fd = 1%Z ->
  fd_lowest (fdclose (three [a; b; c]) fd) r = Some (Z.to_nat fd, three (<[Z.to_nat fd := r]> [a; b; c])).
Proof. by intros [-> | ->]. Qed.

Lemma runcmd_programs buf text c : forall t n, length t = 3 -> std_redirs c ->
  (forall w, w ∈ cmd_words c -> str buf w = text w) ->
  progs (runcmd buf c) (three t) n = place (wires text c t n).
Proof.
  induction c as [argv|c IH file mode fd|l IHl r IHr|l IHl r IHr|c IH]; intros t n Ht Hr Hw; simpl in Hr, Hw.
  - destruct argv as [|w argv]; [done|]. cbn [runcmd programs wiring].
    rewrite (Hw w) by set_solver. destruct (runnable (text w)); [|done].
    unfold place. simpl. do 4 f_equal; [apply Hw; set_solver|].
    apply list_fmap_ext. intros i x Hx. apply Hw. apply list_elem_of_lookup_2 in Hx. set_solver.
  - destruct Hr as [Hfd Hr]. cbn [runcmd programs wiring].
    rewrite (Hw file) by set_solver. destruct (openable (text file) mode); [|done].
    destruct t as [|a [|b [|d [|]]]]; try done. rewrite redir_table by done.
    assert ((Z.of_nat (Z.to_nat fd) <? 0)%Z = false) as -> by (apply Z.ltb_ge; lia).
    apply IH; [by rewrite length_insert|done|set_solver].
  - destruct Hr as [Hl Hr]. destruct t as [|a [|b [|d [|]]]]; try done.
    pose proof (IHl [a; PipeWrite n; d] (S n)) as Hleft. cbn [wiring].
    transitivity (let '(child, m) := progs (runcmd buf l) (three [a; PipeWrite n; d]) (S n) in
      let '(parent, m) := let '(child, m) := progs (runcmd buf r) (three [PipeRead n; b; d]) m in (child ++ [], m) in
      (child ++ parent, m)); [reflexivity|].
    rewrite Hleft by (done || set_solver). simpl (<[_ := _]> _).
    destruct (wires text l [a; PipeWrite n; d] (S n)) as [pl m]. unfold place at 1. cbn [fst snd].
    rewrite (IHr [PipeRead n; b; d]) by (done || set_solver).
    destruct (wires text r [PipeRead n; b; d] m) as [pr m']. rewrite place_app. unfold place. simpl. by rewrite app_nil_r.
  - destruct Hr as [Hl Hr]. cbn [wiring].
    transitivity (let '(child, m) := progs (runcmd buf l) (three t) n in
      let '(parent, m) := progs (runcmd buf r) (three t) m in (child ++ parent, m)); [reflexivity|].
    rewrite IHl by (done || set_solver). destruct (wires text l t n) as [pl m]. unfold place at 1. cbn [fst snd].
    rewrite IHr by (done || set_solver). destruct (wires text r t m) as [pr m']. by rewrite place_app.
  - cbn [wiring]. transitivity (let '(child, m) := progs (runcmd buf c) (three t) n in (child ++ [], m)); [reflexivity|].
    rewrite IH by done. destruct (wires text c t n) as [pc m]. unfold place. simpl. by rewrite app_nil_r.
Qed.

(** The parent of a pipeline closes its two ends before it waits, so that in
    every process of the line only 0, 1 and 2 stay open. *)

(** C13.  A command line that the grammar derives runs exactly the programs of
    its tree: each with its words as arguments and with its descriptors 0, 1
    and 2 connected as its redirections and pipes say, no other descriptor
    open, whichever files can be opened and whichever programs can be run. *)
Theorem sh_runs_line (buf : list ascii) (s : nat) (text : cstr) (c : cmd) (t : list res) (n : nat)
    (Hb : cstr_at buf s text) (Hc : line (lex s None text) c) (Ht : length t = 3) :
  exists buf', parsecmd buf s = Ret (buf', c) /\
    programs openable runnable (runcmd buf' c) (three t) n =
      place (wiring openable runnable (fun '(q, eq) => slice q (eq - q) buf) c t n).
Proof.
  destruct (parsecmd_spec buf s text Hb) as [Hp _]. destruct (Hp c Hc) as (buf' & Hret & Hw).
  exists buf'. split; [done|]. apply runcmd_programs; [done| |].
  - by apply (proj2 (proj2 grammar_std_redirs) _ _ Hc).
  - intros [q eq] Hin. unfold str. simpl. by apply Hw.
Qed.
End wires.

Lemma sh_runs_line_witness :
  exists buf', parsecmd (c_str "a|b >f" ++ [NUL]) 0 = Ret (buf', PIPE (EXEC [(0, 1)]) (REDIR (EXEC [(2, 3)]) (5, 6) 1537 1)) /\
    programs (fun _ _ => true) (fun _ => true)
      (runcmd buf' (PIPE (EXEC [(0, 1)]) (REDIR (EXEC [(2, 3)]) (5, 6) 1537 1)))
      (three [Inherited 0; Inherited 1; Inherited 2]) 0 =
    ([([c_str "a"], three [Inherited 0; PipeWrite 0; Inherited 2]);
      ([c_str "b"], three [PipeRead 0; File (c_str "f") 1537; Inherited 2])], 1).
Proof.
  apply (sh_runs_line (fun _ _ => true) (fun _ => true) (c_str "a|b >f" ++ [NUL]) 0 (c_str "a|b >f")
    (PIPE (EXEC [(0, 1)]) (REDIR (EXEC [(2, 3)]) (5, 6) 1537 1)) [Inherited 0; Inherited 1; Inherited 2] 0).
  - split; [apply (bool_decide_unpack _); vm_compute; exact I|by exists [], []].
  - replace (lex 0 None (c_str "a|b >f")) with ((toks [IWord (0, 1)] ++
      TSym "|"%char :: toks [IWord (2, 3); IRedir ">"%char (5, 6)]) ++ amps 0) by (vm_compute; reflexivity).
    apply (l_one _ (PIPE (EXEC [(0, 1)]) (REDIR (EXEC [(2, 3)]) (5, 6) 1537 1)) 0). apply p_more.
    + apply (c_simple [IWord (0, 1)]); [by repeat constructor|simpl; unfold MAXARGS; lia].
    + apply p_one. apply (c_simple [IWord (2, 3); IRedir ">"%char (5, 6)]); [|simpl; unfold MAXARGS; lia].
      constructor; [done|]. constructor; [|constructor]. simpl. set_solver.
  - reflexivity.
Defined.

(** ** Changing the directory *)
Lemma skip_blanks_spec buf : forall blanks p l fuel, cstr_at buf p (blanks ++ l) ->
  Forall (fun c => c = SPACE \/ c = TAB) blanks ->
  match l with c :: _ => c <> SPACE /\ c <> TAB | [] => True end -> length blanks < fuel ->
  skip_blanks buf p fuel = Ret (p + length blanks) /\ cstr_at buf (p + length blanks) l.
Proof.
  induction blanks as [|b blanks IH]; intros p l [|fuel] Hat Hb Hl Hf; simpl in Hf; try lia; cbn [skip_blanks].
  - simpl in *. rewrite Nat.add_0_r. split; [|done]. destruct l as [|c l].
    + by rewrite (load_ret _ _ _ (cstr_at_nil _ _ Hat)).
    + apply cstr_at_cons in Hat as (Hc & _). rewrite (load_ret _ _ _ Hc). cbn [obind].
      by rewrite decide_False by tauto.
  - simpl in Hat. apply cstr_at_cons in Hat as (Hc & _ & Hat). apply Forall_cons in Hb as [Hc' Hb].
    rewrite (load_ret _ _ _ Hc). cbn [obind]. rewrite decide_True by done.
    destruct (IH (S p) l fuel) as [-> ?]; [done|done|done|lia|]. simpl.
    by rewrite Nat.add_succ_r.
Qed.

(** [cd] goes to the directory named on the line less its last character,
    whatever that is.  With the newline at the end of the line that is the
    name; a line without one (cut at 99 characters, or the last of a file)
    loses a character of the name. *)
Lemma sh_line_cd buf blanks dir x : Forall (fun c => c = SPACE \/ c = TAB) blanks ->
  cstr_at buf 0 (blanks ++ c_str "cd " ++ dir ++ [x]) ->
  exists buf', sh_line buf = Ret (Chdir dir, buf').
Proof.
  intros Hb Hat. pose proof (cstr_at_length _ _ _ Hat) as Hlen. rewrite length_app in Hlen.
  destruct (skip_blanks_spec buf blanks 0 (c_str "cd " ++ dir ++ [x]) (S (length buf))) as [Hs Hcd];
    [done|done|by simpl; split|lia|].
  unfold sh_line. rewrite Hs. cbn [obind]. set (cmd := 0 + length blanks) in *.
  pose proof Hcd as Hcd0. simpl in Hcd.
  apply cstr_at_cons in Hcd as (H0 & _ & Hcd). apply cstr_at_cons in Hcd as (H1 & _ & Hcd).
  apply cstr_at_cons in Hcd as (H2 & _ & Hcd).
  rewrite (load_ret _ _ _ H0). cbn [obind]. rewrite decide_False by done. rewrite decide_True by done.
  replace (cmd + 1) with (S cmd) by lia. replace (cmd + 2) with (S (S cmd)) by lia.
  rewrite (load_ret _ _ _ H1). cbn [obind]. rewrite decide_True by done.
  rewrite (load_ret _ _ _ H2). cbn [obind]. rewrite bool_decide_eq_true_2 by done.
  rewrite (ustrlen_spec _ _ _ Hcd0). cbn [obind]. pose proof (cstr_at_length _ _ _ Hcd) as Hl.
  rewrite length_app in Hl. simpl in Hl.
  rewrite store_ret by (simpl; rewrite length_app; simpl; lia). cbn [obind]. eexists. do 2 f_equal.
  f_equal. replace (cmd + 3) with (S (S (S cmd))) by lia.
  replace (cmd + length (c_str "cd " ++ dir ++ [x]) - 1) with (S (S (S cmd)) + length dir)
    by (simpl; rewrite length_app; simpl; lia).
  destruct Hcd as (Hn & pre & post & -> & <-). apply no_nul_app in Hn as [Hn _].
  rewrite insert_app_r, drop_app_length. rewrite <-app_assoc, insert_app_r_alt, Nat.sub_diag by lia. simpl.
  clear -Hn. induction dir as [|c dir IH]; [done|]. apply no_nul_cons in Hn as [Hc Hn].
  simpl. rewrite decide_False by done. by rewrite IH.
Qed.

Example cd_without_newline :
  sh_line (c_str "cd dir" ++ [NUL]) = Ret (Chdir (c_str "di"), c_str "cd di" ++ [NUL; NUL]).
Proof. vm_compute. reflexivity. Qed.
