(* ===== verification/Umalloc.v ===== *)
(** * The allocator of the user programs

    [user/umalloc.c], the allocator of Kernighan and Ritchie.  Memory is the
    map of the headers (pointer and size in units of 16 bytes) at their byte
    addresses; [base] is the static header, below the heap.  [sbrk] is the
    class [SbrkOS].

    The invariant: the free list is the circle of the free blocks in the order
    of their addresses, no two of them adjacent; free and allocated blocks do
    not overlap and together are all the memory that [sbrk] gave.  [malloc] and [free] keep it, stop, and [malloc] returns a
    block of the size asked for that overlaps no other. *)

From S2P Require Import Prelude Bytes.

Local Open Scope Z_scope.

(** ** The system's side: [sbrk] moves the end of the heap. *)
Class SbrkOS (S : Type) := {
  os_sbrk : S -> Z -> Z * S;
  brk : S -> Z
}.

Definition SBRK_ERROR : Z := -1.

(** A call that fails changes nothing; one that succeeds returns the old end
    and moves it by the argument.  The heap of a process is far smaller than
    the 64 GB that a [uint] of units could count. *)
Class SbrkLaws (S : Type) `{SbrkOS S} := {
  sbrk_law : forall s n, 0 <= n ->
    (fst (os_sbrk s n) = SBRK_ERROR /\ brk (snd (os_sbrk s n)) = brk s) \/
    (fst (os_sbrk s n) = brk s /\ brk (snd (os_sbrk s n)) = brk s + n /\ brk s + n <= 68719476736)
}.

(** ** The code *)
Definition HDR : Z := 16.

Section allocator.
Context {OS : Type} `{SbrkOS OS}.
Context (base : Z).

Record mstate := MState { hdrs : gmap Z (Z * Z); freep : Z; sys : OS }.

Definition set_hdr (st : mstate) (a : Z) (h : Z * Z) : mstate := MState (<[a := h]> (hdrs st)) (freep st) (sys st).
Definition set_freep (st : mstate) (p : Z) : mstate := MState (hdrs st) p (sys st).

(** Reading a header: an address that never held one is not a header. *)
Definition get_hdr (st : mstate) (a : Z) : outcome (Z * Z) := from_option (hdrs st !! a).

(** The two tests of the loop of [free]. *)
Fixpoint free_find (st : mstate) (bp p : Z) (fuel : nat) : outcome Z :=
  match fuel with
  | O => NoFuel
  | S fuel =>
      let* '(ptr, _) := get_hdr st p in
      if (p <? bp) && (bp <? ptr) then Ret p
      else if (ptr <=? p) && ((p <? bp) || (bp <? ptr)) then Ret p
      else free_find st bp ptr fuel
  end.

(** More rounds than there are headers. *)
Definition rounds (st : mstate) : nat := (2 * size (hdrs st) + 4)%nat.

Definition free (st : mstate) (ap : Z) : outcome mstate :=
  let bp := ap - HDR in
  let* p := free_find st bp (freep st) (rounds st) in
  let* '(pptr, psize) := get_hdr st p in
  let* '(_, bsize) := get_hdr st bp in
  let* '(bptr, bsize) :=
    if bp + HDR * bsize =? pptr then
      let* '(nptr, nsize) := get_hdr st pptr in Ret (nptr, u32 (bsize + nsize))
    else Ret (pptr, bsize) in
  let st := set_hdr st bp (bptr, bsize) in
  let* '(pptr, psize) := get_hdr st p in
  let st :=
    if p + HDR * psize =? bp then set_hdr st p (bptr, u32 (psize + bsize))
    else set_hdr st p (bp, psize) in
  Ret (set_freep st p).

(** [morecore(nu)]: [None] is the null pointer; the argument of [sbrk] is an
    [int].  The pointer field of the new header is what the memory held,
    which [free] overwrites before it is read. *)
Definition morecore (st : mstate) (nu : Z) : outcome (option Z * mstate) :=
  let nu := if nu <? 4096 then 4096 else nu in
  let '(p, s) := os_sbrk (sys st) (wrap32 (nu * HDR)) in
  let st := MState (hdrs st) (freep st) s in
  if p =? SBRK_ERROR then Ret (None, st)
  else
    let st := set_hdr st p (0, nu) in
    let* st := free st (p + HDR) in
    Ret (Some (freep st), st).

(** The block [p] behind [prevp] is large enough: it is given away whole, or
    its end is. *)
Definition take_block (st : mstate) (prevp p ptr sz nunits : Z) : outcome (option Z * mstate) :=
  let* '(p, st) :=
    if sz =? nunits then
      let* '(_, prevsz) := get_hdr st prevp in
      Ret (p, set_hdr st prevp (ptr, prevsz))
    else
      let st := set_hdr st p (ptr, sz - nunits) in
      let p := p + HDR * (sz - nunits) in
      Ret (p, set_hdr st p (match hdrs st !! p with Some (q, _) => q | None => 0 end, nunits)) in
  Ret (Some (p + HDR), set_freep st prevp).

Fixpoint malloc_loop (st : mstate) (prevp p nunits : Z) (fuel : nat) : outcome (option Z * mstate) :=
  match fuel with
  | O => NoFuel
  | S fuel =>
      let* '(ptr, sz) := get_hdr st p in
      if nunits <=? sz then take_block st prevp p ptr sz nunits
      else if p =? freep st then
        let* '(r, st) := morecore st nunits in
        match r with
        | None => Ret (None, st)
        | Some p =>
            let* '(ptr, _) := get_hdr st p in
            malloc_loop st p ptr nunits fuel
        end
      else malloc_loop st p ptr nunits fuel
  end.

Definition malloc (st : mstate) (nbytes : Z) : outcome (option Z * mstate) :=
  let nunits := u32 ((nbytes + HDR - 1) / HDR + 1) in
  let st := if freep st =? 0 then set_freep (set_hdr st base (base, 0)) base else st in
  let* '(ptr, _) := get_hdr st (freep st) in
  malloc_loop st (freep st) ptr nunits (rounds st).
End allocator.
Arguments mstate OS : clear implicits.

(** ** The free list *)
Abbreviation block := (Z * Z)%type.

Definition end_of (b : block) : Z := fst b + HDR * snd b.
Definition apart (b c : block) : Prop := end_of b <= fst c \/ end_of c <= fst b.

(** The address of the first block, [next] behind the last. *)
Definition first (l : list block) (next : Z) : Z := match l with [] => next | (a, _) :: _ => a end.

Fixpoint linked (h : gmap Z (Z * Z)) (l : list block) (next : Z) : Prop :=
  match l with
  | [] => True
  | (a, s) :: l => h !! a = Some (first l next, s) /\ linked h l next
  end.

(** In the order of addresses, with a gap between any two. *)
Definition ascending (l : list block) : Prop := StronglySorted (fun b c => end_of b < fst c) l.

Lemma linked_app h l1 l2 next : linked h (l1 ++ l2) next <-> linked h l1 (first l2 next) /\ linked h l2 next.
Proof.
  induction l1 as [|[a s] l1 IH]; simpl; [tauto|]. rewrite IH.
  assert (first (l1 ++ l2) next = first l1 (first l2 next)) as -> by (by destruct l1 as [|[]]). tauto.
Qed.

Lemma linked_insert h l next a x : a ∉ fst <$> l -> linked h l next -> linked (<[a := x]> h) l next.
Proof.
  induction l as [|[b s] l IH]; simpl; [done|]. intros Ha [Hb Hl]. split; [|apply IH; set_solver].
  rewrite lookup_insert_ne by set_solver. done.
Qed.

Lemma linked_lookup h l next i a s : linked h l next -> l !! i = Some (a, s) ->
  h !! a = Some (match l !! S i with Some (b, _) => b | None => next end, s).
Proof.
  revert i. induction l as [|[b t] l IH]; intros [|i]; simpl; [done..|intros [Hb _] [= -> ->]|intros [_ Hl] Hi].
  - rewrite Hb. by destruct l as [|[]].
  - by apply IH.
Qed.

Lemma linked_elem h l next b : linked h l next -> b ∈ l -> exists q, h !! fst b = Some (q, snd b).
Proof.
  intros Hl (i & Hi)%list_elem_of_lookup. destruct b as [a s]. simpl. rewrite (linked_lookup _ _ _ _ _ _ Hl Hi). eauto.
Qed.

Lemma ascending_app l1 l2 : ascending (l1 ++ l2) <->
  ascending l1 /\ ascending l2 /\ forall b c, b ∈ l1 -> c ∈ l2 -> end_of b < fst c.
Proof.
  unfold ascending. induction l1 as [|x l1 IH]; simpl.
  - split; [intros H; repeat split; [constructor|done|set_solver]|tauto].
  - rewrite !StronglySorted_cons, IH, Forall_app, !Forall_forall. set_solver.
Qed.

Lemma ascending_cons b l : ascending (b :: l) <-> ascending l /\ forall c, c ∈ l -> end_of b < fst c.
Proof. unfold ascending. rewrite StronglySorted_cons, Forall_forall. tauto. Qed.

(** Sizes are not negative, so the addresses ascend as well. *)
Definition sized (l : list block) : Prop := Forall (fun b => 0 <= snd b) l.

Lemma end_ge b : 0 <= snd b -> fst b <= end_of b.
Proof. unfold end_of, HDR. lia. Qed.

Lemma ascending_lt l i j b c : ascending l -> sized l -> l !! i = Some b -> l !! j = Some c -> (i < j)%nat ->
  fst b < fst c.
Proof.
  intros Ha Hs Hi Hj Hij. rewrite <-(take_drop (S i) l) in Ha. apply ascending_app in Ha as (_ & _ & Ha).
  assert (end_of b < fst c).
  { apply Ha; [apply list_elem_of_lookup; exists i; rewrite lookup_take_lt by lia; done|].
    apply list_elem_of_lookup. exists (j - S i)%nat. rewrite lookup_drop. rewrite <-Hj. f_equal. lia. }
  unfold sized in Hs. rewrite Forall_forall in Hs.
  pose proof (end_ge b (Hs b (list_elem_of_lookup_2 _ _ _ Hi))). lia.
Qed.

Lemma ascending_inj l i j b c : ascending l -> sized l -> l !! i = Some b -> l !! j = Some c -> fst b = fst c -> i = j.
Proof.
  intros Ha Hs Hi Hj E. destruct (lt_eq_lt_dec i j) as [[Hlt|]|Hlt]; [|done|].
  - pose proof (ascending_lt _ _ _ _ _ Ha Hs Hi Hj Hlt). lia.
  - pose proof (ascending_lt _ _ _ _ _ Ha Hs Hj Hi Hlt). lia.
Qed.

Lemma ascending_NoDup l : ascending l -> sized l -> NoDup (fst <$> l).
Proof.
  intros Ha Hs. apply NoDup_alt. intros i j x Hi Hj.
  apply list_lookup_fmap_Some in Hi as (b & -> & Hi). apply list_lookup_fmap_Some in Hj as (c & E & Hj).
  eapply ascending_inj; eauto.
Qed.

Lemma ascending_apart l b c : ascending l -> b ∈ l -> c ∈ l -> b <> c -> apart b c.
Proof.
  assert (forall i j x y, ascending l -> l !! i = Some x -> l !! j = Some y -> (i < j)%nat -> end_of x <= fst y) as Hlt.
  { intros i j x y Ha Hi Hj Hij. rewrite <-(take_drop (S i) l) in Ha. apply ascending_app in Ha as (_ & _ & Ha).
    apply Z.lt_le_incl. apply Ha; apply list_elem_of_lookup; [exists i; by rewrite lookup_take_lt by lia|].
    exists (j - S i)%nat. rewrite lookup_drop, <-Hj. f_equal. lia. }
  intros Ha (i & Hi)%list_elem_of_lookup (j & Hj)%list_elem_of_lookup Hne. unfold apart.
  destruct (lt_eq_lt_dec i j) as [[?|?]|?]; [left; eauto|congruence|right; eauto].
Qed.

(** The loops have rounds enough. *)
Lemma linked_rounds h l next : linked h l next -> ascending l -> sized l -> (length l <= size h)%nat.
Proof.
  intros Hl Ha Hs. rewrite <-size_dom, <-(length_fmap fst).
  rewrite <-(size_list_to_set (C := gset Z) (fst <$> l)) by (by apply ascending_NoDup).
  apply subseteq_size. intros a. rewrite elem_of_list_to_set, list_elem_of_fmap.
  intros (b & -> & Hb). apply elem_of_dom. destruct (linked_elem _ _ _ _ Hl Hb) as [q Hq]. by rewrite Hq.
Qed.

(** ** Sizes in units *)
Fixpoint total (l : list block) : Z := match l with [] => 0 | b :: l => snd b + total l end.

Definition used_total (u : gmap Z Z) : Z := map_fold (fun _ n t => n + t) 0 u.

Lemma units_app l1 l2 : total (l1 ++ l2) = total l1 + total l2.
Proof. induction l1 as [|b l1 IH]; simpl; [done|]. rewrite IH. lia. Qed.

Lemma used_total_insert u a n : u !! a = None -> used_total (<[a := n]> u) = n + used_total u.
Proof. intros Ha. unfold used_total. rewrite map_fold_insert_L; [done|intros; lia|done]. Qed.

Lemma used_total_delete u a n : u !! a = Some n -> used_total u = n + used_total (delete a u).
Proof.
  intros Ha. rewrite <-(insert_delete_id u a n) at 1 by done. apply used_total_insert, lookup_delete_eq.
Qed.

Section allocator_inv.
Context {OS : Type} `{SbrkLaws OS}.
(** The static header, and where the heap began. *)
Context (base bot : Z).
Implicit Types (st : mstate OS) (l : list block) (u : gmap Z Z).

(** The circle: the static header, then the free blocks. *)
Abbreviation circle rest := ((base, 0) :: rest).

Record heap_inv st rest u : Prop := {
  hi_linked : linked (hdrs st) (circle rest) base;
  hi_ascending : ascending (circle rest);
  hi_sized : Forall (fun b => 0 < snd b) rest;
  hi_freep : freep st ∈ fst <$> circle rest;
  hi_brk : forall b, b ∈ rest -> end_of b <= brk (sys st);
  hi_used : forall a s, u !! a = Some s -> exists q, hdrs st !! a = Some (q, s) /\ 0 < s /\ base < a /\
    end_of (a, s) <= brk (sys st);
  hi_free_used : forall a s b, u !! a = Some s -> b ∈ rest -> apart (a, s) b;
  hi_used_used : forall a s a' s', u !! a = Some s -> u !! a' = Some s' -> a <> a' -> apart (a, s) (a', s');
  hi_base : 0 < base < brk (sys st);
  hi_top : brk (sys st) <= 68719476736;
  hi_total : HDR * (total rest + used_total u) = brk (sys st) - bot;
  hi_bot : bot <= brk (sys st);
  hi_low : forall b, b ∈ rest -> bot <= fst b;
  hi_used_low : forall a s, u !! a = Some s -> bot <= a
}.

Lemma circle_sized rest : Forall (fun b => 0 < snd b) rest -> sized (circle rest).
Proof. intros Hs. constructor; [done|]. eapply Forall_impl; [exact Hs|]. intros [] ?; simpl in *; lia. Qed.

(** ** Where a block goes *)
Definition before (bp : Z) (l1 : list block) (p s : Z) (l2 : list block) : Prop :=
  p < bp /\ (forall b, b ∈ l1 -> fst b < p) /\ (forall b, b ∈ l2 -> bp < fst b).

Lemma find_place bp rest : ascending (circle rest) -> sized (circle rest) -> base < bp ->
  bp ∉ fst <$> rest -> exists l1 p s l2, circle rest = l1 ++ (p, s) :: l2 /\ before bp l1 p s l2.
Proof.
  intros Ha Hs Hb Hn. revert Ha Hs. induction rest as [|[a s] rest IH] using rev_ind; intros Ha Hs.
  { exists [], base, 0, []. repeat split; [done|set_solver|set_solver]. }
  rewrite app_comm_cons in Ha, Hs. pose proof Ha as Ha0. pose proof Hs as Hs0.
  apply ascending_app in Ha as (Ha & _ & Hlt). apply Forall_app in Hs as [Hs _].
  destruct (decide (a < bp)).
  - exists (circle rest), a, s, []. split; [done|]. split; [done|]. split; [|set_solver].
    intros b Hin. specialize (Hlt b (a, s) Hin ltac:(set_solver)). simpl in Hlt.
    unfold sized in Hs. rewrite Forall_forall in Hs. pose proof (end_ge b (Hs b Hin)). lia.
  - destruct IH as (l1 & p & t & l2 & E & Hp & H1 & H2); [rewrite fmap_app in Hn; set_solver|done|done|].
    exists l1, p, t, (l2 ++ [(a, s)]). split; [rewrite app_comm_cons, E, <-app_assoc; done|].
    split; [done|]. split; [done|]. intros b [| ->%list_elem_of_singleton]%elem_of_app; [auto|].
    rewrite fmap_app in Hn. simpl in *. assert (a <> bp) by set_solver. lia.
Qed.
(** From a block up to the place of [bp] the loop goes forward; behind it, on
    to the end of the circle and to [base]. *)
Lemma free_find_forward st bp p s l2 : forall l1 fuel,
  linked (hdrs st) (l1 ++ (p, s) :: l2) base -> ascending (l1 ++ (p, s) :: l2) -> sized (l1 ++ (p, s) :: l2) ->
  before bp l1 p s l2 -> base <= p -> base < bp -> (length l1 < fuel)%nat ->
  free_find st bp (first (l1 ++ (p, s) :: l2) base) fuel = Ret p.
Proof.
  induction l1 as [|[a t] l1 IH]; intros [|fuel] Hl Ha Hs (Hp & H1 & H2) Hbp Hb Hf; simpl in Hf; try lia;
    cbn [free_find app first]; destruct Hl as [Hh Hl]; unfold get_hdr; rewrite Hh; cbn [from_option obind].
  - destruct l2 as [|[q t] l2]; cbn [first].
    + rewrite (proj2 (Z.ltb_lt p bp)), (proj2 (Z.ltb_ge bp base)), (proj2 (Z.leb_le base p)) by lia. done.
    + specialize (H2 (q, t) ltac:(set_solver)). simpl in H2.
      rewrite (proj2 (Z.ltb_lt p bp)), (proj2 (Z.ltb_lt bp q)) by lia. done.
  - apply ascending_cons in Ha as [Ha Hlt]. apply Forall_cons in Hs as [Ht Hs]. simpl in Ht.
    assert (a < first (l1 ++ (p, s) :: l2) base <= p) as [Hap Hfp].
    { specialize (H1 (a, t) ltac:(set_solver)) as Hap. destruct l1 as [|[b r] l1]; simpl.
      - simpl in Hap. lia.
      - specialize (H1 (b, r) ltac:(set_solver)). specialize (Hlt (b, r) ltac:(set_solver)).
        unfold end_of, HDR in Hlt. simpl in *. lia. }
    rewrite (proj2 (Z.ltb_ge bp _)) by lia. rewrite andb_false_r.
    rewrite (proj2 (Z.leb_gt _ a)) by lia. simpl andb. cbv iota.
    apply IH; [done|done|done| |done|done|lia]. split; [done|]. split; [|done]. intros; apply H1; set_solver.
Qed.

Lemma free_find_behind st bp : forall lb fuel,
  linked (hdrs st) lb base -> ascending lb -> sized lb -> (forall b, b ∈ lb -> bp < fst b) -> base < bp ->
  free_find st bp (first lb base) (length lb + fuel) = free_find st bp base fuel.
Proof.
  induction lb as [|[a t] lb IH]; intros fuel Hl Ha Hs H2 Hb; [done|]. destruct Hl as [Hh Hl].
  cbn [free_find first length Nat.add]. unfold get_hdr at 1. rewrite Hh. cbn [from_option obind].
  apply ascending_cons in Ha as [Ha Hlt]. apply Forall_cons in Hs as [Ht Hs].
  specialize (H2 (a, t) ltac:(set_solver)) as Hat. simpl in Hat, Ht.
  rewrite (proj2 (Z.ltb_ge a bp)) by lia. simpl andb. cbv iota.
  assert ((first lb base <=? a) && (bp <? first lb base) = false) as ->.
  { destruct lb as [|[b r] lb]; simpl.
    - apply andb_false_intro2. apply Z.ltb_ge. lia.
    - apply andb_false_intro1. apply Z.leb_gt. specialize (Hlt (b, r) ltac:(set_solver)).
      unfold end_of, HDR in Hlt. simpl in Hlt. lia. }
  apply IH; [done|done|done|intros; apply H2; set_solver|done].
Qed.

Lemma free_find_spec st rest bp l1 p s l2 fuel :
  linked (hdrs st) (circle rest) base -> ascending (circle rest) -> sized (circle rest) ->
  circle rest = l1 ++ (p, s) :: l2 -> before bp l1 p s l2 -> base < bp ->
  freep st ∈ fst <$> circle rest -> (2 * length (circle rest) < fuel)%nat ->
  free_find st bp (freep st) fuel = Ret p.
Proof.
  intros Hl Ha Hs E Hbef Hb Hfp Hf.
  assert (base <= p) as Hbp.
  { destruct l1 as [|x l1]; [injection E; lia|]. destruct Hbef as (_ & H1 & _).
    assert (x = (base, 0)) as -> by (by injection E).
    specialize (H1 (base, 0) ltac:(set_solver)). simpl in H1. lia. }
  assert (forall fuel, (length l1 < fuel)%nat -> free_find st bp base fuel = Ret p) as Hfwd.
  { intros f Hlt. pose proof (free_find_forward st bp p s l2 l1 f) as Hff. rewrite <-E in Hff. apply Hff; done. }
  apply list_elem_of_fmap in Hfp as (x & Ex & Hin). rewrite Ex. rewrite E in Hin, Hl, Ha, Hs, Hf.
  rewrite length_app in Hf. simpl in Hf.
  assert (x ∈ l1 ++ [(p, s)] \/ x ∈ l2) as [Hx|Hx] by set_solver.
  - apply list_elem_of_split in Hx as (m1 & m2 & Em).
    assert (exists m3 y, x :: m2 = m3 ++ [y] /\ y = (p, s)) as (m3 & y & E3 & ->).
    { destruct (exists_last (l := x :: m2)) as (m3 & y & E3); [done|]. exists m3, y. split; [done|].
      rewrite E3, app_assoc in Em. apply app_inj_tail in Em as [_ ?]. done. }
    assert (l1 = m1 ++ m3) as ->.
    { rewrite E3, app_assoc in Em. by apply app_inj_tail in Em as [? _]. }
    assert (fst x = first (m3 ++ (p, s) :: l2) base) as ->.
    { destruct m3 as [|[a t] m3]; simpl in E3; by injection E3 as -> _. }
    rewrite <-app_assoc in Hl, Ha, Hs. apply linked_app in Hl as [_ Hl]. apply ascending_app in Ha as (_ & Ha & _).
    apply Forall_app in Hs as [_ Hs]. rewrite length_app in Hf.
    apply free_find_forward; try done; [|lia].
    destruct Hbef as (? & H1 & ?). split; [done|]. split; [|done]. intros; apply H1; set_solver.
  - apply list_elem_of_split in Hx as (m1 & m2 & ->).
    replace (l1 ++ (p, s) :: m1 ++ x :: m2) with ((l1 ++ (p, s) :: m1) ++ x :: m2) in Hl, Ha, Hs
      by (by rewrite <-app_assoc).
    apply linked_app in Hl as [_ Hl]. apply ascending_app in Ha as (_ & Ha & _). apply Forall_app in Hs as [_ Hs].
    destruct x as [a t]. simpl fst. change a with (first ((a, t) :: m2) base).
    rewrite length_app in Hf. simpl in Hf.
    replace fuel with (length ((a, t) :: m2) + (fuel - length ((a, t) :: m2)))%nat by (simpl; lia).
    rewrite free_find_behind; [apply Hfwd; simpl; lia|done..| |done].
    intros b Hin'. destruct Hbef as (_ & _ & H2). apply H2. set_solver.
Qed.
(** ** [free] on the list

    The block [(a, n)] joined with its right neighbour, and what is behind;
    then joined with its left neighbour. *)
Definition join_right (a n : Z) (l2 : list block) : Z * list block :=
  match l2 with
  | (q, t) :: l3 => if a + HDR * n =? q then (n + t, l3) else (n, l2)
  | [] => (n, [])
  end.

Definition join_left (p s a n : Z) : list block :=
  if p + HDR * s =? a then [(p, s + n)] else [(p, s); (a, n)].

Lemma apart_join x a n t : 0 < snd x -> 0 < n -> 0 <= t ->
  apart x (a, n) -> apart x (a + HDR * n, t) -> apart x (a, n + t).
Proof. unfold apart, end_of, HDR. simpl. lia. Qed.

(** What joining to the right does to the rest of the list. *)
Lemma join_right_spec a n l2 m l3 : join_right a n l2 = (m, l3) -> ascending l2 ->
  Forall (fun b => 0 < snd b) l2 -> (forall b, b ∈ l2 -> a + HDR * n <= fst b) -> 0 < n ->
  ascending ((a, m) :: l3) /\ n <= m /\ (forall b, b ∈ l3 -> b ∈ l2) /\
  (forall top, a + HDR * n <= top -> (forall b, b ∈ l2 -> end_of b <= top) -> a + HDR * m <= top) /\
  (forall x, 0 < snd x -> apart x (a, n) -> (forall b, b ∈ l2 -> apart x b) -> apart x (a, m)).
Proof.
  unfold join_right. intros E Ha Hs Hle Hn. destruct l2 as [|[q t] l2].
  { injection E as <- <-. split; [by repeat constructor|]. split; [lia|]. by repeat split. }
  apply ascending_cons in Ha as [Ha Hlt]. apply Forall_cons in Hs as [Ht Hs]. simpl in Ht.
  specialize (Hle (q, t) ltac:(set_solver)) as Hq. simpl in Hq. unfold end_of in *. simpl in Hlt.
  destruct (Z.eqb_spec (a + HDR * n) q) as [<-|Hne]; injection E as <- <-.
  - split; [|split; [lia|]; split; [set_solver|]; split].
    + apply ascending_cons. split; [done|]. intros c Hc. specialize (Hlt c Hc). unfold end_of, HDR in *. simpl. lia.
    + intros top Htop Hend. specialize (Hend (a + HDR * n, t) ltac:(set_solver)). unfold end_of, HDR in *. simpl in *. lia.
    + intros x Hx Hxa Hxl. apply apart_join; try done; [lia|]. apply Hxl. set_solver.
  - split; [|split; [lia|]; split; [set_solver|]; split; [auto|auto]].
    apply ascending_cons. split; [apply ascending_cons; split; [done|]; intros; by apply Hlt|].
    intros c [->|Hc]%elem_of_cons; unfold end_of; simpl; [lia|]. specialize (Hlt c Hc). unfold HDR in *. lia.
Qed.

(** The headers that [free] reads and writes on the right side. *)
Lemma join_right_code st a n l2 m l3 : join_right a n l2 = (m, l3) -> linked (hdrs st) l2 base ->
  base < a + HDR * n -> 0 <= m < 4294967296 ->
  (if a + HDR * n =? first l2 base then
     let* '(nptr, nsize) := get_hdr st (first l2 base) in Ret (nptr, u32 (n + nsize))
   else Ret (first l2 base, n)) = Ret (first l3 base, m) /\ linked (hdrs st) l3 base.
Proof.
  unfold join_right. intros E Hl Hb Hm. destruct l2 as [|[q t] l2]; cbn [first].
  - injection E as <- <-. by rewrite (proj2 (Z.eqb_neq _ _)) by lia.
  - destruct Hl as [Hh Hl]. destruct (Z.eqb_spec (a + HDR * n) q) as [_|_]; injection E as <- <-; [|done].
    unfold get_hdr. rewrite Hh. cbn [from_option obind]. by rewrite u32_small.
Qed.

(** The list after [free], and the headers that hold it. *)
Definition joined (l1 : list block) (p s a m : Z) (l3 : list block) : list block :=
  l1 ++ join_left p s a m ++ l3.

Definition joined_hdrs (h : gmap Z (Z * Z)) (p s a m : Z) (l3 : list block) : gmap Z (Z * Z) :=
  let h := <[a := (first l3 base, m)]> h in
  if p + HDR * s =? a then <[p := (first l3 base, s + m)]> h else <[p := (a, s)]> h.

Lemma joined_linked h l1 p s a m l3 : linked h l1 p -> linked h l3 base ->
  (forall b, b ∈ l1 -> fst b < p) -> p < a -> (forall b, b ∈ l3 -> a < fst b) ->
  linked (joined_hdrs h p s a m l3) (joined l1 p s a m l3) base.
Proof.
  intros H1 H3 Hlt1 Hpa Hlt3. unfold joined, joined_hdrs, join_left.
  assert (forall x, x = p \/ x = a -> (x ∉ fst <$> l1) /\ (x ∉ fst <$> l3)) as Hout.
  { intros x Hx. split; intros (b & -> & Hb)%list_elem_of_fmap.
    - specialize (Hlt1 b Hb). lia.
    - specialize (Hlt3 b Hb). lia. }
  destruct (Hout p) as [Hp1 Hp3]; [auto|]. destruct (Hout a) as [Ha1 Ha3]; [auto|].
  apply linked_app. destruct (p + HDR * s =? a); cbn [app first linked].
  - split; [by do 2 (apply linked_insert; [done|])|].
    split; [by rewrite lookup_insert_eq|by do 2 (apply linked_insert; [done|])].
  - split; [by do 2 (apply linked_insert; [done|])|].
    split; [by rewrite lookup_insert_eq|].
    split; [by rewrite lookup_insert_ne, lookup_insert_eq by lia|by do 2 (apply linked_insert; [done|])].
Qed.

Lemma joined_ascending l1 p s a m l3 : ascending (l1 ++ [(p, s)]) -> ascending ((a, m) :: l3) ->
  p + HDR * s <= a -> 0 <= s -> 0 < m -> (forall b, b ∈ l1 -> fst b < p) -> ascending (joined l1 p s a m l3).
Proof.
  intros H1 H3 Hle Hs Hm Hlt. unfold joined, join_left.
  apply ascending_app in H1 as (H1 & _ & H12). apply ascending_cons in H3 as [H3 Hgt].
  unfold end_of in *. simpl in *.
  assert (forall b, b ∈ l1 -> fst b + HDR * snd b < p) as Hlt1 by (intros b Hb; apply (H12 b (p, s)); set_solver).
  destruct (Z.eqb_spec (p + HDR * s) a) as [E|E]; apply ascending_app; (split; [done|]); split; unfold end_of; simpl.
  - apply ascending_cons. split; [done|]. intros c Hc. specialize (Hgt c Hc). unfold end_of, HDR in *. simpl. lia.
  - intros b c Hb [->|Hc]%elem_of_cons; specialize (Hlt1 b Hb); simpl; [done|]. specialize (Hgt c Hc). unfold HDR in *. lia.
  - apply ascending_cons. split; [by apply ascending_cons|].
    intros c [->|Hc]%elem_of_cons; unfold end_of; simpl; [lia|]. specialize (Hgt c Hc). unfold HDR in *. lia.
  - intros b c Hb Hc. specialize (Hlt1 b Hb). rewrite !elem_of_cons in Hc.
    destruct Hc as [->|[->|Hc]]; simpl; [done|unfold HDR in *; lia|]. specialize (Hgt c Hc). unfold HDR in *. lia.
Qed.

(** Whatever was apart from the pieces is apart from the joined blocks. *)
Lemma join_left_blocks p s a m b : b ∈ join_left p s a m -> 0 <= s -> 0 < m -> p + HDR * s <= a ->
  (b = (p, s) \/ 0 < snd b) /\ end_of b <= Z.max (p + HDR * s) (a + HDR * m) /\
  (forall x, 0 < snd x -> 0 < s -> apart x (p, s) -> apart x (a, m) -> apart x b) /\
  (s = 0 -> p < a -> b = (p, s) \/ b = (a, m)).
Proof.
  unfold join_left. destruct (Z.eqb_spec (p + HDR * s) a) as [<-|E]; intros Hb Hs Hm Hle.
  - apply list_elem_of_singleton in Hb as ->. simpl. split; [right; lia|]. split; [unfold end_of, HDR; simpl; lia|].
    split; [|unfold HDR; lia]. intros x Hx Hs' H1 H2. by apply apart_join; [done|done|lia|..].
  - rewrite elem_of_cons, list_elem_of_singleton in Hb. destruct Hb as [-> | ->]; simpl; unfold end_of; simpl.
    + split; [by left|]. split; [lia|]. auto.
    + split; [right; lia|]. split; [lia|]. auto.
Qed.
(** The circle starts with [base], before and after. *)
Lemma circle_split rest l1 p s l2 : circle rest = l1 ++ (p, s) :: l2 -> Forall (fun b => 0 < snd b) rest ->
  (l1 = [] /\ p = base /\ s = 0 /\ l2 = rest) \/
  (exists l1', l1 = (base, 0) :: l1' /\ rest = l1' ++ (p, s) :: l2 /\ 0 < s).
Proof.
  intros E Hs. destruct l1 as [|x l1]; simpl in E; injection E as E1 E2.
  - left. auto.
  - right. exists l1. subst x rest. split; [done|]. split; [done|]. apply Forall_app in Hs as [_ Hs].
    by apply Forall_inv in Hs.
Qed.

Lemma joined_circle rest l1 p s l2 a m l3 : circle rest = l1 ++ (p, s) :: l2 ->
  Forall (fun b => 0 < snd b) rest -> (forall b, b ∈ l3 -> b ∈ l2) -> base < a -> 0 < m ->
  p + HDR * s <= a ->
  exists rest', circle rest' = joined l1 p s a m l3 /\ Forall (fun b => 0 < snd b) rest' /\
    (forall b, b ∈ rest' -> b ∈ rest \/ b = (a, m) \/ (b ∈ join_left p s a m /\ (p, s) ∈ rest /\ 0 < s)) /\
    exists b, b ∈ rest' /\ fst b <= a /\ a + HDR * m <= end_of b.
Proof.
  intros E Hs H32 Hb Hm Hle. unfold joined.
  destruct (circle_split _ _ _ _ _ E Hs) as [(-> & -> & -> & ->)|(l1' & -> & -> & Hsp)].
  - exists ((a, m) :: l3). unfold join_left. rewrite (proj2 (Z.eqb_neq _ _)) by lia. split; [done|].
    rewrite Forall_forall in Hs. split; [|split].
    + constructor; [done|]. apply Forall_forall. auto.
    + intros b [->|Hin]%elem_of_cons; auto.
    + exists (a, m). split; [set_solver|]. unfold end_of. simpl. lia.
  - exists (l1' ++ join_left p s a m ++ l3). split; [done|].
    assert (forall b, b ∈ join_left p s a m -> 0 < snd b) as Hpos.
    { intros b Hin. destruct (join_left_blocks _ _ _ _ _ Hin) as ([-> | ?] & _); simpl; lia. }
    rewrite Forall_forall in Hs. split; [|split].
    + apply Forall_forall. intros b. rewrite !elem_of_app. intros [Hin|[Hin|Hin]]; [|auto|]; apply Hs; set_solver.
    + intros b. rewrite !elem_of_app. intros [Hin|[Hin|Hin]]; [left; set_solver| |left; set_solver].
      right. right. set_solver.
    + unfold join_left. destruct (Z.eqb_spec (p + HDR * s) a) as [<-|].
      * exists (p, s + m). split; [set_solver|]. unfold end_of, HDR. simpl. lia.
      * exists (a, m). split; [set_solver|]. unfold end_of. simpl. lia.
Qed.

Lemma join_left_addr p s a m b : b ∈ join_left p s a m -> fst b = p \/ fst b = a.
Proof. unfold join_left. destruct (_ =? _); rewrite ?elem_of_cons, ?elem_of_nil; naive_solver. Qed.

(** No unit is lost when blocks are joined. *)
Lemma joined_total rest l1 p s l2 a n m l3 rest' : circle rest = l1 ++ (p, s) :: l2 ->
  join_right a n l2 = (m, l3) -> circle rest' = joined l1 p s a m l3 -> total rest' = n + total rest.
Proof.
  intros E Ej Ec. apply (f_equal total) in E, Ec. unfold joined in Ec. rewrite !units_app in *. simpl in E, Ec.
  assert (total (join_left p s a m) = s + m) by (unfold join_left; destruct (_ =? _); simpl; lia).
  assert (m + total l3 = n + total l2); [|lia].
  unfold join_right in Ej. destruct l2 as [|[q t] l2]; [injection Ej as <- <-; done|].
  destruct (_ =? _); injection Ej as <- <-; simpl; lia.
Qed.

Lemma joined_length rest l1 p s l2 a n m l3 rest' : circle rest = l1 ++ (p, s) :: l2 ->
  join_right a n l2 = (m, l3) -> circle rest' = joined l1 p s a m l3 -> (length rest' <= S (length rest))%nat.
Proof.
  intros E Ej Ec. apply (f_equal length) in E, Ec. unfold joined in Ec. rewrite !length_app in *.
  assert (length (join_left p s a m) <= 2)%nat by (unfold join_left; destruct (_ =? _); simpl; lia).
  assert (length l3 <= length l2)%nat.
  { unfold join_right in Ej. destruct l2 as [|[q t] l2]; [by injection Ej as _ <-|].
    destruct (_ =? _); injection Ej as _ <-; simpl; lia. }
  simpl in *. lia.
Qed.

(** The code of [free] is the list operation. *)
Lemma free_code st a n q0 rest l1 p s l2 m l3 :
  linked (hdrs st) (circle rest) base -> ascending (circle rest) -> sized (circle rest) ->
  freep st ∈ fst <$> circle rest -> circle rest = l1 ++ (p, s) :: l2 -> before a l1 p s l2 -> base < a ->
  hdrs st !! a = Some (q0, n) -> join_right a n l2 = (m, l3) -> 0 < n <= m -> 0 <= s -> s + m < 4294967296 ->
  free st (a + HDR) = Ret (MState (joined_hdrs (hdrs st) p s a m l3) p (sys st)).
Proof.
  intros Hl Ha Hs Hfp E Hbef Hb Hh Ej Hn Hs0 Hm. unfold free. replace (a + HDR - HDR) with a by lia.
  pose proof (linked_rounds _ _ _ Hl Ha Hs) as Hr.
  rewrite (free_find_spec st rest a l1 p s l2) by (done || unfold rounds; lia). cbn [obind].
  rewrite E in Hl. apply linked_app in Hl as [_ [Hp Hl2]].
  unfold get_hdr at 1. rewrite Hp. cbn [from_option obind]. unfold get_hdr at 1. rewrite Hh. cbn [from_option obind].
  destruct (join_right_code st a n l2 m l3 Ej Hl2) as [-> _]; [unfold HDR; lia|lia|]. cbn [obind].
  destruct Hbef as (Hpa & _ & _). unfold get_hdr, set_hdr at 1. cbn [hdrs].
  rewrite lookup_insert_ne by lia. rewrite Hp. cbn [from_option obind].
  unfold joined_hdrs. destruct (p + HDR * s =? a); cbn [set_hdr set_freep hdrs freep sys]; [|done].
  by rewrite u32_small by lia.
Qed.

(** An allocated block has its place on the circle. *)
Lemma free_place st rest u a n : heap_inv st rest u -> u !! a = Some n ->
  exists q0 l1 p s l2 m l3, hdrs st !! a = Some (q0, n) /\ 0 < n <= m /\ base < a /\
    circle rest = l1 ++ (p, s) :: l2 /\ before a l1 p s l2 /\ join_right a n l2 = (m, l3) /\
    (forall b, b ∈ l2 -> b ∈ rest) /\ (forall b, b ∈ l3 -> b ∈ l2) /\ 0 <= s /\ 0 < p /\ p + HDR * s <= a /\
    a + HDR * m <= brk (sys st) /\ ascending (l1 ++ [(p, s)]) /\ ascending ((a, m) :: l3) /\
    (forall x, 0 < snd x -> apart x (a, n) -> (forall b, b ∈ l2 -> apart x b) -> apart x (a, m)).
Proof.
  intros [Hl Ha Hsz Hfp Hbrk Hu Hfu Huu Hbase Htop Htot Hbot Hlow Hulow] Hua.
  destruct (Hu a n Hua) as (q0 & Hh & Hn & Hba & Hend). pose proof (circle_sized rest Hsz) as Hs.
  assert (a ∉ fst <$> rest) as Hnin.
  { intros ([x t] & -> & Hin)%list_elem_of_fmap. specialize (Hfu _ _ _ Hua Hin). rewrite Forall_forall in Hsz.
    specialize (Hsz _ Hin). unfold apart, end_of, HDR in Hfu. simpl in *. lia. }
  destruct (find_place a rest Ha Hs Hba Hnin) as (l1 & p & s & l2 & E & Hbef).
  destruct (join_right a n l2) as [m l3] eqn:Ej. pose proof Hbef as (Hpa & Hlt1 & Hgt2).
  pose proof Ha as Ha0. rewrite E in Ha0. apply ascending_app in Ha0 as (Ha1 & Ha2 & Ha12).
  apply ascending_cons in Ha2 as [Ha2 Hps].
  assert (forall b, b ∈ l2 -> b ∈ rest) as H2rest.
  { intros b Hin. destruct (circle_split _ _ _ _ _ E Hsz) as [(_ & _ & _ & ->)|(l1' & _ & -> & _)]; set_solver. }
  assert (0 <= s /\ p + HDR * s <= a) as [Hs0 Hpsa].
  { destruct (circle_split _ _ _ _ _ E Hsz) as [(_ & -> & -> & _)|(l1' & _ & -> & Hs0)]; [lia|].
    specialize (Hfu _ _ (p, s) Hua ltac:(set_solver)). unfold apart, end_of, HDR in *. simpl in *. lia. }
  destruct (join_right_spec a n l2 m l3 Ej Ha2) as (Ha3 & Hnm & H32 & Htopm & Hapart); [| |done|].
  { rewrite Forall_forall in Hsz |- *. auto. }
  { intros b Hin. specialize (Hfu _ _ b Hua (H2rest b Hin)). specialize (Hgt2 b Hin).
    rewrite Forall_forall in Hsz. specialize (Hsz b (H2rest b Hin)). unfold apart, end_of, HDR in *. simpl in *. lia. }
  assert (0 < p) as Hp0.
  { destruct (circle_split _ _ _ _ _ E Hsz) as [(_ & -> & _)|(l1' & -> & _)]; [lia|].
    specialize (Hlt1 (base, 0) ltac:(set_solver)). simpl in Hlt1. lia. }
  exists q0, l1, p, s, l2, m, l3. repeat (split; [done|]). split; [auto|]. split; [|done].
  apply ascending_app. split; [done|]. split; [by repeat constructor|].
  intros b c Hb Hc. apply Ha12; [done|set_solver].
Qed.

Lemma free_spec st rest u a n : heap_inv st rest u -> u !! a = Some n ->
  exists st' rest', free st (a + HDR) = Ret st' /\ heap_inv st' rest' (delete a u) /\ sys st' = sys st /\
    (length rest' <= S (length rest))%nat /\ exists b, b ∈ rest' /\ fst b <= a /\ end_of (a, n) <= end_of b.
Proof.
  intros Hinv Hua. pose proof Hinv as [Hl Ha Hsz Hfp Hbrk Hu Hfu Huu Hbase Htop Htot Hbot Hlow Hulow].
  destruct (free_place _ _ _ _ _ Hinv Hua) as (q0 & l1 & p & s & l2 & m & l3 & Hh & Hnm & Hba & E & Hbef & Ej &
    H2rest & H32 & Hs0 & Hp0 & Hpsa & Hmtop & Ha1 & Ha3 & Hapart).
  pose proof (circle_sized rest Hsz) as Hs. pose proof Hbef as (Hpa & Hlt1 & Hgt2).
  destruct (joined_circle rest l1 p s l2 a m l3) as (rest' & Ec & Hsz' & Hblk & Hfound); try done; [lia|].
  eexists _, rest'. split; [eapply (free_code st a n q0 rest l1 p s l2 m l3); try done; unfold HDR in *; lia|].
  assert (forall x t b, delete a u !! x = Some t -> b ∈ rest' -> apart (x, t) b) as Hfu'.
  { intros x t b [Hxa Hx]%lookup_delete_Some Hin. destruct (Hu x t Hx) as (_ & _ & Ht & _).
    assert (apart (x, t) (a, m)).
    { apply Hapart; [done|by apply Huu|]. intros c Hc. apply Hfu; auto. }
    destruct (Hblk b Hin) as [Hr|[-> |(Hj & Hpr & Hsp)]]; [auto|done|].
    destruct (join_left_blocks _ _ _ _ _ Hj) as (_ & _ & Hj' & _); [lia|lia|lia|]. apply Hj'; auto. }
  split; [|split; [done|split]].
  - constructor; cbn [hdrs freep sys]; try done.
    + rewrite Ec. rewrite E in Hl. apply linked_app in Hl as [Hl1 [_ Hl2]]. apply joined_linked; [done| |done|done|].
      * eapply (join_right_code st a n l2 m l3); [done|done|unfold HDR; lia|unfold HDR in *; lia].
      * intros b Hin. apply Hgt2, H32, Hin.
    + rewrite Ec. apply joined_ascending; try done; lia.
    + rewrite Ec. unfold joined, join_left. destruct (_ =? _); rewrite !fmap_app; set_solver.
    + intros b Hin. destruct (Hblk b Hin) as [Hr|[-> |(Hj & Hpr & _)]]; [auto|done|].
      destruct (join_left_blocks _ _ _ _ _ Hj) as (_ & He & _); [lia|lia|lia|].
      specialize (Hbrk _ Hpr). unfold end_of in *. simpl in *. lia.
    + intros x t [Hxa Hx]%lookup_delete_Some. destruct (Hu x t Hx) as (q & Hhx & Ht & Hbx & Hex). exists q.
      split; [|done]. assert (x <> p).
      { intros ->. destruct (circle_split _ _ _ _ _ E Hsz) as [(_ & -> & _)|(l1' & _ & -> & Hsp)]; [lia|].
        specialize (Hfu _ _ (p, s) Hx ltac:(set_solver)). unfold apart, end_of, HDR in *. simpl in *. lia. }
      unfold joined_hdrs. destruct (_ =? _); by rewrite !lookup_insert_ne.
    + intros x t x' t' [_ Hx]%lookup_delete_Some [_ Hx']%lookup_delete_Some. by apply Huu.
    + rewrite (joined_total rest l1 p s l2 a n m l3 rest' E Ej Ec). rewrite (used_total_delete u a n Hua) in Htot. lia.
    + intros b Hin. specialize (Hulow a n Hua). destruct (Hblk b Hin) as [Hr|[-> |(Hj & Hpr & _)]]; [auto|done|].
      specialize (Hlow _ Hpr). simpl in Hlow. destruct (join_left_addr _ _ _ _ _ Hj); lia.
    + intros x t [_ Hx]%lookup_delete_Some. eauto.
  - by apply (joined_length rest l1 p s l2 a n m l3).
  - destruct Hfound as (b & Hin & Hle & He). exists b. split; [done|]. split; [done|].
    unfold end_of at 1. simpl. unfold HDR in *. lia.
Qed.

(** ** [morecore] *)
Lemma new_block st rest u s' nu : heap_inv st rest u -> 0 < nu -> brk s' = brk (sys st) + HDR * nu ->
  brk s' <= 68719476736 ->
  heap_inv (set_hdr (MState (hdrs st) (freep st) s') (brk (sys st)) (0, nu)) rest (<[brk (sys st) := nu]> u) /\
  u !! brk (sys st) = None.
Proof.
  intros [Hl Ha Hsz Hfp Hbrk Hu Hfu Huu Hbase Htop Htot Hbot Hlow Hulow] Hnu Hs' Htop'. set (p := brk (sys st)) in *.
  assert (forall b, b ∈ circle rest -> fst b < p) as Hlt.
  { intros b [-> |Hin]%elem_of_cons; [simpl; lia|]. rewrite Forall_forall in Hsz.
    specialize (Hbrk b Hin). specialize (Hsz b Hin). unfold end_of, HDR in *. lia. }
  assert (forall a s, u !! a = Some s -> a < p /\ end_of (a, s) <= p) as Hult.
  { intros a s Hx. destruct (Hu a s Hx) as (q & _ & Hs & _ & He). unfold end_of, HDR in *. simpl in *. lia. }
  assert (u !! p = None) as Hnone.
  { destruct (u !! p) as [s|] eqn:E; [|done]. destruct (Hult p s E). lia. }
  split; [|done]. constructor; cbn [set_hdr hdrs freep sys]; rewrite ?Hs'; try done.
  - apply linked_insert; [|done]. intros (b & -> & Hin)%list_elem_of_fmap. specialize (Hlt b Hin). lia.
  - intros b Hin. specialize (Hbrk b Hin). unfold HDR. lia.
  - intros a s [[<- <-]|[Hne Hx]]%lookup_insert_Some.
    + exists 0. rewrite lookup_insert_eq. unfold end_of. simpl. unfold HDR. repeat split; [done|lia|lia].
    + destruct (Hu a s Hx) as (q & Hq & Hs & Hb & He). exists q. rewrite lookup_insert_ne by done.
      repeat split; [done|done|done|unfold HDR; lia].
  - intros a s b [[<- <-]|[Hne Hx]]%lookup_insert_Some Hin; [|by apply Hfu].
    right. simpl. by apply Hbrk.
  - intros a s a' t' [[<- <-]|[Hne Hx]]%lookup_insert_Some [[<- <-]|[Hne' Hx']]%lookup_insert_Some Hd; [done|..].
    + right. simpl. by apply Hult.
    + left. simpl. by apply Hult.
    + by apply Huu.
  - unfold HDR. lia.
  - rewrite <-Hs'. done.
  - rewrite used_total_insert by done. unfold HDR in *. lia.
  - unfold HDR. lia.
  - intros a s [[<- <-]|[Hne Hx]]%lookup_insert_Some; [done|eauto].
Qed.

Lemma morecore_spec st rest u nu : heap_inv st rest u -> 0 < nu < 134217728 ->
  exists r st' rest', morecore st nu = Ret (r, st') /\ heap_inv st' rest' u /\ (length rest' <= S (length rest))%nat /\
    (r = None \/ r = Some (freep st') /\ exists b, b ∈ rest' /\ nu <= snd b).
Proof.
  intros Hinv Hnu. unfold morecore. set (n := if nu <? 4096 then 4096 else nu).
  assert (nu <= n < 134217728 /\ 0 < n) as [Hn Hn0] by (subst n; destruct (Z.ltb_spec nu 4096); lia).
  assert (wrap32 (n * HDR) = n * HDR) as -> by (apply wrap32_small; unfold HDR, INT_MAX; lia).
  destruct (sbrk_law (sys st) (n * HDR)) as [[Hp Hb]|(Hp & Hb & Htop)]; [unfold HDR; lia|..];
    destruct (os_sbrk (sys st) (n * HDR)) as [p s']; simpl in Hp, Hb; subst p.
  - rewrite Z.eqb_refl. eexists None, _, rest. split; [done|]. split; [|split; [lia|by left]].
    destruct Hinv. constructor; cbn [hdrs freep sys]; rewrite ?Hb; done.
  - pose proof (hi_base _ _ _ Hinv) as Hbase. rewrite (proj2 (Z.eqb_neq _ _)) by (unfold SBRK_ERROR; lia).
    destruct (new_block st rest u s' n Hinv Hn0) as [Hnew Hnone]; [lia|lia|].
    destruct (free_spec _ _ _ (brk (sys st)) n Hnew) as (st' & rest' & -> & Hinv' & _ & Hlen & b & Hin & Hle & He).
    { by rewrite lookup_insert_eq. }
    cbn [obind]. rewrite delete_insert_id in Hinv' by done. eexists _, st', rest'.
    split; [done|]. split; [done|]. split; [done|]. right. split; [done|]. exists b. split; [done|].
    unfold end_of, HDR in *. simpl in *. lia.
Qed.

(** ** Taking a block *)
(** A part [(a, n)] of a free block becomes used, [rest'] is what stays free. *)
Lemma take_inv st rest u p sz a n h' rest' prevp : heap_inv st rest u -> (p, sz) ∈ rest ->
  0 < n -> p <= a -> a + HDR * n <= p + HDR * sz -> total rest' + n = total rest ->
  linked h' (circle rest') base -> ascending (circle rest') -> Forall (fun b => 0 < snd b) rest' ->
  prevp ∈ fst <$> circle rest' ->
  (forall b, b ∈ rest' -> (b ∈ rest /\ b <> (p, sz)) \/ (fst b = p /\ end_of b <= a)) ->
  (exists q, h' !! a = Some (q, n)) ->
  (forall x, (forall b, b ∈ circle rest -> fst b <> x) -> x <> a -> h' !! x = hdrs st !! x) ->
  heap_inv (MState h' prevp (sys st)) rest' (<[a := n]> u) /\ u !! a = None.
Proof.
  intros [Hl Ha Hsz Hfp Hbrk Hu Hfu Huu Hbase Htop Htot Hbot Hlow Hulow] Hp Hn Hpa Hend Ht' Hl' Ha' Hsz' Hfp' Hsub [q0 Hh] Hkeep.
  rewrite Forall_forall in Hsz, Hsz'. pose proof (Hsz _ Hp) as Hszp. simpl in Hszp.
  assert (base < p) as Hbp.
  { apply ascending_cons in Ha as [_ Ha]. specialize (Ha _ Hp). unfold end_of, HDR in Ha. simpl in Ha. lia. }
  assert (forall x t, u !! x = Some t -> apart (x, t) (a, n)) as Hua.
  { intros x t Hx. specialize (Hfu x t _ Hx Hp). unfold apart, end_of in *. simpl in *. lia. }
  assert (forall b, b ∈ rest -> b <> (p, sz) -> apart b (p, sz)) as Hother.
  { intros b Hb Hne. apply ascending_cons in Ha as [Ha _]. by apply (ascending_apart rest). }
  assert (u !! a = None) as Hnone.
  { destruct (u !! a) as [t|] eqn:E; [|done]. destruct (Hu a t E) as (_ & _ & Ht & _).
    specialize (Hua a t E). unfold apart, end_of, HDR in Hua. simpl in Hua. lia. }
  split; [|done]. constructor; cbn [hdrs freep sys]; try done.
  - by apply Forall_forall.
  - intros b Hb. specialize (Hbrk _ Hp) as Hbp'. unfold end_of in Hbp'. simpl in Hbp'.
    destruct (Hsub b Hb) as [[Hr _]|[_ He]]; [by apply Hbrk|unfold HDR in *; lia].
  - intros x t [[<- <-]|[Hne Hx]]%lookup_insert_Some.
    + exists q0. specialize (Hbrk _ Hp). unfold end_of in *. simpl in *. repeat split; [done|done|lia|lia].
    + destruct (Hu x t Hx) as (q & Hq & Ht & Hbx & He). exists q. split; [|done]. rewrite Hkeep; [done| |done].
      intros b [-> |Hb]%elem_of_cons; [simpl; lia|]. intros <-. specialize (Hfu _ _ b Hx Hb). specialize (Hsz b Hb).
      unfold apart, end_of, HDR in Hfu. simpl in *. lia.
  - intros x t b [[<- <-]|[Hne Hx]]%lookup_insert_Some Hb; destruct (Hsub b Hb) as [[Hr Hne']|[Hfb He]].
    + specialize (Hother b Hr Hne'). specialize (Hsz b Hr). unfold apart, end_of in *. simpl in *. lia.
    + right. simpl. done.
    + by apply Hfu.
    + specialize (Hfu x t _ Hx Hp). specialize (Hsz' b Hb). unfold apart, end_of in *. simpl in *. unfold HDR in *. lia.
  - intros x t x' t' [[<- <-]|[Hne Hx]]%lookup_insert_Some [[<- <-]|[Hne' Hx']]%lookup_insert_Some Hd; [done|..].
    + specialize (Hua x' t' Hx'). unfold apart in *. tauto.
    + by apply Hua.
    + by apply Huu.
  - rewrite used_total_insert by done. rewrite <-Htot, <-Ht'. lia.
  - intros b Hb. destruct (Hsub b Hb) as [[Hr _]|[-> _]]; [by apply Hlow|]. by apply (Hlow (p, sz)).
  - intros x t [[<- <-]|[Hne Hx]]%lookup_insert_Some; [|eauto]. specialize (Hlow _ Hp). simpl in Hlow. lia.
Qed.

(** Two neighbours of the circle. *)
Lemma circle_pair rest i prevp ps p sz : circle rest !! i = Some (prevp, ps) -> circle rest !! S i = Some (p, sz) ->
  exists l1 l2, circle rest = l1 ++ (prevp, ps) :: (p, sz) :: l2 /\ (p, sz) ∈ rest /\ (forall b, b ∈ l2 -> b ∈ rest) /\
    forall l, exists rest', circle rest' = l1 ++ (prevp, ps) :: l /\ (Forall (fun b => 0 < snd b) rest ->
      Forall (fun b => 0 < snd b) l -> Forall (fun b => 0 < snd b) rest') /\
      forall b, b ∈ rest' -> b ∈ l \/ (b ∈ rest /\ (b ∈ l1 \/ b = (prevp, ps))).
Proof.
  intros Hi Hsi. simpl in Hsi. exists (take i (circle rest)), (drop (S (S i)) (circle rest)).
  split; [rewrite <-(take_drop i (circle rest)) at 1; by rewrite (drop_S _ _ _ Hi), (drop_S (circle rest) (p, sz) (S i))|].
  split; [by apply list_elem_of_lookup_2 in Hsi|].
  split; [intros b (k & Hk)%list_elem_of_lookup; rewrite lookup_drop in Hk; simpl in Hk; by apply list_elem_of_lookup_2 in Hk|].
  intros l. destruct i as [|i]; simpl in *.
  - injection Hi as <- <-. exists l. auto.
  - exists (take i rest ++ (prevp, ps) :: l). split; [done|].
    assert (forall b, b ∈ take i rest -> b ∈ rest) as Htake.
    { intros b (k & Hk & _)%elem_of_take. by apply list_elem_of_lookup_2 in Hk. }
    split.
    + rewrite !Forall_forall. intros Hr Hl b. rewrite elem_of_app, elem_of_cons.
      intros [Hb|[-> |Hb]]; [auto|apply Hr; by apply list_elem_of_lookup_2 in Hi|auto].
    + intros b. rewrite elem_of_app, elem_of_cons. intros [Hb|[-> |Hb]]; [|right|by left].
      * right. split; [auto|left; set_solver].
      * split; [by apply list_elem_of_lookup_2 in Hi|by right].
Qed.

(** The addresses and the links around the block that is taken. *)
Lemma around st rest u l1 prevp ps p sz l2 : heap_inv st rest u ->
  circle rest = l1 ++ (prevp, ps) :: (p, sz) :: l2 ->
  (prevp ∉ fst <$> l1) /\ (p ∉ fst <$> l1) /\ prevp <> p /\ (prevp ∉ fst <$> l2) /\ (p ∉ fst <$> l2) /\
  linked (hdrs st) l1 prevp /\ hdrs st !! prevp = Some (p, ps) /\ hdrs st !! p = Some (first l2 base, sz) /\
  linked (hdrs st) l2 base.
Proof.
  intros [Hl Ha Hsz _ _ _ _ _ _ _ _ _ _ _] E. pose proof (circle_sized rest Hsz) as Hs.
  pose proof (ascending_NoDup _ Ha Hs) as Hnd. rewrite E in Hl, Hnd. rewrite fmap_app in Hnd. simpl in Hnd.
  apply NoDup_app in Hnd as (_ & Hd1 & Hd2). apply NoDup_cons in Hd2 as [Hd2 Hd3]. apply NoDup_cons in Hd3 as [Hd3 _].
  apply linked_app in Hl as [Hl1 [Hprev [Hp' Hl2]]]. cbn [first] in Hl1, Hprev.
  repeat split; try done; set_solver.
Qed.

Lemma take_whole st rest u i prevp ps p sz ptr : heap_inv st rest u ->
  circle rest !! i = Some (prevp, ps) -> circle rest !! S i = Some (p, sz) -> hdrs st !! p = Some (ptr, sz) -> 0 < sz ->
  exists st' rest', take_block st prevp p ptr sz sz = Ret (Some (p + HDR), st') /\
    heap_inv st' rest' (<[p := sz]> u) /\ u !! p = None.
Proof.
  intros Hinv Hi Hsi Hp Hn. destruct (circle_pair _ _ _ _ _ _ Hi Hsi) as (l1 & l2 & E & Hin & H2r & Hrest).
  destruct (around _ _ _ _ _ _ _ _ _ Hinv E) as (Hn1 & Hp1 & Hnp & Hn2 & Hp2 & Hl1 & Hprev & Hp' & Hl2).
  pose proof Hinv as [_ Ha Hsz _ _ _ _ _ _ _ _ _ _ _]. rewrite Hp in Hp'. injection Hp' as ->.
  unfold take_block. rewrite Z.eqb_refl. unfold get_hdr. rewrite Hprev. cbn [from_option obind].
  destruct (Hrest l2) as (rest' & Ec & Hpos & Hsub).
  exists (MState (<[prevp := (first l2 base, ps)]> (hdrs st)) prevp (sys st)), rest'. split; [done|].
  apply (take_inv st rest u p sz); try done; try lia.
  - apply (f_equal total) in E, Ec. rewrite units_app in E, Ec. simpl in E, Ec. lia.
  - rewrite Ec. apply linked_app. cbn [first linked]. split; [by apply linked_insert|].
    split; [by rewrite lookup_insert_eq|by apply linked_insert].
  - rewrite Ec. rewrite E in Ha. apply ascending_app in Ha as (Ha1 & Ha2 & Ha12). apply ascending_cons in Ha2 as [Ha2 Hb].
    apply ascending_cons in Ha2 as [Ha2 _]. apply ascending_app. split; [done|].
    split; [apply ascending_cons; split; [done|]; intros; apply Hb; set_solver|].
    intros b c Hb' Hc. apply Ha12; set_solver.
  - apply Hpos; [done|]. rewrite Forall_forall in Hsz |- *. auto.
  - rewrite Ec, fmap_app. set_solver.
  - intros b Hb. left. destruct (Hsub b Hb) as [Hb2|[Hr Hb1]].
    + split; [auto|]. intros ->. apply Hp2. apply list_elem_of_fmap. by exists (p, sz).
    + split; [done|]. intros ->. destruct Hb1 as [Hb1|Hb1]; [|congruence].
      apply Hp1. apply list_elem_of_fmap. by exists (p, sz).
  - exists (first l2 base). by rewrite lookup_insert_ne.
  - intros x Hx _. rewrite lookup_insert_ne; [done|]. intros <-. apply (Hx (prevp, ps)); [rewrite E; set_solver|done].
Qed.

(** No header of the list lies inside a free block. *)
Lemma inside_not_addr rest p sz a b : ascending (circle rest) -> sized (circle rest) -> (p, sz) ∈ rest ->
  b ∈ circle rest -> p < a < p + HDR * sz -> fst b <> a.
Proof.
  intros Ha Hs Hp Hb Hin E. unfold sized in Hs. rewrite Forall_forall in Hs. pose proof (Hs b Hb) as Hsb.
  assert (b <> (p, sz)) as Hne by (intros ->; simpl in E; lia).
  destruct (ascending_apart _ b (p, sz) Ha Hb) as [H1|H1]; [set_solver|done|..];
    unfold end_of, HDR in *; simpl in *; lia.
Qed.

Lemma take_end st rest u i prevp ps p sz ptr n : heap_inv st rest u ->
  circle rest !! i = Some (prevp, ps) -> circle rest !! S i = Some (p, sz) -> hdrs st !! p = Some (ptr, sz) ->
  0 < n < sz ->
  exists st' rest', take_block st prevp p ptr sz n = Ret (Some (p + HDR * (sz - n) + HDR), st') /\
    heap_inv st' rest' (<[p + HDR * (sz - n) := n]> u) /\ u !! (p + HDR * (sz - n)) = None.
Proof.
  intros Hinv Hi Hsi Hp Hn. destruct (circle_pair _ _ _ _ _ _ Hi Hsi) as (l1 & l2 & E & Hin & H2r & Hrest).
  destruct (around _ _ _ _ _ _ _ _ _ Hinv E) as (Hn1 & Hp1 & Hnp & Hn2 & Hp2 & Hl1 & Hprev & Hp' & Hl2).
  pose proof Hinv as [_ Ha Hsz _ _ _ _ _ _ _ _ _ _ _]. rewrite Hp in Hp'. injection Hp' as ->.
  unfold take_block. rewrite (proj2 (Z.eqb_neq _ _)) by lia. cbn [obind].
  destruct (Hrest ((p, sz - n) :: l2)) as (rest' & Ec & Hpos & Hsub).
  set (a := p + HDR * (sz - n)). set (h1 := <[p := (first l2 base, sz - n)]> (hdrs st)).
  set (q := match h1 !! a with Some (q, _) => q | None => 0 end).
  assert (forall b, b ∈ circle rest -> fst b <> a) as Haddr.
  { intros b Hb. apply (inside_not_addr rest p sz a b); try done; [by apply circle_sized|].
    subst a. unfold HDR. lia. }
  assert (forall l, (forall b, b ∈ l -> b ∈ circle rest) -> a ∉ fst <$> l) as Hout.
  { intros l Hl (b & -> & Hb)%list_elem_of_fmap. by apply (Haddr b (Hl b Hb)). }
  exists (MState (<[a := (q, n)]> h1) prevp (sys st)), rest'. split; [done|].
  apply (take_inv st rest u p sz); try done; try (subst a; unfold HDR; lia).
  - apply (f_equal total) in E, Ec. rewrite units_app in E, Ec. simpl in E, Ec. lia.
  - rewrite Ec. apply linked_app. cbn [first linked].
    split; [apply linked_insert; [apply Hout; rewrite E; set_solver|by apply linked_insert]|].
    assert (prevp <> a) by (apply (Haddr (prevp, ps)); rewrite E; set_solver).
    assert (p <> a) by (apply (Haddr (p, sz)); rewrite E; set_solver).
    split; [unfold h1; by rewrite !lookup_insert_ne|].
    split; [unfold h1; by rewrite lookup_insert_ne, lookup_insert_eq|].
    apply linked_insert; [apply Hout; rewrite E; set_solver|by apply linked_insert].
  - rewrite Ec. rewrite E in Ha. apply ascending_app in Ha as (Ha1 & Ha2 & Ha12). apply ascending_cons in Ha2 as [Ha2 Hb].
    apply ascending_cons in Ha2 as [Ha2 Hc]. apply ascending_app. split; [done|]. split.
    + apply ascending_cons. split.
      * apply ascending_cons. split; [done|]. intros c Hc'. specialize (Hc c Hc'). unfold end_of, HDR in *. simpl in *. lia.
      * intros c [-> |Hc']%elem_of_cons; [|apply Hb; set_solver]. apply (Hb (p, sz)). set_solver.
    + intros b c Hb' Hc'. rewrite !elem_of_cons in Hc'. destruct Hc' as [-> |[-> |Hc']].
      * apply Ha12; set_solver.
      * apply (Ha12 b (p, sz)); set_solver.
      * apply Ha12; set_solver.
  - apply Hpos; [done|]. rewrite Forall_forall in Hsz |- *. intros b [-> |Hb]%elem_of_cons; [simpl; lia|auto].
  - rewrite Ec, fmap_app. set_solver.
  - intros b Hb. destruct (Hsub b Hb) as [[-> |Hb2]%elem_of_cons|[Hr Hb1]].
    + right. subst a. unfold end_of. simpl. lia.
    + left. split; [auto|]. intros ->. apply Hp2. apply list_elem_of_fmap. by exists (p, sz).
    + left. split; [done|]. intros ->. destruct Hb1 as [Hb1|Hb1]; [|congruence].
      apply Hp1. apply list_elem_of_fmap. by exists (p, sz).
  - exists q. by rewrite lookup_insert_eq.
  - intros x Hx Hxa. unfold h1. rewrite !lookup_insert_ne; [done| |done]. intros <-. apply (Hx (p, sz)); [rewrite E; set_solver|done].
Qed.

(** ** The search

    Positions on the circle: the next one, and the steps from [i] to [k]. *)
Definition next_pos (n i : nat) : nat := if decide (S i < n)%nat then S i else 0%nat.
Definition steps (n i k : nat) : nat := if decide (i <= k)%nat then (k - i)%nat else (n + k - i)%nat.

Lemma steps_next n i k : (i < n)%nat -> (k < n)%nat -> i <> k -> steps n i k = S (steps n (next_pos n i) k).
Proof. intros. unfold steps, next_pos. repeat case_decide; lia. Qed.

Lemma steps_all n i k : (i < n)%nat -> (k < n)%nat -> (steps n (next_pos n i) k <= steps n (next_pos n i) i)%nat.
Proof. intros. unfold steps, next_pos. repeat case_decide; lia. Qed.

Lemma steps_lt n i k : (i < n)%nat -> (k < n)%nat -> (steps n i k < n)%nat.
Proof. intros. unfold steps. case_decide; lia. Qed.

Lemma circle_next st rest u i p sz : heap_inv st rest u -> circle rest !! i = Some (p, sz) ->
  exists ptr sz', hdrs st !! p = Some (ptr, sz) /\ circle rest !! next_pos (length (circle rest)) i = Some (ptr, sz').
Proof.
  intros [Hl _ _ _ _ _ _ _ _ _ _ _ _ _] Hi. rewrite (linked_lookup _ _ _ _ _ _ Hl Hi). unfold next_pos. case_decide as Hlt.
  - destruct (lookup_lt_is_Some_2 (circle rest) (S i) Hlt) as [[b t] Hb]. rewrite Hb. eauto.
  - rewrite (lookup_ge_None_2 (circle rest) (S i)) by lia. eauto.
Qed.

Lemma circle_pos st rest u i k b c : heap_inv st rest u -> circle rest !! i = Some b -> circle rest !! k = Some c ->
  fst b = fst c -> i = k.
Proof. intros [_ Ha Hsz _ _ _ _ _ _ _ _ _ _ _] Hi Hk. eapply ascending_inj; eauto using circle_sized. Qed.

Definition gives u (n : Z) (m : outcome (option Z * mstate OS)) : Prop :=
  exists a st' rest', m = Ret (Some (a + HDR), st') /\ heap_inv st' rest' (<[a := n]> u) /\ u !! a = None.

Definition refuses u (m : outcome (option Z * mstate OS)) : Prop :=
  exists st' rest', m = Ret (None, st') /\ heap_inv st' rest' u.

(** A block that is large enough is taken, with its predecessor at hand. *)
Lemma search_takes st rest u j prevp ps p sz ptr n : heap_inv st rest u -> circle rest !! j = Some (prevp, ps) ->
  circle rest !! next_pos (length (circle rest)) j = Some (p, sz) -> hdrs st !! p = Some (ptr, sz) -> 0 < n <= sz ->
  gives u n (take_block st prevp p ptr sz n).
Proof.
  intros Hinv Hj Hi Hp Hn. unfold next_pos in Hi. case_decide; [|simpl in Hi; simplify_eq; lia].
  destruct (decide (n = sz)) as [->|].
  - destruct (take_whole _ _ _ _ _ _ _ _ _ Hinv Hj Hi Hp) as (st' & rest' & E); [lia|]. by exists p, st', rest'.
  - destruct (take_end _ _ _ _ _ _ _ _ _ n Hinv Hj Hi Hp) as (st' & rest' & E); [lia|]. by eexists _, st', rest'.
Qed.

(** If a block on the way to [freep] fits, one is found without more memory. *)
Lemma search_fits st rest u n f fs k b : heap_inv st rest u -> 0 < n ->
  circle rest !! f = Some (freep st, fs) -> circle rest !! k = Some b -> n <= snd b ->
  forall fuel j prevp ps p sz, circle rest !! j = Some (prevp, ps) ->
  let i := next_pos (length (circle rest)) j in
  circle rest !! i = Some (p, sz) ->
  (steps (length (circle rest)) i k <= steps (length (circle rest)) i f)%nat ->
  (steps (length (circle rest)) i f < fuel)%nat ->
  gives u n (malloc_loop st prevp p n fuel).
Proof.
  intros Hinv Hn Hf Hk Hfit. pose proof (lookup_lt_Some _ _ _ Hf) as Hfl. pose proof (lookup_lt_Some _ _ _ Hk) as Hkl.
  induction fuel as [|fuel IH]; intros j prevp ps p sz Hj i Hi Hd Hfuel; [lia|]. cbn [malloc_loop].
  destruct (circle_next _ _ _ _ _ _ Hinv Hi) as (ptr & sz' & Hp & Hnext).
  unfold get_hdr at 1. rewrite Hp. cbn [from_option obind].
  destruct (Z.leb_spec n sz) as [Hle|Hgt]; [by eapply search_takes|].
  pose proof (lookup_lt_Some _ _ _ Hi) as Hil.
  assert (i <> k) as Hik by (intros ->; simplify_eq/=; lia).
  destruct (Z.eqb_spec p (freep st)) as [->|Hne].
  - assert (i = f) as Hif by (eapply circle_pos; eauto; done). unfold steps in Hd. rewrite Hif in *.
    rewrite (decide_True (P := (f <= f)%nat)) in Hd by lia. case_decide; lia.
  - assert (i <> f) by (intros ->; simplify_eq/=).
    rewrite (steps_next _ i k), (steps_next _ i f) in Hd by done. rewrite (steps_next _ i f) in Hfuel by done.
    eapply IH; [exact Hi|exact Hnext|lia|lia].
Qed.

(** In general the search ends with a block, or with a refusal of [sbrk]. *)
Lemma search_ends st rest u n f fs : heap_inv st rest u -> 0 < n < 134217728 ->
  circle rest !! f = Some (freep st, fs) ->
  forall fuel j prevp ps p sz, circle rest !! j = Some (prevp, ps) ->
  let i := next_pos (length (circle rest)) j in
  circle rest !! i = Some (p, sz) ->
  (steps (length (circle rest)) i f + length rest + 3 < fuel)%nat ->
  gives u n (malloc_loop st prevp p n fuel) \/ refuses u (malloc_loop st prevp p n fuel).
Proof.
  intros Hinv Hn Hf. pose proof (lookup_lt_Some _ _ _ Hf) as Hfl.
  induction fuel as [|fuel IH]; intros j prevp ps p sz Hj i Hi Hfuel; [lia|]. cbn [malloc_loop].
  destruct (circle_next _ _ _ _ _ _ Hinv Hi) as (ptr & sz' & Hp & Hnext).
  unfold get_hdr at 1 3. rewrite Hp. cbn [from_option obind].
  destruct (Z.leb_spec n sz) as [Hle|Hgt]; [left; eapply search_takes; eauto; lia|].
  pose proof (lookup_lt_Some _ _ _ Hi) as Hil. destruct (Z.eqb_spec p (freep st)) as [->|Hne].
  - destruct (morecore_spec st rest u n Hinv Hn) as (r & st' & rest' & -> & Hinv' & Hlen & Hr). cbn [obind].
    destruct Hr as [->|(-> & b & Hb & Hfit)]; [right; by exists st', rest'|left].
    pose proof (hi_freep _ _ _ Hinv') as ([p' fs'] & Ep & Hp')%list_elem_of_fmap. simpl in Ep. subst p'.
    apply list_elem_of_lookup in Hp' as [f' Hf'].
    destruct (circle_next _ _ _ _ _ _ Hinv' Hf') as (ptr' & sz2 & Hh' & Hnext').
    unfold get_hdr at 1. rewrite Hh'. cbn [from_option obind].
    assert (b ∈ circle rest') as [k Hk]%list_elem_of_lookup by set_solver.
    pose proof (lookup_lt_Some _ _ _ Hf') as Hfl'. pose proof (lookup_lt_Some _ _ _ Hk) as Hkl'.
    eapply (search_fits st' rest' u n f' fs' k b); try done; [lia|by apply steps_all|].
    pose proof (lookup_lt_Some _ _ _ Hnext').
    eapply Nat.lt_le_trans; [by apply steps_lt|]. simpl. simpl in Hfuel. lia.
  - assert (i <> f) by (intros ->; simplify_eq/=).
    rewrite (steps_next _ i f) in Hfuel by done. eapply IH; [exact Hi|exact Hnext|lia].
Qed.

(** ** Sequences of calls

    Before the first call of [malloc] the static variable [freep] is null. *)
Definition heap_ok st u : Prop :=
  (freep st = 0 /\ u = ∅ /\ 0 < base < brk (sys st) /\ brk (sys st) <= 68719476736 /\ brk (sys st) = bot) \/
  exists rest, heap_inv st rest u.

Lemma heap_inv_freep st rest u : heap_inv st rest u -> freep st <> 0 /\
  exists f fs, circle rest !! f = Some (freep st, fs).
Proof.
  intros [_ Ha _ Hfp _ _ _ _ Hbase _ _ _ _ _]. apply list_elem_of_fmap in Hfp as ([p fs] & Ep & Hp). simpl in Ep. split.
  - rewrite Ep. apply elem_of_cons in Hp as [[= -> ->]|Hp]; [lia|]. apply ascending_cons in Ha as [_ Ha].
    specialize (Ha _ Hp). unfold end_of, HDR in Ha. simpl in Ha. lia.
  - apply list_elem_of_lookup in Hp as [f Hf]. exists f, fs. by rewrite Ep.
Qed.

Lemma first_call st : 0 < base < brk (sys st) -> brk (sys st) <= 68719476736 -> brk (sys st) = bot ->
  heap_inv (set_freep (set_hdr st base (base, 0)) base) [] ∅.
Proof.
  intros Hb Ht Hbot. constructor; cbn [set_freep set_hdr hdrs freep sys]; try done; try lia; try set_solver.
  - simpl. by rewrite lookup_insert_eq.
  - by repeat constructor.
  - unfold used_total. rewrite map_fold_empty. simpl. lia.
Qed.

Definition units (nbytes : Z) : Z := (nbytes + HDR - 1) / HDR + 1.

Lemma malloc_spec st u nbytes : heap_ok st u -> 0 <= nbytes <= 2147483616 ->
  (exists a st', malloc base st nbytes = Ret (Some (a + HDR), st') /\ heap_ok st' (<[a := units nbytes]> u) /\ u !! a = None) \/
  (exists st', malloc base st nbytes = Ret (None, st') /\ heap_ok st' u).
Proof.
  intros Hok Hn. unfold malloc.
  assert (0 < units nbytes < 134217728) as Hunits.
  { unfold units, HDR. assert (0 <= (nbytes + 16 - 1) / 16 < 134217727); [|lia].
    split; [apply Z.div_pos; lia|apply Z.div_lt_upper_bound; lia]. }
  change ((nbytes + HDR - 1) / HDR + 1) with (units nbytes). rewrite u32_small by lia.
  assert (exists rest, heap_inv (if freep st =? 0 then set_freep (set_hdr st base (base, 0)) base else st) rest u)
    as (rest & Hinv).
  { destruct Hok as [(Hf & -> & Hb & Ht & Hbot)|(rest & Hinv)].
    - rewrite Hf. exists []. by apply first_call.
    - exists rest. destruct (heap_inv_freep _ _ _ Hinv) as [Hf _]. by rewrite (proj2 (Z.eqb_neq _ _)). }
  generalize dependent (if freep st =? 0 then set_freep (set_hdr st base (base, 0)) base else st).
  clear st Hok. intros st Hinv. destruct (heap_inv_freep _ _ _ Hinv) as (_ & f & fs & Hf).
  destruct (circle_next _ _ _ _ _ _ Hinv Hf) as (ptr & sz & Hh & Hnext).
  unfold get_hdr. rewrite Hh. cbn [from_option obind].
  pose proof (lookup_lt_Some _ _ _ Hf) as Hfl. pose proof (lookup_lt_Some _ _ _ Hnext) as Hnl.
  pose proof (linked_rounds _ _ _ (hi_linked _ _ _ Hinv) (hi_ascending _ _ _ Hinv)
    (circle_sized _ (hi_sized _ _ _ Hinv))) as Hr.
  destruct (search_ends st rest u (units nbytes) f fs Hinv Hunits Hf (rounds st) f (freep st) fs ptr sz) as
    [(a & st' & rest' & Hm & Hinv' & Hu)|(st' & rest' & Hm & Hinv')]; [done|done| |..].
  - pose proof (steps_lt _ _ f Hnl Hfl). unfold rounds. simpl in *. lia.
  - left. exists a, st'. split; [done|]. split; [|done]. right. by exists rest'.
  - right. exists st'. split; [done|]. right. by exists rest'.
Qed.

(** A program's calls: [malloc] of some bytes, and [free] of a block that is
    allocated.  [heap_run] keeps the blocks handed out. *)
Inductive call := Malloc (nbytes : Z) | Free (ap : Z).

Fixpoint heap_run st u (calls : list call) : outcome (mstate OS * gmap Z Z) :=
  match calls with
  | [] => Ret (st, u)
  | Malloc nbytes :: calls =>
      let* '(r, st) := malloc base st nbytes in
      heap_run st (match r with Some p => <[p - HDR := units nbytes]> u | None => u end) calls
  | Free ap :: calls =>
      match u !! (ap - HDR) with
      | Some _ => let* st := free st ap in heap_run st (delete (ap - HDR) u) calls
      | None => heap_run st u calls
      end
  end.

Definition call_ok (c : call) : Prop :=
  match c with Malloc nbytes => 0 <= nbytes <= 2147483616 | Free _ => True end.

Lemma heap_run_spec calls : forall st u, heap_ok st u -> Forall call_ok calls ->
  exists st' u', heap_run st u calls = Ret (st', u') /\ heap_ok st' u'.
Proof.
  induction calls as [|[nbytes|ap] calls IH]; intros st u Hok Hc; cbn [heap_run]; [by exists st, u|..];
    apply Forall_cons in Hc as [Hc Hcs].
  - destruct (malloc_spec st u nbytes Hok Hc) as [(a & st' & -> & Hok' & _)|(st' & -> & Hok')]; cbn [obind].
    + replace (a + HDR - HDR) with a by lia. by apply IH.
    + by apply IH.
  - destruct (u !! (ap - HDR)) as [n|] eqn:Hu; [|by apply IH].
    destruct Hok as [(_ & -> & _)|(rest & Hinv)]; [done|].
    destruct (free_spec st rest u (ap - HDR) n Hinv Hu) as (st' & rest' & Hf & Hinv' & _).
    replace (ap - HDR + HDR) with ap in Hf by lia. rewrite Hf. cbn [obind]. apply IH; [|done]. right. by exists rest'.
Qed.

End allocator_inv.

(** C14.  Whatever a program allocates and frees, in requests of at most
    2147483616 bytes, the allocator's calls all return, it never reads a word
    that is not a header, the blocks that are allocated at any time lie in the
    heap without overlapping, and each has room for the bytes asked for.
    Between the calls the free list is the circle of the free blocks in the
    order of their addresses, no two of them adjacent; they lie in the heap,
    overlap no allocated block, and the sizes of free and allocated blocks add
    up to all the memory that [sbrk] has given: none is lost. *)
Theorem heap_safe {OS : Type} `{SbrkLaws OS} (base : Z) (s0 : OS) (calls : list call)
    (Hb : 0 < base < brk s0) (Ht : brk s0 <= 68719476736) (Hc : Forall call_ok calls) :
  exists st u, heap_run base (MState ∅ 0 s0) ∅ calls = Ret (st, u) /\
    (forall a n, u !! a = Some n -> brk s0 <= a /\ 0 < n /\ a + HDR * n <= brk (sys st)) /\
    (forall a n a' n', u !! a = Some n -> u !! a' = Some n' -> a <> a' ->
       a + HDR * n <= a' \/ a' + HDR * n' <= a) /\
    (forall nbytes, 0 <= nbytes -> nbytes <= HDR * (units nbytes - 1)) /\
    (freep st <> 0 -> exists rest, linked (hdrs st) ((base, 0) :: rest) base /\ ascending ((base, 0) :: rest) /\
       (forall a n, (a, n) ∈ rest -> brk s0 <= a /\ 0 < n /\ a + HDR * n <= brk (sys st)) /\
       (forall b a n, b ∈ rest -> u !! a = Some n -> apart (a, n) b) /\
       HDR * (total rest + used_total u) = brk (sys st) - brk s0).
Proof.
  destruct (heap_run_spec base (brk s0) calls (MState ∅ 0 s0) ∅) as (st & u & Hr & Hok); [by left|done|].
  exists st, u. split; [done|]. split; [|split; [|split]].
  - intros a n Hu. destruct Hok as [(_ & -> & _)|(rest & Hinv)]; [done|].
    destruct (hi_used _ _ _ _ _ Hinv a n Hu) as (q & _ & ? & ? & ?).
    pose proof (hi_used_low _ _ _ _ _ Hinv a n Hu). auto.
  - intros a n a' n' Hu Hu' Hne. destruct Hok as [(_ & -> & _)|(rest & Hinv)]; [done|].
    exact (hi_used_used _ _ _ _ _ Hinv a n a' n' Hu Hu' Hne).
  - intros nbytes Hn. unfold units, HDR. pose proof (Z.div_mod (nbytes + 16 - 1) 16).
    pose proof (Z.mod_pos_bound (nbytes + 16 - 1) 16). lia.
  - intros Hf. destruct Hok as [(? & _)|(rest & Hinv)]; [done|]. exists rest. split_and!; try apply Hinv.
    + intros a n Hin. pose proof (hi_low _ _ _ _ _ Hinv _ Hin). pose proof (hi_brk _ _ _ _ _ Hinv _ Hin).
      pose proof (proj1 (Forall_forall _ _) (hi_sized _ _ _ _ _ Hinv) _ Hin). done.
    + intros b a n Hb' Hu. exact (hi_free_used _ _ _ _ _ Hinv a n b Hu Hb').
Qed.

(** A heap that ends at a limit. *)
Definition limited (top : Z) : SbrkOS Z := {|
  os_sbrk s n := if (s + n <=? top) then (s, s + n) else (-1, s);
  brk s := s
|}.

Lemma limited_laws top : top <= 68719476736 -> @SbrkLaws Z (limited top).
Proof.
  intros Ht. constructor. intros s n Hn. simpl. destruct (Z.leb_spec (s + n) top); simpl; [right|left]; lia || done.
Qed.

Lemma heap_safe_witness :
  exists st u, heap_run (H := limited 1000000) 4096 (MState ∅ 0 8192) ∅ [Malloc 100; Malloc 30; Free (8192 + 65536 - 112); Malloc 5] = Ret (st, u) /\
    exists rest, HDR * (total rest + used_total u) = 65536.
Proof.
  destruct (@heap_safe _ (limited 1000000) (limited_laws 1000000 ltac:(lia)) 4096 8192
    [Malloc 100; Malloc 30; Free (8192 + 65536 - 112); Malloc 5]) as (st & u & Hr & _ & _ & _ & Hl).
  - simpl. lia.
  - simpl. lia.
  - repeat constructor; simpl; lia.
  - exists st, u. split; [exact Hr|].
    assert (freep st = 8192 /\ brk (SbrkOS := limited 1000000) (sys st) = 73728) as [Hf Hbrk].
    { clear Hl. vm_compute in Hr. injection Hr as <- _. split; reflexivity. }
    destruct Hl as (rest & _ & _ & _ & _ & Ht); [lia|]. exists rest. rewrite Ht, Hbrk. reflexivity.
Defined.

(** A request for almost 4 GB is granted with a single unit of memory: the
    number of bytes overflows the [int] that [sbrk] takes. *)
Example malloc_huge : exists st, malloc (H := limited 1000000) 4096 (MState ∅ 0 8192) 4294967295 = Ret (Some 8208, st) /\
  brk (SbrkOS := limited 1000000) (sys st) = 8208.
Proof. eexists. split; vm_compute; reflexivity. Qed.
