(* ===== verification/Spinlock.v ===== *)
(** * Spin locks

    [kernel/spinlock.c].  The functions are cut where other CPUs can
    interfere: [acquire] is the disabling of interrupts with its check, then
    the atomic exchange repeated until it finds the lock free, then the
    recording of the owner; [release] clears the owner, stores the lock word,
    enables interrupts.  The transition relation interleaves these pieces of
    all CPUs with interrupts, with code that switches interrupts on and off
    while no lock is held, and with the schedulers' assignments to
    [intena].

    In every reachable state a lock has one owner at most, interrupts are off
    on a CPU that owns a lock or is inside the lock code, an interrupt finds
    no lock held by its CPU, and no call of the lock code panics. *)

From S2P Require Import Prelude.

Local Open Scope nat_scope.

(** ** State *)
Record spinlock := mk_lock { locked : bool; owner : option nat }.
Record cpu := mk_cpu { noff : Z; intena : bool; intr : bool }.

(** ** The code on one CPU *)
Definition initlock : spinlock := mk_lock false None.

Definition push_off (c : cpu) : cpu :=
  let old := intr c in
  mk_cpu (noff c + 1) (if (noff c =? 0)%Z then old else intena c) false.

Definition pop_off (c : cpu) : outcome cpu :=
  if intr c then Panic "pop_off - interruptible"
  else if (noff c <? 1)%Z then Panic "pop_off"
  else
    let n := (noff c - 1)%Z in
    Ret (mk_cpu n (intena c) (if (n =? 0)%Z && intena c then true else intr c)).

Definition holding (lk : spinlock) (me : nat) : bool := locked lk && bool_decide (owner lk = Some me).

(** [acquire] up to its loop; one round of the loop; its end. *)
Definition acquire_start (lk : spinlock) (c : cpu) (me : nat) : outcome cpu :=
  let c := push_off c in
  if holding lk me then Panic "acquire" else Ret c.

Definition exchange (lk : spinlock) : bool * spinlock := (locked lk, mk_lock true (owner lk)).

Definition acquire_end (lk : spinlock) (me : nat) : spinlock := mk_lock (locked lk) (Some me).

(** [release] up to the store; the store; [pop_off] follows. *)
Definition release_start (lk : spinlock) (me : nat) : outcome spinlock :=
  if negb (holding lk me) then Panic "release" else Ret (mk_lock (locked lk) None).

Definition release_store (lk : spinlock) : spinlock := mk_lock false (owner lk).

(** ** All CPUs *)
Inductive place :=
| Outside
| Spinning (l : nat)
| Acquired (l : nat)
| Releasing (l : nat)
| Popping.

(** [held] are the locks a CPU has acquired and not released, [extra] its
    calls of [push_off] of its own. *)
Record machine := mk_machine {
  locks : nat -> spinlock;
  cpus : nat -> cpu;
  at_ : nat -> place;
  held : nat -> list nat;
  extra : nat -> nat
}.

Definition set_cpu (s : machine) (i : nat) (c : cpu) (p : place) : machine :=
  mk_machine (locks s) (updf (cpus s) i c) (updf (at_ s) i p) (held s) (extra s).
Definition set_lock (s : machine) (l : nat) (lk : spinlock) : machine :=
  mk_machine (updf (locks s) l lk) (cpus s) (at_ s) (held s) (extra s).
Definition set_held (s : machine) (i : nat) (h : list nat) : machine :=
  mk_machine (locks s) (cpus s) (at_ s) (updf (held s) i h) (extra s).
Definition set_extra (s : machine) (i : nat) (n : nat) : machine :=
  mk_machine (locks s) (cpus s) (at_ s) (held s) (updf (extra s) i n).

(** The steps of CPU [i].  A program does not acquire a lock it holds, releases
    only locks it holds, and matches its own [push_off] with [pop_off]. *)
Inductive step : machine -> machine -> Prop :=
| s_acquire s i l c : at_ s i = Outside -> l ∉ held s i ->
    acquire_start (locks s l) (cpus s i) i = Ret c -> step s (set_cpu s i c (Spinning l))
| s_busy s i l : at_ s i = Spinning l -> fst (exchange (locks s l)) = true ->
    step s (set_lock s l (snd (exchange (locks s l))))
| s_exchange s i l : at_ s i = Spinning l -> fst (exchange (locks s l)) = false ->
    step s (set_cpu (set_lock s l (snd (exchange (locks s l)))) i (cpus s i) (Acquired l))
| s_acquired s i l : at_ s i = Acquired l ->
    step s (set_held (set_cpu (set_lock s l (acquire_end (locks s l) i)) i (cpus s i) Outside) i (l :: held s i))
| s_release s i l lk h1 h2 : at_ s i = Outside -> held s i = h1 ++ l :: h2 -> release_start (locks s l) i = Ret lk ->
    step s (set_held (set_cpu (set_lock s l lk) i (cpus s i) (Releasing l)) i (h1 ++ h2))
| s_store s i l : at_ s i = Releasing l ->
    step s (set_cpu (set_lock s l (release_store (locks s l))) i (cpus s i) Popping)
| s_pop s i c : at_ s i = Popping -> pop_off (cpus s i) = Ret c -> step s (set_cpu s i c Outside)
| s_push_off s i : at_ s i = Outside ->
    step s (set_extra (set_cpu s i (push_off (cpus s i)) Outside) i (S (extra s i)))
| s_pop_off s i n c : at_ s i = Outside -> extra s i = S n -> pop_off (cpus s i) = Ret c ->
    step s (set_extra (set_cpu s i c Outside) i n)
| s_intr s i b : at_ s i = Outside -> noff (cpus s i) = 0%Z ->
    step s (set_cpu s i (mk_cpu (noff (cpus s i)) (intena (cpus s i)) b) Outside)
| s_intena s i b : at_ s i = Outside ->
    step s (set_cpu s i (mk_cpu (noff (cpus s i)) b (intr (cpus s i))) Outside)
| s_trap s i : intr (cpus s i) = true ->
    step s (set_cpu s i (mk_cpu (noff (cpus s i)) (intena (cpus s i)) false) (at_ s i)).

Definition boot : machine :=
  mk_machine (fun _ => initlock) (fun _ => mk_cpu 0 false false) (fun _ => Outside) (fun _ => []) (fun _ => 0).

(** ** The invariant

    CPU [i] owns lock [l] from the exchange that took it to the store that
    frees it. *)
Definition owns (s : machine) (i l : nat) : Prop := l ∈ held s i \/ at_ s i = Acquired l \/ at_ s i = Releasing l.

Definition busy (p : place) : nat := match p with Outside => 0 | _ => 1 end.

Record lock_inv (s : machine) : Prop := {
  li_off : forall i, noff (cpus s i) = Z.of_nat (length (held s i) + extra s i + busy (at_ s i));
  li_intr : forall i, (0 < noff (cpus s i))%Z -> intr (cpus s i) = false;
  li_held : forall i, NoDup (held s i);
  li_locked : forall i l, owns s i l -> locked (locks s l) = true;
  li_free : forall l, locked (locks s l) = true -> exists i, owns s i l;
  li_one : forall i j l, owns s i l -> owns s j l -> i = j;
  li_once : forall i l, l ∈ held s i -> at_ s i <> Acquired l /\ at_ s i <> Releasing l;
  li_owner : forall i l, owner (locks s l) = Some i <-> l ∈ held s i
}.

Definition plain (p : place) : Prop := match p with Acquired _ | Releasing _ => False | _ => True end.

(** A step that changes no lock and no ownership. *)
Lemma local_inv s i c p n : lock_inv s -> plain (at_ s i) -> plain p ->
  noff c = Z.of_nat (length (held s i) + n + busy p) -> ((0 < noff c)%Z -> intr c = false) ->
  lock_inv (mk_machine (locks s) (updf (cpus s) i c) (updf (at_ s) i p) (held s) (updf (extra s) i n)).
Proof.
  intros [Hoff Hintr Hheld Hlocked Hfree Hone Honce Howner] Hp Hp' Hn Hi.
  set (s' := mk_machine _ _ _ _ _).
  assert (forall j l, owns s' j l <-> owns s j l) as Howns.
  { intros j l. unfold owns. cbn. destruct (decide (j = i)) as [->|].
    - rewrite updf_eq. destruct p, (at_ s i); simpl in *; naive_solver.
    - by rewrite updf_ne. }
  subst s'. constructor; cbn [locks cpus at_ held extra]; try done.
  - intros j. destruct (decide (j = i)) as [->|]; [by rewrite !updf_eq|by rewrite !updf_ne].
  - intros j. destruct (decide (j = i)) as [->|]; [by rewrite !updf_eq|rewrite !updf_ne by done; apply Hintr].
  - intros j l Ho. apply (Hlocked j). by apply Howns.
  - intros l Hl. destruct (Hfree l Hl) as [j Hj]. exists j. by apply Howns.
  - intros j k l Hj Hk. apply Howns in Hj, Hk. by eapply Hone.
  - intros j l Hl. destruct (decide (j = i)) as [->|]; [rewrite updf_eq; by destruct p|rewrite updf_ne by done; auto].
Qed.

Lemma exchange_inv s i l : lock_inv s -> at_ s i = Spinning l -> locked (locks s l) = false ->
  lock_inv (set_cpu (set_lock s l (mk_lock true (owner (locks s l)))) i (cpus s i) (Acquired l)).
Proof.
  intros [Hoff Hintr Hheld Hlocked Hfree Hone Honce Howner] Hat Hl.
  assert (forall j, ~ owns s j l) as Hnone by (intros j Ho; by rewrite (Hlocked j l Ho) in Hl).
  assert (forall j k, owns (set_cpu (set_lock s l (mk_lock true (owner (locks s l)))) i (cpus s i) (Acquired l)) j k ->
    (j = i /\ k = l) \/ (owns s j k /\ k <> l)) as Howns.
  { intros j k Ho. unfold owns in Ho. cbn in Ho. destruct (decide (k = l)) as [->|Hk].
    - left. split; [|done]. destruct (decide (j = i)) as [|Hj]; [done|]. rewrite updf_ne in Ho by done. by destruct (Hnone j).
    - right. split; [|done]. unfold owns. updf_cases; [|done]. destruct Ho as [|[[=]|[=]]]; [by left|done]. }
  constructor; cbn [set_cpu set_lock locks cpus at_ held extra]; try done.
  - intros j. updf_cases; rewrite Hoff; [by rewrite Hat|done].
  - intros j. updf_cases; [apply Hintr|apply Hintr].
  - intros j k [[-> ->]|[Ho Hk]]%Howns; [by rewrite updf_eq|]. rewrite updf_ne by done. by apply (Hlocked j).
  - intros k Hk. destruct (decide (k = l)) as [->|Hne].
    + exists i. right. left. cbn. by rewrite updf_eq.
    + rewrite updf_ne in Hk by done. destruct (Hfree k Hk) as [j Hj]. exists j. unfold owns in *. cbn. updf_cases; [|done].
      rewrite Hat in Hj. naive_solver.
  - intros j k m Hj Hk. apply Howns in Hj as [[-> ->]|[Hj ?]]; apply Howns in Hk as [[-> ?]|[Hk ?]]; try done. by eapply Hone.
  - intros j k Hk. updf_cases; [|auto]. split; [|done]. intros [= ->]. apply (Hnone i). by left.
  - intros j k. updf_cases; [|apply Howner]. cbn. apply Howner.
Qed.

Lemma acquired_inv s i l : lock_inv s -> at_ s i = Acquired l ->
  lock_inv (set_held (set_cpu (set_lock s l (mk_lock (locked (locks s l)) (Some i))) i (cpus s i) Outside) i (l :: held s i)).
Proof.
  intros [Hoff Hintr Hheld Hlocked Hfree Hone Honce Howner] Hat.
  assert (owns s i l) as Hil by (right; by left).
  assert (l ∉ held s i) as Hnin by (intros Hin; by destruct (Honce i l Hin)).
  set (s' := set_held _ _ _).
  assert (forall j k, owns s' j k <-> owns s j k) as Howns.
  { intros j k. unfold owns. cbn. updf_cases; [|done]. rewrite Hat. split.
    - intros [[->|?]%elem_of_cons|[[=]|[=]]]; auto.
    - intros [?|[[= ->]|[=]]]; left; rewrite elem_of_cons; auto. }
  subst s'. constructor; cbn [set_held set_cpu set_lock locks cpus at_ held extra].
  - intros j. updf_cases; rewrite Hoff; [rewrite Hat; simpl; lia|done].
  - intros j. updf_cases; apply Hintr.
  - intros j. updf_cases; [by constructor|done].
  - intros j k Ho%Howns. specialize (Hlocked j k Ho). updf_cases; done.
  - intros k Hk. destruct (Hfree k) as [j Hj]; [updf_cases; done|]. exists j. by apply Howns.
  - intros j k m Hj%Howns Hk%Howns. by eapply Hone.
  - intros j k Hk. updf_cases; [done|auto].
  - intros j k. updf_cases; cbn.
    + split; [set_solver|done].
    + split; [congruence|]. intros Hin. exfalso. assert (j = i); [|done]. apply (Hone j i l); [by left|done].
    + rewrite Howner. set_solver.
    + apply Howner.
Qed.

Lemma release_inv s i l h1 h2 : lock_inv s -> at_ s i = Outside -> held s i = h1 ++ l :: h2 ->
  lock_inv (set_held (set_cpu (set_lock s l (mk_lock (locked (locks s l)) None)) i (cpus s i) (Releasing l)) i (h1 ++ h2)).
Proof.
  intros [Hoff Hintr Hheld Hlocked Hfree Hone Honce Howner] Hat Hh.
  pose proof (Hheld i) as Hnd. rewrite Hh in Hnd. apply NoDup_Permutation_proper with (y := l :: h1 ++ h2) in Hnd;
    [|by rewrite Permutation_middle]. apply NoDup_cons in Hnd as [Hnin Hnd].
  assert (l ∈ held s i) as Hin by (rewrite Hh; set_solver).
  set (s' := set_held _ _ _).
  assert (forall j k, owns s' j k <-> owns s j k) as Howns.
  { intros j k. unfold owns. cbn. updf_cases; [|done]. rewrite Hat, Hh, !elem_of_app, elem_of_cons. split.
    - intros [[?|?]|[[=]|[= ->]]]; auto.
    - intros [[?|[->|?]]|[[=]|[=]]]; auto. }
  subst s'. constructor; cbn [set_held set_cpu set_lock locks cpus at_ held extra].
  - intros j. updf_cases; rewrite Hoff; [rewrite Hat, Hh, !length_app; simpl; lia|done].
  - intros j. updf_cases; apply Hintr.
  - intros j. updf_cases; done.
  - intros j k Ho%Howns. specialize (Hlocked j k Ho). updf_cases; done.
  - intros k Hk. destruct (Hfree k) as [j Hj]; [updf_cases; done|]. exists j. by apply Howns.
  - intros j k m Hj%Howns Hk%Howns. by eapply Hone.
  - intros j k Hk. updf_cases; [|auto]. split; [done|]. intros [= ->]. done.
  - intros j k. updf_cases; cbn.
    + split; [done|]. intros Hk. done.
    + split; [done|]. intros Hk. exfalso. assert (j = i); [|done]. apply (Hone j i l); by left.
    + rewrite Howner, Hh. set_solver.
    + apply Howner.
Qed.

Lemma store_inv s i l : lock_inv s -> at_ s i = Releasing l ->
  lock_inv (set_cpu (set_lock s l (mk_lock false (owner (locks s l)))) i (cpus s i) Popping).
Proof.
  intros [Hoff Hintr Hheld Hlocked Hfree Hone Honce Howner] Hat.
  assert (owns s i l) as Hil by (right; by right).
  assert (l ∉ held s i) as Hnin by (intros Hin; by destruct (Honce i l Hin)).
  set (s' := set_cpu _ _ _ _).
  assert (forall j k, owns s' j k <-> owns s j k /\ k <> l) as Howns.
  { intros j k. unfold owns. cbn. updf_cases.
    - rewrite Hat. split; [intros [Hk|[[=]|[=]]]; split; [by left|by intros ->]|]. intros [[?|[[=]|[= ->]]] ?]; [by left|done].
    - split; [|tauto]. intros Ho. split; [done|]. intros ->. assert (j = i); [|done]. by apply (Hone j i l). }
  subst s'. constructor; cbn [set_cpu set_lock locks cpus at_ held extra]; try done.
  - intros j. updf_cases; rewrite Hoff; [by rewrite Hat|done].
  - intros j. updf_cases; apply Hintr.
  - intros j k [Ho Hk]%Howns. rewrite updf_ne by done. by apply (Hlocked j).
  - intros k Hk. destruct (decide (k = l)) as [->|Hne]; [by rewrite updf_eq in Hk|]. rewrite updf_ne in Hk by done.
    destruct (Hfree k Hk) as [j Hj]. exists j. by apply Howns.
  - intros j k m [Hj _]%Howns [Hk _]%Howns. by eapply Hone.
  - intros j k Hk. updf_cases; [done|auto].
  - intros j k. updf_cases; [|apply Howner]. cbn. apply Howner.
Qed.

Lemma push_off_off c : noff (push_off c) = (noff c + 1)%Z /\ intr (push_off c) = false.
Proof. done. Qed.

Lemma pop_off_ret c c' : pop_off c = Ret c' -> noff c' = (noff c - 1)%Z /\ ((0 < noff c')%Z -> intr c' = false).
Proof.
  unfold pop_off. destruct (intr c) eqn:E; [done|]. destruct (noff c <? 1)%Z eqn:E'; [done|]. intros [= <-]. cbn.
  split; [done|]. intros H. destruct (Z.eqb_spec (noff c - 1) 0); [lia|]. by destruct (intena c).
Qed.

Lemma step_inv s s' : lock_inv s -> step s s' -> lock_inv s'.
Proof.
  intros Hinv Hstep. pose proof (li_off _ Hinv) as Hoff. pose proof (li_intr _ Hinv) as Hintr.
  assert (forall s i c p, lock_inv s -> plain (at_ s i) -> plain p ->
    noff c = Z.of_nat (length (held s i) + extra s i + busy p) -> ((0 < noff c)%Z -> intr c = false) ->
    lock_inv (set_cpu s i c p)) as Hcpu.
  { intros s0 i c p H0 H1 H2 H3 H4. pose proof (local_inv s0 i c p (extra s0 i) H0 H1 H2 H3 H4) as H5.
    destruct H5 as [Ha Hb Hc Hd He Hf Hg Hh]. constructor; try done. cbn in *. intros j. rewrite Ha. updf_cases; done. }
  destruct Hstep as [s i l c Hat Hl Ha|s i l Hat Hb|s i l Hat Hb|s i l Hat|s i l lk h1 h2 Hat Hh Hr|s i l Hat|s i c Hat Hp
    |s i Hat|s i n c Hat He Hp|s i b Hat Hn|s i b Hat|s i Hi].
  - unfold acquire_start in Ha. destruct (holding _ _); [done|]. injection Ha as <-.
    apply Hcpu; rewrite ?Hat; try done. rewrite (proj1 (push_off_off _)), Hoff, Hat. simpl. lia.
  - cbn in Hb. destruct Hinv as [H1 H2 H3 H4 H5 H6 H7 H8].
    constructor; cbn [set_lock exchange snd locks cpus at_ held extra]; try done.
    + intros j k Ho. specialize (H4 j k Ho). updf_cases; done.
    + intros k Hk. apply H5. updf_cases; done.
    + intros j k. updf_cases; [cbn|]; apply H8.
  - by apply exchange_inv.
  - by apply acquired_inv.
  - unfold release_start in Hr. destruct (negb _); [done|]. injection Hr as <-. by apply release_inv.
  - by apply store_inv.
  - destruct (pop_off_ret _ _ Hp) as [Hn Hi]. apply Hcpu; rewrite ?Hat; try done. rewrite Hn, Hoff, Hat. simpl. lia.
  - destruct (push_off_off (cpus s i)) as [Hn Hi].
    pose proof (local_inv s i (push_off (cpus s i)) Outside (S (extra s i)) Hinv) as H5.
    rewrite Hat in H5. destruct H5 as [H1 H2 H3 H4 H5 H6 H7 H8]; try done.
    rewrite Hn, Hoff, Hat. simpl. lia.
  - destruct (pop_off_ret _ _ Hp) as [Hn Hi].
    pose proof (local_inv s i c Outside n Hinv) as H5.
    rewrite Hat in H5. destruct H5 as [H1 H2 H3 H4 H5 H6 H7 H8]; try done.
    rewrite Hn, Hoff, Hat, He. simpl. lia.
  - apply Hcpu; rewrite ?Hat; try done; cbn; [by rewrite Hoff, Hat|lia].
  - apply Hcpu; rewrite ?Hat; try done; cbn; [by rewrite Hoff, Hat|apply Hintr].
  - assert (at_ s i = Outside) as Hat.
    { destruct (at_ s i) eqn:E; [done|..]; exfalso; specialize (Hoff i); rewrite E in Hoff; simpl in Hoff;
        rewrite Hintr in Hi by lia; done. }
    apply Hcpu; rewrite ?Hat; try done. cbn. by rewrite Hoff, Hat.
Qed.

Lemma boot_inv : lock_inv boot.
Proof. constructor; try done; unfold owns; cbn; intros; try constructor; set_solver. Qed.

(** C33.  In every reachable state of the interleaved CPUs: at most one CPU
    owns a lock, and the lock word is set exactly while one does; on a CPU
    that owns a lock or is inside the lock code interrupts are off, so that a
    handler never interrupts the holder of a lock; and none of the calls a
    program may make panics. *)
Theorem spinlock_safe (s : machine) (Hs : rtc step boot s) :
  (forall i j l, owns s i l -> owns s j l -> i = j) /\
  (forall l, locked (locks s l) = true <-> exists i, owns s i l) /\
  (forall i, held s i <> [] \/ at_ s i <> Outside -> intr (cpus s i) = false) /\
  (forall i l, at_ s i = Outside -> l ∉ held s i -> exists c, acquire_start (locks s l) (cpus s i) i = Ret c) /\
  (forall i l, l ∈ held s i -> exists lk, release_start (locks s l) i = Ret lk) /\
  (forall i, at_ s i = Popping \/ at_ s i = Outside /\ 0 < extra s i -> exists c, pop_off (cpus s i) = Ret c).
Proof.
  assert (lock_inv s) as [Hoff Hintr Hheld Hlocked Hfree Hone Honce Howner].
  { eapply (rtc_ind_r (R := step) lock_inv boot); [apply boot_inv|intros; by eapply step_inv|done]. }
  split; [done|]. split; [intros l; split; [apply Hfree|intros [i Hi]; by apply (Hlocked i)]|]. split; [|split; [|split]].
  - intros i Hi. apply Hintr. rewrite Hoff. destruct (held s i), (at_ s i); simpl; try lia. destruct Hi; done.
  - intros i l _ Hl. unfold acquire_start, holding. rewrite bool_decide_eq_false_2; [rewrite andb_false_r; eauto|].
    by rewrite Howner.
  - intros i l Hl. unfold release_start, holding. rewrite (Hlocked i l) by (by left).
    rewrite bool_decide_eq_true_2 by (by apply Howner). simpl. eauto.
  - intros i Hi. assert (0 < noff (cpus s i))%Z as Hn.
    { rewrite Hoff. destruct Hi as [->|[-> ?]]; simpl; lia. }
    unfold pop_off. rewrite (Hintr i Hn). rewrite (proj2 (Z.ltb_ge _ _)) by lia. eauto.
Qed.

(** CPU 1 spins while CPU 0 is in its critical section. *)
Lemma spinlock_safe_witness : exists s, rtc step boot s /\ at_ s 1 = Spinning 5 /\ held s 0 = [5] /\
  intr (cpus s 0) = false.
Proof.
  assert (exists s, rtc step boot s /\ at_ s 1 = Spinning 5 /\ held s 0 = [5]) as (s & Hs & H1 & H0).
  { eexists. split.
    - eapply rtc_l; [apply (s_acquire boot 0 5); [done|set_solver|reflexivity]|].
      eapply rtc_l; [apply (s_exchange _ 0 5); reflexivity|].
      eapply rtc_l; [apply (s_acquired _ 0 5); reflexivity|].
      eapply rtc_l; [apply (s_acquire _ 1 5); [reflexivity|apply not_elem_of_nil|reflexivity]|]. apply rtc_refl.
    - split; reflexivity. }
  exists s. split; [done|]. split; [done|]. split; [done|].
  apply (spinlock_safe s Hs). left. by rewrite H0.
Defined.
