(* ===== verification/Sleeplock.v ===== *)
(** * Sleep locks

    [kernel/sleeplock.c] on the processes of [Sched].  What runs under the
    inner spin lock is one step, except that [wakeup] takes the lock of one
    process after the other, so that other processes may call [sleep] in
    between: the release is a step per process.  Between the critical sections
    processes are scheduled, killed, woken on other channels, and do anything
    with their own state while they are not waiting for the lock.

    In every reachable state the lock has one owner at most, the lock's pid is
    its owner's, and no process sleeps on a lock that is free: each wakeup
    that is due has been given or is being given. *)

From S2P Require Import Prelude Sched.

Local Open Scope nat_scope.

Record sleeplock := mk_sl { sl_locked : bool; sl_pid : Z }.

Definition initsleeplock : sleeplock := mk_sl false 0.

(** The critical sections. *)
Definition try_sleeplock (lk : sleeplock) (pid : Z) : option sleeplock :=
  if sl_locked lk then None else Some (mk_sl true pid).

Definition clear_sleeplock (lk : sleeplock) : sleeplock := mk_sl false 0.

Definition holdingsleep (lk : sleeplock) (pid : Z) : bool := sl_locked lk && (sl_pid lk =? pid)%Z.

(** [releasesleep] without interference. *)
Definition releasesleep (lk : sleeplock) (k : kernel) (ch : chan) : sleeplock * kernel :=
  (clear_sleeplock lk, wakeup k ch).

(** Where a process is: before its call; after [sleep_prepare]; inside
    [sched]; back from [sleep]; in possession; in [wakeup], with the next
    process to look at. *)
Inductive place := Away | Waiting | Asleep | Retry | Owner | Waking (n : nat).

#[global] Instance place_eq_dec : EqDecision place.
Proof. solve_decision. Defined.

Record machine := mk_machine { lk : sleeplock; krn : kernel; at_ : nat -> place }.

Section Lock.
Context (ch : chan).

(** The inner lock is held across steps only by a process in [wakeup]. *)
Definition inner_free (s : machine) : Prop := forall i n, at_ s i <> Waking n.

Inductive step : machine -> machine -> Prop :=
| w_take s i p l : at_ s i = Away \/ at_ s i = Retry -> inner_free s -> k_procs (krn s) !! i = Some p ->
    try_sleeplock (lk s) (p_pid p) = Some l -> step s (mk_machine l (krn s) (updf (at_ s) i Owner))
| w_wait s i p : at_ s i = Away \/ at_ s i = Retry -> inner_free s -> k_procs (krn s) !! i = Some p ->
    try_sleeplock (lk s) (p_pid p) = None ->
    step s (mk_machine (lk s) (sleep_prepare (krn s) i ch) (updf (at_ s) i Waiting))
| w_sleep s i pol c k b : at_ s i = Waiting -> sleep pol (krn s) c i = (k, b) ->
    step s (mk_machine (lk s) k (updf (at_ s) i (if b then Asleep else Retry)))
| w_return s i p : at_ s i = Asleep -> k_procs (krn s) !! i = Some p -> p_state p = RUNNING ->
    step s (mk_machine (lk s) (krn s) (updf (at_ s) i Retry))
| w_release s i : at_ s i = Owner -> inner_free s ->
    step s (mk_machine (clear_sleeplock (lk s)) (krn s) (updf (at_ s) i (Waking 0)))
| w_wake s i n : at_ s i = Waking n -> n < length (k_procs (krn s)) ->
    step s (mk_machine (lk s) (upd (krn s) n (wake_one ch)) (updf (at_ s) i (Waking (S n))))
| w_released s i n : at_ s i = Waking n -> length (k_procs (krn s)) <= n ->
    step s (mk_machine (lk s) (krn s) (updf (at_ s) i Away))
| w_kill s pid : step s (mk_machine (lk s) (fst (kkill (krn s) pid)) (at_ s))
| w_run s j p : k_procs (krn s) !! j = Some p -> p_state p = RUNNABLE ->
    step s (mk_machine (lk s) (upd (krn s) j (set_state RUNNING)) (at_ s))
| w_yield s j p : k_procs (krn s) !! j = Some p -> p_state p = RUNNING ->
    step s (mk_machine (lk s) (upd (krn s) j (set_state RUNNABLE)) (at_ s))
| w_wakeup s ch' : ch' <> ch -> step s (mk_machine (lk s) (wakeup (krn s) ch') (at_ s))
| w_own s i f : at_ s i = Away \/ at_ s i = Owner -> (forall p, p_pid (f p) = p_pid p) ->
    step s (mk_machine (lk s) (upd (krn s) i f) (at_ s)).

(** ** The invariant *)
Definition waits (s : machine) (i : nat) (p : proc) : Prop :=
  at_ s i = Waiting /\ p_chan p = Some ch \/ at_ s i = Asleep /\ p_state p = SLEEPING.

Record sl_inv (s : machine) : Prop := {
  sl_one : forall i j, at_ s i = Owner -> at_ s j = Owner -> i = j;
  sl_word : sl_locked (lk s) = true <-> exists i, at_ s i = Owner;
  sl_owner : forall i, at_ s i = Owner -> exists p, k_procs (krn s) !! i = Some p /\ sl_pid (lk s) = p_pid p;
  sl_inner : forall i j n m, at_ s i = Waking n -> at_ s j = Waking m -> i = j;
  sl_chan : forall i p, k_procs (krn s) !! i = Some p -> at_ s i = Asleep -> p_state p = SLEEPING -> p_chan p = Some ch;
  sl_prep : forall i p c, k_procs (krn s) !! i = Some p -> at_ s i = Waiting -> p_chan p = Some c -> c = ch;
  sl_due : forall i p, k_procs (krn s) !! i = Some p -> waits s i p ->
    sl_locked (lk s) = true \/ exists w n, at_ s w = Waking n /\ n <= i
}.

(** A change of the processes that keeps pids and makes no process wait. *)
Lemma procs_inv s k : sl_inv s ->
  (forall i p', k_procs k !! i = Some p' -> exists p, k_procs (krn s) !! i = Some p /\
     p_pid p' = p_pid p /\ (at_ s i = Waiting -> p_chan p' = None \/ p_chan p' = p_chan p) /\
     (at_ s i = Asleep -> p_state p' = SLEEPING -> p_state p = SLEEPING /\ p_chan p' = p_chan p)) ->
  length (k_procs k) = length (k_procs (krn s)) -> sl_inv (mk_machine (lk s) k (at_ s)).
Proof.
  intros [H1 H2 H3 H4 H5 H7 H6] Hk Hlen. constructor; cbn; try done.
  - intros i Hi. destruct (H3 i Hi) as (p & Hp & Hpid).
    destruct (lookup_lt_is_Some_2 (k_procs k) i) as [p' Hp']; [rewrite Hlen; by eapply lookup_lt_Some|].
    exists p'. split; [done|]. destruct (Hk i p' Hp') as (q & Hq & -> & _). congruence.
  - intros i p' Hp' Ha Hs. destruct (Hk i p' Hp') as (p & Hp & _ & _ & Hsl). destruct (Hsl Ha Hs) as [Hs' ->]. eauto.
  - intros i p' c Hp' Ha Hc. destruct (Hk i p' Hp') as (p & Hp & _ & Hwt & _).
    destruct (Hwt Ha) as [E|E]; [congruence|]. apply (H7 i p); congruence.
  - intros i p' Hp' Hw. destruct (Hk i p' Hp') as (p & Hp & _ & Hwt & Hsl). apply (H6 i p Hp).
    destruct Hw as [[Ha Hc]|[Ha Hc]]; [left|right]; split; auto; [|by apply Hsl].
    destruct (Hwt Ha); congruence.
Qed.

Lemma same_procs l k k' f : sl_inv (mk_machine l k f) -> k_procs k' = k_procs k -> sl_inv (mk_machine l k' f).
Proof. intros [H1 H2 H3 H4 H5 H7 H6] E. constructor; cbn in *; rewrite ?E; done. Qed.

(** One process changes. *)
Lemma upd_inv s j f : sl_inv s ->
  (forall p, k_procs (krn s) !! j = Some p -> p_pid (f p) = p_pid p /\
     (at_ s j = Waiting -> p_chan (f p) = None \/ p_chan (f p) = p_chan p) /\
     (at_ s j = Asleep -> p_state (f p) = SLEEPING -> p_state p = SLEEPING /\ p_chan (f p) = p_chan p)) ->
  sl_inv (mk_machine (lk s) (upd (krn s) j f) (at_ s)).
Proof.
  intros Hinv Hf. apply procs_inv; [done| |by simpl; rewrite length_alter].
  intros i p' Hp'. simpl in Hp'. destruct (decide (i = j)) as [->|].
  - rewrite list_lookup_alter_eq in Hp'. apply fmap_Some in Hp' as (p & Hp & ->). eauto.
  - rewrite list_lookup_alter_ne in Hp' by done. eauto 10.
Qed.

(** A process that is neither owner nor in [wakeup] goes to another such
    place; where it waits there, the lock is taken or the waker is to come. *)
Lemma move_inv s i q : sl_inv s -> at_ s i <> Owner -> (forall n, at_ s i <> Waking n) ->
  q <> Owner -> (forall n, q <> Waking n) ->
  (forall p, k_procs (krn s) !! i = Some p -> q = Asleep -> p_state p = SLEEPING -> p_chan p = Some ch) ->
  (forall p c, k_procs (krn s) !! i = Some p -> q = Waiting -> p_chan p = Some c -> c = ch) ->
  (forall p, k_procs (krn s) !! i = Some p -> q = Waiting /\ p_chan p = Some ch \/ q = Asleep /\ p_state p = SLEEPING ->
    sl_locked (lk s) = true \/ exists w n, at_ s w = Waking n /\ n <= i) ->
  sl_inv (mk_machine (lk s) (krn s) (updf (at_ s) i q)).
Proof.
  intros [H1 H2 H3 H4 H5 H7 H6] Ho Hw Hq Hqw Hc Hpr Hd.
  assert (forall j, updf (at_ s) i q j = Owner <-> at_ s j = Owner) as Hown by (intros j; updf_cases; done).
  assert (forall j n, updf (at_ s) i q j = Waking n <-> at_ s j = Waking n) as Hwak.
  { intros j n. updf_cases; [|done]. split; intros E; [by destruct (Hqw n)|by destruct (Hw n)]. }
  constructor; cbn.
  - intros j j'. rewrite !Hown. apply H1.
  - rewrite H2. by setoid_rewrite Hown.
  - intros j. rewrite Hown. apply H3.
  - intros j j' n m. rewrite !Hwak. apply H4.
  - intros j p Hp. updf_cases; eauto.
  - intros j p c Hp. updf_cases; eauto.
  - intros j p Hp Hj. unfold waits in Hj. cbn in Hj. setoid_rewrite Hwak. updf_cases; eauto.
Qed.

Lemma take_sl_inv s i p : sl_inv s -> inner_free s -> k_procs (krn s) !! i = Some p -> sl_locked (lk s) = false ->
  sl_inv (mk_machine (mk_sl true (p_pid p)) (krn s) (updf (at_ s) i Owner)).
Proof.
  intros [H1 H2 H3 H4 H5 H7 H6] Hin Hp Hl.
  assert (forall j, at_ s j <> Owner) as Hno by (intros j Hj; rewrite (proj2 H2) in Hl; eauto; done).
  constructor; cbn.
  - intros j j' Hj Hj'. updf_cases; try done; by destruct (Hno j) || destruct (Hno j').
  - split; [|done]. exists i. by rewrite updf_eq.
  - intros j Hj. updf_cases; [eauto|by destruct (Hno j)].
  - intros j j' n m Hj Hj'. updf_cases; try done. by destruct (Hin j n).
  - intros j p' Hp' Hj. updf_cases; [done|eauto].
  - intros j p' c Hp' Hj. updf_cases; [done|eauto].
  - by left.
Qed.

Lemma prepare_inv s i : sl_inv s -> at_ s i = Away \/ at_ s i = Retry -> sl_locked (lk s) = true ->
  sl_inv (mk_machine (lk s) (sleep_prepare (krn s) i ch) (updf (at_ s) i Waiting)).
Proof.
  intros Hinv Hat Hl.
  apply (move_inv (mk_machine (lk s) (sleep_prepare (krn s) i ch) (at_ s))); cbn; try done.
  - apply upd_inv; [done|]. intros p Hp. destruct Hat as [-> | ->]; done.
  - by destruct Hat as [-> | ->].
  - by destruct Hat as [-> | ->].
  - intros p c Hp _. rewrite list_lookup_alter_eq in Hp. apply fmap_Some in Hp as (q & _ & ->). by intros [= <-].
  - by left.
Qed.

Lemma sleep_inv s i pol c k b : sl_inv s -> at_ s i = Waiting -> sleep pol (krn s) c i = (k, b) ->
  sl_inv (mk_machine (lk s) k (updf (at_ s) i (if b then Asleep else Retry))).
Proof.
  intros Hinv Hat. unfold sleep. destruct (k_procs (krn s) !! i) as [p|] eqn:Hp; simpl.
  2:{ intros [= <- <-]. apply move_inv; rewrite ?Hat; try done. naive_solver. }
  destruct (p_chan p) as [ch'|] eqn:E; intros [= <- <-].
  2:{ apply move_inv; rewrite ?Hat; try done. naive_solver. }
  set (f := fun p => if decide (pol = MLFQ) then reset_ticks (set_state SLEEPING p) else set_state SLEEPING p).
  assert (sl_inv (mk_machine (lk s) (upd (krn s) i f) (at_ s))) as Hinv'.
  { apply upd_inv; [done|]. intros q Hq. rewrite Hat. unfold f. case_decide; split_and!; try done; by right. }
  pose proof (sl_prep _ Hinv i p ch' Hp Hat E) as ->.
  apply (move_inv (mk_machine (lk s) (upd (krn s) i f) (at_ s)) i Asleep) in Hinv'; cbn; rewrite ?Hat; try done.
  - eapply same_procs; [exact Hinv'|]. unfold f. cbn. case_decide; [|done]. cbn. by rewrite list_alter_alter_eq.
  - intros q Hq _ _. cbn in Hq. rewrite list_lookup_alter_eq, Hp in Hq. injection Hq as <-. unfold f. by case_decide.
  - intros q _ _. by apply (sl_due _ Hinv i p Hp); left.
Qed.

Lemma release_sl_inv s i : sl_inv s -> at_ s i = Owner -> inner_free s ->
  sl_inv (mk_machine (clear_sleeplock (lk s)) (krn s) (updf (at_ s) i (Waking 0))).
Proof.
  intros [H1 H2 H3 H4 H5 H7 H6] Hat Hin.
  assert (forall j, updf (at_ s) i (Waking 0) j <> Owner) as Hno.
  { intros j Hj. updf_cases; [done|]. assert (j = i); [|done]. by apply H1. }
  constructor; cbn.
  - intros j j' Hj. by destruct (Hno j).
  - split; [done|]. intros [j Hj]. by destruct (Hno j).
  - intros j Hj. by destruct (Hno j).
  - intros j j' n m Hj Hj'. updf_cases; try done; by destruct (Hin j n) || destruct (Hin j' m).
  - intros j p Hp Hj. updf_cases; [done|eauto].
  - intros j p c Hp Hj. updf_cases; [done|eauto].
  - intros j p Hp Hj. right. exists i, 0. rewrite updf_eq. split; [done|lia].
Qed.

(** [wakeup] goes past process [n]. *)
Lemma wake_inv s i n : sl_inv s -> at_ s i = Waking n ->
  sl_inv (mk_machine (lk s) (upd (krn s) n (wake_one ch)) (updf (at_ s) i (Waking (S n)))).
Proof.
  intros Hinv Hat. assert (sl_inv (mk_machine (lk s) (upd (krn s) n (wake_one ch)) (at_ s))) as Hinv'.
  { apply upd_inv; [done|]. intros p Hp. unfold wake_one. repeat case_decide; split_and!; try done; auto. }
  destruct Hinv' as [H1 H2 H3 H4 H5 H7 H6]. cbn in *.
  assert (forall j, updf (at_ s) i (Waking (S n)) j = Owner <-> at_ s j = Owner) as Hown.
  { intros j. updf_cases; [by rewrite Hat|done]. }
  constructor; cbn.
  - intros j j'. rewrite !Hown. apply H1.
  - rewrite H2. by setoid_rewrite Hown.
  - intros j. rewrite Hown. apply H3.
  - intros j j' m m' Hj Hj'. updf_cases; try done; [symmetry|..]; eapply H4; eauto.
  - intros j p Hp Hj. updf_cases; [done|eauto].
  - intros j p c Hp Hj. updf_cases; [done|eauto].
  - intros j p Hp Hj. assert (waits (mk_machine (lk s) (upd (krn s) n (wake_one ch)) (at_ s)) j p) as Hw.
    { unfold waits in *. cbn in *. updf_cases; [by destruct Hj as [[??]|[??]]|done]. }
    destruct (H6 j p Hp Hw) as [?|(w & m & Hm & Hle)]; [by left|right]. exists i, (S n). rewrite updf_eq.
    assert (w = i) as -> by (by eapply H4). assert (m = n) as -> by congruence. split; [done|].
    assert (j <> n); [|lia]. intros ->. rewrite list_lookup_alter_eq in Hp.
    apply fmap_Some in Hp as (q & Hq & ->). unfold waits in Hw. cbn in Hw.
    pose proof (sl_chan _ Hinv n q Hq) as Hc. revert Hw. unfold wake_one. repeat case_decide; cbn; intros [[??]|[??]]; try done.
    by apply H, Hc.
Qed.

Lemma released_inv s i n : sl_inv s -> at_ s i = Waking n -> length (k_procs (krn s)) <= n ->
  sl_inv (mk_machine (lk s) (krn s) (updf (at_ s) i Away)).
Proof.
  intros [H1 H2 H3 H4 H5 H7 H6] Hat Hn.
  assert (forall j, updf (at_ s) i Away j = Owner <-> at_ s j = Owner) as Hown.
  { intros j. updf_cases; [by rewrite Hat|done]. }
  constructor; cbn.
  - intros j j'. rewrite !Hown. apply H1.
  - rewrite H2. by setoid_rewrite Hown.
  - intros j. rewrite Hown. apply H3.
  - intros j j' m m' Hj Hj'. updf_cases; try done. by eapply H4.
  - intros j p Hp Hj. updf_cases; [done|eauto].
  - intros j p c Hp Hj. updf_cases; [done|eauto].
  - intros j p Hp Hj. assert (waits s j p) as Hw.
    { unfold waits in *. cbn in *. updf_cases; [by destruct Hj as [[??]|[??]]|done]. }
    destruct (H6 j p Hp Hw) as [?|(w & m & Hm & Hle)]; [by left|]. assert (w = i) as -> by (by eapply H4).
    assert (m = n) as -> by congruence. apply lookup_lt_Some in Hp. lia.
Qed.

Lemma wakeup_other_inv s ch' : sl_inv s -> ch' <> ch -> sl_inv (mk_machine (lk s) (wakeup (krn s) ch') (at_ s)).
Proof.
  intros Hinv Hch. apply procs_inv; [done| |by cbn; rewrite length_fmap].
  intros i p' Hp'. cbn in Hp'. rewrite list_lookup_fmap in Hp'. apply fmap_Some in Hp' as (p & Hp & ->).
  exists p. split; [done|]. pose proof (sl_chan _ Hinv i p Hp) as Hc.
  unfold wake_one. repeat case_decide; cbn; split_and!; auto; done.
Qed.

Lemma step_sl_inv s s' : sl_inv s -> step s s' -> sl_inv s'.
Proof.
  intros Hinv Hstep.
  destruct Hstep as [s i p l Hat Hin Hp Ht|s i p Hat Hin Hp Ht|s i pol c k b Hat Hs|s i p Hat Hp Hr|s i Hat Hin|s i n Hat Hn
    |s i n Hat Hn|s pid|s j p Hp Hr|s j p Hp Hr|s ch' Hch|s i f Hat Hf].
  - unfold try_sleeplock in Ht. destruct (sl_locked (lk s)) eqn:E; [done|]. injection Ht as <-. by apply take_sl_inv.
  - unfold try_sleeplock in Ht. destruct (sl_locked (lk s)) eqn:E; [|done]. by apply prepare_inv.
  - by eapply sleep_inv.
  - apply move_inv; rewrite ?Hat; try done. naive_solver.
  - by apply release_sl_inv.
  - by apply wake_inv.
  - by eapply released_inv.
  - unfold kkill. destruct (list_find _ _) as [[j q]|]; cbn; [|by destruct s].
    apply upd_inv; [done|]. intros p Hp. unfold kill_one. case_decide; split_and!; try done; auto.
  - apply upd_inv; [done|]. intros q Hq. split_and!; try done; auto.
  - apply upd_inv; [done|]. intros q Hq. split_and!; try done; auto.
  - by apply wakeup_other_inv.
  - apply upd_inv; [done|]. intros q Hq. destruct Hat as [-> | ->]; split_and!; done.
Qed.

(** Any number of processes, none of which uses the lock yet. *)
Definition initial (k : kernel) : machine := mk_machine initsleeplock k (fun _ => Away).

Lemma initial_inv k : sl_inv (initial k).
Proof. constructor; cbn; try done; [naive_solver|]. by intros i p _ [[? _]|[? _]]. Qed.

Lemma reachable_inv k s : rtc step (initial k) s -> sl_inv s.
Proof. intros Hs. eapply (rtc_ind_r (R := step) sl_inv (initial k)); [apply initial_inv|intros; by eapply step_sl_inv|done]. Qed.

(** The steps of a release that nobody interferes with are [releasesleep]. *)
Lemma wake_steps s i n m : at_ s i = Waking n -> n + m = length (k_procs (krn s)) ->
  exists s', rtc step s s' /\ at_ s' i = Away /\ lk s' = lk s /\
    k_procs (krn s') = take n (k_procs (krn s)) ++ (wake_one ch <$> drop n (k_procs (krn s))).
Proof.
  revert s n. induction m as [|m IH]; intros s n Hat Hn.
  - eexists. split; [eapply rtc_once, (w_released s i n); [done|lia]|]. cbn. rewrite updf_eq. split_and!; try done.
    by rewrite take_ge, drop_ge, app_nil_r by lia.
  - destruct (lookup_lt_is_Some_2 (k_procs (krn s)) n) as [p Hp]; [lia|].
    destruct (IH (mk_machine (lk s) (upd (krn s) n (wake_one ch)) (updf (at_ s) i (Waking (S n)))) (S n)) as (s' & Hr & Ha & Hl & Hk).
    { cbn. by rewrite updf_eq. } { cbn. rewrite length_alter. lia. }
    exists s'. split; [eapply rtc_l; [apply w_wake; [done|lia]|done]|]. split_and!; [done..|].
    rewrite Hk. cbn. rewrite drop_alter, decide_False by lia. rewrite (drop_S _ _ _ Hp). cbn.
    rewrite (take_S_r _ n (wake_one ch p)) by (by rewrite list_lookup_alter_eq, Hp). rewrite take_alter, decide_False by lia.
    by rewrite <-app_assoc.
Qed.

(** C34.  In every reachable state of the processes that use a sleep lock: one
    process at most owns it, the lock is marked taken exactly while one does,
    and [holdingsleep] tells the owner so; an owner can release it, and then
    the lock is free, it is outside and the others are as [wakeup] leaves
    them; and while the lock is free and no release is under way, no process
    sleeps on it, and one that is about to call [sleep] returns from it at
    once: no wakeup is lost. *)
Theorem sleeplock_safe (k0 : kernel) (s : machine) (Hs : rtc step (initial k0) s) :
  (forall i j, at_ s i = Owner -> at_ s j = Owner -> i = j) /\
  (sl_locked (lk s) = true <-> exists i, at_ s i = Owner) /\
  (forall i, at_ s i = Owner -> exists p, k_procs (krn s) !! i = Some p /\ holdingsleep (lk s) (p_pid p) = true) /\
  (forall i, at_ s i = Owner -> inner_free s -> exists s', rtc step s s' /\ at_ s' i = Away /\
     lk s' = fst (releasesleep (lk s) (krn s) ch) /\
     k_procs (krn s') = k_procs (snd (releasesleep (lk s) (krn s) ch))) /\
  (sl_locked (lk s) = false -> inner_free s -> forall i p, k_procs (krn s) !! i = Some p ->
     (at_ s i = Asleep -> p_state p <> SLEEPING) /\
     (at_ s i = Waiting -> forall pol c, sleep pol (krn s) c i = (krn s, false))).
Proof.
  destruct (reachable_inv _ _ Hs) as [H1 H2 H3 H4 H5 H7 H6]. split_and!; [done..| | |].
  - intros i Hi. destruct (H3 i Hi) as (p & Hp & E). exists p. split; [done|]. unfold holdingsleep.
    rewrite (proj2 H2) by eauto. by rewrite E, Z.eqb_refl.
  - intros i Hi Hin.
    destruct (wake_steps (mk_machine (clear_sleeplock (lk s)) (krn s) (updf (at_ s) i (Waking 0))) i 0 (length (k_procs (krn s))))
      as (s' & Hr & Ha & Hl & Hk); [cbn; by rewrite updf_eq|done|].
    exists s'. split; [eapply rtc_l; [by apply w_release|done]|]. by split_and!.
  - intros Hl Hin i p Hp.
    assert (~ waits s i p) as Hno.
    { intros Hw. destruct (H6 i p Hp Hw) as [?|(w & n & Hw' & _)]; [congruence|by destruct (Hin w n)]. }
    split; [intros Ha Hst; apply Hno; by right|]. intros Ha pol c. unfold sleep. rewrite Hp. simpl.
    destruct (p_chan p) as [c'|] eqn:E; [|done]. destruct Hno. left. split; [done|]. by rewrite (H7 i p c' Hp Ha E) in E.
Qed.
End Lock.

(** Process 0 owns the lock while process 1 sleeps on it; after the release
    process 1 can run. *)
Lemma sleeplock_safe_witness : exists s, rtc (step (Ch_other 7)) (initial boot) s /\ at_ s 0 = Owner /\ at_ s 1 = Asleep /\
  exists s', rtc (step (Ch_other 7)) s s' /\ sl_locked (lk s') = false /\ p_state <$> k_procs (krn s') !! 1 = Some RUNNABLE.
Proof.
  set (k1 := sleep_prepare boot 1 (Ch_other 7)).
  set (s := mk_machine (mk_sl true 1) (fst (sleep RR k1 0 1)) (updf (updf (updf (fun _ => Away) 0 Owner) 1 Waiting) 1 Asleep)).
  assert (rtc (step (Ch_other 7)) (initial boot) s) as Hs.
  { eapply rtc_l; [eapply (w_take _ _ 0); [by left|done|reflexivity|reflexivity]|].
    eapply rtc_l; [eapply (w_wait _ _ 1); [by left| |reflexivity|reflexivity]|].
    { intros [|j] n; by cbn. }
    eapply rtc_l; [eapply (w_sleep _ _ 1 RR 0); reflexivity|]. apply rtc_refl. }
  exists s. split; [exact Hs|]. split; [reflexivity|]. split; [reflexivity|].
  destruct (proj1 (proj2 (proj2 (proj2 (sleeplock_safe (Ch_other 7) boot _ Hs)))) 0) as (s' & Hr & _ & Hl & Hk).
  - reflexivity.
  - intros [|[|j]] n; by cbn.
  - exists s'. split; [exact Hr|]. rewrite Hl, Hk. split; vm_compute; reflexivity.
Defined.
