(* ===== verification/Virtio.v ===== *)
(** * The disk driver

    [kernel/virtio_disk.c]: the descriptors, the rings shared with the device,
    and the parts of [virtio_disk_rw] and [virtio_disk_intr] between two points
    at which others run.  Memory that descriptors point to is named by
    [daddr].  The device is a parameter of the system: it behaves as the
    virtio specification describes, reading nothing but the shared memory.

    [VirtioInv] proves that the whole refines a disk whose requests take
    effect in one step. *)

From S2P Require Import Prelude Bytes Bio.

Local Open Scope nat_scope.

Definition NUM : nat := 8.

Definition VRING_DESC_F_NEXT : Z := 1.
Definition VRING_DESC_F_WRITE : Z := 2.
Definition VIRTIO_BLK_T_IN : Z := 0.
Definition VIRTIO_BLK_T_OUT : Z := 1.

(** What a descriptor points to: a request header, the data of a buffer, the
    status byte of a request. *)
Inductive daddr := ANull | AOps (i : nat) | AData (b : nat) | AStatus (i : nat).

Record virtq_desc := mk_desc { vd_addr : daddr; vd_len : Z; vd_flags : Z; vd_next : nat }.
Record virtio_blk_req := mk_req { rq_type : Z; rq_reserved : Z; rq_sector : Z }.
Record req_info := mk_info { in_b : option nat; in_status : Z }.

(** [avail_idx] is [disk.avail->idx], [used_end] is [disk.used->idx], [used_idx]
    is [disk.used_idx]. *)
Record vdisk := mk_vdisk {
  v_desc : list virtq_desc;
  v_avail_idx : Z;
  v_avail : list nat;
  v_used_end : Z;
  v_used : list nat;
  v_free : list bool;
  v_used_idx : Z;
  v_info : list req_info;
  v_ops : list virtio_blk_req
}.

(** The fields of [struct buf] that the driver uses. *)
Record vbuf := mk_vbuf { vb_disk : bool; vb_blockno : Z; vb_data : bytes }.

Definition null_desc : virtq_desc := mk_desc ANull 0 0 0.

Definition set_desc (d : vdisk) (l : list virtq_desc) : vdisk :=
  mk_vdisk l (v_avail_idx d) (v_avail d) (v_used_end d) (v_used d) (v_free d) (v_used_idx d) (v_info d) (v_ops d).
Definition set_avail (d : vdisk) (i : Z) (l : list nat) : vdisk :=
  mk_vdisk (v_desc d) i l (v_used_end d) (v_used d) (v_free d) (v_used_idx d) (v_info d) (v_ops d).
Definition set_used (d : vdisk) (i : Z) (l : list nat) : vdisk :=
  mk_vdisk (v_desc d) (v_avail_idx d) (v_avail d) i l (v_free d) (v_used_idx d) (v_info d) (v_ops d).
Definition set_free (d : vdisk) (l : list bool) : vdisk :=
  mk_vdisk (v_desc d) (v_avail_idx d) (v_avail d) (v_used_end d) (v_used d) l (v_used_idx d) (v_info d) (v_ops d).
Definition set_used_idx (d : vdisk) (i : Z) : vdisk :=
  mk_vdisk (v_desc d) (v_avail_idx d) (v_avail d) (v_used_end d) (v_used d) (v_free d) i (v_info d) (v_ops d).
Definition set_info (d : vdisk) (l : list req_info) : vdisk :=
  mk_vdisk (v_desc d) (v_avail_idx d) (v_avail d) (v_used_end d) (v_used d) (v_free d) (v_used_idx d) l (v_ops d).
Definition set_ops (d : vdisk) (l : list virtio_blk_req) : vdisk :=
  mk_vdisk (v_desc d) (v_avail_idx d) (v_avail d) (v_used_end d) (v_used d) (v_free d) (v_used_idx d) (v_info d) l.

(** The memory that [virtio_disk_init] leaves: the static [disk.info] and
    [disk.ops] are zero. *)
Definition fresh_vdisk : vdisk :=
  mk_vdisk (replicate NUM null_desc) 0 (replicate NUM 0) 0 (replicate NUM 0) (replicate NUM true) 0
    (replicate NUM (mk_info None 0)) (replicate NUM (mk_req 0 0 0)).

(** ** [virtio_disk_init]

    [reg] gives what the registers read; [back] is the status that is read
    back after the negotiation; [desc], [avail] and [used] are the pages that
    [kalloc] returns.  The result is the sequence of register writes and the
    memory of the driver. *)
Definition VIRTIO_MMIO_MAGIC_VALUE : Z := 0.
Definition VIRTIO_MMIO_VERSION : Z := 4.
Definition VIRTIO_MMIO_DEVICE_ID : Z := 8.
Definition VIRTIO_MMIO_VENDOR_ID : Z := 12.
Definition VIRTIO_MMIO_DEVICE_FEATURES : Z := 16.
Definition VIRTIO_MMIO_DRIVER_FEATURES : Z := 32.
Definition VIRTIO_MMIO_QUEUE_SEL : Z := 48.
Definition VIRTIO_MMIO_QUEUE_NUM_MAX : Z := 52.
Definition VIRTIO_MMIO_QUEUE_NUM : Z := 56.
Definition VIRTIO_MMIO_QUEUE_READY : Z := 68.
Definition VIRTIO_MMIO_STATUS : Z := 112.
Definition VIRTIO_MMIO_QUEUE_DESC_LOW : Z := 128.
Definition VIRTIO_MMIO_QUEUE_DESC_HIGH : Z := 132.
Definition VIRTIO_MMIO_DRIVER_DESC_LOW : Z := 144.
Definition VIRTIO_MMIO_DRIVER_DESC_HIGH : Z := 148.
Definition VIRTIO_MMIO_DEVICE_DESC_LOW : Z := 160.
Definition VIRTIO_MMIO_DEVICE_DESC_HIGH : Z := 164.
Definition VIRTIO_CONFIG_S_ACKNOWLEDGE : Z := 1.
Definition VIRTIO_CONFIG_S_DRIVER : Z := 2.
Definition VIRTIO_CONFIG_S_DRIVER_OK : Z := 4.
Definition VIRTIO_CONFIG_S_FEATURES_OK : Z := 8.
Definition VIRTIO_BLK_F_RO : Z := 5.
Definition VIRTIO_BLK_F_SCSI : Z := 7.
Definition VIRTIO_BLK_F_FLUSH : Z := 9.
Definition VIRTIO_BLK_F_CONFIG_WCE : Z := 11.
Definition VIRTIO_BLK_F_MQ : Z := 12.
Definition VIRTIO_F_ANY_LAYOUT : Z := 27.
Definition VIRTIO_RING_F_INDIRECT_DESC : Z := 28.
Definition VIRTIO_RING_F_EVENT_IDX : Z := 29.

Definition refuse (features n : Z) : Z := Z.land features (Z.lnot (Z.shiftl 1 n)).

Definition refused : list Z :=
  [VIRTIO_BLK_F_RO; VIRTIO_BLK_F_SCSI; VIRTIO_BLK_F_FLUSH; VIRTIO_BLK_F_CONFIG_WCE; VIRTIO_BLK_F_MQ;
   VIRTIO_F_ANY_LAYOUT; VIRTIO_RING_F_EVENT_IDX; VIRTIO_RING_F_INDIRECT_DESC].

Definition wr64 (low high addr : Z) : list (Z * Z) := [(low, u32 addr); (high, u32 (Z.shiftr addr 32))].

Definition virtio_disk_init (reg : Z -> Z) (back : Z) (desc avail used : option Z) : outcome (list (Z * Z) * vdisk) :=
  if negb (reg VIRTIO_MMIO_MAGIC_VALUE =? 1953655158)%Z || negb (reg VIRTIO_MMIO_VERSION =? 2)%Z || negb (reg VIRTIO_MMIO_DEVICE_ID =? 2)%Z || negb (reg VIRTIO_MMIO_VENDOR_ID =? 1431127377)%Z
  then Panic "could not find virtio disk"
  else
    let status := 0%Z in
    let ws := [(VIRTIO_MMIO_STATUS, status)]%Z in
    let status := Z.lor status VIRTIO_CONFIG_S_ACKNOWLEDGE in
    let ws := ws ++ [(VIRTIO_MMIO_STATUS, status)]%Z in
    let status := Z.lor status VIRTIO_CONFIG_S_DRIVER in
    let ws := ws ++ [(VIRTIO_MMIO_STATUS, status)]%Z in
    let features := foldl refuse (reg VIRTIO_MMIO_DEVICE_FEATURES) refused in
    let ws := ws ++ [(VIRTIO_MMIO_DRIVER_FEATURES, u32 features)]%Z in
    let status := Z.lor status VIRTIO_CONFIG_S_FEATURES_OK in
    let ws := ws ++ [(VIRTIO_MMIO_STATUS, status)]%Z in
    let status := back in
    if (Z.land status VIRTIO_CONFIG_S_FEATURES_OK =? 0)%Z then Panic "virtio disk FEATURES_OK unset"
    else
      let ws := ws ++ [(VIRTIO_MMIO_QUEUE_SEL, 0)]%Z in
      if negb (reg VIRTIO_MMIO_QUEUE_READY =? 0)%Z then Panic "virtio disk should not be ready"
      else
        let max := reg VIRTIO_MMIO_QUEUE_NUM_MAX in
        if (max =? 0)%Z then Panic "virtio disk has no queue 0"
        else if (max <? Z.of_nat NUM)%Z then Panic "virtio disk max queue too short"
        else
          match desc, avail, used with
          | Some pd, Some pa, Some pu =>
              let ws := ws ++ [(VIRTIO_MMIO_QUEUE_NUM, Z.of_nat NUM)]%Z ++ wr64 VIRTIO_MMIO_QUEUE_DESC_LOW VIRTIO_MMIO_QUEUE_DESC_HIGH pd ++
                wr64 VIRTIO_MMIO_DRIVER_DESC_LOW VIRTIO_MMIO_DRIVER_DESC_HIGH pa ++
                wr64 VIRTIO_MMIO_DEVICE_DESC_LOW VIRTIO_MMIO_DEVICE_DESC_HIGH pu ++ [(VIRTIO_MMIO_QUEUE_READY, 1)]%Z in
              let status := Z.lor status VIRTIO_CONFIG_S_DRIVER_OK in
              Ret (ws ++ [(VIRTIO_MMIO_STATUS, status)]%Z, fresh_vdisk)
          | _, _, _ => Panic "virtio disk kalloc"
          end.

(** ** Descriptors *)
Definition alloc_desc (d : vdisk) : vdisk * option nat :=
  match list_find (fun f => f = true) (v_free d) with
  | Some (i, _) => (set_free d (<[i := false]> (v_free d)), Some i)
  | None => (d, None)
  end.

Definition free_desc (d : vdisk) (i : nat) : outcome vdisk :=
  if NUM <=? i then Panic "free_desc 1"
  else
    let* f := load (v_free d) i in
    if f : bool then Panic "free_desc 2"
    else
      let* l := store (v_desc d) i null_desc in
      let* fr := store (v_free d) i true in
      Ret (set_free (set_desc d l) fr).

Fixpoint free_chain (d : vdisk) (i : nat) (fuel : nat) : outcome vdisk :=
  match fuel with
  | 0 => NoFuel
  | S fuel =>
      let* e := load (v_desc d) i in
      let* d := free_desc d i in
      if (Z.land (vd_flags e) VRING_DESC_F_NEXT =? 0)%Z then Ret d else free_chain d (vd_next e) fuel
  end.

Definition alloc3_desc (d : vdisk) : outcome (vdisk * option (nat * nat * nat)) :=
  let '(d, x) := alloc_desc d in
  match x with
  | None => Ret (d, None)
  | Some x =>
      let '(d, y) := alloc_desc d in
      match y with
      | None => let* d := free_desc d x in Ret (d, None)
      | Some y =>
          let '(d, z) := alloc_desc d in
          match z with
          | None => let* d := free_desc d x in let* d := free_desc d y in Ret (d, None)
          | Some z => Ret (d, Some (x, y, z))
          end
      end
  end.

(** ** [virtio_disk_rw]

    The request of buffer [b] with the descriptors [x], [y], [z]: headers and
    descriptors, then the entry of the ring, not yet counted. *)
Definition sector_of (b : vbuf) : Z := u32 (vb_blockno b * 2).

Definition fill (d : vdisk) (bi : nat) (b : vbuf) (write : bool) (x y z : nat) : outcome (vdisk * vbuf) :=
  let* ops := store (v_ops d) x (mk_req (if write then VIRTIO_BLK_T_OUT else VIRTIO_BLK_T_IN) 0 (sector_of b)) in
  let* l := store (v_desc d) x (mk_desc (AOps x) 16 VRING_DESC_F_NEXT y) in
  let* l := store l y (mk_desc (AData bi) (Z.of_nat BSIZE)
              (Z.lor (if write then 0%Z else VRING_DESC_F_WRITE) VRING_DESC_F_NEXT) z) in
  let* l := store l z (mk_desc (AStatus x) 1 VRING_DESC_F_WRITE 0) in
  let* info := store (v_info d) x (mk_info (Some bi) 255) in
  let* ring := store (v_avail d) (Z.to_nat (v_avail_idx d `mod` Z.of_nat NUM)) x in
  Ret (set_avail (set_info (set_desc (set_ops d ops) l) info) (v_avail_idx d) ring, mk_vbuf true (vb_blockno b) (vb_data b)).

Definition publish (d : vdisk) : vdisk := set_avail d (u16 (v_avail_idx d + 1)) (v_avail d).

(** After the wait. *)
Definition finish (d : vdisk) (x : nat) : outcome vdisk :=
  let* r := load (v_info d) x in
  let* info := store (v_info d) x (mk_info None (in_status r)) in
  free_chain (set_info d info) x (S NUM).

(** ** [virtio_disk_intr]

    One round of the loop; [None] when the device has nothing more. *)
Definition intr_round (d : vdisk) : outcome (option (vdisk * nat)) :=
  if (v_used_idx d =? v_used_end d)%Z then Ret None
  else
    let* id := load (v_used d) (Z.to_nat (v_used_idx d `mod` Z.of_nat NUM)) in
    let* r := load (v_info d) id in
    if negb (in_status r =? 0)%Z then Panic "virtio_disk_intr status"
    else
      match in_b r with
      | None => Undef
      | Some b => Ret (Some (set_used_idx d (u16 (v_used_idx d + 1)), b))
      end.

(** ** The device

    It fetches entries of the ring in order, works on what it has fetched in
    any order, and reports each request.  The chain tells it where the
    request is, which sectors to transfer and where the status goes. *)
Record device := mk_dev { dv_last : Z; dv_pending : list nat; dv_sector : Z -> bytes }.

Definition dev_fetch (d : vdisk) (v : device) : option device :=
  if (dv_last v =? v_avail_idx d)%Z then None
  else
    match v_avail d !! Z.to_nat (dv_last v `mod` Z.of_nat NUM) with
    | Some h => Some (mk_dev (u16 (dv_last v + 1)) (dv_pending v ++ [h]) (dv_sector v))
    | None => None
    end.

(** [n] sectors from sector [s]. *)
Fixpoint read_sectors (st : Z -> bytes) (s : Z) (n : nat) : bytes :=
  match n with 0 => [] | S n => st s ++ read_sectors st (s + 1) n end.

Fixpoint write_sectors (st : Z -> bytes) (s : Z) (n : nat) (data : bytes) : Z -> bytes :=
  match n with
  | 0 => st
  | S n => write_sectors (fun k => if (k =? s)%Z then take 512 data else st k) (s + 1) n (drop 512 data)
  end.

(** The request at head [h]: header, data and status descriptors. *)
Record request := mk_request { r_type : Z; r_sector : Z; r_buf : nat; r_len : Z; r_writable : bool; r_status : nat }.

Definition read_chain (d : vdisk) (h : nat) : option request :=
  match v_desc d !! h with
  | Some (mk_desc (AOps o) 16 1 y) =>
      match v_desc d !! y, v_ops d !! o with
      | Some (mk_desc (AData b) len fl z), Some (mk_req ty _ sec) =>
          match v_desc d !! z with
          | Some (mk_desc (AStatus st) 1 2 _) =>
              if Z.testbit fl 0 then Some (mk_request ty sec b len (Z.testbit fl 1) st) else None
          | _ => None
          end
      | _, _ => None
      end
  | _ => None
  end.

(** The transfer of a request, if it is well formed. *)
Definition transfer (r : request) (st : Z -> bytes) (data : bytes) : option ((Z -> bytes) * bytes) :=
  let n := Z.to_nat (r_len r / 512) in
  if (r_type r =? VIRTIO_BLK_T_IN)%Z then
    if r_writable r then Some (st, read_sectors st (r_sector r) n) else None
  else if (r_type r =? VIRTIO_BLK_T_OUT)%Z then Some (write_sectors st (r_sector r) n data, data)
  else None.

(** The status byte and the entry of the used ring. *)
Definition complete (d : vdisk) (h : nat) (r : request) : outcome vdisk :=
  let* i := load (v_info d) (r_status r) in
  let* info := store (v_info d) (r_status r) (mk_info (in_b i) 0) in
  let* ring := store (v_used d) (Z.to_nat (v_used_end d `mod` Z.of_nat NUM)) h in
  Ret (set_used (set_info d info) (u16 (v_used_end d + 1)) ring).

(** ** The system

    A process calls [virtio_disk_rw] for a buffer whose sleep lock it holds;
    it waits for descriptors, holds the driver's lock from there to the
    publication of its request, waits for the interrupt handler, and frees its
    descriptors.  [handler] says that the interrupt handler holds the lock. *)
Inductive place :=
| Idle
| Alloc (b : nat) (write : bool)
| Filled (b : nat) (write : bool) (x y z : nat)
| Wait (b : nat) (write : bool) (x y z : nat).

Record machine := mk_machine {
  m_disk : vdisk;
  m_buf : nat -> vbuf;
  m_dev : device;
  m_at : nat -> place;
  m_handler : bool
}.

Definition uses (p : place) : option nat :=
  match p with Idle => None | Alloc b _ => Some b | Filled b _ _ _ _ => Some b | Wait b _ _ _ _ => Some b end.

Definition lock_free (s : machine) : Prop :=
  m_handler s = false /\ forall i b w x y z, m_at s i <> Filled b w x y z.

(** Blocks have a 31-bit number and 1024 bytes. *)
Definition good_buf (blockno : Z) (data : bytes) : Prop := (0 <= blockno < 2147483648)%Z /\ length data = BSIZE.

Inductive step : machine -> machine -> Prop :=
| s_call s i b w : m_at s i = Idle -> (forall j, uses (m_at s j) <> Some b) ->
    step s (mk_machine (m_disk s) (m_buf s) (m_dev s) (updf (m_at s) i (Alloc b w)) (m_handler s))
| s_full s i b w d : m_at s i = Alloc b w -> lock_free s -> alloc3_desc (m_disk s) = Ret (d, None) ->
    step s (mk_machine d (m_buf s) (m_dev s) (m_at s) (m_handler s))
| s_fill s i b w x y z d d' vb : m_at s i = Alloc b w -> lock_free s -> alloc3_desc (m_disk s) = Ret (d, Some (x, y, z)) ->
    fill d b (m_buf s b) w x y z = Ret (d', vb) ->
    step s (mk_machine d' (updf (m_buf s) b vb) (m_dev s) (updf (m_at s) i (Filled b w x y z)) (m_handler s))
| s_publish s i b w x y z : m_at s i = Filled b w x y z ->
    step s (mk_machine (publish (m_disk s)) (m_buf s) (m_dev s) (updf (m_at s) i (Wait b w x y z)) (m_handler s))
| s_finish s i b w x y z d : m_at s i = Wait b w x y z -> lock_free s -> vb_disk (m_buf s b) = false ->
    finish (m_disk s) x = Ret d ->
    step s (mk_machine d (m_buf s) (m_dev s) (updf (m_at s) i Idle) (m_handler s))
| s_intr s : lock_free s -> step s (mk_machine (m_disk s) (m_buf s) (m_dev s) (m_at s) true)
| s_round s d b : m_handler s = true -> intr_round (m_disk s) = Ret (Some (d, b)) ->
    step s (mk_machine d (updf (m_buf s) b (mk_vbuf false (vb_blockno (m_buf s b)) (vb_data (m_buf s b)))) (m_dev s) (m_at s) true)
| s_iret s : m_handler s = true -> intr_round (m_disk s) = Ret None ->
    step s (mk_machine (m_disk s) (m_buf s) (m_dev s) (m_at s) false)
| s_fetch s v : dev_fetch (m_disk s) (m_dev s) = Some v ->
    step s (mk_machine (m_disk s) (m_buf s) v (m_at s) (m_handler s))
| s_complete s h p1 p2 r st data d : dv_pending (m_dev s) = p1 ++ h :: p2 ->
    read_chain (m_disk s) h = Some r -> transfer r (dv_sector (m_dev s)) (vb_data (m_buf s (r_buf r))) = Some (st, data) ->
    complete (m_disk s) h r = Ret d ->
    step s (mk_machine d
      (updf (m_buf s) (r_buf r) (mk_vbuf (vb_disk (m_buf s (r_buf r))) (vb_blockno (m_buf s (r_buf r))) data))
      (mk_dev (dv_last (m_dev s)) (p1 ++ p2) st) (m_at s) (m_handler s))
| s_edit s b n data : (forall j, uses (m_at s j) <> Some b) -> good_buf n data ->
    step s (mk_machine (m_disk s) (updf (m_buf s) b (mk_vbuf (vb_disk (m_buf s b)) n data)) (m_dev s) (m_at s) (m_handler s)).

(** The sectors of a disk of blocks. *)
Definition sectors_of (disk : gmap Z bytes) (k : Z) : bytes :=
  let b := disk_block disk (k / 2) in if (k mod 2 =? 0)%Z then take 512 b else drop 512 b.

Definition start (bufs : nat -> vbuf) (disk : gmap Z bytes) : machine :=
  mk_machine fresh_vdisk bufs (mk_dev 0 [] (sectors_of disk)) (fun _ => Idle) false.

(** ** The abstract disk

    A request is called, takes effect at once between its call and its return
    on the blocks of the buffer cache's disk, and returns. *)
Inductive aplace := ANone | ACalled (b : nat) (write : bool) | ADone (b : nat) (write : bool).

Record adisk := mk_adisk { a_disk : gmap Z bytes; a_buf : nat -> Z * bytes; a_at : nat -> aplace }.

Definition a_uses (p : aplace) : option nat := match p with ANone => None | ACalled b _ | ADone b _ => Some b end.

(** [virtio_disk_rw] as the buffer cache sees it. *)
Definition disk_rw (disk : gmap Z bytes) (blockno : Z) (data : bytes) (write : bool) : gmap Z bytes * bytes :=
  if write then (<[blockno := data]> disk, data) else (disk, disk_block disk blockno).

Inductive astep : adisk -> adisk -> Prop :=
| a_call a i b w : a_at a i = ANone -> (forall j, a_uses (a_at a j) <> Some b) ->
    astep a (mk_adisk (a_disk a) (a_buf a) (updf (a_at a) i (ACalled b w)))
| a_do a i b w disk data : a_at a i = ACalled b w -> disk_rw (a_disk a) (fst (a_buf a b)) (snd (a_buf a b)) w = (disk, data) ->
    astep a (mk_adisk disk (updf (a_buf a) b (fst (a_buf a b), data)) (updf (a_at a) i (ADone b w)))
| a_return a i b w : a_at a i = ADone b w -> astep a (mk_adisk (a_disk a) (a_buf a) (updf (a_at a) i ANone))
| a_edit a b n data : (forall j, a_uses (a_at a j) <> Some b) -> good_buf n data ->
    astep a (mk_adisk (a_disk a) (updf (a_buf a) b (n, data)) (a_at a)).

Definition a_start (bufs : nat -> vbuf) (disk : gmap Z bytes) : adisk :=
  mk_adisk disk (fun b => (vb_blockno (bufs b), vb_data (bufs b))) (fun _ => ANone).

(** Where the driver stands, abstractly: a request is done when its status
    byte is written. *)
Definition status (d : vdisk) (x : nat) : Z := default 0%Z (in_status <$> v_info d !! x).

Definition abs_place (d : vdisk) (p : place) : aplace :=
  match p with
  | Idle => ANone
  | Alloc b w | Filled b w _ _ _ => ACalled b w
  | Wait b w x _ _ => if (status d x =? 0)%Z then ADone b w else ACalled b w
  end.

(** A block is two sectors. *)
Record sim (s : machine) (a : adisk) : Prop := {
  sim_at : forall i, a_at a i = abs_place (m_disk s) (m_at s i);
  sim_buf : forall b, a_buf a b = (vb_blockno (m_buf s b), vb_data (m_buf s b));
  sim_disk : forall n, (0 <= n < 2147483648)%Z ->
    disk_block (a_disk a) n = dv_sector (m_dev s) (2 * n) ++ dv_sector (m_dev s) (2 * n + 1)
}.

(** A device that can be used is told so last, its queue enabled before, and
    is asked for none of the refused features. *)
Lemma refuse_bits l : Forall (fun n => 0 <= n)%Z l -> forall f n, (0 <= n)%Z -> n ∈ l \/ Z.testbit f n = false ->
  Z.testbit (foldl refuse f l) n = false.
Proof.
  induction 1 as [|m l Hm Hl IH]; intros f n Hn Hin; simpl; [set_solver|]. apply IH; [done|]. unfold refuse.
  rewrite Z.land_spec, Z.lnot_spec by done. destruct Hin as [[->|Hin]%elem_of_cons|Hf]; [right|by left|right; by rewrite Hf].
  rewrite Z.shiftl_spec by done. rewrite Z.sub_diag. by rewrite andb_false_r.
Qed.

Lemma virtio_disk_init_ok reg back pd pa pu ws d : virtio_disk_init reg back pd pa pu = Ret (ws, d) ->
  d = fresh_vdisk /\ (exists pre, ws = pre ++ [(VIRTIO_MMIO_QUEUE_READY, 1); (VIRTIO_MMIO_STATUS, Z.lor back VIRTIO_CONFIG_S_DRIVER_OK)]%Z) /\
  (exists f, (VIRTIO_MMIO_DRIVER_FEATURES, u32 f) ∈ ws /\ forall n, n ∈ refused -> Z.testbit f n = false).
Proof.
  unfold virtio_disk_init. intros H. repeat (case_match; try done). injection H as <- <-. split; [done|]. split.
  - match goal with |- context [?l = _] => exists (take 13 l) end. reflexivity.
  - exists (foldl refuse (reg VIRTIO_MMIO_DEVICE_FEATURES) refused). split; [do 3 right; by left|]. intros n Hn.
    assert (Forall (fun m => 0 <= m)%Z refused) as Hr by (by repeat constructor).
    apply refuse_bits; [done| |by left]. by apply (proj1 (Forall_forall _ _) Hr).
Qed.
