(* ===== verification/VirtioInv.v ===== *)
(** * The disk driver refines an atomic disk

    The invariant: the descriptors in use are the chains of the requests under
    way, each with the contents the device needs; each published request is in
    exactly one of the ring of available requests, the device, and the ring of
    used ones, with its status byte set in the last; the rings never overflow.
    From it: nothing the driver calls panics, the device never meets a chain
    it cannot read, no descriptor is lost, and every step is a step of the
    abstract disk or none. *)

From S2P Require Import Prelude Bytes Bio Virtio.

Local Open Scope nat_scope.

(** ** Rings of [NUM] entries with 16-bit counters *)
Definition rslot (n : Z) : nat := Z.to_nat (n `mod` Z.of_nat NUM).

Lemma rslot_u16 n : rslot (u16 n) = rslot n.
Proof.
  unfold rslot, u16. f_equal. change (Z.of_nat NUM) with 8%Z.
  apply Z.mod_mod_divide. by exists 8192%Z.
Qed.

Lemma rslot_lt n : rslot n < NUM.
Proof. unfold rslot. pose proof (Z.mod_pos_bound n (Z.of_nat NUM) ltac:(done)). change (Z.of_nat NUM) with 8%Z in *. unfold NUM. lia. Qed.

Lemma rslot_inj n a b : a < NUM -> b < NUM -> rslot (n + Z.of_nat a) = rslot (n + Z.of_nat b) -> a = b.
Proof.
  unfold rslot, NUM. change (Z.of_nat 8) with 8%Z. intros Ha Hb E.
  apply Z2Nat.inj in E; [|by apply Z.mod_pos_bound..]. Z.to_euclidean_division_equations. lia.
Qed.

Lemma u16_add n a : u16 (u16 n + a) = u16 (n + a).
Proof. unfold u16. by rewrite Zplus_mod_idemp_l. Qed.

Record ring_ok (ring : list nat) (lo hi : Z) (q : list nat) : Prop := {
  ro_hi : hi = u16 (lo + Z.of_nat (length q));
  ro_lo : u16 lo = lo;
  ro_len : length q <= NUM;
  ro_ring : length ring = NUM;
  ro_at : forall k v, q !! k = Some v -> ring !! rslot (lo + Z.of_nat k) = Some v
}.

Lemma ring_empty ring lo hi q : ring_ok ring lo hi q -> lo = hi <-> q = [].
Proof.
  intros [-> Hlo Hlen _ _]. unfold NUM in Hlen. split; intros E.
  - destruct q; [done|]. exfalso. simpl in *. unfold u16 in *. Z.to_euclidean_division_equations. lia.
  - subst q. simpl. by rewrite Z.add_0_r.
Qed.

Lemma ring_pop ring lo hi v q : ring_ok ring lo hi (v :: q) -> ring !! rslot lo = Some v /\ ring_ok ring (u16 (lo + 1)) hi q.
Proof.
  intros [Hhi Hlo Hlen Hr Hat]. split.
  - specialize (Hat 0 v eq_refl). by rewrite Z.add_0_r in Hat.
  - constructor; try done.
    + rewrite Hhi, u16_add. f_equal. simpl. lia.
    + unfold u16. by rewrite Zmod_mod.
    + simpl in Hlen. lia.
    + intros k w Hk. specialize (Hat (S k) w Hk). rewrite <-Hat. f_equal. rewrite <-rslot_u16, u16_add, rslot_u16. f_equal. lia.
Qed.

Lemma ring_write ring lo hi q v : ring_ok ring lo hi q -> length q < NUM -> ring_ok (<[rslot hi := v]> ring) lo hi q.
Proof.
  intros [Hhi Hlo Hlen Hr Hat] Hl. constructor; rewrite ?length_insert; try done.
  intros k w Hk. rewrite list_lookup_insert_ne; [by apply Hat|]. rewrite Hhi, rslot_u16. intros E.
  apply rslot_inj in E; [|done|apply lookup_lt_Some in Hk; lia]. apply lookup_lt_Some in Hk. lia.
Qed.

Lemma ring_publish ring lo hi q v : ring_ok ring lo hi q -> length q < NUM -> ring !! rslot hi = Some v ->
  ring_ok ring lo (u16 (hi + 1)) (q ++ [v]).
Proof.
  intros [Hhi Hlo Hlen Hr Hat] Hl Hv. constructor; rewrite ?length_app; try done; simpl; [|lia|].
  - rewrite Hhi, u16_add. f_equal. lia.
  - intros k w Hk. apply lookup_app_Some in Hk as [Hk|[Hk1 Hk2]]; [by apply Hat|].
    apply list_lookup_singleton_Some in Hk2 as [Hk2 <-]. rewrite <-Hv, Hhi, rslot_u16. do 3 f_equal. lia.
Qed.

(** ** Descriptors *)
Record sized (d : vdisk) : Prop := {
  sz_desc : length (v_desc d) = NUM;
  sz_free : length (v_free d) = NUM;
  sz_info : length (v_info d) = NUM;
  sz_ops : length (v_ops d) = NUM
}.

Lemma free_desc_ret d i : sized d -> v_free d !! i = Some false ->
  free_desc d i = Ret (set_free (set_desc d (<[i := null_desc]> (v_desc d))) (<[i := true]> (v_free d))).
Proof.
  intros [Hd Hf _ _] Hi. unfold free_desc. pose proof (lookup_lt_Some _ _ _ Hi) as Hlt. rewrite Hf in Hlt.
  rewrite (proj2 (Nat.leb_gt _ _)) by done. rewrite (load_ret _ _ _ Hi). cbn [obind].
  by rewrite !store_ret by lia.
Qed.

Lemma alloc_desc_spec d : sized d ->
  (alloc_desc d = (d, None) /\ forall k, v_free d !! k <> Some true) \/
  exists i, alloc_desc d = (set_free d (<[i := false]> (v_free d)), Some i) /\ v_free d !! i = Some true.
Proof.
  intros _. unfold alloc_desc. destruct (list_find _ _) as [[i f]|] eqn:E.
  - right. apply list_find_Some in E as (Hi & -> & _). eauto.
  - left. split; [done|]. intros k Hk. apply list_find_None in E. rewrite Forall_lookup in E. by apply (E k _ Hk).
Qed.

Lemma sized_free d i b : sized d -> sized (set_free d (<[i := b]> (v_free d))).
Proof. intros []. constructor; cbn; rewrite ?length_insert; done. Qed.

(** The same disk but for descriptors that are free. *)
Record same_used (d d' : vdisk) : Prop := {
  su_desc : forall k, v_free d !! k = Some false -> v_desc d' !! k = v_desc d !! k;
  su_rest : d' = set_desc d (v_desc d');
  su_len : length (v_desc d') = length (v_desc d)
}.

Lemma alloc3_spec d : sized d ->
  (exists d', alloc3_desc d = Ret (d', None) /\ same_used d d') \/
  exists x y z, alloc3_desc d = Ret (set_free d (<[z := false]> (<[y := false]> (<[x := false]> (v_free d)))), Some (x, y, z)) /\
    v_free d !! x = Some true /\ v_free d !! y = Some true /\ v_free d !! z = Some true /\ NoDup [x; y; z].
Proof.
  intros Hd. unfold alloc3_desc. destruct (alloc_desc_spec d Hd) as [[-> _]|(x & -> & Hx)].
  { left. eexists. split; [done|]. constructor; try done. by destruct d. }
  pose proof (sized_free d x false Hd) as Hd1. pose proof (lookup_lt_Some _ _ _ Hx) as Hlx.
  destruct (alloc_desc_spec _ Hd1) as [[-> _]|(y & -> & Hy)].
  { left. rewrite free_desc_ret by (done || cbn; by rewrite list_lookup_insert_eq). eexists. split; [done|].
    constructor; cbn; [| |by rewrite length_insert].
    2:{ unfold set_free, set_desc. cbn. by rewrite list_insert_insert_eq, (list_insert_id (v_free d)). }
    intros k Hk. rewrite list_lookup_insert_ne; [done|]. intros ->. congruence. }
  pose proof (sized_free _ y false Hd1) as Hd2. pose proof (lookup_lt_Some _ _ _ Hy) as Hly. cbn in Hy, Hly, Hd2.
  rewrite length_insert in Hly.
  assert (y <> x) as Hxy by (intros ->; by rewrite list_lookup_insert_eq in Hy). rewrite list_lookup_insert_ne in Hy by done.
  cbn [v_free set_free].
  destruct (alloc_desc_spec _ Hd2) as [[-> _]|(z & -> & Hz)].
  { left. cbn. rewrite free_desc_ret by (done || cbn; rewrite list_lookup_insert_ne, list_lookup_insert_eq by done; done).
    cbn [obind]. rewrite free_desc_ret.
    2:{ destruct Hd2. constructor; cbn in *; rewrite ?length_insert in *; done. }
    2:{ cbn. rewrite list_lookup_insert_ne, list_lookup_insert_eq by (done || rewrite length_insert; done). done. }
    eexists. split; [done|].
    assert (<[y:=true]> (<[x:=true]> (<[y:=false]> (<[x:=false]> (v_free d)))) = v_free d) as Hfr.
    { rewrite (list_insert_insert_ne _ x y) by done. rewrite list_insert_insert_eq.
      rewrite (list_insert_insert_eq (v_free d) x). rewrite (list_insert_id (v_free d) x) by done. by apply list_insert_id. }
    constructor; cbn; [|unfold set_free, set_desc; cbn; by rewrite Hfr|by rewrite !length_insert].
    intros k Hk. rewrite !list_lookup_insert_ne; [done|..]; intros ->; congruence. }
  right. exists x, y, z. split; [done|]. cbn in Hz.
  assert (z <> y) as Hyz by (intros ->; rewrite list_lookup_insert_eq in Hz; [done|by rewrite length_insert]).
  rewrite list_lookup_insert_ne in Hz by done.
  assert (z <> x) as Hxz by (intros ->; by rewrite list_lookup_insert_eq in Hz).
  rewrite list_lookup_insert_ne in Hz by done. split_and!; try done.
  repeat constructor; set_solver.
Qed.

(** ** Chains *)
Record chain_t := mk_chain { ch_b : nat; ch_w : bool; ch_x : nat; ch_y : nat; ch_z : nat }.

Definition chain (p : place) : option chain_t :=
  match p with Filled b w x y z | Wait b w x y z => Some (mk_chain b w x y z) | _ => None end.

Definition ids (c : chain_t) : list nat := [ch_x c; ch_y c; ch_z c].

(** The memory of a request: what [fill] wrote. *)
Record chain_ok (d : vdisk) (blockno : Z) (c : chain_t) : Prop := {
  co_nodup : NoDup (ids c);
  co_free : forall k, k ∈ ids c -> v_free d !! k = Some false;
  co_x : v_desc d !! ch_x c = Some (mk_desc (AOps (ch_x c)) 16 1 (ch_y c));
  co_y : v_desc d !! ch_y c = Some (mk_desc (AData (ch_b c)) 1024 (if ch_w c then 1 else 3) (ch_z c));
  co_z : v_desc d !! ch_z c = Some (mk_desc (AStatus (ch_x c)) 1 2 0);
  co_ops : v_ops d !! ch_x c = Some (mk_req (if ch_w c then 1 else 0) 0 (u32 (blockno * 2)));
  co_info : in_b <$> v_info d !! ch_x c = Some (Some (ch_b c))
}.

Lemma chain_frame d d' n c : chain_ok d n c ->
  (forall k, k ∈ ids c -> v_free d' !! k = v_free d !! k /\ v_desc d' !! k = v_desc d !! k) ->
  v_ops d' !! ch_x c = v_ops d !! ch_x c -> in_b <$> v_info d' !! ch_x c = in_b <$> v_info d !! ch_x c ->
  chain_ok d' n c.
Proof.
  intros [H1 H2 H3 H4 H5 H6 H7] Hk Ho Hi.
  constructor; rewrite ?Ho, ?Hi; try done.
  - intros k Hin. rewrite (proj1 (Hk k Hin)). auto.
  - by rewrite (proj2 (Hk (ch_x c) ltac:(set_solver))).
  - by rewrite (proj2 (Hk (ch_y c) ltac:(set_solver))).
  - by rewrite (proj2 (Hk (ch_z c) ltac:(set_solver))).
Qed.

Lemma chain_lt d n c k : chain_ok d n c -> sized d -> k ∈ ids c -> k < NUM.
Proof. intros Hc [_ <- _ _] Hk. eapply lookup_lt_Some. by apply (co_free _ _ _ Hc). Qed.

(** What the device reads. *)
Lemma read_chain_ok d n c : chain_ok d n c ->
  read_chain d (ch_x c) = Some (mk_request (if ch_w c then 1 else 0) (u32 (n * 2)) (ch_b c) 1024 (negb (ch_w c)) (ch_x c)).
Proof. intros [_ _ H3 H4 H5 H6 _]. unfold read_chain. rewrite H3, H4, H6, H5. by destruct (ch_w c). Qed.

Lemma fill_ok d bi b w x y z : sized d -> length (v_avail d) = NUM -> NoDup [x; y; z] ->
  (forall k, k ∈ [x; y; z] -> v_free d !! k = Some false) ->
  exists d', fill d bi b w x y z = Ret (d', mk_vbuf true (vb_blockno b) (vb_data b)) /\ sized d' /\
    chain_ok d' (vb_blockno b) (mk_chain bi w x y z) /\ v_free d' = v_free d /\
    v_info d' = <[x := mk_info (Some bi) 255]> (v_info d) /\ (forall k, k <> x -> v_ops d' !! k = v_ops d !! k) /\
    (forall k, k ∉ [x; y; z] -> v_desc d' !! k = v_desc d !! k) /\
    v_avail_idx d' = v_avail_idx d /\ v_avail d' = <[rslot (v_avail_idx d) := x]> (v_avail d) /\
    v_used_end d' = v_used_end d /\ v_used d' = v_used d /\ v_used_idx d' = v_used_idx d.
Proof.
  intros Hd Ha Hnd Hf. assert (forall k, k ∈ [x; y; z] -> k < NUM) as Hlt.
  { intros k Hk. rewrite <-(sz_free _ Hd). eapply lookup_lt_Some. by apply Hf. }
  pose proof (Hlt x ltac:(set_solver)) as Hx. pose proof (Hlt y ltac:(set_solver)) as Hy.
  pose proof (Hlt z ltac:(set_solver)) as Hz. destruct Hd as [Hd1 Hd2 Hd3 Hd4].
  assert (x <> y /\ x <> z /\ y <> z) as (Hxy & Hxz & Hyz).
  { apply NoDup_cons in Hnd as [H1 Hnd]. apply NoDup_cons in Hnd as [H2 _]. set_solver. }
  unfold fill. repeat (rewrite store_ret by (rewrite ?length_insert; first [lia|rewrite Ha; apply rslot_lt]); cbn [obind]).
  eexists. split; [done|]. split; [constructor; cbn; by rewrite ?length_insert|]. split.
  - constructor; cbn; try done.
    + rewrite (list_lookup_insert_ne _ z x), (list_lookup_insert_ne _ y x), list_lookup_insert_eq by (done || lia). done.
    + rewrite (list_lookup_insert_ne _ z y), list_lookup_insert_eq by (done || rewrite length_insert; lia). by destruct w.
    + by rewrite list_lookup_insert_eq by (rewrite !length_insert; lia).
    + rewrite list_lookup_insert_eq by lia. by destruct w.
    + by rewrite list_lookup_insert_eq by lia.
  - cbn. split_and!; try done.
    + intros k Hk. by rewrite list_lookup_insert_ne.
    + intros k Hk. rewrite !list_lookup_insert_ne; [done|..]; set_solver.
Qed.

(** [finish] frees the chain and nothing else. *)
Lemma finish_ok d n c : sized d -> chain_ok d n c ->
  exists d', finish d (ch_x c) = Ret d' /\ sized d' /\ v_ops d' = v_ops d /\
    (forall k, k ∈ ids c -> v_free d' !! k = Some true) /\
    (forall k, k ∉ ids c -> v_free d' !! k = v_free d !! k /\ v_desc d' !! k = v_desc d !! k /\ v_info d' !! k = v_info d !! k) /\
    v_avail_idx d' = v_avail_idx d /\ v_avail d' = v_avail d /\
    v_used_end d' = v_used_end d /\ v_used d' = v_used d /\ v_used_idx d' = v_used_idx d.
Proof.
  intros Hd Hc. pose proof (fun k Hk => chain_lt _ _ _ k Hc Hd Hk) as Hlt.
  pose proof (Hlt (ch_x c) ltac:(set_solver)) as Hx. pose proof (Hlt (ch_y c) ltac:(set_solver)) as Hy.
  pose proof (Hlt (ch_z c) ltac:(set_solver)) as Hz. destruct Hc as [Hnd Hf H3 H4 H5 _ H7].
  destruct c as [b w x y z]. unfold ids in *. cbn in *.
  assert (x <> y /\ x <> z /\ y <> z) as (Hxy & Hxz & Hyz).
  { apply NoDup_cons in Hnd as [H1 Hnd]. apply NoDup_cons in Hnd as [H2 _]. set_solver. }
  apply fmap_Some in H7 as (r & Hr & _). destruct Hd as [Hd1 Hd2 Hd3 Hd4].
  unfold finish. rewrite (load_ret _ _ _ Hr). cbn [obind]. rewrite store_ret by lia. change (S NUM) with 9.
  cbn [obind set_info v_desc v_free free_chain]. rewrite (load_ret _ _ _ H3). cbn [obind]. rewrite free_desc_ret; [|constructor; cbn; rewrite ?length_insert; done|cbn; set_solver].
  cbn [obind vd_flags vd_next set_free set_desc set_info v_desc v_free free_chain].
  change (Z.land 1 VRING_DESC_F_NEXT =? 0)%Z with false. cbn iota.
  rewrite (load_ret _ _ (mk_desc (AData b) 1024 (if w then 1 else 3) z)) by (by rewrite list_lookup_insert_ne).
  cbn [obind]. rewrite free_desc_ret; [|constructor; cbn; rewrite ?length_insert; done|cbn; rewrite list_lookup_insert_ne by done; set_solver].
  cbn [obind vd_flags vd_next set_free set_desc set_info v_desc v_free free_chain].
  replace (Z.land (if w then 1 else 3) VRING_DESC_F_NEXT =? 0)%Z with false by (by destruct w). cbn iota.
  rewrite (load_ret _ _ (mk_desc (AStatus x) 1 2 0)) by (by rewrite !list_lookup_insert_ne).
  cbn [obind]. rewrite free_desc_ret; [|constructor; cbn; rewrite ?length_insert; done|cbn; rewrite !list_lookup_insert_ne by done; set_solver].
  cbn [obind vd_flags vd_next set_free set_desc set_info v_desc v_free free_chain].
  change (Z.land 2 VRING_DESC_F_NEXT =? 0)%Z with true. cbn iota.
  eexists. split; [done|]. split; [constructor; cbn; by rewrite ?length_insert|]. cbn. split_and!; try done.
  - intros k Hk. rewrite !list_lookup_insert. rewrite !length_insert. assert (k < 8) by (apply Hlt in Hk; done).
    rewrite Hd2. change NUM with 8. repeat case_decide; try done; try lia. set_solver.
  - intros k Hk. rewrite !list_lookup_insert_ne; [done|..]; set_solver.
Qed.

(** ** The invariant *)
Definition waiting (s : machine) (h : nat) : Prop :=
  exists i b w y z, m_at s i = Wait b w h y z /\ vb_disk (m_buf s b) = true.

(** Where the published requests are: [qa] not yet fetched, [qu] not yet seen
    by the interrupt handler. *)
Record queue_ok (s : machine) (qa qu : list nat) : Prop := {
  q_avail : ring_ok (v_avail (m_disk s)) (dv_last (m_dev s)) (v_avail_idx (m_disk s)) qa;
  q_used : ring_ok (v_used (m_disk s)) (v_used_idx (m_disk s)) (v_used_end (m_disk s)) qu;
  q_nodup : NoDup (qa ++ dv_pending (m_dev s) ++ qu);
  q_in : forall h, h ∈ qa ++ dv_pending (m_dev s) ++ qu <-> waiting s h;
  q_todo : forall h, h ∈ qa ++ dv_pending (m_dev s) -> status (m_disk s) h = 255%Z;
  q_done : forall h, h ∈ qu -> status (m_disk s) h = 0%Z
}.

Record inv (s : machine) : Prop := {
  i_sized : sized (m_disk s);
  i_chain : forall i c, chain (m_at s i) = Some c -> chain_ok (m_disk s) (vb_blockno (m_buf s (ch_b c))) c;
  i_disj : forall i j c c' k, chain (m_at s i) = Some c -> chain (m_at s j) = Some c' -> k ∈ ids c -> k ∈ ids c' -> i = j;
  i_own : forall k, v_free (m_disk s) !! k = Some false -> exists i c, chain (m_at s i) = Some c /\ k ∈ ids c;
  i_use : forall i j b, uses (m_at s i) = Some b -> uses (m_at s j) = Some b -> i = j;
  i_buf : forall b, good_buf (vb_blockno (m_buf s b)) (vb_data (m_buf s b));
  i_sec : forall k, length (dv_sector (m_dev s) k) = 512;
  i_lock : forall i j b w x y z b' w' x' y' z', m_at s i = Filled b w x y z -> m_at s j = Filled b' w' x' y' z' -> i = j;
  i_handler : forall i b w x y z, m_at s i = Filled b w x y z -> m_handler s = false;
  i_filled : forall i b w x y z, m_at s i = Filled b w x y z ->
    v_avail (m_disk s) !! rslot (v_avail_idx (m_disk s)) = Some x /\ status (m_disk s) x = 255%Z /\ vb_disk (m_buf s b) = true;
  i_seen : forall i b w x y z, m_at s i = Wait b w x y z -> vb_disk (m_buf s b) = false -> status (m_disk s) x = 0%Z;
  i_queue : exists qa qu, queue_ok s qa qu
}.

(** The heads of the queue are descriptors; a further one fits the rings. *)
Lemma heads_bound (l : list nat) : NoDup l -> (forall h, h ∈ l -> h < NUM) -> length l <= NUM.
Proof.
  intros Hnd Hlt. rewrite <-(length_seq NUM 0). apply submseteq_length, NoDup_submseteq; [done|].
  intros h Hh. apply elem_of_seq. specialize (Hlt h Hh). lia.
Qed.

Lemma waiting_chain s h : waiting s h -> exists i c, chain (m_at s i) = Some c /\ ch_x c = h.
Proof. intros (i & b & w & y & z & Hi & _). exists i, (mk_chain b w h y z). by rewrite Hi. Qed.

Lemma waiting_lt s h : inv s -> waiting s h -> h < NUM.
Proof.
  intros Hinv Hw. destruct (waiting_chain s h Hw) as (i & c & Hc & <-).
  eapply chain_lt; [by apply (i_chain _ Hinv i)|apply Hinv|]. set_solver.
Qed.

(** A step that changes neither the disk nor the device nor a chain. *)
Lemma quiet_inv s bufs at' hd : inv s ->
  (forall i, chain (at' i) = chain (m_at s i)) ->
  (forall i b w x y z, at' i = Filled b w x y z <-> m_at s i = Filled b w x y z) ->
  (forall i b w x y z, at' i = Wait b w x y z <-> m_at s i = Wait b w x y z) ->
  (forall i j b, uses (at' i) = Some b -> uses (at' j) = Some b -> i = j) ->
  (forall b, good_buf (vb_blockno (bufs b)) (vb_data (bufs b)) /\ vb_disk (bufs b) = vb_disk (m_buf s b)) ->
  (forall i c, chain (m_at s i) = Some c -> bufs (ch_b c) = m_buf s (ch_b c)) ->
  (forall i b w x y z, m_at s i = Filled b w x y z -> hd = false) ->
  inv (mk_machine (m_disk s) bufs (m_dev s) at' hd).
Proof.
  intros [H1 H2 H3 H4 H5 H6 H7 H8 H9 H10 H11 (qa & qu & [Q1 Q2 Q3 Q4 Q5 Q6])] Hch Hfl Hwt Hus Hbf Hcb Hhd.
  constructor; cbn; try done.
  - intros i c. rewrite Hch. intros Hc. rewrite (Hcb i c Hc). eauto.
  - intros i j c c' k. rewrite !Hch. apply H3.
  - intros k Hk. destruct (H4 k Hk) as (i & c & Hc & Hin). exists i, c. by rewrite Hch.
  - intros b. apply Hbf.
  - intros i j b w x y z b' w' x' y' z'. rewrite !Hfl. apply H8.
  - intros i b w x y z. rewrite Hfl. apply Hhd.
  - intros i b w x y z. rewrite Hfl, (proj2 (Hbf b)). apply H10.
  - intros i b w x y z. rewrite Hwt, (proj2 (Hbf b)). apply H11.
  - exists qa, qu. constructor; cbn; try done. intros h. rewrite Q4. unfold waiting. cbn.
    split; intros (i & b & w & y & z & Hi & Hb); exists i, b, w, y, z; rewrite (proj2 (Hbf b)) in *; by rewrite Hwt in *.
Qed.

Lemma same_used_inv s d : inv s -> same_used (m_disk s) d ->
  inv (mk_machine d (m_buf s) (m_dev s) (m_at s) (m_handler s)).
Proof.
  intros [H1 H2 H3 H4 H5 H6 H7 H8 H9 H10 H11 (qa & qu & [Q1 Q2 Q3 Q4 Q5 Q6])] [Hds Hr Hl].
  constructor; cbn; try done; rewrite Hr; try done.
  - destruct H1. constructor; cbn; congruence.
  - intros i c Hc. specialize (H2 i c Hc). apply (chain_frame (m_disk s)); [done| |done|done].
    intros k Hk. split; [done|]. apply Hds. by apply (co_free _ _ _ H2).
  - exists qa, qu. by constructor.
Qed.

(** A new chain from free descriptors. *)
Lemma fill_inv s i b w x y z d' : inv s -> m_at s i = Alloc b w -> lock_free s ->
  v_free (m_disk s) !! x = Some true -> v_free (m_disk s) !! y = Some true -> v_free (m_disk s) !! z = Some true ->
  NoDup [x; y; z] ->
  let d := set_free (m_disk s) (<[z := false]> (<[y := false]> (<[x := false]> (v_free (m_disk s))))) in
  fill d b (m_buf s b) w x y z = Ret (d', mk_vbuf true (vb_blockno (m_buf s b)) (vb_data (m_buf s b))) ->
  inv (mk_machine d' (updf (m_buf s) b (mk_vbuf true (vb_blockno (m_buf s b)) (vb_data (m_buf s b)))) (m_dev s)
         (updf (m_at s) i (Filled b w x y z)) (m_handler s)) /\
  (forall k, k <> x -> status d' k = status (m_disk s) k).
Proof.
  intros Hinv Hat [Hh Hnf] Hx Hy Hz Hnd d Hfill.
  destruct Hinv as [H1 H2 H3 H4 H5 H6 H7 H8 H9 H10 H11 (qa & qu & [Q1 Q2 Q3 Q4 Q5 Q6])] eqn:E; clear E.
  assert (forall k, k ∈ [x; y; z] -> v_free (m_disk s) !! k = Some true) as Hfr by set_solver.
  assert (sized d) as Hd by (destruct H1; constructor; cbn; rewrite ?length_insert; done).
  assert (forall k, k ∈ [x; y; z] -> v_free d !! k = Some false) as Hfd.
  { intros k Hk. pose proof (lookup_lt_Some _ _ _ (Hfr k Hk)) as Hlt. cbn. rewrite !list_lookup_insert, !length_insert.
    repeat case_decide; try done; try lia. set_solver. }
  assert (forall k, k ∉ [x; y; z] -> v_free d !! k = v_free (m_disk s) !! k) as Hfo.
  { intros k Hk. cbn. rewrite !list_lookup_insert_ne; [done|..]; set_solver. }
  destruct (fill_ok d b (m_buf s b) w x y z Hd (ro_ring _ _ _ _ Q1) Hnd Hfd)
    as (d2 & Hf2 & Hsz & Hok & Ef & Ei & Eo & Ed & Eai & Ea & Eue & Eu & Eui).
  rewrite Hfill in Hf2. injection Hf2 as <-. cbn in Eo, Ed, Ei, Eai, Ea, Eue, Eu, Eui.
  assert (forall k, k <> x -> v_info d' !! k = v_info (m_disk s) !! k) as Hio by (intros k Hk; rewrite Ei; by rewrite list_lookup_insert_ne).
  assert (forall k, k <> x -> status d' k = status (m_disk s) k) as Hst by (intros k Hk; unfold status; by rewrite Hio).
  assert (forall j c k, j <> i -> chain (m_at s j) = Some c -> k ∈ ids c -> k ∉ [x; y; z]) as Hdis.
  { intros j c k Hj Hc Hk Hin. pose proof (co_free _ _ _ (H2 j c Hc) k Hk). specialize (Hfr k Hin). congruence. }
  assert (forall h, waiting s h -> h ∉ [x; y; z]) as Hwq.
  { intros h Hw. destruct (waiting_chain s h Hw) as (j & c & Hc & <-). apply (Hdis j c); [|done|set_solver].
    intros ->. by rewrite Hat in Hc. }
  assert (forall j b' w' x' y' z', j <> i -> m_at s j = Wait b' w' x' y' z' -> b' <> b) as Hnb.
  { intros j b' w' x' y' z' Hj Hw ->. apply Hj, (H5 j i b); [by rewrite Hw|by rewrite Hat]. }
  split; [|done]. constructor; cbn.
  - done.
  - intros j c Hc. destruct (decide (j = i)) as [->|Hj]; [rewrite updf_eq in Hc|rewrite updf_ne in Hc by done].
    + injection Hc as <-. cbn in *. by rewrite updf_eq.
    + assert (vb_blockno (updf (m_buf s) b (mk_vbuf true (vb_blockno (m_buf s b)) (vb_data (m_buf s b))) (ch_b c)) =
        vb_blockno (m_buf s (ch_b c))) as -> by (destruct (decide (ch_b c = b)) as [E|E]; [by rewrite E, updf_eq|by rewrite updf_ne]).
      assert (ch_x c <> x) as Hcx by (intros E; apply (Hdis j c x); [done..|rewrite <-E; set_solver|set_solver]).
      apply (chain_frame (m_disk s)); [by apply (H2 j)| |by apply Eo|by rewrite Hio].
      intros k Hk. pose proof (Hdis j c k Hj Hc Hk) as Hn. rewrite Ef, (Hfo k Hn), (Ed k Hn). done.
  - intros j j' c c' k Hc Hc' Hk Hk'. updf_cases; try done.
    + injection Hc' as <-. destruct (Hdis j c k); done.
    + injection Hc as <-. destruct (Hdis j' c' k); done.
    + by eapply (H3 j j').
  - intros k Hk. rewrite Ef in Hk. destruct (decide (k ∈ [x; y; z])) as [Hin|Hn].
    + exists i, (mk_chain b w x y z). by rewrite updf_eq.
    + rewrite Hfo in Hk by done. destruct (H4 k Hk) as (j & c & Hc & Hin). exists j, c. rewrite updf_ne; [done|].
      intros ->. by rewrite Hat in Hc.
  - assert (forall k, uses (updf (m_at s) i (Filled b w x y z) k) = uses (m_at s k)) as Hus.
    { intros k. updf_cases; [by rewrite Hat|done]. }
    intros j j' b'. rewrite !Hus. apply H5.
  - intros b'. updf_cases; apply H6.
  - done.
  - intros j j' b0 w0 x0 y0 z0 b1 w1 x1 y1 z1 Hj Hj'. updf_cases; try done; exfalso; by eapply Hnf.
  - intros j b0 w0 x0 y0 z0 _. done.
  - intros j b0 w0 x0 y0 z0 Hj. destruct (decide (j = i)) as [->|Hji];
      [rewrite updf_eq in Hj|rewrite updf_ne in Hj by done; exfalso; by eapply Hnf].
    injection Hj as <- <- <- <- <-. rewrite updf_eq. rewrite Eai, Ea. rewrite list_lookup_insert_eq by (rewrite (ro_ring _ _ _ _ Q1); apply rslot_lt). split; [done|].
    unfold status. rewrite Ei, list_lookup_insert_eq; [done|]. rewrite (sz_info _ H1), <-(sz_free _ H1). by eapply lookup_lt_Some.
  - intros j b0 w0 x0 y0 z0 Hj Hb. destruct (decide (j = i)) as [->|Hji]; [by rewrite updf_eq in Hj|rewrite updf_ne in Hj by done].
    rewrite updf_ne in Hb by (by eapply Hnb).
    rewrite Hst; [by eapply H11|]. intros ->. apply (Hdis j (mk_chain b0 w0 x y0 z0) x); [done|by rewrite Hj|set_solver|set_solver].
  - assert (forall h, h ∈ qa ++ dv_pending (m_dev s) ++ qu -> h ∉ [x; y; z]) as Hq by (intros h Hin; by apply Hwq, Q4).
    exists qa, qu. constructor; cbn; rewrite ?Eai, ?Ea, ?Eue, ?Eu, ?Eui; try done.
    + apply ring_write; [done|]. assert (NoDup (x :: qa)) as Hxq.
      { apply NoDup_cons. split; [|by apply NoDup_app in Q3 as [? _]]. intros Hin. apply (Hq x); set_solver. }
      apply heads_bound in Hxq; [simpl in Hxq; lia|]. intros h [->|Hin]%elem_of_cons.
      * rewrite <-(sz_free _ H1). by eapply lookup_lt_Some.
      * apply (waiting_lt s); [by constructor; eauto using Build_queue_ok|]. apply Q4. set_solver.
    + intros h. rewrite Q4. unfold waiting. cbn. split; intros (j & b' & w' & y' & z' & Hj & Hb').
      * assert (j <> i) as Hji by (intros ->; congruence). exists j, b', w', y', z'. rewrite updf_ne by done. split; [done|].
        rewrite updf_ne; [done|by eapply Hnb].
      * destruct (decide (j = i)) as [->|Hji]; [by rewrite updf_eq in Hj|rewrite updf_ne in Hj by done].
        rewrite updf_ne in Hb' by (by eapply Hnb). by exists j, b', w', y', z'.
    + intros h Hin. rewrite Hst; [by apply Q5|]. intros ->. apply (Hq x); set_solver.
    + intros h Hin. rewrite Hst; [by apply Q6|]. intros ->. apply (Hq x); set_solver.
Qed.

(** The request enters the queue. *)
Lemma publish_inv s i b w x y z : inv s -> m_at s i = Filled b w x y z ->
  inv (mk_machine (publish (m_disk s)) (m_buf s) (m_dev s) (updf (m_at s) i (Wait b w x y z)) (m_handler s)).
Proof.
  intros Hinv Hat. destruct (i_queue _ Hinv) as (qa & qu & [Q1 Q2 Q3 Q4 Q5 Q6]).
  destruct (i_filled _ Hinv _ _ _ _ _ _ Hat) as (Hring & Hst & Hdb).
  set (f := updf (m_at s) i (Wait b w x y z)).
  assert (forall j, chain (f j) = chain (m_at s j)) as Hch by (intros j; unfold f; updf_cases; [by rewrite Hat|done]).
  assert (forall j, uses (f j) = uses (m_at s j)) as Hus by (intros j; unfold f; updf_cases; [by rewrite Hat|done]).
  assert (forall j b' w' x' y' z', f j <> Filled b' w' x' y' z') as Hnf.
  { intros j b' w' x' y' z' Hj. unfold f in Hj. updf_cases; [done|]. assert (j = i); [|done].
    eapply (i_lock _ Hinv); done. }
  assert (~ waiting s x) as Hnw.
  { intros (j & b' & w' & y' & z' & Hj & _). assert (j = i); [|congruence].
    apply (i_disj _ Hinv j i (mk_chain b' w' x y' z') (mk_chain b w x y z) x); rewrite ?Hj, ?Hat; set_solver. }
  destruct Hinv as [H1 H2 H3 H4 H5 H6 H7 H8 H9 H10 H11 H12] eqn:E; clear E.
  constructor; cbn; try done.
  - by destruct H1.
  - intros j c. rewrite Hch. intros Hc. apply (chain_frame (m_disk s)); [by apply (H2 j)|done..].
  - intros j j' c c' k. rewrite !Hch. apply H3.
  - intros k Hk. destruct (H4 k Hk) as (j & c & Hc). exists j, c. by rewrite Hch.
  - intros j j' b'. rewrite !Hus. apply H5.
  - intros j j' b0 w0 x0 y0 z0 b1 w1 x1 y1 z1 Hj. by destruct (Hnf j b0 w0 x0 y0 z0).
  - intros j b0 w0 x0 y0 z0 Hj. by destruct (Hnf j b0 w0 x0 y0 z0).
  - intros j b0 w0 x0 y0 z0 Hj. by destruct (Hnf j b0 w0 x0 y0 z0).
  - intros j b0 w0 x0 y0 z0 Hj Hb. unfold f in Hj. updf_cases; [congruence|by eapply H11].
  - exists (qa ++ [x]), qu. assert (qa ++ [x] ++ dv_pending (m_dev s) ++ qu ≡ₚ x :: qa ++ dv_pending (m_dev s) ++ qu) as Hperm
      by (simpl; by rewrite <-Permutation_middle).
    assert (NoDup (x :: qa ++ dv_pending (m_dev s) ++ qu)) as Hnd by (apply NoDup_cons; by rewrite Q4).
    constructor; cbn; try done.
    + apply ring_publish; [done| |done]. assert (NoDup (x :: qa)) as Hx.
      { apply (NoDup_app (x :: qa) (dv_pending (m_dev s) ++ qu)) in Hnd. tauto. }
      apply heads_bound in Hx; [simpl in Hx; lia|]. intros h [->|Hin]%elem_of_cons.
      * apply (chain_lt (m_disk s) (vb_blockno (m_buf s b)) (mk_chain b w x y z)); [|done|set_solver].
        apply (H2 i (mk_chain b w x y z)). by rewrite Hat.
      * apply (waiting_lt s); [done|]. apply Q4. set_solver.
    + rewrite <-app_assoc. by rewrite Hperm.
    + intros h. rewrite <-app_assoc, Hperm, elem_of_cons, Q4. unfold waiting. cbn. unfold f. split.
      * intros [->|(j & b' & w' & y' & z' & Hj & Hb')].
        { exists i, b, w, y, z. by rewrite updf_eq. }
        exists j, b', w', y', z'. rewrite updf_ne; [done|]. intros ->. congruence.
      * intros (j & b' & w' & y' & z' & Hj & Hb'). updf_cases; [left; congruence|right]. by exists j, b', w', y', z'.
    + intros h. rewrite !elem_of_app, list_elem_of_singleton. intros [[?| ->]|?]; [|done|]; apply Q5; set_solver.
Qed.

(** A finished request gives its descriptors back. *)
Lemma finish_inv s i b w x y z d : inv s -> m_at s i = Wait b w x y z -> lock_free s -> vb_disk (m_buf s b) = false ->
  finish (m_disk s) x = Ret d ->
  inv (mk_machine d (m_buf s) (m_dev s) (updf (m_at s) i Idle) (m_handler s)) /\
  (forall k, k ∉ [x; y; z] -> status d k = status (m_disk s) k).
Proof.
  intros Hinv Hat [Hh Hnf] Hdb Hfin. pose proof Hinv as [H1 H2 H3 H4 H5 H6 H7 H8 H9 H10 H11 (qa & qu & [Q1 Q2 Q3 Q4 Q5 Q6])].
  assert (chain (m_at s i) = Some (mk_chain b w x y z)) as Hci by (by rewrite Hat).
  destruct (finish_ok _ _ _ H1 (H2 i _ Hci)) as (d2 & Hf2 & Hsz & Eo & Ef & En & Eai & Ea & Eue & Eu & Eui).
  cbn in Hf2, Ef, En. rewrite Hfin in Hf2. injection Hf2 as <-. unfold ids in Ef, En. cbn in Ef, En.
  assert (forall k, k ∉ [x; y; z] -> status d k = status (m_disk s) k) as Hst.
  { intros k Hk. unfold status. by destruct (En k Hk) as (_ & _ & ->). }
  assert (forall j c k, j <> i -> chain (m_at s j) = Some c -> k ∈ ids c -> k ∉ [x; y; z]) as Hdis.
  { intros j c k Hj Hc Hk Hin. apply Hj. by apply (H3 j i c _ k Hc Hci). }
  assert (forall h, waiting s h -> h ∉ [x; y; z]) as Hwq.
  { intros h (j & b' & w' & y' & z' & Hj & Hb'). apply (Hdis j (mk_chain b' w' h y' z')); [|by rewrite Hj|set_solver].
    intros ->. congruence. }
  split; [|done]. constructor; cbn; try done.
  - intros j c Hc. updf_cases; [done|]. apply (chain_frame (m_disk s)); [by apply (H2 j)| |by rewrite Eo|].
    + intros k Hk. destruct (En k (Hdis j c k ltac:(done) Hc Hk)) as (-> & -> & _). done.
    + destruct (En (ch_x c)) as (_ & _ & ->); [|done]. apply (Hdis j c); [done..|set_solver].
  - intros j j' c c' k Hc Hc'. updf_cases; try done. by apply H3.
  - intros k Hk. destruct (decide (k ∈ [x; y; z])) as [Hin|Hn]; [by rewrite (Ef k Hin) in Hk|].
    destruct (En k Hn) as (E & _). rewrite E in Hk. destruct (H4 k Hk) as (j & c & Hc & Hin). exists j, c.
    rewrite updf_ne; [done|]. intros ->. rewrite Hci in Hc. injection Hc as <-. done.
  - intros j j' b' Hj Hj'. updf_cases; try done. by eapply H5.
  - intros j j' b0 w0 x0 y0 z0 b1 w1 x1 y1 z1 Hj Hj'. updf_cases; try done. by eapply H8.
  - intros j b0 w0 x0 y0 z0 Hj. updf_cases; [done|]. exfalso. by eapply Hnf.
  - intros j b0 w0 x0 y0 z0 Hj Hb. updf_cases; [done|]. rewrite Hst; [by eapply H11|].
    apply (Hdis j (mk_chain b0 w0 x0 y0 z0)); [done|by rewrite Hj|set_solver].
  - exists qa, qu. constructor; cbn; rewrite ?Eai, ?Ea, ?Eue, ?Eu, ?Eui; try done.
    + intros h. rewrite Q4. unfold waiting. cbn. split; intros (j & b' & w' & y' & z' & Hj & Hb'); exists j, b', w', y', z'.
      * rewrite updf_ne; [done|]. intros ->. congruence.
      * updf_cases; done.
    + intros h Hin. rewrite Hst; [by apply Q5|]. apply Hwq, Q4. set_solver.
    + intros h Hin. rewrite Hst; [by apply Q6|]. apply Hwq, Q4. set_solver.
Qed.

(** A round of the interrupt handler: it finds the request that the ring
    says, done, and its buffer. *)
Lemma intr_round_ok s : inv s ->
  (intr_round (m_disk s) = Ret None /\ v_used_idx (m_disk s) = v_used_end (m_disk s)) \/
  exists i b w x y z qa qu, m_at s i = Wait b w x y z /\ vb_disk (m_buf s b) = true /\ queue_ok s qa (x :: qu) /\
    intr_round (m_disk s) = Ret (Some (set_used_idx (m_disk s) (u16 (v_used_idx (m_disk s) + 1)), b)).
Proof.
  intros Hinv. destruct (i_queue _ Hinv) as (qa & qu & Hq). pose proof (q_used _ _ _ Hq) as Q2.
  destruct qu as [|x qu].
  - left. pose proof (proj2 (ring_empty _ _ _ _ Q2) eq_refl) as E. unfold intr_round. by rewrite E, Z.eqb_refl.
  - right. pose proof (q_in _ _ _ Hq x) as Hin. destruct (proj1 Hin) as (i & b & w & y & z & Hi & Hb); [set_solver|].
    exists i, b, w, x, y, z, qa, qu. split_and!; [done..|]. unfold intr_round.
    rewrite (proj2 (Z.eqb_neq _ _)) by (intros E; by apply (ring_empty _ _ _ _ Q2) in E).
    destruct (ring_pop _ _ _ _ _ Q2) as [Hx _]. unfold rslot in Hx. rewrite (load_ret _ _ _ Hx). cbn [obind].
    assert (chain (m_at s i) = Some (mk_chain b w x y z)) as Hc by (by rewrite Hi).
    pose proof (co_info _ _ _ (i_chain _ Hinv i _ Hc)) as Hinf. cbn in Hinf. apply fmap_Some in Hinf as (r & Hr & Hrb).
    rewrite (load_ret _ _ _ Hr). cbn [obind]. pose proof (q_done _ _ _ Hq x ltac:(set_solver)) as Hst.
    unfold status in Hst. rewrite Hr in Hst. cbn in Hst. by rewrite Hst, <-Hrb.
Qed.

Lemma waiting_one s i j b b' w w' y y' z z' h : inv s -> m_at s i = Wait b w h y z -> m_at s j = Wait b' w' h y' z' -> i = j.
Proof.
  intros Hinv Hi Hj.
  apply (i_disj _ Hinv i j (mk_chain b w h y z) (mk_chain b' w' h y' z') h); rewrite ?Hi, ?Hj; set_solver.
Qed.

Lemma round_inv s i b w x y z qa qu : inv s -> m_handler s = true -> m_at s i = Wait b w x y z -> queue_ok s qa (x :: qu) ->
  inv (mk_machine (set_used_idx (m_disk s) (u16 (v_used_idx (m_disk s) + 1)))
    (updf (m_buf s) b (mk_vbuf false (vb_blockno (m_buf s b)) (vb_data (m_buf s b)))) (m_dev s) (m_at s) true).
Proof.
  intros Hinv Hh Hat [Q1 Q2 Q3 Q4 Q5 Q6]. pose proof Hinv as [H1 H2 H3 H4 H5 H6 H7 H8 H9 H10 H11 _].
  set (bufs := updf _ _ _).
  assert (forall k, vb_blockno (bufs k) = vb_blockno (m_buf s k) /\ vb_data (bufs k) = vb_data (m_buf s k)) as Hsame
    by (intros k; unfold bufs; updf_cases; done).
  assert (forall j b' w' x' y' z', m_at s j = Wait b' w' x' y' z' -> j <> i -> bufs b' = m_buf s b') as Hother.
  { intros j b' w' x' y' z' Hj Hne. unfold bufs. apply updf_ne. intros ->. apply Hne. apply (H5 j i b); [by rewrite Hj|by rewrite Hat]. }
  constructor; cbn; try done.
  - by destruct H1.
  - intros j c Hc. rewrite (proj1 (Hsame _)). apply (chain_frame (m_disk s)); [by apply (H2 j)|done..].
  - intros k. destruct (Hsame k) as [-> ->]. apply H6.
  - intros j b' w' x' y' z' Hj. apply H9 in Hj. congruence.
  - intros j b' w' x' y' z' Hj. apply H9 in Hj. congruence.
  - intros j b' w' x' y' z' Hj Hb. destruct (decide (j = i)) as [->|Hne].
    + rewrite Hat in Hj. injection Hj as <- <- <- <- <-. apply Q6. set_solver.
    + rewrite (Hother j b' w' x' y' z' Hj Hne) in Hb. by eapply H11.
  - exists qa, qu. destruct (ring_pop _ _ _ _ _ Q2) as [_ Q2'].
    assert ((x ∉ qa ++ dv_pending (m_dev s) ++ qu) /\ NoDup (qa ++ dv_pending (m_dev s) ++ qu)) as [Hx Hnd].
    { rewrite !app_assoc in Q3. rewrite !app_assoc. rewrite <-Permutation_middle in Q3. by apply NoDup_cons in Q3. }
    constructor; cbn; try done; [|set_solver].
    intros h. unfold waiting. cbn. split.
    + intros Hin. destruct (proj1 (Q4 h)) as (j & b' & w' & y' & z' & Hj & Hb'); [set_solver|]. exists j, b', w', y', z'.
      split; [done|]. rewrite (Hother j b' w' h y' z' Hj); [done|]. intros ->. rewrite Hat in Hj. naive_solver.
    + intros (j & b' & w' & y' & z' & Hj & Hb'). destruct (decide (j = i)) as [->|Hne].
      * rewrite Hat in Hj. injection Hj as <- <- <- <- <-. unfold bufs in Hb'. by rewrite updf_eq in Hb'.
      * rewrite (Hother j b' w' h y' z' Hj Hne) in Hb'. assert (h <> x) as Hhx.
        { intros ->. apply Hne. by eapply waiting_one. }
        assert (h ∈ qa ++ dv_pending (m_dev s) ++ (x :: qu)) as Hin by (apply Q4; by exists j, b', w', y', z'). set_solver.
Qed.

(** The device fetches a request. *)
Lemma fetch_inv s v : inv s -> dev_fetch (m_disk s) (m_dev s) = Some v ->
  inv (mk_machine (m_disk s) (m_buf s) v (m_at s) (m_handler s)) /\ dv_sector v = dv_sector (m_dev s).
Proof.
  intros [H1 H2 H3 H4 H5 H6 H7 H8 H9 H10 H11 (qa & qu & [Q1 Q2 Q3 Q4 Q5 Q6])] Hf. unfold dev_fetch in Hf.
  destruct (Z.eqb_spec (dv_last (m_dev s)) (v_avail_idx (m_disk s))) as [|Hne]; [done|].
  destruct qa as [|h qa]; [by destruct Hne; apply (ring_empty _ _ _ _ Q1)|].
  destruct (ring_pop _ _ _ _ _ Q1) as [Hh Q1']. unfold rslot in Hh. rewrite Hh in Hf. injection Hf as <-.
  split; [|done]. constructor; cbn; try done. exists qa, qu.
  assert (qa ++ (dv_pending (m_dev s) ++ [h]) ++ qu ≡ₚ (h :: qa) ++ dv_pending (m_dev s) ++ qu) as Hp.
  { rewrite <-app_assoc. simpl. rewrite <-Permutation_middle. by rewrite <-Permutation_middle. }
  constructor; cbn; try done.
  - by rewrite Hp.
  - intros k. rewrite Hp. apply Q4.
  - intros k Hk. apply Q5. set_solver.
Qed.

(** ** The transfer *)
Lemma sector_u32 n : (0 <= n < 2147483648)%Z -> u32 (n * 2) = (2 * n)%Z.
Proof. intros. unfold u32. rewrite Z.mod_small; lia. Qed.

Lemma read_block st n : read_sectors st (2 * n) 2 = st (2 * n)%Z ++ st (2 * n + 1)%Z.
Proof. cbn [read_sectors]. by rewrite app_nil_r. Qed.

Lemma write_two_sectors st n data : length data = BSIZE ->
  (forall k, k <> (2 * n)%Z -> k <> (2 * n + 1)%Z -> write_sectors st (2 * n) 2 data k = st k) /\
  write_sectors st (2 * n) 2 data (2 * n)%Z = take 512 data /\
  write_sectors st (2 * n) 2 data (2 * n + 1)%Z = drop 512 data.
Proof.
  intros Hl. cbn [write_sectors]. split_and!.
  - intros k H1 H2. by rewrite !(proj2 (Z.eqb_neq _ _)).
  - rewrite (proj2 (Z.eqb_neq (2 * n) (2 * n + 1))) by lia. by rewrite Z.eqb_refl.
  - rewrite Z.eqb_refl. apply take_ge. rewrite length_drop, Hl. unfold BSIZE. lia.
Qed.

Local Arguments write_sectors : simpl never.

(** What a request of block [n] does. *)
Lemma transfer_ok (st : Z -> bytes) n (w : bool) data b x : (0 <= n < 2147483648)%Z -> length data = BSIZE ->
  transfer (mk_request (if w then 1 else 0) (u32 (n * 2)) b 1024 (negb w) x) st data =
    Some (if w then write_sectors st (2 * n) 2 data else st, if w then data else st (2 * n)%Z ++ st (2 * n + 1)%Z).
Proof.
  intros Hn Hl. unfold transfer. cbn. rewrite sector_u32 by done. destruct w; cbn; [done|].
  change (Z.to_nat (1024 / 512)) with 2. by rewrite read_block.
Qed.

(** The device completes a request it has fetched. *)
Lemma complete_ok s h p1 p2 : inv s -> dv_pending (m_dev s) = p1 ++ h :: p2 ->
  exists i b w y z d, m_at s i = Wait b w h y z /\ status (m_disk s) h = 255%Z /\
    read_chain (m_disk s) h = Some (mk_request (if w then 1 else 0) (u32 (vb_blockno (m_buf s b) * 2)) b 1024 (negb w) h) /\
    complete (m_disk s) h (mk_request (if w then 1 else 0) (u32 (vb_blockno (m_buf s b) * 2)) b 1024 (negb w) h) = Ret d /\
    v_info d = <[h := mk_info (Some b) 0]> (v_info (m_disk s)) /\
    d = set_used (set_info (m_disk s) (v_info d)) (u16 (v_used_end (m_disk s) + 1))
          (<[rslot (v_used_end (m_disk s)) := h]> (v_used (m_disk s))).
Proof.
  intros Hinv Hp. destruct (i_queue _ Hinv) as (qa & qu & [Q1 Q2 Q3 Q4 Q5 Q6]).
  destruct (proj1 (Q4 h)) as (i & b & w & y & z & Hi & Hb); [rewrite Hp; set_solver|].
  assert (chain (m_at s i) = Some (mk_chain b w h y z)) as Hc by (by rewrite Hi).
  pose proof (i_chain _ Hinv i _ Hc) as Hok. pose proof (read_chain_ok _ _ _ Hok) as Hr. cbn in Hr.
  pose proof (co_info _ _ _ Hok) as Hinf. cbn in Hinf. apply fmap_Some in Hinf as (r & Hri & Hrb).
  eexists i, b, w, y, z, _. split; [done|]. split; [apply Q5; rewrite Hp; set_solver|]. split; [done|].
  unfold complete. cbn [r_status]. rewrite (load_ret _ _ _ Hri). cbn [obind]. rewrite <-Hrb.
  rewrite store_ret by (by eapply lookup_lt_Some). cbn [obind].
  rewrite store_ret by (rewrite (ro_ring _ _ _ _ Q2); apply rslot_lt). cbn [obind]. done.
Qed.

Lemma complete_inv s i b w h y z p1 p2 d bufs st : inv s -> dv_pending (m_dev s) = p1 ++ h :: p2 ->
  m_at s i = Wait b w h y z ->
  v_info d = <[h := mk_info (Some b) 0]> (v_info (m_disk s)) ->
  d = set_used (set_info (m_disk s) (v_info d)) (u16 (v_used_end (m_disk s) + 1))
        (<[rslot (v_used_end (m_disk s)) := h]> (v_used (m_disk s))) ->
  (forall k, vb_disk (bufs k) = vb_disk (m_buf s k) /\ vb_blockno (bufs k) = vb_blockno (m_buf s k) /\ length (vb_data (bufs k)) = BSIZE) ->
  (forall k, length (st k) = 512) ->
  inv (mk_machine d bufs (mk_dev (dv_last (m_dev s)) (p1 ++ p2) st) (m_at s) (m_handler s)) /\
  status d h = 0%Z /\ (forall k, k <> h -> status d k = status (m_disk s) k).
Proof.
  intros Hinv Hp Hat Hi Hd Hbf Hst'. pose proof Hinv as [H1 H2 H3 H4 H5 H6 H7 H8 H9 H10 H11 (qa & qu & [Q1 Q2 Q3 Q4 Q5 Q6])].
  assert (chain (m_at s i) = Some (mk_chain b w h y z)) as Hc by (by rewrite Hat).
  pose proof (co_info _ _ _ (H2 i _ Hc)) as Hinf. cbn in Hinf.
  assert (h < length (v_info (m_disk s))) as Hlt by (apply fmap_Some in Hinf as (? & ? & _); by eapply lookup_lt_Some).
  assert (forall k, k <> h -> v_info d !! k = v_info (m_disk s) !! k) as Hio by (intros k Hk; rewrite Hi; by rewrite list_lookup_insert_ne).
  assert (status d h = 0%Z) as Hh by (unfold status; by rewrite Hi, list_lookup_insert_eq).
  assert (forall k, k <> h -> status d k = status (m_disk s) k) as Hst by (intros k Hk; unfold status; by rewrite Hio).
  assert (NoDup (qa ++ (p1 ++ h :: p2) ++ qu)) as Hnd by (by rewrite <-Hp).
  assert (qa ++ (p1 ++ p2) ++ qu ++ [h] ≡ₚ qa ++ (p1 ++ h :: p2) ++ qu) as Hperm by solve_Permutation.
  assert (h ∉ qa ++ (p1 ++ p2) ++ qu) as Hnin.
  { rewrite <-Hperm in Hnd. rewrite !app_assoc in Hnd. apply NoDup_app in Hnd as (_ & Hn & _). intros Hin.
    apply (Hn h); set_solver. }
  assert (forall j b' w' x' y' z', m_at s j = Filled b' w' x' y' z' -> x' <> h) as Hfh.
  { intros j b' w' x' y' z' Hj ->. assert (j = i); [|congruence].
    apply (H3 j i (mk_chain b' w' h y' z') (mk_chain b w h y z) h); rewrite ?Hj; set_solver. }
  split; [|done]. constructor; cbn; try done.
  - destruct H1. rewrite Hd. constructor; cbn; try done. by rewrite Hi, length_insert.
  - intros j c Hcj. destruct (Hbf (ch_b c)) as (_ & -> & _).
    apply (chain_frame (m_disk s)); [by apply (H2 j)|by rewrite Hd|by rewrite Hd|].
    destruct (decide (ch_x c = h)) as [E|E]; [|by rewrite Hio].
    rewrite E, Hi, list_lookup_insert_eq by done. cbn. rewrite Hinf.
    assert (j = i) as -> by (apply (H3 j i c _ h Hcj Hc); set_solver). rewrite Hc in Hcj. by injection Hcj as <-.
  - rewrite Hd. apply H4.
  - intros k. destruct (Hbf k) as (_ & -> & ?). split; [apply H6|done].
  - intros j b' w' x' y' z' Hj. destruct (Hbf b') as (-> & _ & _). rewrite Hst by (by eapply Hfh).
    destruct (H10 _ _ _ _ _ _ Hj) as (? & ? & ?). by rewrite Hd.
  - intros j b' w' x' y' z' Hj. destruct (Hbf b') as (-> & _ & _). intros Hb. destruct (decide (x' = h)) as [->|E]; [done|].
    rewrite Hst by done. by eapply H11.
  - exists qa, (qu ++ [h]). constructor; cbn.
    + by rewrite Hd.
    + rewrite Hd. cbn. assert (length qu < NUM) as Hq.
      { assert (NoDup (h :: qu)) as Hhq.
        { apply NoDup_cons. split; [set_solver|]. rewrite app_assoc in Hnd. by apply NoDup_app in Hnd as (_ & _ & ?). }
        apply heads_bound in Hhq; [simpl in Hhq; lia|]. intros k Hk. apply (waiting_lt s); [done|]. apply Q4. rewrite Hp. set_solver. }
      apply ring_publish; [by apply ring_write|done|].
      rewrite list_lookup_insert_eq; [done|]. rewrite (ro_ring _ _ _ _ Q2). apply rslot_lt.
    + by rewrite Hperm.
    + intros k. rewrite Hperm, <-Hp, Q4. unfold waiting. cbn. split; intros (j & b' & w' & y' & z' & Hj & Hb');
        exists j, b', w', y', z'; destruct (Hbf b') as (E & _); (split; [done|congruence]).
    + intros k Hk. rewrite Hst; [apply Q5; rewrite Hp; set_solver|]. intros ->. apply Hnin. set_solver.
    + intros k Hk. destruct (decide (k = h)) as [->|E]; [done|]. rewrite Hst by done. apply Q6. set_solver.
Qed.

(** ** All steps *)
(** What the transfer leaves: buffers and sectors of the right size. *)
Lemma transfer_sizes s b (w : bool) st data : inv s ->
  transfer (mk_request (if w then 1 else 0) (u32 (vb_blockno (m_buf s b) * 2)) b 1024 (negb w) 0) (dv_sector (m_dev s))
    (vb_data (m_buf s b)) = Some (st, data) -> (forall k, length (st k) = 512) /\ length data = BSIZE.
Proof.
  intros Hinv Ht. destruct (i_buf _ Hinv b) as [Hn Hl]. pose proof (i_sec _ Hinv) as Hs.
  rewrite transfer_ok in Ht by done. apply (inj Some), pair_equal_spec in Ht as [<- <-].
  destruct w; [|split; [done|by rewrite length_app, !Hs]].
  split; [|done]. intros k. destruct (write_two_sectors (dv_sector (m_dev s)) (vb_blockno (m_buf s b)) _ Hl) as (E1 & E2 & E3).
  destruct (decide (k = 2 * vb_blockno (m_buf s b))%Z) as [->|]; [rewrite E2, length_take, Hl; done|].
  destruct (decide (k = 2 * vb_blockno (m_buf s b) + 1)%Z) as [->|]; [rewrite E3, length_drop, Hl; done|]. by rewrite E1.
Qed.

Lemma disk_step_inv s s' : inv s -> step s s' -> inv s'.
Proof.
  intros Hinv Hstep. destruct Hstep as [s i b w Hat Hb|s i b w d Hat Hl Ha|s i b w x y z d d' vb Hat Hl Ha Hf|s i b w x y z Hat
    |s i b w x y z d Hat Hl Hb Hf|s Hl|s d b Hh Hr|s Hh Hr|s v Hf|s h p1 p2 r st data d Hp Hr Ht Hc|s b n data Hb Hg].
  - apply quiet_inv; try done.
    + intros j. updf_cases; [by rewrite Hat|done].
    + intros j b' w' x' y' z'. updf_cases; [by rewrite Hat|done].
    + intros j b' w' x' y' z'. updf_cases; [by rewrite Hat|done].
    + intros j j' b' Hj Hj'. updf_cases; try done; [injection Hj' as <-|injection Hj as <-|by eapply (i_use _ Hinv)];
        exfalso; by eapply Hb.
    + intros b'. split; [apply Hinv|done].
    + intros j b' w' x' y' z' Hj. by eapply (i_handler _ Hinv).
  - destruct (alloc3_spec _ (i_sized _ Hinv)) as [(d' & E & Hsame)|(x & y & z & E & _)]; rewrite E in Ha; [|done].
    injection Ha as <-. by apply same_used_inv.
  - destruct (alloc3_spec _ (i_sized _ Hinv)) as [(d2 & E & _)|(x' & y' & z' & E & Hx & Hy & Hz & Hnd)]; rewrite E in Ha; [done|].
    injection Ha as <- <- <- <-. assert (vb = mk_vbuf true (vb_blockno (m_buf s b)) (vb_data (m_buf s b))) as ->.
    { revert Hf. unfold fill. repeat (destruct (store _ _ _); cbn [obind]; try done). by intros [= _ <-]. }
    by apply (fill_inv s i b w x' y' z' d').
  - by apply publish_inv.
  - by apply (finish_inv s i b w x y z).
  - apply quiet_inv; try done; [apply Hinv|split; [apply Hinv|done]|]. intros i b w x y z Hi. by destruct (proj2 Hl i b w x y z).
  - destruct (intr_round_ok s Hinv) as [[E _]|(i & b' & w & x & y & z & qa & qu & Hat & Hb & Hq & E)]; rewrite E in Hr; [done|].
    injection Hr as <- <-. by eapply round_inv.
  - apply quiet_inv; try done; [apply Hinv|split; [apply Hinv|done]].
  - by apply fetch_inv.
  - destruct (complete_ok s h p1 p2 Hinv Hp) as (i & b & w & y & z & d' & Hat & _ & Hrc & Hcm & Hi & Hd).
    rewrite Hr in Hrc. injection Hrc as ->. cbn [r_buf] in *. rewrite Hcm in Hc. injection Hc as <-.
    destruct (transfer_sizes s b w st data Hinv) as [Hst Hdata]; [exact Ht|].
    eapply complete_inv; try done. intros k. updf_cases; [done|]. cbn. split_and!; [done..|]. apply Hinv.
  - apply quiet_inv; try done; [apply Hinv| |  |apply Hinv].
    + intros b'. updf_cases; [done|]. split; [apply Hinv|done].
    + intros j c Hc. apply updf_ne. intros E. apply (Hb j). destruct (m_at s j); simplify_eq/=; done.
Qed.

(** ** The simulation *)
Lemma abs_uses d p : a_uses (abs_place d p) = uses p.
Proof. destruct p; try done. cbn. by case_match. Qed.

(** The abstract places depend on the status of the heads in use. *)
Lemma abs_place_same d d' p : (forall b w x y z, p = Wait b w x y z -> status d' x = status d x) ->
  abs_place d' p = abs_place d p.
Proof. destruct p; try done. intros H. cbn. by rewrite (H _ _ _ _ _ eq_refl). Qed.

(** No abstract step. *)
Lemma stutter s s' a : sim s a -> (forall i, abs_place (m_disk s') (m_at s' i) = abs_place (m_disk s) (m_at s i)) ->
  (forall b, vb_blockno (m_buf s' b) = vb_blockno (m_buf s b) /\ vb_data (m_buf s' b) = vb_data (m_buf s b)) ->
  dv_sector (m_dev s') = dv_sector (m_dev s) -> exists a', rtc astep a a' /\ sim s' a'.
Proof.
  intros [S1 S2 S3] Hat Hb Hs. exists a. split; [done|]. constructor.
  - intros i. by rewrite Hat.
  - intros b. destruct (Hb b) as [-> ->]. done.
  - by rewrite Hs.
Qed.

(** The transfer is the abstract request. *)
Lemma complete_sim s i b w h y z p st data d a : inv s -> sim s a -> m_at s i = Wait b w h y z ->
  status (m_disk s) h = 255%Z -> status d h = 0%Z -> (forall k, k <> h -> status d k = status (m_disk s) k) ->
  transfer (mk_request (if w then 1 else 0) (u32 (vb_blockno (m_buf s b) * 2)) b 1024 (negb w) h) (dv_sector (m_dev s))
    (vb_data (m_buf s b)) = Some (st, data) ->
  exists a', rtc astep a a' /\ sim (mk_machine d
    (updf (m_buf s) b (mk_vbuf (vb_disk (m_buf s b)) (vb_blockno (m_buf s b)) data))
    (mk_dev (dv_last (m_dev s)) p st) (m_at s) (m_handler s)) a'.
Proof.
  intros Hinv [S1 S2 S3] Hat Hold Hnew Hst Ht. destruct (i_buf _ Hinv b) as [Hn Hl].
  rewrite transfer_ok in Ht by done. apply (inj Some), pair_equal_spec in Ht as [<- <-].
  destruct (disk_rw (a_disk a) (fst (a_buf a b)) (snd (a_buf a b)) w) as [disk out] eqn:E.
  exists (mk_adisk disk (updf (a_buf a) b (fst (a_buf a b), out)) (updf (a_at a) i (ADone b w))). split.
  - apply rtc_once, a_do; [|done]. rewrite S1, Hat. cbn. by rewrite Hold.
  - unfold disk_rw in E. rewrite S2 in E. cbn in E. constructor; cbn.
    + intros j. updf_cases; [by rewrite Hat; cbn; rewrite Hnew|]. rewrite S1. symmetry. apply abs_place_same.
      intros b' w' x' y' z' Hj. apply Hst. intros ->. assert (j = i); [by eapply waiting_one|done].
    + intros b'. updf_cases; [|done]. rewrite S2. cbn. f_equal. destruct w; injection E as <- <-; [done|]. by apply S3.
    + intros n Hr. destruct w; injection E as <- <-; [|by apply S3].
      destruct (write_two_sectors (dv_sector (m_dev s)) (vb_blockno (m_buf s b)) _ Hl) as (E1 & E2 & E3).
      unfold disk_block. destruct (decide (n = vb_blockno (m_buf s b))) as [->|Hne].
      * rewrite lookup_insert_eq, E2, E3. cbn. by rewrite take_drop.
      * rewrite lookup_insert_ne by done. rewrite !E1 by lia. by apply S3.
Qed.

Lemma step_sim s s' a : inv s -> sim s a -> step s s' -> exists a', rtc astep a a' /\ sim s' a'.
Proof.
  intros Hinv Hsim Hstep. pose proof Hsim as [S1 S2 S3].
  destruct Hstep as [s i b w Hat Hb|s i b w d Hat Hl Ha|s i b w x y z d d' vb Hat Hl Ha Hf|s i b w x y z Hat
    |s i b w x y z d Hat Hl Hb Hf|s Hl|s d b Hh Hr|s Hh Hr|s v Hf|s h p1 p2 r st data d Hp Hr Ht Hc|s b n data Hb Hg].
  - exists (mk_adisk (a_disk a) (a_buf a) (updf (a_at a) i (ACalled b w))). split.
    + apply rtc_once, a_call; [by rewrite S1, Hat|]. intros j. rewrite S1, abs_uses. apply Hb.
    + constructor; cbn; try done. intros j. updf_cases; [done|apply S1].
  - destruct (alloc3_spec _ (i_sized _ Hinv)) as [(d' & E & Hsame)|(x & y & z & E & _)]; rewrite E in Ha; [|done].
    injection Ha as <-. eapply stutter; [done| |done|done]. intros j. cbn. apply abs_place_same. intros.
    unfold status. by rewrite (su_rest _ _ Hsame).
  - destruct (alloc3_spec _ (i_sized _ Hinv)) as [(d2 & E & _)|(x' & y' & z' & E & Hx & Hy & Hz & Hnd)]; rewrite E in Ha; [done|].
    injection Ha as <- <- <- <-. assert (vb = mk_vbuf true (vb_blockno (m_buf s b)) (vb_data (m_buf s b))) as ->.
    { revert Hf. unfold fill. repeat (destruct (store _ _ _); cbn [obind]; try done). by intros [= _ <-]. }
    destruct (fill_inv s i b w x' y' z' d' Hinv Hat Hl Hx Hy Hz Hnd Hf) as [_ Hst].
    eapply stutter; [done| |intros b'; cbn; updf_cases; done|done]. intros j. cbn. updf_cases; [by rewrite Hat|].
    apply abs_place_same. intros b' w' x2 y2 z2 Hj. apply Hst. intros ->.
    pose proof (co_free _ _ _ (i_chain _ Hinv j (mk_chain b' w' x' y2 z2) ltac:(by rewrite Hj)) x' ltac:(set_solver)). congruence.
  - eapply stutter; [done| |done|done]. intros j. cbn. updf_cases; [|by apply abs_place_same].
    rewrite Hat. cbn. destruct (i_filled _ Hinv _ _ _ _ _ _ Hat) as (_ & Hst & _).
    change (status (publish (m_disk s)) x) with (status (m_disk s) x). by rewrite Hst.
  - destruct (finish_inv s i b w x y z d Hinv Hat Hl Hb Hf) as [_ Hst].
    exists (mk_adisk (a_disk a) (a_buf a) (updf (a_at a) i ANone)). split.
    + apply rtc_once, (a_return a i b w). rewrite S1, Hat. cbn. by rewrite (i_seen _ Hinv _ _ _ _ _ _ Hat Hb).
    + constructor; cbn; try done. intros j. updf_cases; [done|]. rewrite S1. symmetry. apply abs_place_same.
      intros b' w' x2 y2 z2 Hj. apply Hst. intros Hin. assert (j = i); [|done].
      apply (i_disj _ Hinv j i (mk_chain b' w' x2 y2 z2) (mk_chain b w x y z) x2); rewrite ?Hj, ?Hat; done || set_solver.
  - by eapply stutter.
  - destruct (intr_round_ok s Hinv) as [[E _]|(i & b' & w & x & y & z & qa & qu & Hat & Hb & Hq & E)]; rewrite E in Hr; [done|].
    injection Hr as <- <-. eapply stutter; [done| |intros k; cbn; updf_cases; done|done]. intros j. by apply abs_place_same.
  - by eapply stutter.
  - eapply stutter; [done..|]. by apply fetch_inv.
  - destruct (complete_ok s h p1 p2 Hinv Hp) as (i & b & w & y & z & d' & Hat & Hold & Hrc & Hcm & Hi & Hd).
    rewrite Hr in Hrc. injection Hrc as ->. cbn [r_buf] in *. rewrite Hcm in Hc. injection Hc as <-.
    destruct (transfer_sizes s b w st data Hinv) as [Hst Hdata]; [exact Ht|].
    destruct (complete_inv s i b w h y z p1 p2 d'
      (updf (m_buf s) b (mk_vbuf (vb_disk (m_buf s b)) (vb_blockno (m_buf s b)) data)) st) as (_ & Hnew & Hsame); try done.
    { intros k. updf_cases; [done|]. cbn. split_and!; [done..|]. apply Hinv. }
    by eapply complete_sim.
  - exists (mk_adisk (a_disk a) (updf (a_buf a) b (n, data)) (a_at a)). split.
    + apply rtc_once, a_edit; [|done]. intros j. rewrite S1, abs_uses. apply Hb.
    + constructor; cbn; try done. intros b'. updf_cases; [done|apply S2].
Qed.

(** ** The driver and the device, from the start *)
Lemma start_inv bufs disk : (forall b, good_buf (vb_blockno (bufs b)) (vb_data (bufs b))) ->
  (forall n, length (disk_block disk n) = BSIZE) -> inv (start bufs disk).
Proof.
  intros Hb Hd. assert (forall q, ring_ok (replicate NUM q) 0 0 []) as Hring by (intros q; by constructor; cbn; try lia).
  constructor; cbn; try done.
  - intros k Hk. apply (lookup_replicate_1 NUM) in Hk as [? _]. done.
  - intros k. unfold sectors_of. case_match; rewrite ?length_take, ?length_drop, Hd; done.
  - exists [], []. constructor; cbn; try done; try set_solver; [constructor|].
    intros h. split; [set_solver|]. by intros (i & b & w & y & z & ? & _).
Qed.

Lemma start_sim bufs disk : (forall n, length (disk_block disk n) = BSIZE) -> sim (start bufs disk) (a_start bufs disk).
Proof.
  intros Hd. constructor; cbn; try done. intros n Hn. unfold sectors_of.
  assert (2 * n / 2 = n /\ (2 * n) mod 2 = 0 /\ (2 * n + 1) / 2 = n /\ (2 * n + 1) mod 2 = 1)%Z as (-> & -> & -> & ->)
    by (Z.to_euclidean_division_equations; lia).
  cbn [Z.eqb]. by rewrite take_drop.
Qed.

Lemma reachable_sim bufs disk s : (forall b, good_buf (vb_blockno (bufs b)) (vb_data (bufs b))) ->
  (forall n, length (disk_block disk n) = BSIZE) -> rtc step (start bufs disk) s ->
  inv s /\ exists a, rtc astep (a_start bufs disk) a /\ sim s a.
Proof.
  intros Hb Hd Hs. eapply (rtc_ind_r (R := step) (fun s => inv s /\ exists a, rtc astep (a_start bufs disk) a /\ sim s a)); [| |done].
  - split; [by apply start_inv|]. eexists. split; [done|by apply start_sim].
  - intros s1 s2 _ Hstep [Hinv (a & Ha & Hsim)]. split; [by eapply disk_step_inv|].
    destruct (step_sim s1 s2 a Hinv Hsim Hstep) as (a' & Ha' & Hsim'). exists a'. split; [by etrans|done].
Qed.

(** C39.  Every interleaving of processes in [virtio_disk_rw], the interrupt
    handler and the device is one of a disk whose requests read or write their
    block in one step between call and return.  No descriptor is lost: one
    that is not free belongs to a request under way.  Nothing panics and no
    access is out of bounds: descriptors can be asked for and filled, a
    request whose buffer is released can be finished, the interrupt handler
    runs, and the device can read and complete every request it has fetched. *)
Theorem disk_refines (bufs : nat -> vbuf) (disk : gmap Z bytes) (s : machine)
  (Hb : forall b, good_buf (vb_blockno (bufs b)) (vb_data (bufs b)))
  (Hd : forall n, length (disk_block disk n) = BSIZE) (Hs : rtc step (start bufs disk) s) :
  (exists a, rtc astep (a_start bufs disk) a /\ sim s a) /\
  (forall k, v_free (m_disk s) !! k = Some false -> exists i c, chain (m_at s i) = Some c /\ k ∈ ids c) /\
  (forall b w, exists d r, alloc3_desc (m_disk s) = Ret (d, r) /\
     forall x y z, r = Some (x, y, z) -> exists d' vb, fill d b (m_buf s b) w x y z = Ret (d', vb)) /\
  (forall i b w x y z, m_at s i = Wait b w x y z -> exists d, finish (m_disk s) x = Ret d) /\
  (exists r, intr_round (m_disk s) = Ret r) /\
  (forall h, h ∈ dv_pending (m_dev s) -> exists r t d, read_chain (m_disk s) h = Some r /\
     transfer r (dv_sector (m_dev s)) (vb_data (m_buf s (r_buf r))) = Some t /\ complete (m_disk s) h r = Ret d).
Proof.
  destruct (reachable_sim bufs disk s Hb Hd Hs) as [Hinv Ha]. split; [done|]. split; [by apply Hinv|]. split_and!.
  - intros b w. destruct (i_queue _ Hinv) as (qa & qu & Hq).
    destruct (alloc3_spec _ (i_sized _ Hinv)) as [(d & E & _)|(x & y & z & E & Hx & Hy & Hz & Hnd)]; rewrite E; do 2 eexists;
      (split; [done|]); [done|]. intros ? ? ? [= <- <- <-].
    destruct (fill_ok (set_free (m_disk s) (<[z := false]> (<[y := false]> (<[x := false]> (v_free (m_disk s))))))
      b (m_buf s b) w x y z) as (d' & Hf & _); eauto.
    + destruct (i_sized _ Hinv). constructor; cbn; rewrite ?length_insert; done.
    + by apply (q_avail _ _ _ Hq).
    + intros k Hk. cbn. rewrite !list_lookup_insert, !length_insert.
      apply lookup_lt_Some in Hx, Hy, Hz. repeat case_decide; try done; set_solver.
  - intros i b w x y z Hi. destruct (finish_ok _ _ _ (i_sized _ Hinv) (i_chain _ Hinv i (mk_chain b w x y z) ltac:(by rewrite Hi)))
      as (d & Hf & _). eauto.
  - destruct (intr_round_ok s Hinv) as [[E _]|(i & b & w & x & y & z & qa & qu & _ & _ & _ & E)]; eauto.
  - intros h Hh. apply list_elem_of_split in Hh as (p1 & p2 & Hp).
    destruct (complete_ok s h p1 p2 Hinv Hp) as (i & b & w & y & z & d & _ & _ & Hr & Hc & _).
    destruct (i_buf _ Hinv b) as [Hn Hl]. do 3 eexists. split; [exact Hr|]. split; [|exact Hc]. cbn [r_buf]. by apply transfer_ok.
Qed.

(** A process reads block 5 into buffer 3; the device has fetched the request
    and can complete it. *)
Lemma disk_refines_witness : exists s, rtc step (start (fun _ => mk_vbuf false 5 zero_block) {[5%Z := replicate BSIZE 7%Z]}) s /\
  exists r t d, read_chain (m_disk s) 0 = Some r /\ r_sector r = 10%Z /\
     transfer r (dv_sector (m_dev s)) (vb_data (m_buf s (r_buf r))) = Some t /\ complete (m_disk s) 0 r = Ret d.
Proof.
  set (s0 := start (fun _ => mk_vbuf false 5 zero_block) {[5%Z := replicate BSIZE 7%Z]}).
  assert (exists s, rtc step s0 s /\ dv_pending (m_dev s) = [0] /\ (rq_sector <$> v_ops (m_disk s) !! 0) = Some 10%Z /\
    v_desc (m_disk s) !! 0 = Some (mk_desc (AOps 0) 16 1 1)) as (s & Hs & Hp & Ho & Hx).
  { eexists. split.
    - eapply rtc_l; [apply (s_call s0 0 3 false); done|].
      eapply rtc_l; [eapply (s_fill _ 0 3 false 0 1 2); [reflexivity|split; [done|by intros [|j]]|reflexivity|reflexivity]|].
      eapply rtc_l; [eapply (s_publish _ 0); reflexivity|].
      eapply rtc_l; [eapply s_fetch; reflexivity|]. apply rtc_refl.
    - split_and!; reflexivity. }
  exists s. split; [exact Hs|].
  destruct (disk_refines (fun _ => mk_vbuf false 5 zero_block) {[5%Z := replicate BSIZE 7%Z]} s) as (_ & _ & _ & _ & _ & H).
  - intros b. split; [done|reflexivity].
  - intros n. unfold disk_block. destruct (decide (n = 5%Z)) as [->|]; [by rewrite lookup_singleton_eq|by rewrite lookup_singleton_ne].
  - exact Hs.
  - destruct (H 0) as (r & t & d & Hr & Ht & Hc); [rewrite Hp; set_solver|]. exists r, t, d. split_and!; try done.
    unfold read_chain in Hr. rewrite Hx in Hr. destruct (v_desc (m_disk s) !! 1) as [[[] ? ? ?]|]; try done.
    destruct (v_ops (m_disk s) !! 0) as [[]|]; [|done]. injection Ho as ->.
    repeat (case_match; try done). by injection Hr as <-.
Defined.
