(* ===== verification/Mkfs.v ===== *)
(** * Building a disk image

    [mkfs/mkfs.c].  The image is the list of the blocks of its file; the
    structures on it are those of [Fs], which the functions [xshort] and [xint]
    store in the byte order of the kernel whatever the host's is.  A failed
    [assert] is a panic, [die] an exit; the argument files are given with the
    pieces that [read] delivers, or [None] where they cannot be opened. *)

From S2P Require Import Prelude Bytes Bio Log Fs FsBlocks Dir.

Local Open Scope nat_scope.

Definition FSSIZE : Z := 2000.
Definition NINODES : Z := 200.
Definition nbitmap : Z := (FSSIZE `div` BPB + 1)%Z.
Definition ninodeblocks : Z := (NINODES `div` IPB + 1)%Z.
Definition nlog : Z := (Z.of_nat LOGBLOCKS + 1)%Z.
Definition nmeta : Z := (2 + nlog + ninodeblocks + nbitmap)%Z.

(** [sb] as [main] fills it. *)
Definition mkfs_sb : superblock :=
  mk_sb FSMAGIC FSSIZE (FSSIZE - nmeta) NINODES nlog 2 (2 + nlog) (2 + nlog + ninodeblocks).

Record image := mk_image { im_blocks : list bytes; im_freeinode : Z; im_freeblock : Z }.

Definition with_blocks (m : image) (l : list bytes) : image := mk_image l (im_freeinode m) (im_freeblock m).

Definition die {A} : outcome A := Exit 1.
Definition assert (b : bool) : outcome unit := if b then Ret tt else Panic "assert".

(** A write behind the end of the file extends it. *)
Definition wsect (m : image) (sec : Z) (buf : bytes) : outcome image :=
  let n := Z.to_nat sec in
  if n <? length (im_blocks m) then Ret (with_blocks m (<[n := buf]> (im_blocks m)))
  else Ret (with_blocks m (im_blocks m ++ replicate (n - length (im_blocks m)) zero_block ++ [buf])).

Definition rsect (m : image) (sec : Z) : outcome bytes :=
  match im_blocks m !! Z.to_nat sec with Some d => Ret d | None => die end.

Definition winode (m : image) (inum : Z) (din : dinode) : outcome image :=
  let bn := IBLOCK mkfs_sb inum in
  let* buf := rsect m bn in
  wsect m bn (put_dinode buf (slot inum) din).

Definition rinode (m : image) (inum : Z) : outcome dinode :=
  let* buf := rsect m (IBLOCK mkfs_sb inum) in
  Ret (dinode_at buf (slot inum)).

Definition ialloc (m : image) (type : Z) : outcome (image * Z) :=
  let inum := im_freeinode m in
  let m := mk_image (im_blocks m) (u32 (inum + 1)) (im_freeblock m) in
  let* m := winode m inum (mk_di type 0 0 1 0 (replicate (NDIRECT + 1) 0%Z)) in
  Ret (m, inum).

(** The loop of [balloc]. *)
Fixpoint mark (buf : bytes) (i : Z) (n : nat) : outcome bytes :=
  match n with
  | 0 => Ret buf
  | S n =>
      let* v := load buf (Z.to_nat (i `div` 8)) in
      let* buf := store buf (Z.to_nat (i `div` 8)) (Z.lor v (Z.shiftl 1 (i `mod` 8))) in
      mark buf (i + 1) n
  end.

Definition balloc (m : image) (used : Z) : outcome image :=
  let* _ := assert (used <? BPB)%Z in
  let* buf := mark zero_block 0 (Z.to_nat used) in
  wsect m (sb_bmapstart mkfs_sb) buf.

(** [freeblock++] *)
Definition take_block (m : image) : image * Z :=
  (mk_image (im_blocks m) (im_freeinode m) (u32 (im_freeblock m + 1)), im_freeblock m).

(** The address of block [fbn] of the file, which is allocated if need be. *)
Definition append_block (m : image) (din : dinode) (fbn : nat) : outcome (image * dinode * Z) :=
  if fbn <? NDIRECT then
    let* a := load (d_addrs din) fbn in
    let '(m, din) :=
      if (a =? 0)%Z then let '(m, x) := take_block m in (m, set_addr din fbn x) else (m, din) in
    let* x := load (d_addrs din) fbn in
    Ret (m, din, x)
  else
    let* a := load (d_addrs din) NDIRECT in
    let '(m, din) :=
      if (a =? 0)%Z then let '(m, x) := take_block m in (m, set_addr din NDIRECT x) else (m, din) in
    let* a := load (d_addrs din) NDIRECT in
    let* indirect := rsect m a in
    let* '(m, indirect) :=
      if (get_uint indirect (fbn - NDIRECT) =? 0)%Z then
        let '(m, x) := take_block m in
        let indirect := put_uint indirect (fbn - NDIRECT) x in
        let* m := wsect m a indirect in
        Ret (m, indirect)
      else Ret (m, indirect) in
    Ret (m, din, get_uint indirect (fbn - NDIRECT)).

Fixpoint iappend_loop (m : image) (din : dinode) (off : Z) (p : bytes) (fuel : nat) : outcome (image * dinode * Z) :=
  match p with
  | [] => Ret (m, din, off)
  | _ =>
      match fuel with
      | 0 => NoFuel
      | S fuel =>
          let fbn := Z.to_nat (off `div` BS) in
          let* _ := assert (fbn <? MAXFILE) in
          let* '(m, din, x) := append_block m din fbn in
          let n1 := Z.to_nat (Z.min (Z.of_nat (length p)) ((Z.of_nat fbn + 1) * BS - off)) in
          let* buf := rsect m x in
          let* m := wsect m x (splice (Z.to_nat (off - Z.of_nat fbn * BS)) (take n1 p) buf) in
          iappend_loop m din (off + Z.of_nat n1) (drop n1 p) fuel
      end
  end.

(** Each round appends a byte at least. *)
Definition iappend (m : image) (inum : Z) (p : bytes) : outcome image :=
  let* din := rinode m inum in
  let* '(m, din, off) := iappend_loop m din (d_size din) p (length p) in
  winode m inum (set_size din off).

(** ** [main] *)
Definition user_prefix : bytes := [117; 115; 101; 114; 47]%Z.
Definition UNDERSCORE : Z := 95.
Definition DOT : Z := 46.

Definition shortname (arg : bytes) : bytes := if decide (take 5 arg = user_prefix) then drop 5 arg else arg.
Definition skip_underscore (name : bytes) : bytes :=
  match name with c :: rest => if (c =? UNDERSCORE)%Z then rest else name | [] => name end.

Fixpoint append_pieces (m : image) (inum : Z) (pieces : list bytes) : outcome image :=
  match pieces with
  | [] => Ret m
  | buf :: pieces => let* m := iappend m inum buf in append_pieces m inum pieces
  end.

Definition add_file (m : image) (rootino : Z) (file : bytes * option (list bytes)) : outcome image :=
  let '(arg, content) := file in
  let name := shortname arg in
  let* _ := assert (bool_decide (SLASH ∉ name)) in
  match content with
  | None => die
  | Some pieces =>
      let name := skip_underscore name in
      let* _ := assert (length name <=? DIRSIZ) in
      let* '(m, inum) := ialloc m T_FILE in
      let* m := iappend m rootino (dirent inum name) in
      append_pieces m inum pieces
  end.

Fixpoint add_files (m : image) (rootino : Z) (files : list (bytes * option (list bytes))) : outcome image :=
  match files with
  | [] => Ret m
  | file :: files => let* m := add_file m rootino file in add_files m rootino files
  end.

Fixpoint zero_sects (m : image) (i : Z) (n : nat) : outcome image :=
  match n with
  | 0 => Ret m
  | S n => let* m := wsect m i zero_block in zero_sects m (i + 1) n
  end.

(** The super block: eight words at the start of a block of zeroes. *)
Definition sb_words (sb : superblock) : list Z :=
  [sb_magic sb; sb_size sb; sb_nblocks sb; sb_ninodes sb; sb_nlog sb; sb_logstart sb; sb_inodestart sb; sb_bmapstart sb].

Definition sb_block (sb : superblock) : bytes := splice 0 (sb_words sb ≫= le_encode 4) zero_block.

Definition mkfs (files : list (bytes * option (list bytes))) : outcome image :=
  let m := mk_image [] 1 nmeta in
  let* m := zero_sects m 0 (Z.to_nat FSSIZE) in
  let* m := wsect m 1 (sb_block mkfs_sb) in
  let* '(m, rootino) := ialloc m T_DIR in
  let* _ := assert (rootino =? ROOTINO)%Z in
  let* m := iappend m rootino (dirent rootino [DOT]) in
  let* m := iappend m rootino (dirent rootino [DOT; DOT]) in
  let* m := add_files m rootino files in
  let* din := rinode m rootino in
  let off := d_size din in
  let off := ((off `div` BS + 1) * BS)%Z in
  let* m := winode m rootino (set_size din off) in
  balloc m (im_freeblock m).
