(* ===== verification/MkfsInv.v ===== *)
(** * What [mkfs] builds

    The image is related to a disk [V] on which the bitmap is already what it
    will be: block [b] is marked in use when [b] is below [freeblock].  On that
    disk the allocations of [mkfs] are those of the kernel's [balloc], so that
    the lemmas on growing files of [FsContent] apply, and the final disk
    satisfies what the theorems on the kernel's file system assume. *)

From S2P Require Import Prelude Bytes Bio Log Txn Fs FsBlocks FsContent Dir Mkfs.

Local Open Scope nat_scope.

Local Abbreviation sb := mkfs_sb.

Lemma mkfs_layout : @layout _ _ demo_laws sb.
Proof.
  split.
  - vm_compute. done.
  - intros i Hi. change (sb_ninodes sb) with 200%Z in Hi. unfold IBLOCK, IPB. change (sb_inodestart sb) with 33%Z.
    change (sb_bmapstart sb) with 46%Z. assert (i `div` 16 < 13)%Z by (apply Z.div_lt_upper_bound; lia). lia.
  - vm_compute. done.
  - intros b Hb. change (sb_inodestart sb) with 33%Z in Hb. change (sb_size sb) with 2000%Z in Hb.
    cbn. unfold home, is_int, LOGBLOCKS, INT_MAX. lia.
Qed.

Local Abbreviation LY := mkfs_layout.

Lemma mkfs_start : data_start sb = nmeta.
Proof. reflexivity. Qed.

Lemma nmeta_47 : nmeta = 47%Z.
Proof. reflexivity. Qed.

(** ** The bitmap *)
Fixpoint bits (n : nat) : bytes := match n with 0 => zero_block | S n => set_bit (bits n) (Z.of_nat n) end.

Lemma bits_ok n : (Z.of_nat n < BPB)%Z -> block_ok (bits n).
Proof.
  induction n as [|n IH]; intros Hn; [apply zero_block_ok|]. apply set_bit_ok, IH. lia.
Qed.

Lemma bit_zero j : bit zero_block j = false.
Proof.
  unfold bit, zero_block. destruct (replicate BSIZE 0%Z !! Z.to_nat (j `div` 8)) eqn:E; [|apply Z.testbit_0_l].
  apply lookup_replicate in E as [-> _]. apply Z.testbit_0_l.
Qed.

Lemma bit_bits n j : (Z.of_nat n <= BPB)%Z -> (0 <= j)%Z -> bit (bits n) j = (j <? Z.of_nat n)%Z.
Proof.
  unfold BPB. induction n as [|n IH]; intros Hn Hj; cbn [bits].
  { rewrite bit_zero. symmetry. apply Z.ltb_ge. lia. }
  rewrite bit_set; [|lia|lia|].
  - rewrite IH by lia. destruct (Z.eqb_spec (Z.of_nat n) j), (Z.ltb_spec j (Z.of_nat n)), (Z.ltb_spec j (Z.of_nat (S n))); simpl; lia || done.
  - rewrite (proj1 (bits_ok n ltac:(unfold BPB; lia))). unfold BSIZE.
    assert (Z.of_nat n `div` 8 < 1024)%Z by (apply Z.div_lt_upper_bound; lia). lia.
Qed.

Lemma mark_bits n : forall k, (Z.of_nat (k + n) < BPB)%Z -> mark (bits k) (Z.of_nat k) n = Ret (bits (k + n)).
Proof.
  induction n as [|n IH]; intros k Hk; cbn [mark]; [by rewrite Nat.add_0_r|].
  destruct (bits_ok k ltac:(unfold BPB in *; lia)) as [Hl _].
  assert (Z.to_nat (Z.of_nat k `div` 8) < length (bits k)) as Hlt.
  { rewrite Hl. unfold BSIZE, BPB in *. assert (Z.of_nat k `div` 8 < 1024)%Z by (apply Z.div_lt_upper_bound; lia). lia. }
  destruct (lookup_lt_is_Some_2 _ _ Hlt) as [v Hv]. rewrite (load_ret _ _ _ Hv). cbn [obind]. rewrite store_ret by done. cbn [obind].
  replace (<[Z.to_nat (Z.of_nat k `div` 8) := Z.lor v (Z.shiftl 1 (Z.of_nat k `mod` 8))]> (bits k)) with (bits (S k))
    by (cbn [bits]; unfold set_bit; by rewrite Hv).
  replace (Z.of_nat k + 1)%Z with (Z.of_nat (S k)) by lia. rewrite IH by (unfold BPB in *; lia). do 2 f_equal. lia.
Qed.

(** ** The image and the disk *)
Record rep (m : image) (V : Z -> bytes) : Prop := {
  rp_len : length (im_blocks m) = Z.to_nat FSSIZE;
  rp_blk : forall b, (0 <= b < FSSIZE)%Z -> b <> sb_bmapstart sb -> im_blocks m !! Z.to_nat b = Some (V b);
  rp_free : (nmeta <= im_freeblock m <= FSSIZE)%Z;
  rp_map : V (sb_bmapstart sb) = bits (Z.to_nat (im_freeblock m));
  rp_zero : forall b, (im_freeblock m <= b < FSSIZE)%Z -> V b = zero_block;
  rp_ok : disk_ok sb V
}.

Lemma rep_used m V x : rep m V -> (0 <= x < FSSIZE)%Z -> used sb V x = (x <? im_freeblock m)%Z.
Proof.
  intros R Hx. pose proof (rp_free _ _ R). unfold FSSIZE in *. unfold used, BBLOCK, BPB. rewrite Z.div_small, Z.mod_small by lia.
  rewrite Z.add_0_l, (rp_map _ _ R), bit_bits by (unfold BPB, nmeta, nlog, ninodeblocks, nbitmap in *; lia).
  f_equal. rewrite nmeta_47 in *. lia.
Qed.

Lemma rsect_rep m V b : rep m V -> (0 <= b < FSSIZE)%Z -> b <> sb_bmapstart sb -> rsect m b = Ret (V b).
Proof. intros R Hb Hne. unfold rsect. by rewrite (rp_blk _ _ R). Qed.

Lemma wsect_rep m V b x : rep m V -> (0 <= b < im_freeblock m)%Z -> b <> sb_bmapstart sb -> block_ok x ->
  exists m', wsect m b x = Ret m' /\ rep m' (upd V b x) /\ im_freeblock m' = im_freeblock m /\ im_freeinode m' = im_freeinode m.
Proof.
  intros R Hb Hne Hx. pose proof (rp_free _ _ R) as Hf. pose proof (rp_len _ _ R) as Hl. unfold FSSIZE in *. unfold wsect.
  rewrite (proj2 (Nat.ltb_lt _ _)) by lia. eexists. split; [done|]. split; [|done]. constructor; cbn.
  - by rewrite length_insert.
  - intros c Hc Hc'. unfold FSSIZE in *. destruct (decide (c = b)) as [->|Hcb].
    + rewrite upd_same, list_lookup_insert_eq; [done|lia].
    + rewrite upd_other by done. rewrite list_lookup_insert_ne by lia. by apply (rp_blk _ _ R).
  - done.
  - rewrite upd_other by (by apply not_eq_sym). apply R.
  - intros c Hc. rewrite upd_other by lia. by apply (rp_zero _ _ R).
  - assert (sb_bmapstart sb < data_start sb < sb_size sb)%Z as Hds by (vm_compute; done).
    apply (upd_disk_ok sb LY V (rp_ok _ _ R)); [|done]. rewrite mkfs_start, nmeta_47.
    change (sb_bmapstart sb) with 46%Z in *. lia.
Qed.

(** [freeblock++] is an allocation. *)
Lemma take_block_rep m V : rep m V -> (im_freeblock m < FSSIZE)%Z ->
  let r := im_freeblock m in
  rep (fst (take_block m)) (alloc_block sb V r) /\ snd (take_block m) = r /\
  im_freeblock (fst (take_block m)) = (r + 1)%Z /\ im_freeinode (fst (take_block m)) = im_freeinode m /\
  (data_start sb <= r < sb_size sb)%Z /\ used sb V r = false.
Proof.
  intros R Hr r. pose proof (rp_free _ _ R) as Hf. rewrite nmeta_47 in Hf. unfold FSSIZE in *.
  assert (u32 (r + 1) = r + 1)%Z as Eu by (unfold u32, r; apply Z.mod_small; lia).
  assert (data_start sb <= r < sb_size sb)%Z as Hd by (rewrite mkfs_start, nmeta_47; change (sb_size sb) with 2000%Z; unfold r; lia).
  assert (BBLOCK sb r = sb_bmapstart sb /\ r `mod` BPB = r)%Z as [Eb Em].
  { unfold BBLOCK, BPB. rewrite Z.div_small, Z.mod_small by (unfold r; lia). done. }
  assert (forall b, b <> r -> b <> sb_bmapstart sb -> alloc_block sb V r b = V b) as Ho.
  { intros b H1 H2. unfold alloc_block. rewrite Eb. by rewrite !upd_other. }
  assert (sb_bmapstart sb <> r) as Hbr by (change (sb_bmapstart sb) with 46%Z; unfold r; lia).
  assert (used sb V r = false) as Hu by (rewrite (rep_used m V) by (unfold FSSIZE; done || lia); apply Z.ltb_irrefl).
  cbn [take_block fst snd im_freeblock im_freeinode]. fold r. rewrite Eu. split_and!; try done; try lia.
  constructor; cbn [im_blocks im_freeblock im_freeinode].
  - apply R.
  - intros b Hb Hne. destruct (decide (b = r)) as [->|Hbr'].
    + unfold alloc_block. rewrite upd_same. rewrite (rp_blk _ _ R) by done. by rewrite (rp_zero _ _ R) by (unfold FSSIZE, r; lia).
    + rewrite Ho by done. by apply (rp_blk _ _ R).
  - rewrite nmeta_47. unfold FSSIZE, r. lia.
  - unfold alloc_block. rewrite Eb, upd_other, upd_same by done. rewrite (rp_map _ _ R), Em.
    replace (Z.to_nat (r + 1)) with (S (Z.to_nat r)) by (unfold r; lia). cbn [bits]. by rewrite Z2Nat.id by (unfold r; lia).
  - intros b Hb. rewrite Ho by (change (sb_bmapstart sb) with 46%Z in *; unfold r in *; lia). apply (rp_zero _ _ R). unfold r in *. lia.
  - by apply (alloc_block_ok sb LY V (rp_ok _ _ R)).
Qed.

(** Blocks of a file are in use, hence in the image. *)
Lemma image_used_range m V x : rep m V -> (data_start sb <= x < sb_size sb)%Z -> used sb V x = true ->
  (0 <= x < im_freeblock m)%Z /\ x <> sb_bmapstart sb /\ (0 <= x < FSSIZE)%Z.
Proof.
  intros R Hx Hu. rewrite mkfs_start, nmeta_47 in Hx. change (sb_size sb) with FSSIZE in Hx.
  rewrite (rep_used m V) in Hu by (done || lia). apply Z.ltb_lt in Hu. change (sb_bmapstart sb) with 46%Z. lia.
Qed.

Lemma d_addr d k : dinode_ok d -> k < NDIRECT + 1 -> load (d_addrs d) k = Ret (default 0%Z (d_addrs d !! k)).
Proof.
  intros Hd Hk. destruct (lookup_lt_is_Some_2 (d_addrs d) k) as [a Ha]; [rewrite (do_len _ Hd); done|].
  by rewrite (load_ret _ _ _ Ha), Ha.
Qed.

(** What a file may need for block [n]. *)
Definition need (V : Z -> bytes) (d : dinode) (n : nat) : Z :=
  ((if blk V d n =? 0 then 1 else 0) + (if negb (n <? NDIRECT)%nat && (ind d =? 0) then 1 else 0))%Z.

Lemma data_nonzero r : (data_start sb <= r)%Z -> r <> 0%Z.
Proof. rewrite mkfs_start, nmeta_47. lia. Qed.

(** The indirect block is there, or is taken. *)
Lemma take_indirect_ok m V d n : rep m V -> inode_ok sb V d -> NDIRECT <= n -> (im_freeblock m + need V d n <= FSSIZE)%Z ->
  exists m' V' d',
    (if (ind d =? 0)%Z then let '(m, x) := take_block m in (m, set_addr d NDIRECT x) else (m, d)) = (m', d') /\
    rep m' V' /\ extends sb V d V' d' /\ ind d' <> 0%Z /\
    im_freeblock m' = (im_freeblock m + (if ind d =? 0 then 1 else 0))%Z /\ im_freeinode m' = im_freeinode m /\
    (blk V' d' n = 0%Z <-> blk V d n = 0%Z).
Proof.
  intros R IO Hge Hneed. pose proof (rp_ok _ _ R) as OK. pose proof (io_ok _ _ _ IO) as Hd.
  unfold need in Hneed. rewrite (proj2 (Nat.ltb_ge _ _)) in Hneed by done. cbn [negb andb] in Hneed.
  destruct (Z.eqb_spec (ind d) 0) as [Hz|Hnz]; [|exists m, V, d; split_and!; try done; [by apply extends_refl|lia]].
  destruct (take_block_rep m V R) as (R1 & Er & Ef & Ei & Hr & Hu); [destruct (blk V d n =? 0)%Z; lia|]. cbn [take_block fst snd] in *.
  set (r := im_freeblock m) in *. pose proof (extends_ind sb LY V d r OK IO Hr Hu Hz) as X.
  assert (ind (set_addr d NDIRECT r) = r) as Ei'.
  { unfold ind. cbn [set_addr d_addrs]. by rewrite list_lookup_insert_eq by (rewrite (do_len _ Hd); unfold NDIRECT; lia). }
  assert (blk V d n = 0%Z) as Hb by (unfold blk; rewrite (proj2 (Nat.ltb_ge _ _)) by done; by rewrite Hz).
  eexists _, (alloc_block sb V r), _. split; [done|]. split; [exact R1|]. split; [done|]. rewrite Ei'. split_and!; try done.
  - exact (data_nonzero r (proj1 Hr)).
  - split; [done|]. intros _. unfold blk. rewrite (proj2 (Nat.ltb_ge _ _)) by done.
    rewrite Ei', (proj2 (Z.eqb_neq r 0)) by exact (data_nonzero r (proj1 Hr)). rewrite alloc_same. apply get_uint_zero.
Qed.

Lemma append_block_ok m V d n : rep m V -> inode_ok sb V d -> n < MAXFILE ->
  (im_freeblock m + need V d n <= FSSIZE)%Z ->
  exists m' V' d', append_block m d n = Ret (m', d', blk V' d' n) /\ rep m' V' /\ extends sb V d V' d' /\
    blk V' d' n <> 0%Z /\ im_freeblock m' = (im_freeblock m + need V d n)%Z /\ im_freeinode m' = im_freeinode m.
Proof.
  intros R IO Hn Hneed. pose proof (rp_ok _ _ R) as OK. pose proof (io_ok _ _ _ IO) as Hd.
  pose proof Hneed as Hneed0. unfold append_block. unfold need in Hneed |- *. destruct (Nat.ltb_spec n NDIRECT) as [Hlt|Hge].
  - cbn [negb andb] in *. rewrite d_addr by (done || lia). cbn [obind].
    assert (blk V d n = default 0%Z (d_addrs d !! n)) as Eb by (unfold blk; by rewrite (proj2 (Nat.ltb_lt _ _))).
    rewrite <-Eb. destruct (Z.eqb_spec (blk V d n) 0) as [Hz|Hnz].
    + destruct (take_block_rep m V R ltac:(lia)) as (R1 & Er & Ef & Ei & Hr & Hu). cbn [take_block fst snd] in *.
      set (r := im_freeblock m) in *. pose proof (extends_direct sb LY V d r OK IO Hr Hu n Hlt Hz) as X.
      pose proof (io_ok _ _ _ (gr_inode _ _ _ _ _ (ex_grown _ _ _ _ _ X))) as Hd'.
      eexists _, (alloc_block sb V r), (set_addr d n r). split.
      * rewrite d_addr by (done || lia). cbn [obind]. unfold blk. by rewrite (proj2 (Nat.ltb_lt _ _)).
      * split; [exact R1|]. split; [done|]. split; [|split; [cbn in *; lia|done]].
        unfold blk. rewrite (proj2 (Nat.ltb_lt _ _)) by done. cbn [set_addr d_addrs].
        rewrite list_lookup_insert_eq by (rewrite (do_len _ Hd); lia). cbn. exact (data_nonzero r (proj1 Hr)).
    + exists m, V, d. rewrite d_addr by (done || lia). cbn [obind]. rewrite <-Eb. split_and!; try done; [|lia].
      by apply extends_refl.
  - cbn [negb andb] in *. rewrite d_addr by (done || (unfold NDIRECT; lia)). cbn [obind].
    change (default 0%Z (d_addrs d !! NDIRECT)) with (ind d).
    destruct (take_indirect_ok m V d n R IO Hge Hneed0) as (m1 & V1 & d1 & -> & R1 & X1 & Hi1 & Ef1 & Ei1 & Hb).
    pose proof (ex_grown _ _ _ _ _ X1) as G1. pose proof (gr_inode _ _ _ _ _ G1) as IO1.
    cbn [obind]. rewrite d_addr by (apply IO1 || (unfold NDIRECT; lia)). cbn [obind].
    change (default 0%Z (d_addrs d1 !! NDIRECT)) with (ind d1).
    destruct (io_ind _ _ _ IO1 Hi1) as [Hir Hiu]. destruct (image_used_range m1 V1 (ind d1) R1 Hir Hiu) as (Hif & Hib & His).
    rewrite (rsect_rep m1 V1) by done. cbn [obind].
    assert (blk V1 d1 n = get_uint (V1 (ind d1)) (n - NDIRECT)) as Eb.
    { unfold blk. rewrite (proj2 (Nat.ltb_ge _ _)) by done. by rewrite (proj2 (Z.eqb_neq _ _)). }
    rewrite <-Eb. destruct (Z.eqb_spec (blk V1 d1 n) 0) as [Hz|Hnz].
    + rewrite (proj1 Hb Hz) in Hneed |- *. cbn in Hneed.
      destruct (take_block_rep m1 V1 R1 ltac:(lia)) as (R2 & Er & Ef & Ei & Hr & Hu). cbn [take_block fst snd] in *.
      set (r := im_freeblock m1) in *. assert (n - NDIRECT < NINDIRECT) as Hk by (unfold MAXFILE, NDIRECT, NINDIRECT in *; lia).
      pose proof (extends_indirect sb LY V1 d1 r (rp_ok _ _ R1) IO1 Hr Hu (n - NDIRECT) Hi1 Hk) as X2.
      replace (NDIRECT + (n - NDIRECT)) with n in X2 by (unfold NDIRECT in *; lia). specialize (X2 Hz).
      assert (block_ok (put_uint (V1 (ind d1)) (n - NDIRECT) r)) as Hput.
      { apply put_le_ok; [apply (rp_ok _ _ R1)|unfold NINDIRECT, BSIZE in *; lia]. }
      destruct (wsect_rep _ _ (ind d1) (put_uint (V1 (ind d1)) (n - NDIRECT) r) R2) as (m3 & E3 & R3 & Ef3 & Ei3); [cbn in *; lia|done|done|].
      rewrite E3. cbn [obind]. eexists m3, _, d1. split_and!.
      * do 3 f_equal. unfold blk. rewrite (proj2 (Nat.ltb_ge _ _)) by done. rewrite (proj2 (Z.eqb_neq (ind d1) 0)) by done. by rewrite upd_same.
      * exact R3.
      * by eapply (extends_trans sb LY).
      * unfold blk. rewrite (proj2 (Nat.ltb_ge _ _)) by done. rewrite (proj2 (Z.eqb_neq (ind d1) 0)) by done. rewrite upd_same.
        rewrite get_put_uint; [rewrite decide_True by done; exact (data_nonzero r (proj1 Hr))|apply (rp_ok _ _ R1)| |done|done].
        unfold is_uint. rewrite mkfs_start, nmeta_47 in Hr. change (sb_size sb) with 2000%Z in Hr. lia.
      * cbn in *. lia.
      * cbn in *. congruence.
    + cbn [obind]. exists m1, V1, d1. rewrite (proj2 (Z.eqb_neq (blk V d n) 0)) by (intros E; by apply Hnz, Hb).
      split_and!; try done. by rewrite Eb.
Qed.

(** ** Appending *)

(** The blocks of a file of [n] bytes, with its indirect block. *)
Definition cost (n : Z) : Z := ((n + 1023) / 1024 + (if 12288 <? n then 1 else 0))%Z.

Lemma cost_mono a b : (0 <= a <= b)%Z -> (cost a <= cost b)%Z.
Proof.
  intros H. unfold cost. assert ((a + 1023) / 1024 <= (b + 1023) / 1024)%Z by (apply Z.div_le_mono; lia).
  destruct (Z.ltb_spec 12288 a), (Z.ltb_spec 12288 b); lia.
Qed.

Lemma need_cost V d off n1 : full_below V d off -> (0 <= off)%Z -> (0 < n1)%Z -> (off mod BS + n1 <= BS)%Z ->
  (need V d (Z.to_nat (off `div` BS)) <= cost (off + n1) - cost off)%Z.
Proof.
  intros Hf Ho Hn Hm. unfold BS in *. pose proof (Z.div_mod off 1024 ltac:(lia)) as Ed. pose proof (Z.mod_pos_bound off 1024 ltac:(lia)) as Hmod.
  assert (0 <= off / 1024)%Z as Hd by (apply Z.div_pos; lia).
  assert (forall k, NDIRECT <= k -> (Z.of_nat k * 1024 < off)%Z -> ind d <> 0%Z) as Hind.
  { intros k Hk Hlt Hz. destruct (Hf k Hlt) as [_ Hb]. apply Hb. unfold blk. rewrite (proj2 (Nat.ltb_ge _ _)) by done. by rewrite Hz. }
  pose proof (cost_mono off (off + n1) ltac:(lia)) as Hc. unfold need.
  destruct (decide (off mod 1024 = 0)%Z) as [E|E].
  - unfold cost in *. assert ((off + 1023) / 1024 = off / 1024 /\ (off + n1 + 1023) / 1024 = off / 1024 + 1)%Z as [-> ->]
      by (split; Z.to_euclidean_division_equations; lia).
    destruct (blk V d _ =? 0)%Z; (destruct (Nat.ltb_spec (Z.to_nat (off / 1024)) NDIRECT) as [|Hge]; cbn [negb andb];
      [destruct (Z.ltb_spec 12288 off), (Z.ltb_spec 12288 (off + n1)); lia|]); unfold NDIRECT in *;
      (destruct (Z.eqb_spec (ind d) 0) as [Hz|]; [|destruct (Z.ltb_spec 12288 off), (Z.ltb_spec 12288 (off + n1)); lia]);
      (destruct (Z.ltb_spec 12288 off); [by destruct (Hind 12)|]); (destruct (Z.ltb_spec 12288 (off + n1)); lia).
  - destruct (Hf (Z.to_nat (off / 1024))) as [_ Hb]; [unfold BS; lia|]. rewrite (proj2 (Z.eqb_neq _ _)) by done.
    destruct (Nat.ltb_spec (Z.to_nat (off / 1024)) NDIRECT) as [|Hge]; cbn [negb andb]; [lia|].
    rewrite (proj2 (Z.eqb_neq (ind d) 0)); [lia|]. apply (Hind (Z.to_nat (off / 1024))); [done|lia].
Qed.

(** Writes one behind the other are one write. *)
Lemma written_append off p q V d V1 d1 V2 d2 :
  written off p V d V1 d1 off (off + Z.of_nat (length p)) ->
  written (off + Z.of_nat (length p)) q V1 d1 V2 d2 (off + Z.of_nat (length p)) (off + Z.of_nat (length p) + Z.of_nat (length q)) ->
  written off (p ++ q) V d V2 d2 off (off + Z.of_nat (length (p ++ q))).
Proof.
  intros W1 W2 k Hk. rewrite (W2 k Hk), length_app. case_decide as H2.
  - rewrite decide_True by lia. rewrite lookup_app_r by lia. do 2 f_equal. lia.
  - rewrite (W1 k Hk). case_decide as H1.
    + rewrite decide_True by lia. by rewrite lookup_app_l by lia.
    + by rewrite decide_False by lia.
Qed.

(** One round: the block, then [n1] bytes in it. *)
Lemma append_round m V d off q n1 : rep m V -> inode_ok sb V d -> full_below V d off -> (0 <= off)%Z ->
  Z.to_nat (off / BS) < MAXFILE -> Forall is_byte q -> (0 < n1 <= Z.of_nat (length q))%Z -> (off mod BS + n1 <= BS)%Z ->
  (im_freeblock m + cost (off + n1) - cost off <= FSSIZE)%Z ->
  exists m1 d1 x buf m2 V2, append_block m d (Z.to_nat (off / BS)) = Ret (m1, d1, x) /\ rsect m1 x = Ret buf /\
    wsect m1 x (splice (Z.to_nat (off mod BS)) (take (Z.to_nat n1) q) buf) = Ret m2 /\ rep m2 V2 /\
    grown sb V d V2 d1 /\ full_below V2 d1 (off + n1) /\ written off (take (Z.to_nat n1) q) V d V2 d1 off (off + n1) /\
    im_freeinode m2 = im_freeinode m /\ (im_freeblock m2 <= im_freeblock m + cost (off + n1) - cost off)%Z.
Proof.
  intros R IO Hfull Ho Hbn Hq Hn1 Hroom Hsp. pose proof (need_cost V d off n1 Hfull Ho ltac:(lia) Hroom) as Hneed.
  pose proof (Z.mod_pos_bound off BS ltac:(done)) as Hmod.
  destruct (append_block_ok m V d _ R IO Hbn ltac:(lia)) as (m1 & V1 & d1 & E1 & R1 & X1 & Hnz & Ef1 & Ei1).
  set (bn := Z.to_nat (off / BS)) in *. pose proof (gr_inode _ _ _ _ _ (ex_grown _ _ _ _ _ X1)) as IO1.
  destruct (io_blk _ _ _ IO1 bn Hbn Hnz) as (Hr & Hu & _). destruct (image_used_range m1 V1 _ R1 Hr Hu) as (Hbf & Hbb & Hbs).
  assert (length (take (Z.to_nat n1) q) = Z.to_nat n1) as Hlt by (rewrite length_take; lia).
  destruct (write_round sb LY off n1 (take (Z.to_nat n1) q) Hlt ltac:(by apply Forall_take) Ho V d V1 d1 0 n1 (rp_ok _ _ R))
    as (G2 & W2 & F2); rewrite ?Z.add_0_r; try done; try lia. cbv zeta in *. rewrite Z.add_0_r, Z.add_0_l in *. fold bn in G2, W2, F2.
  assert (slice (Z.to_nat 0) (Z.to_nat n1) (take (Z.to_nat n1) q) = take (Z.to_nat n1) q) as Esl.
  { change (Z.to_nat 0) with 0. unfold slice. rewrite drop_0. apply take_ge. lia. }
  rewrite Esl in *.
  assert (block_ok (splice (Z.to_nat (off mod BS)) (take (Z.to_nat n1) q) (V1 (blk V1 d1 bn)))) as Hbok.
  { apply splice_ok; [apply (rp_ok _ _ R1)|rewrite Hlt; unfold BS, BSIZE in *; lia|by apply Forall_take]. }
  destruct (wsect_rep m1 V1 _ _ R1 Hbf Hbb Hbok) as (m2 & E2 & R2 & Ef2 & Ei2).
  eexists m1, d1, _, _, m2, _. split; [exact E1|]. split; [by apply (rsect_rep m1 V1)|]. split; [exact E2|].
  split; [exact R2|]. split_and!; try done; [congruence|lia].
Qed.

Lemma iappend_loop_ok fuel : forall p m V d off, rep m V -> inode_ok sb V d -> full_below V d off -> (0 <= off)%Z ->
  (off + Z.of_nat (length p) <= Z.of_nat MAXFILE * BS)%Z -> Forall is_byte p -> length p <= fuel ->
  (im_freeblock m + cost (off + Z.of_nat (length p)) - cost off <= FSSIZE)%Z ->
  exists m' V' d', iappend_loop m d off p fuel = Ret (m', d', off + Z.of_nat (length p))%Z /\ rep m' V' /\
    grown sb V d V' d' /\ full_below V' d' (off + Z.of_nat (length p)) /\
    written off p V d V' d' off (off + Z.of_nat (length p)) /\ im_freeinode m' = im_freeinode m /\
    (im_freeblock m' <= im_freeblock m + cost (off + Z.of_nat (length p)) - cost off)%Z.
Proof.
  induction fuel as [|fuel IH]; intros p m V d off R IO Hfull Ho Hmax Hp Hfuel Hsp;
    (destruct p as [|c p]; [exists m, V, d; cbn [iappend_loop length Z.of_nat]; rewrite Z.add_0_r; split_and!; try done;
      [apply grown_refl; [apply R|done]|intros k Hk; by rewrite decide_False by lia|lia]|]); [simpl in Hfuel; lia|].
  cbn [iappend_loop]. set (q := c :: p) in *. assert (0 < length q) as Hq by (simpl; lia).
  assert (0 <= off / BS)%Z as Hdiv by (apply Z.div_pos; unfold BS; lia).
  pose proof (Z.div_mod off BS ltac:(done)) as Ed. pose proof (Z.mod_pos_bound off BS ltac:(done)) as Hmod.
  assert (Z.to_nat (off / BS) < MAXFILE) as Hbn.
  { assert (off / BS < Z.of_nat MAXFILE)%Z by (apply Z.div_lt_upper_bound; unfold BS in *; lia). lia. }
  unfold assert. rewrite (proj2 (Nat.ltb_lt _ _)) by done. cbn [obind]. rewrite Z2Nat.id by done.
  set (n1 := Z.min (Z.of_nat (length q)) ((off / BS + 1) * BS - off)).
  assert (0 < n1 <= Z.of_nat (length q) /\ off mod BS + n1 <= BS)%Z as [Hn1 Hroom] by (unfold n1, BS in *; lia).
  pose proof (cost_mono (off + n1) (off + Z.of_nat (length q)) ltac:(lia)) as Hcm.
  destruct (append_round m V d off q n1 R IO Hfull Ho Hbn Hp Hn1 Hroom ltac:(lia))
    as (m1 & d1 & x & buf & m2 & V2 & -> & E2 & E3 & R2 & G2 & F2 & W2 & Ei2 & Ef2). cbn [obind]. rewrite E2. cbn [obind].
  replace (off - off / BS * BS)%Z with (off mod BS)%Z by (unfold BS in *; lia). rewrite E3. cbn [obind]. rewrite Z2Nat.id by lia.
  assert (off + n1 + Z.of_nat (length (drop (Z.to_nat n1) q)) = off + Z.of_nat (length q))%Z as El by (rewrite length_drop; lia).
  destruct (IH (drop (Z.to_nat n1) q) m2 V2 d1 (off + n1)%Z R2 (gr_inode _ _ _ _ _ G2) F2) as (m' & V' & d' & E & R' & G' & F' & W' & Ei' & Ef');
    rewrite ?El in *; try first [by apply Forall_drop|lia|rewrite length_drop; lia].
  exists m', V', d'. split_and!; try done; [by eapply (grown_trans sb LY)| |congruence|lia].
  pose proof (written_append off (take (Z.to_nat n1) q) (drop (Z.to_nat n1) q) V d V2 d1 V' d') as Hw.
  rewrite take_drop, length_take_le, Z2Nat.id, El in Hw by lia. by apply Hw.
Qed.

(** ** The files on the image *)
Definition own (V : Z -> bytes) (d : dinode) (b : Z) : Prop :=
  b <> 0%Z /\ (b = ind d \/ exists n, n < MAXFILE /\ b = blk V d n).

(** Inode [d] is a file of type [ty] that holds [c], zeroes behind. *)
Record file_at (V : Z -> bytes) (d : dinode) (ty : Z) (c : bytes) : Prop := {
  fa_ok : inode_ok sb V d;
  fa_type : d_type d = ty;
  fa_link : d_nlink d = 1%Z;
  fa_size : d_size d = Z.of_nat (length c);
  fa_bytes : forall k, (0 <= k < Z.of_nat MAXFILE * BS)%Z -> fbyte V d k = default 0%Z (c !! Z.to_nat k)
}.

Lemma own_data V d b : inode_ok sb V d -> own V d b -> (data_start sb <= b < sb_size sb)%Z /\ used sb V b = true.
Proof.
  intros IO [Hb [->|(n & Hn & ->)]]; [by apply (io_ind _ _ _ IO)|]. destruct (io_blk _ _ _ IO n Hn Hb) as (? & ? & _). done.
Qed.

(** The blocks of [e] are the same on [V'] as on [V]. *)
Lemma same_blocks V V' e : inode_ok sb V e ->
  (forall b, own V e b -> V' b = V b) -> (forall x, (0 <= x < sb_size sb)%Z -> used sb V x = true -> used sb V' x = true) ->
  inode_ok sb V' e /\ (forall n, n < MAXFILE -> blk V' e n = blk V e n) /\ (forall k, (0 <= k < Z.of_nat MAXFILE * BS)%Z -> fbyte V' e k = fbyte V e k).
Proof.
  intros IO Hv Hu. assert (forall n, blk V' e n = blk V e n) as Eb.
  { intros n. unfold blk. case_match; [done|]. destruct (Z.eqb_spec (ind e) 0) as [|Hz]; [done|]. rewrite Hv; [done|]. split; [done|by left]. }
  assert (forall b, own V e b -> used sb V' b = true) as Hu'.
  { intros b Hb. destruct (own_data V e b IO Hb) as [Hr Hub]. apply Hu; [|done]. rewrite mkfs_start, nmeta_47 in Hr. lia. }
  split; [|split].
  - destruct IO as [I1 I2 I3 I4 I5]. split; [done|..].
    + intros n Hn. rewrite Eb. intros Hz. destruct (I2 n Hn Hz) as (H1 & H2 & H3). split_and!; try done; try lia.
      apply Hu'. split; [done|]. right. by exists n.
    + intros Hz. split; [by apply I3|]. apply Hu'. split; [done|by left].
    + intros n1 n2. rewrite !Eb. apply I4.
    + intros n. rewrite Eb. apply I5.
  - intros n _. apply Eb.
  - intros k Hk. unfold fbyte, cblk. rewrite Eb. destruct (Z.eqb_spec (blk V e (Z.to_nat (k / BS))) 0) as [|Hz]; [done|].
    rewrite Hv; [done|]. split; [done|]. right. eexists. split; [|done].
    assert (k / BS < Z.of_nat MAXFILE)%Z by (apply Z.div_lt_upper_bound; unfold BS in *; lia).
    assert (0 <= k / BS)%Z by (apply Z.div_pos; unfold BS; lia). lia.
Qed.

Lemma same_file V V' e ty c : file_at V e ty c ->
  (forall b, own V e b -> V' b = V b) -> (forall x, (0 <= x < sb_size sb)%Z -> used sb V x = true -> used sb V' x = true) ->
  file_at V' e ty c /\ forall b, own V' e b <-> own V e b.
Proof.
  intros [F1 F2 F3 F4 F5] Hv Hu. destruct (same_blocks V V' e F1 Hv Hu) as (IO & Eb & Ef). split.
  - split; try done. intros k Hk. by rewrite Ef, F5.
  - intros b. unfold own. split; intros [Hb [->|(n & Hn & ->)]]; (split; [done|]); [by left|right; exists n; by rewrite Eb|by left|right; exists n; by rewrite Eb].
Qed.

(** Writing an inode keeps the data. *)
Lemma inode_write_keeps V inum d e : (0 <= inum < sb_ninodes sb)%Z -> inode_ok sb V e ->
  (forall b, own V e b -> update_inode sb V inum d b = V b) /\
  (forall x, (0 <= x < sb_size sb)%Z -> used sb V x = true -> used sb (update_inode sb V inum d) x = true).
Proof.
  intros Hi IO. pose proof (iblock_range sb LY inum Hi) as Hib. pose proof (data_start_range sb LY). split.
  - intros b Hb. destruct (own_data V e b IO Hb) as [Hr _]. unfold update_inode. apply upd_other. lia.
  - intros x Hx Hu. unfold update_inode. rewrite (upd_used sb) by (done || lia). done.
Qed.

(** A grown file leaves the others alone and takes only free blocks. *)
Lemma grown_keeps V d V' d' e : grown sb V d V' d' -> inode_ok sb V e -> (forall b, own V e b -> ~ own V d b) ->
  forall b, own V e b -> V' b = V b.
Proof.
  intros G IO Hdis b Hb. apply (gr_frame _ _ _ _ _ G). right. destruct (own_data V e b IO Hb) as [Hr Hu].
  pose proof (Hdis b Hb) as Hno. destruct Hb as [Hz _]. split_and!; [lia|lia|done|..].
  - intros ->. apply Hno. split; [done|by left].
  - intros n Hn ->. apply Hno. split; [done|]. right. by exists n.
Qed.

Lemma grown_own V d V' d' b : grown sb V d V' d' -> own V' d' b -> own V d b \/ used sb V b = false.
Proof.
  intros G [Hz [->|(n & Hn & ->)]].
  - destruct (gr_ind _ _ _ _ _ G) as [E|(_ & _ & E)]; [left|by right]. split; [done|]. left. by rewrite E.
  - destruct (decide (blk V d n = 0%Z)) as [E|E].
    + destruct (gr_new _ _ _ _ _ G n Hn E) as [?|?]; [done|by right].
    + left. split; [done|]. right. exists n. split; [done|]. by apply (gr_blk _ _ _ _ _ G).
Qed.

(** ** The state of [mkfs]: the files [C], inode [i + 1] for entry [i] *)
Definition total (C : list (Z * bytes)) : Z := foldr (fun x acc => cost (Z.of_nat (length x.2)) + acc)%Z 0%Z C.

Record st (m : image) (V : Z -> bytes) (C : list (Z * bytes)) : Prop := {
  st_rep : rep m V;
  st_next : im_freeinode m = (Z.of_nat (length C) + 1)%Z;
  st_max : length C <= 199;
  st_file : forall i ty c, C !! i = Some (ty, c) -> file_at V (disk_inode sb V (Z.of_nat i + 1)) ty c;
  st_rest : forall i, (0 <= i < 200)%Z -> i = 0%Z \/ (Z.of_nat (length C) < i)%Z -> disk_inode sb V i = di0;
  st_disj : forall i j b, i < length C -> j < length C -> i <> j ->
    own V (disk_inode sb V (Z.of_nat i + 1)) b -> ~ own V (disk_inode sb V (Z.of_nat j + 1)) b;
  st_space : (im_freeblock m <= nmeta + total C)%Z;
  st_boot : forall b, (2 <= b < 33)%Z -> V b = zero_block;
  st_sb : V 1%Z = sb_block sb
}.

Lemma ninodes_200 : sb_ninodes sb = 200%Z.
Proof. reflexivity. Qed.

Lemma iblock_33 i : (0 <= i < 200)%Z -> (33 <= IBLOCK sb i < 46)%Z.
Proof. intros Hi. apply (iblock_range sb LY). by rewrite ninodes_200. Qed.

Lemma rinode_rep m V i : rep m V -> (0 <= i < 200)%Z -> rinode m i = Ret (disk_inode sb V i).
Proof.
  intros R Hi. pose proof (iblock_33 i Hi). unfold rinode.
  rewrite (rsect_rep m V) by (done || (change (sb_bmapstart sb) with 46%Z; unfold FSSIZE; lia)). done.
Qed.

Lemma winode_rep m V i d : rep m V -> (0 <= i < 200)%Z -> dinode_ok d ->
  exists m', winode m i d = Ret m' /\ rep m' (update_inode sb V i d) /\ im_freeblock m' = im_freeblock m /\ im_freeinode m' = im_freeinode m.
Proof.
  intros R Hi Hd. pose proof (iblock_33 i Hi). pose proof (rp_free _ _ R). rewrite nmeta_47 in *. unfold winode.
  rewrite (rsect_rep m V) by (done || (change (sb_bmapstart sb) with 46%Z; unfold FSSIZE in *; lia)). cbn [obind].
  apply wsect_rep; [done|lia|change (sb_bmapstart sb) with 46%Z; lia|].
  apply put_dinode_ok; [apply R|apply slot_range; lia|done].
Qed.

Lemma total_app C C' : total (C ++ C') = (total C + total C')%Z.
Proof. unfold total. induction C as [|x C IH]; simpl; [done|]. rewrite IH. lia. Qed.

Lemma total_insert C i ty c c' : C !! i = Some (ty, c) ->
  total (<[i := (ty, c')]> C) = (total C - cost (Z.of_nat (length c)) + cost (Z.of_nat (length c')))%Z.
Proof.
  intros Hi. pose proof (lookup_lt_Some _ _ _ Hi) as Hlt. rewrite insert_take_drop by done.
  rewrite <-(take_drop_middle C i _ Hi) at 3. rewrite !total_app. simpl. lia.
Qed.

(** A file with no blocks. *)
Definition empty_file (ty : Z) : dinode := mk_di ty 0 0 1 0 (replicate (NDIRECT + 1) 0%Z).

Lemma new_di_blk V ty n : blk V (empty_file ty) n = 0%Z /\ ind (empty_file ty) = 0%Z.
Proof.
  assert (ind (empty_file ty) = 0%Z) as Hi by done. split; [|done]. unfold blk. rewrite Hi. cbn [Z.eqb].
  destruct (Nat.ltb_spec n NDIRECT) as [Hn|]; [|done]. cbn [empty_file d_addrs]. by rewrite lookup_replicate_2 by (unfold NDIRECT in *; lia).
Qed.

Lemma new_di_ok ty : is_short ty -> dinode_ok (empty_file ty).
Proof.
  intros Hty. split; try done; try (unfold is_short, is_uint; simpl; lia).
  apply Forall_replicate. unfold is_uint. lia.
Qed.

Lemma new_di_file V ty : is_short ty -> file_at V (empty_file ty) ty [] /\ forall b, ~ own V (empty_file ty) b.
Proof.
  intros Hty. assert (forall b, ~ own V (empty_file ty) b) as Hno.
  { intros b [Hb [->|(n & Hn & ->)]]; apply Hb; apply (new_di_blk V ty 0) || apply (new_di_blk V ty n). }
  split; [|done]. split; try done.
  - split; [by apply new_di_ok|..].
    + intros n Hn Hz. by destruct Hz; apply new_di_blk.
    + intros Hz. by destruct Hz.
    + intros n n' _ _ Hz. by destruct Hz; apply new_di_blk.
    + intros n Hn. simpl in Hn. unfold BS in Hn. lia.
  - intros k Hk. unfold fbyte, cblk. rewrite (proj1 (new_di_blk V ty _)). change (0 =? 0)%Z with true. cbn iota.
    rewrite lookup_nil. destruct (zero_block !! Z.to_nat (k mod BS)) eqn:E; [|done]. by apply lookup_replicate in E as [-> _].
Qed.

(** The other inodes do not move when inode [i] is written. *)
Lemma update_other V i d j : disk_ok sb V -> (0 <= i < 200)%Z -> (0 <= j < 200)%Z -> j <> i -> dinode_ok d ->
  disk_inode sb (update_inode sb V i d) j = disk_inode sb V j.
Proof. intros. apply update_inode_other; done || lia. Qed.

Lemma ialloc_st m V C ty : st m V C -> length C < 199 -> is_short ty ->
  exists m' V', ialloc m ty = Ret (m', Z.of_nat (length C) + 1)%Z /\ st m' V' (C ++ [(ty, [])]) .
Proof.
  intros [R Hn Hm Hf Hr Hd Hs Hb Hsb] Hlen Hty. pose proof (rp_ok _ _ R) as OK. unfold ialloc. rewrite Hn. fold (empty_file ty).
  replace (u32 (Z.of_nat (length C) + 1 + 1)) with (Z.of_nat (length C) + 2)%Z by (unfold u32; rewrite Z.mod_small; lia).
  set (i := (Z.of_nat (length C) + 1)%Z). assert (0 <= i < 200)%Z as Hi by (unfold i; lia).
  assert (rep (mk_image (im_blocks m) (Z.of_nat (length C) + 2) (im_freeblock m)) V) as R1 by (by destruct R).
  destruct (winode_rep _ V i (empty_file ty) R1 Hi (new_di_ok ty Hty)) as (m' & -> & R' & Ef & Ei). cbn [obind].
  set (V' := update_inode sb V i (empty_file ty)) in *.
  assert (disk_inode sb V' i = empty_file ty) as Enew by (apply update_inode_same; [done|lia|by apply new_di_ok]).
  assert (forall j, (0 <= j < 200)%Z -> j <> i -> disk_inode sb V' j = disk_inode sb V j) as Eold.
  { intros j Hj Hne. apply update_other; try done. by apply new_di_ok. }
  assert (forall j ty' c, C !! j = Some (ty', c) -> file_at V' (disk_inode sb V (Z.of_nat j + 1)) ty' c /\
    forall b, own V' (disk_inode sb V (Z.of_nat j + 1)) b <-> own V (disk_inode sb V (Z.of_nat j + 1)) b) as Hkeep.
  { intros j ty' c Hj. pose proof (Hf j ty' c Hj) as F.
    destruct (inode_write_keeps V i (empty_file ty) _ ltac:(rewrite ninodes_200; done) (fa_ok _ _ _ _ F)) as [K1 K2]. by apply same_file. }
  exists m', V'. split; [done|]. constructor; rewrite ?length_app; cbn [length].
  - done.
  - rewrite Ei. cbn. lia.
  - lia.
  - intros j ty' c Hj. apply lookup_app_Some in Hj as [Hj|[Hj1 Hj2]].
    + pose proof (lookup_lt_Some _ _ _ Hj). rewrite Eold by (unfold i; lia). by apply (Hkeep j).
    + apply list_lookup_singleton_Some in Hj2 as [Hj2 [= <- <-]].
      replace (Z.of_nat j + 1)%Z with i by (unfold i; lia). rewrite Enew. by apply new_di_file.
  - intros j Hj Hj'. rewrite Eold by (unfold i; lia). apply Hr; lia.
  - intros j j' b Hj Hj' Hne Hb1 Hb2.
    assert (forall k, k < length C + 1 -> own V' (disk_inode sb V' (Z.of_nat k + 1)) b ->
      k < length C /\ own V (disk_inode sb V (Z.of_nat k + 1)) b) as Hold.
    { intros k Hk Ho. destruct (decide (k = length C)) as [->|].
      - fold i in Ho. rewrite Enew in Ho. by destruct (new_di_file V' ty Hty) as [_ Hno]; destruct (Hno b).
      - rewrite Eold in Ho by (unfold i; lia). split; [lia|].
        destruct (lookup_lt_is_Some_2 C k) as [[ty' c] Hk']; [lia|]. by apply (proj2 (Hkeep k ty' c Hk')). }
    apply Hold in Hb1 as [??]; [|done]. apply Hold in Hb2 as [??]; [|done]. by eapply (Hd j j').
  - rewrite Ef, total_app. change (total [(ty, [])]) with 0%Z. cbn [im_freeblock]. lia.
  - intros b Hb'. unfold V', update_inode. pose proof (iblock_33 i Hi). rewrite upd_other by lia. by apply Hb.
  - unfold V', update_inode. pose proof (iblock_33 i Hi). rewrite upd_other by lia. done.
Qed.

(** The other files when one of them has grown and its inode was written. *)
Lemma grow_others m V C i ty c V1 d1 len j ty' c' : st m V C -> C !! i = Some (ty, c) -> C !! j = Some (ty', c') -> j <> i ->
  grown sb V (disk_inode sb V (Z.of_nat i + 1)) V1 d1 -> inode_ok sb V1 (set_size d1 len) ->
  let V2 := update_inode sb V1 (Z.of_nat i + 1) (set_size d1 len) in
  let e := disk_inode sb V (Z.of_nat j + 1) in
  disk_inode sb V2 (Z.of_nat j + 1) = e /\ file_at V2 e ty' c' /\ forall b, own V2 e b <-> own V e b.
Proof.
  intros S Hi Hj Hne G IO2 V2 e. pose proof (lookup_lt_Some _ _ _ Hi) as Hli. pose proof (lookup_lt_Some _ _ _ Hj) as Hlj.
  pose proof (st_max _ _ _ S) as Hm. pose proof (st_file _ _ _ S j ty' c' Hj) as F. fold e in F.
  destruct (same_file V V1 e ty' c' F) as [F1 O1].
  { apply (grown_keeps V _ V1 d1 e G); [apply F|]. intros b Hb. by apply (st_disj _ _ _ S j i). }
  { apply (gr_used _ _ _ _ _ G). }
  destruct (inode_write_keeps V1 (Z.of_nat i + 1) (set_size d1 len) e) as [K1 K2]; [rewrite ninodes_200; lia|apply F1|].
  destruct (same_file V1 V2 e ty' c' F1 K1 K2) as [F2 O2]. split; [|split; [done|]].
  - unfold V2. rewrite update_other by (lia || apply G || apply IO2). unfold disk_inode.
    pose proof (iblock_33 (Z.of_nat j + 1) ltac:(lia)). rewrite (gr_frame _ _ _ _ _ G); [done|]. left. change (sb_bmapstart sb) with 46%Z. lia.
  - intros b. by rewrite O2, O1.
Qed.

(** The grown file itself. *)
Lemma grow_file V ty c p inum V1 d1 : file_at V (disk_inode sb V inum) ty c -> (0 <= inum < 200)%Z ->
  let off := Z.of_nat (length c) in let len := Z.of_nat (length (c ++ p)) in
  grown sb V (disk_inode sb V inum) V1 d1 -> inode_ok sb V1 (set_size d1 len) ->
  written off p V (disk_inode sb V inum) V1 d1 off len ->
  file_at (update_inode sb V1 inum (set_size d1 len)) (set_size d1 len) ty (c ++ p) /\
  forall b, own (update_inode sb V1 inum (set_size d1 len)) (set_size d1 len) b -> own V (disk_inode sb V inum) b \/ used sb V b = false.
Proof.
  intros [F1 F2 F3 F4 F5] Hin off len G IO2 W. pose proof (gr_meta _ _ _ _ _ G) as Hmeta. unfold d_meta in Hmeta.
  assert (file_at V1 (set_size d1 len) ty (c ++ p)) as F.
  { split; cbn [set_size d_type d_nlink d_size]; [done|congruence|congruence|done|]. intros k Hk.
    change (fbyte V1 (set_size d1 len) k) with (fbyte V1 d1 k). rewrite (W k Hk). unfold off, len. rewrite length_app. case_decide as H1.
    - rewrite lookup_app_r by lia. do 2 f_equal. lia.
    - rewrite F5 by done. destruct (decide (k < Z.of_nat (length c))%Z); [by rewrite lookup_app_l by lia|].
      rewrite !lookup_ge_None_2 by (rewrite ?length_app; lia). done. }
  destruct (inode_write_keeps V1 inum (set_size d1 len) (set_size d1 len)) as [K1 K2]; [by rewrite ninodes_200|done|].
  destruct (same_file V1 _ _ ty (c ++ p) F K1 K2) as [F' O']. split; [done|]. intros b Hb. apply O' in Hb.
  by apply (grown_own V _ V1 d1 b G).
Qed.

Lemma grow_st m V C i ty c p V1 d1 m2 : st m V C -> C !! i = Some (ty, c) ->
  let inum := (Z.of_nat i + 1)%Z in let off := Z.of_nat (length c) in let len := Z.of_nat (length (c ++ p)) in
  let V2 := update_inode sb V1 inum (set_size d1 len) in
  grown sb V (disk_inode sb V inum) V1 d1 -> inode_ok sb V1 (set_size d1 len) ->
  written off p V (disk_inode sb V inum) V1 d1 off len -> rep m2 V2 -> im_freeinode m2 = im_freeinode m ->
  (im_freeblock m2 <= im_freeblock m + cost len - cost off)%Z -> st m2 V2 (<[i := (ty, c ++ p)]> C).
Proof.
  intros S Hi inum off len V2 G IO2 W R2 Ei Ef. pose proof (lookup_lt_Some _ _ _ Hi) as Hlt. pose proof (st_max _ _ _ S) as Hm.
  assert (0 <= inum < 200)%Z as Hin by (unfold inum; lia). pose proof (iblock_33 inum Hin) as Hib.
  destruct (grow_file V ty c p inum V1 d1 (st_file _ _ _ S i ty c Hi) Hin G IO2 W) as [F O].
  assert (disk_inode sb V2 inum = set_size d1 len) as Enew by (apply update_inode_same; [apply G|lia|apply IO2]).
  assert (forall j ty' c', C !! j = Some (ty', c') -> j <> i -> disk_inode sb V2 (Z.of_nat j + 1) = disk_inode sb V (Z.of_nat j + 1) /\
    file_at V2 (disk_inode sb V (Z.of_nat j + 1)) ty' c' /\
    forall b, own V2 (disk_inode sb V (Z.of_nat j + 1)) b <-> own V (disk_inode sb V (Z.of_nat j + 1)) b) as Hoth.
  { intros j ty' c' Hj Hne. by apply (grow_others m V C i ty c V1 d1 len j ty' c'). }
  assert (forall b, (1 <= b < 33)%Z -> V2 b = V b) as Elow.
  { intros b Hb. unfold V2, update_inode. rewrite upd_other by lia. apply (gr_frame _ _ _ _ _ G). left. change (sb_bmapstart sb) with 46%Z. lia. }
  constructor; rewrite ?length_insert.
  - done.
  - rewrite Ei. apply S.
  - done.
  - intros j ty' c' Hj. destruct (decide (j = i)) as [->|Hne].
    + rewrite list_lookup_insert_eq in Hj by done. injection Hj as <- <-. fold inum. by rewrite Enew.
    + rewrite list_lookup_insert_ne in Hj by done. destruct (Hoth j ty' c' Hj Hne) as (-> & ? & _). done.
  - intros j Hj Hj'. rewrite <-(st_rest _ _ _ S j Hj Hj'). unfold V2. rewrite update_other; [|apply G|done|done|unfold inum; lia|apply IO2].
    unfold disk_inode. pose proof (iblock_33 j Hj). rewrite (gr_frame _ _ _ _ _ G); [done|]. left. change (sb_bmapstart sb) with 46%Z. lia.
  - intros j j' b Hj Hj' Hne. destruct (lookup_lt_is_Some_2 C j) as [[tj cj] Ej]; [done|]. destruct (lookup_lt_is_Some_2 C j') as [[tj' cj'] Ej']; [done|].
    assert (forall k tk ck, C !! k = Some (tk, ck) -> k <> i -> own V2 (disk_inode sb V2 (Z.of_nat k + 1)) b -> own V2 (set_size d1 len) b -> False) as Hx.
    { intros k tk ck Hk Hki Ho1 Ho2. destruct (Hoth k tk ck Hk Hki) as (Ek & _ & Ok). rewrite Ek in Ho1. apply Ok in Ho1.
      destruct (O b Ho2) as [Ho2'|Hu]; [by eapply (st_disj _ _ _ S k i b); [by eapply lookup_lt_Some|..]|].
      destruct (own_data V _ b (fa_ok _ _ _ _ (st_file _ _ _ S k tk ck Hk)) Ho1). congruence. }
    intros Ho Ho'. destruct (decide (j = i)) as [->|Hji]; [fold inum in Ho; rewrite Enew in Ho; by eapply (Hx j')|].
    destruct (decide (j' = i)) as [->|Hji']; [fold inum in Ho'; rewrite Enew in Ho'; by eapply (Hx j)|].
    destruct (Hoth j tj cj Ej Hji) as (E1 & _ & O1). destruct (Hoth j' tj' cj' Ej' Hji') as (E2 & _ & O2). rewrite E1 in Ho. rewrite E2 in Ho'.
    apply (st_disj _ _ _ S j j' b); [done..|by apply O1|by apply O2].
  - rewrite (total_insert _ _ _ _ _ Hi). pose proof (st_space _ _ _ S). fold off len. lia.
  - intros b Hb. rewrite Elow by lia. by apply (st_boot _ _ _ S).
  - rewrite Elow by lia. apply (st_sb _ _ _ S).
Qed.

(** Appending to file [i]. *)
Lemma iappend_st m V C i ty c p : st m V C -> C !! i = Some (ty, c) -> Forall is_byte p ->
  (Z.of_nat (length (c ++ p)) <= Z.of_nat MAXFILE * BS)%Z ->
  (nmeta + total (<[i := (ty, c ++ p)]> C) <= FSSIZE)%Z ->
  exists m' V', iappend m (Z.of_nat i + 1) p = Ret m' /\ st m' V' (<[i := (ty, c ++ p)]> C).
Proof.
  intros S Hi Hp Hmax Hsp. pose proof (lookup_lt_Some _ _ _ Hi) as Hlt. pose proof (st_max _ _ _ S) as Hm.
  rewrite (total_insert _ _ _ _ _ Hi) in Hsp. pose proof (st_file _ _ _ S i ty c Hi) as [F1 F2 F3 F4 F5].
  pose proof (st_space _ _ _ S) as Hspace. pose proof (st_rep _ _ _ S) as R.
  set (inum := (Z.of_nat i + 1)%Z) in *. assert (0 <= inum < 200)%Z as Hin by (unfold inum; lia).
  set (d := disk_inode sb V inum) in *. set (off := Z.of_nat (length c)) in *.
  assert (off + Z.of_nat (length p) = Z.of_nat (length (c ++ p)))%Z as El by (rewrite length_app; unfold off; lia).
  unfold iappend. rewrite (rinode_rep m V) by done. cbn [obind]. fold d. rewrite F4.
  destruct (iappend_loop_ok (length p) p m V d off R F1) as (m1 & V1 & d1 & -> & R1 & G & Hfull & W & Ei1 & Ef1);
    try done; try (unfold off; lia); [intros n Hn'; apply (io_full _ _ _ F1); by rewrite F4|rewrite El; lia|]. cbn [obind]. rewrite El in *.
  assert (inode_ok sb V1 (set_size d1 (Z.of_nat (length (c ++ p))))) as IO2 by (apply (inode_ok_size sb 0 0 []); try done; [apply G|lia]).
  destruct (winode_rep m1 V1 inum _ R1 Hin (io_ok _ _ _ IO2)) as (m2 & -> & R2 & Ef2 & Ei2).
  eexists m2, _. split; [done|]. eapply grow_st; try done; [congruence|]. rewrite Ef2. exact Ef1.
Qed.

(** ** [main] *)
Lemma zero_sects_ok n : forall k fi fb,
  zero_sects (mk_image (replicate k zero_block) fi fb) (Z.of_nat k) n = Ret (mk_image (replicate (k + n) zero_block) fi fb).
Proof.
  induction n as [|n IH]; intros k fi fb; cbn [zero_sects]; [by rewrite Nat.add_0_r|].
  unfold wsect. cbn [im_blocks]. rewrite Nat2Z.id, length_replicate, Nat.ltb_irrefl, Nat.sub_diag. cbn [obind replicate app].
  unfold with_blocks. cbn [im_blocks im_freeinode im_freeblock].
  replace (replicate k zero_block ++ [zero_block]) with (replicate (S k) zero_block) by (by rewrite <-replicate_cons_app).
  replace (Z.of_nat k + 1)%Z with (Z.of_nat (S k)) by lia. rewrite IH. do 3 f_equal. lia.
Qed.

(** The empty disk, with the blocks of the metadata in use. *)
Definition empty_disk (b : Z) : bytes := if decide (b = sb_bmapstart sb) then bits 47 else zero_block.

Lemma empty_rep : rep (mk_image (replicate (Z.to_nat FSSIZE) zero_block) 1 nmeta) empty_disk.
Proof.
  constructor; cbn [im_blocks im_freeblock].
  - apply length_replicate.
  - intros b Hb Hne. rewrite lookup_replicate_2 by lia. unfold empty_disk. by rewrite decide_False.
  - rewrite nmeta_47. unfold FSSIZE. lia.
  - unfold empty_disk. rewrite decide_True by done. done.
  - intros b Hb. rewrite nmeta_47 in Hb. unfold empty_disk. rewrite decide_False; [done|]. change (sb_bmapstart sb) with 46%Z. lia.
  - split.
    + intros b. unfold empty_disk. case_decide; [|apply zero_block_ok]. apply bits_ok. unfold BPB. lia.
    + intros b Hb. rewrite mkfs_start, nmeta_47 in Hb. unfold used, BBLOCK, BPB. rewrite Z.div_small, Z.mod_small by lia.
      rewrite Z.add_0_l. unfold empty_disk. rewrite decide_True by done. rewrite bit_bits by (unfold BPB; lia). apply Z.ltb_lt. lia.
Qed.

Lemma sb_block_ok : block_ok (sb_block sb).
Proof.
  apply splice_ok; [apply zero_block_ok|vm_compute; lia|]. unfold sb_words. cbn [mbind list_bind].
  repeat (apply Forall_app; split; [apply le_encode_bytes|]). constructor.
Qed.

Lemma dinode_at_zero off : dinode_at zero_block off = di0.
Proof.
  assert (forall n o, get_le n zero_block o = 0%Z) as E.
  { intros n o. unfold get_le, slice, zero_block. rewrite drop_replicate, take_replicate.
    induction (n `min` (BSIZE - o)) as [|k IH]; [done|]. simpl. by rewrite IH. }
  unfold dinode_at, di0. rewrite !E. f_equal. apply list_eq. intros k. rewrite list_lookup_fmap. destruct (decide (k < NDIRECT + 1)).
  - rewrite lookup_seq_lt, lookup_replicate_2 by done. cbn. by rewrite E.
  - rewrite lookup_seq_ge by lia. by rewrite (lookup_ge_None_2 (replicate _ _)) by (rewrite length_replicate; lia).
Qed.

(** The state after the super block was written. *)
Lemma start_st : exists mz m V, zero_sects (mk_image [] 1 nmeta) 0 (Z.to_nat FSSIZE) = Ret mz /\
  wsect mz 1 (sb_block sb) = Ret m /\ st m V [].
Proof.
  pose proof (zero_sects_ok (Z.to_nat FSSIZE) 0 1 nmeta) as E. change (Z.of_nat 0) with 0%Z in E. cbn [replicate Nat.add] in E.
  destruct (wsect_rep _ _ 1 (sb_block sb) empty_rep) as (m' & E1 & R & Ef & Ei); [cbn [im_freeblock]; rewrite nmeta_47; lia|done|apply sb_block_ok|].
  eexists _, m', _. split; [exact E|]. split; [exact E1|]. clear E E1. assert (forall b, b <> 1%Z -> b <> 46%Z -> upd empty_disk 1 (sb_block sb) b = zero_block) as E0.
  { intros b H1 H2. rewrite upd_other by done. unfold empty_disk. by rewrite decide_False. }
  constructor.
  - exact R.
  - by rewrite Ei.
  - cbn. lia.
  - intros i ty c Hi. by rewrite lookup_nil in Hi.
  - intros i Hi _. unfold disk_inode. pose proof (iblock_33 i Hi). rewrite E0 by lia. apply dinode_at_zero.
  - intros i j b Hi. cbn [length] in Hi. lia.
  - rewrite Ef. cbn [im_freeblock total foldr]. lia.
  - intros b Hb. apply E0; lia.
  - apply upd_same.
Qed.

Lemma append_pieces_st i ty pieces : forall m V C c, st m V C -> C !! i = Some (ty, c) -> Forall (Forall is_byte) pieces ->
  (Z.of_nat (length (c ++ concat pieces)) <= Z.of_nat MAXFILE * BS)%Z ->
  (nmeta + total (<[i := (ty, c ++ concat pieces)]> C) <= FSSIZE)%Z ->
  exists m' V', append_pieces m (Z.of_nat i + 1) pieces = Ret m' /\ st m' V' (<[i := (ty, c ++ concat pieces)]> C).
Proof.
  induction pieces as [|p pieces IH]; intros m V C c S Hi Hp Hmax Hsp; cbn [append_pieces concat] in *.
  { exists m, V. split; [done|]. rewrite app_nil_r. by rewrite list_insert_id. }
  apply Forall_cons in Hp as [Hp Hps]. rewrite app_assoc in *. pose proof (lookup_lt_Some _ _ _ Hi) as Hlt.
  pose proof (cost_mono (Z.of_nat (length (c ++ p))) (Z.of_nat (length ((c ++ p) ++ concat pieces)))) as Hc.
  rewrite (length_app (c ++ p)) in Hc, Hmax. specialize (Hc ltac:(lia)).
  destruct (iappend_st m V C i ty c p S Hi Hp) as (m1 & V1 & -> & S1); [lia| |].
  { rewrite (total_insert C i ty c _ Hi) in Hsp. rewrite (total_insert C i ty c _ Hi). rewrite (length_app (c ++ p)) in Hsp. lia. }
  cbn [obind]. destruct (IH m1 V1 _ (c ++ p) S1) as (m' & V' & -> & S').
  - by rewrite list_lookup_insert_eq.
  - done.
  - rewrite length_app. lia.
  - by rewrite list_insert_insert_eq.
  - exists m', V'. split; [done|]. by rewrite list_insert_insert_eq in S'.
Qed.

(** The arguments that [mkfs] accepts: the name on the image and the pieces of
    the contents. *)
Definition file_name (file : bytes * option (list bytes)) : bytes := skip_underscore (shortname file.1).
Definition content (file : bytes * option (list bytes)) : bytes := concat (default [] file.2).

Record file_ok (file : bytes * option (list bytes)) : Prop := {
  fl_slash : SLASH ∉ shortname file.1;
  fl_open : is_Some file.2;
  fl_len : length (file_name file) <= DIRSIZ;
  fl_name : Forall is_byte (file_name file) /\ Forall (fun c => c <> 0%Z) (file_name file);
  fl_bytes : Forall (Forall is_byte) (default [] file.2);
  fl_size : (Z.of_nat (length (content file)) <= Z.of_nat MAXFILE * BS)%Z
}.

(** The entries of files that get inodes from [k] on. *)
Fixpoint entries (k : nat) (files : list (bytes * option (list bytes))) : list bytes :=
  match files with [] => [] | file :: files => dirent (Z.of_nat k) (file_name file) :: entries (S k) files end.

Definition sizes (files : list (bytes * option (list bytes))) : Z := total ((fun file => (T_FILE, content file)) <$> files).

Lemma total_nonneg C : (0 <= total C)%Z.
Proof.
  induction C as [|x C IH]; cbn [total foldr]; [lia|]. change (foldr _ 0%Z C) with (total C).
  pose proof (cost_mono 0 (Z.of_nat (length x.2)) ltac:(lia)) as Hc. change (cost 0) with 0%Z in Hc. lia.
Qed.

Lemma add_file_st m V C c0 file : st m V C -> C !! 0 = Some (T_DIR, c0) -> length C < 199 -> file_ok file ->
  (Z.of_nat (length c0) + 16 <= Z.of_nat MAXFILE * BS)%Z ->
  (nmeta + total C - cost (Z.of_nat (length c0)) + cost (Z.of_nat (length c0) + 16) + cost (Z.of_nat (length (content file))) <= FSSIZE)%Z ->
  exists m' V', add_file m 1 file = Ret m' /\
    st m' V' (<[0 := (T_DIR, c0 ++ dirent (Z.of_nat (length C) + 1) (file_name file))]> C ++ [(T_FILE, content file)]).
Proof.
  intros S H0 Hlen [K1 K2 K3 [K4 _] K5 K6] Hroot Hsp. pose proof (lookup_lt_Some _ _ _ H0) as Hl0.
  destruct file as [arg [pieces|]]; [|by destruct K2]. unfold add_file, assert. cbn [fst] in *.
  rewrite bool_decide_eq_true_2 by done. cbn [obind]. unfold file_name in K3. cbn [fst] in K3. rewrite (proj2 (Nat.leb_le _ _)) by done. cbn [obind].
  destruct (ialloc_st m V C T_FILE S Hlen ltac:(unfold is_short, T_FILE; lia)) as (m1 & V1 & -> & S1). cbn [obind].
  set (e := dirent (Z.of_nat (length C) + 1) (skip_underscore (shortname arg))).
  assert (length e = 16) as He by apply length_dirent.
  pose proof (cost_mono 0 (Z.of_nat (length (content (arg, Some pieces)))) ltac:(lia)) as Hc. change (cost 0) with 0%Z in Hc.
  assert ((C ++ [(T_FILE, [])]) !! 0 = Some (T_DIR, c0)) as H0' by (by rewrite lookup_app_l).
  destruct (iappend_st m1 V1 _ 0 T_DIR c0 e S1 H0') as (m2 & V2 & E2 & S2).
  { by apply dirent_bytes. } { rewrite length_app, He. lia. }
  { rewrite (total_insert _ _ _ _ _ H0'), total_app, length_app, He. change (total [(T_FILE, [])]) with 0%Z.
    rewrite Nat2Z.inj_add. change (Z.of_nat 16) with 16%Z. lia. }
  change (Z.of_nat 0 + 1)%Z with 1%Z in E2. rewrite E2. cbn [obind].
  rewrite insert_app_l in S2 by done. set (C2 := <[0 := (T_DIR, c0 ++ e)]> C) in *.
  assert (length C2 = length C) as Hl2 by (apply length_insert).
  assert ((C2 ++ [(T_FILE, [])]) !! length C = Some (T_FILE, [])) as H1 by (by rewrite lookup_app_r, Hl2, Nat.sub_diag by lia).
  destruct (append_pieces_st (length C) T_FILE pieces m2 V2 _ [] S2 H1 K5) as (m3 & V3 & -> & S3); [done| |].
  - rewrite (total_insert _ _ _ _ _ H1), total_app. unfold C2. rewrite (total_insert _ _ _ _ _ H0), length_app, He.
    change (total [(T_FILE, [])]) with 0%Z. change (cost (Z.of_nat (length []))) with 0%Z.
    rewrite Nat2Z.inj_add. change (Z.of_nat 16) with 16%Z. cbn [app].
    change (content (arg, Some pieces)) with (concat pieces) in *. lia.
  - exists m3, V3. split; [done|]. rewrite insert_app_r_alt, Hl2, Nat.sub_diag in S3 by lia. exact S3.
Qed.

Lemma add_files_st files : forall m V C c0, st m V C -> C !! 0 = Some (T_DIR, c0) -> length C + length files <= 199 -> Forall file_ok files ->
  (Z.of_nat (length c0) + 16 * Z.of_nat (length files) <= Z.of_nat MAXFILE * BS)%Z ->
  (nmeta + total C - cost (Z.of_nat (length c0)) + cost (Z.of_nat (length c0) + 16 * Z.of_nat (length files)) + sizes files <= FSSIZE)%Z ->
  exists m' V', add_files m 1 files = Ret m' /\
    st m' V' (<[0 := (T_DIR, c0 ++ concat (entries (length C + 1) files))]> C ++ ((fun file => (T_FILE, content file)) <$> files)).
Proof.
  induction files as [|file files IH]; intros m V C c0 HS H0 Hlen Hok Hroot Hsp; cbn [add_files entries concat fmap list_fmap length] in *.
  { exists m, V. split; [done|]. by rewrite !app_nil_r, list_insert_id. }
  apply Forall_cons in Hok as [Hf Hok]. pose proof (lookup_lt_Some _ _ _ H0) as Hl0.
  assert (sizes (file :: files) = cost (Z.of_nat (length (content file))) + sizes files)%Z as Es by done. rewrite Es in Hsp.
  pose proof (total_nonneg ((fun file => (T_FILE, content file)) <$> files)) as Hnn. fold (sizes files) in Hnn.
  pose proof (cost_mono (Z.of_nat (length c0) + 16) (Z.of_nat (length c0) + 16 * Z.of_nat (S (length files))) ltac:(lia)) as Hc.
  destruct (add_file_st m V C c0 file HS H0) as (m1 & V1 & -> & S1); [lia|done|lia|lia|]. cbn [obind].
  set (e := dirent (Z.of_nat (length C) + 1) (file_name file)) in *. assert (length e = 16) as He by apply length_dirent.
  set (C1 := <[0 := (T_DIR, c0 ++ e)]> C ++ [(T_FILE, content file)]) in *.
  assert (length C1 = length C + 1) as Hl1 by (unfold C1; by rewrite length_app, length_insert).
  assert (C1 !! 0 = Some (T_DIR, c0 ++ e)) as H1.
  { unfold C1. rewrite lookup_app_l by (by rewrite length_insert). by rewrite list_lookup_insert_eq. }
  assert (total C1 = total C - cost (Z.of_nat (length c0)) + cost (Z.of_nat (length c0) + 16) + cost (Z.of_nat (length (content file))))%Z as Et.
  { unfold C1. rewrite total_app, (total_insert _ _ _ _ _ H0), length_app, He, Nat2Z.inj_add. change (Z.of_nat 16) with 16%Z.
    cbn [total foldr snd]. lia. }
  assert (Z.of_nat (length (c0 ++ e)) + 16 * Z.of_nat (length files) = Z.of_nat (length c0) + 16 * Z.of_nat (S (length files)))%Z as El
    by (rewrite length_app, He; lia).
  destruct (IH m1 V1 C1 (c0 ++ e) S1 H1) as (m' & V' & -> & S'); rewrite ?Hl1, ?El; try done; try lia.
  { rewrite length_app, He, Nat2Z.inj_add. change (Z.of_nat 16) with 16%Z. lia. }
  exists m', V'. split; [done|]. rewrite Hl1 in S'. unfold C1 in S'. rewrite insert_app_l in S' by (by rewrite length_insert).
  rewrite list_insert_insert_eq, <-!app_assoc in S'. replace (Z.of_nat (length C + 1)) with (Z.of_nat (length C) + 1)%Z by lia.
  replace (S (length C + 1)) with (length C + 1 + 1) by lia. exact S'.
Qed.

(** The files after the loop, in terms of the arguments. *)
Definition root_entries (files : list (bytes * option (list bytes))) : list bytes :=
  dirent 1 [DOT] :: dirent 1 [DOT; DOT] :: entries 2 files.

Definition image_files (files : list (bytes * option (list bytes))) : list (Z * bytes) :=
  (T_DIR, concat (root_entries files)) :: ((fun file => (T_FILE, content file)) <$> files).

(** What fits an image. *)
Record fits (files : list (bytes * option (list bytes))) : Prop := {
  ft_files : Forall file_ok files;
  ft_inodes : length files <= 198;
  ft_space : (nmeta + cost (16 * (Z.of_nat (length files) + 2)) + sizes files <= FSSIZE)%Z
}.

Lemma loop_st files : fits files -> exists m V,
  (let m := mk_image [] 1 nmeta in
   let* m := zero_sects m 0 (Z.to_nat FSSIZE) in
   let* m := wsect m 1 (sb_block sb) in
   let* '(m, rootino) := ialloc m T_DIR in
   let* _ := assert (rootino =? ROOTINO)%Z in
   let* m := iappend m rootino (dirent rootino [DOT]) in
   let* m := iappend m rootino (dirent rootino [DOT; DOT]) in
   add_files m rootino files) = Ret m /\ st m V (image_files files).
Proof.
  intros [Hok Hn Hsp]. destruct start_st as (mz & m0 & V0 & Ez & E0 & S0).
  cbv zeta. rewrite Ez. cbn [obind]. rewrite E0. cbn [obind].
  destruct (ialloc_st m0 V0 [] T_DIR S0) as (m1 & V1 & -> & S1); [cbn; lia|unfold is_short, T_DIR; lia|]. cbn [obind length app] in *.
  change (Z.of_nat 0 + 1)%Z with 1%Z. unfold assert. change (1 =? ROOTINO)%Z with true. cbn [obind].
  pose proof (total_nonneg ((fun file => (T_FILE, content file)) <$> files)) as Hnn. fold (sizes files) in Hnn.
  pose proof (cost_mono 32 (16 * (Z.of_nat (length files) + 2)) ltac:(lia)) as Hc. change (cost 32) with 1%Z in Hc.
  destruct (iappend_st m1 V1 _ 0 T_DIR [] (dirent 1 [DOT]) S1 eq_refl) as (m2 & V2 & E2 & S2).
  { apply dirent_bytes. repeat constructor; unfold is_byte, DOT; lia. } { vm_compute. done. }
  { cbn [list_insert insert total foldr snd app]. rewrite length_dirent. change (cost (Z.of_nat DIRENT)) with 1%Z. lia. }
  change (Z.of_nat 0 + 1)%Z with 1%Z in E2. rewrite E2. cbn [obind]. cbn [list_insert insert app] in S2.
  destruct (iappend_st m2 V2 _ 0 T_DIR (dirent 1 [DOT]) (dirent 1 [DOT; DOT]) S2 eq_refl) as (m3 & V3 & E3 & S3).
  { apply dirent_bytes. repeat constructor; unfold is_byte, DOT; lia. } { vm_compute. done. }
  { cbn [list_insert insert total foldr snd]. rewrite length_app, !length_dirent. change (cost (Z.of_nat (DIRENT + DIRENT))) with 1%Z. lia. }
  change (Z.of_nat 0 + 1)%Z with 1%Z in E3. rewrite E3. cbn [obind]. cbn [list_insert insert] in S3.
  set (c0 := dirent 1 [DOT] ++ dirent 1 [DOT; DOT]) in *. assert (length c0 = 32) as Hl0 by reflexivity.
  destruct (add_files_st files m3 V3 _ c0 S3 eq_refl) as (m' & V' & -> & S').
  - cbn [length]. lia.
  - done.
  - rewrite Hl0. unfold MAXFILE, BS. lia.
  - rewrite Hl0. change (Z.of_nat 32) with 32%Z. cbn [total foldr snd]. rewrite Hl0. change (Z.of_nat 32) with 32%Z.
    replace (32 + 16 * Z.of_nat (length files))%Z with (16 * (Z.of_nat (length files) + 2))%Z by lia. lia.
  - exists m', V'. split; [done|]. cbn [list_insert insert length Nat.add app] in S'. unfold image_files, root_entries. cbn [concat].
    rewrite app_assoc. exact S'.
Qed.
