(* ===== verification/MkfsTree.v ===== *)
(** * The tree on a new image

    The end of [mkfs]'s [main] and the theorem on the whole: the image that
    [mkfs] builds is one on which the kernel's file system works. *)

From S2P Require Import Prelude Bytes Bio Log Txn Fs FsBlocks FsContent Dir Mkfs MkfsInv.

Local Open Scope nat_scope.
Local Abbreviation sb := mkfs_sb.

(** ** The directory *)
Lemma entries_length k files : length (entries k files) = length files.
Proof. revert k. induction files as [|f files IH]; intros k; [done|]. cbn. by rewrite IH. Qed.

Lemma entries_lookup files : forall k i file, files !! i = Some file -> entries k files !! i = Some (dirent (Z.of_nat (k + i)) (file_name file)).
Proof.
  induction files as [|f files IH]; intros k i file Hi; [done|]. destruct i as [|i]; cbn in *.
  - injection Hi as ->. by rewrite Nat.add_0_r.
  - etrans; [apply (IH (S k) i file Hi)|]. by rewrite Nat.add_succ_comm.
Qed.

Lemma entries_16 files : forall k, Forall (fun e => length e = DIRENT) (entries k files).
Proof. induction files as [|f files IH]; intros k; constructor; [apply length_dirent|apply IH]. Qed.

Lemma root_entries_16 files : Forall (fun e => length e = DIRENT) (root_entries files).
Proof. repeat constructor; try apply length_dirent. apply entries_16. Qed.

(** Pieces of one size in a row. *)
Lemma concat_lookup {A} n (ls : list (list A)) : Forall (fun l => length l = n) ls -> forall i j, j < n ->
  concat ls !! (n * i + j) = (ls !! i ≫= (fun l => l !! j)).
Proof.
  induction 1 as [|l ls Hl Hls IH]; intros i j Hj; [done|]. cbn [concat]. destruct i as [|i].
  - rewrite Nat.mul_0_r. cbn. by rewrite lookup_app_l by lia.
  - rewrite lookup_app_r by (rewrite Hl; lia). etrans; [|apply (IH i j Hj)]. f_equal. rewrite Hl. lia.
Qed.

Lemma concat_length {A} n (ls : list (list A)) : Forall (fun l => length l = n) ls -> length (concat ls) = n * length ls.
Proof. induction 1 as [|l ls Hl Hls IH]; cbn [concat length]; [lia|]. rewrite length_app, Hl, IH. lia. Qed.

(** Entry [k] of a directory that holds [ls] and zeroes. *)
Lemma ent_concat V d ls k : Forall (fun l => length l = DIRENT) ls ->
  (forall k, (0 <= k < Z.of_nat MAXFILE * BS)%Z -> fbyte V d k = default 0%Z (concat ls !! Z.to_nat k)) ->
  (Z.of_nat (DIRENT * k + DIRENT) <= Z.of_nat MAXFILE * BS)%Z ->
  ent V d k = default (replicate DIRENT 0%Z) (ls !! k).
Proof.
  intros Hls Hb Hk. apply list_eq. intros j. unfold ent. destruct (Nat.lt_ge_cases j DIRENT) as [Hj|Hj].
  - rewrite lookup_fbytes by done. rewrite Hb by lia. replace (Z.to_nat (Z.of_nat (DIRENT * k) + Z.of_nat j)) with (DIRENT * k + j) by lia.
    rewrite (concat_lookup DIRENT) by done. destruct (ls !! k) as [l|] eqn:E; cbn [mbind option_bind default].
    + rewrite Forall_lookup in Hls. specialize (Hls k l E). destruct (lookup_lt_is_Some_2 l j) as [x Hx]; [rewrite Hls; lia|]. by rewrite Hx.
    + by rewrite lookup_replicate_2.
  - rewrite !lookup_ge_None_2; [done| |by rewrite length_fbytes].
    destruct (ls !! k) as [l|] eqn:E; cbn [default]; [|by rewrite length_replicate]. rewrite Forall_lookup in Hls. specialize (Hls k l E). cbn in *. lia.
Qed.

(** ** The end of [main] *)
Record final (m : image) (V : Z -> bytes) (files : list (bytes * option (list bytes))) : Prop := {
  fn_len : length (im_blocks m) = Z.to_nat FSSIZE;
  fn_blocks : forall b, (0 <= b < FSSIZE)%Z -> im_blocks m !! Z.to_nat b = Some (V b);
  fn_ok : disk_ok sb V;
  fn_sb : V 1%Z = sb_block sb;
  fn_log : forall b, (2 <= b < 33)%Z -> V b = zero_block;
  fn_file : forall k file, files !! k = Some file -> file_at V (disk_inode sb V (Z.of_nat k + 2)) T_FILE (content file);
  fn_rest : forall i, (0 <= i < 200)%Z -> i = 0%Z \/ (Z.of_nat (length files) + 1 < i)%Z -> disk_inode sb V i = di0;
  fn_root : inode_ok sb V (disk_inode sb V 1) /\ d_type (disk_inode sb V 1) = T_DIR /\ d_nlink (disk_inode sb V 1) = 1%Z /\
    (d_size (disk_inode sb V 1) = ((16 * (Z.of_nat (length files) + 2)) / BS + 1) * BS)%Z;
  fn_disj : forall i j b, i <= length files -> j <= length files -> i <> j ->
    own V (disk_inode sb V (Z.of_nat i + 1)) b -> ~ own V (disk_inode sb V (Z.of_nat j + 1)) b;
  fn_bytes : forall k, (0 <= k < Z.of_nat MAXFILE * BS)%Z -> fbyte V (disk_inode sb V 1) k = default 0%Z (concat (root_entries files) !! Z.to_nat k)
}.

Lemma image_file_lookup files k file : files !! k = Some file -> image_files files !! S k = Some (T_FILE, content file).
Proof. intros Hk. unfold image_files. etrans; [apply list_lookup_fmap|]. by rewrite Hk. Qed.

(** Blocks below the rounded size are blocks below the size. *)
Lemma round_full V d sz : inode_ok sb V d -> d_size d = sz -> (0 <= sz)%Z -> (sz mod BS <> 0)%Z -> full_below V d ((sz / BS + 1) * BS).
Proof.
  intros IO Hs H0 Hne j Hj. apply (io_full _ _ _ IO). rewrite Hs. pose proof (Z.div_mod sz BS ltac:(done)).
  pose proof (Z.mod_pos_bound sz BS ltac:(done)). unfold BS in *. nia.
Qed.

Lemma finish_image m V files : st m V (image_files files) -> length files <= 198 ->
  ((16 * (Z.of_nat (length files) + 2)) mod BS <> 0)%Z ->
  exists m' V', (let* din := rinode m 1 in
    let* m := winode m 1 (set_size din ((d_size din / BS + 1) * BS)) in balloc m (im_freeblock m)) = Ret m' /\ final m' V' files.
Proof.
  intros HS Hn Hmod. pose proof (st_rep _ _ _ HS) as R. rewrite (rinode_rep m V) by (done || lia). cbn [obind].
  pose proof (st_file _ _ _ HS 0 _ _ eq_refl) as F. change (Z.of_nat 0 + 1)%Z with 1%Z in F. set (d := disk_inode sb V 1) in *.
  destruct F as [F1 F2 F3 F4 F5]. set (sz := (16 * (Z.of_nat (length files) + 2))%Z) in *.
  assert (d_size d = sz) as Esz.
  { rewrite F4, (concat_length DIRENT) by apply root_entries_16. unfold root_entries. cbn [length]. rewrite entries_length. unfold sz, DIRENT. lia. }
  rewrite Esz. set (sz' := ((sz / BS + 1) * BS)%Z).
  assert (0 <= sz < 4096)%Z as Hsz by (unfold sz; lia). assert (0 <= sz' <= Z.of_nat MAXFILE * BS)%Z as Hsz'.
  { unfold sz', BS, MAXFILE. assert (sz / 1024 < 4)%Z by (apply Z.div_lt_upper_bound; lia). assert (0 <= sz / 1024)%Z by (apply Z.div_pos; lia). lia. }
  assert (inode_ok sb V (set_size d sz')) as IO2.
  { apply (inode_ok_size sb 0 0 []); try done. apply round_full; try done. lia. }
  destruct (winode_rep m V 1 _ R ltac:(lia) (io_ok _ _ _ IO2)) as (m2 & -> & R2 & Ef & Ei). cbn [obind].
  set (V2 := update_inode sb V 1 (set_size d sz')) in *. pose proof (iblock_33 1 ltac:(lia)) as Hib.
  assert (forall e, inode_ok sb V e -> (forall b, own V e b -> V2 b = V b) /\
    (forall x, (0 <= x < sb_size sb)%Z -> used sb V x = true -> used sb V2 x = true)) as Hkeep.
  { intros e He. apply inode_write_keeps; [rewrite ninodes_200; lia|done]. }
  assert (forall j, (0 <= j < 200)%Z -> j <> 1%Z -> disk_inode sb V2 j = disk_inode sb V j) as Eold.
  { intros j Hj Hne. apply update_other; try done; [apply R|apply IO2]. }
  assert (disk_inode sb V2 1 = set_size d sz') as Enew by (apply update_inode_same; [apply R|lia|apply IO2]).
  pose proof (rp_free _ _ R2) as Hfb. rewrite nmeta_47 in Hfb. unfold FSSIZE in Hfb.
  unfold balloc, assert. rewrite (proj2 (Z.ltb_lt _ _)) by (unfold BPB; lia). cbn [obind].
  pose proof (mark_bits (Z.to_nat (im_freeblock m2)) 0) as Emk. change (bits 0) with zero_block in Emk. change (Z.of_nat 0) with 0%Z in Emk. rewrite Emk by (unfold BPB; lia). cbn [obind Nat.add].
  unfold wsect. rewrite (rp_len _ _ R2). change (Z.to_nat (sb_bmapstart sb) <? Z.to_nat FSSIZE) with true. cbn iota.
  eexists _, V2. split; [done|]. destruct (Hkeep _ IO2) as [K1 K2]. destruct (same_blocks V V2 _ IO2 K1 K2) as (IO3 & Eb3 & Fb3).
  assert (length (image_files files) = S (length files)) as Hlen by (unfold image_files; cbn [length]; by rewrite length_fmap).
  assert (forall i b, i <= length files -> own V2 (disk_inode sb V2 (Z.of_nat i + 1)) b -> own V (disk_inode sb V (Z.of_nat i + 1)) b) as Hown.
  { intros i b Hi Hb. destruct i as [|i].
    - change (Z.of_nat 0 + 1)%Z with 1%Z in *. rewrite Enew in Hb. destruct Hb as [Hz Hb]. split; [done|].
      destruct Hb as [Hb|(n & Hlt & Hb)]; [by left|right]. exists n. split; [done|]. by rewrite (Eb3 n Hlt) in Hb.
    - destruct (lookup_lt_is_Some_2 files i) as [file Hk]; [lia|].
      pose proof (st_file _ _ _ HS (S i) _ _ (image_file_lookup files i file Hk)) as F. rewrite Eold in Hb by lia.
      destruct (Hkeep _ (fa_ok _ _ _ _ F)) as [Q1 Q2]. by apply (same_file V V2 _ _ _ F Q1 Q2). }
  constructor; cbn [im_blocks with_blocks].
  - rewrite length_insert. apply R2.
  - intros b Hb. destruct (decide (b = sb_bmapstart sb)) as [->|Hne].
    + rewrite list_lookup_insert_eq by (rewrite (rp_len _ _ R2); vm_compute; lia). by rewrite (rp_map _ _ R2).
    + rewrite list_lookup_insert_ne by (change (sb_bmapstart sb) with 46%Z in *; lia). by apply (rp_blk _ _ R2).
  - apply R2.
  - unfold V2, update_inode. rewrite upd_other by lia. apply (st_sb _ _ _ HS).
  - intros b Hb. unfold V2, update_inode. rewrite upd_other by lia. by apply (st_boot _ _ _ HS).
  - intros k file Hk. pose proof (lookup_lt_Some _ _ _ Hk). pose proof (st_file _ _ _ HS (S k) _ _ (image_file_lookup files k file Hk)) as F.
    replace (Z.of_nat (S k) + 1)%Z with (Z.of_nat k + 2)%Z in F by lia. rewrite Eold by lia.
    destruct (Hkeep _ (fa_ok _ _ _ _ F)). by apply (same_file V).
  - intros i Hi Hi'. rewrite Eold by lia. apply (st_rest _ _ _ HS); [done|]. unfold image_files. cbn [length]. rewrite length_fmap. lia.
  - rewrite Enew. cbn [set_size d_type d_nlink d_size]. done.
  - intros i j b Hi Hj Hne H1 H2. apply Hown in H1, H2; try done. apply (st_disj _ _ _ HS i j b); try done; lia.
  - intros k Hk. rewrite Enew. rewrite Fb3 by done. by apply F5.
Qed.

(** ** The tree *)
Definition root_names (files : list (bytes * option (list bytes))) : list bytes := [DOT] :: [DOT; DOT] :: (file_name <$> files).

(** The inode that entry [k] of the root names. *)
Definition root_inum (k : nat) : Z := if k <? 2 then 1%Z else Z.of_nat k.

Lemma root_entries_lookup files k : root_entries files !! k = dirent (root_inum k) <$> root_names files !! k.
Proof.
  destruct k as [|[|k]]; [done|done|]. unfold root_entries, root_names. change (entries 2 files !! k = dirent (Z.of_nat (2 + k)) <$> ((file_name <$> files) !! k)).
  rewrite list_lookup_fmap. destruct (files !! k) as [file|] eqn:E; [by apply entries_lookup|].
  apply lookup_ge_None_2. rewrite entries_length. by apply lookup_ge_None_1.
Qed.

Lemma length_names files : length (root_names files) = length files + 2.
Proof. unfold root_names. cbn [length]. rewrite length_fmap. lia. Qed.

Lemma names_ok files nm : Forall file_ok files -> nm ∈ root_names files ->
  Forall (fun c => c <> 0%Z) nm /\ length nm <= DIRSIZ.
Proof.
  intros Hok Hin. unfold root_names in Hin. rewrite !elem_of_cons in Hin.
  assert (forall l, Forall (eq DOT) l -> Forall (fun c => c <> 0%Z) l) as Hd.
  { intros l Hl. eapply Forall_impl; [exact Hl|]. by intros ? <-. }
  destruct Hin as [->|[->|Hin]]; [split; [apply Hd; by repeat constructor|cbn; unfold DIRSIZ; lia]..|].
  apply list_elem_of_fmap in Hin as (file & -> & Hf). rewrite Forall_forall in Hok. destruct (Hok file Hf) as [_ _ H3 [_ H4] _ _]. done.
Qed.

Lemma is_name_elem nm : Forall (fun c => c <> 0%Z) nm -> length nm <= DIRSIZ -> is_name (elem_name nm) nm.
Proof. intros Hz Hl. split; [done|]. left. exists []. unfold elem_name. by rewrite take_ge. Qed.

Section tree.
Context (m : image) (V : Z -> bytes) (files : list (bytes * option (list bytes))).
Hypotheses (F : final m V files) (Hok : Forall file_ok files) (Hn : length files <= 198).

Lemma root_len : dir_len (disk_inode sb V 1) = 64 * (Z.to_nat ((16 * (Z.of_nat (length files) + 2)) `div` BS) + 1).
Proof.
  destruct (fn_root _ _ _ F) as (_ & _ & _ & E). unfold dir_len. rewrite E. unfold DIRENT, BS.
  assert (0 <= (16 * (Z.of_nat (length files) + 2)) `div` 1024)%Z by (apply Z.div_pos; lia).
  replace (((16 * (Z.of_nat (length files) + 2)) `div` 1024 + 1) * 1024)%Z with
    ((64 * ((16 * (Z.of_nat (length files) + 2)) `div` 1024 + 1)) * Z.of_nat 16)%Z by lia.
  rewrite Z.div_mul by lia. lia.
Qed.

Lemma root_len_bounds : length files + 2 <= dir_len (disk_inode sb V 1) <= 256.
Proof.
  rewrite root_len. unfold BS. set (z := (16 * (Z.of_nat (length files) + 2))%Z). pose proof (Z.div_mod z 1024 ltac:(done)).
  pose proof (Z.mod_pos_bound z 1024 ltac:(done)). unfold z in *. lia.
Qed.

Lemma root_ent k : k < dir_len (disk_inode sb V 1) ->
  ent V (disk_inode sb V 1) k = default (replicate DIRENT 0%Z) (dirent (root_inum k) <$> root_names files !! k).
Proof.
  intros Hk. pose proof root_len_bounds. rewrite <-root_entries_lookup. apply ent_concat.
  - apply root_entries_16.
  - apply (fn_bytes _ _ _ F).
  - unfold DIRENT, MAXFILE, BS. lia.
Qed.

Lemma root_ent_named k nm : root_names files !! k = Some nm -> ent V (disk_inode sb V 1) k = dirent (root_inum k) nm.
Proof.
  intros Hk. pose proof (lookup_lt_Some _ _ _ Hk) as Hlt. rewrite length_names in Hlt. pose proof root_len_bounds.
  rewrite root_ent by lia. by rewrite Hk.
Qed.

(** The entries in use are those of the names. *)
Lemma root_used k : k < dir_len (disk_inode sb V 1) -> de_inum (ent V (disk_inode sb V 1) k) <> 0%Z ->
  k < length files + 2 /\ de_inum (ent V (disk_inode sb V 1) k) = root_inum k.
Proof.
  intros Hk. destruct (root_names files !! k) as [nm|] eqn:E; [|by rewrite root_ent, E]. intros _.
  pose proof (lookup_lt_Some _ _ _ E) as Hlt. rewrite length_names in Hlt. split; [done|]. rewrite (root_ent_named k nm E).
  apply de_inum_dirent. unfold root_inum. destruct (k <? 2); lia.
Qed.

Lemma inum_cases n : (0 <= n < 200)%Z -> d_type (disk_inode sb V n) <> 0%Z ->
  n = 1%Z \/ exists k file, files !! k = Some file /\ n = (Z.of_nat k + 2)%Z.
Proof.
  intros Hn' Ht. destruct (decide (n = 1%Z)) as [|H1]; [by left|right].
  destruct (decide (n = 0%Z \/ (Z.of_nat (length files) + 1 < n)%Z)) as [Hr|Hr].
  { by rewrite (fn_rest _ _ _ F n Hn' Hr) in Ht. }
  destruct (lookup_lt_is_Some_2 files (Z.to_nat (n - 2))) as [file Hf]; [lia|]. exists (Z.to_nat (n - 2)), file. split; [done|lia].
Qed.

Lemma root_inum_used k : k < length files + 2 ->
  (0 <= root_inum k < 200)%Z /\ d_type (disk_inode sb V (root_inum k)) <> 0%Z.
Proof.
  intros Hk. unfold root_inum. destruct (Nat.ltb_spec k 2).
  - split; [lia|]. destruct (fn_root _ _ _ F) as (_ & -> & _). done.
  - split; [lia|]. destruct (lookup_lt_is_Some_2 files (k - 2)) as [file Hf]; [lia|].
    pose proof (fn_file _ _ _ F _ _ Hf) as Fa. replace (Z.of_nat (k - 2) + 2)%Z with (Z.of_nat k) in Fa by lia.
    by rewrite (fa_type _ _ _ _ Fa).
Qed.

Lemma image_tree : tree_ok sb V.
Proof.
  split; rewrite ninodes_200; intros n Hn' Ht.
  - destruct (inum_cases n Hn' Ht) as [->|(k & file & Hk & ->)].
    + destruct (fn_root _ _ _ F) as (IO & _ & -> & _). done.
    + destruct (fn_file _ _ _ F k file Hk) as [IO _ -> _ _]. done.
  - destruct (inum_cases n Hn') as [->|(k & file & Hk & ->)]; [by rewrite Ht| |].
    + split.
      * destruct (fn_root _ _ _ F) as (_ & _ & _ & ->). unfold BS, DIRENT. apply Z.mod_divide; [done|].
        apply Z.divide_mul_r. by exists 64%Z.
      * intros k Hk Hz. destruct (root_used k Hk Hz) as [Hlt ->]. by apply root_inum_used.
    + by rewrite (fa_type _ _ _ _ (fn_file _ _ _ F k file Hk)) in Ht.
Qed.

Lemma root_matches nm nm' k : nm ∈ root_names files -> root_names files !! k = Some nm' ->
  ent_matches V (disk_inode sb V 1) (elem_name nm) k = bool_decide (nm = nm').
Proof.
  intros Hin Hk. pose proof (lookup_lt_Some _ _ _ Hk) as Hlt. rewrite length_names in Hlt. pose proof root_len_bounds.
  destruct (names_ok files nm Hok Hin) as [Z1 L1]. destruct (names_ok files nm' Hok (list_elem_of_lookup_2 _ _ _ Hk)) as [Z2 L2].
  unfold ent_matches. rewrite (root_ent_named k nm' Hk).
  assert (0 < root_inum k < 65536)%Z by (unfold root_inum; destruct (k <? 2) eqn:E; [lia|apply Nat.ltb_ge in E; lia]).
  rewrite de_inum_dirent, de_name_dirent, (proj2 (Z.eqb_neq _ _)) by lia. cbn [negb andb].
  destruct (namecmp_field (elem_name nm) nm nm' (is_name_elem nm Z1 L1) Z2) as (z & -> & Hz).
  rewrite !take_ge in Hz by done. destruct (Z.eqb_spec z 0); symmetry; [apply bool_decide_eq_true_2|apply bool_decide_eq_false_2]; tauto.
Qed.

Lemma root_get k nm : NoDup (root_names files) -> root_names files !! k = Some nm ->
  dir_get V (disk_inode sb V 1) (elem_name nm) = Some (root_inum k).
Proof.
  intros Hnd Hk. pose proof (lookup_lt_Some _ _ _ Hk) as Hlt. rewrite length_names in Hlt. pose proof root_len_bounds.
  pose proof (list_elem_of_lookup_2 _ _ _ Hk) as Hin. unfold dir_get, dir_find. rewrite (first_from_intro _ _ 0 k); [|lia| |].
  - cbn [fmap option_fmap option_map]. rewrite (root_ent_named k nm Hk).
    rewrite de_inum_dirent; [done|]. pose proof (root_inum_used k Hlt). lia.
  - rewrite (root_matches nm nm) by done. by apply bool_decide_eq_true_2.
  - intros i Hi. destruct (lookup_lt_is_Some_2 (root_names files) i) as [nm' Hi']; [rewrite length_names; lia|].
    rewrite (root_matches nm nm') by done. apply bool_decide_eq_false_2. intros <-.
    pose proof (NoDup_lookup _ _ _ _ Hnd Hi' Hk). lia.
Qed.
End tree.

(** The whole of [main]: what is in front of the end and the end. *)
Lemma mkfs_split files m : (let m := mk_image [] 1 nmeta in
   let* m := zero_sects m 0 (Z.to_nat FSSIZE) in
   let* m := wsect m 1 (sb_block sb) in
   let* '(m, rootino) := ialloc m T_DIR in
   let* _ := assert (rootino =? ROOTINO)%Z in
   let* m := iappend m rootino (dirent rootino [DOT]) in
   let* m := iappend m rootino (dirent rootino [DOT; DOT]) in
   add_files m rootino files) = Ret m ->
  mkfs files = (let* din := rinode m 1 in
    let* m := winode m 1 (set_size din ((d_size din / BS + 1) * BS)) in balloc m (im_freeblock m)).
Proof.
  unfold mkfs. cbv zeta. destruct (zero_sects _ _ _) as [m0| | | |]; cbn [obind]; [|done..].
  destruct (wsect m0 _ _) as [m1| | | |]; cbn [obind]; [|done..].
  destruct (ialloc m1 _) as [[m2 r]| | | |]; cbn [obind]; [|done..]. unfold assert.
  destruct (Z.eqb_spec r ROOTINO) as [->|]; cbn [obind]; [|done]. unfold ROOTINO in *.
  destruct (iappend m2 _ _) as [m3| | | |]; cbn [obind]; [|done..].
  destruct (iappend m3 _ _) as [m4| | | |]; cbn [obind]; [|done..]. by intros ->.
Qed.

Lemma mkfs_final files : fits files -> ((16 * (Z.of_nat (length files) + 2)) mod BS <> 0)%Z ->
  exists m V, mkfs files = Ret m /\ final m V files.
Proof.
  intros Hf Hmod. destruct (loop_st files Hf) as (m & V & E & HS).
  destruct (finish_image m V files HS (ft_inodes _ Hf) Hmod) as (m' & V' & E' & F). exists m', V'. split; [|done].
  etrans; [exact (mkfs_split files m E)|exact E'].
Qed.

Lemma sb_block_words : (get_uint (sb_block sb) <$> seq 0 8) = sb_words sb.
Proof. vm_compute. reflexivity. Qed.

Lemma file_at_bytes V d ty c : file_at V d ty c -> (Z.of_nat (length c) <= Z.of_nat MAXFILE * BS)%Z -> fbytes V d 0 (length c) = c.
Proof.
  intros Fa Hl. apply list_eq. intros k. destruct (decide (k < length c)) as [Hk|Hk].
  - rewrite lookup_fbytes by done. rewrite (fa_bytes _ _ _ _ Fa) by lia. rewrite Z.add_0_l, Nat2Z.id.
    destruct (lookup_lt_is_Some_2 c k Hk) as [x ->]. done.
  - rewrite !lookup_ge_None_2; [done|lia|rewrite length_fbytes; lia].
Qed.

(** C40.  [mkfs] builds a sound file system.  For files that fit, with distinct
    names of at most [DIRSIZ] bytes, and not 62, 126 or 190 in number (so that
    the entries of the root directory do not end at the end of a block: there
    the rounding of its size leaves the last block without an address), it
    exits normally, and the image has
    [FSSIZE] blocks: a super block with the words of the layout, an empty log,
    a bitmap that marks the blocks of the metadata and of the files, and
    directories and inodes that satisfy what the theorems on the kernel's file
    system ask of a disk.  No block belongs to two files; the root contains
    itself twice and every argument under its name (without [user/] and the
    underscore), as a file with the size and the bytes that were read. *)
Theorem mkfs_image_ok (files : list (bytes * option (list bytes))) :
  fits files -> NoDup (root_names files) -> ((16 * (Z.of_nat (length files) + 2)) mod BS <> 0)%Z ->
  exists m V, mkfs files = Ret m /\ length (im_blocks m) = Z.to_nat FSSIZE /\
    (forall b, (0 <= b < FSSIZE)%Z -> im_blocks m !! Z.to_nat b = Some (V b)) /\
    (get_uint (V 1%Z) <$> seq 0 8) = sb_words mkfs_sb /\
    (forall b, (2 <= b < 2 + nlog)%Z -> V b = zero_block) /\
    disk_ok mkfs_sb V /\ tree_ok mkfs_sb V /\
    (forall i j b, i <= length files -> j <= length files -> i <> j ->
      own V (disk_inode mkfs_sb V (Z.of_nat i + 1)) b -> ~ own V (disk_inode mkfs_sb V (Z.of_nat j + 1)) b) /\
    let root := disk_inode mkfs_sb V ROOTINO in
    d_type root = T_DIR /\ dir_get V root (elem_name [DOT]) = Some ROOTINO /\
    dir_get V root (elem_name [DOT; DOT]) = Some ROOTINO /\
    forall k file, files !! k = Some file -> exists inum,
      dir_get V root (elem_name (file_name file)) = Some inum /\
      d_type (disk_inode mkfs_sb V inum) = T_FILE /\
      d_size (disk_inode mkfs_sb V inum) = Z.of_nat (length (content file)) /\
      fbytes V (disk_inode mkfs_sb V inum) 0 (length (content file)) = content file.
Proof.
  intros Hf Hnd Hmod. destruct (mkfs_final files Hf Hmod) as (m & V & E & F). destruct Hf as [Hok Hn _]. unfold ROOTINO.
  exists m, V. split_and!; [done|apply F|apply F|rewrite (fn_sb _ _ _ F); apply sb_block_words|apply F|apply F
    |by apply (image_tree m V files)|apply F
    |apply (fn_root _ _ _ F)|by apply (root_get m V files F Hok Hn 0)|by apply (root_get m V files F Hok Hn 1)|].
  intros k file Hk. exists (Z.of_nat k + 2)%Z. pose proof (fn_file _ _ _ F k file Hk) as Fa. split_and!; [|apply Fa|apply Fa|].
  - replace (Z.of_nat k + 2)%Z with (root_inum (S (S k))) by (unfold root_inum; cbn; lia).
    apply (root_get m V files F Hok Hn); [done|]. unfold root_names. etrans; [apply list_lookup_fmap|]. by rewrite Hk.
  - apply (file_at_bytes V _ T_FILE); [done|]. rewrite Forall_lookup in Hok. apply (Hok k file Hk).
Qed.

(** One file [user/_hi] that holds three bytes. *)
Definition one_file : list (bytes * option (list bytes)) := [([117; 115; 101; 114; 47; 95; 104; 105]%Z, Some [[1; 2]; [3]]%Z)].

Lemma mkfs_image_ok_witness : exists m V inum, mkfs one_file = Ret m /\
  im_blocks m !! Z.to_nat 1 = Some (V 1%Z) /\
  dir_get V (disk_inode mkfs_sb V 1) [104; 105; 0]%Z = Some inum /\ fbytes V (disk_inode mkfs_sb V inum) 0 3 = [1; 2; 3]%Z.
Proof.
  destruct (mkfs_image_ok one_file) as (m & V & E & _ & Hb & _ & _ & _ & _ & _ & _ & _ & _ & Hfile).
  - split.
    + apply Forall_singleton. split; [by apply (bool_decide_unpack _); vm_compute|by eexists|vm_compute; lia| | |vm_compute; discriminate].
      * split; vm_compute; repeat constructor; discriminate.
      * repeat constructor; unfold is_byte; lia.
    + cbn. lia.
    + vm_compute. discriminate.
  - apply (bool_decide_unpack _). vm_compute. done.
  - vm_compute. discriminate.
  - destruct (Hfile 0 _ eq_refl) as (inum & H1 & _ & _ & H2). exists m, V, inum. split_and!; [exact E| |exact H1|exact H2].
    apply Hb. unfold FSSIZE. lia.
Defined.
