(* ===== verification/Trampoline.v ===== *)
(** * Registers and the assembly around traps

    The control registers that [riscv.h] reads and writes, the instructions
    that [trampoline.S], [kernelvec.S] and [swtch.S] use, and these three
    programs.  Memory is seen as words of 64 bits at virtual addresses; the
    trap frame of the process is at [TRAPFRAME], where both page tables reach
    it (the C code under the address [p->trapframe]).

    [trap_entry] and [sret] are what the hardware does (RISC-V privileged
    architecture, supervisor traps and their return). *)

From S2P Require Import Prelude Vm.

Local Open Scope Z_scope.

(** ** Control registers *)
Definition SSTATUS_SPP : Z := Z.shiftl 1 8.
Definition SSTATUS_SPIE : Z := Z.shiftl 1 5.
Definition SSTATUS_SIE : Z := Z.shiftl 1 1.
Definition SATP_SV39 : Z := Z.shiftl 8 60.
Definition MAKE_SATP (pagetable : Z) : Z := Z.lor SATP_SV39 (Z.shiftr pagetable 12).

Record csrs := mk_csrs {
  r_sstatus : Z; r_stvec : Z; r_sepc : Z; r_scause : Z; r_stval : Z; r_satp : Z; r_sscratch : Z; r_stimecmp : Z
}.

Definition w_sstatus (c : csrs) (x : Z) : csrs :=
  mk_csrs x (r_stvec c) (r_sepc c) (r_scause c) (r_stval c) (r_satp c) (r_sscratch c) (r_stimecmp c).
Definition w_stvec (c : csrs) (x : Z) : csrs :=
  mk_csrs (r_sstatus c) x (r_sepc c) (r_scause c) (r_stval c) (r_satp c) (r_sscratch c) (r_stimecmp c).
Definition w_sepc (c : csrs) (x : Z) : csrs :=
  mk_csrs (r_sstatus c) (r_stvec c) x (r_scause c) (r_stval c) (r_satp c) (r_sscratch c) (r_stimecmp c).
Definition w_satp (c : csrs) (x : Z) : csrs :=
  mk_csrs (r_sstatus c) (r_stvec c) (r_sepc c) (r_scause c) (r_stval c) x (r_sscratch c) (r_stimecmp c).
Definition w_sscratch (c : csrs) (x : Z) : csrs :=
  mk_csrs (r_sstatus c) (r_stvec c) (r_sepc c) (r_scause c) (r_stval c) (r_satp c) x (r_stimecmp c).
Definition w_stimecmp (c : csrs) (x : Z) : csrs :=
  mk_csrs (r_sstatus c) (r_stvec c) (r_sepc c) (r_scause c) (r_stval c) (r_satp c) (r_sscratch c) x.

(** [csrs] and [csrc] set and clear bits. *)
Definition s_sstatus (c : csrs) (x : Z) : csrs := w_sstatus c (Z.lor (r_sstatus c) x).
Definition c_sstatus (c : csrs) (x : Z) : csrs := w_sstatus c (Z.ldiff (r_sstatus c) x).

Definition intr_on (c : csrs) : csrs := s_sstatus c SSTATUS_SIE.
Definition intr_off (c : csrs) : csrs := c_sstatus c SSTATUS_SIE.
Definition intr_get (c : csrs) : bool := negb (Z.land (r_sstatus c) SSTATUS_SIE =? 0).

(** ** Traps in hardware *)
Definition set_field (x mask : Z) (b : bool) : Z := if b then Z.lor x mask else Z.ldiff x mask.

(** [SPP] remembers the mode, [SPIE] the interrupt enable bit. *)
Definition trap_entry (c : csrs) (user : bool) (pc cause tval : Z) : csrs :=
  let x := r_sstatus c in
  let x := set_field x SSTATUS_SPIE (intr_get c) in
  let x := set_field x SSTATUS_SIE false in
  let x := set_field x SSTATUS_SPP (negb user) in
  mk_csrs x (r_stvec c) pc cause tval (r_satp c) (r_sscratch c) (r_stimecmp c).

(** The mode and the address that [sret] goes to. *)
Definition sret (c : csrs) : csrs * bool * Z :=
  let x := r_sstatus c in
  let user := Z.land x SSTATUS_SPP =? 0 in
  let y := set_field x SSTATUS_SIE (negb (Z.land x SSTATUS_SPIE =? 0)) in
  let y := set_field y SSTATUS_SPIE true in
  let y := set_field y SSTATUS_SPP false in
  (w_sstatus c y, user, r_sepc c).

(** ** Instructions *)
Inductive reg : Type :=
| zero | ra | sp | gp | tp | t0 | t1 | t2 | s0 | s1 | a0 | a1 | a2 | a3 | a4 | a5 | a6 | a7
| s2 | s3 | s4 | s5 | s6 | s7 | s8 | s9 | s10 | s11 | t3 | t4 | t5 | t6.
#[global] Instance reg_eq_dec : EqDecision reg.
Proof. solve_decision. Defined.

Inductive csr : Type := C_sscratch | C_satp.

Inductive instr : Type :=
| SD (src : reg) (off : Z) (base : reg)
| LD (dst : reg) (off : Z) (base : reg)
| LI (dst : reg) (v : Z)
| ADDI (dst src : reg) (v : Z)
| CSRW (r : csr) (src : reg)
| CSRR (dst : reg) (r : csr)
| FENCE.

(** The register file, the control registers and the memory. *)
Record mach := mk_mach { x_ : reg -> Z; c_ : csrs; m_ : Z -> Z }.

Definition upd_reg (x : reg -> Z) (r : reg) (v : Z) : reg -> Z := fun r' => if decide (r' = r) then v else x r'.
Definition upd_mem (m : Z -> Z) (a v : Z) : Z -> Z := fun b => if b =? a then v else m b.

Definition exec (i : instr) (s : mach) : mach :=
  let '(mk_mach x c m) := s in
  match i with
  | SD r off b => mk_mach x c (upd_mem m (u64 (x b + off)) (x r))
  | LD r off b => mk_mach (upd_reg x r (m (u64 (x b + off)))) c m
  | LI r v => mk_mach (upd_reg x r v) c m
  | ADDI r b v => mk_mach (upd_reg x r (u64 (x b + v))) c m
  | CSRW C_sscratch r => mk_mach x (w_sscratch c (x r)) m
  | CSRW C_satp r => mk_mach x (w_satp c (x r)) m
  | CSRR r C_sscratch => mk_mach (upd_reg x r (r_sscratch c)) c m
  | CSRR r C_satp => mk_mach (upd_reg x r (r_satp c)) c m
  | FENCE => s
  end.

Definition run (p : list instr) (s : mach) : mach := fold_left (fun s i => exec i s) p s.

(** ** [struct trapframe] *)
Definition trapframe : list string :=
  ["kernel_satp"; "kernel_sp"; "kernel_trap"; "epc"; "kernel_hartid"; "ra"; "sp"; "gp"; "tp"; "t0"; "t1"; "t2"; "s0"; "s1";
   "a0"; "a1"; "a2"; "a3"; "a4"; "a5"; "a6"; "a7"; "s2"; "s3"; "s4"; "s5"; "s6"; "s7"; "s8"; "s9"; "s10"; "s11";
   "t3"; "t4"; "t5"; "t6"]%string.

(** The address of a field of [uint64]s in a row. *)
Definition tf_at (field : string) : Z :=
  TRAPFRAME + 8 * default 0 ((fun '(i, _) => Z.of_nat i) <$> list_find (eq field) trapframe).

(** The field in which a register is kept. *)
Definition reg_field (r : reg) : string :=
  match r with
  | zero => "zero" | ra => "ra" | sp => "sp" | gp => "gp" | tp => "tp" | t0 => "t0" | t1 => "t1" | t2 => "t2" | s0 => "s0" | s1 => "s1"
  | a0 => "a0" | a1 => "a1" | a2 => "a2" | a3 => "a3" | a4 => "a4" | a5 => "a5" | a6 => "a6" | a7 => "a7"
  | s2 => "s2" | s3 => "s3" | s4 => "s4" | s5 => "s5" | s6 => "s6" | s7 => "s7" | s8 => "s8" | s9 => "s9" | s10 => "s10" | s11 => "s11"
  | t3 => "t3" | t4 => "t4" | t5 => "t5" | t6 => "t6"
  end%string.

(** ** [trampoline.S] *)

(** [uservec], up to the jump to the address in [t0]. *)
Definition uservec : list instr :=
  [CSRW C_sscratch a0; LI a0 TRAPFRAME;
   SD ra 40 a0; SD sp 48 a0; SD gp 56 a0; SD tp 64 a0; SD t0 72 a0; SD t1 80 a0; SD t2 88 a0; SD s0 96 a0; SD s1 104 a0;
   SD a1 120 a0; SD a2 128 a0; SD a3 136 a0; SD a4 144 a0; SD a5 152 a0; SD a6 160 a0; SD a7 168 a0;
   SD s2 176 a0; SD s3 184 a0; SD s4 192 a0; SD s5 200 a0; SD s6 208 a0; SD s7 216 a0; SD s8 224 a0; SD s9 232 a0;
   SD s10 240 a0; SD s11 248 a0; SD t3 256 a0; SD t4 264 a0; SD t5 272 a0; SD t6 280 a0;
   CSRR t0 C_sscratch; SD t0 112 a0;
   LD sp 8 a0; LD tp 32 a0; LD t0 16 a0; LD t1 0 a0;
   FENCE; CSRW C_satp t1; FENCE].

(** [userret], up to [sret]. *)
Definition userret : list instr :=
  [FENCE; FENCE; CSRW C_satp a0; FENCE; LI a0 TRAPFRAME;
   LD ra 40 a0; LD sp 48 a0; LD gp 56 a0; LD tp 64 a0; LD t0 72 a0; LD t1 80 a0; LD t2 88 a0; LD s0 96 a0; LD s1 104 a0;
   LD a1 120 a0; LD a2 128 a0; LD a3 136 a0; LD a4 144 a0; LD a5 152 a0; LD a6 160 a0; LD a7 168 a0;
   LD s2 176 a0; LD s3 184 a0; LD s4 192 a0; LD s5 200 a0; LD s6 208 a0; LD s7 216 a0; LD s8 224 a0; LD s9 232 a0;
   LD s10 240 a0; LD s11 248 a0; LD t3 256 a0; LD t4 264 a0; LD t5 272 a0; LD t6 280 a0;
   LD a0 112 a0].

(** ** [kernelvec.S], before and after the call of [kerneltrap] *)
Definition kernelvec_push : list instr :=
  [ADDI sp sp (-256);
   SD ra 0 sp; SD gp 16 sp; SD t0 32 sp; SD t1 40 sp; SD t2 48 sp;
   SD a0 72 sp; SD a1 80 sp; SD a2 88 sp; SD a3 96 sp; SD a4 104 sp; SD a5 112 sp; SD a6 120 sp; SD a7 128 sp;
   SD t3 216 sp; SD t4 224 sp; SD t5 232 sp; SD t6 240 sp].

Definition kernelvec_pop : list instr :=
  [LD ra 0 sp; LD gp 16 sp; LD t0 32 sp; LD t1 40 sp; LD t2 48 sp;
   LD a0 72 sp; LD a1 80 sp; LD a2 88 sp; LD a3 96 sp; LD a4 104 sp; LD a5 112 sp; LD a6 120 sp; LD a7 128 sp;
   LD t3 216 sp; LD t4 224 sp; LD t5 232 sp; LD t6 240 sp;
   ADDI sp sp 256].

(** ** [swtch.S], up to [ret], which goes to the address in [ra] *)
Definition swtch : list instr :=
  [SD ra 0 a0; SD sp 8 a0; SD s0 16 a0; SD s1 24 a0; SD s2 32 a0; SD s3 40 a0; SD s4 48 a0; SD s5 56 a0; SD s6 64 a0;
   SD s7 72 a0; SD s8 80 a0; SD s9 88 a0; SD s10 96 a0; SD s11 104 a0;
   LD ra 0 a1; LD sp 8 a1; LD s0 16 a1; LD s1 24 a1; LD s2 32 a1; LD s3 40 a1; LD s4 48 a1; LD s5 56 a1; LD s6 64 a1;
   LD s7 72 a1; LD s8 80 a1; LD s9 88 a1; LD s10 96 a1; LD s11 104 a1].

(** [struct context] *)
Definition context : list reg := [ra; sp; s0; s1; s2; s3; s4; s5; s6; s7; s8; s9; s10; s11].

(** ** Saving and restoring *)
Definition saves (base : reg) (l : list (reg * Z)) : list instr := (fun '(r, o) => SD r o base) <$> l.
Definition restores (base : reg) (l : list (reg * Z)) : list instr := (fun '(r, o) => LD r o base) <$> l.

Lemma upd_reg_eq x r v : upd_reg x r v r = v.
Proof. unfold upd_reg. by rewrite decide_True. Qed.
Lemma upd_reg_ne x r v r' : r' <> r -> upd_reg x r v r' = x r'.
Proof. intros. unfold upd_reg. by rewrite decide_False. Qed.
Lemma upd_mem_eq m a v : upd_mem m a v a = v.
Proof. unfold upd_mem. by rewrite Z.eqb_refl. Qed.
Lemma upd_mem_ne m a v b : b <> a -> upd_mem m a v b = m b.
Proof. intros. unfold upd_mem. by rewrite (proj2 (Z.eqb_neq _ _)). Qed.

Lemma run_app p q s : run (p ++ q) s = run q (run p s).
Proof. apply fold_left_app. Qed.

(** Offsets that stay inside the address space. *)
Definition inside (b : Z) (l : list (reg * Z)) : Prop := Forall (fun p => 0 <= b + p.2 < 18446744073709551616) l.

Lemma run_saves base l : forall x c m, inside (x base) l -> NoDup l.*2 ->
  exists m', run (saves base l) (mk_mach x c m) = mk_mach x c m' /\
    (forall r o, (r, o) ∈ l -> m' (x base + o) = x r) /\
    (forall a, (forall o, o ∈ l.*2 -> a <> x base + o) -> m' a = m a).
Proof.
  induction l as [|[r o] l IH]; intros x c m Hin Hnd.
  { exists m. split; [done|]. split; [|done]. intros r o Hr. by apply elem_of_nil in Hr. }
  apply Forall_cons in Hin as [Ho Hin]. apply NoDup_cons in Hnd as [Hno Hnd]. cbn [snd] in *.
  destruct (IH x c (upd_mem m (u64 (x base + o)) (x r)) Hin Hnd) as (m' & E & H1 & H2). rewrite u64_small in E, H2 by done.
  exists m'. split; [|split].
  - etrans; [|exact E]. cbn [saves fmap list_fmap run fold_left exec]. by rewrite u64_small.
  - intros r' o' Hr. apply elem_of_cons in Hr as [[= -> ->]|Hr]; [|by apply H1]. rewrite H2; [apply upd_mem_eq|].
    intros o' Ho' E'. assert (o' = o) as -> by lia. done.
  - intros a Ha. rewrite H2; [apply upd_mem_ne; apply Ha; left|]. intros o' Ho'. apply Ha. by right.
Qed.

Lemma run_restores base l : forall x c m, inside (x base) l -> NoDup l.*1 -> base ∉ l.*1 ->
  exists x', run (restores base l) (mk_mach x c m) = mk_mach x' c m /\
    (forall r o, (r, o) ∈ l -> x' r = m (x base + o)) /\ (forall r, r ∉ l.*1 -> x' r = x r).
Proof.
  induction l as [|[r o] l IH]; intros x c m Hin Hnd Hb.
  { exists x. split; [done|]. split; [|done]. intros r o Hr. by apply elem_of_nil in Hr. }
  apply Forall_cons in Hin as [Ho Hin]. apply NoDup_cons in Hnd as [Hno Hnd]. cbn [fst snd] in *.
  apply not_elem_of_cons in Hb as [Hbr Hb].
  assert (upd_reg x r (m (x base + o)) base = x base) as Eb by (by apply upd_reg_ne).
  destruct (IH (upd_reg x r (m (x base + o))) c m) as (x' & E & H1 & H2); try done; [by rewrite Eb|]. rewrite Eb in H1.
  exists x'. split; [|split].
  - etrans; [|exact E]. cbn [restores fmap list_fmap run fold_left exec]. by rewrite u64_small.
  - intros r' o' Hr. apply elem_of_cons in Hr as [[= -> ->]|Hr]; [|by apply H1]. rewrite H2 by done. apply upd_reg_eq.
  - intros r' Hr. apply not_elem_of_cons in Hr as [Hr1 Hr2]. rewrite H2 by done. by apply upd_reg_ne.
Qed.

(** *** Traps from user space *)
Lemma uservec_ok x c m : let s := run uservec (mk_mach x c m) in
  (forall r, r <> zero -> m_ s (tf_at (reg_field r)) = x r) /\
  (forall f, f ∈ take 5 trapframe -> m_ s (tf_at f) = m (tf_at f)) /\
  x_ s sp = m (tf_at "kernel_sp") /\ x_ s tp = m (tf_at "kernel_hartid") /\ x_ s t0 = m (tf_at "kernel_trap") /\
  c_ s = w_satp (w_sscratch c (x a0)) (m (tf_at "kernel_satp")).
Proof.
  cbv zeta. split_and!; [| |vm_compute; reflexivity..].
  - intros r Hr. destruct r; first [done|vm_compute; reflexivity].
  - intros f Hf. unfold trapframe in Hf. cbn [take] in Hf.
    repeat (apply elem_of_cons in Hf as [->|Hf]; [vm_compute; reflexivity|]). by apply elem_of_nil in Hf.
Qed.

Lemma userret_ok x c m : let s := run userret (mk_mach x c m) in
  (forall r, r <> zero -> x_ s r = m (tf_at (reg_field r))) /\ m_ s = m /\ c_ s = w_satp c (x a0).
Proof. cbv zeta. split_and!; [|reflexivity..]. intros r Hr. destruct r; first [done|vm_compute; reflexivity]. Qed.

(** *** Traps in the kernel *)
Definition kernel_slots : list (reg * Z) :=
  [(ra, 0); (gp, 16); (t0, 32); (t1, 40); (t2, 48); (a0, 72); (a1, 80); (a2, 88); (a3, 96); (a4, 104); (a5, 112); (a6, 120);
   (a7, 128); (t3, 216); (t4, 224); (t5, 232); (t6, 240)].

(** What a C function keeps (the calling convention), besides [sp]. *)
Definition callee_saved : list reg := [s0; s1; s2; s3; s4; s5; s6; s7; s8; s9; s10; s11].

Lemma push_split : kernelvec_push = ADDI sp sp (-256) :: saves sp kernel_slots.
Proof. reflexivity. Qed.
Lemma pop_split : kernelvec_pop = restores sp kernel_slots ++ [ADDI sp sp 256].
Proof. reflexivity. Qed.

Lemma slots_inside b l : 0 <= b -> b + 256 <= 18446744073709551616 -> Forall (fun p : reg * Z => 0 <= p.2 < 256) l -> inside b l.
Proof. intros H1 H2 Hl. eapply Forall_impl; [exact Hl|]. cbn. intros p Hp. lia. Qed.

Lemma kernel_slots_ok : Forall (fun p : reg * Z => 0 <= p.2 < 256) kernel_slots /\ NoDup kernel_slots.*1 /\ NoDup kernel_slots.*2 /\
  sp ∉ kernel_slots.*1.
Proof. split; [repeat constructor; cbn; lia|]. split_and!; apply (bool_decide_unpack _); by vm_compute. Qed.

(** Every register is in a slot, kept by the C function, or one of three. *)
Lemma reg_cases r : r = zero \/ r = sp \/ r = tp \/ r ∈ callee_saved \/ exists o, (r, o) ∈ kernel_slots.
Proof.
  destruct r; try (by auto);
    first [right; right; right; left; apply (bool_decide_unpack _); by vm_compute
          |right; right; right; right; eexists; unfold kernel_slots; repeat first [left|right]].
Qed.

Lemma push_ok x c m : 256 <= x sp < 18446744073709551616 ->
  exists m1, run kernelvec_push (mk_mach x c m) = mk_mach (upd_reg x sp (x sp - 256)) c m1 /\
    forall r o, (r, o) ∈ kernel_slots -> m1 (x sp - 256 + o) = x r.
Proof.
  intros Hsp. destruct kernel_slots_ok as (H1 & H2 & H3 & H4). rewrite push_split.
  destruct (run_saves sp kernel_slots (upd_reg x sp (x sp - 256)) c m) as (m1 & E & K & _); [|done|].
  { rewrite upd_reg_eq. apply slots_inside; [lia|lia|done]. }
  exists m1. split.
  - etrans; [|exact E]. cbn [run fold_left exec]. rewrite u64_small by lia. done.
  - intros r o Hr. rewrite upd_reg_eq in K. rewrite (K r o Hr). apply upd_reg_ne. intros ->. apply H4.
    apply list_elem_of_fmap. by exists (sp, o).
Qed.

Lemma pop_ok x c m : 0 <= x sp -> x sp + 256 < 18446744073709551616 ->
  exists x', run kernelvec_pop (mk_mach x c m) = mk_mach x' c m /\ x' sp = x sp + 256 /\
    (forall r o, (r, o) ∈ kernel_slots -> x' r = m (x sp + o)) /\
    (forall r, r <> sp -> r ∉ kernel_slots.*1 -> x' r = x r).
Proof.
  intros Hlo Hhi. destruct kernel_slots_ok as (H1 & H2 & H3 & H4). rewrite pop_split, run_app.
  destruct (run_restores sp kernel_slots x c m) as (x1 & -> & K1 & K2); [apply slots_inside; [lia|lia|done]|done|done|].
  eexists. split; [cbn [run fold_left exec]; reflexivity|]. rewrite (K2 sp H4), u64_small by lia. split_and!.
  - apply upd_reg_eq.
  - intros r o Hr. rewrite upd_reg_ne; [by apply K1|]. intros ->. apply H4. apply list_elem_of_fmap. by exists (sp, o).
  - intros r Hr Hn. rewrite upd_reg_ne by done. by apply K2.
Qed.

(** *** Switching contexts *)
Definition context_slots : list (reg * Z) := imap (fun i r => (r, 8 * Z.of_nat i)) context.

Lemma context_slots_ok : Forall (fun p : reg * Z => 0 <= p.2 < 256) context_slots /\ NoDup context_slots.*1 /\ NoDup context_slots.*2 /\
  a1 ∉ context_slots.*1.
Proof. split; [repeat constructor; cbn; lia|]. split_and!; apply (bool_decide_unpack _); by vm_compute. Qed.

(** [swtch(old, new)] stores the context in [old] and loads that of [new], so
    that a later switch to [old] goes on behind the call with the registers of
    the caller. *)
Lemma swtch_ok x c m : 0 <= x a0 -> x a0 + 256 <= 18446744073709551616 -> 0 <= x a1 -> x a1 + 256 <= 18446744073709551616 ->
  x a0 + 112 <= x a1 \/ x a1 + 112 <= x a0 ->
  exists x' m', run swtch (mk_mach x c m) = mk_mach x' c m' /\
    (forall r o, (r, o) ∈ context_slots -> m' (x a0 + o) = x r /\ x' r = m (x a1 + o)) /\
    (forall a, a < x a0 \/ x a0 + 112 <= a -> m' a = m a).
Proof.
  intros H1 H2 H3 H4 Hd. destruct context_slots_ok as (K1 & K2 & K3 & K4).
  assert (forall o, o ∈ context_slots.*2 -> 0 <= o < 112) as Hoff.
  { apply (proj1 (Forall_forall _ _)). repeat constructor; cbn; lia. }
  change swtch with (saves a0 context_slots ++ restores a1 context_slots). rewrite run_app.
  destruct (run_saves a0 context_slots x c m) as (m' & -> & S1 & S2); [by apply slots_inside|done|].
  destruct (run_restores a1 context_slots x c m') as (x' & -> & R1 & R2); [by apply slots_inside|done|done|].
  exists x', m'. split; [done|]. split.
  - intros r o Hr. assert (o ∈ context_slots.*2) as Ho by (apply list_elem_of_fmap; by exists (r, o)). pose proof (Hoff o Ho).
    split; [by apply S1|]. rewrite (R1 r o Hr). apply S2. intros o' Ho'. pose proof (Hoff o' Ho'). lia.
  - intros a Ha. apply S2. intros o Ho. pose proof (Hoff o Ho). lia.
Qed.
