(* ===== verification/Trap.v ===== *)
(** * Traps and system calls

    [trap.c], the dispatch in [syscall.c], [plic.c] and [forkret] of [proc.c].
    The code runs for one process on one hart; its state is the control
    registers of that hart, the number of the hart, the memory of the trap frame and
    the rest [W] of the kernel, which these functions reach through the
    interface [TrapOS].  Operations that may give up the CPU return control
    registers and a hart of their own. *)

From S2P Require Import Prelude Kalloc Vm Trampoline.

Local Open Scope Z_scope.

(** ** System call numbers *)
Inductive sysno : Type :=
| SYS_fork | SYS_exit | SYS_wait | SYS_pipe | SYS_read | SYS_kill | SYS_exec | SYS_fstat | SYS_chdir | SYS_dup | SYS_getpid
| SYS_sbrk | SYS_pause | SYS_uptime | SYS_open | SYS_write | SYS_mknod | SYS_unlink | SYS_link | SYS_mkdir | SYS_close
| SYS_sync | SYS_waitx.
#[global] Instance sysno_eq_dec : EqDecision sysno.
Proof. solve_decision. Defined.

(** The array of handlers; there is none for number 0. *)
Definition syscalls : list (option sysno) :=
  [None; Some SYS_fork; Some SYS_exit; Some SYS_wait; Some SYS_pipe; Some SYS_read; Some SYS_kill; Some SYS_exec;
   Some SYS_fstat; Some SYS_chdir; Some SYS_dup; Some SYS_getpid; Some SYS_sbrk; Some SYS_pause; Some SYS_uptime;
   Some SYS_open; Some SYS_write; Some SYS_mknod; Some SYS_unlink; Some SYS_link; Some SYS_mkdir; Some SYS_close;
   Some SYS_sync; Some SYS_waitx].

(** The handler for the number in [a7]. *)
Definition call_of (a7 : Z) : option sysno :=
  let num := wrap32 a7 in
  if (0 <? num) && (num <? Z.of_nat (length syscalls)) then default None (syscalls !! Z.to_nat num) else None.

Definition UART0_IRQ : Z := 10.
Definition VIRTIO0_IRQ : Z := 1.
Definition PLIC : Z := 0x0c000000.
Definition PLIC_SENABLE (hart : Z) : Z := PLIC + 0x2080 + hart * 0x100.
Definition PLIC_SPRIORITY (hart : Z) : Z := PLIC + 0x201000 + hart * 0x2000.
Definition PLIC_SCLAIM (hart : Z) : Z := PLIC + 0x201004 + hart * 0x2000.

(** ** The state *)
Record tstate (W : Type) := mk_ts { s_csr : csrs; s_hart : Z; s_mem : Z -> Z; s_w : W }.
Arguments mk_ts {W} _ _ _ _.
Arguments s_csr {W} _.
Arguments s_hart {W} _.
Arguments s_mem {W} _ _.
Arguments s_w {W} _.

(** What the trap code calls.  [os_kexit] does not return. *)
Class TrapOS (W : Type) := {
  os_pid : W -> Z;
  os_kstack : W -> Z;
  os_pagetable : W -> Z;
  os_killed : W -> bool;
  os_setkilled : W -> W;
  os_kexit : W -> Z -> outcome Empty_set;
  os_sys : sysno -> tstate W -> outcome (tstate W * Z);
  os_vmfault : W -> Z -> bool -> outcome (W * Z);
  os_uartintr : W -> outcome W;
  os_virtio_disk_intr : W -> outcome W;
  os_mmio_read : W -> Z -> W * Z;
  os_mmio_write : W -> Z -> Z -> W;
  os_time : W -> Z;
  os_tick : W -> W;
  os_timer : tstate W -> outcome (tstate W);
  os_running : W -> bool;
  os_yield : tstate W -> outcome (tstate W);
  os_printk : W -> string -> list Z -> W;
  os_fsinit : tstate W -> outcome (tstate W);
  os_exec_init : tstate W -> outcome (tstate W * Z)
}.

Section trap.
Context {W : Type} `{TrapOS W}.

(** Addresses that the linker determines. *)
Context (kernelvec usertrap_addr : Z).
Implicit Types s : tstate W.

Definition with_csr s (c : csrs) : tstate W := mk_ts c (s_hart s) (s_mem s) (s_w s).
Definition with_w s (w : W) : tstate W := mk_ts (s_csr s) (s_hart s) (s_mem s) w.

(** [p->trapframe->f] *)
Definition tf_get s (f : string) : Z := s_mem s (tf_at f).
Definition tf_put s (f : string) (v : Z) : tstate W := mk_ts (s_csr s) (s_hart s) (upd_mem (s_mem s) (tf_at f) (u64 v)) (s_w s).

(** *** [plic.c] *)
Definition plicinit (w : W) : W :=
  let w := os_mmio_write w (PLIC + UART0_IRQ * 4) 1 in
  os_mmio_write w (PLIC + VIRTIO0_IRQ * 4) 1.

Definition plicinithart (w : W) (hart : Z) : W :=
  let w := os_mmio_write w (PLIC_SENABLE hart) (Z.lor (Z.shiftl 1 UART0_IRQ) (Z.shiftl 1 VIRTIO0_IRQ)) in
  os_mmio_write w (PLIC_SPRIORITY hart) 0.

Definition plic_claim (w : W) (hart : Z) : W * Z :=
  let '(w, irq) := os_mmio_read w (PLIC_SCLAIM hart) in (w, wrap32 irq).

Definition plic_complete (w : W) (hart irq : Z) : W := os_mmio_write w (PLIC_SCLAIM hart) (u32 irq).

(** *** Interrupts *)
Definition trapinithart s : tstate W := with_csr s (w_stvec (s_csr s) kernelvec).

(** The part on the clock itself is [os_tick]. *)
Definition clockintr s : tstate W :=
  let s := if s_hart s =? 0 then with_w s (os_tick (s_w s)) else s in
  with_csr s (w_stimecmp (s_csr s) (u64 (os_time (s_w s) + 1000000))).

Definition devintr s : outcome (tstate W * Z) :=
  let scause := r_scause (s_csr s) in
  if scause =? 0x8000000000000009 then
    let '(w, irq) := plic_claim (s_w s) (s_hart s) in
    let* w :=
      if irq =? UART0_IRQ then os_uartintr w
      else if irq =? VIRTIO0_IRQ then os_virtio_disk_intr w
      else if negb (irq =? 0) then Ret (os_printk w "unexpected interrupt irq=%d\n" [irq])
      else Ret w in
    let w := if negb (irq =? 0) then plic_complete w (s_hart s) irq else w in
    Ret (with_w s w, 1)
  else if scause =? 0x8000000000000005 then Ret (clockintr s, 2)
  else Ret (s, 0).

(** *** System calls *)
Definition syscall s : outcome (tstate W) :=
  let num := wrap32 (tf_get s "a7") in
  match call_of (tf_get s "a7") with
  | Some h => let* '(s, r) := os_sys h s in Ret (tf_put s "a0" r)
  | None =>
      let s := with_w s (os_printk (s_w s) "%d %s: unknown sys call %d\n" [os_pid (s_w s); num]) in
      Ret (tf_put s "a0" (-1))
  end.

(** *** Returning to user space *)
Definition prepare_return s : tstate W :=
  let s := with_csr s (intr_off (s_csr s)) in
  let s := with_csr s (w_stvec (s_csr s) TRAMPOLINE) in
  let s := tf_put s "kernel_satp" (r_satp (s_csr s)) in
  let s := tf_put s "kernel_sp" (os_kstack (s_w s) + PGSIZE) in
  let s := tf_put s "kernel_trap" usertrap_addr in
  let s := tf_put s "kernel_hartid" (s_hart s) in
  let x := r_sstatus (s_csr s) in
  let x := Z.ldiff x SSTATUS_SPP in
  let x := Z.lor x SSTATUS_SPIE in
  let s := with_csr s (w_sstatus (s_csr s) x) in
  with_csr s (w_sepc (s_csr s) (tf_get s "epc")).

(** [kexit(-1)] *)
Definition leave_killed {A} s : outcome A := let* e := os_kexit (s_w s) (-1) in match (e : Empty_set) with end.

(** The branches of [usertrap] on the cause, with [which_dev]. *)
Definition handle_cause s : outcome (tstate W * Z) :=
  if r_scause (s_csr s) =? 8 then
    if os_killed (s_w s) then leave_killed s
    else
      let s := tf_put s "epc" (tf_get s "epc" + 4) in
      let s := with_csr s (intr_on (s_csr s)) in
      let* s := syscall s in
      Ret (s, 0)
  else
    let* '(s, which_dev) := devintr s in
    if negb (which_dev =? 0) then Ret (s, which_dev)
    else
      let cause := r_scause (s_csr s) in
      let* '(s, ok) :=
        if (cause =? 15) || (cause =? 13) then
          let* '(w, mem) := os_vmfault (s_w s) (r_stval (s_csr s)) (cause =? 13) in
          Ret (with_w s w, negb (mem =? 0))
        else Ret (s, false) in
      if ok : bool then Ret (s, 0)
      else
        let w := os_printk (s_w s) "usertrap(): unexpected scause 0x%lx pid=%d\n" [cause; os_pid (s_w s)] in
        let w := os_printk w "            sepc=0x%lx stval=0x%lx\n" [r_sepc (s_csr s); r_stval (s_csr s)] in
        Ret (with_w s (os_setkilled w), 0).

(** The value is that of [satp] for the process. *)
Definition usertrap s : outcome (tstate W * Z) :=
  if negb (Z.land (r_sstatus (s_csr s)) SSTATUS_SPP =? 0) then Panic "usertrap: not from user mode"
  else
    let s := with_csr s (w_stvec (s_csr s) kernelvec) in
    let s := tf_put s "epc" (r_sepc (s_csr s)) in
    let* '(s, which_dev) := handle_cause s in
    if os_killed (s_w s) then leave_killed s
    else
      let* s := if which_dev =? 2 then os_timer s else Ret s in
      let s := prepare_return s in
      Ret (s, MAKE_SATP (os_pagetable (s_w s))).

Definition kerneltrap s : outcome (tstate W) :=
  let sepc := r_sepc (s_csr s) in
  let sstatus := r_sstatus (s_csr s) in
  if Z.land sstatus SSTATUS_SPP =? 0 then Panic "kerneltrap: not from supervisor mode"
  else if intr_get (s_csr s) then Panic "kerneltrap: interrupts enabled"
  else
    let* '(s, which_dev) := devintr s in
    if which_dev =? 0 then Panic "kerneltrap"
    else
      let* s := if (which_dev =? 2) && os_running (s_w s) then os_yield s else Ret s in
      let s := with_csr s (w_sepc (s_csr s) sepc) in
      Ret (with_csr s (w_sstatus (s_csr s) sstatus)).

(** [forkret], up to the jump to [userret]; [first] is set in the first process. *)
Definition forkret (first : bool) s : outcome (tstate W * Z) :=
  let* s :=
    if first then
      let* s := os_fsinit s in
      let* '(s, r) := os_exec_init s in
      let s := tf_put s "a0" r in
      if tf_get s "a0" =? u64 (-1) then Panic "exec" else Ret s
    else Ret s in
  let s := prepare_return s in
  Ret (s, MAKE_SATP (os_pagetable (s_w s))).

(** ** A process in user space, and its way into the kernel and back *)
Record user := mk_user { u_x : reg -> Z; u_pc : Z; u_csr : csrs; u_hart : Z; u_mem : Z -> Z; u_w : W }.

(** The machine at the call of [usertrap]. *)
Definition enter (u : user) (cause tval : Z) : mach :=
  run uservec (mk_mach (u_x u) (trap_entry (u_csr u) true (u_pc u) cause tval) (u_mem u)).

(** [userret] and [sret]; the registers that the C code leaves are [scratch],
    except for its value in [a0].  The flag tells user mode. *)
Definition leave (scratch : reg -> Z) s (satp : Z) : user * bool :=
  let m := run userret (mk_mach (upd_reg scratch a0 satp) (s_csr s) (s_mem s)) in
  let '(c, mode, pc) := sret (c_ m) in
  (mk_user (x_ m) pc c (s_hart s) (m_ m) (s_w s), mode).

(** The state in which [usertrap] starts, with [r_tp()] for the hart. *)
Definition entered (u : user) (cause tval : Z) : tstate W :=
  let m := enter u cause tval in mk_ts (c_ m) (x_ m tp) (m_ m) (u_w u).

(** A trap: the hardware goes to [stvec], [uservec] to the address in [t0]. *)
Definition user_trap (u : user) (cause tval : Z) (scratch : reg -> Z) : outcome (user * bool) :=
  if negb (r_stvec (u_csr u) =? TRAMPOLINE) then Undef
  else if negb (x_ (enter u cause tval) t0 =? usertrap_addr) then Undef
  else
    let* '(s, satp) := usertrap (entered u cause tval) in
    Ret (leave scratch s satp).
End trap.
Arguments mk_user {W} _ _ _ _ _ _.
Arguments u_x {W} _ _.
Arguments u_pc {W} _.
Arguments u_csr {W} _.
Arguments u_hart {W} _.
Arguments u_mem {W} _ _.
Arguments u_w {W} _.

(** ** What the trap code relies on *)
Definition is_u64 (z : Z) : Prop := 0 <= z < 18446744073709551616.

(** [s'] has the trap frame of [s] except for the fields [F], and still the page table of
    the kernel; the hart may be another one. *)
Record kept {W} (F : list string) (s s' : tstate W) : Prop := {
  kp_frame : forall f, f ∈ trapframe -> f ∉ F -> s_mem s' (tf_at f) = s_mem s (tf_at f);
  kp_satp : r_satp (s_csr s') = r_satp (s_csr s);
  kp_hart : is_u64 (s_hart s')
}.

(** The fields that a system call changes besides [a0]: [exec] starts the new
    program. *)
Definition call_fields (h : sysno) (r : Z) : list string :=
  if decide (h = SYS_exec /\ r <> -1) then ["epc"; "sp"; "a1"]%string else [].

Class TrapLaws (W : Type) `{TrapOS W} := {
  law_sys : forall h s s' r, os_sys h s = Ret (s', r) -> is_u64 (s_hart s) -> kept (call_fields h r) s s';
  law_timer : forall s s', os_timer s = Ret s' -> is_u64 (s_hart s) -> kept [] s s';
  law_kstack : forall w, is_u64 (os_kstack w + PGSIZE)
}.

(** ** Proofs *)
Lemma tf_at_nodup : NoDup (tf_at <$> trapframe).
Proof. apply (bool_decide_unpack _). by vm_compute. Qed.

#[local] Opaque tf_at run.

Lemma tf_at_inj f g : f ∈ trapframe -> g ∈ trapframe -> tf_at f = tf_at g -> f = g.
Proof.
  intros Hf Hg E. apply list_elem_of_lookup_1 in Hf as [i Hi]. apply list_elem_of_lookup_1 in Hg as [j Hj].
  assert (i = j) as <-; [|congruence]. eapply (NoDup_lookup _ _ _ (tf_at f) tf_at_nodup); rewrite list_lookup_fmap.
  - by rewrite Hi.
  - rewrite Hj. cbn. by rewrite E.
Qed.

Lemma reg_field_in r : r <> zero -> reg_field r ∈ trapframe /\ reg_field r ∉ take 5 trapframe.
Proof. intros Hr. destruct r; first [done|split; apply (bool_decide_unpack _); by vm_compute]. Qed.

Lemma reg_field_inj r r' : r <> zero -> r' <> zero -> reg_field r = reg_field r' -> r = r'.
Proof. intros Hr Hr'. destruct r, r'; done. Qed.

(** Single bits of [sstatus]. *)
Lemma flag_bit x n : 0 <= n -> (Z.land x (Z.shiftl 1 n) =? 0) = negb (Z.testbit x n).
Proof.
  intros Hn. assert (forall k, 0 <= k -> Z.testbit (Z.shiftl 1 n) k = (k =? n)) as Hb.
  { intros k Hk. rewrite Z.shiftl_1_l. destruct (Z.eqb_spec k n) as [->|]; [by apply Z.pow2_bits_true|by apply Z.pow2_bits_false; lia]. }
  destruct (Z.testbit x n) eqn:E; cbn [negb].
  - apply Z.eqb_neq. intros E0. apply (f_equal (fun z => Z.testbit z n)) in E0.
    rewrite Z.land_spec, E, Hb, Z.eqb_refl, Z.testbit_0_l in E0 by done. done.
  - apply Z.eqb_eq. apply Z.bits_inj'. intros k Hk. rewrite Z.land_spec, Hb, Z.testbit_0_l by done.
    destruct (Z.eqb_spec k n) as [->|]; [by rewrite E|apply andb_false_r].
Qed.

Lemma intr_get_bit c : intr_get c = Z.testbit (r_sstatus c) 1.
Proof. unfold intr_get, SSTATUS_SIE. rewrite flag_bit by done. apply negb_involutive. Qed.

Lemma set_field_bit x k n b : 0 <= k -> 0 <= n -> Z.testbit (set_field x (Z.shiftl 1 k) b) n = if n =? k then b else Z.testbit x n.
Proof.
  intros Hk Hn. unfold set_field. rewrite Z.shiftl_1_l. destruct b; [rewrite Z.lor_spec|rewrite Z.ldiff_spec];
    (destruct (Z.eqb_spec n k) as [->|Hne]; [rewrite Z.pow2_bits_true by done|rewrite Z.pow2_bits_false by lia]).
  - apply orb_true_r.
  - apply orb_false_r.
  - apply andb_false_r.
  - apply andb_true_r.
Qed.

Lemma lor_set x k : Z.lor x (Z.shiftl 1 k) = set_field x (Z.shiftl 1 k) true.
Proof. done. Qed.
Lemma ldiff_set x k : Z.ldiff x (Z.shiftl 1 k) = set_field x (Z.shiftl 1 k) false.
Proof. done. Qed.

Ltac status_bits :=
  unfold SSTATUS_SPP, SSTATUS_SPIE, SSTATUS_SIE; rewrite ?lor_set, ?ldiff_set;
  repeat rewrite set_field_bit by done; cbn [Z.eqb Pos.eqb].

(** Names are fields of the frame, and different ones. *)
Ltac in_frame :=
  lazymatch goal with
  | |- ?f ∈ _ => first [assumption|apply (bool_decide_unpack _); vm_compute; exact I]
  | |- ?f ∉ _ => first [assumption|apply (bool_decide_unpack _); vm_compute; exact I]
  | |- _ <> _ => first [assumption|discriminate]
  end.

Section proofs.
Context {W : Type} `{TrapLaws W} (kernelvec usertrap_addr kernel_satp : Z).
Hypotheses (Haddr : is_u64 usertrap_addr) (Hksatp : is_u64 kernel_satp).
Implicit Types (s : tstate W) (u : user (W := W)).

Lemma upd_tf m f g v : f ∈ trapframe -> g ∈ trapframe -> g <> f -> upd_mem m (tf_at f) v (tf_at g) = m (tf_at g).
Proof. intros Hf Hg Hne. apply upd_mem_ne. intros E. by apply Hne, tf_at_inj. Qed.

(** In user space and prepared for the next trap. *)
Record ready u : Prop := {
  rd_stvec : r_stvec (u_csr u) = TRAMPOLINE;
  rd_satp : r_satp (u_csr u) = MAKE_SATP (os_pagetable (u_w u));
  rd_hart : is_u64 (u_hart u);
  rd_ksatp : u_mem u (tf_at "kernel_satp") = kernel_satp;
  rd_ksp : u_mem u (tf_at "kernel_sp") = os_kstack (u_w u) + PGSIZE;
  rd_ktrap : u_mem u (tf_at "kernel_trap") = usertrap_addr;
  rd_khart : u_mem u (tf_at "kernel_hartid") = u_hart u
}.

(** *** Into the kernel *)
Lemma entered_ok u cause tval : ready u -> let s := entered u cause tval in
  s_hart s = u_hart u /\ r_satp (s_csr s) = kernel_satp /\ r_scause (s_csr s) = cause /\ r_sepc (s_csr s) = u_pc u /\
  Z.testbit (r_sstatus (s_csr s)) 8 = false /\ intr_get (s_csr s) = false /\ s_w s = u_w u /\
  x_ (enter u cause tval) sp = os_kstack (u_w u) + PGSIZE /\ x_ (enter u cause tval) t0 = usertrap_addr /\
  (forall r, r <> zero -> s_mem s (tf_at (reg_field r)) = u_x u r).
Proof.
  intros R. cbv zeta. unfold entered, enter.
  destruct (uservec_ok (u_x u) (trap_entry (u_csr u) true (u_pc u) cause tval) (u_mem u)) as (H1 & H2 & H3 & H4 & H5 & H6).
  revert H1 H2 H3 H4 H5 H6. generalize (run uservec (mk_mach (u_x u) (trap_entry (u_csr u) true (u_pc u) cause tval) (u_mem u))).
  intros m H1 _ H3 H4 H5 H6. cbn [s_hart s_csr s_mem s_w]. rewrite intr_get_bit, H3, H4, H5, H6.
  cbn [w_satp w_sscratch r_satp r_scause r_sepc r_sstatus trap_entry].
  rewrite (rd_khart _ R), (rd_ksatp _ R), (rd_ksp _ R), (rd_ktrap _ R). by split_and!; try done; status_bits.
Qed.

(** *** Back to user space *)
Definition prepared s : Z -> Z :=
  upd_mem (upd_mem (upd_mem (upd_mem (s_mem s) (tf_at "kernel_satp") (u64 (r_satp (s_csr s))))
    (tf_at "kernel_sp") (u64 (os_kstack (s_w s) + PGSIZE))) (tf_at "kernel_trap") (u64 usertrap_addr))
    (tf_at "kernel_hartid") (u64 (s_hart s)).

Definition user_status (x : Z) : Z := Z.lor (Z.ldiff (Z.ldiff x SSTATUS_SIE) SSTATUS_SPP) SSTATUS_SPIE.

Lemma prepare_eq s : prepare_return usertrap_addr s =
  mk_ts (w_sepc (w_sstatus (w_stvec (s_csr s) TRAMPOLINE) (user_status (r_sstatus (s_csr s)))) (prepared s (tf_at "epc")))
    (s_hart s) (prepared s) (s_w s).
Proof. reflexivity. Qed.

Lemma prepared_rest s f : f ∈ trapframe -> f ∉ ["kernel_satp"; "kernel_sp"; "kernel_trap"; "kernel_hartid"]%string ->
  prepared s (tf_at f) = s_mem s (tf_at f).
Proof.
  intros Hf Hn. rewrite !not_elem_of_cons in Hn. destruct Hn as (N1 & N2 & N3 & N4 & _). unfold prepared.
  by rewrite !upd_tf by in_frame.
Qed.

(** The way back, shared by [usertrap] and [forkret]. *)
Lemma leave_ok s scratch : is_u64 (s_hart s) -> r_satp (s_csr s) = kernel_satp ->
  exists u', leave scratch (prepare_return usertrap_addr s) (MAKE_SATP (os_pagetable (s_w s))) = (u', true) /\ ready u' /\
    intr_get (u_csr u') = true /\ u_hart u' = s_hart s /\ u_w u' = s_w s /\ u_pc u' = s_mem s (tf_at "epc") /\
    (forall r, r <> zero -> u_x u' r = s_mem s (tf_at (reg_field r))).
Proof.
  intros Hh Hsat. pose proof (law_kstack (s_w s)) as Hk. unfold leave. rewrite prepare_eq. cbn [s_csr s_mem s_hart s_w].
  match goal with |- context [run userret (mk_mach ?x ?c ?m)] => destruct (userret_ok x c m) as (H1 & H2 & H3); revert H1 H2 H3;
    generalize (run userret (mk_mach x c m)) end.
  intros m H1 H2 H3. rewrite H3, H2. unfold sret. cbn [w_satp w_sepc w_sstatus w_stvec r_sstatus r_sepc]. eexists. split.
  { f_equal. unfold user_status, SSTATUS_SPP. rewrite flag_bit by done. by status_bits. }
  split; [|split_and!]; cbn [u_csr u_hart u_w u_pc u_x u_mem w_sstatus r_stvec r_satp].
  - constructor; cbn [u_csr u_hart u_w u_pc u_x u_mem w_sstatus r_stvec r_satp]; unfold prepared; try done.
    + rewrite !upd_tf by in_frame. rewrite upd_mem_eq, Hsat. by apply u64_small.
    + rewrite !upd_tf by in_frame. rewrite upd_mem_eq. by apply u64_small.
    + rewrite !upd_tf by in_frame. rewrite upd_mem_eq. by apply u64_small.
    + rewrite upd_mem_eq. by apply u64_small.
  - rewrite intr_get_bit. cbn [w_sstatus r_sstatus]. unfold user_status, SSTATUS_SPIE. rewrite flag_bit by done. by status_bits.
  - done.
  - done.
  - apply prepared_rest; in_frame.
  - intros r Hr. rewrite H1 by done. destruct (reg_field_in r Hr) as [Hf Hn]. apply prepared_rest; [done|].
    intros Hin. apply Hn. revert Hin. clear. set_solver.
Qed.

(** *** The branches *)
Lemma devintr_frame s s' d : devintr s = Ret (s', d) ->
  s_mem s' = s_mem s /\ s_hart s' = s_hart s /\ r_satp (s_csr s') = r_satp (s_csr s).
Proof.
  unfold devintr. repeat case_match; intros E; repeat match goal with
  | E : obind _ _ = Ret _ |- _ => apply obind_inv in E as (? & ? & E) | E : Ret _ = Ret _ |- _ => injection E as <- <- end; try done.
  unfold clockintr. by case_match.
Qed.

Lemma handle_other s s' d : handle_cause s = Ret (s', d) -> r_scause (s_csr s) <> 8 ->
  s_mem s' = s_mem s /\ s_hart s' = s_hart s /\ r_satp (s_csr s') = r_satp (s_csr s).
Proof.
  unfold handle_cause. intros E Hc. rewrite (proj2 (Z.eqb_neq _ _) Hc) in E. apply obind_inv in E as ([s1 d1] & E1 & E).
  apply devintr_frame in E1 as (M1 & M2 & M3). destruct (negb (d1 =? 0)); [by injection E as <- <-|].
  apply obind_inv in E as ([s2 ok] & E2 & E).
  assert (s_mem s2 = s_mem s1 /\ s_hart s2 = s_hart s1 /\ r_satp (s_csr s2) = r_satp (s_csr s1)) as (N1 & N2 & N3).
  { destruct (_ || _); [|by injection E2 as <- <-]. apply obind_inv in E2 as ([w mem] & _ & E2). by injection E2 as <- <-. }
  destruct ok; injection E as <- <-; cbn [with_w s_mem s_hart s_csr]; by rewrite N1, N2, N3.
Qed.

(** The state that a handler starts with. *)
Definition calling s : tstate W :=
  let s := tf_put s "epc" (tf_get s "epc" + 4) in with_csr s (intr_on (s_csr s)).

Lemma handle_call s s' d : handle_cause s = Ret (s', d) -> r_scause (s_csr s) = 8 -> is_u64 (s_hart s) ->
  d = 0 /\ is_u64 (s_hart s') /\ r_satp (s_csr s') = r_satp (s_csr s) /\
  exists F v, s_mem s' (tf_at "a0") = u64 v /\
    (forall f, f ∈ trapframe -> f ∉ F -> f <> "a0"%string -> f <> "epc"%string -> s_mem s' (tf_at f) = s_mem s (tf_at f)) /\
    ("epc"%string ∉ F -> s_mem s' (tf_at "epc") = u64 (s_mem s (tf_at "epc") + 4)) /\
    match call_of (s_mem s (tf_at "a7")) with
    | Some h => F = call_fields h v /\ exists s2, os_sys h (calling s) = Ret (s2, v)
    | None => F = [] /\ v = -1
    end.
Proof.
  unfold handle_cause. intros E Hc Hh. rewrite Hc in E. cbn [Z.eqb Pos.eqb] in E. destruct (os_killed (s_w s)).
  { unfold leave_killed in E. apply obind_inv in E as ([] & _). }
  apply obind_inv in E as (s1 & E & E1). injection E1 as <- <-. fold (calling s) in E.
  assert (forall f, f ∈ trapframe -> f <> "epc"%string -> s_mem (calling s) (tf_at f) = s_mem s (tf_at f)) as Ef.
  { intros f Hf Hne. cbn [calling with_csr s_mem tf_put]. by apply upd_tf; in_frame. }
  assert (s_mem (calling s) (tf_at "epc") = u64 (s_mem s (tf_at "epc") + 4)) as Ee by apply upd_mem_eq.
  unfold syscall in E. change (tf_get (calling s) "a7") with (s_mem (calling s) (tf_at "a7")) in E. rewrite Ef in E by in_frame.
  destruct (call_of _) as [h|].
  - apply obind_inv in E as ([s2 v] & E2 & E). injection E as <-. destruct (law_sys h _ _ _ E2 Hh) as [K1 K2 K3].
    split_and!; [done|done|exact K2|]. exists (call_fields h v), v. split_and!.
    + apply upd_mem_eq.
    + intros f Hf HF Ha He. cbn [tf_put s_mem]. rewrite upd_tf by in_frame. rewrite K1 by done. by apply Ef.
    + intros HF. cbn [tf_put s_mem]. rewrite upd_tf by in_frame. rewrite K1; [exact Ee|in_frame|done].
    + done.
    + by exists s2.
  - injection E as <-. split_and!; [done|done|done|]. exists [], (-1). split_and!; [apply upd_mem_eq| | |done|done].
    + intros f Hf _ Ha He. cbn [tf_put s_mem with_w]. rewrite upd_tf by in_frame. by apply Ef.
    + intros _. cbn [tf_put s_mem with_w]. rewrite upd_tf by in_frame. exact Ee.
Qed.

(** The state at the branches of [usertrap]. *)
Definition started s : tstate W :=
  let s := with_csr s (w_stvec (s_csr s) kernelvec) in
  tf_put s "epc" (r_sepc (s_csr s)).

Definition trapped u (cause tval : Z) : tstate W := started (entered u cause tval).

Lemma started_ok s : is_u64 (r_sepc (s_csr s)) ->
  s_hart (started s) = s_hart s /\ r_satp (s_csr (started s)) = r_satp (s_csr s) /\ r_scause (s_csr (started s)) = r_scause (s_csr s) /\
  s_mem (started s) (tf_at "epc") = r_sepc (s_csr s) /\
  (forall r, r <> zero -> s_mem (started s) (tf_at (reg_field r)) = s_mem s (tf_at (reg_field r))).
Proof.
  intros Hpc. unfold started. cbn [tf_put with_csr s_hart s_csr s_mem w_stvec r_satp r_scause r_sepc]. split_and!; try done.
  - rewrite upd_mem_eq. by apply u64_small.
  - intros r Hr. destruct (reg_field_in r Hr) as [Hf Hn]. rewrite upd_tf; [done|in_frame|done|].
    intros E. rewrite E in Hn. apply Hn. in_frame.
Qed.

Lemma trapped_ok u cause tval : ready u -> is_u64 (u_pc u) -> let s := trapped u cause tval in
  s_hart s = u_hart u /\ r_satp (s_csr s) = kernel_satp /\ r_scause (s_csr s) = cause /\ s_mem s (tf_at "epc") = u_pc u /\
  (forall r, r <> zero -> s_mem s (tf_at (reg_field r)) = u_x u r).
Proof.
  intros R Hpc. destruct (entered_ok u cause tval R) as (H1 & H2 & H3 & H4 & _ & _ & _ & _ & _ & H10). cbv zeta.
  unfold trapped. destruct (started_ok (entered u cause tval)) as (K1 & K2 & K3 & K4 & K5); [by rewrite H4|].
  rewrite K1, K2, K3, K4. split_and!; [exact H1|exact H2|exact H3|exact H4|]. intros r Hr. by rewrite K5, H10.
Qed.

(** [usertrap] in terms of the branch that is taken. *)
Lemma usertrap_eq s s2 d : Z.testbit (r_sstatus (s_csr s)) 8 = false -> handle_cause (started s) = Ret (s2, d) ->
  usertrap kernelvec usertrap_addr s =
    if os_killed (s_w s2) then leave_killed s2
    else let* s := if d =? 2 then os_timer s2 else Ret s2 in
         Ret (prepare_return usertrap_addr s, MAKE_SATP (os_pagetable (s_w s))).
Proof.
  intros H5 E. unfold usertrap, SSTATUS_SPP. rewrite flag_bit, H5 by done. cbn [negb]. unfold started in E. rewrite E. done.
Qed.

Lemma user_trap_eq u cause tval scratch : ready u -> user_trap kernelvec usertrap_addr u cause tval scratch =
  let* '(s, satp) := usertrap kernelvec usertrap_addr (entered u cause tval) in Ret (leave scratch s satp).
Proof.
  intros R. destruct (entered_ok u cause tval R) as (_ & _ & _ & _ & _ & _ & _ & _ & H9 & _). unfold user_trap.
  by rewrite (rd_stvec _ R), H9, !Z.eqb_refl.
Qed.

(** What the timer part leaves of the frame. *)
Lemma timer_ok s2 s3 d : (if d =? 2 then os_timer s2 else Ret s2) = Ret s3 -> is_u64 (s_hart s2) -> kept [] s2 s3.
Proof. destruct (d =? 2); [by apply law_timer|]. intros [= ->] Hh. by split. Qed.

(** The return after the branches. *)
Lemma user_trap_returns u cause tval scratch s2 s3 d : ready u -> handle_cause (trapped u cause tval) = Ret (s2, d) ->
  os_killed (s_w s2) = false -> (if d =? 2 then os_timer s2 else Ret s2) = Ret s3 ->
  is_u64 (s_hart s2) -> r_satp (s_csr s2) = kernel_satp ->
  exists u', user_trap kernelvec usertrap_addr u cause tval scratch = Ret (u', true) /\ ready u' /\
    intr_get (u_csr u') = true /\ u_hart u' = s_hart s3 /\ u_pc u' = s_mem s2 (tf_at "epc") /\
    (forall r, r <> zero -> u_x u' r = s_mem s2 (tf_at (reg_field r))).
Proof.
  intros R E Hk Et Hh Hs. destruct (timer_ok _ _ _ Et Hh) as [K1 K2 K3].
  destruct (entered_ok u cause tval R) as (_ & _ & _ & _ & H5 & _).
  destruct (leave_ok s3 scratch K3) as (u' & El & R' & I' & Hh' & _ & Hp & Hx); [by rewrite K2|].
  exists u'. rewrite user_trap_eq, (usertrap_eq _ s2 d H5 E), Hk, Et by done. cbn [obind]. rewrite El.
  split_and!; [reflexivity|exact R'|exact I'|exact Hh'| |].
  - rewrite Hp. apply K1; in_frame.
  - intros r Hr. rewrite Hx by done. apply K1; [by apply reg_field_in|apply not_elem_of_nil].
Qed.
End proofs.

(** C35.  A trap from user space is transparent.  In a state prepared for it,
    any trap enters [usertrap] through [uservec], and when the branch for its
    cause returns, a killed process exits with [-1] and any other one returns
    to user mode through [userret], with interrupts enabled and prepared for
    the next trap (on whatever hart it is then).  After an interrupt or a page
    fault all registers and the program counter are those before.  After a
    system call [a0] holds what the handler of the number in [a7] returned, or
    [-1] for an unknown number, the program counter is behind the instruction,
    and all other registers are unchanged, unless [exec] succeeded. *)
Theorem user_trap_transparent {W} `{TrapLaws W} (kernelvec usertrap_addr kernel_satp : Z) (u : user) (cause tval : Z) (scratch : reg -> Z) s2 d :
  is_u64 usertrap_addr -> is_u64 kernel_satp -> ready usertrap_addr kernel_satp u -> is_u64 (u_pc u) ->
  handle_cause (trapped kernelvec u cause tval) = Ret (s2, d) ->
  let again u' := u_pc u' = (if cause =? 8 then u64 (u_pc u + 4) else u_pc u) /\
    forall r, r <> zero -> (cause = 8 -> r <> a0) -> u_x u' r = u_x u r in
  (os_killed (s_w s2) = true -> user_trap kernelvec usertrap_addr u cause tval scratch = leave_killed s2) /\
  (os_killed (s_w s2) = false -> forall s3, (if d =? 2 then os_timer s2 else Ret s2) = Ret s3 ->
    exists u', user_trap kernelvec usertrap_addr u cause tval scratch = Ret (u', true) /\ ready usertrap_addr kernel_satp u' /\
      intr_get (u_csr u') = true /\ u_hart u' = s_hart s3 /\
      if cause =? 8 then exists v, u_x u' a0 = u64 v /\
        match call_of (u_x u a7) with
        | Some h => (exists s', os_sys h (calling (trapped kernelvec u cause tval)) = Ret (s', v)) /\ (h <> SYS_exec \/ v = -1 -> again u')
        | None => v = -1 /\ again u'
        end
      else again u').
Proof.
  intros Ha Hs R Hpc E again. destruct (trapped_ok kernelvec usertrap_addr kernel_satp u cause tval R Hpc) as (T1 & T2 & T3 & T4 & T5).
  split.
  { intros Hk. destruct (entered_ok usertrap_addr kernel_satp u cause tval R) as (_ & _ & _ & _ & H5 & _).
    rewrite (user_trap_eq kernelvec usertrap_addr kernel_satp), (usertrap_eq kernelvec usertrap_addr _ s2 d H5 E), Hk by done.
    unfold leave_killed. by destruct (os_kexit (s_w s2) (-1)) as [[]| | | |]. }
  intros Hk s3 Et. destruct (Z.eqb_spec cause 8) as [->|Hc].
  - destruct (handle_call _ _ _ E T3) as (-> & Hh & Hsat & F & v & Hv & Hf & He & Hcall); [rewrite T1; apply R|].
    destruct (user_trap_returns kernelvec usertrap_addr kernel_satp Ha Hs u 8 tval scratch s2 s3 0 R E Hk Et Hh)
      as (u' & Eu & R' & I' & Hh' & Hp & Hx); [by rewrite Hsat|].
    exists u'. split_and!; [exact Eu|exact R'|exact I'|exact Hh'|]. exists v. split; [by rewrite Hx|].
    assert (F = [] -> again u') as Hagain.
    { intros ->. split; [rewrite Hp, He, T4 by apply not_elem_of_nil; done|]. intros r Hr Hra. specialize (Hra eq_refl). rewrite Hx by done.
      destruct (reg_field_in r Hr) as [H1 H2]. rewrite Hf; [by apply T5|done|apply not_elem_of_nil| |].
      - intros E0. by apply Hra, reg_field_inj.
      - intros E0. rewrite E0 in H2. apply H2. in_frame. }
    change "a7"%string with (reg_field a7) in Hcall. rewrite T5 in Hcall by done.
    destruct (call_of (u_x u a7)) as [h|]; destruct Hcall as [HF Hrest]; (split; [done|]); [|by apply Hagain].
    intros Hne. apply Hagain. rewrite HF. unfold call_fields. apply decide_False. tauto.
  - destruct (handle_other _ _ _ E) as (M1 & M2 & M3); [by rewrite T3|].
    destruct (user_trap_returns kernelvec usertrap_addr kernel_satp Ha Hs u cause tval scratch s2 s3 d R E Hk Et)
      as (u' & Eu & R' & I' & Hh' & Hp & Hx); [rewrite M2, T1; apply R|by rewrite M3|].
    exists u'. split_and!; [exact Eu|exact R'|exact I'|exact Hh'|]. split; [by rewrite Hp, M1|]. intros r Hr _. rewrite Hx, M1 by done. by apply T5.
Qed.

(** *** The first return *)

(** A process starts in user space prepared for its traps, with the registers
    of its frame: [fork] copied those of the parent, [exec] set them. *)
Lemma forkret_ready {W} `{TrapLaws W} (usertrap_addr kernel_satp : Z) (s : tstate W) (scratch : reg -> Z) :
  is_u64 usertrap_addr -> is_u64 kernel_satp -> is_u64 (s_hart s) -> r_satp (s_csr s) = kernel_satp ->
  exists s' satp u', forkret usertrap_addr false s = Ret (s', satp) /\ leave scratch s' satp = (u', true) /\
    ready usertrap_addr kernel_satp u' /\ u_pc u' = s_mem s (tf_at "epc") /\
    (forall r, r <> zero -> u_x u' r = s_mem s (tf_at (reg_field r))).
Proof.
  intros Ha Hs Hh Hsat. destruct (leave_ok usertrap_addr kernel_satp Ha Hs s scratch Hh Hsat) as (u' & E & R & _ & _ & _ & Hp & Hx).
  exists (prepare_return usertrap_addr s), (MAKE_SATP (os_pagetable (s_w s))), u'. split_and!; [reflexivity|exact E|exact R|exact Hp|exact Hx].
Qed.

(** *** Traps in the kernel *)
Lemma kerneltrap_restores {W} `{TrapOS W} (s s' : tstate W) : kerneltrap s = Ret s' ->
  r_sepc (s_csr s') = r_sepc (s_csr s) /\ r_sstatus (s_csr s') = r_sstatus (s_csr s) /\
  Z.testbit (r_sstatus (s_csr s)) 8 = true /\ intr_get (s_csr s) = false.
Proof.
  unfold kerneltrap, SSTATUS_SPP. rewrite flag_bit by done. destruct (Z.testbit _ 8); cbn [negb]; [|done].
  destruct (intr_get (s_csr s)); [done|]. intros E. apply obind_inv in E as ([s1 d] & _ & E). destruct (d =? 0); [done|].
  apply obind_inv in E as (s2 & _ & E). by injection E as <-.
Qed.

(** C36.  A trap in the kernel is transparent, even when the thread is moved to
    another hart meanwhile: when [kerneltrap] returns (it keeps, as a C function,
    the stack above it, [sp] and the registers that a callee saves),
    [kernelvec] goes back to the interrupted instruction in supervisor mode, with
    the interrupts enabled or disabled as before, and every register has its old
    value, except for [tp], which names the hart. *)
Theorem kernel_trap_transparent {W} `{TrapOS W} (x : reg -> Z) (c : csrs) (m : Z -> Z) (hart pc cause tval : Z) (w : W) s' (x2 : reg -> Z) :
  256 <= x sp < 18446744073709551616 ->
  let s1 := run kernelvec_push (mk_mach x (trap_entry c false pc cause tval) m) in
  kerneltrap (mk_ts (c_ s1) hart (m_ s1) w) = Ret s' ->
  (forall r, r ∈ sp :: callee_saved -> x2 r = x_ s1 r) ->
  (forall a, x_ s1 sp <= a < x_ s1 sp + 256 -> s_mem s' a = m_ s1 a) ->
  let s3 := run kernelvec_pop (mk_mach x2 (s_csr s') (s_mem s')) in
  (forall r, r <> zero -> r <> tp -> x_ s3 r = x r) /\ x_ s3 tp = x2 tp /\
  exists c', sret (c_ s3) = (c', false, pc) /\ intr_get c' = intr_get c.
Proof.
  intros Hsp. destruct (push_ok x (trap_entry c false pc cause tval) m Hsp) as (m1 & E1 & K1). rewrite E1. cbv zeta.
  cbn [c_ m_ x_]. rewrite upd_reg_eq. intros Ek Hx Hm. destruct (kerneltrap_restores _ _ Ek) as (R1 & R2 & R3 & R4).
  cbn [s_csr trap_entry r_sepc r_sstatus] in *.
  assert (x2 sp = x sp - 256) as Esp by (rewrite Hx by left; apply upd_reg_eq).
  destruct (pop_ok x2 (s_csr s') (s_mem s')) as (x3 & -> & P1 & P2 & P3); [lia|lia|]. cbn [c_ x_].
  destruct kernel_slots_ok as (S1 & _ & _ & S4). split_and!.
  - intros r Hz Ht. destruct (reg_cases r) as [->|[->|[->|[Hr|[o Hr]]]]]; [done|rewrite P1; lia|done| |].
    + rewrite P3.
      * rewrite Hx by (by right). apply upd_reg_ne. intros ->. revert Hr. by apply (bool_decide_unpack _).
      * intros ->. revert Hr. by apply (bool_decide_unpack _).
      * clear Hz Ht. revert r Hr. apply (proj1 (Forall_forall _ _)). apply (bool_decide_unpack _). by vm_compute.
    + rewrite (P2 r o Hr), Esp. rewrite Forall_forall in S1. pose proof (S1 _ Hr) as Ho. cbn in Ho. rewrite Hm by lia. by apply K1.
  - apply P3; [done|]. by apply (bool_decide_unpack _).
  - unfold sret. eexists. rewrite R1, R2. split; [f_equal; f_equal|].
    + unfold SSTATUS_SPP. rewrite flag_bit by done. unfold SSTATUS_SPP in R3. by rewrite R3.
    + rewrite intr_get_bit. cbn [w_sstatus r_sstatus]. unfold SSTATUS_SPIE. rewrite flag_bit by done. status_bits. apply negb_involutive.
Qed.

(** *** Concrete cases *)
#[local] Transparent tf_at run.

(** A kernel in which every system call returns 42. *)
#[local] Instance demo_os : TrapOS unit := {|
  os_pid _ := 1; os_kstack _ := 274877894656; os_pagetable _ := 2147487744; os_killed _ := false; os_setkilled w := w;
  os_kexit _ _ := Exit (-1); os_sys _ s := Ret (s, 42); os_vmfault w _ _ := Ret (w, 0); os_uartintr w := Ret w;
  os_virtio_disk_intr w := Ret w; os_mmio_read w _ := (w, 0); os_mmio_write w _ _ := w; os_time _ := 0; os_tick w := w;
  os_timer s := Ret s; os_running _ := true; os_yield s := Ret s; os_printk w _ _ := w;
  os_fsinit s := Ret s; os_exec_init s := Ret (s, 1) |}.

#[local] Instance demo_trap_laws : TrapLaws unit.
Proof.
  split.
  - intros h s s' r [= <- <-] Hh. by split.
  - intros s s' [= <-] Hh. by split.
  - intros w. unfold is_u64. cbn. unfold PGSIZE. lia.
Qed.

Definition demo_user : user (W := unit) :=
  let m := upd_mem (fun _ => 0) (tf_at "kernel_satp") 9223372036854775809 in
  let m := upd_mem m (tf_at "kernel_sp") 274877898752 in
  let m := upd_mem m (tf_at "kernel_trap") 2147491840 in
  mk_user (fun r => if decide (r = a7) then 14 else 5) 4096
    (mk_csrs 34 TRAMPOLINE 0 0 0 (MAKE_SATP 2147487744) 0 0) 0 m tt.

Lemma demo_ready : ready 2147491840 9223372036854775809 demo_user.
Proof. split; try reflexivity. unfold is_u64. cbn. lia. Qed.

Lemma demo_handle (s : tstate unit) : r_scause (s_csr s) = 8 -> s_mem s (tf_at "a7") = 14 ->
  handle_cause s = Ret (tf_put (calling s) "a0" 42, 0).
Proof.
  intros Hc Ha. unfold handle_cause. rewrite Hc. cbn [Z.eqb Pos.eqb os_killed demo_os]. fold (calling s). unfold syscall.
  change (tf_get (calling s) "a7") with (s_mem (calling s) (tf_at "a7")). cbn [calling with_csr s_mem tf_put].
  rewrite upd_tf by in_frame. by rewrite Ha.
Qed.

Lemma user_trap_transparent_witness : exists u',
  user_trap 2147487488 2147491840 demo_user 8 0 (fun _ => 77) = Ret (u', true) /\ u_x u' a0 = 42 /\ u_x u' a7 = 14 /\ u_pc u' = 4100.
Proof.
  destruct (user_trap_transparent 2147487488 2147491840 9223372036854775809 demo_user 8 0 (fun _ => 77)
    (tf_put (calling (trapped 2147487488 demo_user 8 0)) "a0" 42) 0) as [_ Hret].
  - unfold is_u64. lia.
  - unfold is_u64. lia.
  - exact demo_ready.
  - unfold is_u64. cbn. lia.
  - destruct (trapped_ok 2147487488 _ _ demo_user 8 0 demo_ready) as (_ & _ & T3 & _ & T5); [unfold is_u64; cbn; lia|].
    apply demo_handle; [exact T3|exact (T5 a7 ltac:(discriminate))].
  - destruct (Hret eq_refl _ eq_refl) as (u' & E & _ & _ & _ & v & Hv & Hcall). exists u'. split; [exact E|].
    assert (call_of (u_x demo_user a7) = Some SYS_uptime) as Ec by reflexivity. rewrite Ec in Hcall. destruct Hcall as [[s' Es] Hrest].
    assert (v = 42) as -> by (by injection Es). assert (SYS_uptime <> SYS_exec) as Hne by discriminate.
    destruct (Hrest (or_introl Hne)) as [Hpc Hx]. split_and!; [exact Hv| |exact Hpc].
    apply Hx; discriminate.
Defined.

Lemma demo_kerneltrap (s : tstate unit) : Z.testbit (r_sstatus (s_csr s)) 8 = true -> intr_get (s_csr s) = false ->
  r_scause (s_csr s) = 9223372036854775813 -> exists s', kerneltrap s = Ret s' /\ s_mem s' = s_mem s.
Proof.
  intros H1 H2 H3. unfold kerneltrap, SSTATUS_SPP. rewrite flag_bit, H1, H2 by done. cbn [negb]. unfold devintr. rewrite H3.
  cbn [Z.eqb Pos.eqb obind andb os_running os_yield demo_os]. eexists. split; [reflexivity|]. unfold clockintr. cbn. by case_match.
Qed.

(** A timer interrupt in the kernel at address 2147483648. *)
Definition demo_regs (r : reg) : Z := if decide (r = sp) then 4096 else 9.
Definition demo_csrs : csrs := mk_csrs 2 0 0 0 0 0 0 0.
Definition demo_pushed : mach := run kernelvec_push (mk_mach demo_regs (trap_entry demo_csrs false 2147483648 9223372036854775813 0) (fun _ => 0)).

Lemma kernel_trap_transparent_witness :
  exists s', kerneltrap (mk_ts (c_ demo_pushed) 0 (m_ demo_pushed) tt) = Ret s' /\
    x_ (run kernelvec_pop (mk_mach (upd_reg (x_ demo_pushed) t0 77) (s_csr s') (s_mem s'))) t0 = 9.
Proof.
  destruct (demo_kerneltrap (mk_ts (c_ demo_pushed) 0 (m_ demo_pushed) tt)) as (s' & E & Em); [reflexivity..|]. exists s'. split; [exact E|].
  destruct (kernel_trap_transparent demo_regs demo_csrs (fun _ => 0) 0 2147483648 9223372036854775813 0 tt s' (upd_reg (x_ demo_pushed) t0 77))
    as [Hx _].
  - change (demo_regs sp) with 4096. lia.
  - exact E.
  - intros r Hr. apply upd_reg_ne. intros ->. revert Hr. by apply (bool_decide_unpack _).
  - intros a _. by rewrite Em.
  - apply Hx; discriminate.
Defined.
