(* ===== verification/Sysproc.v ===== *)
(** * System calls on processes

    [sysproc.c]: the handlers over the process table of [Sched] and the address spaces of [Vm].
    The arguments are the words of the trap frame from [a0] on.  [wait],
    [waitx] and [pause] are given up to the call of [sleep]. *)

From S2P Require Import Prelude Sched Kalloc Vm PageTable UserMem Uvm.

Local Open Scope Z_scope.

Definition SBRK_EAGER : Z := 1.

(** [argint] and [argaddr] *)
Definition arg_addr (args : list Z) (n : nat) : outcome Z := match args !! n with Some a => Ret a | None => Panic "argraw" end.
Definition arg_int (args : list Z) (n : nat) : outcome Z := let* a := arg_addr args n in Ret (wrap32 a).

(** ** Processes: process [i] runs on CPU [c] *)
Definition sys_exit (k : kernel) (c i : nat) (args : list Z) : outcome kernel :=
  let* n := arg_int args 0 in
  kexit k c i n.

Definition sys_getpid (k : kernel) (i : nat) : outcome Z :=
  let* p := from_option (k_procs k !! i) in Ret (u64 (p_pid p)).

Definition sys_fork (k : kernel) (i : nat) (kalloc_ok pagetable_ok uvmcopy_ok : bool) : kernel * Z :=
  let '(k, r) := kfork k i kalloc_ok pagetable_ok uvmcopy_ok in (k, u64 r).

(** The result of a call that may sleep. *)
Inductive call_result : Type :=
| Returns (k : kernel) (r : Z)
| Sleeps (k : kernel).

Definition wait_value (r : wait_result) : call_result :=
  match r with
  | Wait_error k => Returns k (u64 (-1))
  | Wait_reaped k r => Returns k (u64 (re_pid r))
  | Wait_sleep k => Sleeps k
  end.

(** Whether the status can be copied to [p] is an argument. *)
Definition sys_wait (k : kernel) (i : nat) (args : list Z) (copyout_ok : Z -> bool) : outcome call_result :=
  let* p := arg_addr args 0 in
  Ret (wait_value (wait_round k i ((p =? 0) || copyout_ok p))).

Definition sys_waitx (k : kernel) (i : nat) (args : list Z) (copyout_ok : Z -> bool) : outcome call_result :=
  let* p := arg_addr args 0 in
  let* rtime := arg_addr args 1 in
  let* wtime := arg_addr args 2 in
  let* retime := arg_addr args 3 in
  let ok a := (a =? 0) || copyout_ok a in
  Ret (wait_value (waitx_round k i (ok p) (ok rtime) (ok wtime) (ok retime))).

Definition sys_kill (k : kernel) (args : list Z) : outcome (kernel * Z) :=
  let* pid := arg_int args 0 in
  let '(k, r) := kkill k pid in
  Ret (k, u64 r).

Definition sys_uptime (k : kernel) : Z := k_ticks k.

(** *** [pause] *)
Definition pause_ticks (args : list Z) : outcome Z :=
  let* n := arg_int args 0 in
  Ret (if n <? 0 then 0 else n).

(** One round of the loop: the comparison is one of unsigned numbers. *)
Definition pause_round (k : kernel) (i : nat) (ticks0 n : Z) : call_result :=
  if u32 (k_ticks k - ticks0) <? u32 n then
    if killed k i then Returns k (u64 (-1)) else Sleeps (sleep_prepare k i Ch_ticks)
  else Returns k 0.

Definition sys_pause (k : kernel) (i : nat) (args : list Z) : outcome call_result :=
  let* n := pause_ticks args in
  Ret (pause_round k i (k_ticks k) n).

(** ** [sbrk]: the new size and the value *)
Section sbrk.
Context {M : Type} `{PageStore M}.

Definition sys_sbrk (m : M) (pt sz : Z) (args : list Z) : outcome (M * Z * Z) :=
  let* n := arg_int args 0 in
  let* t := arg_int args 1 in
  let addr := sz in
  if (t =? SBRK_EAGER) || (n <? 0) then
    let* '(m, sz, r) := growproc m pt sz n in
    if r <? 0 then Ret (m, sz, u64 (-1)) else Ret (m, sz, addr)
  else if u64 (addr + n) <? addr then Ret (m, sz, u64 (-1))
  else if TRAPFRAME <? u64 (addr + n) then Ret (m, sz, u64 (-1))
  else Ret (m, u64 (sz + n), addr).
End sbrk.

(** ** Proofs *)
Lemma wrap32_range z : -2147483648 <= wrap32 z <= INT_MAX.
Proof. unfold wrap32, INT_MAX. pose proof (Z.mod_pos_bound (z + 2147483648) 4294967296 ltac:(lia)). lia. Qed.

(** The clock may wrap around while a process pauses: [j] ticks after the start
    the process goes on waiting exactly if [j] is less than [n]. *)
Lemma pause_round_ticks (k : kernel) (i : nat) (t0 n j : Z) :
  0 <= n <= INT_MAX -> 0 <= j < 4294967296 -> k_ticks k = u32 (t0 + j) ->
  pause_round k i (u32 t0) n =
    if j <? n then if killed k i then Returns k (u64 (-1)) else Sleeps (sleep_prepare k i Ch_ticks) else Returns k 0.
Proof.
  intros Hn Hj Ht. unfold pause_round. assert (u32 (k_ticks k - u32 t0) = j) as ->.
  { rewrite Ht. unfold u32. rewrite <-Zminus_mod. replace (t0 + j - t0) with j by lia. by apply Z.mod_small. }
  rewrite (u32_small n) by (unfold INT_MAX in Hn; lia). done.
Qed.

(** A process that sleeps in [pause] is woken by every tick, so that it sees
    the number grow. *)
Lemma pause_woken (pol : policy) (k : kernel) (c i : nat) (p : proc) : k_procs k !! i = Some p ->
  exists p', k_procs (clockintr (fst (sleep pol (sleep_prepare k i Ch_ticks) c i))) !! i = Some p' /\
    p_state p' = RUNNABLE /\ p_chan p' = None.
Proof.
  intros Hp. assert (k_procs (sleep_prepare k i Ch_ticks) !! i = Some (set_chan (Some Ch_ticks) p)) as E1.
  { unfold sleep_prepare, upd, with_procs. cbn [k_procs]. by rewrite list_lookup_alter, decide_True, Hp. }
  unfold sleep. rewrite E1. cbn [mbind option_bind p_chan set_chan fst].
  assert (exists q, k_procs (if decide (pol = MLFQ) then upd (upd (sleep_prepare k i Ch_ticks) i (set_state SLEEPING)) i reset_ticks
    else upd (sleep_prepare k i Ch_ticks) i (set_state SLEEPING)) !! i = Some q /\ p_state q = SLEEPING /\ p_chan q = Some Ch_ticks) as (q & Eq & S1 & S2).
  { case_decide; unfold upd, with_procs; cbn [k_procs]; rewrite !list_lookup_alter, !decide_True by done; rewrite E1; by eexists. }
  unfold clockintr, wakeup, with_procs, sched, with_cpu. cbn [k_procs]. rewrite list_lookup_fmap, Eq. eexists. split; [reflexivity|].
  unfold wake_one. rewrite S2, decide_True by done. cbn [set_chan p_state]. by rewrite S1.
Qed.

Section sbrk_proofs.
Context {M : Type} `{PageLaws M}.

Lemma sbrk_lazy (m : M) (pt sz a b : Z) : 0 <= sz <= TRAPFRAME -> wrap32 b <> SBRK_EAGER -> 0 <= wrap32 a ->
  sys_sbrk m pt sz [a; b] = if TRAPFRAME <? sz + wrap32 a then Ret (m, sz, u64 (-1)) else Ret (m, sz + wrap32 a, sz).
Proof.
  intros Hsz Hb Ha. pose proof (wrap32_range a) as Hr. unfold INT_MAX in Hr. rewrite TRAPFRAME_eq in *. unfold sys_sbrk, arg_int, arg_addr.
  cbn [lookup list_lookup obind]. rewrite (proj2 (Z.eqb_neq _ _) Hb), (proj2 (Z.ltb_ge _ _) Ha). cbn [orb].
  rewrite !u64_small by lia. rewrite (proj2 (Z.ltb_ge (sz + _) sz)) by lia. rewrite TRAPFRAME_eq. done.
Qed.
Lemma growproc_bound (m m' : M) (pt sz n sz' : Z) : 0 <= sz <= TRAPFRAME -> -2147483648 <= n <= INT_MAX ->
  growproc m pt sz n = Ret (m', sz', 0) -> sz + n <= TRAPFRAME.
Proof.
  intros Hsz Hn. unfold INT_MAX in Hn. rewrite TRAPFRAME_eq in *. unfold growproc. destruct (Z.ltb_spec 0 n); [|lia].
  rewrite u64_small by lia. rewrite TRAPFRAME_eq. destruct (Z.ltb_spec 274877898752 (sz + n)); [done|lia].
Qed.
End sbrk_proofs.

(** C37.  [sbrk] moves the break of a process.  It returns the old size, or
    [-1] and leaves the size as it is; the size stays below the trap frame.  Eager requests and
    those to shrink are [growproc]: the contents up to the smaller size are
    kept, new pages are writable and zero, and a shrunk process has no page
    above its size.  A lazy request only moves the break and touches no memory;
    it fails exactly if the new size would reach the trap frame.  A request to
    shrink below zero is ignored and reported as success. *)
Theorem sbrk_resizes {M} `{PageLaws M} (m : M) A F root N (sz a b : Z)
    (SP : space m A F root N) (Hsz : 0 <= sz <= TRAPFRAME)
    (Habove : forall v, uvpage v -> np sz <= v -> has (pte_at A root v) PTE_V = false) :
  let n := wrap32 a in
  let eager := (wrap32 b =? SBRK_EAGER) || (n <? 0) in
  exists m' A' F' N' sz' r, sys_sbrk m root sz [a; b] = Ret (m', sz', r) /\ space m' A' F' root N' /\ evolve root A F N A' F' N' /\
    0 <= sz' <= TRAPFRAME /\
    (if eager then resized A A' root sz sz' else m' = m) /\
    ((r = sz /\ sz' = if decide (sz + n < 0) then sz else sz + n) \/
     (r = u64 (-1) /\ sz' = sz /\ (TRAPFRAME < sz + n \/ eager = true /\ 0 < n /\ Z.of_nat (size F) <= 3 * (np (sz + n) - np sz)))).
Proof.
  cbv zeta. pose proof (wrap32_range a) as Hn. destruct ((wrap32 b =? SBRK_EAGER) || (wrap32 a <? 0)) eqn:Ee.
  - destruct (growproc_resizes m A F root N sz (wrap32 a) SP Hsz Hn Habove) as (m' & A' & F' & N' & sz' & r & E & SP' & Ev & Rz & Hr).
    assert (sys_sbrk m root sz [a; b] = Ret (m', sz', if r <? 0 then u64 (-1) else sz)) as Es.
    { unfold sys_sbrk, arg_int, arg_addr. cbn [lookup list_lookup obind]. rewrite Ee, E. cbn [obind]. by destruct (r <? 0). }
    exists m', A', F', N', sz', (if r <? 0 then u64 (-1) else sz). split_and!; try done.
    + destruct Hr as [[-> ->]|(-> & -> & _)]; [|lia]. case_decide; lia.
    + destruct Hr as [[-> ->]|(-> & -> & _)]; [|lia]. case_decide; [lia|]. by apply (growproc_bound m m' root sz (wrap32 a) _ Hsz Hn E).
    + destruct Hr as [[-> ->]|(-> & -> & Hr)]; [by left|right]. split_and!; [done|done|]. destruct Hr; [by left|by right].
  - apply orb_false_iff in Ee as [E1 E2]. apply Z.eqb_neq in E1. apply Z.ltb_ge in E2. rewrite (sbrk_lazy m root sz a b Hsz E1 E2).
    destruct (Z.ltb_spec TRAPFRAME (sz + wrap32 a)) as [Hbig|Hfit]; eexists m, A, F, N, _, _; (split_and!; [done|done|apply evolve_refl|lia|lia|done|]).
    + right. split_and!; [done|done|by left].
    + left. rewrite decide_False by lia. done.
Qed.

Lemma sbrk_resizes_witness : exists (k k' : kmem) root,
  sys_sbrk (H := kmem_store (demo_end 20)) k root 10000 [5000; 1] = Ret (k', 15000, 10000).
Proof.
  destruct demo_space as (k & root & A & F & N & SP & Hs & Hp).
  destruct (@sbrk_resizes _ _ (demo_page_laws 20 lt_20) k A F root N 10000 5000 1 SP) as (k' & A' & F' & N' & sz' & r & E & _ & _ & _ & _ & Hr).
  - rewrite TRAPFRAME_eq. lia.
  - intros v Hv _. rewrite Hp by (apply uvpage_vpage; exact Hv). reflexivity.
  - exists k, k', root. rewrite E. change (wrap32 5000) with 5000 in Hr. destruct Hr as [[-> ->]|(_ & _ & [Hx|[_ [_ Hx]]])].
    + reflexivity.
    + exfalso. rewrite TRAPFRAME_eq in Hx. lia.
    + exfalso. rewrite Hs in Hx. revert Hx. vm_compute. intros Hx. apply Hx. reflexivity.
Defined.
