(* ===== verification/Uprogs.v ===== *)
(** * Small user programs

    [wc.c], [cat.c], [echo.c], [ls.c], [kill.c], [ln.c], [mkdir.c] and [rm.c].
    The system calls are operations on a world [W]; reading is the class
    [ReadOS] of [Ulib].  A program gives what it wrote to descriptor 1 and to
    descriptor 2, its exit code and the world. *)

From S2P Require Import Prelude Bytes Ulib Printf.

Local Open Scope nat_scope.

(** [i++] for an [int] *)
Definition inc (z : Z) : outcome Z := if (z <? INT_MAX)%Z then Ret (z + 1)%Z else Undef.

Definition nl : cstr := [NEWLINE].

Section programs.
Context {W : Type} `{ReadOS W}.
Context (os_open : W -> cstr -> Z -> Z * W) (os_close : W -> Z -> W) (os_write : W -> Z -> cstr -> Z * W).

(** ** wc *)
Record counts := mk_counts { n_lines : Z; n_words : Z; n_chars : Z; inword : bool }.

Definition SPACES : list ascii := [" "%char; CR; ascii_of_nat 9; NEWLINE; ascii_of_nat 11; NUL].

(** One round of the inner loop. *)
Definition wc_char (st : counts) (ch : ascii) : outcome counts :=
  let '(mk_counts l w c inword) := st in
  let* c := inc c in
  let* l := if decide (ch = NEWLINE) then inc l else Ret l in
  let* sp := ustrchr SPACES 0 ch in
  match sp with
  | Some _ => Ret (mk_counts l w c false)
  | None =>
      if inword then Ret (mk_counts l w c inword)
      else let* w := inc w in Ret (mk_counts l w c true)
  end.

Fixpoint wc_buf (st : counts) (buf : cstr) : outcome counts :=
  match buf with
  | [] => Ret st
  | ch :: buf => let* st := wc_char st ch in wc_buf st buf
  end.

(** The last value of [n], the counters and the world. *)
Fixpoint wc_loop (w : W) (fd : Z) (st : counts) (fuel : nat) : outcome (Z * counts * W) :=
  match fuel with
  | 0 => NoFuel
  | S fuel =>
      let '(n, got, w) := os_read w fd 512 in
      if (0 <? n)%Z then
        let* st := wc_buf st (take (Z.to_nat n) got) in
        wc_loop w fd st fuel
      else Ret (n, st, w)
  end.

(** What is printed and, when the program ends here, its exit code. *)
Definition wc (w : W) (fd : Z) (name : cstr) (fuel : nat) : outcome (cstr * option Z * W) :=
  let* '(n, st, w) := wc_loop w fd (mk_counts 0 0 0 false) fuel in
  if (n <? 0)%Z then
    let* out := vprintf true (c_str "wc: read error" ++ nl) [] in
    Ret (out, Some 1%Z, w)
  else
    let* out := vprintf true (c_str "%d %d %d %s" ++ nl) [AInt (n_lines st); AInt (n_words st); AInt (n_chars st); AStr (Some name)] in
    Ret (out, None, w).

Fixpoint wc_files (w : W) (files : list cstr) (fuel : nat) : outcome (cstr * Z * W) :=
  match files with
  | [] => Ret ([], 0%Z, w)
  | f :: files =>
      let '(fd, w) := os_open w f 0%Z in
      if (fd <? 0)%Z then
        let* out := vprintf true (c_str "wc: cannot open %s" ++ nl) [AStr (Some f)] in
        Ret (out, 1%Z, w)
      else
        let* '(out, code, w) := wc w fd f fuel in
        match code with
        | Some code => Ret (out, code, w)
        | None =>
            let w := os_close w fd in
            let* '(out', code, w) := wc_files w files fuel in
            Ret (out ++ out', code, w)
        end
  end.

Definition wc_main (w : W) (argv : list cstr) (fuel : nat) : outcome (cstr * Z * W) :=
  match argv with
  | [] | [_] => let* '(out, code, w) := wc w 0 [] fuel in Ret (out, default 0%Z code, w)
  | _ :: files => wc_files w files fuel
  end.

(** ** cat: what goes to descriptor 2, and the exit code if the program ends *)
Fixpoint cat (w : W) (fd : Z) (fuel : nat) : outcome (cstr * option Z * W) :=
  match fuel with
  | 0 => NoFuel
  | S fuel =>
      let '(n, got, w) := os_read w fd 512 in
      if (0 <? n)%Z then
        let '(r, w) := os_write w 1 (take (Z.to_nat n) got) in
        if negb (r =? n)%Z then
          let* err := vprintf true (c_str "cat: write error" ++ nl) [] in
          Ret (err, Some 1%Z, w)
        else cat w fd fuel
      else if (n <? 0)%Z then
        let* err := vprintf true (c_str "cat: read error" ++ nl) [] in
        Ret (err, Some 1%Z, w)
      else Ret ([], None, w)
  end.

Fixpoint cat_files (w : W) (files : list cstr) (fuel : nat) : outcome (cstr * Z * W) :=
  match files with
  | [] => Ret ([], 0%Z, w)
  | f :: files =>
      let '(fd, w) := os_open w f 0%Z in
      if (fd <? 0)%Z then
        let* err := vprintf true (c_str "cat: cannot open %s" ++ nl) [AStr (Some f)] in
        Ret (err, 1%Z, w)
      else
        let* '(err, code, w) := cat w fd fuel in
        match code with
        | Some code => Ret (err, code, w)
        | None => cat_files (os_close w fd) files fuel
        end
  end.

Definition cat_main (w : W) (argv : list cstr) (fuel : nat) : outcome (cstr * Z * W) :=
  match argv with
  | [] | [_] => let* '(err, code, w) := cat w 0 fuel in Ret (err, default 0%Z code, w)
  | _ :: files => cat_files w files fuel
  end.

(** ** echo *)
Fixpoint echo_args (w : W) (args : list cstr) : W :=
  match args with
  | [] => w
  | [a] => let '(_, w) := os_write w 1 a in let '(_, w) := os_write w 1 nl in w
  | a :: args => let '(_, w) := os_write w 1 a in let '(_, w) := os_write w 1 [" "%char] in echo_args w args
  end.

Definition echo_main (w : W) (argv : list cstr) : Z * W := (0%Z, echo_args w (tail argv)).

(** ** rm and mkdir: a call per argument, up to the first that fails *)
Fixpoint each_file (call : W -> cstr -> Z * W) (fmt : cstr) (w : W) (files : list cstr) : outcome (cstr * W) :=
  match files with
  | [] => Ret ([], w)
  | f :: files =>
      let '(r, w) := call w f in
      if (r <? 0)%Z then let* err := vprintf true fmt [AStr (Some f)] in Ret (err, w)
      else each_file call fmt w files
  end.

Definition rm_main (os_unlink : W -> cstr -> Z * W) (w : W) (argv : list cstr) : outcome (cstr * Z * W) :=
  match argv with
  | [] | [_] => let* err := vprintf true (c_str "Usage: rm files..." ++ nl) [] in Ret (err, 1%Z, w)
  | _ :: files =>
      let* '(err, w) := each_file os_unlink (c_str "rm: %s failed to delete" ++ nl) w files in
      Ret (err, 0%Z, w)
  end.

Definition mkdir_main (os_mkdir : W -> cstr -> Z * W) (w : W) (argv : list cstr) : outcome (cstr * Z * W) :=
  match argv with
  | [] | [_] => let* err := vprintf true (c_str "Usage: mkdir files..." ++ nl) [] in Ret (err, 1%Z, w)
  | _ :: files =>
      let* '(err, w) := each_file os_mkdir (c_str "mkdir: %s failed to create" ++ nl) w files in
      Ret (err, 0%Z, w)
  end.

(** ** ln *)
Definition ln_main (os_link : W -> cstr -> cstr -> Z * W) (w : W) (argv : list cstr) : outcome (cstr * Z * W) :=
  match argv with
  | [_; old; new] =>
      let '(r, w) := os_link w old new in
      let* err := if (r <? 0)%Z then vprintf true (c_str "link %s %s: failed" ++ nl) [AStr (Some old); AStr (Some new)] else Ret [] in
      Ret (err, 0%Z, w)
  | _ => let* err := vprintf true (c_str "Usage: ln old new" ++ nl) [] in Ret (err, 1%Z, w)
  end.

(** ** kill *)
Fixpoint kill_args (os_kill : W -> Z -> Z * W) (w : W) (args : list cstr) : outcome W :=
  match args with
  | [] => Ret w
  | a :: args => let* pid := uatoi a in let '(_, w) := os_kill w pid in kill_args os_kill w args
  end.

Definition kill_main (os_kill : W -> Z -> Z * W) (w : W) (argv : list cstr) : outcome (cstr * Z * W) :=
  match argv with
  | [] | [_] => let* err := vprintf true (c_str "usage: kill pid..." ++ nl) [] in Ret (err, 1%Z, w)
  | _ :: args => let* w := kill_args os_kill w args in Ret ([], 0%Z, w)
  end.

(** ** ls *)
Record ustat := mk_ustat { us_type : Z; us_ino : Z; us_size : Z }.
Definition T_DIR : Z := 1.
Definition T_FILE : Z := 2.
Definition T_DEVICE : Z := 3.
Definition DIRSIZ : nat := 14.

(** [p]: behind the last slash among the first [n] characters. *)
Fixpoint after_slash (path : cstr) (n : nat) : nat :=
  match n with
  | 0 => 0
  | S k => if decide (path !! k = Some "/"%char) then S k else after_slash path k
  end.

(** The name and the static array. *)
Definition fmtname (buf : list ascii) (path : cstr) : outcome (cstr * list ascii) :=
  let p := drop (after_slash path (length path)) path in
  if DIRSIZ <=? length p then Ret (p, buf)
  else
    let buf := splice 0 p buf in
    let* buf := umemset buf (length p) " "%char (DIRSIZ - length p) in
    let* buf := store buf DIRSIZ NUL in
    Ret (cstr_prefix buf, buf).

Definition ls_line (nbuf : list ascii) (path : cstr) (st : ustat) : outcome (cstr * list ascii) :=
  let* '(name, nbuf) := fmtname nbuf path in
  let* out := vprintf true (c_str "%s %d %d %d" ++ nl) [AStr (Some name); AInt (us_type st); AInt (us_ino st); AInt (wrap32 (us_size st))] in
  Ret (out, nbuf).

Context (os_fstat : W -> Z -> option ustat * W) (os_stat : W -> cstr -> option ustat * W).

(** [struct dirent] as it was read. *)
Definition u_inum (de : cstr) : Z := Z.of_nat (nat_of_ascii (default NUL (de !! 0)) + 256 * nat_of_ascii (default NUL (de !! 1))).

Fixpoint ls_entries (w : W) (fd : Z) (buf nbuf : list ascii) (p fuel : nat) : outcome (cstr * list ascii * W) :=
  match fuel with
  | 0 => NoFuel
  | S fuel =>
      let '(n, de, w) := os_read w fd 16 in
      if (n =? 16)%Z then
        if (u_inum de =? 0)%Z then ls_entries w fd buf nbuf p fuel
        else
          let* buf := if p + DIRSIZ <=? length buf then Ret (splice p (take DIRSIZ (drop 2 de)) buf) else Undef in
          let* buf := store buf (p + DIRSIZ) NUL in
          let path := cstr_prefix buf in
          let '(r, w) := os_stat w path in
          let* '(out, nbuf) :=
            match r with
            | None => let* out := vprintf true (c_str "ls: cannot stat %s" ++ nl) [AStr (Some path)] in Ret (out, nbuf)
            | Some st => ls_line nbuf path st
            end in
          let* '(out', nbuf, w) := ls_entries w fd buf nbuf p fuel in
          Ret (out ++ out', nbuf, w)
      else Ret ([], nbuf, w)
  end.

(** What goes to descriptor 1 and to descriptor 2. *)
Definition ls (w : W) (nbuf : list ascii) (path : cstr) (fuel : nat) : outcome (cstr * cstr * list ascii * W) :=
  let '(fd, w) := os_open w path 0%Z in
  if (fd <? 0)%Z then
    let* err := vprintf true (c_str "ls: cannot open %s" ++ nl) [AStr (Some path)] in
    Ret ([], err, nbuf, w)
  else
    let '(r, w) := os_fstat w fd in
    match r with
    | None =>
        let* err := vprintf true (c_str "ls: cannot stat %s" ++ nl) [AStr (Some path)] in
        Ret ([], err, nbuf, os_close w fd)
    | Some st =>
        let* '(out, nbuf, w) :=
          if decide (us_type st = T_DEVICE \/ us_type st = T_FILE) then
            let* '(out, nbuf) := ls_line nbuf path st in Ret (out, nbuf, w)
          else if decide (us_type st = T_DIR) then
            if 512 <? length path + 1 + DIRSIZ + 1 then
              let* out := vprintf true (c_str "ls: path too long" ++ nl) [] in Ret (out, nbuf, w)
            else
              let* buf := ustrcpy (replicate 512 NUL) 0 (path ++ [NUL]) in
              let p := length path in
              let* buf := store buf p "/"%char in
              ls_entries w fd buf nbuf (S p) fuel
          else Ret ([], nbuf, w) in
        Ret (out, [], nbuf, os_close w fd)
    end.

Fixpoint ls_args (w : W) (nbuf : list ascii) (args : list cstr) (fuel : nat) : outcome (cstr * cstr * W) :=
  match args with
  | [] => Ret ([], [], w)
  | a :: args =>
      let* '(out, err, nbuf, w) := ls w nbuf a fuel in
      let* '(out', err', w) := ls_args w nbuf args fuel in
      Ret (out ++ out', err ++ err', w)
  end.

(** The exit code is 0. *)
Definition ls_main (w : W) (argv : list cstr) (fuel : nat) : outcome (cstr * cstr * W) :=
  let nbuf := replicate (DIRSIZ + 1) NUL in
  match argv with
  | [] | [_] => let* '(out, err, _, w) := ls w nbuf (c_str ".") fuel in Ret (out, err, w)
  | _ :: args => ls_args w nbuf args fuel
  end.
End programs.

(** ** Proofs *)

(** What a word is: the characters between two spaces, if there are any. *)
Definition is_space (c : ascii) : bool := bool_decide (c ∈ take 5 SPACES).

Fixpoint fields (data : cstr) : list cstr :=
  match data with
  | [] => [[]]
  | c :: data => if is_space c then [] :: fields data
                 else match fields data with f :: fs => (c :: f) :: fs | [] => [[c]] end
  end.

Definition words (data : cstr) : list cstr := filter (fun f => f <> []) (fields data).
Definition newlines (data : cstr) : cstr := filter (eq NEWLINE) data.

(** The counters without overflow. *)
Definition tally (st : counts) (ch : ascii) : counts :=
  mk_counts (n_lines st + if decide (ch = NEWLINE) then 1 else 0)
    (n_words st + if is_space ch || inword st then 0 else 1) (n_chars st + 1) (negb (is_space ch)).

Definition counts_ok (st : counts) : Prop := (n_lines st <= n_chars st /\ n_words st <= n_chars st)%Z.

Lemma strchr_spaces ch : exists r, ustrchr SPACES 0 ch = Ret r /\ is_space ch = bool_decide (is_Some r).
Proof.
  unfold ustrchr, is_space, SPACES. cbn [length take]. destruct (decide (ch ∈ [" "%char; CR; ascii_of_nat 9; NEWLINE; ascii_of_nat 11])) as [Hin|Hin].
  - rewrite bool_decide_eq_true_2 by done. rewrite !elem_of_cons, elem_of_nil in Hin.
    destruct Hin as [->|[->|[->|[->|[->|[]]]]]]; eexists; (split; [vm_compute; reflexivity|done]).
  - rewrite bool_decide_eq_false_2 by done. rewrite !not_elem_of_cons in Hin. destruct Hin as (H1 & H2 & H3 & H4 & H5 & _).
    exists None. split; [|done]. cbn [ustrchr_loop load lookup list_lookup from_option obind].
    repeat (rewrite decide_False by (done || by apply not_eq_sym)). done.
Qed.

Lemma wc_char_tally st ch : counts_ok st -> (n_chars st < INT_MAX)%Z -> wc_char st ch = Ret (tally st ch) /\ counts_ok (tally st ch).
Proof.
  intros [Hl Hw] Hc. destruct st as [l w c i]. cbn [n_lines n_words n_chars] in *. unfold tally, counts_ok. cbn [n_lines n_words n_chars inword wc_char].
  unfold inc. rewrite (proj2 (Z.ltb_lt c _)) by lia. cbn [obind]. rewrite (proj2 (Z.ltb_lt l _)), (proj2 (Z.ltb_lt w _)) by lia.
  destruct (strchr_spaces ch) as (r & Er & ->). rewrite Er. split.
  - case_decide; cbn [obind]; rewrite ?Z.add_0_r; destruct r, i; cbn; rewrite ?Z.add_0_r; done.
  - destruct (bool_decide _ || i); case_decide; lia.
Qed.

Lemma wc_buf_tally buf : forall st, counts_ok st -> (n_chars st + Z.of_nat (length buf) <= INT_MAX)%Z ->
  wc_buf st buf = Ret (fold_left tally buf st) /\ counts_ok (fold_left tally buf st) /\
  n_chars (fold_left tally buf st) = (n_chars st + Z.of_nat (length buf))%Z.
Proof.
  induction buf as [|ch buf IH]; intros st Hst Hc; cbn [wc_buf fold_left length] in *; [split_and!; [done|done|lia]|].
  destruct (wc_char_tally st ch Hst) as [-> Hst']; [lia|]. cbn [obind].
  destruct (IH (tally st ch) Hst') as (-> & H2 & ->); cbn [tally n_chars] in *; [lia|]. split_and!; [done|done|lia].
Qed.

Section readers.
Context {W : Type} `{ReadLaws W}.

Lemma wc_loop_tally fd : forall fuel w data st, delivers w fd data -> length data < fuel -> counts_ok st ->
  (n_chars st + Z.of_nat (length data) <= INT_MAX)%Z ->
  exists w', wc_loop w fd st fuel = Ret (0%Z, fold_left tally data st, w') /\ delivers w' fd [].
Proof.
  induction fuel as [|fuel IH]; intros w data st Hd Hf Hst Hc; [lia|]. cbn [wc_loop]. destruct (decide (data = [])) as [->|Hne].
  { destruct (read_end w fd 512 Hd) as (w' & -> & Hd'). by exists w'. }
  destruct (read_some w fd 512 data Hd ltac:(lia) Hne) as (k & w1 & Hk & Hkl & -> & Hd1).
  rewrite (proj2 (Z.ltb_lt _ _)) by lia. rewrite Nat2Z.id, take_take, Nat.min_id.
  assert (length (take k data) = k) as Hl by (rewrite length_take; lia).
  destruct (wc_buf_tally (take k data) st Hst) as (-> & Hst' & Hn); [lia|]. cbn [obind].
  destruct (IH w1 (drop k data) (fold_left tally (take k data) st) Hd1) as (w' & -> & Hd'); [rewrite length_drop; lia|done|rewrite Hn, length_drop; lia|].
  exists w'. split; [|done]. by rewrite <-fold_left_app, take_drop.
Qed.
End readers.

(** The counters in terms of the words. *)
Lemma tally_words data : forall st, exists f fs, fields data = f :: fs /\
  n_words (fold_left tally data st) =
    (n_words st + (if inword st then 0 else if decide (f = []) then 0 else 1) + Z.of_nat (length (filter (fun g => g <> []) fs)))%Z /\
  n_lines (fold_left tally data st) = (n_lines st + Z.of_nat (length (newlines data)))%Z.
Proof.
  induction data as [|c data IH]; intros st; cbn [fields fold_left].
  { exists [], []. split; [done|]. cbn [filter list_filter length newlines]. rewrite decide_True by done. split; [destruct (inword st); lia|]. cbn. lia. }
  destruct (IH (tally st c)) as (f & fs & E & Hw & Hl). rewrite E.
  assert (Z.of_nat (length (newlines (c :: data))) = (if decide (c = NEWLINE) then 1 else 0) + Z.of_nat (length (newlines data)))%Z as En.
  { unfold newlines. rewrite filter_cons. repeat case_decide; try congruence; cbn [length]; lia. }
  rewrite En, Hl, Hw. cbn [tally n_words n_lines inword]. destruct (is_space c) eqn:Es; cbn [negb orb].
  - exists [], (f :: fs). split; [done|]. rewrite filter_cons. split; [|lia].
    destruct (inword st); repeat case_decide; try congruence; try (by exfalso); cbn [length]; lia.
  - exists (c :: f), fs. split; [done|]. split; [|lia]. destruct (inword st); repeat case_decide; try congruence; lia.
Qed.

Lemma tally_counts data : let st := fold_left tally data (mk_counts 0 0 0 false) in
  n_lines st = Z.of_nat (length (newlines data)) /\ n_words st = Z.of_nat (length (words data)).
Proof.
  cbv zeta. destruct (tally_words data (mk_counts 0 0 0 false)) as (f & fs & E & -> & ->). cbn [n_lines n_words inword].
  split; [lia|]. unfold words. rewrite E, filter_cons. repeat case_decide; try congruence; cbn [length]; lia.
Qed.

(** C38.  [wc] counts what it says.  However [read] cuts a file of at most
    [INT_MAX] bytes into pieces, the line that is printed has the number of
    newlines, the number of words (the fields between spaces that are not empty) and
    the number of characters, and the name; no counter overflows, and a word
    that crosses the border of two pieces is counted once. *)
Theorem wc_counts {W} `{ReadLaws W} (w : W) (fd : Z) (name data : cstr) (fuel : nat) :
  delivers w fd data -> (Z.of_nat (length data) <= INT_MAX)%Z -> length data < fuel ->
  exists w', wc w fd name fuel =
    Ret (piece_text true (PNum W32 CD (Z.of_nat (length (newlines data)))) ++ " "%char ::
         piece_text true (PNum W32 CD (Z.of_nat (length (words data)))) ++ " "%char ::
         piece_text true (PNum W32 CD (Z.of_nat (length data))) ++ " "%char :: name ++ nl, None, w') /\
    delivers w' fd [].
Proof.
  intros Hd Hmax Hf. destruct (wc_loop_tally fd fuel w data (mk_counts 0 0 0 false) Hd Hf) as (w' & E & Hd'); [by split|done|].
  exists w'. split; [|done]. unfold wc. rewrite E. cbn [obind]. change (0 <? 0)%Z with false. cbn iota.
  destruct (wc_buf_tally data (mk_counts 0 0 0 false)) as (_ & _ & Hn); [by split|done|]. destruct (tally_counts data) as [Hl Hw].
  rewrite Hl, Hw, Hn. set (a := Z.of_nat (length (newlines data))). set (b := Z.of_nat (length (words data))).
  cbn [n_chars]. rewrite Z.add_0_l. set (c := Z.of_nat (length data)).
  set (ps := [PNum W32 CD a; PLit " "; PNum W32 CD b; PLit " "; PNum W32 CD c; PLit " "; PStr (Some name); PLit NEWLINE]%char).
  assert (vprintf true (c_str "%d %d %d %s" ++ nl) [AInt a; AInt b; AInt c; AStr (Some name)] = Ret (concat (piece_text true <$> ps))) as ->.
  { apply (vprintf_spec true ps). unfold ps. repeat constructor; try (by left); discriminate. }
  cbn [obind]. reflexivity.
Qed.

Lemma wc_counts_witness : exists w',
  wc (H := chunks 3) (c_str "to be  or" ++ nl ++ c_str "not" ++ nl) 0 (c_str "f") 20 = Ret (c_str "2 4 14 f" ++ nl, None, w').
Proof.
  destruct (@wc_counts _ (chunks 3) (chunks_laws 3 ltac:(lia)) (c_str "to be  or" ++ nl ++ c_str "not" ++ nl) 0 (c_str "f")
    (c_str "to be  or" ++ nl ++ c_str "not" ++ nl) 20) as (w' & E & _).
  - reflexivity.
  - vm_compute. discriminate.
  - cbn. lia.
  - exists w'. rewrite E. vm_compute. reflexivity.
Defined.

(** [fmtname] pads the last element of a path to [DIRSIZ] characters. *)
Lemma fmtname_spec buf path : length buf = DIRSIZ + 1 -> no_nul path ->
  let p := drop (after_slash path (length path)) path in
  exists buf', fmtname buf path = Ret (p ++ replicate (DIRSIZ - length p) " "%char, buf') /\ length buf' = DIRSIZ + 1.
Proof.
  intros Hb Hn. cbv zeta. unfold fmtname. set (p := drop _ _). destruct (Nat.leb_spec DIRSIZ (length p)) as [Hl|Hl].
  { exists buf. replace (DIRSIZ - length p) with 0 by lia. cbn [replicate]. by rewrite app_nil_r. }
  destruct (drop DIRSIZ buf) as [|x [|y r]] eqn:Ed; apply (f_equal length) in Ed as El; rewrite length_drop in El; cbn [length] in El; try lia.
  set (k := DIRSIZ - length p). assert (splice 0 p buf = p ++ drop (length p) buf) as E1 by done.
  rewrite umemset_spec by (rewrite E1, length_app, length_drop; lia). cbn [obind].
  assert (splice (length p) (replicate k " "%char) (splice 0 p buf) = (p ++ replicate k " "%char) ++ [x]) as ->.
  { rewrite E1. unfold splice. rewrite length_replicate, take_app_length, drop_app_ge, drop_drop by lia.
    replace (length p + (length p + k - length p)) with DIRSIZ by lia. by rewrite Ed, app_assoc. }
  assert (length (p ++ replicate k " "%char) = DIRSIZ) as Hk by (rewrite length_app, length_replicate; lia).
  rewrite store_ret by (rewrite length_app, Hk; cbn [length]; lia). cbn [obind]. rewrite insert_app_r_alt, Hk, Nat.sub_diag by lia. cbn [list_insert insert].
  exists ((p ++ replicate k " "%char) ++ [NUL]). split; [|by rewrite length_app, Hk]. do 2 f_equal. apply cstr_prefix_stop. apply no_nul_app. split; [by apply no_nul_drop|].
  unfold no_nul. intros Hin. apply elem_of_replicate in Hin as [E _]. discriminate.
Qed.

(** [cat] copies a file to a descriptor that takes all bytes. *)
Section copy.
Context {W : Type} `{ReadLaws W} (os_write : W -> Z -> cstr -> Z * W) (written : W -> cstr).
Hypotheses (read_written : forall w fd n, written (snd (os_read w fd n)) = written w)
  (write_all : forall w x, exists w', os_write w 1 x = (Z.of_nat (length x), w') /\ written w' = written w ++ x /\
    forall fd data, delivers w fd data -> delivers w' fd data).

Lemma cat_copies fd : forall fuel w data, delivers w fd data -> length data < fuel ->
  exists w', cat os_write w fd fuel = Ret ([], None, w') /\ written w' = written w ++ data.
Proof.
  induction fuel as [|fuel IH]; intros w data Hd Hf; [lia|]. cbn [cat]. destruct (decide (data = [])) as [->|Hne].
  { destruct (read_end w fd 512 Hd) as (w' & E & Hd'). pose proof (read_written w fd 512) as Hw. rewrite E in Hw |- *. cbn in Hw.
    exists w'. split; [done|]. by rewrite Hw, app_nil_r. }
  destruct (read_some w fd 512 data Hd ltac:(lia) Hne) as (k & w1 & Hk & Hkl & E & Hd1).
  pose proof (read_written w fd 512) as Hw. rewrite E in Hw |- *. cbn [snd] in Hw.
  rewrite (proj2 (Z.ltb_lt _ _)) by lia. rewrite Nat2Z.id, take_take, Nat.min_id.
  destruct (write_all w1 (take k data)) as (w2 & -> & Hw2 & Hd2). rewrite length_take_le by done. rewrite Z.eqb_refl. cbn [negb].
  destruct (IH w2 (drop k data)) as (w' & -> & Hw'); [by apply Hd2|rewrite length_drop; lia|].
  exists w'. split; [done|]. by rewrite Hw', Hw2, Hw, <-app_assoc, take_drop.
Qed.
End copy.
