(* ===== verification/Helpers.v ===== *)
(** * The helper processes of redirections

    [execute.c]: a command with several input files gets a feeder process that
    copies the files into a pipe, one with several output files a writer
    process that copies its output to each of them.  [read] and [write] may
    transfer fewer bytes than they were asked to. *)

From S2P Require Import Prelude Bytes Ulib.

Local Open Scope nat_scope.

Section helpers.
Context {W : Type} `{ReadOS W}.
Context (os_open : W -> cstr -> Z * W) (os_close : W -> Z -> W) (os_write : W -> Z -> cstr -> Z * W).

(** [while (written < bytes)] *)
Fixpoint write_loop (w : W) (fd : Z) (buf : cstr) (written fuel : nat) : outcome W :=
  if decide (written < length buf) then
    match fuel with
    | 0 => NoFuel
    | S fuel =>
        let '(n, w) := os_write w fd (drop written buf) in
        if (n <=? 0)%Z then Ret w else write_loop w fd buf (written + Z.to_nat n) fuel
    end
  else Ret w.

Definition write_buf (w : W) (fd : Z) (buf : cstr) : outcome W := write_loop w fd buf 0 (length buf).

(** The loop over the outputs. *)
Fixpoint write_each (w : W) (fds : list Z) (buf : cstr) : outcome W :=
  match fds with
  | [] => Ret w
  | fd :: fds => let* w := write_buf w fd buf in write_each w fds buf
  end.

(** [while ((bytes = read(f, buf, sizeof(buf))) > 0)] with the writes to [fds]. *)
Fixpoint copy_loop (w : W) (f : Z) (fds : list Z) (fuel : nat) : outcome W :=
  match fuel with
  | 0 => NoFuel
  | S fuel =>
      let '(bytes, got, w) := os_read w f 4096 in
      if (0 <? bytes)%Z then
        let* w := write_each w fds (take (Z.to_nat bytes) got) in
        copy_loop w f fds fuel
      else Ret w
  end.

(** The feeder: each file that can be opened. *)
Fixpoint feeder (w : W) (files : list cstr) (out : Z) (fuel : nat) : outcome W :=
  match files with
  | [] => Ret (os_close w out)
  | path :: files =>
      let '(f, w) := os_open w path in
      let* w :=
        if (0 <=? f)%Z then let* w := copy_loop w f [out] fuel in Ret (os_close w f)
        else Ret w in
      feeder w files out fuel
  end.

(** The writer. *)
Definition writer (w : W) (pipe : Z) (outs : list Z) (fuel : nat) : outcome W :=
  let* w := copy_loop w pipe outs fuel in
  Ret (foldl os_close (os_close w pipe) outs).
End helpers.

(** ** Everything is copied *)
Section copying.
Context {W : Type} `{ReadLaws W} (os_write : W -> Z -> cstr -> Z * W) (got : W -> Z -> cstr).
Hypotheses
  (read_got : forall w fd n, got (snd (os_read w fd n)) = got w)
  (write_some : forall w fd x, x <> [] -> exists k w', 0 < k <= length x /\ os_write w fd x = (Z.of_nat k, w') /\
    got w' fd = got w fd ++ take k x /\ (forall g, g <> fd -> got w' g = got w g) /\
    forall g data, delivers w g data -> delivers w' g data).

(** [w'] differs from [w] in that the descriptors [fds] got [x] more. *)
Record received (w w' : W) (fds : list Z) (x : cstr) : Prop := {
  rc_in : forall g, g ∈ fds -> got w' g = got w g ++ x;
  rc_out : forall g, g ∉ fds -> got w' g = got w g;
  rc_read : forall g data, delivers w g data -> delivers w' g data
}.

Lemma write_loop_all fd buf : forall fuel w n, n <= length buf -> length buf - n <= fuel ->
  exists w', write_loop os_write w fd buf n fuel = Ret w' /\ received w w' [fd] (drop n buf).
Proof.
  induction fuel as [|fuel IH]; intros w n Hn Hf; cbn [write_loop]; case_decide as Hlt; try lia.
  1, 3: exists w; split; [done|]; rewrite drop_ge by lia; split; [intros g _; by rewrite app_nil_r|done|done].
  assert (drop n buf <> []) as Hne by (intros E; apply (f_equal length) in E; rewrite length_drop in E; cbn in E; lia).
  destruct (write_some w fd (drop n buf) Hne) as (k & w1 & Hk & -> & Hg & Ho & Hd). rewrite length_drop in Hk.
  rewrite (proj2 (Z.leb_gt _ _)) by lia. rewrite Nat2Z.id. destruct (IH w1 (n + k)) as (w' & E & [R1 R2 R3]); [lia|lia|].
  exists w'. split; [done|]. split.
  - intros g Hg'. rewrite R1 by done. apply list_elem_of_singleton in Hg' as ->. by rewrite Hg, <-app_assoc, <-drop_drop, take_drop.
  - intros g Hg'. rewrite R2 by done. apply Ho. by intros ->; apply Hg', list_elem_of_singleton.
  - auto.
Qed.

Lemma write_each_all buf fds : NoDup fds -> forall w, exists w', write_each os_write w fds buf = Ret w' /\ received w w' fds buf.
Proof.
  induction 1 as [|fd fds Hnin Hnd IH]; intros w; cbn [write_each].
  { exists w. split; [done|]. split; [intros g Hg; by apply elem_of_nil in Hg|done|done]. }
  destruct (write_loop_all fd buf (length buf) w 0) as (w1 & E & [A1 A2 A3]); [lia|lia|]. unfold write_buf. rewrite E. cbn [obind].
  rewrite drop_0 in A1. destruct (IH w1) as (w' & -> & [R1 R2 R3]). exists w'. split; [done|]. split.
  - intros g Hg. apply elem_of_cons in Hg as [->|Hg].
    + rewrite R2 by done. apply A1, list_elem_of_singleton. done.
    + rewrite R1 by done. f_equal. apply A2. rewrite list_elem_of_singleton. congruence.
  - intros g Hg. apply not_elem_of_cons in Hg as [Hg1 Hg2]. rewrite R2 by done. apply A2. by rewrite list_elem_of_singleton.
  - auto.
Qed.

(** A file or the output of a command reaches every descriptor completely and
    in order, whatever the calls transfer at a time. *)
Lemma copy_loop_all f fds : NoDup fds -> forall fuel w data, delivers w f data -> length data < fuel ->
  exists w', copy_loop os_write w f fds fuel = Ret w' /\ delivers w' f [] /\
    (forall g, g ∈ fds -> got w' g = got w g ++ data) /\ (forall g, g ∉ fds -> got w' g = got w g).
Proof.
  intros Hnd. induction fuel as [|fuel IH]; intros w data Hd Hf; [lia|]. cbn [copy_loop]. destruct (decide (data = [])) as [->|Hne].
  { destruct (read_end w f 4096 Hd) as (w' & E & Hd'). pose proof (read_got w f 4096) as Hg. rewrite E in Hg |- *. cbn [snd] in Hg.
    exists w'. split_and!; [done|done| |]; intros g _; by rewrite Hg, ?app_nil_r. }
  destruct (read_some w f 4096 data Hd ltac:(lia) Hne) as (k & w1 & Hk & Hkl & E & Hd1).
  pose proof (read_got w f 4096) as Hg. rewrite E in Hg |- *. cbn [snd] in Hg.
  rewrite (proj2 (Z.ltb_lt _ _)) by lia. rewrite Nat2Z.id, take_take, Nat.min_id.
  destruct (write_each_all (take k data) fds Hnd w1) as (w2 & -> & [R1 R2 R3]). cbn [obind].
  destruct (IH w2 (drop k data)) as (w' & -> & Hd' & G1 & G2); [by apply R3|rewrite length_drop; lia|].
  exists w'. split_and!; [done|done| |]; intros g Hin.
  - by rewrite G1, R1, Hg, <-app_assoc, take_drop by done.
  - by rewrite G2, R2, Hg by done.
Qed.
End copying.

(** ** The feeder and its reader

    The command that would read the pipe waits for the end of the feeder
    before it is executed: nothing takes bytes out of the pipe while the feeder
    still has some to write. *)
Record feeding := mk_feeding { to_write : nat; in_pipe : nat; feeder_done : bool; reader_runs : bool }.

Inductive feed_step (capacity : nat) : feeding -> feeding -> Prop :=
| Feed_write n k : 0 < n -> n <= to_write k -> in_pipe k + n <= capacity -> feeder_done k = false ->
    feed_step capacity k (mk_feeding (to_write k - n) (in_pipe k + n) false (reader_runs k))
| Feed_end k : to_write k = 0 -> feed_step capacity k (mk_feeding 0 (in_pipe k) true (reader_runs k))
| Feed_waited k : feeder_done k = true -> feed_step capacity k (mk_feeding (to_write k) (in_pipe k) true true)
| Feed_read n k : reader_runs k = true -> n <= in_pipe k ->
    feed_step capacity k (mk_feeding (to_write k) (in_pipe k - n) (feeder_done k) (reader_runs k)).

Definition feed_start (total : nat) : feeding := mk_feeding total 0 false false.

(** Files that exceed the capacity of the pipe: the feeder never ends and the
    command never runs; the state in which the pipe is full is reached and
    nothing happens there any more. *)
Lemma feeder_blocks (capacity total : nat) : capacity < total ->
  (forall k, rtc (feed_step capacity) (feed_start total) k -> feeder_done k = false /\ reader_runs k = false /\ in_pipe k + to_write k = total) /\
  rtc (feed_step capacity) (feed_start total) (mk_feeding (total - capacity) capacity false false) /\
  forall k, ~ feed_step capacity (mk_feeding (total - capacity) capacity false false) k.
Proof.
  intros Hc. split; [|split].
  - assert (forall k k', feed_step capacity k k' ->
      feeder_done k = false /\ reader_runs k = false /\ in_pipe k + to_write k = total /\ in_pipe k <= capacity ->
      feeder_done k' = false /\ reader_runs k' = false /\ in_pipe k' + to_write k' = total /\ in_pipe k' <= capacity) as Hstep.
    { intros k k' Hs (H1 & H2 & H3 & H4). destruct Hs; cbn [feeder_done reader_runs in_pipe to_write]; split_and!; try congruence; lia. }
    assert (forall k k', rtc (feed_step capacity) k k' ->
      feeder_done k = false /\ reader_runs k = false /\ in_pipe k + to_write k = total /\ in_pipe k <= capacity ->
      feeder_done k' = false /\ reader_runs k' = false /\ in_pipe k' + to_write k' = total /\ in_pipe k' <= capacity) as Hrtc.
    { induction 1; eauto. }
    intros k Hk. destruct (Hrtc _ _ Hk) as (H1 & H2 & H3 & _); [cbn; lia|done].
  - destruct capacity as [|c]; [rewrite Nat.sub_0_r; constructor|]. apply rtc_once.
    apply (Feed_write (S c) (S c) (feed_start total)); cbn; lia || done.
  - intros k Hs. inversion Hs; cbn in *; try discriminate; lia.
Qed.
